(* ===== verification/_CoqProject ===== *)
-Q . S2P
Prelude.v
Wire.v
Tags.v
Checksum.v
Fcs.v
Build.v
Link.v
Client.v
Discovery.v
Waiting.v
Phases.v
Session.v
SessionSafety.v
Md5.v
LinkedList.v
RelayTable.v
Relay.v
RelaySafety.v
RelayMain.v
Server.v
ServerSafety.v
ServerLoop.v
ServerReap.v
ServerMain.v
Callout.v
Acl.v
Inet6.v
Links.v
Pim.v
RpMatch.v
Vif.v
Mrt.v
PimMsg.v
PimSend.v
Oifs.v
OifsWeb.v
OifsEntry.v
OifsOk.v
Rp.v
PimJp.v
PimBsr.v
PimNbr.v
PimReg.v
PimJoin.v
PimAssert.v
PimRoute.v
PimTimer.v
PimDaemon.v
PimJpWire.v
PimJpOk.v
PimAssertOk.v
PimNbrOk.v
PimLogic.v
MrtSpec.v
MrtTable.v
MrtCreate.v
MrtRp.v
MrtDelete.v
MrtDrop.v
MrtCache.v
MrtFind.v
MrtRoute.v
MrtServe.v
MrtClient.v
Mld.v
MldProto.v
MldMem.v
MldSpec.v
MldInv.v
MldOk.v
MldFloat.v
MldFire.v
MldRun.v
MldLife.v
MainLoop.v
PimVif.v
PimVifOk.v
