(* ===== verification/Prelude.v ===== *)
(** * fdgw: the PPPoE tools, the multicast routing daemon and the proxy's access lists

    fdgw is a router on a floppy disk: a small NetBSD system and the programs it
    carries.  This library models and verifies those of its C programs that have
    logic of their own: the PPPoE client, server and relay of
    src/src/gnu/rp-pppoe/src, the PIM sparse mode daemon of
    src/src/usr.sbin/pim6sd/pim6sd, and the access lists of
    src/src/sbin/transproxy.

    ** Conventions

    A C function is a program of the monad [Cmd] of this file: it runs on a
    state and ends with a result, with a call of [exit], or with [Stop]: an
    access outside an object ([OutOfBounds]), a loop that used up its fuel
    ([OutOfFuel]), a wait for input that does not come ([Blocked]).  The weakest
    precondition [wp] excludes the first two, so a theorem about [wp] also says
    that the code stays in bounds and that the loop ends.  Buffers are lists of bytes
    and every access to one is checked.  Integers are [Z], wrapped where C wraps
    them ([u8], [u16], [u32], [s32]); [int], [long] and pointers have 32 bits
    and memory is little-endian, as on the i386 the floppies are made for.
    What an uninitialised variable holds is an argument of the theorem
    ([garbage], [junk]).  Members and functions keep the names of the source.

    ** rp-pppoe

    - Wire (pppoe.h): packets, tags, constants, byte images.  Tags (common.c:
      parsePacket, findTag; relay.c: addTag, insertBytes, removeBytes).
      Checksum (common.c: computeTCPChecksum, clampMSS).  Fcs (ppp.c: the
      frame check sequence, byte stuffing).  Build: how a discovery packet is
      put together with CHECK_ROOM.  Link (if.c: receivePacket, with the BPF
      buffer).  Md5 (md5.c).
    - The client: Client (state, sending, sendPADT, fatal errors), Discovery
      (sendPADI, sendPADR, tag callbacks), Waiting (the two loops that wait for
      PADO and PADS), Phases ([discovery]), Session (ppp.c and the session
      part of pppoe.c), SessionSafety ([session] for every input).
    - The relay: LinkedList and RelayTable (the tables of relay.c), Relay (the
      handlers), RelaySafety (their contracts and the main loop), RelayMain
      (options and start-up).
    - The server: Server (pppoe-server.c: the handlers), ServerSafety (their
      contracts), ServerLoop (the main loop), ServerReap (the SIGCHLD handler
      interleaved with the loop), ServerMain (options and start-up).

    Client, server and relay speak through packets only; their theorems meet in
    the formats of Wire and Tags.  What the theorems show: discovery ends with a
    session that the peer offered and confirmed, within a bounded number of
    packets; the session carries PPP frames unchanged in both directions and
    survives any input; the relay keeps its tables consistent and translates
    exactly the packets of its sessions; the server admits exactly the requests
    with a valid cookie and a free slot, never signals a process that is not
    its own and forgets no child; tags, checksums, frame checks and digests
    agree with reference definitions.

    ** pim6sd

    - Callout (callout.c): the timer queue, against an agenda of absolute times.
    - Inet6 (inet6.c, pimd.h): the order of addresses, prefixes and masks.
    - Pim (mrt.h, vif.h): the memory of the daemon: a heap per structure, with
      malloc and free.  Links: doubly linked lists on a heap.
    - RpMatch (rp.c, crc.c): the RP of a group; routers with the same RP-set
      choose the same RP.
    - Vif (vif.c, route.c): interfaces, the route toward a source.
    - Oifs (route.c, kern.c): the outgoing interfaces of routes.  OifsWeb: how
      routes hang together with groups and RPs; OifsEntry, OifsOk: whatever
      sets of interfaces a route gets, [change_interfaces] leaves every route
      with the interfaces its own sets and those it inherits say, and the
      kernel with the same.
    - PimMsg (pimd.h, pim6.c): reading, building, summing and sending messages;
      PimSend: the checksum of what is sent is right.
    - Rp (rp.c): adding and deleting RPs and group prefixes, remapping groups.
    - Mrt (mrt.c): the routing table with its cache entries, pointer by pointer.
      MrtSpec: what it promises, a finite map of routes and the answers of
      [find_route] on it.  PimLogic: a separation logic for the daemon's memory
      (a structure is on several lists by different members, so the logic owns
      members).  MrtTable: the table in memory.  MrtCreate, MrtRp, MrtDelete,
      MrtDrop, MrtCache, MrtFind, MrtRoute, MrtServe: every function of mrt.c
      keeps that representation and does what the map says.  MrtClient: so
      whatever the daemon asks from [init_pim6_mrt] on, the code answers as the
      map, without a bad access ([start] says what is assumed: memory does not
      run out, the RP-set and the interfaces stay as they are).  A request for
      an (S,G) entry is made for groups that have an RP or are source specific:
      the code reads through a null pointer otherwise.

    - The messages of pim6_proto.c, each with the function that receives it and
      the one that sends it: PimJp (building join/prune messages), PimJoin
      (receiving them), PimNbr (hello messages, neighbours), PimReg (register
      messages), PimAssert, PimBsr (bootstrap messages, candidate RPs, with the
      start of rp.c).  PimRoute (route.c): leaves, and what the kernel asks.
      PimTimer (timer.c): what is aged.  PimDaemon (pim6.c, main.c): which
      message goes where.  PimJpWire, PimJpOk: the joins and prunes that are
      added are those that a receiver reads, message by message; one entry more
      overruns the working area ([jp_message_overrun]).  PimAssertOk: of the
      routers on a link one wins.  PimNbrOk: a hello message comes through.
    - Interfaces (vif.c, config.c, the calls for interfaces of kern.c).  PimVif:
      the table of interfaces, starting, stopping and watching them, the register
      interface, and [age_vifs] (timer.c).  PimVifOk: the table is what the
      kernel tells ([interfaces_gathered]); an interface that was lost and comes
      back ends the daemon ([interface_back]).
    - MainLoop (main.c): sleeping, signals, and ageing the timers by the time
      that has passed, over every timer service and with the functions it calls
      as arguments: no timer is late and no part of a second is lost
      ([timers_on_time]), as long as the functions keep to the timer service
      ([tame]).
    - Listeners (mld6.c, mld6_proto.c, mld6v2.c, mld6v2_proto.c).  Mld: the lists
      of groups and sources, timers as calls of any [TimerService], messages
      out, and the codes of MldFloat.  MldProto: messages in and the functions
      of the timers; what is learnt goes to the routing table through the class
      [Leaves], which [route_leaves] implements.  MldSpec: the protocol as soft
      state, a list of alarms without lists of nodes, pointers or timer numbers.
      MldMem: lists of nodes.  MldInv: the invariant between the two, every
      alarm a timer whose memory leads to its group.  MldOk, MldFire, MldRun:
      every message and every timer keeps it, so whatever happens the daemon
      does what the soft state says ([listeners_refine]), over every timer
      service with the laws of Callout ([TimerLaws]; the queue of callout.c has
      them) and every table whose leaves can be changed ([LeavesOk]).  MldLife:
      in silence every group is forgotten.  The theorems are about interfaces
      that speak version 1 of the protocol: version 2 does not keep the
      invariant, since it leaves timers behind that lead to freed groups and
      reads members it has not set.

    ** transproxy

    - Acl (acl.c): the access lists accept and decide as their text says.

    ** Fuel

    Loops that C runs until a condition holds take fuel, and the theorems show
    that what the callers give is enough: loops over a packet get its length,
    loops over lists one step more than there are nodes (or addresses given
    out, [Pim.fuel_of]), the service loops of client, server and relay as many
    steps as there are events in the script of the outside world they run on.
    Lists of listeners get one step more than nodes were allocated
    ([Mld.la_fuel]).  The mutual recursion of delete_srcentry and delete_grpentry is two calls
    deep, that of delete_grp_mask_entry and delete_rp_entry and the recursion of
    change_interfaces are three.

    ** Not modelled

    Log and debug output; usage texts; rp-pppoe: the option parsing of pppoe.c,
    the ioctl sequences, DLPI and BPF set-up of if.c (openInterface is its
    result), plugin.c (a pppd plug-in over pppd's own tables), pppoe-sniff.c and
    debug.c (output).  pim6sd: the routing socket and socket options (routesock.c,
    kern.c), reading from the sockets, restart, the ancillary data of messages,
    the configuration file, tracing and output.  transproxy's tproxy.c, stone,
    ttcp, libtransparent, mtrace6 and pim6stat move bytes between sockets or
    print; they have no contract beyond that of the calls they make.  Shell
    scripts, models and configurations of the floppies are not C. *)

From stdpp Require Import base list numbers gmap strings.

Open Scope Z_scope.

(** ** Machine integers *)

Definition u8 (x : Z) : Z := x mod 2 ^ 8.
Definition u16 (x : Z) : Z := x mod 2 ^ 16.
Definition u32 (x : Z) : Z := x mod 2 ^ 32.

(** Two's complement reading of a 32-bit pattern ([int] and [pid_t]). *)
Definition s32 (x : Z) : Z := if decide (u32 x < 2 ^ 31) then u32 x else u32 x - 2 ^ 32.

(** [ntohs] and [htons] on a little-endian machine: swap the two bytes. *)
Definition htons (x : Z) : Z :=
  Z.lor (Z.shiftl (Z.land x 0xff) 8) (Z.land (Z.shiftr x 8) 0xff).
Definition ntohs (x : Z) : Z := htons x.

Definition is_byte (b : Z) : Prop := 0 <= b < 256.
Definition bytes (l : list Z) : Prop := Forall is_byte l.

(** Little-endian images of the integers the code copies with [memcpy]. *)
Definition le16 (x : Z) : list Z := [u8 x; u8 (Z.shiftr x 8)].
Definition le32 (x : Z) : list Z :=
  [u8 x; u8 (Z.shiftr x 8); u8 (Z.shiftr x 16); u8 (Z.shiftr x 24)].
Definition be16 (x : Z) : list Z := [u8 (Z.shiftr x 8); u8 x].

(** A 16-bit big-endian field read byte by byte. *)
Definition rd_be16 (b0 b1 : Z) : Z := Z.shiftl b0 8 + b1.
Definition un_le32 (b : list Z) : Z :=
  match b with
  | [b0; b1; b2; b3] => b0 + Z.shiftl b1 8 + Z.shiftl b2 16 + Z.shiftl b3 24
  | _ => 0
  end.

(** ** Buffers: every access is bounds checked *)

Definition zlen {A} (l : list A) : Z := Z.of_nat (length l).

Definition rd {A} (b : list A) (i : Z) : option A :=
  if decide (0 <= i) then b !! Z.to_nat i else None.

Definition slice {A} (b : list A) (off n : Z) : option (list A) :=
  if decide (0 <= off /\ 0 <= n /\ off + n <= zlen b)
  then Some (take (Z.to_nat n) (drop (Z.to_nat off) b)) else None.

(** [memcpy (b + off, src, length src)], also used for [memmove]: the source
    is read before the destination is written. *)
Definition store {A} (b : list A) (off : Z) (src : list A) : option (list A) :=
  if decide (0 <= off /\ off + zlen src <= zlen b)
  then Some (take (Z.to_nat off) b ++ src ++ drop (Z.to_nat off + length src) b)
  else None.

(** ** Decimal numbers in texts *)

Definition digit (d : Z) : Z := if decide (d < 10) then 48 + d else 87 + d.

(** ["%d"] of a number that is not negative. *)
Fixpoint dec_digits (fuel : nat) (x : Z) : list Z :=
  match fuel with
  | O => []
  | S fuel => if decide (x < 10) then [digit x]
              else dec_digits fuel (x / 10) ++ [digit (x mod 10)]
  end.
Definition dec (x : Z) : list Z := dec_digits 20 x.

(** ** Commands: a state monad with exit and undefined behaviour *)

Inductive stop := OutOfBounds | OutOfFuel | Blocked.

Inductive outcome (S A : Type) : Type :=
| Ok (a : A) (s : S)
| Exit (code : Z) (s : S)
| Stop (why : stop) (s : S).
Arguments Ok {S A}.
Arguments Exit {S A}.
Arguments Stop {S A}.

Definition Cmd (S A : Type) : Type := S -> outcome S A.

Definition ret {S A} (a : A) : Cmd S A := fun s => Ok a s.
Definition bind {S A B} (m : Cmd S A) (k : A -> Cmd S B) : Cmd S B :=
  fun s => match m s with
           | Ok a s' => k a s'
           | Exit c s' => Exit c s'
           | Stop w s' => Stop w s'
           end.
Definition of_option {S A} (o : option A) : Cmd S A :=
  fun s => match o with Some a => Ok a s | None => Stop OutOfBounds s end.
Definition get {S} : Cmd S S := fun s => Ok s s.
Definition modify {S} (f : S -> S) : Cmd S unit := fun s => Ok tt (f s).
Definition exit {S A} (code : Z) : Cmd S A := fun s => Exit code s.
Definition halt {S A} (w : stop) : Cmd S A := fun s => Stop w s.

Declare Scope cmd_scope.
Delimit Scope cmd_scope with cmd.
Notation "'let!' x ':=' m 'in' k" := (bind m (fun x => k))
  (at level 10, x pattern, m at level 99, k at level 200,
   format "'[v' 'let!'  x  ':='  m  'in'  '/' k ']'") : cmd_scope.
Notation "'do!' m ';;' k" := (bind m (fun _ => k))
  (at level 10, m at level 99, k at level 200,
   format "'[v' 'do!'  m  ';;'  '/' k ']'") : cmd_scope.
Notation "'chk!' x ':=' o 'in' k" := (bind (of_option o) (fun x => k))
  (at level 10, x pattern, o at level 99, k at level 200,
   format "'[v' 'chk!'  x  ':='  o  'in'  '/' k ']'") : cmd_scope.
Open Scope cmd_scope.

(** Final state and "no undefined behaviour" of an outcome. *)
Definition final {S A} (o : outcome S A) : S :=
  match o with Ok _ s => s | Exit _ s => s | Stop _ s => s end.
Definition stops {S A} (w : stop) (o : outcome S A) : Prop :=
  match o with Stop w' _ => w' = w | _ => False end.
Definition safe {S A} (o : outcome S A) : Prop :=
  match o with Stop OutOfBounds _ => False | Stop OutOfFuel _ => False | _ => True end.

(** ** Tactics *)

Create HintDb pppoe discriminated.
Create Rewrite HintDb zlen.

(** Case analysis on the first [decide], boolean test or match of the goal. *)
Ltac split_ifs :=
  repeat (case_match || case_decide); simplify_eq/=.

(** [lia] with division, used for masks and shifts turned into [mod], [/]. *)
Ltac zlia := Z.div_mod_to_equations; lia.

(** ** Integer lemmas *)

Lemma u8_range x : 0 <= u8 x < 256.
Proof. unfold u8. apply Z.mod_pos_bound. lia. Qed.
Lemma u16_range x : 0 <= u16 x < 65536.
Proof. unfold u16. apply Z.mod_pos_bound. lia. Qed.
Lemma u32_range x : 0 <= u32 x < 2 ^ 32.
Proof. unfold u32. apply Z.mod_pos_bound. lia. Qed.

Lemma u8_small x : 0 <= x < 256 -> u8 x = x.
Proof. unfold u8. intros. apply Z.mod_small. lia. Qed.
Lemma u16_small x : 0 <= x < 65536 -> u16 x = x.
Proof. unfold u16. intros. apply Z.mod_small. lia. Qed.
Lemma u32_small x : 0 <= x < 2 ^ 32 -> u32 x = x.
Proof. unfold u32. intros. apply Z.mod_small. lia. Qed.

Lemma u32_add_l x y : u32 (u32 x + y) = u32 (x + y).
Proof. unfold u32. apply Zplus_mod_idemp_l. Qed.
Lemma u32_add_r x y : u32 (x + u32 y) = u32 (x + y).
Proof. unfold u32. apply Zplus_mod_idemp_r. Qed.
Lemma u32_idemp x : u32 (u32 x) = u32 x.
Proof. unfold u32. by rewrite Z.mod_mod. Qed.

Lemma land_ff x : Z.land x 0xff = x mod 256.
Proof. change 0xff with (Z.ones 8). rewrite Z.land_ones by lia. done. Qed.
Lemma land_ffff x : Z.land x 0xffff = x mod 65536.
Proof. change 0xffff with (Z.ones 16). rewrite Z.land_ones by lia. done. Qed.
Lemma shiftr_8 x : Z.shiftr x 8 = x / 256.
Proof. rewrite Z.shiftr_div_pow2 by lia. done. Qed.
Lemma shiftl_8 x : Z.shiftl x 8 = x * 256.
Proof. rewrite Z.shiftl_mul_pow2 by lia. done. Qed.

(** A disjoint [lor] is an addition. *)
Lemma lor_shiftl_add k a b : 0 <= k -> 0 <= b < 2 ^ k ->
  Z.lor (Z.shiftl a k) b = a * 2 ^ k + b.
Proof.
  intros Hk Hb. rewrite <- Z.shiftl_mul_pow2 by lia.
  rewrite Z.add_nocarry_lxor.
  - apply Z.bits_inj'; intros n Hn.
    rewrite Z.lor_spec, Z.lxor_spec.
    destruct (decide (n < k)).
    + rewrite Z.shiftl_spec_low by lia. by destruct (Z.testbit b n).
    + replace (Z.testbit b n) with false.
      * by destruct (Z.testbit (Z.shiftl a k) n).
      * symmetry. rewrite <- (Z.mod_small b (2 ^ k)) by lia.
        apply Z.mod_pow2_bits_high. lia.
  - apply Z.bits_inj'; intros n Hn. rewrite Z.land_spec, Z.bits_0.
    destruct (decide (n < k)).
    + by rewrite Z.shiftl_spec_low by lia.
    + replace (Z.testbit b n) with false; [by rewrite andb_false_r|].
      symmetry. rewrite <- (Z.mod_small b (2 ^ k)) by lia.
      apply Z.mod_pow2_bits_high. lia.
Qed.
Lemma lor_low x y k : 0 <= k -> 0 <= y < 2 ^ k -> Z.lor (x * 2 ^ k) y = x * 2 ^ k + y.
Proof. intros. rewrite <- Z.shiftl_mul_pow2 by lia. rewrite lor_shiftl_add by done. rewrite Z.shiftl_mul_pow2; lia. Qed.

Lemma htons_arith x : htons x = (x mod 256) * 256 + (x / 256) mod 256.
Proof.
  unfold htons. rewrite !land_ff, shiftr_8.
  apply (lor_shiftl_add 8); [lia|].
  pose proof (Z.mod_pos_bound (x / 256) 256). lia.
Qed.

Lemma htons_range x : 0 <= htons x < 65536.
Proof. rewrite htons_arith. zlia. Qed.

Lemma htons_u16 x : htons (u16 x) = htons x.
Proof. rewrite !htons_arith. unfold u16. change (2 ^ 16) with 65536. zlia. Qed.

(** The byte swap is an involution on 16-bit values. *)
Lemma ntohs_htons x : ntohs (htons x) = u16 x.
Proof.
  unfold ntohs, u16. rewrite !htons_arith. change (2 ^ 16) with 65536. zlia.
Qed.

Lemma htons_inj x y : 0 <= x < 65536 -> 0 <= y < 65536 -> htons x = htons y -> x = y.
Proof.
  intros Hx Hy E. apply (f_equal ntohs) in E.
  rewrite !ntohs_htons, !u16_small in E by lia. done.
Qed.

Lemma le16_htons x : le16 (htons x) = be16 x.
Proof.
  unfold le16, be16, u8. rewrite !shiftr_8, htons_arith. change (2 ^ 8) with 256.
  f_equal; [|f_equal]; zlia.
Qed.

Lemma rd_be16_be16 x : 0 <= x < 65536 -> rd_be16 (u8 (Z.shiftr x 8)) (u8 x) = x.
Proof.
  intros. unfold rd_be16, u8. rewrite shiftl_8, shiftr_8. change (2 ^ 8) with 256. zlia.
Qed.

Lemma un_le32_le32 x : 0 <= x < 2 ^ 32 -> un_le32 (le32 x) = x.
Proof.
  intros. unfold le32, un_le32, u8. rewrite !Z.shiftl_mul_pow2, !Z.shiftr_div_pow2 by lia.
  change (2 ^ 8) with 256. change (2 ^ 16) with 65536. change (2 ^ 24) with 16777216.
  change (2 ^ 32) with 4294967296 in *. zlia.
Qed.

Lemma s32_u32 x : - 2 ^ 31 <= x < 2 ^ 31 -> s32 (u32 x) = x.
Proof. intros. unfold s32, u32. case_decide; zlia. Qed.

(** Property of every byte: enough to check the 256 values. *)
Lemma byte_ind (P : Z -> bool) :
  forallb P (seqZ 0 256) = true -> forall b, is_byte b -> P b = true.
Proof.
  intros H b Hb. rewrite forallb_forall in H. apply H.
  apply list_elem_of_In, elem_of_seqZ. unfold is_byte in Hb. lia.
Qed.

(** ** Buffer lemmas *)

Lemma zlen_nonneg {A} (l : list A) : 0 <= zlen l.
Proof. unfold zlen. lia. Qed.
Lemma zlen_app {A} (l k : list A) : zlen (l ++ k) = zlen l + zlen k.
Proof. unfold zlen. rewrite length_app. lia. Qed.
Lemma zlen_cons {A} (x : A) l : zlen (x :: l) = 1 + zlen l.
Proof. unfold zlen. cbn [length]. lia. Qed.
Lemma zlen_nil {A} : zlen (@nil A) = 0.
Proof. done. Qed.
Lemma zlen_to_nat {A} (l : list A) : Z.to_nat (zlen l) = length l.
Proof. unfold zlen. lia. Qed.

Lemma rd_Some {A} (b : list A) i : 0 <= i < zlen b -> exists x, rd b i = Some x.
Proof.
  intros Hi. unfold rd. rewrite decide_True by lia.
  apply lookup_lt_is_Some. unfold zlen in Hi. lia.
Qed.

Lemma rd_inv {A} (b : list A) i x : rd b i = Some x -> 0 <= i < zlen b.
Proof.
  unfold rd. case_decide; [|done]. intros E%lookup_lt_Some. unfold zlen. lia.
Qed.

Lemma rd_app_l {A} (b c : list A) i : i < zlen b -> rd (b ++ c) i = rd b i.
Proof.
  intros Hi. unfold rd. case_decide; [|done]. apply lookup_app_l. unfold zlen in *. lia.
Qed.

Lemma rd_app_r {A} (b c : list A) i : zlen b <= i -> rd (b ++ c) i = rd c (i - zlen b).
Proof.
  intros Hi. unfold rd. pose proof (zlen_nonneg b). rewrite !decide_True by lia.
  rewrite lookup_app_r by (unfold zlen in *; lia). f_equal. unfold zlen in *. lia.
Qed.

Lemma rd_bytes b i x : bytes b -> rd b i = Some x -> is_byte x.
Proof.
  unfold bytes, rd. case_decide; [|done]. intros Hb E.
  eapply Forall_lookup_1 in Hb; eauto.
Qed.

Lemma slice_Some {A} (b : list A) off n :
  0 <= off -> 0 <= n -> off + n <= zlen b ->
  slice b off n = Some (take (Z.to_nat n) (drop (Z.to_nat off) b)).
Proof. intros. unfold slice. by rewrite decide_True by lia. Qed.

Lemma slice_inv {A} (b : list A) off n s :
  slice b off n = Some s -> 0 <= off /\ 0 <= n /\ off + n <= zlen b /\ zlen s = n.
Proof.
  unfold slice. case_decide; [|done]. intros [= <-].
  repeat split; try lia. unfold zlen in *. rewrite length_take, length_drop. lia.
Qed.

Lemma slice_app_mid {A} (a b c : list A) :
  slice (a ++ b ++ c) (zlen a) (zlen b) = Some b.
Proof.
  rewrite slice_Some by (rewrite ?zlen_app; pose proof (zlen_nonneg a);
    pose proof (zlen_nonneg b); pose proof (zlen_nonneg c); lia).
  rewrite !zlen_to_nat, drop_app_length, take_app_length. done.
Qed.

Lemma store_Some {A} (b : list A) off src :
  0 <= off -> off + zlen src <= zlen b ->
  store b off src =
    Some (take (Z.to_nat off) b ++ src ++ drop (Z.to_nat off + length src) b).
Proof. intros. unfold store. by rewrite decide_True by lia. Qed.

Lemma store_zlen {A} (b : list A) off src b' :
  store b off src = Some b' -> zlen b' = zlen b.
Proof.
  unfold store. case_decide as H; [|done]. intros [= <-].
  rewrite !zlen_app. unfold zlen in *. rewrite length_take, length_drop. lia.
Qed.

Lemma store_app_mid {A} (a b b' c : list A) :
  length b = length b' -> store (a ++ b ++ c) (zlen a) b' = Some (a ++ b' ++ c).
Proof.
  intros E. rewrite store_Some.
  - rewrite zlen_to_nat, take_app_length, drop_app_ge by lia.
    rewrite drop_app_ge by lia.
    replace (length a + length b' - length a - length b)%nat with 0%nat by lia. done.
  - apply zlen_nonneg.
  - rewrite !zlen_app. unfold zlen. lia.
Qed.

Lemma bytes_take n b : bytes b -> bytes (take n b).
Proof. apply Forall_take. Qed.
Lemma bytes_drop n b : bytes b -> bytes (drop n b).
Proof. apply Forall_drop. Qed.
Lemma bytes_app a b : bytes (a ++ b) <-> bytes a /\ bytes b.
Proof. apply Forall_app. Qed.
Lemma bytes_slice b off n s : bytes b -> slice b off n = Some s -> bytes s.
Proof.
  unfold slice. case_decide; [|done]. intros Hb [= <-]. by apply bytes_take, bytes_drop.
Qed.
Lemma bytes_store b off src b' : bytes b -> bytes src -> store b off src = Some b' -> bytes b'.
Proof.
  unfold store. case_decide; [|done]. intros Hb Hs [= <-].
  rewrite !bytes_app. auto using bytes_take, bytes_drop.
Qed.
Lemma bytes_le16 x : bytes (le16 x).
Proof. repeat constructor; apply u8_range. Qed.
Lemma bytes_be16 x : bytes (be16 x).
Proof. repeat constructor; apply u8_range. Qed.
Lemma bytes_le32 x : bytes (le32 x).
Proof. repeat constructor; apply u8_range. Qed.

#[export] Hint Resolve bytes_take bytes_drop bytes_le16 bytes_be16 bytes_le32
  zlen_nonneg u8_range u16_range u32_range htons_range : pppoe.
#[export] Hint Rewrite @zlen_app @zlen_cons @zlen_nil @length_app : zlen.

(** ** Outcome lemmas *)

Lemma bind_safe {S A B} (m : Cmd S A) (k : A -> Cmd S B) s :
  safe (m s) -> (forall a s', m s = Ok a s' -> safe (k a s')) -> safe (bind m k s).
Proof. unfold bind. destruct (m s) eqn:E; simpl; auto. Qed.

Lemma bind_Ok {S A B} (m : Cmd S A) (k : A -> Cmd S B) s a s' :
  m s = Ok a s' -> bind m k s = k a s'.
Proof. unfold bind. by intros ->. Qed.

Lemma bind_inv_Ok {S A B} (m : Cmd S A) (k : A -> Cmd S B) s b s' :
  bind m k s = Ok b s' -> exists a s1, m s = Ok a s1 /\ k a s1 = Ok b s'.
Proof. unfold bind. destruct (m s); naive_solver. Qed.

Lemma bind_assoc {S A B C} (m : Cmd S A) (k : A -> Cmd S B) (k' : B -> Cmd S C) s :
  bind (bind m k) k' s = bind m (fun a => bind (k a) k') s.
Proof. unfold bind. by destruct (m s). Qed.

Lemma bind_of_Some {S A B} (a : A) (k : A -> Cmd S B) s : bind (of_option (Some a)) k s = k a s.
Proof. done. Qed.

Lemma bind_ext {S A B} (m : Cmd S A) (k k' : A -> Cmd S B) s :
  (forall a s', k a s' = k' a s') -> bind m k s = bind m k' s.
Proof. intros E. unfold bind. destruct (m s); auto. Qed.

Lemma get_bind {S A} (k : S -> Cmd S A) s : bind get k s = k s s.
Proof. done. Qed.

(** Reading a buffer after a store. *)
Lemma rd_store {A} (b : list A) off src b' i :
  store b off src = Some b' ->
  rd b' i = if decide (off <= i < off + zlen src) then rd src (i - off) else rd b i.
Proof.
  unfold store. case_decide as H; [|done]. intros [= <-].
  assert (Ht : zlen (take (Z.to_nat off) b) = off).
  { unfold zlen in *. rewrite length_take. lia. }
  pose proof (zlen_nonneg src). case_decide as D.
  - rewrite rd_app_r by lia. rewrite Ht, rd_app_l by lia. done.
  - destruct (decide (i < off)).
    + rewrite rd_app_l by lia. unfold rd. case_decide; [|done].
      apply lookup_take_lt. lia.
    + rewrite rd_app_r, Ht, rd_app_r by lia. unfold rd. rewrite !decide_True by lia.
      rewrite lookup_drop. f_equal. unfold zlen in *. lia.
Qed.

(** The decomposition of a buffer around a store. *)
Lemma store_decompose {A} (b : list A) off src b' :
  store b off src = Some b' ->
  exists pre old post, zlen pre = off /\ length old = length src /\
    b = pre ++ old ++ post /\ b' = pre ++ src ++ post.
Proof.
  unfold store. case_decide as H; [|done]. intros [= <-].
  exists (take (Z.to_nat off) b), (take (length src) (drop (Z.to_nat off) b)),
    (drop (Z.to_nat off + length src) b).
  unfold zlen in *. split_and!.
  - rewrite length_take. lia.
  - rewrite length_take, length_drop. lia.
  - by rewrite <- drop_drop, !take_drop.
  - done.
Qed.

Lemma slice_app_l {A} (b c : list A) off n :
  off + n <= zlen b -> slice (b ++ c) off n = slice b off n.
Proof.
  intros H. unfold slice. rewrite zlen_app. pose proof (zlen_nonneg c).
  case_decide as D; [|by rewrite decide_False by lia].
  rewrite decide_True by lia. unfold zlen in *.
  rewrite drop_app_le, take_app_le; [done| |lia]. rewrite length_drop. lia.
Qed.

Lemma rd_split {A} (b : list A) i x :
  rd b i = Some x -> drop (Z.to_nat i) b = x :: drop (Z.to_nat (i + 1)) b.
Proof.
  unfold rd. case_decide; [|done]. intros E.
  replace (Z.to_nat (i + 1)) with (S (Z.to_nat i)) by lia.
  by apply drop_S.
Qed.

Lemma Forall2_impl_in {A B} (P Q : A -> B -> Prop) l k : Forall2 P l k ->
  (forall x y, x ∈ l -> y ∈ k -> P x y -> Q x y) -> Forall2 Q l k.
Proof.
  induction 1 as [|x y l k Hxy _ IH]; intros H; constructor; [apply H; done || left|].
  apply IH. intros. apply H; [by right|by right|done].
Qed.

(** One step of a computation in [option] that succeeds. *)
Lemma is_Some_bind {A B} (o : option A) (f : A -> option B) x :
  o = Some x -> is_Some (f x) -> is_Some (o ≫= f).
Proof. by intros ->. Qed.

(** Induction two at a time. *)
Lemma list_ind2 {A} (P : list A -> Prop) :
  P [] -> (forall a, P [a]) -> (forall a b l, P l -> P (a :: b :: l)) -> forall l, P l.
Proof.
  intros H0 H1 H2. fix IH 1. intros [|a [|b l]]; [exact H0|apply H1|apply H2, IH].
Qed.

(** ** Weakest preconditions

    [wp m Q E s]: run in [s], the command [m] returns with [Q], exits with [E]
    or waits for input that never comes; it does not leave a buffer and does
    not run out of fuel. *)

Definition wp {S A} (m : Cmd S A) (Q : A -> S -> Prop) (E : Z -> S -> Prop) (s : S) : Prop :=
  match m s with
  | Ok a s' => Q a s'
  | Exit c s' => E c s'
  | Stop Blocked _ => True
  | Stop _ _ => False
  end.

Section Wp.
Context {S A B : Type}.
Implicit Types (Q : A -> S -> Prop) (R : B -> S -> Prop) (E : Z -> S -> Prop) (s : S).

Lemma wp_bind (m : Cmd S A) (k : A -> Cmd S B) R E s :
  wp m (fun a => wp (k a) R E) E s -> wp (bind m k) R E s.
Proof. unfold wp, bind. by destruct (m s). Qed.

Lemma wp_mono (m : Cmd S A) Q Q' E E' s :
  wp m Q E s -> (forall a s', Q a s' -> Q' a s') -> (forall c s', E c s' -> E' c s') ->
  wp m Q' E' s.
Proof. unfold wp. intros H HQ HE. destruct (m s) as [| |[]]; auto. Qed.

Lemma wp_ret (a : A) Q E s : Q a s -> wp (ret a) Q E s.
Proof. done. Qed.
Lemma wp_get (R : S -> S -> Prop) E s : R s s -> wp get R E s.
Proof. done. Qed.
Lemma wp_modify (f : S -> S) (R : unit -> S -> Prop) E s : R tt (f s) -> wp (modify f) R E s.
Proof. done. Qed.
Lemma wp_exit c Q E s : E c s -> wp (exit c) Q E s.
Proof. done. Qed.
Lemma wp_of_option (o : option A) a Q E s : o = Some a -> Q a s -> wp (of_option o) Q E s.
Proof. by intros ->. Qed.

Lemma wp_Ok (m : Cmd S A) a s' Q E s : m s = Ok a s' -> Q a s' -> wp m Q E s.
Proof. unfold wp. by intros ->. Qed.
Lemma wp_Exit (m : Cmd S A) c s' Q E s : m s = Exit c s' -> E c s' -> wp m Q E s.
Proof. unfold wp. by intros ->. Qed.
End Wp.

Lemma wp_get_bind {S A} (k : S -> Cmd S A) Q E s : wp (k s) Q E s -> wp (bind get k) Q E s.
Proof. done. Qed.
Lemma wp_modify_bind {S A} f (k : unit -> Cmd S A) Q E s :
  wp (k tt) Q E (f s) -> wp (bind (modify f) k) Q E s.
Proof. done. Qed.
Lemma wp_opt_bind {S A B} (o : option A) a (k : A -> Cmd S B) Q E s :
  o = Some a -> wp (k a) Q E s -> wp (bind (of_option o) k) Q E s.
Proof. by intros ->. Qed.

(** What a [wp] says about the outcome. *)
Lemma wp_safe {S A} (m : Cmd S A) Q E s : wp m Q E s -> safe (m s).
Proof. unfold wp, safe. by destruct (m s) as [| |[]]. Qed.
