(* ===== verification/Wire.v ===== *)
(** * Wire: packets, tags and constants of pppoe.h

    The structures of pppoe.h with their memory images, and the address and
    frame-type tests every component uses ([etherType] of if.c, the macros
    [NOT_UNICAST], [BROADCAST], [CHECK_ROOM]). *)

From stdpp Require Import base list numbers strings.
From Stdlib Require Import Ascii.
From S2P Require Import Prelude.
Open Scope Z_scope.

(** ** Constants *)

Definition ETH_ALEN : Z := 6.
Definition ETH_DATA_LEN : Z := 1500.
Definition ETH_PPPOE_DISCOVERY : Z := 0x8863.
Definition ETH_PPPOE_SESSION : Z := 0x8864.

Definition CODE_PADI : Z := 0x09.
Definition CODE_PADO : Z := 0x07.
Definition CODE_PADR : Z := 0x19.
Definition CODE_PADS : Z := 0x65.
Definition CODE_PADT : Z := 0xA7.
Definition CODE_SESS : Z := 0x00.

Definition TAG_END_OF_LIST : Z := 0x0000.
Definition TAG_SERVICE_NAME : Z := 0x0101.
Definition TAG_AC_NAME : Z := 0x0102.
Definition TAG_HOST_UNIQ : Z := 0x0103.
Definition TAG_AC_COOKIE : Z := 0x0104.
Definition TAG_VENDOR_SPECIFIC : Z := 0x0105.
Definition TAG_RELAY_SESSION_ID : Z := 0x0110.
Definition TAG_SERVICE_NAME_ERROR : Z := 0x0201.
Definition TAG_AC_SYSTEM_ERROR : Z := 0x0202.
Definition TAG_GENERIC_ERROR : Z := 0x0203.

Definition PPPOE_OVERHEAD : Z := 6.
(** [sizeof(struct ethhdr)] is 14. *)
Definition HDR_SIZE : Z := 14 + PPPOE_OVERHEAD.
Definition MAX_PPPOE_PAYLOAD : Z := ETH_DATA_LEN - PPPOE_OVERHEAD.
Definition TAG_HDR_SIZE : Z := 4.

(** ** Packets *)

(** [h_proto], [p_session] and [p_length] hold the 16-bit patterns in memory,
    that is, network byte order read as a host integer. *)
Record PPPoEPacket := mkPacket {
  h_dest : list Z;
  h_source : list Z;
  h_proto : Z;
  p_ver : Z;
  p_type : Z;
  p_code : Z;
  p_session : Z;
  p_length : Z;
  p_payload : list Z
}.

(** The memory image of the structure: the bit-fields [ver] and [type] share
    a byte, [ver] in the low nibble. *)
Definition header_bytes (p : PPPoEPacket) : list Z :=
  h_dest p ++ h_source p ++ le16 (h_proto p) ++
  [Z.lor (p_ver p) (Z.shiftl (p_type p) 4)] ++ [p_code p] ++
  le16 (p_session p) ++ le16 (p_length p).

Definition packet_bytes (p : PPPoEPacket) : list Z := header_bytes p ++ p_payload p.

Definition nthb (b : list Z) (i : nat) : Z := nth i b 0.
Definition un_le16 (b0 b1 : Z) : Z := b0 + Z.shiftl b1 8.

(** The structure a memory image of [sizeof(PPPoEPacket)] bytes stands for. *)
Definition packet_of_bytes (b : list Z) : PPPoEPacket := {|
  h_dest := take 6 b;
  h_source := take 6 (drop 6 b);
  h_proto := un_le16 (nthb b 12) (nthb b 13);
  p_ver := Z.land (nthb b 14) 15;
  p_type := Z.shiftr (nthb b 14) 4;
  p_code := nthb b 15;
  p_session := un_le16 (nthb b 16) (nthb b 17);
  p_length := un_le16 (nthb b 18) (nthb b 19);
  p_payload := drop 20 b
|}.

Definition sizeof_PPPoEPacket : Z := HDR_SIZE + ETH_DATA_LEN.

Record wf_packet (p : PPPoEPacket) : Prop := {
  wf_dest_len : length (h_dest p) = 6%nat;
  wf_source_len : length (h_source p) = 6%nat;
  wf_payload_len : zlen (p_payload p) = ETH_DATA_LEN;
  wf_dest : bytes (h_dest p);
  wf_source : bytes (h_source p);
  wf_payload : bytes (p_payload p);
  wf_proto : 0 <= h_proto p < 65536;
  wf_ver : 0 <= p_ver p < 16;
  wf_type : 0 <= p_type p < 16;
  wf_code : 0 <= p_code p < 256;
  wf_session : 0 <= p_session p < 65536;
  wf_length : 0 <= p_length p < 65536
}.

(** Field assignments. *)
Definition set_dest v p := mkPacket v (h_source p) (h_proto p) (p_ver p) (p_type p)
  (p_code p) (p_session p) (p_length p) (p_payload p).
Definition set_source v p := mkPacket (h_dest p) v (h_proto p) (p_ver p) (p_type p)
  (p_code p) (p_session p) (p_length p) (p_payload p).
Definition set_session v p := mkPacket (h_dest p) (h_source p) (h_proto p) (p_ver p)
  (p_type p) (p_code p) v (p_length p) (p_payload p).
Definition set_length v p := mkPacket (h_dest p) (h_source p) (h_proto p) (p_ver p)
  (p_type p) (p_code p) (p_session p) v (p_payload p).
Definition set_payload v p := mkPacket (h_dest p) (h_source p) (h_proto p) (p_ver p)
  (p_type p) (p_code p) (p_session p) (p_length p) v.

(** The assignments every frame builder starts with: addresses, frame type,
    version 1, type 1, code and session. *)
Definition start_packet (dest source : list Z) (proto code session : Z)
    (p : PPPoEPacket) : PPPoEPacket :=
  mkPacket dest source proto 1 1 code session (p_length p) (p_payload p).

(** [write (sock, pkt, size)]: the first [size] bytes of the structure. *)
Definition frame (p : PPPoEPacket) (size : Z) : option (list Z) :=
  slice (packet_bytes p) 0 size.

(** ** Tags *)

Record PPPoETag := mkTag { t_type : Z; t_length : Z; t_payload : list Z }.

Definition tag_bytes (t : PPPoETag) : list Z :=
  le16 (t_type t) ++ le16 (t_length t) ++ t_payload t.

Definition tag_of_bytes (b : list Z) : PPPoETag := {|
  t_type := un_le16 (nthb b 0) (nthb b 1);
  t_length := un_le16 (nthb b 2) (nthb b 3);
  t_payload := drop 4 b
|}.

Definition wf_tag (t : PPPoETag) : Prop :=
  0 <= t_type t < 65536 /\ 0 <= t_length t < 65536 /\
  zlen (t_payload t) = ETH_DATA_LEN /\ bytes (t_payload t).

(** [tag.type = htons(type); tag.length = htons(len);
    memcpy(tag.payload, data, len)]. *)
Definition fill_tag (t : PPPoETag) (type len : Z) (data : list Z) : option PPPoETag :=
  store (t_payload t) 0 data ≫= fun pl => Some (mkTag (htons type) (htons len) pl).

(** [memcpy(cursor, &tag, ntohs(tag.length) + TAG_HDR_SIZE)]. *)
Definition copy_tag (payload : list Z) (cursor : Z) (t : PPPoETag) (n : Z) :
    option (list Z) :=
  slice (tag_bytes t) 0 n ≫= fun src => store payload cursor src.

(** The bytes of a C string literal, without the terminating NUL. *)
Definition str (s : string) : list Z :=
  map (fun a => Z.of_N (N_of_ascii a)) (String.list_ascii_of_string s).

(** ** Address tests *)

Definition NOT_UNICAST (e : list Z) : bool := negb (Z.land (nthb e 0) 1 =? 0).
Definition NOT_BROADCAST (e : list Z) : bool :=
  negb (Z.land (nthb e 0) (Z.land (nthb e 1) (Z.land (nthb e 2)
    (Z.land (nthb e 3) (Z.land (nthb e 4) (nthb e 5))))) =? 255).

(** [memcmp (a, b, ETH_ALEN) == 0]. *)
Definition mac_eqb (a b : list Z) : bool := bool_decide (a = b).

(** Frame type of a received packet, in host order. *)
Definition etherType (p : PPPoEPacket) : Z := ntohs (h_proto p).

(** A hardware address. *)
Definition mac_ok (m : list Z) : Prop := length m = 6%nat /\ bytes m.

(** ** Lemmas *)

Lemma un_le16_le16 x : 0 <= x < 65536 -> un_le16 (u8 x) (u8 (Z.shiftr x 8)) = x.
Proof.
  intros. unfold un_le16, u8. rewrite shiftl_8, shiftr_8. change (2 ^ 8) with 256. zlia.
Qed.

Lemma le16_un_le16 a b : is_byte a -> is_byte b -> le16 (un_le16 a b) = [a; b].
Proof.
  unfold is_byte, le16, un_le16, u8. intros.
  rewrite shiftl_8, shiftr_8. change (2 ^ 8) with 256. f_equal; [|f_equal]; zlia.
Qed.

Lemma un_le16_range a b : is_byte a -> is_byte b -> 0 <= un_le16 a b < 65536.
Proof. unfold is_byte, un_le16. rewrite shiftl_8. lia. Qed.

Lemma ntohs_un_le16 a b : is_byte a -> is_byte b -> ntohs (un_le16 a b) = rd_be16 a b.
Proof.
  unfold is_byte, un_le16, ntohs, rd_be16. intros.
  rewrite htons_arith, !shiftl_8. zlia.
Qed.

Lemma htons_rd_be16 a b : is_byte a -> is_byte b -> htons (rd_be16 a b) = un_le16 a b.
Proof.
  unfold is_byte, un_le16, rd_be16. intros. rewrite htons_arith, !shiftl_8. zlia.
Qed.

Lemma length_header p :
  length (h_dest p) = 6%nat -> length (h_source p) = 6%nat ->
  length (header_bytes p) = 20%nat.
Proof.
  intros Hd Hs. unfold header_bytes. rewrite !length_app, Hd, Hs. done.
Qed.

(** The memory image determines the structure. *)
Lemma packet_of_packet_bytes p : wf_packet p -> packet_of_bytes (packet_bytes p) = p.
Proof.
  intros []. destruct p as [d s pr v t c se le pl]; simpl in *.
  unfold packet_of_bytes, packet_bytes, header_bytes; simpl.
  destruct d as [|d0 [|d1 [|d2 [|d3 [|d4 [|d5 [|]]]]]]]; try discriminate.
  destruct s as [|s0 [|s1 [|s2 [|s3 [|s4 [|s5 [|]]]]]]]; try discriminate.
  unfold nthb; simpl. rewrite !un_le16_le16 by lia.
  assert (E : Z.lor v (Z.shiftl t 4) = t * 16 + v).
  { rewrite Z.lor_comm. apply (lor_shiftl_add 4); lia. }
  rewrite E. f_equal.
  - change 15 with (Z.ones 4). rewrite Z.land_ones by lia. change (2 ^ 4) with 16. zlia.
  - rewrite Z.shiftr_div_pow2 by lia. change (2 ^ 4) with 16. zlia.
Qed.

Lemma wf_tag_bytes_len t : wf_tag t -> zlen (tag_bytes t) = TAG_HDR_SIZE + ETH_DATA_LEN.
Proof. intros (_ & _ & H & _). unfold tag_bytes. rewrite !zlen_app, H. done. Qed.

Lemma fill_tag_wf t ty len data t' :
  wf_tag t -> bytes data -> fill_tag t ty len data = Some t' -> wf_tag t'.
Proof.
  intros (_ & _ & Hl & Hb) Hd. unfold fill_tag.
  destruct (store (t_payload t) 0 data) as [pl|] eqn:E; simpl; [|done].
  intros [= <-]. repeat split; simpl; try apply htons_range.
  - by rewrite (store_zlen _ _ _ _ E).
  - exact (bytes_store _ _ _ _ Hb Hd E).
Qed.

(** A packet in which every field is concrete is checked by computation. *)
Definition wf_packetb (p : PPPoEPacket) : bool :=
  let bb := forallb (fun x => (0 <=? x) && (x <? 256)) in
  Nat.eqb (length (h_dest p)) 6 && Nat.eqb (length (h_source p)) 6 &&
  (zlen (p_payload p) =? ETH_DATA_LEN) && bb (h_dest p) && bb (h_source p) && bb (p_payload p) &&
  (0 <=? h_proto p) && (h_proto p <? 65536) && (0 <=? p_ver p) && (p_ver p <? 16) &&
  (0 <=? p_type p) && (p_type p <? 16) && (0 <=? p_code p) && (p_code p <? 256) &&
  (0 <=? p_session p) && (p_session p <? 65536) && (0 <=? p_length p) && (p_length p <? 65536).

Lemma forallb_bytes l : forallb (fun x => (0 <=? x) && (x <? 256)) l = true -> bytes l.
Proof.
  intros H. apply Forall_forall. intros x Hx. rewrite forallb_forall in H.
  specialize (H x). rewrite list_elem_of_In in Hx. specialize (H Hx).
  unfold is_byte. lia.
Qed.

Lemma wf_packetb_ok p : wf_packetb p = true -> wf_packet p.
Proof.
  unfold wf_packetb. rewrite !andb_true_iff, !Nat.eqb_eq, !Z.eqb_eq, !Z.leb_le, !Z.ltb_lt.
  intros. destruct_and!. split; auto using forallb_bytes.
Qed.

Lemma mac_eqb_eq a b : mac_eqb a b = true <-> a = b.
Proof. apply bool_decide_eq_true. Qed.
#[export] Hint Resolve fill_tag_wf : pppoe.
