(* ===== verification/Tags.v ===== *)
(** * Tags: tag lists of discovery packets

    [parsePacket] and [findTag] of common.c, [insertBytes], [removeBytes] and
    [addTag] of relay.c, against an abstract list of (type, value) tags. *)

From stdpp Require Import base list numbers strings.
From S2P Require Import Prelude Wire.
Open Scope Z_scope.

(** ** The code *)

(** A callback of [parsePacket]: tag type, tag length, tag data. *)
Definition ParseFunc (S : Type) : Type := Z -> Z -> list Z -> Cmd S unit.

(** The while loop of [parsePacket]; [cur] is [curTag - packet->payload]. *)
Fixpoint parse_loop {S} (fuel : nat) (payload : list Z) (len cur : Z)
    (func : ParseFunc S) : Cmd S Z :=
  match fuel with
  | O => halt OutOfFuel
  | Datatypes.S fuel =>
    if decide (cur < len) then
      chk! b0 := rd payload cur in
      chk! b1 := rd payload (cur + 1) in
      chk! b2 := rd payload (cur + 2) in
      chk! b3 := rd payload (cur + 3) in
      let tagType := u16 (rd_be16 b0 b1) in
      let tagLen := u16 (rd_be16 b2 b3) in
      if decide (tagType = TAG_END_OF_LIST) then ret 0
      else if decide (cur + tagLen + TAG_HDR_SIZE > len) then ret (-1)
      else
        chk! data := slice payload (cur + TAG_HDR_SIZE) tagLen in
        do! func tagType tagLen data ;;
        parse_loop fuel payload len (cur + TAG_HDR_SIZE + tagLen) func
    else ret 0
  end.

Definition parsePacket {S} (packet : PPPoEPacket) (func : ParseFunc S) : Cmd S Z :=
  let len := ntohs (p_length packet) in
  if decide (p_ver packet <> 1) then ret (-1)
  else if decide (p_type packet <> 1) then ret (-1)
  else if decide (len > ETH_DATA_LEN - 6) then ret (-1)
  else parse_loop (Datatypes.S (Z.to_nat len)) (p_payload packet) len 0 func.

(** The while loop of [findTag]: the offset of the tag found, if any, and the
    contents of [*tag] afterwards.  [None] is an access out of bounds. *)
Fixpoint find_loop (fuel : nat) (payload : list Z) (len cur type : Z) (tag : PPPoETag) :
    option (option Z * PPPoETag) :=
  match fuel with
  | O => None
  | S fuel =>
    if decide (cur < len) then
      rd payload cur ≫= fun b0 =>
      rd payload (cur + 1) ≫= fun b1 =>
      rd payload (cur + 2) ≫= fun b2 =>
      rd payload (cur + 3) ≫= fun b3 =>
      let tagType := u16 (rd_be16 b0 b1) in
      let tagLen := u16 (rd_be16 b2 b3) in
      if decide (tagType = TAG_END_OF_LIST) then Some (None, tag)
      else if decide (cur + tagLen + TAG_HDR_SIZE > len) then Some (None, tag)
      else if decide (tagType = type) then
        slice payload cur (tagLen + TAG_HDR_SIZE) ≫= fun src =>
        store (tag_bytes tag) 0 src ≫= fun image =>
        Some (Some cur, tag_of_bytes image)
      else find_loop fuel payload len (cur + TAG_HDR_SIZE + tagLen) type tag
    else Some (None, tag)
  end.

Definition findTag (packet : PPPoEPacket) (type : Z) (tag : PPPoETag) :
    option (option Z * PPPoETag) :=
  let len := ntohs (p_length packet) in
  if decide (p_ver packet <> 1) then Some (None, tag)
  else if decide (p_type packet <> 1) then Some (None, tag)
  else if decide (len > ETH_DATA_LEN - 6) then Some (None, tag)
  else find_loop (S (Z.to_nat len)) (p_payload packet) len 0 type tag.

(** [insertBytes (packet, payload + loc, bytes, len)]; [src] are the [len]
    bytes at [bytes]. *)
Definition insertBytes (packet : PPPoEPacket) (loc : Z) (src : list Z) :
    option (Z * PPPoEPacket) :=
  let len := zlen src in
  let plen := ntohs (p_length packet) in
  if decide (loc < 0 \/ loc > plen \/ len + plen > MAX_PPPOE_PAYLOAD)
  then Some (-1, packet)
  else
    let toMove := plen - loc in
    slice (p_payload packet) loc toMove ≫= fun moved =>
    store (p_payload packet) (loc + len) moved ≫= fun pl =>
    store pl loc src ≫= fun pl =>
    Some (len, set_length (htons (plen + len)) (set_payload pl packet)).

Definition removeBytes (packet : PPPoEPacket) (loc len : Z) : option (Z * PPPoEPacket) :=
  let plen := ntohs (p_length packet) in
  if decide (len < 0 \/ len > plen \/ loc < 0 \/ loc + len > plen)
  then Some (-1, packet)
  else
    let toMove := plen - loc - len in
    slice (p_payload packet) (loc + len) toMove ≫= fun moved =>
    store (p_payload packet) loc moved ≫= fun pl =>
    Some (len, set_length (htons (plen - len)) (set_payload pl packet)).

Definition addTag (packet : PPPoEPacket) (tag : PPPoETag) : option (Z * PPPoEPacket) :=
  slice (tag_bytes tag) 0 (ntohs (t_length tag) + TAG_HDR_SIZE) ≫= fun src =>
  insertBytes packet 0 src.

(** ** The specification: lists of tags *)

Definition tag : Type := Z * list Z.

Definition encode_tag (t : tag) : list Z := be16 t.1 ++ be16 (zlen t.2) ++ t.2.
Definition encode (ts : list tag) : list Z := concat (map encode_tag ts).
Arguments encode_tag : simpl never.
Arguments encode : simpl never.

(** Tags that can be carried: a non-zero 16-bit type and bytes. *)
Definition wf_tagv (t : tag) : Prop :=
  0 < t.1 < 65536 /\ zlen t.2 < 65536 /\ bytes t.2.

(** What a reader of [avail] bytes of tags sees: the tags in order, and
    whether the list ended properly.  Four header bytes are looked at even
    when fewer are announced, as the code does. *)
Fixpoint decode (fuel : nat) (avail : Z) (l : list Z) : list tag * Z :=
  match fuel with
  | O => ([], -1)
  | S fuel =>
    if decide (avail <= 0) then ([], 0) else
    match l with
    | b0 :: b1 :: b2 :: b3 :: l =>
      let t := rd_be16 b0 b1 in
      let n := rd_be16 b2 b3 in
      if decide (t = 0) then ([], 0)
      else if decide (n + 4 > avail) then ([], -1)
      else let r := decode fuel (avail - 4 - n) (drop (Z.to_nat n) l) in
           ((t, take (Z.to_nat n) l) :: r.1, r.2)
    | _ => ([], -1)
    end
  end.

(** The tags of a packet and the result [parsePacket] gives for it. *)
Definition packet_tags (p : PPPoEPacket) : list tag * Z :=
  let len := ntohs (p_length p) in
  if decide (p_ver p = 1 /\ p_type p = 1 /\ len <= MAX_PPPOE_PAYLOAD)
  then decode (S (Z.to_nat len)) len (p_payload p)
  else ([], -1).

(** [parseLogErrs] records which tags it reports. *)
Definition parseLogErrs : ParseFunc (list tag) := fun type len data =>
  if decide (type = TAG_SERVICE_NAME_ERROR) then modify (fun l => l ++ [(type, data)])
  else if decide (type = TAG_AC_SYSTEM_ERROR) then modify (fun l => l ++ [(type, data)])
  else if decide (type = TAG_GENERIC_ERROR) then modify (fun l => l ++ [(type, data)])
  else ret tt.

(** Calling a callback on every tag. *)
Fixpoint run_tags {S} (func : ParseFunc S) (ts : list tag) : Cmd S unit :=
  match ts with
  | [] => ret tt
  | t :: ts => do! func t.1 (zlen t.2) t.2 ;; run_tags func ts
  end.

(** A packet that carries exactly the tags [ts]. *)
Definition carries (p : PPPoEPacket) (ts : list tag) : Prop :=
  p_ver p = 1 /\ p_type p = 1 /\ ntohs (p_length p) = zlen (encode ts) /\
  zlen (encode ts) <= MAX_PPPOE_PAYLOAD /\ encode ts `prefix_of` p_payload p.

(** ** Lemmas *)

Lemma zlen_encode_tag t : zlen (encode_tag t) = 4 + zlen t.2.
Proof. unfold encode_tag, be16. rewrite !zlen_app, !zlen_cons, zlen_nil. lia. Qed.

Lemma encode_cons t ts : encode (t :: ts) = encode_tag t ++ encode ts.
Proof. done. Qed.

Lemma encode_app ts us : encode (ts ++ us) = encode ts ++ encode us.
Proof. unfold encode. by rewrite map_app, concat_app. Qed.

Lemma bytes_encode ts : Forall wf_tagv ts -> bytes (encode ts).
Proof.
  induction 1 as [|t ts (_ & _ & Hb) _ IH]; [constructor|].
  rewrite encode_cons. unfold encode_tag. rewrite !bytes_app. auto with pppoe.
Qed.

Lemma rd_be16_range a b : is_byte a -> is_byte b -> 0 <= rd_be16 a b < 65536.
Proof. unfold is_byte, rd_be16. rewrite shiftl_8. lia. Qed.

(** Four bytes can be read at [cur] when four remain in the buffer, and
    [decode] sees the same ones. *)
Lemma rd4 (b : list Z) cur : 0 <= cur -> cur + 4 <= zlen b -> exists b0 b1 b2 b3,
  rd b cur = Some b0 /\ rd b (cur + 1) = Some b1 /\ rd b (cur + 2) = Some b2 /\
  rd b (cur + 3) = Some b3 /\
  drop (Z.to_nat cur) b = b0 :: b1 :: b2 :: b3 :: drop (Z.to_nat (cur + 4)) b.
Proof.
  intros H0 H.
  destruct (rd_Some b cur) as [b0 E0]; [lia|].
  destruct (rd_Some b (cur + 1)) as [b1 E1]; [lia|].
  destruct (rd_Some b (cur + 2)) as [b2 E2]; [lia|].
  destruct (rd_Some b (cur + 3)) as [b3 E3]; [lia|].
  exists b0, b1, b2, b3. do 4 (split; [done|]).
  rewrite (rd_split _ _ _ E0), (rd_split _ _ _ E1).
  replace (cur + 1 + 1) with (cur + 2) by lia. rewrite (rd_split _ _ _ E2).
  replace (cur + 2 + 1) with (cur + 3) by lia. rewrite (rd_split _ _ _ E3).
  by replace (cur + 3 + 1) with (cur + 4) by lia.
Qed.

Lemma bytes_drop_cons4 b n b0 b1 b2 b3 l :
  bytes b -> drop n b = b0 :: b1 :: b2 :: b3 :: l ->
  is_byte b0 /\ is_byte b1 /\ is_byte b2 /\ is_byte b3 /\ bytes l.
Proof.
  intros Hb E. apply (bytes_drop n) in Hb. rewrite E in Hb.
  unfold bytes in Hb. by rewrite !Forall_cons in Hb.
Qed.

(** Copying a tag over a [PPPoETag] leaves the rest of its payload alone. *)
Lemma store_tag_bytes t b0 b1 b2 b3 v :
  wf_tag t -> zlen v <= ETH_DATA_LEN ->
  store (tag_bytes t) 0 (b0 :: b1 :: b2 :: b3 :: v) =
    Some (b0 :: b1 :: b2 :: b3 :: v ++ drop (length v) (t_payload t)).
Proof.
  intros Ht Hv. rewrite store_Some; [done|lia|].
  rewrite wf_tag_bytes_len, !zlen_cons by done. unfold TAG_HDR_SIZE. lia.
Qed.

Section Loops.
Context (payload : list Z) (len : Z).
Hypothesis Hpay : bytes payload.
Hypothesis Hsize : zlen payload = ETH_DATA_LEN.
Hypothesis Hroom : len <= MAX_PPPOE_PAYLOAD.

(** The loop of [parsePacket] runs the callback on the decoded tags. *)
Lemma parse_loop_decode {S} (func : ParseFunc S) fuel cur s :
  0 <= cur <= len -> (Z.to_nat (len - cur) < fuel)%nat ->
  parse_loop fuel payload len cur func s =
    bind (run_tags func (decode fuel (len - cur) (drop (Z.to_nat cur) payload)).1)
      (fun _ => ret (decode fuel (len - cur) (drop (Z.to_nat cur) payload)).2) s.
Proof using Hpay Hsize Hroom.
  unfold MAX_PPPOE_PAYLOAD, PPPOE_OVERHEAD, ETH_DATA_LEN in *.
  revert cur s. induction fuel as [|fuel IH]; intros cur s Hcur Hf; [lia|].
  cbn [parse_loop decode]. case_decide as Hlt; [|by rewrite decide_True by lia].
  rewrite decide_False by lia.
  destruct (rd4 payload cur) as (b0 & b1 & b2 & b3 & E0 & E1 & E2 & E3 & E); [lia..|].
  rewrite E0, E1, E2, E3, E, !bind_of_Some.
  destruct (bytes_drop_cons4 _ _ _ _ _ _ _ Hpay E) as (B0 & B1 & B2 & B3 & _).
  pose proof (rd_be16_range _ _ B0 B1). pose proof (rd_be16_range _ _ B2 B3).
  rewrite !u16_small by done. set (n := rd_be16 b2 b3) in *.
  unfold TAG_END_OF_LIST, TAG_HDR_SIZE.
  case_decide; [done|]. case_decide as Hn.
  { by rewrite decide_True by lia. }
  rewrite decide_False by lia.
  rewrite slice_Some, bind_of_Some by lia. cbn [run_tags fst snd].
  assert (Hl : zlen (take (Z.to_nat n) (drop (Z.to_nat (cur + 4)) payload)) = n).
  { unfold zlen. rewrite length_take, length_drop. unfold zlen in *. lia. }
  rewrite Hl, bind_assoc. apply bind_ext; intros _ s'.
  rewrite IH by lia. rewrite drop_drop.
  replace (Z.to_nat (cur + 4) + Z.to_nat n)%nat with (Z.to_nat (cur + 4 + n)) by lia.
  replace (len - cur - 4 - n) with (len - (cur + 4 + n)) by lia. done.
Qed.

(** The loop of [findTag] looks at the same tags: it stops at the first one
    of the wanted type. *)
Lemma find_loop_decode fuel cur ty tg :
  wf_tag tg -> 0 <= cur <= len -> (Z.to_nat (len - cur) < fuel)%nat ->
  let ts := (decode fuel (len - cur) (drop (Z.to_nat cur) payload)).1 in
  find_loop fuel payload len cur ty tg =
    Some (match list_find (fun t : tag => t.1 = ty) ts with
          | Some (k, t) =>
              (Some (cur + zlen (encode (take k ts))),
               mkTag (htons ty) (htons (zlen t.2))
                 (t.2 ++ drop (length t.2) (t_payload tg)))
          | None => (None, tg)
          end).
Proof using Hpay Hsize Hroom.
  unfold MAX_PPPOE_PAYLOAD, PPPOE_OVERHEAD, ETH_DATA_LEN in *.
  intros Htg. revert cur. induction fuel as [|fuel IH]; intros cur Hcur Hf; [lia|].
  cbn [find_loop decode]. case_decide as Hlt; [|by rewrite decide_True by lia].
  rewrite decide_False by lia.
  destruct (rd4 payload cur) as (b0 & b1 & b2 & b3 & E0 & E1 & E2 & E3 & E); [lia..|].
  rewrite E0, E1, E2, E3, E. simpl.
  destruct (bytes_drop_cons4 _ _ _ _ _ _ _ Hpay E) as (B0 & B1 & B2 & B3 & Bl).
  pose proof (rd_be16_range _ _ B0 B1). pose proof (rd_be16_range _ _ B2 B3).
  rewrite !u16_small by done. set (n := rd_be16 b2 b3) in *.
  unfold TAG_END_OF_LIST, TAG_HDR_SIZE.
  case_decide; [done|]. case_decide as Hn; [by rewrite decide_True by lia|].
  rewrite (decide_False (P := n + 4 > len - cur)) by lia.
  set (v := take (Z.to_nat n) (drop (Z.to_nat (cur + 4)) payload)).
  assert (Hl : zlen v = n).
  { unfold v, zlen. rewrite length_take, length_drop. unfold zlen in *. lia. }
  cbn [fst list_find]. case_decide as Hty.
  - rewrite slice_Some, E by lia.
    replace (Z.to_nat (n + 4)) with (4 + Z.to_nat n)%nat by lia. cbn [take Nat.add].
    fold v. cbn [mbind option_bind]. rewrite store_tag_bytes by (done || unfold ETH_DATA_LEN; lia).
    cbn [snd mbind option_bind]. rewrite <- Hty, Hl. do 2 f_equal.
    + f_equal. change (zlen (encode [])) with 0. lia.
    + unfold tag_of_bytes, nthb, n. cbn [nth]. by rewrite !htons_rd_be16.
  - rewrite IH by lia. rewrite drop_drop.
    replace (Z.to_nat (cur + 4) + Z.to_nat n)%nat with (Z.to_nat (cur + 4 + n)) by lia.
    replace (len - cur - 4 - n) with (len - (cur + 4 + n)) by lia.
    destruct (list_find _ (decode fuel _ _).1) as [[k t]|] eqn:D; simpl;
      simpl; [|done].
    do 3 f_equal. rewrite encode_cons, zlen_app, zlen_encode_tag. simpl. lia.
Qed.
End Loops.

(** Every tag a reader sees is really in the bytes announced. *)
Lemma decode_sound fuel avail l :
  bytes l -> avail <= zlen l ->
  let r := decode fuel avail l in
  Forall wf_tagv r.1 /\ encode r.1 `prefix_of` l /\ zlen (encode r.1) <= Z.max 0 avail /\
  (r.2 = 0 \/ r.2 = -1).
Proof.
  revert avail l. induction fuel as [|fuel IH]; intros avail l Hb Hl; cbn [decode].
  { repeat split; auto using prefix_nil. unfold encode; simpl; unfold zlen; simpl; lia. }
  assert (Hnil : forall x : Z, (x = 0 \/ x = -1) ->
    Forall wf_tagv (@nil tag, x).1 /\ encode (@nil tag, x).1 `prefix_of` l /\
    zlen (encode (@nil tag, x).1) <= Z.max 0 avail /\
    ((@nil tag, x).2 = 0 \/ (@nil tag, x).2 = -1)).
  { intros x Hx. repeat split; auto using prefix_nil.
    change (zlen (encode _)) with 0. lia. }
  case_decide as Ha; [auto|].
  destruct l as [|b0 [|b1 [|b2 [|b3 l]]]]; auto.
  unfold bytes in Hb. rewrite !Forall_cons in Hb. destruct Hb as (B0 & B1 & B2 & B3 & Hb).
  pose proof (rd_be16_range _ _ B0 B1). pose proof (rd_be16_range _ _ B2 B3).
  set (n := rd_be16 b2 b3) in *. case_decide; [auto|]. case_decide; [auto|].
  rewrite !zlen_cons in Hl.
  destruct (IH (avail - 4 - n) (drop (Z.to_nat n) l)) as (I1 & I2 & I3 & I4).
  { by apply bytes_drop. }
  { unfold zlen in *. rewrite length_drop. lia. }
  assert (Hv : zlen (take (Z.to_nat n) l) = n).
  { unfold zlen in *. rewrite length_take. lia. }
  cbn [fst snd]. rewrite encode_cons, zlen_app, zlen_encode_tag. cbn [snd].
  repeat split; [| |lia|done].
  - constructor; [|done]. split; cbn [fst snd]; [lia|]. split; [lia|]. by apply bytes_take.
  - unfold encode_tag; cbn [fst snd]. rewrite Hv.
    destruct I2 as [k E]. exists k.
    rewrite <- !app_assoc, <- E, take_drop. unfold n.
    rewrite <- !le16_htons, !htons_rd_be16, !le16_un_le16 by done. done.
Qed.

(** Reading back an encoded list gives the list. *)
Lemma decode_encode fuel ts rest :
  Forall wf_tagv ts -> (Z.to_nat (zlen (encode ts)) < fuel)%nat ->
  decode fuel (zlen (encode ts)) (encode ts ++ rest) = (ts, 0).
Proof.
  intros Hts. revert fuel. induction Hts as [|[t v] ts (Ht & Hv & Hb) _ IH]; intros fuel Hf.
  { destruct fuel; [lia|]. done. }
  destruct fuel as [|fuel]; [lia|]. simpl in Ht, Hv, Hb.
  rewrite encode_cons, zlen_app, zlen_encode_tag in *. cbn [fst snd] in *.
  pose proof (zlen_nonneg v). pose proof (zlen_nonneg (encode ts)).
  cbn [decode]. rewrite decide_False by lia.
  unfold encode_tag; cbn [fst snd be16 app]. rewrite !rd_be16_be16 by lia.
  rewrite !decide_False by lia. rewrite <- app_assoc, zlen_to_nat.
  rewrite take_app_length, drop_app_length.
  replace (4 + zlen v + zlen (encode ts) - 4 - zlen v) with (zlen (encode ts)) by lia.
  by rewrite IH by lia.
Qed.

Lemma ntohs_range p : 0 <= ntohs (p_length p) < 65536.
Proof. apply htons_range. Qed.

(** [parsePacket] is "decode, then run the callback on every tag". *)
Lemma parsePacket_run {S} p (func : ParseFunc S) s :
  wf_packet p ->
  parsePacket p func s =
    bind (run_tags func (packet_tags p).1) (fun _ => ret (packet_tags p).2) s.
Proof.
  intros W. pose proof (ntohs_range p). unfold parsePacket, packet_tags, MAX_PPPOE_PAYLOAD, PPPOE_OVERHEAD.
  case_decide; [by rewrite decide_False by (intros (? & ? & ?); done)|].
  case_decide; [by rewrite decide_False by (intros (? & ? & ?); done)|].
  case_decide; [by rewrite decide_False by (intros (_ & _ & ?); lia)|].
  rewrite decide_True by (split_and!; first [lia | by apply dec_stable]).
  rewrite parse_loop_decode; [|apply W|apply W|unfold MAX_PPPOE_PAYLOAD, PPPOE_OVERHEAD; lia|lia|lia].
  by rewrite Z.sub_0_r.
Qed.

Lemma findTag_decode p ty tg :
  wf_packet p -> wf_tag tg ->
  findTag p ty tg =
    Some (match list_find (fun t : tag => t.1 = ty) (packet_tags p).1 with
          | Some (k, t) =>
              (Some (zlen (encode (take k (packet_tags p).1))),
               mkTag (htons ty) (htons (zlen t.2)) (t.2 ++ drop (length t.2) (t_payload tg)))
          | None => (None, tg)
          end).
Proof.
  intros W T. pose proof (ntohs_range p).
  unfold findTag, packet_tags, MAX_PPPOE_PAYLOAD, PPPOE_OVERHEAD.
  case_decide; [by rewrite decide_False by (intros (? & ? & ?); done)|].
  case_decide; [by rewrite decide_False by (intros (? & ? & ?); done)|].
  case_decide; [by rewrite decide_False by (intros (_ & _ & ?); lia)|].
  rewrite decide_True by (split_and!; first [lia | by apply dec_stable]).
  rewrite find_loop_decode; [|apply W|apply W|unfold MAX_PPPOE_PAYLOAD, PPPOE_OVERHEAD; lia|done|lia|lia].
  by rewrite Z.sub_0_r.
Qed.

Lemma carries_packet_tags p ts :
  carries p ts -> Forall wf_tagv ts -> packet_tags p = (ts, 0).
Proof.
  intros (Hv & Ht & Hl & Hm & [rest Hr]) W. unfold packet_tags.
  rewrite decide_True by (rewrite Hl; auto).
  rewrite Hl, Hr. apply decode_encode; [done|lia].
Qed.

Lemma packet_tags_sound p :
  wf_packet p ->
  Forall wf_tagv (packet_tags p).1 /\
  encode (packet_tags p).1 `prefix_of` p_payload p /\
  zlen (encode (packet_tags p).1) <= ntohs (p_length p) /\
  ((packet_tags p).2 = 0 \/ (packet_tags p).2 = -1).
Proof.
  intros W. pose proof (ntohs_range p). unfold packet_tags. case_decide as D.
  - destruct (decode_sound (S (Z.to_nat (ntohs (p_length p)))) (ntohs (p_length p))
      (p_payload p)) as (H1 & H2 & H3 & H4).
    + apply W.
    + rewrite (wf_payload_len _ W). destruct D as (_ & _ & D).
      unfold MAX_PPPOE_PAYLOAD, PPPOE_OVERHEAD in D. lia.
    + split_and!; auto. lia.
  - split_and!; simpl; auto using prefix_nil.
    change (zlen (encode [])) with 0. lia.
Qed.

(** ** Editing the tag area *)

Lemma insertBytes_app p a b rest src :
  p_payload p = a ++ b ++ rest -> zlen (p_payload p) = ETH_DATA_LEN ->
  ntohs (p_length p) = zlen a + zlen b ->
  zlen src + zlen a + zlen b <= MAX_PPPOE_PAYLOAD ->
  insertBytes p (zlen a) src =
    Some (zlen src, set_length (htons (zlen a + zlen b + zlen src))
           (set_payload (a ++ src ++ b ++ drop (length src) rest) p)).
Proof.
  intros Hp Hs Hl Hm. pose proof (zlen_nonneg a). pose proof (zlen_nonneg b).
  pose proof (zlen_nonneg src). unfold MAX_PPPOE_PAYLOAD, PPPOE_OVERHEAD in *.
  unfold insertBytes, MAX_PPPOE_PAYLOAD, PPPOE_OVERHEAD. rewrite decide_False by lia.
  replace (ntohs (p_length p) - zlen a) with (zlen b) by lia.
  rewrite Hp, !zlen_app in Hs. rewrite Hp, slice_app_mid. cbn [mbind option_bind].
  set (x := take (length src) (b ++ rest)).
  assert (Hx : length x = length src).
  { unfold x. rewrite length_take, length_app. unfold zlen in *. lia. }
  assert (E : a ++ b ++ rest = (a ++ x) ++ drop (length src) (b ++ rest)).
  { unfold x. by rewrite <- app_assoc, take_drop. }
  assert (Hd : drop (length src) (b ++ rest) =
    take (length b) (drop (length src) (b ++ rest)) ++ drop (length src) rest).
  { rewrite <- (take_drop (length b) (drop (length src) (b ++ rest))) at 1. f_equal.
    rewrite drop_drop, Nat.add_comm, <- drop_drop, drop_app_length. done. }
  rewrite E, Hd. replace (zlen a + zlen src) with (zlen (a ++ x)).
  2: { rewrite zlen_app. unfold zlen. rewrite Hx. lia. }
  rewrite store_app_mid.
  2: { rewrite length_take, length_drop, length_app. unfold zlen in *. lia. }
  cbn [mbind option_bind]. rewrite <- app_assoc, store_app_mid by done.
  cbn [mbind option_bind]. by rewrite Hl.
Qed.

Lemma removeBytes_app p a x b rest :
  p_payload p = a ++ x ++ b ++ rest -> zlen (p_payload p) = ETH_DATA_LEN ->
  ntohs (p_length p) = zlen a + zlen x + zlen b ->
  removeBytes p (zlen a) (zlen x) =
    Some (zlen x, set_length (htons (zlen a + zlen b))
           (set_payload (a ++ b ++ drop (length b) (x ++ b) ++ rest) p)).
Proof.
  intros Hp Hs Hl. pose proof (zlen_nonneg a). pose proof (zlen_nonneg b).
  pose proof (zlen_nonneg x). unfold removeBytes. rewrite decide_False by lia.
  replace (ntohs (p_length p) - zlen a - zlen x) with (zlen b) by lia.
  rewrite Hp. rewrite (app_assoc a x), <- zlen_app, slice_app_mid.
  rewrite <- app_assoc. cbn [mbind option_bind].
  set (y := take (length b) (x ++ b)).
  assert (E : a ++ x ++ b ++ rest = a ++ y ++ drop (length b) (x ++ b) ++ rest).
  { unfold y. by rewrite (app_assoc (take _ _)), take_drop, <- app_assoc. }
  rewrite E, store_app_mid.
  2: { unfold y. rewrite length_take, length_app. lia. }
  cbn [mbind option_bind].
  by replace (ntohs (p_length p) - zlen x) with (zlen a + zlen b) by lia.
Qed.

Lemma htons_ntohs x : 0 <= x < 65536 -> htons (ntohs x) = x.
Proof. intros. pose proof (ntohs_htons x). unfold ntohs in *. by rewrite H0, u16_small. Qed.

Lemma le16_ntohs x : 0 <= x < 65536 -> le16 x = be16 (ntohs x).
Proof. intros. by rewrite <- le16_htons, htons_ntohs. Qed.

(** The abstract value of a tag structure. *)
Definition tag_value (t : PPPoETag) : tag :=
  (ntohs (t_type t), take (Z.to_nat (ntohs (t_length t))) (t_payload t)).

Lemma zlen_tag_value t :
  wf_tag t -> ntohs (t_length t) <= ETH_DATA_LEN -> zlen (tag_value t).2 = ntohs (t_length t).
Proof.
  intros (_ & _ & Hl & _) Hn. pose proof (htons_range (t_length t)).
  unfold tag_value, zlen, ntohs in *. simpl. rewrite length_take. lia.
Qed.

Lemma slice_tag_bytes t :
  wf_tag t -> ntohs (t_length t) <= ETH_DATA_LEN ->
  slice (tag_bytes t) 0 (ntohs (t_length t) + TAG_HDR_SIZE) = Some (encode_tag (tag_value t)).
Proof.
  intros W Hn. pose proof (htons_range (t_length t)). fold (ntohs (t_length t)) in H.
  rewrite slice_Some; [|lia|unfold TAG_HDR_SIZE; lia|rewrite wf_tag_bytes_len by done; lia].
  unfold encode_tag. rewrite zlen_tag_value by done. unfold tag_value; cbn [fst snd].
  destruct W as (Wt & Wl & _ & _). rewrite <- !le16_ntohs by done. unfold tag_bytes, TAG_HDR_SIZE.
  replace (Z.to_nat (ntohs (t_length t) + 4)) with (4 + Z.to_nat (ntohs (t_length t)))%nat by lia.
  done.
Qed.

(** Every tag of a packet is well formed and short enough to be copied. *)
Lemma packet_tags_bound p t :
  wf_packet p -> t ∈ (packet_tags p).1 ->
  wf_tagv t /\ 4 + zlen t.2 <= MAX_PPPOE_PAYLOAD.
Proof.
  intros W Hin. destruct (packet_tags_sound p W) as (H1 & _ & H3 & _).
  split; [by eapply Forall_forall in H1|].
  assert (Hl : ntohs (p_length p) <= MAX_PPPOE_PAYLOAD).
  { unfold packet_tags in Hin. case_decide as D; [apply D|]. by apply elem_of_nil in Hin. }
  apply list_elem_of_split in Hin as (l1 & l2 & E). rewrite E in H3.
  rewrite encode_app, encode_cons, !zlen_app, zlen_encode_tag in H3.
  pose proof (zlen_nonneg (encode l1)). pose proof (zlen_nonneg (encode l2)). lia.
Qed.

(** Parsing with an invariant indexed by the tags seen so far. *)
Lemma wp_run_tags {S} (func : ParseFunc S) ts (I : list tag -> S -> Prop) E :
  forall pre s, I pre s ->
  (forall pre t s, t ∈ ts -> I pre s ->
     wp (func t.1 (zlen t.2) t.2) (fun _ s' => I (pre ++ [t]) s') E s) ->
  wp (run_tags func ts) (fun _ s' => I (pre ++ ts) s') E s.
Proof.
  induction ts as [|t ts IH]; intros pre s HI Hf; simpl.
  - apply wp_ret. by rewrite app_nil_r.
  - apply wp_bind. eapply wp_mono; [apply (Hf pre t s); [left|done]| |done].
    intros [] s' HI'. rewrite cons_middle, app_assoc. apply IH; [done|].
    intros pre' t' s1 Hin. apply Hf. by right.
Qed.

Lemma wp_parsePacket {S} p (func : ParseFunc S) (I : list tag -> S -> Prop) E s :
  wf_packet p -> I [] s ->
  (forall pre t s, t ∈ (packet_tags p).1 -> I pre s ->
     wp (func t.1 (zlen t.2) t.2) (fun _ s' => I (pre ++ [t]) s') E s) ->
  wp (parsePacket p func) (fun _ s' => I (packet_tags p).1 s') E s.
Proof.
  intros W HI Hf. unfold wp. rewrite parsePacket_run by done.
  change (wp (bind (run_tags func (packet_tags p).1) (fun _ => ret (packet_tags p).2))
    (fun _ s' => I (packet_tags p).1 s') E s).
  apply wp_bind. eapply wp_mono; [apply (wp_run_tags func _ I E [] s HI Hf)| |done].
  intros [] s' H. by apply wp_ret.
Qed.

(** ** Properties *)

(** Concrete packets and tags for the witnesses. *)
Definition packet_with (ts : list tag) : PPPoEPacket :=
  mkPacket [2; 0; 0; 0; 0; 1] [2; 0; 0; 0; 0; 2] (htons ETH_PPPOE_DISCOVERY) 1 1 CODE_PADI 0
    (htons (zlen (encode ts))) (encode ts ++ replicate (1500 - length (encode ts)) 0).
Definition two_tags : list tag := [(TAG_SERVICE_NAME, [105; 115; 112]); (TAG_HOST_UNIQ, [1; 2; 3; 4])].
Definition empty_tag : PPPoETag := mkTag 0 0 (replicate 1500 0).
Definition cookie_tag : PPPoETag := mkTag (htons TAG_AC_COOKIE) (htons 2) ([7; 8] ++ replicate 1498 0).
Definition record_tag : ParseFunc (list tag) := fun t _ d s => Ok tt (s ++ [(t, d)]).

Lemma two_tags_wf : Forall wf_tagv two_tags.
Proof. repeat constructor; simpl; try lia; vm_compute; congruence. Qed.

Lemma two_tags_carried : carries (packet_with two_tags) two_tags.
Proof.
  repeat split; try (vm_compute; congruence).
  exists (replicate 1485 0). vm_compute. reflexivity.
Qed.

(** C28. A discovery packet that carries a list of tags is parsed back to that
    list: [parsePacket] calls the callback once for every tag, in order, with
    its type, length and value, and returns 0; it does so whatever follows the
    announced length in the buffer. *)
Theorem parsePacket_roundtrip {S} p ts (func : ParseFunc S) s :
  wf_packet p -> Forall wf_tagv ts -> carries p ts ->
  parsePacket p func s = bind (run_tags func ts) (fun _ => ret 0) s.
Proof.
  intros W Hts Hc. rewrite parsePacket_run by done.
  by rewrite (carries_packet_tags p ts).
Qed.

Lemma parsePacket_roundtrip_witness :
  parsePacket (packet_with two_tags) record_tag [] =
    bind (run_tags record_tag two_tags) (fun _ => ret 0) [] /\
  parsePacket (packet_with two_tags) record_tag [] = Ok 0 two_tags.
Proof.
  split; [|vm_compute; reflexivity].
  apply (parsePacket_roundtrip (packet_with two_tags) two_tags).
  - apply wf_packetb_ok. vm_compute. reflexivity.
  - apply two_tags_wf.
  - apply two_tags_carried.
Defined.

Lemma safe_run_tags {S} (func : ParseFunc S) ts s :
  (forall t n d s', safe (func t n d s')) -> safe (run_tags func ts s).
Proof.
  intros Hf. revert s. induction ts as [|t ts IH]; intros s; simpl; [done|].
  apply bind_safe; auto.
Qed.

(** On every received packet, malformed ones included, [parsePacket]
    terminates without touching memory outside the payload buffer, as long as
    the callback does not; it returns 0 or -1. *)
Theorem parsePacket_safe {S} p (func : ParseFunc S) s :
  wf_packet p -> (forall t n d s', safe (func t n d s')) ->
  safe (parsePacket p func s) /\
  forall r s', parsePacket p func s = Ok r s' -> r = 0 \/ r = -1.
Proof.
  intros W Hf. rewrite parsePacket_run by done. split.
  - apply bind_safe; [by apply safe_run_tags|done].
  - intros r s' E. apply bind_inv_Ok in E as (? & ? & _ & [= <- _]).
    by apply packet_tags_sound.
Qed.

Lemma parsePacket_safe_witness :
  safe (parsePacket (set_length (htons 1) (packet_with two_tags)) record_tag []) /\
  parsePacket (set_length (htons 1) (packet_with two_tags)) record_tag [] = Ok (-1) [].
Proof.
  split; [|vm_compute; reflexivity].
  apply (parsePacket_safe (set_length (htons 1) (packet_with two_tags)) record_tag []).
  - apply wf_packetb_ok. vm_compute. reflexivity.
  - intros. exact I.
Defined.

(** [findTag] never leaves the packet, always terminates, and finds the
    first tag of the wanted type among the tags [parsePacket] visits: it
    returns its offset and copies type, length and value to [*tag]; when there
    is none it returns NULL and leaves [*tag] alone. *)
Theorem findTag_first p ty tg :
  wf_packet p -> wf_tag tg ->
  exists loc tg', findTag p ty tg = Some (loc, tg') /\
    match loc with
    | None => tg' = tg /\ Forall (fun t : tag => t.1 <> ty) (packet_tags p).1
    | Some off => exists v ts1 ts2,
        (packet_tags p).1 = ts1 ++ (ty, v) :: ts2 /\
        Forall (fun t : tag => t.1 <> ty) ts1 /\
        off = zlen (encode ts1) /\
        t_type tg' = htons ty /\ t_length tg' = htons (zlen v) /\
        take (length v) (t_payload tg') = v
    end.
Proof.
  intros W T. rewrite findTag_decode by done.
  destruct (list_find _ _) as [[k [ty' v]]|] eqn:E; do 2 eexists; (split; [done|]); simpl.
  - apply list_find_Some in E as (Hk & Ht & Hlt). simpl in Ht; subst ty'.
    exists v, (take k (packet_tags p).1), (drop (S k) (packet_tags p).1).
    split_and!; try done.
    + by rewrite take_drop_middle.
    + apply Forall_lookup_2. intros i t Hi%lookup_take_Some.
      destruct Hi as [Hi ?]. by eapply Hlt.
    + by rewrite take_app_length.
  - split; [done|]. by apply list_find_None in E.
Qed.

Lemma findTag_first_witness :
  (exists loc tg', findTag (packet_with two_tags) TAG_HOST_UNIQ empty_tag = Some (loc, tg') /\
    match loc with
    | None => tg' = empty_tag /\
        Forall (fun t : tag => t.1 <> TAG_HOST_UNIQ) (packet_tags (packet_with two_tags)).1
    | Some off => exists v ts1 ts2,
        (packet_tags (packet_with two_tags)).1 = ts1 ++ (TAG_HOST_UNIQ, v) :: ts2 /\
        Forall (fun t : tag => t.1 <> TAG_HOST_UNIQ) ts1 /\
        off = zlen (encode ts1) /\
        t_type tg' = htons TAG_HOST_UNIQ /\ t_length tg' = htons (zlen v) /\
        take (length v) (t_payload tg') = v
    end) /\
  fst <$> findTag (packet_with two_tags) TAG_HOST_UNIQ empty_tag = Some (Some 7).
Proof.
  split; [|vm_compute; reflexivity].
  apply (findTag_first (packet_with two_tags) TAG_HOST_UNIQ empty_tag).
  - apply wf_packetb_ok. vm_compute. reflexivity.
  - repeat split; try (vm_compute; congruence). apply forallb_bytes. vm_compute. reflexivity.
Defined.

(** [removeBytes] undoes [insertBytes]: after inserting bytes anywhere in
    the tag area and removing as many at the same place, the packet has its
    old length and its old payload. *)
Theorem removeBytes_insertBytes p a b rest src :
  wf_packet p -> p_payload p = a ++ b ++ rest ->
  ntohs (p_length p) = zlen a + zlen b ->
  zlen src + zlen a + zlen b <= MAX_PPPOE_PAYLOAD ->
  exists p1 p2,
    insertBytes p (zlen a) src = Some (zlen src, p1) /\
    removeBytes p1 (zlen a) (zlen src) = Some (zlen src, p2) /\
    p_length p2 = p_length p /\ (a ++ b) `prefix_of` p_payload p2 /\
    zlen (p_payload p2) = ETH_DATA_LEN.
Proof.
  intros W Hp Hl Hm. pose proof (zlen_nonneg a). pose proof (zlen_nonneg b).
  pose proof (zlen_nonneg src). rewrite (insertBytes_app _ _ b rest) by (done || apply W).
  unfold MAX_PPPOE_PAYLOAD, PPPOE_OVERHEAD, ETH_DATA_LEN in *.
  assert (Hsz : zlen (a ++ src ++ b ++ drop (length src) rest) = ETH_DATA_LEN).
  { pose proof (wf_payload_len _ W) as Hz. rewrite Hp, !zlen_app in Hz.
    rewrite !zlen_app. unfold zlen, ETH_DATA_LEN in *. rewrite length_drop. lia. }
  do 2 eexists. split; [done|].
  erewrite (removeBytes_app _ a src b (drop (length src) rest)); simpl.
  - split; [done|]. simpl. split_and!.
    + rewrite <- Hl, htons_ntohs by apply W. done.
    + rewrite (app_assoc a b). by apply prefix_app_r.
    + etransitivity; [|exact Hsz]. rewrite !zlen_app. unfold zlen.
      rewrite !length_drop, !length_app. lia.
  - done.
  - done.
  - rewrite ntohs_htons, u16_small by lia. lia.
Qed.

Lemma removeBytes_insertBytes_witness :
  exists p1 p2,
    insertBytes (packet_with two_tags) 7 [1; 2; 3] = Some (3, p1) /\
    removeBytes p1 7 3 = Some (3, p2) /\
    p_length p2 = p_length (packet_with two_tags) /\ encode two_tags `prefix_of` p_payload p2 /\
    zlen (p_payload p2) = ETH_DATA_LEN.
Proof.
  apply (removeBytes_insertBytes (packet_with two_tags) (take 7 (encode two_tags))
    (drop 7 (encode two_tags)) (replicate 1485 0) [1; 2; 3]).
  - apply wf_packetb_ok. vm_compute. reflexivity.
  - vm_compute. reflexivity.
  - vm_compute. reflexivity.
  - vm_compute. discriminate.
Defined.

(** [addTag] puts the tag in front of the tags the packet carries and
    returns the number of bytes added; when the packet would exceed the
    largest payload it returns -1 and leaves the packet alone. *)
Theorem addTag_carries p ts tg :
  wf_packet p -> Forall wf_tagv ts -> carries p ts ->
  wf_tag tg -> ntohs (t_length tg) <= ETH_DATA_LEN ->
  let n := TAG_HDR_SIZE + ntohs (t_length tg) in
  if decide (n + zlen (encode ts) <= MAX_PPPOE_PAYLOAD)
  then exists p', addTag p tg = Some (n, p') /\ carries p' (tag_value tg :: ts)
  else addTag p tg = Some (-1, p).
Proof.
  intros W Hts (Hv & Ht & Hl & Hm & [rest Hr]) T Hn n. unfold addTag.
  rewrite slice_tag_bytes by done. cbn [mbind option_bind].
  assert (Hz : zlen (encode_tag (tag_value tg)) = n).
  { rewrite zlen_encode_tag, zlen_tag_value by assumption. unfold n, TAG_HDR_SIZE. lia. }
  case_decide as D.
  - rewrite (insertBytes_app p [] (encode ts) rest); try done.
    + eexists. rewrite Hz. split; [done|].
      unfold carries; simpl. rewrite encode_cons, zlen_app, Hz.
      unfold n, TAG_HDR_SIZE, MAX_PPPOE_PAYLOAD, PPPOE_OVERHEAD, ETH_DATA_LEN in *.
      pose proof (htons_range (t_length tg)). unfold ntohs in *.
      pose proof (zlen_nonneg (encode ts)).
      split_and!; [done|done| |lia|].
      * pose proof (ntohs_htons (zlen (@nil Z) + zlen (encode ts) + (4 + htons (t_length tg)))).
        unfold ntohs in *. rewrite H1, zlen_nil, u16_small by lia. lia.
      * exists (drop (length (encode_tag (tag_value tg))) rest). by rewrite <- app_assoc.
    + apply W.
    + rewrite Hz, zlen_nil. lia.
  - unfold insertBytes. rewrite Hz, decide_True by (rewrite Hl; lia). done.
Qed.

Lemma addTag_carries_witness :
  exists p', addTag (packet_with two_tags) cookie_tag = Some (6, p') /\
    carries p' (tag_value cookie_tag :: two_tags).
Proof.
  apply (addTag_carries (packet_with two_tags) two_tags cookie_tag).
  - apply wf_packetb_ok. vm_compute. reflexivity.
  - apply two_tags_wf.
  - apply two_tags_carried.
  - repeat split; try (vm_compute; congruence). apply forallb_bytes. vm_compute. reflexivity.
  - vm_compute. discriminate.
Defined.
