(* ===== verification/Checksum.v ===== *)
(** * Checksum: TCP checksums and MSS clamping

    [computeTCPChecksum] and [clampMSS] of common.c.  [ip] and [tcp] are the
    offsets of the headers in the packet payload; a result [None] is a read or
    write outside the payload buffer. *)

From stdpp Require Import base list numbers strings.
From S2P Require Import Prelude Wire.
Open Scope Z_scope.

(** ** The code *)

(** A 16-bit read through a cast pointer, little-endian. *)
Definition rd16 (b : list Z) (addr : Z) : option Z :=
  rd b addr ≫= fun lo => rd b (addr + 1) ≫= fun hi => Some (un_le16 lo hi).

(** [while (count > 1) ...; if (count > 0) ...]. *)
Fixpoint sum_loop (fuel : nat) (b : list Z) (addr count sum : Z) : option Z :=
  match fuel with
  | O => None
  | S fuel =>
    if decide (count > 1) then
      rd16 b addr ≫= fun w => sum_loop fuel b (addr + 2) (count - 2) (u32 (sum + w))
    else if decide (count > 0) then
      rd b addr ≫= fun x => Some (u32 (sum + x))
    else Some sum
  end.

(** [while (sum >> 16) sum = (sum & 0xffff) + (sum >> 16)]. *)
Fixpoint fold_loop (fuel : nat) (sum : Z) : option Z :=
  match fuel with
  | O => None
  | S fuel =>
    if decide (Z.shiftr sum 16 = 0) then Some sum
    else fold_loop fuel (u32 (Z.land sum 0xffff + Z.shiftr sum 16))
  end.

(** Bytes of TCP header and data, from the IP header; a [UINT16_t]. *)
Definition tcp_count (b : list Z) (ip : Z) : option Z :=
  rd b (ip + 2) ≫= fun hi => rd b (ip + 3) ≫= fun lo => rd b ip ≫= fun v =>
  Some (u16 (u16 (hi * 256 + lo) - Z.land v 0x0F * 4)).

Definition pseudo_header (b : list Z) (ip count : Z) : option (list Z) :=
  slice b (ip + 12) 8 ≫= fun addrs => rd b (ip + 9) ≫= fun proto =>
  Some (addrs ++ [0; proto; Z.land (Z.shiftr count 8) 0xff; Z.land count 0xff]).

Definition computeTCPChecksum (b : list Z) (ip tcp : Z) : option Z :=
  tcp_count b ip ≫= fun count =>
  pseudo_header b ip count ≫= fun ph =>
  rd16 ph 0 ≫= fun w0 => rd16 ph 2 ≫= fun w1 => rd16 ph 4 ≫= fun w2 =>
  rd16 ph 6 ≫= fun w3 => rd16 ph 8 ≫= fun w4 => rd16 ph 10 ≫= fun w5 =>
  let sum := u32 (u32 (u32 (u32 (u32 (u32 (0 + w0) + w1) + w2) + w3) + w4) + w5) in
  sum_loop (S (Z.to_nat count)) b tcp count sum ≫= fun sum =>
  fold_loop 3 sum ≫= fun sum =>
  Some (u16 (Z.land (Z.lnot sum) 0xFFFF)).

(** Result of the scan of the TCP options. *)
Inductive mss_scan := Bogus | NoMSS | MSSAt (mssopt : Z).

Fixpoint option_loop (fuel : nat) (b : list Z) (opt endHdr : Z) : option mss_scan :=
  match fuel with
  | O => None
  | S fuel =>
    if decide (opt < endHdr) then
      rd b opt ≫= fun k =>
      if decide (k = 0) then Some NoMSS
      else if decide (k = 1) then option_loop fuel b (opt + 1) endHdr
      else if decide (k = 2) then
        rd b (opt + 1) ≫= fun l =>
        if decide (l <> 4) then Some Bogus else Some (MSSAt opt)
      else
        rd b (opt + 1) ≫= fun l =>
        if decide (l < 2) then Some Bogus else option_loop fuel b (opt + l) endHdr
    else Some NoMSS
  end.

(** [clampMSS], from a packet length and payload to the new payload. *)
Definition clamp_payload (len : Z) (b : list Z) (clampMss : Z) : option (list Z) :=
  rd b 0 ≫= fun p0 => rd b 1 ≫= fun p1 =>
  if decide (p0 <> 0x00 \/ p1 <> 0x21) then Some b else
  let ip := 2 in
  if decide (len < 42) then Some b else
  rd b ip ≫= fun v =>
  if decide (Z.land v 0xF0 <> 0x40) then Some b else
  rd b (ip + 6) ≫= fun f6 => rd b (ip + 7) ≫= fun f7 =>
  if decide (Z.land f6 0x1F <> 0 \/ f7 <> 0) then Some b else
  rd b (ip + 9) ≫= fun proto =>
  if decide (proto <> 0x06) then Some b else
  let tcp := ip + Z.land v 0x0F * 4 in
  rd b (tcp + 13) ≫= fun flags =>
  if decide (Z.land flags 0x02 = 0) then Some b else
  computeTCPChecksum b ip tcp ≫= fun csum =>
  if decide (csum <> 0) then Some b else
  rd b (tcp + 12) ≫= fun doff =>
  let endHdr := tcp + Z.shiftr (Z.land doff 0xF0) 2 in
  option_loop 64 b (tcp + 20) endHdr ≫= fun scan =>
  match scan with
  | Bogus => Some b
  | NoMSS => Some b
  | MSSAt mssopt =>
    rd b (mssopt + 2) ≫= fun m2 => rd b (mssopt + 3) ≫= fun m3 =>
    let mss := u32 (m2 * 256 + m3) in
    if decide (mss <= u32 clampMss) then Some b else
    store b (mssopt + 2) [Z.land (Z.shiftr (u32 clampMss) 8) 0xFF] ≫= fun b =>
    store b (mssopt + 3) [Z.land (u32 clampMss) 0xFF] ≫= fun b =>
    store b (tcp + 16) [0] ≫= fun b =>
    store b (tcp + 17) [0] ≫= fun b =>
    computeTCPChecksum b ip tcp ≫= fun csum =>
    store b (tcp + 16) (le16 csum)
  end.

Definition clampMSS (packet : PPPoEPacket) (clampMss : Z) : option PPPoEPacket :=
  clamp_payload (ntohs (p_length packet)) (p_payload packet) clampMss ≫= fun b =>
  Some (set_payload b packet).

(** ** Specification *)

(** Sum of the 16-bit words of a byte string, the last one padded with 0. *)
Fixpoint word_sum (l : list Z) : Z :=
  match l with
  | a :: b :: l => un_le16 a b + word_sum l
  | [a] => a
  | [] => 0
  end.

(** One's complement of the one's complement sum of a total [s] of words. *)
Definition ones_fold (s : Z) : Z := if decide (s = 0) then 0 else (s - 1) mod 65535 + 1.
Definition ones_checksum (s : Z) : Z := 65535 - ones_fold s.

(** ** Lemmas *)

Lemma word_sum_nonneg l : bytes l -> 0 <= word_sum l.
Proof.
  induction l as [| |a b l IH] using list_ind2; simpl; [lia| |].
  - intros Hb. inv Hb. unfold is_byte in *. lia.
  - unfold bytes. rewrite !Forall_cons. intros (Ha & Hb & Hl).
    pose proof (un_le16_range a b Ha Hb). specialize (IH Hl). lia.
Qed.

Lemma word_sum_bound l : bytes l -> word_sum l <= 65535 * ((zlen l + 1) / 2).
Proof.
  induction l as [| |a b l IH] using list_ind2; simpl; [done| |].
  - intros Hb. inv Hb. unfold is_byte in *. change ((zlen [a] + 1) / 2) with 1. lia.
  - unfold bytes. rewrite !Forall_cons. intros (Ha & Hb & Hl).
    pose proof (un_le16_range a b Ha Hb). specialize (IH Hl).
    rewrite !zlen_cons. replace (1 + (1 + zlen l) + 1) with (zlen l + 1 + 1 * 2) by lia.
    rewrite Z.div_add by lia. lia.
Qed.

Lemma word_sum_app l k : Nat.Even (length l) -> word_sum (l ++ k) = word_sum l + word_sum k.
Proof.
  induction l as [| |a b l IH] using list_ind2; simpl; [lia| |].
  - intros [x Hx]. lia.
  - intros [x Hx]. rewrite IH; [lia|]. exists (x - 1)%nat. lia.
Qed.

Lemma shiftr_16 x : Z.shiftr x 16 = x / 65536.
Proof. rewrite Z.shiftr_div_pow2 by lia. done. Qed.

(** The folding loop computes the one's complement sum and stops within three
    tests. *)
Lemma fold_loop_spec s : 0 <= s < 2 ^ 32 -> fold_loop 3 s = Some (ones_fold s).
Proof.
  intros Hs. unfold ones_fold. cbn [fold_loop].
  rewrite !land_ffff, !shiftr_16. change (2 ^ 32) with 4294967296 in Hs.
  case_decide as D0.
  { f_equal. case_decide; zlia. }
  set (s1 := s mod 65536 + s / 65536).
  assert (H1 : 0 < s1 <= 131070 /\ s1 mod 65535 = s mod 65535) by (unfold s1; zlia).
  rewrite (u32_small s1) by (change (2 ^ 32) with 4294967296; lia).
  case_decide as D1.
  { f_equal. case_decide; zlia. }
  set (s2 := s1 mod 65536 + s1 / 65536).
  assert (H2 : 0 < s2 <= 65535 /\ s2 mod 65535 = s mod 65535) by (unfold s2; zlia).
  rewrite (u32_small s2) by (change (2 ^ 32) with 4294967296; lia).
  rewrite decide_True by zlia. f_equal. case_decide; zlia.
Qed.

Lemma ones_fold_range s : 0 <= s -> 0 <= ones_fold s <= 65535.
Proof. intros. unfold ones_fold. case_decide; zlia. Qed.

(** Storing the checksum in a zeroed field makes the packet sum to zero. *)
Lemma ones_checksum_verifies s : 0 <= s -> ones_checksum (s + ones_checksum s) = 0.
Proof.
  intros Hs. unfold ones_checksum, ones_fold. do 2 case_decide; zlia.
Qed.

Lemma rd16_Some b addr : 0 <= addr -> addr + 2 <= zlen b -> exists lo hi,
  rd16 b addr = Some (un_le16 lo hi) /\
  drop (Z.to_nat addr) b = lo :: hi :: drop (Z.to_nat (addr + 2)) b.
Proof.
  intros H0 H. destruct (rd_Some b addr) as [lo E0]; [lia|].
  destruct (rd_Some b (addr + 1)) as [hi E1]; [lia|].
  exists lo, hi. unfold rd16. rewrite E0. cbn [mbind option_bind]. rewrite E1.
  split; [done|]. rewrite (rd_split _ _ _ E0), (rd_split _ _ _ E1).
  by replace (addr + 1 + 1) with (addr + 2) by lia.
Qed.

(** The summing loop adds the words of the [count] bytes at [addr]. *)
Lemma sum_loop_spec fuel b addr count sum :
  bytes b -> 0 <= addr -> 0 <= count -> addr + count <= zlen b ->
  (Z.to_nat count < fuel)%nat -> 0 <= sum ->
  sum + 65535 * ((count + 1) / 2) < 2 ^ 32 ->
  sum_loop fuel b addr count sum =
    Some (sum + word_sum (take (Z.to_nat count) (drop (Z.to_nat addr) b))).
Proof.
  intros Hb. revert addr count sum.
  induction fuel as [|fuel IH]; intros addr count sum Ha Hc Hl Hf Hs Hm; [lia|].
  cbn [sum_loop]. case_decide as D.
  - destruct (rd16_Some b addr) as (lo & hi & E & Ed); [lia..|].
    rewrite E, Ed. cbn [mbind option_bind].
    assert (B : bytes (drop (Z.to_nat addr) b)) by auto with pppoe.
    rewrite Ed in B. unfold bytes in B. rewrite !Forall_cons in B. destruct B as (B0 & B1 & _).
    pose proof (un_le16_range _ _ B0 B1).
    replace ((count + 1) / 2) with (1 + (count - 2 + 1) / 2) in Hm by zlia.
    assert (0 <= (count - 2 + 1) / 2) by zlia.
    rewrite u32_small by lia. rewrite IH by lia.
    replace (Z.to_nat count) with (S (S (Z.to_nat (count - 2)))) by lia.
    cbn [take word_sum]. f_equal. lia.
  - case_decide.
    + replace count with 1 in * by lia. destruct (rd_Some b addr) as [x E]; [lia|].
      rewrite E. cbn [mbind option_bind]. pose proof (rd_bytes _ _ _ Hb E) as Hx.
      unfold is_byte in Hx. change ((1 + 1) / 2) with 1 in Hm. rewrite u32_small by lia.
      by rewrite (rd_split _ _ _ E).
    + replace count with 0 in * by lia. simpl. f_equal. lia.
Qed.

Lemma checksum_complement s :
  0 <= s -> u16 (Z.land (Z.lnot (ones_fold s)) 0xFFFF) = ones_checksum s.
Proof.
  intros Hs. pose proof (ones_fold_range s Hs). unfold ones_checksum, u16.
  rewrite land_ffff. unfold Z.lnot. change (2 ^ 16) with 65536. zlia.
Qed.

Arguments sum_loop : simpl never.
Arguments fold_loop : simpl never.

Lemma u32_sum6 w0 w1 w2 w3 w4 w5 :
  0 <= w0 < 65536 -> 0 <= w1 < 65536 -> 0 <= w2 < 65536 ->
  0 <= w3 < 65536 -> 0 <= w4 < 65536 -> 0 <= w5 < 65536 ->
  u32 (u32 (u32 (u32 (u32 (u32 (0 + w0) + w1) + w2) + w3) + w4) + w5) =
    w0 + w1 + w2 + w3 + w4 + w5.
Proof.
  intros. rewrite (u32_small (0 + w0)), (u32_small (0 + w0 + w1)),
    (u32_small (0 + w0 + w1 + w2)), (u32_small (0 + w0 + w1 + w2 + w3)),
    (u32_small (0 + w0 + w1 + w2 + w3 + w4)), u32_small by lia. lia.
Qed.

(** What the checksum routine computes when the announced TCP length lies in
    the buffer. *)
Lemma computeTCPChecksum_spec b ip tcp count :
  bytes b -> 0 <= ip -> ip + 20 <= zlen b -> 0 <= tcp ->
  tcp_count b ip = Some count -> tcp + count <= zlen b ->
  exists ph, pseudo_header b ip count = Some ph /\ bytes ph /\
    computeTCPChecksum b ip tcp =
      Some (ones_checksum (word_sum ph +
        word_sum (take (Z.to_nat count) (drop (Z.to_nat tcp) b)))).
Proof.
  intros Hb Hip Hlen Htcp Hc Hbuf.
  assert (Hcr : 0 <= count < 65536).
  { unfold tcp_count in Hc. destruct (rd b (ip + 2)), (rd b (ip + 3)), (rd b ip);
      simplify_eq/=. apply u16_range. }
  destruct (rd_Some b (ip + 9)) as [proto Ep]; [lia|].
  set (ad := take 8 (drop (Z.to_nat (ip + 12)) b)).
  set (c0 := Z.land (Z.shiftr count 8) 0xff). set (c1 := Z.land count 0xff).
  assert (Eph : pseudo_header b ip count = Some (ad ++ [0; proto; c0; c1])).
  { unfold pseudo_header. rewrite slice_Some by lia. cbn [mbind option_bind].
    rewrite Ep. done. }
  assert (Bph : bytes (ad ++ [0; proto; c0; c1])).
  { apply bytes_app. split; [unfold ad; auto with pppoe|].
    pose proof (rd_bytes _ _ _ Hb Ep). unfold c0, c1. rewrite !land_ff.
    repeat constructor; unfold is_byte in *; zlia. }
  exists (ad ++ [0; proto; c0; c1]). split; [done|]. split; [done|].
  unfold computeTCPChecksum. rewrite Hc. cbn [mbind option_bind]. rewrite Eph.
  cbn [mbind option_bind].
  assert (Hl : length ad = 8%nat).
  { unfold ad. rewrite length_take, length_drop. unfold zlen in *. lia. }
  clearbody ad. destruct ad as [|a0 [|a1 [|a2 [|a3 [|a4 [|a5 [|a6 [|a7 [|? ?]]]]]]]]]; try discriminate Hl.
  cbn [app] in *.
  unfold bytes in Bph. rewrite !Forall_cons in Bph.
  destruct Bph as (B0 & B1 & B2 & B3 & B4 & B5 & B6 & B7 & B8 & B9 & B10 & B11 & _).
  pose proof (un_le16_range _ _ B0 B1). pose proof (un_le16_range _ _ B2 B3).
  pose proof (un_le16_range _ _ B4 B5). pose proof (un_le16_range _ _ B6 B7).
  pose proof (un_le16_range _ _ B8 B9). pose proof (un_le16_range _ _ B10 B11).
  unfold rd16, rd; simpl.
  rewrite u32_sum6 by done.
  assert ((count + 1) / 2 <= 32768) by zlia.
  rewrite sum_loop_spec by (done || lia). cbn [mbind option_bind].
  set (seg := take (Z.to_nat count) (drop (Z.to_nat tcp) b)).
  assert (Bs : bytes seg) by (unfold seg; auto with pppoe).
  pose proof (word_sum_nonneg _ Bs). pose proof (word_sum_bound _ Bs) as Hb2.
  assert (Hz : zlen seg = count).
  { unfold seg, zlen in *. rewrite length_take, length_drop. lia. }
  rewrite Hz in Hb2. rewrite fold_loop_spec by lia. cbn [mbind option_bind].
  rewrite checksum_complement by lia. do 2 f_equal. lia.
Qed.

(** The fields below the TCP checksum do not see a change of it. *)
Lemma tcp_count_app pre x y ip :
  0 <= ip -> ip + 4 <= zlen pre -> tcp_count (pre ++ x) ip = tcp_count (pre ++ y) ip.
Proof. intros. unfold tcp_count. by rewrite !(rd_app_l pre) by lia. Qed.

Lemma pseudo_header_app pre x y ip count :
  0 <= ip -> ip + 20 <= zlen pre ->
  pseudo_header (pre ++ x) ip count = pseudo_header (pre ++ y) ip count.
Proof.
  intros. unfold pseudo_header. by rewrite !(slice_app_l pre), !(rd_app_l pre) by lia.
Qed.

Lemma word_sum_pair s1 c s2 : length s1 = 16%nat -> 0 <= c < 65536 ->
  word_sum (s1 ++ le16 c ++ s2) = word_sum (s1 ++ [0; 0] ++ s2) + c.
Proof.
  intros Hl Hc. rewrite !(word_sum_app s1) by (exists 8%nat; lia).
  cbn [app le16 word_sum]. rewrite un_le16_le16 by done. change (un_le16 0 0) with 0. lia.
Qed.

Lemma ones_checksum_range s : 0 <= s -> 0 <= ones_checksum s < 65536.
Proof. intros. pose proof (ones_fold_range s). unfold ones_checksum. lia. Qed.

(** A computed checksum, stored in the zeroed field, verifies. *)
Lemma checksum_fix pre post ip tcp count c :
  bytes (pre ++ [0; 0] ++ post) -> 0 <= ip -> ip + 20 <= tcp -> zlen pre = tcp + 16 ->
  tcp_count (pre ++ [0; 0] ++ post) ip = Some count -> 18 <= count ->
  tcp + count <= zlen (pre ++ [0; 0] ++ post) ->
  computeTCPChecksum (pre ++ [0; 0] ++ post) ip tcp = Some c ->
  0 <= c < 65536 /\ computeTCPChecksum (pre ++ le16 c ++ post) ip tcp = Some 0.
Proof.
  intros Hb Hip Ht Hp Hc H18 Hl E.
  destruct (computeTCPChecksum_spec (pre ++ [0; 0] ++ post) ip tcp count)
    as (ph & Eph & Bph & Es); [done|lia|lia|lia|done|done|].
  rewrite E in Es. injection Es as ->. set (seg := take _ _) in *.
  assert (Bs : bytes seg) by (unfold seg; auto with pppoe).
  pose proof (word_sum_nonneg _ Bs). pose proof (word_sum_nonneg _ Bph).
  set (c := ones_checksum _). assert (Hr : 0 <= c < 65536) by (apply ones_checksum_range; lia).
  split; [done|].
  destruct (computeTCPChecksum_spec (pre ++ le16 c ++ post) ip tcp count)
    as (ph' & Eph' & _ & Es').
  - rewrite !bytes_app in *. destruct Hb as (? & _ & ?). auto with pppoe.
  - lia.
  - rewrite !zlen_app in *. change (zlen (le16 c)) with (zlen [0; 0]). lia.
  - lia.
  - rewrite <- Hc. apply tcp_count_app; lia.
  - rewrite !zlen_app in *. change (zlen (le16 c)) with (zlen [0; 0]). lia.
  - rewrite Es'. rewrite (pseudo_header_app pre _ ([0; 0] ++ post)) in Eph' by lia.
    rewrite Eph in Eph'. injection Eph' as <-. f_equal.
    assert (Hd : forall x : list Z, length x = 2%nat ->
      take (Z.to_nat count) (drop (Z.to_nat tcp) (pre ++ x ++ post)) =
      drop (Z.to_nat tcp) pre ++ x ++ take (Z.to_nat count - 18) post).
    { intros x Hx. unfold zlen in Hp. rewrite drop_app_le by lia.
      rewrite take_app_ge by (rewrite length_drop; lia). f_equal.
      rewrite take_app_ge by (rewrite length_drop; lia). do 2 f_equal.
      rewrite length_drop. lia. }
    rewrite Hd by done. rewrite word_sum_pair.
    + rewrite <- Hd, Z.add_assoc by done.
      exact (ones_checksum_verifies (word_sum ph + word_sum seg) ltac:(lia)).
    + rewrite length_drop. unfold zlen in Hp. lia.
    + done.
Qed.

Lemma option_loop_found fuel b opt endHdr m :
  bytes b -> option_loop fuel b opt endHdr = Some (MSSAt m) ->
  opt <= m < endHdr /\ rd b m = Some 2 /\ rd b (m + 1) = Some 4.
Proof.
  intros Hb. revert opt. induction fuel as [|fuel IH]; intros opt E; [done|].
  cbn [option_loop] in E. case_decide; [|done].
  apply bind_Some in E as (k & Ek & E). case_decide; [done|].
  case_decide; [destruct (IH _ E) as (? & ? & ?); split; [lia|done]|].
  case_decide; apply bind_Some in E as (l & El & E).
  - case_decide; [done|]. injection E as <-. assert (l = 4) by lia. subst.
    split; [lia|done].
  - case_decide; [done|]. destruct (IH _ E) as (? & ? & ?). split; [lia|done].
Qed.

Lemma option_loop_total fuel b opt endHdr :
  bytes b -> 0 <= opt -> endHdr + 1 <= zlen b -> (Z.to_nat (endHdr - opt) < fuel)%nat ->
  is_Some (option_loop fuel b opt endHdr).
Proof.
  intros Hb. revert opt. induction fuel as [|fuel IH]; intros opt H0 H1 Hf; [lia|].
  cbn [option_loop]. case_decide; [|eauto].
  destruct (rd_Some b opt) as [k Ek]; [lia|]. rewrite Ek. cbn [mbind option_bind].
  case_decide; [eauto|]. case_decide; [apply IH; lia|].
  destruct (rd_Some b (opt + 1)) as [l El]; [lia|]. rewrite El. cbn [mbind option_bind].
  case_decide; case_decide; eauto. apply IH; lia.
Qed.

(** Two adjacent one-byte stores. *)
Lemma store_pair b off x y b1 b2 :
  store b off [x] = Some b1 -> store b1 (off + 1) [y] = Some b2 ->
  exists (pre : list Z) o1 o2 post, zlen pre = off /\ b = pre ++ [o1; o2] ++ post /\
    b2 = pre ++ [x; y] ++ post.
Proof.
  intros E1 E2.
  apply store_decompose in E1 as (pre & old & post & Hp & Hl & -> & ->).
  apply store_decompose in E2 as (pre' & old' & post' & Hp' & Hl' & E & ->).
  destruct old as [|o [|]]; try discriminate. destruct old' as [|o' [|]]; try discriminate.
  assert (E' : (pre ++ [x]) ++ post = pre' ++ [o'] ++ post') by (rewrite <- app_assoc; done).
  apply app_inj_1 in E' as [<- ->].
  2: { rewrite length_app. unfold zlen in *. simpl. lia. }
  exists pre, o, o', post'. split_and!; try done. by rewrite <- app_assoc.
Qed.

(** Undo the reads, tests and stores of a successful option computation. *)
Ltac inv_opt H :=
  repeat match type of H with
  | (_ ≫= _) = Some _ =>
      let x := fresh "x" in let E := fresh "E" in apply bind_Some in H as (x & E & H)
  | (if decide _ then Some ?b else _) = Some _ => case_decide; [by injection H as <-; left|]
  | context [match ?s with Bogus => _ | NoMSS => _ | MSSAt _ => _ end] =>
      destruct s as [| |]; [by injection H as <-; left|by injection H as <-; left|]
  end.

Lemma land_15_range v : 0 <= Z.land v 15 < 16.
Proof. change 15 with (Z.ones 4). rewrite Z.land_ones by lia. apply Z.mod_pos_bound. lia. Qed.

Lemma doff_range d : 0 <= d < 256 -> 0 <= Z.shiftr (Z.land d 0xF0) 2 <= 60.
Proof.
  intros Hd.
  pose proof (byte_ind (fun d => (0 <=? Z.shiftr (Z.land d 0xF0) 2) &&
    (Z.shiftr (Z.land d 0xF0) 2 <=? 60)) eq_refl d Hd) as H. simpl in H. lia.
Qed.

(** Stores above an offset keep what lies below it. *)
Lemma tcp_count_store b off src b' ip :
  store b off src = Some b' -> 0 <= ip -> ip + 4 <= off -> tcp_count b' ip = tcp_count b ip.
Proof.
  intros E H0 H. unfold tcp_count.
  rewrite !(rd_store _ _ _ _ _ E), !decide_False by lia. done.
Qed.

Section Clamp.
Context (len clampMss : Z) (b : list Z) (v count : Z).
Hypothesis Hb : bytes b.
Hypothesis Hsize : zlen b = ETH_DATA_LEN.
Hypothesis Hmss : 0 <= clampMss < 65536.
(** The IP header: its length and the TCP length it announces. *)
Hypothesis Hv : rd b 2 = Some v.
Hypothesis Hihl : 5 <= Z.land v 0x0F.
Hypothesis Hcount : tcp_count b 2 = Some count.
Hypothesis Hcov : 20 <= count.
Hypothesis Hfit : 2 + Z.land v 0x0F * 4 + count <= zlen b.

(** The rewriting part of [clampMSS]. *)
Lemma clamp_stores mssopt b1 b2 b3 b4 b5 csum :
  let tcp := 2 + Z.land v 0x0F * 4 in
  tcp + 20 <= mssopt ->
  store b (mssopt + 2) [Z.land (Z.shiftr (u32 clampMss) 8) 0xFF] = Some b1 ->
  store b1 (mssopt + 3) [Z.land (u32 clampMss) 0xFF] = Some b2 ->
  store b2 (tcp + 16) [0] = Some b3 -> store b3 (tcp + 17) [0] = Some b4 ->
  computeTCPChecksum b4 2 tcp = Some csum -> store b4 (tcp + 16) (le16 csum) = Some b5 ->
  computeTCPChecksum b5 2 tcp = Some 0 /\
  rd b5 (mssopt + 2) = Some (clampMss / 256) /\ rd b5 (mssopt + 3) = Some (clampMss mod 256) /\
  forall i, i <> mssopt + 2 -> i <> mssopt + 3 -> i <> tcp + 16 -> i <> tcp + 17 ->
    rd b5 i = rd b i.
Proof using Hb Hsize Hmss Hihl Hcount Hcov Hfit.
  intros tcp Hm S1 S2 S3 S4 Ec S5. pose proof (land_15_range v).
  rewrite land_ff, u32_small, shiftr_8 in S1 by lia. rewrite land_ff, u32_small in S2 by lia.
  rewrite (Z.mod_small (clampMss / 256)) in S1 by zlia.
  assert (B4 : bytes b4).
  { assert (forall x, 0 <= x < 256 -> bytes [x]) by (intros; repeat constructor; lia).
    eapply bytes_store, S4; [eapply bytes_store, S3; [eapply bytes_store, S2;
      [eapply bytes_store, S1; [done|]|]|]|]; auto with lia; apply H0; zlia. }
  assert (Hz : zlen b4 = zlen b).
  { by rewrite (store_zlen _ _ _ _ S4), (store_zlen _ _ _ _ S3), (store_zlen _ _ _ _ S2),
      (store_zlen _ _ _ _ S1). }
  assert (Hc4 : tcp_count b4 2 = Some count).
  { rewrite (tcp_count_store _ _ _ _ _ S4), (tcp_count_store _ _ _ _ _ S3),
      (tcp_count_store _ _ _ _ _ S2), (tcp_count_store _ _ _ _ _ S1); (done || lia). }
  assert (R : forall i, rd b5 i = if decide (i = tcp + 16 \/ i = tcp + 17) then rd b5 i
    else if decide (i = mssopt + 3) then Some (clampMss mod 256)
    else if decide (i = mssopt + 2) then Some (clampMss / 256) else rd b i).
  { intros i. case_decide as D; [done|].
    rewrite (rd_store _ _ _ _ i S5), decide_False by (change (zlen (le16 csum)) with 2; lia).
    rewrite (rd_store _ _ _ _ i S4), decide_False by (change (zlen [0]) with 1; lia).
    rewrite (rd_store _ _ _ _ i S3), decide_False by (change (zlen [0]) with 1; lia).
    rewrite (rd_store _ _ _ _ i S2), (rd_store _ _ _ _ i S1).
    change (zlen [clampMss mod 256]) with 1. change (zlen [clampMss / 256]) with 1.
    destruct (decide (i = mssopt + 3)) as [->|];
      [rewrite decide_True, Z.sub_diag by lia; done|rewrite decide_False by lia].
    destruct (decide (i = mssopt + 2)) as [->|];
      [rewrite decide_True, Z.sub_diag by lia; done|by rewrite decide_False by lia]. }
  replace (tcp + 17) with (tcp + 16 + 1) in S4 by lia.
  destruct (store_pair _ _ _ _ _ _ S3 S4) as (pre & o1 & o2 & post & Hp & _ & E4).
  assert (E5 : b5 = pre ++ le16 csum ++ post).
  { rewrite E4, <- Hp, store_app_mid in S5 by done. congruence. }
  subst b4.
  destruct (checksum_fix pre post 2 tcp count csum) as [_ Efix]; try (done || lia).
  rewrite E5 at 1. split; [done|]. split_and!.
  - rewrite R. repeat (case_decide; try lia). done.
  - rewrite R. repeat (case_decide; try lia). done.
  - intros i ????. rewrite R. repeat (case_decide; try lia). done.
Qed.

(** [clampMSS] leaves the packet alone or rewrites exactly the MSS value and
    the checksum. *)
Lemma clamp_payload_correct b' :
  clamp_payload len b clampMss = Some b' ->
  b' = b \/ exists mssopt m2 m3,
    let tcp := 2 + Z.land v 0x0F * 4 in
    tcp + 20 <= mssopt /\ rd b mssopt = Some 2 /\ rd b (mssopt + 1) = Some 4 /\
    rd b (mssopt + 2) = Some m2 /\ rd b (mssopt + 3) = Some m3 /\
    m2 * 256 + m3 > clampMss /\
    rd b' (mssopt + 2) = Some (clampMss / 256) /\
    rd b' (mssopt + 3) = Some (clampMss mod 256) /\
    computeTCPChecksum b' 2 tcp = Some 0 /\
    forall i, i <> mssopt + 2 -> i <> mssopt + 3 -> i <> tcp + 16 -> i <> tcp + 17 ->
      rd b' i = rd b i.
Proof using Hb Hsize Hmss Hv Hihl Hcount Hcov Hfit.
  intros E. unfold clamp_payload in E. inv_opt E.
  assert (x1 = v) by congruence. subst x1.
  destruct (option_loop_found _ _ _ _ _ Hb E9) as (Hm & K2 & K4).
  pose proof (rd_bytes _ _ _ Hb E10) as B8. pose proof (rd_bytes _ _ _ Hb E11) as B9.
  unfold is_byte in B8, B9. rewrite !u32_small in H6 by lia.
  destruct (clamp_stores mssopt x10 x11 x12 x13 b' x14) as (Hc & R2 & R3 & R);
    [lia|done..|].
  right. exists mssopt, x8, x9. split_and!; (done || lia).
Qed.
End Clamp.

(** Reads and stores below 1500 succeed in a payload buffer. *)
Lemma rd_pay (b : list Z) i : zlen b = ETH_DATA_LEN -> 0 <= i < 1500 -> exists x, rd b i = Some x.
Proof. unfold ETH_DATA_LEN. intros. apply rd_Some. lia. Qed.

Lemma store_pay (b : list Z) i src :
  zlen b = ETH_DATA_LEN -> 0 <= i -> i + zlen src <= 1500 ->
  exists b', store b i src = Some b' /\ zlen b' = ETH_DATA_LEN.
Proof.
  unfold ETH_DATA_LEN. intros Hz H0 H1. pose proof (store_Some b i src H0 ltac:(lia)) as E.
  eexists. split; [apply E|]. by rewrite (store_zlen _ _ _ _ E).
Qed.

Ltac opt_rd b i := let x := fresh "x" in let E := fresh "E" in
  destruct (rd_pay b i) as [x E]; [assumption|lia|apply (is_Some_bind _ _ x E); clear E].
Ltac opt_store b i src := let b' := fresh "b" in let E := fresh "E" in let Hz := fresh "Hz" in
  destruct (store_pay b i src) as (b' & E & Hz);
  [assumption|lia|rewrite zlen_cons, zlen_nil; lia|apply (is_Some_bind _ _ b' E)].

(** The rewriting part always stays in the buffer. *)
Lemma clamp_write_total b tcp count m x y :
  bytes b -> zlen b = ETH_DATA_LEN -> tcp_count b 2 = Some count -> 2 <= tcp ->
  tcp + count <= zlen b -> tcp + 20 <= m < tcp + 60 -> tcp <= 62 -> is_byte x -> is_byte y ->
  is_Some (
    store b (m + 2) [x] ≫= fun b => store b (m + 3) [y] ≫= fun b =>
    store b (tcp + 16) [0] ≫= fun b => store b (tcp + 17) [0] ≫= fun b =>
    computeTCPChecksum b 2 tcp ≫= fun csum => store b (tcp + 16) (le16 csum)).
Proof.
  intros Hb Hs Hc Ht Hfit Hm Ht2 Hx Hy.
  opt_store b (m + 2) [x]. opt_store b0 (m + 3) [y]. opt_store b1 (tcp + 16) [0].
  opt_store b2 (tcp + 17) [0]. assert (H0 : is_byte 0) by (unfold is_byte; lia).
  assert (B : forall z, is_byte z -> bytes [z]) by (repeat constructor; done || apply H).
  destruct (computeTCPChecksum_spec b3 2 tcp count) as (ph & _ & _ & Ec).
  - eapply bytes_store, E2; [eapply bytes_store, E1; [eapply bytes_store, E0;
      [eapply bytes_store, E; [done|]|]|]|]; by apply B.
  - lia.
  - rewrite Hz2. unfold ETH_DATA_LEN. lia.
  - lia.
  - rewrite (tcp_count_store _ _ _ _ _ E2), (tcp_count_store _ _ _ _ _ E1),
      (tcp_count_store _ _ _ _ _ E0), (tcp_count_store _ _ _ _ _ E); (done || lia).
  - by rewrite Hz2, <- Hs.
  - apply (is_Some_bind _ _ _ Ec). rewrite store_Some; [eauto|lia|].
    rewrite Hz2. unfold le16, ETH_DATA_LEN. rewrite !zlen_cons, zlen_nil. lia.
Qed.

(** No access leaves the payload when the length the IP header announces ends
    inside it. *)
Lemma clamp_payload_total len b clampMss v count :
  bytes b -> zlen b = ETH_DATA_LEN ->
  rd b 2 = Some v -> tcp_count b 2 = Some count ->
  2 + Z.land v 0x0F * 4 + count <= zlen b ->
  is_Some (clamp_payload len b clampMss).
Proof.
  intros Hb Hs Hv Hc Hfit. pose proof (land_15_range v).
  unfold clamp_payload. opt_rd b 0. opt_rd b 1.
  case_decide; [eauto|]. cbv zeta. case_decide; [eauto|]. apply (is_Some_bind _ _ v Hv).
  case_decide; [eauto|]. opt_rd b (2 + 6). opt_rd b (2 + 7). case_decide; [eauto|].
  opt_rd b (2 + 9). case_decide; [eauto|].
  set (tcp := 2 + Z.land v 15 * 4) in *.
  opt_rd b (tcp + 13). case_decide; [eauto|].
  destruct (computeTCPChecksum_spec b 2 tcp count) as (ph & _ & _ & Ec); try (done || lia).
  { rewrite Hs. unfold ETH_DATA_LEN. lia. }
  apply (is_Some_bind _ _ _ Ec). case_decide; [eauto|].
  destruct (rd_pay b (tcp + 12)) as [d Ed]; [done|lia|]. apply (is_Some_bind _ _ _ Ed).
  pose proof (doff_range d (rd_bytes _ _ _ Hb Ed)).
  destruct (option_loop_total 64 b (tcp + 20) (tcp + Z.shiftr (Z.land d 240) 2)) as [sc Esc];
    [done|lia|rewrite Hs; unfold ETH_DATA_LEN; lia|lia|]. apply (is_Some_bind _ _ _ Esc).
  destruct sc as [| |m]; [eauto|eauto|].
  apply option_loop_found in Esc as (Hm & _ & _); [|done].
  opt_rd b (m + 2). opt_rd b (m + 3). case_decide; [eauto|].
  apply clamp_write_total with count; try (done || lia); rewrite land_ff; unfold is_byte; zlia.
Qed.

(** Reading past the buffer is noticed. *)
Lemma sum_loop_oob fuel b addr count sum :
  addr <= zlen b -> 0 <= count -> zlen b < addr + count -> sum_loop fuel b addr count sum = None.
Proof.
  revert addr count sum. induction fuel as [|fuel IH]; intros addr count sum H0 H1 H2; [done|].
  change (sum_loop (S fuel) b addr count sum) with
    (if decide (count > 1) then
      rd16 b addr ≫= fun w => sum_loop fuel b (addr + 2) (count - 2) (u32 (sum + w))
    else if decide (count > 0) then rd b addr ≫= fun x => Some (u32 (sum + x)) else Some sum).
  case_decide; [|case_decide; [|lia]].
  - unfold rd16. destruct (rd b addr); simpl; [|done].
    destruct (rd b (addr + 1)) eqn:E; simpl; [|done]. apply rd_inv in E. apply IH; lia.
  - destruct (rd b addr) eqn:E; simpl; [|done]. apply rd_inv in E. lia.
Qed.

(** ** Properties *)

(** A SYN segment asking for an MSS of 1460, in a PPP frame: 2 bytes of PPP
    protocol, a 20-byte IP header, a 24-byte TCP header. *)
Definition syn_bytes (total csum0 csum1 : Z) : list Z :=
  [0x00; 0x21;
   0x45; 0; Z.shiftr total 8; Z.land total 0xff; 0; 1; 0; 0; 64; 6; 0; 0;
   10; 0; 0; 1; 10; 0; 0; 2;
   4; 0; 0; 80; 0; 0; 0; 1; 0; 0; 0; 0; 0x60; 0x02; 16; 0; csum0; csum1; 0; 0;
   2; 4; 5; 180].

Definition syn_packet (total csum0 csum1 : Z) : PPPoEPacket :=
  mkPacket [2; 0; 0; 0; 0; 1] [2; 0; 0; 0; 0; 2] (htons ETH_PPPOE_SESSION) 1 1 CODE_SESS
    (htons 7) (htons 46) (syn_bytes total csum0 csum1 ++ replicate 1454 0).



(** MSS clamping reads and writes inside the packet exactly as long as the
    length the IP header announces does: the checksum routine leaves the
    payload buffer if and only if the TCP segment it is told about does, since
    nothing compares that length with the packet. *)
Theorem computeTCPChecksum_bounds p v count :
  wf_packet p -> rd (p_payload p) 2 = Some v -> tcp_count (p_payload p) 2 = Some count ->
  let tcp := 2 + Z.land v 0x0F * 4 in
  (is_Some (computeTCPChecksum (p_payload p) 2 tcp) <-> tcp + count <= ETH_DATA_LEN) /\
  (tcp + count <= ETH_DATA_LEN -> forall m, is_Some (clampMSS p m)).
Proof.
  intros W Hv Hc tcp. pose proof (land_15_range v). pose proof (wf_payload_len _ W) as Hs.
  assert (H0 : 0 <= count).
  { apply bind_Some in Hc as (? & _ & Hc). apply bind_Some in Hc as (? & _ & Hc).
    apply bind_Some in Hc as (? & _ & [= <-]). apply u16_range. }
  split; [split|].
  - intros [c E]. destruct (decide (tcp + count <= ETH_DATA_LEN)) as [|D]; [done|exfalso].
    unfold computeTCPChecksum in E. rewrite Hc in E. apply bind_Some in E as (? & [= <-] & E).
    do 7 apply bind_Some in E as (? & _ & E). apply bind_Some in E as (s & E & _).
    rewrite sum_loop_oob in E; [done| |done|rewrite Hs; lia].
    rewrite Hs. unfold ETH_DATA_LEN, tcp. lia.
  - intros D. destruct (computeTCPChecksum_spec (p_payload p) 2 tcp count) as (ph & _ & _ & ->);
      rewrite ?Hs; unfold ETH_DATA_LEN in *; (apply W || done || lia || eauto).
  - intros D m. destruct (clamp_payload_total (ntohs (p_length p)) (p_payload p) m v count)
      as [b E]; rewrite ?Hs; try (apply W || done). unfold clampMSS.
    apply (is_Some_bind _ _ _ E). eauto.
Qed.

Lemma computeTCPChecksum_bounds_witness :
  ntohs (p_length (syn_packet 0xffff 111 211)) = 46 /\
  ((is_Some (computeTCPChecksum (p_payload (syn_packet 0xffff 111 211)) 2 22) <->
      22 + 65515 <= ETH_DATA_LEN) /\
   (22 + 65515 <= ETH_DATA_LEN -> forall m, is_Some (clampMSS (syn_packet 0xffff 111 211) m))) /\
  clampMSS (syn_packet 0xffff 111 211) 1400 = None.
Proof.
  split; [vm_compute; reflexivity|]. split; [|vm_compute; reflexivity].
  apply (computeTCPChecksum_bounds (syn_packet 0xffff 111 211) 0x45 65515).
  - apply wf_packetb_ok. vm_compute. reflexivity.
  - vm_compute. reflexivity.
  - vm_compute. reflexivity.
Defined.
