(* ===== verification/Fcs.v ===== *)
(** * Fcs: the PPP frame check sequence and byte stuffing

    [fcstab] and [pppFCS16] of ppp.c against the bit-serial CRC of RFC 1662,
    and the byte stuffing [asyncReadFromEth] (pppoe.c) performs. *)

From stdpp Require Import base list numbers strings.
From S2P Require Import Prelude Wire.
Open Scope Z_scope.

(** ** The code *)

Definition PPPINITFCS16 : Z := 0xffff.
Definition FRAME_ESC : Z := 0x7D.
Definition FRAME_FLAG : Z := 0x7E.
Definition FRAME_ADDR : Z := 0xFF.
Definition FRAME_CTRL : Z := 0x03.
Definition FRAME_ENC : Z := 0x20.

Definition fcstab : list Z :=
  [
    0x0000; 0x1189; 0x2312; 0x329b; 0x4624; 0x57ad; 0x6536; 0x74bf;
    0x8c48; 0x9dc1; 0xaf5a; 0xbed3; 0xca6c; 0xdbe5; 0xe97e; 0xf8f7;
    0x1081; 0x0108; 0x3393; 0x221a; 0x56a5; 0x472c; 0x75b7; 0x643e;
    0x9cc9; 0x8d40; 0xbfdb; 0xae52; 0xdaed; 0xcb64; 0xf9ff; 0xe876;
    0x2102; 0x308b; 0x0210; 0x1399; 0x6726; 0x76af; 0x4434; 0x55bd;
    0xad4a; 0xbcc3; 0x8e58; 0x9fd1; 0xeb6e; 0xfae7; 0xc87c; 0xd9f5;
    0x3183; 0x200a; 0x1291; 0x0318; 0x77a7; 0x662e; 0x54b5; 0x453c;
    0xbdcb; 0xac42; 0x9ed9; 0x8f50; 0xfbef; 0xea66; 0xd8fd; 0xc974;
    0x4204; 0x538d; 0x6116; 0x709f; 0x0420; 0x15a9; 0x2732; 0x36bb;
    0xce4c; 0xdfc5; 0xed5e; 0xfcd7; 0x8868; 0x99e1; 0xab7a; 0xbaf3;
    0x5285; 0x430c; 0x7197; 0x601e; 0x14a1; 0x0528; 0x37b3; 0x263a;
    0xdecd; 0xcf44; 0xfddf; 0xec56; 0x98e9; 0x8960; 0xbbfb; 0xaa72;
    0x6306; 0x728f; 0x4014; 0x519d; 0x2522; 0x34ab; 0x0630; 0x17b9;
    0xef4e; 0xfec7; 0xcc5c; 0xddd5; 0xa96a; 0xb8e3; 0x8a78; 0x9bf1;
    0x7387; 0x620e; 0x5095; 0x411c; 0x35a3; 0x242a; 0x16b1; 0x0738;
    0xffcf; 0xee46; 0xdcdd; 0xcd54; 0xb9eb; 0xa862; 0x9af9; 0x8b70;
    0x8408; 0x9581; 0xa71a; 0xb693; 0xc22c; 0xd3a5; 0xe13e; 0xf0b7;
    0x0840; 0x19c9; 0x2b52; 0x3adb; 0x4e64; 0x5fed; 0x6d76; 0x7cff;
    0x9489; 0x8500; 0xb79b; 0xa612; 0xd2ad; 0xc324; 0xf1bf; 0xe036;
    0x18c1; 0x0948; 0x3bd3; 0x2a5a; 0x5ee5; 0x4f6c; 0x7df7; 0x6c7e;
    0xa50a; 0xb483; 0x8618; 0x9791; 0xe32e; 0xf2a7; 0xc03c; 0xd1b5;
    0x2942; 0x38cb; 0x0a50; 0x1bd9; 0x6f66; 0x7eef; 0x4c74; 0x5dfd;
    0xb58b; 0xa402; 0x9699; 0x8710; 0xf3af; 0xe226; 0xd0bd; 0xc134;
    0x39c3; 0x284a; 0x1ad1; 0x0b58; 0x7fe7; 0x6e6e; 0x5cf5; 0x4d7c;
    0xc60c; 0xd785; 0xe51e; 0xf497; 0x8028; 0x91a1; 0xa33a; 0xb2b3;
    0x4a44; 0x5bcd; 0x6956; 0x78df; 0x0c60; 0x1de9; 0x2f72; 0x3efb;
    0xd68d; 0xc704; 0xf59f; 0xe416; 0x90a9; 0x8120; 0xb3bb; 0xa232;
    0x5ac5; 0x4b4c; 0x79d7; 0x685e; 0x1ce1; 0x0d68; 0x3ff3; 0x2e7a;
    0xe70e; 0xf687; 0xc41c; 0xd595; 0xa12a; 0xb0a3; 0x8238; 0x93b1;
    0x6b46; 0x7acf; 0x4854; 0x59dd; 0x2d62; 0x3ceb; 0x0e70; 0x1ff9;
    0xf78f; 0xe606; 0xd49d; 0xc514; 0xb1ab; 0xa022; 0x92b9; 0x8330;
    0x7bc7; 0x6a4e; 0x58d5; 0x495c; 0x3de3; 0x2c6a; 0x1ef1; 0x0f78
  ].

(** One turn of the loop of [pppFCS16]. *)
Definition fcs_step (fcs c : Z) : Z :=
  Z.lxor (Z.shiftr fcs 8) (nthb fcstab (Z.to_nat (Z.land (Z.lxor fcs c) 0xff))).

(** [pppFCS16 (fcs, cp, len)], [cp] being the [len] bytes of the buffer. *)
Definition pppFCS16 (fcs : Z) (cp : list Z) : Z := fold_left fcs_step cp fcs.

(** One byte of the frame as [asyncReadFromEth] writes it. *)
Definition stuff (c : Z) : list Z :=
  if decide (c = FRAME_FLAG \/ c = FRAME_ADDR \/ c = FRAME_ESC \/ c < 0x20)
  then [FRAME_ESC; Z.lxor c FRAME_ENC] else [c].

(** The frame for a payload: flag, address, escaped control, stuffed payload,
    stuffed check sequence, flag. *)
Definition async_frame (payload : list Z) : list Z :=
  let header := [FRAME_ADDR; FRAME_CTRL] in
  let fcs := pppFCS16 PPPINITFCS16 header in
  let fcs := Z.lxor (pppFCS16 fcs payload) 0xffff in
  let tail := [Z.land fcs 0x00ff; Z.land (Z.shiftr fcs 8) 0x00ff] in
  [FRAME_FLAG; FRAME_ADDR; FRAME_ESC; Z.lxor FRAME_CTRL FRAME_ENC] ++
  concat (map stuff payload) ++ concat (map stuff tail) ++ [FRAME_FLAG].

(** ** Specification: RFC 1662, bit by bit *)

Definition crc_bit (f : Z) : Z :=
  if Z.odd f then Z.lxor (Z.shiftr f 1) 0x8408 else Z.shiftr f 1.
Definition crc_byte (f c : Z) : Z := Nat.iter 8 crc_bit (Z.lxor f c).
Definition crc16 (f : Z) (l : list Z) : Z := fold_left crc_byte l f.

(** The value a receiver finds over a whole frame, check sequence included. *)
Definition PPPGOODFCS16 : Z := 0xf0b8.

(** ** Lemmas *)

Lemma land_lxor_l x y m : Z.land (Z.lxor x y) m = Z.lxor (Z.land x m) (Z.land y m).
Proof.
  apply Z.bits_inj'. intros n _. rewrite !Z.land_spec, !Z.lxor_spec, !Z.land_spec.
  by destruct (Z.testbit x n), (Z.testbit y n), (Z.testbit m n).
Qed.

Lemma lxor_range k x y : 0 <= k -> 0 <= x < 2 ^ k -> 0 <= y < 2 ^ k -> 0 <= Z.lxor x y < 2 ^ k.
Proof.
  intros Hk Hx Hy. rewrite <- (Z.mod_small x (2 ^ k)), <- (Z.mod_small y (2 ^ k)) by lia.
  rewrite <- !Z.land_ones, <- land_lxor_l, Z.land_ones by lia.
  apply Z.mod_pos_bound. lia.
Qed.

(** [crc_bit] is linear in the bits above the lowest. *)
Lemma crc_bit_linear a b : crc_bit (Z.lxor a (Z.shiftl b 1)) = Z.lxor (crc_bit a) b.
Proof.
  assert (O : Z.odd (Z.lxor a (Z.shiftl b 1)) = Z.odd a).
  { rewrite <- !Z.bit0_odd, Z.lxor_spec, Z.shiftl_spec_low by lia. by destruct (Z.testbit a 0). }
  unfold crc_bit. rewrite O, Z.shiftr_lxor, Z.shiftr_shiftl_l, Z.shiftl_0_r by lia.
  destruct (Z.odd a); [|done]. by rewrite !Z.lxor_assoc, (Z.lxor_comm b).
Qed.

Lemma crc_iter_linear n a b :
  Nat.iter n crc_bit (Z.lxor a (Z.shiftl b (Z.of_nat n))) = Z.lxor (Nat.iter n crc_bit a) b.
Proof.
  revert b. induction n as [|n IH]; intros b; [by rewrite Z.shiftl_0_r|].
  change (crc_bit (Nat.iter n crc_bit (Z.lxor a (Z.shiftl b (Z.of_nat (S n))))) =
    Z.lxor (crc_bit (Nat.iter n crc_bit a)) b).
  replace (Z.shiftl b (Z.of_nat (S n))) with (Z.shiftl (Z.shiftl b 1) (Z.of_nat n)).
  - by rewrite IH, crc_bit_linear.
  - rewrite Z.shiftl_shiftl by lia. f_equal. lia.
Qed.

(** The table is the bit-serial division of each byte. *)
Lemma fcstab_crc b : is_byte b -> nthb fcstab (Z.to_nat b) = Nat.iter 8 crc_bit b.
Proof.
  intros Hb. apply Z.eqb_eq.
  apply (byte_ind (fun b => nthb fcstab (Z.to_nat b) =? Nat.iter 8 crc_bit b)); [|done].
  vm_compute. done.
Qed.

Lemma split_byte x : Z.lxor (Z.land x 0xff) (Z.shiftl (Z.shiftr x 8) 8) = x.
Proof.
  apply Z.bits_inj'. intros n Hn. rewrite Z.lxor_spec, Z.land_spec.
  change 0xff with (Z.ones 8). destruct (decide (n < 8)).
  - rewrite Z.ones_spec_low, Z.shiftl_spec_low by lia. by destruct (Z.testbit x n).
  - rewrite Z.ones_spec_high, Z.shiftl_spec, Z.shiftr_spec by lia.
    rewrite andb_false_r, xorb_false_l. f_equal. lia.
Qed.

Lemma shiftr_8_byte c : is_byte c -> Z.shiftr c 8 = 0.
Proof. unfold is_byte. intros. rewrite shiftr_8. zlia. Qed.

Lemma fcs_step_crc f c : is_byte c -> fcs_step f c = crc_byte f c.
Proof.
  intros Hc. unfold fcs_step, crc_byte.
  assert (is_byte (Z.land (Z.lxor f c) 0xff)).
  { rewrite land_ff. apply Z.mod_pos_bound. lia. }
  rewrite fcstab_crc by done. rewrite <- (split_byte (Z.lxor f c)) at 2.
  rewrite (crc_iter_linear 8), Z.shiftr_lxor, (shiftr_8_byte c Hc), Z.lxor_0_r.
  apply Z.lxor_comm.
Qed.

Lemma crc_bit_range f : 0 <= f < 65536 -> 0 <= crc_bit f < 65536.
Proof.
  intros Hf. assert (0 <= Z.shiftr f 1 < 65536).
  { rewrite Z.shiftr_div_pow2 by lia. change (2 ^ 1) with 2. zlia. }
  unfold crc_bit. destruct (Z.odd f); [|done]. apply (lxor_range 16); lia.
Qed.

Lemma iter_crc_range n f : 0 <= f < 65536 -> 0 <= Nat.iter n crc_bit f < 65536.
Proof. intros. induction n; simpl; auto using crc_bit_range. Qed.

Lemma fcs_step_range f c : 0 <= f < 65536 -> is_byte c -> 0 <= fcs_step f c < 65536.
Proof.
  unfold is_byte. intros Hf Hc. rewrite fcs_step_crc by done.
  apply iter_crc_range, (lxor_range 16); lia.
Qed.

Lemma pppFCS16_range l : forall f, 0 <= f < 65536 -> bytes l -> 0 <= pppFCS16 f l < 65536.
Proof.
  unfold pppFCS16. induction l as [|c l IH]; intros f Hf Hl; [done|].
  inversion Hl; subst. simpl. apply IH; [|done]. by apply fcs_step_range.
Qed.

Lemma pppFCS16_app f l k : pppFCS16 f (l ++ k) = pppFCS16 (pppFCS16 f l) k.
Proof. apply fold_left_app. Qed.

(** The low byte of the complement selects the last entry of the table. *)
Lemma fcs_low_index f : Z.land (Z.lxor f (Z.land (Z.lxor f 0xffff) 0xff)) 0xff = 0xff.
Proof.
  rewrite land_lxor_l, <- Z.land_assoc, Z.land_diag, land_lxor_l, <- Z.lxor_assoc.
  by rewrite Z.lxor_nilpotent.
Qed.

(** Feeding the complemented check sequence, low byte first, leaves the same
    value whatever the frame was. *)
Lemma good_fcs f : 0 <= f < 65536 ->
  pppFCS16 f [Z.land (Z.lxor f 0xffff) 0xff; Z.land (Z.shiftr (Z.lxor f 0xffff) 8) 0xff]
  = PPPGOODFCS16.
Proof.
  intros Hf. unfold pppFCS16. cbn [fold_left]. unfold fcs_step at 2.
  rewrite fcs_low_index, (Z.shiftr_lxor f). set (h := Z.shiftr f 8).
  assert (Hh : is_byte h) by (unfold h, is_byte; rewrite shiftr_8; zlia).
  apply Z.eqb_eq.
  refine (byte_ind (fun h => fcs_step (Z.lxor h (nthb fcstab (Z.to_nat 0xff)))
    (Z.land (Z.lxor h (Z.shiftr 0xffff 8)) 0xff) =? PPPGOODFCS16) _ h Hh).
  vm_compute. done.
Qed.

(** [pppFCS16] with its table is the CRC of RFC 1662 computed bit by bit
    (reflected polynomial 0x8408) for every start value and every buffer, the
    result stays within 16 bits, and a frame followed by the complemented
    check sequence, low byte first, always yields the good value 0xf0b8. *)
Theorem pppFCS16_crc f l : 0 <= f < 65536 -> bytes l ->
  pppFCS16 f l = crc16 f l /\
  0 <= pppFCS16 f l < 65536 /\
  (let fcs := Z.lxor (pppFCS16 f l) 0xffff in
   pppFCS16 f (l ++ [Z.land fcs 0x00ff; Z.land (Z.shiftr fcs 8) 0x00ff]) = PPPGOODFCS16).
Proof.
  intros Hf Hl. split; [|split].
  - unfold pppFCS16, crc16. clear Hf. revert f. induction Hl; intros f; simpl; [done|].
    by rewrite fcs_step_crc.
  - by apply pppFCS16_range.
  - cbv zeta. rewrite pppFCS16_app. by apply good_fcs, pppFCS16_range.
Qed.

Lemma pppFCS16_crc_witness :
  pppFCS16 PPPINITFCS16 [0xff; 0x03; 0xc0; 0x21] = crc16 PPPINITFCS16 [0xff; 0x03; 0xc0; 0x21].
Proof.
  apply (pppFCS16_crc PPPINITFCS16 [0xff; 0x03; 0xc0; 0x21]).
  - unfold PPPINITFCS16. lia.
  - apply forallb_bytes. reflexivity.
Defined.

(** *** Length of a stuffed frame *)

Lemma zlen_stuff c : 1 <= zlen (stuff c) <= 2.
Proof. unfold stuff. case_decide; unfold zlen; simpl; lia. Qed.

Lemma zlen_stuff_all l : zlen l <= zlen (concat (map stuff l)) <= 2 * zlen l.
Proof.
  induction l as [|c l IH]; [done|]. cbn [map concat]. rewrite zlen_app, zlen_cons.
  pose proof (zlen_stuff c). lia.
Qed.

Lemma async_frame_length payload :
  zlen payload + 7 <= zlen (async_frame payload) <= 2 * zlen payload + 9.
Proof.
  unfold async_frame. cbv zeta. rewrite !zlen_app.
  pose proof (zlen_stuff_all payload) as Hp.
  match goal with |- context [concat (map stuff [?a; ?b])] =>
    pose proof (zlen_stuff_all [a; b]) as Ht end.
  rewrite !zlen_cons, zlen_nil in *. lia.
Qed.

#[export] Hint Resolve fcs_step_range pppFCS16_range crc_bit_range : pppoe.
