(* ===== verification/Build.v ===== *)
(** * Build: putting a discovery packet together

    [sendPADI], [sendPADR] (discovery.c), [sendPADT] (common.c) and the frames
    of pppoe-server.c are built the same way: a cursor moves through the
    payload, and each optional tag is copied there by a block

<<
      if (cond) { CHECK_ROOM(cursor, packet.payload, n);
                  memcpy(cursor, &tag, n); cursor += n; plen += n; }
>>

    [put_tags] runs such blocks; [put_tags_spec] relates them to the list of
    tags the packet then carries, and [frame_built] to the bytes on the wire. *)

From stdpp Require Import base list numbers strings.
From S2P Require Import Prelude Wire Tags.
Open Scope Z_scope.

(** ** The code *)

(** Payload, cursor and [plen] of the packet under construction. *)
Definition building : Type := list Z * Z * Z.

(** The tag is an option since filling it in may overrun it. *)
Record block := mkBlock {
  b_cond : bool;
  b_checked : bool;
  b_tag : option PPPoETag;
  b_size : Z
}.

(** [CHECK_ROOM] returns from the whole function, so what follows the block is
    its continuation. *)
Definition put_tag {S} (bl : block) (b : building) (k : building -> Cmd S unit) : Cmd S unit :=
  let '(payload, cursor, plen) := b in
  let n := b_size bl in
  if b_cond bl then
    chk! t := b_tag bl in
    if b_checked bl && bool_decide (cursor + n > MAX_PPPOE_PAYLOAD) then ret tt
    else chk! payload := copy_tag payload cursor t n in k (payload, cursor + n, u16 (plen + n))
  else k b.

Fixpoint put_tags {S} (bls : list block) (b : building) (k : building -> Cmd S unit) :
    Cmd S unit :=
  match bls with
  | [] => k b
  | bl :: bls => put_tag bl b (fun b => put_tags bls b k)
  end.

(** [if (conn->cookie.type)], [if (conn->relayId.type)]. *)
Definition has_tag (t : PPPoETag) : bool := negb (t_type t =? 0).

(** The size a stored tag occupies. *)
Definition tag_room (t : PPPoETag) : Z := ntohs (t_length t) + TAG_HDR_SIZE.

(** The block for a tag kept from an earlier packet. *)
Definition stored_block (t : PPPoETag) : block := mkBlock (has_tag t) true (Some t) (tag_room t).

(** ** Specification *)

(** The bytes of a frame with the given tags. *)
Definition discovery_frame (dest source : list Z) (proto code sess : Z) (ts : list tag) : list Z :=
  dest ++ source ++ be16 proto ++ [0x11; code] ++ le16 sess ++ be16 (zlen (encode ts)) ++ encode ts.

Definition fits (ts : list tag) : bool := bool_decide (zlen (encode ts) <= MAX_PPPOE_PAYLOAD).

Definition stored_tag (t : PPPoETag) : list tag := if has_tag t then [tag_value t] else [].

(** A tag copied from a packet. *)
Definition stored_ok (t : PPPoETag) : Prop :=
  wf_tag t /\ ntohs (t_length t) <= MAX_PPPOE_PAYLOAD.

(** The construction so far is the encoding of [ts]. *)
Definition built (b : building) (ts : list tag) : Prop :=
  let '(payload, cursor, plen) := b in
  (exists rest, payload = encode ts ++ rest) /\ zlen payload = ETH_DATA_LEN /\
  cursor = zlen (encode ts) /\ plen = cursor.

(** The tags a block contributes. *)
Inductive block_value : block -> list tag -> Prop :=
| value_off checked ot n : block_value (mkBlock false checked ot n) []
| value_on checked t n : wf_tag t -> ntohs (t_length t) <= ETH_DATA_LEN -> n = tag_room t ->
    block_value (mkBlock true checked (Some t) n) [tag_value t].

(** Blocks that contribute [us] after [ts]; a block without [CHECK_ROOM] must
    fit. *)
Inductive blocks_value : list tag -> list block -> list tag -> Prop :=
| values_nil ts : blocks_value ts [] []
| values_cons ts bl bls v us :
    block_value bl v -> (b_checked bl = false -> fits (ts ++ v) = true) ->
    blocks_value (ts ++ v) bls us -> blocks_value ts (bl :: bls) (v ++ us).

(** ** Lemmas *)

Lemma built_nil payload : zlen payload = ETH_DATA_LEN -> built (payload, 0, 0) [].
Proof. intros. split_and!; [by exists payload|done|done|done]. Qed.

Lemma encode_snoc ts t : zlen (encode (ts ++ [t])) = zlen (encode ts) + zlen (encode_tag t).
Proof. rewrite encode_app, encode_cons, !zlen_app. change (zlen (encode [])) with 0. lia. Qed.

Lemma fits_app_l ts us : fits ts = false -> fits (ts ++ us) = false.
Proof.
  unfold fits. rewrite !bool_decide_eq_false, encode_app, zlen_app.
  pose proof (zlen_nonneg (encode us)). lia.
Qed.

Lemma copy_tag_built payload cursor plen ts t :
  built (payload, cursor, plen) ts -> wf_tag t -> ntohs (t_length t) <= ETH_DATA_LEN ->
  zlen (encode (ts ++ [tag_value t])) <= ETH_DATA_LEN ->
  exists payload', copy_tag payload cursor t (tag_room t) = Some payload' /\
    built (payload', cursor + tag_room t, u16 (plen + tag_room t)) (ts ++ [tag_value t]).
Proof.
  intros ((rest & ->) & Hz & -> & ->) T Hl Hf. rewrite encode_snoc in Hf.
  unfold copy_tag, tag_room. rewrite slice_tag_bytes by done. cbn [mbind option_bind].
  rewrite zlen_app in Hz.
  assert (Hn : zlen (encode_tag (tag_value t)) = ntohs (t_length t) + TAG_HDR_SIZE).
  { rewrite zlen_encode_tag, zlen_tag_value by assumption. unfold TAG_HDR_SIZE. lia. }
  set (x := encode_tag (tag_value t)) in *.
  assert (E : rest = take (length x) rest ++ drop (length x) rest) by by rewrite take_drop.
  assert (Hx : length (take (length x) rest) = length x).
  { rewrite length_take. unfold zlen in *. lia. }
  rewrite E, store_app_mid by done. eexists. split; [done|].
  pose proof (zlen_nonneg (encode ts)). pose proof (htons_range (t_length t)) as Hh.
  unfold built. rewrite encode_snoc, encode_app, encode_cons. fold x. rewrite app_nil_r.
  unfold ntohs, TAG_HDR_SIZE, ETH_DATA_LEN in *. split_and!; [|..].
  - exists (drop (length x) rest). by rewrite <- app_assoc.
  - rewrite E, !zlen_app in Hz. rewrite !zlen_app. unfold zlen in *. lia.
  - lia.
  - rewrite u16_small by lia. lia.
Qed.

(** One block: the tag is appended, or there is no room and the function
    returns. *)
Lemma put_tag_spec {S} bl b ts v (k : building -> Cmd S unit) s :
  built b ts -> fits ts = true -> block_value bl v ->
  (b_checked bl = false -> fits (ts ++ v) = true) ->
  (fits (ts ++ v) = false /\ put_tag bl b k s = Ok tt s) \/
  (fits (ts ++ v) = true /\ exists b', built b' (ts ++ v) /\ put_tag bl b k s = k b' s).
Proof.
  destruct b as [[payload cursor] plen]. intros B F V Hu.
  inversion V as [checked ot n|checked t n T Hl ->]; subst; simpl.
  { right. rewrite app_nil_r. eauto. }
  assert (Hcur : cursor + tag_room t = zlen (encode (ts ++ [tag_value t]))).
  { destruct B as (_ & _ & -> & _). rewrite encode_snoc, zlen_encode_tag, zlen_tag_value by done.
    unfold tag_room, TAG_HDR_SIZE. lia. }
  rewrite bind_of_Some, Hcur. destruct (fits (ts ++ [tag_value t])) eqn:E.
  - right. split; [done|]. apply bool_decide_eq_true in E.
    rewrite bool_decide_eq_false_2 by lia. rewrite andb_false_r.
    destruct (copy_tag_built payload cursor plen ts t) as (pl' & E' & B'); try done.
    { unfold MAX_PPPOE_PAYLOAD, PPPOE_OVERHEAD in E. lia. }
    rewrite E', bind_of_Some. rewrite Hcur in B'. eauto.
  - left. split; [done|]. apply bool_decide_eq_false in E.
    rewrite bool_decide_eq_true_2 by lia. destruct checked; [done|]. by specialize (Hu eq_refl).
Qed.

Lemma put_tags_spec {S} bls us : forall b ts (k : building -> Cmd S unit) s,
  built b ts -> fits ts = true -> blocks_value ts bls us ->
  (fits (ts ++ us) = false /\ put_tags bls b k s = Ok tt s) \/
  (fits (ts ++ us) = true /\ exists b', built b' (ts ++ us) /\ put_tags bls b k s = k b' s).
Proof.
  revert us. induction bls as [|bl bls IH]; intros us b ts k s B F V; inversion V; subst; simpl.
  { right. rewrite app_nil_r. eauto. }
  rewrite (app_assoc ts v).
  destruct (put_tag_spec bl b ts v (fun b => put_tags bls b k) s) as [[F1 ->]|(F1 & b1 & B1 & ->)];
    try done.
  - left. auto using fits_app_l.
  - by apply IH.
Qed.

(** Blocks with their values: all are checked, or all fits. *)
Lemma blocks_of bls vs : Forall2 block_value bls vs -> forall ts,
  Forall (fun bl => b_checked bl = true) bls \/ fits (ts ++ concat vs) = true ->
  blocks_value ts bls (concat vs).
Proof.
  induction 1 as [|bl v bls vs V _ IH]; intros ts H; [constructor|]. cbn [concat] in *.
  constructor; [done| |].
  - intros Hc. destruct H as [H|H]; [apply Forall_cons in H as [H _]; congruence|].
    destruct (fits (ts ++ v)) eqn:F; [done|]. apply (fits_app_l _ (concat vs)) in F.
    rewrite <- app_assoc in F. congruence.
  - apply IH. rewrite <- app_assoc. destruct H as [H|H]; [left|by right]. by apply Forall_cons in H as [_ H].
Qed.

(** The frame of a packet whose payload was built from [ts]. *)
Lemma frame_built dest source proto code sess g payload cursor plen ts :
  length dest = 6%nat -> length source = 6%nat ->
  built (payload, cursor, plen) ts ->
  frame (set_length (htons plen) (set_payload payload
           (start_packet dest source (htons proto) code sess g))) (plen + HDR_SIZE) =
  Some (discovery_frame dest source proto code sess ts).
Proof.
  intros Hd Hs ((rest & ->) & Hz & -> & ->). unfold frame, packet_bytes.
  set (hb := header_bytes _). assert (Hh : length hb = 20%nat) by by apply length_header.
  cbn [p_payload set_length set_payload]. rewrite Z.add_comm.
  replace (HDR_SIZE + zlen (encode ts)) with (zlen (hb ++ encode ts)).
  - rewrite app_assoc. pose proof (slice_app_mid [] (hb ++ encode ts) rest) as E. simpl in E. rewrite zlen_nil in E.
    rewrite E.
    unfold hb, header_bytes, discovery_frame.
    cbn [h_dest h_source h_proto p_ver p_type p_code p_session p_length set_length set_payload
      start_packet]. rewrite !le16_htons, <- !app_assoc. done.
  - rewrite zlen_app. unfold zlen. by rewrite Hh.
Qed.

(** A tag filled in on the stack: the bytes [data] are its value, [extra]
    (a terminating NUL, say) is written behind them. *)
Lemma fill_tag_ready g type data extra :
  wf_tag g -> 0 < type < 65536 -> bytes (data ++ extra) ->
  zlen data + zlen extra <= ETH_DATA_LEN ->
  exists t, fill_tag g type (zlen data) (data ++ extra) = Some t /\ wf_tag t /\
    ntohs (t_length t) = zlen data /\ tag_value t = (type, data).
Proof.
  intros W Ht Hb Hl. pose proof (zlen_nonneg data). pose proof (zlen_nonneg extra).
  unfold ETH_DATA_LEN in Hl. destruct W as (W1 & W2 & W3 & W4).
  assert (E : exists pl, store (t_payload g) 0 (data ++ extra) = Some pl).
  { rewrite store_Some; [by eexists|lia|rewrite zlen_app, W3; unfold ETH_DATA_LEN; lia]. }
  destruct E as [pl E]. unfold fill_tag. rewrite E. cbn [mbind option_bind].
  eexists. split_and!; [done|..].
  - eapply (fill_tag_wf g type (zlen data) (data ++ extra)); [done|done|].
    unfold fill_tag. by rewrite E.
  - simpl. rewrite ntohs_htons, u16_small by lia. done.
  - unfold tag_value. simpl. rewrite !ntohs_htons, !u16_small by lia. f_equal.
    unfold store in E. case_decide; [|done]. injection E as <-. simpl.
    rewrite <- app_assoc, zlen_to_nat, take_app_length. done.
Qed.

Lemma fill_block g type data extra cond checked n :
  wf_tag g -> 0 < type < 65536 -> bytes (data ++ extra) ->
  zlen data + zlen extra <= ETH_DATA_LEN -> n = zlen data + TAG_HDR_SIZE ->
  block_value (mkBlock cond checked (fill_tag g type (zlen data) (data ++ extra)) n)
    (if cond then [(type, data)] else []).
Proof.
  intros W Ht Hb Hl ->. destruct cond; [|constructor].
  destruct (fill_tag_ready g type data extra) as (t & -> & Wt & Ln & <-); try done.
  pose proof (zlen_nonneg extra). constructor; [done| |].
  - rewrite Ln. lia.
  - unfold tag_room. by rewrite Ln.
Qed.

(** A tag taken from a packet is a stored tag. *)
Lemma fill_stored g type data :
  wf_tag g -> bytes data -> 4 + zlen data <= MAX_PPPOE_PAYLOAD ->
  exists t, fill_tag g type (zlen data) data = Some t /\ stored_ok t.
Proof.
  intros W Hb Hl. pose proof (zlen_nonneg data). pose proof W as (_ & _ & Hp & _).
  unfold MAX_PPPOE_PAYLOAD, PPPOE_OVERHEAD, ETH_DATA_LEN in *.
  assert (exists t, fill_tag g type (zlen data) data = Some t) as [t' E].
  { unfold fill_tag. rewrite store_Some by lia. by eexists. }
  exists t'. split; [done|]. split; [exact (fill_tag_wf _ _ _ _ _ W Hb E)|].
  unfold fill_tag in E. apply bind_Some in E as (pl & _ & [= <-]). simpl.
  rewrite ntohs_htons, u16_small by lia. unfold MAX_PPPOE_PAYLOAD, PPPOE_OVERHEAD, ETH_DATA_LEN. lia.
Qed.

Lemma stored_block_value t : stored_ok t -> block_value (stored_block t) (stored_tag t).
Proof.
  intros [W H]. unfold stored_block, stored_tag. destruct (has_tag t); constructor; try done.
  unfold MAX_PPPOE_PAYLOAD, PPPOE_OVERHEAD, ETH_DATA_LEN in *. lia.
Qed.

#[export] Hint Resolve stored_block_value : pppoe.
