(* ===== verification/Link.v ===== *)
(** * Link: packet reception of if.c

    [receivePacket] and [clearPacketHeader] in the two builds the repository
    supports: the BSD packet filter ([USE_BPF]), where one [read] returns
    several frames that are handed out one by one, and raw sockets, where each
    [recv] returns one frame.  The layout of [struct bpf_hdr] and
    [BPF_WORDALIGN] belong to the kernel's <net/bpf.h>: they are the class
    [BpfAbi], and what the code relies on is the class [BpfAbiOk]. *)

From stdpp Require Import base list numbers strings.
From S2P Require Import Prelude Wire.
Open Scope Z_scope.

(** ** The kernel interface *)

Class BpfAbi := {
  sizeof_bpf_hdr : Z;
  bh_caplen : list Z -> Z;
  bh_datalen : list Z -> Z;
  bh_hdrlen : list Z -> Z;
  BPF_WORDALIGN : Z -> Z
}.

Class BpfAbiOk `(abi : BpfAbi) : Prop := {
  sizeof_bpf_hdr_pos : 0 < sizeof_bpf_hdr;
  wordalign_ge : forall x, 0 <= x -> x <= BPF_WORDALIGN x
}.

(** ** State *)

(** [bpfBuffer] has [bpfLength] bytes.  [reads] holds what the next [read] or
    [recv] calls on the socket return: [None] is an error. *)
Record Link := mkLink {
  bpfBuffer : list Z;
  bpfSize : Z;
  bpfOffset : Z;
  reads : list (option (list Z))
}.

Definition set_bpf (size offset : Z) (s : Link) : Link :=
  mkLink (bpfBuffer s) size offset (reads s).

(** ** Operations *)

(** A system call that returns the next element of [reads]. *)
Definition next_read : Cmd Link (option (list Z)) := fun s =>
  match reads s with
  | [] => Stop Blocked s
  | r :: rs => Ok r (mkLink (bpfBuffer s) (bpfSize s) (bpfOffset s) rs)
  end.

(** [memset (pkt, 0, HDR_SIZE)]. *)
Definition zero_header (pkt : PPPoEPacket) : PPPoEPacket :=
  mkPacket (replicate 6 0) (replicate 6 0) 0 0 0 0 0 0 (p_payload pkt).

(** [memcpy (pkt, data, length data)]. *)
Definition overwrite (pkt : PPPoEPacket) (data : list Z) : option PPPoEPacket :=
  store (packet_bytes pkt) 0 data ≫= fun b => Some (packet_of_bytes b).

Definition clearPacketHeader (pkt : PPPoEPacket) : Cmd Link PPPoEPacket :=
  do! modify (set_bpf 0 0) ;;
  ret (zero_header pkt).

(** The refill at the top of [receivePacket]: 0, or -1 when [read] fails. *)
Definition bpf_fill : Cmd Link Z :=
  let! s := get in
  if decide (bpfSize s <= 0) then
    do! modify (set_bpf (bpfSize s) 0) ;;
    let! r := next_read in
    match r with
    | None => do! modify (set_bpf (-1) 0) ;; ret (-1)
    | Some data =>
        chk! buf := store (bpfBuffer s) 0 data in
        do! modify (fun s => mkLink buf (zlen data) 0 (reads s)) ;;
        ret 0
    end
  else ret 0.

(** Result, packet and [*size] after the call. *)
Definition received : Type := Z * PPPoEPacket * Z.

Definition receivePacket_bpf `{BpfAbi} (pkt : PPPoEPacket) (size : Z) : Cmd Link received :=
  let! r := bpf_fill in
  if decide (r < 0) then ret (-1, pkt, size) else
  let! s := get in
  if decide (bpfSize s < sizeof_bpf_hdr) then
    let! pkt := clearPacketHeader pkt in ret (0, pkt, size)
  else
    chk! hdr := slice (bpfBuffer s) (bpfOffset s) sizeof_bpf_hdr in
    if decide (bh_caplen hdr <> bh_datalen hdr) then
      let! pkt := clearPacketHeader pkt in ret (0, pkt, size)
    else
      let seglen := s32 (bh_hdrlen hdr + bh_caplen hdr) in
      if decide (seglen > bpfSize s) then
        let! pkt := clearPacketHeader pkt in ret (0, pkt, size)
      else
        let seglen := BPF_WORDALIGN seglen in
        let copylen := if decide (bh_caplen hdr < sizeof_PPPoEPacket)
                       then bh_caplen hdr else sizeof_PPPoEPacket in
        chk! data := slice (bpfBuffer s) (bpfOffset s + bh_hdrlen hdr) copylen in
        chk! pkt := overwrite pkt data in
        do! modify (fun s =>
              if decide (seglen >= bpfSize s) then set_bpf 0 0 s
              else set_bpf (bpfSize s - seglen) (bpfOffset s + seglen) s) ;;
        ret (0, pkt, copylen).

(** [recv (sock, pkt, sizeof(PPPoEPacket), 0)]: the kernel truncates. *)
Definition receivePacket_raw (pkt : PPPoEPacket) (size : Z) : Cmd Link received :=
  let! r := next_read in
  match r with
  | None => ret (-1, pkt, -1)
  | Some data =>
      let data := take (Z.to_nat sizeof_PPPoEPacket) data in
      chk! pkt := overwrite pkt data in
      ret (0, pkt, zlen data)
  end.

Definition receivePacket `{BpfAbi} (use_bpf : bool) (pkt : PPPoEPacket) (size : Z) :
    Cmd Link received :=
  if use_bpf then receivePacket_bpf pkt size else receivePacket_raw pkt size.

(** [BPF_BUFFER_IS_EMPTY] and [BPF_BUFFER_HAS_DATA]. *)
Definition buffer_is_empty (use_bpf : bool) (s : Link) : bool :=
  if use_bpf then bpfSize s <=? 0 else true.

(** The test every caller makes after [receivePacket]:
    [ntohs(packet.length) + HDR_SIZE > len], in unsigned arithmetic since
    [HDR_SIZE] is a [size_t]. *)
Definition bogus_length (p : PPPoEPacket) (len : Z) : bool :=
  bool_decide (u32 (ntohs (p_length p) + HDR_SIZE) > u32 len).

(** ** Specification: the buffer is a queue of frames *)

(** The records the kernel lays out for a list of captured frames: header,
    padding up to [bh_hdrlen], frame, padding to a word boundary. *)
Inductive bpf_records `{BpfAbi} : list Z -> list (list Z) -> Prop :=
| records_nil : bpf_records [] []
| records_cons hdr pad data tail rest fs :
    zlen hdr = sizeof_bpf_hdr -> bh_hdrlen hdr = zlen hdr + zlen pad ->
    bh_caplen hdr = zlen data -> bh_datalen hdr = zlen data ->
    zlen hdr + zlen pad + zlen data < 2 ^ 31 ->
    let room := BPF_WORDALIGN (bh_hdrlen hdr + zlen data) - (bh_hdrlen hdr + zlen data) in
    (zlen tail = room \/ rest = [] /\ zlen tail <= room) ->
    bpf_records rest fs ->
    bpf_records (hdr ++ pad ++ data ++ tail ++ rest) (data :: fs).

(** The frames not yet handed out. *)
Definition queued `{BpfAbi} (s : Link) (fs : list (list Z)) : Prop :=
  exists body, slice (bpfBuffer s) (bpfOffset s) (bpfSize s) = Some body /\ bpf_records body fs.

(** ** Lemmas *)

Lemma zlen_packet_bytes p : wf_packet p -> zlen (packet_bytes p) = sizeof_PPPoEPacket.
Proof.
  intros W. unfold packet_bytes. rewrite zlen_app, (wf_payload_len _ W).
  unfold zlen. rewrite length_header by apply W. done.
Qed.

Lemma overwrite_Some p data : wf_packet p -> zlen data <= sizeof_PPPoEPacket ->
  overwrite p data = Some (packet_of_bytes (data ++ drop (length data) (packet_bytes p))).
Proof.
  intros W Hd. unfold overwrite. rewrite store_Some by (rewrite ?zlen_packet_bytes; done || lia).
  done.
Qed.

Lemma slice_app_split {A} (b : list A) off n x y :
  slice b off n = Some (x ++ y) -> slice b off (zlen x) = Some x /\
    slice b (off + zlen x) (zlen y) = Some y.
Proof.
  intros E. pose proof (slice_inv _ _ _ _ E) as (H0 & H1 & H2 & H3).
  rewrite zlen_app in H3. pose proof (zlen_nonneg x). pose proof (zlen_nonneg y).
  rewrite slice_Some in E by lia. injection E as E.
  assert (D : drop (Z.to_nat off) b = x ++ y ++ drop (Z.to_nat n) (drop (Z.to_nat off) b)).
  { rewrite app_assoc, <- E. symmetry. apply take_drop. }
  rewrite !slice_Some by lia. split; f_equal.
  - by rewrite D, zlen_to_nat, take_app_length.
  - replace (Z.to_nat (off + zlen x)) with (Z.to_nat off + length x)%nat
      by (unfold zlen; lia).
    by rewrite <- drop_drop, D, drop_app_length, zlen_to_nat, take_app_length.
Qed.

Lemma slice_take {A} (b : list A) off x n :
  slice b off (zlen x) = Some x -> 0 <= n <= zlen x -> slice b off n = Some (take (Z.to_nat n) x).
Proof.
  intros E Hn. rewrite <- (take_drop (Z.to_nat n) x) in E at 2.
  apply slice_app_split in E as [E _]. rewrite <- E. f_equal.
  unfold zlen in *. rewrite length_take. lia.
Qed.

Section Queue.
Context `{ABI : BpfAbi} `{OK : !BpfAbiOk ABI}.

Lemma bpf_records_nil_l fs : bpf_records [] fs -> fs = [].
Proof.
  inversion 1 as [|hdr pad data tail rest fs' Hh E]; [done|]. pose proof sizeof_bpf_hdr_pos.
  subst. destruct hdr; [|done]. rewrite zlen_nil in Hh. lia.
Qed.

(** Taking the first record off the buffer. *)
Lemma receive_head pkt size s f fs :
  wf_packet pkt -> 0 < bpfSize s -> queued s (f :: fs) ->
  exists s', receivePacket_bpf pkt size s =
    Ok (0, packet_of_bytes (take (Z.to_nat sizeof_PPPoEPacket) f ++
             drop (length (take (Z.to_nat sizeof_PPPoEPacket) f)) (packet_bytes pkt)),
        Z.min (zlen f) sizeof_PPPoEPacket) s' /\
    queued s' fs /\ reads s' = reads s /\ 0 <= bpfSize s' < bpfSize s /\
    bpfBuffer s' = bpfBuffer s.
Proof.
  intros W Hpos (body & Hs & R). inversion R as [|hdr pad data tail rest fs' Hh Hl Hc Hd Hb room Ht Hr]; subst.
  pose proof sizeof_bpf_hdr_pos as Hp0. pose proof (slice_inv _ _ _ _ Hs) as (? & ? & ? & Hz).
  rewrite !zlen_app in Hz. pose proof (zlen_nonneg pad). pose proof (zlen_nonneg f).
  pose proof (zlen_nonneg tail). pose proof (zlen_nonneg rest).
  apply slice_app_split in Hs as [S1 S2]. apply slice_app_split in S2 as [_ S3].
  apply slice_app_split in S3 as [S3 S4]. apply slice_app_split in S4 as [_ S4].
  set (copylen := if decide (zlen f < sizeof_PPPoEPacket) then zlen f else sizeof_PPPoEPacket).
  assert (Hcl : copylen = Z.min (zlen f) sizeof_PPPoEPacket)
    by (unfold copylen; case_decide; lia).
  assert (Hsz : 0 <= sizeof_PPPoEPacket) by done.
  assert (Htake : take (Z.to_nat copylen) f = take (Z.to_nat sizeof_PPPoEPacket) f).
  { rewrite Hcl. unfold zlen. destruct (decide (Z.of_nat (length f) <= sizeof_PPPoEPacket)).
    - rewrite !take_ge by lia. done.
    - rewrite Z.min_r by lia. done. }
  pose proof (wordalign_ge (bh_hdrlen hdr + zlen f)) as Hw.
  exists (if decide (BPF_WORDALIGN (bh_hdrlen hdr + zlen f) >= bpfSize s) then set_bpf 0 0 s
     else set_bpf (bpfSize s - BPF_WORDALIGN (bh_hdrlen hdr + zlen f))
            (bpfOffset s + BPF_WORDALIGN (bh_hdrlen hdr + zlen f)) s).
  split.
  - unfold receivePacket_bpf, bpf_fill, get, bind at 1 2. rewrite decide_False by lia.
    unfold ret at 1. rewrite decide_False by lia. unfold bind at 1.
    rewrite decide_False by lia. rewrite <- Hh, S1, bind_of_Some, Hc, Hd.
    rewrite decide_False by congruence. cbv zeta.
    assert (Hs32 : s32 (bh_hdrlen hdr + zlen f) = bh_hdrlen hdr + zlen f).
    { rewrite <- (s32_u32 (bh_hdrlen hdr + zlen f)) at 2 by lia. unfold s32. by rewrite u32_idemp. }
    rewrite Hs32, decide_False by lia. fold copylen.
    rewrite (slice_take (bpfBuffer s) (bpfOffset s + bh_hdrlen hdr) f copylen); [|rewrite <- S3|].
    + rewrite bind_of_Some, Htake, overwrite_Some; [|done|].
      * rewrite bind_of_Some, Hcl. done.
      * rewrite <- Htake. unfold zlen. rewrite length_take. lia.
    + f_equal. lia.
    + rewrite Hcl. lia.
  - destruct Ht as [Ht|[-> Ht]].
    + destruct (decide (rest = [])) as [->|Hne].
      * rewrite decide_True by (rewrite zlen_nil in *; lia).
        apply bpf_records_nil_l in Hr as ->. split_and!; try done; simpl; try lia.
        exists []. split; [|constructor].
        simpl. rewrite slice_Some by (pose proof (zlen_nonneg (bpfBuffer s)); lia). done.
      * assert (0 < zlen rest) by (unfold zlen; destruct rest; simpl; [done|lia]).
        rewrite decide_False by lia. split_and!; try done; simpl; [|lia|lia].
        exists rest. split; [|done]. simpl. rewrite <- S4. f_equal; lia.
    + rewrite decide_True by (rewrite zlen_nil in *; lia).
      apply bpf_records_nil_l in Hr as ->. split_and!; try done; simpl; try lia.
      exists []. split; [|constructor].
      simpl. rewrite slice_Some by (pose proof (zlen_nonneg (bpfBuffer s)); lia). done.
Qed.

Lemma queued_nonempty s f fs : queued s (f :: fs) -> 0 < bpfSize s.
Proof.
  intros (body & E & R). apply slice_inv in E as (_ & _ & _ & E).
  inversion R as [|hdr pad data tail rest fs' Hh]; subst. pose proof sizeof_bpf_hdr_pos.
  rewrite !zlen_app in E. pose proof (zlen_nonneg pad). pose proof (zlen_nonneg f).
  pose proof (zlen_nonneg tail). pose proof (zlen_nonneg rest). lia.
Qed.

(** A refill of an empty buffer. *)
Lemma fill_queued pkt size s data rs f fs :
  bpfSize s <= 0 -> reads s = Some data :: rs -> zlen data <= zlen (bpfBuffer s) ->
  bpf_records data (f :: fs) ->
  exists s1, receivePacket_bpf pkt size s = receivePacket_bpf pkt size s1 /\
    queued s1 (f :: fs) /\ reads s1 = rs /\ bpfSize s1 = zlen data /\
    store (bpfBuffer s) 0 data = Some (bpfBuffer s1).
Proof.
  intros Hz Hr Hl R. pose proof (zlen_nonneg data) as Hd.
  destruct (store (bpfBuffer s) 0 data) as [buf|] eqn:E;
    [|unfold store in E; rewrite decide_True in E by lia; done].
  set (s1 := mkLink buf (zlen data) 0 rs).
  assert (Q : queued s1 (f :: fs)).
  { exists data. split; [|done]. simpl. rewrite store_Some in E by lia. injection E as <-.
    apply (slice_app_mid []). }
  exists s1. split_and!; [|done..].
  apply queued_nonempty in Q. simpl in Q.
  assert (F : bpf_fill s = Ok 0 s1).
  { unfold bpf_fill, get, bind at 1. rewrite decide_True by lia.
    unfold modify, next_read, bind. simpl. rewrite Hr. unfold of_option. simpl. rewrite E. done. }
  assert (F1 : bpf_fill s1 = Ok 0 s1).
  { unfold bpf_fill, get, bind at 1. simpl. rewrite decide_False by lia. done. }
  unfold receivePacket_bpf. rewrite (bind_Ok _ _ _ _ _ F), (bind_Ok _ _ _ _ _ F1). done.
Qed.

End Queue.

Lemma records_nil_inv `{BpfAbi} `{!BpfAbiOk H} body : bpf_records body [] -> body = [].
Proof. inversion 1. done. Qed.

Lemma bytes_nthb b i : bytes b -> is_byte (nthb b i).
Proof.
  intros Hb. unfold nthb. destruct (decide (i < length b)%nat).
  - unfold bytes in Hb. rewrite Forall_forall in Hb. apply Hb, list_elem_of_In, nth_In. done.
  - rewrite nth_overflow by lia. unfold is_byte. lia.
Qed.

Lemma wf_packet_of_bytes b : bytes b -> zlen b = sizeof_PPPoEPacket -> wf_packet (packet_of_bytes b).
Proof.
  intros Hb Hl. assert (L : length b = 1520%nat).
  { unfold zlen in Hl. change sizeof_PPPoEPacket with 1520 in Hl. lia. }
  pose proof (bytes_nthb b 14 Hb) as H14. unfold is_byte in H14.
  split; cbn [packet_of_bytes h_dest h_source p_payload h_proto p_ver p_type p_code p_session p_length];
    auto using bytes_take, bytes_drop, un_le16_range, bytes_nthb.
  - rewrite length_take. lia.
  - rewrite length_take, length_drop. lia.
  - unfold zlen. rewrite length_drop, L. done.
  - change 15 with (Z.ones 4). rewrite Z.land_ones by lia. apply Z.mod_pos_bound. lia.
  - rewrite Z.shiftr_div_pow2 by lia. change (2 ^ 4) with 16. zlia.
  - by apply bytes_nthb.
Qed.

Lemma bytes_header p : wf_packet p -> bytes (header_bytes p).
Proof.
  intros []. unfold header_bytes. rewrite !bytes_app. split_and!; auto with pppoe.
  - constructor; [|constructor]. unfold is_byte. rewrite Z.lor_comm.
    rewrite (lor_shiftl_add 4) by lia. lia.
  - by constructor; [|constructor].
Qed.

Lemma bytes_packet p : wf_packet p -> bytes (packet_bytes p).
Proof. intros W. unfold packet_bytes. rewrite bytes_app. split; [by apply bytes_header|apply W]. Qed.

Lemma overwrite_wf p data : wf_packet p -> bytes data -> zlen data <= sizeof_PPPoEPacket ->
  wf_packet (packet_of_bytes (data ++ drop (length data) (packet_bytes p))).
Proof.
  intros W Hd Hl. apply wf_packet_of_bytes.
  - apply bytes_app. split; [done|]. by apply bytes_drop, bytes_packet.
  - rewrite zlen_app. pose proof (zlen_packet_bytes p W) as E. unfold zlen in *.
    rewrite length_drop. lia.
Qed.

Lemma zero_header_wf p : wf_packet p -> wf_packet (zero_header p).
Proof.
  intros W. split; cbn; try done; try lia; try apply W; repeat constructor; done.
Qed.

(** A frame shorter than the headers never passes the length test, whatever
    the stale rest of the structure holds. *)
Lemma bogus_length_short p len : 0 <= len < HDR_SIZE -> bogus_length p len = true.
Proof.
  intros Hl. unfold bogus_length. apply bool_decide_eq_true.
  pose proof (htons_range (p_length p)) as H. unfold ntohs, HDR_SIZE, PPPOE_OVERHEAD in *.
  rewrite !u32_small by lia. lia.
Qed.

Lemma bogus_length_false p len : wf_packet p -> bogus_length p len = false -> 0 <= len ->
  ntohs (p_length p) + HDR_SIZE <= len.
Proof.
  intros W. unfold bogus_length. rewrite bool_decide_eq_false. intros H Hl.
  pose proof (htons_range (p_length p)) as R. unfold ntohs, HDR_SIZE, PPPOE_OVERHEAD in *.
  rewrite u32_small in H by lia. unfold u32 in H.
  pose proof (Z.mod_le len (2 ^ 32)). lia.
Qed.

(** *** Reception never fails for a kernel that keeps its word *)

(** How much input is left: what is buffered and what will be read. *)
Definition link_budget (l : Link) : nat :=
  Z.to_nat (bpfSize l) +
  sum_list_with (fun r => match r with Some d => length d | None => 0 end)%nat (reads l).

(** What [read] may return: an error, or bytes; from the packet filter,
    whole records that fit the buffer. *)
Definition read_ok `{BpfAbi} (use_bpf : bool) (room : Z) (r : option (list Z)) : Prop :=
  match r with
  | None => True
  | Some d => bytes d /\ (use_bpf = true -> zlen d <= room /\ exists fs, bpf_records d fs)
  end.

(** What [recv] may return. *)
Definition read_bytes (r : option (list Z)) : Prop :=
  match r with Some d => bytes d | None => True end.

Record good_link `{BpfAbi} (use_bpf : bool) (s : Link) : Prop := {
  good_bytes : bytes (bpfBuffer s);
  good_reads : Forall (read_ok use_bpf (zlen (bpfBuffer s))) (reads s);
  good_queue : use_bpf = true -> bpfSize s <= 0 \/ exists fs, queued s fs
}.

Section Receive.
Context `{ABI : BpfAbi} `{OK : !BpfAbiOk ABI}.

Lemma bpf_records_bytes body f fs : bpf_records body (f :: fs) -> bytes body -> bytes f.
Proof. inversion 1; subst. rewrite !bytes_app. tauto. Qed.

Definition received_ok (use_bpf : bool) (s : Link) (o : outcome Link received) : Prop :=
  match o with
  | Ok (r, pkt, size) s' => wf_packet pkt /\ good_link use_bpf s' /\
      (link_budget s' <= link_budget s)%nat /\
      (buffer_is_empty use_bpf s = false -> (link_budget s' < link_budget s)%nat) /\
      (r < 0 \/ 0 <= size <= sizeof_PPPoEPacket \/ p_length pkt = 0)
  | Stop Blocked _ => buffer_is_empty use_bpf s = true
  | _ => False
  end.

Lemma receive_queued pkt size s fs :
  wf_packet pkt -> good_link true s -> 0 < bpfSize s -> queued s fs ->
  received_ok true s (receivePacket_bpf pkt size s).
Proof.
  intros W G Hp Q. pose proof Q as (body & Eb & R).
  pose proof (slice_inv _ _ _ _ Eb) as (_ & _ & _ & Hz).
  destruct fs as [|f fs].
  { apply records_nil_inv in R as ->. rewrite zlen_nil in Hz. lia. }
  destruct (receive_head pkt size s f fs W Hp Q) as (s' & -> & Q' & Hr & Hs & Hb).
  destruct G as [Gb Gr _].
  assert (Bf : bytes f) by (eapply bpf_records_bytes; [exact R|exact (bytes_slice _ _ _ _ Gb Eb)]).
  simpl. split_and!.
  - apply overwrite_wf; [done|by apply bytes_take|].
    unfold zlen. rewrite length_take. change sizeof_PPPoEPacket with 1520. lia.
  - split; [by rewrite Hb|by rewrite Hb, Hr|eauto].
  - unfold link_budget. rewrite Hr. lia.
  - intros _. unfold link_budget. rewrite Hr. lia.
  - right. left. pose proof (zlen_nonneg f). change sizeof_PPPoEPacket with 1520. lia.
Qed.

Lemma receive_bpf_good pkt size s :
  wf_packet pkt -> good_link true s -> received_ok true s (receivePacket_bpf pkt size s).
Proof.
  intros W G. destruct (decide (0 < bpfSize s)) as [Hp|Hp].
  { destruct (good_queue _ _ G eq_refl) as [?|[fs Q]]; [lia|]. by eapply receive_queued. }
  assert (Eb : buffer_is_empty true s = true) by (unfold buffer_is_empty; lia).
  destruct (reads s) as [|r rs] eqn:Hr.
  { unfold receivePacket_bpf, bpf_fill, get, bind at 1 2. rewrite decide_True by lia.
    unfold modify, next_read, bind. simpl. by rewrite Hr. }
  destruct G as [Gb Gr _]. rewrite Hr in Gr. inversion Gr as [|? ? G1 G2]; subst.
  destruct r as [d|].
  - destruct G1 as [Bd G1]. destruct (G1 eq_refl) as (Hl & fs & R). destruct fs as [|f fs].
    + apply records_nil_inv in R as ->. pose proof sizeof_bpf_hdr_pos.
      unfold receivePacket_bpf, bpf_fill, get, bind at 1 2. rewrite decide_True by lia.
      unfold modify, next_read, bind. simpl. rewrite Hr. unfold of_option.
      rewrite store_Some by (change (zlen (@nil Z)) with 0 in *; lia). simpl.
      rewrite decide_True by (change (zlen (@nil Z)) with 0; lia). simpl. split_and!.
      * by apply zero_header_wf.
      * split; simpl; [by apply bytes_drop|done|]. intros _. left. lia.
      * unfold link_budget. rewrite Hr. simpl. lia.
      * unfold buffer_is_empty. lia.
      * auto.
    + destruct (fill_queued pkt size s d rs f fs) as (s1 & -> & Q & Hr1 & Hz1 & Hs1); try done; [lia|].
      assert (G1' : good_link true s1).
      { split; [exact (bytes_store _ _ _ _ Gb Bd Hs1)| |eauto].
        by rewrite Hr1, (store_zlen _ _ _ _ Hs1). }
      pose proof (queued_nonempty _ _ _ Q) as Hp1.
      pose proof (receive_queued pkt size s1 (f :: fs) W G1' Hp1 Q) as H.
      destruct (receivePacket_bpf pkt size s1) as [[[? ?] ?] s'| |[]]; simpl in H |- *; try done.
      destruct H as (H1 & H2 & H3 & _ & H5). split_and!; try done.
      * unfold link_budget in *. rewrite Hr. simpl. rewrite Hr1, Hz1 in H3. unfold zlen in H3. lia.
      * unfold buffer_is_empty. lia.
  - unfold receivePacket_bpf, bpf_fill, get, bind at 1 2. rewrite decide_True by lia.
    unfold modify, next_read, bind. simpl. rewrite Hr. simpl. split_and!; try done.
    + split; simpl; [done|done|]. intros _. left. lia.
    + unfold link_budget. rewrite Hr. simpl. lia.
    + unfold buffer_is_empty. lia.
    + by left.
Qed.

Lemma receive_good use_bpf pkt size s :
  wf_packet pkt -> good_link use_bpf s -> received_ok use_bpf s (receivePacket use_bpf pkt size s).
Proof.
  intros W G. destruct use_bpf; [by apply receive_bpf_good|].
  unfold receivePacket, receivePacket_raw, next_read, bind. destruct G as [Gb Gr Gq].
  destruct (reads s) as [|r rs] eqn:Hr; [done|]. inversion Gr as [|? ? G1 G2]; subst.
  destruct r as [d|]; simpl.
  - destruct G1 as [Bd _].
    assert (Hl : zlen (take (Z.to_nat sizeof_PPPoEPacket) d) <= sizeof_PPPoEPacket).
    { unfold zlen. rewrite length_take. change sizeof_PPPoEPacket with 1520. lia. }
    rewrite overwrite_Some by done. unfold of_option, ret. split_and!.
    + apply overwrite_wf; [done|by apply bytes_take|done].
    + by split.
    + unfold link_budget. rewrite Hr. simpl. lia.
    + done.
    + right. left. split; [apply zlen_nonneg|done].
  - split_and!; try done; [|by left]. unfold link_budget. rewrite Hr. simpl. lia.
Qed.

End Receive.

(** ** Properties *)

(** The layout of NetBSD/i386: two 32-bit words of time stamp, the two
    lengths, the header length and two bytes of padding; 4-byte alignment. *)
#[export] Instance netbsd_i386 : BpfAbi := {
  sizeof_bpf_hdr := 20;
  bh_caplen b := un_le32 (take 4 (drop 8 b));
  bh_datalen b := un_le32 (take 4 (drop 12 b));
  bh_hdrlen b := un_le16 (nthb b 16) (nthb b 17);
  BPF_WORDALIGN x := Z.land (x + 3) (Z.lnot 3)
}.

#[export] Instance netbsd_i386_ok : BpfAbiOk netbsd_i386.
Proof.
  split; [done|]. intros x Hx. simpl.
  rewrite <- Z.ldiff_land. change 3 with (Z.ones 2) at 2. rewrite Z.ldiff_ones_r by lia.
  rewrite Z.shiftr_div_pow2, Z.shiftl_mul_pow2 by lia. change (2 ^ 2) with 4. zlia.
Qed.


(** A buffer with two captured frames of one and two bytes. *)
Definition two_records : list Z :=
  replicate 8 0 ++ le32 1 ++ le32 1 ++ [20; 0; 0; 0] ++ [7] ++ [0; 0; 0] ++
  replicate 8 0 ++ le32 2 ++ le32 2 ++ [20; 0; 0; 0] ++ [8; 9].

