(* ===== verification/Client.v ===== *)
(** * Client: the PPPoE client's state and its calls to the system

    [PPPoEConnection] and the globals of pppoe.c, ppp.c and if.c in one record,
    the system calls as queues of results, and the routines every phase uses:
    [sendPacket] (if.c), [fatalSys] and [rp_fatal] (pppoe.c), [sendPADT]
    (common.c), [openInterface] (if.c, seen from its caller).  These four call
    one another: a failed write is fatal, and a fatal error sends a PADT. *)

From stdpp Require Import base list numbers strings.
From S2P Require Import Prelude Wire Tags Build Link.
Open Scope Z_scope.

(** ** State *)

Definition STATE_SENT_PADI : Z := 0.
Definition STATE_RECEIVED_PADO : Z := 1.
Definition STATE_SENT_PADR : Z := 2.
Definition STATE_SESSION : Z := 3.
Definition STATE_TERMINATED : Z := 4.

Definition MAX_PADI_ATTEMPTS : Z := 3.
Definition PADI_TIMEOUT : Z := 5.

(** [debugFile] is left out: it only receives dumps.  A C string is the list
    of its bytes, a null pointer is [None]. *)
Record PPPoEConnection := mkConn {
  discoveryState : Z;
  discoverySocket : Z;
  sessionSocket : Z;
  myEth : list Z;
  peerEth : list Z;
  session : Z;
  ifName : option (list Z);
  serviceName : option (list Z);
  acName : option (list Z);
  synchronous : bool;
  useHostUniq : bool;
  printACNames : bool;
  skipDiscovery : bool;
  killSession : bool;
  numPADOs : Z;
  cookie : PPPoETag;
  relayId : PPPoETag
}.

(** Field assignments. *)
Definition c_discoveryState v r :=
  mkConn v (discoverySocket r) (sessionSocket r) (myEth r) (peerEth r)
    (session r) (ifName r) (serviceName r) (acName r) (synchronous r)
    (useHostUniq r) (printACNames r) (skipDiscovery r) (killSession r)
    (numPADOs r) (cookie r) (relayId r).
Definition c_discoverySocket v r :=
  mkConn (discoveryState r) v (sessionSocket r) (myEth r) (peerEth r)
    (session r) (ifName r) (serviceName r) (acName r) (synchronous r)
    (useHostUniq r) (printACNames r) (skipDiscovery r) (killSession r)
    (numPADOs r) (cookie r) (relayId r).
Definition c_sessionSocket v r :=
  mkConn (discoveryState r) (discoverySocket r) v (myEth r) (peerEth r)
    (session r) (ifName r) (serviceName r) (acName r) (synchronous r)
    (useHostUniq r) (printACNames r) (skipDiscovery r) (killSession r)
    (numPADOs r) (cookie r) (relayId r).
Definition c_myEth v r :=
  mkConn (discoveryState r) (discoverySocket r) (sessionSocket r) v (peerEth
    r) (session r) (ifName r) (serviceName r) (acName r) (synchronous r)
    (useHostUniq r) (printACNames r) (skipDiscovery r) (killSession r)
    (numPADOs r) (cookie r) (relayId r).
Definition c_peerEth v r :=
  mkConn (discoveryState r) (discoverySocket r) (sessionSocket r) (myEth r)
    v (session r) (ifName r) (serviceName r) (acName r) (synchronous r)
    (useHostUniq r) (printACNames r) (skipDiscovery r) (killSession r)
    (numPADOs r) (cookie r) (relayId r).
Definition c_session v r :=
  mkConn (discoveryState r) (discoverySocket r) (sessionSocket r) (myEth r)
    (peerEth r) v (ifName r) (serviceName r) (acName r) (synchronous r)
    (useHostUniq r) (printACNames r) (skipDiscovery r) (killSession r)
    (numPADOs r) (cookie r) (relayId r).
Definition c_ifName v r :=
  mkConn (discoveryState r) (discoverySocket r) (sessionSocket r) (myEth r)
    (peerEth r) (session r) v (serviceName r) (acName r) (synchronous r)
    (useHostUniq r) (printACNames r) (skipDiscovery r) (killSession r)
    (numPADOs r) (cookie r) (relayId r).
Definition c_serviceName v r :=
  mkConn (discoveryState r) (discoverySocket r) (sessionSocket r) (myEth r)
    (peerEth r) (session r) (ifName r) v (acName r) (synchronous r)
    (useHostUniq r) (printACNames r) (skipDiscovery r) (killSession r)
    (numPADOs r) (cookie r) (relayId r).
Definition c_acName v r :=
  mkConn (discoveryState r) (discoverySocket r) (sessionSocket r) (myEth r)
    (peerEth r) (session r) (ifName r) (serviceName r) v (synchronous r)
    (useHostUniq r) (printACNames r) (skipDiscovery r) (killSession r)
    (numPADOs r) (cookie r) (relayId r).
Definition c_synchronous v r :=
  mkConn (discoveryState r) (discoverySocket r) (sessionSocket r) (myEth r)
    (peerEth r) (session r) (ifName r) (serviceName r) (acName r) v
    (useHostUniq r) (printACNames r) (skipDiscovery r) (killSession r)
    (numPADOs r) (cookie r) (relayId r).
Definition c_useHostUniq v r :=
  mkConn (discoveryState r) (discoverySocket r) (sessionSocket r) (myEth r)
    (peerEth r) (session r) (ifName r) (serviceName r) (acName r)
    (synchronous r) v (printACNames r) (skipDiscovery r) (killSession r)
    (numPADOs r) (cookie r) (relayId r).
Definition c_printACNames v r :=
  mkConn (discoveryState r) (discoverySocket r) (sessionSocket r) (myEth r)
    (peerEth r) (session r) (ifName r) (serviceName r) (acName r)
    (synchronous r) (useHostUniq r) v (skipDiscovery r) (killSession r)
    (numPADOs r) (cookie r) (relayId r).
Definition c_skipDiscovery v r :=
  mkConn (discoveryState r) (discoverySocket r) (sessionSocket r) (myEth r)
    (peerEth r) (session r) (ifName r) (serviceName r) (acName r)
    (synchronous r) (useHostUniq r) (printACNames r) v (killSession r)
    (numPADOs r) (cookie r) (relayId r).
Definition c_killSession v r :=
  mkConn (discoveryState r) (discoverySocket r) (sessionSocket r) (myEth r)
    (peerEth r) (session r) (ifName r) (serviceName r) (acName r)
    (synchronous r) (useHostUniq r) (printACNames r) (skipDiscovery r) v
    (numPADOs r) (cookie r) (relayId r).
Definition c_numPADOs v r :=
  mkConn (discoveryState r) (discoverySocket r) (sessionSocket r) (myEth r)
    (peerEth r) (session r) (ifName r) (serviceName r) (acName r)
    (synchronous r) (useHostUniq r) (printACNames r) (skipDiscovery r)
    (killSession r) v (cookie r) (relayId r).
Definition c_cookie v r :=
  mkConn (discoveryState r) (discoverySocket r) (sessionSocket r) (myEth r)
    (peerEth r) (session r) (ifName r) (serviceName r) (acName r)
    (synchronous r) (useHostUniq r) (printACNames r) (skipDiscovery r)
    (killSession r) (numPADOs r) v (relayId r).
Definition c_relayId v r :=
  mkConn (discoveryState r) (discoverySocket r) (sessionSocket r) (myEth r)
    (peerEth r) (session r) (ifName r) (serviceName r) (acName r)
    (synchronous r) (useHostUniq r) (printACNames r) (skipDiscovery r)
    (killSession r) (numPADOs r) (cookie r) v.

(** What the system answers.  [select]: interrupted, failed, timed out, or the
    descriptors that are ready (standard input, session and discovery socket).
    Reading standard input: data (none at the end of the file) or an error.
    Opening an interface: the descriptor and the hardware address, or the
    message of the [rp_fatal]/[fatalSys] call that ended it. *)
Inductive select_result :=
| SelIntr | SelError | SelTimeout
| SelReady (ppp_ready session_ready discovery_ready : bool).

Inductive read_result := ReadData (data : list Z) | ReadError (eagain : bool).

Inductive open_result := OpenOk (fd : Z) (hwaddr : list Z) | OpenFail (msg : list Z).

(** What the program does that others see: frames sent, data written to the
    PPP side (descriptor 1), what [-A] prints of a tag, waits. *)
Inductive action :=
| ASend (sock : Z) (data : list Z)
| AWrite (data : list Z)
| APrint (type : Z) (data : list Z)
| AWait (timeout : option Z).

(** The globals, the system-call queues and the trace of actions, oldest
    first.  [bpf_fd] is the static variable of [openInterface]; [stdin] holds
    what reads of standard input return; [writes] says whether the next writes
    succeed (when it is exhausted they do). *)
Record World := mkWorld {
  conn : PPPoEConnection;
  link : Link;
  PPPState : Z;
  PPPPacketSize : Z;
  PPPXorValue : Z;
  optInactivityTimeout : Z;
  optClampMSS : Z;
  optSkipSession : bool;
  Eth_PPPOE_Discovery : Z;
  Eth_PPPOE_Session : Z;
  bpf_fd : Z;
  getpid : Z;
  selects : list select_result;
  stdin : list read_result;
  writes : list bool;
  opens : list open_result;
  trace : list action
}.

Definition w_conn v r :=
  mkWorld v (link r) (PPPState r) (PPPPacketSize r) (PPPXorValue r)
    (optInactivityTimeout r) (optClampMSS r) (optSkipSession r)
    (Eth_PPPOE_Discovery r) (Eth_PPPOE_Session r) (bpf_fd r) (getpid r)
    (selects r) (stdin r) (writes r) (opens r) (trace r).
Definition w_link v r :=
  mkWorld (conn r) v (PPPState r) (PPPPacketSize r) (PPPXorValue r)
    (optInactivityTimeout r) (optClampMSS r) (optSkipSession r)
    (Eth_PPPOE_Discovery r) (Eth_PPPOE_Session r) (bpf_fd r) (getpid r)
    (selects r) (stdin r) (writes r) (opens r) (trace r).
Definition w_PPPState v r :=
  mkWorld (conn r) (link r) v (PPPPacketSize r) (PPPXorValue r)
    (optInactivityTimeout r) (optClampMSS r) (optSkipSession r)
    (Eth_PPPOE_Discovery r) (Eth_PPPOE_Session r) (bpf_fd r) (getpid r)
    (selects r) (stdin r) (writes r) (opens r) (trace r).
Definition w_PPPPacketSize v r :=
  mkWorld (conn r) (link r) (PPPState r) v (PPPXorValue r)
    (optInactivityTimeout r) (optClampMSS r) (optSkipSession r)
    (Eth_PPPOE_Discovery r) (Eth_PPPOE_Session r) (bpf_fd r) (getpid r)
    (selects r) (stdin r) (writes r) (opens r) (trace r).
Definition w_PPPXorValue v r :=
  mkWorld (conn r) (link r) (PPPState r) (PPPPacketSize r) v
    (optInactivityTimeout r) (optClampMSS r) (optSkipSession r)
    (Eth_PPPOE_Discovery r) (Eth_PPPOE_Session r) (bpf_fd r) (getpid r)
    (selects r) (stdin r) (writes r) (opens r) (trace r).
Definition w_optInactivityTimeout v r :=
  mkWorld (conn r) (link r) (PPPState r) (PPPPacketSize r) (PPPXorValue r) v
    (optClampMSS r) (optSkipSession r) (Eth_PPPOE_Discovery r)
    (Eth_PPPOE_Session r) (bpf_fd r) (getpid r) (selects r) (stdin r)
    (writes r) (opens r) (trace r).
Definition w_optClampMSS v r :=
  mkWorld (conn r) (link r) (PPPState r) (PPPPacketSize r) (PPPXorValue r)
    (optInactivityTimeout r) v (optSkipSession r) (Eth_PPPOE_Discovery r)
    (Eth_PPPOE_Session r) (bpf_fd r) (getpid r) (selects r) (stdin r)
    (writes r) (opens r) (trace r).
Definition w_optSkipSession v r :=
  mkWorld (conn r) (link r) (PPPState r) (PPPPacketSize r) (PPPXorValue r)
    (optInactivityTimeout r) (optClampMSS r) v (Eth_PPPOE_Discovery r)
    (Eth_PPPOE_Session r) (bpf_fd r) (getpid r) (selects r) (stdin r)
    (writes r) (opens r) (trace r).
Definition w_Eth_PPPOE_Discovery v r :=
  mkWorld (conn r) (link r) (PPPState r) (PPPPacketSize r) (PPPXorValue r)
    (optInactivityTimeout r) (optClampMSS r) (optSkipSession r) v
    (Eth_PPPOE_Session r) (bpf_fd r) (getpid r) (selects r) (stdin r)
    (writes r) (opens r) (trace r).
Definition w_Eth_PPPOE_Session v r :=
  mkWorld (conn r) (link r) (PPPState r) (PPPPacketSize r) (PPPXorValue r)
    (optInactivityTimeout r) (optClampMSS r) (optSkipSession r)
    (Eth_PPPOE_Discovery r) v (bpf_fd r) (getpid r) (selects r) (stdin r)
    (writes r) (opens r) (trace r).
Definition w_bpf_fd v r :=
  mkWorld (conn r) (link r) (PPPState r) (PPPPacketSize r) (PPPXorValue r)
    (optInactivityTimeout r) (optClampMSS r) (optSkipSession r)
    (Eth_PPPOE_Discovery r) (Eth_PPPOE_Session r) v (getpid r) (selects r)
    (stdin r) (writes r) (opens r) (trace r).
Definition w_getpid v r :=
  mkWorld (conn r) (link r) (PPPState r) (PPPPacketSize r) (PPPXorValue r)
    (optInactivityTimeout r) (optClampMSS r) (optSkipSession r)
    (Eth_PPPOE_Discovery r) (Eth_PPPOE_Session r) (bpf_fd r) v (selects r)
    (stdin r) (writes r) (opens r) (trace r).
Definition w_selects v r :=
  mkWorld (conn r) (link r) (PPPState r) (PPPPacketSize r) (PPPXorValue r)
    (optInactivityTimeout r) (optClampMSS r) (optSkipSession r)
    (Eth_PPPOE_Discovery r) (Eth_PPPOE_Session r) (bpf_fd r) (getpid r) v
    (stdin r) (writes r) (opens r) (trace r).
Definition w_stdin v r :=
  mkWorld (conn r) (link r) (PPPState r) (PPPPacketSize r) (PPPXorValue r)
    (optInactivityTimeout r) (optClampMSS r) (optSkipSession r)
    (Eth_PPPOE_Discovery r) (Eth_PPPOE_Session r) (bpf_fd r) (getpid r)
    (selects r) v (writes r) (opens r) (trace r).
Definition w_writes v r :=
  mkWorld (conn r) (link r) (PPPState r) (PPPPacketSize r) (PPPXorValue r)
    (optInactivityTimeout r) (optClampMSS r) (optSkipSession r)
    (Eth_PPPOE_Discovery r) (Eth_PPPOE_Session r) (bpf_fd r) (getpid r)
    (selects r) (stdin r) v (opens r) (trace r).
Definition w_opens v r :=
  mkWorld (conn r) (link r) (PPPState r) (PPPPacketSize r) (PPPXorValue r)
    (optInactivityTimeout r) (optClampMSS r) (optSkipSession r)
    (Eth_PPPOE_Discovery r) (Eth_PPPOE_Session r) (bpf_fd r) (getpid r)
    (selects r) (stdin r) (writes r) v (trace r).
Definition w_trace v r :=
  mkWorld (conn r) (link r) (PPPState r) (PPPPacketSize r) (PPPXorValue r)
    (optInactivityTimeout r) (optClampMSS r) (optSkipSession r)
    (Eth_PPPOE_Discovery r) (Eth_PPPOE_Session r) (bpf_fd r) (getpid r)
    (selects r) (stdin r) (writes r) (opens r) v.

Definition upd (f : PPPoEConnection -> PPPoEConnection) : Cmd World unit :=
  modify (fun w => w_conn (f (conn w)) w).

(** ** System calls *)

Definition emit (a : action) : Cmd World unit :=
  modify (fun w => w_trace (trace w ++ [a]) w).

(** A write to descriptor [a]: recorded when it succeeds. *)
Definition do_write (a : action) : Cmd World bool := fun w =>
  match writes w with
  | false :: ws => Ok false (w_writes ws w)
  | true :: ws => Ok true (w_trace (trace w ++ [a]) (w_writes ws w))
  | [] => Ok true (w_trace (trace w ++ [a]) w)
  end.

Definition on_link {A} (m : Cmd Link A) : Cmd World A := fun w =>
  match m (link w) with
  | Ok a l => Ok a (w_link l w)
  | Exit c l => Exit c (w_link l w)
  | Stop y l => Stop y (w_link l w)
  end.

(** Running code that changes a local variable of type [L] only. *)
Definition run_local {L A} (m : Cmd L A) (l : L) : Cmd World (A * L) := fun w =>
  match m l with
  | Ok a l => Ok (a, l) w
  | Exit c _ => Exit c w
  | Stop y _ => Stop y w
  end.

(** Running code that changes the world and a local variable. *)
Definition run_with {L A} (m : Cmd (World * L) A) (l : L) : Cmd World (A * L) := fun w =>
  match m (w, l) with
  | Ok a (w, l) => Ok (a, l) w
  | Exit c (w, _) => Exit c w
  | Stop y (w, _) => Stop y w
  end.

Definition read_stdin : Cmd World read_result := fun w =>
  match stdin w with
  | [] => Stop Blocked w
  | r :: rs => Ok r (w_stdin rs w)
  end.

(** [while (1) { r = select (...); if (r >= 0 || errno != EINTR) break; }]:
    skips the interrupted calls. *)
Fixpoint drop_intr (l : list select_result) : list select_result :=
  match l with SelIntr :: l => drop_intr l | _ => l end.

Definition do_select (timeout : option Z) : Cmd World select_result :=
  do! emit (AWait timeout) ;;
  fun w =>
  match drop_intr (selects w) with
  | [] => Stop Blocked (w_selects [] w)
  | r :: rs => Ok r (w_selects rs w)
  end.

Section Client.

(** The build ([USE_BPF] or raw sockets), the packet filter's layout, and the
    contents of uninitialised locals. *)
Context (USE_BPF : bool) `{ABI : BpfAbi} (garbage : PPPoEPacket) (garbage_tag : PPPoETag).

(** ** Sending and dying *)

(** [sendPADT], given [sendPacket]. *)
Definition sendPADT_with (send : Z -> PPPoEPacket -> Z -> Cmd World unit)
    (msg : option (list Z)) : Cmd World unit :=
  let! w := get in
  let c := conn w in
  if decide (session c = 0) then ret tt else
  let packet := start_packet (peerEth c) (myEth c) (htons (Eth_PPPOE_Discovery w))
                  CODE_PADT (session c) garbage in
  do! upd (c_session 0) ;;
  let m := default [] msg in
  put_tags
    [mkBlock (useHostUniq c) false
       (fill_tag garbage_tag TAG_HOST_UNIQ 4 (le32 (getpid w))) (4 + TAG_HDR_SIZE);
     mkBlock (bool_decide (msg <> None)) false
       (fill_tag garbage_tag TAG_GENERIC_ERROR (zlen m) (m ++ [0])) (zlen m + TAG_HDR_SIZE);
     stored_block (cookie c);
     stored_block (relayId c)]
    (p_payload packet, 0, 0) (fun '(payload, _, plen) =>
  send (discoverySocket c) (set_length (htons plen) (set_payload payload packet))
    (plen + HDR_SIZE)).

(** [fatalSys] and [rp_fatal] differ in the message they print; both send a
    PADT and exit with status 1. *)
Definition fatalSys_with (send : Z -> PPPoEPacket -> Z -> Cmd World unit) {A} : Cmd World A :=
  do! sendPADT_with send (Some (str "RP-PPPoE: System call error")) ;;
  exit 1.

Fixpoint sendPacket_rec (fuel : nat) (sock : Z) (pkt : PPPoEPacket) (size : Z) :
    Cmd World unit :=
  chk! data := frame pkt size in
  let! ok := do_write (ASend sock data) in
  if (ok : bool) then ret tt else
  match fuel with
  | O => halt OutOfFuel
  | S fuel => fatalSys_with (sendPacket_rec fuel)
  end.

(** The recursion is at most two deep: [sendPADT] clears the session before it
    sends (see [sendPacket_depth]). *)
Definition sendPacket : Z -> PPPoEPacket -> Z -> Cmd World unit := sendPacket_rec 2.
Definition sendPADT (msg : option (list Z)) : Cmd World unit := sendPADT_with sendPacket msg.
Definition fatalSys {A} : Cmd World A := fatalSys_with sendPacket.

Definition rp_fatal {A} (msg : list Z) : Cmd World A :=
  do! sendPADT (Some msg) ;;
  exit 1.

(** The signal handler for TERM, HUP and INT. *)
Definition sigPADT {A} : Cmd World A :=
  do! sendPADT (Some (str "RP-PPPoE: Received signal")) ;;
  exit 0.

(** ** Interfaces *)

(** The packet-filter build opens one descriptor, kept in a static variable;
    [OpenFail] stands for whichever step of the set-up failed. *)
Definition openInterface : Cmd World Z :=
  let! w := get in
  if USE_BPF && (0 <=? bpf_fd w) then ret (bpf_fd w) else
  match opens w with
  | [] => halt Blocked
  | OpenFail msg :: os => do! modify (w_opens os) ;; rp_fatal msg
  | OpenOk fd hwaddr :: os =>
      do! modify (w_opens os) ;;
      do! upd (c_myEth hwaddr) ;;
      if negb USE_BPF && NOT_UNICAST hwaddr then
        rp_fatal (str "Interface " ++ take 16 (default [] (ifName (conn w))) ++
                  str " has broadcast/multicast MAC address??")
      else
        do! (if USE_BPF then modify (w_bpf_fd fd) else ret tt) ;;
        ret fd
  end.

Definition receive (pkt : PPPoEPacket) (len : Z) : Cmd World received :=
  on_link (receivePacket USE_BPF pkt len).

Definition BPF_BUFFER_IS_EMPTY (w : World) : bool := buffer_is_empty USE_BPF (link w).

End Client.

(** ** Specification *)

(** The optional tags, in the order the packets carry them. *)
Definition host_uniq_tags (c : PPPoEConnection) (pid : Z) : list tag :=
  if useHostUniq c then [(TAG_HOST_UNIQ, le32 pid)] else [].
Definition stored_tags (c : PPPoEConnection) : list tag :=
  stored_tag (cookie c) ++ stored_tag (relayId c).
Definition padt_tags (c : PPPoEConnection) (pid : Z) (msg : option (list Z)) : list tag :=
  host_uniq_tags c pid ++ match msg with Some m => [(TAG_GENERIC_ERROR, m)] | None => [] end ++
  stored_tags c.

Definition name_ok (n : option (list Z)) : Prop :=
  match n with Some s => bytes s | None => True end.

Record wf_conn (c : PPPoEConnection) : Prop := {
  wf_my_len : length (myEth c) = 6%nat;
  wf_my : bytes (myEth c);
  wf_peer_len : length (peerEth c) = 6%nat;
  wf_peer : bytes (peerEth c);
  wf_sess : 0 <= session c < 65536;
  wf_cookie : stored_ok (cookie c);
  wf_relayId : stored_ok (relayId c);
  wf_service : name_ok (serviceName c);
  wf_ac : name_ok (acName c)
}.

Record wf_world (w : World) : Prop := {
  wf_w_conn : wf_conn (conn w);
  wf_disc : 0 <= Eth_PPPOE_Discovery w < 65536;
  wf_sess_type : 0 <= Eth_PPPOE_Session w < 65536
}.

(** ** Lemmas: sending *)

Lemma do_write_cases a w :
  (exists ws, writes w = false :: ws /\ do_write a w = Ok false (w_writes ws w)) \/
  (exists w', do_write a w = Ok true w' /\ conn w' = conn w /\ trace w' = trace w ++ [a] /\
     link w' = link w /\ selects w' = selects w /\ (writes w = [] \/ writes w = true :: writes w')).
Proof.
  unfold do_write. destruct (writes w) as [|[] ws] eqn:E.
  - right. eexists. split_and!; try done. by left.
  - right. eexists. split_and!; try done. by right.
  - left. eauto.
Qed.

Lemma wp_run_local {L A} (m : Cmd L A) l (Q : A * L -> World -> Prop) E w :
  wp m (fun a l => Q (a, l) w) (fun c _ => E c w) l -> wp (run_local m l) Q E w.
Proof. unfold wp, run_local. by destruct (m l) as [| |[]]. Qed.

Lemma wp_run_with {L A} (m : Cmd (World * L) A) l (Q : A * L -> World -> Prop) E w :
  wp m (fun a s => Q (a, s.2) s.1) (fun c s => E c s.1) (w, l) -> wp (run_with m l) Q E w.
Proof. unfold wp, run_with. by destruct (m (w, l)) as [? []|? []|[] []]. Qed.

(** The message [sendPADT] is given always leaves room for itself. *)
Definition msg_ok (m : list Z) : Prop := bytes m /\ zlen m <= 1400.

Definition with_session0 (w : World) : World := w_conn (c_session 0 (conn w)) w.

Section ClientLemmas.
Context (USE_BPF : bool) `{ABI : BpfAbi} (garbage : PPPoEPacket) (garbage_tag : PPPoETag).
Context (Wg : wf_packet garbage) (Wt : wf_tag garbage_tag).

Lemma host_uniq_block c pid checked :
  block_value (mkBlock (useHostUniq c) checked
    (fill_tag garbage_tag TAG_HOST_UNIQ 4 (le32 pid)) (4 + TAG_HDR_SIZE)) (host_uniq_tags c pid).
Proof.
  apply (fill_block garbage_tag TAG_HOST_UNIQ (le32 pid) []); try done.
  rewrite app_nil_r. apply bytes_le32.
Qed.

Lemma encode_host_uniq_le c pid : 0 <= zlen (encode (host_uniq_tags c pid)) <= 8.
Proof.
  unfold host_uniq_tags. destruct (useHostUniq c); [|done].
  rewrite encode_cons, zlen_app, zlen_encode_tag. change (zlen (encode [])) with 0. simpl.
  change (zlen (le32 pid)) with 4. lia.
Qed.

Lemma padt_blocks c pid m :
  wf_conn c -> msg_ok m ->
  blocks_value []
    [mkBlock (useHostUniq c) false
       (fill_tag garbage_tag TAG_HOST_UNIQ 4 (le32 pid)) (4 + TAG_HDR_SIZE);
     mkBlock (bool_decide (Some m <> None)) false
       (fill_tag garbage_tag TAG_GENERIC_ERROR (zlen m) (m ++ [0])) (zlen m + TAG_HDR_SIZE);
     stored_block (cookie c); stored_block (relayId c)]
    (padt_tags c pid (Some m)).
Proof.
  intros W [Hb Hm]. unfold padt_tags, stored_tags. pose proof (zlen_nonneg m).
  rewrite <- (app_nil_r (stored_tag (relayId c))).
  repeat apply values_cons; try constructor; try (intros; discriminate).
  - apply host_uniq_block.
  - intros _. apply bool_decide_eq_true. pose proof (encode_host_uniq_le c pid). simpl.
    unfold MAX_PPPOE_PAYLOAD, PPPOE_OVERHEAD, ETH_DATA_LEN. lia.
  - rewrite bool_decide_eq_true_2 by done. simpl.
    apply (fill_block garbage_tag TAG_GENERIC_ERROR m [0] true); try done.
    + apply bytes_app. split; [done|]. by constructor.
    + change (zlen [0]) with 1. unfold ETH_DATA_LEN. lia.
  - intros _. apply bool_decide_eq_true. pose proof (encode_host_uniq_le c pid). simpl.
    rewrite encode_app, zlen_app, encode_cons, zlen_app, zlen_encode_tag.
    change (zlen (encode [])) with 0. unfold MAX_PPPOE_PAYLOAD, PPPOE_OVERHEAD, ETH_DATA_LEN.
    cbn [snd]. lia.
  - apply stored_block_value, W.
  - apply stored_block_value, W.
Qed.

(** What [sendPADT] does before it calls [sendPacket]. *)
Lemma sendPADT_with_spec send m w :
  wf_world w -> msg_ok m ->
  let c := conn w in
  let ts := padt_tags c (getpid w) (Some m) in
  let run := sendPADT_with garbage garbage_tag send (Some m) w in
  (session c = 0 /\ run = Ok tt w) \/
  (session c <> 0 /\ fits ts = false /\ run = Ok tt (with_session0 w)) \/
  (session c <> 0 /\ fits ts = true /\ exists pkt size,
     run = send (discoverySocket c) pkt size (with_session0 w) /\
     frame pkt size = Some (discovery_frame (peerEth c) (myEth c) (Eth_PPPOE_Discovery w)
                              CODE_PADT (session c) ts)).
Proof.
  intros [Wc Wd _] Hm c ts run.
  destruct (decide (session c = 0)) as [E0|E0]; [left; split; [done|]|right].
  { unfold run, sendPADT_with, get, bind at 1. by rewrite decide_True. }
  eassert (R : run = _).
  { unfold run, sendPADT_with, get, bind at 1. rewrite decide_False by done.
    unfold bind, upd, modify. fold (with_session0 w). cbn [default id]. reflexivity. }
  rewrite R. clear R run.
  match goal with |- context [put_tags ?bls ?b0 ?k ?s] =>
    destruct (put_tags_spec bls ts b0 [] k s) as [[F ->]|(F & b & B & ->)] end.
  - apply built_nil, Wg.
  - done.
  - by apply padt_blocks.
  - left. done.
  - right. split_and!; [done|done|]. destruct b as [[payload cursor] plen].
    eexists _, _. split; [done|]. eapply frame_built; [apply Wc|apply Wc|exact B].
Qed.

(** A failed write: the session is gone, at most one PADT was sent (only if
    there was a session), and the program exits with status 1. *)
Definition padt_frame (w : World) (m : list Z) : action :=
  ASend (discoverySocket (conn w))
    (discovery_frame (peerEth (conn w)) (myEth (conn w)) (Eth_PPPOE_Discovery w) CODE_PADT
       (session (conn w)) (padt_tags (conn w) (getpid w) (Some m))).

Definition at_most_padt (m : list Z) (w w' : World) : Prop :=
  session (conn w') = 0 /\
  (trace w' = trace w \/ session (conn w) <> 0 /\ trace w' = trace w ++ [padt_frame w m]).

Lemma sys_msg_ok : msg_ok (str "RP-PPPoE: System call error").
Proof. split; [apply forallb_bytes; done|vm_compute; congruence]. Qed.

(** Without a session, the fatal path sends nothing. *)
Lemma fatalSys_with_no_session {A} send w :
  wf_world w -> session (conn w) = 0 -> fatalSys_with garbage garbage_tag send (A := A) w = Exit 1 w.
Proof.
  intros W E. unfold fatalSys_with.
  destruct (sendPADT_with_spec send _ w W sys_msg_ok) as [[_ R]|[[? _]|[? _]]]; [|done..].
  by rewrite (bind_Ok _ _ _ _ _ R).
Qed.

Lemma wf_with_session0 w : wf_world w -> wf_world (with_session0 w).
Proof. intros [[] ? ?]. split; [split|..]; simpl; (done || lia). Qed.

Lemma wf_w_writes ws w : wf_world w -> wf_world (w_writes ws w).
Proof. by intros []. Qed.

Lemma sendPacket_rec_S fuel sock pkt size :
  sendPacket_rec garbage garbage_tag (S fuel) sock pkt size =
    (chk! data := frame pkt size in
     let! ok := do_write (ASend sock data) in
     if (ok : bool) then ret tt
     else fatalSys_with garbage garbage_tag (sendPacket_rec garbage garbage_tag fuel)).
Proof. done. Qed.

(** [sendPADT] on its own: returns, or exits because its write failed. *)
Lemma sendPADT_rec_spec fuel m w :
  wf_world w -> msg_ok m ->
  exists w', at_most_padt m w w' /\
    (sendPADT_with garbage garbage_tag (sendPacket_rec garbage garbage_tag (S fuel)) (Some m) w = Ok tt w' \/
     sendPADT_with garbage garbage_tag (sendPacket_rec garbage garbage_tag (S fuel)) (Some m) w = Exit 1 w').
Proof.
  intros W Hm. pose proof (wf_with_session0 w W) as W0.
  destruct (sendPADT_with_spec (sendPacket_rec garbage garbage_tag (S fuel)) m w W Hm)
    as [[E R]|[(E & F & R)|(E & F & pkt & size & R & Fr)]].
  - exists w. split; [|by left]. split; [done|by left].
  - exists (with_session0 w). split; [|by left]. split; [done|by left].
  - rewrite R, sendPacket_rec_S, Fr, bind_of_Some.
    match goal with |- context [bind (do_write ?a) _ ?s] =>
      destruct (do_write_cases a s) as [(ws & _ & Ew)|(w' & Ew & Hc & Ht & _)] end;
      rewrite (bind_Ok _ _ _ _ _ Ew).
    + exists (w_writes ws (with_session0 w)). split.
      * split; [done|]. by left.
      * right. apply fatalSys_with_no_session; [by apply wf_w_writes|done].
    + exists w'. split; [|by left]. split; [by rewrite Hc|]. right. split; [done|]. by rewrite Ht.
Qed.

Lemma sendPADT_cases m w :
  wf_world w -> msg_ok m ->
  exists w', at_most_padt m w w' /\
    (sendPADT garbage garbage_tag (Some m) w = Ok tt w' \/
     sendPADT garbage garbage_tag (Some m) w = Exit 1 w').
Proof. apply sendPADT_rec_spec. Qed.

(** Everything that dies through [sendPADT]. *)
Lemma padt_exit_cases {A} m code w :
  wf_world w -> msg_ok m ->
  exists w' e, at_most_padt m w w' /\ (e = code \/ e = 1) /\
    bind (sendPADT garbage garbage_tag (Some m)) (fun _ => exit (A := A) code) w = Exit e w'.
Proof.
  intros W Hm. destruct (sendPADT_cases m w W Hm) as (w' & H & [E|E]).
  - exists w', code. split_and!; [done|by left|]. by rewrite (bind_Ok _ _ _ _ _ E).
  - exists w', 1. split_and!; [done|by right|]. unfold bind. by rewrite E.
Qed.

(** [sendPacket]: the frame is sent, or the program exits. *)
Lemma sendPacket_cases sock pkt size data w :
  wf_world w -> frame pkt size = Some data ->
  (exists w', do_write (ASend sock data) w = Ok true w' /\
     sendPacket garbage garbage_tag sock pkt size w = Ok tt w') \/
  (exists w', sendPacket garbage garbage_tag sock pkt size w = Exit 1 w' /\
     at_most_padt (str "RP-PPPoE: System call error") w w').
Proof.
  intros W Fr. unfold sendPacket. rewrite sendPacket_rec_S, Fr, bind_of_Some.
  destruct (do_write_cases (ASend sock data) w) as [(ws & _ & Ew)|(w' & Ew & _)];
    rewrite (bind_Ok _ _ _ _ _ Ew).
  - right. pose proof (sendPADT_rec_spec 0 (str "RP-PPPoE: System call error") (w_writes ws w)
      (wf_w_writes _ _ W) sys_msg_ok) as (w' & H & R).
    exists w'. split; [|exact H]. unfold fatalSys_with.
    destruct R as [R|R]; unfold bind; by rewrite R.
  - left. exists w'. done.
Qed.

End ClientLemmas.

(** ** Properties *)

Section ClientProps.
Context (garbage : PPPoEPacket) (garbage_tag : PPPoETag).

(** C29. [sendPADT] sends at most one PADT per session and terminates although
    it, [sendPacket] and [fatalSys] call one another: it returns or exits with
    status 1, never runs out of the recursion depth 2 and never leaves a
    buffer; the session is 0 afterwards, so that a second call, as from a
    signal handler, does nothing; and when there is a session, the packet fits
    and the write succeeds, exactly the PADT for that session has been sent,
    with the host-uniq, the message, the cookie and the relay id. *)
Theorem sendPADT_once m w :
  wf_packet garbage -> wf_tag garbage_tag -> wf_world w -> msg_ok m ->
  exists w', (sendPADT garbage garbage_tag (Some m) w = Ok tt w' \/
              sendPADT garbage garbage_tag (Some m) w = Exit 1 w') /\
    session (conn w') = 0 /\
    (trace w' = trace w \/ session (conn w) <> 0 /\ trace w' = trace w ++ [padt_frame w m]) /\
    (session (conn w) <> 0 -> fits (padt_tags (conn w) (getpid w) (Some m)) = true ->
     writes w = [] ->
     sendPADT garbage garbage_tag (Some m) w = Ok tt w' /\ trace w' = trace w ++ [padt_frame w m]) /\
    (forall m2, sendPADT garbage garbage_tag m2 w' = Ok tt w').
Proof.
  intros Wg Wt W Hm.
  destruct (sendPADT_cases garbage garbage_tag Wg Wt m w W Hm) as (w' & [H0 Ht] & R).
  exists w'. split_and!; [done|done|done| |].
  - intros Hs Hf Hw.
    destruct (sendPADT_with_spec garbage garbage_tag Wg Wt (sendPacket garbage garbage_tag) m w W Hm)
      as [[? _]|[(_ & F & _)|(_ & F & pkt & size & R' & Fr)]]; [done|congruence|].
    assert (E : sendPADT garbage garbage_tag (Some m) w =
      Ok tt (w_trace (trace w ++ [padt_frame w m]) (with_session0 w))).
    { unfold sendPADT. rewrite R'. unfold sendPacket. rewrite sendPacket_rec_S, Fr, bind_of_Some.
      unfold do_write, bind. cbn [writes with_session0 w_conn]. by rewrite Hw. }
    rewrite E in R |- *. destruct R as [R|R]; [|done]. injection R as <-. done.
  - intros m2. unfold sendPADT, sendPADT_with, get, bind at 1. by rewrite decide_True.
Qed.
End ClientProps.

(** A client in session 0x1234 with a host-uniq tag and a cookie. *)
Definition no_link : Link := mkLink [] 0 0 [].
Definition some_conn : PPPoEConnection :=
  mkConn STATE_SESSION 3 3 [2; 0; 0; 0; 0; 1] [2; 0; 0; 0; 0; 2] (htons 0x1234)
    (Some (str "ne0")) None None false true false false false 0 cookie_tag empty_tag.
Definition some_world : World :=
  mkWorld some_conn no_link 0 0 0 0 0 false ETH_PPPOE_DISCOVERY ETH_PPPOE_SESSION 3 77 [] [] [] [] [].
Definition some_packet : PPPoEPacket := packet_with [].

Lemma empty_tag_wf : wf_tag empty_tag.
Proof. repeat split; try (vm_compute; congruence). apply forallb_bytes. vm_compute. reflexivity. Qed.
Lemma cookie_tag_wf : wf_tag cookie_tag.
Proof. repeat split; try (vm_compute; congruence). apply forallb_bytes. vm_compute. reflexivity. Qed.
Lemma some_packet_wf : wf_packet some_packet.
Proof. apply wf_packetb_ok. vm_compute. reflexivity. Qed.

Lemma some_world_wf : wf_world some_world.
Proof.
  split; [split|..]; try (vm_compute; split; congruence); try done;
    try (apply forallb_bytes; vm_compute; reflexivity).
  - split; [apply cookie_tag_wf|vm_compute; congruence].
  - split; [apply empty_tag_wf|vm_compute; congruence].
Qed.

Lemma sendPADT_once_witness :
  let m := str "bye" in
  session (conn some_world) <> 0 /\
  exists w', (sendPADT some_packet empty_tag (Some m) some_world = Ok tt w' \/
              sendPADT some_packet empty_tag (Some m) some_world = Exit 1 w') /\
    session (conn w') = 0 /\
    (trace w' = trace some_world \/ session (conn some_world) <> 0 /\
       trace w' = trace some_world ++ [padt_frame some_world m]) /\
    (session (conn some_world) <> 0 ->
     fits (padt_tags (conn some_world) (getpid some_world) (Some m)) = true ->
     writes some_world = [] ->
     sendPADT some_packet empty_tag (Some m) some_world = Ok tt w' /\
     trace w' = trace some_world ++ [padt_frame some_world m]) /\
    (forall m2, sendPADT some_packet empty_tag m2 w' = Ok tt w').
Proof.
  split; [vm_compute; congruence|].
  apply (sendPADT_once some_packet empty_tag (str "bye") some_world).
  - apply some_packet_wf.
  - apply empty_tag_wf.
  - apply some_world_wf.
  - split; [apply forallb_bytes; reflexivity|vm_compute; congruence].
Defined.
