(* ===== verification/Discovery.v ===== *)
(** * Discovery: the discovery phase of the client (discovery.c)

    Host-Uniq filtering, the tag callbacks for PADO and PADS, the PADI and PADR
    frames, the two waiting loops and [discovery] itself. *)

From stdpp Require Import base list numbers strings.
From S2P Require Import Prelude Wire Tags Build Link Client.
Open Scope Z_scope.

(** ** Tag callbacks *)

(** [*val] is the local state; [memcpy (&tmp, data, len)] copies four bytes. *)
Definition parseForHostUniq (pid : Z) : ParseFunc Z := fun type len data =>
  if decide (type = TAG_HOST_UNIQ /\ len = 4) then
    if decide (s32 (un_le32 data) = pid) then modify (fun _ => 1) else ret tt
  else ret tt.

Record PacketCriteria := mkCriteria { acNameOK : bool; serviceNameOK : bool }.

Definition PadoState : Type := World * PacketCriteria.

Definition on_conn (f : PPPoEConnection -> PPPoEConnection) : Cmd PadoState unit :=
  modify (fun '(w, pc) => (w_conn (f (conn w)) w, pc)).
Definition on_criteria (f : PacketCriteria -> PacketCriteria) : Cmd PadoState unit :=
  modify (fun '(w, pc) => (w, f pc)).

(** Output that is produced only when access concentrators are listed. *)
Definition show (type : Z) (data : list Z) : Cmd PadoState unit :=
  modify (fun '(w, pc) =>
    if printACNames (conn w) then (w_trace (trace w ++ [APrint type data]) w, pc) else (w, pc)).

(** [name && len == strlen (name) && !strncmp (data, name, len)]: a C string
    holds no NUL, so that the comparison is equality. *)
Definition name_matches (name : option (list Z)) (data : list Z) : bool :=
  match name with Some n => bool_decide (data = n) | None => false end.

(** Error tags: shown when listing, fatal otherwise. *)
Definition pado_error (type : Z) (data : list Z) : Cmd PadoState unit :=
  let! s := get in
  if printACNames (conn s.1) then show type data else exit 1.

Definition parsePADOTags : ParseFunc PadoState := fun type len data =>
  let! s := get in
  let c := conn s.1 in
  if decide (type = TAG_AC_NAME) then
    do! show type data ;;
    if name_matches (acName c) data
    then on_criteria (fun pc => mkCriteria true (serviceNameOK pc)) else ret tt
  else if decide (type = TAG_SERVICE_NAME) then
    do! (if 0 <? len then show type data else ret tt) ;;
    if name_matches (serviceName c) data
    then on_criteria (fun pc => mkCriteria (acNameOK pc) true) else ret tt
  else if decide (type = TAG_AC_COOKIE) then
    do! show type (take 20 data) ;;
    chk! t := fill_tag (cookie c) type len data in on_conn (c_cookie t)
  else if decide (type = TAG_RELAY_SESSION_ID) then
    do! show type (take 20 data) ;;
    chk! t := fill_tag (relayId c) type len data in on_conn (c_relayId t)
  else if decide (type = TAG_SERVICE_NAME_ERROR) then pado_error type data
  else if decide (type = TAG_AC_SYSTEM_ERROR) then pado_error type data
  else if decide (type = TAG_GENERIC_ERROR) then pado_error type data
  else ret tt.

Definition parsePADSTags : ParseFunc World := fun type len data =>
  let! w := get in
  if decide (type = TAG_SERVICE_NAME) then ret tt
  else if decide (type = TAG_SERVICE_NAME_ERROR) then exit 1
  else if decide (type = TAG_AC_SYSTEM_ERROR) then exit 1
  else if decide (type = TAG_GENERIC_ERROR) then exit 1
  else if decide (type = TAG_RELAY_SESSION_ID) then
    chk! t := fill_tag (relayId (conn w)) type len data in upd (c_relayId t)
  else ret tt.

(** ** Frames *)

(** [svc->type = TAG_SERVICE_NAME; svc->length = htons(namelen)]: the type is
    not byte-swapped, which for 0x0101 makes no difference. *)
Definition svc_header (payload : list Z) (namelen : Z) : option (list Z) :=
  store payload 0 (le16 TAG_SERVICE_NAME ++ le16 (htons namelen)).

Section Discovery.
Context (USE_BPF : bool) `{ABI : BpfAbi} (garbage : PPPoEPacket) (garbage_tag : PPPoETag)
  (garbage_len : Z).

Definition host_uniq_checked (w : World) : block :=
  mkBlock (useHostUniq (conn w)) true
    (fill_tag garbage_tag TAG_HOST_UNIQ 4 (le32 (getpid w))) (4 + TAG_HDR_SIZE).

Definition sendPADI : Cmd World unit :=
  let! w := get in
  let c := conn w in
  let name := default [] (serviceName c) in
  let namelen := u16 (zlen name) in
  let plen := u16 (TAG_HDR_SIZE + namelen) in
  if decide (0 + plen > MAX_PPPOE_PAYLOAD) then ret tt else
  let packet := start_packet (replicate 6 0xFF) (myEth c) (htons (Eth_PPPOE_Discovery w))
                  CODE_PADI 0 garbage in
  chk! payload := svc_header (p_payload packet) namelen in
  if decide (0 + (namelen + TAG_HDR_SIZE) > MAX_PPPOE_PAYLOAD) then ret tt else
  chk! payload := store payload TAG_HDR_SIZE name in
  put_tags [host_uniq_checked w] (payload, namelen + TAG_HDR_SIZE, plen)
    (fun '(payload, _, plen) =>
  sendPacket garbage garbage_tag (discoverySocket c)
    (set_length (htons plen) (set_payload payload packet)) (plen + HDR_SIZE)).

Definition sendPADR : Cmd World unit :=
  let! w := get in
  let c := conn w in
  let name := default [] (serviceName c) in
  let namelen := u16 (zlen name) in
  let plen := u16 (TAG_HDR_SIZE + namelen) in
  if decide (0 + plen > MAX_PPPOE_PAYLOAD) then ret tt else
  let packet := start_packet (peerEth c) (myEth c) (htons (Eth_PPPOE_Discovery w))
                  CODE_PADR 0 garbage in
  chk! payload := svc_header (p_payload packet) namelen in
  chk! payload := store payload TAG_HDR_SIZE (take (Z.to_nat namelen) name) in
  put_tags [host_uniq_checked w; stored_block (cookie c); stored_block (relayId c)]
    (payload, namelen + TAG_HDR_SIZE, plen) (fun '(payload, _, plen) =>
  sendPacket garbage garbage_tag (discoverySocket c)
    (set_length (htons plen) (set_payload payload packet)) (plen + HDR_SIZE)).

(** ** Waiting *)

Definition packetIsForMe (packet : PPPoEPacket) : Cmd World bool :=
  let! w := get in
  if negb (useHostUniq (conn w)) then ret true else
  let! (_, forMe) := run_local (parsePacket packet (parseForHostUniq (getpid w))) 0 in
  ret (negb (forMe =? 0)).

(** [if (BPF_BUFFER_IS_EMPTY) { ... select ... }]. *)
Definition wait_readable (timeout : Z) : Cmd World select_result :=
  let! w := get in
  if BPF_BUFFER_IS_EMPTY USE_BPF w then do_select (Some timeout)
  else ret (SelReady false false true).

(** The local variables of the loop are [packet], [len] and [pc]. *)
Fixpoint waitForPADO_loop (fuel : nat) (timeout : Z) (packet : PPPoEPacket) (len : Z)
    (pc : PacketCriteria) : Cmd World unit :=
  match fuel with
  | O => halt OutOfFuel
  | S fuel =>
    let again packet len pc :=
      let! w := get in
      if decide (discoveryState (conn w) = STATE_RECEIVED_PADO) then ret tt
      else waitForPADO_loop fuel timeout packet len pc in
    let! r := wait_readable timeout in
    match r with
    | SelError => fatalSys garbage garbage_tag
    | SelTimeout => ret tt
    | _ =>
      let! (_, packet, len) := receive USE_BPF packet len in
      if bogus_length packet len then again packet len pc else
      let! w := get in
      if USE_BPF && negb (etherType packet =? Eth_PPPOE_Discovery w) then again packet len pc else
      let! forMe := packetIsForMe packet in
      if negb forMe then again packet len pc else
      if decide (p_code packet = CODE_PADO) then
        if NOT_UNICAST (h_source packet) then again packet len pc else
        do! upd (fun c => c_numPADOs (numPADOs c + 1) c) ;;
        let! (_, pc) := run_with (parsePacket packet parsePADOTags) pc in
        if acNameOK pc && serviceNameOK pc then
          do! upd (c_peerEth (h_source packet)) ;;
          let! w := get in
          if printACNames (conn w) then
            do! emit (APrint 0 (peerEth (conn w))) ;;
            again packet len pc
          else upd (c_discoveryState STATE_RECEIVED_PADO)
        else again packet len pc
      else again packet len pc
    end
  end.

(** How often a waiting loop can go round: it consumes a [select] result or
    part of the packet-filter buffer each time. *)
Definition wait_fuel (w : World) : nat := S (length (selects w) + link_budget (link w)).

Definition waitForPADO (timeout : Z) : Cmd World unit :=
  let! w := get in
  let pc := mkCriteria (negb (bool_decide (is_Some (acName (conn w)))))
                       (negb (bool_decide (is_Some (serviceName (conn w))))) in
  waitForPADO_loop (wait_fuel w) timeout garbage garbage_len pc.

(** The loop of [waitForPADS] returns the packet whose session is taken, or
    nothing after a timeout. *)
Fixpoint waitForPADS_loop (fuel : nat) (timeout : Z) (packet : PPPoEPacket) (len : Z) :
    Cmd World (option PPPoEPacket) :=
  match fuel with
  | O => halt OutOfFuel
  | S fuel =>
    let again packet len :=
      let! w := get in
      if decide (discoveryState (conn w) = STATE_SESSION) then ret (Some packet)
      else waitForPADS_loop fuel timeout packet len in
    let! r := wait_readable timeout in
    match r with
    | SelError => fatalSys garbage garbage_tag
    | SelTimeout => ret None
    | _ =>
      let! (_, packet, len) := receive USE_BPF packet len in
      if bogus_length packet len then again packet len else
      let! w := get in
      if USE_BPF && negb (etherType packet =? Eth_PPPOE_Discovery w) then again packet len else
      if negb (mac_eqb (h_source packet) (peerEth (conn w))) then again packet len else
      let! forMe := packetIsForMe packet in
      if negb forMe then again packet len else
      if decide (p_code packet = CODE_PADS) then
        do! parsePacket packet parsePADSTags ;;
        do! upd (c_discoveryState STATE_SESSION) ;;
        ret (Some packet)
      else again packet len
    end
  end.

Definition waitForPADS (timeout : Z) : Cmd World unit :=
  let! w := get in
  let! r := waitForPADS_loop (wait_fuel w) timeout garbage garbage_len in
  match r with
  | Some packet => upd (c_session (p_session packet))
  | None => ret tt
  end.

(** ** The discovery phase *)

Fixpoint padi_loop (fuel : nat) (padiAttempts timeout : Z) : Cmd World unit :=
  match fuel with
  | O => halt OutOfFuel
  | S fuel =>
    let padiAttempts := padiAttempts + 1 in
    if decide (padiAttempts > MAX_PADI_ATTEMPTS) then
      rp_fatal garbage garbage_tag (str "Timeout waiting for PADO packets")
    else
    do! sendPADI ;;
    do! upd (c_discoveryState STATE_SENT_PADI) ;;
    do! waitForPADO timeout ;;
    let! w := get in
    let timeout := if printACNames (conn w) then timeout else timeout * 2 in
    if printACNames (conn w) && negb (numPADOs (conn w) =? 0) then ret tt
    else if decide (discoveryState (conn w) = STATE_SENT_PADI)
    then padi_loop fuel padiAttempts timeout else ret tt
  end.

Fixpoint padr_loop (fuel : nat) (padrAttempts timeout : Z) : Cmd World unit :=
  match fuel with
  | O => halt OutOfFuel
  | S fuel =>
    let padrAttempts := padrAttempts + 1 in
    if decide (padrAttempts > MAX_PADI_ATTEMPTS) then
      rp_fatal garbage garbage_tag (str "Timeout waiting for PADS packets")
    else
    do! sendPADR ;;
    do! upd (c_discoveryState STATE_SENT_PADR) ;;
    do! waitForPADS timeout ;;
    let! w := get in
    if decide (discoveryState (conn w) = STATE_SENT_PADR)
    then padr_loop fuel padrAttempts (timeout * 2) else ret tt
  end.

(** Four turns are enough for each loop: the fourth attempt is fatal. *)
Definition discovery : Cmd World unit :=
  let! fd := openInterface USE_BPF garbage garbage_tag in
  do! upd (c_discoverySocket fd) ;;
  let! w := get in
  if skipDiscovery (conn w) then
    do! upd (c_discoveryState STATE_SESSION) ;;
    if killSession (conn w) then
      do! sendPADT garbage garbage_tag (Some (str "RP-PPPoE: Session killed manually")) ;;
      exit 0
    else ret tt
  else
    do! padi_loop 4 0 PADI_TIMEOUT ;;
    let! w := get in
    if printACNames (conn w) then exit 0 else
    do! padr_loop 4 0 PADI_TIMEOUT ;;
    upd (c_discoveryState STATE_SESSION).

End Discovery.

(** ** Specification *)

Definition service_tag (c : PPPoEConnection) : tag :=
  (TAG_SERVICE_NAME, default [] (serviceName c)).
Definition padi_tags (w : World) : list tag :=
  service_tag (conn w) :: host_uniq_tags (conn w) (getpid w).
Definition padr_tags (w : World) : list tag :=
  service_tag (conn w) :: host_uniq_tags (conn w) (getpid w) ++ stored_tags (conn w).

Definition padi_frame (w : World) : action :=
  ASend (discoverySocket (conn w))
    (discovery_frame (replicate 6 0xFF) (myEth (conn w)) (Eth_PPPOE_Discovery w) CODE_PADI 0
       (padi_tags w)).
Definition padr_frame (w : World) : action :=
  ASend (discoverySocket (conn w))
    (discovery_frame (peerEth (conn w)) (myEth (conn w)) (Eth_PPPOE_Discovery w) CODE_PADR 0
       (padr_tags w)).

(** Sending one frame: sent if it fits and the write succeeds, nothing if it
    does not fit, and death after a failed write. *)
Definition sends (a : action) (fit : bool) (w : World) (o : outcome World unit) : Prop :=
  (fit = false /\ o = Ok tt w) \/
  (fit = true /\ exists w', do_write a w = Ok true w' /\ o = Ok tt w') \/
  (fit = true /\ exists w', o = Exit 1 w' /\
     at_most_padt (str "RP-PPPoE: System call error") w w').

(** ** Lemmas: frames *)

Lemma svc_built payload name :
  zlen payload = ETH_DATA_LEN -> zlen name + TAG_HDR_SIZE <= ETH_DATA_LEN ->
  exists pl1 pl2, svc_header payload (zlen name) = Some pl1 /\ store pl1 TAG_HDR_SIZE name = Some pl2 /\
    built (pl2, zlen name + TAG_HDR_SIZE, zlen name + TAG_HDR_SIZE) [(TAG_SERVICE_NAME, name)].
Proof.
  intros Hz Hn. unfold TAG_HDR_SIZE, ETH_DATA_LEN in *. pose proof (zlen_nonneg name).
  destruct payload as [|x0 [|x1 [|x2 [|x3 rest]]]]; rewrite ?zlen_cons, ?zlen_nil in Hz; try lia.
  set (h := le16 TAG_SERVICE_NAME ++ le16 (htons (zlen name))).
  assert (E : svc_header (x0 :: x1 :: x2 :: x3 :: rest) (zlen name) = Some (h ++ rest)).
  { apply (store_app_mid [] [x0; x1; x2; x3] h rest). done. }
  exists (h ++ rest), (h ++ name ++ drop (length name) rest). split; [done|].
  assert (Hr : rest = take (length name) rest ++ drop (length name) rest) by by rewrite take_drop.
  assert (Hl : length (take (length name) rest) = length name).
  { rewrite length_take. unfold zlen in *. lia. }
  split.
  - rewrite Hr at 1. by apply (store_app_mid h (take (length name) rest) name).
  - unfold built. rewrite encode_cons. change (encode []) with (@nil Z). rewrite app_nil_r.
    unfold encode_tag. cbn [fst snd]. rewrite <- !le16_htons. change (htons TAG_SERVICE_NAME) with TAG_SERVICE_NAME.
    split_and!.
    + exists (drop (length name) rest). unfold h. by rewrite <- !app_assoc.
    + rewrite !zlen_app. change (zlen h) with 4. unfold zlen, ETH_DATA_LEN in *. rewrite length_drop. lia.
    + rewrite !zlen_app. change (zlen (le16 TAG_SERVICE_NAME)) with 2.
      change (zlen (le16 (htons (zlen name)))) with 2. lia.
    + done.
Qed.

Lemma fits_service name us :
  fits ((TAG_SERVICE_NAME, name) :: us) = true -> zlen name + TAG_HDR_SIZE <= MAX_PPPOE_PAYLOAD.
Proof.
  unfold fits. rewrite bool_decide_eq_true, encode_cons, zlen_app, zlen_encode_tag. simpl.
  unfold TAG_HDR_SIZE. pose proof (zlen_nonneg (encode us)). lia.
Qed.

Lemma fits_service_alone name :
  fits [(TAG_SERVICE_NAME, name)] = bool_decide (zlen name + TAG_HDR_SIZE <= MAX_PPPOE_PAYLOAD).
Proof.
  unfold fits. rewrite encode_cons, zlen_app, zlen_encode_tag. change (zlen (encode [])) with 0.
  simpl. unfold TAG_HDR_SIZE. apply bool_decide_ext. lia.
Qed.

Section DiscoveryLemmas.
Context (USE_BPF : bool) `{ABI : BpfAbi} `{OK : !BpfAbiOk ABI}.
Context (garbage : PPPoEPacket) (garbage_tag : PPPoETag).
Context (Wg : wf_packet garbage) (Wt : wf_tag garbage_tag).

(** The common tail of [sendPADI] and [sendPADR]: blocks after the service
    name, then the frame. *)
Lemma send_blocks w dest code bls us name pl :
  wf_world w -> length dest = 6%nat -> 0 <= code < 256 ->
  built (pl, zlen name + TAG_HDR_SIZE, zlen name + TAG_HDR_SIZE) [(TAG_SERVICE_NAME, name)] ->
  fits [(TAG_SERVICE_NAME, name)] = true ->
  blocks_value [(TAG_SERVICE_NAME, name)] bls us ->
  sends (ASend (discoverySocket (conn w))
           (discovery_frame dest (myEth (conn w)) (Eth_PPPOE_Discovery w) code 0
              ((TAG_SERVICE_NAME, name) :: us)))
    (fits ((TAG_SERVICE_NAME, name) :: us)) w
    (put_tags bls (pl, zlen name + TAG_HDR_SIZE, zlen name + TAG_HDR_SIZE)
       (fun '(payload, _, plen) =>
          sendPacket garbage garbage_tag (discoverySocket (conn w))
            (set_length (htons plen) (set_payload payload
               (start_packet dest (myEth (conn w)) (htons (Eth_PPPOE_Discovery w)) code 0 garbage)))
            (plen + HDR_SIZE)) w).
Proof.
  intros W Hd Hc B F V.
  match goal with |- context [put_tags bls ?b0 ?k w] =>
    destruct (put_tags_spec bls us b0 _ k w B F V) as [[F1 ->]|(F1 & b & B1 & ->)] end.
  - by left.
  - right. destruct b as [[payload cursor] plen]. simpl in F1.
    apply (frame_built dest (myEth (conn w)) (Eth_PPPOE_Discovery w) code 0 garbage) in B1;
      [|exact Hd|apply W].
    destruct (sendPacket_cases garbage garbage_tag Wg Wt (discoverySocket (conn w)) _ _ _ w W B1) as [(w' & H1 & H2)|(w' & H1 & H2)].
    + left. split; [done|]. exists w'. split; [exact H1|exact H2].
    + right. split; [done|]. exists w'. split; [exact H1|exact H2].
Qed.

Lemma sendPADI_cases w :
  wf_world w -> zlen (default [] (serviceName (conn w))) < 65532 ->
  sends (padi_frame w) (fits (padi_tags w)) w (sendPADI garbage garbage_tag w).
Proof.
  intros W Hn. unfold sendPADI, get, bind at 1, padi_tags, padi_frame, padi_tags, service_tag.
  set (c := conn w) in *. set (name := default [] (serviceName c)) in *.
  pose proof (zlen_nonneg name). unfold TAG_HDR_SIZE.
  rewrite (u16_small (zlen name)), (u16_small (4 + zlen name)) by lia.
  case_decide as D.
  { left. split; [|done]. destruct (fits _) eqn:F; [|done]. apply fits_service in F.
    unfold TAG_HDR_SIZE in F. lia. }
  destruct (svc_built (p_payload garbage) name) as (pl1 & pl2 & E1 & E2 & B);
    [apply Wg|unfold MAX_PPPOE_PAYLOAD, PPPOE_OVERHEAD, TAG_HDR_SIZE in *; lia|].
  cbn [p_payload start_packet]. rewrite E1, bind_of_Some, decide_False by lia.
  unfold TAG_HDR_SIZE in E2. rewrite E2, bind_of_Some.
  rewrite (Z.add_comm 4). apply send_blocks; try done.
  - rewrite fits_service_alone. apply bool_decide_eq_true. unfold TAG_HDR_SIZE. lia.
  - rewrite <- (app_nil_r (host_uniq_tags _ _)). constructor; [|done|constructor].
    by apply host_uniq_block.
Qed.

Lemma sendPADR_cases w :
  wf_world w -> zlen (default [] (serviceName (conn w))) < 65532 ->
  sends (padr_frame w) (fits (padr_tags w)) w (sendPADR garbage garbage_tag w).
Proof.
  intros W Hn. unfold sendPADR, get, bind at 1, padr_tags, padr_frame, padr_tags, service_tag.
  set (c := conn w) in *. set (name := default [] (serviceName c)) in *.
  pose proof (zlen_nonneg name). unfold TAG_HDR_SIZE.
  rewrite (u16_small (zlen name)), (u16_small (4 + zlen name)) by lia.
  case_decide as D.
  { left. split; [|done]. destruct (fits _) eqn:F; [|done]. apply fits_service in F.
    unfold TAG_HDR_SIZE in F. lia. }
  destruct (svc_built (p_payload garbage) name) as (pl1 & pl2 & E1 & E2 & B);
    [apply Wg|unfold MAX_PPPOE_PAYLOAD, PPPOE_OVERHEAD, TAG_HDR_SIZE in *; lia|].
  cbn [p_payload start_packet]. rewrite E1, bind_of_Some, zlen_to_nat, firstn_all.
  unfold TAG_HDR_SIZE in E2. rewrite E2, bind_of_Some.
  rewrite (Z.add_comm 4). apply send_blocks; try done.
  - apply W.
  - rewrite fits_service_alone. apply bool_decide_eq_true. unfold TAG_HDR_SIZE. lia.
  - unfold stored_tags. rewrite <- (app_nil_r (stored_tag (relayId _))).
    repeat apply values_cons; try constructor; try (intros; discriminate).
    + by apply host_uniq_block.
    + apply stored_block_value, W.
    + apply stored_block_value, W.
Qed.

End DiscoveryLemmas.

(** ** Properties *)

(** C32. [sendPADR] computes the payload length in 16 bits before it checks the
    room and does not check again: for a service name whose length is at
    least 65532 modulo 65536 the sum wraps to less than four, the check
    passes, and the copy of the name leaves the packet ([sendPADI] checks
    twice and does not copy there). *)
Theorem sendPADR_overflow garbage garbage_tag w :
  wf_packet garbage ->
  65532 <= zlen (default [] (serviceName (conn w))) mod 65536 ->
  sendPADR garbage garbage_tag w = Stop OutOfBounds w /\
  (zlen (default [] (serviceName (conn w))) < 65536 -> sendPADI garbage garbage_tag w = Ok tt w).
Proof.
  intros Wg Hn. set (name := default [] (serviceName (conn w))) in *.
  assert (Hm : 65532 <= u16 (zlen name) < 65536) by
    (pose proof (u16_range (zlen name)); unfold u16 in *; change (2 ^ 16) with 65536 in *; lia).
  assert (Hp : 0 <= u16 (TAG_HDR_SIZE + u16 (zlen name)) <= MAX_PPPOE_PAYLOAD).
  { unfold TAG_HDR_SIZE, MAX_PPPOE_PAYLOAD, PPPOE_OVERHEAD, ETH_DATA_LEN.
    unfold u16 in *. change (2 ^ 16) with 65536 in *. zlia. }
  assert (Hsvc : exists pl, svc_header (p_payload garbage) (u16 (zlen name)) = Some pl /\ zlen pl = ETH_DATA_LEN).
  { destruct (svc_header (p_payload garbage) (u16 (zlen name))) as [pl|] eqn:E.
    - exists pl. split; [done|]. rewrite (store_zlen _ _ _ _ E). apply Wg.
    - unfold svc_header, store in E. rewrite decide_True in E; [done|].
      rewrite (wf_payload_len _ Wg). vm_compute. intuition congruence. }
  destruct Hsvc as (pl & Hsvc & Hl). split.
  - unfold sendPADR, get, bind at 1. fold name. rewrite decide_False by lia.
    cbn [p_payload start_packet]. rewrite Hsvc, bind_of_Some. unfold bind, of_option.
    unfold store at 1. rewrite decide_False; [done|]. rewrite Hl. intros [_ H].
    assert (Hz : zlen (take (Z.to_nat (u16 (zlen name))) name) = u16 (zlen name)).
    { pose proof (zlen_nonneg name). assert (u16 (zlen name) <= zlen name) by (apply Z.mod_le; lia).
      unfold zlen in *. rewrite length_take. lia. }
    rewrite Hz in H. unfold TAG_HDR_SIZE, ETH_DATA_LEN in H. lia.
  - intros Hlt. unfold sendPADI, get, bind at 1. fold name. rewrite decide_False by lia.
    cbn [p_payload start_packet]. rewrite Hsvc, bind_of_Some.
    rewrite decide_True; [done|]. unfold TAG_HDR_SIZE, MAX_PPPOE_PAYLOAD, PPPOE_OVERHEAD, ETH_DATA_LEN. lia.
Qed.

(** A service name of 65532 letters. *)
Definition long_name_world : World :=
  w_conn (c_serviceName (Some (replicate (Z.to_nat 65532) 97)) some_conn) some_world.

Lemma sendPADR_overflow_witness :
  sendPADR some_packet empty_tag long_name_world = Stop OutOfBounds long_name_world /\
  (zlen (default [] (serviceName (conn long_name_world))) < 65536 ->
     sendPADI some_packet empty_tag long_name_world = Ok tt long_name_world).
Proof.
  apply (sendPADR_overflow some_packet empty_tag long_name_world).
  - apply some_packet_wf.
  - cbn [long_name_world w_conn conn c_serviceName serviceName default id]. unfold zlen.
    rewrite length_replicate, Z2Nat.id by lia. vm_compute. congruence.
Defined.
