(* ===== verification/Waiting.v ===== *)
(** * Waiting: the two waiting loops of discovery.c

    [waitForPADO] and [waitForPADS] of Discovery.v against every sequence of
    frames: they terminate, stay inside their buffers, and what they accept. *)

From stdpp Require Import base list numbers strings.
From S2P Require Import Prelude Wire Tags Build Link Client Discovery.
Open Scope Z_scope.

Section Waiting.
Context (USE_BPF : bool) `{ABI : BpfAbi} `{OK : !BpfAbiOk ABI}.
Context (garbage : PPPoEPacket) (garbage_tag : PPPoETag) (garbage_len : Z).
Context (Wg : wf_packet garbage) (Wt : wf_tag garbage_tag).

(** *** What waiting leaves alone *)

(** The fields a waiting loop may change, erased. *)
Definition erase (c : PPPoEConnection) : PPPoEConnection :=
  c_numPADOs 0 (c_cookie empty_tag (c_relayId empty_tag (c_peerEth [] (c_discoveryState 0 c)))).

Definition is_send (a : action) : bool := match a with ASend _ _ => true | _ => false end.
Definition sent (w : World) : list action := List.filter is_send (trace w).

(** Everything but those fields, the input queues, and the waits and prints of
    the trace. *)
Definition core (w : World) : World :=
  w_conn (erase (conn w)) (w_link no_link (w_selects [] (w_trace (sent w) w))).

Definition inv (w : World) : Prop := wf_world w /\ good_link USE_BPF (link w).

Lemma core_sent w w' : core w' = core w -> sent w' = sent w.
Proof. intros E. by apply (f_equal trace) in E. Qed.

Lemma core_emit a w : is_send a = false -> core (w_trace (trace w ++ [a]) w) = core w.
Proof.
  intros E. unfold core, sent. cbn [trace w_trace conn w_conn link w_link].
  rewrite List.filter_app. simpl. rewrite E, app_nil_r. done.
Qed.

Definition measure (w : World) : nat := length (selects w) + link_budget (link w).

Lemma drop_intr_length l : (length (drop_intr l) <= length l)%nat.
Proof. induction l as [|[] l IH]; simpl; lia. Qed.

Lemma wp_wait_readable timeout (w : World) (Q : select_result -> World -> Prop) E :
  inv w ->
  (forall r w', inv w' -> core w' = core w -> conn w' = conn w -> r <> SelIntr ->
     link w' = link w -> (measure w' <= measure w)%nat ->
     (buffer_is_empty USE_BPF (link w') = true -> (measure w' < measure w)%nat) -> Q r w') ->
  wp (wait_readable USE_BPF timeout) Q E w.
Proof.
  intros [W G] HQ. unfold wait_readable. apply wp_get_bind. unfold BPF_BUFFER_IS_EMPTY.
  destruct (buffer_is_empty USE_BPF (link w)) eqn:Eb.
  - unfold do_select, emit. apply wp_modify_bind. unfold wp. cbn [selects w_trace].
    pose proof (drop_intr_length (selects w)) as Hd.
    destruct (drop_intr (selects w)) as [|r rs] eqn:Ed; [done|].
    assert (Hr : r <> SelIntr).
    { clear -Ed. intros ->. induction (selects w) as [|[] l IH]; simplify_eq/=; auto. }
    apply HQ; try done.
    + split; [|done]. destruct W. by split.
    + unfold core, sent. cbn. rewrite List.filter_app. simpl. by rewrite app_nil_r.
    + unfold measure. simpl in Hd |- *. lia.
    + intros _. unfold measure. simpl in Hd |- *. lia.
  - apply wp_ret. apply HQ; try done. congruence.
Qed.

Lemma wp_receive pkt len w (Q : received -> World -> Prop) E :
  wf_packet pkt -> inv w ->
  (forall r pkt' len' w', wf_packet pkt' -> inv w' -> core w' = core w -> conn w' = conn w ->
     (measure w' <= measure w)%nat ->
     (buffer_is_empty USE_BPF (link w) = false -> (measure w' < measure w)%nat) ->
     Q (r, pkt', len') w') ->
  wp (receive USE_BPF pkt len) Q E w.
Proof.
  intros Wp [W G] HQ. unfold receive, on_link, wp.
  pose proof (receive_good USE_BPF pkt len (link w) Wp G) as H.
  destruct (receivePacket USE_BPF pkt len (link w)) as [[[r pkt'] len'] l'| |[]]; simpl in H; try done.
  destruct H as (H1 & H2 & H3 & H4 & _). apply HQ; try done.
  - split; [|done]. destruct W. by split.
  - unfold measure. simpl. lia.
  - intros Hb. specialize (H4 Hb). unfold measure. simpl. lia.
Qed.

(** *** Host-Uniq *)

Lemma le32_un_le32 d : bytes d -> zlen d = 4 -> le32 (un_le32 d) = d.
Proof.
  intros Hb Hz. destruct d as [|a [|b [|c [|e [|]]]]]; rewrite ?zlen_cons, ?zlen_nil in Hz;
    try (pose proof (zlen_nonneg l)); try lia.
  unfold bytes in Hb. rewrite !Forall_cons in Hb. destruct Hb as (Ha & Hb & Hc & He & _).
  unfold is_byte in *. unfold le32, un_le32, u8.
  rewrite !Z.shiftl_mul_pow2, !Z.shiftr_div_pow2 by lia.
  change (2 ^ 8) with 256. change (2 ^ 16) with 65536. change (2 ^ 24) with 16777216.
  repeat f_equal; zlia.
Qed.

Lemma s32_pid d pid : bytes d -> zlen d = 4 -> 0 <= pid < 2 ^ 31 ->
  s32 (un_le32 d) = pid <-> d = le32 pid.
Proof.
  intros Hb Hz Hp. split.
  - intros E. rewrite <- (le32_un_le32 d Hb Hz). f_equal. rewrite <- E. unfold s32.
    assert (0 <= un_le32 d < 2 ^ 32).
    { clear -Hb Hz. destruct d as [|a [|b [|c [|e [|]]]]]; try done.
      unfold bytes in Hb. rewrite !Forall_cons in Hb. unfold is_byte in Hb. unfold un_le32.
      rewrite !Z.shiftl_mul_pow2 by lia. change (2 ^ 8) with 256. change (2 ^ 16) with 65536.
      change (2 ^ 24) with 16777216. lia. }
    rewrite u32_small by lia. case_decide as D; [done|]. unfold s32 in E.
    rewrite u32_small, decide_False in E by lia. lia.
  - intros ->. rewrite un_le32_le32 by lia. unfold s32. rewrite u32_small, decide_True by lia. done.
Qed.

(** The packet is addressed to this process. *)
Definition for_me (w : World) (p : PPPoEPacket) : Prop :=
  useHostUniq (conn w) = true -> (TAG_HOST_UNIQ, le32 (getpid w)) ∈ (packet_tags p).1.

Lemma wp_packetIsForMe p w (Q : bool -> World -> Prop) E :
  wf_packet p -> 0 <= getpid w < 2 ^ 31 ->
  (forall b, (b = true <-> for_me w p) -> Q b w) ->
  wp (packetIsForMe p) Q E w.
Proof.
  intros W Hp HQ. unfold packetIsForMe. apply wp_get_bind.
  destruct (useHostUniq (conn w)) eqn:U; simpl.
  2: { apply wp_ret, HQ. unfold for_me. rewrite U. done. }
  apply wp_bind, wp_run_local.
  eapply wp_mono; [apply (wp_parsePacket p (parseForHostUniq (getpid w))
    (fun pre v => (v = 0 \/ v = 1) /\ (v = 1 <-> (TAG_HOST_UNIQ, le32 (getpid w)) ∈ pre))
    (fun _ _ => False) 0 W)| |].
  - split; [by left|]. rewrite elem_of_nil. split; [lia|done].
  - intros pre t v Hin [H1 H2]. destruct (packet_tags_bound p t W Hin) as [(Ht & Hl & Hb) _].
    destruct t as [ty d]. simpl in *.
    assert (Hiff : (TAG_HOST_UNIQ, le32 (getpid w)) ∈ pre ++ [(ty, d)] <->
              (TAG_HOST_UNIQ, le32 (getpid w)) ∈ pre \/ ty = TAG_HOST_UNIQ /\ d = le32 (getpid w)).
    { rewrite elem_of_app, list_elem_of_singleton. naive_solver. }
    unfold parseForHostUniq. case_decide as D.
    + destruct D as [-> Hz]. pose proof (s32_pid d (getpid w) Hb Hz Hp) as Hs. case_decide as D2.
      * apply wp_modify. split; [by right|]. rewrite Hiff. naive_solver.
      * apply wp_ret. split; [done|]. rewrite Hiff. naive_solver.
    + apply wp_ret. split; [done|]. rewrite Hiff, H2. split; [by left|].
      intros [?|[-> ->]]; [done|]. exfalso. apply D. by split.
  - intros [] v [H1 H2]; apply wp_ret, HQ; unfold for_me; rewrite negb_true_iff, Z.eqb_neq;
      destruct H1 as [->| ->]; naive_solver.
  - done.
Qed.

(** *** The tags of a PADO *)

Definition matched (type : Z) (name : option (list Z)) (ts : list tag) : bool :=
  existsb (fun t => (t.1 =? type) && name_matches name t.2) ts.

Definition criteria_after (c : PPPoEConnection) (ts : list tag) (pc : PacketCriteria) :
    PacketCriteria :=
  mkCriteria (acNameOK pc || matched TAG_AC_NAME (acName c) ts)
             (serviceNameOK pc || matched TAG_SERVICE_NAME (serviceName c) ts).

Lemma matched_snoc type name ts t :
  matched type name (ts ++ [t]) = matched type name ts || (t.1 =? type) && name_matches name t.2.
Proof. unfold matched. rewrite existsb_app. simpl. by rewrite orb_false_r. Qed.

(** [core] determines the settings. *)
Lemma core_conn {A} (f : PPPoEConnection -> A) w w' :
  (forall c, f (erase c) = f c) -> core w' = core w -> f (conn w') = f (conn w).
Proof.
  intros Hf E. apply (f_equal conn) in E. change (erase (conn w') = erase (conn w)) in E.
  rewrite <- (Hf (conn w')), <- (Hf (conn w)). by rewrite E.
Qed.

Lemma core_globals w w' : core w' = core w ->
  Eth_PPPOE_Discovery w' = Eth_PPPOE_Discovery w /\ getpid w' = getpid w /\ writes w' = writes w.
Proof.
  intros E. split_and!;
    [apply (f_equal Eth_PPPOE_Discovery) in E|apply (f_equal getpid) in E|apply (f_equal writes) in E];
    exact E.
Qed.

(** The state while the tags of a PADO are walked. *)
Record pado_inv (w0 : World) (pc0 : PacketCriteria) (pre : list tag) (s : PadoState) : Prop := {
  pi_inv : inv s.1;
  pi_core : core s.1 = core w0;
  pi_state : discoveryState (conn s.1) = discoveryState (conn w0);
  pi_measure : measure s.1 = measure w0;
  pi_criteria : s.2 = criteria_after (conn w0) pre pc0
}.

Definition quiet_exit (w0 : World) (code : Z) (w : World) : Prop :=
  code = 1 /\ sent w = sent w0.

(** Assigning the cookie or the relay id. *)
Lemma inv_stored w t f :
  (f = c_cookie \/ f = c_relayId) -> inv w -> stored_ok t -> inv (w_conn (f t (conn w)) w).
Proof.
  intros Hf [[[] ? ?] G] Ht. destruct Hf as [->| ->]; (split; [split; [split|..]|]; simpl; try done).
Qed.

Lemma pado_inv_show w0 pc0 pre type data s (Q : unit -> PadoState -> Prop) E :
  pado_inv w0 pc0 pre s ->
  (forall s', pado_inv w0 pc0 pre s' -> conn s'.1 = conn s.1 -> Q tt s') ->
  wp (show type data) Q E s.
Proof.
  intros [Hi Hc Hs Hm Hp] HQ. destruct s as [w pc]. simpl in *. unfold show.
  apply wp_modify. destruct (printACNames (conn w)); apply HQ; try done; split; try done.
  - destruct Hi as [[] G]. by split.
  - simpl. by rewrite core_emit.
Qed.

Lemma pado_inv_same w0 pc0 pre t s :
  pado_inv w0 pc0 pre s -> t.1 <> TAG_AC_NAME -> t.1 <> TAG_SERVICE_NAME ->
  pado_inv w0 pc0 (pre ++ [t]) s.
Proof.
  intros [] H1 H2. split; try done. rewrite pi_criteria0. unfold criteria_after.
  rewrite !matched_snoc. apply Z.eqb_neq in H1, H2. by rewrite H1, H2, !orb_false_r.
Qed.

Lemma pado_error_spec w0 pc0 pre t s :
  pado_inv w0 pc0 pre s -> t.1 <> TAG_AC_NAME -> t.1 <> TAG_SERVICE_NAME ->
  wp (pado_error t.1 t.2) (fun _ s' => pado_inv w0 pc0 (pre ++ [t]) s')
    (fun c s' => quiet_exit w0 c s'.1) s.
Proof.
  intros I H1 H2. unfold pado_error. apply wp_get_bind. destruct (printACNames (conn s.1)).
  - eapply pado_inv_show; [done|]. intros s' I' _. by apply pado_inv_same.
  - apply wp_exit. split; [done|]. apply core_sent, I.
Qed.

Lemma parsePADOTags_spec w0 pc0 pre t s :
  pado_inv w0 pc0 pre s -> wf_tagv t -> 4 + zlen t.2 <= MAX_PPPOE_PAYLOAD ->
  wp (parsePADOTags t.1 (zlen t.2) t.2) (fun _ s' => pado_inv w0 pc0 (pre ++ [t]) s')
    (fun c s' => quiet_exit w0 c s'.1) s.
Proof.
  intros I (Ht & Hz & Hb) Hl. unfold parsePADOTags. apply wp_get_bind.
  pose proof (core_conn acName w0 s.1 (fun _ => eq_refl) (pi_core _ _ _ _ I)) as Ea.
  pose proof (core_conn serviceName w0 s.1 (fun _ => eq_refl) (pi_core _ _ _ _ I)) as Es.
  case_decide as D1; [|case_decide as D2; [|case_decide as D3; [|case_decide as D4]]].
  - apply wp_bind. eapply pado_inv_show; [done|]. intros s' I' Ec. rewrite Ea.
    assert (Hc : pado_inv w0 pc0 (pre ++ [t])
      (s'.1, mkCriteria (acNameOK s'.2 || name_matches (acName (conn w0)) t.2) (serviceNameOK s'.2))).
    { destruct I'. split; try done. simpl. rewrite pi_criteria0. unfold criteria_after. simpl.
      rewrite !matched_snoc, D1, Z.eqb_refl. simpl. by rewrite !orb_false_r, orb_assoc. }
    destruct s' as [w pc]. simpl in Hc. destruct (name_matches (acName (conn w0)) t.2).
    + apply wp_modify. rewrite orb_true_r in Hc. exact Hc.
    + apply wp_ret. rewrite orb_false_r in Hc. by destruct pc.
  - apply wp_bind.
    assert (Hshow : forall (Q : unit -> PadoState -> Prop) E, (forall s', pado_inv w0 pc0 pre s' -> Q tt s') ->
      wp (if 0 <? zlen t.2 then show t.1 t.2 else ret tt) Q E s).
    { intros Q E HQ. destruct (0 <? zlen t.2); [eapply pado_inv_show; eauto|apply wp_ret; auto]. }
    apply Hshow. intros s' I'. rewrite Es.
    assert (Hc : pado_inv w0 pc0 (pre ++ [t])
      (s'.1, mkCriteria (acNameOK s'.2) (serviceNameOK s'.2 || name_matches (serviceName (conn w0)) t.2))).
    { destruct I'. split; try done. simpl. rewrite pi_criteria0. unfold criteria_after. simpl.
      rewrite !matched_snoc, D2, Z.eqb_refl. simpl. by rewrite !orb_false_r, orb_assoc. }
    destruct s' as [w pc]. simpl in Hc. destruct (name_matches (serviceName (conn w0)) t.2).
    + apply wp_modify. rewrite orb_true_r in Hc. exact Hc.
    + apply wp_ret. rewrite orb_false_r in Hc. by destruct pc.
  - apply wp_bind. eapply pado_inv_show; [done|]. intros s' I' Ec. rewrite <- Ec.
    destruct (fill_stored (cookie (conn s'.1)) t.1 t.2) as (tg & E & Ok); try done.
    { destruct (pi_inv _ _ _ _ I') as [[Wc _ _] _]. apply (wf_cookie _ Wc). }
    eapply wp_opt_bind; [exact E|]. apply wp_modify. apply pado_inv_same; [|by rewrite D3..].
    destruct s' as [w pc], I'. split; try done. by apply (inv_stored w tg c_cookie); [left|..].
  - apply wp_bind. eapply pado_inv_show; [done|]. intros s' I' Ec. rewrite <- Ec.
    destruct (fill_stored (relayId (conn s'.1)) t.1 t.2) as (tg & E & Ok); try done.
    { destruct (pi_inv _ _ _ _ I') as [[Wc _ _] _]. apply (wf_relayId _ Wc). }
    eapply wp_opt_bind; [exact E|]. apply wp_modify. apply pado_inv_same; [|by rewrite D4..].
    destruct s' as [w pc], I'. split; try done. by apply (inv_stored w tg c_relayId); [right|..].
  - repeat (case_decide; [by apply pado_error_spec|]). apply wp_ret. by apply pado_inv_same.
Qed.

(** *** Waiting for a PADO *)

(** A PADO the loop takes into account. *)
Record pado_for (w : World) (p : PPPoEPacket) : Prop := {
  pf_wf : wf_packet p;
  pf_code : p_code p = CODE_PADO;
  pf_unicast : NOT_UNICAST (h_source p) = false;
  pf_mine : for_me w p;
  pf_type : USE_BPF = true -> etherType p = Eth_PPPOE_Discovery w
}.

Definition seen (ps : list PPPoEPacket) : list tag := concat (map (fun p => (packet_tags p).1) ps).
Definition no_criteria (c : PPPoEConnection) : PacketCriteria :=
  mkCriteria (negb (bool_decide (is_Some (acName c)))) (negb (bool_decide (is_Some (serviceName c)))).

(** The PADO accepted after [ps] were looked at: the names asked for occurred
    in it or in one of [ps]. *)
Record accepted (w : World) (ps : list PPPoEPacket) (p : PPPoEPacket) : Prop := {
  acc_pados : Forall (pado_for w) (ps ++ [p]);
  acc_ac : forall n, acName (conn w) = Some n -> (TAG_AC_NAME, n) ∈ seen (ps ++ [p]);
  acc_service : forall n, serviceName (conn w) = Some n -> (TAG_SERVICE_NAME, n) ∈ seen (ps ++ [p])
}.

Definition pado_post (w0 w : World) : Prop :=
  inv w /\ core w = core w0 /\
  (discoveryState (conn w) = discoveryState (conn w0) \/
   discoveryState (conn w) = STATE_RECEIVED_PADO /\ printACNames (conn w0) = false /\
   exists ps p, accepted w0 ps p /\ peerEth (conn w) = h_source p).

Lemma criteria_after_app c ts us pc :
  criteria_after c us (criteria_after c ts pc) = criteria_after c (ts ++ us) pc.
Proof. unfold criteria_after, matched. simpl. by rewrite !existsb_app, !orb_assoc. Qed.

Lemma seen_snoc ps p : seen (ps ++ [p]) = seen ps ++ (packet_tags p).1.
Proof. unfold seen. rewrite map_app, concat_app. simpl. by rewrite app_nil_r. Qed.

Lemma matched_elem type n ts :
  matched type (Some n) ts = true -> (type, n) ∈ ts.
Proof.
  unfold matched. rewrite existsb_exists. intros ([ty d] & Hin & H). simpl in H.
  apply andb_prop in H as [H1%Z.eqb_eq H2%bool_decide_eq_true]. subst.
  by apply list_elem_of_In.
Qed.

Lemma criteria_accepted w ps p pc :
  Forall (pado_for w) ps -> pado_for w p ->
  pc = criteria_after (conn w) (seen (ps ++ [p])) (no_criteria (conn w)) ->
  acNameOK pc && serviceNameOK pc = true -> accepted w ps p.
Proof.
  intros Hps Hp -> [Ha Hs]%andb_prop. simpl in Ha, Hs. split.
  - apply Forall_app. auto.
  - intros n E. rewrite E in Ha. rewrite bool_decide_eq_true_2 in Ha by eauto. by apply matched_elem.
  - intros n E. rewrite E in Hs. rewrite bool_decide_eq_true_2 in Hs by eauto. by apply matched_elem.
Qed.

Lemma for_me_core w w' p : core w' = core w -> for_me w' p <-> for_me w p.
Proof.
  intros E. unfold for_me. rewrite (core_conn useHostUniq w w' (fun _ => eq_refl) E).
  by destruct (core_globals w w' E) as (_ & -> & _).
Qed.

Lemma fatalSys_quiet {A} w w0 (Q : A -> World -> Prop) :
  inv w -> core w = core w0 -> session (conn w0) = 0 ->
  wp (fatalSys garbage garbage_tag) Q (quiet_exit w0) w.
Proof.
  intros [W G] Hc Hs. eapply wp_Exit.
  - apply fatalSys_with_no_session; [done|done|done|].
    by rewrite (core_conn session w0 w (fun _ => eq_refl) Hc).
  - split; [done|]. by apply core_sent.
Qed.

Lemma inv_conn f w : inv w -> wf_conn (f (conn w)) -> inv (w_conn (f (conn w)) w).
Proof. intros [[] G] Wc. by split. Qed.

Definition pid_ok (w : World) : Prop := 0 <= getpid w < 2 ^ 31.

(** The tags of one accepted PADO, from the loop's point of view. *)
Lemma parse_pado_spec p w w0 pc ps (Q : Z * PacketCriteria -> World -> Prop) :
  pado_for w0 p -> inv w -> core w = core w0 ->
  pc = criteria_after (conn w0) (seen ps) (no_criteria (conn w0)) ->
  (forall r w', inv w' -> core w' = core w0 ->
     discoveryState (conn w') = discoveryState (conn w) -> measure w' = measure w ->
     Q (r, criteria_after (conn w0) (seen (ps ++ [p])) (no_criteria (conn w0))) w') ->
  wp (run_with (parsePacket p parsePADOTags) pc) Q (quiet_exit w0) w.
Proof.
  intros Hp Hi Hc Hpc HQ. apply wp_run_with.
  eapply wp_mono; [apply (wp_parsePacket p parsePADOTags (pado_inv w pc)
    (fun c s => quiet_exit w c s.1)); [apply Hp| |]| |].
  - split; try done. simpl. unfold criteria_after. destruct pc. simpl. by rewrite !orb_false_r.
  - intros pre t s Hin I. destruct (packet_tags_bound p t (pf_wf _ _ Hp) Hin).
    by apply parsePADOTags_spec.
  - intros r [w' pc'] [? ? ? ? Ep]. simpl in *.
    assert (E : pc' = criteria_after (conn w0) (seen (ps ++ [p])) (no_criteria (conn w0))).
    { rewrite Ep, Hpc, seen_snoc, <- criteria_after_app. unfold criteria_after.
      by rewrite (core_conn acName w0 w (fun _ => eq_refl) Hc),
        (core_conn serviceName w0 w (fun _ => eq_refl) Hc). }
    rewrite E. apply HQ; congruence.
  - intros c [w' pc'] [-> E]. split; [done|]. simpl in *. by rewrite E, (core_sent w0 w).
Qed.

Lemma waitForPADO_loop_spec w0 timeout fuel : forall pkt len pc ps w,
  wf_packet pkt -> inv w -> core w = core w0 -> pid_ok w0 -> session (conn w0) = 0 ->
  discoveryState (conn w0) <> STATE_RECEIVED_PADO ->
  discoveryState (conn w) = discoveryState (conn w0) ->
  Forall (pado_for w0) ps ->
  pc = criteria_after (conn w0) (seen ps) (no_criteria (conn w0)) ->
  (measure w < fuel)%nat ->
  wp (waitForPADO_loop USE_BPF garbage garbage_tag fuel timeout pkt len pc)
    (fun _ => pado_post w0) (quiet_exit w0) w.
Proof.
  induction fuel as [|fuel IH]; intros pkt len pc ps w Wp Hi Hc Hpid Hses Hne Hst Hps Hpc Hm; [lia|].
  cbn [waitForPADO_loop].
  match goal with |- wp (bind _ (fun r => match r with _ => _ end)) ?Q ?E _ =>
    assert (Again : forall pkt len pc ps w', wf_packet pkt -> inv w' -> core w' = core w0 ->
      discoveryState (conn w') = discoveryState (conn w0) -> Forall (pado_for w0) ps ->
      pc = criteria_after (conn w0) (seen ps) (no_criteria (conn w0)) ->
      (measure w' < fuel)%nat ->
      wp (let! w := get in
          if decide (discoveryState (conn w) = STATE_RECEIVED_PADO) then ret tt
          else waitForPADO_loop USE_BPF garbage garbage_tag fuel timeout pkt len pc) Q E w') end.
  { intros pkt' len' pc' ps' w' ????? ->?. apply wp_get_bind. rewrite decide_False by congruence.
    by eapply IH. }
  apply wp_bind, wp_wait_readable; [done|]. intros r w1 Hi1 Hc1 Hconn1 Hr Hl1 Hm1 Hm1'.
  destruct r; [done|by apply fatalSys_quiet; [|congruence|]|apply wp_ret; split_and!; [done|congruence|left; congruence]|].
  apply wp_bind, wp_receive; [done|done|]. intros r pkt2 len2 w2 Wp2 Hi2 Hc2 Hconn2 Hm2 Hm2'.
  assert (Hlt : (measure w2 < fuel)%nat).
  { rewrite Hl1 in *. destruct (buffer_is_empty USE_BPF (link w)); [specialize (Hm1' eq_refl)|specialize (Hm2' eq_refl)]; lia. }
  assert (Hc2' : core w2 = core w0) by congruence.
  assert (Hst2 : discoveryState (conn w2) = discoveryState (conn w0)) by congruence.
  destruct (bogus_length pkt2 len2); [by eapply Again|].
  apply wp_get_bind. destruct (core_globals w0 w2 Hc2') as (Ed & Ep & _).
  destruct (USE_BPF && negb (etherType pkt2 =? Eth_PPPOE_Discovery w2)) eqn:Et; [by eapply Again|].
  apply wp_bind, wp_packetIsForMe; [done|unfold pid_ok in *; by rewrite Ep|].
  intros b Hb. destruct b; [|by eapply Again]. simpl.
  case_decide as Dc; [|by eapply Again].
  destruct (NOT_UNICAST (h_source pkt2)) eqn:Eu; [by eapply Again|].
  assert (Hpf : pado_for w0 pkt2).
  { split; try done.
    - apply (for_me_core w0 w2); [done|]. by apply Hb.
    - intros ->. simpl in Et. apply negb_false_iff, Z.eqb_eq in Et. congruence. }
  unfold upd. apply wp_modify_bind. apply wp_bind.
  apply (parse_pado_spec pkt2 _ w0 pc ps); try done.
  { apply (inv_conn (fun c => c_numPADOs (numPADOs c + 1) c)); [done|].
    destruct Hi2 as [[[] ? ?] _]. by split. }
  intros r' w3 Hi3 Hc3 Hst3 Hm3. cbn iota beta.
  match goal with |- wp (if ?b then _ else _) _ _ _ => destruct b eqn:Eacc end.
  2: { eapply (Again _ _ _ (ps ++ [pkt2])); try done; [by rewrite Hst3|apply Forall_app; auto|].
       change (measure (w_conn _ w2)) with (measure w2) in Hm3. lia. }
  unfold upd. apply wp_modify_bind, wp_get_bind.
  set (w4 := w_conn (c_peerEth (h_source pkt2) (conn w3)) w3).
  assert (Hi4 : inv w4).
  { apply (inv_conn (c_peerEth (h_source pkt2))); [done|]. destruct Hi3 as [[[] ? ?] _]. split; simpl; try done.
    - apply Wp2.
    - apply Wp2. }
  destruct (printACNames (conn w4)) eqn:Epr.
  - unfold emit. apply wp_modify_bind. eapply (Again _ _ _ (ps ++ [pkt2])); try done.
    + destruct Hi4 as [[] G]. by split.
    + rewrite core_emit by done. done.
    + change (discoveryState (conn w3) = discoveryState (conn w0)). rewrite Hst3. exact Hst2.
    + apply Forall_app. auto.
    + change (measure w3 < fuel)%nat. rewrite Hm3. exact Hlt.
  - apply wp_modify. split_and!.
    + apply (inv_conn (c_discoveryState STATE_RECEIVED_PADO)); [done|].
      destruct Hi4 as [[[] ? ?] _]. by split.
    + done.
    + right. split_and!; [done| |].
      * rewrite <- Epr. symmetry. apply (core_conn printACNames w0 w4 (fun _ => eq_refl)). done.
      * exists ps, pkt2. split; [|done]. by eapply criteria_accepted.
Qed.

Lemma waitForPADO_spec timeout w :
  inv w -> pid_ok w -> session (conn w) = 0 -> discoveryState (conn w) <> STATE_RECEIVED_PADO ->
  wp (waitForPADO USE_BPF garbage garbage_tag garbage_len timeout) (fun _ => pado_post w) (quiet_exit w) w.
Proof.
  intros Hi Hp Hs Hd. unfold waitForPADO. apply wp_get_bind.
  apply (waitForPADO_loop_spec w timeout _ garbage garbage_len _ []); try done.
  - unfold criteria_after, no_criteria. simpl. by rewrite !orb_false_r.
  - unfold wait_fuel, measure. lia.
Qed.

(** *** Waiting for a PADS *)

Record pads_for (w : World) (p : PPPoEPacket) : Prop := {
  sf_wf : wf_packet p;
  sf_code : p_code p = CODE_PADS;
  sf_source : h_source p = peerEth (conn w);
  sf_mine : for_me w p;
  sf_type : USE_BPF = true -> etherType p = Eth_PPPOE_Discovery w
}.

(** Nothing but the relay id and the state may have changed. *)
Definition pads_post (w0 : World) (r : option PPPoEPacket) (w : World) : Prop :=
  inv w /\ core w = core w0 /\ peerEth (conn w) = peerEth (conn w0) /\
  match r with
  | None => conn w = conn w0
  | Some p => discoveryState (conn w) = STATE_SESSION /\ pads_for w0 p
  end.

Lemma parsePADSTags_spec w0 t w :
  inv w -> core w = core w0 -> peerEth (conn w) = peerEth (conn w0) ->
  wf_tagv t -> 4 + zlen t.2 <= MAX_PPPOE_PAYLOAD ->
  wp (parsePADSTags t.1 (zlen t.2) t.2)
    (fun _ w' => inv w' /\ core w' = core w0 /\ peerEth (conn w') = peerEth (conn w0))
    (quiet_exit w0) w.
Proof.
  intros Hi Hc Hp (Ht & Hz & Hb) Hl. unfold parsePADSTags. apply wp_get_bind.
  assert (Q : quiet_exit w0 1 w) by (split; [done|by apply core_sent]).
  case_decide; [by apply wp_ret|]. do 3 (case_decide; [by apply wp_exit|]).
  case_decide; [|by apply wp_ret].
  destruct (fill_stored (relayId (conn w)) t.1 t.2) as (tg & E & Ok); try done.
  { destruct Hi as [[Wc _ _] _]. apply (wf_relayId _ Wc). }
  eapply wp_opt_bind; [exact E|]. apply wp_modify. split_and!; try done.
  by apply (inv_stored w tg c_relayId); [right|..].
Qed.

Lemma waitForPADS_loop_spec w0 timeout fuel : forall pkt len w,
  wf_packet pkt -> inv w -> core w = core w0 -> pid_ok w0 -> session (conn w0) = 0 ->
  discoveryState (conn w0) <> STATE_SESSION -> conn w = conn w0 -> (measure w < fuel)%nat ->
  wp (waitForPADS_loop USE_BPF garbage garbage_tag fuel timeout pkt len)
    (pads_post w0) (quiet_exit w0) w.
Proof.
  induction fuel as [|fuel IH]; intros pkt len w Wp Hi Hc Hpid Hses Hne Hcn Hm; [lia|].
  cbn [waitForPADS_loop].
  match goal with |- wp (bind _ (fun r => match r with _ => _ end)) ?Q ?E _ =>
    assert (Again : forall pkt len w', wf_packet pkt -> inv w' -> core w' = core w0 ->
      conn w' = conn w0 -> (measure w' < fuel)%nat ->
      wp (let! w := get in
          if decide (discoveryState (conn w) = STATE_SESSION) then ret (Some pkt)
          else waitForPADS_loop USE_BPF garbage garbage_tag fuel timeout pkt len) Q E w') end.
  { intros. apply wp_get_bind. rewrite decide_False by congruence. by eapply IH. }
  apply wp_bind, wp_wait_readable; [done|]. intros r w1 Hi1 Hc1 Hconn1 Hr Hl1 Hm1 Hm1'.
  destruct r; [done|by apply fatalSys_quiet; [|congruence|]|
    apply wp_ret; split_and!; [done|congruence|congruence|congruence]|].
  apply wp_bind, wp_receive; [done|done|]. intros r pkt2 len2 w2 Wp2 Hi2 Hc2 Hconn2 Hm2 Hm2'.
  assert (Hlt : (measure w2 < fuel)%nat).
  { rewrite Hl1 in *. destruct (buffer_is_empty USE_BPF (link w)); [specialize (Hm1' eq_refl)|specialize (Hm2' eq_refl)]; lia. }
  assert (Hc2' : core w2 = core w0) by congruence.
  assert (Hcn2 : conn w2 = conn w0) by congruence.
  destruct (bogus_length pkt2 len2); [by eapply Again|].
  apply wp_get_bind. destruct (core_globals w0 w2 Hc2') as (Ed & Ep & _).
  destruct (USE_BPF && negb (etherType pkt2 =? Eth_PPPOE_Discovery w2)) eqn:Et; [by eapply Again|].
  destruct (mac_eqb (h_source pkt2) (peerEth (conn w2))) eqn:Em; simpl; [|by eapply Again].
  apply mac_eqb_eq in Em.
  apply wp_bind, wp_packetIsForMe; [done|unfold pid_ok in *; by rewrite Ep|].
  intros b Hb. destruct b; simpl; [|by eapply Again].
  case_decide as Dc; [|by eapply Again].
  apply wp_bind. eapply wp_mono; [apply (wp_parsePacket pkt2 parsePADSTags
    (fun _ w' => inv w' /\ core w' = core w0 /\ peerEth (conn w') = peerEth (conn w0))
    (quiet_exit w0)); [done|split_and!; congruence|]| |done].
  - intros pre t w' Hin (?&?&?). destruct (packet_tags_bound pkt2 t Wp2 Hin).
    by apply parsePADSTags_spec.
  - intros r' w3 (Hi3 & Hc3 & Hp3). unfold upd. apply wp_modify_bind, wp_ret. split_and!.
    + apply (inv_conn (c_discoveryState STATE_SESSION)); [done|]. destruct Hi3 as [[[] ? ?] _]. by split.
    + done.
    + done.
    + done.
    + split; [done|done|congruence| |].
      * apply (for_me_core w0 w2); [done|]. by apply Hb.
      * intros ->. simpl in Et. apply negb_false_iff, Z.eqb_eq in Et. congruence.
Qed.

End Waiting.
