(* ===== verification/Phases.v ===== *)
(** * Phases: the PADI and PADR phases and [discovery] as a whole *)

From stdpp Require Import base list numbers strings.
From S2P Require Import Prelude Wire Tags Build Link Client Discovery Waiting.
Open Scope Z_scope.

Section Phases.
Context (USE_BPF : bool) `{ABI : BpfAbi} `{OK : !BpfAbiOk ABI}.
Context (garbage : PPPoEPacket) (garbage_tag : PPPoETag) (garbage_len : Z).
Context (Wg : wf_packet garbage) (Wt : wf_tag garbage_tag).

Local Abbreviation inv := (inv USE_BPF).
Local Abbreviation accepted := (accepted USE_BPF).
Local Abbreviation pads_for := (pads_for USE_BPF).

(** *** The two phases *)

(** What a phase leaves alone: [core] without the frames sent and the write
    results consumed. *)
Definition base (w : World) : World := w_trace [] (w_writes [] (core w)).

Lemma core_base w w' : core w' = core w -> base w' = base w.
Proof. unfold base. by intros ->. Qed.

Lemma base_conn {A} (f : PPPoEConnection -> A) w w' :
  (forall c, f (erase c) = f c) -> base w' = base w -> f (conn w') = f (conn w).
Proof.
  intros Hf E. apply (f_equal conn) in E. change (erase (conn w') = erase (conn w)) in E.
  rewrite <- (Hf (conn w')), <- (Hf (conn w)). by rewrite E.
Qed.

Lemma base_globals w w' : base w' = base w ->
  Eth_PPPOE_Discovery w' = Eth_PPPOE_Discovery w /\ getpid w' = getpid w.
Proof.
  intros E. split; [apply (f_equal Eth_PPPOE_Discovery) in E|apply (f_equal getpid) in E]; exact E.
Qed.

Lemma padi_frame_base w w' : base w' = base w -> padi_frame w' = padi_frame w /\ padi_tags w' = padi_tags w.
Proof.
  intros E. destruct (base_globals w w' E) as [Ed Ep].
  assert (Et : padi_tags w' = padi_tags w).
  { unfold padi_tags, service_tag, host_uniq_tags.
    by rewrite (base_conn serviceName w w' (fun _ => eq_refl) E),
      (base_conn useHostUniq w w' (fun _ => eq_refl) E), Ep. }
  split; [|done]. unfold padi_frame.
  by rewrite Et, Ed, (base_conn discoverySocket w w' (fun _ => eq_refl) E),
    (base_conn myEth w w' (fun _ => eq_refl) E).
Qed.

Lemma accepted_base w w' ps p : base w' = base w -> accepted w' ps p -> accepted w ps p.
Proof.
  intros E [Hp Ha Hs]. destruct (base_globals w w' E) as [Ed Ep].
  rewrite (base_conn acName w w' (fun _ => eq_refl) E) in Ha.
  rewrite (base_conn serviceName w w' (fun _ => eq_refl) E) in Hs.
  split; [|done|done]. eapply Forall_impl; [exact Hp|]. intros q [Q1 Q2 Q3 Q4 Q5].
  split; try done; [|by rewrite <- Ed]. unfold for_me in *.
  by rewrite <- (base_conn useHostUniq w w' (fun _ => eq_refl) E), <- Ep.
Qed.

(** A frame was sent or not, or the write failed; then what it means for the
    world. *)
Lemma do_write_sent a w w' : is_send a = true -> do_write a w = Ok true w' ->
  base w' = base w /\ conn w' = conn w /\ link w' = link w /\ sent w' = sent w ++ [a] /\
  (inv w -> inv w').
Proof.
  intros Ha. unfold do_write, sent. destruct (writes w) as [|[] ws]; [| |done]; intros [= <-];
    simpl; rewrite List.filter_app; simpl; rewrite Ha;
    (split_and!; [done|done|done|done|intros [[] G]; by split]).
Qed.

Lemma wp_sends a fit w o (m : Cmd World unit) (Q : unit -> World -> Prop) (E : Z -> World -> Prop) :
  is_send a = true -> session (conn w) = 0 -> m w = o -> sends a fit w o ->
  (fit = false -> Q tt w) ->
  (forall w', base w' = base w -> conn w' = conn w -> (inv w -> inv w') ->
     sent w' = sent w ++ [a] -> Q tt w') ->
  (forall w', sent w' = sent w -> E 1 w') -> wp m Q E w.
Proof.
  intros Ha Hs Hm Hsend H1 H2 H3. unfold wp. rewrite Hm.
  destruct Hsend as [[F ->]|[(F & w' & Hw & ->)|(F & w' & -> & [_ Ht])]].
  - auto.
  - destruct (do_write_sent a w w' Ha Hw) as (?&?&?&?&?). auto.
  - apply H3. unfold sent. destruct Ht as [->|[? _]]; done.
Qed.

Lemma rp_fatal_quiet {A} msg w (Q : A -> World -> Prop) (E : Z -> World -> Prop) :
  inv w -> session (conn w) = 0 -> msg_ok msg ->
  (forall w', sent w' = sent w -> E 1 w') -> wp (rp_fatal garbage garbage_tag msg) Q E w.
Proof.
  intros [W G] Hs Hm HE.
  destruct (padt_exit_cases (A := A) garbage garbage_tag Wg Wt msg 1 w W Hm) as (w' & e & [_ Ht] & He & R).
  eapply wp_Exit; [exact R|]. replace e with 1 by (destruct He; done).
  apply HE. unfold sent. destruct Ht as [->|[? _]]; done.
Qed.

Definition name_fits_int (w : World) : Prop := zlen (default [] (serviceName (conn w))) < 65532.

Definition padi_sent (w0 w : World) : Prop :=
  exists k, (k <= 3)%nat /\ sent w = sent w0 ++ replicate k (padi_frame w0).

Definition padi_post (w0 w : World) : Prop :=
  inv w /\ base w = base w0 /\ padi_sent w0 w /\
  (printACNames (conn w0) = true \/
   discoveryState (conn w) = STATE_RECEIVED_PADO /\
   exists ps p, accepted w0 ps p /\ peerEth (conn w) = h_source p).
Definition padi_exit (w0 : World) (c : Z) (w : World) : Prop := c = 1 /\ padi_sent w0 w.

Record discovering (w0 w : World) : Prop := {
  d_pid : pid_ok w0;
  d_session : session (conn w0) = 0;
  d_name : name_fits_int w0;
  d_inv : inv w;
  d_base : base w = base w0
}.

Lemma inv_state st w : inv w -> inv (w_conn (c_discoveryState st (conn w)) w).
Proof.
  intros Hi. apply (inv_conn USE_BPF (c_discoveryState st)); [done|].
  destruct Hi as [[[] ? ?] _]. by split.
Qed.

(** One turn after the PADI: wait, then look at the state. *)
Lemma padi_turn w0 w timeout k next :
  discovering w0 w -> (k <= 3)%nat -> sent w = sent w0 ++ replicate k (padi_frame w0) ->
  (forall w' t, discovering w0 w' -> sent w' = sent w0 ++ replicate k (padi_frame w0) ->
     wp (next t) (fun _ => padi_post w0) (padi_exit w0) w') ->
  wp (do! upd (c_discoveryState STATE_SENT_PADI) ;;
      do! waitForPADO USE_BPF garbage garbage_tag garbage_len timeout ;;
      let! w := get in
      if printACNames (conn w) && negb (numPADOs (conn w) =? 0) then ret tt
      else if decide (discoveryState (conn w) = STATE_SENT_PADI)
      then next (if printACNames (conn w) then timeout else timeout * 2) else ret tt)
    (fun _ => padi_post w0) (padi_exit w0) w.
Proof.
  intros [Hp Hs Hn Hi Hb] Hk Hsent Hnext. unfold upd. apply wp_modify_bind, wp_bind.
  set (w2 := w_conn (c_discoveryState STATE_SENT_PADI (conn w)) w).
  assert (Hb2 : base w2 = base w0) by done.
  assert (Hs2 : session (conn w2) = 0) by by rewrite (base_conn session w0 w2 (fun _ => eq_refl) Hb2).
  eapply wp_mono; [apply (waitForPADO_spec USE_BPF garbage garbage_tag garbage_len Wg Wt); [by apply inv_state| |done|done]| |].
  - destruct (base_globals w0 w2 Hb2) as [_ E]. unfold pid_ok in *. by rewrite E.
  - intros [] w3 (Hi3 & Hc3 & Hst). pose proof (core_sent w2 w3 Hc3) as Hsent3.
    change (sent w3 = sent w) in Hsent3. apply core_base in Hc3. rewrite Hb2 in Hc3.
    assert (Hps : padi_sent w0 w3) by (exists k; split; [lia|congruence]).
    apply wp_get_bind. destruct (printACNames (conn w3)) eqn:Ep.
    + assert (printACNames (conn w0) = true)
        by by rewrite <- (base_conn printACNames w0 w3 (fun _ => eq_refl) Hc3).
      assert (padi_post w0 w3) by (split_and!; eauto).
      simpl. destruct (numPADOs (conn w3) =? 0); simpl; [|by apply wp_ret].
      case_decide; [|by apply wp_ret]. apply Hnext; [by split|congruence].
    + simpl. destruct Hst as [Hst|(Hst & _ & ps & p & Hacc & Hpeer)].
      * change (discoveryState (conn w3) = STATE_SENT_PADI) in Hst. rewrite decide_True by done.
        apply Hnext; [by split|congruence].
      * rewrite decide_False by (rewrite Hst; done). apply wp_ret. split_and!; try done.
        right. split; [done|]. exists ps, p. split; [|done]. exact (accepted_base w0 w2 ps p Hb2 Hacc).
  - intros c w3 [-> E]. split; [done|]. exists k. split; [lia|]. rewrite E. exact Hsent.
Qed.

Lemma padi_loop_spec w0 : forall n attempts timeout k w,
  Z.of_nat n + attempts = 4 -> Z.of_nat k <= attempts -> (0 < n)%nat ->
  discovering w0 w -> sent w = sent w0 ++ replicate k (padi_frame w0) ->
  wp (padi_loop USE_BPF garbage garbage_tag garbage_len n attempts timeout)
    (fun _ => padi_post w0) (padi_exit w0) w.
Proof.
  induction n as [|n IH]; intros attempts timeout k w Hn Hk H0 Hd Hsent; [lia|].
  cbn [padi_loop]. unfold MAX_PADI_ATTEMPTS. pose proof Hd as [Hp Hs Hname Hi Hb].
  assert (Hsw : session (conn w) = 0) by by rewrite (base_conn session w0 w (fun _ => eq_refl) Hb).
  destruct (padi_frame_base w0 w Hb) as [Ef Et].
  assert (Hex : (k <= 3)%nat -> forall w', sent w' = sent w -> padi_exit w0 1 w').
  { intros ? w' E'. split; [done|]. exists k. split; [done|congruence]. }
  case_decide as D.
  { apply rp_fatal_quiet; [done|done|split; [by apply forallb_bytes|done]|]. apply Hex. lia. }
  apply wp_bind. eapply (wp_sends (padi_frame w) (fits (padi_tags w)) w); [done|done|done| | | |].
  - apply sendPADI_cases; try done; [apply Hi|].
    by rewrite (base_conn serviceName w0 w (fun _ => eq_refl) Hb).
  - intros _. eapply (padi_turn w0 w timeout k); [done|lia|done|].
    intros w' t Hd' Hsent'. apply (IH _ _ k); (done || lia).
  - intros w1 Hb1 Hc1 Hi1 Hs1.
    assert (Hs1' : sent w1 = sent w0 ++ replicate (S k) (padi_frame w0)).
    { rewrite Hs1, Hsent, <- app_assoc, Ef. f_equal. by rewrite replicate_S_end. }
    eapply (padi_turn w0 w1 timeout (S k)); [|lia|done|].
    + split; try done; [by apply Hi1|congruence].
    + intros w' t Hd' Hsent'. apply (IH _ _ (S k)); (done || lia).
  - apply Hex. lia.
Qed.

(** *** The PADR phase *)

Definition pads_done (w0 w : World) : Prop :=
  discoveryState (conn w) = STATE_SESSION /\ peerEth (conn w) = peerEth (conn w0) /\
  exists p, pads_for w0 p /\ session (conn w) = p_session p.

Lemma waitForPADS_spec timeout w :
  inv w -> pid_ok w -> session (conn w) = 0 -> discoveryState (conn w) <> STATE_SESSION ->
  wp (waitForPADS USE_BPF garbage garbage_tag garbage_len timeout)
    (fun _ w' => inv w' /\ sent w' = sent w /\
       (conn w' = conn w /\ base w' = base w \/ pads_done w w'))
    (quiet_exit w) w.
Proof.
  intros Hi Hp Hs Hd. unfold waitForPADS. apply wp_get_bind, wp_bind.
  eapply wp_mono; [apply (waitForPADS_loop_spec USE_BPF garbage garbage_tag garbage_len Wg Wt w); try done| |done].
  - unfold wait_fuel, measure. lia.
  - intros [p|] w' (Hi' & Hc & Hpe & H).
    + apply wp_modify. destruct H as [Hst Hf]. split_and!.
      * apply (inv_conn USE_BPF (c_session (p_session p))); [done|].
        destruct Hi' as [[[] ? ?] _]. split; try done. apply Hf.
      * exact (core_sent w w' Hc).
      * right. split_and!; [done|done|]. exists p. done.
    + apply wp_ret. split_and!; [done|by apply core_sent|]. left. auto using core_base.
Qed.

(** The connection except for the discovery state. *)
Definition settled (w0 w : World) : Prop :=
  c_discoveryState 0 (conn w) = c_discoveryState 0 (conn w0).

Lemma settled_conn {A} (f : PPPoEConnection -> A) w0 w :
  (forall c, f (c_discoveryState 0 c) = f c) -> settled w0 w -> f (conn w) = f (conn w0).
Proof. intros Hf E. rewrite <- (Hf (conn w)), <- (Hf (conn w0)). by rewrite E. Qed.

Lemma padr_frame_settled w0 w : base w = base w0 -> settled w0 w ->
  padr_frame w = padr_frame w0 /\ padr_tags w = padr_tags w0.
Proof.
  intros Hb Hs. destruct (base_globals w0 w Hb) as [Ed Ep].
  assert (Et : padr_tags w = padr_tags w0).
  { unfold padr_tags. rewrite Ep.
    apply (settled_conn (fun c => service_tag c :: host_uniq_tags c (getpid w0) ++ stored_tags c)); done. }
  split; [|done]. unfold padr_frame. rewrite Et, Ed.
  by rewrite (settled_conn discoverySocket w0 w (fun _ => eq_refl) Hs),
    (settled_conn peerEth w0 w (fun _ => eq_refl) Hs), (settled_conn myEth w0 w (fun _ => eq_refl) Hs).
Qed.

Lemma pads_done_settled w0 w w' :
  base w = base w0 -> settled w0 w -> pads_done w w' -> pads_done w0 w'.
Proof.
  intros Hb Hs (H1 & H2 & p & [F1 F2 F3 F4 F5] & H3). destruct (base_globals w0 w Hb) as [Ed Ep].
  rewrite (settled_conn peerEth w0 w (fun _ => eq_refl) Hs) in *.
  split_and!; [done|done|]. exists p. split; [|done]. split; try done; [|by rewrite <- Ed].
  unfold for_me in *. by rewrite <- (settled_conn useHostUniq w0 w (fun _ => eq_refl) Hs), <- Ep.
Qed.

Definition padr_sent (w0 w : World) : Prop :=
  exists k, (k <= 3)%nat /\ sent w = sent w0 ++ replicate k (padr_frame w0).
Definition padr_post (w0 w : World) : Prop := inv w /\ padr_sent w0 w /\ pads_done w0 w.
Definition padr_exit (w0 : World) (c : Z) (w : World) : Prop := c = 1 /\ padr_sent w0 w.

Lemma padr_turn w0 w timeout k next :
  discovering w0 w -> settled w0 w -> (k <= 3)%nat ->
  sent w = sent w0 ++ replicate k (padr_frame w0) ->
  (forall w', discovering w0 w' -> settled w0 w' -> sent w' = sent w0 ++ replicate k (padr_frame w0) ->
     wp next (fun _ => padr_post w0) (padr_exit w0) w') ->
  wp (do! upd (c_discoveryState STATE_SENT_PADR) ;;
      do! waitForPADS USE_BPF garbage garbage_tag garbage_len timeout ;;
      let! w := get in
      if decide (discoveryState (conn w) = STATE_SENT_PADR) then next else ret tt)
    (fun _ => padr_post w0) (padr_exit w0) w.
Proof.
  intros [Hp Hs Hn Hi Hb] Hset Hk Hsent Hnext. unfold upd. apply wp_modify_bind, wp_bind.
  set (w2 := w_conn (c_discoveryState STATE_SENT_PADR (conn w)) w).
  assert (Hb2 : base w2 = base w0) by done.
  assert (Hset2 : settled w0 w2) by done.
  assert (Hs2 : session (conn w2) = 0) by by rewrite (base_conn session w0 w2 (fun _ => eq_refl) Hb2).
  eapply wp_mono; [apply waitForPADS_spec; [by apply inv_state| |done|done]| |].
  - destruct (base_globals w0 w2 Hb2) as [_ E]. unfold pid_ok in *. by rewrite E.
  - intros [] w3 (Hi3 & Hs3 & Hst). change (sent w3 = sent w) in Hs3.
    apply wp_get_bind. destruct Hst as [[Hc3 Hb3]|Hdone].
    + rewrite decide_True by by rewrite Hc3.
      apply Hnext; [split; try done; congruence|unfold settled; rewrite Hc3; done|congruence].
    + pose proof Hdone as [Hst _]. rewrite decide_False by (rewrite Hst; done).
      apply wp_ret. split_and!; [done|exists k; split; [done|congruence]|].
      exact (pads_done_settled w0 w2 w3 Hb2 Hset2 Hdone).
  - intros c w3 [-> E]. split; [done|]. exists k. split; [done|]. rewrite E. exact Hsent.
Qed.

Lemma padr_loop_spec w0 : forall n attempts timeout k w,
  Z.of_nat n + attempts = 4 -> Z.of_nat k <= attempts -> (0 < n)%nat ->
  discovering w0 w -> settled w0 w -> sent w = sent w0 ++ replicate k (padr_frame w0) ->
  wp (padr_loop USE_BPF garbage garbage_tag garbage_len n attempts timeout)
    (fun _ => padr_post w0) (padr_exit w0) w.
Proof.
  induction n as [|n IH]; intros attempts timeout k w Hn Hk H0 Hd Hset Hsent; [lia|].
  cbn [padr_loop]. unfold MAX_PADI_ATTEMPTS. pose proof Hd as [Hp Hs Hname Hi Hb].
  assert (Hsw : session (conn w) = 0) by by rewrite (base_conn session w0 w (fun _ => eq_refl) Hb).
  destruct (padr_frame_settled w0 w Hb Hset) as [Ef Et].
  assert (Hex : (k <= 3)%nat -> forall w', sent w' = sent w -> padr_exit w0 1 w').
  { intros ? w' E'. split; [done|]. exists k. split; [done|congruence]. }
  case_decide as D.
  { apply rp_fatal_quiet; [done|done|split; [by apply forallb_bytes|done]|]. apply Hex. lia. }
  apply wp_bind. eapply (wp_sends (padr_frame w) (fits (padr_tags w)) w); [done|done|done| | | |].
  - apply sendPADR_cases; try done; [apply Hi|].
    by rewrite (base_conn serviceName w0 w (fun _ => eq_refl) Hb).
  - intros _. eapply (padr_turn w0 w timeout k); [done|done|lia|done|].
    intros w' Hd' Hset' Hsent'. apply (IH _ _ k); (done || lia).
  - intros w1 Hb1 Hc1 Hi1 Hs1.
    assert (Hs1' : sent w1 = sent w0 ++ replicate (S k) (padr_frame w0)).
    { rewrite Hs1, Hsent, <- app_assoc, Ef. f_equal. by rewrite replicate_S_end. }
    eapply (padr_turn w0 w1 timeout (S k)); [| |lia|done|].
    + split; try done; [by apply Hi1|congruence].
    + unfold settled. by rewrite Hc1.
    + intros w' Hd' Hset' Hsent'. apply (IH _ _ (S k)); (done || lia).
  - apply Hex. lia.
Qed.

End Phases.

(** ** Properties *)

(** Frames of a discovery phase: up to three PADIs, then up to three PADRs to
    the access concentrator chosen in [w3]. *)
Definition discovery_sent (w2 w3 w : World) : Prop :=
  exists i j, (i <= 3)%nat /\ (j <= 3)%nat /\
    sent w = sent w2 ++ replicate i (padi_frame w2) ++ replicate j (padr_frame w3).

(** What the phase may end in, [w2] being the state after the interface was
    opened. *)
Definition discovery_outcome (USE_BPF : bool) (w2 : World) (o : outcome World unit) : Prop :=
  match o with
  | Ok _ w' => discoveryState (conn w') = STATE_SESSION /\
      exists w3 ps p q, accepted USE_BPF w2 ps p /\ pads_for USE_BPF w3 q /\
        base w3 = base w2 /\ peerEth (conn w3) = h_source p /\
        session (conn w') = p_session q /\ peerEth (conn w') = h_source p /\
        discovery_sent w2 w3 w'
  | Exit c w' => (c = 1 \/ c = 0 /\ printACNames (conn w2) = true) /\
      exists w3, base w3 = base w2 /\ discovery_sent w2 w3 w'
  | Stop Blocked _ => True
  | Stop _ _ => False
  end.

(** C1. The discovery phase, for every sequence of frames, timeouts and write
    errors the system may produce: it never leaves a buffer and always
    terminates unless the system stops answering; it sends at most three
    PADIs and three PADRs and nothing else; when it returns, the state is
    SESSION, the peer is the unicast source of a PADO for this process, and
    the session number is that of a PADS from the same peer for this process;
    otherwise it exits with status 1, or 0 after listing concentrators. *)
Theorem discovery_correct (USE_BPF : bool) `{ABI : BpfAbi} `{OK : !BpfAbiOk ABI}
    (garbage : PPPoEPacket) (garbage_tag : PPPoETag) (garbage_len : Z) w fd w1 :
  wf_packet garbage -> wf_tag garbage_tag ->
  openInterface USE_BPF garbage garbage_tag w = Ok fd w1 ->
  let w2 := w_conn (c_discoverySocket fd (conn w1)) w1 in
  inv USE_BPF w2 -> pid_ok w2 -> session (conn w2) = 0 -> name_fits_int w2 ->
  skipDiscovery (conn w2) = false ->
  discovery_outcome USE_BPF w2 (discovery USE_BPF garbage garbage_tag garbage_len w).
Proof.
  intros Wg Wt Ho w2 Hi Hp Hs Hn Hskip.
  unfold discovery_outcome.
  match goal with |- match _ with Ok _ wa => @?Q wa | Exit c wb => @?E c wb | Stop _ _ => _ end =>
    change (wp (discovery USE_BPF garbage garbage_tag garbage_len) (fun _ => Q) E w) end.
  unfold discovery. apply wp_bind. eapply wp_Ok; [exact Ho|].
  unfold upd. apply wp_modify_bind, wp_get_bind. fold w2. rewrite Hskip.
  apply wp_bind. eapply wp_mono;
    [apply (padi_loop_spec USE_BPF garbage garbage_tag garbage_len Wg Wt w2 4 0 PADI_TIMEOUT 0); try done;
       [lia|by rewrite app_nil_r]| |].
  - intros [] w3 (Hi3 & Hb3 & (i & Hi' & Hsent3) & Hpost). apply wp_get_bind.
    rewrite (base_conn printACNames w2 w3 (fun _ => eq_refl) Hb3).
    destruct (printACNames (conn w2)) eqn:Epr.
    { apply wp_exit. split; [by right|]. exists w3. split; [done|]. exists i, 0%nat.
      split_and!; [done|lia|by rewrite app_nil_r]. }
    destruct Hpost as [?|(Hst & ps & p & Hacc & Hpeer)]; [done|].
    apply wp_bind. eapply wp_mono;
      [apply (padr_loop_spec USE_BPF garbage garbage_tag garbage_len Wg Wt w3 4 0 PADI_TIMEOUT 0); try done; [lia| |by rewrite app_nil_r]| |].
    + split; try done.
      * destruct (base_globals w2 w3 Hb3) as [_ E]. unfold pid_ok in *. by rewrite E.
      * by rewrite (base_conn session w2 w3 (fun _ => eq_refl) Hb3).
      * unfold name_fits_int in *. by rewrite (base_conn serviceName w2 w3 (fun _ => eq_refl) Hb3).
    + intros [] w4 (Hi4 & (j & Hj & Hsent4) & Hst4 & Hpe4 & q & Hq & Hses). apply wp_modify.
      split; [done|]. exists w3, ps, p, q. split_and!; try done; [by rewrite <- Hpeer|].
      exists i, j. split_and!; try done. change (sent w4 = sent w2 ++ replicate i (padi_frame w2) ++
        replicate j (padr_frame w3)). rewrite Hsent4, Hsent3. by rewrite <- app_assoc.
    + intros c w4 [-> (j & Hj & Hsent4)]. split; [by left|]. exists w3. split; [done|].
      exists i, j. split_and!; try done. rewrite Hsent4, Hsent3. by rewrite <- app_assoc.
  - intros c w3 [-> (i & Hi' & Hsent3)]. split; [by left|]. exists w2. split; [done|].
    exists i, 0%nat. split_and!; [done|lia|by rewrite app_nil_r].
Qed.

(** *** A run: one PADO, one PADS, raw sockets *)

Definition mac1 : list Z := [2; 0; 0; 0; 0; 1].
Definition ac1 : list Z := [2; 0; 0; 0; 0; 2].
Definition ac2 : list Z := [2; 0; 0; 0; 0; 3].

Definition fresh_conn (service ac : option (list Z)) : PPPoEConnection :=
  mkConn 0 (-1) (-1) (replicate 6 0) (replicate 6 0) 0 (Some (str "ne0")) service ac
    false true false false false 0 empty_tag empty_tag.

Definition fresh_world (service ac : option (list Z)) (sels : list select_result)
    (frames : list (list Z)) : World :=
  mkWorld (fresh_conn service ac) (mkLink [] 0 0 (map Some frames)) 0 0 0 0 0 false
    ETH_PPPOE_DISCOVERY ETH_PPPOE_SESSION (-1) 77 sels [] [] [OpenOk 5 mac1] [].

Definition ready : select_result := SelReady false false true.
Definition pado_from (ac : list Z) (ts : list tag) : list Z :=
  discovery_frame mac1 ac ETH_PPPOE_DISCOVERY CODE_PADO 0 (ts ++ [(TAG_HOST_UNIQ, le32 77)]).
Definition pads_from (ac : list Z) (sess : Z) : list Z :=
  discovery_frame mac1 ac ETH_PPPOE_DISCOVERY CODE_PADS (htons sess) [(TAG_HOST_UNIQ, le32 77)].

Definition run_world : World :=
  fresh_world (Some (str "isp")) None [ready; SelTimeout; ready; ready]
    [pado_from ac2 [(TAG_SERVICE_NAME, str "other")];
     pado_from ac1 [(TAG_SERVICE_NAME, str "isp"); (TAG_AC_COOKIE, [1; 2; 3])];
     pads_from ac1 0x42].

(** [run_world] once the interface is open. *)
Definition run_opened : World :=
  w_conn (c_discoverySocket 5 (c_myEth mac1 (conn run_world))) (w_opens [] run_world).

Lemma empty_tag_stored : stored_ok empty_tag.
Proof. split; [apply empty_tag_wf|vm_compute; congruence]. Qed.

Lemma run_opened_inv : inv false run_opened.
Proof.
  split; [split; [split|..]|split].
  all: try (vm_compute; split; congruence); try (apply empty_tag_stored); try done.
  all: try (apply forallb_bytes; vm_compute; reflexivity).
  repeat constructor; try (apply forallb_bytes; vm_compute; reflexivity); discriminate.
Qed.

Lemma discovery_correct_witness :
  (exists w', discovery false some_packet empty_tag 0 run_world = Ok tt w' /\
     session (conn w') = htons 0x42 /\ peerEth (conn w') = ac1 /\ length (sent w') = 3%nat) /\
  discovery_outcome false run_opened (discovery false some_packet empty_tag 0 run_world).
Proof.
  split; [eexists; split; [vm_compute; reflexivity|vm_compute; auto]|].
  apply (discovery_correct false some_packet empty_tag 0 run_world 5
    (w_conn (c_myEth mac1 (conn run_world)) (w_opens [] run_world))).
  - apply some_packet_wf.
  - apply empty_tag_wf.
  - reflexivity.
  - apply run_opened_inv.
  - vm_compute. split; congruence.
  - reflexivity.
  - vm_compute. reflexivity.
  - reflexivity.
Defined.

(** *** Where discovery departs from its intent *)

(** The criteria are initialised once per wait, not per packet: with both
    names asked for, a concentrator that has neither combination is accepted
    when another one supplied the missing name before. *)
Lemma pado_criteria_mixed :
  exists w', waitForPADO false some_packet empty_tag 0 5
    (fresh_world (Some (str "isp")) (Some (str "good")) [ready; ready]
       [pado_from ac1 [(TAG_AC_NAME, str "good"); (TAG_SERVICE_NAME, str "other")];
        pado_from ac2 [(TAG_AC_NAME, str "bad"); (TAG_SERVICE_NAME, str "isp")]]) = Ok tt w' /\
    discoveryState (conn w') = STATE_RECEIVED_PADO /\ peerEth (conn w') = ac2.
Proof. eexists. split; [vm_compute; reflexivity|]. split; reflexivity. Qed.

(** The result of [receivePacket] is not looked at in the waiting loops; on a
    raw socket a failed [recv] sets the length to -1, which the unsigned
    length test lets through, so that the old contents of the packet are
    taken for a new one. *)
Lemma recv_error_passes_length_test p : wf_packet p -> bogus_length p (-1) = false.
Proof.
  intros W. unfold bogus_length. apply bool_decide_eq_false.
  pose proof (htons_range (p_length p)) as H. change (u32 (-1)) with 4294967295.
  unfold ntohs, HDR_SIZE, PPPOE_OVERHEAD in *. rewrite u32_small by lia. lia.
Qed.
