(* ===== verification/Session.v ===== *)
(** * Session: the session phase of the client (pppoe.c, ppp.c)

    Frames travel in two directions.  From PPP: [asyncReadFromPPP] undoes the
    byte stuffing with a three-state machine whose state survives between
    reads, [syncReadFromPPP] takes one frame per read.  From Ethernet:
    [asyncReadFromEth] and [syncReadFromEth] check a received packet and hand
    its payload to PPP.  [session] is the select loop around them. *)

From stdpp Require Import base list numbers strings.
From S2P Require Import Prelude Wire Tags Checksum Fcs Build Link Client.
Open Scope Z_scope.

Definition STATE_WAITFOR_FRAME_ADDR : Z := 0.
Definition STATE_DROP_PROTO : Z := 1.
Definition STATE_BUILDING_PACKET : Z := 2.

Definition READ_CHUNK : Z := 4096.

Definition set_PPP (state size xor : Z) : Cmd World unit :=
  modify (fun w => w_PPPState state (w_PPPPacketSize size (w_PPPXorValue xor w))).

Definition initPPP : Cmd World unit := set_PPP STATE_WAITFOR_FRAME_ADDR 0 0.

(** The first inner loop of [asyncReadFromPPP]: skips to behind the next
    address byte. *)
Fixpoint skip_to_addr (buf : list Z) : bool * list Z :=
  match buf with
  | [] => (false, [])
  | c :: buf => if decide (c = FRAME_ADDR) then (true, buf) else skip_to_addr buf
  end.

(** The second: skips to behind the escaped control byte. *)
Fixpoint skip_to_ctrl (buf : list Z) : bool * list Z :=
  match buf with
  | [] => (false, [])
  | c :: buf => if decide (c = Z.lxor FRAME_CTRL FRAME_ENC) then (true, buf) else skip_to_ctrl buf
  end.

Section Session.
Context (USE_BPF : bool) `{ABI : BpfAbi} (garbage : PPPoEPacket) (garbage_tag : PPPoETag)
  (garbage_len : Z).

(** ** From PPP to Ethernet *)

(** The packet is the local variable of [session], passed by reference: the
    functions return its new contents. *)
Definition sendSessionPacket (packet : PPPoEPacket) (len : Z) : Cmd World PPPoEPacket :=
  let! w := get in
  let packet := set_length (htons len) packet in
  chk! packet := if decide (optClampMSS w = 0) then Some packet
                 else clampMSS packet (optClampMSS w) in
  do! sendPacket garbage garbage_tag (sessionSocket (conn w)) packet (len + HDR_SIZE) ;;
  ret packet.

Definition syncReadFromPPP (packet : PPPoEPacket) : Cmd World PPPoEPacket :=
  let! res := read_stdin in
  match res with
  | ReadError eagain =>
      if (eagain : bool) then rp_fatal garbage garbage_tag (str
        "Linux select bug hit!  This message is harmless, but please ask the Linux kernel developers to fix it.")
      else fatalSys garbage garbage_tag
  | ReadData data =>
      let data := take (Z.to_nat (2 + (ETH_DATA_LEN - PPPOE_OVERHEAD))) data in
      let r := zlen data in
      chk! payload := store (p_payload packet) 0 (drop 2 data) in
      let packet := set_payload payload packet in
      if decide (r = 0) then
        do! sendPADT garbage garbage_tag (Some (str "RP-PPPoE: EOF in syncReadFromPPP")) ;;
        exit 0
      else if decide (r < 2) then
        rp_fatal garbage garbage_tag (str "too few characters read from PPP (syncReadFromPPP)")
      else sendSessionPacket packet (r - 2)
  end.

(** The third inner loop: builds the packet until the frame ends, the packet
    is too big or the input is used up. *)
Fixpoint build_packet (buf : list Z) (packet : PPPoEPacket) : Cmd World (list Z * PPPoEPacket) :=
  match buf with
  | [] => ret ([], packet)
  | c :: buf =>
    let! w := get in
    if decide (c = FRAME_ESC) then
      do! set_PPP STATE_BUILDING_PACKET (PPPPacketSize w) FRAME_ENC ;;
      build_packet buf packet
    else if decide (c = FRAME_FLAG) then
      if decide (PPPPacketSize w < 2) then
        rp_fatal garbage garbage_tag (str "Packet too short from PPP (asyncReadFromPPP)")
      else
        let! packet := sendSessionPacket packet (PPPPacketSize w - 2) in
        do! set_PPP STATE_WAITFOR_FRAME_ADDR 0 0 ;;
        ret (buf, packet)
    else if decide (PPPPacketSize w >= ETH_DATA_LEN - 4) then
      do! set_PPP STATE_WAITFOR_FRAME_ADDR 0 0 ;;
      ret (buf, packet)
    else
      chk! payload := store (p_payload packet) (PPPPacketSize w) [Z.lxor c (PPPXorValue w)] in
      do! set_PPP STATE_BUILDING_PACKET (PPPPacketSize w + 1) 0 ;;
      build_packet buf (set_payload payload packet)
  end.

(** [while (r)]: the three inner loops in turn. *)
Fixpoint async_loop (fuel : nat) (buf : list Z) (packet : PPPoEPacket) : Cmd World PPPoEPacket :=
  match buf with
  | [] => ret packet
  | _ :: _ =>
    match fuel with
    | O => halt OutOfFuel
    | S fuel =>
      let! w := get in
      let '(st, buf) :=
        if decide (PPPState w = STATE_WAITFOR_FRAME_ADDR) then
          let '(found, buf) := skip_to_addr buf in
          (if found then STATE_DROP_PROTO else STATE_WAITFOR_FRAME_ADDR, buf)
        else (PPPState w, buf) in
      do! modify (w_PPPState st) ;;
      if decide (st = STATE_WAITFOR_FRAME_ADDR) then ret packet else
      let '(st, buf) :=
        if decide (st = STATE_DROP_PROTO) then
          let '(found, buf) := skip_to_ctrl buf in
          (if found then STATE_BUILDING_PACKET else STATE_DROP_PROTO, buf)
        else (st, buf) in
      do! modify (w_PPPState st) ;;
      if decide (st = STATE_DROP_PROTO) then ret packet else
      let! (buf, packet) :=
        if decide (st = STATE_BUILDING_PACKET) then build_packet buf packet
        else ret (buf, packet) in
      async_loop fuel buf packet
    end
  end.

Definition asyncReadFromPPP (packet : PPPoEPacket) : Cmd World PPPoEPacket :=
  let! res := read_stdin in
  match res with
  | ReadError _ => fatalSys garbage garbage_tag
  | ReadData data =>
      let buf := take (Z.to_nat READ_CHUNK) data in
      if decide (zlen buf = 0) then
        do! sendPADT garbage garbage_tag (Some (str "RP-PPPoE: EOF in asyncReadFromPPP")) ;;
        exit 0
      else async_loop (length buf) buf packet
  end.

(** ** From Ethernet to PPP *)

(** A PADT for the session ends the program (both builds, after the packet
    was received). *)
Definition check_PADT (packet : PPPoEPacket) : Cmd World unit :=
  let! w := get in
  if decide (p_code packet <> CODE_PADT) then ret tt else
  if decide (p_session packet <> session (conn w)) then ret tt else
  let! _ := run_local (parsePacket packet parseLogErrs) [] in
  exit 0.

(** [sessionDiscoveryPacket] of the raw-socket build reads the packet itself. *)
Definition sessionDiscoveryPacket : Cmd World unit :=
  let! (r, packet, len) := receive USE_BPF garbage garbage_len in
  if decide (r < 0) then ret tt else
  if bogus_length packet len then ret tt else check_PADT packet.

(** The common part of [asyncReadFromEth] and [syncReadFromEth]: receive,
    check, clamp; the payload, or nothing when the packet is ignored. *)
Definition readFromEth (clampMss : Z) : Cmd World (option (list Z)) :=
  let! (r, packet, len) := receive USE_BPF garbage garbage_len in
  if decide (r < 0) then ret None else
  if bogus_length packet len then ret None else
  let! w := get in
  let type := etherType packet in
  let! foreign := (if USE_BPF then
      if decide (type = Eth_PPPOE_Discovery w) then do! check_PADT packet ;; ret false
      else ret (negb (type =? Eth_PPPOE_Session w))
    else ret false) in
  if (foreign : bool) then ret None else
  if decide (p_code packet <> CODE_SESS) then ret None else
  if decide (p_ver packet <> 1) then ret None else
  if decide (p_type packet <> 1) then ret None else
  if negb (mac_eqb (h_source packet) (peerEth (conn w))) then ret None else
  if decide (p_session packet <> session (conn w)) then ret None else
  let plen := ntohs (p_length packet) in
  if decide (u32 (plen + HDR_SIZE) > u32 len) then ret None else
  chk! packet := if decide (clampMss = 0) then Some packet else clampMSS packet clampMss in
  chk! payload := slice (p_payload packet) 0 plen in
  ret (Some payload).

(** [pppBuf] has 4096 bytes. *)
Definition asyncReadFromEth (clampMss : Z) : Cmd World unit :=
  let! p := readFromEth clampMss in
  match p with
  | None => ret tt
  | Some payload =>
      chk! _ := store (replicate 4096 0) 0 (async_frame payload) in
      let! ok := do_write (AWrite (async_frame payload)) in
      if (ok : bool) then ret tt else fatalSys garbage garbage_tag
  end.

Definition syncReadFromEth (clampMss : Z) : Cmd World unit :=
  let! p := readFromEth clampMss in
  match p with
  | None => ret tt
  | Some payload =>
      let! ok := do_write (AWrite ([FRAME_ADDR; FRAME_CTRL] ++ payload)) in
      if (ok : bool) then ret tt else fatalSys garbage garbage_tag
  end.

(** ** The session loop *)

Definition read_eth : Cmd World unit :=
  let! w := get in
  if synchronous (conn w) then syncReadFromEth (optClampMSS w)
  else asyncReadFromEth (optClampMSS w).

(** [while (BPF_BUFFER_HAS_DATA) { ... }]. *)
Fixpoint drain_eth (fuel : nat) : Cmd World unit :=
  let! w := get in
  if BPF_BUFFER_IS_EMPTY USE_BPF w then ret tt else
  match fuel with
  | O => halt OutOfFuel
  | S fuel => do! read_eth ;; drain_eth fuel
  end.

Definition drain_fuel (w : World) : nat := link_budget (link w).

Definition read_ppp (packet : PPPoEPacket) : Cmd World PPPoEPacket :=
  let! w := get in
  if synchronous (conn w) then syncReadFromPPP packet else asyncReadFromPPP packet.

Fixpoint session_loop (fuel : nat) (packet : PPPoEPacket) : Cmd World unit :=
  match fuel with
  | O => halt OutOfFuel
  | S fuel =>
    let! w := get in
    let! r := do_select (if decide (optInactivityTimeout w > 0)
                         then Some (optInactivityTimeout w) else None) in
    match r with
    | SelError => fatalSys garbage garbage_tag
    | SelTimeout =>
        do! sendPADT garbage garbage_tag (Some (str "RP-PPPoE: Inactivity timeout")) ;;
        exit 1
    | SelReady ppp_ready session_ready discovery_ready =>
        let! packet := (if (ppp_ready : bool) then read_ppp packet else ret packet) in
        do! (if (session_ready : bool) then
               do! read_eth ;;
               let! w := get in drain_eth (drain_fuel w)
             else ret tt) ;;
        do! (if negb USE_BPF && discovery_ready then sessionDiscoveryPacket else ret tt) ;;
        session_loop fuel packet
    | SelIntr => session_loop fuel packet
    end
  end.

Definition session_phase : Cmd World unit :=
  let! fd := openInterface USE_BPF garbage garbage_tag in
  do! upd (c_sessionSocket fd) ;;
  let! w := get in
  let c := conn w in
  let packet := start_packet (peerEth c) (myEth c) (htons (Eth_PPPOE_Session w)) CODE_SESS
                  (session c) garbage in
  do! initPPP ;;
  do! (if USE_BPF then let! w := get in drain_eth (drain_fuel w) else ret tt) ;;
  let! w := get in
  session_loop (S (length (selects w))) packet.

End Session.

(** ** Specification: one byte at a time *)

(** The bytes of a PPPoE frame with the given payload. *)
Definition pppoe_frame (dest source : list Z) (proto code sess : Z) (payload : list Z) : list Z :=
  dest ++ source ++ be16 proto ++ [0x11; code] ++ le16 sess ++ be16 (zlen payload) ++ payload.

Section ByteMachine.
Context (garbage : PPPoEPacket) (garbage_tag : PPPoETag).

(** One byte from PPP: look for the address byte, then for the control byte,
    then build the packet. *)
Definition ppp_byte (c : Z) (packet : PPPoEPacket) : Cmd World PPPoEPacket :=
  let! w := get in
  if decide (PPPState w = STATE_WAITFOR_FRAME_ADDR) then
    do! modify (w_PPPState (if decide (c = FRAME_ADDR) then STATE_DROP_PROTO
                            else STATE_WAITFOR_FRAME_ADDR)) ;;
    ret packet
  else if decide (PPPState w = STATE_DROP_PROTO) then
    do! modify (w_PPPState (if decide (c = Z.lxor FRAME_CTRL FRAME_ENC) then STATE_BUILDING_PACKET
                            else STATE_DROP_PROTO)) ;;
    ret packet
  else
    let! (_, packet) := build_packet garbage garbage_tag [c] packet in
    ret packet.

Fixpoint run_bytes (buf : list Z) (packet : PPPoEPacket) : Cmd World PPPoEPacket :=
  match buf with
  | [] => ret packet
  | c :: buf => let! packet := ppp_byte c packet in run_bytes buf packet
  end.

Definition state_ok (w : World) : Prop :=
  PPPState w = STATE_WAITFOR_FRAME_ADDR \/ PPPState w = STATE_DROP_PROTO \/
  PPPState w = STATE_BUILDING_PACKET.

Lemma run_bytes_app a b packet w :
  run_bytes (a ++ b) packet w = bind (run_bytes a packet) (fun packet => run_bytes b packet) w.
Proof.
  revert packet w. induction a as [|c a IH]; intros packet w; [done|]. simpl.
  rewrite bind_assoc. apply bind_ext. intros p' w'. apply IH.
Qed.

Lemma w_PPPState_id w st : PPPState w = st -> w_PPPState st w = w.
Proof. intros <-. by destruct w. Qed.

Lemma skip_addr_run buf packet w :
  PPPState w = STATE_WAITFOR_FRAME_ADDR ->
  run_bytes buf packet w =
    (let '(found, rest) := skip_to_addr buf in
     if (found : bool) then run_bytes rest packet (w_PPPState STATE_DROP_PROTO w) else Ok packet w).
Proof.
  intros Hs. induction buf as [|c buf IH]; [done|]. simpl. unfold ppp_byte.
  unfold get, modify, ret, bind. rewrite decide_True by done. case_decide; [done|].
  rewrite w_PPPState_id by done. exact IH.
Qed.

Lemma skip_ctrl_run buf packet w :
  PPPState w = STATE_DROP_PROTO ->
  run_bytes buf packet w =
    (let '(found, rest) := skip_to_ctrl buf in
     if (found : bool) then run_bytes rest packet (w_PPPState STATE_BUILDING_PACKET w) else Ok packet w).
Proof.
  intros Hs. induction buf as [|c buf IH]; [done|]. simpl. unfold ppp_byte.
  unfold get, modify, ret, bind.
  rewrite decide_False by (rewrite Hs; done). rewrite decide_True by done. case_decide; [done|].
  rewrite w_PPPState_id by done. exact IH.
Qed.

(** The third inner loop against the bytes it consumes. *)
Lemma build_run buf : forall packet w,
  PPPState w = STATE_BUILDING_PACKET ->
  run_bytes buf packet w =
    bind (build_packet garbage garbage_tag buf packet) (fun '(rest, packet) => run_bytes rest packet) w.
Proof.
  induction buf as [|c buf IH]; intros packet w Hs; [done|].
  cbn [run_bytes]. unfold ppp_byte. rewrite bind_assoc, get_bind.
  rewrite !decide_False by (rewrite Hs; done). rewrite bind_assoc.
  cbn [build_packet]. rewrite !bind_assoc, !get_bind.
  destruct (decide (c = FRAME_ESC)); [|destruct (decide (c = FRAME_FLAG));
    [destruct (decide (PPPPacketSize w < 2))|destruct (decide (PPPPacketSize w >= ETH_DATA_LEN - 4))]].
  - unfold set_PPP, modify. unfold bind. cbn [ret]. rewrite IH by done. done.
  - unfold rp_fatal, exit, bind. destruct (sendPADT garbage garbage_tag _ w); done.
  - unfold bind. destruct (sendSessionPacket garbage garbage_tag packet _ w); done.
  - done.
  - unfold bind, of_option. destruct (store _ _ _); [|done]. unfold set_PPP, modify, ret.
    rewrite IH by done. done.
Qed.

Lemma build_progress buf : forall packet w rest packet' w',
  PPPState w = STATE_BUILDING_PACKET ->
  build_packet garbage garbage_tag buf packet w = Ok (rest, packet') w' ->
  (rest = [] \/ (length rest < length buf)%nat) /\ state_ok w'.
Proof.
  induction buf as [|c buf IH]; intros packet w rest packet' w' Hs E.
  { injection E as <- <- <-. split; [by left|]. unfold state_ok. auto. }
  cbn [build_packet] in E. unfold get in E. unfold bind at 1 in E.
  case_decide; [|case_decide; [case_decide|case_decide]].
  - apply bind_inv_Ok in E as ([] & w1 & [= <-] & E). apply IH in E as [E1 E2]; [|done].
    split; [|done]. simpl. destruct E1; [by left|right; lia].
  - apply bind_inv_Ok in E as (? & ? & E1 & E2). done.
  - apply bind_inv_Ok in E as (p1 & w1 & _ & E). injection E as <- <- <-. simpl.
    split; [right; lia|]. by left.
  - injection E as <- <- <-. split; [right; simpl; lia|by left].
  - apply bind_inv_Ok in E as (pl & w1 & _ & E). apply bind_inv_Ok in E as ([] & w2 & [= <-] & E).
    apply IH in E as [E1 E2]; [|done]. split; [|done]. simpl. destruct E1; [by left|right; lia].
Qed.

Lemma skip_to_addr_length buf : (length (skip_to_addr buf).2 <= length buf - 1)%nat.
Proof. induction buf as [|c buf IH]; simpl; [lia|]. case_decide; simpl; lia. Qed.
Lemma skip_to_ctrl_length buf : (length (skip_to_ctrl buf).2 <= length buf - 1)%nat.
Proof. induction buf as [|c buf IH]; simpl; [lia|]. case_decide; simpl; lia. Qed.

(** The nested loops are the byte machine. *)
Lemma async_loop_run fuel : forall buf packet w,
  state_ok w -> (length buf <= fuel)%nat ->
  async_loop garbage garbage_tag fuel buf packet w = run_bytes buf packet w.
Proof.
  induction fuel as [|fuel IH]; intros buf packet w Hs Hl.
  { destruct buf; [done|]. simpl in Hl. lia. }
  destruct buf as [|c buf]; [done|].
  assert (Hbuild : forall buf' w', PPPState w' = STATE_BUILDING_PACKET -> (length buf' <= S fuel)%nat ->
    bind (build_packet garbage garbage_tag buf' packet)
      (fun '(buf, packet) => async_loop garbage garbage_tag fuel buf packet) w' = run_bytes buf' packet w').
  { intros buf' w' Hs' Hl'. rewrite build_run by done. unfold bind.
    destruct (build_packet garbage garbage_tag buf' packet w') as [[rest p'] w''| |] eqn:E; try done.
    apply build_progress in E as [[->|Hr] Hok]; [by destruct fuel| |done]. apply IH; [done|lia]. }
  assert (Hctrl : forall buf' w', PPPState w' = STATE_DROP_PROTO -> (length buf' <= S fuel)%nat ->
    (let '(st, buf) := let '(found, buf) := skip_to_ctrl buf' in
         (if found : bool then STATE_BUILDING_PACKET else STATE_DROP_PROTO, buf) in
      do! modify (w_PPPState st) ;;
      if decide (st = STATE_DROP_PROTO) then ret packet else
      let! (buf, packet) := (if decide (st = STATE_BUILDING_PACKET)
        then build_packet garbage garbage_tag buf packet else ret (buf, packet)) in
      async_loop garbage garbage_tag fuel buf packet) w' = run_bytes buf' packet w').
  { intros buf' w' Hs' Hl'. rewrite skip_ctrl_run by done.
    pose proof (skip_to_ctrl_length buf') as Hlen.
    destruct (skip_to_ctrl buf') as [[|] rest]; simpl in Hlen; unfold modify, bind at 1.
    - rewrite decide_False, decide_True by done. apply Hbuild; [done|lia].
    - rewrite decide_True by done. unfold ret. by rewrite w_PPPState_id. }
  cbn [async_loop]. unfold get, bind at 1.
  destruct Hs as [Hs|[Hs|Hs]]; rewrite Hs.
  - rewrite decide_True by done. rewrite (skip_addr_run (c :: buf)) by done.
    pose proof (skip_to_addr_length (c :: buf)) as Hlen.
    destruct (skip_to_addr (c :: buf)) as [[|] rest]; unfold modify, bind at 1; simpl in Hlen.
    + rewrite decide_False by done. rewrite decide_True by done.
      apply (Hctrl rest (w_PPPState STATE_DROP_PROTO w)); [done|simpl in Hl; lia].
    + rewrite decide_True by done. unfold ret. by rewrite w_PPPState_id.
  - rewrite decide_False by done. unfold modify at 1, bind at 1. rewrite w_PPPState_id by done.
    rewrite decide_False by done. rewrite decide_True by done. by apply Hctrl.
  - rewrite decide_False by done. unfold modify at 1, bind at 1. rewrite w_PPPState_id by done.
    rewrite !decide_False by done. unfold modify at 1, bind at 1. rewrite w_PPPState_id by done.
    rewrite decide_True by done. by apply Hbuild.
Qed.

(** ** Unstuffing *)

Lemma stuff_escape c : is_byte c ->
  stuff c = [c] /\ c <> FRAME_ESC /\ c <> FRAME_FLAG \/
  stuff c = [FRAME_ESC; Z.lxor c FRAME_ENC] /\ Z.lxor c FRAME_ENC <> FRAME_ESC /\
    Z.lxor c FRAME_ENC <> FRAME_FLAG.
Proof.
  intros Hc. unfold stuff. case_decide as D; [right|left].
  - split; [done|].
    pose (P := fun c => negb ((c =? FRAME_FLAG) || (c =? FRAME_ADDR) || (c =? FRAME_ESC) || (c <? 0x20)) ||
      negb (Z.lxor c FRAME_ENC =? FRAME_ESC) && negb (Z.lxor c FRAME_ENC =? FRAME_FLAG)).
    assert (H : P c = true) by (apply byte_ind; [vm_compute; done|done]).
    unfold P in H. clear P. unfold FRAME_FLAG, FRAME_ADDR, FRAME_ESC in *. lia.
  - split; [done|]. split; intros ->; apply D; auto.
Qed.

(** A character of the frame while a packet is built. *)
Lemma plain_byte c packet w payload :
  PPPState w = STATE_BUILDING_PACKET -> c <> FRAME_ESC -> c <> FRAME_FLAG ->
  PPPPacketSize w < ETH_DATA_LEN - 4 ->
  store (p_payload packet) (PPPPacketSize w) [Z.lxor c (PPPXorValue w)] = Some payload ->
  ppp_byte c packet w =
    Ok (set_payload payload packet)
       (w_PPPState STATE_BUILDING_PACKET (w_PPPPacketSize (PPPPacketSize w + 1) (w_PPPXorValue 0 w))).
Proof.
  intros Hs H1 H2 Hn E. unfold ppp_byte. rewrite get_bind, !decide_False by (rewrite Hs; done).
  cbn [build_packet]. rewrite bind_assoc, get_bind, !decide_False by (done || lia).
  rewrite E. done.
Qed.

Lemma esc_byte packet w :
  PPPState w = STATE_BUILDING_PACKET ->
  ppp_byte FRAME_ESC packet w =
    Ok packet (w_PPPState STATE_BUILDING_PACKET
      (w_PPPPacketSize (PPPPacketSize w) (w_PPPXorValue FRAME_ENC w))).
Proof.
  intros Hs. unfold ppp_byte. rewrite get_bind, !decide_False by (rewrite Hs; done).
  cbn [build_packet]. rewrite bind_assoc, get_bind, decide_True by done. done.
Qed.

Lemma w_PPP_id st size w : PPPState w = st -> PPPXorValue w = 0 ->
  w_PPPState st (w_PPPPacketSize size (w_PPPXorValue 0 w)) = w_PPPPacketSize size w.
Proof. intros <- <-. by destruct w. Qed.

(** A stuffed byte is stored as it was before stuffing. *)
Lemma stuffed_byte c packet w payload :
  is_byte c -> PPPState w = STATE_BUILDING_PACKET -> PPPXorValue w = 0 ->
  PPPPacketSize w < ETH_DATA_LEN - 4 ->
  store (p_payload packet) (PPPPacketSize w) [c] = Some payload ->
  run_bytes (stuff c) packet w =
    Ok (set_payload payload packet) (w_PPPPacketSize (PPPPacketSize w + 1) w).
Proof.
  intros Hc Hs Hx Hn E. destruct (stuff_escape c Hc) as [(-> & H1 & H2)|(-> & H1 & H2)].
  - cbn [run_bytes]. unfold bind. rewrite (plain_byte c packet w payload) by
      (done || (rewrite Hx, Z.lxor_0_r; done)).
    unfold ret. by rewrite w_PPP_id.
  - cbn [run_bytes]. unfold bind. rewrite esc_byte by done.
    rewrite (plain_byte _ packet _ payload); [|done|done|done|done|].
    + unfold ret. f_equal. destruct w. simpl in *. by subst.
    + cbn [PPPPacketSize PPPXorValue w_PPPState w_PPPPacketSize w_PPPXorValue].
      by rewrite Z.lxor_assoc, Z.lxor_nilpotent, Z.lxor_0_r.
Qed.

Lemma stuffed_bytes l : forall packet w pre old post,
  bytes l -> PPPState w = STATE_BUILDING_PACKET -> PPPXorValue w = 0 ->
  p_payload packet = pre ++ old ++ post -> length old = length l -> zlen pre = PPPPacketSize w ->
  PPPPacketSize w + zlen l <= ETH_DATA_LEN - 4 ->
  run_bytes (concat (map stuff l)) packet w =
    Ok (set_payload (pre ++ l ++ post) packet) (w_PPPPacketSize (PPPPacketSize w + zlen l) w).
Proof.
  induction l as [|c l IH]; intros packet w pre old post Hb Hs Hx Hp Ho Hl Hn.
  { destruct old; [|done]. cbn [map concat run_bytes]. rewrite zlen_nil, Z.add_0_r. unfold ret.
    rewrite <- Hp. destruct packet, w; done. }
  destruct old as [|o old]; [done|]. inversion Hb as [|? ? Hc Hb']; subst.
  rewrite zlen_cons in Hn. pose proof (zlen_nonneg l).
  cbn [map concat]. rewrite run_bytes_app. unfold bind.
  rewrite (stuffed_byte c packet w (pre ++ [c] ++ old ++ post)); [|done|done|done|lia|].
  - rewrite (IH _ _ (pre ++ [c]) old post); try done.
    + rewrite zlen_cons, <- !app_assoc. f_equal. destruct w; unfold w_PPPPacketSize; simpl.
      f_equal; lia.
    + by rewrite <- app_assoc.
    + by injection Ho.
    + rewrite zlen_app, zlen_cons, zlen_nil. simpl. lia.
    + cbn [PPPPacketSize w_PPPPacketSize]. lia.
  - rewrite Hp, <- Hl. change ((o :: old) ++ post) with ([o] ++ old ++ post).
    by apply store_app_mid.
Qed.

(** The four bytes that open a frame. *)
Lemma frame_opening packet w :
  PPPState w = STATE_WAITFOR_FRAME_ADDR ->
  run_bytes [FRAME_FLAG; FRAME_ADDR; FRAME_ESC; Z.lxor FRAME_CTRL FRAME_ENC] packet w =
    Ok packet (w_PPPState STATE_BUILDING_PACKET w).
Proof.
  intros Hs. rewrite skip_addr_run by done.
  change (skip_to_addr [FRAME_FLAG; FRAME_ADDR; FRAME_ESC; Z.lxor FRAME_CTRL FRAME_ENC])
    with (true, [FRAME_ESC; Z.lxor FRAME_CTRL FRAME_ENC]). cbv beta iota zeta.
  by rewrite skip_ctrl_run.
Qed.

End ByteMachine.

(** ** Sending a session packet *)

(** The packet [session] prepared, seen from the world it is sent in. *)
Record session_packet (w : World) (p : PPPoEPacket) : Prop := {
  sp_wf : wf_packet p;
  sp_dest : h_dest p = peerEth (conn w);
  sp_source : h_source p = myEth (conn w);
  sp_proto : h_proto p = htons (Eth_PPPOE_Session w);
  sp_ver : p_ver p = 1;
  sp_type : p_type p = 1;
  sp_code : p_code p = CODE_SESS;
  sp_session : p_session p = session (conn w)
}.

Definition session_frame (w : World) (payload : list Z) : list Z :=
  pppoe_frame (peerEth (conn w)) (myEth (conn w)) (Eth_PPPOE_Session w) CODE_SESS (session (conn w))
    payload.

Lemma frame_session w p len payload rest :
  session_packet w p -> p_payload p = payload ++ rest -> zlen payload = len ->
  frame (set_length (htons len) p) (len + HDR_SIZE) = Some (session_frame w payload).
Proof.
  intros [W Hd Hs Hpr Hv Ht Hc Hse] Hp Hl. unfold frame, packet_bytes.
  set (hb := header_bytes _). assert (Hh : length hb = 20%nat) by (apply length_header; apply W).
  cbn [p_payload set_length]. rewrite Hp.
  replace (len + HDR_SIZE) with (zlen (hb ++ payload)).
  - pose proof (slice_app_mid [] (hb ++ payload) rest) as E. simpl in E. rewrite zlen_nil in E.
    rewrite app_assoc, E. unfold hb, header_bytes, session_frame, pppoe_frame.
    cbn [h_dest h_source h_proto p_ver p_type p_code p_session p_length set_length].
    rewrite Hd, Hs, Hpr, Hv, Ht, Hc, Hse, Hl, !le16_htons, <- !app_assoc. done.
  - rewrite zlen_app, Hl. unfold zlen at 1. rewrite Hh. unfold HDR_SIZE, PPPOE_OVERHEAD. lia.
Qed.

Lemma pppoe_frame_bytes dest source proto code sess payload rest :
  pppoe_frame dest source proto code sess payload ++ rest =
  packet_bytes (mkPacket dest source (htons proto) 1 1 code sess (htons (zlen payload))
                  (payload ++ rest)).
Proof.
  unfold pppoe_frame, packet_bytes, header_bytes.
  cbn [h_dest h_source h_proto p_ver p_type p_code p_session p_length p_payload].
  rewrite !le16_htons, <- !app_assoc. done.
Qed.

Lemma zlen_pppoe_frame dest source proto code sess payload :
  length dest = 6%nat -> length source = 6%nat ->
  zlen (pppoe_frame dest source proto code sess payload) = HDR_SIZE + zlen payload.
Proof.
  intros Hd Hs. unfold pppoe_frame, le16, be16. rewrite !zlen_app, !zlen_cons, !zlen_nil.
  unfold zlen. rewrite Hd, Hs. unfold HDR_SIZE, PPPOE_OVERHEAD. lia.
Qed.

Lemma bytes_pair a b : is_byte a -> is_byte b -> bytes [a; b].
Proof. intros. apply Forall_cons. split; [done|]. apply Forall_cons. by split. Qed.

Lemma async_frame_split payload :
  exists t0 t1, is_byte t0 /\ is_byte t1 /\ async_frame payload =
    [FRAME_FLAG; FRAME_ADDR; FRAME_ESC; Z.lxor FRAME_CTRL FRAME_ENC] ++
    concat (map stuff (payload ++ [t0; t1])) ++ [FRAME_FLAG].
Proof.
  unfold async_frame. cbv zeta.
  match goal with |- context [concat (map stuff [?a; ?b])] => exists a, b end.
  rewrite map_app, concat_app, <- app_assoc.
  unfold is_byte. rewrite !land_ff. split; [apply Z.mod_pos_bound; lia|]. split; [apply Z.mod_pos_bound; lia|done].
Qed.

Section Frames.
Context (garbage : PPPoEPacket) (garbage_tag : PPPoETag).

Definition idle (w : World) : Prop :=
  PPPState w = STATE_WAITFOR_FRAME_ADDR /\ PPPPacketSize w = 0 /\ PPPXorValue w = 0.

Lemma sendSessionPacket_ok w p payload rest len :
  session_packet w p -> p_payload p = payload ++ rest -> zlen payload = len ->
  optClampMSS w = 0 -> writes w = [] ->
  sendSessionPacket garbage garbage_tag p len w =
    Ok (set_length (htons len) p)
       (w_trace (trace w ++ [ASend (sessionSocket (conn w)) (session_frame w payload)]) w).
Proof.
  intros Hp Hpl Hl Hc Hw. unfold sendSessionPacket. rewrite get_bind, decide_True, bind_of_Some by done.
  unfold sendPacket. unfold bind at 1. rewrite sendPacket_rec_S.
  rewrite (frame_session w p len payload rest Hp Hpl Hl), bind_of_Some.
  unfold do_write, bind. by rewrite Hw.
Qed.

(** A frame as PPP writes it becomes one session packet with the payload, and
    the machine is idle again. *)
Lemma async_frame_run w p payload :
  idle w -> session_packet w p -> optClampMSS w = 0 -> writes w = [] ->
  bytes payload -> zlen payload <= MAX_PPPOE_PAYLOAD ->
  exists p', run_bytes garbage garbage_tag (async_frame payload) p w =
    Ok p' (w_trace (trace w ++ [ASend (sessionSocket (conn w)) (session_frame w payload)]) w) /\
    session_packet w p'.
Proof.
  intros Hidle Hp Hcl Hw Hb Hz. pose proof Hidle as (Hs & Hn & Hx). pose proof (zlen_nonneg payload).
  destruct (async_frame_split payload) as (t0 & t1 & B0 & B1 & ->).
  rewrite run_bytes_app. unfold bind at 1. rewrite frame_opening by done.
  rewrite run_bytes_app. set (w1 := w_PPPState STATE_BUILDING_PACKET w).
  set (l := payload ++ [t0; t1]).
  assert (Hll : zlen l = zlen payload + 2) by (unfold l; rewrite zlen_app; done).
  pose proof (wf_payload_len _ (sp_wf _ _ Hp)) as Hpl.
  unfold MAX_PPPOE_PAYLOAD, PPPOE_OVERHEAD, ETH_DATA_LEN in *.
  assert (E : run_bytes garbage garbage_tag (concat (map stuff l)) p w1 =
    Ok (set_payload (l ++ drop (length l) (p_payload p)) p) (w_PPPPacketSize (zlen l) w1)).
  { pose proof (stuffed_bytes garbage garbage_tag l p w1 [] (take (length l) (p_payload p))
      (drop (length l) (p_payload p))) as H1. simpl app in H1. rewrite H1; try done.
    - cbn [w1 PPPPacketSize w_PPPState]. by rewrite Hn.
    - unfold l. apply bytes_app. split; [done|]. by apply bytes_pair.
    - by rewrite take_drop.
    - rewrite length_take. unfold zlen in *. lia.
    - cbn [w1 PPPPacketSize w_PPPState]. rewrite Hn. unfold ETH_DATA_LEN. lia. }
  unfold bind at 1. rewrite E. set (p1 := set_payload _ p). set (w2 := w_PPPPacketSize (zlen l) w1).
  assert (Hp1 : session_packet w2 p1).
  { destruct Hp as [Wp]. split; try done. destruct Wp. split; try done; simpl.
    - rewrite zlen_app. unfold zlen in *. rewrite length_drop. lia.
    - apply bytes_app. split; [|by apply bytes_drop]. apply bytes_app. split; [done|]. by apply bytes_pair. }
  cbn [run_bytes]. unfold ppp_byte. rewrite !bind_assoc, get_bind, !decide_False by done.
  cbn [build_packet]. rewrite !bind_assoc, get_bind, decide_False, decide_True, decide_False
    by (done || (cbn [w2 PPPPacketSize w_PPPPacketSize]; lia)).
  rewrite !bind_assoc. unfold bind at 1.
  rewrite (sendSessionPacket_ok w2 p1 payload ([t0; t1] ++ drop (length l) (p_payload p)));
    try done.
  - exists (set_length (htons (PPPPacketSize w2 - 2)) p1). split.
    + unfold set_PPP, modify, ret, bind. f_equal. destruct w. cbn in Hs, Hn, Hx. subst. done.
    + destruct Hp1 as [[]]. split; try done. split; try done. simpl. apply htons_range.
  - unfold p1, l. cbn [p_payload set_payload]. by rewrite <- app_assoc.
  - cbn [w2 PPPPacketSize w_PPPPacketSize]. lia.
Qed.

(** A session packet from the peer, received on a raw socket with any padding
    behind it: its payload is passed on. *)
Lemma readFromEth_raw garbage_len w dest sess payload pad rs :
  wf_packet garbage -> length dest = 6%nat -> bytes dest ->
  length (peerEth (conn w)) = 6%nat -> bytes (peerEth (conn w)) ->
  0 <= sess < 65536 -> sess = session (conn w) -> bytes payload -> bytes pad ->
  HDR_SIZE + zlen payload + zlen pad <= sizeof_PPPoEPacket ->
  reads (link w) =
    Some (pppoe_frame dest (peerEth (conn w)) (Eth_PPPOE_Session w) CODE_SESS sess payload ++ pad) :: rs ->
  @readFromEth false netbsd_i386 garbage garbage_len 0 w =
    Ok (Some payload) (w_link (mkLink (bpfBuffer (link w)) (bpfSize (link w)) (bpfOffset (link w)) rs) w).
Proof.
  intros Wg Hd Bd Hpl Bp Hr Hs Bpay Bpad Hz Hreads.
  set (f := pppoe_frame _ _ _ _ _ _) in *.
  assert (Hf : zlen f = HDR_SIZE + zlen payload) by by apply zlen_pppoe_frame.
  assert (Hlen : zlen (f ++ pad) <= sizeof_PPPoEPacket) by (rewrite zlen_app; lia).
  pose proof (zlen_nonneg payload). pose proof (zlen_nonneg pad).
  set (rest := pad ++ drop (length (f ++ pad)) (packet_bytes garbage)).
  set (pkt := mkPacket dest (peerEth (conn w)) (htons (Eth_PPPOE_Session w)) 1 1 CODE_SESS sess
                (htons (zlen payload)) (payload ++ rest)).
  assert (Hrecv : receive (ABI := netbsd_i386) false garbage garbage_len w = Ok (0, pkt, zlen (f ++ pad))
    (w_link (mkLink (bpfBuffer (link w)) (bpfSize (link w)) (bpfOffset (link w)) rs) w)).
  { unfold receive, on_link, receivePacket, receivePacket_raw, next_read, bind. rewrite Hreads.
    rewrite take_ge by (unfold zlen in *; change sizeof_PPPoEPacket with 1520 in *; lia).
    rewrite overwrite_Some by done. unfold of_option, ret. do 3 f_equal.
    rewrite <- app_assoc. fold rest. unfold f. rewrite pppoe_frame_bytes. fold pkt.
    rewrite packet_of_packet_bytes; [done|].
    assert (Hrl : zlen (payload ++ rest) = ETH_DATA_LEN).
    { unfold rest. rewrite !zlen_app. pose proof (zlen_packet_bytes garbage Wg) as E.
      unfold sizeof_PPPoEPacket, HDR_SIZE, PPPOE_OVERHEAD, ETH_DATA_LEN in *.
      rewrite zlen_app in Hlen. unfold zlen in *. rewrite length_drop, length_app. lia. }
    split; try done; cbn [pkt h_dest h_source h_proto p_ver p_type p_code p_session p_length p_payload];
      try lia; try apply htons_range.
    apply bytes_app. split; [done|]. apply bytes_app. split; [done|].
    by apply bytes_drop, bytes_packet. }
  unfold readFromEth. rewrite (bind_Ok _ _ _ _ _ Hrecv). rewrite decide_False by lia.
  assert (Hpn : ntohs (p_length pkt) = zlen payload).
  { cbn [pkt p_length]. rewrite ntohs_htons, u16_small; [done|].
    unfold sizeof_PPPoEPacket, HDR_SIZE, PPPOE_OVERHEAD, ETH_DATA_LEN in *. lia. }
  assert (Hbl : u32 (zlen payload + HDR_SIZE) <= u32 (zlen (f ++ pad))).
  { rewrite zlen_app in *. unfold sizeof_PPPoEPacket, HDR_SIZE, PPPOE_OVERHEAD, ETH_DATA_LEN in *.
    rewrite !u32_small by lia. lia. }
  unfold bogus_length. rewrite Hpn, bool_decide_eq_false_2 by lia.
  rewrite get_bind. unfold ret at 1. unfold bind at 1.
  cbn [pkt p_code p_ver p_type h_source p_session p_payload w_link conn].
  rewrite !decide_False by congruence. rewrite (proj2 (mac_eqb_eq _ _) eq_refl). cbn [negb].
  rewrite decide_True, bind_of_Some by done.
  pose proof (slice_app_mid [] payload rest) as E. simpl in E. rewrite zlen_nil in E.
  cbn [pkt p_payload]. rewrite E, bind_of_Some. done.
Qed.

End Frames.

(** ** Properties *)

(** C13. However the stream from PPP is cut into reads, [asyncReadFromPPP] with
    its three nested loops does what the byte machine does on the bytes read,
    in particular the result for [a ++ b] is that for [a] and then [b], and
    the loops use each byte once. *)
Theorem asyncReadFromPPP_bytes garbage garbage_tag packet w d rest :
  stdin w = ReadData d :: rest -> d <> [] -> zlen d <= READ_CHUNK -> state_ok w ->
  asyncReadFromPPP garbage garbage_tag packet w =
    run_bytes garbage garbage_tag d packet (w_stdin rest w) /\
  forall a b, d = a ++ b ->
    asyncReadFromPPP garbage garbage_tag packet w =
      bind (run_bytes garbage garbage_tag a packet)
        (fun packet => run_bytes garbage garbage_tag b packet) (w_stdin rest w).
Proof.
  intros Hstd Hne Hz Hs.
  assert (E : asyncReadFromPPP garbage garbage_tag packet w =
    run_bytes garbage garbage_tag d packet (w_stdin rest w)).
  { unfold asyncReadFromPPP, read_stdin, bind at 1. rewrite Hstd.
    rewrite take_ge by (unfold zlen, READ_CHUNK in *; lia).
    rewrite decide_False by (unfold zlen; destruct d; simpl; [done|lia]).
    by apply async_loop_run. }
  split; [exact E|]. intros a b ->. rewrite E. apply run_bytes_app.
Qed.

(** A client in session 0x1234 whose PPP side sent [data]. *)
Definition session_world (data : list Z) : World :=
  w_stdin [ReadData data] (w_PPPState STATE_WAITFOR_FRAME_ADDR some_world).
Definition session_start : PPPoEPacket :=
  start_packet (peerEth some_conn) (myEth some_conn) (htons ETH_PPPOE_SESSION) CODE_SESS
    (session some_conn) some_packet.

Lemma asyncReadFromPPP_bytes_witness :
  let d := async_frame [0xc0; 0x21; 1; 1] in
  asyncReadFromPPP some_packet empty_tag session_start (session_world d) =
    run_bytes some_packet empty_tag d session_start (w_stdin [] (session_world d)) /\
  forall a b, d = a ++ b ->
    asyncReadFromPPP some_packet empty_tag session_start (session_world d) =
      bind (run_bytes some_packet empty_tag a session_start)
        (fun packet => run_bytes some_packet empty_tag b packet) (w_stdin [] (session_world d)).
Proof.
  intros d. apply (asyncReadFromPPP_bytes some_packet empty_tag session_start (session_world d) d []).
  - reflexivity.
  - vm_compute. discriminate.
  - vm_compute. discriminate.
  - left. reflexivity.
Defined.

(** C12. A tunnel of two clients is transparent: a PPP frame as
    [asyncReadFromEth] would write it, read by one client, leaves it as one
    session packet whose payload is the frame's; and when that packet, with
    any Ethernet padding behind it, reaches a client of the same session, that
    client writes the very same PPP frame. *)
Theorem async_tunnel garbage garbage_tag garbage_len packet wa wb payload pad rest rs :
  wf_packet garbage ->
  (* the sending side *)
  idle wa -> session_packet wa packet -> wf_conn (conn wa) ->
  optClampMSS wa = 0 -> writes wa = [] ->
  bytes payload -> zlen payload <= MAX_PPPOE_PAYLOAD ->
  stdin wa = ReadData (async_frame payload) :: rest ->
  (* the receiving side *)
  bytes pad -> HDR_SIZE + zlen payload + zlen pad <= sizeof_PPPoEPacket ->
  peerEth (conn wb) = myEth (conn wa) -> session (conn wb) = session (conn wa) ->
  Eth_PPPOE_Session wb = Eth_PPPOE_Session wa -> writes wb = [] ->
  reads (link wb) = Some (session_frame wa payload ++ pad) :: rs ->
  exists packet' wa' wb',
    asyncReadFromPPP garbage garbage_tag packet wa = Ok packet' wa' /\
    trace wa' = trace wa ++ [ASend (sessionSocket (conn wa)) (session_frame wa payload)] /\
    idle wa' /\ session_packet wa' packet' /\
    @asyncReadFromEth false netbsd_i386 garbage garbage_tag garbage_len 0 wb = Ok tt wb' /\
    trace wb' = trace wb ++ [AWrite (async_frame payload)].
Proof.
  intros Wg Hidle Hp Wc Hcl Hw Hb Hz Hstd Hpad Hfit Hpeer Hsess Htype Hwb Hreads.
  pose proof (async_frame_length payload) as Hlen. pose proof (zlen_nonneg payload).
  unfold MAX_PPPOE_PAYLOAD, PPPOE_OVERHEAD, ETH_DATA_LEN in Hz.
  destruct (async_frame_run garbage garbage_tag (w_stdin rest wa) packet payload)
    as (packet' & E & Hp'); try done.
  { destruct Hp. by split. }
  exists packet', (w_trace (trace wa ++ [ASend (sessionSocket (conn wa)) (session_frame wa payload)])
                     (w_stdin rest wa)).
  assert (Hread : @readFromEth false netbsd_i386 garbage garbage_len 0 wb = Ok (Some payload)
    (w_link (mkLink (bpfBuffer (link wb)) (bpfSize (link wb)) (bpfOffset (link wb)) rs) wb)).
  { apply (readFromEth_raw garbage garbage_len wb (peerEth (conn wa)) (session (conn wb)) payload pad rs);
      try done; rewrite ?Hpeer, ?Hsess, ?Htype; try apply Wc; try done.
    }
  eexists. split_and!; [| | | | |].
  - unfold asyncReadFromPPP, read_stdin, bind at 1. rewrite Hstd.
    rewrite take_ge by (unfold zlen, READ_CHUNK in *; lia).
    rewrite decide_False by lia. rewrite async_loop_run; [exact E|by left; apply Hidle|done].
  - done.
  - exact Hidle.
  - destruct Hp'. by split.
  - unfold asyncReadFromEth. rewrite (bind_Ok _ _ _ _ _ Hread).
    rewrite store_Some, bind_of_Some; [|lia|unfold zlen at 2; rewrite length_replicate; lia].
    unfold do_write, bind. cbn [writes w_link]. rewrite Hwb. reflexivity.
  - done.
Qed.

Definition tunnel_peer : World :=
  w_link (mkLink [] 0 0 [Some (session_frame some_world [0xc0; 0x21; 1; 1] ++ replicate 22 0)])
    (w_conn (c_peerEth (myEth some_conn) (c_myEth (peerEth some_conn) some_conn)) some_world).

Lemma async_tunnel_witness :
  let payload := [0xc0; 0x21; 1; 1] in
  let wa := session_world (async_frame payload) in
  exists packet' wa' wb',
    asyncReadFromPPP some_packet empty_tag session_start wa = Ok packet' wa' /\
    trace wa' = trace wa ++ [ASend (sessionSocket (conn wa)) (session_frame wa payload)] /\
    idle wa' /\ session_packet wa' packet' /\
    @asyncReadFromEth false netbsd_i386 some_packet empty_tag 0 0 tunnel_peer = Ok tt wb' /\
    trace wb' = trace tunnel_peer ++ [AWrite (async_frame payload)].
Proof.
  intros payload wa.
  apply (async_tunnel some_packet empty_tag 0 session_start wa tunnel_peer payload (replicate 22 0) [] []);
    try reflexivity; try (vm_compute; discriminate); try (apply forallb_bytes; vm_compute; reflexivity).
  - apply some_packet_wf.
  - repeat split.
  - split; try reflexivity. apply wf_packetb_ok. vm_compute. reflexivity.
  - apply some_world_wf.
Defined.
