(* ===== verification/SessionSafety.v ===== *)
(** * SessionSafety: the session phase for every input

    Whatever the packet filter or the sockets deliver, whatever PPP writes and
    whichever system calls fail, [session] of pppoe.c stays inside its buffers,
    its loops end, and it sends nothing but session packets for its peer and
    one final PADT.  MSS clamping is off here; its own bounds are the subject of
    Checksum.v. *)

From stdpp Require Import base list numbers strings.
From S2P Require Import Prelude Wire Tags Checksum Fcs Build Link Client Session.
Open Scope Z_scope.

(** ** What the session phase leaves alone *)

Definition stable (w : World) : World :=
  w_trace [] (w_writes [] (w_selects [] (w_stdin [] (w_link no_link
    (w_PPPState 0 (w_PPPPacketSize 0 (w_PPPXorValue 0 w))))))).

Lemma stable_conn w w' : stable w' = stable w -> conn w' = conn w.
Proof. intros E. by apply (f_equal conn) in E. Qed.
Lemma stable_globals w w' : stable w' = stable w ->
  Eth_PPPOE_Discovery w' = Eth_PPPOE_Discovery w /\ Eth_PPPOE_Session w' = Eth_PPPOE_Session w /\
  getpid w' = getpid w /\ optClampMSS w' = optClampMSS w.
Proof.
  intros E. split_and!; [apply (f_equal Eth_PPPOE_Discovery) in E|apply (f_equal Eth_PPPOE_Session) in E|
    apply (f_equal getpid) in E|apply (f_equal optClampMSS) in E]; exact E.
Qed.

Lemma padt_frame_stable w w' m : stable w' = stable w -> padt_frame w' m = padt_frame w m.
Proof.
  intros E. unfold padt_frame. rewrite (stable_conn _ _ E).
  by destruct (stable_globals _ _ E) as (-> & _ & -> & _).
Qed.

(** What may be seen of a session. *)
Definition session_action (w : World) (a : action) : Prop :=
  match a with
  | ASend sock d => sock = sessionSocket (conn w) /\
      exists payload, zlen payload <= MAX_PPPOE_PAYLOAD /\ d = session_frame w payload
  | AWrite _ => True
  | AWait _ => True
  | APrint _ _ => False
  end.

Definition session_trace (w0 : World) (tr : list action) : Prop :=
  exists new, tr = trace w0 ++ new /\ Forall (session_action w0) new.

(** How the session ends: status 0 or 1, with at most one PADT at the end. *)
Definition dies (w0 : World) (c : Z) (w : World) : Prop :=
  (c = 0 \/ c = 1) /\ exists tr, session_trace w0 tr /\
    (trace w = tr \/ exists m, trace w = tr ++ [padt_frame w0 m]).

Section SessionSafety.
Context (USE_BPF : bool) `{ABI : BpfAbi} `{OK : !BpfAbiOk ABI}.
Context (garbage : PPPoEPacket) (garbage_tag : PPPoETag) (garbage_len : Z).
Context (Wg : wf_packet garbage) (Wt : wf_tag garbage_tag).

(** The state between two operations. *)
Record ssn (w0 w : World) : Prop := {
  s_wf : wf_world w;
  s_good : good_link USE_BPF (link w);
  s_stable : stable w = stable w0;
  s_trace : session_trace w0 (trace w);
  s_state : state_ok w;
  s_size : 0 <= PPPPacketSize w <= ETH_DATA_LEN - 4;
  s_clamp : optClampMSS w0 = 0;
  s_stdin : Forall (fun r => match r with ReadData d => bytes d | _ => True end) (stdin w);
  s_xor : is_byte (PPPXorValue w)
}.

Lemma ssn_packet w0 w p : ssn w0 w -> session_packet w0 p -> session_packet w p.
Proof.
  intros S []. pose proof (stable_conn _ _ (s_stable _ _ S)) as E.
  destruct (stable_globals _ _ (s_stable _ _ S)) as (_ & E2 & _). split; congruence.
Qed.

Lemma ssn_frame w0 w payload : ssn w0 w -> session_frame w payload = session_frame w0 payload.
Proof.
  intros S. unfold session_frame. rewrite (stable_conn _ _ (s_stable _ _ S)).
  by destruct (stable_globals _ _ (s_stable _ _ S)) as (_ & -> & _).
Qed.

Lemma padt_dies {A} w0 w m code (Q : A -> World -> Prop) :
  ssn w0 w -> msg_ok m -> code = 0 \/ code = 1 ->
  wp (do! sendPADT garbage garbage_tag (Some m) ;; exit code) Q (dies w0) w.
Proof.
  intros S Hm Hc.
  destruct (padt_exit_cases (A := A) garbage garbage_tag Wg Wt m code w (s_wf _ _ S) Hm)
    as (w' & e & [_ Ht] & He & R).
  eapply wp_Exit; [exact R|]. split; [destruct He as [->| ->]; auto|].
  exists (trace w). split; [apply S|]. destruct Ht as [->|[_ ->]]; [by left|right].
  exists m. by rewrite (padt_frame_stable _ _ m (s_stable _ _ S)).
Qed.

Lemma fatalSys_dies {A} w0 w (Q : A -> World -> Prop) :
  ssn w0 w -> wp (fatalSys garbage garbage_tag) Q (dies w0) w.
Proof. intros S. apply (padt_dies w0 w _ 1); [done|apply sys_msg_ok|auto]. Qed.

Lemma session_trace_snoc w0 tr a :
  session_trace w0 tr -> session_action w0 a -> session_trace w0 (tr ++ [a]).
Proof.
  intros (new & -> & H) Ha. exists (new ++ [a]). split; [by rewrite app_assoc|].
  apply Forall_app. auto.
Qed.

(** What an operation that does not receive leaves alone. *)
Definition keeps (w w' : World) : Prop := link w' = link w /\ selects w' = selects w.

Lemma keeps_refl w : keeps w w.
Proof. done. Qed.
Lemma keeps_trans w w' w'' : keeps w w' -> keeps w' w'' -> keeps w w''.
Proof. intros [? ?] [? ?]. split; congruence. Qed.

Lemma ssn_written w0 w a w' :
  ssn w0 w -> session_action w0 a -> do_write a w = Ok true w' -> ssn w0 w' /\ keeps w w'.
Proof.
  intros [[W1 W2 W3]] Ha. unfold do_write. destruct (writes w) as [|[] ws]; intros [= <-].
  all: split; [|done]; split; try done; by apply session_trace_snoc.
Qed.

Lemma ssn_write w0 w a (Q : bool -> World -> Prop) E :
  ssn w0 w -> session_action w0 a ->
  (forall b w', ssn w0 w' -> keeps w w' -> Q b w') -> wp (do_write a) Q E w.
Proof.
  intros S Ha HQ. destruct (do_write_cases a w) as [(ws & _ & Ew)|(w' & Ew & _)].
  - eapply wp_Ok; [exact Ew|]. apply HQ; [|done]. destruct S as [[]]. split; try done.
  - eapply wp_Ok; [exact Ew|]. destruct (ssn_written w0 w a w' S Ha Ew). by apply HQ.
Qed.

Lemma set_length_session w p len : session_packet w p -> session_packet w (set_length (htons len) p).
Proof. intros [[]]. split; try done. split; try done. simpl. apply htons_range. Qed.

Lemma set_payload_session w p pl : session_packet w p -> zlen pl = ETH_DATA_LEN -> bytes pl ->
  session_packet w (set_payload pl p).
Proof. intros [[]] ? ?. split; try done. Qed.

Lemma wp_sendSessionPacket w0 w p len (Q : PPPoEPacket -> World -> Prop) :
  ssn w0 w -> session_packet w0 p -> 0 <= len <= MAX_PPPOE_PAYLOAD ->
  (forall p' w', ssn w0 w' -> keeps w w' -> session_packet w0 p' -> Q p' w') ->
  wp (sendSessionPacket garbage garbage_tag p len) Q (dies w0) w.
Proof.
  intros S Hp Hl HQ. unfold sendSessionPacket. apply wp_get_bind.
  destruct (stable_globals _ _ (s_stable _ _ S)) as (_ & _ & _ & Ec).
  rewrite decide_True by (rewrite Ec; apply S). eapply wp_opt_bind; [done|].
  pose proof (wf_payload_len _ (sp_wf _ _ Hp)) as Hz.
  unfold MAX_PPPOE_PAYLOAD, PPPOE_OVERHEAD, ETH_DATA_LEN in Hl, Hz.
  set (payload := take (Z.to_nat len) (p_payload p)).
  assert (Hpl : zlen payload = len) by (unfold payload, zlen in *; rewrite length_take; lia).
  assert (Fr : frame (set_length (htons len) p) (len + HDR_SIZE) = Some (session_frame w payload)).
  { apply (frame_session w p len payload (drop (Z.to_nat len) (p_payload p))); [|unfold payload; by rewrite take_drop|done].
    by eapply ssn_packet. }
  apply wp_bind.
  destruct (sendPacket_cases garbage garbage_tag Wg Wt (sessionSocket (conn w)) _ _ _ w (s_wf _ _ S) Fr)
    as [(w' & Ew & R)|(w' & R & [_ Ht])].
  - eapply wp_Ok; [exact R|].
    assert (Ha : session_action w0 (ASend (sessionSocket (conn w)) (session_frame w payload))).
    { split; [by rewrite (stable_conn _ _ (s_stable _ _ S))|]. exists payload.
      split; [unfold MAX_PPPOE_PAYLOAD, PPPOE_OVERHEAD, ETH_DATA_LEN; lia|by apply ssn_frame]. }
    destruct (ssn_written w0 w _ w' S Ha Ew) as [S' K].
    apply wp_ret, HQ; [done|done|]. by apply set_length_session.
  - eapply wp_Exit; [exact R|]. split; [by right|]. exists (trace w). split; [apply S|].
    destruct Ht as [->|[_ ->]]; [by left|right]. eexists. by rewrite (padt_frame_stable _ _ _ (s_stable _ _ S)).
Qed.

Lemma ssn_PPP w0 w st size xor :
  ssn w0 w -> (st = STATE_WAITFOR_FRAME_ADDR \/ st = STATE_DROP_PROTO \/ st = STATE_BUILDING_PACKET) ->
  0 <= size <= ETH_DATA_LEN - 4 -> is_byte xor ->
  ssn w0 (w_PPPState st (w_PPPPacketSize size (w_PPPXorValue xor w))).
Proof. intros [[]] ? ? ?. split; try done. Qed.

Lemma ssn_state w0 w st :
  ssn w0 w -> (st = STATE_WAITFOR_FRAME_ADDR \/ st = STATE_DROP_PROTO \/ st = STATE_BUILDING_PACKET) ->
  ssn w0 (w_PPPState st w).
Proof. intros [[]] ?. split; try done. Qed.

Lemma short_msg_ok s : forallb (fun x => (0 <=? x) && (x <? 256)) (str s) = true ->
  (zlen (str s) <=? 1400) = true -> msg_ok (str s).
Proof. intros H1 H2. split; [by apply forallb_bytes|lia]. Qed.

Lemma wp_ppp_byte w0 w c p (Q : PPPoEPacket -> World -> Prop) :
  ssn w0 w -> is_byte c -> session_packet w0 p ->
  (forall p' w', ssn w0 w' -> keeps w w' -> session_packet w0 p' -> Q p' w') ->
  wp (ppp_byte garbage garbage_tag c p) Q (dies w0) w.
Proof.
  intros S Hc Hp HQ. unfold ppp_byte. apply wp_get_bind.
  case_decide; [|case_decide].
  - apply wp_modify_bind, wp_ret, HQ; [|done|done]. apply ssn_state; [done|]. case_decide; auto.
  - apply wp_modify_bind, wp_ret, HQ; [|done|done]. apply ssn_state; [done|]. case_decide; auto.
  - apply wp_bind. cbn [build_packet]. apply wp_get_bind. pose proof (s_size _ _ S) as Hz.
    unfold set_PPP. case_decide; [|case_decide; [case_decide|case_decide]].
    + apply wp_modify_bind, wp_ret, wp_ret, HQ; [|done|done]. by apply ssn_PPP; [|auto|..].
    + apply (padt_dies w0 w _ 1); [done|by apply short_msg_ok|auto].
    + apply wp_bind, (wp_sendSessionPacket w0); [done|done| |].
      * unfold MAX_PPPOE_PAYLOAD, PPPOE_OVERHEAD, ETH_DATA_LEN in *. lia.
      * intros p' w' S' K Hp'. apply wp_modify_bind, wp_ret, wp_ret, HQ; [|done|done].
        by apply ssn_PPP; [|auto|..].
    + apply wp_modify_bind, wp_ret, wp_ret, HQ; [|done|done]. by apply ssn_PPP; [|auto|..].
    + unfold ETH_DATA_LEN in *. pose proof (wf_payload_len _ (sp_wf _ _ Hp)) as Hl. unfold ETH_DATA_LEN in Hl.
      assert (Hst : exists pl, store (p_payload p) (PPPPacketSize w) [Z.lxor c (PPPXorValue w)] = Some pl).
      { rewrite store_Some; [by eexists|lia|]. rewrite zlen_cons, zlen_nil. lia. }
      destruct Hst as [pl Hst]. eapply wp_opt_bind; [exact Hst|].
      apply wp_modify_bind, wp_ret, wp_ret, HQ; [|done|].
      * apply ssn_PPP; [done|auto|unfold ETH_DATA_LEN; lia|done].
      * apply set_payload_session; [done|by rewrite (store_zlen _ _ _ _ Hst)|].
        eapply (bytes_store (p_payload p)); [apply Hp| |exact Hst].
        constructor; [|constructor]. unfold is_byte. pose proof (s_xor _ _ S) as Hx.
        unfold is_byte in Hc, Hx. apply (lxor_range 8); lia.
Qed.

Lemma wp_run_bytes w0 buf : forall w p (Q : PPPoEPacket -> World -> Prop),
  ssn w0 w -> bytes buf -> session_packet w0 p ->
  (forall p' w', ssn w0 w' -> keeps w w' -> session_packet w0 p' -> Q p' w') ->
  wp (run_bytes garbage garbage_tag buf p) Q (dies w0) w.
Proof.
  induction buf as [|c buf IH]; intros w p Q S Hb Hp HQ; cbn [run_bytes].
  - apply wp_ret. by apply HQ.
  - inversion Hb; subst. apply wp_bind, wp_ppp_byte with (w0 := w0); try done.
    intros p' w' S' K Hp'. apply IH; try done. intros p'' w'' S'' K' Hp''.
    apply HQ; [done| |done]. by eapply keeps_trans.
Qed.

(** ** From PPP *)

Lemma wp_read_stdin w0 w (Q : read_result -> World -> Prop) E :
  ssn w0 w ->
  (forall r w', ssn w0 w' -> keeps w w' ->
     match r with ReadData d => bytes d | _ => True end -> Q r w') ->
  wp read_stdin Q E w.
Proof.
  intros S HQ. unfold wp, read_stdin. pose proof (s_stdin _ _ S) as Hin.
  destruct (stdin w) as [|r rs] eqn:Es; [done|]. inversion Hin; subst.
  apply HQ; [|done|done]. destruct S as [[]]. split; try done.
Qed.

Lemma wp_asyncReadFromPPP w0 w p (Q : PPPoEPacket -> World -> Prop) :
  ssn w0 w -> session_packet w0 p ->
  (forall p' w', ssn w0 w' -> keeps w w' -> session_packet w0 p' -> Q p' w') ->
  wp (asyncReadFromPPP garbage garbage_tag p) Q (dies w0) w.
Proof.
  intros S Hp HQ. unfold asyncReadFromPPP. apply wp_bind, (wp_read_stdin w0); [done|].
  intros [d|] w' S' K Hd; [|by apply (fatalSys_dies w0)].
  case_decide as D; [apply (padt_dies w0 w' _ 0); [done|by apply short_msg_ok|auto]|].
  unfold wp. rewrite async_loop_run; [|apply S'|done].
  change (wp (run_bytes garbage garbage_tag (take (Z.to_nat READ_CHUNK) d) p) Q (dies w0) w').
  apply wp_run_bytes; [done|by apply bytes_take|done|].
  intros p' w'' S'' K' Hp'. apply HQ; [done| |done]. by eapply keeps_trans.
Qed.

Lemma wp_syncReadFromPPP w0 w p (Q : PPPoEPacket -> World -> Prop) :
  ssn w0 w -> session_packet w0 p ->
  (forall p' w', ssn w0 w' -> keeps w w' -> session_packet w0 p' -> Q p' w') ->
  wp (syncReadFromPPP garbage garbage_tag p) Q (dies w0) w.
Proof.
  intros S Hp HQ. unfold syncReadFromPPP. apply wp_bind, (wp_read_stdin w0); [done|].
  intros [d|[|]] w' S' K Hd;
    [|apply (padt_dies w0 w' _ 1); [done|by apply short_msg_ok|auto]|by apply (fatalSys_dies w0)].
  set (data := take (Z.to_nat (2 + (ETH_DATA_LEN - PPPOE_OVERHEAD))) d).
  assert (Hl : zlen data <= 1496).
  { unfold data, zlen. rewrite length_take. unfold ETH_DATA_LEN, PPPOE_OVERHEAD. lia. }
  pose proof (wf_payload_len _ (sp_wf _ _ Hp)) as Hz. unfold ETH_DATA_LEN in Hz.
  assert (Hst : exists pl, store (p_payload p) 0 (drop 2 data) = Some pl).
  { rewrite store_Some; [by eexists|lia|]. unfold zlen in *. rewrite length_drop. lia. }
  destruct Hst as [pl Hst]. eapply wp_opt_bind; [exact Hst|].
  case_decide; [apply (padt_dies w0 w' _ 0); [done|by apply short_msg_ok|auto]|].
  case_decide; [apply (padt_dies w0 w' _ 1); [done|by apply short_msg_ok|auto]|].
  apply (wp_sendSessionPacket w0); [done| | |].
  - apply set_payload_session; [done|by rewrite (store_zlen _ _ _ _ Hst)|].
    eapply (bytes_store (p_payload p)); [apply Hp|by apply bytes_drop, bytes_take|exact Hst].
  - unfold MAX_PPPOE_PAYLOAD, PPPOE_OVERHEAD, ETH_DATA_LEN. lia.
  - intros p' w'' S'' K' Hp'. apply HQ; [done| |done]. by eapply keeps_trans.
Qed.

(** ** From Ethernet *)

(** An operation that receives consumes input, at least when some was
    buffered. *)
Definition consumes (w w' : World) : Prop :=
  selects w' = selects w /\ (link_budget (link w') <= link_budget (link w))%nat /\
  (buffer_is_empty USE_BPF (link w) = false -> (link_budget (link w') < link_budget (link w))%nat).

Lemma consumes_keeps w w' w'' : consumes w w' -> keeps w' w'' -> consumes w w''.
Proof. intros (H1 & H2 & H3) [K1 K2]. unfold consumes. rewrite K1, K2. auto. Qed.

Lemma ssn_receive w0 w (Q : received -> World -> Prop) E :
  ssn w0 w ->
  (forall r pkt len w', ssn w0 w' -> consumes w w' -> wf_packet pkt ->
     (r < 0 \/ 0 <= len <= sizeof_PPPoEPacket \/ p_length pkt = 0) -> Q (r, pkt, len) w') ->
  wp (receive USE_BPF garbage garbage_len) Q E w.
Proof.
  intros S HQ. unfold receive, on_link, wp.
  pose proof (receive_good USE_BPF garbage garbage_len (link w) Wg (s_good _ _ S)) as H.
  destruct (receivePacket USE_BPF garbage garbage_len (link w)) as [[[r pkt] len] l'| |[]]; simpl in H; try done.
  destruct H as (H1 & H2 & H3 & H4 & H5). apply HQ; [|done|done|done].
  destruct S as [[]]. split; try done.
Qed.

Lemma quiet_dies w0 w : ssn w0 w -> dies w0 0 w.
Proof. intros S. split; [by left|]. exists (trace w). split; [apply S|by left]. Qed.

Lemma wp_check_PADT w0 w pkt (Q : unit -> World -> Prop) :
  ssn w0 w -> wf_packet pkt -> Q tt w -> wp (check_PADT pkt) Q (dies w0) w.
Proof.
  intros S W HQ. unfold check_PADT. apply wp_get_bind.
  case_decide; [by apply wp_ret|]. case_decide; [by apply wp_ret|].
  apply wp_bind, wp_run_local.
  eapply wp_mono; [apply (wp_parsePacket pkt parseLogErrs (fun _ _ => True) (fun _ _ => False)); try done| |done].
  - intros pre t l _ _. unfold parseLogErrs. repeat case_decide; done.
  - intros r l _. apply wp_exit. by apply quiet_dies.
Qed.

Lemma wp_sessionDiscoveryPacket w0 w (Q : unit -> World -> Prop) :
  ssn w0 w -> (forall w', ssn w0 w' -> consumes w w' -> Q tt w') ->
  wp (sessionDiscoveryPacket USE_BPF garbage garbage_len) Q (dies w0) w.
Proof.
  intros S HQ. unfold sessionDiscoveryPacket. apply wp_bind, (ssn_receive w0); [done|].
  intros r pkt len w' S' C W _. cbn iota beta.
  case_decide; [apply wp_ret; auto|]. destruct (bogus_length pkt len); [apply wp_ret; auto|].
  apply (wp_check_PADT w0); auto.
Qed.

Lemma wp_readFromEth w0 w (Q : option (list Z) -> World -> Prop) :
  ssn w0 w ->
  (forall r w', ssn w0 w' -> consumes w w' ->
     match r with Some payload => zlen payload <= ETH_DATA_LEN | None => True end -> Q r w') ->
  wp (readFromEth USE_BPF garbage garbage_len 0) Q (dies w0) w.
Proof.
  intros S HQ. unfold readFromEth. apply wp_bind, (ssn_receive w0); [done|].
  intros r pkt len w' S' C W Hsz. cbn iota beta.
  assert (Hno : wp (ret None) Q (dies w0) w') by (apply wp_ret, HQ; auto).
  case_decide as Dr; [done|]. destruct (bogus_length pkt len) eqn:Eb; [done|]. apply wp_get_bind.
  assert (Hlen : 0 <= ntohs (p_length pkt) <= ETH_DATA_LEN).
  { pose proof (htons_range (p_length pkt)) as Hr. split; [apply Hr|].
    destruct Hsz as [?|[Hsz|E]]; [done| |by rewrite E].
    pose proof (bogus_length_false pkt len W Eb (proj1 Hsz)).
    unfold sizeof_PPPoEPacket, HDR_SIZE in *. lia. }
  apply wp_bind.
  match goal with |- wp _ ?R _ _ => assert (Hrest : R false w') end.
  { cbv beta iota. do 3 (case_decide; [done|]). destruct (negb _); [done|]. case_decide; [done|].
    cbv zeta. case_decide; [done|]. eapply wp_opt_bind; [done|].
    pose proof (wf_payload_len _ W) as Hz.
    eapply wp_opt_bind; [apply slice_Some; lia|]. apply wp_ret, HQ; [done|done|].
    unfold zlen in *. rewrite length_take, drop_0. lia. }
  destruct USE_BPF; [|by apply wp_ret].
  destruct (decide (etherType pkt = Eth_PPPOE_Discovery w')).
  - apply wp_bind, (wp_check_PADT w0); [done|done|]. by apply wp_ret.
  - apply wp_ret. destruct (negb (etherType pkt =? Eth_PPPOE_Session w')); [exact Hno|exact Hrest].
Qed.

Lemma wp_asyncReadFromEth w0 w (Q : unit -> World -> Prop) :
  ssn w0 w -> (forall w', ssn w0 w' -> consumes w w' -> Q tt w') ->
  wp (asyncReadFromEth USE_BPF garbage garbage_tag garbage_len 0) Q (dies w0) w.
Proof.
  intros S HQ. unfold asyncReadFromEth. apply wp_bind, (wp_readFromEth w0); [done|].
  intros [payload|] w' S' C Hl; [|apply wp_ret; auto].
  pose proof (async_frame_length payload) as Hf. unfold ETH_DATA_LEN in Hl.
  eapply wp_opt_bind; [apply store_Some; [lia|unfold zlen at 2; rewrite length_replicate; lia]|].
  apply wp_bind, (ssn_write w0); [done|done|]. intros [|] w'' S'' K.
  - apply wp_ret, HQ; [done|]. by eapply consumes_keeps.
  - by apply (fatalSys_dies w0).
Qed.

Lemma wp_syncReadFromEth w0 w (Q : unit -> World -> Prop) :
  ssn w0 w -> (forall w', ssn w0 w' -> consumes w w' -> Q tt w') ->
  wp (syncReadFromEth USE_BPF garbage garbage_tag garbage_len 0) Q (dies w0) w.
Proof.
  intros S HQ. unfold syncReadFromEth. apply wp_bind, (wp_readFromEth w0); [done|].
  intros [payload|] w' S' C Hl; [|apply wp_ret; auto].
  apply wp_bind, (ssn_write w0); [done|done|]. intros [|] w'' S'' K.
  - apply wp_ret, HQ; [done|]. by eapply consumes_keeps.
  - by apply (fatalSys_dies w0).
Qed.

Lemma wp_read_eth w0 w (Q : unit -> World -> Prop) :
  ssn w0 w -> (forall w', ssn w0 w' -> consumes w w' -> Q tt w') ->
  wp (read_eth USE_BPF garbage garbage_tag garbage_len) Q (dies w0) w.
Proof.
  intros S HQ. unfold read_eth. apply wp_get_bind.
  destruct (stable_globals _ _ (s_stable _ _ S)) as (_ & _ & _ & ->). rewrite (s_clamp _ _ S).
  destruct (synchronous (conn w)); [by apply wp_syncReadFromEth|by apply wp_asyncReadFromEth].
Qed.

(** ** The loops *)

Lemma wp_drain_eth w0 fuel : forall w (Q : unit -> World -> Prop),
  ssn w0 w -> (link_budget (link w) <= fuel)%nat ->
  (forall w', ssn w0 w' -> selects w' = selects w -> Q tt w') ->
  wp (drain_eth USE_BPF garbage garbage_tag garbage_len fuel) Q (dies w0) w.
Proof.
  induction fuel as [|fuel IH]; intros w Q S Hb HQ; cbn [drain_eth]; apply wp_get_bind;
    unfold BPF_BUFFER_IS_EMPTY; destruct (buffer_is_empty USE_BPF (link w)) eqn:Ee.
  - by apply wp_ret, HQ.
  - exfalso. unfold buffer_is_empty, link_budget in *. destruct USE_BPF; [|done]. lia.
  - by apply wp_ret, HQ.
  - apply wp_bind, (wp_read_eth w0); [done|]. intros w' S' (C1 & C2 & C3). specialize (C3 Ee).
    apply IH; [done|lia|]. intros w'' S'' E. apply HQ; [done|congruence].
Qed.

Lemma wp_read_ppp w0 w p (Q : PPPoEPacket -> World -> Prop) :
  ssn w0 w -> session_packet w0 p ->
  (forall p' w', ssn w0 w' -> keeps w w' -> session_packet w0 p' -> Q p' w') ->
  wp (read_ppp garbage garbage_tag p) Q (dies w0) w.
Proof.
  intros S Hp HQ. unfold read_ppp. apply wp_get_bind.
  destruct (synchronous (conn w)); [by apply (wp_syncReadFromPPP w0)|by apply (wp_asyncReadFromPPP w0)].
Qed.

Lemma wp_session_loop w0 fuel : forall w p,
  ssn w0 w -> session_packet w0 p -> (length (selects w) < fuel)%nat ->
  wp (session_loop USE_BPF garbage garbage_tag garbage_len fuel p) (fun _ _ => False) (dies w0) w.
Proof.
  induction fuel as [|fuel IH]; intros w p S Hp Hf; [lia|]. cbn [session_loop]. apply wp_get_bind, wp_bind.
  unfold do_select, emit. apply wp_modify_bind. unfold wp at 1. cbn [selects w_trace].
  assert (Hd : (length (drop_intr (selects w)) <= length (selects w))%nat).
  { clear. induction (selects w) as [|[] l IH]; simpl; lia. }
  destruct (drop_intr (selects w)) as [|r rs] eqn:Ed; [done|].
  match goal with |- wp _ _ _ ?s => set (w1 := s) end.
  assert (S1 : ssn w0 w1).
  { destruct S as [[]]. split; try done. by apply session_trace_snoc. }
  assert (Hf1 : (length (selects w1) < fuel)%nat) by (simpl in *; lia).
  destruct r as [| | |pr sr dr].
  - by apply IH.
  - by apply (fatalSys_dies w0).
  - apply (padt_dies w0 w1 _ 1); [done|by apply short_msg_ok|auto].
  - apply wp_bind.
    assert (Hnext : forall p' w2, ssn w0 w2 -> keeps w1 w2 -> session_packet w0 p' ->
      wp (do! (if sr then do! read_eth USE_BPF garbage garbage_tag garbage_len ;;
                let! w := get in drain_eth USE_BPF garbage garbage_tag garbage_len (drain_fuel w)
               else ret tt) ;;
          do! (if negb USE_BPF && dr then sessionDiscoveryPacket USE_BPF garbage garbage_len else ret tt) ;;
          session_loop USE_BPF garbage garbage_tag garbage_len fuel p')
        (fun _ _ => False) (dies w0) w2).
    { intros p' w2 S2 [_ K2] Hp'.
      assert (Hlast : forall w3, ssn w0 w3 -> selects w3 = selects w2 ->
        wp (do! (if negb USE_BPF && dr then sessionDiscoveryPacket USE_BPF garbage garbage_len else ret tt) ;;
            session_loop USE_BPF garbage garbage_tag garbage_len fuel p') (fun _ _ => False) (dies w0) w3).
      { intros w3 S3 E3. apply wp_bind. destruct (negb USE_BPF && dr).
        - apply (wp_sessionDiscoveryPacket w0); [done|]. intros w4 S4 (E4 & _).
          apply IH; [done|done|]. by rewrite E4, E3, K2.
        - apply wp_ret, IH; [done|done|]. by rewrite E3, K2. }
      apply wp_bind. destruct sr; [|by apply wp_ret, Hlast].
      apply wp_bind, (wp_read_eth w0); [done|]. intros w3 S3 (E3 & _). apply wp_get_bind.
      apply (wp_drain_eth w0); [done|done|]. intros w4 S4 E4. apply Hlast; [done|congruence]. }
    destruct pr; [|by apply wp_ret, Hnext]. apply (wp_read_ppp w0); [done|done|].
    intros p' w2 S2 K2 Hp'. by apply Hnext.
Qed.

End SessionSafety.

(** ** Properties *)

Definition session_outcome (w0 : World) (o : outcome World unit) : Prop :=
  match o with
  | Ok _ _ => False
  | Exit c w' => dies w0 c w'
  | Stop Blocked _ => True
  | Stop _ _ => False
  end.


(** A session over the packet filter: one frame from PPP cut in two, one PADT
    from the peer. *)
Definition filter_record (data : list Z) : list Z :=
  replicate 8 0 ++ le32 (zlen data) ++ le32 (zlen data) ++ [20; 0; 0; 0] ++ data.
Definition padt_data : list Z :=
  discovery_frame [2; 0; 0; 0; 0; 1] [2; 0; 0; 0; 0; 2] ETH_PPPOE_DISCOVERY CODE_PADT (htons 0x1234) [].
Definition filter_world : World :=
  w_link (mkLink (replicate 64 0) 0 0 [Some (filter_record padt_data)])
    (w_selects [SelReady true false false; SelIntr; SelReady true false false; SelReady false true false]
      (w_stdin [ReadData (take 5 (async_frame [0xc0; 0x21; 1; 1]));
                ReadData (drop 5 (async_frame [0xc0; 0x21; 1; 1]))] some_world)).


(** In the packet-filter build a frame of the discovery type falls through to
    the session checks after [sessionDiscoveryPacket] returned: with the code
    of a session packet its payload is handed to PPP. *)
Lemma discovery_frame_taken_for_session :
  exists w', @asyncReadFromEth true netbsd_i386 some_packet empty_tag 0 0
    (w_link (mkLink (replicate 64 0) 0 0 [Some (filter_record
       (pppoe_frame (myEth some_conn) (peerEth some_conn) ETH_PPPOE_DISCOVERY CODE_SESS
          (session some_conn) [0xc0; 0x21]))]) some_world) = Ok tt w' /\
    trace w' = [AWrite (async_frame [0xc0; 0x21])].
Proof. eexists. split; vm_compute; reflexivity. Qed.
