(* ===== verification/Md5.v ===== *)
(** * Md5: the digest behind the server's cookies (md5.c, md5.h)

    [MD5Transform] as its table of 64 steps, [MD5Init], [MD5Update] and
    [MD5Final] on the context structure, with 32-bit arithmetic; proved equal,
    for every way of cutting the message into updates, to "pad, then absorb
    blocks of 64 bytes". *)

From stdpp Require Import base list numbers strings.
From S2P Require Import Prelude Wire.
Open Scope Z_scope.

(** ** The code *)

(** [buf] has four words, [in_] 64 bytes; [bits0] is the low word of the bit
    count. *)
Record MD5Context := mkMD5 {
  buf : list Z;
  bits0 : Z;
  bits1 : Z;
  in_ : list Z
}.

Definition F1 (x y z : Z) : Z := Z.lxor z (Z.land x (Z.lxor y z)).
Definition F2 (x y z : Z) : Z := F1 z x y.
Definition F3 (x y z : Z) : Z := Z.lxor x (Z.lxor y z).
Definition F4 (x y z : Z) : Z := Z.lxor y (Z.lor x (u32 (Z.lnot z))).

(** [w += f(x,y,z) + data, w = w<<s | w>>(32-s), w += x]. *)
Definition MD5STEP (f : Z -> Z -> Z -> Z) (w x y z data s : Z) : Z :=
  let w := u32 (w + f x y z + data) in
  let w := Z.lor (u32 (Z.shiftl w s)) (Z.shiftr w (32 - s)) in
  u32 (w + x).

(** The 64 lines of [MD5Transform]: function, index into [in], constant and
    rotation.  The four registers take turns in the order a, d, c, b. *)
Definition md5_steps : list ((Z -> Z -> Z -> Z) * nat * Z * Z) :=
  [
    (F1, 0%nat, 0xd76aa478, 7); (F1, 1%nat, 0xe8c7b756, 12);
    (F1, 2%nat, 0x242070db, 17); (F1, 3%nat, 0xc1bdceee, 22);
    (F1, 4%nat, 0xf57c0faf, 7); (F1, 5%nat, 0x4787c62a, 12);
    (F1, 6%nat, 0xa8304613, 17); (F1, 7%nat, 0xfd469501, 22);
    (F1, 8%nat, 0x698098d8, 7); (F1, 9%nat, 0x8b44f7af, 12);
    (F1, 10%nat, 0xffff5bb1, 17); (F1, 11%nat, 0x895cd7be, 22);
    (F1, 12%nat, 0x6b901122, 7); (F1, 13%nat, 0xfd987193, 12);
    (F1, 14%nat, 0xa679438e, 17); (F1, 15%nat, 0x49b40821, 22);
    (F2, 1%nat, 0xf61e2562, 5); (F2, 6%nat, 0xc040b340, 9);
    (F2, 11%nat, 0x265e5a51, 14); (F2, 0%nat, 0xe9b6c7aa, 20);
    (F2, 5%nat, 0xd62f105d, 5); (F2, 10%nat, 0x02441453, 9);
    (F2, 15%nat, 0xd8a1e681, 14); (F2, 4%nat, 0xe7d3fbc8, 20);
    (F2, 9%nat, 0x21e1cde6, 5); (F2, 14%nat, 0xc33707d6, 9);
    (F2, 3%nat, 0xf4d50d87, 14); (F2, 8%nat, 0x455a14ed, 20);
    (F2, 13%nat, 0xa9e3e905, 5); (F2, 2%nat, 0xfcefa3f8, 9);
    (F2, 7%nat, 0x676f02d9, 14); (F2, 12%nat, 0x8d2a4c8a, 20);
    (F3, 5%nat, 0xfffa3942, 4); (F3, 8%nat, 0x8771f681, 11);
    (F3, 11%nat, 0x6d9d6122, 16); (F3, 14%nat, 0xfde5380c, 23);
    (F3, 1%nat, 0xa4beea44, 4); (F3, 4%nat, 0x4bdecfa9, 11);
    (F3, 7%nat, 0xf6bb4b60, 16); (F3, 10%nat, 0xbebfbc70, 23);
    (F3, 13%nat, 0x289b7ec6, 4); (F3, 0%nat, 0xeaa127fa, 11);
    (F3, 3%nat, 0xd4ef3085, 16); (F3, 6%nat, 0x04881d05, 23);
    (F3, 9%nat, 0xd9d4d039, 4); (F3, 12%nat, 0xe6db99e5, 11);
    (F3, 15%nat, 0x1fa27cf8, 16); (F3, 2%nat, 0xc4ac5665, 23);
    (F4, 0%nat, 0xf4292244, 6); (F4, 7%nat, 0x432aff97, 10);
    (F4, 14%nat, 0xab9423a7, 15); (F4, 5%nat, 0xfc93a039, 21);
    (F4, 12%nat, 0x655b59c3, 6); (F4, 3%nat, 0x8f0ccc92, 10);
    (F4, 10%nat, 0xffeff47d, 15); (F4, 1%nat, 0x85845dd1, 21);
    (F4, 8%nat, 0x6fa87e4f, 6); (F4, 15%nat, 0xfe2ce6e0, 10);
    (F4, 6%nat, 0xa3014314, 15); (F4, 13%nat, 0x4e0811a1, 21);
    (F4, 4%nat, 0xf7537e82, 6); (F4, 11%nat, 0xbd3af235, 10);
    (F4, 2%nat, 0x2ad7d2bb, 15); (F4, 9%nat, 0xeb86d391, 21)
  ].

(** Line after line: the register written becomes the next line's [x]. *)
Definition md5_line (inp : list Z) (r : Z * Z * Z * Z)
    (l : (Z -> Z -> Z -> Z) * nat * Z * Z) : Z * Z * Z * Z :=
  let '(w, x, y, z) := r in
  let '(f, k, const, s) := l in
  (z, MD5STEP f w x y z (u32 (nthb inp k + const)) s, x, y).

Definition MD5Transform (b inp : list Z) : list Z :=
  let '(a, b', c, d) := fold_left (md5_line inp) md5_steps (nthb b 0, nthb b 1, nthb b 2, nthb b 3) in
  [u32 (nthb b 0 + a); u32 (nthb b 1 + b'); u32 (nthb b 2 + c); u32 (nthb b 3 + d)].

(** [longs] words of a buffer are read byte by byte and stored as words. *)
Fixpoint byteReverse (b : list Z) (longs : nat) {struct longs} : list Z :=
  match longs with
  | O => b
  | S longs =>
    match b with
    | b0 :: b1 :: b2 :: b3 :: b =>
      let t := Z.lor (Z.shiftl (Z.lor (Z.shiftl b3 8) b2) 16) (Z.lor (Z.shiftl b1 8) b0) in
      le32 t ++ byteReverse b longs
    | _ => b
    end
  end.

(** [ctx->in] read as an array of words. *)
Definition word (b : list Z) (i : nat) : Z := un_le32 (take 4 (drop (4 * i) b)).
Definition words (b : list Z) : list Z := map (word b) (seq 0 16).

Definition MD5Init (ctx : MD5Context) : MD5Context :=
  mkMD5 [0x67452301; 0xefcdab89; 0x98badcfe; 0x10325476] 0 0 (in_ ctx).

(** [byteReverse(ctx->in, 16); MD5Transform(ctx->buf, ctx->in)]. *)
Definition transform_in (ctx : MD5Context) : MD5Context :=
  let i := byteReverse (in_ ctx) 16 in
  mkMD5 (MD5Transform (buf ctx) (words i)) (bits0 ctx) (bits1 ctx) i.

Definition set_in (ctx : MD5Context) (i : list Z) : MD5Context :=
  mkMD5 (buf ctx) (bits0 ctx) (bits1 ctx) i.

(** [while (len >= 64) ...], then the remaining bytes. *)
Fixpoint update_blocks (fuel : nat) (ctx : MD5Context) (data : list Z) : option MD5Context :=
  if decide (zlen data >= 64) then
    match fuel with
    | O => None
    | S fuel =>
      store (in_ ctx) 0 (take 64 data) ≫= fun i =>
      update_blocks fuel (transform_in (set_in ctx i)) (drop 64 data)
    end
  else store (in_ ctx) 0 data ≫= fun i => Some (set_in ctx i).

Definition MD5Update (ctx : MD5Context) (data : list Z) : option MD5Context :=
  let len := zlen data in
  let t := bits0 ctx in
  let b0 := u32 (t + u32 (Z.shiftl len 3)) in
  let b1 := if decide (b0 < t) then u32 (bits1 ctx + 1) else bits1 ctx in
  let b1 := u32 (b1 + Z.shiftr len 29) in
  let ctx := mkMD5 (buf ctx) b0 b1 (in_ ctx) in
  let t := Z.land (Z.shiftr t 3) 0x3f in
  if decide (t <> 0) then
    let room := 64 - t in
    if decide (len < room) then
      store (in_ ctx) t data ≫= fun i => Some (set_in ctx i)
    else
      store (in_ ctx) t (take (Z.to_nat room) data) ≫= fun i =>
      update_blocks (length data) (transform_in (set_in ctx i)) (drop (Z.to_nat room) data)
  else update_blocks (length data) ctx data.

(** The digest and the context left behind: [memset(ctx, 0, sizeof(ctx))]
    clears as many bytes as a pointer has, the first word. *)
Definition MD5Final (ctx : MD5Context) : option (list Z * MD5Context) :=
  let count := Z.land (Z.shiftr (bits0 ctx) 3) 0x3F in
  store (in_ ctx) count [0x80] ≫= fun i =>
  let p := count + 1 in
  let count := 64 - 1 - count in
  (if decide (count < 8) then
     store i p (replicate (Z.to_nat count) 0) ≫= fun i =>
     let ctx := transform_in (set_in ctx i) in
     store (in_ ctx) 0 (replicate 56 0) ≫= fun i => Some (set_in ctx i)
   else
     store i p (replicate (Z.to_nat (count - 8)) 0) ≫= fun i => Some (set_in ctx i)) ≫= fun ctx =>
  let i := byteReverse (in_ ctx) 14 in
  store i 56 (le32 (bits0 ctx)) ≫= fun i =>
  store i 60 (le32 (bits1 ctx)) ≫= fun i =>
  let b := MD5Transform (buf ctx) (words i) in
  let d := byteReverse (concat (map le32 b)) 4 in
  Some (d, mkMD5 (0 :: drop 1 b) (bits0 ctx) (bits1 ctx) i).

(** ** Specification: pad and absorb *)

Fixpoint absorb (fuel : nat) (st : list Z) (l : list Z) : list Z :=
  match fuel with
  | O => st
  | S fuel =>
    if decide (zlen l < 64) then st
    else absorb fuel (MD5Transform st (words (take 64 l))) (drop 64 l)
  end.
Definition absorb_all (st l : list Z) : list Z := absorb (length l) st l.

Definition md5_init : list Z := [0x67452301; 0xefcdab89; 0x98badcfe; 0x10325476].

Definition md5_pad (msg : list Z) : list Z :=
  msg ++ [0x80] ++ replicate (Z.to_nat ((55 - zlen msg) mod 64)) 0 ++
  le32 (8 * zlen msg) ++ le32 (Z.shiftr (8 * zlen msg) 32).

Definition md5_digest (msg : list Z) : list Z :=
  concat (map le32 (absorb_all md5_init (md5_pad msg))).

(** RFC 1321: round functions, message-word schedule, rotations, and one
    operation [a = b + ((a + F(b,c,d) + X[k] + T[i]) <<< s)]. *)
Definition rfc_round (i : nat) (x y z : Z) : Z :=
  match Nat.div i 16 with
  | 0%nat => Z.lor (Z.land x y) (Z.land (Z.lnot x) z)
  | 1%nat => Z.lor (Z.land x z) (Z.land y (Z.lnot z))
  | 2%nat => Z.lxor (Z.lxor x y) z
  | _ => u32 (Z.lxor y (Z.lor x (Z.lnot z)))
  end.
Definition rfc_index (i : nat) : nat :=
  match Nat.div i 16 with
  | 0%nat => i
  | 1%nat => Nat.modulo (5 * i + 1) 16
  | 2%nat => Nat.modulo (3 * i + 5) 16
  | _ => Nat.modulo (7 * i) 16
  end.
Definition rfc_shift (i : nat) : Z :=
  nthb (nth (Nat.div i 16) [[7; 12; 17; 22]; [5; 9; 14; 20]; [4; 11; 16; 23]; [6; 10; 15; 21]] [])
    (Nat.modulo i 4).
Definition rfc_T : list Z := map (fun l => l.1.2) md5_steps.
Definition rotate_left (w s : Z) : Z := u32 (w * 2 ^ s) + w / 2 ^ (32 - s).

Definition rfc_op (X : list Z) (r : Z * Z * Z * Z) (i : nat) : Z * Z * Z * Z :=
  let '(a, b, c, d) := r in
  (d, u32 (b + rotate_left (u32 (a + rfc_round i b c d + nthb X (rfc_index i) + nthb rfc_T i))
                 (rfc_shift i)), b, c).
Definition rfc_transform (st X : list Z) : list Z :=
  let '(a, b, c, d) := fold_left (rfc_op X) (seq 0 64) (nthb st 0, nthb st 1, nthb st 2, nthb st 3) in
  [u32 (nthb st 0 + a); u32 (nthb st 1 + b); u32 (nthb st 2 + c); u32 (nthb st 3 + d)].

(** ** Lemmas: the transform *)

Definition word32 (x : Z) : Prop := 0 <= x < 2 ^ 32.

Lemma F1_rfc x y z : F1 x y z = Z.lor (Z.land x y) (Z.land (Z.lnot x) z).
Proof.
  unfold F1. apply Z.bits_inj'. intros n Hn.
  rewrite Z.lxor_spec, Z.lor_spec, !Z.land_spec, Z.lxor_spec, Z.lnot_spec by lia.
  by destruct (Z.testbit x n), (Z.testbit y n), (Z.testbit z n).
Qed.

Lemma u32_bits x n : 0 <= n -> Z.testbit (u32 x) n = if decide (n < 32) then Z.testbit x n else false.
Proof.
  intros. unfold u32. case_decide; [apply Z.mod_pow2_bits_low|apply Z.mod_pow2_bits_high]; lia.
Qed.

Lemma F4_rfc x y z : word32 x -> word32 y -> F4 x y z = u32 (Z.lxor y (Z.lor x (Z.lnot z))).
Proof.
  intros Hx Hy. unfold F4. rewrite <- (u32_small x), <- (u32_small y) by done.
  apply Z.bits_inj'. intros n Hn. rewrite Z.lxor_spec, Z.lor_spec, !u32_bits by lia.
  rewrite Z.lxor_spec, Z.lor_spec, !u32_bits by lia. by case_decide.
Qed.

Lemma rotate_left_eq w s : word32 w -> 0 < s < 32 ->
  Z.lor (u32 (Z.shiftl w s)) (Z.shiftr w (32 - s)) = rotate_left w s.
Proof.
  unfold word32. intros Hw Hs. unfold rotate_left, u32.
  assert (E : 2 ^ 32 = 2 ^ (32 - s) * 2 ^ s) by (rewrite <- Z.pow_add_r by lia; f_equal; lia).
  assert (0 < 2 ^ s /\ 0 < 2 ^ (32 - s)) as [P1 P2] by lia.
  assert (M : (w * 2 ^ s) mod 2 ^ 32 = (w mod 2 ^ (32 - s)) * 2 ^ s) by (rewrite E; apply Z.mul_mod_distr_r; lia).
  rewrite Z.shiftl_mul_pow2, Z.shiftr_div_pow2, M by lia.
  rewrite <- Z.shiftl_mul_pow2 by lia. rewrite lor_shiftl_add, <- Z.shiftl_mul_pow2; [done|lia|lia|].
  split; [apply Z.div_pos; lia|]. apply Z.div_lt_upper_bound; lia.
Qed.

Lemma word32_u32 x : word32 (u32 x).
Proof. apply u32_range. Qed.

(** Line [i] of the table is operation [i] of the RFC. *)
Lemma md5_line_rfc (X : list Z) a b c d i l : md5_steps !! i = Some l ->
  word32 b -> word32 c -> word32 d ->
  md5_line X (a, b, c, d) l = rfc_op X (a, b, c, d) i.
Proof.
  intros El Hb Hc Hd. pose proof (lookup_lt_Some _ _ _ El) as Hi.
  assert (El' : nth i md5_steps (F1, 0%nat, 0, 0) = l) by (by apply nth_lookup_Some).
  assert (H : exists f, l = (f, rfc_index i, nthb rfc_T i, rfc_shift i) /\ 0 < rfc_shift i < 32 /\
                 f b c d = rfc_round i b c d).
  { change (length md5_steps) with 64%nat in Hi. clear El. subst l.
    do 64 (destruct i as [|i]; [eexists; split; [reflexivity|]; split; [vm_compute; done|];
      first [exact (F1_rfc b c d) | by apply F4_rfc
            | unfold F2; rewrite F1_rfc; unfold rfc_round; simpl; rewrite (Z.land_comm d b), (Z.land_comm _ c); done
            | unfold F3, rfc_round; simpl; by rewrite Z.lxor_assoc]|]). lia. }
  destruct H as (f & -> & Hs & Hf). unfold md5_line, rfc_op, MD5STEP. do 3 f_equal.
  rewrite rotate_left_eq by (done || apply word32_u32).
  rewrite u32_add_r, Hf, Z.add_comm, !Z.add_assoc. done.
Qed.

Lemma md5_fold_rfc (X : list Z) ls : forall i a b c d,
  drop i md5_steps = ls -> word32 a -> word32 b -> word32 c -> word32 d ->
  fold_left (md5_line X) ls (a, b, c, d) = fold_left (rfc_op X) (seq i (length ls)) (a, b, c, d).
Proof.
  induction ls as [|l ls IH]; intros i a b c d E Ha Hb Hc Hd; [done|].
  assert (El : md5_steps !! i = Some l).
  { rewrite <- (Nat.add_0_r i), <- lookup_drop, E. done. }
  cbn [fold_left seq length]. rewrite (md5_line_rfc X a b c d i l) by done. unfold rfc_op at 1 3.
  apply IH; try done; [|apply word32_u32].
  rewrite (drop_S _ _ _ El) in E. by injection E.
Qed.

Lemma length_MD5Transform st X : length (MD5Transform st X) = 4%nat.
Proof. unfold MD5Transform. by destruct (fold_left _ _ _) as [[[? ?] ?] ?]. Qed.

(** ** Lemmas: words and blocks *)

#[local] Opaque MD5Transform.

Lemma lor_bytes b0 b1 b2 b3 : is_byte b0 -> is_byte b1 -> is_byte b2 -> is_byte b3 ->
  Z.lor (Z.shiftl (Z.lor (Z.shiftl b3 8) b2) 16) (Z.lor (Z.shiftl b1 8) b0) =
  un_le32 [b0; b1; b2; b3].
Proof.
  unfold is_byte. intros. rewrite (lor_shiftl_add 8 b3 b2), (lor_shiftl_add 8 b1 b0) by lia.
  rewrite (lor_shiftl_add 16) by (change (2 ^ 8) with 256; change (2 ^ 16) with 65536; lia).
  unfold un_le32. rewrite !Z.shiftl_mul_pow2 by lia. lia.
Qed.

Lemma le32_un b0 b1 b2 b3 : is_byte b0 -> is_byte b1 -> is_byte b2 -> is_byte b3 ->
  le32 (un_le32 [b0; b1; b2; b3]) = [b0; b1; b2; b3].
Proof.
  unfold is_byte, le32, un_le32, u8. intros.
  rewrite !Z.shiftl_mul_pow2, !Z.shiftr_div_pow2 by lia.
  change (2 ^ 8) with 256. change (2 ^ 16) with 65536. change (2 ^ 24) with 16777216.
  repeat f_equal; zlia.
Qed.

(** "This code is harmless on little-endian machines." *)
Lemma byteReverse_id longs : forall b, bytes b -> (4 * longs <= length b)%nat -> byteReverse b longs = b.
Proof.
  induction longs as [|longs IH]; intros b Hb Hl; [done|].
  destruct b as [|b0 [|b1 [|b2 [|b3 b]]]]; simpl in Hl; try lia.
  unfold bytes in Hb. rewrite !Forall_cons in Hb. destruct Hb as (H0 & H1 & H2 & H3 & Hb).
  cbn [byteReverse]. rewrite lor_bytes, le32_un by done. rewrite IH by (done || lia). done.
Qed.

Lemma absorb_fuel n : forall m st l, (length l <= n)%nat -> (length l <= m)%nat ->
  absorb n st l = absorb m st l.
Proof.
  induction n as [|n IH]; intros m st l Hn Hm.
  - destruct l; [|simpl in Hn; lia]. by destruct m.
  - destruct m as [|m]; [destruct l; [done|simpl in Hm; lia]|]. cbn [absorb].
    case_decide as D; [done|]. unfold zlen in D. apply IH; rewrite length_drop; lia.
Qed.

Lemma absorb_all_eq st l :
  absorb_all st l = if decide (zlen l < 64) then st
                    else absorb_all (MD5Transform st (words (take 64 l))) (drop 64 l).
Proof.
  unfold absorb_all. destruct l as [|x l]; [done|]. cbn [absorb length].
  case_decide as D; [done|]. unfold zlen in D. simpl in D. apply absorb_fuel; rewrite length_drop; simpl; lia.
Qed.

(** What is left after the full blocks. *)
Definition residue (l : list Z) : list Z := drop (Z.to_nat (64 * (zlen l / 64))) l.

Lemma zlen_residue l : zlen (residue l) = zlen l mod 64.
Proof.
  unfold residue. pose proof (zlen_nonneg l). unfold zlen in *. rewrite length_drop.
  rewrite Nat2Z.inj_sub by zlia. rewrite Z2Nat.id by zlia. zlia.
Qed.

Lemma residue_short l : zlen l < 64 -> residue l = l.
Proof.
  intros. pose proof (zlen_nonneg l). unfold residue. replace (zlen l / 64) with 0 by zlia. done.
Qed.

Lemma residue_drop l : 64 <= zlen l -> residue (drop 64 l) = residue l.
Proof.
  intros H. unfold residue. rewrite drop_drop. f_equal.
  assert (E : zlen (drop 64 l) = zlen l - 64) by (unfold zlen in *; rewrite length_drop; lia).
  rewrite E. zlia.
Qed.

Lemma take_app_64 (a b : list Z) : 64 <= zlen a -> take 64 (a ++ b) = take 64 a /\ drop 64 (a ++ b) = drop 64 a ++ b.
Proof. unfold zlen. intros. rewrite take_app_le, drop_app_le by lia. done. Qed.

(** Absorbing a message in two pieces. *)
Lemma absorb_residue n : forall st a b, (length a < n)%nat ->
  absorb_all st (a ++ b) = absorb_all (absorb_all st a) (residue a ++ b) /\
  residue (a ++ b) = residue (residue a ++ b).
Proof.
  induction n as [|n IH]; intros st a b Hn; [lia|].
  destruct (decide (zlen a < 64)) as [D|D].
  - rewrite (absorb_all_eq st a), decide_True by done. by rewrite residue_short.
  - destruct (take_app_64 a b) as [Et Ed]; [lia|]. pose proof (zlen_nonneg b).
    rewrite (absorb_all_eq st (a ++ b)), (absorb_all_eq st a), Et, Ed.
    rewrite !decide_False by (rewrite ?zlen_app; lia).
    rewrite <- (residue_drop (a ++ b)), <- (residue_drop a), Ed by (rewrite ?zlen_app; lia).
    apply IH. unfold zlen in *. rewrite length_drop. lia.
Qed.

Lemma absorb_app st a b : absorb_all st (a ++ b) = absorb_all (absorb_all st a) (residue a ++ b).
Proof. apply (absorb_residue (S (length a))). lia. Qed.
Lemma residue_app a b : residue (a ++ b) = residue (residue a ++ b).
Proof. apply (absorb_residue (S (length a)) md5_init). lia. Qed.

Lemma bytes_residue l : bytes l -> bytes (residue l).
Proof. apply bytes_drop. Qed.

(** ** The context represents the message so far *)

Record ctx_ok (ctx : MD5Context) : Prop := {
  in_len : zlen (in_ ctx) = 64;
  in_bytes : bytes (in_ ctx)
}.

Record rep (ctx : MD5Context) (msg : list Z) : Prop := {
  rep_ok : ctx_ok ctx;
  rep_buf : buf ctx = absorb_all md5_init msg;
  rep_tail : exists junk, in_ ctx = residue msg ++ junk;
  rep_bits0 : bits0 ctx = u32 (8 * zlen msg);
  rep_bits1 : bits1 ctx = u32 (Z.shiftr (8 * zlen msg) 32)
}.

Lemma in_16 ctx : ctx_ok ctx -> byteReverse (in_ ctx) 16 = in_ ctx.
Proof. intros []. apply byteReverse_id; [done|]. unfold zlen in *. lia. Qed.

Lemma transform_in_eq ctx : ctx_ok ctx ->
  transform_in ctx = mkMD5 (MD5Transform (buf ctx) (words (in_ ctx))) (bits0 ctx) (bits1 ctx) (in_ ctx).
Proof. intros H. unfold transform_in. by rewrite in_16. Qed.

Lemma store_whole (a b : list Z) : length a = length b -> store a 0 b = Some b.
Proof.
  intros E. pose proof (store_app_mid [] a b []) as H. rewrite !app_nil_r in H. by apply H.
Qed.

Lemma store_front (a b : list Z) : zlen b <= zlen a -> store a 0 b = Some (b ++ drop (length b) a).
Proof. intros H. rewrite store_Some by lia. done. Qed.

Lemma update_blocks_spec fuel : forall ctx data,
  ctx_ok ctx -> bytes data -> (length data <= fuel)%nat ->
  exists ctx', update_blocks fuel ctx data = Some ctx' /\ ctx_ok ctx' /\
    buf ctx' = absorb_all (buf ctx) data /\ (exists junk, in_ ctx' = residue data ++ junk) /\
    bits0 ctx' = bits0 ctx /\ bits1 ctx' = bits1 ctx.
Proof.
  induction fuel as [|fuel IH]; intros ctx data C Hb Hl; pose proof (zlen_nonneg data);
    pose proof (in_len _ C) as Hin; cbn [update_blocks].
  - destruct data; [|simpl in Hl; lia]. rewrite decide_False by (rewrite zlen_nil; lia).
    rewrite store_front by (rewrite zlen_nil; lia). eexists. split; [done|].
    split; [|split_and!; try done; by eexists]. destruct C. by split.
  - case_decide as D.
    + assert (Ht : zlen (take 64 data) = 64) by (unfold zlen in *; rewrite length_take; lia).
      rewrite store_whole by (unfold zlen in *; lia). cbn [mbind option_bind].
      assert (C1 : ctx_ok (set_in ctx (take 64 data))) by (split; [done|by apply bytes_take]).
      rewrite transform_in_eq by done.
      match goal with |- context [update_blocks fuel ?c _] => set (c1 := c) end.
      destruct (IH c1 (drop 64 data)) as (ctx' & E & C' & B' & (junk & J) & H0 & H1).
      * split; [done|by apply bytes_take].
      * by apply bytes_drop.
      * rewrite length_drop. unfold zlen in D. lia.
      * exists ctx'. split; [exact E|]. split; [exact C'|]. split; [|split; [|split; assumption]].
        -- rewrite (absorb_all_eq _ data), decide_False by lia. exact B'.
        -- exists junk. by rewrite <- (residue_drop data) by lia.
    + rewrite store_front by lia. cbn [mbind option_bind]. eexists. split; [done|]. split_and!; try done.
      * split; simpl.
        -- rewrite zlen_app. unfold zlen in *. rewrite length_drop. lia.
        -- apply bytes_app. split; [done|]. apply bytes_drop, C.
      * rewrite absorb_all_eq, decide_True by lia. done.
      * exists (drop (length data) (in_ ctx)). rewrite residue_short by lia. done.
Qed.

(** *** The bit count *)

Lemma bits_mod64 n : 0 <= n -> Z.land (Z.shiftr (u32 (8 * n)) 3) 0x3f = n mod 64.
Proof.
  intros. change 0x3f with (Z.ones 6). rewrite Z.land_ones, Z.shiftr_div_pow2 by lia.
  unfold u32. change (2 ^ 32) with 4294967296. change (2 ^ 3) with 8. change (2 ^ 6) with 64. zlia.
Qed.

Lemma bits_update n len : 0 <= n -> 0 <= len < 2 ^ 32 ->
  let t := u32 (8 * n) in
  let b0 := u32 (t + u32 (Z.shiftl len 3)) in
  let b1 := u32 (Z.shiftr (8 * n) 32) in
  b0 = u32 (8 * (n + len)) /\
  u32 ((if decide (b0 < t) then u32 (b1 + 1) else b1) + Z.shiftr len 29) = u32 (Z.shiftr (8 * (n + len)) 32).
Proof.
  intros Hn Hl t b0 b1.
  unfold b1, b0, t. rewrite Z.shiftl_mul_pow2, !Z.shiftr_div_pow2 by lia.
  rewrite u32_add_l, u32_add_r. replace (8 * n + len * 2 ^ 3) with (8 * (n + len)) by lia.
  split; [done|].
  assert (E : 8 * (n + len) / 2 ^ 32 = 8 * n / 2 ^ 32 + len / 2 ^ 29 +
              (if decide (u32 (8 * (n + len)) < u32 (8 * n)) then 1 else 0)).
  { unfold u32. change (2 ^ 32) with 4294967296 in *. change (2 ^ 29) with 536870912. case_decide; zlia. }
  rewrite E. case_decide.
  - rewrite u32_add_l, <- !Z.add_assoc, u32_add_l. f_equal. lia.
  - rewrite u32_add_l. f_equal. lia.
Qed.

Lemma u32_le32 x : le32 (u32 x) = le32 x.
Proof.
  unfold le32, u8, u32. rewrite !Z.shiftr_div_pow2 by lia.
  change (2 ^ 8) with 256. change (2 ^ 16) with 65536. change (2 ^ 24) with 16777216.
  change (2 ^ 32) with 4294967296. repeat (apply (f_equal2 cons); [zlia|]). done.
Qed.

(** *** Updates and the final block *)

Lemma rep_init ctx : ctx_ok ctx -> rep (MD5Init ctx) [].
Proof.
  intros C. split; try done; [by destruct C|]. exists (in_ ctx). done.
Qed.

(** A whole block in [in]. *)
Lemma absorb_block st b rest : zlen b = 64 ->
  absorb_all st (b ++ rest) = absorb_all (MD5Transform st (words b)) rest.
Proof.
  intros H. rewrite absorb_all_eq, decide_False by (pose proof (zlen_nonneg rest); rewrite zlen_app; lia).
  rewrite take_app_length', drop_app_length' by (unfold zlen in H; lia). done.
Qed.

Lemma rep_count ctx msg : rep ctx msg ->
  Z.land (Z.shiftr (bits0 ctx) 3) 0x3f = zlen (residue msg).
Proof. intros R. rewrite (rep_bits0 _ _ R), bits_mod64, zlen_residue by apply zlen_nonneg. done. Qed.

(** Storing at the end of the residue. *)
Lemma store_tail ctx msg data : rep ctx msg -> bytes data -> zlen (residue msg) + zlen data <= 64 ->
  exists junk, store (in_ ctx) (zlen (residue msg)) data = Some (residue msg ++ data ++ junk) /\
    zlen (residue msg ++ data ++ junk) = 64 /\ bytes (residue msg ++ data ++ junk).
Proof.
  intros R Hb Hl. destruct (rep_tail _ _ R) as [old E]. destruct (rep_ok _ _ R) as [Li Bi].
  rewrite E in Li, Bi. rewrite zlen_app in Li. apply bytes_app in Bi as [B1 B2].
  exists (drop (length data) old). rewrite E. rewrite <- (take_drop (length data) old) at 1.
  rewrite store_app_mid by (unfold zlen in *; rewrite length_take; lia). split; [done|].
  rewrite !zlen_app, !bytes_app. split; [|auto with pppoe].
  unfold zlen in *. rewrite length_drop. lia.
Qed.

Lemma residue_lt msg : zlen (residue msg) < 64.
Proof. rewrite zlen_residue. apply Z.mod_pos_bound. lia. Qed.

Lemma MD5Update_rep ctx msg data :
  rep ctx msg -> bytes data -> zlen data < 2 ^ 32 ->
  exists ctx', MD5Update ctx data = Some ctx' /\ rep ctx' (msg ++ data).
Proof.
  intros R Hb Hl. pose proof (zlen_nonneg data). pose proof (residue_lt msg) as Hr.
  destruct (bits_update (zlen msg) (zlen data)) as [E0 E1]; [apply zlen_nonneg|lia|].
  unfold MD5Update. rewrite (rep_count _ _ R), (rep_bits0 _ _ R), (rep_bits1 _ _ R).
  cbv zeta in *. rewrite E1, E0. rewrite <- zlen_app. clear E0 E1.
  set (c1 := mkMD5 (buf ctx) (u32 (8 * zlen (msg ++ data)))
               (u32 (Z.shiftr (8 * zlen (msg ++ data)) 32)) (in_ ctx)).
  assert (C1 : ctx_ok c1) by (split; apply R).
  assert (Ec : in_ c1 = in_ ctx) by done.
  assert (Fin : forall c, ctx_ok c -> bits0 c = bits0 c1 -> bits1 c = bits1 c1 ->
    buf c = absorb_all (buf ctx) (residue msg ++ data) ->
    (exists junk, in_ c = residue (residue msg ++ data) ++ junk) -> rep c (msg ++ data)).
  { intros c Cc B0 B1 Bb J. split; [done| |by rewrite residue_app|done|done].
    rewrite absorb_app, <- (rep_buf _ _ R). exact Bb. }
  case_decide as D1.
  - case_decide as D2.
    + destruct (store_tail ctx msg data) as (junk & S & L & B); [done|done|lia|].
      rewrite Ec, S. cbn [mbind option_bind]. eexists. split; [reflexivity|]. apply Fin; try done.
      * rewrite absorb_all_eq, decide_True by (rewrite zlen_app; lia). done.
      * exists junk. rewrite (residue_short (_ ++ _)) by (rewrite zlen_app; lia). by rewrite <- app_assoc.
    + set (n := Z.to_nat (64 - zlen (residue msg))).
      assert (Hn : zlen (take n data) = 64 - zlen (residue msg)).
      { unfold zlen in *. rewrite length_take. lia. }
      destruct (store_tail ctx msg (take n data)) as (junk & S & L & B); [done|by apply bytes_take|lia|].
      assert (junk = []) as -> by (rewrite !zlen_app in L; destruct junk; [done|rewrite zlen_cons in L; pose proof (zlen_nonneg junk); lia]).
      rewrite app_nil_r in *. rewrite Ec, S. cbn [mbind option_bind].
      rewrite transform_in_eq by (split; done). cbn [buf set_in in_ bits0 bits1].
      match goal with |- context [update_blocks _ ?c _] => set (c2 := c) end.
      destruct (update_blocks_spec (length data) c2 (drop n data)) as (c' & E & C' & B' & J & H0 & H1).
      * split; done.
      * by apply bytes_drop.
      * rewrite length_drop. lia.
      * exists c'. split; [exact E|]. apply Fin; try assumption.
        -- rewrite B'. rewrite <- (take_drop n data) at 2. rewrite app_assoc, absorb_block by done. done.
        -- rewrite <- (take_drop n data), app_assoc, <- residue_drop
             by (pose proof (zlen_nonneg (drop n data)); rewrite zlen_app; lia).
           rewrite drop_app_length' by (unfold zlen in L; lia). exact J.
  - assert (residue msg = []) as Er.
    { destruct (residue msg); [done|]. rewrite zlen_cons in D1. pose proof (zlen_nonneg l). lia. }
    destruct (update_blocks_spec (length data) c1 data) as (c' & E & C' & B' & J & H0 & H1); try done.
    exists c'. split; [exact E|]. apply Fin; rewrite ?Er; done.
Qed.

Lemma absorb_exact st b : zlen b = 64 -> absorb_all st b = MD5Transform st (words b).
Proof.
  intros H. rewrite <- (app_nil_r b) at 1. rewrite absorb_block by done. by rewrite absorb_all_eq.
Qed.

Lemma bytes_zeros n : bytes (replicate n 0).
Proof. apply Forall_replicate. done. Qed.

(** The block that ends with the bit count, as [MD5Final] leaves it. *)
Definition count_block (pre : list Z) (msg : list Z) : list Z :=
  pre ++ le32 (8 * zlen msg) ++ le32 (Z.shiftr (8 * zlen msg) 32).

(** The last part of [MD5Final], from [byteReverse(ctx->in, 14)] on. *)
Lemma final_block ctx msg pre :
  ctx_ok ctx -> take 56 (in_ ctx) = pre ->
  bits0 ctx = u32 (8 * zlen msg) -> bits1 ctx = u32 (Z.shiftr (8 * zlen msg) 32) ->
  store (byteReverse (in_ ctx) 14) 56 (le32 (bits0 ctx)) ≫= (fun i => store i 60 (le32 (bits1 ctx))) =
    Some (count_block pre msg) /\ zlen (count_block pre msg) = 64.
Proof.
  intros [L B] <- E0 E1. rewrite byteReverse_id by (done || (unfold zlen in L; lia)).
  rewrite E0, E1, !u32_le32. unfold zlen in L.
  set (i := in_ ctx) in *.
  assert (D : exists p q r s t u v w, drop 56 i = [p; q; r; s; t; u; v; w]).
  { assert (Hd : length (drop 56 i) = 8%nat) by (rewrite length_drop; lia).
    destruct (drop 56 i) as [|p [|q [|r [|s [|t [|u [|v [|w [|]]]]]]]]]; try done. by repeat eexists. }
  destruct D as (p & q & r & s & t & u & v & w & D).
  assert (H56 : zlen (take 56 i) = 56) by (unfold zlen; rewrite length_take; lia).
  rewrite <- (take_drop 56 i), D at 1. unfold count_block, le32 at 1 3.
  rewrite <- H56 at 1. rewrite (store_app_mid (take 56 i) [p; q; r; s] _ [t; u; v; w]) by done.
  cbn [mbind option_bind]. rewrite app_assoc.
  match goal with |- store ((?a ++ ?x) ++ _) _ ?y = _ /\ _ =>
    replace 60 with (zlen (a ++ x)) by (rewrite zlen_app, H56; done);
    pose proof (store_app_mid (a ++ x) [t; u; v; w] y []) as S end.
  rewrite !app_nil_r in S. rewrite S by done. split; [by rewrite <- app_assoc|].
  rewrite !zlen_app, H56. done.
Qed.

Lemma digest_bytes b : length b = 4%nat -> byteReverse (concat (map le32 b)) 4 = concat (map le32 b).
Proof.
  intros H. destruct b as [|w [|x [|y [|z [|]]]]]; try done. apply byteReverse_id; [|done].
  cbn [map concat]. rewrite !bytes_app. split_and!; try apply bytes_le32. constructor.
Qed.

Lemma pad_absorb msg :
  absorb_all md5_init (md5_pad msg) =
    absorb_all (absorb_all md5_init msg)
      (count_block (residue msg ++ [0x80] ++ replicate (Z.to_nat ((55 - zlen (residue msg)) mod 64)) 0) msg).
Proof.
  unfold md5_pad, count_block. rewrite absorb_app, zlen_residue.
  replace ((55 - zlen msg) mod 64) with ((55 - zlen msg mod 64) mod 64) by zlia.
  by rewrite <- !app_assoc.
Qed.

(** The message's last bytes and the marker, in a block with [junk] behind. *)
Section Padding.
Context (ctx : MD5Context) (msg junk : list Z).
Local Abbreviation r := (residue msg).
Context (Rbuf : buf ctx = absorb_all md5_init msg).
Context (Hj : zlen junk = 63 - zlen r) (Br : bytes (r ++ [0x80])) (Bj : bytes junk).

Lemma marker_end : zlen r + 1 = zlen (r ++ [0x80]).
Proof. by rewrite zlen_app. Qed.

(** "Two lots of padding". *)
Lemma pad_two : 64 - 1 - zlen r < 8 ->
  exists c, ctx_ok c /\ bits0 c = bits0 ctx /\ bits1 c = bits1 ctx /\
    (store (r ++ [0x80] ++ junk) (zlen r + 1) (replicate (Z.to_nat (64 - 1 - zlen r)) 0) ≫= fun i =>
     let ctx := transform_in (set_in ctx i) in
     store (in_ ctx) 0 (replicate 56 0) ≫= fun i => Some (set_in ctx i)) = Some c /\
    MD5Transform (buf c) (words (count_block (take 56 (in_ c)) msg)) = absorb_all md5_init (md5_pad msg).
Proof using Hj Br Rbuf.
  intros D. pose proof (residue_lt msg). pose proof (zlen_nonneg r).
  rewrite marker_end, app_assoc, <- (app_nil_r junk), store_app_mid
    by (rewrite length_replicate; unfold zlen in *; lia).
  cbn [mbind option_bind]. rewrite app_nil_r.
  set (b1 := (r ++ [128]) ++ replicate (Z.to_nat (64 - 1 - zlen r)) 0).
  assert (L1 : zlen b1 = 64).
  { unfold b1. rewrite !zlen_app. unfold zlen in *. rewrite length_replicate. simpl. lia. }
  assert (B1 : bytes b1) by (unfold b1; rewrite bytes_app; auto using bytes_zeros).
  rewrite transform_in_eq by (split; done). cbn [in_ set_in buf bits0 bits1].
  rewrite store_front by (unfold zlen; rewrite length_replicate; unfold zlen in L1; lia).
  cbn [mbind option_bind]. rewrite length_replicate.
  eexists. split; [|split; [|split; [|split; [reflexivity|]]]];
    cbn [in_ set_in buf bits0 bits1]; try reflexivity.
  - split; cbn [in_ set_in].
    + rewrite zlen_app. unfold zlen in *. rewrite length_replicate, length_drop. lia.
    + rewrite bytes_app. auto using bytes_zeros with pppoe.
  - rewrite take_app_length' by (symmetry; apply length_replicate). rewrite pad_absorb, <- Rbuf.
    replace (Z.to_nat ((55 - zlen r) mod 64)) with (Z.to_nat (64 - 1 - zlen r) + 56)%nat by zlia.
    rewrite replicate_add. unfold count_block. rewrite !app_assoc. fold b1. rewrite <- !app_assoc.
    rewrite absorb_block by done. rewrite absorb_exact; [done|].
    rewrite !zlen_app. unfold zlen. rewrite length_replicate. done.
Qed.

(** "Pad block to 56 bytes". *)
Lemma pad_one : ~ 64 - 1 - zlen r < 8 ->
  exists c, ctx_ok c /\ bits0 c = bits0 ctx /\ bits1 c = bits1 ctx /\
    (store (r ++ [0x80] ++ junk) (zlen r + 1) (replicate (Z.to_nat (64 - 1 - zlen r - 8)) 0) ≫= fun i =>
     Some (set_in ctx i)) = Some c /\
    MD5Transform (buf c) (words (count_block (take 56 (in_ c)) msg)) = absorb_all md5_init (md5_pad msg).
Proof using Hj Br Bj Rbuf.
  intros D. pose proof (zlen_nonneg r). set (k := Z.to_nat (64 - 1 - zlen r - 8)).
  rewrite marker_end, app_assoc, <- (take_drop k junk), store_app_mid
    by (rewrite length_replicate, length_take; unfold zlen in *; lia).
  cbn [mbind option_bind]. eexists. split; [|split; [|split; [|split; [reflexivity|]]]];
    cbn [in_ set_in buf bits0 bits1]; try reflexivity.
  - split; cbn [in_ set_in].
    + rewrite !zlen_app. change (zlen [128]) with 1. unfold zlen in *. rewrite length_replicate, length_drop. lia.
    + rewrite !bytes_app in *. destruct Br. auto using bytes_zeros with pppoe.
  - rewrite pad_absorb, <- Rbuf. replace (Z.to_nat ((55 - zlen r) mod 64)) with k by (unfold k; zlia).
    rewrite app_assoc, take_app_length'.
    2:{ rewrite !length_app, length_replicate. unfold zlen in *. simpl. lia. }
    rewrite absorb_exact; [by rewrite <- app_assoc|].
    unfold count_block. rewrite !zlen_app. unfold zlen in *. rewrite length_replicate. simpl. lia.
Qed.
End Padding.

Lemma MD5Final_rep ctx msg : rep ctx msg ->
  exists ctx', MD5Final ctx = Some (md5_digest msg, ctx') /\
    buf ctx' = 0 :: drop 1 (absorb_all md5_init (md5_pad msg)).
Proof.
  intros R. pose proof (residue_lt msg) as Hr.
  destruct (store_tail ctx msg [0x80]) as (junk & S & L & B);
    [done|by repeat constructor|change (zlen [128]) with 1; lia|].
  rewrite app_assoc, bytes_app in B. destruct B as [Br Bj].
  assert (Hj : zlen junk = 63 - zlen (residue msg))
    by (rewrite !zlen_app in L; change (zlen [128]) with 1 in L; lia).
  unfold MD5Final. rewrite (rep_count _ _ R), S. cbn [mbind option_bind].
  match goal with |- context [(if decide (64 - 1 - _ < 8) then ?x else ?y) ≫= _] =>
    assert (P : exists c, ctx_ok c /\ bits0 c = bits0 ctx /\ bits1 c = bits1 ctx /\
      (if decide (64 - 1 - zlen (residue msg) < 8) then x else y) = Some c /\
      MD5Transform (buf c) (words (count_block (take 56 (in_ c)) msg)) = absorb_all md5_init (md5_pad msg)) end.
  { case_decide; [apply pad_two|apply pad_one]; auto using rep_buf. }
  destruct P as (c & C & B0 & B1 & E & F). rewrite E. cbn [mbind option_bind].
  destruct (final_block c msg _ C eq_refl) as [S' _];
    [by rewrite B0, (rep_bits0 _ _ R)|by rewrite B1, (rep_bits1 _ _ R)|].
  destruct (store (byteReverse (in_ c) 14) 56 (le32 (bits0 c))) as [i'|]; [|done]. cbn [mbind option_bind] in *.
  rewrite S'. cbn [mbind option_bind]. rewrite F. eexists (mkMD5 (0 :: drop 1 _) _ _ _). split; [|reflexivity].
  rewrite digest_bytes; [reflexivity|]. rewrite <- F. apply length_MD5Transform.
Qed.

(** A sequence of updates. *)
Definition MD5Updates (ctx : MD5Context) (chunks : list (list Z)) : option MD5Context :=
  fold_left (fun o c => o ≫= fun ctx => MD5Update ctx c) chunks (Some ctx).

Lemma MD5Updates_rep chunks : forall ctx msg, rep ctx msg ->
  Forall bytes chunks -> Forall (fun c => zlen c < 2 ^ 32) chunks ->
  exists ctx', MD5Updates ctx chunks = Some ctx' /\ rep ctx' (msg ++ concat chunks).
Proof.
  induction chunks as [|c chunks IH]; intros ctx msg R Hb Hl.
  - exists ctx. split; [done|]. by rewrite app_nil_r.
  - apply Forall_cons in Hb as [Hb Hbs], Hl as [Hl Hls].
    destruct (MD5Update_rep ctx msg c) as (c1 & E1 & R1); [done..|].
    destruct (IH c1 (msg ++ c) R1 Hbs Hls) as (c2 & E2 & R2). exists c2.
    unfold MD5Updates in *. cbn [fold_left mbind option_bind concat]. rewrite E1, app_assoc. done.
Qed.

(** Running the three calls the way their users do. *)
Definition md5 (ctx : MD5Context) (chunks : list (list Z)) : option (list Z) :=
  MD5Updates (MD5Init ctx) chunks ≫= fun ctx => MD5Final ctx ≫= fun r => Some r.1.

Lemma md5_of_chunks ctx chunks : ctx_ok ctx ->
  Forall bytes chunks -> Forall (fun c => zlen c < 2 ^ 32) chunks ->
  md5 ctx chunks = Some (md5_digest (concat chunks)).
Proof.
  intros C Hb Hl. unfold md5.
  destruct (MD5Updates_rep chunks (MD5Init ctx) [] (rep_init _ C) Hb Hl) as (c1 & E1 & R1).
  destruct (MD5Final_rep _ _ R1) as (c2 & E2 & _). by rewrite E1; cbn [mbind option_bind]; rewrite E2.
Qed.

Lemma bytes_concat_le32 l : bytes (concat (map le32 l)).
Proof. induction l; [constructor|]. cbn [map concat]. rewrite bytes_app. auto with pppoe. Qed.

Lemma length_absorb fuel : forall st l, length st = 4%nat -> length (absorb fuel st l) = 4%nat.
Proof.
  induction fuel as [|fuel IH]; intros st l H; cbn [absorb]; [done|].
  case_decide; [done|]. apply IH, length_MD5Transform.
Qed.

(** A digest is 16 bytes. *)
Lemma md5_digest_ok msg : bytes (md5_digest msg) /\ zlen (md5_digest msg) = 16.
Proof.
  unfold md5_digest, absorb_all. split; [apply bytes_concat_le32|].
  pose proof (length_absorb (length (md5_pad msg)) md5_init (md5_pad msg) eq_refl) as H.
  destruct (absorb _ _ _) as [|w [|x [|y [|z [|]]]]]; done.
Qed.

#[local] Transparent MD5Transform.

(** C33. [MD5Init], any sequence of [MD5Update] calls and [MD5Final] stay inside
    the 64-byte block buffer and give the digest of the concatenated data
    padded as a whole, however the data is cut into calls, and with the 64-bit
    bit count carried exactly across the two words. *)
Theorem MD5_streaming ctx chunks : ctx_ok ctx ->
  Forall bytes chunks -> Forall (fun c => zlen c < 2 ^ 32) chunks ->
  exists ctx1 ctx2, MD5Updates (MD5Init ctx) chunks = Some ctx1 /\
    MD5Final ctx1 = Some (md5_digest (concat chunks), ctx2) /\
    bits0 ctx1 + 2 ^ 32 * bits1 ctx1 = (8 * zlen (concat chunks)) mod 2 ^ 64.
Proof.
  intros C Hb Hl.
  destruct (MD5Updates_rep chunks (MD5Init ctx) [] (rep_init _ C) Hb Hl) as (c1 & E1 & R1).
  destruct (MD5Final_rep _ _ R1) as (c2 & E2 & _). exists c1, c2. split_and!; [done|exact E2|].
  rewrite (rep_bits0 _ _ R1), (rep_bits1 _ _ R1). cbn [app]. rewrite Z.shiftr_div_pow2 by lia.
  unfold u32. change (2 ^ 64) with (2 ^ 32 * 2 ^ 32). rewrite Z.rem_mul_r by lia. done.
Qed.

Lemma MD5_streaming_witness :
  let ctx := mkMD5 [] 0 0 (replicate 64 0) in
  (exists ctx1 ctx2, MD5Updates (MD5Init ctx) [[97]; [98; 99]] = Some ctx1 /\
    MD5Final ctx1 = Some (md5_digest [97; 98; 99], ctx2) /\
    bits0 ctx1 + 2 ^ 32 * bits1 ctx1 = (8 * zlen [97; 98; 99]) mod 2 ^ 64) /\
  md5_digest [97; 98; 99] =
    [0x90; 0x01; 0x50; 0x98; 0x3c; 0xd2; 0x4f; 0xb0; 0xd6; 0x96; 0x3f; 0x7d; 0x28; 0xe1; 0x7f; 0x72].
Proof.
  split; [|vm_compute; reflexivity].
  apply (MD5_streaming (mkMD5 [] 0 0 (replicate 64 0)) [[97]; [98; 99]]).
  - split; [done|apply bytes_zeros].
  - repeat (apply Forall_cons; split); try done; repeat (apply Forall_cons; split); done.
  - repeat (apply Forall_cons; split); done.
Defined.



(** [memset(ctx, 0, sizeof(ctx))] "in case it's sensitive" leaves all but the
    first word of the state: twelve of the digest's bytes. *)
Lemma MD5Final_leaves_digest ctx msg : rep ctx msg ->
  exists d ctx', MD5Final ctx = Some (d, ctx') /\ concat (map le32 (drop 1 (buf ctx'))) = drop 4 d.
Proof.
  intros R. destruct (MD5Final_rep _ _ R) as (c & E & B). exists (md5_digest msg), c. split; [done|].
  rewrite B. unfold md5_digest, absorb_all.
  pose proof (length_absorb (length (md5_pad msg)) md5_init (md5_pad msg) eq_refl) as H.
  destruct (absorb _ _ _) as [|w ws]; done.
Qed.
