(* ===== verification/LinkedList.v ===== *)
(** * LinkedList: lists of structures linked inside an array

    The relay keeps its sessions and hash entries in arrays and links them with
    [next] and [prev] pointers.  A pointer is an option of an index.  [sll] and
    [dll] say that a pointer is the head of a singly or doubly linked list of
    the given indices; the lemmas are the three operations of relay.c: push at
    the front, unlink from the middle, push on a free list. *)

From stdpp Require Import base numbers list gmap.
From S2P Require Import Prelude.

(** ** Pointers *)

Definition deref {N} (a : list N) (p : option nat) : option N := p ≫= fun i => a !! i.
Definition assign {N} (a : list N) (p : option nat) (f : N -> N) : option (list N) :=
  p ≫= fun i => a !! i ≫= fun _ => Some (alter f i a).
(** [if (p) *p = ...]. *)
Definition opt_assign {N} (a : list N) (p : option nat) (f : N -> N) : option (list N) :=
  match p with None => Some a | Some _ => assign a p f end.

(** ** Structures with links *)

Class Linked (N : Type) := {
  nxt : N -> option nat;
  prv : N -> option nat;
  set_nxt : option nat -> N -> N;
  set_prv : option nat -> N -> N
}.

Class LinkedOk (N : Type) `{L : Linked N} : Prop := {
  nxt_set_nxt : forall v n, nxt (set_nxt v n) = v;
  prv_set_nxt : forall v n, prv (set_nxt v n) = prv n;
  nxt_set_prv : forall v n, nxt (set_prv v n) = nxt n;
  prv_set_prv : forall v n, prv (set_prv v n) = v;
  set_nxt_nxt : forall v w n, set_nxt v (set_nxt w n) = set_nxt v n;
  set_prv_prv : forall v w n, set_prv v (set_prv w n) = set_prv v n;
  set_nxt_prv : forall v w n, set_nxt v (set_prv w n) = set_prv w (set_nxt v n)
}.

Section Lists.
Context {N : Type} `{L : Linked N} `{OK : !LinkedOk N}.
Implicit Types (a : list N) (p q : option nat) (l : list nat) (i : nat).

Lemma alter_commute f g a i j : i <> j -> alter f i (alter g j a) = alter g j (alter f i a).
Proof.
  intros D. apply list_eq. intros k. rewrite !list_lookup_alter.
  repeat case_decide; subst; try done.
Qed.

(** The structure without its links. *)
Definition data (n : N) : N := set_nxt None (set_prv None n).
Definition same_data a a' : Prop := forall j, data <$> a' !! j = data <$> a !! j.

Fixpoint sll a p l : Prop :=
  match l with
  | [] => p = None
  | i :: l => p = Some i /\ exists n, a !! i = Some n /\ sll a (nxt n) l
  end.

(** From pointer [p], reached from [q], through [l], to pointer [p'], reached
    from [q']. *)
Fixpoint dseg a p q l p' q' : Prop :=
  match l with
  | [] => p = p' /\ q = q'
  | i :: l => p = Some i /\ exists n, a !! i = Some n /\ prv n = q /\ dseg a (nxt n) (Some i) l p' q'
  end.
Definition dll a p l : Prop := exists q, dseg a p None l None q.

(** ** Lemmas *)

Lemma data_set_nxt v n : data (set_nxt v n) = data n.
Proof using OK. unfold data. by rewrite <- set_nxt_prv, !set_nxt_nxt. Qed.
Lemma data_set_prv v n : data (set_prv v n) = data n.
Proof using OK. unfold data. by rewrite set_prv_prv. Qed.

Lemma same_data_refl a : same_data a a.
Proof. done. Qed.
Lemma same_data_trans a b c : same_data a b -> same_data b c -> same_data a c.
Proof. intros H1 H2 j. by rewrite H2, H1. Qed.
Lemma same_data_lookup a a' i n : same_data a a' -> a !! i = Some n ->
  exists n', a' !! i = Some n' /\ data n' = data n.
Proof.
  intros S E. specialize (S i). rewrite E in S. destruct (a' !! i) as [n'|]; [|done].
  exists n'. split; [done|]. by apply (inj Some) in S.
Qed.
Lemma same_data_length a a' : same_data a a' -> length a' = length a.
Proof.
  intros H. apply Nat.le_antisymm.
  - destruct (decide (length a' <= length a)%nat) as [|D]; [done|]. exfalso.
    destruct (lookup_lt_is_Some_2 a' (length a)) as [n E]; [lia|].
    specialize (H (length a)). rewrite E, lookup_ge_None_2 in H by lia. done.
  - destruct (decide (length a <= length a')%nat) as [|D]; [done|]. exfalso.
    destruct (lookup_lt_is_Some_2 a (length a')) as [n E]; [lia|].
    specialize (H (length a')). rewrite E, lookup_ge_None_2 in H by lia. done.
Qed.

Lemma same_data_alter f i a : (forall n, data (f n) = data n) -> same_data a (alter f i a).
Proof.
  intros H j. destruct (decide (i = j)) as [->|D].
  - rewrite list_lookup_alter_eq. destruct (a !! j) as [n|]; [|done]. cbn. by rewrite H.
  - by rewrite list_lookup_alter_ne.
Qed.

Lemma assign_Some a i n f : a !! i = Some n -> assign a (Some i) f = Some (alter f i a).
Proof. intros E. unfold assign. cbn. by rewrite E. Qed.
Lemma deref_Some a i n : a !! i = Some n -> deref a (Some i) = Some n.
Proof. done. Qed.

Lemma sll_frame a a' l : forall p, sll a p l -> (forall j, j ∈ l -> a' !! j = a !! j) -> sll a' p l.
Proof.
  induction l as [|i l IH]; intros p; cbn; [done|]. intros (-> & n & E & H) F. split; [done|].
  exists n. rewrite F by left. split; [done|]. apply IH; [done|]. intros j Hj. apply F. by right.
Qed.

Lemma dseg_frame a a' l : forall p q p' q', dseg a p q l p' q' ->
  (forall j, j ∈ l -> a' !! j = a !! j) -> dseg a' p q l p' q'.
Proof.
  induction l as [|i l IH]; intros p q p' q'; cbn; [done|]. intros (-> & n & E & Hp & H) F.
  split; [done|]. exists n. rewrite F by left. split_and!; [done|done|].
  apply IH; [done|]. intros j Hj. apply F. by right.
Qed.

(** Changing anything but the links. *)
Definition same_links a a' : Prop :=
  forall j, nxt <$> a' !! j = nxt <$> a !! j /\ prv <$> a' !! j = prv <$> a !! j.

Lemma same_links_lookup a a' i n : same_links a a' -> a !! i = Some n ->
  exists n', a' !! i = Some n' /\ nxt n' = nxt n /\ prv n' = prv n.
Proof.
  intros S E. destruct (S i) as [Sn Sp]. rewrite E in Sn, Sp. destruct (a' !! i) as [n'|]; [|done].
  exists n'. split; [done|]. split; by apply (inj Some).
Qed.

Lemma same_links_alter f i a : (forall n, nxt (f n) = nxt n) -> (forall n, prv (f n) = prv n) ->
  same_links a (alter f i a).
Proof.
  intros Hn Hp j. destruct (decide (i = j)) as [->|D].
  - rewrite list_lookup_alter_eq. destruct (a !! j) as [n|]; [|done]. cbn. by rewrite Hn, Hp.
  - by rewrite list_lookup_alter_ne.
Qed.

Lemma sll_links a a' l : same_links a a' -> forall p, sll a p l -> sll a' p l.
Proof.
  intros S. induction l as [|i l IH]; intros p; cbn; [done|]. intros (-> & n & E & H). split; [done|].
  destruct (same_links_lookup _ _ _ _ S E) as (n' & E' & Hn & _). exists n'. rewrite Hn. auto.
Qed.

Lemma dll_links a a' l p : same_links a a' -> dll a p l -> dll a' p l.
Proof.
  intros S [q H]. exists q. revert p H. generalize (@None nat) at 1 3 as r.
  induction l as [|i l IH]; intros r p; cbn; [done|]. intros (-> & n & E & Hp & H). split; [done|].
  destruct (same_links_lookup _ _ _ _ S E) as (n' & E' & Hn & Hp'). exists n'. rewrite Hn, Hp'. auto.
Qed.

Lemma dll_frame a a' p l : dll a p l -> (forall j, j ∈ l -> a' !! j = a !! j) -> dll a' p l.
Proof. intros [q H] F. exists q. by eapply dseg_frame. Qed.

Lemma dseg_app a l1 l2 : forall p q p' q', dseg a p q (l1 ++ l2) p' q' <->
  exists m r, dseg a p q l1 m r /\ dseg a m r l2 p' q'.
Proof.
  induction l1 as [|i l1 IH]; intros p q p' q'; cbn.
  - split; [intros H; by exists p, q|]. intros (m & r & [-> ->] & H). done.
  - split.
    + intros (-> & n & E & Hp & (m & r & H1 & H2)%IH). exists m, r. split; [|done].
      split; [done|]. exists n. done.
    + intros (m & r & (-> & n & E & Hp & H1) & H2). split; [done|]. exists n. split_and!; try done.
      apply IH. by exists m, r.
Qed.

Lemma dseg_head a p q l p' q' : dseg a p q l p' q' -> p = match l with [] => p' | i :: _ => Some i end.
Proof. destruct l; [by intros [-> _]|by intros [-> _]]. Qed.

Lemma dll_lookup a p l i : dll a p l -> i ∈ l -> exists n, a !! i = Some n.
Proof.
  intros [q H] Hi. apply list_elem_of_split in Hi as (l1 & l2 & ->).
  apply dseg_app in H as (m & r & _ & _ & n & E & _). by exists n.
Qed.

(** Changing [prv] of the first node only. *)
Lemma dseg_set_prv a p q v l p' q' : NoDup l -> dseg a p q l p' q' -> l <> [] ->
  exists i, p = Some i /\ i ∈ l /\ is_Some (a !! i) /\ dseg (alter (set_prv v) i a) p v l p' q'.
Proof using OK.
  intros ND H Hl. destruct l as [|i l]; [done|]. apply NoDup_cons in ND as [Hi ND].
  cbn in H. destruct H as (-> & n & E & Hp & H). exists i. split_and!; [done|left|by rewrite E|].
  cbn. split; [done|]. exists (set_prv v n). rewrite list_lookup_alter_eq, E. split_and!; [done|apply prv_set_prv|].
  rewrite nxt_set_prv. apply (dseg_frame a); [done|].
  intros j Hj. rewrite list_lookup_alter_ne; [done|]. set_solver.
Qed.

(** *** Push at the front of a doubly linked list *)

(** The order of createSession: [next], the old head's [prev], [prev]. *)
Definition push a p i : option (list N) :=
  assign a (Some i) (set_nxt p) ≫= fun a =>
  opt_assign a p (set_prv (Some i)) ≫= fun a =>
  assign a (Some i) (set_prv None).

(** The order of addHash. *)
Definition push' a p i : option (list N) :=
  assign a (Some i) (set_nxt p) ≫= fun a =>
  assign a (Some i) (set_prv None) ≫= fun a =>
  opt_assign a p (set_prv (Some i)).

Lemma push_dll a p l i n : dll a p l -> NoDup l -> i ∉ l -> a !! i = Some n ->
  exists a', push a p i = Some a' /\ push' a p i = Some a' /\ dll a' (Some i) (i :: l) /\
    same_data a a' /\ (forall j, j ∉ i :: l -> a' !! j = a !! j).
Proof using OK.
  intros [q H] ND Hi E. unfold push, push'. rewrite (assign_Some a i n) by done. cbn [mbind option_bind].
  set (a1 := alter (set_nxt p) i a).
  assert (E1 : a1 !! i = Some (set_nxt p n)) by (unfold a1; rewrite list_lookup_alter_eq, E; done).
  assert (F1 : forall j, j <> i -> a1 !! j = a !! j) by (intros; unfold a1; by rewrite list_lookup_alter_ne).
  assert (S1 : same_data a a1) by (apply same_data_alter, data_set_nxt).
  assert (H1 : dseg a1 p None l None q) by (apply (dseg_frame a); [done|]; intros; apply F1; set_solver).
  rewrite (assign_Some a1 i _ (set_prv None) E1). cbn [mbind option_bind].
  destruct l as [|k l].
  - destruct H as [-> <-]. cbn [opt_assign mbind option_bind]. rewrite (assign_Some _ _ _ _ E1).
    eexists. split_and!; [done|done| | |].
    + exists (Some i). cbn. split; [done|]. eexists. rewrite list_lookup_alter_eq, E1. cbn.
      by rewrite prv_set_prv, nxt_set_prv, nxt_set_nxt.
    + eapply same_data_trans; [done|]. apply same_data_alter, data_set_prv.
    + intros j Hj. assert (j <> i) by set_solver. rewrite list_lookup_alter_ne by done. auto.
  - destruct (dseg_set_prv a1 p None (Some i) (k :: l) None q) as (k' & -> & Hk & [nk Ek] & H2); [done..|].
    assert (k' <> i) as Dk by set_solver.
    cbn [opt_assign]. rewrite (assign_Some a1 k' nk) by done. cbn [mbind option_bind].
    rewrite (assign_Some _ i (set_nxt (Some k') n)) by (rewrite list_lookup_alter_ne by done; done).
    rewrite (assign_Some _ k' nk) by (rewrite list_lookup_alter_ne by done; done).
    exists (alter (set_prv None) i (alter (set_prv (Some i)) k' a1)). split_and!; [done| | | |].
    + by rewrite alter_commute.
    + exists q. split; [done|]. eexists. rewrite list_lookup_alter_eq, list_lookup_alter_ne, E1 by done.
      split; [done|]. split; [apply prv_set_prv|]. rewrite nxt_set_prv, nxt_set_nxt.
      apply (dseg_frame (alter (set_prv (Some i)) k' a1)); [exact H2|].
      intros j Hj. rewrite list_lookup_alter_ne; [done|]. set_solver.
    + eapply same_data_trans; [done|]. eapply same_data_trans; apply same_data_alter, data_set_prv.
    + intros j Hj. rewrite !list_lookup_alter_ne by set_solver. apply F1. set_solver.
Qed.

(** *** Unlink *)

(** The array and the head pointer afterwards. *)
Definition unlink a p i : option (list N * option nat) :=
  a !! i ≫= fun n =>
  (match prv n with
   | Some _ => assign a (prv n) (set_nxt (nxt n)) ≫= fun a => Some (a, p)
   | None => Some (a, nxt n)
   end) ≫= fun '(a, p) =>
  opt_assign a (nxt n) (set_prv (prv n)) ≫= fun a => Some (a, p).

(** The second half: the successor's [prev]. *)
Lemma unlink_next a l2 p r q : NoDup l2 -> dseg a p (Some r) l2 None q -> forall v,
  exists a' q', opt_assign a p (set_prv v) = Some a' /\ dseg a' p v l2 None q' /\
    same_data a a' /\ (forall j, j ∉ l2 -> a' !! j = a !! j).
Proof using OK.
  intros ND H v. destruct l2 as [|k l2].
  - destruct H as [-> _]. exists a, v. done.
  - destruct (dseg_set_prv a p (Some r) v (k :: l2) None q) as (k' & -> & Hk & [nk Ek] & H2); [done..|].
    exists (alter (set_prv v) k' a), q. cbn [opt_assign]. rewrite (assign_Some _ _ nk) by done.
    split_and!; [done|done| |].
    + apply same_data_alter, data_set_prv.
    + intros j Hj. rewrite list_lookup_alter_ne; [done|]. set_solver.
Qed.

Lemma unlink_dll a p l1 i l2 : dll a p (l1 ++ i :: l2) -> NoDup (l1 ++ i :: l2) ->
  exists a' p', unlink a p i = Some (a', p') /\ dll a' p' (l1 ++ l2) /\
    same_data a a' /\ (forall j, j ∉ l1 ++ l2 -> a' !! j = a !! j).
Proof using OK.
  intros [q H] ND. apply dseg_app in H as (m & r & H1 & H2). cbn in H2.
  destruct H2 as (-> & n & E & Hp & H2). apply NoDup_app in ND as (ND1 & Hd & [Hi ND2]%NoDup_cons).
  unfold unlink. rewrite E. cbn [mbind option_bind]. rewrite Hp.
  destruct (decide (l1 = [])) as [->|Hl1].
  - destruct H1 as [_ <-]. destruct (unlink_next a l2 (nxt n) i q ND2 H2 None) as (a' & q' & EU & D & S & F).
    cbn [mbind option_bind]. rewrite EU. cbn [mbind option_bind]. exists a', (nxt n). split_and!; try done. by exists q'.
  - destruct (exists_last Hl1) as (l & x & ->). apply dseg_app in H1 as (m & r' & H1 & H3).
    cbn in H3. destruct H3 as (-> & nx & Ex & Hpx & Hnx & <-).
    apply NoDup_app in ND1 as (NDl & Hdl & _).
    rewrite (assign_Some a x nx) by done. cbn [mbind option_bind].
    set (a1 := alter (set_nxt (nxt n)) x a).
    assert (F1 : forall j, j <> x -> a1 !! j = a !! j) by (intros; unfold a1; by rewrite list_lookup_alter_ne).
    assert (Hx2 : x ∉ l2) by (specialize (Hd x); set_solver).
    assert (H2' : dseg a1 (nxt n) (Some i) l2 None q) by (apply (dseg_frame a); [done|]; intros; apply F1; set_solver).
    destruct (unlink_next a1 l2 (nxt n) i q ND2 H2' (Some x)) as (a' & q' & EU & D & S & F).
    rewrite EU. cbn [mbind option_bind]. exists a', p. split_and!; [done| | |].
    + exists q'. rewrite <- app_assoc. apply dseg_app. exists (Some x), r'. split.
      * apply (dseg_frame a); [done|]. intros j Hj. specialize (Hdl j Hj). specialize (Hd j).
        rewrite F, F1; [done| |]; set_solver.
      * cbn. split; [done|]. exists (set_nxt (nxt n) nx). rewrite F by done. unfold a1.
        rewrite list_lookup_alter_eq, Ex. rewrite prv_set_nxt, nxt_set_nxt. done.
    + eapply same_data_trans; [|done]. apply same_data_alter, data_set_nxt.
    + intros j Hj. rewrite F, F1; [done| |]; set_solver.
Qed.

(** *** Free lists *)

Lemma push_sll a p l i n : sll a p l -> i ∉ l -> a !! i = Some n ->
  sll (alter (set_nxt p) i a) (Some i) (i :: l).
Proof using OK.
  intros H Hi E. cbn. split; [done|]. exists (set_nxt p n). rewrite list_lookup_alter_eq, E. split; [done|].
  rewrite nxt_set_nxt. apply (sll_frame a); [done|]. intros j Hj. rewrite list_lookup_alter_ne; set_solver.
Qed.

Lemma sll_cons a p i l : sll a p (i :: l) -> p = Some i /\ exists n, a !! i = Some n /\ sll a (nxt n) l.
Proof. done. Qed.

(** Linking the entries of an array in order. *)
Lemma sll_seq a m : forall k, (forall j, (k <= j < k + m)%nat -> exists n, a !! j = Some n /\
    nxt n = if decide (S j = k + m)%nat then None else Some (S j)) ->
  (m > 0)%nat -> sll a (Some k) (seq k m).
Proof.
  induction m as [|m IH]; intros k H Hm; [lia|]. cbn. split; [done|].
  destruct (H k) as (n & E & Hn); [lia|]. exists n. split; [done|]. rewrite Hn.
  destruct m as [|m].
  - rewrite decide_True by lia. done.
  - rewrite decide_False by lia. apply IH; [|lia]. intros j Hj. destruct (H j) as (nj & Ej & Hnj); [lia|].
    exists nj. split; [done|]. rewrite Hnj. by replace (k + S (S m))%nat with (S k + S m)%nat by lia.
Qed.

End Lists.
