(* ===== verification/RelayTable.v ===== *)
(** * RelayTable: the session tables of the relay (relay.c, relay.h)

    [AllSessions] and [AllHashes] are arrays of structures linked by index:
    a free list and a doubly linked list of active sessions, a free list of
    hash entries and one doubly linked chain per bucket.  A pointer into an
    array is [Some] index, NULL is [None]; following a bad pointer gives
    [None].  [Tables_ok] is the shape of the tables, and every operation is
    related to the list of open sessions it stands for. *)

From stdpp Require Import base list numbers strings gmap.
From S2P Require Import Prelude Wire LinkedList.
Open Scope Z_scope.

(** ** Data *)

Definition MAX_INTERFACES : Z := 8.
Definition DEFAULT_SESSIONS : Z := 5000.
Definition HASHTAB_SIZE : Z := 18917.

Record PPPoEInterface := mkInterface {
  if_name : list Z;
  discoverySock : Z;
  sessionSock : Z;
  clientOK : bool;
  acOK : bool;
  if_mac : list Z
}.

Record PPPoESession := mkSession {
  s_next : option nat;
  s_prev : option nat;
  acHash : option nat;
  clientHash : option nat;
  epoch : Z;
  s_sesNum : Z
}.

(** [interface] is an index into [Interfaces]. *)
Record SessionHash := mkHash {
  h_next : option nat;
  h_prev : option nat;
  peer : option nat;
  interface : option nat;
  peerMac : list Z;
  h_sesNum : Z;
  ses : option nat
}.

(** The globals; [Buckets] maps the non-NULL buckets to their first entry. *)
Record Tables := mkTables {
  NumSessions : Z;
  MaxSessions : Z;
  AllSessions : list PPPoESession;
  FreeSessions : option nat;
  ActiveSessions : option nat;
  AllHashes : list SessionHash;
  FreeHashes : option nat;
  Buckets : gmap Z nat;
  Epoch : Z
}.

(** *** Field assignments *)

Definition s_set_next v s := mkSession v (s_prev s) (acHash s) (clientHash s) (epoch s) (s_sesNum s).
Definition s_set_prev v s := mkSession (s_next s) v (acHash s) (clientHash s) (epoch s) (s_sesNum s).
Definition s_set_hashes a c s := mkSession (s_next s) (s_prev s) a c (epoch s) (s_sesNum s).
Definition s_set_epoch v s := mkSession (s_next s) (s_prev s) (acHash s) (clientHash s) v (s_sesNum s).
Definition s_set_sesNum v s := mkSession (s_next s) (s_prev s) (acHash s) (clientHash s) (epoch s) v.

Definition h_set_next v h :=
  mkHash v (h_prev h) (peer h) (interface h) (peerMac h) (h_sesNum h) (ses h).
Definition h_set_prev v h :=
  mkHash (h_next h) v (peer h) (interface h) (peerMac h) (h_sesNum h) (ses h).
(** Peer, interface, address, session number and session of an entry. *)
Definition h_set_end p i m n s h := mkHash (h_next h) (h_prev h) p i m n s.

Definition t_NumSessions v t := mkTables v (MaxSessions t) (AllSessions t) (FreeSessions t)
  (ActiveSessions t) (AllHashes t) (FreeHashes t) (Buckets t) (Epoch t).
Definition t_AllSessions v t := mkTables (NumSessions t) (MaxSessions t) v (FreeSessions t)
  (ActiveSessions t) (AllHashes t) (FreeHashes t) (Buckets t) (Epoch t).
Definition t_FreeSessions v t := mkTables (NumSessions t) (MaxSessions t) (AllSessions t) v
  (ActiveSessions t) (AllHashes t) (FreeHashes t) (Buckets t) (Epoch t).
Definition t_ActiveSessions v t := mkTables (NumSessions t) (MaxSessions t) (AllSessions t)
  (FreeSessions t) v (AllHashes t) (FreeHashes t) (Buckets t) (Epoch t).
Definition t_AllHashes v t := mkTables (NumSessions t) (MaxSessions t) (AllSessions t)
  (FreeSessions t) (ActiveSessions t) v (FreeHashes t) (Buckets t) (Epoch t).
Definition t_FreeHashes v t := mkTables (NumSessions t) (MaxSessions t) (AllSessions t)
  (FreeSessions t) (ActiveSessions t) (AllHashes t) v (Buckets t) (Epoch t).
Definition t_Buckets v t := mkTables (NumSessions t) (MaxSessions t) (AllSessions t)
  (FreeSessions t) (ActiveSessions t) (AllHashes t) (FreeHashes t) v (Epoch t).
Definition t_Epoch v t := mkTables (NumSessions t) (MaxSessions t) (AllSessions t)
  (FreeSessions t) (ActiveSessions t) (AllHashes t) (FreeHashes t) (Buckets t) v.

Definition set_bucket (b : Z) (p : option nat) (m : gmap Z nat) : gmap Z nat :=
  partial_alter (fun _ => p) b m.

(** ** Operations *)

(** [b] bytes shifted and combined; all within 32 bits for 6 address bytes and
    a 16-bit number. *)
Definition hash (mac : list Z) (sesNum : Z) : Z :=
  let ans1 := Z.lor (nthb mac 0) (Z.lor (Z.shiftl (nthb mac 1) 8)
                (Z.lor (Z.shiftl (nthb mac 2) 16) (Z.shiftl (nthb mac 3) 24))) in
  let ans2 := Z.lor sesNum (Z.lor (Z.shiftl (nthb mac 4) 16) (Z.shiftl (nthb mac 5) 24)) in
  Z.lxor ans1 ans2.

Definition bucket (mac : list Z) (sesNum : Z) : Z := hash mac sesNum mod HASHTAB_SIZE.

Definition addHash (t : Tables) (sh : option nat) : option Tables :=
  deref (AllHashes t) sh ≫= fun h =>
  let b := bucket (peerMac h) (h_sesNum h) in
  let first := Buckets t !! b in
  assign (AllHashes t) sh (h_set_next first) ≫= fun a =>
  assign a sh (h_set_prev None) ≫= fun a =>
  opt_assign a first (h_set_prev sh) ≫= fun a =>
  Some (t_Buckets (set_bucket b sh (Buckets t)) (t_AllHashes a t)).

Definition unhash (t : Tables) (sh : option nat) : option Tables :=
  deref (AllHashes t) sh ≫= fun h =>
  let b := bucket (peerMac h) (h_sesNum h) in
  (match h_prev h with
   | Some _ => assign (AllHashes t) (h_prev h) (h_set_next (h_next h)) ≫= fun a =>
               Some (t_AllHashes a t)
   | None => Some (t_Buckets (set_bucket b (h_next h) (Buckets t)) t)
   end) ≫= fun t =>
  opt_assign (AllHashes t) (h_next h) (h_set_prev (h_prev h)) ≫= fun a =>
  assign a sh (h_set_next (FreeHashes t)) ≫= fun a =>
  Some (t_FreeHashes sh (t_AllHashes a t)).

(** The result is the new session, or NULL when the table is full. *)
Definition createSession (t : Tables) (ac cli : nat) (acMac cliMac : list Z) (acSes : Z) :
    option (option nat * Tables) :=
  if decide (NumSessions t >= MaxSessions t) then Some (None, t) else
  let sess := FreeSessions t in
  deref (AllSessions t) sess ≫= fun s =>
  let t := t_NumSessions (NumSessions t + 1) (t_FreeSessions (s_next s) t) in
  (* Link it to the active list *)
  assign (AllSessions t) sess (s_set_next (ActiveSessions t)) ≫= fun a =>
  opt_assign a (ActiveSessions t) (s_set_prev sess) ≫= fun a =>
  let t := t_ActiveSessions sess t in
  assign a sess (s_set_prev None) ≫= fun a =>
  assign a sess (s_set_epoch (Epoch t)) ≫= fun a =>
  (* Get two hash entries *)
  let acH := FreeHashes t in
  deref (AllHashes t) acH ≫= fun h1 =>
  let cliH := h_next h1 in
  deref (AllHashes t) cliH ≫= fun h2 =>
  let t := t_FreeHashes (h_next h2) t in
  assign a sess (s_set_hashes acH cliH) ≫= fun a =>
  deref a sess ≫= fun s =>
  assign (AllHashes t) acH (h_set_end cliH (Some ac) acMac acSes sess) ≫= fun hs =>
  assign hs cliH (h_set_end acH (Some cli) cliMac (s_sesNum s) sess) ≫= fun hs =>
  let t := t_AllHashes hs (t_AllSessions a t) in
  addHash t acH ≫= fun t =>
  addHash t cliH ≫= fun t =>
  Some (sess, t).

Definition freeSession (t : Tables) (p : option nat) : option Tables :=
  deref (AllSessions t) p ≫= fun s =>
  (* The log message reads both entries *)
  deref (AllHashes t) (acHash s) ≫= fun _ =>
  deref (AllHashes t) (clientHash s) ≫= fun _ =>
  (* Unlink from active sessions *)
  (match s_prev s with
   | Some _ => assign (AllSessions t) (s_prev s) (s_set_next (s_next s)) ≫= fun a =>
               Some (t_AllSessions a t)
   | None => Some (t_ActiveSessions (s_next s) t)
   end) ≫= fun t =>
  opt_assign (AllSessions t) (s_next s) (s_set_prev (s_prev s)) ≫= fun a =>
  (* Link onto free list *)
  assign a p (s_set_next (FreeSessions t)) ≫= fun a =>
  let t := t_FreeSessions p (t_AllSessions a t) in
  unhash t (acHash s) ≫= fun t =>
  unhash t (clientHash s) ≫= fun t =>
  Some (t_NumSessions (NumSessions t - 1) t).

(** [while(sh) ...]; a chain has at most as many entries as the table. *)
Fixpoint find_chain (fuel : nat) (a : list SessionHash) (sh : option nat) (mac : list Z) (sesNum : Z) :
    option (option nat) :=
  match sh with
  | None => Some None
  | Some _ =>
    match fuel with
    | O => None
    | S fuel =>
      deref a sh ≫= fun h =>
      if mac_eqb mac (peerMac h) && (sesNum =? h_sesNum h) then Some sh
      else find_chain fuel a (h_next h) mac sesNum
    end
  end.

Definition findSession (t : Tables) (mac : list Z) (sesNum : Z) : option (option nat) :=
  find_chain (S (length (AllHashes t))) (AllHashes t) (Buckets t !! bucket mac sesNum) mac sesNum.

(** *** Initialisation *)

(** [for (i = from; i < from + n; i++) body]. *)
Definition for_loop {A} (from n : nat) (body : nat -> A -> A) (a : A) : A :=
  fold_left (fun a i => body i a) (seq from n) a.

Definition null_session : PPPoESession := mkSession None None None None 0 0.
Definition null_hash : SessionHash := mkHash None None None None (replicate 6 0) 0 None.

(** "Initialize sessions in a linked list", on [n >= 1] entries from [calloc]. *)
Definition init_sessions (n : nat) : list PPPoESession :=
  let a := replicate n null_session in
  let a := alter (s_set_prev None) 0%nat a in
  let a := alter (s_set_next (if decide (1 < n)%nat then Some 1%nat else None)) 0%nat a in
  let a := for_loop 1 (n - 2) (fun i a =>
             alter (s_set_next (Some (i + 1)%nat)) i (alter (s_set_prev (Some (i - 1)%nat)) i a)) a in
  let a := if decide (1 < n)%nat
           then alter (s_set_next None) (n - 1)%nat (alter (s_set_prev (Some (n - 2)%nat)) (n - 1)%nat a) else a in
  for_loop 0 n (fun i => alter (s_set_sesNum (htons (u16 (Z.of_nat i + 1)))) i) a.

(** "Initialize hashes in a linked list": [n] is [2 * MaxSessions]. *)
Definition init_hashes (n : nat) : list SessionHash :=
  let a := replicate n null_hash in
  let a := alter (h_set_next (Some 1%nat)) 0%nat (alter (h_set_prev None) 0%nat a) in
  let a := for_loop 1 (n - 2) (fun i a =>
             alter (h_set_next (Some (i + 1)%nat)) i (alter (h_set_prev (Some (i - 1)%nat)) i a)) a in
  alter (h_set_next None) (n - 1)%nat (alter (h_set_prev (Some (n - 2)%nat)) (n - 1)%nat a).

Definition initRelay (nsess : nat) (ep : Z) : Tables := {|
  NumSessions := 0;
  MaxSessions := Z.of_nat nsess;
  AllSessions := init_sessions nsess;
  FreeSessions := Some 0%nat;
  ActiveSessions := None;
  AllHashes := init_hashes (2 * nsess);
  FreeHashes := Some 0%nat;
  Buckets := ∅;
  Epoch := ep
|}.

(** ** Specification: the open sessions *)

(** An open session: its slot, when it was last active, and its two ends. *)
Record relayed := mkRelayed {
  r_slot : nat;
  r_epoch : Z;
  r_acIf : nat;
  r_acMac : list Z;
  r_acNum : Z;
  r_cliIf : nat;
  r_cliMac : list Z
}.

(** The number the relay gives the client, as it appears in packets. *)
Definition r_num (r : relayed) : Z := htons (Z.of_nat (r_slot r) + 1).

(** Interface, address and session number of an end: the access
    concentrator's ([true]) or the client's. *)
Definition r_end (ac : bool) (r : relayed) : nat * list Z * Z :=
  if ac then (r_acIf r, r_acMac r, r_acNum r) else (r_cliIf r, r_cliMac r, r_num r).
Definition r_key (ac : bool) (r : relayed) : list Z * Z :=
  let '(_, m, n) := r_end ac r in (m, n).

(** ** Representation *)

#[export] Instance linked_session : Linked PPPoESession :=
  { nxt := s_next; prv := s_prev; set_nxt := s_set_next; set_prv := s_set_prev }.
#[export] Instance linked_hash : Linked SessionHash :=
  { nxt := h_next; prv := h_prev; set_nxt := h_set_next; set_prv := h_set_prev }.
#[export] Instance linked_session_ok : LinkedOk PPPoESession.
Proof. by split. Qed.
#[export] Instance linked_hash_ok : LinkedOk SessionHash.
Proof. by split. Qed.

Definition h_bucket (h : SessionHash) : Z := bucket (peerMac h) (h_sesNum h).

(** [hs] are the entries in the table, [fr] the free ones, [chain b] the ones
    in bucket [b]. *)
Record Hash_ok (a : list SessionHash) (bk : gmap Z nat) (fp : option nat)
    (hs fr : list nat) (chain : Z -> list nat) : Prop := {
  chain_dll : forall b, dll a (bk !! b) (chain b);
  chain_nodup : forall b, NoDup (chain b);
  chain_in : forall b x, x ∈ chain b <-> x ∈ hs /\ exists h, a !! x = Some h /\ h_bucket h = b;
  free_sll : sll a fp fr;
  hash_nodup : NoDup (hs ++ fr)
}.

(** An entry is the end [e] of session [s], its peer is [p]. *)
Definition hash_is (a : list SessionHash) (x p s : nat) (e : nat * list Z * Z) : Prop :=
  exists h, a !! x = Some h /\ peer h = Some p /\ ses h = Some s /\
    interface h = Some e.1.1 /\ peerMac h = e.1.2 /\ h_sesNum h = e.2.

(** The two hash entries of an open session. *)
Record open_at (sa : list PPPoESession) (ha : list SessionHash) (e : nat * nat) (r : relayed) : Prop := {
  open_ses : exists s, sa !! r_slot r = Some s /\ acHash s = Some e.1 /\ clientHash s = Some e.2 /\
               epoch s = r_epoch r;
  open_ac : hash_is ha e.1 e.2 (r_slot r) (r_end true r);
  open_cli : hash_is ha e.2 e.1 (r_slot r) (r_end false r)
}.

Definition ends (es : list (nat * nat)) : list nat := concat (map (fun e => [e.1; e.2]) es).

Record Rep_with (t : Tables) (rs : list relayed) (es : list (nat * nat)) (freeS freeH : list nat)
    (chain : Z -> list nat) : Prop := {
  rep_max : 1 <= MaxSessions t <= 65534;
  rep_slen : zlen (AllSessions t) = MaxSessions t;
  rep_hlen : zlen (AllHashes t) = 2 * MaxSessions t;
  rep_num : NumSessions t = zlen rs;
  rep_active : dll (AllSessions t) (ActiveSessions t) (map r_slot rs);
  rep_freeS : sll (AllSessions t) (FreeSessions t) freeS;
  rep_partS : map r_slot rs ++ freeS ≡ₚ seq 0 (length (AllSessions t));
  rep_hash : Hash_ok (AllHashes t) (Buckets t) (FreeHashes t) (ends es) freeH chain;
  rep_partH : ends es ++ freeH ≡ₚ seq 0 (length (AllHashes t));
  rep_sesNum : forall i s, AllSessions t !! i = Some s -> s_sesNum s = htons (Z.of_nat i + 1);
  rep_open : Forall2 (open_at (AllSessions t) (AllHashes t)) es rs
}.

(** The tables hold the open sessions [rs], most recent first. *)
Definition Rep (t : Tables) (rs : list relayed) : Prop :=
  exists es freeS freeH chain, Rep_with t rs es freeS freeH chain.

(** ** Lemmas: the hash table *)

Lemma data_bucket h h' : data h' = data h -> h_bucket h' = h_bucket h.
Proof. destruct h, h'. by intros [= -> -> -> -> ->]. Qed.

(** Membership of a chain only looks at the data. *)
Lemma bucket_same a a' x b : same_data a a' ->
  (exists h, a' !! x = Some h /\ h_bucket h = b) <-> (exists h, a !! x = Some h /\ h_bucket h = b).
Proof.
  intros S. specialize (S x). split; intros (h & E & <-); rewrite E in S.
  - destruct (a !! x) as [h'|]; [|done]. exists h'. split; [done|]. apply (inj Some) in S. symmetry. by apply data_bucket.
  - destruct (a' !! x) as [h'|]; [|done]. exists h'. split; [done|]. apply (inj Some) in S. by apply data_bucket.
Qed.

Lemma set_bucket_same b p m : set_bucket b p m !! b = p.
Proof. apply lookup_partial_alter_eq. Qed.
Lemma set_bucket_other b b' p m : b <> b' -> set_bucket b p m !! b' = m !! b'.
Proof. intros. by apply lookup_partial_alter_ne. Qed.

(** Chains of different buckets have no entry in common. *)
Lemma chain_disjoint a bk fp hs fr chain b b' x : Hash_ok a bk fp hs fr chain ->
  x ∈ chain b -> x ∈ chain b' -> b = b'.
Proof.
  intros H (_ & h & E & <-)%(chain_in _ _ _ _ _ _ H) (_ & h' & E' & <-)%(chain_in _ _ _ _ _ _ H).
  rewrite E in E'. by injection E' as ->.
Qed.

(** An entry outside the table may be changed. *)
Lemma Hash_ok_frame a a' bk fp hs fr chain : Hash_ok a bk fp hs fr chain ->
  (forall x, x ∈ hs ++ fr -> a' !! x = a !! x) -> Hash_ok a' bk fp hs fr chain.
Proof.
  intros H F. split; try apply H.
  - intros b. apply (dll_frame a); [apply H|]. intros j Hj. apply F.
    apply (chain_in _ _ _ _ _ _ H) in Hj. set_solver.
  - intros b x. rewrite (chain_in _ _ _ _ _ _ H). split; intros (Hx & h & E & Hb); (split; [done|]; exists h; split; [|done]).
    + rewrite F by set_solver. done.
    + rewrite <- F by set_solver. done.
  - apply (sll_frame a); [apply H|]. intros j Hj. apply F. set_solver.
Qed.

Lemma addHash_ok t x h hs fr chain :
  Hash_ok (AllHashes t) (Buckets t) (FreeHashes t) hs fr chain ->
  AllHashes t !! x = Some h -> x ∉ hs -> x ∉ fr ->
  exists a bk chain', addHash t (Some x) = Some (t_Buckets bk (t_AllHashes a t)) /\
    Hash_ok a bk (FreeHashes t) (x :: hs) fr chain' /\ same_data (AllHashes t) a.
Proof.
  intros H E Hx Hf. set (b := h_bucket h).
  assert (Hb : x ∉ chain b) by (intros Hin; apply (chain_in _ _ _ _ _ _ H) in Hin; naive_solver).
  destruct (push_dll _ _ _ _ _ (chain_dll _ _ _ _ _ _ H b) (chain_nodup _ _ _ _ _ _ H b) Hb E)
    as (a & _ & P & D & S & F).
  exists a, (set_bucket b (Some x) (Buckets t)),
    (fun b' => if decide (b' = b) then x :: chain b else chain b').
  split_and!; [|split|done].
  - unfold addHash. rewrite (deref_Some _ _ _ E). cbn [mbind option_bind].
    fold (h_bucket h). fold b. unfold push' in P. cbn [set_nxt set_prv linked_hash] in P.
    destruct (assign (AllHashes t) (Some x) (h_set_next (Buckets t !! b))) as [a1|]; [|done].
    cbn [mbind option_bind] in *.
    destruct (assign a1 (Some x) (h_set_prev None)) as [a2|]; [|done]. cbn [mbind option_bind] in *.
    by rewrite P.
  - intros b'. case_decide as Db; [subst b'; by rewrite set_bucket_same|].
    rewrite set_bucket_other by done. apply (dll_frame (AllHashes t)); [apply H|].
    intros j Hj. apply F. rewrite elem_of_cons. intros [->|Hj'].
    + apply (chain_in _ _ _ _ _ _ H) in Hj. naive_solver.
    + by pose proof (chain_disjoint _ _ _ _ _ _ _ _ _ H Hj Hj').
  - intros b'. case_decide; [|apply H]. apply NoDup_cons. split; [done|apply H].
  - intros b' y. rewrite (bucket_same _ _ _ _ S). case_decide as Db.
    + subst b'. rewrite !elem_of_cons, (chain_in _ _ _ _ _ _ H). naive_solver.
    + rewrite elem_of_cons, (chain_in _ _ _ _ _ _ H). split; [naive_solver|].
      intros [[->|Hy] (h' & E' & Hb')]; [|naive_solver]. rewrite E in E'. naive_solver.
  - apply (sll_frame (AllHashes t)); [apply H|]. intros j Hj. apply F.
    pose proof (hash_nodup _ _ _ _ _ _ H) as ND. apply NoDup_app in ND as (_ & ND & _).
    rewrite elem_of_cons. intros [->|Hj']; [done|].
    apply (chain_in _ _ _ _ _ _ H) in Hj' as [Hj' _]. by apply (ND j).
  - cbn. apply NoDup_cons. split; [set_solver|apply H].
Qed.

Lemma unhash_ok t x h hs hs' fr chain :
  Hash_ok (AllHashes t) (Buckets t) (FreeHashes t) hs fr chain ->
  AllHashes t !! x = Some h -> hs ≡ₚ x :: hs' ->
  exists a bk chain', unhash t (Some x) =
      Some (t_FreeHashes (Some x) (t_AllHashes a (t_Buckets bk t))) /\
    Hash_ok a bk (Some x) hs' (x :: fr) chain' /\ same_data (AllHashes t) a.
Proof.
  intros H E P. set (b := h_bucket h).
  assert (ND : NoDup (x :: (hs' ++ fr))) by (rewrite app_comm_cons, <- P; apply H).
  apply NoDup_cons in ND as [Hx ND].
  assert (Hb : x ∈ chain b) by (apply (chain_in _ _ _ _ _ _ H); split; [rewrite P; left|by exists h]).
  apply list_elem_of_split in Hb as (l1 & l2 & El).
  pose proof (chain_nodup _ _ _ _ _ _ H b) as NDb. rewrite El in NDb.
  pose proof (chain_dll _ _ _ _ _ _ H b) as Db. rewrite El in Db.
  assert (Hn : x ∉ l1 ++ l2).
  { rewrite <- Permutation_middle in NDb. by apply NoDup_cons in NDb as [? _]. }
  destruct (unlink_dll _ _ _ _ _ Db NDb) as (a & p' & U & D & S & F).
  set (bk := match h_prev h with Some _ => Buckets t | None => set_bucket b (h_next h) (Buckets t) end).
  unfold unlink in U. rewrite E in U. cbn [mbind option_bind prv nxt linked_hash set_nxt set_prv] in U.
  assert (Hbk : bk !! b = p' /\ forall b', b <> b' -> bk !! b' = Buckets t !! b').
  { unfold bk. destruct (h_prev h).
    - destruct (assign (AllHashes t) _ _); [|done]. cbn [mbind option_bind] in U.
      destruct (opt_assign _ _ _); [|done]. cbn in U. naive_solver.
    - cbn [mbind option_bind] in U. destruct (opt_assign _ _ _); [|done]. cbn in U. simplify_eq.
      split; [apply set_bucket_same|intros; by apply set_bucket_other]. }
  destruct Hbk as [Hbk Hbk'].
  assert (Ea : a !! x = Some h) by (by rewrite F).
  assert (S' : same_data (AllHashes t) (alter (h_set_next (FreeHashes t)) x a)).
  { eapply same_data_trans; [exact S|]. apply same_data_alter. intros n. by destruct n. }
  exists (alter (h_set_next (FreeHashes t)) x a), bk,
    (fun b' => if decide (b' = b) then l1 ++ l2 else chain b').
  split_and!; [|split|done].
  - unfold unhash. rewrite (deref_Some _ _ _ E). cbn [mbind option_bind].
    fold (h_bucket h). fold b. unfold bk. destruct (h_prev h).
    + destruct (assign (AllHashes t) _ _) as [a1|]; [|done]. cbn [mbind option_bind] in *. cbn [AllHashes t_AllHashes].
      destruct (opt_assign _ _ _) as [a2|]; [|done]. cbn in U. simplify_eq. cbn [mbind option_bind].
      by rewrite (assign_Some _ _ _ _ Ea).
    + cbn [mbind option_bind] in *. cbn [AllHashes t_Buckets].
      destruct (opt_assign _ _ _) as [a2|]; [|done]. cbn in U. simplify_eq. cbn [mbind option_bind].
      by rewrite (assign_Some _ _ _ _ Ea).
  - intros b'. apply (dll_frame a).
    2:{ intros j Hj. rewrite list_lookup_alter_ne; [done|]. intros <-. case_decide; [done|].
        apply (chain_in _ _ _ _ _ _ H) in Hj. naive_solver. }
    case_decide as Dbb; [subst b'; by rewrite Hbk|]. rewrite Hbk' by done.
    apply (dll_frame (AllHashes t)); [apply H|]. intros j Hj. apply F. intros Hj'.
    assert (j ∈ chain b) by (rewrite El; set_solver).
    by pose proof (chain_disjoint _ _ _ _ _ _ _ _ _ H Hj H0).
  - intros b'. case_decide; [|apply H]. rewrite <- Permutation_middle in NDb. by apply NoDup_cons in NDb as [_ ?].
  - intros b' y. rewrite (bucket_same _ _ _ _ S'). pose proof (chain_in _ _ _ _ _ _ H b' y) as C.
    rewrite P, elem_of_cons in C. case_decide as Dbb.
    + subst b'. rewrite El in C. assert (y ∈ l1 ++ x :: l2 <-> y = x \/ y ∈ l1 ++ l2) by set_solver.
      assert (x ∉ hs') by set_solver. naive_solver.
    + rewrite C. split; [|naive_solver]. intros ([->|Hy] & h' & E' & Hb'); [|naive_solver]. naive_solver.
  - change (h_set_next (FreeHashes t)) with (set_nxt (N:=SessionHash) (FreeHashes t)).
    apply push_sll with h; [|set_solver|done]. apply (sll_frame (AllHashes t)); [apply H|].
    intros j Hj. apply F. intros Hj'. assert (j ∈ chain b) as Hjc by (rewrite El; set_solver).
    apply (chain_in _ _ _ _ _ _ H) in Hjc as [Hjc _].
    pose proof (hash_nodup _ _ _ _ _ _ H) as N'. apply NoDup_app in N' as (_ & N' & _). by apply (N' j).
  - rewrite <- Permutation_middle. apply NoDup_cons. done.
Qed.

Lemma Hash_ok_perm a bk fp hs hs' fr chain : hs ≡ₚ hs' ->
  Hash_ok a bk fp hs fr chain -> Hash_ok a bk fp hs' fr chain.
Proof. intros P []. split; try done; [intros b x; by rewrite <- P|by rewrite <- P]. Qed.

Lemma Hash_ok_pop a bk fp hs x fr chain : Hash_ok a bk fp hs (x :: fr) chain ->
  fp = Some x /\ (x ∉ hs) /\ (x ∉ fr) /\
  exists h, a !! x = Some h /\ Hash_ok a bk (h_next h) hs fr chain.
Proof.
  intros H. destruct (free_sll _ _ _ _ _ _ H) as (-> & h & E & S).
  pose proof (hash_nodup _ _ _ _ _ _ H) as ND. rewrite <- Permutation_middle in ND.
  apply NoDup_cons in ND as [Hx ND]. split_and!; [done|set_solver|set_solver|].
  exists h. split; [done|]. split; try apply H; done.
Qed.

(** ** Lemmas: the open sessions *)

Lemma data_session s s' : data s' = data s -> acHash s' = acHash s /\ clientHash s' = clientHash s /\
  epoch s' = epoch s /\ s_sesNum s' = s_sesNum s.
Proof. destruct s, s'. by intros [= -> -> -> ->]. Qed.

Lemma data_hash h h' : data h' = data h -> peer h' = peer h /\ ses h' = ses h /\
  interface h' = interface h /\ peerMac h' = peerMac h /\ h_sesNum h' = h_sesNum h.
Proof. destruct h, h'. by intros [= -> -> -> -> ->]. Qed.

Lemma hash_is_same a a' x p s e : same_data a a' -> hash_is a x p s e -> hash_is a' x p s e.
Proof.
  intros S (h & E & H). destruct (same_data_lookup _ _ _ _ S E) as (h' & E' & D).
  apply data_hash in D as (D1 & D2 & D3 & D4 & D5). exists h'. by rewrite D1, D2, D3, D4, D5.
Qed.

Lemma hash_is_frame a a' x p s e : a' !! x = a !! x -> hash_is a x p s e -> hash_is a' x p s e.
Proof. intros F (h & E & H). exists h. by rewrite F. Qed.

(** The session keeps its hashes and epoch. *)
Definition ses_is (sa : list PPPoESession) (i : nat) (a c : nat) (ep : Z) : Prop :=
  exists s, sa !! i = Some s /\ acHash s = Some a /\ clientHash s = Some c /\ epoch s = ep.

Lemma ses_is_same sa sa' i a c ep : same_data sa sa' -> ses_is sa i a c ep -> ses_is sa' i a c ep.
Proof.
  intros S (s & E & H). destruct (same_data_lookup _ _ _ _ S E) as (s' & E' & D).
  apply data_session in D as (D1 & D2 & D3 & _). exists s'. by rewrite D1, D2, D3.
Qed.
Lemma ses_is_frame sa sa' i a c ep : sa' !! i = sa !! i -> ses_is sa i a c ep -> ses_is sa' i a c ep.
Proof. intros F (s & E & H). exists s. by rewrite F. Qed.

Lemma open_at_intro sa ha e r : ses_is sa (r_slot r) e.1 e.2 (r_epoch r) ->
  hash_is ha e.1 e.2 (r_slot r) (r_end true r) -> hash_is ha e.2 e.1 (r_slot r) (r_end false r) ->
  open_at sa ha e r.
Proof. intros. by split. Qed.

(** Every session of the table has its number, whatever is done to the links. *)
Definition numbered (sa : list PPPoESession) : Prop :=
  forall i s, sa !! i = Some s -> s_sesNum s = htons (Z.of_nat i + 1).

Lemma numbered_same sa sa' : same_data sa sa' -> numbered sa -> numbered sa'.
Proof.
  intros S N i s E. specialize (S i). rewrite E in S. destruct (sa !! i) as [s0|] eqn:E0; [|done].
  apply (inj Some) in S. apply data_session in S as (_ & _ & _ & ->). by apply N.
Qed.
Lemma numbered_alter f i sa : (forall s, s_sesNum (f s) = s_sesNum s) -> numbered sa -> numbered (alter f i sa).
Proof.
  intros Hf N j s. rewrite list_lookup_alter. case_decide as D; [|apply N]. subst j.
  destruct (sa !! i) as [s0|] eqn:E0; [|done]. intros [= <-]. rewrite Hf. by apply N.
Qed.

Lemma Permutation_lookup {A} (a : list A) l i :
  l ≡ₚ seq 0 (length a) -> i ∈ l -> exists n, a !! i = Some n.
Proof.
  intros P Hi. rewrite P, elem_of_seq in Hi. apply lookup_lt_is_Some_2. lia.
Qed.

Lemma length_ends es : length (ends es) = (2 * length es)%nat.
Proof. unfold ends. induction es; simpl in *; lia. Qed.

Lemma ends_in es e x : e ∈ es -> x = e.1 \/ x = e.2 -> x ∈ ends es.
Proof.
  intros H Hx. unfold ends. induction H as [|e e' es H IH]; simpl; set_solver.
Qed.

(** *** Opening a session *)

(** The two new hash entries: data filled in, then added to the table. *)
Lemma create_hashes t a1 ac c1 h1 h2 fr i num acI acMac acSes cliI cliMac es chain :
  Hash_ok (AllHashes t) (Buckets t) (FreeHashes t) (ends es) fr chain ->
  (ac ∉ ends es) -> (c1 ∉ ends es) -> (ac ∉ fr) -> (c1 ∉ fr) -> ac <> c1 ->
  AllHashes t !! ac = Some h1 -> AllHashes t !! c1 = Some h2 ->
  exists hs' bk chain',
    (assign (AllHashes t) (Some ac) (h_set_end (Some c1) (Some acI) acMac acSes (Some i)) ≫= fun hs =>
     assign hs (Some c1) (h_set_end (Some ac) (Some cliI) cliMac num (Some i)) ≫= fun hs =>
     let t := t_AllHashes hs (t_AllSessions a1 t) in
     addHash t (Some ac) ≫= fun t => addHash t (Some c1) ≫= fun t => Some (Some i, t)) =
    Some (Some i, t_Buckets bk (t_AllHashes hs' (t_AllSessions a1 t))) /\
    Hash_ok hs' bk (FreeHashes t) (ends ((ac, c1) :: es)) fr chain' /\
    hash_is hs' ac c1 i (acI, acMac, acSes) /\ hash_is hs' c1 ac i (cliI, cliMac, num) /\
    length hs' = length (AllHashes t) /\
    (forall x p s e, x ∈ ends es -> hash_is (AllHashes t) x p s e -> hash_is hs' x p s e).
Proof.
  intros H Ha Hc Fa Fc Dac E1 E2.
  rewrite (assign_Some _ _ _ _ E1). cbn [mbind option_bind].
  rewrite (assign_Some _ c1 h2) by (by rewrite list_lookup_alter_ne). cbn [mbind option_bind].
  set (hs0 := alter _ c1 _).
  assert (L0 : length hs0 = length (AllHashes t)) by (unfold hs0; by rewrite !length_alter).
  assert (I1 : hash_is hs0 ac c1 i (acI, acMac, acSes)).
  { unfold hs0. eexists. rewrite list_lookup_alter_ne, list_lookup_alter_eq, E1 by done. done. }
  assert (I2 : hash_is hs0 c1 ac i (cliI, cliMac, num)).
  { unfold hs0. eexists. rewrite list_lookup_alter_eq, list_lookup_alter_ne, E2 by done. done. }
  assert (F0 : forall x, x <> ac -> x <> c1 -> hs0 !! x = AllHashes t !! x).
  { intros. unfold hs0. by rewrite !list_lookup_alter_ne. }
  set (t0 := t_AllHashes hs0 (t_AllSessions a1 t)).
  assert (H0 : Hash_ok (AllHashes t0) (Buckets t0) (FreeHashes t0) (ends es) fr chain).
  { apply (Hash_ok_frame (AllHashes t)); [done|]. intros x Hx. apply F0; set_solver. }
  destruct (I1) as (n1 & En1 & _). destruct (I2) as (n2 & En2 & _).
  destruct (addHash_ok t0 ac n1 _ _ _ H0 En1 Ha Fa) as (hs1 & bk1 & ch1 & A1 & H1 & S1).
  cbv zeta. rewrite A1. cbn [mbind option_bind].
  set (t1 := t_Buckets bk1 (t_AllHashes hs1 t0)) in *.
  destruct (same_data_lookup _ _ c1 _ S1 En2) as (n3 & En3 & _).
  destruct (addHash_ok t1 c1 n3 (ac :: ends es) fr ch1 H1 En3) as (hs2 & bk2 & ch2 & A2 & H2 & S2); [set_solver|done|].
  rewrite A2. cbn [mbind option_bind].
  assert (S : same_data hs0 hs2) by (eapply same_data_trans; [exact S1|exact S2]).
  exists hs2, bk2, ch2. split_and!; [done| | | | |].
  - eapply Hash_ok_perm; [|exact H2]. apply Permutation_swap.
  - by apply (hash_is_same hs0).
  - by apply (hash_is_same hs0).
  - rewrite <- L0. by apply same_data_length.
  - intros x p s e Hx He. apply (hash_is_same hs0); [done|]. apply (hash_is_frame (AllHashes t)); [|done].
    apply F0; set_solver.
Qed.

(** The new session: linked to the active list and filled in. *)
Lemma create_session_slot sa act slots i s ep ac c1 :
  dll sa act slots -> NoDup slots -> (i ∉ slots) -> sa !! i = Some s -> numbered sa ->
  exists sa1 s', 
    assign sa (Some i) (s_set_next act) ≫= (fun a =>
    opt_assign a act (s_set_prev (Some i)) ≫= fun a =>
    assign a (Some i) (s_set_prev None)) = Some sa1 /\
    sa1 !! i = Some s' /\
    let sa2 := alter (s_set_hashes (Some ac) (Some c1)) i (alter (s_set_epoch ep) i sa1) in
    dll sa2 (Some i) (i :: slots) /\ ses_is sa2 i ac c1 ep /\ numbered sa2 /\ length sa2 = length sa /\
    (forall j, j ∉ i :: slots -> sa2 !! j = sa !! j) /\
    (forall j a c e, j ∈ slots -> ses_is sa j a c e -> ses_is sa2 j a c e).
Proof.
  intros D ND Hi E N. destruct (push_dll _ _ _ _ _ D ND Hi E) as (sa1 & P & _ & D1 & S1 & F1).
  destruct (same_data_lookup _ _ _ _ S1 E) as (s' & E' & _).
  exists sa1, s'. split; [exact P|]. split; [done|]. cbv zeta.
  split_and!.
  - eapply dll_links; [|eapply dll_links; [|exact D1]]; apply same_links_alter; done.
  - eexists. rewrite !list_lookup_alter_eq, E'. done.
  - apply numbered_alter; [done|]. apply numbered_alter; [done|]. by eapply numbered_same.
  - rewrite !length_alter. by apply same_data_length.
  - intros j Hj. rewrite !list_lookup_alter_ne by set_solver. by apply F1.
  - intros j a c e Hj He. apply (ses_is_frame sa1); [by rewrite !list_lookup_alter_ne by set_solver|].
    by apply (ses_is_same sa).
Qed.

Lemma Rep_nodup t rs es freeS freeH chain : Rep_with t rs es freeS freeH chain ->
  NoDup (map r_slot rs ++ freeS) /\ NoDup (ends es ++ freeH).
Proof.
  intros R. split; [rewrite (rep_partS _ _ _ _ _ _ R)|rewrite (rep_partH _ _ _ _ _ _ R)]; apply NoDup_seq.
Qed.

Lemma Rep_free t rs es freeS freeH chain : Rep_with t rs es freeS freeH chain ->
  NumSessions t < MaxSessions t ->
  exists i freeS' a c freeH', freeS = i :: freeS' /\ freeH = a :: c :: freeH'.
Proof.
  intros R Hn. pose proof (rep_num _ _ _ _ _ _ R). pose proof (rep_slen _ _ _ _ _ _ R).
  pose proof (rep_hlen _ _ _ _ _ _ R). pose proof (Forall2_length _ _ _ (rep_open _ _ _ _ _ _ R)).
  pose proof (Permutation_length (rep_partS _ _ _ _ _ _ R)) as PS.
  pose proof (Permutation_length (rep_partH _ _ _ _ _ _ R)) as PH.
  rewrite length_app, length_map, length_seq in PS. rewrite length_app, length_ends, length_seq in PH.
  unfold zlen in *. destruct freeS as [|i freeS]; [simpl in PS; lia|].
  destruct freeH as [|a [|c freeH]]; simpl in PH; try lia. by repeat eexists.
Qed.

Lemma createSession_rep t rs ac cli acMac cliMac acSes :
  Rep t rs -> NumSessions t < MaxSessions t ->
  exists i t', createSession t ac cli acMac cliMac acSes = Some (Some i, t') /\
    Rep t' (mkRelayed i (Epoch t) ac acMac acSes cli cliMac :: rs) /\
    MaxSessions t' = MaxSessions t /\ Epoch t' = Epoch t /\ (i ∉ map r_slot rs).
Proof.
  intros (es & freeS & freeH & chain & R) Hn.
  destruct (Rep_free _ _ _ _ _ _ R Hn) as (i & freeS' & a & c & freeH' & -> & ->).
  destruct (Rep_nodup _ _ _ _ _ _ R) as [NDS _]. pose proof R as [].
  destruct rep_freeS0 as (FS & s & Es & HS).
  destruct (Hash_ok_pop _ _ _ _ _ _ _ rep_hash0) as (FH & Ha & Ha' & h1 & E1 & H1).
  destruct (Hash_ok_pop _ _ _ _ _ _ _ H1) as (FH2 & Hc & Hc' & h2 & E2 & H2).
  rewrite <- Permutation_middle in NDS. apply NoDup_cons in NDS as [Hi NDS].
  apply NoDup_app in NDS as (NDr & NDd & NDf).
  destruct (create_session_slot (AllSessions t) (ActiveSessions t) (map r_slot rs) i s (Epoch t) a c)
    as (sa1 & s1 & P & Es1 & D & SI & NU & LS & FR & OLD); [done..|set_solver|done|done|].
  set (sa2 := alter _ i _) in *.
  destruct (create_hashes (t_FreeHashes (h_next h2) (t_ActiveSessions (Some i)
              (t_NumSessions (NumSessions t + 1) (t_FreeSessions (s_next s) t)))) sa2 a c h1 h2 freeH' i
              (htons (Z.of_nat i + 1)) ac acMac acSes cli cliMac es chain)
    as (hs' & bk & chain' & A & HH & I1 & I2 & LH & OLDH); try done; [set_solver..|].
  exists i. eexists. split; [|split; [exists ((a, c) :: es), freeS', freeH', chain'; split|]].
  - unfold createSession. rewrite decide_False by lia. rewrite FS, (deref_Some _ _ _ Es). cbn [mbind option_bind].
    cbn [AllSessions t_NumSessions t_FreeSessions ActiveSessions].
    destruct (assign (AllSessions t) _ _) as [x1|]; [|done]. cbn [mbind option_bind] in *.
    destruct (opt_assign x1 _ _) as [x2|]; [|done]. cbn [mbind option_bind] in *. rewrite P. cbn [mbind option_bind].
    rewrite (assign_Some _ _ _ _ Es1). cbn [mbind option_bind].
    cbn [FreeHashes AllHashes t_ActiveSessions t_NumSessions t_FreeSessions Epoch].
    rewrite FH, (deref_Some _ _ _ E1). cbn [mbind option_bind]. rewrite FH2, (deref_Some _ _ _ E2). cbn [mbind option_bind].
    rewrite (assign_Some _ i (s_set_epoch (Epoch t) s1)) by (rewrite list_lookup_alter_eq, Es1; done).
    cbn [mbind option_bind]. fold sa2. destruct SI as (s2 & Es2 & _).
    rewrite (deref_Some _ _ _ Es2). cbn [mbind option_bind]. rewrite (NU i s2 Es2).
    exact A.
  - done.
  - cbn. unfold zlen in *. by rewrite LS.
  - cbn. unfold zlen in *. cbn in LH. by rewrite LH.
  - cbn. rewrite zlen_cons. lia.
  - exact D.
  - cbn. apply (sll_frame (AllSessions t)); [done|]. intros j Hj. apply FR. set_solver.
  - cbn. rewrite LS, <- rep_partS0. apply Permutation_middle.
  - exact HH.
  - cbn in *. rewrite LH, <- rep_partH0. unfold ends. cbn.
    rewrite <- !Permutation_middle. done.
  - exact NU.
  - constructor; [by apply open_at_intro|].
    apply (Forall2_impl_in (open_at (AllSessions t) (AllHashes t))); [done|].
    intros e r He Hr [O1 O2 O3]. apply open_at_intro.
    + apply OLD; [|done]. apply list_elem_of_fmap. eauto.
    + apply OLDH; [|done]. eapply ends_in; eauto.
    + apply OLDH; [|done]. eapply ends_in; eauto.
  - split_and!; [done|done|]. set_solver.
Qed.

(** *** Closing a session *)

Lemma ends_app es es' : ends (es ++ es') = ends es ++ ends es'.
Proof. unfold ends. by rewrite map_app, concat_app. Qed.

Lemma ends_middle es1 e es2 : ends (es1 ++ e :: es2) ≡ₚ e.1 :: e.2 :: ends (es1 ++ es2).
Proof.
  rewrite !ends_app. change (ends (e :: es2)) with (e.1 :: e.2 :: ends es2).
  rewrite <- !Permutation_middle. done.
Qed.

(** The two hash entries go to the free list. *)
Lemma free_hashes t a c hs' fr chain h1 h2 :
  Hash_ok (AllHashes t) (Buckets t) (FreeHashes t) (a :: c :: hs') fr chain ->
  AllHashes t !! a = Some h1 -> AllHashes t !! c = Some h2 ->
  exists ha bk chain',
    unhash t (Some a) ≫= (fun t => unhash t (Some c)) =
      Some (t_FreeHashes (Some c) (t_AllHashes ha (t_Buckets bk t))) /\
    Hash_ok ha bk (Some c) hs' (c :: a :: fr) chain' /\ same_data (AllHashes t) ha.
Proof.
  intros H E1 E2. destruct (unhash_ok _ _ _ _ (c :: hs') _ _ H E1) as (ha1 & bk1 & ch1 & U1 & H1 & S1); [done|].
  rewrite U1. cbn [mbind option_bind].
  destruct (same_data_lookup _ _ _ _ S1 E2) as (h2' & E2' & _).
  destruct (unhash_ok (t_FreeHashes (Some a) (t_AllHashes ha1 (t_Buckets bk1 t))) c h2' _ hs' _ ch1 H1 E2')
    as (ha2 & bk2 & ch2 & U2 & H2 & S2); [done|].
  rewrite U2. exists ha2, bk2, ch2. split_and!; [done|done|]. eapply same_data_trans; [exact S1|exact S2].
Qed.

(** The session leaves the active list for the free list. *)
Lemma free_session_slot sa act fp l1 i l2 fr s :
  dll sa act (l1 ++ i :: l2) -> NoDup ((l1 ++ i :: l2) ++ fr) -> sa !! i = Some s -> sll sa fp fr ->
  exists sa1 sa2 act', 
    (match s_prev s with
     | Some _ => assign sa (s_prev s) (s_set_next (s_next s)) ≫= fun a => Some (a, act)
     | None => Some (sa, s_next s)
     end) = Some (sa1, act') /\
    opt_assign sa1 (s_next s) (s_set_prev (s_prev s)) ≫= (fun a => assign a (Some i) (s_set_next fp)) = Some sa2 /\
    dll sa2 act' (l1 ++ l2) /\ sll sa2 (Some i) (i :: fr) /\ same_data sa sa2.
Proof.
  intros D ND E S. apply NoDup_app in ND as (ND & Hd & NDf).
  assert (Hi : i ∉ l1 ++ l2).
  { rewrite <- Permutation_middle in ND. by apply NoDup_cons in ND as [? _]. }
  destruct (unlink_dll _ _ _ _ _ D ND) as (a & p' & U & D' & S' & F).
  unfold unlink in U. rewrite E in U. cbn [mbind option_bind prv nxt linked_session set_nxt set_prv] in U.
  assert (X : exists sa1, (match s_prev s with
     | Some _ => assign sa (s_prev s) (s_set_next (s_next s)) ≫= fun a => Some (a, act)
     | None => Some (sa, s_next s)
     end) = Some (sa1, p') /\ opt_assign sa1 (s_next s) (s_set_prev (s_prev s)) = Some a).
  { destruct (match s_prev s with Some _ => _ | None => _ end) as [[sa1 q]|]; [|done].
    cbn [mbind option_bind] in U. exists sa1. destruct (opt_assign sa1 _ _); [|done].
    cbn in U. by simplify_eq. }
  destruct X as (sa1 & X1 & X2). assert (Ea : a !! i = Some s) by (by rewrite F).
  exists sa1, (alter (s_set_next fp) i a), p'. split_and!; [done| | | |].
  - rewrite X2. cbn [mbind option_bind]. by rewrite (assign_Some _ _ _ _ Ea).
  - apply (dll_frame a); [done|]. intros j Hj. rewrite list_lookup_alter_ne; [done|]. set_solver.
  - change (s_set_next fp) with (set_nxt (N:=PPPoESession) fp). apply push_sll with s; [|set_solver|done].
    apply (sll_frame sa); [done|]. intros j Hj. apply F. set_solver.
  - eapply same_data_trans; [exact S'|]. apply same_data_alter. by intros [].
Qed.

Lemma freeSession_rep t rs1 r rs2 : Rep t (rs1 ++ r :: rs2) ->
  exists t', freeSession t (Some (r_slot r)) = Some t' /\ Rep t' (rs1 ++ rs2) /\
    MaxSessions t' = MaxSessions t /\ Epoch t' = Epoch t.
Proof.
  intros (es & freeS & freeH & chain & R). destruct (Rep_nodup _ _ _ _ _ _ R) as [NDS _]. pose proof R as [].
  apply Forall2_app_inv_r in rep_open0 as (es1 & es2' & O1 & O2 & ->).
  apply Forall2_cons_inv_r in O2 as ([a c] & es2 & [(s & Es & Hac & Hcl & _) Oa Oc] & O2 & ->). cbn [fst snd] in *.
  rewrite map_app in *. cbn [map] in *.
  destruct (free_session_slot _ _ (FreeSessions t) _ _ _ freeS s rep_active0 NDS Es rep_freeS0)
    as (sa1 & sa2 & act' & M & W & D & F & S).
  destruct Oa as (h1 & E1 & Oa). destruct Oc as (h2 & E2 & Oc).
  destruct (free_hashes (t_FreeSessions (Some (r_slot r)) (t_ActiveSessions act' (t_AllSessions sa2 t)))
    a c (ends (es1 ++ es2)) freeH chain h1 h2) as (ha & bk & chain' & U & H & SH); [|done|done|].
  { eapply Hash_ok_perm; [|exact rep_hash0]. apply ends_middle. }
  exists (t_NumSessions (NumSessions t - 1) (t_FreeHashes (Some c) (t_AllHashes ha (t_Buckets bk
            (t_FreeSessions (Some (r_slot r)) (t_ActiveSessions act' (t_AllSessions sa2 t))))))).
  split; [|split; [exists (es1 ++ es2), (r_slot r :: freeS), (c :: a :: freeH), chain'; split|]].
  - unfold freeSession. rewrite (deref_Some _ _ _ Es). cbn [mbind option_bind].
    rewrite Hac, Hcl, (deref_Some _ _ _ E1), (deref_Some _ _ _ E2). cbn [mbind option_bind].
    match goal with |- ?m ≫= _ = _ => assert (Em : m = Some (t_ActiveSessions act' (t_AllSessions sa1 t))) end.
    { destruct (s_prev s).
      - destruct (assign (AllSessions t) _ _); [|done]. cbn in *. by simplify_eq.
      - by simplify_eq. }
    rewrite Em. cbn [mbind option_bind AllSessions t_ActiveSessions t_AllSessions].
    destruct (opt_assign sa1 _ _); [|done]. cbn [mbind option_bind] in *.
    change (FreeSessions (t_ActiveSessions act' (t_AllSessions sa1 t))) with (FreeSessions t).
    rewrite W. cbn [mbind option_bind].
    change (t_FreeSessions _ _) with (t_FreeSessions (Some (r_slot r)) (t_ActiveSessions act' (t_AllSessions sa2 t))).
    destruct (unhash _ (Some a)); [|done]. cbn [mbind option_bind] in *. rewrite U. cbn [mbind option_bind].
    reflexivity.
  - done.
  - cbn. unfold zlen in *. by rewrite (same_data_length _ _ S).
  - cbn. unfold zlen in *. cbn in SH. by rewrite (same_data_length _ _ SH).
  - cbn. rewrite rep_num0, !zlen_app, zlen_cons. lia.
  - cbn. by rewrite map_app.
  - exact F.
  - cbn. rewrite (same_data_length _ _ S), <- rep_partS0, map_app, <- !Permutation_middle. done.
  - exact H.
  - cbn in *. rewrite (same_data_length _ _ SH), <- rep_partH0, ends_middle. cbn [fst snd].
    rewrite <- !Permutation_middle. apply Permutation_swap.
  - cbn. by apply (numbered_same (AllSessions t)).
  - assert (O : Forall2 (open_at (AllSessions t) (AllHashes t)) (es1 ++ es2) (rs1 ++ rs2)) by (by apply Forall2_app).
    apply (Forall2_impl _ _ _ _ O). intros e r' [P1 P2 P3]. apply open_at_intro.
    + by apply (ses_is_same (AllSessions t)).
    + by apply (hash_is_same (AllHashes t)).
    + by apply (hash_is_same (AllHashes t)).
  - done.
Qed.

(** *** Looking a session up *)

Lemma find_chain_spec a mac n : forall l fuel p, sll a p l -> (length l < fuel)%nat ->
  exists o, find_chain fuel a p mac n = Some o /\
    match o with
    | None => forall x h, x ∈ l -> a !! x = Some h -> (peerMac h, h_sesNum h) <> (mac, n)
    | Some x => x ∈ l /\ exists h, a !! x = Some h /\ peerMac h = mac /\ h_sesNum h = n
    end.
Proof.
  induction l as [|x l IH]; intros fuel p H Hf; (destruct fuel as [|fuel]; [simpl in Hf; lia|]).
  - cbn in H. subst p. exists None. split; [done|]. intros x h Hx. by apply elem_of_nil in Hx.
  - destruct H as (-> & h & E & H). cbn [find_chain]. rewrite (deref_Some _ _ _ E). cbn [mbind option_bind].
    destruct (mac_eqb mac (peerMac h) && (n =? h_sesNum h)) eqn:K.
    + exists (Some x). split; [done|]. split; [left|]. apply andb_true_iff in K as [K1 K2].
      apply mac_eqb_eq in K1. exists h. split_and!; [done|done|lia].
    + destruct (IH fuel (h_next h) H) as (o & Eo & Ho); [simpl in Hf; lia|]. exists o. split; [done|].
      destruct o as [y|].
      * destruct Ho as [Hy Ho]. split; [by right|done].
      * intros y hy [->|Hy]%elem_of_cons Ey; [|by apply (Ho y)]. rewrite E in Ey. injection Ey as <-.
        intros [= Km Kn]. rewrite Km, Kn, Z.eqb_refl in K. unfold mac_eqb in K.
        by rewrite bool_decide_eq_true_2 in K.
Qed.

Lemma dll_sll {N} `{Linked N} (a : list N) p l : dll a p l -> sll a p l.
Proof.
  intros [q D]. revert p D. generalize (@None nat) at 1 as r.
  induction l as [|i l IH]; intros r p; cbn; [by intros [-> _]|].
  intros (-> & n & E & _ & D). split; [done|]. exists n. split; [done|]. by eapply IH.
Qed.

Lemma chain_short a bk fp hs fr chain b : Hash_ok a bk fp hs fr chain ->
  (length (chain b) <= length a)%nat.
Proof.
  intros H. rewrite <- (length_seq (length a) 0).
  apply submseteq_length, NoDup_submseteq; [apply H|]. intros x Hx. apply elem_of_seq.
  apply (chain_in _ _ _ _ _ _ H) in Hx as (_ & h & E & _). apply lookup_lt_Some in E. lia.
Qed.

Lemma ends_inv es x : x ∈ ends es -> exists e, e ∈ es /\ (x = e.1 \/ x = e.2).
Proof.
  unfold ends. induction es as [|e es IH]; simpl; [by intros ?%elem_of_nil|].
  rewrite !elem_of_cons. intros [->|[->|H]]; [exists e; set_solver..|].
  destruct (IH H) as (e' & ? & ?). exists e'. set_solver.
Qed.

(** An entry of the table is an end of an open session, and its peer is the
    other end. *)
Definition end_of (t : Tables) (rs : list relayed) (x : nat) (ac : bool) (r : relayed) : Prop :=
  r ∈ rs /\ exists y, hash_is (AllHashes t) x y (r_slot r) (r_end ac r) /\
    hash_is (AllHashes t) y x (r_slot r) (r_end (negb ac) r) /\
    if ac then ses_is (AllSessions t) (r_slot r) x y (r_epoch r)
    else ses_is (AllSessions t) (r_slot r) y x (r_epoch r).

Lemma Rep_end t rs es freeS freeH chain x : Rep_with t rs es freeS freeH chain -> x ∈ ends es ->
  exists ac r, end_of t rs x ac r.
Proof.
  intros R (e & He & Hx)%ends_inv. pose proof (rep_open _ _ _ _ _ _ R) as O.
  apply list_elem_of_lookup in He as [k Hk].
  destruct (Forall2_lookup_l _ _ _ _ _ O Hk) as (r & Hr & [O0 O1 O2]).
  assert (r ∈ rs) by (by eapply list_elem_of_lookup_2).
  destruct Hx as [-> | ->]; [exists true|exists false]; exists r; (split; [done|]); [exists e.2|exists e.1]; done.
Qed.

Lemma findSession_rep t rs mac n : Rep t rs ->
  exists o, findSession t mac n = Some o /\
    match o with
    | None => forall r ac, r ∈ rs -> r_key ac r <> (mac, n)
    | Some x => exists ac r, r_key ac r = (mac, n) /\ end_of t rs x ac r
    end.
Proof.
  intros (es & freeS & freeH & chain & R). pose proof (rep_hash _ _ _ _ _ _ R) as H.
  unfold findSession. set (b := bucket mac n).
  destruct (find_chain_spec (AllHashes t) mac n (chain b) (S (length (AllHashes t))) (Buckets t !! b))
    as (o & Eo & Ho); [by apply dll_sll, H|pose proof (chain_short _ _ _ _ _ _ b H); lia|].
  exists o. split; [done|]. destruct o as [x|].
  - destruct Ho as (Hx & h & E & Km & Kn). apply (chain_in _ _ _ _ _ _ H) in Hx as [Hx _].
    destruct (Rep_end _ _ _ _ _ _ _ R Hx) as (ac & r & He). exists ac, r. split; [|done].
    destruct He as (_ & y & (h' & E' & _ & _ & _ & Hm & Hn) & _ & _). rewrite E in E'. injection E' as <-.
    unfold r_key. destruct (r_end ac r) as [[i m] k]. cbn in *. congruence.
  - intros r ac Hr K. pose proof (rep_open _ _ _ _ _ _ R) as O.
    apply list_elem_of_lookup in Hr as [k Hk]. destruct (Forall2_lookup_r _ _ _ _ _ O Hk) as (e & He & [_ O1 O2]).
    apply list_elem_of_lookup_2 in He.
    assert (X : exists x y, x ∈ ends es /\ hash_is (AllHashes t) x y (r_slot r) (r_end ac r)).
    { destruct ac; eexists _, _; (split; [|eassumption]); eapply ends_in; eauto. }
    destruct X as (x & y & Hx & (h & E & _ & _ & _ & Hm & Hn)).
    assert (Kh : (peerMac h, h_sesNum h) = (mac, n)).
    { unfold r_key in K. destruct (r_end ac r) as [[i m] k']. cbn in *. congruence. }
    apply (Ho x h); [|done|done]. apply (chain_in _ _ _ _ _ _ H). split; [done|]. exists h. split; [done|].
    unfold h_bucket, b. by injection Kh as -> ->.
Qed.

(** *** Activity *)

Definition set_r_epoch (ep : Z) (r : relayed) : relayed :=
  mkRelayed (r_slot r) ep (r_acIf r) (r_acMac r) (r_acNum r) (r_cliIf r) (r_cliMac r).
Definition touch (i : nat) (ep : Z) (r : relayed) : relayed :=
  if decide (r_slot r = i) then set_r_epoch ep r else r.

Lemma touch_slots i ep rs : map r_slot (map (touch i ep) rs) = map r_slot rs.
Proof. rewrite map_map. apply map_ext. intros r. unfold touch. by case_decide. Qed.

Lemma touch_rep t rs i ep s : Rep t rs -> AllSessions t !! i = Some s ->
  Rep (t_AllSessions (alter (s_set_epoch ep) i (AllSessions t)) t) (map (touch i ep) rs).
Proof.
  intros (es & freeS & freeH & chain & R) E. exists es, freeS, freeH, chain. pose proof R as [].
  assert (SL : same_links (AllSessions t) (alter (s_set_epoch ep) i (AllSessions t))) by (by apply same_links_alter).
  split; try done; cbn.
  - unfold zlen in *. by rewrite length_alter.
  - rewrite rep_num0. unfold zlen. by rewrite length_map.
  - rewrite touch_slots. by eapply dll_links.
  - by eapply sll_links.
  - by rewrite touch_slots, length_alter.
  - by apply numbered_alter.
  - apply Forall2_fmap_r. apply (Forall2_impl _ _ _ _ rep_open0). intros e r [(s' & Es' & H1 & H2 & H3) O2 O3].
    assert (K : r_slot (touch i ep r) = r_slot r /\ r_end true (touch i ep r) = r_end true r /\
      r_end false (touch i ep r) = r_end false r) by (unfold touch; by case_decide).
    destruct K as (K1 & K2 & K3). apply open_at_intro; rewrite ?K1, ?K2, ?K3; [|done|done].
    unfold ses_is. rewrite list_lookup_alter. unfold touch. destruct (decide (r_slot r = i)) as [Di|Di].
    + rewrite decide_True by done. rewrite <- Di, Es'. eexists. done.
    + rewrite decide_False by done. exists s'. done.
Qed.

Lemma epoch_rep t rs ep : Rep t rs -> Rep (t_Epoch ep t) rs.
Proof. intros (es & freeS & freeH & chain & []). exists es, freeS, freeH, chain. by split. Qed.

(** *** The initial tables *)

Lemma for_loop_lookup {A} (body : nat -> list A -> list A) (f : nat -> A -> A) n :
  (forall i a, body i a = alter (f i) i a) ->
  forall from (a : list A) j, for_loop from n body a !! j =
    if decide (from <= j < from + n)%nat then f j <$> a !! j else a !! j.
Proof.
  intros B. unfold for_loop. induction n as [|n IH]; intros from a j; cbn [seq fold_left].
  - by rewrite decide_False by lia.
  - rewrite IH, B, list_lookup_alter. destruct (decide (from = j)) as [->|D].
    + rewrite (decide_False (P := (S j <= j < S j + n)%nat)) by lia. by rewrite decide_True by lia.
    + case_decide; case_decide; try lia; done.
Qed.

(** The entries the loops leave. *)
Lemma init_hashes_lookup n j : (2 <= n)%nat -> (j < n)%nat ->
  exists h, init_hashes n !! j = Some h /\ h_next h = if decide (S j = n) then None else Some (S j).
Proof.
  intros Hn Hj. unfold init_hashes.
  assert (R : replicate n null_hash !! j = Some null_hash) by (apply lookup_replicate; done).
  rewrite list_alter_alter_eq, list_lookup_alter.
  rewrite !(for_loop_lookup _ (fun i => h_set_next (Some (i + 1)%nat) ∘ h_set_prev (Some (i - 1)%nat)))
    by (intros; apply list_alter_alter_eq).
  rewrite list_alter_alter_eq, !list_lookup_alter, R.
  repeat (case_decide; subst; try lia); rewrite ?R; (eexists; split; [reflexivity|]); cbn; f_equal; lia.
Qed.

Lemma length_for_loop {A} (body : nat -> list A -> list A) n : (forall i a, length (body i a) = length a) ->
  forall from a, length (for_loop from n body a) = length a.
Proof.
  intros B. unfold for_loop. induction n as [|n IH]; intros from a; cbn [seq fold_left]; [done|].
  by rewrite IH, B.
Qed.

Lemma init_sessions_lookup n j : (1 <= n)%nat -> (j < n)%nat ->
  exists s, init_sessions n !! j = Some s /\ (s_next s = if decide (S j = n) then None else Some (S j)) /\
    s_sesNum s = htons (u16 (Z.of_nat j + 1)).
Proof.
  intros Hn Hj. unfold init_sessions.
  assert (R : replicate n null_session !! j = Some null_session) by (apply lookup_replicate; done).
  rewrite (for_loop_lookup _ (fun i => s_set_sesNum (htons (u16 (Z.of_nat i + 1))))) by done.
  rewrite (decide_True (P := (0 <= j < 0 + n)%nat)) by lia. case_decide as D1.
  - rewrite list_alter_alter_eq, list_lookup_alter.
    rewrite !(for_loop_lookup _ (fun i => s_set_next (Some (i + 1)%nat) ∘ s_set_prev (Some (i - 1)%nat)))
      by (intros; apply list_alter_alter_eq).
    rewrite list_alter_alter_eq, !list_lookup_alter, R.
    repeat (case_decide; subst; try lia); rewrite ?R; (eexists; split; [reflexivity|]);
      (split; [cbn; f_equal; lia|reflexivity]).
  - assert (n = 1%nat) as -> by lia. assert (j = 0%nat) as -> by lia.
    eexists; split; [reflexivity|]. done.
Qed.

Lemma initRelay_rep n ep : (1 <= n)%nat -> Z.of_nat n <= 65534 -> Rep (initRelay n ep) [].
Proof.
  intros H1 H2.
  assert (LS : length (init_sessions n) = n).
  { unfold init_sessions. rewrite length_for_loop by (intros; apply length_alter).
    case_decide; rewrite ?length_alter, length_for_loop by (intros; by rewrite !length_alter);
      by rewrite !length_alter, length_replicate. }
  assert (LH : length (init_hashes (2 * n)) = (2 * n)%nat).
  { unfold init_hashes. rewrite !length_alter, length_for_loop by (intros; by rewrite !length_alter).
    by rewrite !length_alter, length_replicate. }
  exists [], (seq 0 n), (seq 0 (2 * n)), (fun _ => []). split; cbn [initRelay AllSessions AllHashes MaxSessions
    NumSessions ActiveSessions FreeSessions FreeHashes Buckets map app ends concat]; unfold zlen; rewrite ?LS, ?LH; try done; try lia.
  - by exists None.
  - apply sll_seq; [|lia]. intros j Hj. destruct (init_sessions_lookup n j) as (s & E & Hs & _); [lia..|].
    exists s. split; [done|exact Hs].
  - split; try done.
    + intros b. rewrite lookup_empty. by exists None.
    + intros b. constructor.
    + intros b x. cbn. rewrite !elem_of_nil. naive_solver.
    + apply sll_seq; [|lia]. intros j Hj. destruct (init_hashes_lookup (2 * n) j) as (h & E & Hh); [lia..|].
      exists h. split; [done|exact Hh].
    + apply NoDup_seq.
  - intros i s E. pose proof (lookup_lt_Some _ _ _ E) as Hi. rewrite LS in Hi.
    destruct (init_sessions_lookup n i) as (s' & E' & _ & Hn); [lia..|]. rewrite E in E'. injection E' as <-.
    rewrite Hn, u16_small by lia. done.
Qed.

(** *** Numbers *)

Lemma r_num_inj r r' : Z.of_nat (r_slot r) < 65534 -> Z.of_nat (r_slot r') < 65534 -> r_num r = r_num r' -> r_slot r = r_slot r'.
Proof. intros H H' E. unfold r_num in E. apply htons_inj in E; lia. Qed.

Lemma r_num_nonzero r : Z.of_nat (r_slot r) < 65534 -> r_num r <> 0.
Proof. intros H E. change 0 with (htons 0) in E. unfold r_num in E. apply htons_inj in E; lia. Qed.

Lemma Rep_slot t rs r : Rep t rs -> r ∈ rs -> Z.of_nat (r_slot r) < 65534.
Proof.
  intros (es & freeS & freeH & chain & R) Hr.
  pose proof (rep_max _ _ _ _ _ _ R). pose proof (rep_slen _ _ _ _ _ _ R). unfold zlen in *.
  assert (Hs : r_slot r ∈ map r_slot rs ++ freeS).
  { apply elem_of_app. left. apply list_elem_of_fmap. eauto. }
  rewrite (rep_partS _ _ _ _ _ _ R), elem_of_seq in Hs. lia.
Qed.

Lemma Rep_slots_nodup t rs : Rep t rs -> NoDup (map r_slot rs).
Proof. intros (es & freeS & freeH & chain & R). apply Rep_nodup in R as [N _]. by apply NoDup_app in N as [? _]. Qed.

Lemma Rep_num t rs : Rep t rs -> NumSessions t = zlen rs.
Proof. intros (? & ? & ? & ? & R). apply R. Qed.

Lemma fresh_num t rs r : Rep t (r :: rs) -> r_num r <> 0 /\ (r_num r ∉ map r_num rs).
Proof.
  intros R. pose proof (Rep_slot _ _ r R (list_elem_of_here _ _)) as Hr.
  split; [by apply r_num_nonzero|]. intros (r' & E & Hr')%list_elem_of_fmap.
  pose proof (Rep_slots_nodup _ _ R) as ND. cbn in ND. apply NoDup_cons in ND as [ND _]. apply ND.
  apply list_elem_of_fmap. exists r'. split; [|done]. apply r_num_inj; [done| |done].
  apply (Rep_slot _ _ r' R). by right.
Qed.

(** The active list links each session to the next one. *)
Lemma Rep_next t rs1 r rs2 : Rep t (rs1 ++ r :: rs2) -> exists ss a c,
  AllSessions t !! r_slot r = Some ss /\ s_next ss = head (map r_slot rs2) /\ epoch ss = r_epoch r /\
  acHash ss = Some a /\ clientHash ss = Some c /\
  hash_is (AllHashes t) a c (r_slot r) (r_end true r) /\ hash_is (AllHashes t) c a (r_slot r) (r_end false r).
Proof.
  intros (es & fS & fH & ch & R). destruct (rep_active _ _ _ _ _ _ R) as [q D].
  rewrite map_app in D. apply dseg_app in D as (m & r' & _ & D). cbn in D. destruct D as (_ & n & En & _ & D).
  apply dseg_head in D. pose proof (rep_open _ _ _ _ _ _ R) as O.
  apply Forall2_app_inv_r in O as (es1 & es2 & _ & O & _).
  apply Forall2_cons_inv_r in O as ([a c] & es3 & [(ss & Es & Ha & Hc & He) O1 O2] & _ & _). cbn in *.
  rewrite En in Es. injection Es as <-. exists n, a, c. rewrite D. destruct rs2; done.
Qed.

Lemma Rep_head t rs : Rep t rs -> ActiveSessions t = head (map r_slot rs) /\ (length rs <= length (AllSessions t))%nat.
Proof.
  intros (es & fS & fH & ch & R). split.
  - destruct (rep_active _ _ _ _ _ _ R) as [q D]. apply dseg_head in D. rewrite D. by destruct rs.
  - pose proof (Permutation_length (rep_partS _ _ _ _ _ _ R)) as P.
    rewrite length_app, length_map, length_seq in P. lia.
Qed.

(** ** Theorems *)

(** An empty table of two sessions, and one with a session open. *)
Definition table2 : Tables := initRelay 2 7.
Definition some_acMac : list Z := [2; 0; 0; 0; 0; 1].
Definition some_cliMac : list Z := [2; 0; 0; 0; 0; 2].
Definition some_relayed : relayed := mkRelayed 0 7 1 some_acMac 0x1234 0 some_cliMac.

Lemma table2_rep : Rep table2 [].
Proof. apply initRelay_rep; lia. Qed.

(** C24. [createSession] refines opening a session: when a slot is left it takes
    one without following a bad pointer, and the tables then hold the new
    session in front of the old ones, under a number that is not zero and that
    no open session has; when none is left it changes nothing. *)
Theorem createSession_opens t rs ac cli acMac cliMac acSes : Rep t rs ->
  if decide (zlen rs < MaxSessions t) then
    exists i t', createSession t ac cli acMac cliMac acSes = Some (Some i, t') /\
      let r := mkRelayed i (Epoch t) ac acMac acSes cli cliMac in
      Rep t' (r :: rs) /\ r_num r <> 0 /\ (r_num r ∉ map r_num rs)
  else createSession t ac cli acMac cliMac acSes = Some (None, t).
Proof.
  intros R. pose proof (Rep_num _ _ R) as Hn. case_decide.
  - destruct (createSession_rep t rs ac cli acMac cliMac acSes R) as (i & t' & E & R' & _); [lia|].
    exists i, t'. split; [done|]. cbv zeta. split; [done|]. by eapply fresh_num.
  - unfold createSession. by rewrite decide_True by lia.
Qed.

Lemma createSession_opens_witness :
  exists i t', createSession table2 1 0 some_acMac some_cliMac 0x1234 = Some (Some i, t') /\
    let r := mkRelayed i (Epoch table2) 1 some_acMac 0x1234 0 some_cliMac in
    Rep t' [r] /\ r_num r <> 0 /\ (r_num r ∉ map r_num []).
Proof. apply (createSession_opens table2 [] 1 0 some_acMac some_cliMac 0x1234 table2_rep). Defined.

(** C25. [freeSession] refines closing a session: the tables then hold exactly
    the other sessions in their order, the slot and both hash entries are free
    again, and [findSession] no longer finds what only that session had. *)
Theorem freeSession_closes t rs1 r rs2 : Rep t (rs1 ++ r :: rs2) ->
  exists t', freeSession t (Some (r_slot r)) = Some t' /\ Rep t' (rs1 ++ rs2) /\
    MaxSessions t' = MaxSessions t /\
    forall mac n, findSession t' mac n = Some None <->
      forall r' ac, r' ∈ rs1 ++ rs2 -> r_key ac r' <> (mac, n).
Proof.
  intros R. destruct (freeSession_rep _ _ _ _ R) as (t' & E & R' & M & _). exists t'. split_and!; try done.
  intros mac n. destruct (findSession_rep _ _ mac n R') as (o & -> & Ho). destruct o as [x|]; [|done].
  split; [done|]. destruct Ho as (ac & r' & K & Hin & _). intros H. by destruct (H r' ac Hin).
Qed.

(** [findSession] walks its bucket to the end of the chain or to a match:
    it returns the hash entry of an end with that address and number, whose
    peer is the other end of the same session, and NULL only when no open
    session has such an end. *)
Theorem findSession_finds t rs mac n : Rep t rs ->
  exists o, findSession t mac n = Some o /\
    match o with
    | None => forall r ac, r ∈ rs -> r_key ac r <> (mac, n)
    | Some x => exists ac r, r_key ac r = (mac, n) /\ end_of t rs x ac r
    end.
Proof. apply findSession_rep. Qed.

(** A session just opened is found from both sides: the client's address
    with the relay's number leads to the concentrator's address and number,
    and back, provided no concentrator has the client's address. *)
Theorem createSession_found t rs ac cli acMac cliMac acSes :
  Rep t rs -> zlen rs < MaxSessions t -> findSession t acMac acSes = Some None ->
  cliMac <> acMac -> (cliMac ∉ map r_acMac rs) ->
  exists i t' x y hx hy, createSession t ac cli acMac cliMac acSes = Some (Some i, t') /\
    let num := htons (Z.of_nat i + 1) in
    findSession t' acMac acSes = Some (Some x) /\ findSession t' cliMac num = Some (Some y) /\
    AllHashes t' !! x = Some hx /\ AllHashes t' !! y = Some hy /\
    peer hx = Some y /\ peer hy = Some x /\ ses hx = Some i /\ ses hy = Some i /\
    (interface hx, peerMac hx, h_sesNum hx) = (Some ac, acMac, acSes) /\
    (interface hy, peerMac hy, h_sesNum hy) = (Some cli, cliMac, num).
Proof.
  intros R Hn F0 Dm Hc. pose proof (Rep_num _ _ R) as En.
  destruct (findSession_rep _ _ acMac acSes R) as (o0 & Eo0 & Ho0). assert (o0 = None) as -> by congruence.
  clear F0 Eo0.
  destruct (createSession_rep t rs ac cli acMac cliMac acSes R) as (i & t' & E & R' & _); [lia|].
  set (r := mkRelayed i (Epoch t) ac acMac acSes cli cliMac) in *.
  destruct (fresh_num _ _ _ R') as [_ Fn]. pose proof R' as (es & freeS & freeH & chain & RW).
  pose proof (rep_open _ _ _ _ _ _ RW) as O. apply Forall2_cons_inv_r in O as ([x y] & es' & [O0 O1 O2] & _ & ->).
  destruct O1 as (hx & Ex & Hx1 & Hx2 & Hx3 & Hx4 & Hx5), O2 as (hy & Ey & Hy1 & Hy2 & Hy3 & Hy4 & Hy5). cbn in *.
  (* the entry found from each side is the new one's *)
  assert (U : forall b k, r_key b r = k -> (forall r' b', r' ∈ rs -> r_key b' r' <> k) ->
    r_key (negb b) r <> k -> findSession t' k.1 k.2 = Some (Some (if b then x else y))).
  { intros b [mac n] K Old Other. destruct (findSession_rep _ _ mac n R') as (o & Eo & Ho). cbn [fst snd].
    rewrite Eo. destruct o as [z|]; [|by destruct (Ho r b (list_elem_of_here _ _))].
    destruct Ho as (b' & r' & Kb & Hin & w & _ & _ & I).
    apply elem_of_cons in Hin as [->|Hin]; [|by destruct (Old r' b' Hin)].
    assert (b' = b) as -> by (destruct b, b'; cbn [negb] in *; congruence || done).
    destruct O0 as (s & Es & A1 & A2 & _). destruct b; destruct I as (s' & Es' & B1 & B2 & _); cbn in *; congruence. }
  exists i, t', x, y, hx, hy. split; [done|]. cbv zeta. split_and!; try done; try congruence.
  - apply (U true (acMac, acSes)); [done|intros; by apply Ho0|]. cbn. congruence.
  - apply (U false (cliMac, htons (Z.of_nat i + 1))); [done| |cbn; congruence].
    intros r' b Hr'. destruct b; cbn.
    + intros [= <- _]. apply Hc. apply list_elem_of_fmap. eauto.
    + intros [= _ K]. apply Fn. apply list_elem_of_fmap. exists r'. split; [|done]. done.
  - by rewrite Hy3, Hy4, Hy5.
Qed.

Lemma createSession_found_witness :
  exists i t' x y hx hy, createSession table2 1 0 some_acMac some_cliMac 0x1234 = Some (Some i, t') /\
    let num := htons (Z.of_nat i + 1) in
    findSession t' some_acMac 0x1234 = Some (Some x) /\ findSession t' some_cliMac num = Some (Some y) /\
    AllHashes t' !! x = Some hx /\ AllHashes t' !! y = Some hy /\
    peer hx = Some y /\ peer hy = Some x /\ ses hx = Some i /\ ses hy = Some i /\
    (interface hx, peerMac hx, h_sesNum hx) = (Some 1%nat, some_acMac, 0x1234) /\
    (interface hy, peerMac hy, h_sesNum hy) = (Some 0%nat, some_cliMac, num).
Proof.
  apply (createSession_found table2 [] 1 0 some_acMac some_cliMac 0x1234 table2_rep);
    [done|vm_compute; reflexivity|done|apply not_elem_of_nil].
Defined.

(** A table with one session open. *)
Definition table_open : Tables :=
  match createSession table2 1 0 some_acMac some_cliMac 0x1234 with Some (_, t) => t | None => table2 end.

Lemma table_open_rep : Rep table_open [some_relayed].
Proof.
  destruct (createSession_rep table2 [] 1 0 some_acMac some_cliMac 0x1234 table2_rep) as (i & t' & E & R & _); [done|].
  unfold table_open. rewrite E.
  assert (i = 0%nat) as -> by (vm_compute in E; congruence). exact R.
Qed.

Lemma freeSession_closes_witness :
  exists t', freeSession table_open (Some 0%nat) = Some t' /\ Rep t' [] /\
    MaxSessions t' = MaxSessions table_open /\
    forall mac n, findSession t' mac n = Some None <->
      forall r' ac, r' ∈ [] -> r_key ac r' <> (mac, n).
Proof. apply (freeSession_closes table_open [] some_relayed []). exact table_open_rep. Defined.

Lemma findSession_finds_witness :
  exists o, findSession table_open some_cliMac (htons 1) = Some o /\
    match o with
    | None => forall r ac, r ∈ [some_relayed] -> r_key ac r <> (some_cliMac, htons 1)
    | Some x => exists ac r, r_key ac r = (some_cliMac, htons 1) /\ end_of table_open [some_relayed] x ac r
    end.
Proof. apply findSession_finds, table_open_rep. Defined.
