(* ===== verification/Relay.v ===== *)
(** * Relay: the packet handlers of the PPPoE relay (relay.c)

    Discovery packets cross the relay with a Relay-Session-Id tag that names
    the interface and the address they came from; PADS opens a session in the
    tables of [RelayTable], session packets are translated with them, PADT and
    the idle timer close sessions.  This is the raw-socket build.  A pointer
    into [Interfaces] is its index. *)

From stdpp Require Import base list numbers strings gmap.
From S2P Require Import Prelude Wire Tags Build Link LinkedList RelayTable.
Open Scope Z_scope.

(** ** State *)

(** [link] holds what the next calls of [recv] return, [writes] whether the
    next writes to sockets succeed (when it is exhausted they do), [sent] the
    frames sent so far with their sockets, oldest first.  [cleanBytes] counts
    the bytes in [CleanPipe]. *)
Record Relay := mkRelay {
  Interfaces : list PPPoEInterface;
  tables : Tables;
  CleanCounter : Z;
  CleanPeriod : Z;
  IdleTimeout : Z;
  cleanBytes : Z;
  cleanFd : Z;
  rx : Link;
  writes : list bool;
  sent : list (Z * list Z)
}.

Definition r_tables v s := mkRelay (Interfaces s) v (CleanCounter s) (CleanPeriod s) (IdleTimeout s)
  (cleanBytes s) (cleanFd s) (rx s) (writes s) (sent s).
Definition r_CleanCounter v s := mkRelay (Interfaces s) (tables s) v (CleanPeriod s) (IdleTimeout s)
  (cleanBytes s) (cleanFd s) (rx s) (writes s) (sent s).
Definition r_cleanBytes v s := mkRelay (Interfaces s) (tables s) (CleanCounter s) (CleanPeriod s)
  (IdleTimeout s) v (cleanFd s) (rx s) (writes s) (sent s).
Definition r_rx v s := mkRelay (Interfaces s) (tables s) (CleanCounter s) (CleanPeriod s)
  (IdleTimeout s) (cleanBytes s) (cleanFd s) v (writes s) (sent s).
Definition r_writes v s := mkRelay (Interfaces s) (tables s) (CleanCounter s) (CleanPeriod s)
  (IdleTimeout s) (cleanBytes s) (cleanFd s) (rx s) v (sent s).
Definition r_sent v s := mkRelay (Interfaces s) (tables s) (CleanCounter s) (CleanPeriod s)
  (IdleTimeout s) (cleanBytes s) (cleanFd s) (rx s) (writes s) v.

Definition NumInterfaces (s : Relay) : Z := zlen (Interfaces s).

(** An operation on the tables. *)
Definition on_tables {A} (op : Tables -> option (A * Tables)) : Cmd Relay A := fun s =>
  match op (tables s) with
  | Some (a, t) => Ok a (r_tables t s)
  | None => Stop OutOfBounds s
  end.
Definition upd_tables (op : Tables -> option Tables) : Cmd Relay unit :=
  on_tables (fun t => op t ≫= fun t => Some (tt, t)).
Definition read_tables {A} (op : Tables -> option A) : Cmd Relay A :=
  on_tables (fun t => op t ≫= fun a => Some (a, t)).

Definition hash_at (p : option nat) : Cmd Relay SessionHash :=
  read_tables (fun t => deref (AllHashes t) p).
Definition session_at (p : option nat) : Cmd Relay PPPoESession :=
  read_tables (fun t => deref (AllSessions t) p).
Definition interface_at (p : option nat) : Cmd Relay PPPoEInterface :=
  let! s := get in chk! i := deref (Interfaces s) p in ret i.

Definition receive (pkt : PPPoEPacket) (size : Z) : Cmd Relay received := fun s =>
  match receivePacket_raw pkt size (rx s) with
  | Ok a l => Ok a (r_rx l s)
  | Exit c l => Exit c (r_rx l s)
  | Stop y l => Stop y (r_rx l s)
  end.

(** [for (i=0; i < n; i++) body]. *)
Fixpoint for_each (ks : list nat) (body : nat -> Cmd Relay unit) : Cmd Relay unit :=
  match ks with
  | [] => ret tt
  | k :: ks => do! body k ;; for_each ks body
  end.

(** relay.c's [fatalSys] prints and exits. *)
Definition fatalSys {A} : Cmd Relay A := exit 1.

Definition sendPacket (sock : Z) (pkt : PPPoEPacket) (size : Z) : Cmd Relay unit :=
  chk! data := frame pkt size in
  let! s := get in
  match writes s with
  | false :: ws => do! modify (r_writes ws) ;; fatalSys
  | true :: ws => do! modify (r_writes ws) ;; modify (fun s => r_sent (sent s ++ [(sock, data)]) s)
  | [] => modify (fun s => r_sent (sent s ++ [(sock, data)]) s)
  end.

Section Handlers.

(** Contents of uninitialised locals. *)
Context (garbage : PPPoEPacket) (garbage_tag : PPPoETag) (garbage_size : Z).

Definition MY_RELAY_TAG_LEN : Z := 4 + ETH_ALEN.

(** ** Errors *)

Definition relaySendError (code session : Z) (iface : option nat) (mac : list Z)
    (hostUniq : option PPPoETag) (errMsg : list Z) : Cmd Relay unit :=
  let! i := interface_at iface in
  let packet := set_length (htons 0)
                  (start_packet mac (if_mac i) (htons ETH_PPPOE_DISCOVERY) code session garbage) in
  let finish (packet : PPPoEPacket) : Cmd Relay unit :=
    chk! errTag := fill_tag garbage_tag TAG_GENERIC_ERROR (zlen errMsg) (errMsg ++ [0]) in
    chk! (r, packet) := addTag packet errTag in
    if decide (r < 0) then ret tt else
    let size := ntohs (p_length packet) + HDR_SIZE in
    if decide (code = CODE_PADT) then sendPacket (discoverySock i) packet size
    else sendPacket (sessionSock i) packet size in
  match hostUniq with
  | Some t =>
      chk! (r, packet) := addTag packet t in
      if decide (r < 0) then ret tt else finish packet
  | None => finish packet
  end.

(** ** Discovery packets *)

Definition relayHandlePADT (iface : nat) (packet : PPPoEPacket) (size : Z) : Cmd Relay unit :=
  let! sh := read_tables (fun t => findSession t (h_source packet) (p_session packet)) in
  match sh with
  | None => ret tt
  | Some _ =>
      let! h := hash_at sh in
      let! p := hash_at (peer h) in
      let! i := interface_at (interface p) in
      let packet := set_session (h_sesNum p) packet in
      let packet := set_source (if_mac i) packet in
      let packet := set_dest (peerMac p) packet in
      do! sendPacket (sessionSock i) packet size ;;
      upd_tables (fun t => freeSession t (ses p))
  end.

Definition relayHandlePADI (iface : nat) (packet : PPPoEPacket) (size : Z) : Cmd Relay unit :=
  let! i := interface_at (Some iface) in
  if negb (clientOK i) then ret tt
  else if NOT_UNICAST (h_source packet) then ret tt
  else if NOT_BROADCAST (h_dest packet) then ret tt
  else
    chk! (loc, tag) := findTag packet TAG_RELAY_SESSION_ID garbage_tag in
    match loc with
    | Some _ => ret tt
    | None =>
        chk! tag := fill_tag tag TAG_RELAY_SESSION_ID MY_RELAY_TAG_LEN
                      (le32 (Z.of_nat iface) ++ h_source packet) in
        chk! (r, packet) := addTag packet tag in
        if decide (r < 0) then ret tt else
        let size := size + r in
        let! s := get in
        for_each (seq 0 (length (Interfaces s))) (fun k =>
          if decide (k = iface) then ret tt else
          let! i := interface_at (Some k) in
          if negb (acOK i) then ret tt
          else sendPacket (discoverySock i) (set_source (if_mac i) packet) size)
    end.

(** What relayHandlePADO, relayHandlePADR and relayHandlePADS check, in their
    order: [here] is the test of the interface the packet came on, [there] of
    the one its tag names.  The tag's offset, the tag and the interface, when
    all is well. *)
Definition check_relay_tag (here there : PPPoEInterface -> bool) (iface : nat) (packet : PPPoEPacket) :
    Cmd Relay (option (Z * PPPoETag * nat)) :=
  let! i := interface_at (Some iface) in
  if negb (here i) then ret None
  else if NOT_UNICAST (h_source packet) then ret None
  else if negb (mac_eqb (h_dest packet) (if_mac i)) then ret None
  else
    chk! (loc, tag) := findTag packet TAG_RELAY_SESSION_ID garbage_tag in
    match loc with
    | None => ret None
    | Some loc =>
        if decide (ntohs (t_length tag) <> MY_RELAY_TAG_LEN) then ret None else
        let ifIndex := s32 (un_le32 (take 4 (t_payload tag))) in
        let! s := get in
        if decide (ifIndex < 0 \/ ifIndex >= NumInterfaces s) then ret None else
        let! o := interface_at (Some (Z.to_nat ifIndex)) in
        if negb (there o) then ret None
        else if decide (iface = Z.to_nat ifIndex) then ret None
        else ret (Some (loc, tag, Z.to_nat ifIndex))
    end.

(** The address in a relay tag. *)
Definition tag_mac (t : PPPoETag) : list Z := take 6 (drop 4 (t_payload t)).

(** Replace the tag with the opposite-direction tag, address the packet and
    send it: the second half of relayHandlePADO and relayHandlePADR. *)
Definition relay_across (iface : nat) (packet : PPPoEPacket) (size : Z) (loc : Z) (tag : PPPoETag)
    (ifIndex : nat) : Cmd Relay unit :=
  chk! pl := store (p_payload packet) (loc + TAG_HDR_SIZE) (le32 (Z.of_nat iface)) in
  chk! pl := store pl (loc + TAG_HDR_SIZE + 4) (h_source packet) in
  let packet := set_payload pl packet in
  let packet := set_dest (tag_mac tag) packet in
  let! o := interface_at (Some ifIndex) in
  let packet := set_source (if_mac o) packet in
  sendPacket (discoverySock o) packet size.

Definition relayHandlePADO (iface : nat) (packet : PPPoEPacket) (size : Z) : Cmd Relay unit :=
  let! c := check_relay_tag acOK clientOK iface packet in
  match c with
  | None => ret tt
  | Some (loc, tag, ifIndex) => relay_across iface packet size loc tag ifIndex
  end.

Definition relayHandlePADR (iface : nat) (packet : PPPoEPacket) (size : Z) : Cmd Relay unit :=
  let! c := check_relay_tag clientOK acOK iface packet in
  match c with
  | None => ret tt
  | Some (loc, tag, ifIndex) => relay_across iface packet size loc tag ifIndex
  end.

Definition no_session_msg : list Z := str "RP-PPPoE: Relay: Unable to allocate session".

(** The end of relayHandlePADS: the tag is removed and the packet sent. *)
Definition send_PADS (packet : PPPoEPacket) (size loc : Z) (tag : PPPoETag) (ifIndex : nat) :
    Cmd Relay unit :=
  chk! (_, packet) := removeBytes packet loc (MY_RELAY_TAG_LEN + TAG_HDR_SIZE) in
  let size := size - (MY_RELAY_TAG_LEN + TAG_HDR_SIZE) in
  let packet := set_dest (tag_mac tag) packet in
  let! o := interface_at (Some ifIndex) in
  let packet := set_source (if_mac o) packet in
  sendPacket (discoverySock o) packet size.

Definition relayHandlePADS (iface : nat) (packet : PPPoEPacket) (size : Z) : Cmd Relay unit :=
  let! c := check_relay_tag acOK clientOK iface packet in
  match c with
  | None => ret tt
  | Some (loc, tag, ifIndex) =>
      if decide (p_session packet = htons 0) then send_PADS packet size loc tag ifIndex else
      let! sh := read_tables (fun t => findSession t (h_source packet) (p_session packet)) in
      let! found :=
        match sh with
        | Some _ => let! h := hash_at sh in ret (ses h)
        | None => ret None
        end in
      let finish (sess : option nat) : Cmd Relay unit :=
        let! s := session_at sess in
        send_PADS (set_session (s_sesNum s) packet) size loc tag ifIndex in
      match found with
      | Some _ => finish found
      | None =>
          chk! cliMac := slice (p_payload packet) (loc + TAG_HDR_SIZE + 4) ETH_ALEN in
          let! sess := on_tables (fun t =>
            createSession t iface ifIndex (h_source packet) cliMac (p_session packet)) in
          match sess with
          | Some _ => finish sess
          | None =>
              chk! (hloc, hostUniq) := findTag packet TAG_HOST_UNIQ garbage_tag in
              let hu := match hloc with Some _ => Some hostUniq | None => None end in
              do! relaySendError CODE_PADS (htons 0) (Some ifIndex) cliMac hu no_session_msg ;;
              relaySendError CODE_PADT (p_session packet) (Some iface) (h_source packet) None no_session_msg
          end
      end
  end.

Definition relayGotDiscoveryPacket (iface : nat) : Cmd Relay unit :=
  let! _ := interface_at (Some iface) in
  let! (r, packet, size) := receive garbage garbage_size in
  if decide (r < 0) then ret tt
  else if decide (p_ver packet <> 1 \/ p_type packet <> 1) then ret tt
  else if bogus_length packet size then ret tt
  else
    let size := if decide (u32 size > u32 (ntohs (p_length packet) + HDR_SIZE))
                then ntohs (p_length packet) + HDR_SIZE else size in
    if decide (p_code packet = CODE_PADT) then relayHandlePADT iface packet size
    else if decide (p_code packet = CODE_PADI) then relayHandlePADI iface packet size
    else if decide (p_code packet = CODE_PADO) then relayHandlePADO iface packet size
    else if decide (p_code packet = CODE_PADR) then relayHandlePADR iface packet size
    else if decide (p_code packet = CODE_PADS) then relayHandlePADS iface packet size
    else ret tt.

(** ** Session packets *)

Definition relayGotSessionPacket (iface : nat) : Cmd Relay unit :=
  let! i := interface_at (Some iface) in
  let! (r, packet, size) := receive garbage garbage_size in
  if decide (r < 0) then ret tt
  else if decide (p_ver packet <> 1 \/ p_type packet <> 1) then ret tt
  else if decide (p_code packet <> CODE_SESS) then ret tt
  else if negb (mac_eqb (h_dest packet) (if_mac i)) then ret tt
  else if bogus_length packet size then ret tt
  else
    let! sh := read_tables (fun t => findSession t (h_source packet) (p_session packet)) in
    match sh with
    | None => ret tt
    | Some _ =>
        let! h := hash_at sh in
        do! upd_tables (fun t => assign (AllSessions t) (ses h) (s_set_epoch (Epoch t)) ≫= fun a =>
                                 Some (t_AllSessions a t)) ;;
        let! p := hash_at (peer h) in
        let! o := interface_at (interface p) in
        let packet := set_session (h_sesNum p) packet in
        let packet := set_source (if_mac o) packet in
        let packet := set_dest (peerMac p) packet in
        sendPacket (sessionSock o) packet size
    end.

(** ** The idle timer *)

(** [alarm(1)] is left out: the handler runs again a second later. *)
Definition alarmHandler : Cmd Relay unit :=
  let! s := get in
  do! upd_tables (fun t => Some (t_Epoch (u32 (Epoch t + 1)) t)) ;;
  do! modify (r_CleanCounter (u32 (CleanCounter s + 1))) ;;
  if decide (u32 (CleanCounter s + 1) = CleanPeriod s)
  then modify (r_cleanBytes (cleanBytes s + 1)) else ret tt.

Definition idle_msg : list Z := str "RP-PPPoE: Relay: Session exceeded idle timeout".

(** [while(cur) ...]; the active list has at most as many sessions as there
    are. *)
Fixpoint clean_loop (fuel : nat) (cur : option nat) : Cmd Relay unit :=
  match cur with
  | None => ret tt
  | Some _ =>
    match fuel with
    | O => halt OutOfFuel
    | S fuel =>
      let! c := session_at cur in
      let next := s_next c in
      let! s := get in
      do! (if decide (u32 (Epoch (tables s) - epoch c) > IdleTimeout s) then
             let! a := hash_at (acHash c) in
             do! relaySendError CODE_PADT (h_sesNum a) (interface a) (peerMac a) None idle_msg ;;
             let! l := hash_at (clientHash c) in
             do! relaySendError CODE_PADT (h_sesNum l) (interface l) (peerMac l) None idle_msg ;;
             upd_tables (fun t => freeSession t cur)
           else ret tt) ;;
      clean_loop fuel next
    end
  end.

Definition cleanSessions : Cmd Relay unit :=
  let! s := get in
  clean_loop (length (AllSessions (tables s))) (ActiveSessions (tables s)).

(** ** The main loop *)

(** What happens next: SIGALRM is delivered, or [select] returns: interrupted,
    with an error, or with the descriptors that are readable.  A signal is
    taken while the relay waits. *)
Inductive event := EvAlarm | EvIntr | EvError | EvReady (fds : list Z).

Definition FD_ISSET (fd : Z) (fds : list Z) : bool := bool_decide (fd ∈ fds).

Definition relay_ready (fds : list Z) : Cmd Relay unit :=
  let! s := get in
  let ifs := seq 0 (length (Interfaces s)) in
  do! for_each ifs (fun k =>
        let! i := interface_at (Some k) in
        if FD_ISSET (sessionSock i) fds then relayGotSessionPacket k else ret tt) ;;
  do! for_each ifs (fun k =>
        let! i := interface_at (Some k) in
        if FD_ISSET (discoverySock i) fds then relayGotDiscoveryPacket k else ret tt) ;;
  if FD_ISSET (cleanFd s) fds then
    do! modify (r_CleanCounter 0) ;;
    let! s := get in
    if decide (cleanBytes s <= 0) then halt Blocked else
    do! modify (r_cleanBytes (cleanBytes s - 1)) ;;
    if decide (IdleTimeout s <> 0) then cleanSessions else ret tt
  else ret tt.

(** The loop up to the end of [events]: it then waits in [select]. *)
Fixpoint relayLoop (events : list event) : Cmd Relay unit :=
  match events with
  | [] => ret tt
  | EvAlarm :: evs => do! alarmHandler ;; relayLoop evs
  | EvIntr :: evs => relayLoop evs
  | EvError :: evs => relayLoop evs
  | EvReady fds :: evs => do! relay_ready fds ;; relayLoop evs
  end.

End Handlers.
