(* ===== verification/RelaySafety.v ===== *)
(** * RelaySafety: what the relay's handlers do

    For every handler of [Relay]: it follows no bad pointer and leaves no
    buffer, keeps the tables in shape, and sends exactly the frames the
    specification says, each on an interface of the relay and with that
    interface's address as its source. *)

From stdpp Require Import base list numbers strings gmap.
From S2P Require Import Prelude Wire Tags Build Link LinkedList RelayTable Relay.
From Stdlib Require Import Ascii.
Open Scope Z_scope.

(** ** The invariant *)

(** An open session between two of the [n] interfaces. *)
Record relayed_ok (n : nat) (r : relayed) : Prop := {
  ok_acIf : (r_acIf r < n)%nat;
  ok_cliIf : (r_cliIf r < n)%nat;
  ok_acMac : mac_ok (r_acMac r);
  ok_cliMac : mac_ok (r_cliMac r);
  ok_acNum : 0 <= r_acNum r < 65536
}.

Record Relay_ok (s : Relay) (rs : list relayed) : Prop := {
  ok_ifs : Forall (fun i => mac_ok (if_mac i)) (Interfaces s);
  ok_nifs : zlen (Interfaces s) <= MAX_INTERFACES;
  ok_rep : Rep (tables s) rs;
  ok_rs : Forall (relayed_ok (length (Interfaces s))) rs;
  ok_reads : Forall read_bytes (reads (rx s))
}.

(** What no handler changes. *)
Definition same_setup (s s' : Relay) : Prop :=
  Interfaces s' = Interfaces s /\ CleanPeriod s' = CleanPeriod s /\ IdleTimeout s' = IdleTimeout s /\
  cleanFd s' = cleanFd s /\ MaxSessions (tables s') = MaxSessions (tables s).

(** A frame sent on an interface under its own address. *)
Definition own_frame (ifs : list PPPoEInterface) (f : Z * list Z) : Prop :=
  exists i, i ∈ ifs /\ (f.1 = discoverySock i \/ f.1 = sessionSock i) /\
    take 6 (drop 6 f.2) = if_mac i /\ HDR_SIZE <= zlen f.2 <= sizeof_PPPoEPacket.

(** The outcome of a handler: the frames [fs] sent, and the sessions [rs'] now
    open. *)
Record done_with (s s' : Relay) (fs : list (Z * list Z)) (rs' : list relayed) : Prop := {
  dw_ok : Relay_ok s' rs';
  dw_setup : same_setup s s';
  dw_sent : sent s' = sent s ++ fs;
  dw_own : Forall (own_frame (Interfaces s)) fs
}.

(** A write failed: the relay exits with status 1, having sent only its own
    frames. *)
Definition gave_up (s : Relay) (c : Z) (s' : Relay) : Prop :=
  c = 1 /\ exists fs, sent s' = sent s ++ fs /\ Forall (own_frame (Interfaces s)) fs.

(** ** Lemmas *)

Lemma same_setup_refl s : same_setup s s.
Proof. done. Qed.
Lemma same_setup_trans s1 s2 s3 : same_setup s1 s2 -> same_setup s2 s3 -> same_setup s1 s3.
Proof. unfold same_setup. intuition congruence. Qed.

Lemma done_nothing s rs : Relay_ok s rs -> done_with s s [] rs.
Proof. intros. split; [done|done|by rewrite app_nil_r|constructor]. Qed.

Lemma done_trans s1 s2 s3 fs gs rs rs' : done_with s1 s2 fs rs -> done_with s2 s3 gs rs' ->
  done_with s1 s3 (fs ++ gs) rs'.
Proof.
  intros [O1 S1 E1 W1] [O2 S2 E2 W2]. split; [done|by eapply same_setup_trans|by rewrite E2, E1, app_assoc|].
  apply Forall_app. split; [done|]. destruct S1 as (S1 & _). by rewrite <- S1.
Qed.

Lemma gave_up_after s s1 c s2 fs rs : done_with s s1 fs rs -> gave_up s1 c s2 -> gave_up s c s2.
Proof.
  intros [O1 S1 E1 W1] (-> & gs & E & W). split; [done|]. exists (fs ++ gs).
  rewrite E, E1, app_assoc. split; [done|]. apply Forall_app. split; [done|].
  destruct S1 as (S1 & _). by rewrite <- S1.
Qed.

(** Sequencing two handlers. *)
Lemma wp_then {A B} (m : Cmd Relay A) (k : A -> Cmd Relay B) s
    (P : A -> Relay -> list (Z * list Z) -> list relayed -> Prop)
    (Q : B -> Relay -> list (Z * list Z) -> list relayed -> Prop) :
  wp m (fun a s' => exists fs rs, done_with s s' fs rs /\ P a s' fs rs) (gave_up s) s ->
  (forall a s' fs rs, done_with s s' fs rs -> P a s' fs rs ->
     wp (k a) (fun b s2 => exists gs rs2, done_with s' s2 gs rs2 /\ Q b s2 (fs ++ gs) rs2) (gave_up s') s') ->
  wp (bind m k) (fun b s' => exists fs rs, done_with s s' fs rs /\ Q b s' fs rs) (gave_up s) s.
Proof.
  intros Hm Hk. apply wp_bind. eapply wp_mono; [exact Hm| |done].
  intros a s' (fs & rs & D & HP). eapply wp_mono; [exact (Hk a s' fs rs D HP)| |].
  - intros b s2 (gs & rs2 & D2 & HQ). exists (fs ++ gs), rs2. split; [exact (done_trans _ _ _ _ _ _ _ D D2)|done].
  - intros c s2 G. exact (gave_up_after _ _ _ _ _ _ D G).
Qed.

Lemma r_tables_id s : r_tables (tables s) s = s.
Proof. by destruct s. Qed.

Section Basics.
Context (s : Relay) (rs : list relayed) (OK : Relay_ok s rs).

Lemma wp_interface {A} i f (k : PPPoEInterface -> Cmd Relay A) Q E :
  Interfaces s !! i = Some f -> wp (k f) Q E s -> wp (bind (interface_at (Some i)) k) Q E s.
Proof. intros Ef W. unfold wp, bind, interface_at, get, deref in *. cbn. by rewrite Ef. Qed.

Lemma wp_hash {A} x h (k : SessionHash -> Cmd Relay A) Q E :
  AllHashes (tables s) !! x = Some h -> wp (k h) Q E s -> wp (bind (hash_at (Some x)) k) Q E s.
Proof.
  intros Eh W. unfold wp, bind, hash_at, read_tables, on_tables, deref in *. cbn. rewrite Eh. cbn. by rewrite r_tables_id.
Qed.

Lemma wp_session {A} x h (k : PPPoESession -> Cmd Relay A) Q E :
  AllSessions (tables s) !! x = Some h -> wp (k h) Q E s -> wp (bind (session_at (Some x)) k) Q E s.
Proof.
  intros Eh W. unfold wp, bind, session_at, read_tables, on_tables, deref in *. cbn. rewrite Eh. cbn. by rewrite r_tables_id.
Qed.

(** Looking a session up. *)
Lemma wp_find {A} mac n (k : option nat -> Cmd Relay A) Q E :
  ((forall r ac, r ∈ rs -> r_key ac r <> (mac, n)) -> wp (k None) Q E s) ->
  (forall x ac r, r_key ac r = (mac, n) -> end_of (tables s) rs x ac r -> wp (k (Some x)) Q E s) ->
  wp (bind (read_tables (fun t => findSession t mac n)) k) Q E s.
Proof using OK.
  intros WN WS. destruct (findSession_rep (tables s) rs mac n (ok_rep _ _ OK)) as (o & Eo & Ho).
  unfold wp, bind, read_tables, on_tables in *. rewrite Eo. cbn.
  rewrite r_tables_id.
  destruct o as [x|]; [|by apply WN]. destruct Ho as (ac & r & K & He). by eapply WS.
Qed.

Lemma interface_lookup i : (i < length (Interfaces s))%nat ->
  exists f, Interfaces s !! i = Some f /\ f ∈ Interfaces s /\ mac_ok (if_mac f).
Proof using OK.
  intros Hi. destruct (lookup_lt_is_Some_2 (Interfaces s) i Hi) as [f Ef]. exists f.
  split; [done|]. split; [by eapply list_elem_of_lookup_2|].
  pose proof (ok_ifs _ _ OK) as W. by eapply Forall_lookup_1 in W.
Qed.

Lemma r_end_ok ac r : r ∈ rs -> let e := r_end ac r in
  (e.1.1 < length (Interfaces s))%nat /\ mac_ok e.1.2 /\ 0 <= e.2 < 65536.
Proof using OK.
  intros Hr. pose proof (ok_rs _ _ OK) as W. rewrite Forall_forall in W. destruct (W r Hr).
  destruct ac; cbn; (split; [done|split; [done|]]); [done|apply htons_range].
Qed.

End Basics.

(** Sending a frame. *)
Lemma wp_send s rs sock f pkt size data : Relay_ok s rs -> f ∈ Interfaces s ->
  sock = discoverySock f \/ sock = sessionSock f ->
  frame pkt size = Some data -> take 6 (drop 6 data) = if_mac f -> HDR_SIZE <= size <= sizeof_PPPoEPacket ->
  wp (sendPacket sock pkt size) (fun _ s' => done_with s s' [(sock, data)] rs) (gave_up s) s.
Proof.
  intros OK Hf Hs Ed Hd Hz. unfold sendPacket. eapply wp_opt_bind; [exact Ed|]. apply wp_get_bind.
  assert (Z : zlen data = size) by (unfold frame in Ed; by apply slice_inv in Ed as (_ & _ & _ & ?)).
  assert (OWN : Forall (own_frame (Interfaces s)) [(sock, data)]).
  { constructor; [|constructor]. exists f. cbn. by rewrite Z. }
  destruct OK. destruct (writes s) as [|[] ws]; unfold wp; cbn.
  - split; [by split|done|done|done].
  - split; [by split|done|done|done].
  - split; [done|]. exists []. rewrite app_nil_r. done.
Qed.

(** *** Frames of well-formed packets *)

(** The first [size] bytes of a packet. *)
Definition packet_frame (p : PPPoEPacket) (size : Z) : list Z := take (Z.to_nat size) (packet_bytes p).

(** Only the addresses, the payload and the payload's length matter. *)
Record sendable (p : PPPoEPacket) : Prop := {
  sd_dest : length (h_dest p) = 6%nat;
  sd_source : length (h_source p) = 6%nat;
  sd_payload : zlen (p_payload p) = ETH_DATA_LEN
}.

Lemma wf_sendable p : wf_packet p -> sendable p.
Proof. intros []. by split. Qed.

Lemma zlen_sendable p : sendable p -> zlen (packet_bytes p) = sizeof_PPPoEPacket.
Proof.
  intros []. unfold packet_bytes. rewrite zlen_app, sd_payload0. unfold zlen. by rewrite length_header.
Qed.

Lemma frame_sendable p size : sendable p -> HDR_SIZE <= size <= sizeof_PPPoEPacket ->
  frame p size = Some (packet_frame p size) /\ take 6 (drop 6 (packet_frame p size)) = h_source p.
Proof.
  intros S Hz. pose proof (zlen_sendable p S) as Z. destruct S as [Hd Hs _]. unfold HDR_SIZE, PPPOE_OVERHEAD in Hz.
  split.
  - unfold frame. rewrite slice_Some by lia. done.
  - unfold packet_frame, packet_bytes, header_bytes. rewrite <- !app_assoc.
    rewrite skipn_firstn_comm, firstn_firstn. rewrite drop_app_length' by lia.
    rewrite take_app_length' by lia. done.
Qed.

Lemma wp_send_own s rs f sock pkt size : Relay_ok s rs -> f ∈ Interfaces s ->
  sock = discoverySock f \/ sock = sessionSock f -> sendable pkt -> h_source pkt = if_mac f ->
  HDR_SIZE <= size <= sizeof_PPPoEPacket ->
  wp (sendPacket sock pkt size) (fun _ s' => done_with s s' [(sock, packet_frame pkt size)] rs) (gave_up s) s.
Proof.
  intros OK Hf Hs S E Hz. destruct (frame_sendable pkt size S Hz) as [F1 F2].
  eapply wp_send; try done. by rewrite F2.
Qed.

(** *** The tag area *)

(** The payload a packet announces. *)
Definition body (p : PPPoEPacket) : list Z := take (Z.to_nat (ntohs (p_length p))) (p_payload p).

(** The frame with the header of [p] and payload [b]. *)
Definition frame_with (p : PPPoEPacket) (b : list Z) : list Z :=
  header_bytes (set_length (htons (zlen b)) p) ++ b.

(** [p] with payload area [pl], of which [b] is announced. *)
Definition with_body (p : PPPoEPacket) (b pl : list Z) : PPPoEPacket :=
  set_length (htons (zlen b)) (set_payload pl p).

Lemma body_len p : wf_packet p -> ntohs (p_length p) <= ETH_DATA_LEN -> zlen (body p) = ntohs (p_length p).
Proof.
  intros W H. pose proof (wf_payload_len _ W). pose proof (ntohs_range p). unfold body, zlen in *.
  rewrite length_take. lia.
Qed.

(** The frame of a packet whose payload area starts with what it announces. *)
Lemma packet_frame_with p b rest : sendable p -> zlen b <= ETH_DATA_LEN ->
  packet_frame (with_body p b (b ++ rest)) (zlen b + HDR_SIZE) = frame_with p b.
Proof.
  intros S Hb. unfold packet_frame, packet_bytes, frame_with. cbn [p_payload with_body set_length set_payload].
  assert (L : length (header_bytes (set_length (htons (zlen b)) p)) = 20%nat) by (apply length_header; apply S).
  change (header_bytes (with_body p b (b ++ rest))) with (header_bytes (set_length (htons (zlen b)) p)).
  rewrite app_assoc. rewrite take_app_length'; [done|].
  rewrite length_app, L. unfold zlen, HDR_SIZE, PPPOE_OVERHEAD. lia.
Qed.

Lemma with_body_sendable p b pl : sendable p -> zlen pl = ETH_DATA_LEN -> sendable (with_body p b pl).
Proof. intros []. by split. Qed.

Lemma body_split p : wf_packet p -> ntohs (p_length p) <= ETH_DATA_LEN ->
  p_payload p = body p ++ drop (Z.to_nat (ntohs (p_length p))) (p_payload p).
Proof. intros. unfold body. by rewrite take_drop. Qed.

(** [addTag] in front of the body. *)
Lemma addTag_body p t : wf_packet p -> ntohs (p_length p) <= ETH_DATA_LEN ->
  wf_tag t -> ntohs (t_length t) <= ETH_DATA_LEN ->
  let b := encode_tag (tag_value t) ++ body p in
  if decide (zlen b <= MAX_PPPOE_PAYLOAD)
  then exists rest, addTag p t = Some (TAG_HDR_SIZE + ntohs (t_length t), with_body p b (b ++ rest)) /\
         zlen (b ++ rest) = ETH_DATA_LEN /\ bytes (b ++ rest)
  else addTag p t = Some (-1, p).
Proof.
  intros W Hp Wt Ht b. pose proof (body_len p W Hp) as Lb. pose proof (ntohs_range p).
  assert (Lt : zlen (encode_tag (tag_value t)) = TAG_HDR_SIZE + ntohs (t_length t)).
  { rewrite zlen_encode_tag, zlen_tag_value by done. done. }
  unfold addTag. rewrite slice_tag_bytes by done. cbn [mbind option_bind].
  assert (Zb : zlen b = TAG_HDR_SIZE + ntohs (t_length t) + ntohs (p_length p)) by (unfold b; rewrite zlen_app; lia).
  assert (Bt : bytes (encode_tag (tag_value t))).
  { destruct Wt as (_ & _ & _ & B). unfold encode_tag. rewrite !bytes_app.
    split_and!; [apply bytes_be16|apply bytes_be16|by apply bytes_take]. }
  pose proof (wf_payload_len _ W) as Lp. pose proof (wf_payload _ W) as Bp. case_decide as D.
  - rewrite (insertBytes_app p [] (body p) (drop (Z.to_nat (ntohs (p_length p))) (p_payload p)));
      [|by apply body_split|done|rewrite zlen_nil; lia|rewrite zlen_nil; lia].
    exists (drop (length (encode_tag (tag_value t))) (drop (Z.to_nat (ntohs (p_length p))) (p_payload p))).
    rewrite (body_split p W Hp), zlen_app in Lp. rewrite (body_split p W Hp), bytes_app in Bp. split_and!.
    + rewrite Lt. unfold with_body. rewrite Zb. unfold b. rewrite zlen_nil, <- app_assoc.
      replace (0 + zlen (body p) + (TAG_HDR_SIZE + ntohs (t_length t)))
        with (TAG_HDR_SIZE + ntohs (t_length t) + ntohs (p_length p)) by lia. done.
    + unfold b. rewrite <- app_assoc, !zlen_app. unfold MAX_PPPOE_PAYLOAD, PPPOE_OVERHEAD, ETH_DATA_LEN in *.
      unfold zlen in *. rewrite !length_drop in *. lia.
    + unfold b. rewrite <- app_assoc, !bytes_app. split_and!; [done|apply Bp|apply bytes_drop, Bp].
  - unfold insertBytes. rewrite decide_True; [done|]. rewrite Lt. lia.
Qed.

(** The tag structure [findTag] leaves. *)
Definition found_tag (g : PPPoETag) (ty : Z) (v : list Z) : PPPoETag :=
  mkTag (htons ty) (htons (zlen v)) (v ++ drop (length v) (t_payload g)).

Lemma findTag_cases p ty g : wf_packet p -> wf_tag g ->
  (findTag p ty g = Some (None, g) /\ Forall (fun t : tag => t.1 <> ty) (packet_tags p).1) \/
  exists ts1 v ts2, (packet_tags p).1 = ts1 ++ (ty, v) :: ts2 /\ Forall (fun t : tag => t.1 <> ty) ts1 /\
    findTag p ty g = Some (Some (zlen (encode ts1)), found_tag g ty v).
Proof.
  intros W T. rewrite findTag_decode by done. destruct (list_find _ _) as [[k [ty' v]]|] eqn:E.
  - right. apply list_find_Some in E as (Hk & Ht & Hlt). simpl in Ht. subst ty'.
    exists (take k (packet_tags p).1), v, (drop (S k) (packet_tags p).1). split_and!.
    + by rewrite take_drop_middle.
    + apply Forall_lookup_2. intros j t (Hj & ?)%lookup_take_Some. by eapply Hlt.
    + done.
  - left. split; [done|]. by apply list_find_None in E.
Qed.

(** The tags are the beginning of the body. *)
Lemma body_tags p : wf_packet p -> ntohs (p_length p) <= ETH_DATA_LEN ->
  exists rest, body p = encode (packet_tags p).1 ++ rest.
Proof.
  intros W H. destruct (packet_tags_sound p W) as (_ & [rest E] & L & _).
  exists (take (Z.to_nat (ntohs (p_length p)) - length (encode (packet_tags p).1)) rest).
  unfold body. rewrite E. rewrite take_app. f_equal. apply take_ge. unfold zlen in L. lia.
Qed.

Lemma found_tag_ok p ty g ts1 v ts2 : wf_packet p -> wf_tag g -> (packet_tags p).1 = ts1 ++ (ty, v) :: ts2 ->
  wf_tag (found_tag g ty v) /\ ntohs (t_length (found_tag g ty v)) = zlen v /\
  zlen v + 4 <= MAX_PPPOE_PAYLOAD /\ bytes v.
Proof.
  intros W (_ & _ & Lg & Bg) E. destruct (packet_tags_bound p (ty, v) W) as ((_ & Hv & Bv) & Hm); [rewrite E; set_solver|].
  cbn [snd] in *. pose proof (zlen_nonneg v). unfold MAX_PPPOE_PAYLOAD, PPPOE_OVERHEAD, ETH_DATA_LEN in *.
  cbn [found_tag t_length]. rewrite ntohs_htons, u16_small by lia. split_and!; try done; try lia.
  repeat split; try apply htons_range; cbn [found_tag t_payload].
  - rewrite zlen_app. unfold zlen in *. rewrite length_drop. unfold ETH_DATA_LEN. lia.
  - apply bytes_app. auto with pppoe.
Qed.

(** *** Session packets *)

(** The packet with new addresses and session number. *)
Definition translated (p : PPPoEPacket) (dest source : list Z) (num : Z) : PPPoEPacket :=
  set_dest dest (set_source source (set_session num p)).

Lemma translated_sendable p d m n : sendable p -> length d = 6%nat -> length m = 6%nat -> sendable (translated p d m n).
Proof. intros []. by split. Qed.

(** What the relay does with a packet [p] of [size] bytes for the session of
    the given end: it sends it to the other end. *)
Definition to_peer (ifs : list PPPoEInterface) (ac : bool) (r : relayed) (p : PPPoEPacket) (size : Z)
    (fs : list (Z * list Z)) : Prop :=
  exists o, let '(i, mac, num) := r_end (negb ac) r in
    ifs !! i = Some o /\ fs = [(sessionSock o, packet_frame (translated p mac (if_mac o) num) size)].

Section Received.
Context (garbage : PPPoEPacket) (garbage_tag : PPPoETag) (garbage_size : Z).
Context (Wg : wf_packet garbage) (Wt : wf_tag garbage_tag).

(** The contents of the packet structure after a reception of [d]. *)
Definition received_packet (d : list Z) : PPPoEPacket :=
  packet_of_bytes (take (Z.to_nat sizeof_PPPoEPacket) d ++
    drop (length (take (Z.to_nat sizeof_PPPoEPacket) d)) (packet_bytes garbage)).
Definition received_size (d : list Z) : Z := Z.min (zlen d) sizeof_PPPoEPacket.

Lemma received_packet_wf d : bytes d -> wf_packet (received_packet d).
Proof using Wg.
  intros B. apply overwrite_wf; [done|by apply bytes_take|].
  unfold zlen. rewrite length_take. change sizeof_PPPoEPacket with 1520. lia.
Qed.

(** Reception: nothing to read, an error, or a packet. *)
Lemma wp_relay_receive {A} s rs (k : received -> Cmd Relay A) Q E : Relay_ok s rs ->
  (forall s', done_with s s' [] rs -> wp (k (-1, garbage, -1)) Q E s') ->
  (forall d s', bytes d -> done_with s s' [] rs -> tables s' = tables s ->
     reads (rx s) = Some d :: reads (rx s') ->
     wp (k (0, received_packet d, received_size d)) Q E s') ->
  wp (bind (receive garbage garbage_size) k) Q E s.
Proof using Wg.
  intros OK WN WS. unfold wp, bind, receive, receivePacket_raw, next_read in *. unfold bind.
  destruct (reads (rx s)) as [|r rds] eqn:Er; [done|].
  pose proof (ok_reads _ _ OK) as RB. rewrite Er in RB. apply Forall_cons in RB as [RB RBs].
  set (l := mkLink (bpfBuffer (rx s)) (bpfSize (rx s)) (bpfOffset (rx s)) rds).
  assert (D : done_with s (r_rx l s) [] rs).
  { destruct OK. split; [by split|done|by rewrite app_nil_r|constructor]. }
  destruct r as [d|]; cbn; [|by apply WN].
  assert (Z : zlen (take (Z.to_nat sizeof_PPPoEPacket) d) = received_size d).
  { unfold received_size, zlen. rewrite length_take. change sizeof_PPPoEPacket with 1520. lia. }
  rewrite overwrite_Some by (done || (rewrite Z; unfold received_size; lia)). cbn. rewrite Z.
  by apply (WS d (r_rx l s)).
Qed.

(** A packet that passed the tests common to both kinds: it is well formed and
    its announced length is within what arrived. *)
Lemma received_bounds d : bytes d -> bogus_length (received_packet d) (received_size d) = false ->
  wf_packet (received_packet d) /\
  ntohs (p_length (received_packet d)) + HDR_SIZE <= received_size d <= sizeof_PPPoEPacket.
Proof using Wg.
  intros B L. pose proof (received_packet_wf d B) as W. split; [done|].
  split; [|unfold received_size; lia]. apply bogus_length_false; [done|done|].
  unfold received_size. pose proof (zlen_nonneg d). change sizeof_PPPoEPacket with 1520. lia.
Qed.

(** Updating the activity time of the session found. *)
Lemma wp_touch {A} s rs i ss (k : unit -> Cmd Relay A) Q E : Relay_ok s rs ->
  AllSessions (tables s) !! i = Some ss ->
  (forall s', done_with s s' [] (map (touch i (Epoch (tables s))) rs) ->
     AllHashes (tables s') = AllHashes (tables s) -> Epoch (tables s') = Epoch (tables s) ->
     reads (rx s') = reads (rx s) -> wp (k tt) Q E s') ->
  wp (bind (upd_tables (fun t => assign (AllSessions t) (Some i) (s_set_epoch (Epoch t)) ≫= fun a =>
                                 Some (t_AllSessions a t))) k) Q E s.
Proof.
  intros OK Ei W. unfold wp, bind, upd_tables, on_tables in *. rewrite (assign_Some _ _ _ _ Ei). cbn.
  apply W; try done. pose proof OK as []. split; [split|..]; try done.
  - cbn. by apply (touch_rep _ _ _ _ ss).
  - cbn. apply Forall_fmap. apply (Forall_impl _ _ _ ok_rs0). intros r []. unfold compose, touch. by case_decide; split.
  - by rewrite app_nil_r.
Qed.

(** What [relayGotSessionPacket] does with the next received frame. *)
Definition session_relayed (s : Relay) (rs : list relayed) (iface : nat)
    (fs : list (Z * list Z)) (rs' : list relayed) : Prop :=
  (fs = [] /\ rs' = rs) \/
  exists d rest p f ac r, reads (rx s) = Some d :: rest /\ p = received_packet d /\
    Interfaces s !! iface = Some f /\ h_dest p = if_mac f /\
    p_ver p = 1 /\ p_type p = 1 /\ p_code p = CODE_SESS /\
    r ∈ rs /\ r_key ac r = (h_source p, p_session p) /\
    to_peer (Interfaces s) ac r p (received_size d) fs /\
    rs' = map (touch (r_slot r) (Epoch (tables s))) rs.

Lemma end_of_lookup t rs x ac r : end_of t rs x ac r -> exists y h g ss,
  AllHashes t !! x = Some h /\ peer h = Some y /\ ses h = Some (r_slot r) /\
  AllHashes t !! y = Some g /\ ses g = Some (r_slot r) /\
  interface g = Some (r_end (negb ac) r).1.1 /\ peerMac g = (r_end (negb ac) r).1.2 /\
  h_sesNum g = (r_end (negb ac) r).2 /\ AllSessions t !! r_slot r = Some ss.
Proof.
  intros (_ & y & (h & Eh & Ph & Sh & _) & (g & Eg & _ & Sg & Ig & Mg & Ng) & O).
  assert (S : exists ss, AllSessions t !! r_slot r = Some ss) by (destruct ac; destruct O as (ss & E & _); by exists ss).
  destruct S as [ss S]. by exists y, h, g, ss.
Qed.

Lemma wp_relayGotSessionPacket s rs iface : Relay_ok s rs -> (iface < length (Interfaces s))%nat ->
  wp (relayGotSessionPacket garbage garbage_size iface)
    (fun _ s' => exists fs rs', done_with s s' fs rs' /\ session_relayed s rs iface fs rs') (gave_up s) s.
Proof using Wg.
  intros OK Hi. destruct (interface_lookup _ _ OK _ Hi) as (f & Ef & Hf & Mf). unfold relayGotSessionPacket.
  eapply wp_interface; [exact Ef|]. eapply (wp_relay_receive s rs); [done| |].
  { intros s' D. rewrite decide_True by lia. exists [], rs. split; [done|by left]. }
  intros d s1 B D1 T1 R1. rewrite decide_False by lia.
  assert (NO : forall s', done_with s s' [] rs -> exists fs rs', done_with s s' fs rs' /\ session_relayed s rs iface fs rs')
    by (intros s' D; exists [], rs; split; [done|by left]).
  case_decide as Dv; [by apply NO|]. case_decide as Dc; [by apply NO|].
  destruct (mac_eqb (h_dest (received_packet d)) (if_mac f)) eqn:Dm; [|by apply NO].
  apply mac_eqb_eq in Dm. cbn [negb].
  destruct (bogus_length (received_packet d) (received_size d)) eqn:Db; [by apply NO|].
  destruct (received_bounds d B Db) as [W Hz]. pose proof (dw_ok _ _ _ _ D1) as OK1.
  apply (wp_find s1 rs OK1); [intros _; by apply NO|]. intros x ac r K EO.
  destruct (end_of_lookup _ _ _ _ _ EO) as (y & h & g & ss & Eh & Ph & Sh & Eg & Sg & Ig & Mg & Ng & Es).
  assert (Hr : r ∈ rs) by apply EO. rewrite T1 in Eh, Eg, Es.
  cbv beta iota. eapply (wp_hash s1 x h); [rewrite T1; exact Eh|]. rewrite Sh.
  eapply (wp_touch s1 rs _ ss); [done|rewrite T1; exact Es|]. intros s2 D2 H2 _ R2. rewrite Ph.
  eapply (wp_hash s2 y g); [rewrite H2, T1; exact Eg|]. rewrite Ig.
  pose proof (dw_setup _ _ _ _ D1) as (I1 & _). pose proof (dw_setup _ _ _ _ D2) as (I2 & _).
  destruct (r_end_ok s rs OK (negb ac) r Hr) as (Hio & Hmo & _).
  destruct (interface_lookup _ _ OK _ Hio) as (o & Eo & Ho & Mo).
  eapply (wp_interface s2 _ o); [rewrite I2, I1; exact Eo|].
  eapply wp_mono; [eapply (wp_send_own s2 _ o)| |].
  - apply D2.
  - by rewrite I2, I1.
  - by right.
  - apply (translated_sendable (received_packet d)); [by apply wf_sendable|rewrite Mg; apply Hmo|apply Mo].
  - done.
  - pose proof (ntohs_range (received_packet d)). lia.
  - intros [] s3 D3. exists [(sessionSock o, packet_frame (translated (received_packet d) (peerMac g) (if_mac o) (h_sesNum g)) (received_size d))],
      (map (touch (r_slot r) (Epoch (tables s))) rs). split.
    + pose proof (done_trans _ _ _ _ _ _ _ (done_trans _ _ _ _ _ _ _ D1 D2) D3) as D. rewrite T1 in D. exact D.
    + right. exists d, (reads (rx s1)), (received_packet d), f, ac, r. split_and!; try done; try lia.
      * unfold to_peer. exists o. rewrite Mg, Ng. by destruct (r_end (negb ac) r) as [[? ?] ?].
  - intros c s3 G. eapply gave_up_after; [|exact G]. exact (done_trans _ _ _ _ _ _ _ D1 D2).
Qed.

(** *** PADT *)

(** A discovery packet as the handlers get it. *)
Record arrived (p : PPPoEPacket) (size : Z) : Prop := {
  ar_wf : wf_packet p;
  ar_ver : p_ver p = 1;
  ar_type : p_type p = 1;
  ar_size : size = ntohs (p_length p) + HDR_SIZE;
  ar_max : size <= sizeof_PPPoEPacket
}.

Lemma arrived_bounds p size : arrived p size -> HDR_SIZE <= size <= sizeof_PPPoEPacket.
Proof. intros A. pose proof (ar_size _ _ A). pose proof (ar_max _ _ A). pose proof (ntohs_range p). lia. Qed.

Lemma wp_free s rs1 r rs2 : Relay_ok s (rs1 ++ r :: rs2) ->
  wp (upd_tables (fun t => freeSession t (Some (r_slot r))))
    (fun _ s' => done_with s s' [] (rs1 ++ rs2) /\ Epoch (tables s') = Epoch (tables s)) (gave_up s) s.
Proof.
  intros OK. destruct (freeSession_rep _ _ _ _ (ok_rep _ _ OK)) as (t' & Et & R & M & Ep).
  unfold wp, upd_tables, on_tables. rewrite Et. cbn. pose proof OK as [].
  apply Forall_app in ok_rs0 as [O1 O2]. apply Forall_cons in O2 as [_ O2].
  split; [|exact Ep]. split; [split|..]; try done.
  - cbn. by apply Forall_app.
  - by rewrite app_nil_r.
Qed.

Definition padt_relayed (ifs : list PPPoEInterface) (rs : list relayed) (p : PPPoEPacket) (size : Z)
    (fs : list (Z * list Z)) (rs' : list relayed) : Prop :=
  (fs = [] /\ rs' = rs /\ forall r ac, r ∈ rs -> r_key ac r <> (h_source p, p_session p)) \/
  exists rs1 r rs2 ac, rs = rs1 ++ r :: rs2 /\ r_key ac r = (h_source p, p_session p) /\
    to_peer ifs ac r p size fs /\ rs' = rs1 ++ rs2.

Lemma wp_relayHandlePADT s rs iface p size : Relay_ok s rs -> arrived p size ->
  wp (relayHandlePADT iface p size)
    (fun _ s' => exists fs rs', done_with s s' fs rs' /\ padt_relayed (Interfaces s) rs p size fs rs') (gave_up s) s.
Proof.
  intros OK A. unfold relayHandlePADT. apply (wp_find s rs OK).
  { intros N. exists [], rs. split; [by apply done_nothing|by left]. }
  intros x ac r K EO.
  destruct (end_of_lookup _ _ _ _ _ EO) as (y & h & g & ss & Eh & Ph & Sh & Eg & Sg & Ig & Mg & Ng & Es).
  assert (Hr : r ∈ rs) by apply EO. cbv beta iota.
  eapply wp_hash; [exact Eh|]. rewrite Ph. eapply wp_hash; [exact Eg|]. rewrite Ig.
  destruct (r_end_ok s rs OK (negb ac) r Hr) as (Hio & Hmo & _).
  destruct (interface_lookup _ _ OK _ Hio) as (o & Eo & Ho & Mo).
  eapply wp_interface; [exact Eo|]. apply wp_bind.
  eapply wp_mono; [eapply (wp_send_own s rs o)| |done]; try done.
  - by right.
  - apply (translated_sendable p); [by apply wf_sendable, A|rewrite Mg; apply Hmo|apply Mo].
  - exact (arrived_bounds p size A).
  - intros [] s1 D1. rewrite Sg. apply list_elem_of_split in Hr as (rs1 & rs2 & ->).
    eapply wp_mono; [apply (wp_free s1 rs1 r rs2), D1| |].
    + intros [] s2 [D2 _]. eexists _, _. split; [exact (done_trans _ _ _ _ _ _ _ D1 D2)|]. right.
      exists rs1, r, rs2, ac. split_and!; try done. unfold to_peer. exists o. rewrite Mg, Ng.
      by destruct (r_end (negb ac) r) as [[? ?] ?].
    + intros c s2 G. exact (gave_up_after _ _ _ _ _ _ D1 G).
Qed.

(** *** PADI *)

Lemma wp_for_each s rs ks loop_body (g : nat -> list (Z * list Z)) : Relay_ok s rs ->
  (forall k s', k ∈ ks -> Relay_ok s' rs -> same_setup s s' ->
     wp (loop_body k) (fun _ s'' => done_with s' s'' (g k) rs) (gave_up s') s') ->
  wp (for_each ks loop_body) (fun _ s' => done_with s s' (concat (map g ks)) rs) (gave_up s) s.
Proof.
  intros OK H. assert (G : forall s', Relay_ok s' rs -> same_setup s s' ->
    wp (for_each ks loop_body) (fun _ s'' => done_with s' s'' (concat (map g ks)) rs) (gave_up s') s').
  { induction ks as [|k ks IH]; intros s' OK' SS; cbn [for_each map concat].
    - by apply done_nothing.
    - apply wp_bind. eapply wp_mono; [apply H; [left|done|done]| |done].
      intros [] s1 D1. eapply wp_mono.
      + apply IH; [intros; apply H; [by right|done|done]|apply D1|]. eapply same_setup_trans; [done|apply D1].
      + intros [] s2 D2. exact (done_trans _ _ _ _ _ _ _ D1 D2).
      + intros c s2 G. exact (gave_up_after _ _ _ _ _ _ D1 G). }
  by apply G.
Qed.

(** The tag for packets that came on interface [k] from address [mac]. *)
Definition relay_id (k : nat) (mac : list Z) : tag :=
  (TAG_RELAY_SESSION_ID, le32 (Z.of_nat k) ++ mac).

Definition has_relay_id (p : PPPoEPacket) : bool :=
  existsb (fun t : tag => t.1 =? TAG_RELAY_SESSION_ID) (packet_tags p).1.

Definition padi_payload (iface : nat) (p : PPPoEPacket) : list Z :=
  encode_tag (relay_id iface (h_source p)) ++ body p.

Definition padi_accepted (i : PPPoEInterface) (iface : nat) (p : PPPoEPacket) : bool :=
  clientOK i && negb (NOT_UNICAST (h_source p)) && negb (NOT_BROADCAST (h_dest p)) &&
  negb (has_relay_id p) && bool_decide (zlen (padi_payload iface p) <= MAX_PPPOE_PAYLOAD).

(** The copy for interface [k]. *)
Definition padi_copy (ifs : list PPPoEInterface) (iface : nat) (p : PPPoEPacket) (k : nat) : list (Z * list Z) :=
  if decide (k = iface) then [] else
  match ifs !! k with
  | Some o => if acOK o then [(discoverySock o, frame_with (set_source (if_mac o) p) (padi_payload iface p))] else []
  | None => []
  end.
Definition padi_frames (ifs : list PPPoEInterface) (iface : nat) (p : PPPoEPacket) : list (Z * list Z) :=
  concat (map (padi_copy ifs iface p) (seq 0 (length ifs))).

Lemma bytes_relay_id k mac : mac_ok mac -> bytes (le32 (Z.of_nat k) ++ mac) /\ zlen (le32 (Z.of_nat k) ++ mac) = 10.
Proof.
  intros [L B]. split; [apply bytes_app; auto with pppoe|]. rewrite zlen_app. unfold zlen. by rewrite L.
Qed.

Lemma wp_relayHandlePADI s rs iface i p size : Relay_ok s rs -> arrived p size -> Interfaces s !! iface = Some i ->
  wp (relayHandlePADI garbage_tag iface p size)
    (fun _ s' => done_with s s' (if padi_accepted i iface p then padi_frames (Interfaces s) iface p else []) rs)
    (gave_up s) s.
Proof using Wt.
  intros OK A Ei. pose proof (ar_wf _ _ A) as W. pose proof (done_nothing _ _ OK) as N.
  unfold relayHandlePADI, padi_accepted. eapply wp_interface; [exact Ei|].
  destruct (clientOK i); cbn [negb andb]; [|exact N].
  destruct (NOT_UNICAST (h_source p)); cbn [negb andb]; [exact N|].
  destruct (NOT_BROADCAST (h_dest p)); cbn [negb andb]; [exact N|].
  pose proof (ar_max _ _ A) as Hmax. pose proof (ar_size _ _ A) as Hsz.
  assert (Hlen : ntohs (p_length p) <= ETH_DATA_LEN)
    by (unfold sizeof_PPPoEPacket, HDR_SIZE, PPPOE_OVERHEAD, ETH_DATA_LEN in *; lia).
  destruct (findTag_cases p TAG_RELAY_SESSION_ID garbage_tag W Wt) as [[F NF]|(ts1 & v & ts2 & ET & _ & F)].
  2:{ eapply wp_opt_bind; [exact F|]. unfold has_relay_id. rewrite ET, existsb_app. cbn. by rewrite orb_true_r. }
  eapply wp_opt_bind; [exact F|]. cbv beta iota.
  assert (HN : has_relay_id p = false).
  { unfold has_relay_id. apply not_true_is_false. intros (t & Ht & E)%existsb_exists.
    rewrite Forall_forall in NF. apply (NF t); [by apply list_elem_of_In|lia]. }
  rewrite HN. cbn [negb andb].
  assert (MS : mac_ok (h_source p)) by (split; apply W).
  destruct (bytes_relay_id iface _ MS) as [Bd Ld].
  destruct (fill_tag_ready garbage_tag TAG_RELAY_SESSION_ID (le32 (Z.of_nat iface) ++ h_source p) [])
    as (t & Ft & Wft & Lt & Vt); [done|done|by rewrite app_nil_r|rewrite Ld; done|].
  rewrite app_nil_r, Ld in Ft. eapply wp_opt_bind; [exact Ft|]. rewrite Ld in Lt.
  pose proof (addTag_body p t W Hlen Wft) as AT. rewrite Lt, Vt in AT. specialize (AT ltac:(done)).
  fold (relay_id iface (h_source p)) in AT. fold (padi_payload iface p) in AT. cbv zeta in AT.
  case_decide as D.
  2:{ rewrite bool_decide_eq_false_2 by done. eapply wp_opt_bind; [exact AT|]. exact N. }
  rewrite bool_decide_eq_true_2 by done. destruct AT as (rest & AT & Lr & Br).
  eapply wp_opt_bind; [exact AT|]. cbv beta iota. rewrite decide_False by (unfold TAG_HDR_SIZE; lia).
  apply wp_get_bind. apply (wp_for_each s rs); [done|]. intros k s' Hk OK' (SI & _).
  unfold padi_copy. destruct (decide (k = iface)); [by apply done_nothing|].
  apply elem_of_seq in Hk. destruct (interface_lookup s rs OK k) as (o & Eo & Ho & Mo); [lia|]. rewrite Eo.
  eapply wp_interface; [by rewrite SI|]. destruct (acOK o); cbn [negb]; [|by apply done_nothing].
  set (p' := set_source (if_mac o) p).
  assert (Sp : sendable p') by (destruct (wf_sendable p W); split; [done|apply Mo|done]).
  assert (Lp : zlen (padi_payload iface p) + HDR_SIZE = size + (TAG_HDR_SIZE + 10)).
  { unfold padi_payload. rewrite zlen_app, zlen_encode_tag, body_len by done. cbn [relay_id snd].
    rewrite Ld, Hsz. unfold TAG_HDR_SIZE. lia. }
  rewrite <- Lp, <- (packet_frame_with p' (padi_payload iface p) rest); [|done|].
  2:{ unfold MAX_PPPOE_PAYLOAD, PPPOE_OVERHEAD in D. lia. }
  change (set_source (if_mac o) (with_body p (padi_payload iface p) (padi_payload iface p ++ rest)))
    with (with_body p' (padi_payload iface p) (padi_payload iface p ++ rest)).
  apply (wp_send_own s' rs o); [done|by rewrite SI|by left|by apply with_body_sendable|done|].
  pose proof (zlen_nonneg (padi_payload iface p)).
  unfold MAX_PPPOE_PAYLOAD, PPPOE_OVERHEAD, sizeof_PPPoEPacket, ETH_DATA_LEN in *. lia.
Qed.

(** *** The tag of PADO, PADR and PADS *)

Record target := mkTarget {
  tg_before : list tag;   (* the tags in front of the relay tag *)
  tg_value : list Z;      (* its value *)
  tg_if : nat;            (* the interface it names *)
  tg_out : PPPoEInterface
}.

(** Where a packet that came on [iface] goes, if anywhere: [here] must hold of
    the interface it came on, [there] of the one its first relay tag names. *)
Definition relay_target (ifs : list PPPoEInterface) (here there : PPPoEInterface -> bool) (iface : nat)
    (p : PPPoEPacket) : option target :=
  ifs !! iface ≫= fun i =>
  if here i && negb (NOT_UNICAST (h_source p)) && mac_eqb (h_dest p) (if_mac i) then
    list_find (fun t : tag => t.1 = TAG_RELAY_SESSION_ID) (packet_tags p).1 ≫= fun '(n, t) =>
    if decide (zlen t.2 = MY_RELAY_TAG_LEN) then
      let idx := s32 (un_le32 (take 4 t.2)) in
      if decide (0 <= idx) then
        ifs !! Z.to_nat idx ≫= fun o =>
        if there o && bool_decide (iface <> Z.to_nat idx)
        then Some (mkTarget (take n (packet_tags p).1) t.2 (Z.to_nat idx) o) else None
      else None
    else None
  else None.

Lemma relay_target_inv ifs here there iface p g : relay_target ifs here there iface p = Some g ->
  exists ts2, (packet_tags p).1 = tg_before g ++ (TAG_RELAY_SESSION_ID, tg_value g) :: ts2 /\
    zlen (tg_value g) = 10 /\ ifs !! tg_if g = Some (tg_out g) /\ iface <> tg_if g.
Proof.
  unfold relay_target. destruct (ifs !! iface) as [i|]; [|done]. cbn [mbind option_bind].
  destruct (_ && _); [|done]. destruct (list_find _ _) as [[n [ty v]]|] eqn:F; [|done]. cbn [mbind option_bind snd].
  case_decide as L; [|done]. cbv zeta. case_decide; [|done].
  destruct (ifs !! Z.to_nat _) as [o|] eqn:Eo; [|done]. cbn [mbind option_bind].
  destruct (there o); [|done]. destruct (bool_decide _) eqn:B; [|done]. cbn. intros [= <-]. cbn.
  apply bool_decide_eq_true in B. apply list_find_Some in F as (Hn & Ht & _). simpl in Ht. subst ty.
  exists (drop (S n) (packet_tags p).1). split_and!; try done. by rewrite take_drop_middle.
Qed.

Lemma wp_check_relay_tag {A} s rs here there iface p size i (k : option (Z * PPPoETag * nat) -> Cmd Relay A) Q E :
  Relay_ok s rs -> arrived p size -> Interfaces s !! iface = Some i ->
  wp (k (match relay_target (Interfaces s) here there iface p with
         | Some g => Some (zlen (encode (tg_before g)), found_tag garbage_tag TAG_RELAY_SESSION_ID (tg_value g), tg_if g)
         | None => None
         end)) Q E s ->
  wp (bind (check_relay_tag garbage_tag here there iface p) k) Q E s.
Proof using Wt.
  intros OK A0 Ei. pose proof (ar_wf _ _ A0) as W. unfold check_relay_tag, relay_target. rewrite Ei. cbn [mbind option_bind].
  intros H. apply wp_bind. eapply wp_interface; [exact Ei|].
  destruct (here i); cbn [negb andb] in *; [|exact H].
  destruct (NOT_UNICAST (h_source p)); cbn [negb andb] in *; [exact H|].
  destruct (mac_eqb (h_dest p) (if_mac i)); cbn [negb] in *; [|exact H].
  eapply wp_opt_bind; [by apply findTag_decode|]. destruct (list_find _ _) as [[n [ty v]]|] eqn:F; [|exact H].
  cbn [mbind option_bind snd] in H.
  apply list_find_Some in F as (Hn & Ht & _). simpl in Ht. subst ty.
  destruct (packet_tags_bound p (TAG_RELAY_SESSION_ID, v) W) as ((_ & Hv & _) & _); [by eapply list_elem_of_lookup_2|].
  cbn [snd] in *. pose proof (zlen_nonneg v). cbv beta iota. fold (found_tag garbage_tag TAG_RELAY_SESSION_ID v).
  assert (L : ntohs (t_length (found_tag garbage_tag TAG_RELAY_SESSION_ID v)) = zlen v).
  { cbn. by rewrite ntohs_htons, u16_small by lia. }
  rewrite L. destruct (decide (zlen v = MY_RELAY_TAG_LEN)) as [D|D]; [|by rewrite decide_True by done].
  rewrite decide_False by (by intros X). apply wp_get_bind.
  assert (T4 : take 4 (t_payload (found_tag garbage_tag TAG_RELAY_SESSION_ID v)) = take 4 v).
  { cbn [found_tag t_payload]. rewrite take_app_le; [done|]. unfold zlen, MY_RELAY_TAG_LEN, ETH_ALEN in D. lia. }
  rewrite T4. cbv zeta in H. set (idx := s32 (un_le32 (take 4 v))) in *. unfold NumInterfaces.
  destruct (decide (0 <= idx)) as [D0|D0]; [|by rewrite decide_True by lia].
  destruct (Interfaces s !! Z.to_nat idx) as [o|] eqn:Eo.
  - rewrite decide_False by (apply lookup_lt_Some in Eo; unfold zlen; lia).
    eapply wp_interface; [exact Eo|]. cbn [mbind option_bind] in H. destruct (there o); cbn [negb andb] in *; [|exact H].
    case_decide as De.
    + by rewrite bool_decide_eq_false_2 in H by (by intros X).
    + by rewrite bool_decide_eq_true_2 in H by done.
  - rewrite decide_True by (apply lookup_ge_None in Eo; unfold zlen; lia). exact H.
Qed.

(** What follows the relay tag in the packet. *)
Definition tg_after (g : target) (p : PPPoEPacket) : list Z := drop (length (encode (tg_before g)) + 14) (body p).

Lemma target_body ifs here there iface p g : wf_packet p -> ntohs (p_length p) <= ETH_DATA_LEN ->
  relay_target ifs here there iface p = Some g ->
  body p = encode (tg_before g) ++ encode_tag (TAG_RELAY_SESSION_ID, tg_value g) ++ tg_after g p /\
  zlen (tg_value g) = 10 /\ bytes (tg_value g).
Proof using.
  intros W Hl T. destruct (relay_target_inv _ _ _ _ _ _ T) as (ts2 & E & L & _).
  destruct (packet_tags_bound p (TAG_RELAY_SESSION_ID, tg_value g) W) as ((_ & _ & B) & _); [rewrite E; apply elem_of_app; right; left|].
  split; [|done]. destruct (body_tags p W Hl) as [rest Eb]. rewrite E, encode_app, encode_cons, <- !app_assoc in Eb.
  unfold tg_after. rewrite Eb at 1. f_equal. f_equal. rewrite Eb, app_assoc, drop_app_length'; [done|].
  rewrite length_app. pose proof (zlen_encode_tag (TAG_RELAY_SESSION_ID, tg_value g)) as Z. cbn [snd] in Z.
  unfold zlen in *. lia.
Qed.

(** The packet relayed by relayHandlePADO and relayHandlePADR: the tag now
    names where it came from, the addresses are the next hop's. *)
Definition crossed (iface : nat) (p : PPPoEPacket) (g : target) : Z * list Z :=
  (discoverySock (tg_out g),
   frame_with (set_source (if_mac (tg_out g)) (set_dest (drop 4 (tg_value g)) p))
     (encode (tg_before g) ++ encode_tag (relay_id iface (h_source p)) ++ tg_after g p)).

Lemma tag_mac_found v : zlen v = 10 -> tag_mac (found_tag garbage_tag TAG_RELAY_SESSION_ID v) = drop 4 v.
Proof.
  intros L. unfold tag_mac. cbn [found_tag t_payload]. unfold zlen in L.
  rewrite drop_app_le by lia. apply take_app_length'. rewrite length_drop. lia.
Qed.

(** Storing the new value over the old one. *)
Lemma store_relay_id a t v rest k mac : zlen v = 10 -> mac_ok mac -> zlen t = 4 ->
  store (a ++ t ++ v ++ rest) (zlen a + TAG_HDR_SIZE) (le32 (Z.of_nat k)) ≫= (fun pl =>
  store pl (zlen a + TAG_HDR_SIZE + 4) mac) = Some (a ++ t ++ (le32 (Z.of_nat k) ++ mac) ++ rest).
Proof.
  intros L [Lm _] Lt. replace (zlen a + TAG_HDR_SIZE) with (zlen (a ++ t)) by (rewrite zlen_app, Lt; done).
  rewrite <- (take_drop 4 v), (app_assoc a t), <- (app_assoc (take 4 v)).
  rewrite store_app_mid by (unfold zlen in L; rewrite length_take; change (length (le32 _)) with 4%nat; lia).
  cbn [mbind option_bind].
  replace (zlen (a ++ t) + 4) with (zlen ((a ++ t) ++ le32 (Z.of_nat k))) by (rewrite (zlen_app (a ++ t)); done).
  rewrite (app_assoc (a ++ t)), store_app_mid by (unfold zlen in L; rewrite length_drop; lia).
  by rewrite <- !app_assoc.
Qed.

Lemma wp_relay_across s rs here there iface p size g :
  Relay_ok s rs -> arrived p size -> relay_target (Interfaces s) here there iface p = Some g ->
  wp (relay_across iface p size (zlen (encode (tg_before g)))
        (found_tag garbage_tag TAG_RELAY_SESSION_ID (tg_value g)) (tg_if g))
    (fun _ s' => done_with s s' [crossed iface p g] rs) (gave_up s) s.
Proof using Wg Wt.
  intros OK A T. pose proof (ar_wf _ _ A) as W. pose proof (ar_max _ _ A) as Hmax. pose proof (ar_size _ _ A) as Hsz.
  assert (Hlen : ntohs (p_length p) <= ETH_DATA_LEN)
    by (unfold sizeof_PPPoEPacket, HDR_SIZE, PPPOE_OVERHEAD, ETH_DATA_LEN in *; lia).
  destruct (relay_target_inv _ _ _ _ _ _ T) as (_ & _ & _ & Eo & _).
  destruct (target_body _ _ _ _ _ _ W Hlen T) as (Eb & L & B).
  assert (MS : mac_ok (h_source p)) by (split; apply W).
  pose proof (body_split p W Hlen) as Ep. set (tl := drop (Z.to_nat (ntohs (p_length p))) (p_payload p)) in *.
  unfold encode_tag in Eb. cbn [fst snd] in Eb. rewrite L in Eb.
  set (nb := encode (tg_before g) ++ encode_tag (relay_id iface (h_source p)) ++ tg_after g p).
  assert (St : store (p_payload p) (zlen (encode (tg_before g)) + TAG_HDR_SIZE) (le32 (Z.of_nat iface)) ≫= (fun pl =>
    store pl (zlen (encode (tg_before g)) + TAG_HDR_SIZE + 4) (h_source p)) = Some (nb ++ tl)).
  { rewrite Ep, Eb. pose proof (store_relay_id (encode (tg_before g)) (be16 TAG_RELAY_SESSION_ID ++ be16 10) (tg_value g)
      (tg_after g p ++ tl) iface (h_source p) L MS eq_refl) as S. rewrite <- !app_assoc in *. rewrite S. f_equal.
    unfold nb, encode_tag. cbn [relay_id fst snd]. destruct (bytes_relay_id iface _ MS) as [_ Ld]. rewrite Ld.
    by rewrite <- !app_assoc. }
  unfold relay_across. destruct (store (p_payload p) _ _) as [pl1|]; [|done]. cbn [mbind option_bind] in St.
  apply wp_opt_bind with pl1; [done|]. eapply wp_opt_bind; [exact St|].
  rewrite (tag_mac_found _ L). eapply wp_interface; [exact Eo|].
  assert (Zn : zlen nb = ntohs (p_length p)).
  { rewrite <- (body_len p W Hlen), Eb. unfold nb, encode_tag. cbn [relay_id fst snd].
    destruct (bytes_relay_id iface _ MS) as [_ Ld]. rewrite Ld, !zlen_app, L. rewrite zlen_app in Ld.
    assert (Z2 : forall x, zlen (be16 x) = 2) by done. rewrite !Z2. lia. }
  set (p' := set_source (if_mac (tg_out g)) (set_dest (drop 4 (tg_value g)) p)).
  destruct (interface_lookup s rs OK (tg_if g)) as (o & Eo' & Ho & Mo); [by eapply lookup_lt_Some|].
  rewrite Eo in Eo'. injection Eo' as <-.
  assert (Sp : sendable p').
  { destruct (wf_sendable p W). split; [|apply Mo|done]. cbn. unfold zlen in L. rewrite length_drop. lia. }
  assert (Ew : set_source (if_mac (tg_out g)) (set_dest (drop 4 (tg_value g)) (set_payload (nb ++ tl) p)) =
               with_body p' nb (nb ++ tl)).
  { unfold with_body. rewrite Zn, htons_ntohs by apply W. by destruct p. }
  rewrite Ew. unfold crossed. fold nb. fold p'.
  rewrite <- (packet_frame_with p' nb tl Sp) by lia.
  replace size with (zlen nb + HDR_SIZE) by lia.
  pose proof (zlen_nonneg nb). apply (wp_send_own s rs (tg_out g)); [done|done|by left| |done|].
  - apply with_body_sendable; [done|]. rewrite <- (wf_payload_len _ W), Ep, !zlen_app, Zn, body_len by done. done.
  - unfold sizeof_PPPoEPacket, HDR_SIZE, PPPOE_OVERHEAD in *. lia.
Qed.

Definition crossing (o : option target) (iface : nat) (p : PPPoEPacket) : list (Z * list Z) :=
  match o with Some g => [crossed iface p g] | None => [] end.

Lemma wp_relayHandlePADO s rs iface i p size : Relay_ok s rs -> arrived p size -> Interfaces s !! iface = Some i ->
  wp (relayHandlePADO garbage_tag iface p size)
    (fun _ s' => done_with s s' (crossing (relay_target (Interfaces s) acOK clientOK iface p) iface p) rs) (gave_up s) s.
Proof using Wg Wt.
  intros OK A Ei. unfold relayHandlePADO. eapply (wp_check_relay_tag s rs); [done|done|exact Ei|].
  destruct (relay_target _ _ _ _ _) as [g|] eqn:T; [by eapply wp_relay_across|]. by apply done_nothing.
Qed.

Lemma wp_relayHandlePADR s rs iface i p size : Relay_ok s rs -> arrived p size -> Interfaces s !! iface = Some i ->
  wp (relayHandlePADR garbage_tag iface p size)
    (fun _ s' => done_with s s' (crossing (relay_target (Interfaces s) clientOK acOK iface p) iface p) rs) (gave_up s) s.
Proof using Wg Wt.
  intros OK A Ei. unfold relayHandlePADR. eapply (wp_check_relay_tag s rs); [done|done|exact Ei|].
  destruct (relay_target _ _ _ _ _) as [g|] eqn:T; [by eapply wp_relay_across|]. by apply done_nothing.
Qed.

(** *** Error packets *)

Lemma with_body_wf p b rest : wf_packet p -> zlen (b ++ rest) = ETH_DATA_LEN -> bytes (b ++ rest) ->
  wf_packet (with_body p b (b ++ rest)) /\ body (with_body p b (b ++ rest)) = b /\
  ntohs (p_length (with_body p b (b ++ rest))) = zlen b /\ zlen b <= ETH_DATA_LEN.
Proof.
  intros [] L B. pose proof (zlen_nonneg b). pose proof (zlen_nonneg rest). rewrite zlen_app in L.
  unfold ETH_DATA_LEN in *.
  assert (N : ntohs (htons (zlen b)) = zlen b) by (rewrite ntohs_htons, u16_small by lia; done).
  split; [|split; [|split; [exact N|lia]]].
  - split; try done; cbn; [rewrite zlen_app; unfold ETH_DATA_LEN; lia|apply htons_range].
  - unfold body. cbn [with_body set_length set_payload p_length p_payload]. rewrite N, zlen_to_nat.
    apply take_app_length.
Qed.

Definition err_packet (o : PPPoEInterface) (mac : list Z) (code session : Z) : PPPoEPacket :=
  set_length (htons 0) (start_packet mac (if_mac o) (htons ETH_PPPOE_DISCOVERY) code session garbage).

Lemma err_packet_wf o mac code session : mac_ok (if_mac o) -> mac_ok mac -> 0 <= code < 256 ->
  0 <= session < 65536 -> wf_packet (err_packet o mac code session) /\
  body (err_packet o mac code session) = [] /\ ntohs (p_length (err_packet o mac code session)) <= ETH_DATA_LEN.
Proof using Wg.
  intros [] [] Hc Hs. split; [|split; [done|done]]. destruct Wg. split; done.
Qed.

Lemma frame_with_err o mac code session ts :
  frame_with (err_packet o mac code session) (encode ts) =
    discovery_frame mac (if_mac o) ETH_PPPOE_DISCOVERY code session ts.
Proof.
  unfold frame_with, header_bytes, discovery_frame, err_packet. 
  cbn [h_dest h_source h_proto p_ver p_type p_code p_session p_length set_length start_packet].
  rewrite !le16_htons, <- !app_assoc. done.
Qed.

(** The frame of an error: a Generic-Error tag in front of the host's tag, if
    all of it fits. *)
Definition error_frame (o : PPPoEInterface) (mac : list Z) (code session : Z) (hu : list tag) (msg : list Z) :
    list (Z * list Z) :=
  let ts := (TAG_GENERIC_ERROR, msg) :: hu in
  if fits ts
  then [(if decide (code = CODE_PADT) then discoverySock o else sessionSock o,
         discovery_frame mac (if_mac o) ETH_PPPOE_DISCOVERY code session ts)]
  else [].

Definition hu_tags (hu : option PPPoETag) : list tag := match hu with Some t => [tag_value t] | None => [] end.

(** The part after the optional Host-Uniq tag. *)
Lemma wp_error_finish s rs o mac code session msg b rest us :
  Relay_ok s rs -> o ∈ Interfaces s -> mac_ok mac -> 0 <= code < 256 -> 0 <= session < 65536 ->
  bytes msg -> zlen msg <= 1000 -> b = encode us -> zlen (b ++ rest) = ETH_DATA_LEN -> bytes (b ++ rest) ->
  wp (chk! errTag := fill_tag garbage_tag TAG_GENERIC_ERROR (zlen msg) (msg ++ [0]) in
      chk! (r, packet) := addTag (with_body (err_packet o mac code session) b (b ++ rest)) errTag in
      if decide (r < 0) then ret tt else
      let size := ntohs (p_length packet) + HDR_SIZE in
      if decide (code = CODE_PADT) then sendPacket (discoverySock o) packet size
      else sendPacket (sessionSock o) packet size)
    (fun _ s' => done_with s s' (error_frame o mac code session us msg) rs) (gave_up s) s.
Proof using Wg Wt.
  intros OK Ho Mm Hc Hs Bm Lm Eb Lr Br.
  assert (Mo : mac_ok (if_mac o)) by (pose proof (ok_ifs _ _ OK) as X; rewrite Forall_forall in X; by apply X).
  destruct (err_packet_wf o mac code session Mo Mm Hc Hs) as (W0 & _ & _).
  destruct (with_body_wf _ b rest W0 Lr Br) as (W1 & B1 & N1 & L1).
  destruct (fill_tag_ready garbage_tag TAG_GENERIC_ERROR msg [0]) as (t & Ft & Wf & Lt & Vt); [done|done| | |].
  { apply bytes_app. split; [done|by repeat constructor]. }
  { change (zlen [0]) with 1. unfold ETH_DATA_LEN. lia. }
  eapply wp_opt_bind; [exact Ft|].
  set (p1 := with_body (err_packet o mac code session) b (b ++ rest)) in *.
  pose proof (addTag_body p1 t W1) as AT. rewrite N1, Lt, Vt, B1 in AT.
  specialize (AT L1 Wf ltac:(unfold ETH_DATA_LEN; lia)). cbv zeta in AT.
  assert (Ee : encode_tag (TAG_GENERIC_ERROR, msg) ++ b = encode ((TAG_GENERIC_ERROR, msg) :: us))
    by (rewrite encode_cons; by subst b).
  rewrite Ee in AT. unfold error_frame, fits. set (ts := (TAG_GENERIC_ERROR, msg) :: us) in *. case_decide as D.
  2:{ rewrite bool_decide_eq_false_2 by done. eapply wp_opt_bind; [exact AT|]. cbv beta iota.
      rewrite decide_True by lia. by apply done_nothing. }
  rewrite bool_decide_eq_true_2 by done. destruct AT as (rest' & AT & Lr' & Br').
  eapply wp_opt_bind; [exact AT|]. cbv beta iota. pose proof (zlen_nonneg msg).
  rewrite decide_False by (unfold TAG_HDR_SIZE; lia).
  destruct (with_body_wf _ (encode ts) rest' W1 Lr' Br') as (_ & _ & N2 & L2). rewrite N2.
  assert (P2 : with_body p1 (encode ts) (encode ts ++ rest') = with_body (err_packet o mac code session) (encode ts) (encode ts ++ rest')) by done.
  rewrite P2, <- frame_with_err, <- (packet_frame_with _ (encode ts) rest') by (done || by apply wf_sendable).
  pose proof (zlen_nonneg (encode ts)).
  case_decide; (apply (wp_send_own s rs o); [done|done| | |done|]); try (by left); try (by right);
    try (apply with_body_sendable; [by apply wf_sendable|done]);
    unfold MAX_PPPOE_PAYLOAD, PPPOE_OVERHEAD, sizeof_PPPoEPacket, HDR_SIZE, ETH_DATA_LEN in *; lia.
Qed.

Lemma wp_relaySendError s rs k o mac code session hu msg :
  Relay_ok s rs -> Interfaces s !! k = Some o -> mac_ok mac -> 0 <= code < 256 -> 0 <= session < 65536 ->
  bytes msg -> zlen msg <= 1000 -> (forall t, hu = Some t -> wf_tag t /\ ntohs (t_length t) + 4 <= MAX_PPPOE_PAYLOAD) ->
  wp (relaySendError garbage garbage_tag code session (Some k) mac hu msg)
    (fun _ s' => done_with s s' (error_frame o mac code session (hu_tags hu) msg) rs) (gave_up s) s.
Proof using Wg Wt.
  intros OK Eo Mm Hc Hs Bm Lm Hh. unfold relaySendError. eapply wp_interface; [exact Eo|].
  assert (Ho : o ∈ Interfaces s) by (by eapply list_elem_of_lookup_2).
  assert (Mo : mac_ok (if_mac o)) by (pose proof (ok_ifs _ _ OK) as X; rewrite Forall_forall in X; by apply X).
  destruct (err_packet_wf o mac code session Mo Mm Hc Hs) as (W0 & B0 & N0).
  fold (err_packet o mac code session). destruct hu as [t|].
  - destruct (Hh t eq_refl) as [Wf Lt]. unfold MAX_PPPOE_PAYLOAD, PPPOE_OVERHEAD in Lt.
    pose proof (addTag_body _ t W0 N0 Wf ltac:(lia)) as AT. rewrite B0, app_nil_r in AT. cbv zeta in AT.
    rewrite decide_True in AT
      by (rewrite zlen_encode_tag, zlen_tag_value by (done || lia); unfold MAX_PPPOE_PAYLOAD, PPPOE_OVERHEAD; lia).
    destruct AT as (rest & AT & Lr & Br). eapply wp_opt_bind; [exact AT|]. cbv beta iota.
    pose proof (htons_range (t_length t)) as HR. fold (ntohs (t_length t)) in HR.
    rewrite decide_False by (unfold TAG_HDR_SIZE; lia).
    apply (wp_error_finish s rs o mac code session msg _ rest); try done.
    cbn. by rewrite encode_cons, app_nil_r.
  - assert (E0 : err_packet o mac code session =
      with_body (err_packet o mac code session) [] ([] ++ p_payload garbage)) by done.
    rewrite E0. apply (wp_error_finish s rs o mac code session msg [] (p_payload garbage)); try done; apply Wg.
Qed.

(** *** PADS *)

(** The PADS the client gets: no relay tag, and the relay's session number. *)
Definition pads_frame (p : PPPoEPacket) (num : Z) (g : target) : Z * list Z :=
  (discoverySock (tg_out g),
   frame_with (set_source (if_mac (tg_out g)) (set_dest (drop 4 (tg_value g)) (set_session num p)))
     (encode (tg_before g) ++ tg_after g p)).

Lemma wp_send_PADS s rs here there iface p size g num :
  Relay_ok s rs -> arrived p size -> relay_target (Interfaces s) here there iface p = Some g ->
  wp (send_PADS (set_session num p) size (zlen (encode (tg_before g)))
        (found_tag garbage_tag TAG_RELAY_SESSION_ID (tg_value g)) (tg_if g))
    (fun _ s' => done_with s s' [pads_frame p num g] rs) (gave_up s) s.
Proof using Wg Wt.
  intros OK A T. pose proof (ar_wf _ _ A) as W. pose proof (ar_max _ _ A) as Hmax. pose proof (ar_size _ _ A) as Hsz.
  assert (Hlen : ntohs (p_length p) <= ETH_DATA_LEN)
    by (unfold sizeof_PPPoEPacket, HDR_SIZE, PPPOE_OVERHEAD, ETH_DATA_LEN in *; lia).
  destruct (relay_target_inv _ _ _ _ _ _ T) as (_ & _ & _ & Eo & _).
  destruct (target_body _ _ _ _ _ _ W Hlen T) as (Eb & L & B).
  pose proof (body_split p W Hlen) as Ep. set (tl := drop (Z.to_nat (ntohs (p_length p))) (p_payload p)) in *.
  set (x := encode_tag (TAG_RELAY_SESSION_ID, tg_value g)) in *.
  assert (Lx : zlen x = 14) by (unfold x; rewrite zlen_encode_tag; cbn [snd]; lia).
  assert (Ln : ntohs (p_length p) = zlen (encode (tg_before g)) + zlen x + zlen (tg_after g p)).
  { rewrite <- (body_len p W Hlen), Eb, !zlen_app. lia. }
  assert (Epl : p_payload p = encode (tg_before g) ++ x ++ tg_after g p ++ tl) by (rewrite Ep, Eb, <- !app_assoc; done).
  pose proof (removeBytes_app (set_session num p) (encode (tg_before g)) x (tg_after g p) tl Epl (wf_payload_len _ W) Ln) as RB.
  unfold send_PADS. change (MY_RELAY_TAG_LEN + TAG_HDR_SIZE) with 14. rewrite <- Lx at 1.
  set (nb := encode (tg_before g) ++ tg_after g p).
  assert (Zn : zlen nb = ntohs (p_length p) - 14) by (unfold nb; rewrite zlen_app; lia).
  eapply wp_opt_bind; [exact RB|]. cbv beta iota. rewrite (tag_mac_found _ L). eapply wp_interface; [exact Eo|].
  set (p' := set_source (if_mac (tg_out g)) (set_dest (drop 4 (tg_value g)) (set_session num p))).
  set (rest := drop (length (tg_after g p)) (x ++ tg_after g p) ++ tl).
  destruct (interface_lookup s rs OK (tg_if g)) as (o & Eo' & Ho & Mo); [by eapply lookup_lt_Some|].
  rewrite Eo in Eo'. injection Eo' as <-.
  assert (Sp : sendable p').
  { destruct (wf_sendable p W). split; [|apply Mo|done]. cbn. unfold zlen in L. rewrite length_drop. lia. }
  match goal with |- wp (sendPacket _ ?q _) _ _ _ => assert (Ew : q = with_body p' nb (nb ++ rest)) end.
  { unfold with_body. unfold nb. rewrite zlen_app, <- app_assoc. done. }
  rewrite Ew. unfold pads_frame. fold nb. fold p'. pose proof (zlen_nonneg nb).
  rewrite <- (packet_frame_with p' nb rest Sp) by lia. replace (size - 14) with (zlen nb + HDR_SIZE) by lia.
  apply (wp_send_own s rs (tg_out g)); [done|done|by left| |done|].
  - apply with_body_sendable; [done|]. rewrite <- (wf_payload_len _ W), Epl. unfold nb, rest.
    rewrite !zlen_app. unfold zlen in *. rewrite length_drop, length_app. lia.
  - unfold sizeof_PPPoEPacket, HDR_SIZE, PPPOE_OVERHEAD in *. lia.
Qed.

(** The Host-Uniq tag of a packet, as [relaySendError] copies it. *)
Definition host_uniq (p : PPPoEPacket) : list tag :=
  match list_find (fun t : tag => t.1 = TAG_HOST_UNIQ) (packet_tags p).1 with
  | Some (_, t) => [t]
  | None => []
  end.

(** What relayHandlePADS does with a PADS that came on interface [iface], [i]:
    the three cases are a refusal or an error PADS, a session already open, and
    a new one. *)
Definition pads_relayed (ifs : list PPPoEInterface) (max : Z) (ep : Z) (rs : list relayed) (iface : nat)
    (i : PPPoEInterface) (p : PPPoEPacket) (fs : list (Z * list Z)) (rs' : list relayed) : Prop :=
  match relay_target ifs acOK clientOK iface p with
  | None => fs = [] /\ rs' = rs
  | Some g =>
      (p_session p = 0 /\ fs = [pads_frame p 0 g] /\ rs' = rs) \/
      (exists r ac, r ∈ rs /\ r_key ac r = (h_source p, p_session p) /\
         fs = [pads_frame p (r_num r) g] /\ rs' = rs) \/
      (p_session p <> 0 /\ (forall r ac, r ∈ rs -> r_key ac r <> (h_source p, p_session p)) /\
       if decide (zlen rs < max) then
         exists slot, let r := mkRelayed slot ep iface (h_source p) (p_session p) (tg_if g) (drop 4 (tg_value g)) in
           fs = [pads_frame p (r_num r) g] /\ rs' = r :: rs
       else
         fs = error_frame (tg_out g) (drop 4 (tg_value g)) CODE_PADS 0 (host_uniq p) no_session_msg ++
              error_frame i (h_source p) CODE_PADT (p_session p) [] no_session_msg /\ rs' = rs)
  end.

(** The client's address, read from the packet. *)
Lemma client_mac p here there ifs iface g : wf_packet p -> ntohs (p_length p) <= ETH_DATA_LEN ->
  relay_target ifs here there iface p = Some g ->
  slice (p_payload p) (zlen (encode (tg_before g)) + TAG_HDR_SIZE + 4) ETH_ALEN = Some (drop 4 (tg_value g)) /\
  mac_ok (drop 4 (tg_value g)).
Proof.
  intros W Hlen T. destruct (target_body _ _ _ _ _ _ W Hlen T) as (Eb & L & B).
  assert (Ld : length (drop 4 (tg_value g)) = 6%nat) by (unfold zlen in L; rewrite length_drop; lia).
  split; [|split; [done|by apply bytes_drop]].
  rewrite (body_split p W Hlen), Eb. unfold encode_tag. cbn [fst snd]. rewrite L.
  set (tl := drop (Z.to_nat (ntohs (p_length p))) (p_payload p)).
  set (t := be16 TAG_RELAY_SESSION_ID ++ be16 10).
  assert (E : (encode (tg_before g) ++ (be16 TAG_RELAY_SESSION_ID ++ be16 10 ++ tg_value g) ++ tg_after g p) ++ tl =
    (encode (tg_before g) ++ t ++ take 4 (tg_value g)) ++ drop 4 (tg_value g) ++ (tg_after g p ++ tl)).
  { unfold t. rewrite <- (take_drop 4 (tg_value g)) at 1. by rewrite <- !app_assoc. }
  rewrite E. replace (zlen (encode (tg_before g)) + TAG_HDR_SIZE + 4) with (zlen (encode (tg_before g) ++ t ++ take 4 (tg_value g))).
  - replace ETH_ALEN with (zlen (drop 4 (tg_value g))); [apply slice_app_mid|]. unfold zlen. by rewrite Ld.
  - rewrite !zlen_app. change (zlen t) with 4. unfold zlen in *. rewrite length_take. unfold TAG_HDR_SIZE. lia.
Qed.

Lemma wp_create {A} s rs iface k acM cliM num (kk : option nat -> Cmd Relay A) Q E : Relay_ok s rs ->
  (iface < length (Interfaces s))%nat -> (k < length (Interfaces s))%nat -> mac_ok acM -> mac_ok cliM ->
  0 <= num < 65536 ->
  (zlen rs < MaxSessions (tables s) -> forall slot s' ss,
     let r := mkRelayed slot (Epoch (tables s)) iface acM num k cliM in
     done_with s s' [] (r :: rs) -> AllSessions (tables s') !! slot = Some ss -> s_sesNum ss = r_num r ->
     wp (kk (Some slot)) Q E s') ->
  (~ zlen rs < MaxSessions (tables s) -> wp (kk None) Q E s) ->
  wp (bind (on_tables (fun t => createSession t iface k acM cliM num)) kk) Q E s.
Proof.
  intros OK H1 H2 M1 M2 Hn WS WN. pose proof (Rep_num _ _ (ok_rep _ _ OK)) as En.
  unfold wp, bind, on_tables in *. destruct (decide (zlen rs < MaxSessions (tables s))) as [D|D].
  - destruct (createSession_rep (tables s) rs iface k acM cliM num (ok_rep _ _ OK)) as (slot & t' & E1 & R & M & Ep & _); [lia|].
    rewrite E1. pose proof R as (es & fS & fH & ch & RW). pose proof (rep_open _ _ _ _ _ _ RW) as O.
    apply Forall2_cons_inv_r in O as (e & es' & [(ss & Ess & _) _ _] & _ & _).
    apply (WS D slot (r_tables t' s) ss); [|exact Ess|by apply (rep_sesNum _ _ _ _ _ _ RW)].
    pose proof OK as []. split; [split|..]; try done.
    + cbn. constructor; [by split|done].
    + by rewrite app_nil_r.
  - unfold createSession. rewrite decide_True by lia. rewrite r_tables_id. by apply WN.
Qed.

Lemma Rep_sesNum t rs r ss : Rep t rs -> AllSessions t !! r_slot r = Some ss -> s_sesNum ss = r_num r.
Proof. intros (? & ? & ? & ? & R) E. by apply (rep_sesNum _ _ _ _ _ _ R). Qed.

Lemma found_tag_value g ty v : 0 < ty < 65536 -> zlen v < 65536 -> tag_value (found_tag g ty v) = (ty, v).
Proof.
  intros Ht Hv. pose proof (zlen_nonneg v). unfold tag_value. cbn [found_tag t_type t_length t_payload].
  rewrite !ntohs_htons, !u16_small by lia. by rewrite zlen_to_nat, take_app_length.
Qed.

Lemma bytes_str (s : string) : bytes (str s).
Proof.
  unfold str. apply Forall_fmap, Forall_forall. intros a _. unfold compose, is_byte.
  pose proof (N_ascii_bounded a). lia.
Qed.

(** No session can be allocated: an error to both sides. *)
Lemma wp_PADS_refused s rs iface i p g hu : Relay_ok s rs ->
  Interfaces s !! iface = Some i -> Interfaces s !! tg_if g = Some (tg_out g) -> mac_ok (h_source p) ->
  mac_ok (drop 4 (tg_value g)) -> 0 <= p_session p < 65536 ->
  (forall t, hu = Some t -> wf_tag t /\ ntohs (t_length t) + 4 <= MAX_PPPOE_PAYLOAD) ->
  wp (do! relaySendError garbage garbage_tag CODE_PADS 0 (Some (tg_if g)) (drop 4 (tg_value g)) hu no_session_msg ;;
      relaySendError garbage garbage_tag CODE_PADT (p_session p) (Some iface) (h_source p) None no_session_msg)
    (fun _ s' => done_with s s' 
       (error_frame (tg_out g) (drop 4 (tg_value g)) CODE_PADS 0 (hu_tags hu) no_session_msg ++
        error_frame i (h_source p) CODE_PADT (p_session p) [] no_session_msg) rs) (gave_up s) s.
Proof using Wg Wt.
  intros OK Ei Eo MS Mcl Hs Hhu. apply wp_bind.
  eapply wp_mono; [eapply (wp_relaySendError s rs _ (tg_out g)); try done; apply bytes_str| |done].
  intros [] s1 D1. pose proof (dw_setup _ _ _ _ D1) as (I1 & _).
  eapply wp_mono; [eapply (wp_relaySendError s1 rs _ i); try done|..].
  - apply D1.
  - by rewrite I1.
  - apply bytes_str.
  - intros [] s2 D2. exact (done_trans _ _ _ _ _ _ _ D1 D2).
  - intros c s2 G. exact (gave_up_after _ _ _ _ _ _ D1 G).
Qed.

Lemma wp_relayHandlePADS s rs iface i p size : Relay_ok s rs -> arrived p size -> Interfaces s !! iface = Some i ->
  wp (relayHandlePADS garbage garbage_tag iface p size)
    (fun _ s' => exists fs rs', done_with s s' fs rs' /\
       pads_relayed (Interfaces s) (MaxSessions (tables s)) (Epoch (tables s)) rs iface i p fs rs') (gave_up s) s.
Proof using Wg Wt.
  intros OK A Ei. pose proof (ar_wf _ _ A) as W. pose proof (ar_max _ _ A) as Hmax. pose proof (ar_size _ _ A) as Hsz.
  assert (Hlen : ntohs (p_length p) <= ETH_DATA_LEN)
    by (unfold sizeof_PPPoEPacket, HDR_SIZE, PPPOE_OVERHEAD, ETH_DATA_LEN in *; lia).
  unfold relayHandlePADS. eapply (wp_check_relay_tag s rs); [done|done|exact Ei|]. unfold pads_relayed.
  destruct (relay_target _ _ _ _ _) as [g|] eqn:T.
  2:{ exists [], rs. split; [by apply done_nothing|done]. }
  destruct (client_mac _ _ _ _ _ _ W Hlen T) as [Ecl Mcl].
  destruct (relay_target_inv _ _ _ _ _ _ T) as (_ & _ & _ & Eo & _).
  assert (MS : mac_ok (h_source p)) by (split; apply W).
  change (htons 0) with 0. destruct (decide (p_session p = 0)) as [D0|D0].
  { replace p with (set_session 0 p) at 1 by (destruct p; cbn in *; by subst).
    eapply wp_mono; [eapply (wp_send_PADS s rs)|intros [] s1 D1; eexists _, _; split; [exact D1|by left]|done]; try done. }
  apply (wp_find s rs OK).
  - intros NF. cbv beta iota. apply wp_bind, wp_ret. cbv beta iota.
    eapply wp_opt_bind; [exact Ecl|].
    eapply (wp_create s rs); [done|by eapply lookup_lt_Some|by eapply lookup_lt_Some|done|done|apply W| |].
    + intros Dn slot s1 ss r D1 Es Hn. cbv beta iota. eapply wp_session; [exact Es|]. rewrite Hn.
      pose proof (dw_setup _ _ _ _ D1) as (I1 & _).
      eapply wp_mono; [eapply (wp_send_PADS s1 (r :: rs)); [apply D1|done|rewrite I1; exact T]| |].
      * intros [] s2 D2. eexists _, _. split; [exact (done_trans _ _ _ _ _ _ _ D1 D2)|]. right; right.
        split_and!; [done|done|]. rewrite decide_True by done. by exists slot.
      * intros c s2 G. exact (gave_up_after _ _ _ _ _ _ D1 G).
    + intros Dn. cbv beta iota. eapply wp_opt_bind; [by apply findTag_decode|]. unfold host_uniq.
      assert (HU : exists hu, (forall t, hu = Some t -> wf_tag t /\ ntohs (t_length t) + 4 <= MAX_PPPOE_PAYLOAD) /\
        match list_find (fun t : tag => t.1 = TAG_HOST_UNIQ) (packet_tags p).1 with
        | Some (_, t) => hu = Some (found_tag garbage_tag TAG_HOST_UNIQ t.2) /\ hu_tags hu = [t]
        | None => hu = None
        end).
      { destruct (list_find _ _) as [[n [ty v]]|] eqn:F; [|by exists None].
        apply list_find_Some in F as (Hn & Ht & _). simpl in Ht. subst ty.
        destruct (found_tag_ok p TAG_HOST_UNIQ garbage_tag (take n (packet_tags p).1) v (drop (S n) (packet_tags p).1))
          as (Wf & Lf & Lv & Bv); [done|done|by rewrite take_drop_middle|].
        eexists. split; [|split; [reflexivity|]]; cbn [snd].
        - intros t [= <-]. rewrite Lf. split; [done|lia].
        - unfold MAX_PPPOE_PAYLOAD, PPPOE_OVERHEAD, ETH_DATA_LEN in Lv.
          cbn [hu_tags]. by rewrite (found_tag_value garbage_tag TAG_HOST_UNIQ v) by (done || lia). }
      destruct HU as (hu & Hhu & Ehu).
      assert (X : wp (do! relaySendError garbage garbage_tag CODE_PADS 0 (Some (tg_if g)) (drop 4 (tg_value g)) hu no_session_msg ;;
          relaySendError garbage garbage_tag CODE_PADT (p_session p) (Some iface) (h_source p) None no_session_msg)
        (fun _ s' => exists fs rs', done_with s s' fs rs' /\
           (fs = error_frame (tg_out g) (drop 4 (tg_value g)) CODE_PADS 0 (hu_tags hu) no_session_msg ++
              error_frame i (h_source p) CODE_PADT (p_session p) [] no_session_msg /\ rs' = rs)) (gave_up s) s).
      { eapply wp_mono; [apply (wp_PADS_refused s rs iface i p g hu); try done; apply W| |done].
        intros [] s1 D1. eexists _, _. split; [exact D1|done]. }
      destruct (list_find _ _) as [[n t]|]; cbv beta iota; [destruct Ehu as [-> Eh]; rewrite Eh in X|subst hu];
        (eapply wp_mono; [exact X| |done]; intros [] s1 (fs & rs' & D1 & HX); exists fs, rs'; split; [done|];
         right; right; split; [done|]; split; [done|]; by rewrite decide_False).
  - intros x ac r K EO.
    destruct (end_of_lookup _ _ _ _ _ EO) as (y & h & h' & ss & Eh & _ & Sh & _ & _ & _ & _ & _ & Es).
    cbv beta iota. apply wp_bind. eapply wp_hash; [exact Eh|]. apply wp_ret. rewrite Sh.
    eapply wp_session; [exact Es|]. rewrite (Rep_sesNum _ _ _ _ (ok_rep _ _ OK) Es).
    eapply wp_mono; [eapply (wp_send_PADS s rs); done| |done].
    intros [] s1 D1. eexists _, _. split; [exact D1|]. right; left. exists r, ac. split; [apply EO|done].
Qed.

(** *** Dispatch *)

(** What the relay does with a discovery packet, by its code. *)
Definition discovery_relayed (ifs : list PPPoEInterface) (max ep : Z) (rs : list relayed) (iface : nat)
    (i : PPPoEInterface) (p : PPPoEPacket) (size : Z) (fs : list (Z * list Z)) (rs' : list relayed) : Prop :=
  if decide (p_code p = CODE_PADT) then padt_relayed ifs rs p size fs rs'
  else if decide (p_code p = CODE_PADI) then
    fs = (if padi_accepted i iface p then padi_frames ifs iface p else []) /\ rs' = rs
  else if decide (p_code p = CODE_PADO) then
    fs = crossing (relay_target ifs acOK clientOK iface p) iface p /\ rs' = rs
  else if decide (p_code p = CODE_PADR) then
    fs = crossing (relay_target ifs clientOK acOK iface p) iface p /\ rs' = rs
  else if decide (p_code p = CODE_PADS) then pads_relayed ifs max ep rs iface i p fs rs'
  else fs = [] /\ rs' = rs.

(** What [relayGotDiscoveryPacket] does with the next received frame: it drops
    it, or handles the packet without its padding. *)
Definition discovery_handled (s : Relay) (rs : list relayed) (iface : nat) (fs : list (Z * list Z))
    (rs' : list relayed) : Prop :=
  (fs = [] /\ rs' = rs) \/
  exists d rest i, reads (rx s) = Some d :: rest /\ Interfaces s !! iface = Some i /\
    let p := received_packet d in let size := ntohs (p_length p) + HDR_SIZE in
    arrived p size /\ size <= received_size d /\
    discovery_relayed (Interfaces s) (MaxSessions (tables s)) (Epoch (tables s)) rs iface i p size fs rs'.

Lemma wp_dispatch s rs iface i p size : Relay_ok s rs -> arrived p size -> Interfaces s !! iface = Some i ->
  wp (if decide (p_code p = CODE_PADT) then relayHandlePADT iface p size
      else if decide (p_code p = CODE_PADI) then relayHandlePADI garbage_tag iface p size
      else if decide (p_code p = CODE_PADO) then relayHandlePADO garbage_tag iface p size
      else if decide (p_code p = CODE_PADR) then relayHandlePADR garbage_tag iface p size
      else if decide (p_code p = CODE_PADS) then relayHandlePADS garbage garbage_tag iface p size
      else ret tt)
    (fun _ s' => exists fs rs', done_with s s' fs rs' /\
       discovery_relayed (Interfaces s) (MaxSessions (tables s)) (Epoch (tables s)) rs iface i p size fs rs')
    (gave_up s) s.
Proof using Wg Wt.
  intros OK A Ei. unfold discovery_relayed.
  assert (K : forall m fs, wp m (fun _ s' => done_with s s' fs rs) (gave_up s) s ->
    wp (A:=unit) m (fun _ s' => exists fs' rs', done_with s s' fs' rs' /\ fs' = fs /\ rs' = rs) (gave_up s) s).
  { intros m fs H. eapply wp_mono; [exact H| |done]. intros a s' D. by exists fs, rs. }
  repeat case_decide; try done.
  - by apply wp_relayHandlePADT.
  - apply K. by apply wp_relayHandlePADI.
  - apply K. by eapply wp_relayHandlePADO.
  - apply K. by eapply wp_relayHandlePADR.
  - by apply wp_relayHandlePADS.
  - apply K. by apply done_nothing.
Qed.

Lemma wp_relayGotDiscoveryPacket s rs iface : Relay_ok s rs -> (iface < length (Interfaces s))%nat ->
  wp (relayGotDiscoveryPacket garbage garbage_tag garbage_size iface)
    (fun _ s' => exists fs rs', done_with s s' fs rs' /\ discovery_handled s rs iface fs rs') (gave_up s) s.
Proof using Wg Wt.
  intros OK Hi. destruct (interface_lookup _ _ OK _ Hi) as (f & Ef & _ & _). unfold relayGotDiscoveryPacket.
  eapply wp_interface; [exact Ef|]. eapply (wp_relay_receive s rs); [done| |].
  { intros s' D. rewrite decide_True by lia. exists [], rs. split; [done|by left]. }
  intros d s1 B D1 T1 R1. rewrite decide_False by lia.
  assert (NO : forall s', done_with s s' [] rs -> exists fs rs', done_with s s' fs rs' /\ discovery_handled s rs iface fs rs')
    by (intros s' D; exists [], rs; split; [done|by left]).
  case_decide as Dv; [by apply NO|].
  destruct (bogus_length (received_packet d) (received_size d)) eqn:Db; [by apply NO|].
  destruct (received_bounds d B Db) as [W Hz]. pose proof (ntohs_range (received_packet d)) as Hr.
  set (p := received_packet d) in *. set (size := ntohs (p_length p) + HDR_SIZE).
  unfold sizeof_PPPoEPacket, HDR_SIZE, PPPOE_OVERHEAD, ETH_DATA_LEN in Hz.
  match goal with |- context [if decide (u32 _ > u32 _) then ?x else ?y] => 
    assert (Esz : (if decide (u32 (received_size d) > u32 size) then x else y) = size) end.
  { unfold size, HDR_SIZE, PPPOE_OVERHEAD. rewrite !u32_small by lia. case_decide; lia. }
  cbv zeta. rewrite Esz.
  assert (A : arrived p size) by (split; [done|lia|lia|done|unfold size, sizeof_PPPoEPacket, HDR_SIZE, PPPOE_OVERHEAD, ETH_DATA_LEN; lia]).
  pose proof (dw_setup _ _ _ _ D1) as (I1 & _).
  eapply wp_mono; [eapply (wp_dispatch s1 rs iface f p size); [apply D1|done|by rewrite I1]| |].
  - intros [] s2 (fs & rs' & D2 & H2). exists fs, rs'. split; [exact (done_trans _ _ _ _ _ _ _ D1 D2)|].
    right. exists d, (reads (rx s1)), f. rewrite T1, I1 in H2. split_and!; try done. 
    cbv zeta. fold p size. split; [done|]. split; [unfold size, HDR_SIZE, PPPOE_OVERHEAD; lia|done].
  - intros c s2 G. exact (gave_up_after _ _ _ _ _ _ D1 G).
Qed.

(** *** The idle timer *)

(** Sending leaves the tables alone. *)
Definition keeps_tables {A} (m : Cmd Relay A) : Prop :=
  forall s a s', m s = Ok a s' -> tables s' = tables s.

Lemma keeps_bind {A B} (m : Cmd Relay A) (k : A -> Cmd Relay B) :
  keeps_tables m -> (forall a, keeps_tables (k a)) -> keeps_tables (bind m k).
Proof. intros Hm Hk s b s' (a & s1 & E1 & E2)%bind_inv_Ok. rewrite (Hk _ _ _ _ E2). by eapply Hm. Qed.
Lemma keeps_opt {A} (o : option A) : keeps_tables (of_option o).
Proof. intros s a s'. unfold of_option. destruct o; [|done]. by intros [= _ <-]. Qed.
Lemma keeps_ret {A} (a : A) : keeps_tables (ret a).
Proof. intros s x s' [= _ <-]. done. Qed.

Lemma sendPacket_tables sock pkt size : keeps_tables (sendPacket sock pkt size).
Proof.
  apply keeps_bind; [apply keeps_opt|]. intros data s a s'. rewrite get_bind.
  destruct (writes s) as [|[] ws]; cbn; [by intros [= _ <-]|by intros [= _ <-]|done].
Qed.

Lemma relaySendError_tables code session k mac hu msg :
  keeps_tables (relaySendError garbage garbage_tag code session k mac hu msg).
Proof.
  apply keeps_bind.
  { intros s a s'. unfold interface_at. rewrite get_bind. destruct (deref _ _); [|done]. by intros [= _ <-]. }
  intros i. assert (F : forall packet, keeps_tables (
    chk! errTag := fill_tag garbage_tag TAG_GENERIC_ERROR (zlen msg) (msg ++ [0]) in
    chk! (r, packet) := addTag packet errTag in
    if decide (r < 0) then ret tt else
    let size := ntohs (p_length packet) + HDR_SIZE in
    if decide (code = CODE_PADT) then sendPacket (discoverySock i) packet size
    else sendPacket (sessionSock i) packet size)).
  { intros packet. apply keeps_bind; [apply keeps_opt|]. intros t. apply keeps_bind; [apply keeps_opt|].
    intros [r p]. repeat case_decide; auto using keeps_ret, sendPacket_tables. }
  destruct hu as [t|]; [|apply F]. apply keeps_bind; [apply keeps_opt|]. intros [r p'].
  destruct (decide (r < 0)); [apply keeps_ret|apply F].
Qed.

Lemma wp_keep_tables {A} (m : Cmd Relay A) Q E s : keeps_tables m -> wp m Q E s ->
  wp m (fun a s' => Q a s' /\ tables s' = tables s) E s.
Proof. unfold wp. intros K W. specialize (K s). destruct (m s); [|done|done]. split; [done|]. by eapply K. Qed.

Definition idle (now timeout : Z) (r : relayed) : bool := bool_decide (u32 (now - r_epoch r) > timeout).

(** A PADT to each end. *)
Definition closing (ifs : list PPPoEInterface) (r : relayed) : list (Z * list Z) :=
  match ifs !! r_acIf r, ifs !! r_cliIf r with
  | Some a, Some c => error_frame a (r_acMac r) CODE_PADT (r_acNum r) [] idle_msg ++
                      error_frame c (r_cliMac r) CODE_PADT (r_num r) [] idle_msg
  | _, _ => []
  end.

Lemma wp_close s rs1 r rs2 ss a c : Relay_ok s (rs1 ++ r :: rs2) -> acHash ss = Some a -> clientHash ss = Some c ->
  hash_is (AllHashes (tables s)) a c (r_slot r) (r_end true r) ->
  hash_is (AllHashes (tables s)) c a (r_slot r) (r_end false r) ->
  wp (let! a := hash_at (acHash ss) in
      do! relaySendError garbage garbage_tag CODE_PADT (h_sesNum a) (interface a) (peerMac a) None idle_msg ;;
      let! l := hash_at (clientHash ss) in
      do! relaySendError garbage garbage_tag CODE_PADT (h_sesNum l) (interface l) (peerMac l) None idle_msg ;;
      upd_tables (fun t => freeSession t (Some (r_slot r))))
    (fun _ s' => done_with s s' (closing (Interfaces s) r) (rs1 ++ rs2) /\ Epoch (tables s') = Epoch (tables s))
    (gave_up s) s.
Proof using Wg Wt.
  intros OK Ha Hc (ha & Eha & _ & _ & Ia & Ma & Na) (hc & Ehc & _ & _ & Ic & Mc & Nc).
  assert (Hr : r ∈ rs1 ++ r :: rs2) by set_solver.
  destruct (r_end_ok s _ OK true r Hr) as (Hia & Hma & Hna), (r_end_ok s _ OK false r Hr) as (Hic & Hmc & Hnc).
  destruct (interface_lookup _ _ OK _ Hia) as (oa & Eoa & _), (interface_lookup _ _ OK _ Hic) as (oc & Eoc & _).
  unfold closing. cbn [r_end fst snd] in Eoa, Eoc. rewrite Eoa, Eoc.
  rewrite Ha, Hc. eapply wp_hash; [exact Eha|]. rewrite Na, Ia, Ma. cbn [r_end fst snd] in *. apply wp_bind.
  eapply wp_mono; [eapply wp_keep_tables; [apply relaySendError_tables|];
    eapply (wp_relaySendError s _ (r_acIf r) oa); try done; apply bytes_str| |done].
  intros [] s1 [D1 T1]. eapply (wp_hash s1 c hc); [by rewrite T1|]. rewrite Nc, Ic, Mc. apply wp_bind.
  pose proof (dw_setup _ _ _ _ D1) as (I1 & _).
  eapply wp_mono; [eapply wp_keep_tables; [apply relaySendError_tables|];
    eapply (wp_relaySendError s1 _ (r_cliIf r) oc); try done; [apply D1|by rewrite I1|apply bytes_str]| |].
  2:{ intros cc s2 G. exact (gave_up_after _ _ _ _ _ _ D1 G). }
  intros [] s2 [D2 T2]. pose proof (done_trans _ _ _ _ _ _ _ D1 D2) as D12.
  eapply wp_mono; [apply (wp_free s2 rs1 r rs2), D12| |].
  - intros [] s3 [D3 E3]. split; [|by rewrite E3, T2, T1].
    pose proof (done_trans _ _ _ _ _ _ _ D12 D3) as D. by rewrite app_nil_r in D.
  - intros cc s3 G. exact (gave_up_after _ _ _ _ _ _ D12 G).
Qed.

Lemma wp_clean_loop now todo : forall fuel s kept, Relay_ok s (kept ++ todo) -> (length todo <= fuel)%nat ->
  Epoch (tables s) = now ->
  wp (clean_loop garbage garbage_tag fuel (head (map r_slot todo)))
    (fun _ s' => done_with s s' (concat (map (closing (Interfaces s)) (List.filter (idle now (IdleTimeout s)) todo)))
                   (kept ++ List.filter (fun r => negb (idle now (IdleTimeout s) r)) todo)) (gave_up s) s.
Proof using Wg Wt.
  induction todo as [|r todo IH]; intros fuel s kept OK Hf En.
  - destruct fuel; cbn; apply done_nothing; by rewrite app_nil_r in *.
  - destruct fuel as [|fuel]; [simpl in Hf; lia|]. cbn [map head clean_loop].
    destruct (Rep_next _ _ _ _ (ok_rep _ _ OK)) as (ss & a & c & Es & Nx & Ep & Ha & Hc & O1 & O2).
    eapply wp_session; [exact Es|]. apply wp_get_bind. apply wp_bind. rewrite Ep, En, Nx.
    cbn [List.filter]. case_decide as D.
    + assert (Id : idle now (IdleTimeout s) r = true) by (by apply bool_decide_eq_true_2). rewrite !Id. cbn [negb map concat].
      eapply wp_mono; [by apply (wp_close s kept r todo ss a c)| |done].
      intros [] s1 [D1 E1]. pose proof (dw_setup _ _ _ _ D1) as (I1 & _ & ID1 & _).
      eapply wp_mono; [apply (IH fuel s1 kept); [apply D1|simpl in Hf; lia|by rewrite E1]| |].
      * intros [] s2 D2. rewrite I1, ID1 in D2. exact (done_trans _ _ _ _ _ _ _ D1 D2).
      * intros cc s2 G. exact (gave_up_after _ _ _ _ _ _ D1 G).
    + assert (Id : idle now (IdleTimeout s) r = false) by (by apply bool_decide_eq_false_2). rewrite !Id.
      cbn [negb]. apply wp_ret.
      replace (kept ++ r :: List.filter (fun r => negb (idle now (IdleTimeout s) r)) todo)
        with ((kept ++ [r]) ++ List.filter (fun r => negb (idle now (IdleTimeout s) r)) todo) by (by rewrite <- app_assoc).
      apply (IH fuel s (kept ++ [r])); [by rewrite <- app_assoc|simpl in Hf; lia|done].
Qed.

Lemma wp_cleanSessions s rs : Relay_ok s rs ->
  wp (cleanSessions garbage garbage_tag)
    (fun _ s' => done_with s s'
       (concat (map (closing (Interfaces s)) (List.filter (idle (Epoch (tables s)) (IdleTimeout s)) rs)))
       (List.filter (fun r => negb (idle (Epoch (tables s)) (IdleTimeout s) r)) rs)) (gave_up s) s.
Proof using Wg Wt.
  intros OK. destruct (Rep_head _ _ (ok_rep _ _ OK)) as [Eh El]. unfold cleanSessions. apply wp_get_bind.
  rewrite Eh. by apply (wp_clean_loop (Epoch (tables s)) rs _ s []).
Qed.

(** *** The loop *)

Lemma wp_any {A} (m : Cmd Relay A) s (P : list (Z * list Z) -> list relayed -> Prop) :
  wp m (fun _ s' => exists fs rs', done_with s s' fs rs' /\ P fs rs') (gave_up s) s ->
  wp m (fun _ s' => exists fs rs', done_with s s' fs rs') (gave_up s) s.
Proof. intros H. eapply wp_mono; [exact H| |done]. intros a s' (fs & rs' & D & _). by exists fs, rs'. Qed.

Lemma wp_seq s (m : Cmd Relay unit) (k : Cmd Relay unit) :
  wp m (fun _ s' => exists fs rs', done_with s s' fs rs') (gave_up s) s ->
  (forall s' rs', Relay_ok s' rs' -> same_setup s s' -> wp k (fun _ s2 => exists fs rs2, done_with s' s2 fs rs2) (gave_up s') s') ->
  wp (bind m (fun _ => k)) (fun _ s' => exists fs rs', done_with s s' fs rs') (gave_up s) s.
Proof.
  intros Hm Hk. apply wp_bind. eapply wp_mono; [exact Hm| |done]. intros [] s1 (fs & rs1 & D1).
  eapply wp_mono; [apply (Hk s1 rs1); apply D1| |].
  - intros a s2 (gs & rs2 & D2). exists (fs ++ gs), rs2. exact (done_trans _ _ _ _ _ _ _ D1 D2).
  - intros c s2 G. exact (gave_up_after _ _ _ _ _ _ D1 G).
Qed.

Lemma wp_for_any ks loop_body : forall s rs, Relay_ok s rs -> Forall (fun k => (k < length (Interfaces s))%nat) ks ->
  (forall k s' rs', Relay_ok s' rs' -> (k < length (Interfaces s'))%nat ->
     wp (loop_body k) (fun _ s'' => exists fs rs'', done_with s' s'' fs rs'') (gave_up s') s') ->
  wp (for_each ks loop_body) (fun _ s' => exists fs rs', done_with s s' fs rs') (gave_up s) s.
Proof.
  induction ks as [|k ks IH]; intros s rs OK Hk H; cbn [for_each].
  - exists [], rs. by apply done_nothing.
  - apply Forall_cons in Hk as [Hk Hks]. apply wp_seq; [by eapply H|].
    intros s' rs' OK' (I1 & _). eapply IH; [done|by rewrite I1|done].
Qed.

Lemma wp_alarmHandler s rs : Relay_ok s rs ->
  wp alarmHandler (fun _ s' => exists fs rs', done_with s s' fs rs') (gave_up s) s.
Proof.
  intros OK. unfold alarmHandler. apply wp_get_bind. unfold wp, bind, upd_tables, on_tables, modify. cbn.
  pose proof OK as []. pose proof (epoch_rep _ _ (u32 (Epoch (tables s) + 1)) ok_rep0) as R.
  case_decide; exists [], rs; (split; [by split|done|by rewrite app_nil_r|constructor]).
Qed.

Lemma wp_relay_ready s rs fds : Relay_ok s rs ->
  wp (relay_ready garbage garbage_tag garbage_size fds)
    (fun _ s' => exists fs rs', done_with s s' fs rs') (gave_up s) s.
Proof using Wg Wt.
  intros OK. unfold relay_ready. apply wp_get_bind.
  assert (HK : Forall (fun k => (k < length (Interfaces s))%nat) (seq 0 (length (Interfaces s))))
    by (apply Forall_forall; intros k Hk; apply elem_of_seq in Hk; lia).
  apply wp_seq.
  { eapply (wp_for_any _ _ s rs); [done|done|]. intros k s' rs' OK' Hk.
    destruct (interface_lookup _ _ OK' _ Hk) as (f & Ef & _). eapply wp_interface; [exact Ef|].
    destruct (FD_ISSET _ _); [|exists [], rs'; by apply done_nothing].
    eapply wp_any. by apply (wp_relayGotSessionPacket s' rs'). }
  intros s1 rs1 OK1 S1. apply wp_seq.
  { eapply (wp_for_any _ _ s1 rs1); [done|by destruct S1 as (-> & _)|]. intros k s' rs' OK' Hk.
    destruct (interface_lookup _ _ OK' _ Hk) as (f & Ef & _). eapply wp_interface; [exact Ef|].
    destruct (FD_ISSET _ _); [|exists [], rs'; by apply done_nothing].
    eapply wp_any. by apply (wp_relayGotDiscoveryPacket s' rs'). }
  intros s2 rs2 OK2 S2. destruct (FD_ISSET _ _); [|exists [], rs2; by apply done_nothing].
  assert (Q : forall cc cb s', s' = r_cleanBytes cb (r_CleanCounter cc s2) -> done_with s2 s' [] rs2).
  { intros cc cb s' ->. destruct OK2. split; [by split|done|by rewrite app_nil_r|constructor]. }
  apply wp_modify_bind, wp_get_bind. case_decide; [done|]. apply wp_modify_bind.
  pose proof (Q 0 (cleanBytes (r_CleanCounter 0 s2) - 1) _ eq_refl) as D3. 
  case_decide; [|by exists [], rs2].
  eapply wp_mono; [apply (wp_cleanSessions _ rs2), D3| |].
  - intros [] s4 D4. eexists _, _. exact (done_trans _ _ _ _ _ _ _ D3 D4).
  - intros c s4 G. exact (gave_up_after _ _ _ _ _ _ D3 G).
Qed.
End Received.

(** ** Theorems *)

(** Two interfaces, a client's and a concentrator's, and one open session. *)
Definition cli_if : PPPoEInterface := mkInterface (str "eth0") 3 4 true false [2; 0; 0; 0; 1; 0].
Definition ac_if : PPPoEInterface := mkInterface (str "eth1") 5 6 false true [2; 0; 0; 0; 1; 1].
Definition no_packet : PPPoEPacket := mkPacket (replicate 6 0) (replicate 6 0) 0 0 0 0 0 0 (replicate 1500 0).
Definition no_tag : PPPoETag := mkTag 0 0 (replicate 1500 0).
Definition relay_with (frames : list (list Z)) : Relay :=
  mkRelay [cli_if; ac_if] table_open 0 30 600 1 9 (mkLink [] 0 0 (map Some frames)) [] [].

Lemma no_packet_wf : wf_packet no_packet.
Proof. apply wf_packetb_ok. vm_compute. reflexivity. Qed.
Lemma no_tag_wf : wf_tag no_tag.
Proof. repeat split; try done. apply Forall_replicate. done. Qed.

Lemma relay_with_ok frames : Forall bytes frames -> Relay_ok (relay_with frames) [some_relayed].
Proof.
  intros B. split.
  - repeat (apply Forall_cons; split); try done; split; try done; by apply forallb_bytes.
  - done.
  - exact table_open_rep.
  - apply Forall_cons. split; [|done]. split; cbn; try lia; split; try done; by apply forallb_bytes.
  - apply Forall_fmap. apply (Forall_impl _ _ _ B). done.
Qed.

(** A session packet from the client, number 1, with two bytes of data. *)
Definition client_frame : list Z :=
  if_mac cli_if ++ some_cliMac ++ [0x88; 0x64; 0x11; 0; 0; 1; 0; 2; 0xc0; 0x21].

(** C21. The relay is memory safe and keeps its tables in shape whatever it
    receives: over any sequence of signals and [select] results it follows no
    bad pointer, leaves no buffer and every loop ends; whenever it waits again
    its tables represent a list of open sessions, and every frame it sent went
    out on one of its interfaces with that interface's address as the source.
    It ends only when a write fails, with status 1. *)
Theorem relayLoop_correct garbage garbage_tag garbage_size events s rs :
  wf_packet garbage -> wf_tag garbage_tag -> Relay_ok s rs ->
  wp (relayLoop garbage garbage_tag garbage_size events)
    (fun _ s' => exists fs rs', done_with s s' fs rs') (gave_up s) s.
Proof.
  intros Wg Wt. revert s rs. induction events as [|ev evs IH]; intros s rs OK; cbn [relayLoop].
  - exists [], rs. by apply done_nothing.
  - destruct ev; [|by apply (IH s rs)|by apply (IH s rs)|].
    + apply wp_seq; [by apply (wp_alarmHandler s rs)|]. intros s' rs' OK' _. by apply (IH s' rs').
    + apply wp_seq; [by apply (wp_relay_ready garbage garbage_tag garbage_size Wg Wt s rs)|].
      intros s' rs' OK' _. by apply (IH s' rs').
Qed.

Lemma relayLoop_correct_witness :
  wp (relayLoop no_packet no_tag 0 [EvReady [4]; EvAlarm])
    (fun _ s' => exists fs rs', done_with (relay_with [client_frame]) s' fs rs')
    (gave_up (relay_with [client_frame])) (relay_with [client_frame]) /\
  sent (final (relayLoop no_packet no_tag 0 [EvReady [4]; EvAlarm] (relay_with [client_frame]))) =
    [(6, some_acMac ++ if_mac ac_if ++ [0x88; 0x64; 0x11; 0; 0x34; 0x12; 0; 2; 0xc0; 0x21])].
Proof.
  split; [|vm_compute; reflexivity].
  apply (relayLoop_correct no_packet no_tag 0 _ _ [some_relayed] no_packet_wf no_tag_wf), relay_with_ok.
  apply Forall_cons. split; [by apply forallb_bytes|done].
Defined.



(** A PADI from a client, without tags. *)
Definition padi_frame : list Z := replicate 6 255 ++ some_cliMac ++ [0x88; 0x63; 0x11; 0x09; 0; 0; 0; 0].



(** C27. [cleanSessions] closes exactly the sessions idle for longer than the
    timeout, sending a PADT to both ends of each in the order of the list, and
    keeps the others in order; freeing a session does not disturb the walk. *)
Theorem cleanSessions_closes garbage garbage_tag s rs :
  wf_packet garbage -> wf_tag garbage_tag -> Relay_ok s rs ->
  wp (cleanSessions garbage garbage_tag)
    (fun _ s' => done_with s s'
       (concat (map (closing (Interfaces s)) (List.filter (idle (Epoch (tables s)) (IdleTimeout s)) rs)))
       (List.filter (fun r => negb (idle (Epoch (tables s)) (IdleTimeout s) r)) rs)) (gave_up s) s.
Proof. intros Wg Wt. by apply (wp_cleanSessions garbage garbage_tag Wg Wt). Qed.

(** The same relay seven hundred seconds later. *)
Definition relay_later : Relay := r_tables (t_Epoch 707 table_open) (relay_with []).

Lemma cleanSessions_closes_witness :
  wp (cleanSessions no_packet no_tag)
    (fun _ s' => done_with relay_later s'
       (concat (map (closing (Interfaces relay_later))
          (List.filter (idle (Epoch (tables relay_later)) (IdleTimeout relay_later)) [some_relayed])))
       (List.filter (fun r => negb (idle (Epoch (tables relay_later)) (IdleTimeout relay_later) r)) [some_relayed]))
    (gave_up relay_later) relay_later /\
  map fst (sent (final (cleanSessions no_packet no_tag relay_later))) = [5; 3].
Proof.
  split; [|vm_compute; reflexivity].
  apply (cleanSessions_closes no_packet no_tag relay_later [some_relayed] no_packet_wf no_tag_wf).
  destruct (relay_with_ok [] (Forall_nil_2 _)). split; try done. by apply epoch_rep.
Defined.

(** The target of a packet that carries the tag for interface [k], address
    [mac]. *)
Lemma relay_target_id ifs (here there : PPPoEInterface -> bool) iface i k o p ts1 mac ts2 :
  ifs !! iface = Some i -> here i = true -> NOT_UNICAST (h_source p) = false -> h_dest p = if_mac i ->
  (packet_tags p).1 = ts1 ++ relay_id k mac :: ts2 ->
  Forall (fun t : tag => t.1 <> TAG_RELAY_SESSION_ID) ts1 -> mac_ok mac -> zlen ifs <= MAX_INTERFACES ->
  ifs !! k = Some o -> there o = true -> iface <> k ->
  relay_target ifs here there iface p = Some (mkTarget ts1 (le32 (Z.of_nat k) ++ mac) k o).
Proof.
  intros Ei Hh Hu Hd Et H1 M Hn Eo Ht Dk. pose proof (lookup_lt_Some _ _ _ Eo) as Lk.
  unfold MAX_INTERFACES, zlen in Hn. destruct (bytes_relay_id k mac M) as [_ Ld].
  assert (F : list_find (fun t : tag => t.1 = TAG_RELAY_SESSION_ID) (packet_tags p).1 = Some (length ts1, relay_id k mac)).
  { apply list_find_Some. rewrite Et. split_and!; [by rewrite list_lookup_middle|done|].
    intros j t Hj Lj. rewrite lookup_app_l in Hj by done. rewrite Forall_forall in H1.
    apply H1. by eapply list_elem_of_lookup_2. }
  assert (I : s32 (un_le32 (take 4 (le32 (Z.of_nat k) ++ mac))) = Z.of_nat k).
  { change (take 4 (le32 (Z.of_nat k) ++ mac)) with (le32 (Z.of_nat k)). rewrite un_le32_le32 by lia.
    unfold s32. by rewrite u32_small, decide_True by lia. }
  unfold relay_target. rewrite Ei. cbn [mbind option_bind]. rewrite Hh, Hu, Hd. cbn [negb andb].
  unfold mac_eqb. rewrite bool_decide_eq_true_2 by done. rewrite F. cbn [mbind option_bind relay_id snd].
  rewrite decide_True by exact Ld. cbv zeta. rewrite I, decide_True, Nat2Z.id, Eo by lia. cbn [mbind option_bind].
  rewrite Ht, bool_decide_eq_true_2 by done. cbn [andb]. rewrite Et, take_app_length. done.
Qed.

(** C26. Relay tags lead back: an answer (PADO from a concentrator, PADR from a
    client) that carries the tag the relay made for interface [k] and address
    [mac] goes out exactly once, on [k], to [mac], and its tag is then the one
    for the interface it came on and its source, the other tags untouched. *)
Theorem relay_id_roundtrip garbage garbage_tag (padr : bool) s rs iface i k o p size ts1 mac ts2 :
  let here := if padr then clientOK else acOK in
  let there := if padr then acOK else clientOK in
  wf_packet garbage -> wf_tag garbage_tag -> Relay_ok s rs -> arrived p size ->
  Interfaces s !! iface = Some i -> here i = true -> NOT_UNICAST (h_source p) = false ->
  h_dest p = if_mac i -> (packet_tags p).1 = ts1 ++ relay_id k mac :: ts2 ->
  Forall (fun t : tag => t.1 <> TAG_RELAY_SESSION_ID) ts1 -> mac_ok mac ->
  Interfaces s !! k = Some o -> there o = true -> iface <> k ->
  wp ((if padr then relayHandlePADR else relayHandlePADO) garbage_tag iface p size)
    (fun _ s' => exists after, body p = encode ts1 ++ encode_tag (relay_id k mac) ++ after /\
       done_with s s' [(discoverySock o,
         frame_with (set_source (if_mac o) (set_dest mac p))
           (encode ts1 ++ encode_tag (relay_id iface (h_source p)) ++ after))] rs) (gave_up s) s.
Proof.
  intros here there Wg Wt OK A Ei Hh Hu Hd Et H1 M Eo Ht Dk.
  pose proof (relay_target_id _ here there _ _ _ _ _ _ _ _ Ei Hh Hu Hd Et H1 M (ok_nifs _ _ OK) Eo Ht Dk) as T.
  pose proof (ar_wf _ _ A) as W. pose proof (ar_max _ _ A) as Hmax. pose proof (ar_size _ _ A) as Hsz.
  assert (Hlen : ntohs (p_length p) <= ETH_DATA_LEN)
    by (unfold sizeof_PPPoEPacket, HDR_SIZE, PPPOE_OVERHEAD, ETH_DATA_LEN in *; lia).
  destruct (target_body _ _ _ _ _ _ W Hlen T) as (Eb & _ & _).
  assert (X : wp ((if padr then relayHandlePADR else relayHandlePADO) garbage_tag iface p size)
    (fun _ s' => done_with s s' (crossing (relay_target (Interfaces s) here there iface p) iface p) rs) (gave_up s) s).
  { destruct padr; [by eapply (wp_relayHandlePADR garbage)|by eapply (wp_relayHandlePADO garbage)]. }
  rewrite T in X. eapply wp_mono; [exact X| |done]. intros [] s' D. eexists. split; [exact Eb|exact D].
Qed.

(** A PADO for the client of [padi_frame]. *)
Definition pado_packet : PPPoEPacket :=
  packet_of_bytes (if_mac ac_if ++ some_acMac ++ [0x88; 0x63; 0x11; 0x07; 0; 0; 0; 14] ++
    encode_tag (relay_id 0 some_cliMac) ++ replicate 1486 0).

Lemma relay_id_roundtrip_witness :
  wp (relayHandlePADO no_tag 1 pado_packet 34)
    (fun _ s' => exists after, body pado_packet = encode [] ++ encode_tag (relay_id 0 some_cliMac) ++ after /\
       done_with (relay_with []) s' [(discoverySock cli_if,
         frame_with (set_source (if_mac cli_if) (set_dest some_cliMac pado_packet))
           (encode [] ++ encode_tag (relay_id 1 (h_source pado_packet)) ++ after))] [some_relayed])
    (gave_up (relay_with [])) (relay_with []).
Proof.
  apply (relay_id_roundtrip no_packet no_tag false (relay_with []) [some_relayed] 1 ac_if 0 cli_if pado_packet 34
    [] some_cliMac []); try done.
  - apply no_packet_wf.
  - apply no_tag_wf.
  - by apply relay_with_ok.
  - split; try done. apply wf_packetb_ok. vm_compute. reflexivity.
  - split; [done|by apply forallb_bytes].
Defined.
