(* ===== verification/RelayMain.v ===== *)
(** * RelayMain: starting the relay (relay.c)

    Option processing, [addInterface], the set-up of tables, pipe and signals,
    and the daemon's closing of descriptors, up to the entry of [relayLoop]. *)

From stdpp Require Import base list numbers strings gmap.
From S2P Require Import Prelude Wire Tags Link LinkedList RelayTable Relay RelaySafety.
Open Scope Z_scope.

Definition MIN_CLEAN_PERIOD : Z := 30.
Definition TIMEOUT_DIVISOR : Z := 20.
Definition CLOSEFD : Z := 64.
Definition IFNAMSIZ : nat := 16.

(** ** State before the loop *)

(** What [getopt] delivers.  The argument of [-i] and [-n] is what [sscanf]
    reads, [None] when it reads no number. *)
Inductive relay_opt :=
| Opt_h | Opt_F
| Opt_C (ifname : list Z) | Opt_S (ifname : list Z) | Opt_B (ifname : list Z)
| Opt_i (arg : option Z) | Opt_n (arg : option Z)
| Opt_unknown.

(** What [openInterface] finds: a socket and the hardware address, or an error
    (it prints a message and exits). *)
Inductive open_result := OpenOk (fd : Z) (hwaddr : list Z) | OpenFail.

(** [opens] and [calls] hold what the next [openInterface] calls find and what
    the next calls of [pipe], [sigaction] and [fork] return; [pipe_fd] are the
    descriptors of [CleanPipe]; [closed] the descriptors closed. *)
Record Setup := mkSetup {
  ifs : list PPPoEInterface;
  idleTimeout : Z;
  cleanPeriod : Z;
  nsess : Z;
  beDaemon : bool;
  opens : list open_result;
  calls : list Z;
  pipe_fd : Z * Z;
  closed : list Z
}.

Definition u_ifs v s := mkSetup v (idleTimeout s) (cleanPeriod s) (nsess s) (beDaemon s) (opens s)
  (calls s) (pipe_fd s) (closed s).
Definition u_idle t p s := mkSetup (ifs s) t p (nsess s) (beDaemon s) (opens s) (calls s) (pipe_fd s) (closed s).
Definition u_nsess v s := mkSetup (ifs s) (idleTimeout s) (cleanPeriod s) v (beDaemon s) (opens s)
  (calls s) (pipe_fd s) (closed s).
Definition u_daemon v s := mkSetup (ifs s) (idleTimeout s) (cleanPeriod s) (nsess s) v (opens s)
  (calls s) (pipe_fd s) (closed s).
Definition u_opens v s := mkSetup (ifs s) (idleTimeout s) (cleanPeriod s) (nsess s) (beDaemon s) v
  (calls s) (pipe_fd s) (closed s).
Definition u_calls v s := mkSetup (ifs s) (idleTimeout s) (cleanPeriod s) (nsess s) (beDaemon s)
  (opens s) v (pipe_fd s) (closed s).
Definition u_closed v s := mkSetup (ifs s) (idleTimeout s) (cleanPeriod s) (nsess s) (beDaemon s)
  (opens s) (calls s) (pipe_fd s) v.

(** ** The code *)

(** The raw-socket [openInterface]: an error, or a broadcast or multicast
    hardware address when it was asked for, is fatal. *)
Definition openInterface_raw (want_mac : bool) : Cmd Setup (Z * list Z) :=
  let! s := get in
  match opens s with
  | [] => halt Blocked
  | OpenFail :: os => do! modify (u_opens os) ;; exit 1
  | OpenOk fd mac :: os =>
      do! modify (u_opens os) ;;
      if want_mac && NOT_UNICAST mac then exit 1 else ret (fd, mac)
  end.

Definition addInterface (ifname : list Z) (client ac : bool) : Cmd Setup unit :=
  let! s := get in
  if decide (zlen (ifs s) >= MAX_INTERFACES) then exit 1 else
  let! (dsock, mac) := openInterface_raw true in
  let! (ssock, _) := openInterface_raw false in
  modify (fun s => u_ifs (ifs s ++ [mkInterface (take IFNAMSIZ ifname) dsock ssock client ac mac]) s).

Definition usage {A} : Cmd Setup A := exit 0.

Definition get_option (o : relay_opt) : Cmd Setup unit :=
  match o with
  | Opt_h => usage
  | Opt_F => modify (u_daemon false)
  | Opt_C n => addInterface n true false
  | Opt_S n => addInterface n false true
  | Opt_B n => addInterface n true true
  | Opt_i None => exit 1
  | Opt_i (Some t) =>
      let p := u32 t / TIMEOUT_DIVISOR in
      modify (u_idle (u32 t) (if decide (p < MIN_CLEAN_PERIOD) then MIN_CLEAN_PERIOD else p))
  | Opt_n None => exit 1
  | Opt_n (Some n) => if decide (n < 1 \/ n > 65534) then exit 1 else modify (u_nsess n)
  | Opt_unknown => usage
  end.

Fixpoint get_options (os : list relay_opt) : Cmd Setup unit :=
  match os with
  | [] => ret tt
  | o :: os => do! get_option o ;; get_options os
  end.

Definition syscall : Cmd Setup Z := fun s =>
  match calls s with
  | [] => Stop Blocked s
  | r :: rs => Ok r (u_calls rs s)
  end.

Definition keepDescriptor (s : Setup) (fd : Z) : bool :=
  (fd =? (pipe_fd s).1) || (fd =? (pipe_fd s).2) ||
  existsb (fun i => (fd =? discoverySock i) || (fd =? sessionSock i)) (ifs s).

(** [fork] twice, then close everything but the relay's own descriptors. *)
Definition daemonize : Cmd Setup unit :=
  let! i := syscall in
  if decide (i < 0) then exit 1 else if decide (i <> 0) then exit 0 else
  let! i := syscall in
  if decide (i < 0) then exit 1 else if decide (i <> 0) then exit 0 else
  modify (fun s => u_closed (List.filter (fun fd => negb (keepDescriptor s fd)) (seqZ 0 CLOSEFD)) s).

(** The relay at the entry of [relayLoop]; [rd] is what it will receive. *)
Definition main (os : list relay_opt) (rd : Link) (wr : list bool) : Cmd Setup Relay :=
  do! get_options os ;;
  let! s := get in
  if decide (zlen (ifs s) < 2) then exit 1 else
  let! r := syscall in
  if decide (r < 0) then exit 1 else
  let! r := syscall in
  if decide (r < 0) then exit 1 else
  do! (if beDaemon s then daemonize else ret tt) ;;
  ret (mkRelay (ifs s) (initRelay (Z.to_nat (nsess s)) 0) 0 (cleanPeriod s) (idleTimeout s) 0
         (pipe_fd s).1 rd wr []).

(** The initial values of the globals. *)
Definition setup0 (op : list open_result) (ca : list Z) (fds : Z * Z) : Setup :=
  mkSetup [] (MIN_CLEAN_PERIOD * TIMEOUT_DIVISOR) MIN_CLEAN_PERIOD DEFAULT_SESSIONS true op ca fds [].

(** ** Proof *)

Definition open_ok (o : open_result) : Prop :=
  match o with OpenOk _ m => mac_ok m | OpenFail => True end.

(** What holds while the options are read. *)
Record setup_ok (s : Setup) : Prop := {
  so_macs : Forall (fun i => mac_ok (if_mac i)) (ifs s);
  so_uni : Forall (fun i => NOT_UNICAST (if_mac i) = false) (ifs s);
  so_num : zlen (ifs s) <= MAX_INTERFACES;
  so_sess : 1 <= nsess s <= 65534;
  so_idle : 0 <= idleTimeout s < 2 ^ 32;
  so_period : MIN_CLEAN_PERIOD <= cleanPeriod s;
  so_opens : Forall open_ok (opens s);
  so_closed : closed s = []
}.

Lemma wp_openInterface_raw want s (Q : Z * list Z -> Setup -> Prop) :
  setup_ok s ->
  (forall fd m os, mac_ok m -> (want = true -> NOT_UNICAST m = false) -> Forall open_ok os -> Q (fd, m) (u_opens os s)) ->
  wp (openInterface_raw want) Q (fun c _ => c = 0 \/ c = 1) s.
Proof.
  intros O H. unfold openInterface_raw. apply wp_get_bind. pose proof (so_opens _ O) as Ho.
  destruct (opens s) as [|[fd m|] os]; [done| |right; done].
  apply Forall_cons in Ho as [Hm Ho]. apply wp_modify_bind.
  destruct (want && NOT_UNICAST m) eqn:E; [by right|]. apply wp_ret, H; [done| |done].
  intros ->. by destruct (NOT_UNICAST m).
Qed.

Lemma wp_addInterface n c a s : setup_ok s ->
  wp (addInterface n c a) (fun _ s' => setup_ok s') (fun c _ => c = 0 \/ c = 1) s.
Proof.
  intros O. unfold addInterface. apply wp_get_bind. case_decide as D; [by right|]. apply wp_bind.
  apply wp_openInterface_raw; [done|]. intros fd m os Hm Hu Ho. apply wp_bind.
  apply wp_openInterface_raw; [destruct O; by split|]. intros fd2 m2 os2 _ _ Ho2. apply wp_modify.
  destruct O. split; try done; cbn.
  - apply Forall_app. by split; [|constructor].
  - apply Forall_app. split; [done|]. constructor; [by apply Hu|done].
  - rewrite zlen_app. change (zlen [_]) with 1. unfold MAX_INTERFACES in *. lia.
Qed.

Lemma wp_get_option o s : setup_ok s ->
  wp (get_option o) (fun _ s' => setup_ok s') (fun c _ => c = 0 \/ c = 1) s.
Proof.
  intros O. destruct o as [| |n|n|n|[t|]|[n|]|]; cbn [get_option];
    try (by left); try (by right); try (by apply wp_addInterface).
  - apply wp_modify. destruct O. by split.
  - apply wp_modify. destruct O. split; try done; cbn; [apply u32_range|]. case_decide; lia.
  - case_decide; [by right|]. apply wp_modify. destruct O. split; try done. cbn. lia.
Qed.

Lemma wp_get_options os : forall s, setup_ok s ->
  wp (get_options os) (fun _ s' => setup_ok s') (fun c _ => c = 0 \/ c = 1) s.
Proof.
  induction os as [|o os IH]; intros s O; cbn [get_options]; [done|]. apply wp_bind.
  eapply wp_mono; [by apply wp_get_option| |done]. intros [] s' O'. by apply IH.
Qed.

Lemma keep_closed s : forall fd, fd ∈ List.filter (fun fd => negb (keepDescriptor s fd)) (seqZ 0 CLOSEFD) ->
  keepDescriptor s fd = false.
Proof. intros fd Hfd. apply list_elem_of_In, filter_In in Hfd as [_ H]. by destruct (keepDescriptor s fd). Qed.

(** What the relay needs of a descriptor it closed: it was none of its own. *)
Definition not_own (r : Relay) (fd : Z) : Prop :=
  fd <> cleanFd r /\ Forall (fun i => fd <> discoverySock i /\ fd <> sessionSock i) (Interfaces r).

Lemma not_kept s fd : keepDescriptor s fd = false ->
  fd <> (pipe_fd s).1 /\ Forall (fun i => fd <> discoverySock i /\ fd <> sessionSock i) (ifs s).
Proof.
  unfold keepDescriptor. rewrite !orb_false_iff. intros [[H1 H2] H3]. split; [lia|].
  apply Forall_forall. intros i Hi. apply not_true_iff_false in H3.
  destruct (decide (fd = discoverySock i \/ fd = sessionSock i)) as [D|D]; [|lia].
  exfalso. apply H3, existsb_exists. exists i. split; [by apply list_elem_of_In|]. apply orb_true_iff. lia.
Qed.

Lemma wp_daemonize s : closed s = [] ->
  wp daemonize (fun _ s' => ifs s' = ifs s /\ pipe_fd s' = pipe_fd s /\
    forall fd, fd ∈ closed s' -> keepDescriptor s fd = false) (fun c _ => c = 0 \/ c = 1) s.
Proof.
  intros C. unfold daemonize, wp, bind, syscall. destruct (calls s) as [|i [|j rs]] eqn:Ec; [done| |].
  - case_decide; [by right|]. case_decide; [by left|]. cbn. done.
  - case_decide; [by right|]. case_decide; [by left|]. cbn. case_decide; [by right|]. case_decide; [by left|].
    cbn. split_and!; try done. intros fd Hfd. by apply (keep_closed s).
Qed.

(** ** Theorem *)

(** C35. The relay starts well: when its options are accepted it enters the loop
    with two to eight interfaces under their own unicast addresses, empty
    tables for 1 to 65534 sessions, a cleaning period of at least 30 seconds,
    and none of the descriptors it needs closed; otherwise it exits with
    status 0 or 1. *)
Theorem main_starts os op ca fds rd wr :
  Forall open_ok op -> Forall read_bytes (reads rd) ->
  wp (main os rd wr)
    (fun r s => Relay_ok r [] /\ 2 <= zlen (Interfaces r) <= MAX_INTERFACES /\
       Forall (fun i => NOT_UNICAST (if_mac i) = false) (Interfaces r) /\
       1 <= MaxSessions (tables r) <= 65534 /\ MIN_CLEAN_PERIOD <= CleanPeriod r /\
       Forall (not_own r) (closed s))
    (fun c _ => c = 0 \/ c = 1) (setup0 op ca fds).
Proof.
  intros Ho Hr. unfold main. apply wp_bind.
  assert (O0 : setup_ok (setup0 op ca fds)) by (constructor; cbn; try done; try (split; done); constructor).
  eapply wp_mono; [by apply wp_get_options| |done]. intros [] s O. apply wp_get_bind.
  case_decide as D; [by right|]. apply wp_bind. unfold syscall at 1. unfold wp at 1.
  destruct (calls s) as [|r1 [|r2 rs]] eqn:Ec; [done| |].
  { case_decide; [by right|]. cbn. done. }
  case_decide; [by right|]. apply wp_bind. unfold syscall at 1, wp at 1. cbn [calls u_calls].
  case_decide; [by right|]. cbn [u_calls]. set (s1 := u_calls rs (u_calls (r2 :: rs) s)).
  set (r := mkRelay _ _ _ _ _ _ _ _ _ _).
  assert (OK : Relay_ok r [] /\ 2 <= zlen (Interfaces r) <= MAX_INTERFACES /\
    Forall (fun i => NOT_UNICAST (if_mac i) = false) (Interfaces r) /\
    1 <= MaxSessions (tables r) <= 65534 /\ MIN_CLEAN_PERIOD <= CleanPeriod r).
  { destruct O. split_and!; cbn; try lia; try done. split; try done; cbn. apply initRelay_rep; lia. }
  destruct OK as (OK1 & OK2 & OK3 & OK4 & OK5).
  apply wp_bind. destruct (beDaemon s).
  - eapply wp_mono; [apply (wp_daemonize s1); apply O| |done]. intros [] s2 (I2 & P2 & C2). apply wp_ret.
    split_and!; try done; try lia. apply Forall_forall. intros fd Hfd. apply C2, not_kept in Hfd as [H1 H2]. by split.
  - apply wp_ret, wp_ret. split_and!; try done; try lia. cbn. rewrite (so_closed _ O). constructor.
Qed.

Lemma main_starts_witness :
  let op := [OpenOk 3 [2; 0; 0; 0; 1; 0]; OpenOk 4 [0; 0; 0; 0; 0; 0];
             OpenOk 5 [2; 0; 0; 0; 1; 1]; OpenOk 6 [0; 0; 0; 0; 0; 0]] in
  let os := [Opt_C (str "eth0"); Opt_S (str "eth1"); Opt_n (Some 2)] in
  let m := main os (mkLink [] 0 0 []) [] in
  wp m
    (fun r s => Relay_ok r [] /\ 2 <= zlen (Interfaces r) <= MAX_INTERFACES /\
       Forall (fun i => NOT_UNICAST (if_mac i) = false) (Interfaces r) /\
       1 <= MaxSessions (tables r) <= 65534 /\ MIN_CLEAN_PERIOD <= CleanPeriod r /\
       Forall (not_own r) (closed s))
    (fun c _ => c = 0 \/ c = 1) (setup0 op [0; 0; 0; 0] (7, 8)) /\
  match m (setup0 op [0; 0; 0; 0] (7, 8)) with
  | Ok r s => length (Interfaces r) = 2%nat /\ length (closed s) = 58%nat
  | _ => False
  end.
Proof.
  split; [|vm_compute; done].
  apply main_starts; [|done].
  repeat (apply Forall_cons; split); try done; split; try done; by apply forallb_bytes.
Defined.
