(* ===== verification/Server.v ===== *)
(** * Server: the PPPoE access concentrator (pppoe-server.c)

    The server answers PADI with a PADO that carries a cookie, and a PADR that
    returns the cookie by forking a child which sends the PADS and becomes
    pppd; the parent keeps a table of sessions, one slot per child, frees the
    slot when the child is reaped and kills the child on PADT.  This is the
    raw-socket build.  A pointer into [Sessions] is its index. *)

From stdpp Require Import base list numbers strings gmap.
From S2P Require Import Prelude Wire Tags Build Link Md5.
Open Scope Z_scope.

(** ** State *)

Definition SEED_LEN : Z := 16.
Definition MD5_LEN : Z := 16.
Definition COOKIE_LEN : Z := MD5_LEN + 4.
Definition SMALLBUF : Z := 256.

Record ClientSession := mkClient { pid : Z; ip : list Z; sess : Z; eth : list Z }.

Definition set_pid v c := mkClient v (ip c) (sess c) (eth c).
Definition set_eth v c := mkClient (pid c) (ip c) (sess c) v.

(** What is settled before the main loop: the globals the options set, the
    socket and its address, the process id, and the paths the build fixes. *)
Record Config := mkConfig {
  SessOffset : Z;
  Synchronous : bool;
  UseLinuxKernelModePPPoE : bool;
  CookieSeed : list Z;
  IfName : list Z;
  ACName : list Z;
  PppoeOptions : list Z;
  LocalIP : list Z;
  Eth_Discovery : Z;
  sv_sock : Z;
  myAddr : list Z;
  getpid : Z;
  PPPD_PATH : list Z;
  PPPOE_PATH : list Z;
  PLUGIN_PATH : list Z;
  PPPOE_SERVER_OPTIONS : list Z
}.

(** What the process does to the outside. *)
Inductive act :=
| SvSend (sock : Z) (data : list Z)
| SvKill (pid : Z)
| SvExec (path : list Z) (argv : list (list Z)).

(** [NumSessionSlots] is the length of [Sessions].  [pipeBytes] counts the
    bytes in [Pipe].  [sv_rx], [sv_writes], [forks], [waits] and [execs] hold
    what the next calls of [recv], [send], [fork], [waitpid] and [execv] give;
    an exhausted [sv_writes] stands for success, an exhausted [forks] for failure,
    an exhausted [waits] for "no child has exited", an exhausted [execs] for
    success. *)
Record Server := mkServer {
  Sessions : list ClientSession;
  hostUniq : PPPoETag;
  relayId : PPPoETag;
  receivedCookie : PPPoETag;
  requestedService : PPPoETag;
  ReapPending : bool;
  pipeBytes : Z;
  sv_rx : Link;
  sv_writes : list bool;
  forks : list Z;
  waits : list Z;
  execs : list bool;
  acts : list act
}.

Definition v_Sessions v s := mkServer v (hostUniq s) (relayId s) (receivedCookie s)
  (requestedService s) (ReapPending s) (pipeBytes s) (sv_rx s) (sv_writes s) (forks s) (waits s)
  (execs s) (acts s).
Definition v_hostUniq v s := mkServer (Sessions s) v (relayId s) (receivedCookie s)
  (requestedService s) (ReapPending s) (pipeBytes s) (sv_rx s) (sv_writes s) (forks s) (waits s)
  (execs s) (acts s).
Definition v_relayId v s := mkServer (Sessions s) (hostUniq s) v (receivedCookie s)
  (requestedService s) (ReapPending s) (pipeBytes s) (sv_rx s) (sv_writes s) (forks s) (waits s)
  (execs s) (acts s).
Definition v_receivedCookie v s := mkServer (Sessions s) (hostUniq s) (relayId s) v
  (requestedService s) (ReapPending s) (pipeBytes s) (sv_rx s) (sv_writes s) (forks s) (waits s)
  (execs s) (acts s).
Definition v_requestedService v s := mkServer (Sessions s) (hostUniq s) (relayId s)
  (receivedCookie s) v (ReapPending s) (pipeBytes s) (sv_rx s) (sv_writes s) (forks s) (waits s)
  (execs s) (acts s).
Definition v_reap p n s := mkServer (Sessions s) (hostUniq s) (relayId s) (receivedCookie s)
  (requestedService s) p n (sv_rx s) (sv_writes s) (forks s) (waits s) (execs s) (acts s).
Definition v_rx v s := mkServer (Sessions s) (hostUniq s) (relayId s) (receivedCookie s)
  (requestedService s) (ReapPending s) (pipeBytes s) v (sv_writes s) (forks s) (waits s)
  (execs s) (acts s).
Definition v_writes v s := mkServer (Sessions s) (hostUniq s) (relayId s) (receivedCookie s)
  (requestedService s) (ReapPending s) (pipeBytes s) (sv_rx s) v (forks s) (waits s)
  (execs s) (acts s).
Definition v_forks v s := mkServer (Sessions s) (hostUniq s) (relayId s) (receivedCookie s)
  (requestedService s) (ReapPending s) (pipeBytes s) (sv_rx s) (sv_writes s) v (waits s)
  (execs s) (acts s).
Definition v_waits v s := mkServer (Sessions s) (hostUniq s) (relayId s) (receivedCookie s)
  (requestedService s) (ReapPending s) (pipeBytes s) (sv_rx s) (sv_writes s) (forks s) v
  (execs s) (acts s).
Definition v_execs v s := mkServer (Sessions s) (hostUniq s) (relayId s) (receivedCookie s)
  (requestedService s) (ReapPending s) (pipeBytes s) (sv_rx s) (sv_writes s) (forks s) (waits s)
  v (acts s).
Definition v_acts v s := mkServer (Sessions s) (hostUniq s) (relayId s) (receivedCookie s)
  (requestedService s) (ReapPending s) (pipeBytes s) (sv_rx s) (sv_writes s) (forks s) (waits s)
  (execs s) v.

Definition NumSessionSlots (s : Server) : Z := zlen (Sessions s).

(** ** System calls *)

Definition act_out (a : act) : Cmd Server unit := modify (fun s => v_acts (acts s ++ [a]) s).

Definition receive (pkt : PPPoEPacket) (size : Z) : Cmd Server received := fun s =>
  match receivePacket_raw pkt size (sv_rx s) with
  | Ok a l => Ok a (v_rx l s)
  | Exit c l => Exit c (v_rx l s)
  | Stop y l => Stop y (v_rx l s)
  end.

Definition fork : Cmd Server Z := fun s =>
  Ok (hd (-1) (forks s)) (v_forks (tail (forks s)) s).

(** [waitpid(-1, &status, WNOHANG)]. *)
Definition waitpid : Cmd Server Z := fun s =>
  match waits s with
  | [] => Ok 0 s
  | r :: rs => Ok r (v_waits rs s)
  end.

(** The status with which a process that has become another program leaves
    this one; no [exit] of the server uses it. *)
Definition IMAGE_REPLACED : Z := -1.

Definition execv (path : list Z) (argv : list (list Z)) : Cmd Server unit :=
  let! s := get in
  match execs s with
  | false :: es => modify (v_execs es)
  | _ => do! modify (v_execs (tail (execs s))) ;;
         do! act_out (SvExec path argv) ;;
         exit IMAGE_REPLACED
  end.

(** pppoe-server.c's [fatalSys] prints and exits. *)
Definition fatalSys {A} : Cmd Server A := exit 1.

Definition sendPacket (sock : Z) (pkt : PPPoEPacket) (size : Z) : Cmd Server unit :=
  chk! data := frame pkt size in
  let! s := get in
  match sv_writes s with
  | false :: ws => do! modify (v_writes ws) ;; fatalSys
  | true :: ws => do! modify (v_writes ws) ;; act_out (SvSend sock data)
  | [] => act_out (SvSend sock data)
  end.

(** ** Tag callbacks *)

Definition parsePADITags : ParseFunc Server := fun type len data =>
  let! s := get in
  if decide (type = TAG_SERVICE_NAME) then ret tt
  else if decide (type = TAG_RELAY_SESSION_ID) then
    chk! t := fill_tag (relayId s) type len data in modify (v_relayId t)
  else if decide (type = TAG_HOST_UNIQ) then
    chk! t := fill_tag (hostUniq s) type len data in modify (v_hostUniq t)
  else ret tt.

Definition parsePADRTags : ParseFunc Server := fun type len data =>
  let! s := get in
  if decide (type = TAG_RELAY_SESSION_ID) then
    chk! t := fill_tag (relayId s) type len data in modify (v_relayId t)
  else if decide (type = TAG_HOST_UNIQ) then
    chk! t := fill_tag (hostUniq s) type len data in modify (v_hostUniq t)
  else if decide (type = TAG_AC_COOKIE) then
    chk! t := fill_tag (receivedCookie s) type len data in modify (v_receivedCookie t)
  else if decide (type = TAG_SERVICE_NAME) then
    chk! t := fill_tag (requestedService s) type len data in modify (v_requestedService t)
  else ret tt.

(** ** The session table *)

(** [for (i=0; i<NumSessionSlots; i++) if (Sessions[i].pid == pid) ...]. *)
Fixpoint find_pid (p : Z) (i : nat) (ss : list ClientSession) : option nat :=
  match ss with
  | [] => None
  | c :: ss => if decide (pid c = p) then Some i else find_pid p (S i) ss
  end.

Definition findSession (p : Z) (s : Server) : option nat := find_pid p 0 (Sessions s).

(** [while((pid = waitpid(...)) > 0) ...]; each turn uses up a result. *)
Fixpoint reap_loop (fuel : nat) : Cmd Server unit :=
  match fuel with
  | O => halt OutOfFuel
  | S fuel =>
    let! p := waitpid in
    if decide (p > 0) then
      let! s := get in
      do! match findSession p s with
          | None => ret tt
          | Some k => modify (v_Sessions (alter (set_pid 0) k (Sessions s)))
          end ;;
      reap_loop fuel
    else ret tt
  end.

Definition reapSessions : Cmd Server unit :=
  let! s := get in reap_loop (S (length (waits s))).

(** Called on SIGCHLD. *)
Definition childHandler : Cmd Server unit :=
  let! s := get in
  if ReapPending s then ret tt else modify (v_reap true (pipeBytes s + 1)).

(** ** Starting pppd *)

Definition hex2 (b : Z) : list Z := [digit (b / 16); digit (b mod 16)].

(** [snprintf] keeps [n - 1] characters. *)
Definition snprintf (n : Z) (text : list Z) : list Z := take (Z.to_nat (n - 1)) text.

Definition joined (sep : Z) (parts : list (list Z)) : list Z :=
  match parts with
  | [] => []
  | p :: ps => p ++ concat (map (fun q => sep :: q) ps)
  end.

Definition COLON : Z := 58.
Definition DOT : Z := 46.

(** ["%d:%02x:%02x:%02x:%02x:%02x:%02x"]: session number and peer. *)
Definition session_text (c : ClientSession) : list Z :=
  joined COLON (dec (ntohs (sess c)) :: map hex2 (eth c)).

(** ["%d.%d.%d.%d:%d.%d.%d.%d"]: local and remote address. *)
Definition address_text (local remote : list Z) : list Z :=
  joined DOT (map dec local) ++ [COLON] ++ joined DOT (map dec remote).

Definition pppd_options : list (list Z) :=
  map str ["nodetach"; "noaccomp"; "nobsdcomp"; "nodeflate"; "nopcomp"; "novj"; "novjccomp";
           "default-asyncmap"].

Section Handlers.

(** The configuration, and the contents of uninitialised locals. *)
Context (cfg : Config) (garbage : PPPoEPacket) (garbage_tag : PPPoETag) (garbage_ctx : MD5Context).

Definition startPPPDUserMode (session : ClientSession) : Cmd Server unit :=
  let buffer := snprintf SMALLBUF (PPPOE_PATH cfg ++ str " -I " ++ IfName cfg ++ str " -e " ++
                                   session_text session ++ PppoeOptions cfg) in
  let addresses := snprintf SMALLBUF (address_text (LocalIP cfg) (ip session)) in
  do! execv (PPPD_PATH cfg)
        ([str "pppd"; str "pty"; buffer; str "file"; PPPOE_SERVER_OPTIONS cfg; addresses] ++
         pppd_options ++ (if Synchronous cfg then [str "sync"] else [])) ;;
  exit 1.

Definition startPPPDLinuxKernelMode (session : ClientSession) : Cmd Server unit :=
  let buffer := snprintf SMALLBUF (session_text session) in
  let addresses := snprintf SMALLBUF (address_text (LocalIP cfg) (ip session)) in
  do! execv (PPPD_PATH cfg)
        ([str "pppd"; str "plugin"; PLUGIN_PATH cfg; IfName cfg; str "rp_pppoe_sess"; buffer;
          str "file"; PPPOE_SERVER_OPTIONS cfg; addresses] ++ pppd_options) ;;
  exit 1.

Definition startPPPD (session : ClientSession) : Cmd Server unit :=
  if UseLinuxKernelModePPPoE cfg then startPPPDLinuxKernelMode session
  else startPPPDUserMode session.

(** ** Discovery packets *)

(** The 20 bytes written to [cookie]. *)
Definition genCookie (peerEthAddr : list Z) : option (list Z) :=
  md5 garbage_ctx [peerEthAddr; myAddr cfg; CookieSeed cfg] ≫= fun digest =>
  Some (digest ++ le32 (getpid cfg)).

(** [servname.type = htons(TAG_SERVICE_NAME); servname.length = 0]. *)
Definition servname : PPPoETag := mkTag (htons TAG_SERVICE_NAME) 0 (t_payload garbage_tag).

(** The copy of a stored tag without [CHECK_ROOM]. *)
Definition unchecked_block (t : PPPoETag) : block := mkBlock (has_tag t) false (Some t) (tag_room t).

Definition clear_type (t : PPPoETag) : PPPoETag := mkTag 0 (t_length t) (t_payload t).

(** Sending the packet under construction, [pkt.length = htons(plen)]. *)
Definition send_built (packet : PPPoEPacket) (b : building) : Cmd Server unit :=
  let '(payload, _, plen) := b in
  sendPacket (sv_sock cfg) (set_length (htons plen) (set_payload payload packet)) (plen + HDR_SIZE).

Definition processPADI (packet : PPPoEPacket) (len : Z) : Cmd Server unit :=
  if NOT_UNICAST (h_source packet) then ret tt else
  let acname_len := zlen (ACName cfg) in
  chk! acname := fill_tag garbage_tag TAG_AC_NAME acname_len (ACName cfg) in
  do! modify (fun s => v_relayId (clear_type (relayId s)) s) ;;
  do! modify (fun s => v_hostUniq (clear_type (hostUniq s)) s) ;;
  do! parsePacket packet parsePADITags ;;
  chk! c := genCookie (h_source packet) in
  chk! cookie := fill_tag garbage_tag TAG_AC_COOKIE COOKIE_LEN c in
  let pado := start_packet (h_source packet) (myAddr cfg) (htons (Eth_Discovery cfg))
                CODE_PADO 0 garbage in
  let! s := get in
  put_tags [mkBlock true true (Some acname) (acname_len + TAG_HDR_SIZE);
            mkBlock true true (Some servname) TAG_HDR_SIZE;
            mkBlock true true (Some cookie) (TAG_HDR_SIZE + COOKIE_LEN);
            stored_block (relayId s); stored_block (hostUniq s)]
    (p_payload pado, 0, 0) (send_built pado).

(** [parsePacket(packet, parseLogErrs, NULL)]. *)
Definition log_errors (packet : PPPoEPacket) : Cmd Server unit := fun s =>
  match parsePacket packet parseLogErrs [] with
  | Ok _ _ => Ok tt s
  | Exit c _ => Exit c s
  | Stop y _ => Stop y s
  end.

Definition processPADT (packet : PPPoEPacket) (len : Z) : Cmd Server unit :=
  if negb (mac_eqb (h_dest packet) (myAddr cfg)) then ret tt else
  let! s := get in
  let i := u32 (ntohs (p_session packet) - 1 - SessOffset cfg) in
  if decide (i >= NumSessionSlots s) then ret tt else
  chk! c := rd (Sessions s) i in
  if decide (sess c <> p_session packet) then ret tt
  else if decide (pid c <> 0) then
    do! log_errors packet ;;
    act_out (SvKill (pid c))
  else ret tt.

Definition sendErrorPADS (dest : list Z) (errorTag : Z) (errorMsg : list Z) : Cmd Server unit :=
  let elen := zlen errorMsg in
  let pads := start_packet dest (myAddr cfg) (htons (Eth_Discovery cfg)) CODE_PADS (htons 0) garbage in
  chk! err := fill_tag garbage_tag errorTag elen errorMsg in
  let! s := get in
  put_tags [mkBlock true false (Some err) (TAG_HDR_SIZE + elen);
            unchecked_block (relayId s); unchecked_block (hostUniq s)]
    (p_payload pads, 0, 0) (send_built pads).

Definition no_service_msg : list Z := str "RP-PPPoE: Server: No service name tag".
Definition bad_service_msg : list Z := str "RP-PPPoE: Server: Invalid service name tag".
Definition no_slot_msg : list Z := str "RP-PPPoE: Server: No client slots available".
Definition no_process_msg : list Z := str "RP-PPPoE: Server: Unable to start session process".

(** The child's half of [processPADR]. *)
Definition padr_child (packet : PPPoEPacket) (k : nat) : Cmd Server unit :=
  let! s := get in
  chk! cliSession := Sessions s !! k in
  let pads := start_packet (h_source packet) (myAddr cfg) (htons (Eth_Discovery cfg))
                CODE_PADS (sess cliSession) garbage in
  do! put_tags [mkBlock true false (Some servname) TAG_HDR_SIZE;
                unchecked_block (relayId s); unchecked_block (hostUniq s)]
        (p_payload pads, 0, 0) (send_built pads) ;;
  startPPPD cliSession.

(** [processPADR] once the tags are known: cookie, service name, slot, child.
    [fork] returns 0 in the child, so both processes run this. *)
Definition padr_parsed_tags (packet : PPPoEPacket) : Cmd Server unit :=
  let! s := get in
  if negb (has_tag (receivedCookie s)) then ret tt
  else if decide (t_length (receivedCookie s) <> htons COOKIE_LEN) then ret tt
  else
    chk! cookieBuffer := genCookie (h_source packet) in
    if decide (take (Z.to_nat COOKIE_LEN) (t_payload (receivedCookie s)) <> cookieBuffer) then ret tt
    else if negb (has_tag (requestedService s)) then
      sendErrorPADS (h_source packet) TAG_SERVICE_NAME_ERROR no_service_msg
    else if decide (t_length (requestedService s) <> 0) then
      sendErrorPADS (h_source packet) TAG_SERVICE_NAME_ERROR bad_service_msg
    else
      match findSession 0 s with
      | None => sendErrorPADS (h_source packet) TAG_AC_SYSTEM_ERROR no_slot_msg
      | Some k =>
          do! modify (fun s => v_Sessions (alter (set_eth (h_source packet)) k (Sessions s)) s) ;;
          let! child := fork in
          if decide (child < 0) then
            sendErrorPADS (h_source packet) TAG_AC_SYSTEM_ERROR no_process_msg
          else if decide (child <> 0) then
            modify (fun s => v_Sessions (alter (set_pid child) k (Sessions s)) s)
          else padr_child packet k
      end.

Definition processPADR (packet : PPPoEPacket) (len : Z) : Cmd Server unit :=
  do! modify (fun s => v_relayId (clear_type (relayId s)) s) ;;
  do! modify (fun s => v_hostUniq (clear_type (hostUniq s)) s) ;;
  do! modify (fun s => v_receivedCookie (clear_type (receivedCookie s)) s) ;;
  do! modify (fun s => v_requestedService (clear_type (requestedService s)) s) ;;
  if negb (mac_eqb (h_dest packet) (myAddr cfg)) then ret tt
  else if NOT_UNICAST (h_source packet) then ret tt
  else do! parsePacket packet parsePADRTags ;; padr_parsed_tags packet.

(** ** The main loop *)

(** What happens next: SIGCHLD is delivered, or [select] returns: interrupted,
    with an error, or with the descriptors that are readable. *)
Inductive sv_event := SvChild | SvIntr | SvError | SvReady (in_sock in_pipe : bool).

(** One round after [select]; [packet] and [len] are the locals of [main]. *)
Definition serve (in_sock in_pipe : bool) (packet : PPPoEPacket) (len : Z) :
    Cmd Server (PPPoEPacket * Z) :=
  do! (if in_pipe then
         let! s := get in
         if decide (pipeBytes s <= 0) then halt Blocked
         else modify (fun s => v_reap (ReapPending s) (Z.max 0 (pipeBytes s - SMALLBUF)) s)
       else ret tt) ;;
  let! s := get in
  do! (if ReapPending s then
         do! modify (fun s => v_reap false (pipeBytes s) s) ;; reapSessions
       else ret tt) ;;
  if negb in_sock then ret (packet, len) else
  let! (r, packet, len) := receive packet len in
  if decide (r < 0) then ret (packet, len)
  else if bogus_length packet len then ret (packet, len)
  else if decide (p_ver packet <> 1 \/ p_type packet <> 1) then ret (packet, len)
  else
    do! (if decide (p_code packet = CODE_PADI) then processPADI packet len
         else if decide (p_code packet = CODE_PADR) then processPADR packet len
         else if decide (p_code packet = CODE_PADT) then processPADT packet len
         else ret tt) ;;
    ret (packet, len).

(** The loop up to the end of [events]: it then waits in [select]. *)
Fixpoint server_loop (events : list sv_event) (packet : PPPoEPacket) (len : Z) : Cmd Server unit :=
  match events with
  | [] => ret tt
  | SvChild :: evs => do! childHandler ;; server_loop evs packet len
  | SvIntr :: evs => server_loop evs packet len
  | SvError :: evs => fatalSys
  | SvReady in_sock in_pipe :: evs =>
      let! (packet, len) := serve in_sock in_pipe packet len in
      server_loop evs packet len
  end.

End Handlers.
