(* ===== verification/ServerSafety.v ===== *)
(** * ServerSafety: the access concentrator's contract

    What the server answers to PADI, PADR and PADT as functions of the tags of
    the packet, and the proofs that the handlers of [Server] implement them
    without leaving a buffer. *)

From stdpp Require Import base list numbers strings gmap.
From S2P Require Import Prelude Wire Tags Build Link Md5 Server.
Open Scope Z_scope.

(** ** Specification *)

(** A tag that occurs several times: the last one counts. *)
Definition last_tag (ty : Z) (ts : list tag) : option (list Z) :=
  fold_left (fun acc (t : tag) => if decide (t.1 = ty) then Some t.2 else acc) ts None.

Definition the_tag (ty : Z) (ts : list tag) : list tag :=
  match last_tag ty ts with Some v => [(ty, v)] | None => [] end.

(** The tags every answer echoes. *)
Definition echo_tags (ts : list tag) : list tag :=
  the_tag TAG_RELAY_SESSION_ID ts ++ the_tag TAG_HOST_UNIQ ts.

Definition cookie_for (cfg : Config) (peer : list Z) : list Z :=
  md5_digest (peer ++ myAddr cfg ++ CookieSeed cfg) ++ le32 (getpid cfg).

Definition pado_tags (cfg : Config) (p : PPPoEPacket) : list tag :=
  [(TAG_AC_NAME, ACName cfg); (TAG_SERVICE_NAME, []); (TAG_AC_COOKIE, cookie_for cfg (h_source p))] ++
  echo_tags (packet_tags p).1.

(** A frame of the server. *)
Definition server_frame (cfg : Config) (dest : list Z) (code sess : Z) (ts : list tag) : act :=
  SvSend (sv_sock cfg) (discovery_frame dest (myAddr cfg) (Eth_Discovery cfg) code sess ts).

Inductive verdict := Ignore | Refuse (errorTag : Z) (msg : list Z) | Admit (k : nat).

Definition padr_verdict (cfg : Config) (ss : list ClientSession) (p : PPPoEPacket) : verdict :=
  let ts := (packet_tags p).1 in
  if negb (mac_eqb (h_dest p) (myAddr cfg)) || NOT_UNICAST (h_source p) then Ignore
  else if decide (last_tag TAG_AC_COOKIE ts = Some (cookie_for cfg (h_source p))) then
    match last_tag TAG_SERVICE_NAME ts with
    | None => Refuse TAG_SERVICE_NAME_ERROR no_service_msg
    | Some [] =>
        match list_find (fun c => pid c = 0) ss with
        | None => Refuse TAG_AC_SYSTEM_ERROR no_slot_msg
        | Some (k, _) => Admit k
        end
    | Some _ => Refuse TAG_SERVICE_NAME_ERROR bad_service_msg
    end
  else Ignore.

(** The program a slot's child becomes. *)
Definition pppd_command (cfg : Config) (c : ClientSession) : act :=
  let addresses := snprintf SMALLBUF (address_text (LocalIP cfg) (ip c)) in
  SvExec (PPPD_PATH cfg)
    (if UseLinuxKernelModePPPoE cfg then
       [str "pppd"; str "plugin"; PLUGIN_PATH cfg; IfName cfg; str "rp_pppoe_sess";
        snprintf SMALLBUF (session_text c); str "file"; PPPOE_SERVER_OPTIONS cfg; addresses] ++
       pppd_options
     else
       [str "pppd"; str "pty";
        snprintf SMALLBUF (PPPOE_PATH cfg ++ str " -I " ++ IfName cfg ++ str " -e " ++
                           session_text c ++ PppoeOptions cfg);
        str "file"; PPPOE_SERVER_OPTIONS cfg; addresses] ++
       pppd_options ++ (if Synchronous cfg then [str "sync"] else [])).

Definition padi_answer (cfg : Config) (p : PPPoEPacket) : list act :=
  if NOT_UNICAST (h_source p) then []
  else if fits (pado_tags cfg p)
  then [server_frame cfg (h_source p) CODE_PADO 0 (pado_tags cfg p)] else [].

(** A refusal. *)
Definition error_frame (cfg : Config) (p : PPPoEPacket) (errorTag : Z) (msg : list Z) : act :=
  server_frame cfg (h_source p) CODE_PADS (htons 0) ((errorTag, msg) :: echo_tags (packet_tags p).1).

Definition error_fits (p : PPPoEPacket) (errorTag : Z) (msg : list Z) : Prop :=
  fits ((errorTag, msg) :: echo_tags (packet_tags p).1) = true.

(** An acceptance. *)
Definition pads_frame (cfg : Config) (p : PPPoEPacket) (c : ClientSession) : act :=
  server_frame cfg (h_source p) CODE_PADS (sess c)
    ((TAG_SERVICE_NAME, []) :: echo_tags (packet_tags p).1).

(** What the slot a PADR gets is for. *)
Definition admitted (p : PPPoEPacket) (c : ClientSession) : ClientSession := set_eth (h_source p) c.

(** ** Well-formedness *)

Record Config_ok (cfg : Config) : Prop := {
  cf_mac : mac_ok (myAddr cfg);
  cf_seed : bytes (CookieSeed cfg) /\ zlen (CookieSeed cfg) = SEED_LEN;
  cf_name : bytes (ACName cfg) /\ zlen (ACName cfg) <= ETH_DATA_LEN
}.

(** The four tags are well formed whatever was last stored in them. *)
Record tags_ok (s : Server) : Prop := {
  ok_relay : stored_ok (relayId s);
  ok_host : stored_ok (hostUniq s);
  ok_cookie : stored_ok (receivedCookie s);
  ok_service : stored_ok (requestedService s)
}.

(** The table: slot [k] has session number [k + 1 + SessOffset] for good. *)
Record slots_ok (cfg : Config) (ss : list ClientSession) : Prop := {
  sl_offset : 0 <= SessOffset cfg;
  sl_room : zlen ss + SessOffset cfg <= 65534;
  sl_num : forall k c, ss !! k = Some c -> sess c = htons (Z.of_nat k + 1 + SessOffset cfg)
}.

(** Everything but the four tags, the results of [send] and the actions. *)
Definition rest (s : Server) :=
  (Sessions s, (ReapPending s, pipeBytes s), sv_rx s, (forks s, waits s, execs s)).

(** [s'] is [s] after the actions [bs], tags and [send] results aside. *)
Definition after (s : Server) (bs : list act) (s' : Server) : Prop :=
  tags_ok s' /\ rest s' = rest s /\ acts s' = acts s ++ bs.

(** A tag variable holds what the packet's tags say. *)
Definition holds (ty : Z) (t : PPPoETag) (ts : list tag) : Prop :=
  stored_ok t /\ stored_tag t = the_tag ty ts.

(** ** Tags *)

Lemma last_tag_snoc ty ts t :
  last_tag ty (ts ++ [t]) = if decide (t.1 = ty) then Some t.2 else last_tag ty ts.
Proof. unfold last_tag. by rewrite fold_left_app. Qed.

Lemma the_tag_snoc ty ts t :
  the_tag ty (ts ++ [t]) = if decide (t.1 = ty) then [t] else the_tag ty ts.
Proof.
  unfold the_tag. rewrite last_tag_snoc. case_decide as D; [|done]. destruct t as [ty' v]. by rewrite <- D.
Qed.

Lemma zlen_encode_one t : zlen (encode [t]) = 4 + zlen t.2.
Proof. rewrite encode_cons, zlen_app, zlen_encode_tag. change (zlen (encode [])) with 0. lia. Qed.

Fixpoint room_of (tys : list Z) (ts : list tag) : Z :=
  match tys with
  | [] => 0
  | ty :: tys => zlen (encode (the_tag ty ts)) + room_of tys ts
  end.

Lemma room_of_other tys ts t : t.1 ∉ tys -> room_of tys (ts ++ [t]) = room_of tys ts.
Proof.
  induction tys as [|ty tys IH]; intros N; cbn [room_of]; [done|].
  apply not_elem_of_cons in N as [N1 N2]. rewrite the_tag_snoc, decide_False, IH by done. done.
Qed.

(** The last tags of different types are different tags of the packet. *)
Lemma the_tags_room tys ts : NoDup tys -> room_of tys ts <= zlen (encode ts).
Proof.
  intros N. induction ts as [|t ts IH] using rev_ind.
  { change (zlen (encode [])) with 0. clear N. induction tys; cbn [room_of]; [lia|].
    change (zlen (encode (the_tag a []))) with 0. lia. }
  rewrite encode_app, zlen_app, zlen_encode_one.
  enough (room_of tys (ts ++ [t]) <= room_of tys ts + (4 + zlen t.2)) by lia. clear IH.
  induction tys as [|ty tys IH]; cbn [room_of]; [pose proof (zlen_nonneg t.2); lia|].
  apply NoDup_cons in N as [N1 N2]. rewrite the_tag_snoc. case_decide as D.
  - rewrite room_of_other by congruence. rewrite zlen_encode_one.
    pose proof (zlen_nonneg (encode (the_tag ty ts))). lia.
  - specialize (IH N2). lia.
Qed.

Lemma fill_holds ty t0 ts t : wf_tag t0 -> wf_tagv t -> 4 + zlen t.2 <= MAX_PPPOE_PAYLOAD -> t.1 = ty ->
  exists t', fill_tag t0 t.1 (zlen t.2) t.2 = Some t' /\ holds ty t' (ts ++ [t]).
Proof.
  intros W (Ht & Hl & Hb) Hr E. destruct (fill_stored t0 t.1 t.2 W Hb Hr) as (t' & F & S).
  exists t'. split; [done|]. split; [done|]. rewrite the_tag_snoc, decide_True by done.
  destruct (fill_tag_ready t0 t.1 t.2 [] W) as (t'' & F' & _ & _ & V).
  - done.
  - by rewrite app_nil_r.
  - rewrite zlen_nil. unfold MAX_PPPOE_PAYLOAD, PPPOE_OVERHEAD in *. lia.
  - rewrite app_nil_r in F'. rewrite F in F'. injection F' as <-.
    unfold stored_tag, has_tag. assert (t_type t' <> 0) as H0.
    { intros H0. apply (f_equal fst) in V. unfold tag_value in V. rewrite H0 in V. cbn [fst] in V.
      change (ntohs 0) with 0 in V. lia. }
    apply Z.eqb_neq in H0. rewrite H0. cbn. rewrite V. by destruct t.
Qed.

Lemma holds_other ty t0 ts t : t.1 <> ty -> holds ty t0 ts -> holds ty t0 (ts ++ [t]).
Proof. intros N [H1 H2]. split; [done|]. by rewrite the_tag_snoc, decide_False. Qed.

Lemma holds_clear ty t : stored_ok t -> holds ty (clear_type t) [].
Proof. intros [(_ & W2 & W3 & W4) L]. split; [|done]. split; [|done]. unfold wf_tag. cbn. split_and!; lia || done. Qed.

Lemma holds_ok ty t ts : holds ty t ts -> stored_ok t.
Proof. by intros []. Qed.

Lemma unchecked_block_value t : stored_ok t -> block_value (unchecked_block t) (stored_tag t).
Proof.
  intros [W H]. unfold unchecked_block, stored_tag. destruct (has_tag t); constructor; try done.
  unfold MAX_PPPOE_PAYLOAD, PPPOE_OVERHEAD, ETH_DATA_LEN in *. lia.
Qed.

#[export] Hint Resolve holds_ok holds_clear holds_other : pppoe.

(** ** States *)

Lemma after_refl s : tags_ok s -> after s [] s.
Proof. intros T. split_and!; [done|done|by rewrite app_nil_r]. Qed.

Lemma after_trans s b1 s1 b2 s2 : after s b1 s1 -> after s1 b2 s2 -> after s (b1 ++ b2) s2.
Proof.
  intros (_ & R1 & A1) (T & R2 & A2). split_and!; [done|congruence|by rewrite A2, A1, app_assoc].
Qed.

Lemma rest_fields s s' : rest s' = rest s ->
  Sessions s' = Sessions s /\ ReapPending s' = ReapPending s /\ pipeBytes s' = pipeBytes s /\
  sv_rx s' = sv_rx s /\ forks s' = forks s /\ waits s' = waits s /\ execs s' = execs s.
Proof. unfold rest. by intros [= -> -> -> -> -> -> ->]. Qed.

(** The rest of a state from an equation on rests. *)
Ltac rest_eq R := unfold rest in *; cbn; injection R; intros; congruence.

Section Contract.
Context (cfg : Config) (garbage : PPPoEPacket) (garbage_tag : PPPoETag) (garbage_ctx : MD5Context).
Context (Cok : Config_ok cfg) (Wg : wf_packet garbage) (Wt : wf_tag garbage_tag) (Wc : ctx_ok garbage_ctx).

(** ** Parsing *)

(** What [parsePacket] has left in the tags after [pre]. *)
Definition padi_parsed (s0 : Server) (pre : list tag) (s : Server) : Prop :=
  after s0 [] s /\ holds TAG_RELAY_SESSION_ID (relayId s) pre /\ holds TAG_HOST_UNIQ (hostUniq s) pre.

Definition padr_parsed (s0 : Server) (pre : list tag) (s : Server) : Prop :=
  padi_parsed s0 pre s /\ holds TAG_AC_COOKIE (receivedCookie s) pre /\
  holds TAG_SERVICE_NAME (requestedService s) pre /\ sv_writes s = sv_writes s0.

(** One tag of a packet filled into a variable. *)
Lemma wp_fill (t0 : PPPoETag) (t : tag) ts set s (Q : unit -> Server -> Prop) E :
  wf_tag t0 -> wf_tagv t -> 4 + zlen t.2 <= MAX_PPPOE_PAYLOAD ->
  (forall t', holds t.1 t' (ts ++ [t]) -> Q tt (set t' s)) ->
  wp (chk! t' := fill_tag t0 t.1 (zlen t.2) t.2 in modify (set t')) Q E s.
Proof.
  intros W Wv L H. destruct (fill_holds t.1 t0 ts t W Wv L eq_refl) as (t' & F & Ht).
  eapply wp_opt_bind; [done|]. apply wp_modify. by apply H.
Qed.

Lemma parsePADITags_spec s0 pre t s : wf_tagv t -> 4 + zlen t.2 <= MAX_PPPOE_PAYLOAD ->
  padi_parsed s0 pre s ->
  wp (parsePADITags t.1 (zlen t.2) t.2) (fun _ s' => padi_parsed s0 (pre ++ [t]) s') (fun _ _ => False) s.
Proof.
  intros Wv L (A & Hr & Hh). pose proof A as ([] & R & Ac). unfold parsePADITags. apply wp_get_bind.
  case_decide as D1; [|case_decide as D2; [|case_decide as D3]].
  - apply wp_ret. split_and!; [done|..]; apply holds_other; try done; rewrite D1; done.
  - apply (wp_fill _ _ pre v_relayId); [apply Hr|done|done|]. intros t' Ht'. rewrite D2 in Ht'.
    split_and!; [split_and!; [split; eauto with pppoe|done|done]|done|].
    apply holds_other; [by rewrite D2|done].
  - apply (wp_fill _ _ pre v_hostUniq); [apply Hh|done|done|]. intros t' Ht'. rewrite D3 in Ht'.
    split_and!; [split_and!; [split; eauto with pppoe|done|done]| |done].
    apply holds_other; [by rewrite D3|done].
  - apply wp_ret. split_and!; auto with pppoe.
Qed.

Lemma parsePADRTags_spec s0 pre t s : wf_tagv t -> 4 + zlen t.2 <= MAX_PPPOE_PAYLOAD ->
  padr_parsed s0 pre s ->
  wp (parsePADRTags t.1 (zlen t.2) t.2) (fun _ s' => padr_parsed s0 (pre ++ [t]) s') (fun _ _ => False) s.
Proof.
  intros Wv L ((A & Hr & Hh) & Hc & Hq & Hw). pose proof A as ([] & R & Ac). unfold parsePADRTags.
  apply wp_get_bind.
  case_decide as D1; [|case_decide as D2; [|case_decide as D3; [|case_decide as D4]]].
  5: { apply wp_ret. split; [split_and!|split_and!]; auto with pppoe. }
  1: apply (wp_fill _ _ pre v_relayId); [apply Hr|done|done|].
  2: apply (wp_fill _ _ pre v_hostUniq); [apply Hh|done|done|].
  3: apply (wp_fill _ _ pre v_receivedCookie); [apply Hc|done|done|].
  4: apply (wp_fill _ _ pre v_requestedService); [apply Hq|done|done|].
  all: intros t' Ht'; first [rewrite D1 in Ht' | rewrite D2 in Ht' | rewrite D3 in Ht' | rewrite D4 in Ht'];
    (split; [split; [split; [split; eauto with pppoe|split; done]|split]|split_and!]);
    try done; (apply holds_other; [|done]);
    first [rewrite D1 | rewrite D2 | rewrite D3 | rewrite D4]; done.
Qed.

Lemma clear_ok t : stored_ok t -> stored_ok (clear_type t).
Proof. intros H. eapply holds_ok. by apply (holds_clear 0). Qed.

Lemma wp_parsePADI p s : wf_packet p -> tags_ok s ->
  let s0 := v_hostUniq (clear_type (hostUniq s)) (v_relayId (clear_type (relayId s)) s) in
  wp (parsePacket p parsePADITags) (fun _ s' => padi_parsed s (packet_tags p).1 s') (fun _ _ => False) s0.
Proof.
  intros W [] s0. apply wp_parsePacket with (I := padi_parsed s); [done| |].
  - split; [split; [split|split]|split]; cbn; auto using clear_ok, holds_clear. by rewrite app_nil_r.
  - intros pre t s' Hin P. destruct (packet_tags_bound p t W Hin). by apply parsePADITags_spec.
Qed.

Lemma wp_parsePADR p s : wf_packet p -> tags_ok s ->
  let s0 := v_requestedService (clear_type (requestedService s))
    (v_receivedCookie (clear_type (receivedCookie s))
      (v_hostUniq (clear_type (hostUniq s)) (v_relayId (clear_type (relayId s)) s))) in
  wp (parsePacket p parsePADRTags) (fun _ s' => padr_parsed s (packet_tags p).1 s') (fun _ _ => False) s0.
Proof.
  intros W [] s0. apply wp_parsePacket with (I := padr_parsed s); [done| |].
  - split; [split; [split; [split|split]|split]|split_and!]; cbn; auto using clear_ok, holds_clear.
    by rewrite app_nil_r.
  - intros pre t s' Hin P. destruct (packet_tags_bound p t W Hin). by apply parsePADRTags_spec.
Qed.

(** ** Sending *)

Lemma genCookie_spec peer : mac_ok peer -> genCookie cfg garbage_ctx peer = Some (cookie_for cfg peer).
Proof using Cok Wc.
  intros [Lp Bp]. destruct Cok as [[Lm Bm] [Bs Ls] _]. unfold genCookie, cookie_for.
  rewrite md5_of_chunks; [|done|by repeat constructor|].
  - cbn [concat mbind option_bind]. by rewrite app_nil_r.
  - repeat constructor; unfold zlen in *; rewrite ?Lp, ?Lm, ?Ls; done.
Qed.

Lemma cookie_for_ok peer : bytes (cookie_for cfg peer) /\ zlen (cookie_for cfg peer) = COOKIE_LEN.
Proof.
  unfold cookie_for. destruct (md5_digest_ok (peer ++ myAddr cfg ++ CookieSeed cfg)) as [B L].
  split; [apply bytes_app; split; [done|apply bytes_le32]|]. rewrite zlen_app, L. done.
Qed.

Lemma servname_value checked cond : block_value (mkBlock cond checked (Some (servname garbage_tag)) TAG_HDR_SIZE)
  (if cond then [(TAG_SERVICE_NAME, [])] else []).
Proof using Wt.
  destruct cond; [|constructor]. destruct Wt as (_ & _ & L & B).
  change [(TAG_SERVICE_NAME, [])] with [tag_value (servname garbage_tag)].
  constructor; [|done|done]. unfold wf_tag. cbn. split_and!; try done; apply htons_range.
Qed.

(** A tag on the stack as a block of its own size. *)
Lemma filled_value type data n : 0 < type < 65536 -> bytes data -> zlen data <= ETH_DATA_LEN ->
  n = zlen data + TAG_HDR_SIZE -> exists t, fill_tag garbage_tag type (zlen data) data = Some t /\
  forall checked, block_value (mkBlock true checked (Some t) n) [(type, data)].
Proof using Wt.
  intros Ht B L ->. destruct (fill_tag_ready garbage_tag type data [] Wt Ht) as (t & F & W & Ln & <-).
  - by rewrite app_nil_r.
  - rewrite zlen_nil. lia.
  - rewrite app_nil_r in F. exists t. split; [done|]. intros c. constructor; [done|lia|].
    unfold tag_room. by rewrite Ln.
Qed.

Lemma wp_put_send dest code sn bls us s (Q : unit -> Server -> Prop) (E : Z -> Server -> Prop) :
  length dest = 6%nat -> blocks_value [] bls us ->
  (fits us = false -> Q tt s) ->
  (fits us = true -> forall ws, Q tt (v_writes ws (v_acts (acts s ++ [server_frame cfg dest code sn us]) s))) ->
  (hd true (sv_writes s) = false -> forall ws, E 1 (v_writes ws s)) ->
  let pkt := start_packet dest (myAddr cfg) (htons (Eth_Discovery cfg)) code sn garbage in
  wp (put_tags bls (p_payload pkt, 0, 0) (send_built cfg pkt)) Q E s.
Proof using Cok Wg.
  intros Ld V H1 H2 H3 pkt.
  assert (B0 : built (p_payload pkt, 0, 0) []) by (apply built_nil; apply Wg).
  unfold wp. destruct (put_tags_spec bls us (p_payload pkt, 0, 0) [] (send_built cfg pkt) s B0 eq_refl V)
    as [[F ->]|(F & [[payload cursor] plen] & B & ->)]; [by apply H1|].
  unfold send_built, sendPacket, pkt.
  rewrite (frame_built dest (myAddr cfg) _ code sn garbage payload cursor plen us Ld (proj1 (cf_mac _ Cok)) B).
  rewrite bind_of_Some. unfold get, bind at 1.
  assert (K : forall s, v_writes (sv_writes s) s = s) by (intros []; done).
  destruct (sv_writes s) as [|[] ws] eqn:Ew; cbn.
  - specialize (H2 F []). rewrite <- Ew in H2. by rewrite <- (K (v_acts _ _)).
  - apply (H2 F ws).
  - by apply H3.
Qed.

Lemma after_send s a ws : tags_ok s -> after s [a] (v_writes ws (v_acts (acts s ++ [a]) s)).
Proof. by intros []. Qed.
Lemma after_nosend s ws : tags_ok s -> after s [] (v_writes ws s).
Proof. intros []. split_and!; [done|done|]. by rewrite app_nil_r. Qed.

Lemma echo_of s pre : padi_parsed s pre s -> stored_tag (relayId s) ++ stored_tag (hostUniq s) = echo_tags pre.
Proof. intros (_ & [_ ->] & [_ ->]). done. Qed.

(** ** PADI *)

Lemma processPADI_spec p len s : wf_packet p -> tags_ok s ->
  wp (processPADI cfg garbage garbage_tag garbage_ctx p len)
    (fun _ s' => after s (padi_answer cfg p) s') (fun c s' => c = 1 /\ after s [] s') s.
Proof using Cok Wg Wt Wc.
  intros W T. assert (Ms : mac_ok (h_source p)) by (split; apply W).
  unfold processPADI, padi_answer. destruct (NOT_UNICAST (h_source p)); [by apply after_refl|].
  destruct (filled_value TAG_AC_NAME (ACName cfg) (zlen (ACName cfg) + TAG_HDR_SIZE))
    as (acname & Fn & Vn); try apply Cok; [done|done|].
  eapply wp_opt_bind; [done|]. apply wp_modify_bind, wp_modify_bind, wp_bind.
  eapply wp_mono; [exact (wp_parsePADI p s W T)| |done]. intros r s' P.
  eapply wp_opt_bind; [by apply genCookie_spec|].
  destruct (cookie_for_ok (h_source p)) as [Bc Lc].
  destruct (filled_value TAG_AC_COOKIE (cookie_for cfg (h_source p)) (TAG_HDR_SIZE + COOKIE_LEN))
    as (cookie & Fc & Vc); [done|done|rewrite Lc; done|rewrite Lc; done|].
  rewrite Lc in Fc. eapply wp_opt_bind; [done|]. apply wp_get_bind.
  destruct P as (A & [Sr Er] & [Sh Eh]). pose proof A as (T' & _ & _).
  eapply (wp_put_send _ _ _ _ (pado_tags cfg p)); [apply Ms| |intros ->; done|intros -> ws|intros _ ws].
  - unfold pado_tags, echo_tags. rewrite <- Er, <- Eh.
    replace (_ ++ _) with (concat [[(TAG_AC_NAME, ACName cfg)]; [(TAG_SERVICE_NAME, [])];
      [(TAG_AC_COOKIE, cookie_for cfg (h_source p))]; stored_tag (relayId s'); stored_tag (hostUniq s')])
      by (cbn; by rewrite app_nil_r).
    apply blocks_of; [|left; by repeat constructor].
    repeat (apply Forall2_cons; split); auto with pppoe. apply (servname_value true true).
  - apply (after_trans s [] s' [_]); [done|]. by apply after_send.
  - split; [done|]. apply (after_trans s [] s' []); [done|]. by apply after_nosend.
Qed.

(** ** PADT *)

Definition padt_kills (s : Server) (p : PPPoEPacket) : list act :=
  if negb (mac_eqb (h_dest p) (myAddr cfg)) then []
  else match list_find (fun c => sess c = p_session p /\ pid c <> 0) (Sessions s) with
       | Some (_, c) => [SvKill (pid c)]
       | None => []
       end.

Lemma run_logs ts : forall l, exists l', run_tags parseLogErrs ts l = Ok tt l'.
Proof.
  induction ts as [|t ts IH]; intros l; [by eexists|]. cbn [run_tags].
  unfold parseLogErrs at 1. repeat case_decide; apply IH.
Qed.

Lemma log_errors_ok p s : wf_packet p -> log_errors p s = Ok tt s.
Proof.
  intros W. unfold log_errors. rewrite parsePacket_run by done.
  destruct (run_logs (packet_tags p).1 []) as [l' E]. by rewrite (bind_Ok _ _ _ _ _ E).
Qed.

Lemma slot_number ss k c sn : slots_ok cfg ss -> ss !! k = Some c -> 0 <= sn < 65536 ->
  sess c = sn <-> Z.of_nat k = ntohs sn - 1 - SessOffset cfg.
Proof.
  intros [O R N] Hk Hs. apply lookup_lt_Some in Hk as Hl. rewrite (N k c Hk). unfold zlen in R.
  pose proof (ntohs_htons (Z.of_nat k + 1 + SessOffset cfg)) as E. rewrite u16_small in E by lia. split.
  - intros <-. lia.
  - intros ->. replace (ntohs sn - 1 - SessOffset cfg + 1 + SessOffset cfg) with (ntohs sn) by lia.
    by apply htons_ntohs.
Qed.

Lemma processPADT_spec p len s : wf_packet p -> slots_ok cfg (Sessions s) ->
  processPADT cfg p len s = Ok tt (v_acts (acts s ++ padt_kills s p) s).
Proof.
  intros W SL. assert (K : v_acts (acts s ++ []) s = s) by (rewrite app_nil_r; by destruct s).
  unfold processPADT, padt_kills. destruct (mac_eqb _ _); cbn [negb]; [|by rewrite K]. rewrite get_bind.
  pose proof (htons_range (p_session p)) as Hr. fold (ntohs (p_session p)) in Hr.
  pose proof (fun k c H => slot_number (Sessions s) k c (p_session p) SL H (wf_session _ W)) as SN.
  destruct SL as [O R _]. pose proof (zlen_nonneg (Sessions s)).
  set (n := ntohs (p_session p)) in *. unfold NumSessionSlots.
  destruct (decide (0 <= n - 1 - SessOffset cfg < zlen (Sessions s))) as [I|I].
  - rewrite u32_small by lia. rewrite decide_False by lia.
    destruct (rd_Some (Sessions s) (n - 1 - SessOffset cfg) I) as [c Ec]. rewrite Ec, bind_of_Some.
    unfold rd in Ec. rewrite decide_True in Ec by lia.
    assert (Ek : sess c = p_session p) by (apply (SN _ _ Ec); lia).
    rewrite decide_False by (by intros []). case_decide as P.
    + rewrite (bind_Ok _ _ _ _ _ (log_errors_ok p s W)).
      replace (list_find _ (Sessions s)) with (Some (Z.to_nat (n - 1 - SessOffset cfg), c)); [done|].
      symmetry. apply list_find_Some. split_and!; [done|done|done|]. intros j y Hj Hlt [E _].
      apply (SN _ _ Hj) in E. lia.
    + replace (list_find _ (Sessions s)) with (@None (nat * ClientSession)); [by rewrite K|].
      symmetry. apply list_find_None, Forall_lookup. intros j y Hj [E E'].
      apply (SN _ _ Hj) in E. assert (j = Z.to_nat (n - 1 - SessOffset cfg)) as -> by lia. congruence.
  - rewrite decide_True.
    + replace (list_find _ (Sessions s)) with (@None (nat * ClientSession)); [by rewrite K|].
      symmetry. apply list_find_None, Forall_lookup. intros j y Hj [E E'].
      apply (SN _ _ Hj) in E. apply lookup_lt_Some in Hj. unfold zlen in I. lia.
    + unfold u32. change (2 ^ 32) with 4294967296. destruct (decide (0 <= n - 1 - SessOffset cfg)).
      * rewrite Z.mod_small; lia.
      * rewrite <- (Z.mod_unique (n - 1 - SessOffset cfg) 4294967296 (-1) (n - 1 - SessOffset cfg + 4294967296)); lia.
Qed.

(** ** PADR *)

Lemma holds_value ty t ts : holds ty t ts ->
  match last_tag ty ts with
  | Some v => has_tag t = true /\ zlen v = ntohs (t_length t) /\
      take (Z.to_nat (ntohs (t_length t))) (t_payload t) = v
  | None => has_tag t = false
  end.
Proof.
  intros [[W L] E]. unfold the_tag, stored_tag in E. destruct (last_tag ty ts) as [v|], (has_tag t); try done.
  assert (L' : ntohs (t_length t) <= ETH_DATA_LEN) by (unfold MAX_PPPOE_PAYLOAD, PPPOE_OVERHEAD in L; lia).
  pose proof (zlen_tag_value t W L') as Z. injection E as _ E. unfold tag_value in Z. cbn in Z.
  rewrite E in Z. done.
Qed.

Lemma cookie_checked t ts c : holds TAG_AC_COOKIE t ts -> zlen c = COOKIE_LEN ->
  last_tag TAG_AC_COOKIE ts = Some c <->
  has_tag t = true /\ t_length t = htons COOKIE_LEN /\ take (Z.to_nat COOKIE_LEN) (t_payload t) = c.
Proof.
  intros H Lc. pose proof (holds_value _ _ _ H) as V. destruct H as [[(W1 & W2 & _) _] _].
  destruct (last_tag TAG_AC_COOKIE ts) as [v|].
  - destruct V as (V1 & V2 & V3). split.
    + intros [= ->]. rewrite Lc in V2. rewrite <- V2 in V3. split_and!; [done| |done].
      rewrite V2. by rewrite htons_ntohs.
    + intros (_ & E1 & E2). rewrite E1 in V3. change (ntohs (htons COOKIE_LEN)) with COOKIE_LEN in V3.
      congruence.
  - split; [done|]. intros (? & _). congruence.
Qed.

Lemma find_pid_list p ss : forall i,
  find_pid p i ss = (fun x => (i + fst x)%nat) <$> list_find (fun c => pid c = p) ss.
Proof.
  induction ss as [|c ss IH]; intros i; [done|]. cbn [find_pid list_find]. case_decide; [cbn; f_equal; lia|].
  rewrite IH. destruct (list_find _ ss) as [[k y]|]; cbn; [f_equal; lia|done].
Qed.

Lemma packet_tags_room p : wf_packet p -> zlen (encode (packet_tags p).1) <= MAX_PPPOE_PAYLOAD.
Proof.
  intros W. pose proof (packet_tags_sound p W) as (_ & _ & H & _). unfold packet_tags in *.
  case_decide as D; [lia|]. done.
Qed.

(** An answer that echoes the stored tags behind one of its own. *)
Lemma echo_blocks s ts bl t : tags_ok s ->
  stored_tag (relayId s) ++ stored_tag (hostUniq s) = echo_tags ts ->
  block_value bl [t] -> fits (t :: echo_tags ts) = true ->
  blocks_value [] [bl; unchecked_block (relayId s); unchecked_block (hostUniq s)] (t :: echo_tags ts).
Proof.
  intros [] E V F. rewrite <- E in *.
  replace (t :: _) with (concat [[t]; stored_tag (relayId s); stored_tag (hostUniq s)]) in *
    by (cbn; by rewrite app_nil_r).
  apply blocks_of; [|by right]. repeat (apply Forall2_cons; split); auto using unchecked_block_value.
Qed.

Lemma sendErrorPADS_spec p ty msg s : wf_packet p -> tags_ok s ->
  stored_tag (relayId s) ++ stored_tag (hostUniq s) = echo_tags (packet_tags p).1 ->
  0 < ty < 65536 -> bytes msg -> error_fits p ty msg ->
  wp (sendErrorPADS cfg garbage garbage_tag (h_source p) ty msg)
    (fun _ s' => after s [error_frame cfg p ty msg] s') (fun c s' => c = 1 /\ after s [] s') s.
Proof using Cok Wg Wt.
  intros W T E Ht Bm F. unfold sendErrorPADS.
  assert (Lm : zlen msg <= ETH_DATA_LEN).
  { apply bool_decide_eq_true in F. rewrite encode_cons, zlen_app, zlen_encode_tag in F. cbn [snd] in F.
    pose proof (zlen_nonneg (encode (echo_tags (packet_tags p).1))).
    unfold MAX_PPPOE_PAYLOAD, PPPOE_OVERHEAD in F. lia. }
  destruct (filled_value ty msg (TAG_HDR_SIZE + zlen msg)) as (err & Fe & Ve); [done|done|done|lia|].
  eapply wp_opt_bind; [done|]. apply wp_get_bind.
  eapply (wp_put_send _ _ _ _ ((ty, msg) :: echo_tags (packet_tags p).1));
    [apply W|by apply echo_blocks|intros F'; unfold error_fits in F; congruence|intros _ ws|intros _ ws].
  - by apply after_send.
  - split; [done|]. by apply after_nosend.
Qed.

(** How the child ends: it becomes pppd after the PADS, unless one of the two
    calls fails. *)
Definition child_end (p : PPPoEPacket) (c : ClientSession) (s : Server) (code : Z) (s' : Server) : Prop :=
  Sessions s' = Sessions s /\
  ((code = IMAGE_REPLACED /\ acts s' = acts s ++ [pads_frame cfg p c; pppd_command cfg c]) \/
   (code = 1 /\ hd true (execs s) = false /\ acts s' = acts s ++ [pads_frame cfg p c]) \/
   (code = 1 /\ hd true (sv_writes s) = false /\ acts s' = acts s)).

Lemma startPPPD_spec c s (Q : unit -> Server -> Prop) (E : Z -> Server -> Prop) :
  (forall es, E IMAGE_REPLACED (v_acts (acts s ++ [pppd_command cfg c]) (v_execs es s))) ->
  (hd true (execs s) = false -> forall es, E 1 (v_execs es s)) ->
  wp (startPPPD cfg c) Q E s.
Proof.
  intros H1 H2. unfold startPPPD, startPPPDLinuxKernelMode, startPPPDUserMode, pppd_command in *.
  destruct (UseLinuxKernelModePPPoE cfg); unfold wp, execv, get, bind, modify, act_out, exit;
    destruct (execs s) as [|[] es]; cbn; eauto.
Qed.

Lemma padr_child_spec p k c s : wf_packet p -> tags_ok s ->
  stored_tag (relayId s) ++ stored_tag (hostUniq s) = echo_tags (packet_tags p).1 ->
  Sessions s !! k = Some c -> fits ((TAG_SERVICE_NAME, []) :: echo_tags (packet_tags p).1) = true ->
  wp (padr_child cfg garbage garbage_tag p k) (fun _ _ => False) (child_end p c s) s.
Proof using Cok Wg Wt.
  intros W T E Hk F. unfold padr_child. apply wp_get_bind. eapply wp_opt_bind; [done|]. apply wp_bind.
  eapply (wp_put_send _ _ _ _ ((TAG_SERVICE_NAME, []) :: echo_tags (packet_tags p).1));
    [apply W| |intros F'; congruence|intros _ ws|intros Hw ws].
  - apply echo_blocks; [done|done|apply (servname_value false true)|done].
  - apply startPPPD_spec; [intros es|intros He es]; (split; [done|]).
    + left. split; [done|]. cbn. by rewrite <- app_assoc.
    + right. left. by split_and!.
  - split; [done|]. right. right. by split_and!.
Qed.

(** The state in which [fork] has returned with slot [k] reserved. *)
Definition forked (p : PPPoEPacket) (k : nat) (rs : list Z) (s : Server) : Server :=
  v_forks rs (v_Sessions (alter (admitted p) k (Sessions s)) s).

(** What a PADR does, by its verdict. *)
Definition padr_does (p : PPPoEPacket) (s : Server) (m : Cmd Server unit) : Prop :=
  match padr_verdict cfg (Sessions s) p with
  | Ignore => wp m (fun _ s' => after s [] s') (fun _ _ => False) s
  | Refuse ty msg => error_fits p ty msg ->
      wp m (fun _ s' => after s [error_frame cfg p ty msg] s') (fun c s' => c = 1 /\ after s [] s') s
  | Admit k =>
      let r := hd (-1) (forks s) in let rs := tail (forks s) in
      (r < 0 -> error_fits p TAG_AC_SYSTEM_ERROR no_process_msg ->
       wp m (fun _ s' => after (forked p k rs s) [error_frame cfg p TAG_AC_SYSTEM_ERROR no_process_msg] s')
         (fun c s' => c = 1 /\ after (forked p k rs s) [] s') s) /\
      (r > 0 ->
       wp m (fun _ s' => after (v_Sessions (alter (fun c => set_pid r (admitted p c)) k (Sessions s))
                                  (v_forks rs s)) [] s') (fun _ _ => False) s) /\
      (r = 0 -> forall c, Sessions s !! k = Some c ->
       wp m (fun _ _ => False) (child_end p (admitted p c) (forked p k rs s)) s)
  end.

(** The checks on the tags, against the verdict. *)
Definition tags_verdict (ss : list ClientSession) (p : PPPoEPacket) : verdict :=
  let ts := (packet_tags p).1 in
  if decide (last_tag TAG_AC_COOKIE ts = Some (cookie_for cfg (h_source p))) then
    match last_tag TAG_SERVICE_NAME ts with
    | None => Refuse TAG_SERVICE_NAME_ERROR no_service_msg
    | Some [] =>
        match list_find (fun c => pid c = 0) ss with
        | None => Refuse TAG_AC_SYSTEM_ERROR no_slot_msg
        | Some (k, _) => Admit k
        end
    | Some _ => Refuse TAG_SERVICE_NAME_ERROR bad_service_msg
    end
  else Ignore.

Lemma verdict_unfold ss p : padr_verdict cfg ss p =
  if negb (mac_eqb (h_dest p) (myAddr cfg)) || NOT_UNICAST (h_source p) then Ignore else tags_verdict ss p.
Proof. done. Qed.

(** The code that follows the parsing, by what it will do. *)
Definition tags_outcome (p : PPPoEPacket) (s : Server) : Cmd Server unit :=
  match tags_verdict (Sessions s) p with
  | Ignore => ret tt
  | Refuse ty msg => sendErrorPADS cfg garbage garbage_tag (h_source p) ty msg
  | Admit k =>
      do! modify (fun s => v_Sessions (alter (admitted p) k (Sessions s)) s) ;;
      let! child := fork in
      if decide (child < 0) then
        sendErrorPADS cfg garbage garbage_tag (h_source p) TAG_AC_SYSTEM_ERROR no_process_msg
      else if decide (child <> 0) then
        modify (fun s => v_Sessions (alter (set_pid child) k (Sessions s)) s)
      else padr_child cfg garbage garbage_tag p k
  end.

Lemma padr_parsed_tags_eq p s0 s : wf_packet p -> padr_parsed s0 (packet_tags p).1 s ->
  padr_parsed_tags cfg garbage garbage_tag garbage_ctx p s = tags_outcome p s s.
Proof using Cok Wc.
  intros W (_ & Hc & Hq & _). assert (Ms : mac_ok (h_source p)) by (split; apply W).
  unfold padr_parsed_tags, tags_outcome, tags_verdict. rewrite get_bind.
  pose proof (cookie_checked _ _ (cookie_for cfg (h_source p)) Hc (proj2 (cookie_for_ok _))) as CC.
  pose proof (holds_value _ _ _ Hq) as VQ. destruct Hq as [[(_ & Lq & _) _] _].
  destruct (decide (last_tag TAG_AC_COOKIE _ = _)) as [D|D].
  - apply CC in D as (-> & D2 & D3). cbn [negb]. rewrite decide_False by (by intros []).
    rewrite genCookie_spec, bind_of_Some, decide_False by (done || by intros []).
    destruct (last_tag TAG_SERVICE_NAME _) as [v|]; [|by rewrite VQ].
    destruct VQ as (-> & V2 & _). cbn [negb]. destruct v as [|b v].
    + rewrite decide_False; [|intros []; rewrite <- (htons_ntohs (t_length _)), <- V2 by lia; done].
      unfold findSession. rewrite find_pid_list. by destruct (list_find _ _) as [[k c]|].
    + rewrite decide_True; [done|]. intros E. rewrite E in V2. rewrite zlen_cons in V2.
      change (ntohs 0) with 0 in V2. pose proof (zlen_nonneg v). lia.
  - destruct (has_tag (receivedCookie s)) eqn:E1; [|done]. cbn [negb]. case_decide as E2; [done|].
    rewrite genCookie_spec, bind_of_Some by done. case_decide as E3; [done|]. exfalso. apply D, CC.
    by split_and!.
Qed.

Lemma admit_fits ss p k : wf_packet p -> tags_verdict ss p = Admit k ->
  fits ((TAG_SERVICE_NAME, []) :: echo_tags (packet_tags p).1) = true.
Proof.
  intros W V. unfold tags_verdict in V. case_decide as D1; [|done].
  destruct (last_tag TAG_SERVICE_NAME _) as [[|]|] eqn:D2; try done. apply bool_decide_eq_true.
  pose proof (the_tags_room [TAG_AC_COOKIE; TAG_SERVICE_NAME; TAG_RELAY_SESSION_ID; TAG_HOST_UNIQ]
    (packet_tags p).1) as R. cbn [room_of] in R.
  pose proof (packet_tags_room p W) as M. unfold the_tag in R at 1 2. rewrite D1, D2, !zlen_encode_one in R.
  rewrite encode_cons, zlen_app, zlen_encode_tag. unfold echo_tags. rewrite encode_app, zlen_app.
  cbn [snd] in *. pose proof (proj2 (cookie_for_ok (h_source p))) as Lc. unfold COOKIE_LEN, MD5_LEN in Lc.
  assert (N : NoDup [TAG_AC_COOKIE; TAG_SERVICE_NAME; TAG_RELAY_SESSION_ID; TAG_HOST_UNIQ]).
  { refine (bool_decide_unpack _ _). vm_compute. exact I. }
  specialize (R N). change (zlen (@nil Z)) with 0 in *. lia.
Qed.

Lemma msgs_ok : bytes no_service_msg /\ bytes bad_service_msg /\ bytes no_slot_msg /\ bytes no_process_msg.
Proof. split_and!; apply forallb_bytes; vm_compute; done. Qed.

Lemma refuse_ok ss p ty msg : tags_verdict ss p = Refuse ty msg -> 0 < ty < 65536 /\ bytes msg.
Proof.
  destruct msgs_ok as (M1 & M2 & M3 & M4). unfold tags_verdict. repeat case_match; intros V;
    try discriminate V; injection V as <- <-; (split; [split; reflexivity|assumption]).
Qed.

Lemma tags_outcome_spec p s0 s (L := (packet_tags p).1) : wf_packet p -> padr_parsed s0 L s ->
  padr_verdict cfg (Sessions s0) p = tags_verdict (Sessions s0) p ->
  padr_does p s0 (fun _ => tags_outcome p s s).
Proof using Cok Wg Wt Wc.
  intros W P E. pose proof (echo_of s L) as Ec. destruct P as [(A & Hr & Hh) (_ & _ & Hw)].
  assert (Ek : stored_tag (relayId s) ++ stored_tag (hostUniq s) = echo_tags L).
  { destruct Hr as [_ ->], Hh as [_ ->]. done. } clear Ec.
  pose proof A as (T & R & Ac). rewrite app_nil_r in Ac. pose proof (rest_fields _ _ R) as (Rs & _ & _ & _ & Rf & _).
  unfold padr_does, tags_outcome. rewrite E, Rs. destruct (tags_verdict (Sessions s0) p) as [|ty msg|k] eqn:V.
  - apply A.
  - intros F. destruct (refuse_ok _ _ _ _ V) as [Ht Hm].
    change (wp (sendErrorPADS cfg garbage garbage_tag (h_source p) ty msg)
      (fun _ s' => after s0 [error_frame cfg p ty msg] s') (fun c s' => c = 1 /\ after s0 [] s') s).
    eapply wp_mono; [by apply sendErrorPADS_spec|..].
    + intros ? s' A'. exact (after_trans s0 [] s _ s' A A').
    + intros c s' [-> A']. split; [done|]. exact (after_trans s0 [] s _ s' A A').
  - cbv zeta. rewrite <- Rf. set (r := hd (-1) (forks s)). set (rs := tail (forks s)).
    assert (Eq : forall Q X, wp (if decide (r < 0) then
        sendErrorPADS cfg garbage garbage_tag (h_source p) TAG_AC_SYSTEM_ERROR no_process_msg
      else if decide (r <> 0) then
        modify (fun s => v_Sessions (alter (set_pid r) k (Sessions s)) s)
      else padr_child cfg garbage garbage_tag p k) Q X (forked p k rs s) ->
      wp (fun _ => (do! modify (fun s => v_Sessions (alter (admitted p) k (Sessions s)) s) ;;
        let! child := fork in
        if decide (child < 0) then
          sendErrorPADS cfg garbage garbage_tag (h_source p) TAG_AC_SYSTEM_ERROR no_process_msg
        else if decide (child <> 0) then
          modify (fun s => v_Sessions (alter (set_pid child) k (Sessions s)) s)
        else padr_child cfg garbage garbage_tag p k) s) Q X s0).
    { intros Q X H. exact H. }
    assert (Af : after (forked p k rs s0) [] (forked p k rs s)).
    { destruct T. split; [by split|]. split; [|by cbn; rewrite Ac, app_nil_r].
      rest_eq R. }
    assert (Tf : tags_ok (forked p k rs s)) by apply Af. split_and!.
    + intros Hr0 F. apply Eq. rewrite decide_True by lia.
      eapply wp_mono; [apply sendErrorPADS_spec; try done; apply msgs_ok|..].
      * intros ? s' A'. exact (after_trans _ [] _ _ s' Af A').
      * intros c s' [-> A']. split; [done|]. exact (after_trans _ [] _ _ s' Af A').
    + intros Hr0. apply Eq. rewrite decide_False, decide_True by lia. apply wp_modify.
      destruct T. split; [by split|]. split; [|by cbn; rewrite Ac, app_nil_r].
      assert (X : forall l, alter (set_pid r) k (alter (admitted p) k l) =
                  alter (fun c => set_pid r (admitted p c)) k l) by (intros; apply list_alter_alter_eq).
      cbn. rewrite Rs, X. rest_eq R.
    + intros Hr0 c Hc. apply Eq. rewrite decide_False, decide_False by lia.
      eapply wp_mono; [apply (padr_child_spec p k (admitted p c)); try done|done|].
      * cbn. by rewrite list_lookup_alter_eq, Rs, Hc.
      * by eapply admit_fits.
      * intros code s' H. unfold child_end in *. cbn in *.
        pose proof (rest_fields _ _ R) as (_ & _ & _ & _ & _ & _ & Re). by rewrite Rs, Ac, Hw, Re in H.
Qed.

Lemma padr_does_ext p s m m' : m s = m' s -> padr_does p s m' -> padr_does p s m.
Proof.
  intros E. unfold padr_does, wp. rewrite E. by destruct (padr_verdict cfg (Sessions s) p).
Qed.

Lemma processPADR_does p len s : wf_packet p -> tags_ok s ->
  padr_does p s (processPADR cfg garbage garbage_tag garbage_ctx p len).
Proof using Cok Wg Wt Wc.
  intros W T. pose proof (wp_parsePADR p s W T) as P. cbn zeta in P.
  set (s0 := v_requestedService _ _) in P.
  assert (E : processPADR cfg garbage garbage_tag garbage_ctx p len s =
    (if negb (mac_eqb (h_dest p) (myAddr cfg)) then ret tt
     else if NOT_UNICAST (h_source p) then ret tt
     else do! parsePacket p parsePADRTags ;; padr_parsed_tags cfg garbage garbage_tag garbage_ctx p) s0)
    by done.
  pose proof (verdict_unfold (Sessions s) p) as V.
  assert (A0 : after s [] s0).
  { destruct T. split; [split; cbn; by apply clear_ok|]. split; [done|]. cbn. by rewrite app_nil_r. }
  destruct (mac_eqb _ _), (NOT_UNICAST _); cbn [negb orb] in *;
    try (unfold padr_does; rewrite V; unfold wp; by rewrite E).
  unfold wp in P. unfold bind in E.
  destruct (parsePacket p parsePADRTags s0) as [r s'|c s'|y s'] eqn:Ep; [| done |].
  - apply (padr_does_ext p s _ (fun _ => tags_outcome p s' s')); [|by eapply tags_outcome_spec].
    rewrite E. by eapply padr_parsed_tags_eq.
  - destruct y; try done. unfold padr_does, wp. rewrite E. by destruct (padr_verdict cfg (Sessions s) p).
Qed.

End Contract.

(** ** Theorems *)

(** C36. The access concentrator answers a PADI from a unicast address with
    exactly one PADO to that address: its name, the empty service name, the
    cookie of the client, and the relay-session and host-uniq tags the PADI
    carried last; nothing is sent when that does not fit in a packet or when
    the source address is not unicast.  The session table is left alone; only
    a failed write ends the server. *)
Theorem processPADI_offers cfg garbage garbage_tag garbage_ctx p len s :
  Config_ok cfg -> wf_packet garbage -> wf_tag garbage_tag -> ctx_ok garbage_ctx ->
  wf_packet p -> tags_ok s ->
  wp (processPADI cfg garbage garbage_tag garbage_ctx p len)
    (fun _ s' => after s (padi_answer cfg p) s') (fun c s' => c = 1 /\ after s [] s') s.
Proof. intros. by apply processPADI_spec. Qed.

(** C14. Admission: the server ignores a PADR unless it is addressed to it, from
    a unicast address, with the cookie it gives that address; it refuses one
    that asks for no or another service, or that comes when no slot is free;
    otherwise it takes the first free slot.  After [fork] the parent enters
    the child in that slot and sends nothing, the child sends one PADS with
    that slot's session number and becomes pppd for that session; when there
    is no child the client gets an error.  An acceptance always fits its
    packet. *)
Theorem processPADR_admits cfg garbage garbage_tag garbage_ctx p len s :
  Config_ok cfg -> wf_packet garbage -> wf_tag garbage_tag -> ctx_ok garbage_ctx ->
  wf_packet p -> tags_ok s ->
  padr_does cfg p s (processPADR cfg garbage garbage_tag garbage_ctx p len).
Proof. intros. by apply processPADR_does. Qed.

(** A PADT kills the child of the one session it names, if it is addressed
    to the server and that session is open, and does nothing else. *)
Theorem processPADT_kills cfg p len s :
  wf_packet p -> slots_ok cfg (Sessions s) ->
  processPADT cfg p len s = Ok tt (v_acts (acts s ++ padt_kills cfg s p) s).
Proof. intros. by apply processPADT_spec. Qed.

(** ** Witnesses *)

Definition some_config : Config := {|
  SessOffset := 10; Synchronous := false; UseLinuxKernelModePPPoE := false;
  CookieSeed := replicate 16 7; IfName := str "eth0"; ACName := str "ac"; PppoeOptions := [];
  LocalIP := [10; 0; 0; 1]; Eth_Discovery := ETH_PPPOE_DISCOVERY; sv_sock := 3;
  myAddr := [2; 0; 0; 0; 0; 1]; getpid := 99;
  PPPD_PATH := str "/usr/sbin/pppd"; PPPOE_PATH := str "/usr/sbin/pppoe";
  PLUGIN_PATH := str "/etc/ppp/rp-pppoe.so"; PPPOE_SERVER_OPTIONS := str "/etc/ppp/pppoe-server-options"
|}.

Definition some_slots : list ClientSession :=
  [mkClient 500 [10; 67; 15; 1] (htons 11) [2; 0; 0; 0; 0; 7];
   mkClient 0 [10; 67; 15; 2] (htons 12) (replicate 6 0)].

Definition some_server (fs : list Z) : Server :=
  mkServer some_slots empty_tag empty_tag empty_tag empty_tag false 0 (mkLink [] 0 0 []) [] fs [] [] [].

Definition some_frame (code sn : Z) (ts : list tag) : PPPoEPacket :=
  let p := packet_with ts in
  mkPacket (h_dest p) (h_source p) (h_proto p) 1 1 code sn (p_length p) (p_payload p).

Definition some_cookie : list Z := Eval vm_compute in cookie_for some_config [2; 0; 0; 0; 0; 2].
Definition some_padi : PPPoEPacket := some_frame CODE_PADI 0 two_tags.
Definition some_padr : PPPoEPacket :=
  some_frame CODE_PADR 0 [(TAG_SERVICE_NAME, []); (TAG_AC_COOKIE, some_cookie); (TAG_HOST_UNIQ, [1; 2])].
Definition some_padt : PPPoEPacket := some_frame CODE_PADT (htons 11) [].
Definition no_packet : PPPoEPacket := some_frame 0 0 [].
Definition no_context : MD5Context := mkMD5 [0; 0; 0; 0] 0 0 (replicate 64 0).

Lemma some_config_ok : Config_ok some_config.
Proof. split; repeat split; try done; apply forallb_bytes; vm_compute; done. Qed.

Lemma empty_stored : stored_ok empty_tag.
Proof. split; [|done]. repeat split; try done. apply forallb_bytes. vm_compute. done. Qed.

Lemma some_server_tags fs : tags_ok (some_server fs).
Proof. split; apply empty_stored. Qed.

Lemma some_slots_ok : slots_ok some_config some_slots.
Proof. split; [done|done|]. intros [|[|k]] c; cbn; [by intros [= <-]..|done]. Qed.

Lemma no_context_ok : ctx_ok no_context.
Proof. split; try done. apply forallb_bytes. vm_compute. done. Qed.

Lemma processPADI_offers_witness :
  let m := processPADI some_config no_packet empty_tag no_context some_padi 35 in
  wp m (fun _ s' => after (some_server []) (padi_answer some_config some_padi) s')
    (fun c s' => c = 1 /\ after (some_server []) [] s') (some_server []) /\
  length (padi_answer some_config some_padi) = 1%nat.
Proof.
  split; [|vm_compute; reflexivity].
  apply processPADI_offers.
  - apply some_config_ok.
  - apply wf_packetb_ok. vm_compute. reflexivity.
  - apply empty_stored.
  - apply no_context_ok.
  - apply wf_packetb_ok. vm_compute. reflexivity.
  - apply some_server_tags.
Defined.

Lemma processPADR_admits_witness :
  let m := processPADR some_config no_packet empty_tag no_context some_padr 58 in
  padr_does some_config some_padr (some_server [1234]) m /\
  padr_verdict some_config some_slots some_padr = Admit 1 /\
  match m (some_server [1234]) with
  | Ok _ s' => map pid (Sessions s') = [500; 1234] /\ acts s' = []
  | _ => False
  end /\
  match m (some_server [0]) with
  | Exit c s' => c = IMAGE_REPLACED /\ length (acts s') = 2%nat
  | _ => False
  end.
Proof.
  split; [|vm_compute; done].
  apply processPADR_admits.
  - apply some_config_ok.
  - apply wf_packetb_ok. vm_compute. reflexivity.
  - apply empty_stored.
  - apply no_context_ok.
  - apply wf_packetb_ok. vm_compute. reflexivity.
  - apply some_server_tags.
Defined.

Lemma processPADT_kills_witness :
  processPADT some_config some_padt 20 (some_server []) =
    Ok tt (v_acts (acts (some_server []) ++ padt_kills some_config (some_server []) some_padt) (some_server [])) /\
  padt_kills some_config (some_server []) some_padt = [SvKill 500].
Proof.
  split; [|vm_compute; reflexivity].
  apply processPADT_kills.
  - apply wf_packetb_ok. vm_compute. reflexivity.
  - apply some_slots_ok.
Defined.

(** A PADR with the right cookie and without service name, whose relay tag
    fills the packet. *)
Definition large_padr : PPPoEPacket :=
  some_frame CODE_PADR 0 [(TAG_AC_COOKIE, some_cookie); (TAG_RELAY_SESSION_ID, replicate 1466 1)].

