(* ===== verification/ServerLoop.v ===== *)
(** * ServerLoop: the access concentrator in service

    The invariant of the main loop of pppoe-server.c over any sequence of
    events: the table keeps its session numbers and addresses, no process sits
    in two slots, only processes the server forked are killed, and every frame
    sent is one of the answers of [ServerSafety]. *)

From stdpp Require Import base list numbers strings gmap.
From S2P Require Import Prelude Wire Tags Build Link Md5 Server ServerSafety.
Open Scope Z_scope.

(** ** Specification *)

(** The processes in the table. *)
Definition live (ss : list ClientSession) : list Z :=
  List.filter (fun p => negb (p =? 0)) (map pid ss).

(** Children to come. *)
Definition newborn (s : Server) : list Z := List.filter (fun p => 0 <? p) (forks s).

(** What a slot keeps. *)
Definition identity (c : ClientSession) : Z * list Z := (sess c, ip c).

(** Every process the server has or will have. *)
Definition family (s : Server) : list Z := live (Sessions s) ++ newborn s.

(** The actions of a server whose children come from [known]. *)
Inductive proper (cfg : Config) (known : list Z) : act -> Prop :=
| proper_pado dest ts :
    NOT_UNICAST dest = false -> fits ts = true -> proper cfg known (server_frame cfg dest CODE_PADO 0 ts)
| proper_refusal dest ty msg ts :
    NOT_UNICAST dest = false -> proper cfg known (server_frame cfg dest CODE_PADS (htons 0) ((ty, msg) :: ts))
| proper_pads dest k ts :
    NOT_UNICAST dest = false -> 0 <= k -> k + 1 + SessOffset cfg <= 65534 ->
    proper cfg known (server_frame cfg dest CODE_PADS (htons (k + 1 + SessOffset cfg)) ts)
| proper_kill p : p ∈ known -> proper cfg known (SvKill p)
| proper_exec c : proper cfg known (pppd_command cfg c).

(** A frame after which the longest error still fits its packet. *)
Definition MAX_POLITE : Z := 1485.
Definition polite (r : option (list Z)) : Prop :=
  match r with Some d => bytes d /\ zlen d <= MAX_POLITE | None => True end.

Record Server_ok (cfg : Config) (s : Server) : Prop := {
  so_tags : tags_ok s;
  so_slots : slots_ok cfg (Sessions s);
  so_reads : Forall polite (reads (sv_rx s));
  so_family : NoDup (family s)
}.

(** What a round keeps, and what it has done. *)
Record served (cfg : Config) (s s' : Server) : Prop := {
  sd_ok : Server_ok cfg s';
  sd_identity : map identity (Sessions s') = map identity (Sessions s);
  sd_family : family s' ⊆ family s;
  sd_acts : exists bs, acts s' = acts s ++ bs /\ Forall (proper cfg (family s)) bs
}.

(** How the process can end: an error, or as a child that becomes pppd. *)
Definition ended (cfg : Config) (s : Server) (code : Z) (s' : Server) : Prop :=
  (code = 1 \/ code = IMAGE_REPLACED) /\
  exists bs, acts s' = acts s ++ bs /\ Forall (proper cfg (family s)) bs.

(** ** The table *)

Lemma alter_middle {A} (f : A -> A) l1 x l2 : alter f (length l1) (l1 ++ x :: l2) = l1 ++ f x :: l2.
Proof. induction l1 as [|y l1 IH]; [done|]. cbn. f_equal. apply IH. Qed.

Lemma alter_out {A} (f : A -> A) (k : nat) (l : list A) : l !! k = None -> alter f k l = l.
Proof. revert k. induction l as [|x l IH]; intros [|k] H; try done. cbn. f_equal. by apply IH. Qed.

Lemma lookup_middle {A} (l : list A) k x : l !! k = Some x ->
  exists l1 l2, l = l1 ++ x :: l2 /\ length l1 = k.
Proof.
  intros H. exists (take k l), (drop (S k) l). split; [by rewrite take_drop_middle|].
  rewrite length_take. apply lookup_lt_Some in H. lia.
Qed.

Lemma live_app l1 l2 : live (l1 ++ l2) = live l1 ++ live l2.
Proof. unfold live. by rewrite map_app, List.filter_app. Qed.

Lemma live_cons c l : live (c :: l) = (if decide (pid c = 0) then [] else [pid c]) ++ live l.
Proof.
  unfold live. cbn. case_decide as D; [by rewrite D|]. apply Z.eqb_neq in D. by rewrite D.
Qed.

Lemma map_alter {A B} (g : A -> B) f k l : (forall x, g (f x) = g x) -> map g (alter f k l) = map g l.
Proof.
  intros H. revert k. induction l as [|x l IH]; intros [|k]; try done; cbn.
  - by rewrite H.
  - f_equal. apply IH.
Qed.

Lemma slots_identity cfg ss ss' : map identity ss' = map identity ss -> slots_ok cfg ss -> slots_ok cfg ss'.
Proof.
  intros E [O R N]. assert (L : length ss' = length ss) by (apply (f_equal length) in E; by rewrite !length_map in E).
  split; [done|unfold zlen in *; by rewrite L|]. intros k c Hk.
  assert (H : map identity ss' !! k = Some (identity c)) by (by rewrite list_lookup_fmap, Hk).
  rewrite E in H. apply list_lookup_fmap_Some in H as (c0 & H1 & H2). injection H1 as H1 _.
  rewrite H1. by apply N.
Qed.

(** Entering a process in a free slot, and removing one. *)
Lemma live_enter ss k c r f : ss !! k = Some c -> pid c = 0 -> r <> 0 -> pid (f c) = r ->
  live (alter f k ss) ≡ₚ r :: live ss.
Proof.
  intros Hk Hc Hr Hf. apply lookup_middle in Hk as (l1 & l2 & -> & <-).
  rewrite alter_middle, !live_app, !live_cons, Hf, Hc, decide_False, decide_True by done. cbn.
  by rewrite Permutation_middle.
Qed.

Lemma live_leave ss k : live (alter (set_pid 0) k ss) `sublist_of` live ss.
Proof.
  destruct (ss !! k) as [c|] eqn:Hk.
  - apply lookup_middle in Hk as (l1 & l2 & -> & <-).
    rewrite alter_middle, !live_app, !live_cons. apply sublist_app; [done|]. cbn.
    apply sublist_inserts_l. done.
  - by rewrite alter_out.
Qed.

(** ** What is kept *)

Lemma proper_mono cfg known known' a : known ⊆ known' -> proper cfg known a -> proper cfg known' a.
Proof. intros H []; constructor; auto. Qed.

Lemma served_trans cfg s s1 s2 : served cfg s s1 -> served cfg s1 s2 -> served cfg s s2.
Proof.
  intros [_ I1 F1 (b1 & A1 & P1)] [O I2 F2 (b2 & A2 & P2)]. split; [done|congruence|set_solver|].
  exists (b1 ++ b2). split; [by rewrite A2, A1, app_assoc|]. apply Forall_app. split; [done|].
  eapply Forall_impl; [done|]. intros a. by apply proper_mono.
Qed.

Lemma ended_trans cfg s s1 code s2 : served cfg s s1 -> ended cfg s1 code s2 -> ended cfg s code s2.
Proof.
  intros [_ _ F1 (b1 & A1 & P1)] [C (b2 & A2 & P2)]. split; [done|].
  exists (b1 ++ b2). split; [by rewrite A2, A1, app_assoc|]. apply Forall_app. split; [done|].
  eapply Forall_impl; [done|]. intros a. by apply proper_mono.
Qed.

(** A change of the table and of what is to come. *)
Lemma served_state cfg s s' bs : Server_ok cfg s -> tags_ok s' ->
  map identity (Sessions s') = map identity (Sessions s) ->
  Forall polite (reads (sv_rx s')) -> NoDup (family s') -> family s' ⊆ family s ->
  acts s' = acts s ++ bs -> Forall (proper cfg (family s)) bs -> served cfg s s'.
Proof.
  intros [] T I R N F A P. split; [|done|done|by exists bs]. split; try done. by eapply slots_identity.
Qed.

Lemma served_after cfg s bs s' : Server_ok cfg s -> after s bs s' ->
  Forall (proper cfg (family s)) bs -> served cfg s s'.
Proof.
  intros O (T & R & A) P. apply rest_fields in R as (E1 & _ & _ & E2 & E3 & _ & _).
  assert (F : family s' = family s) by (unfold family, newborn; by rewrite E1, E3).
  eapply served_state; try done; rewrite ?E1, ?E2, ?F; try done; apply O.
Qed.

Lemma served_refl cfg s : Server_ok cfg s -> served cfg s s.
Proof. intros O. eapply served_after; [done|by apply after_refl, O|constructor]. Qed.

Lemma ended_after cfg s bs s' : after s bs s' -> Forall (proper cfg (family s)) bs -> ended cfg s 1 s'.
Proof. intros (_ & _ & A) P. split; [by left|]. by exists bs. Qed.

(** ** Reaping *)

Lemma served_reap cfg s k ws : Server_ok cfg s ->
  served cfg s (v_Sessions (alter (set_pid 0) k (Sessions s)) (v_waits ws s)).
Proof.
  intros O. destruct O as [[] SL R N].
  assert (S : family (v_Sessions (alter (set_pid 0) k (Sessions s)) (v_waits ws s)) `sublist_of` family s).
  { unfold family, newborn. cbn. apply sublist_app; [apply live_leave|done]. }
  eapply (served_state _ _ _ []); try done.
  - cbn. by apply map_alter.
  - by eapply sublist_NoDup.
  - by apply sublist_subseteq.
  - cbn. by rewrite app_nil_r.
Qed.

Lemma served_waits cfg s ws : Server_ok cfg s -> served cfg s (v_waits ws s).
Proof.
  intros O. destruct O as [[] SL R N]. eapply (served_state _ _ _ []); try done. by rewrite app_nil_r.
Qed.

Lemma wp_reap_loop cfg s0 fuel : forall s, served cfg s0 s -> (length (waits s) < fuel)%nat ->
  wp (reap_loop fuel) (fun _ s' => served cfg s0 s') (fun _ _ => False) s.
Proof.
  induction fuel as [|fuel IH]; intros s O Hf; [lia|]. cbn [reap_loop]. apply wp_bind.
  unfold waitpid, wp at 1. destruct (waits s) as [|p ws] eqn:Ew.
  { rewrite decide_False by lia. done. }
  pose proof (served_trans _ _ _ _ O (served_waits cfg s ws (sd_ok _ _ _ O))) as O1.
  case_decide; [|done]. apply wp_get_bind, wp_bind.
  destruct (findSession p (v_waits ws s)) as [k|].
  - apply wp_modify, IH; [|cbn in *; lia]. eapply served_trans; [exact O|].
    exact (served_reap cfg s k ws (sd_ok _ _ _ O)).
  - apply wp_ret, IH; [done|cbn in *; lia].
Qed.

Lemma wp_reapSessions cfg s : Server_ok cfg s ->
  wp reapSessions (fun _ s' => served cfg s s') (fun _ _ => False) s.
Proof. intros O. apply wp_get_bind, wp_reap_loop; [by apply served_refl|lia]. Qed.

(** ** Handlers *)

(** The longest error fits when the packet is polite and its cookie right. *)
Lemma polite_error cfg ss p ty msg : wf_packet p -> ntohs (p_length p) <= MAX_POLITE - HDR_SIZE ->
  tags_verdict cfg ss p <> Ignore -> zlen msg <= 49 -> error_fits p ty msg.
Proof.
  intros W L V Lm. unfold tags_verdict in V. case_decide as D; [|done].
  unfold error_fits, fits. apply bool_decide_eq_true. rewrite encode_cons, zlen_app, zlen_encode_tag.
  unfold echo_tags. rewrite encode_app, zlen_app. cbn [snd].
  pose proof (the_tags_room [TAG_AC_COOKIE; TAG_RELAY_SESSION_ID; TAG_HOST_UNIQ] (packet_tags p).1) as R.
  cbn [room_of] in R. pose proof (packet_tags_sound p W) as (_ & _ & S & _).
  unfold the_tag in R at 1. rewrite D, zlen_encode_one in R. cbn [snd] in R.
  pose proof (proj2 (cookie_for_ok cfg (h_source p))) as Lc.
  assert (N : NoDup [TAG_AC_COOKIE; TAG_RELAY_SESSION_ID; TAG_HOST_UNIQ]).
  { refine (bool_decide_unpack _ _). vm_compute. exact I. }
  specialize (R N). unfold COOKIE_LEN, MD5_LEN, MAX_POLITE, HDR_SIZE, MAX_PPPOE_PAYLOAD, PPPOE_OVERHEAD, ETH_DATA_LEN in *.
  lia.
Qed.

Lemma msgs_short ss cfg p ty msg : tags_verdict cfg ss p = Refuse ty msg -> zlen msg <= 49.
Proof.
  unfold tags_verdict. repeat case_match; intros V; try discriminate V; injection V as <- <-;
    apply Z.leb_le; vm_compute; done.
Qed.

Section Loop.
Context (cfg : Config) (garbage : PPPoEPacket) (garbage_tag : PPPoETag) (garbage_ctx : MD5Context).
Context (Cok : Config_ok cfg) (Wg : wf_packet garbage) (Wt : wf_tag garbage_tag) (Wc : ctx_ok garbage_ctx).

Lemma padi_proper p known : Forall (proper cfg known) (padi_answer cfg p).
Proof.
  unfold padi_answer. destruct (NOT_UNICAST _) eqn:E; [constructor|]. destruct (fits _) eqn:F; [|constructor].
  apply Forall_singleton. by apply proper_pado.
Qed.

Lemma wp_padi p len s : wf_packet p -> Server_ok cfg s ->
  wp (processPADI cfg garbage garbage_tag garbage_ctx p len) (fun _ s' => served cfg s s') (ended cfg s) s.
Proof using Cok Wg Wt Wc.
  intros W O. eapply wp_mono; [apply processPADI_spec; try done; apply O|..].
  - intros ? s' A. eapply served_after; [done|exact A|apply padi_proper].
  - intros c s' [-> A]. eapply ended_after; [exact A|constructor].
Qed.

Lemma wp_padt p len s : wf_packet p -> Server_ok cfg s ->
  wp (processPADT cfg p len) (fun _ s' => served cfg s s') (ended cfg s) s.
Proof.
  intros W O. unfold wp. rewrite processPADT_spec by (done || apply O).
  assert (P : Forall (proper cfg (family s)) (padt_kills cfg s p)).
  { unfold padt_kills. destruct (mac_eqb _ _); [|constructor]. cbn [negb].
    destruct (list_find _ _) as [[k c]|] eqn:E; [|constructor].
    apply list_find_Some in E as (E1 & (E2 & E3) & _). apply Forall_singleton, proper_kill.
    apply elem_of_app. left. unfold live. apply list_elem_of_In, filter_In. split.
    - apply in_map, list_elem_of_In. by eapply list_elem_of_lookup_2.
    - by apply negb_true_iff, Z.eqb_neq. }
  eapply served_after; [done| |exact P]. split; [|done]. destruct (so_tags _ _ O). by split.
Qed.

Lemma padr_known p ss k : tags_verdict cfg ss p = Admit k ->
  exists c, ss !! k = Some c /\ pid c = 0.
Proof.
  unfold tags_verdict. repeat case_match; intros V; try discriminate V. injection V as <-. subst.
  match goal with H : list_find _ _ = _ |- _ => apply list_find_Some in H as (H1 & H2 & _) end. eauto.
Qed.

Lemma newborn_split s : let r := hd (-1) (forks s) in
  newborn s = (if decide (r > 0) then [r] else []) ++ newborn (v_forks (tail (forks s)) s).
Proof.
  unfold newborn. destruct (forks s) as [|r rs]; [done|]. cbn.
  destruct (Z.ltb_spec 0 r); case_decide; done || lia.
Qed.

(** A slot reserved for a client: the table's processes are the same. *)
Lemma served_forked p k s : Server_ok cfg s -> hd (-1) (forks s) <= 0 ->
  served cfg s (forked p k (tail (forks s)) s).
Proof.
  intros O Hr. pose proof (newborn_split s) as N. cbn zeta in N. rewrite decide_False in N by lia.
  assert (F : family (forked p k (tail (forks s)) s) = family s).
  { unfold family. rewrite N. cbn. f_equal. unfold live. by rewrite map_alter. }
  destruct O as [[] SL R Nd]. eapply (served_state _ _ _ []); rewrite ?F; try done.
  - cbn. by apply map_alter.
  - by rewrite app_nil_r.
Qed.

(** A child entered in its slot. *)
Lemma served_entered p k s : Server_ok cfg s -> tags_verdict cfg (Sessions s) p = Admit k ->
  hd (-1) (forks s) > 0 ->
  served cfg s (v_Sessions (alter (fun c => set_pid (hd (-1) (forks s)) (admitted p c)) k (Sessions s))
                  (v_forks (tail (forks s)) s)).
Proof.
  intros O V Hr. destruct (padr_known _ _ _ V) as (c & Hk & Hc).
  pose proof (newborn_split s) as N. cbn zeta in N. rewrite decide_True in N by lia.
  set (s' := v_Sessions _ _).
  assert (F : family s' ≡ₚ family s).
  { unfold family. rewrite N. unfold s'. cbn [Sessions v_Sessions v_forks].
    rewrite (live_enter _ _ _ (hd (-1) (forks s)) _ Hk Hc) by (done || lia).
    change (newborn (v_Sessions _ (v_forks (tail (forks s)) s))) with (newborn (v_forks (tail (forks s)) s)).
    cbn. by rewrite Permutation_middle. }
  destruct O as [[] SL R Nd]. eapply (served_state _ _ _ []); try done.
  - cbn. by apply map_alter.
  - by rewrite F.
  - intros x. by rewrite F.
  - cbn. by rewrite app_nil_r.
Qed.

Lemma wp_padr p len s : wf_packet p -> ntohs (p_length p) <= MAX_POLITE - HDR_SIZE -> Server_ok cfg s ->
  wp (processPADR cfg garbage garbage_tag garbage_ctx p len) (fun _ s' => served cfg s s') (ended cfg s) s.
Proof using Cok Wg Wt Wc.
  intros W L O. pose proof (processPADR_does cfg garbage garbage_tag garbage_ctx Cok Wg Wt Wc p len s W (so_tags _ _ O)) as D.
  unfold padr_does in D. rewrite verdict_unfold in D.
  destruct (negb (mac_eqb _ _)); cbn [orb] in D.
  { eapply wp_mono; [exact D| |done]. intros ? s' A. eapply served_after; [done|exact A|constructor]. }
  destruct (NOT_UNICAST (h_source p)) eqn:U.
  { eapply wp_mono; [exact D| |done]. intros ? s' A. eapply served_after; [done|exact A|constructor]. }
  assert (PE : forall ty msg known, Forall (proper cfg known) [error_frame cfg p ty msg])
    by (intros; by apply Forall_singleton, proper_refusal).
  destruct (tags_verdict cfg (Sessions s) p) as [|ty msg|k] eqn:V.
  - eapply wp_mono; [exact D| |done]. intros ? s' A. eapply served_after; [done|exact A|constructor].
  - assert (F : error_fits p ty msg) by (eapply polite_error; [done|done|by rewrite V|by eapply msgs_short]).
    eapply wp_mono; [exact (D F)|..].
    + intros ? s' A. eapply served_after; [done|exact A|apply PE].
    + intros c s' [-> A]. eapply ended_after; [exact A|constructor].
  - cbn zeta in D. set (r := hd (-1) (forks s)) in *. destruct D as (D1 & D2 & D3).
    destruct (padr_known _ _ _ V) as (c & Hk & Hc).
    destruct (decide (r < 0)) as [R1|R1]; [|destruct (decide (r = 0)) as [R2|R2]].
    + assert (F : error_fits p TAG_AC_SYSTEM_ERROR no_process_msg).
      { eapply polite_error; [done|done|by rewrite V|]. apply Z.leb_le. vm_compute. done. }
      assert (S : served cfg s (forked p k (tail (forks s)) s)) by (apply served_forked; [done|lia]).
      eapply wp_mono; [exact (D1 R1 F)|..].
      * intros ? s' A. eapply served_trans; [exact S|]. eapply served_after; [apply S|exact A|apply PE].
      * intros c' s' [-> A]. eapply ended_trans; [exact S|]. eapply ended_after; [exact A|constructor].
    + eapply wp_mono; [exact (D3 R2 c Hk)|done|]. intros code s' [_ E].
      pose proof (sl_num _ _ (so_slots _ _ O) k c Hk) as Es. pose proof (so_slots _ _ O) as [_ Rm _].
      apply lookup_lt_Some in Hk. unfold zlen in Rm.
      assert (PP : Forall (proper cfg (family s)) [pads_frame cfg p (admitted p c)]).
      { apply Forall_singleton. unfold pads_frame. cbn [admitted sess set_eth]. rewrite Es.
        apply proper_pads; done || lia. }
      destruct E as [[-> A]|[(-> & _ & A)|(-> & _ & A)]]; (split; [auto|]).
      * eexists. split; [exact A|]. apply Forall_cons. split; [by apply Forall_cons in PP as [PP _]|].
        apply Forall_singleton, proper_exec.
      * by eexists.
      * exists []. by rewrite app_nil_r.
    + eapply wp_mono; [apply D2; lia| |done]. intros ? s' A.
      assert (S := served_entered p k s O V ltac:(lia)).
      eapply served_trans; [exact S|]. eapply served_after; [apply S|exact A|constructor].
Qed.

(** ** The loop *)

Lemma wp_serve in_sock in_pipe pkt len s : wf_packet pkt -> Server_ok cfg s ->
  wp (serve cfg garbage garbage_tag garbage_ctx in_sock in_pipe pkt len)
    (fun r s' => wf_packet r.1 /\ served cfg s s') (ended cfg s) s.
Proof using Cok Wg Wt Wc.
  intros W O. unfold serve. apply wp_bind.
  assert (S1 : wp (if in_pipe then
      let! s := get in
      if decide (pipeBytes s <= 0) then halt Blocked
      else modify (fun s => v_reap (ReapPending s) (Z.max 0 (pipeBytes s - SMALLBUF)) s)
    else ret tt) (fun _ s' => served cfg s s') (ended cfg s) s).
  { destruct in_pipe; [|by apply served_refl]. apply wp_get_bind. case_decide; [done|]. apply wp_modify.
    destruct O as [[] SL R N]. eapply (served_state _ _ _ []); try done. by rewrite app_nil_r. }
  eapply wp_mono; [exact S1| |done]. clear S1. intros ? s1 S1. apply wp_get_bind, wp_bind.
  eapply (wp_mono _ (fun _ s' => served cfg s s') _ (ended cfg s)); [| |done].
  { destruct (ReapPending s1); [|done]. apply wp_modify_bind.
    eapply wp_mono; [apply wp_reapSessions|..].
    - destruct (sd_ok _ _ _ S1) as [[] SL R N]. by split.
    - intros ? s' S'. eapply served_trans; [exact S1|]. destruct S'. by split.
    - done. }
  intros ? s2 S2. destruct in_sock; cbn [negb]; [|by apply wp_ret]. apply wp_bind.
  pose proof (so_reads _ _ (sd_ok _ _ _ S2)) as Rd.
  unfold wp at 1, receive, receivePacket_raw, next_read, bind.
  destruct (reads (sv_rx s2)) as [|r rds] eqn:Er; [done|]. apply Forall_cons in Rd as [Hr Rd].
  set (l := mkLink _ _ _ rds).
  assert (S3 : served cfg s (v_rx l s2)).
  { eapply served_trans; [exact S2|]. destruct (sd_ok _ _ _ S2) as [[] SL R N].
    eapply (served_state _ _ _ []); try done. by rewrite app_nil_r. }
  destruct r as [d|]; cbn; [|by apply wp_ret]. destruct Hr as [Bd Hd].
  set (d' := take (Z.to_nat sizeof_PPPoEPacket) d).
  assert (Ld : zlen d' <= sizeof_PPPoEPacket /\ zlen d' <= MAX_POLITE).
  { unfold d', zlen in *. rewrite length_take. change sizeof_PPPoEPacket with 1520. lia. }
  assert (Bd' : bytes d') by by apply bytes_take.
  rewrite overwrite_Some by (done || apply Ld). cbn. set (p := packet_of_bytes _).
  assert (Wp : wf_packet p) by (apply overwrite_wf; [done|done|apply Ld]).
  case_decide; [lia|]. destruct (bogus_length p (zlen d')) eqn:Lb; [by apply wp_ret|].
  pose proof (bogus_length_false p _ Wp Lb (zlen_nonneg d')) as Lp.
  case_decide; [by apply wp_ret|]. apply wp_bind.
  eapply (wp_mono _ (fun _ s' => served cfg s s') _ (ended cfg s)); [| |done].
  2: { intros ? s4 S4. by apply wp_ret. }
  pose proof (sd_ok _ _ _ S3) as O3.
  repeat case_decide; try by apply wp_ret.
  all: eapply wp_mono; [first [by apply wp_padi | by apply wp_padt | apply wp_padr; [done|lia|done]]|..].
  all: intros ? s' S'; first [by eapply served_trans | by eapply ended_trans].
Qed.

Lemma wp_server_loop evs : forall pkt len s, wf_packet pkt -> Server_ok cfg s ->
  wp (server_loop cfg garbage garbage_tag garbage_ctx evs pkt len)
    (fun _ s' => served cfg s s') (ended cfg s) s.
Proof using Cok Wg Wt Wc.
  induction evs as [|e evs IH]; intros pkt len s W O; cbn [server_loop]; [by apply served_refl|].
  destruct e as [| | |in_sock in_pipe].
  - apply wp_bind. unfold childHandler. apply wp_get_bind. destruct (ReapPending s); [by apply wp_ret, IH|].
    apply wp_modify. set (s1 := v_reap _ _ s).
    assert (S1 : served cfg s s1).
    { destruct O as [[] SL R N]. eapply (served_state _ _ _ []); try done. by rewrite app_nil_r. }
    eapply wp_mono; [apply (IH pkt len s1); [done|apply S1]|..].
    + intros ? s' S'. by eapply served_trans.
    + intros c s' S'. by eapply ended_trans.
  - by apply IH.
  - split; [by left|]. exists []. by rewrite app_nil_r.
  - apply wp_bind. eapply wp_mono; [by apply wp_serve| |done]. intros [pkt' len'] s1 [W1 S1].
    eapply wp_mono; [apply (IH pkt' len' s1); [done|apply S1]|..].
    + intros ? s' S'. by eapply served_trans.
    + intros c s' S'. by eapply ended_trans.
Qed.

End Loop.


(** A PADI, a PADR and a PADT come in, then the child is reaped. *)
Definition busy_frames : list (option (list Z)) :=
  map (fun p => Some (take 80 (packet_bytes p))) [some_padi; some_padr; some_padt].
Definition busy_server : Server :=
  mkServer some_slots empty_tag empty_tag empty_tag empty_tag false 0 (mkLink [] 0 0 busy_frames) []
    [1234] [500] [] [].
Definition busy_events : list sv_event :=
  [SvReady true false; SvIntr; SvReady true false; SvReady true false; SvChild; SvReady false true].

Lemma busy_server_ok : Server_ok some_config busy_server.
Proof.
  split; [split; apply empty_stored|apply some_slots_ok| |].
  - repeat (apply Forall_cons; split); try apply Forall_nil; try done;
      (split; [apply forallb_bytes; vm_compute; done|vm_compute; done]).
  - refine (bool_decide_unpack _ _). vm_compute. exact I.
Qed.

