(* ===== verification/ServerReap.v ===== *)
(** * ServerReap: no exited child is forgotten (pppoe-server.c)

    The main loop of the server sleeps in [select]; SIGCHLD may come between
    any two of its statements.  [childHandler] and the loop share [ReapPending]
    and a pipe.  The loop is cut here at the statements that touch them, so
    that the handler can run in between. *)

From stdpp Require Import base list numbers relations.
From S2P Require Import Prelude.
Open Scope Z_scope.

(** ** The machine *)

(** Where [main] is: at [select], at the test of [Pipe[0]] (with what [select]
    said of it), at [if (ReapPending)], in [reapSessions], or handling a
    packet. *)
Inductive point := AtSelect | AtRead (in_pipe : bool) | AtTest | AtReap | AtRest.

(** [zombies] counts the children that have exited and are not reaped;
    [signalled] tells that SIGCHLD is not delivered yet. *)
Record view := mkView {
  at_ : point;
  pending : bool;
  piped : Z;
  zombies : nat;
  signalled : bool
}.

Definition SMALLBUF : Z := 256.

(** [childHandler]. *)
Definition handle (v : view) : view :=
  if pending v then mkView (at_ v) true (piped v) (zombies v) false
  else mkView (at_ v) true (piped v + 1) (zombies v) false.

(** The next statement of [main]; [select] waits when nothing is readable. *)
Definition main_step (in_sock : bool) (v : view) : option view :=
  match at_ v with
  | AtSelect =>
      if (0 <? piped v) || in_sock
      then Some (mkView (AtRead (0 <? piped v)) (pending v) (piped v) (zombies v) (signalled v)) else None
  | AtRead true => Some (mkView AtTest (pending v) (Z.max 0 (piped v - SMALLBUF)) (zombies v) (signalled v))
  | AtRead false => Some (mkView AtTest (pending v) (piped v) (zombies v) (signalled v))
  | AtTest => if pending v then Some (mkView AtReap false (piped v) (zombies v) (signalled v))
              else Some (mkView AtRest false (piped v) (zombies v) (signalled v))
  | AtReap => Some (mkView AtRest (pending v) (piped v) 0 (signalled v))
  | AtRest => Some (mkView AtSelect (pending v) (piped v) (zombies v) (signalled v))
  end.

(** The loop, its children and the signal, in any interleaving. *)
Inductive step : view -> view -> Prop :=
| step_main in_sock v v' : main_step in_sock v = Some v' -> step v v'
| step_exit v : step v (mkView (at_ v) (pending v) (piped v) (S (zombies v)) true)
| step_signal v : signalled v = true -> step v (handle v).

Definition start : view := mkView AtSelect false 0 0 false.
Definition reachable : view -> Prop := rtc step start.

(** Statements of [main] with no signal in between. *)
Fixpoint run (socks : list bool) (v : view) : option view :=
  match socks with
  | [] => Some v
  | b :: bs => match main_step b v with Some v => run bs v | None => None end
  end.

(** ** Proof *)

Record awake (v : view) : Prop := {
  aw_bytes : 0 <= piped v;
  aw_pending : pending v = true -> 0 < piped v \/ at_ v = AtTest;
  aw_zombies : zombies v <> 0%nat -> signalled v = true \/ pending v = true \/ at_ v = AtReap
}.

Lemma awake_step v v' : step v v' -> awake v -> awake v'.
Proof.
  intros S [B P Z]. destruct S as [b v v' E|v|v E].
  - unfold main_step in E. destruct v as [[|[]| | |] [] n z []]; cbn in *; simplify_eq/=;
      repeat case_match; simplify_eq/=; split; cbn; try (intros; lia || naive_solver lia).
  - split; cbn; [done|done|]. by left.
  - unfold handle. destruct v as [a [] n z []]; cbn in *; split; cbn; try lia; try naive_solver.
Qed.

Lemma reachable_awake v : reachable v -> awake v.
Proof.
  intros R. assert (A : awake start) by (split; cbn; [lia|done|done]).
  unfold reachable in R. revert A. induction R; eauto using awake_step.
Qed.

(** C16. No child is forgotten: whenever a child has exited and its signal was
    delivered, wherever in the loop that was, [main] is not stuck in [select]:
    within five statements, whether or not packets arrive, all exited children
    are reaped. *)
Theorem children_are_reaped v socks :
  reachable v -> zombies v <> 0%nat -> signalled v = false -> length socks = 5%nat ->
  exists k v', run (take k socks) v = Some v' /\ zombies v' = 0%nat.
Proof.
  intros R Hz Hs L. destruct (reachable_awake v R) as [B P Z]. specialize (Z Hz).
  destruct socks as [|b1 [|b2 [|b3 [|b4 [|b5 [|]]]]]]; try done. clear L R.
  destruct v as [[|[]| | |] [] n z []]; cbn in *; try done; try (exfalso; naive_solver).
  all: try (assert (Hn : 0 < n) by (destruct P; done || lia); apply Z.ltb_lt in Hn).
  - exists 4%nat. cbn. rewrite Hn. cbn. eauto.
  - exists 3%nat. cbn. eauto.
  - exists 3%nat. cbn. eauto.
  - exists 2%nat. cbn. eauto.
  - exists 1%nat. cbn. eauto.
  - exists 1%nat. cbn. eauto.
  - exists 5%nat. cbn. rewrite Hn. cbn. eauto.
Qed.

(** A child exits while [main] is between the test of the pipe and the test of
    [ReapPending]. *)
Definition late : view := mkView AtTest true 1 1 false.

Lemma late_reachable : reachable late.
Proof.
  unfold reachable.
  eapply rtc_l; [exact (step_main true start (mkView (AtRead false) false 0 0 false) eq_refl)|].
  eapply rtc_l; [apply step_exit|]. eapply rtc_l; [by apply step_signal|].
  eapply rtc_l; [by apply (step_main true)|]. apply rtc_refl.
Qed.

Lemma children_are_reaped_witness :
  zombies late = 1%nat /\
  exists k v', run (take k [false; false; false; false; false]) late = Some v' /\ zombies v' = 0%nat.
Proof.
  split; [reflexivity|].
  apply (children_are_reaped late [false; false; false; false; false]);
    [apply late_reachable|discriminate|reflexivity|reflexivity].
Defined.
