(* ===== verification/ServerMain.v ===== *)
(** * ServerMain: starting the access concentrator (pppoe-server.c)

    Options, session slots with their numbers and addresses, cookie seed and
    daemon set-up, up to the entry of [server_loop]. *)

From stdpp Require Import base list numbers strings gmap.
From S2P Require Import Prelude Wire Tags Build Link Server ServerSafety ServerLoop.
Open Scope Z_scope.

Definition DEFAULT_MAX_SESSIONS : Z := 64.
Definition HOSTNAMELEN : Z := 256.
Definition DEFAULT_IF : list Z := str "eth0".

(** ** State before the loop *)

(** What [getopt] delivers; numbers are what [sscanf] reads, [None] when it
    does not read what the option wants. *)
Inductive sv_opt :=
| O_k | O_s | O_F | O_h | O_unknown
| O_f (arg : list Z) (types : option (Z * Z))
| O_N (arg : option Z) | O_o (arg : option Z)
| O_I (arg : list Z) | O_C (arg : list Z)
| O_L (arg : option (list Z)) | O_R (arg : option (list Z))
| O_T (arg : list Z) | O_m (arg : list Z).

(** [forks_] holds what the next calls of [fork] return. *)
Record Options := mkOptions {
  NumSlots : Z;
  offset : Z;
  synchronous : bool;
  kernelMode : bool;
  ifName : option (list Z);
  acName : option (list Z);
  pppoeOptions : list Z;
  localIP : list Z;
  remoteIP : list Z;
  discovery : Z;
  session : Z;
  beDaemon : bool;
  forks_ : list Z
}.

Definition o_slots v o := mkOptions v (offset o) (synchronous o) (kernelMode o) (ifName o) (acName o)
  (pppoeOptions o) (localIP o) (remoteIP o) (discovery o) (session o) (beDaemon o) (forks_ o).
Definition o_offset v o := mkOptions (NumSlots o) v (synchronous o) (kernelMode o) (ifName o) (acName o)
  (pppoeOptions o) (localIP o) (remoteIP o) (discovery o) (session o) (beDaemon o) (forks_ o).
Definition o_sync o := mkOptions (NumSlots o) (offset o) true (kernelMode o) (ifName o) (acName o)
  (pppoeOptions o) (localIP o) (remoteIP o) (discovery o) (session o) (beDaemon o) (forks_ o).
Definition o_kernel o := mkOptions (NumSlots o) (offset o) (synchronous o) true (ifName o) (acName o)
  (pppoeOptions o) (localIP o) (remoteIP o) (discovery o) (session o) (beDaemon o) (forks_ o).
Definition o_names i a o := mkOptions (NumSlots o) (offset o) (synchronous o) (kernelMode o) i a
  (pppoeOptions o) (localIP o) (remoteIP o) (discovery o) (session o) (beDaemon o) (forks_ o).
Definition o_text v o := mkOptions (NumSlots o) (offset o) (synchronous o) (kernelMode o) (ifName o) (acName o)
  v (localIP o) (remoteIP o) (discovery o) (session o) (beDaemon o) (forks_ o).
Definition o_ips l r o := mkOptions (NumSlots o) (offset o) (synchronous o) (kernelMode o) (ifName o) (acName o)
  (pppoeOptions o) l r (discovery o) (session o) (beDaemon o) (forks_ o).
Definition o_types d s o := mkOptions (NumSlots o) (offset o) (synchronous o) (kernelMode o) (ifName o) (acName o)
  (pppoeOptions o) (localIP o) (remoteIP o) d s (beDaemon o) (forks_ o).
Definition o_daemon v o := mkOptions (NumSlots o) (offset o) (synchronous o) (kernelMode o) (ifName o) (acName o)
  (pppoeOptions o) (localIP o) (remoteIP o) (discovery o) (session o) v (forks_ o).
Definition o_forks v o := mkOptions (NumSlots o) (offset o) (synchronous o) (kernelMode o) (ifName o) (acName o)
  (pppoeOptions o) (localIP o) (remoteIP o) (discovery o) (session o) (beDaemon o) v.

(** The initial values of the globals. *)
Definition options0 (fs : list Z) : Options :=
  mkOptions DEFAULT_MAX_SESSIONS 0 false false None None [] [10; 0; 0; 1] [10; 67; 15; 1]
    ETH_PPPOE_DISCOVERY ETH_PPPOE_SESSION true fs.

(** ** The code *)

(** [snprintf(PppoeOptions + strlen(PppoeOptions), SMALLBUF-strlen(PppoeOptions), ...)]. *)
Definition append_option (text : list Z) : Cmd Options unit :=
  modify (fun o => o_text (pppoeOptions o ++ snprintf (SMALLBUF - zlen (pppoeOptions o)) text) o).

(** The four numbers of an address. *)
Definition get_ip (d : option (list Z)) : Cmd Options (list Z) :=
  match d with
  | None => exit 1
  | Some d => if forallb (fun x => (0 <=? x) && (x <=? 255)) d then ret d else exit 1
  end.

Definition server_option (op : sv_opt) : Cmd Options unit :=
  match op with
  | O_k => modify o_kernel
  | O_s => do! modify o_sync ;; append_option (str " -s")
  | O_f arg None => exit 1
  | O_f arg (Some (d, s)) =>
      do! modify (o_types (u16 d) (u16 s)) ;; append_option (str " -f " ++ arg)
  | O_F => modify (o_daemon false)
  | O_N None => exit 1
  | O_N (Some n) => if decide (n <= 0) then exit 1 else modify (o_slots n)
  | O_o None => exit 1
  | O_o (Some n) => if decide (n < 0) then exit 1 else modify (o_offset n)
  | O_I arg => modify (fun o => o_names (Some arg) (acName o) o)
  | O_C arg => modify (fun o => o_names (ifName o) (Some arg) o)
  | O_L d => let! ip := get_ip d in modify (fun o => o_ips ip (remoteIP o) o)
  | O_R d => let! ip := get_ip d in modify (fun o => o_ips (localIP o) ip o)
  | O_T arg => append_option (str " -T " ++ arg)
  | O_m arg => append_option (str " -m " ++ arg)
  | O_h => exit 0
  | O_unknown => ret tt
  end.

Fixpoint server_options (ops : list sv_opt) : Cmd Options unit :=
  match ops with
  | [] => ret tt
  | op :: ops => do! server_option op ;; server_options ops
  end.

(** Increment the address counter. *)
Definition next_ip (ip : list Z) : list Z :=
  match ip with
  | [a; b; c; d] =>
      let d := u8 (d + 1) in
      if decide (d = 0 \/ d = 255) then
        let c := u8 (c + 1) in
        if decide (c = 0) then
          let b := u8 (b + 1) in
          if decide (b = 0) then [u8 (a + 1); b; c; 1] else [a; b; c; 1]
        else [a; b; c; 1]
      else [a; b; c; d]
  | _ => ip
  end.

(** [for(i=0; i<NumSessionSlots; i++) ...]; calloc has cleared [eth]. *)
Fixpoint init_slots (n : nat) (i off : Z) (ip : list Z) : list ClientSession :=
  match n with
  | O => []
  | S n => mkClient 0 ip (htons (i + 1 + off)) (replicate 6 0) :: init_slots n (i + 1) off (next_ip ip)
  end.

(** The cookie seed: what [fread] got from /dev/urandom over the zeroed array,
    or bytes of the process id and of [rand]. *)
Definition cookie_seed (urandom : option (list Z)) (pid : Z) (rands : nat -> Z) : list Z :=
  match urandom with
  | Some got => let got := take 16 got in got ++ replicate (16 - length got) 0
  | None => [Z.land pid 0xFF; Z.land (Z.shiftr pid 8) 0xFF] ++
            map (fun i => Z.land (Z.shiftr (rands i) (Z.of_nat (i mod 9))) 0xFF) (seq 2 14)
  end.

Definition fork_ : Cmd Options Z := fun o => Ok (hd (-1) (forks_ o)) (o_forks (tail (forks_ o)) o).

Definition server_daemonize : Cmd Options unit :=
  let! i := fork_ in
  if decide (i < 0) then exit 1 else if decide (i <> 0) then exit 0 else
  let! i := fork_ in
  if decide (i < 0) then exit 1 else if decide (i <> 0) then exit 0 else ret tt.

Section Main.

(** What the system provides: the host name, the socket and address
    [openInterface] finds (the interface must have a unicast address, or it
    exits), random bytes, the process id, whether [sigaction] and [pipe]
    work, and the paths of the build. *)
Context (hostname : option (list Z)) (interface : option (Z * list Z)) (urandom : option (list Z))
  (rands : nat -> Z) (pid : Z) (sigaction_ok pipe_ok : bool) (pppd pppoe plugin pppd_options : list Z).

(** The configuration and the state at the head of the loop; [rd] and [wr] are
    what the socket will give, [fs], [ws] and [es] what [fork], [waitpid] and
    [execv] will. *)
Definition server_main (ops : list sv_opt) (tag0 : PPPoETag) (rd : Link) (wr : list bool)
    (fs ws : list Z) (es : list bool) : Cmd Options (Config * Server) :=
  do! server_options ops ;;
  let! o := get in
  let ifname := default DEFAULT_IF (ifName o) in
  let! acname := match acName o with
                 | Some n => ret n
                 | None => match hostname with Some n => ret (take (Z.to_nat HOSTNAMELEN) n) | None => exit 1 end
                 end in
  if decide (u32 (NumSlots o + offset o) > 65534) then exit 1 else
  do! (if beDaemon o then server_daemonize else ret tt) ;;
  let slots := init_slots (Z.to_nat (NumSlots o)) 0 (offset o) (remoteIP o) in
  let seed := cookie_seed urandom pid rands in
  match interface with
  | None => exit 1
  | Some (sock, mac) =>
      if NOT_UNICAST mac then exit 1
      else if negb sigaction_ok then exit 1
      else if negb pipe_ok then exit 1
      else
        ret (mkConfig (offset o) (synchronous o) (kernelMode o) seed ifname acname (pppoeOptions o)
               (localIP o) (discovery o) sock mac pid pppd pppoe plugin pppd_options,
             mkServer slots tag0 tag0 tag0 tag0 false 0 rd wr fs ws es [])
  end.

End Main.

(** ** Addresses *)

Definition ip_ok (ip : list Z) : Prop := exists a b c d, ip = [a; b; c; d] /\
  is_byte a /\ is_byte b /\ is_byte c /\ is_byte d.

(** The counter's position; it goes round after [ROUND] positions. *)
Definition ROUND : Z := 256 * 256 * 256 * 255.
Definition rank (ip : list Z) : Z :=
  match ip with [a; b; c; d] => ((a * 256 + b) * 256 + c) * 255 + d | _ => 0 end.

Lemma next_ip_ok ip : ip_ok ip -> ip_ok (next_ip ip).
Proof.
  intros (a & b & c & d & -> & A & B & C & D). unfold next_ip, ip_ok.
  repeat case_decide; do 4 eexists; (split; [done|]); split_and!; try done; apply u8_range || (split; lia).
Qed.

Lemma next_rank ip : ip_ok ip -> exists n, 1 <= n <= 2 /\ rank (next_ip ip) mod ROUND = (rank ip + n) mod ROUND.
Proof.
  intros (a & b & c & d & -> & A & B & C & D). unfold is_byte in *. unfold next_ip.
  assert (W : forall x, 0 <= x < 256 -> u8 (x + 1) = if decide (x = 255) then 0 else x + 1).
  { intros x Hx. unfold u8. change (2 ^ 8) with 256. case_decide; zlia. }
  rewrite !W by lia. unfold rank, ROUND.
  destruct (decide (d = 255)) as [->|]; [|destruct (decide (d = 254)) as [->|]].
  - exists 1. split; [lia|]. rewrite decide_True by lia. repeat case_decide; try lia; try (f_equal; lia).
    subst. rewrite <- (Z_mod_plus_full _ (-1)). f_equal; lia.
  - exists 2. split; [lia|]. rewrite decide_True by lia. repeat case_decide; try lia; try (f_equal; lia).
    subst. rewrite <- (Z_mod_plus_full _ (-1)). f_equal; lia.
  - exists 1. split; [lia|]. rewrite decide_False by lia. f_equal. lia.
Qed.

Fixpoint nth_ip (k : nat) (ip : list Z) : list Z :=
  match k with O => ip | S k => nth_ip k (next_ip ip) end.

Lemma nth_ip_add j k ip : nth_ip (j + k) ip = nth_ip k (nth_ip j ip).
Proof. revert ip. induction j as [|j IH]; intros ip; [done|]. apply IH. Qed.

Lemma nth_ip_ok k : forall ip, ip_ok ip -> ip_ok (nth_ip k ip).
Proof. induction k as [|k IH]; intros ip O; [done|]. by apply IH, next_ip_ok. Qed.

Lemma nth_rank k : forall ip, ip_ok ip ->
  exists n, Z.of_nat k <= n <= 2 * Z.of_nat k /\ rank (nth_ip k ip) mod ROUND = (rank ip + n) mod ROUND.
Proof.
  induction k as [|k IH]; intros ip O.
  { exists 0. split; [lia|]. cbn. f_equal. lia. }
  destruct (IH _ (next_ip_ok _ O)) as (n & Hn & E). destruct (next_rank _ O) as (m & Hm & E').
  exists (n + m). split; [lia|]. cbn [nth_ip]. rewrite E, Z.add_mod, E', <- Z.add_mod by done. f_equal. lia.
Qed.

(** Fewer slots than half a round have different addresses. *)
Lemma nth_ip_inj j k ip : ip_ok ip -> Z.of_nat j < 65536 -> Z.of_nat k < 65536 ->
  nth_ip j ip = nth_ip k ip -> j = k.
Proof.
  intros O. assert (L : forall j k, Z.of_nat j < 65536 -> Z.of_nat k < 65536 -> (j < k)%nat ->
    nth_ip j ip <> nth_ip k ip).
  { clear j k. intros j k Hj Hk Hl E. replace k with (j + (k - j))%nat in E by lia. rewrite nth_ip_add in E.
    destruct (nth_rank (k - j) _ (nth_ip_ok j ip O)) as (n & Hn & R). rewrite <- E in R.
    set (r := rank (nth_ip j ip)) in *. unfold ROUND in *. zlia. }
  intros Hj Hk E. destruct (lt_eq_lt_dec j k) as [[H|H]|H]; [|done|]; exfalso; [apply (L j k)|apply (L k j)]; done.
Qed.

Lemma init_slots_lookup n : forall i off ip k c, init_slots n i off ip !! k = Some c ->
  c = mkClient 0 (nth_ip k ip) (htons (i + Z.of_nat k + 1 + off)) (replicate 6 0).
Proof.
  induction n as [|n IH]; intros i off ip k c; [done|]. destruct k as [|k]; cbn [init_slots lookup list_lookup].
  - intros [= <-]. cbn. do 2 f_equal. lia.
  - intros H. apply IH in H as ->. cbn [nth_ip]. do 2 f_equal. lia.
Qed.

Lemma length_init_slots n : forall i off ip, length (init_slots n i off ip) = n.
Proof. induction n as [|n IH]; intros; [done|]. cbn. f_equal. apply IH. Qed.

Lemma init_slots_ips n off ip : ip_ok ip -> Z.of_nat n < 65536 -> NoDup (map Server.ip (init_slots n 0 off ip)).
Proof.
  intros O Hn. apply NoDup_alt. intros j k x Hj Hk.
  apply list_lookup_fmap_Some in Hj as (cj & -> & Ej), Hk as (ck & E & Ek).
  pose proof (lookup_lt_Some _ _ _ Ej) as Lj. pose proof (lookup_lt_Some _ _ _ Ek) as Lk.
  rewrite length_init_slots in Lj, Lk. apply init_slots_lookup in Ej as ->, Ek as ->. cbn in E.
  eapply nth_ip_inj; [exact O|lia|lia|done].
Qed.

Lemma slots_sess cfg ss : slots_ok cfg ss -> NoDup (map sess ss).
Proof.
  intros [Ho R N]. apply NoDup_alt. intros j k x Hj Hk.
  apply list_lookup_fmap_Some in Hj as (cj & -> & Ej), Hk as (ck & E & Ek).
  rewrite (N _ _ Ej), (N _ _ Ek) in E. apply lookup_lt_Some in Ej, Ek. unfold zlen in R.
  apply htons_inj in E; lia.
Qed.

(** ** Options *)

(** Names from the command line fit the access concentrator's name tag. *)
Definition opt_ok (op : sv_opt) : Prop :=
  match op with
  | O_C arg => bytes arg /\ zlen arg <= ETH_DATA_LEN
  | O_L (Some d) | O_R (Some d) => length d = 4%nat
  | _ => True
  end.

Record options_ok (o : Options) : Prop := {
  op_slots : 1 <= NumSlots o;
  op_offset : 0 <= offset o;
  op_int : NumSlots o < 2 ^ 31 /\ offset o < 2 ^ 31;
  op_name : match acName o with Some n => bytes n /\ zlen n <= ETH_DATA_LEN | None => True end;
  op_text : zlen (pppoeOptions o) < SMALLBUF;
  op_ip : ip_ok (remoteIP o)
}.

(** [%d] reads an [int]. *)
Definition int_ok (op : sv_opt) : Prop :=
  match op with O_N (Some n) | O_o (Some n) => n < 2 ^ 31 | _ => True end.

Lemma wp_append_option text o : options_ok o ->
  wp (append_option text) (fun _ o' => options_ok o') (fun _ _ => False) o.
Proof.
  intros []. apply wp_modify. split; try done. cbn. rewrite zlen_app. unfold snprintf, zlen in *.
  rewrite length_take. unfold SMALLBUF in *. lia.
Qed.

Lemma wp_get_ip d o (Q : list Z -> Options -> Prop) :
  match d with Some v => length v = 4%nat | None => True end ->
  (forall ip, ip_ok ip -> Q ip o) -> wp (get_ip d) Q (fun c _ => c = 0 \/ c = 1) o.
Proof.
  intros L HQ. destruct d as [v|]; [|by right]. unfold get_ip. destruct (forallb _ v) eqn:F; [|by right].
  apply HQ. destruct v as [|a [|b [|c [|d [|]]]]]; try done. exists a, b, c, d. cbn in F.
  rewrite !andb_true_iff, !Z.leb_le in F. unfold is_byte. split; [done|lia].
Qed.

Lemma wp_server_option op o : opt_ok op -> int_ok op -> options_ok o ->
  wp (server_option op) (fun _ o' => options_ok o') (fun c _ => c = 0 \/ c = 1) o.
Proof.
  intros Ho Hi O. assert (O' := O). destruct O'.
  destruct op as [| | | | |arg [[d s]|]|[n|]|[n|]|arg|arg|d|d|arg|arg]; cbn [server_option];
    try (by left); try (by right); try done.
  all: try (eapply wp_mono; [by apply wp_append_option|done|done]).
  - case_decide; [by right|]. apply wp_modify. split; try done; cbn in *; lia.
  - case_decide; [by right|]. apply wp_modify. split; try done; cbn in *; lia.
  - apply wp_bind, wp_get_ip; [by destruct d|]. intros ip Hip. apply wp_modify. by split.
  - apply wp_bind, wp_get_ip; [by destruct d|]. intros ip Hip. apply wp_modify. by split.
Qed.

Lemma wp_server_options ops : forall o, Forall opt_ok ops -> Forall int_ok ops -> options_ok o ->
  wp (server_options ops) (fun _ o' => options_ok o') (fun c _ => c = 0 \/ c = 1) o.
Proof.
  induction ops as [|op ops IH]; intros o H1 H2 O; [done|].
  apply Forall_cons in H1 as [H1 H1'], H2 as [H2 H2']. cbn [server_options]. apply wp_bind.
  eapply wp_mono; [by apply wp_server_option| |done]. intros [] o' O'. by apply IH.
Qed.

Lemma wp_server_daemonize o (Q : unit -> Options -> Prop) :
  (forall fs, Q tt (o_forks fs o)) -> wp server_daemonize Q (fun c _ => c = 0 \/ c = 1) o.
Proof.
  intros H. unfold server_daemonize, fork_, wp, bind. case_decide; [by right|]. case_decide; [by left|].
  cbn. case_decide; [by right|]. case_decide; [by left|]. apply H.
Qed.

Lemma cookie_seed_ok u pid rands : match u with Some g => bytes g | None => True end ->
  bytes (cookie_seed u pid rands) /\ zlen (cookie_seed u pid rands) = SEED_LEN.
Proof.
  assert (M : forall x, is_byte (Z.land x 0xFF)).
  { intros x. rewrite land_ff. unfold is_byte. apply Z.mod_pos_bound. lia. }
  intros Hu. destruct u as [g|]; cbn [cookie_seed].
  - split.
    + apply bytes_app. split; [by apply bytes_take|]. apply Forall_replicate. done.
    + unfold zlen, SEED_LEN. rewrite length_app, length_replicate, length_take. lia.
  - split; [|done]. apply bytes_app. split; [repeat constructor; apply M|].
    apply Forall_map, Forall_forall. intros i _. apply M.
Qed.

(** ** Theorem *)

(** C37. The server starts well: when its options are accepted and its sockets
    open, it enters its loop with at least one slot, all free, with session
    numbers between 1 and 65534 and addresses that are all different, a cookie
    seed of 16 bytes and its own unicast address; otherwise it exits with
    status 0 or 1. *)
Theorem server_starts hostname interface urandom rands pid sa pp p1 p2 p3 p4 ops tag0 rd wr fs ws es fs0 :
  Forall opt_ok ops -> Forall int_ok ops ->
  match hostname with Some n => bytes n | None => True end ->
  match interface with Some (_, m) => mac_ok m | None => True end ->
  match urandom with Some g => bytes g | None => True end ->
  stored_ok tag0 -> Forall polite (reads rd) -> NoDup (List.filter (fun p => 0 <? p) fs) ->
  wp (server_main hostname interface urandom rands pid sa pp p1 p2 p3 p4 ops tag0 rd wr fs ws es)
    (fun r _ => Config_ok r.1 /\ Server_ok r.1 r.2 /\ NOT_UNICAST (myAddr r.1) = false /\
       1 <= zlen (Sessions r.2) <= 65534 /\ Forall (fun c => Server.pid c = 0) (Sessions r.2) /\
       NoDup (map sess (Sessions r.2)) /\ NoDup (map Server.ip (Sessions r.2)))
    (fun c _ => c = 0 \/ c = 1) (options0 fs0).
Proof.
  intros Ho Hi Hh Hm Hu Ht Hr Hf. unfold server_main. apply wp_bind.
  assert (O0 : options_ok (options0 fs0)).
  { split; cbn; try done. exists 10, 67, 15, 1. split; [done|]. unfold is_byte. lia. }
  eapply wp_mono; [by apply wp_server_options| |done]. intros [] o O. apply wp_get_bind, wp_bind.
  set (K := fun acname : list Z => _).
  assert (H : forall acname, bytes acname /\ zlen acname <= ETH_DATA_LEN -> K acname o).
  2: { pose proof (op_name _ O) as On. destruct (acName o) as [n|]; [by apply H|].
       destruct hostname as [n|]; [|by right]. apply H. split; [by apply bytes_take|].
       unfold zlen. rewrite length_take. unfold HOSTNAMELEN, ETH_DATA_LEN. lia. }
  intros acname Ha. unfold K. clear K. destruct (op_int _ O) as [I1 I2].
  pose proof (op_slots _ O). pose proof (op_offset _ O). rewrite u32_small by lia.
  case_decide as D; [by right|]. apply wp_bind.
  assert (Dm : forall Q : unit -> Options -> Prop, (forall o', Q tt o') ->
    wp (if beDaemon o then server_daemonize else ret tt) Q (fun c _ => c = 0 \/ c = 1) o).
  { intros Q HQ. destruct (beDaemon o); [by apply wp_server_daemonize|apply HQ]. }
  apply Dm. intros o' . clear Dm. destruct interface as [[sock mac]|]; [|by right].
  destruct (NOT_UNICAST mac) eqn:U; [by right|]. destruct sa; [|by right]. destruct pp; [|by right].
  apply wp_ret. cbn [fst snd]. set (cfg := mkConfig _ _ _ _ _ _ _ _ _ _ _ _ _ _ _ _).
  set (n := Z.to_nat (NumSlots o)). set (ss := init_slots n 0 (offset o) (remoteIP o)).
  assert (Ln : length ss = n) by apply length_init_slots.
  assert (SL : slots_ok cfg ss).
  { split; [done|unfold zlen; rewrite Ln; unfold n; cbn; lia|]. intros k c Hk.
    apply init_slots_lookup in Hk as ->. done. }
  assert (Z0 : Forall (fun c => Server.pid c = 0) ss).
  { apply Forall_lookup. intros k c Hk. by apply init_slots_lookup in Hk as ->. }
  assert (L0 : live ss = []).
  { unfold live. clear - Z0. induction Z0 as [|c ss E _ IH]; [done|]. cbn. by rewrite E. }
  split_and!; try done.
  - split; cbn; [done|by apply cookie_seed_ok|done].
  - split; cbn; [by split|done|done|]. 
    change (NoDup (live ss ++ List.filter (fun p => 0 <? p) fs)). by rewrite L0.
  - cbn. unfold zlen. rewrite Ln. unfold n. lia.
  - cbn. unfold zlen. rewrite Ln. unfold n. lia.
  - by apply (slots_sess cfg).
  - apply init_slots_ips; [apply O|]. unfold n. lia.
Qed.

Lemma server_starts_witness :
  let m := server_main (Some (str "ac")) (Some (3, [2; 0; 0; 0; 0; 1])) (Some (replicate 16 9)) (fun _ => 0) 77
    true true [] [] [] [] [O_N (Some 3); O_R (Some [10; 0; 0; 254]); O_s; O_T (str "80")]
    empty_tag (mkLink [] 0 0 []) [] [100; 101] [] [] in
  wp m (fun r _ => Config_ok r.1 /\ Server_ok r.1 r.2 /\ NOT_UNICAST (myAddr r.1) = false /\
       1 <= zlen (Sessions r.2) <= 65534 /\ Forall (fun c => Server.pid c = 0) (Sessions r.2) /\
       NoDup (map sess (Sessions r.2)) /\ NoDup (map Server.ip (Sessions r.2)))
    (fun c _ => c = 0 \/ c = 1) (options0 [0; 0]) /\
  match m (options0 [0; 0]) with
  | Ok (cfg, s) _ => map Server.ip (Sessions s) = [[10; 0; 0; 254]; [10; 0; 1; 1]; [10; 0; 1; 2]] /\
      PppoeOptions cfg = str " -s -T 80"
  | _ => False
  end.
Proof.
  split; [|vm_compute; done].
  apply server_starts; try done.
  - repeat (apply Forall_cons; split); done.
  - repeat (apply Forall_cons; split); done.
  - by apply forallb_bytes.
  - split; [done|]. by apply forallb_bytes.
  - by apply forallb_bytes.
  - apply empty_stored.
  - cbn. refine (bool_decide_unpack _ _). vm_compute. exact I.
Defined.
