(* ===== verification/Callout.v ===== *)
(** * Callout: the timer queue of pim6sd (callout.c)

    The queue holds, with every timer, the time between its predecessor and
    itself, so that only its head has to be aged.  The specification keeps
    absolute deadlines; [Callout] is a refinement of it.  The queue's nodes are
    a list; [age_callout_queue] unlinks the expired nodes before it calls their
    functions, which may set and clear timers themselves. *)

From stdpp Require Import base list numbers strings sorting.
From S2P Require Import Prelude.
Open Scope Z_scope.

(** ** The code *)

(** A node of the queue; [func] is a function pointer, [data] a pointer. *)
Record timeout_q {F : Type} := mkTimer { id : Z; func : option F; data : Z; time : Z }.
Arguments timeout_q : clear implicits.
Arguments mkTimer {F}.

Definition set_time {F} (v : Z) (t : timeout_q F) : timeout_q F := mkTimer (id t) (func t) (data t) v.

(** The queue, the last id given, what was freed, and whether the next calls
    of malloc succeed (when it is exhausted they do). *)
Record Callouts {F : Type} := mkCallouts {
  Q : list (timeout_q F);
  last_id : Z;
  freed : list Z;
  mallocs : list bool
}.
Arguments Callouts : clear implicits.
Arguments mkCallouts {F}.

(** The search for the place of a timer: [delay] is what is left of its delay
    behind the nodes passed. *)
Fixpoint insert_q {F} (delay : Z) (node : timeout_q F) (q : list (timeout_q F)) : list (timeout_q F) :=
  match q with
  | [] => [set_time delay node]
  | ptr :: q' =>
      if decide (delay < time ptr)
      then set_time delay node :: set_time (s32 (time ptr - delay)) ptr :: q'
      else ptr :: insert_q (s32 (delay - time ptr)) node q'
  end.

(** [++id], and once more when it comes to 0. *)
Definition next_id (i : Z) : Z :=
  let i := s32 (i + 1) in if decide (i = 0) then s32 (i + 1) else i.

(** The while loop of [age_callout_queue]: the expired nodes and the rest. *)
Fixpoint age_split {F} (elapsed_time : Z) (q : list (timeout_q F)) : list (timeout_q F) * list (timeout_q F) :=
  match q with
  | [] => ([], [])
  | t :: q' =>
      if decide (time t > elapsed_time) then ([], set_time (s32 (time t - elapsed_time)) t :: q')
      else let r := age_split (s32 (elapsed_time - time t)) q' in (t :: r.1, r.2)
  end.

(** The loop of [timer_leftTimer]. *)
Fixpoint left_loop {F} (timer_id left : Z) (q : list (timeout_q F)) : Z :=
  match q with
  | [] => -1
  | ptr :: q' =>
      let left := s32 (left + time ptr) in
      if decide (id ptr = timer_id) then left else left_loop timer_id left q'
  end.

(** The loop of [timer_clearTimer]: the node found and the queue without it. *)
Fixpoint clear_loop {F} (timer_id : Z) (q : list (timeout_q F)) :
    option (timeout_q F) * list (timeout_q F) :=
  match q with
  | [] => (None, [])
  | ptr :: q' =>
      if decide (id ptr = timer_id) then
        (Some ptr, match q' with
                   | [] => []
                   | next :: q'' => set_time (s32 (time next + time ptr)) next :: q''
                   end)
      else let r := clear_loop timer_id q' in (r.1, ptr :: r.2)
  end.

Section Run.
Context {F S : Type} (invoke : F -> Z -> Cmd S unit).

(** [while (expQ) ...]. *)
Fixpoint run_expired (expQ : list (timeout_q F)) : Cmd S unit :=
  match expQ with
  | [] => ret tt
  | ptr :: expQ =>
      do! match func ptr with Some f => invoke f (data ptr) | None => ret tt end ;;
      run_expired expQ
  end.
End Run.

Section Code.
Context {F W : Type} (invoke : F -> Z -> Cmd (Callouts F * W) unit).

Definition getQ : Cmd (Callouts F * W) (Callouts F) := fun s => Ok s.1 s.
Definition putQ (c : Callouts F) : Cmd (Callouts F * W) unit := fun s => Ok tt (c, s.2).
Definition withQ (q : list (timeout_q F)) (c : Callouts F) : Callouts F :=
  mkCallouts q (last_id c) (freed c) (mallocs c).

Definition callout_init : Cmd (Callouts F * W) unit := let! c := getQ in putQ (withQ [] c).
Definition free_all_callouts : Cmd (Callouts F * W) unit := let! c := getQ in putQ (withQ [] c).

Definition age_callout_queue (elapsed_time : Z) : Cmd (Callouts F * W) unit :=
  let! c := getQ in
  let r := age_split elapsed_time (Q c) in
  do! putQ (withQ r.2 c) ;;
  run_expired invoke r.1.

Definition timer_nextTimer : Cmd (Callouts F * W) Z :=
  let! c := getQ in
  match Q c with
  | [] => ret (-1)
  | t :: _ => if decide (time t < 0) then ret 0 else ret (time t)
  end.

Definition timer_setTimer (delay : Z) (action : option F) (d : Z) : Cmd (Callouts F * W) Z :=
  let! c := getQ in
  match mallocs c with
  | false :: ms => do! putQ (mkCallouts (Q c) (last_id c) (freed c) ms) ;; ret (-1)
  | ms =>
      let i := next_id (last_id c) in
      let node := mkTimer i action d delay in
      do! putQ (mkCallouts (insert_q delay node (Q c)) i (freed c) (tail ms)) ;;
      ret i
  end.

Definition timer_leftTimer (timer_id : Z) : Cmd (Callouts F * W) Z :=
  if decide (timer_id = 0) then ret (-1) else
  let! c := getQ in ret (left_loop timer_id 0 (Q c)).

Definition timer_clearTimer (timer_id : Z) : Cmd (Callouts F * W) unit :=
  if decide (timer_id = 0) then ret tt else
  let! c := getQ in
  let r := clear_loop timer_id (Q c) in
  match r.1 with
  | None => ret tt
  | Some ptr =>
      putQ (mkCallouts r.2 (last_id c)
              (freed c ++ if decide (data ptr = 0) then [] else [data ptr]) (mallocs c))
  end.

End Code.

(** ** What a timer service is *)

(** The operations a client of the queue uses; [t_age] calls the functions of
    the expired timers with [invoke], and [t_freed] are the data that were freed
    with their timers. *)
Class TimerService (F S : Type) := {
  t_set {W} : Z -> option F -> Z -> Cmd (S * W) Z;
  t_clear {W} : Z -> Cmd (S * W) unit;
  t_left {W} : Z -> Cmd (S * W) Z;
  t_next {W} : Cmd (S * W) Z;
  t_freed : S -> list Z;
  t_age {W} : (F -> Z -> Cmd (S * W) unit) -> Z -> Cmd (S * W) unit
}.

#[export] Instance callouts_service F : TimerService F (Callouts F) := {
  t_set _ := timer_setTimer;
  t_clear _ := timer_clearTimer;
  t_left _ := timer_leftTimer;
  t_next _ := timer_nextTimer;
  t_freed := freed;
  t_age _ invoke := age_callout_queue invoke
}.

(** ** Specification: an agenda of absolute deadlines *)

(** The time of a timer on the agenda is its deadline; the agenda is kept in
    the order of deadlines, and of setting for equal ones. *)
Record Agenda {F : Type} := mkAgenda {
  now : Z;
  timers : list (timeout_q F);
  a_last : Z;
  a_freed : list Z;
  a_mallocs : list bool
}.
Arguments Agenda : clear implicits.
Arguments mkAgenda {F}.

Fixpoint schedule {F} (t : timeout_q F) (l : list (timeout_q F)) : list (timeout_q F) :=
  match l with
  | [] => [t]
  | u :: l' => if decide (time t < time u) then t :: l else u :: schedule t l'
  end.

Fixpoint cancel {F} (i : Z) (l : list (timeout_q F)) : list (timeout_q F) :=
  match l with
  | [] => []
  | t :: l' => if decide (id t = i) then l' else t :: cancel i l'
  end.

Definition with_timers {F} (l : list (timeout_q F)) (a : Agenda F) : Agenda F :=
  mkAgenda (now a) l (a_last a) (a_freed a) (a_mallocs a).

Section Spec.
Context {F W : Type}.

Definition agenda : Cmd (Agenda F * W) (Agenda F) := fun s => Ok s.1 s.
Definition put (a : Agenda F) : Cmd (Agenda F * W) unit := fun s => Ok tt (a, s.2).

Definition spec_set (delay : Z) (action : option F) (d : Z) : Cmd (Agenda F * W) Z :=
  let! a := agenda in
  match a_mallocs a with
  | false :: ms => do! put (mkAgenda (now a) (timers a) (a_last a) (a_freed a) ms) ;; ret (-1)
  | ms =>
      let i := next_id (a_last a) in
      do! put (mkAgenda (now a) (schedule (mkTimer i action d (now a + delay)) (timers a)) i (a_freed a)
                 (tail ms)) ;;
      ret i
  end.

Definition lookup_timer (i : Z) (l : list (timeout_q F)) : option (timeout_q F) :=
  List.find (fun t => id t =? i) l.

Definition spec_clear (i : Z) : Cmd (Agenda F * W) unit :=
  if decide (i = 0) then ret tt else
  let! a := agenda in
  match lookup_timer i (timers a) with
  | None => ret tt
  | Some t => put (mkAgenda (now a) (cancel i (timers a)) (a_last a)
                     (a_freed a ++ if decide (data t = 0) then [] else [data t]) (a_mallocs a))
  end.

Definition spec_left (i : Z) : Cmd (Agenda F * W) Z :=
  if decide (i = 0) then ret (-1) else
  let! a := agenda in
  ret (match lookup_timer i (timers a) with Some t => time t - now a | None => -1 end).

Definition spec_next : Cmd (Agenda F * W) Z :=
  let! a := agenda in
  ret (match timers a with t :: _ => time t - now a | [] => -1 end).

(** Time passes: every timer whose deadline is reached fires, in order, once
    it is off the agenda. *)
Definition spec_age (invoke : F -> Z -> Cmd (Agenda F * W) unit) (e : Z) : Cmd (Agenda F * W) unit :=
  let! a := agenda in
  let now' := now a + e in
  do! put (mkAgenda now' (List.filter (fun t => now' <? time t) (timers a)) (a_last a) (a_freed a)
             (a_mallocs a)) ;;
  run_expired invoke (List.filter (fun t => time t <=? now') (timers a)).

End Spec.

#[export] Instance agenda_service F : TimerService F (Agenda F) := {
  t_set _ := spec_set;
  t_clear _ := spec_clear;
  t_left _ := spec_left;
  t_next _ := spec_next;
  t_freed := a_freed;
  t_age _ invoke := spec_age invoke
}.

(** ** Clients *)

Inductive call (F : Type) :=
| Set_ (delay : Z) (action : option F) (d : Z)
| Clear (i : Z)
| Left (i : Z)
| Next.
Arguments Set_ {F}.
Arguments Clear {F}.
Arguments Left {F}.
Arguments Next {F}.

(** What a client observes. *)
Inductive obs (F : Type) := Given (i : Z) | Told (z : Z) | Fired (f : F) (d : Z).
Arguments Given {F}.
Arguments Told {F}.
Arguments Fired {F}.

Inductive event (F : Type) := Call (c : call F) | Age (e : Z).
Arguments Call {F}.
Arguments Age {F}.

Section Drive.

(** A client: [script log f d] are the calls the function [f] makes, applied
    to [d] after the observations [log]. *)
Context {F S : Type} `{TS : TimerService F S} (script : list (obs F) -> F -> Z -> list (call F)).

Definition log (o : obs F) : Cmd (S * list (obs F)) unit := fun s => Ok tt (s.1, s.2 ++ [o]).

Definition do_call (c : call F) : Cmd (S * list (obs F)) unit :=
  match c with
  | Set_ delay action d => let! i := t_set delay action d in log (Given i)
  | Clear i => t_clear (F := F) i
  | Left i => let! z := t_left (F := F) i in log (Told z)
  | Next => let! z := t_next (F := F) in log (Told z)
  end.

Fixpoint do_calls (cs : list (call F)) : Cmd (S * list (obs F)) unit :=
  match cs with
  | [] => ret tt
  | c :: cs => do! do_call c ;; do_calls cs
  end.

Definition invoke (f : F) (d : Z) : Cmd (S * list (obs F)) unit :=
  do! log (Fired f d) ;;
  let! s := get in do_calls (script s.2 f d).

Fixpoint drive (evs : list (event F)) : Cmd (S * list (obs F)) unit :=
  match evs with
  | [] => ret tt
  | Call c :: evs => do! do_call c ;; drive evs
  | Age e :: evs => do! t_age invoke e ;; drive evs
  end.

End Drive.

(** ** Deadlines of the queue *)

(** The queue with absolute times, its first node [time] after [b]. *)
Fixpoint dues {F} (b : Z) (q : list (timeout_q F)) : list (timeout_q F) :=
  match q with
  | [] => []
  | t :: q => set_time (b + time t) t :: dues (b + time t) q
  end.

Fixpoint total {F} (q : list (timeout_q F)) : Z :=
  match q with [] => 0 | t :: q => time t + total q end.

(** No time is negative, and no deadline is out of reach of an [int]. *)
Definition queue_ok {F} (q : list (timeout_q F)) : Prop :=
  Forall (fun t => 0 <= time t) q /\ total q < 2 ^ 31.

Lemma s32_small x : - 2 ^ 31 <= x < 2 ^ 31 -> s32 x = x.
Proof. intros H. unfold s32, u32. change (2 ^ 32) with 4294967296. change (2 ^ 31) with 2147483648 in *. case_decide; zlia. Qed.

Section Queue.
Context {F : Type}.
Implicit Types (q : list (timeout_q F)) (t : timeout_q F).

Lemma total_nonneg q : Forall (fun t => 0 <= time t) q -> 0 <= total q.
Proof. induction 1; cbn; lia. Qed.

Lemma queue_ok_cons t q : queue_ok (t :: q) <-> 0 <= time t /\ queue_ok q /\ time t + total q < 2 ^ 31.
Proof.
  unfold queue_ok. rewrite Forall_cons. cbn. split.
  - intros [[H1 H2] H3]. pose proof (total_nonneg q H2). split_and!; try done; lia.
  - intros (H1 & [H2 H3] & H4). done.
Qed.

Lemma queue_ok_total q : queue_ok q -> 0 <= total q < 2 ^ 31.
Proof. intros [H1 H2]. split; [by apply total_nonneg|done]. Qed.

Lemma dues_after b q : Forall (fun t => 0 <= time t) q -> Forall (fun t => b <= time t) (dues b q).
Proof.
  intros H. revert b. induction H as [|t q Ht H IH]; intros b; cbn; constructor; cbn; [lia|].
  eapply Forall_impl; [apply IH|]. cbn. lia.
Qed.

Lemma dues_retime b t q v : dues b (set_time v t :: q) = set_time (b + v) t :: dues (b + v) q.
Proof. by destruct t. Qed.

Lemma insert_q_dues d node q : forall b, 0 <= d < 2 ^ 31 -> queue_ok q ->
  dues b (insert_q d node q) = schedule (set_time (b + d) node) (dues b q) /\
  queue_ok (insert_q d node q) /\ total (insert_q d node q) = Z.max d (total q).
Proof.
  revert d. induction q as [|p q IH]; intros d b Hd O; cbn [insert_q dues schedule].
  - split; [by destruct node|split; [split; [|cbn; lia]|cbn; lia]]. apply Forall_singleton. cbn. lia.
  - apply queue_ok_cons in O as (Hp & O & Ht). pose proof (queue_ok_total q O) as Tq.
    case_decide as D.
    + rewrite s32_small by lia. rewrite decide_True by (cbn; lia).
      rewrite !dues_retime. split_and!.
      * do 3 f_equal; lia.
      * apply queue_ok_cons. cbn. split_and!; [lia| |lia]. apply queue_ok_cons. cbn. split_and!; done || lia.
      * cbn. lia.
    + rewrite s32_small by lia. rewrite decide_False by (cbn; lia).
      destruct (IH (d - time p) (b + time p)) as (E & O' & T'); [lia|done|].
      cbn [dues]. rewrite E. split_and!.
      * do 3 f_equal. lia.
      * apply queue_ok_cons. split_and!; [done|done|lia].
      * cbn. lia.
Qed.

Lemma filter_none {A} (P : A -> bool) l : Forall (fun x => P x = false) l -> List.filter P l = [].
Proof. induction 1 as [|x l E _ IH]; [done|]. cbn. by rewrite E. Qed.
Lemma filter_all {A} (P : A -> bool) l : Forall (fun x => P x = true) l -> List.filter P l = l.
Proof. induction 1 as [|x l E _ IH]; [done|]. cbn. by rewrite E, IH. Qed.

Lemma age_split_dues e q : forall b, 0 <= e < 2 ^ 31 -> queue_ok q ->
  dues (b + e) (age_split e q).2 = List.filter (fun t => b + e <? time t) (dues b q) /\
  dues b (age_split e q).1 = List.filter (fun t => time t <=? b + e) (dues b q) /\
  queue_ok (age_split e q).2.
Proof.
  revert e. induction q as [|t q IH]; intros e b He O; cbn [age_split dues]; [done|].
  apply queue_ok_cons in O as (Ht & O & T). pose proof (queue_ok_total q O) as Tq. case_decide as D.
  - pose proof (dues_after (b + time t) q (proj1 O)) as A. rewrite s32_small by lia. cbn [fst snd].
    assert (L : Forall (fun u => b + e < time u) (set_time (b + time t) t :: dues (b + time t) q)).
    { constructor; [cbn; lia|]. eapply Forall_impl; [exact A|]. cbn. lia. }
    split_and!.
    + rewrite filter_all by (eapply Forall_impl; [exact L|]; cbn; intros; by apply Z.ltb_lt).
      rewrite dues_retime. do 2 f_equal; lia.
    + rewrite filter_none; [done|]. eapply Forall_impl; [exact L|]. cbn. intros. apply Z.leb_gt. lia.
    + apply queue_ok_cons. cbn. split_and!; done || lia.
  - rewrite s32_small by lia. destruct (IH (e - time t) (b + time t)) as (E1 & E2 & O'); [lia|done|].
    replace (b + time t + (e - time t)) with (b + e) in * by lia. cbn [fst snd dues List.filter time set_time].
    rewrite (proj2 (Z.ltb_ge _ _)) by lia. rewrite (proj2 (Z.leb_le _ _)) by lia.
    split_and!; [done|by rewrite E2|done].
Qed.

Lemma left_loop_dues i q : forall l b, 0 <= l -> l + total q < 2 ^ 31 -> queue_ok q ->
  left_loop i l q = match lookup_timer i (dues (b + l) q) with Some t => time t - b | None => -1 end.
Proof.
  induction q as [|t q IH]; intros l b Hl T O; cbn [left_loop dues]; [done|].
  apply queue_ok_cons in O as (Ht & O & T'). pose proof (queue_ok_total q O). cbn [total] in T.
  rewrite s32_small by lia. unfold lookup_timer. cbn [List.find id set_time].
  destruct (Z.eqb_spec (id t) i) as [D|D].
  - rewrite decide_True by done. cbn. lia.
  - rewrite decide_False by done. rewrite (IH (l + time t) b) by (done || lia).
    by replace (b + (l + time t)) with (b + l + time t) by lia.
Qed.

Lemma clear_loop_dues i q : forall b, queue_ok q ->
  match lookup_timer i (dues b q) with
  | None => (clear_loop i q).1 = None
  | Some t => exists p, (clear_loop i q).1 = Some p /\ data p = data t /\
      dues b (clear_loop i q).2 = cancel i (dues b q) /\ queue_ok (clear_loop i q).2 /\
      total (clear_loop i q).2 <= total q
  end.
Proof.
  induction q as [|t q IH]; intros b O; cbn [clear_loop dues]; [done|].
  apply queue_ok_cons in O as (Ht & O & T). pose proof (queue_ok_total q O) as Tq.
  unfold lookup_timer. cbn [List.find cancel id set_time]. destruct (Z.eqb_spec (id t) i) as [D|D].
  - rewrite !decide_True by done. exists t. cbn [fst snd]. split_and!; [done|by destruct t|..].
    + destruct q as [|n q]; [done|]. apply queue_ok_cons in O as (Hn & O & T').
      pose proof (queue_ok_total q O). cbn [total] in *. rewrite s32_small by lia.
      rewrite dues_retime. cbn [dues]. do 2 f_equal; lia.
    + destruct q as [|n q]; [done|]. apply queue_ok_cons in O as (Hn & O & T').
      pose proof (queue_ok_total q O). cbn [total] in *. rewrite s32_small by lia.
      apply queue_ok_cons. cbn. split_and!; done || lia.
    + destruct q as [|n q]; [cbn; lia|]. apply queue_ok_cons in O as (Hn & O & T').
      pose proof (queue_ok_total q O). cbn [total] in *. rewrite s32_small by lia. cbn. lia.
  - rewrite !decide_False by done. cbn [fst snd]. specialize (IH (b + time t) O).
    unfold lookup_timer in IH. destruct (List.find _ (dues (b + time t) q)) as [u|]; [|done].
    destruct IH as (p & E1 & E2 & E3 & E4 & E5). exists p. split_and!; [done|done| | |cbn; lia].
    + cbn [dues]. by rewrite E3.
    + apply queue_ok_cons. split_and!; [done|done|lia].
Qed.

End Queue.

(** ** Simulation *)

Record refines {F} (c : Callouts F) (a : Agenda F) : Prop := {
  rf_timers : timers a = dues (now a) (Q c);
  rf_queue : queue_ok (Q c);
  rf_last : a_last a = last_id c;
  rf_freed : a_freed a = freed c;
  rf_mallocs : a_mallocs a = mallocs c
}.

(** Both commands return, with the same result and the same observations, and
    stay related. *)
Definition simulates {F W A} (m : Cmd (Callouts F * W) A) (m' : Cmd (Agenda F * W) A) : Prop :=
  forall c a w, refines c a ->
  exists r c' a' w', m (c, w) = Ok r (c', w') /\ m' (a, w) = Ok r (a', w') /\ refines c' a'.

Section Simulation.
Context {F W : Type}.

Lemma sim_bind {A B} (m : Cmd (Callouts F * W) A) m' (k : A -> Cmd (Callouts F * W) B) k' :
  simulates m m' -> (forall r, simulates (k r) (k' r)) -> simulates (bind m k) (bind m' k').
Proof.
  intros S K c a w R. destruct (S c a w R) as (r & c1 & a1 & w1 & E1 & E2 & R1).
  destruct (K r c1 a1 w1 R1) as (r2 & c2 & a2 & w2 & E3 & E4 & R2).
  exists r2, c2, a2, w2. by rewrite (bind_Ok _ _ _ _ _ E1), (bind_Ok _ _ _ _ _ E2).
Qed.

Lemma sim_ret {A} (r : A) : simulates (F := F) (W := W) (ret r) (ret r).
Proof. intros c a w R. by exists r, c, a, w. Qed.

Lemma sim_set delay action d : 0 <= delay < 2 ^ 31 ->
  simulates (W := W) (timer_setTimer (F := F) delay action d) (spec_set delay action d).
Proof.
  intros Hd c a w []. unfold timer_setTimer, spec_set, getQ, putQ, agenda, put, ret, bind. cbn.
  rewrite rf_mallocs0, rf_last0.
  assert (N : refines (mkCallouts (insert_q delay (mkTimer (next_id (last_id c)) action d delay) (Q c))
                (next_id (last_id c)) (freed c) (tail (mallocs c)))
    (mkAgenda (now a) (schedule (mkTimer (next_id (last_id c)) action d (now a + delay)) (timers a))
       (next_id (last_id c)) (a_freed a) (tail (mallocs c)))).
  { destruct (insert_q_dues delay (mkTimer (next_id (last_id c)) action d delay) (Q c) (now a) Hd rf_queue0)
      as (E & O & _). split; cbn; try done. by rewrite E, rf_timers0. }
  destruct (mallocs c) as [|[] ms]; do 4 eexists; (split; [done|split; [done|done]]).
Qed.

Lemma sim_clear i : simulates (W := W) (timer_clearTimer (F := F) i) (spec_clear i).
Proof.
  unfold timer_clearTimer, spec_clear. case_decide; [apply sim_ret|]. intros c a w [].
  unfold getQ, putQ, agenda, put, ret, bind. cbn. rewrite rf_timers0.
  pose proof (clear_loop_dues i (Q c) (now a) rf_queue0) as H'.
  destruct (lookup_timer i (dues (now a) (Q c))) as [t|].
  - destruct H' as (p & E1 & E2 & E3 & E4 & _). rewrite E1, E2. do 4 eexists. split_and!; [done|done|].
    split; cbn; congruence || done.
  - rewrite H'. do 4 eexists. by split_and!.
Qed.

Lemma sim_left i : simulates (W := W) (timer_leftTimer (F := F) i) (spec_left i).
Proof.
  unfold timer_leftTimer, spec_left. case_decide; [apply sim_ret|]. intros c a w [].
  unfold getQ, agenda, ret, bind. cbn. rewrite rf_timers0. pose proof (queue_ok_total _ rf_queue0).
  rewrite (left_loop_dues i (Q c) 0 (now a)), Z.add_0_r by (done || lia). do 4 eexists. by split_and!.
Qed.

Lemma sim_next : simulates (W := W) (timer_nextTimer (F := F)) spec_next.
Proof.
  intros c a w R. assert (R' := R). destruct R'. unfold timer_nextTimer, spec_next, getQ, agenda, ret, bind. cbn.
  rewrite rf_timers0. destruct (Q c) as [|t q]; cbn [dues].
  - do 4 eexists. by split_and!.
  - apply queue_ok_cons in rf_queue0 as (Ht & _). rewrite decide_False by lia. do 4 eexists. split; [done|].
    split; [|done]. cbn. do 2 f_equal. lia.
Qed.

Section Age.
Context (inv : F -> Z -> Cmd (Callouts F * W) unit) (inv' : F -> Z -> Cmd (Agenda F * W) unit).
Hypothesis Hinv : forall f d, simulates (inv f d) (inv' f d).

Lemma sim_run_expired b l : simulates (run_expired inv l) (run_expired inv' (dues b l)).
Proof using Hinv.
  revert b. induction l as [|t l IH]; intros b; cbn [run_expired dues func data set_time]; [apply sim_ret|].
  apply sim_bind; [destruct (func t); [apply Hinv|apply sim_ret]|]. intros _. apply IH.
Qed.

Lemma sim_age e : 0 <= e < 2 ^ 31 -> simulates (age_callout_queue inv e) (spec_age inv' e).
Proof using Hinv.
  intros He c a w []. unfold age_callout_queue, spec_age, getQ, putQ, agenda, put, bind. cbn.
  destruct (age_split_dues e (Q c) (now a) He rf_queue0) as (E1 & E2 & O). rewrite rf_timers0, <- E2.
  apply sim_run_expired. by split.
Qed.
End Age.
End Simulation.

(** ** The laws of a timer service *)

(** The agenda when [e] seconds have passed, and the timers that fire. *)
Definition aged {F} (e : Z) (a : Agenda F) : Agenda F :=
  mkAgenda (now a + e) (List.filter (fun t => now a + e <? time t) (timers a)) (a_last a) (a_freed a) (a_mallocs a).
Definition expired {F} (e : Z) (a : Agenda F) : list (timeout_q F) := List.filter (fun t => time t <=? now a + e) (timers a).

(** The same timer, whatever its time is counted from. *)
Definition same_timer {F} (t u : timeout_q F) : Prop := id t = id u /\ func t = func u /\ data t = data u.

(** A service looks like an agenda: a client that is proved against the laws
    runs the same on the queue of relative times and on the agenda. *)
Class TimerLaws (F S : Type) `{!TimerService F S} := {
  t_view : S -> Agenda F -> Prop;
  view_freed s a : t_view s a -> t_freed s = a_freed a;
  view_set s a d f x : t_view s a -> 0 <= d < 2 ^ 31 ->
    exists i s' a', t_view s' a' /\
      forall W (w : W), t_set d f x (s, w) = Ok i (s', w) /\ spec_set d f x (a, w) = Ok i (a', w);
  view_clear {W} s a (w : W) i : t_view s a ->
    exists s' a', t_clear i (s, w) = Ok tt (s', w) /\ spec_clear i (a, w) = Ok tt (a', w) /\ t_view s' a';
  view_left {W} s a (w : W) i : t_view s a ->
    exists z, t_left i (s, w) = Ok z (s, w) /\ spec_left i (a, w) = Ok z (a, w);
  view_next {W} s a (w : W) : t_view s a ->
    exists z, t_next (s, w) = Ok z (s, w) /\ spec_next (a, w) = Ok z (a, w);
  view_age {W} s a (w : W) inv e : t_view s a -> 0 <= e < 2 ^ 31 ->
    exists s' l, t_age inv e (s, w) = run_expired inv l (s', w) /\ t_view s' (aged e a) /\ Forall2 same_timer l (expired e a)
}.

Lemma spec_clear_keeps {F W} i (a : Agenda F) (w : W) a' w' : spec_clear i (a, w) = Ok tt (a', w') -> w' = w.
Proof.
  unfold spec_clear, agenda, put, bind, ret. case_decide; [by intros [= <- <-]|]. cbn.
  destruct (lookup_timer i (timers a)); intros [= <- <-]; done.
Qed.

#[export] Program Instance callouts_laws F : TimerLaws F (Callouts F) := { t_view := refines }.
Next Obligation. intros F s a []. done. Qed.
Next Obligation.
  intros F s a d f x R Hd. destruct (sim_set (W := unit) d f x Hd s a tt R) as (r & c' & a' & w' & E1 & E2 & R').
  exists r, c', a'. split; [done|]. intros W w. revert E1 E2. cbn. unfold timer_setTimer, spec_set, getQ, putQ, agenda, put, bind, ret. cbn.
  rewrite (rf_mallocs _ _ R), (rf_last _ _ R). destruct (mallocs s) as [|[]]; intros; simplify_eq; done.
Qed.
Next Obligation.
  intros F W s a w i R. destruct (sim_clear (W := W) i s a w R) as ([] & c' & a' & w' & E1 & E2 & R').
  pose proof (spec_clear_keeps _ _ _ _ _ E2) as ->. by exists c', a'.
Qed.
Next Obligation.
  intros F W s a w i R. destruct (sim_left (W := W) i s a w R) as (r & c' & a' & w' & E1 & E2 & R').
  exists r. unfold t_left, callouts_service in *. revert E1 E2. unfold timer_leftTimer, spec_left, getQ, agenda, ret, bind.
  case_decide; cbn; intros; simplify_eq; split; congruence.
Qed.
Next Obligation.
  intros F W s a w R. destruct (sim_next (W := W) s a w R) as (r & c' & a' & w' & E1 & E2 & R').
  exists r. unfold t_next, callouts_service in *. revert E1 E2. unfold timer_nextTimer, spec_next, getQ, agenda, ret, bind. cbn.
  intros E1 E2. destruct (Q s); [|case_decide]; injection E1 as <- <- <-; injection E2 as E2 <-; split; (done || by rewrite E2).
Qed.
Next Obligation.
  intros F W s a w inv e R He. destruct R.
  destruct (age_split_dues e (Q s) (now a) He rf_queue0) as (E1 & E2 & O).
  exists (withQ (age_split e (Q s)).2 s), (age_split e (Q s)).1. split; [reflexivity|]. split.
  - split; cbn; try done. by rewrite rf_timers0, E1.
  - unfold expired. rewrite rf_timers0, <- E2. clear E2. generalize (now a). induction (age_split e (Q s)).1 as [|t l IH]; intros b; constructor.
    + by destruct t.
    + apply IH.
Qed.

#[export] Program Instance agenda_laws F : TimerLaws F (Agenda F) := { t_view := eq }.
Next Obligation. by intros F s a ->. Qed.
Next Obligation.
  intros F s a d f x -> Hd. cbn. unfold spec_set, agenda, put, bind, ret. cbn.
  destruct (a_mallocs a) as [|[]]; do 3 eexists; (split; [reflexivity|]); intros W w; split; reflexivity.
Qed.
Next Obligation.
  intros F W s a w i ->. unfold t_clear, agenda_service, spec_clear, agenda, put, bind, ret. case_decide; [by do 2 eexists|]. cbn.
  destruct (lookup_timer i (timers a)); by do 2 eexists.
Qed.
Next Obligation.
  intros F W s a w i ->. unfold t_left, agenda_service, spec_left, agenda, put, bind, ret. case_decide; eexists; done.
Qed.
Next Obligation. intros F W s a w ->. eexists. done. Qed.
Next Obligation.
  intros F W s a w inv e -> He. exists (aged e a), (expired e a). split; [reflexivity|]. split; [done|]. generalize (expired e a).
  intros l. induction l; by constructor.
Qed.

(** ** Theorem *)

(** Delays and elapsed times are numbers of seconds an [int] holds. *)
Definition call_ok {F} (c : call F) : Prop :=
  match c with Set_ delay _ _ => 0 <= delay < 2 ^ 31 | _ => True end.
Definition event_ok {F} (e : event F) : Prop :=
  match e with Call c => call_ok c | Age e => 0 <= e < 2 ^ 31 end.

Section Drive.
Context {F : Type} (script : list (obs F) -> F -> Z -> list (call F)).
Hypothesis Hscript : forall l f d, Forall call_ok (script l f d).

Lemma sim_log o : simulates (W := list (obs F)) (log (S := Callouts F) o) (log (S := Agenda F) o).
Proof. intros c a w R. by exists tt, c, a, (w ++ [o]). Qed.

Lemma sim_do_call c : call_ok c -> simulates (do_call (F := F) (S := Callouts F) c) (do_call (S := Agenda F) c).
Proof.
  intros H. destruct c as [delay action d|i|i|]; cbn [do_call].
  - apply sim_bind; [by apply sim_set|]. intros. apply sim_log.
  - apply sim_clear.
  - apply sim_bind; [apply sim_left|]. intros. apply sim_log.
  - apply sim_bind; [apply sim_next|]. intros. apply sim_log.
Qed.

Lemma sim_do_calls cs : Forall call_ok cs ->
  simulates (do_calls (F := F) (S := Callouts F) cs) (do_calls (S := Agenda F) cs).
Proof.
  induction 1 as [|c cs H _ IH]; [apply sim_ret|]. apply sim_bind; [by apply sim_do_call|]. intros _. apply IH.
Qed.

Lemma sim_invoke f d : simulates (invoke (S := Callouts F) script f d) (invoke (S := Agenda F) script f d).
Proof using Hscript.
  apply sim_bind; [apply sim_log|]. intros _ c a w R. unfold get, bind. cbn. by apply sim_do_calls.
Qed.

Lemma sim_drive evs : Forall event_ok evs ->
  simulates (drive (S := Callouts F) script evs) (drive (S := Agenda F) script evs).
Proof using Hscript.
  induction 1 as [|e evs H _ IH]; [apply sim_ret|]. destruct e as [c|e]; cbn [drive].
  - apply sim_bind; [by apply sim_do_call|]. intros _. apply IH.
  - apply sim_bind; [apply sim_age; [apply sim_invoke|done]|]. intros _. apply IH.
Qed.
End Drive.

(** C17. The timer queue of relative times implements an agenda of absolute
    deadlines: whatever a client sets, clears, asks and lets elapse, and
    whatever the functions of expired timers set, clear and ask in turn, it
    gets the same identifiers and answers and sees the same timers fire in the
    same order as with the agenda, where a timer fires as soon as its deadline
    has passed; no call fails and no sum overflows. *)
Theorem callouts_refine_agenda {F} (script : list (obs F) -> F -> Z -> list (call F)) evs (c : Callouts F) (a : Agenda F) :
  (forall l f d, Forall call_ok (script l f d)) -> Forall event_ok evs -> refines c a ->
  exists c' a' l, drive script evs (c, []) = Ok tt (c', l) /\
    drive script evs (a, []) = Ok tt (a', l) /\ refines c' a'.
Proof.
  intros Hs He R. destruct (sim_drive script Hs evs He c a [] R) as ([] & c' & a' & l & E1 & E2 & R').
  by exists c', a', l.
Qed.

(** A function that sets itself again, and a timer that is cleared. *)
Definition again : list (obs nat) -> nat -> Z -> list (call nat) := fun _ f d =>
  if decide (f = 0%nat) then [Set_ 10 (Some 0%nat) d; Next] else [].

Lemma callouts_refine_agenda_witness :
  let evs := [Call (Set_ 10 (Some 0%nat) 7); Call (Set_ 5 (Some 1%nat) 8); Call (Set_ 10 (Some 2%nat) 9);
              Age 4; Call (Left 3); Call (Clear 2); Age 7; Call Next; Age 10] in
  let c := mkCallouts [] 0 [] [] in
  let a := mkAgenda 100 [] 0 [] [] in
  (exists c' a' l, drive again evs (c, []) = Ok tt (c', l) /\
     drive again evs (a, []) = Ok tt (a', l) /\ refines c' a') /\
  match drive again evs (c, []) with
  | Ok _ (c', l) => freed c' = [8] /\
      l = [Given 1; Given 2; Given 3; Told 6; Fired 0%nat 7; Given 4; Told 10; Fired 2%nat 9;
           Told 10; Fired 0%nat 7; Given 5; Told 10]
  | _ => False
  end.
Proof.
  split; [|vm_compute; done].
  apply (callouts_refine_agenda again).
  - intros l f d. unfold again. case_decide; repeat constructor; done.
  - repeat constructor; done.
  - by split.
Defined.
