(* ===== verification/Acl.v ===== *)
(** * Acl: access control lists of transproxy (acl.c)

    A rule is an address and a mask; a client is served when there is no rule
    or one matches.  Addresses are kept in network byte order.  [unsigned long]
    has 32 bits.  What C leaves undefined (a shift by the width of the type, a
    store behind the table) is [None]. *)

From stdpp Require Import base list numbers strings.
From S2P Require Import Prelude.
Open Scope Z_scope.

(** ** The C library *)

(** [htonl] and [ntohl] on a little-endian machine. *)
Definition htonl (x : Z) : Z :=
  Z.lor (Z.lor (Z.shiftl (Z.land x 0xff) 24) (Z.shiftl (Z.land (Z.shiftr x 8) 0xff) 16))
        (Z.lor (Z.shiftl (Z.land (Z.shiftr x 16) 0xff) 8) (Z.land (Z.shiftr x 24) 0xff)).

Definition is_space (c : Z) : bool := (c =? 32) || ((9 <=? c) && (c <=? 13)).
Definition is_digit (c : Z) : bool := (48 <=? c) && (c <=? 57).

Fixpoint skip_space (s : list Z) : list Z :=
  match s with c :: s' => if is_space c then skip_space s' else s | [] => [] end.

Fixpoint digits_value (v : Z) (s : list Z) : Z :=
  match s with c :: s' => if is_digit c then digits_value (v * 10 + (c - 48)) s' else v | [] => v end.

(** [atoi]: [strtol] to base 10, which keeps to the limits of [long]. *)
Definition atoi (s : list Z) : Z :=
  let v := match skip_space s with
           | 45 :: s' => - digits_value 0 s'
           | 43 :: s' => digits_value 0 s'
           | s' => digits_value 0 s'
           end in
  Z.max (- 2 ^ 31) (Z.min (2 ^ 31 - 1) v).

(** The text before and behind the first [c]; [None] when there is none. *)
Fixpoint split_at (c : Z) (s : list Z) : option (list Z * list Z) :=
  match s with
  | [] => None
  | x :: s' => if decide (x = c) then Some ([], s')
               else match split_at c s' with Some (a, b) => Some (x :: a, b) | None => None end
  end.

(** ** The code *)

Definition MAX_ACL : Z := 100.

Record acl_t := mkAcl { ip : Z; mask : Z }.

Definition reset_acl : list acl_t := [].

Definition getclass (ip : Z) : Z :=
  if decide (Z.land ip 0x80000000 = 0) then 0xff000000
  else if decide (Z.land ip 0x40000000 = 0) then 0xffff0000
  else 0xffffff00.

Definition SLASH : Z := 47.
Definition DOT : Z := 46.

(** The while loop over the parts of the address: [value] is null behind the
    last part.  [inl] is the [return (0)] of more than four parts. *)
Fixpoint parts_loop (fuel : nat) (value : option (list Z)) (ip shift : Z) : option (unit + Z) :=
  match fuel with
  | O => None
  | S fuel =>
    match value with
    | None => Some (inr ip)
    | Some v =>
        match split_at DOT v with
        | Some (part, ptr) =>
            if decide (shift < 0) then Some (inl tt)
            else parts_loop fuel (Some ptr) (Z.lor ip (u32 (Z.shiftl (atoi part) shift))) (shift - 8)
        | None =>
            if decide (v = []) then Some (inr ip)
            else if decide (shift < 0) then Some (inl tt)
            else parts_loop fuel None (Z.lor ip (u32 (Z.shiftl (atoi v) shift))) (shift - 8)
        end
    end
  end.

(** [x << n] on 32 bits, undefined for a shift by 32. *)
Definition shl32 (x n : Z) : option Z := if decide (0 <= n < 32) then Some (u32 (Z.shiftl x n)) else None.

(** The mask of a rule: [inl] is [return (0)]. *)
Definition get_mask (cidr : option (list Z)) (ip : Z) : option (unit + Z) :=
  match cidr with
  | Some c =>
      let bits := atoi c in
      if decide (0 <= bits <= 32) then shl32 0xffffffff (32 - bits) ≫= fun m => Some (inr m)
      else Some (inl tt)
  | None =>
      let m := getclass ip in
      Some (inr (if decide (Z.land ip m <> ip) then 0xffffffff else m))
  end.

(** The result and the table afterwards. *)
Definition add_acl (acl_str : list Z) (acl : list acl_t) : option (Z * list acl_t) :=
  let '(addr, cidr) := match split_at SLASH acl_str with
                       | Some (a, c) => (a, Some c)
                       | None => (acl_str, None)
                       end in
  parts_loop (length addr + 3) (Some addr) 0 24 ≫= fun r =>
  match r with
  | inl _ => Some (0, acl)
  | inr ip =>
      get_mask cidr ip ≫= fun r =>
      match r with
      | inl _ => Some (0, acl)
      | inr mask =>
          if decide (zlen acl >= MAX_ACL) then None
          else Some (1, acl ++ [mkAcl (Z.land (htonl ip) (htonl mask)) (htonl mask)])
      end
  end.

(** The for loop. *)
Fixpoint check_loop (check_ip : Z) (acl : list acl_t) : Z :=
  match acl with
  | [] => 0
  | a :: acl => if decide (Z.land check_ip (mask a) = ip a) then 1 else check_loop check_ip acl
  end.

(** [check_ip] is [addr->sin_addr.s_addr]. *)
Definition check_acl (check_ip : Z) (acl : list acl_t) : Z :=
  if decide (zlen acl > 0) then check_loop check_ip acl else 1.

(** ** Specification: prefixes *)

(** A rule as it is written: four numbers and, perhaps, a prefix length. *)
Record rule := mkRule { r_a : Z; r_b : Z; r_c : Z; r_d : Z; r_len : option Z }.

Definition rule_text (r : rule) : list Z :=
  dec (r_a r) ++ DOT :: dec (r_b r) ++ DOT :: dec (r_c r) ++ DOT :: dec (r_d r) ++
  match r_len r with Some l => SLASH :: dec l | None => [] end.

Definition rule_ip (r : rule) : Z := ((r_a r * 256 + r_b r) * 256 + r_c r) * 256 + r_d r.

Definition rule_ok (r : rule) : Prop :=
  is_byte (r_a r) /\ is_byte (r_b r) /\ is_byte (r_c r) /\ is_byte (r_d r) /\
  match r_len r with Some l => 1 <= l <= 32 | None => True end.

(** The network part of an address by its class. *)
Definition class_len (n : Z) : Z :=
  if decide (n < 2 ^ 31) then 8 else if decide (n < 2 ^ 31 + 2 ^ 30) then 16 else 24.

(** The length of the prefix a rule is about: as written; without length, the
    network when the rest is 0, and the host otherwise. *)
Definition prefix_len (r : rule) : Z :=
  match r_len r with
  | Some l => l
  | None => let l := class_len (rule_ip r) in
            if decide (rule_ip r mod 2 ^ (32 - l) = 0) then l else 32
  end.

Definition matches (r : rule) (x : Z) : Prop :=
  x / 2 ^ (32 - prefix_len r) = rule_ip r / 2 ^ (32 - prefix_len r).

Fixpoint add_acls (texts : list (list Z)) (acl : list acl_t) : option (list Z * list acl_t) :=
  match texts with
  | [] => Some ([], acl)
  | t :: texts => add_acl t acl ≫= fun '(r, acl) =>
                  add_acls texts acl ≫= fun '(rs, acl) => Some (r :: rs, acl)
  end.

(** ** Byte order *)

Lemma htonl_testbit x i : 0 <= i -> Z.testbit (htonl x) i =
  if decide (i < 8) then Z.testbit x (i + 24)
  else if decide (i < 16) then Z.testbit x (i + 8)
  else if decide (i < 24) then Z.testbit x (i - 8)
  else if decide (i < 32) then Z.testbit x (i - 24) else false.
Proof.
  intros Hi. unfold htonl. change 0xff with (Z.ones 8).
  assert (B : forall s j, 0 <= s -> Z.testbit (Z.land (Z.shiftr x s) (Z.ones 8)) j =
    if decide (0 <= j < 8) then Z.testbit x (j + s) else false).
  { intros s j Hs. rewrite Z.land_spec. destruct (decide (j < 0)).
    - rewrite decide_False by lia. by rewrite !Z.testbit_neg_r by lia.
    - rewrite Z.shiftr_spec by lia. rewrite Z.testbit_ones by lia.
      case_decide; [rewrite (proj2 (Z.leb_le 0 j)), (proj2 (Z.ltb_lt j 8)) by lia; apply andb_true_r|].
      rewrite (proj2 (Z.ltb_ge j 8)) by lia. rewrite andb_false_r. apply andb_false_r. }
  assert (B0 : forall j, Z.testbit (Z.land x (Z.ones 8)) j =
    if decide (0 <= j < 8) then Z.testbit x j else false).
  { intros j. specialize (B 0 j). rewrite Z.shiftr_0_r, Z.add_0_r in B. apply B. lia. }
  rewrite !Z.lor_spec, !Z.shiftl_spec, !B, B0 by lia.
  repeat case_decide; try lia; rewrite ?orb_false_r; cbn [orb]; try done; f_equal; lia.
Qed.

Lemma htonl_land a b : Z.land (htonl a) (htonl b) = htonl (Z.land a b).
Proof.
  apply Z.bits_inj'. intros n Hn. rewrite Z.land_spec, !htonl_testbit, !Z.land_spec by done.
  by repeat case_decide.
Qed.

Lemma htonl_htonl x : 0 <= x < 2 ^ 32 -> htonl (htonl x) = x.
Proof.
  intros Hx. apply Z.bits_inj'. intros n Hn. rewrite htonl_testbit by done.
  destruct (decide (n < 32)).
  - repeat case_decide; try lia; rewrite htonl_testbit by lia; repeat case_decide; try lia; f_equal; lia.
  - repeat case_decide; try lia. symmetry. rewrite <- (Z.mod_small x (2 ^ 32)) by done.
    apply Z.mod_pow2_bits_high. lia.
Qed.

Lemma htonl_inj a b : 0 <= a < 2 ^ 32 -> 0 <= b < 2 ^ 32 -> htonl a = htonl b -> a = b.
Proof. intros Ha Hb E. by rewrite <- (htonl_htonl a), <- (htonl_htonl b), E. Qed.

(** ** Masks *)

Definition prefix_mask (l : Z) : Z := 2 ^ 32 - 2 ^ (32 - l).

Lemma land_prefix_mask x l : 0 <= x < 2 ^ 32 -> 0 <= l <= 32 ->
  Z.land x (prefix_mask l) = x / 2 ^ (32 - l) * 2 ^ (32 - l).
Proof.
  intros Hx Hl. set (k := 32 - l). assert (0 <= k <= 32) by lia.
  assert (M : prefix_mask l = Z.shiftl (Z.ones l) k).
  { unfold prefix_mask. fold k. rewrite Z.ones_equiv, Z.shiftl_mul_pow2 by lia.
    unfold Z.pred. rewrite Z.mul_add_distr_r, <- Z.pow_add_r by lia. replace (l + k) with 32 by lia. lia. }
  rewrite M, <- Z.shiftr_div_pow2, <- Z.shiftl_mul_pow2 by lia. apply Z.bits_inj'. intros n Hn.
  rewrite Z.land_spec, !Z.shiftl_spec by lia. destruct (decide (n < k)).
  - rewrite !(Z.testbit_neg_r _ (n - k)) by lia. apply andb_false_r.
  - rewrite Z.shiftr_spec by lia. replace (n - k + k) with n by lia. rewrite Z.testbit_ones by lia.
    rewrite (proj2 (Z.leb_le 0 (n - k))) by lia. destruct (Z.ltb_spec (n - k) l); [apply andb_true_r|].
    cbn. rewrite andb_false_r. symmetry. rewrite <- (Z.mod_small x (2 ^ 32)) by done.
    apply Z.mod_pow2_bits_high. lia.
Qed.

Lemma prefix_mask_range l : 0 <= l <= 32 -> 0 <= prefix_mask l < 2 ^ 32.
Proof.
  intros H. unfold prefix_mask. pose proof (Z.pow_pos_nonneg 2 (32 - l)).
  pose proof (Z.pow_le_mono_r 2 (32 - l) 32). lia.
Qed.

Lemma land_mask_eq x n l : 0 <= x < 2 ^ 32 -> 0 <= n < 2 ^ 32 -> 0 <= l <= 32 ->
  Z.land x (prefix_mask l) = Z.land n (prefix_mask l) <-> x / 2 ^ (32 - l) = n / 2 ^ (32 - l).
Proof.
  intros Hx Hn Hl. rewrite !land_prefix_mask by done. pose proof (Z.pow_pos_nonneg 2 (32 - l)). split.
  - intros E. apply Z.mul_cancel_r in E; lia.
  - by intros ->.
Qed.

Lemma testbit_30 x : 0 <= x < 2 ^ 32 -> 2 ^ 31 <= x ->
  Z.land x 0x40000000 = 0 <-> x < 2 ^ 31 + 2 ^ 30.
Proof.
  intros Hx H1. set (y := x - 2 ^ 31).
  assert (E : Z.land x 0x40000000 = y / 2 ^ 30 * 2 ^ 30).
  { assert (X : x = Z.lor (Z.shiftl 1 31) y) by (rewrite lor_shiftl_add; unfold y; lia).
    rewrite X, Z.land_lor_distr_l. change (Z.land (Z.shiftl 1 31) 0x40000000) with 0. rewrite Z.lor_0_l.
    pose proof (land_prefix_mask (y * 2) 1) as L. change (prefix_mask 1) with (Z.shiftl 0x40000000 1) in L.
    change (y * 2) with (y * 2 ^ 1) in L. rewrite <- Z.shiftl_mul_pow2, <- Z.shiftl_land in L by lia.
    rewrite !Z.shiftl_mul_pow2 in L by lia. change (32 - 1) with 31 in L. unfold y in *. zlia. }
  rewrite E. unfold y. zlia.
Qed.

Lemma getclass_spec n : 0 <= n < 2 ^ 32 -> getclass n = prefix_mask (class_len n).
Proof.
  intros Hn. unfold getclass, class_len.
  pose proof (land_prefix_mask n 1 Hn ltac:(lia)) as L. change (prefix_mask 1) with 0x80000000 in L.
  rewrite L. change (32 - 1) with 31. destruct (decide (n < 2 ^ 31)).
  - rewrite decide_True by zlia. done.
  - rewrite decide_False by zlia. pose proof (testbit_30 n Hn ltac:(lia)) as T. repeat case_decide; done || tauto.
Qed.

(** ** Texts *)

Lemma split_at_app c a b : c ∉ a -> split_at c (a ++ c :: b) = Some (a, b).
Proof.
  induction a as [|x a IH]; intros N; cbn; [by rewrite decide_True|].
  apply not_elem_of_cons in N as [N1 N2]. rewrite decide_False, IH by congruence. done.
Qed.

Lemma split_at_none c a : c ∉ a -> split_at c a = None.
Proof.
  induction a as [|x a IH]; intros N; cbn; [done|].
  apply not_elem_of_cons in N as [N1 N2]. rewrite decide_False, IH by congruence. done.
Qed.

(** Checked for all 256 numbers. *)
Lemma dec_byte n : is_byte n ->
  atoi (dec n) = n /\ (SLASH ∉ dec n) /\ (DOT ∉ dec n) /\ dec n <> [] /\ (length (dec n) <= 3)%nat.
Proof.
  intros H. pose proof (byte_ind (fun n => (atoi (dec n) =? n) && bool_decide (SLASH ∉ dec n) &&
    bool_decide (DOT ∉ dec n) && bool_decide (dec n <> []) && bool_decide (length (dec n) <= 3)%nat)) as B.
  specialize (B ltac:(vm_compute; reflexivity) n H). cbn beta in B.
  rewrite !andb_true_iff, !bool_decide_eq_true, Z.eqb_eq in B. tauto.
Qed.

Lemma byte_shift b k : is_byte b -> 0 <= k <= 24 -> u32 (Z.shiftl b k) = b * 2 ^ k.
Proof.
  unfold is_byte. intros Hb Hk. rewrite Z.shiftl_mul_pow2 by lia. apply u32_small.
  pose proof (Z.pow_le_mono_r 2 k 24). pose proof (Z.pow_pos_nonneg 2 k).
  change (2 ^ 24) with 16777216 in *. change (2 ^ 32) with 4294967296. nia.
Qed.

Lemma parts_loop_quad fuel a b c d : is_byte a -> is_byte b -> is_byte c -> is_byte d ->
  parts_loop (5 + fuel) (Some (dec a ++ DOT :: dec b ++ DOT :: dec c ++ DOT :: dec d)) 0 24 =
  Some (inr (((a * 256 + b) * 256 + c) * 256 + d)).
Proof.
  intros A B C D. cbn [Nat.add parts_loop].
  destruct (dec_byte a A) as (Ea & _ & Na & _ & _), (dec_byte b B) as (Eb & _ & Nb & _ & _),
    (dec_byte c C) as (Ec & _ & Nc & _ & _), (dec_byte d D) as (Ed & _ & Nd & Nn & _).
  rewrite split_at_app by done. rewrite decide_False by lia.
  rewrite split_at_app by done. rewrite decide_False by lia.
  rewrite split_at_app by done. rewrite decide_False by lia.
  rewrite split_at_none by done. rewrite !decide_False by (done || lia).
  rewrite Ea, Eb, Ec, Ed. change (24 - 8) with 16. change (16 - 8) with 8. change (8 - 8) with 0.
  rewrite !byte_shift by (done || lia). unfold is_byte in *. rewrite Z.lor_0_l.
  rewrite (lor_low a (b * 2 ^ 16) 24) by lia.
  replace (a * 2 ^ 24 + b * 2 ^ 16) with ((a * 256 + b) * 2 ^ 16) by lia.
  rewrite (lor_low _ (c * 2 ^ 8) 16) by lia.
  replace ((a * 256 + b) * 2 ^ 16 + c * 2 ^ 8) with (((a * 256 + b) * 256 + c) * 2 ^ 8) by lia.
  rewrite (lor_low _ (d * 2 ^ 0) 8) by lia. do 2 f_equal. lia.
Qed.

(** ** The table *)

Lemma rule_ip_range r : rule_ok r -> 0 <= rule_ip r < 2 ^ 32.
Proof. intros (A & B & C & D & _). unfold is_byte, rule_ip in *. lia. Qed.

Lemma class_len_range n : 8 <= class_len n <= 24.
Proof. unfold class_len. repeat case_decide; lia. Qed.

Lemma prefix_len_range r : rule_ok r -> 1 <= prefix_len r <= 32.
Proof.
  intros (_ & _ & _ & _ & L). unfold prefix_len. destruct (r_len r); [done|].
  pose proof (class_len_range (rule_ip r)). case_decide; lia.
Qed.

(** The entry of a rule. *)
Definition entry (r : rule) : acl_t :=
  let m := prefix_mask (prefix_len r) in mkAcl (htonl (Z.land (rule_ip r) m)) (htonl m).

Lemma get_mask_spec r : rule_ok r ->
  get_mask (match r_len r with Some l => Some (dec l) | None => None end) (rule_ip r) =
  Some (inr (prefix_mask (prefix_len r))).
Proof.
  intros O. pose proof (rule_ip_range r O) as R. destruct O as (_ & _ & _ & _ & L).
  unfold get_mask, prefix_len. destruct (r_len r) as [l|].
  - destruct (dec_byte l) as (E & _); [unfold is_byte; lia|]. rewrite E, decide_True by lia.
    unfold shl32. rewrite decide_True by lia. cbn. do 2 f_equal. unfold prefix_mask, u32.
    rewrite Z.shiftl_mul_pow2 by lia. change 4294967295 with (2 ^ 32 - 1).
    pose proof (Z.pow_pos_nonneg 2 (32 - l)). pose proof (Z.pow_lt_mono_r 2 (32 - l) 32).
    symmetry. apply (Z.mod_unique _ _ (2 ^ (32 - l) - 1)); lia.
  - rewrite getclass_spec by done. pose proof (class_len_range (rule_ip r)) as C.
    set (l := class_len (rule_ip r)) in *. rewrite land_prefix_mask by lia.
    pose proof (Z.pow_pos_nonneg 2 (32 - l)). do 2 f_equal.
    pose proof (Z.div_mod (rule_ip r) (2 ^ (32 - l))). repeat case_decide; try done; lia.
Qed.

Lemma add_acl_rule_gen r acl : rule_ok r ->
  add_acl (rule_text r) acl = if decide (zlen acl >= MAX_ACL) then None else Some (1, acl ++ [entry r]).
Proof.
  intros O. pose proof (get_mask_spec r O) as G. assert (O' := O). destruct O' as (A & B & C & D & _).
  set (quad := dec (r_a r) ++ DOT :: dec (r_b r) ++ DOT :: dec (r_c r) ++ DOT :: dec (r_d r)).
  assert (N : SLASH ∉ quad).
  { destruct (dec_byte _ A) as (_ & NA & _), (dec_byte _ B) as (_ & NB & _), (dec_byte _ C) as (_ & NC & _),
      (dec_byte _ D) as (_ & ND & _). unfold quad. repeat rewrite ?elem_of_app, ?elem_of_cons.
    intros [?|[?|[?|[?|[?|[?|?]]]]]]; done. }
  assert (S : match split_at SLASH (rule_text r) with Some (a, c) => (a, Some c) | None => (rule_text r, None) end =
    (quad, match r_len r with Some l => Some (dec l) | None => None end)).
  { unfold rule_text. destruct (r_len r) as [l|].
    - replace (dec (r_a r) ++ _) with (quad ++ SLASH :: dec l) by (unfold quad; by rewrite !app_comm_cons, <- !app_assoc).
      by rewrite split_at_app.
    - rewrite app_nil_r. fold quad. by rewrite split_at_none. }
  unfold add_acl. rewrite S. assert (Lq : (2 <= length quad)%nat).
  { unfold quad. rewrite !length_app. cbn. rewrite !length_app. cbn. lia. }
  replace (length quad + 3)%nat with (5 + (length quad - 2))%nat by lia.
  unfold quad. rewrite parts_loop_quad by done. fold (rule_ip r). cbn [mbind option_bind].
  rewrite G. cbn [mbind option_bind]. unfold entry. by rewrite <- htonl_land.
Qed.

Lemma add_acl_rule r acl : rule_ok r -> zlen acl < MAX_ACL ->
  add_acl (rule_text r) acl = Some (1, acl ++ [entry r]).
Proof. intros O H. rewrite add_acl_rule_gen by done. by rewrite decide_False by lia. Qed.

Lemma add_acls_rules rs : forall acl, Forall rule_ok rs -> zlen acl + zlen rs <= MAX_ACL ->
  add_acls (map rule_text rs) acl = Some (map (fun _ => 1) rs, acl ++ map entry rs).
Proof.
  induction rs as [|r rs IH]; intros acl O H; cbn [map add_acls]; [by rewrite app_nil_r|].
  apply Forall_cons in O as [O1 O2]. rewrite zlen_cons in H. pose proof (zlen_nonneg rs).
  rewrite add_acl_rule by (done || lia). cbn [mbind option_bind].
  rewrite IH by (done || (rewrite zlen_app, zlen_cons, zlen_nil; lia)). cbn. by rewrite <- app_assoc.
Qed.

Lemma check_entry r x : rule_ok r -> 0 <= x < 2 ^ 32 ->
  Z.land (htonl x) (mask (entry r)) = ip (entry r) <-> matches r x.
Proof.
  intros O Hx. pose proof (rule_ip_range r O). pose proof (prefix_len_range r O).
  pose proof (prefix_mask_range (prefix_len r) ltac:(lia)) as M. unfold entry, matches. cbn.
  rewrite htonl_land. rewrite <- land_mask_eq by lia.
  assert (R : forall y, 0 <= y < 2 ^ 32 -> 0 <= Z.land y (prefix_mask (prefix_len r)) < 2 ^ 32).
  { intros y Hy. rewrite land_prefix_mask by lia. pose proof (Z.pow_pos_nonneg 2 (32 - prefix_len r)).
    pose proof (Z.mul_div_le y (2 ^ (32 - prefix_len r))). pose proof (Z.div_pos y (2 ^ (32 - prefix_len r))). nia. }
  split; [|by intros ->]. intros E. apply htonl_inj in E; auto.
Qed.

Lemma check_loop_spec rs x : Forall rule_ok rs -> 0 <= x < 2 ^ 32 ->
  (Exists (fun r => matches r x) rs /\ check_loop (htonl x) (map entry rs) = 1) \/
  (~ Exists (fun r => matches r x) rs /\ check_loop (htonl x) (map entry rs) = 0).
Proof.
  intros O Hx. induction O as [|r rs O _ IH]; cbn [map check_loop]; [right; split; [intros N; inversion N|done]|].
  pose proof (check_entry r x O Hx) as C. rewrite Exists_cons. case_decide as D; [left; tauto|].
  destruct IH as [[H1 H2]|[H1 H2]]; [left|right]; tauto.
Qed.

(** ** Theorem *)

(** C20. Access control: from an empty table, any list of at most 100 rules
    written as dotted quads, with or without a prefix length of 1 to 32, is
    taken in full, and afterwards a client is served exactly when there are no
    rules or its address agrees with some rule's address on the rule's prefix:
    the length given, else the network of the address's class if the host part
    is zero, else the whole address. *)
Theorem acl_decides rs x : Forall rule_ok rs -> zlen rs <= MAX_ACL -> 0 <= x < 2 ^ 32 ->
  exists acl, add_acls (map rule_text rs) reset_acl = Some (map (fun _ => 1) rs, acl) /\
    (check_acl (htonl x) acl = 1 <-> rs = [] \/ Exists (fun r => matches r x) rs) /\
    (check_acl (htonl x) acl = 0 <-> rs <> [] /\ ~ Exists (fun r => matches r x) rs).
Proof.
  intros O L Hx. exists (map entry rs). rewrite add_acls_rules by (done || (cbn; lia)). split; [done|].
  unfold check_acl. destruct rs as [|r rs].
  - rewrite decide_False by done. split; split; try done; [by left|by intros [? _]].
  - assert (zlen (map entry (r :: rs)) > 0).
    { cbn [map]. rewrite zlen_cons. pose proof (zlen_nonneg (map entry rs)). lia. }
    rewrite decide_True by done. destruct (check_loop_spec (r :: rs) x O Hx) as [[E ->]|[E ->]].
    + split; split; try done; [by right|by intros [_ []]].
    + split; split; try done. by intros [?|?].
Qed.

Definition some_rules : list rule :=
  [mkRule 192 168 1 7 None; mkRule 172 16 0 0 None; mkRule 10 1 0 0 (Some 24)].

Lemma acl_decides_witness :
  (exists acl, add_acls (map rule_text some_rules) reset_acl = Some (map (fun _ => 1) some_rules, acl) /\
    (check_acl (htonl 0x0a0100ff) acl = 1 <-> some_rules = [] \/ Exists (fun r => matches r 0x0a0100ff) some_rules) /\
    (check_acl (htonl 0x0a0100ff) acl = 0 <-> some_rules <> [] /\ ~ Exists (fun r => matches r 0x0a0100ff) some_rules)) /\
  match add_acls (map rule_text some_rules) reset_acl with
  | Some (_, acl) => map (fun x => check_acl (htonl x) acl) [0x0a0100ff; 0x0a010100; 0xac10ffff; 0xc0a80107; 0xc0a80108] =
                     [1; 0; 1; 1; 0]
  | None => False
  end.
Proof.
  split; [|vm_compute; reflexivity].
  apply (acl_decides some_rules 0x0a0100ff); [|vm_compute; discriminate|lia].
  repeat (apply Forall_cons; split); try apply Forall_nil; (repeat split; cbn; lia).
Defined.

(** A prefix length of 0 asks for a shift that C does not define, and the
    rule after the hundredth is written behind the table. *)
Lemma acl_undefined :
  add_acl (dec 10 ++ DOT :: dec 0 ++ DOT :: dec 0 ++ DOT :: dec 0 ++ SLASH :: dec 0) reset_acl = None /\
  forall r acl, rule_ok r -> zlen acl = MAX_ACL -> add_acl (rule_text r) acl = None.
Proof. split; [vm_compute; reflexivity|]. intros r acl O H. rewrite add_acl_rule_gen by done. by rewrite decide_True by lia. Qed.
