(* ===== verification/Inet6.v ===== *)
(** * Inet6: IPv6 addresses of pim6sd (inet6.c, pimd.h)

    A [sockaddr_in6] is its scope and the 16 bytes of the address.  The
    comparisons of inet6.c, which run over the four 32-bit words, are the order
    of the numbers the addresses stand for; the masks of pimd.h, built and read
    back byte by byte and bit by bit, are the prefixes of these numbers. *)

From stdpp Require Import base list numbers.
From S2P Require Import Prelude.
Open Scope Z_scope.

(** ** The code *)

Record sockaddr_in6 := mkSa { sin6_scope_id : Z; sin6_addr : list Z }.

#[export] Instance sockaddr_in6_eq_dec : EqDecision sockaddr_in6.
Proof. solve_decision. Defined.

Definition s6 (a : list Z) (i : Z) : Z := nth (Z.to_nat i) a 0.

(** The macros of <netinet/in.h>. *)
Definition IN6_IS_ADDR_MULTICAST (a : list Z) : bool := s6 a 0 =? 0xff.
Definition IN6_IS_ADDR_MC_LINKLOCAL (a : list Z) : bool :=
  IN6_IS_ADDR_MULTICAST a && (Z.land (s6 a 1) 0x0f =? 2).
Definition IN6_IS_ADDR_MC_SITELOCAL (a : list Z) : bool :=
  IN6_IS_ADDR_MULTICAST a && (Z.land (s6 a 1) 0x0f =? 5).
Definition IN6_IS_ADDR_LINKLOCAL (a : list Z) : bool :=
  (s6 a 0 =? 0xfe) && (Z.land (s6 a 1) 0xc0 =? 0x80).
Definition IN6_IS_ADDR_SITELOCAL (a : list Z) : bool :=
  (s6 a 0 =? 0xfe) && (Z.land (s6 a 1) 0xc0 =? 0xc0).
Definition IN6_ARE_ADDR_EQUAL (a b : list Z) : bool := bool_decide (a = b).
Definition in6addr_any : list Z := replicate 16 0.
Definition IN6_IS_ADDR_UNSPECIFIED (a : list Z) : bool := IN6_ARE_ADDR_EQUAL a in6addr_any.

(** [ntohl] of the 32-bit word at [i]. *)
Definition word32 (a : list Z) (i : Z) : Z :=
  ((s6 a i * 256 + s6 a (i + 1)) * 256 + s6 a (i + 2)) * 256 + s6 a (i + 3).

(** [struct phaddr], [struct pim_nbr_entry] and the parts of [struct uvif] that
    routing uses (vif.h, mrt.h); the linked lists of addresses and of neighbours
    are lists of their nodes.  [nbr_id] is the address of the neighbour's
    structure; [num_groups_ptr] is a place in [jp_message]. *)
Record phaddr := mkPhaddr {
  pa_addr : sockaddr_in6;
  pa_rmt_addr : sockaddr_in6;
  pa_prefix : sockaddr_in6;
  pa_subnetmask : list Z
}.

Record build_jp_message := mkJp {
  jp_message : list Z;
  jp_message_size : Z;
  jp_holdtime : Z;
  curr_group : sockaddr_in6;
  curr_group_msklen : Z;
  join_list : list Z;
  join_list_size : Z;
  join_addr_number : Z;
  prune_list : list Z;
  prune_list_size : Z;
  prune_addr_number : Z;
  rp_list_join : list Z;
  rp_list_join_size : Z;
  rp_list_join_number : Z;
  rp_list_prune : list Z;
  rp_list_prune_size : Z;
  rp_list_prune_number : Z;
  num_groups_ptr : Z
}.

Record pim_nbr_entry := mkNbr {
  nbr_id : nat;
  nbr_address : sockaddr_in6;
  nbr_aux_addrs : list phaddr;
  nbr_vifi : Z;
  nbr_timer : Z;
  nbr_jp : option build_jp_message
}.

Record uvif := mkVif {
  uv_flags : Z;
  uv_ifindex : Z;
  uv_siteid : Z;
  uv_addrs : list phaddr;
  uv_local_pref : Z;
  uv_local_metric : Z;
  uv_pim_neighbors : list pim_nbr_entry;
  uv_linklocal : option phaddr;
  uv_pim_hello_timer : Z;
  uv_gq_timer : Z;
  uv_jp_timer : Z
}.

Definition set_jp_message (v : list Z) (j : build_jp_message) : build_jp_message :=
mkJp v (jp_message_size j) (jp_holdtime j) (curr_group j) (curr_group_msklen j) (join_list j)
    (join_list_size j) (join_addr_number j) (prune_list j) (prune_list_size j) (prune_addr_number j)
    (rp_list_join j) (rp_list_join_size j) (rp_list_join_number j) (rp_list_prune j)
    (rp_list_prune_size j) (rp_list_prune_number j) (num_groups_ptr j).
Definition set_jp_message_size (v : Z) (j : build_jp_message) : build_jp_message :=
mkJp (jp_message j) v (jp_holdtime j) (curr_group j) (curr_group_msklen j) (join_list j)
    (join_list_size j) (join_addr_number j) (prune_list j) (prune_list_size j) (prune_addr_number j)
    (rp_list_join j) (rp_list_join_size j) (rp_list_join_number j) (rp_list_prune j)
    (rp_list_prune_size j) (rp_list_prune_number j) (num_groups_ptr j).
Definition set_jp_holdtime (v : Z) (j : build_jp_message) : build_jp_message :=
mkJp (jp_message j) (jp_message_size j) v (curr_group j) (curr_group_msklen j) (join_list j)
    (join_list_size j) (join_addr_number j) (prune_list j) (prune_list_size j) (prune_addr_number j)
    (rp_list_join j) (rp_list_join_size j) (rp_list_join_number j) (rp_list_prune j)
    (rp_list_prune_size j) (rp_list_prune_number j) (num_groups_ptr j).
Definition set_curr_group (v : sockaddr_in6) (j : build_jp_message) : build_jp_message :=
mkJp (jp_message j) (jp_message_size j) (jp_holdtime j) v (curr_group_msklen j) (join_list j)
    (join_list_size j) (join_addr_number j) (prune_list j) (prune_list_size j) (prune_addr_number j)
    (rp_list_join j) (rp_list_join_size j) (rp_list_join_number j) (rp_list_prune j)
    (rp_list_prune_size j) (rp_list_prune_number j) (num_groups_ptr j).
Definition set_curr_group_msklen (v : Z) (j : build_jp_message) : build_jp_message :=
mkJp (jp_message j) (jp_message_size j) (jp_holdtime j) (curr_group j) v (join_list j)
    (join_list_size j) (join_addr_number j) (prune_list j) (prune_list_size j) (prune_addr_number j)
    (rp_list_join j) (rp_list_join_size j) (rp_list_join_number j) (rp_list_prune j)
    (rp_list_prune_size j) (rp_list_prune_number j) (num_groups_ptr j).
Definition set_join_list (v : list Z) (j : build_jp_message) : build_jp_message :=
mkJp (jp_message j) (jp_message_size j) (jp_holdtime j) (curr_group j) (curr_group_msklen j) v
    (join_list_size j) (join_addr_number j) (prune_list j) (prune_list_size j) (prune_addr_number j)
    (rp_list_join j) (rp_list_join_size j) (rp_list_join_number j) (rp_list_prune j)
    (rp_list_prune_size j) (rp_list_prune_number j) (num_groups_ptr j).
Definition set_join_list_size (v : Z) (j : build_jp_message) : build_jp_message :=
mkJp (jp_message j) (jp_message_size j) (jp_holdtime j) (curr_group j) (curr_group_msklen j)
    (join_list j) v (join_addr_number j) (prune_list j) (prune_list_size j) (prune_addr_number j)
    (rp_list_join j) (rp_list_join_size j) (rp_list_join_number j) (rp_list_prune j)
    (rp_list_prune_size j) (rp_list_prune_number j) (num_groups_ptr j).
Definition set_join_addr_number (v : Z) (j : build_jp_message) : build_jp_message :=
mkJp (jp_message j) (jp_message_size j) (jp_holdtime j) (curr_group j) (curr_group_msklen j)
    (join_list j) (join_list_size j) v (prune_list j) (prune_list_size j) (prune_addr_number j)
    (rp_list_join j) (rp_list_join_size j) (rp_list_join_number j) (rp_list_prune j)
    (rp_list_prune_size j) (rp_list_prune_number j) (num_groups_ptr j).
Definition set_prune_list (v : list Z) (j : build_jp_message) : build_jp_message :=
mkJp (jp_message j) (jp_message_size j) (jp_holdtime j) (curr_group j) (curr_group_msklen j)
    (join_list j) (join_list_size j) (join_addr_number j) v (prune_list_size j) (prune_addr_number
    j) (rp_list_join j) (rp_list_join_size j) (rp_list_join_number j) (rp_list_prune j)
    (rp_list_prune_size j) (rp_list_prune_number j) (num_groups_ptr j).
Definition set_prune_list_size (v : Z) (j : build_jp_message) : build_jp_message :=
mkJp (jp_message j) (jp_message_size j) (jp_holdtime j) (curr_group j) (curr_group_msklen j)
    (join_list j) (join_list_size j) (join_addr_number j) (prune_list j) v (prune_addr_number j)
    (rp_list_join j) (rp_list_join_size j) (rp_list_join_number j) (rp_list_prune j)
    (rp_list_prune_size j) (rp_list_prune_number j) (num_groups_ptr j).
Definition set_prune_addr_number (v : Z) (j : build_jp_message) : build_jp_message :=
mkJp (jp_message j) (jp_message_size j) (jp_holdtime j) (curr_group j) (curr_group_msklen j)
    (join_list j) (join_list_size j) (join_addr_number j) (prune_list j) (prune_list_size j) v
    (rp_list_join j) (rp_list_join_size j) (rp_list_join_number j) (rp_list_prune j)
    (rp_list_prune_size j) (rp_list_prune_number j) (num_groups_ptr j).
Definition set_rp_list_join (v : list Z) (j : build_jp_message) : build_jp_message :=
mkJp (jp_message j) (jp_message_size j) (jp_holdtime j) (curr_group j) (curr_group_msklen j)
    (join_list j) (join_list_size j) (join_addr_number j) (prune_list j) (prune_list_size j)
    (prune_addr_number j) v (rp_list_join_size j) (rp_list_join_number j) (rp_list_prune j)
    (rp_list_prune_size j) (rp_list_prune_number j) (num_groups_ptr j).
Definition set_rp_list_join_size (v : Z) (j : build_jp_message) : build_jp_message :=
mkJp (jp_message j) (jp_message_size j) (jp_holdtime j) (curr_group j) (curr_group_msklen j)
    (join_list j) (join_list_size j) (join_addr_number j) (prune_list j) (prune_list_size j)
    (prune_addr_number j) (rp_list_join j) v (rp_list_join_number j) (rp_list_prune j)
    (rp_list_prune_size j) (rp_list_prune_number j) (num_groups_ptr j).
Definition set_rp_list_join_number (v : Z) (j : build_jp_message) : build_jp_message :=
mkJp (jp_message j) (jp_message_size j) (jp_holdtime j) (curr_group j) (curr_group_msklen j)
    (join_list j) (join_list_size j) (join_addr_number j) (prune_list j) (prune_list_size j)
    (prune_addr_number j) (rp_list_join j) (rp_list_join_size j) v (rp_list_prune j)
    (rp_list_prune_size j) (rp_list_prune_number j) (num_groups_ptr j).
Definition set_rp_list_prune (v : list Z) (j : build_jp_message) : build_jp_message :=
mkJp (jp_message j) (jp_message_size j) (jp_holdtime j) (curr_group j) (curr_group_msklen j)
    (join_list j) (join_list_size j) (join_addr_number j) (prune_list j) (prune_list_size j)
    (prune_addr_number j) (rp_list_join j) (rp_list_join_size j) (rp_list_join_number j) v
    (rp_list_prune_size j) (rp_list_prune_number j) (num_groups_ptr j).
Definition set_rp_list_prune_size (v : Z) (j : build_jp_message) : build_jp_message :=
mkJp (jp_message j) (jp_message_size j) (jp_holdtime j) (curr_group j) (curr_group_msklen j)
    (join_list j) (join_list_size j) (join_addr_number j) (prune_list j) (prune_list_size j)
    (prune_addr_number j) (rp_list_join j) (rp_list_join_size j) (rp_list_join_number j)
    (rp_list_prune j) v (rp_list_prune_number j) (num_groups_ptr j).
Definition set_rp_list_prune_number (v : Z) (j : build_jp_message) : build_jp_message :=
mkJp (jp_message j) (jp_message_size j) (jp_holdtime j) (curr_group j) (curr_group_msklen j)
    (join_list j) (join_list_size j) (join_addr_number j) (prune_list j) (prune_list_size j)
    (prune_addr_number j) (rp_list_join j) (rp_list_join_size j) (rp_list_join_number j)
    (rp_list_prune j) (rp_list_prune_size j) v (num_groups_ptr j).
Definition set_num_groups_ptr (v : Z) (j : build_jp_message) : build_jp_message :=
mkJp (jp_message j) (jp_message_size j) (jp_holdtime j) (curr_group j) (curr_group_msklen j)
    (join_list j) (join_list_size j) (join_addr_number j) (prune_list j) (prune_list_size j)
    (prune_addr_number j) (rp_list_join j) (rp_list_join_size j) (rp_list_join_number j)
    (rp_list_prune j) (rp_list_prune_size j) (rp_list_prune_number j) v.

Definition set_nbr_aux_addrs (v : list phaddr) (n : pim_nbr_entry) : pim_nbr_entry :=
mkNbr (nbr_id n) (nbr_address n) v (nbr_vifi n) (nbr_timer n) (nbr_jp n).
Definition set_nbr_timer (v : Z) (n : pim_nbr_entry) : pim_nbr_entry :=
mkNbr (nbr_id n) (nbr_address n) (nbr_aux_addrs n) (nbr_vifi n) v (nbr_jp n).
Definition set_nbr_jp (v : option build_jp_message) (n : pim_nbr_entry) : pim_nbr_entry :=
mkNbr (nbr_id n) (nbr_address n) (nbr_aux_addrs n) (nbr_vifi n) (nbr_timer n) v.

Definition set_uv_flags (v : Z) (v0 : uvif) : uvif :=
mkVif v (uv_ifindex v0) (uv_siteid v0) (uv_addrs v0) (uv_local_pref v0) (uv_local_metric v0)
    (uv_pim_neighbors v0) (uv_linklocal v0) (uv_pim_hello_timer v0) (uv_gq_timer v0) (uv_jp_timer
    v0).
Definition set_uv_pim_neighbors (v : list pim_nbr_entry) (v0 : uvif) : uvif :=
mkVif (uv_flags v0) (uv_ifindex v0) (uv_siteid v0) (uv_addrs v0) (uv_local_pref v0) (uv_local_metric
    v0) v (uv_linklocal v0) (uv_pim_hello_timer v0) (uv_gq_timer v0) (uv_jp_timer v0).
Definition set_uv_pim_hello_timer (v : Z) (v0 : uvif) : uvif :=
mkVif (uv_flags v0) (uv_ifindex v0) (uv_siteid v0) (uv_addrs v0) (uv_local_pref v0) (uv_local_metric
    v0) (uv_pim_neighbors v0) (uv_linklocal v0) v (uv_gq_timer v0) (uv_jp_timer v0).
Definition set_uv_gq_timer (v : Z) (v0 : uvif) : uvif :=
mkVif (uv_flags v0) (uv_ifindex v0) (uv_siteid v0) (uv_addrs v0) (uv_local_pref v0) (uv_local_metric
    v0) (uv_pim_neighbors v0) (uv_linklocal v0) (uv_pim_hello_timer v0) v (uv_jp_timer v0).
Definition set_uv_jp_timer (v : Z) (v0 : uvif) : uvif :=
mkVif (uv_flags v0) (uv_ifindex v0) (uv_siteid v0) (uv_addrs v0) (uv_local_pref v0) (uv_local_metric
    v0) (uv_pim_neighbors v0) (uv_linklocal v0) (uv_pim_hello_timer v0) (uv_gq_timer v0) v.

Definition inet6_uvif2scopeid (sa : sockaddr_in6) (v : uvif) : Z :=
  if IN6_IS_ADDR_MULTICAST (sin6_addr sa) then
    if IN6_IS_ADDR_MC_LINKLOCAL (sin6_addr sa) then uv_ifindex v
    else if IN6_IS_ADDR_MC_SITELOCAL (sin6_addr sa) then uv_siteid v
    else 0
  else
    if IN6_IS_ADDR_LINKLOCAL (sin6_addr sa) then uv_ifindex v
    else if IN6_IS_ADDR_SITELOCAL (sin6_addr sa) then uv_siteid v
    else 0.

Definition inet6_valid_host (sa : sockaddr_in6) : bool :=
  if IN6_IS_ADDR_MULTICAST (sin6_addr sa) then false else true.

Definition inet6_equal (sa1 sa2 : sockaddr_in6) : bool :=
  (sin6_scope_id sa1 =? sin6_scope_id sa2) && IN6_ARE_ADDR_EQUAL (sin6_addr sa1) (sin6_addr sa2).

Definition inet6_localif_address (sa : sockaddr_in6) (v : uvif) : bool :=
  existsb (fun pa => inet6_equal sa (pa_addr pa)) (uv_addrs v).

(** The for loops over the words; [n] words are left. *)
Fixpoint less_words (n : nat) (i : Z) (a1 a2 : list Z) : bool :=
  match n with
  | O => false
  | S n =>
      let s32_1 := word32 a1 (i * 4) in
      let s32_2 := word32 a2 (i * 4) in
      if decide (s32_1 > s32_2) then false
      else if decide (s32_1 < s32_2) then true
      else less_words n (i + 1) a1 a2
  end.

Fixpoint greater_words (n : nat) (i : Z) (a1 a2 : list Z) : bool :=
  match n with
  | O => false
  | S n =>
      let s32_1 := word32 a1 (i * 4) in
      let s32_2 := word32 a2 (i * 4) in
      if decide (s32_1 < s32_2) then false
      else if decide (s32_1 > s32_2) then true
      else greater_words n (i + 1) a1 a2
  end.

Definition inet6_lessthan (sa1 sa2 : sockaddr_in6) : bool :=
  if decide (sin6_scope_id sa1 < sin6_scope_id sa2) then true
  else if decide (sin6_scope_id sa1 = sin6_scope_id sa2) then
    less_words 4 0 (sin6_addr sa1) (sin6_addr sa2)
  else false.

Definition inet6_greaterthan (sa1 sa2 : sockaddr_in6) : bool :=
  if decide (sin6_scope_id sa1 > sin6_scope_id sa2) then true
  else if decide (sin6_scope_id sa1 = sin6_scope_id sa2) then
    greater_words 4 0 (sin6_addr sa1) (sin6_addr sa2)
  else false.

(** The for loop over the bytes. *)
Fixpoint prefix_bytes (n : nat) (i : Z) (a1 a2 mask : list Z) : bool :=
  match n with
  | O => true
  | S n =>
      if decide (Z.land (Z.lxor (s6 a1 i) (s6 a2 i)) (s6 mask i) <> 0) then false
      else prefix_bytes n (i + 1) a1 a2 mask
  end.

Definition inet6_match_prefix (sa1 sa2 : sockaddr_in6) (mask : list Z) : bool :=
  if decide (sin6_scope_id sa1 <> sin6_scope_id sa2) then false
  else prefix_bytes 16 0 (sin6_addr sa1) (sin6_addr sa2) mask.

Definition inet6_same_prefix (sa1 sa2 : sockaddr_in6) (mask : list Z) : bool :=
  prefix_bytes 16 0 (sin6_addr sa1) (sin6_addr sa2) mask.

(** The switch of [inet6_mask2plen]. *)
Definition plen_byte (b : Z) : Z :=
  match b with
  | 0xff => 8 | 0xfe => 7 | 0xfc => 6 | 0xf8 => 5
  | 0xf0 => 4 | 0xe0 => 3 | 0xc0 => 2 | 0x80 => 1
  | _ => 0
  end.

Definition inet6_mask2plen (mask : list Z) : Z := foldl (fun masklen p => masklen + plen_byte p) 0 mask.

(** *** The mask macros of pimd.h *)

Definition maskarray : list Z := [0x80; 0xc0; 0xe0; 0xf0; 0xf8; 0xfc; 0xfe; 0xff].

(** [for (i = 0; i < bytelen; i++) (mask6).s6_addr[i] = 0xff]. *)
Fixpoint fill_ff (n : nat) (i : Z) (mask6 : list Z) : option (list Z) :=
  match n with
  | O => Some mask6
  | S n => store mask6 i [0xff] ≫= fill_ff n (i + 1)
  end.

(** [None] when a byte behind the mask is written. *)
Definition MASKLEN_TO_MASK6 (masklen : Z) : option (list Z) :=
  let bytelen := masklen / 8 in
  let bitlen := masklen mod 8 in
  fill_ff (Z.to_nat bytelen) 0 (replicate 16 0) ≫= fun mask6 =>
  if decide (bitlen <> 0) then rd maskarray (bitlen - 1) ≫= fun b => store mask6 bytelen [b]
  else Some mask6.

Fixpoint mask_bits (kl : nat) (tmp_mask tmp_masklen : Z) : Z :=
  match kl with
  | O => tmp_masklen
  | S kl =>
      if decide (tmp_masklen > 0) then
        if decide (Z.land tmp_mask 1 <> 0) then tmp_masklen
        else mask_bits kl (Z.shiftr tmp_mask 1) (tmp_masklen - 1)
      else tmp_masklen
  end.

Fixpoint mask_words (n : nat) (i : Z) (mask : list Z) (tmp_masklen : Z) : Z :=
  match n with
  | O => tmp_masklen
  | S n => mask_words n (i + 1) mask (mask_bits 32 (word32 mask (i * 4)) tmp_masklen)
  end.

Definition MASK_TO_MASKLEN6 (mask : list Z) : Z := mask_words 4 0 mask 128.

(** ** Addresses as numbers *)

Definition be (a : list Z) : Z := foldl (fun v b => v * 256 + b) 0 a.

Definition addr_ok (a : list Z) : Prop := length a = 16%nat /\ bytes a.
Definition sa_ok (sa : sockaddr_in6) : Prop := 0 <= sin6_scope_id sa < 2 ^ 32 /\ addr_ok (sin6_addr sa).

(** The place of an address in the order. *)
Definition key (sa : sockaddr_in6) : Z := sin6_scope_id sa * 2 ^ 128 + be (sin6_addr sa).

Lemma be_acc a : forall v, foldl (fun v b => v * 256 + b) v a = v * 256 ^ zlen a + be a.
Proof.
  unfold be. induction a as [|b a IH]; intros v; cbn [foldl]; [rewrite zlen_nil; lia|].
  rewrite (IH (v * 256 + b)), (IH (0 * 256 + b)), zlen_cons, Z.pow_add_r by (lia || apply zlen_nonneg). lia.
Qed.

Lemma be_cons b a : be (b :: a) = b * 256 ^ zlen a + be a.
Proof. unfold be at 1. cbn [foldl]. rewrite be_acc. lia. Qed.

Lemma be_range a : bytes a -> 0 <= be a < 256 ^ zlen a.
Proof.
  induction 1 as [|b a Hb _ IH]; [done|]. rewrite be_cons, zlen_cons, Z.pow_add_r by (lia || apply zlen_nonneg).
  unfold is_byte in Hb. nia.
Qed.

Lemma be_inj a b : bytes a -> bytes b -> length a = length b -> be a = be b -> a = b.
Proof.
  intros Ha. revert b. induction Ha as [|x a Hx Ha IH]; intros [|y b] Hb L E; [done..|].
  apply Forall_cons_1 in Hb as [Hy Hb]. cbn in L. apply Nat.succ_inj in L. rewrite !be_cons in E.
  assert (Z1 : zlen a = zlen b) by (unfold zlen; lia). rewrite Z1 in E.
  pose proof (be_range a Ha) as Ra. pose proof (be_range b Hb). rewrite Z1 in Ra.
  assert (x = y) as -> by nia. f_equal. apply IH; [done|lia|lia].
Qed.

(** ** The order *)

Lemma be_words a : length a = 16%nat ->
  be a = ((word32 a 0 * 2 ^ 32 + word32 a 4) * 2 ^ 32 + word32 a 8) * 2 ^ 32 + word32 a 12.
Proof.
  intros L. do 16 (destruct a as [|? a]; [done|]). destruct a; [|done].
  unfold be, word32, s6.
  repeat match goal with |- context[Z.to_nat ?x] => let v := eval vm_compute in (Z.to_nat x) in change (Z.to_nat x) with v end.
  cbn [foldl nth]. lia.
Qed.

Lemma word32_range a i : bytes a -> 0 <= word32 a i < 2 ^ 32.
Proof.
  intros Ha. assert (B : forall j, 0 <= s6 a j < 256).
  { intros j. unfold s6. destruct (nth_in_or_default (Z.to_nat j) a 0) as [H|E]; [|rewrite E; lia].
    by apply (proj1 (List.Forall_forall _ _) Ha) in H. }
  unfold word32. pose proof (B i). pose proof (B (i + 1)). pose proof (B (i + 2)). pose proof (B (i + 3)). lia.
Qed.

Lemma less_words_key a b : addr_ok a -> addr_ok b -> less_words 4 0 a b = bool_decide (be a < be b).
Proof.
  intros [La Ba] [Lb Bb]. rewrite (be_words a), (be_words b) by done.
  pose proof (word32_range a 0 Ba). pose proof (word32_range a 4 Ba). pose proof (word32_range a 8 Ba).
  pose proof (word32_range a 12 Ba). pose proof (word32_range b 0 Bb). pose proof (word32_range b 4 Bb).
  pose proof (word32_range b 8 Bb). pose proof (word32_range b 12 Bb).
  cbn [less_words]. change (0 * 4) with 0. change ((0 + 1) * 4) with 4. change ((0 + 1 + 1) * 4) with 8.
  change ((0 + 1 + 1 + 1) * 4) with 12.
  repeat case_decide; symmetry; (apply bool_decide_eq_true_2 || apply bool_decide_eq_false_2); lia.
Qed.

Lemma greater_words_less n : forall i a b, greater_words n i a b = less_words n i b a.
Proof.
  induction n as [|n IH]; intros i a b; cbn; [done|]. rewrite IH. repeat case_decide; done || lia.
Qed.

Lemma key_range sa : sa_ok sa -> 0 <= be (sin6_addr sa) < 2 ^ 128.
Proof. intros (_ & L & B). pose proof (be_range _ B). unfold zlen in *. by rewrite L in *. Qed.

Lemma lessthan_key x y : sa_ok x -> sa_ok y -> inet6_lessthan x y = bool_decide (key x < key y).
Proof.
  intros Hx Hy. pose proof (key_range x Hx). pose proof (key_range y Hy). destruct Hx as [Sx Ax], Hy as [Sy Ay].
  unfold inet6_lessthan, key. destruct (decide (sin6_scope_id x < sin6_scope_id y)).
  2: destruct (decide (sin6_scope_id x = sin6_scope_id y)).
  - symmetry. apply bool_decide_eq_true_2. nia.
  - rewrite less_words_key by done. apply bool_decide_ext. lia.
  - symmetry. apply bool_decide_eq_false_2. nia.
Qed.

Lemma greaterthan_less x y : inet6_greaterthan x y = inet6_lessthan y x.
Proof.
  unfold inet6_greaterthan, inet6_lessthan. rewrite greater_words_less. repeat case_decide; done || lia.
Qed.

Lemma inet6_equal_eq x y : inet6_equal x y = true <-> x = y.
Proof.
  unfold inet6_equal, IN6_ARE_ADDR_EQUAL. rewrite andb_true_iff, Z.eqb_eq, bool_decide_eq_true.
  destruct x, y. cbn. split; [intros [-> ->]; done|by intros [= -> ->]].
Qed.

Lemma key_inj x y : sa_ok x -> sa_ok y -> key x = key y -> x = y.
Proof.
  intros Hx Hy E. pose proof (key_range x Hx). pose proof (key_range y Hy).
  destruct x as [sx ax], y as [sy ay], Hx as (Sx & Lx & Bx), Hy as (Sy & Ly & By). unfold key in E. cbn [sin6_addr sin6_scope_id] in *.
  assert (sx = sy) as -> by nia. f_equal. apply be_inj; [done|done|congruence|lia].
Qed.

(** ** Masks *)

(** The bytes of the mask of [n] bits, of which the first byte has [n], at most
    8 and at least 0. *)
Fixpoint mask_of (len : nat) (n : Z) : list Z :=
  match len with
  | O => []
  | S len => 256 - 2 ^ (8 - Z.max 0 (Z.min 8 n)) :: mask_of len (n - 8)
  end.

(** One byte under the mask of its first [k] bits. *)
Lemma byte_mask x y k : is_byte x -> is_byte y -> 0 <= k <= 8 ->
  Z.land (Z.lxor x y) (256 - 2 ^ (8 - k)) = 0 <-> x / 2 ^ (8 - k) = y / 2 ^ (8 - k).
Proof.
  intros Hx Hy Hk. assert (M : 256 - 2 ^ (8 - k) = Z.shiftl (Z.ones k) (8 - k)).
  { rewrite Z.ones_equiv, Z.shiftl_mul_pow2 by lia. unfold Z.pred.
    rewrite Z.mul_add_distr_r, <- Z.pow_add_r by lia. replace (k + (8 - k)) with 8 by lia. lia. }
  rewrite M, <- !Z.shiftr_div_pow2 by lia.
  assert (E : Z.land (Z.lxor x y) (Z.shiftl (Z.ones k) (8 - k)) =
              Z.shiftl (Z.lxor (Z.shiftr x (8 - k)) (Z.shiftr y (8 - k))) (8 - k)).
  { rewrite <- Z.shiftr_lxor. apply Z.bits_inj'. intros n Hn. rewrite Z.land_spec, !Z.shiftl_spec by lia.
    destruct (decide (n < 8 - k)); [rewrite !(Z.testbit_neg_r _ (n - (8 - k))) by lia; apply andb_false_r|].
    rewrite Z.shiftr_spec by lia. replace (n - (8 - k) + (8 - k)) with n by lia.
    rewrite Z.testbit_ones_nonneg by lia. destruct (decide (n < 8)).
    - rewrite (proj2 (Z.ltb_lt _ _)) by lia. apply andb_true_r.
    - rewrite (proj2 (Z.ltb_ge _ _)) by lia. rewrite andb_false_r, Z.lxor_spec. symmetry.
      rewrite <- (Z.mod_small x (2 ^ 8)), <- (Z.mod_small y (2 ^ 8)) by (unfold is_byte in *; lia).
      by rewrite !Z.mod_pow2_bits_high by lia. }
  rewrite E. split.
  - intros H. apply Z.lxor_eq. rewrite Z.shiftl_mul_pow2 in H by lia.
    pose proof (Z.pow_pos_nonneg 2 (8 - k)). nia.
  - intros ->. by rewrite Z.lxor_nilpotent, Z.shiftl_0_l.
Qed.

Fixpoint masked_eq (a b m : list Z) : bool :=
  match a, b, m with
  | x :: a, y :: b, k :: m => (Z.land (Z.lxor x y) k =? 0) && masked_eq a b m
  | _, _, _ => true
  end.

Lemma s6_app p a i : zlen p = i -> s6 (p ++ a) i = s6 a 0.
Proof.
  intros <-. unfold s6. rewrite zlen_to_nat, app_nth2, Nat.sub_diag by lia. done.
Qed.

Lemma prefix_bytes_masked a : forall b m p q r i, length b = length a -> length m = length a ->
  zlen p = i -> zlen q = i -> zlen r = i ->
  prefix_bytes (length a) i (p ++ a) (q ++ b) (r ++ m) = masked_eq a b m.
Proof.
  induction a as [|x a IH]; intros [|y b] [|k m] p q r i Lb Lm Hp Hq Hr; try done.
  cbn [length prefix_bytes masked_eq]. rewrite !s6_app by done. unfold s6. cbn [nth Z.to_nat].
  specialize (IH b m (p ++ [x]) (q ++ [y]) (r ++ [k]) (i + 1) ltac:(cbn in Lb; lia) ltac:(cbn in Lm; lia)).
  rewrite !zlen_app, !zlen_cons, !zlen_nil in IH. rewrite <- !app_assoc in IH. cbn [app] in IH.
  rewrite IH by lia. destruct (Z.eqb_spec (Z.land (Z.lxor x y) k) 0) as [E|E].
  - by rewrite decide_False by auto.
  - by rewrite decide_True by done.
Qed.

Lemma div_high x a s e : 0 <= a < 2 ^ s -> 0 <= e <= s -> (x * 2 ^ s + a) / 2 ^ e = x * 2 ^ (s - e) + a / 2 ^ e.
Proof.
  intros Ha He. pose proof (Z.pow_pos_nonneg 2 e).
  replace (x * 2 ^ s + a) with (a + (x * 2 ^ (s - e)) * 2 ^ e).
  - rewrite Z.div_add by lia. lia.
  - rewrite <- Z.mul_assoc, <- Z.pow_add_r by lia. replace (s - e + e) with s by lia. lia.
Qed.

Lemma div_low x a s k : 0 <= a < 2 ^ s -> 0 <= s -> 0 <= k -> (x * 2 ^ s + a) / 2 ^ (s + k) = x / 2 ^ k.
Proof.
  intros Ha Hs Hk. rewrite Z.pow_add_r by lia. rewrite <- Z.div_div; [|lia|apply Z.pow_pos_nonneg; lia].
  f_equal. rewrite Z.add_comm, Z.div_add by lia. rewrite Z.div_small by lia. lia.
Qed.

Lemma masked_eq_prefix a : forall b n, bytes a -> bytes b -> length b = length a -> n <= 8 * zlen a ->
  masked_eq a b (mask_of (length a) n) = true <-> be a / 2 ^ (8 * zlen a - n) = be b / 2 ^ (8 * zlen a - n).
Proof.
  induction a as [|x a IH]; intros [|y b] n Ba Bb L Hn; try done.
  apply Forall_cons_1 in Ba as [Hx Ba], Bb as [Hy Bb]. cbn [length] in L. apply Nat.succ_inj in L.
  rewrite zlen_cons in Hn. pose proof (zlen_nonneg a) as Z0.
  cbn [masked_eq mask_of length]. rewrite andb_true_iff, Z.eqb_eq, byte_mask by (done || lia).
  rewrite !be_cons. assert (zlen b = zlen a) as -> by (unfold zlen; lia).
  change 256 with (2 ^ 8). rewrite <- Z.pow_mul_r by lia. rewrite zlen_cons.
  pose proof (be_range a Ba) as Ra. pose proof (be_range b Bb) as Rb.
  assert (zlen b = zlen a) as Lz by (unfold zlen; lia). rewrite Lz in Rb.
  change 256 with (2 ^ 8) in Ra, Rb. rewrite <- Z.pow_mul_r in Ra, Rb by lia.
  rewrite IH by (done || lia).
  destruct (decide (8 <= n)) as [D|D].
  - rewrite Z.min_l, Z.max_r by lia. replace (8 - 8) with 0 by lia. rewrite !Z.div_1_r.
    set (e := 8 * zlen a - (n - 8)). replace (8 * (1 + zlen a) - n) with e by lia.
    rewrite !div_high by lia. pose proof (Z.pow_pos_nonneg 2 e). pose proof (Z.pow_pos_nonneg 2 (8 * zlen a - e)).
    assert (B : forall v, 0 <= v < 2 ^ (8 * zlen a) -> 0 <= v / 2 ^ e < 2 ^ (8 * zlen a - e)).
    { intros v Hv. split; [apply Z.div_pos; lia|]. apply Z.div_lt_upper_bound; [lia|].
      rewrite <- Z.pow_add_r by lia. replace (e + (8 * zlen a - e)) with (8 * zlen a) by lia. lia. }
    pose proof (B _ Ra). pose proof (B _ Rb). split; [intros [-> ->]; done|]. intros E. assert (x = y) by nia. nia.
  - rewrite (Z.min_r 8 n) by lia.
    assert (Sm : forall v, 0 <= v < 2 ^ (8 * zlen a) -> v / 2 ^ (8 * zlen a - (n - 8)) = 0).
    { intros v Hv. apply Z.div_small. pose proof (Z.pow_le_mono_r 2 (8 * zlen a) (8 * zlen a - (n - 8))). lia. }
    rewrite !Sm by done. destruct (decide (0 <= n)) as [P|P].
    + rewrite Z.max_r by lia. replace (8 * (1 + zlen a) - n) with (8 * zlen a + (8 - n)) by lia.
      rewrite !div_low by lia. tauto.
    + rewrite Z.max_l by lia. change (8 - 0) with 8. unfold is_byte in *. rewrite !(Z.div_small _ (2 ^ 8)) by lia.
      replace (8 * (1 + zlen a) - n) with (8 * zlen a + (8 - n)) by lia. rewrite !div_low by lia.
      pose proof (Z.pow_le_mono_r 2 8 (8 - n)). rewrite !Z.div_small by lia. tauto.
Qed.

(** Checked for all 256 values. *)
Lemma MASKLEN_TO_MASK6_spec n : is_byte n ->
  MASKLEN_TO_MASK6 n = if decide (n <= 128) then Some (mask_of 16 n) else None.
Proof.
  intros H. pose proof (byte_ind (fun n => bool_decide (MASKLEN_TO_MASK6 n =
    if decide (n <= 128) then Some (mask_of 16 n) else None))) as B.
  specialize (B ltac:(vm_compute; reflexivity) n H). by apply bool_decide_eq_true in B.
Qed.

Lemma mask_lengths n : 0 <= n <= 128 ->
  inet6_mask2plen (mask_of 16 n) = n /\ MASK_TO_MASKLEN6 (mask_of 16 n) = n.
Proof.
  intros H. pose proof (byte_ind (fun n => if decide (n <= 128) then
    (inet6_mask2plen (mask_of 16 n) =? n) && (MASK_TO_MASKLEN6 (mask_of 16 n) =? n) else true)) as B.
  specialize (B ltac:(vm_compute; reflexivity) n). cbn beta in B. rewrite decide_True in B by lia.
  rewrite andb_true_iff, !Z.eqb_eq in B. apply B. unfold is_byte. lia.
Qed.

(** ** Theorems *)

(** The comparisons of addresses run word by word but compare the numbers
    the addresses stand for, scope first: they are total, agree with equality,
    and each is the converse of the other. *)
Theorem address_order x y : sa_ok x -> sa_ok y ->
  (inet6_lessthan x y = true <-> key x < key y) /\
  (inet6_greaterthan x y = true <-> key x > key y) /\
  (inet6_equal x y = true <-> key x = key y).
Proof.
  intros Hx Hy. rewrite greaterthan_less, !lessthan_key, !bool_decide_eq_true, inet6_equal_eq by done.
  split_and!; [done|lia|]. split; [by intros ->|by apply key_inj].
Qed.

Definition link_local (b : Z) : sockaddr_in6 := mkSa 2 (0xfe :: 0x80 :: replicate 13 0 ++ [b]).

Lemma link_local_ok b : is_byte b -> sa_ok (link_local b).
Proof.
  intros H. split; [cbn; lia|]. split; [done|]. cbn [sin6_addr link_local replicate app].
  unfold bytes. repeat (apply Forall_cons_2; [unfold is_byte in *; lia|]). apply Forall_nil_2.
Qed.

Lemma address_order_witness :
  inet6_lessthan (link_local 1) (link_local 2) = true /\ key (link_local 1) < key (link_local 2).
Proof.
  assert (H : inet6_lessthan (link_local 1) (link_local 2) = true) by (vm_compute; reflexivity).
  split; [exact H|].
  apply (proj1 (address_order (link_local 1) (link_local 2) ltac:(apply link_local_ok; unfold is_byte; lia)
    ltac:(apply link_local_ok; unfold is_byte; lia))). exact H.
Defined.

(** C39. A prefix length between 0 and 128 becomes a mask from which both ways
    of reading give the length back, and under the mask two addresses are the
    same exactly when their first bits are; a larger length, which a message
    may carry in its byte, makes the macro write behind the mask. *)
Theorem prefix_masks n : is_byte n ->
  match MASKLEN_TO_MASK6 n with
  | Some mask =>
      n <= 128 /\ MASK_TO_MASKLEN6 mask = n /\ inet6_mask2plen mask = n /\
  forall x y, sa_ok x -> sa_ok y ->
      (inet6_same_prefix x y mask = true <->
       be (sin6_addr x) / 2 ^ (128 - n) = be (sin6_addr y) / 2 ^ (128 - n)) /\
  (inet6_match_prefix x y mask = true <->
       sin6_scope_id x = sin6_scope_id y /\ inet6_same_prefix x y mask = true)
  | None => n > 128
  end.
Proof.
  intros H. rewrite MASKLEN_TO_MASK6_spec by done. case_decide as D; [|lia].
  destruct (mask_lengths n) as [L1 L2]; [unfold is_byte in H; lia|]. split_and!; [done|done|done|].
  intros x y (_ & Lx & Bx) (_ & Ly & By). split.
  - unfold inet6_same_prefix. pose proof (prefix_bytes_masked (sin6_addr x) (sin6_addr y) (mask_of 16 n) [] [] [] 0) as P.
    rewrite Lx in P. cbn [app] in P. rewrite P by done. rewrite <- Lx.
    replace 128 with (8 * zlen (sin6_addr x)) by (unfold zlen; lia).
    apply masked_eq_prefix; [done|done|lia|unfold zlen; lia].
  - unfold inet6_match_prefix. case_decide as S; [split; [done|tauto]|]. split; [split; [lia|done]|tauto].
Qed.

Lemma prefix_masks_witness :
  match MASKLEN_TO_MASK6 10 with
  | Some mask =>
      10 <= 128 /\ MASK_TO_MASKLEN6 mask = 10 /\ inet6_mask2plen mask = 10 /\
  forall x y, sa_ok x -> sa_ok y ->
      (inet6_same_prefix x y mask = true <->
       be (sin6_addr x) / 2 ^ (128 - 10) = be (sin6_addr y) / 2 ^ (128 - 10)) /\
  (inet6_match_prefix x y mask = true <->
       sin6_scope_id x = sin6_scope_id y /\ inet6_same_prefix x y mask = true)
  | None => 10 > 128
  end /\ MASKLEN_TO_MASK6 129 = None.
Proof. split; [apply (prefix_masks 10); unfold is_byte; lia|vm_compute; reflexivity]. Defined.
