(* ===== verification/Links.v ===== *)
(** * Links: doubly linked lists on a heap

    [k i] gives the [next] and [prev] members of the structure at [i], if there
    is one.  [dlseg] describes the segment between two pointers, [dlist] a whole
    list; both only look at the nodes of the list, so that one structure can be
    on several lists by different members.  The lemmas are the two ways the
    code changes a list: a node is put behind another or taken out. *)

From stdpp Require Import base list numbers gmap.
From S2P Require Import Prelude.

Abbreviation link := (option nat).

(** From pointer [p], reached from [q], through [l], to pointer [p'], reached
    from [q']. *)
Fixpoint dlseg (k : nat -> option (link * link)) (p q : link) (l : list nat) (p' q' : link) : Prop :=
  match l with
  | [] => p = p' /\ q = q'
  | i :: l => p = Some i /\ exists n, k i = Some (n, q) /\ dlseg k n (Some i) l p' q'
  end.

Definition dlist (k : nat -> option (link * link)) (p : link) (l : list nat) : Prop :=
  exists z, dlseg k p None l None z.

Section Links.
Implicit Types (k : nat -> option (link * link)) (p q z : link) (l : list nat) (i j : nat).

Lemma dlseg_frame k k' l : forall p q p' q', dlseg k p q l p' q' -> (forall j, j ∈ l -> k' j = k j) ->
  dlseg k' p q l p' q'.
Proof.
  induction l as [|i l IH]; intros p q p' q'; cbn; [done|]. intros (-> & n & E & H) F. split; [done|].
  exists n. rewrite F by left. split; [done|]. apply IH; [done|]. intros j Hj. apply F. by right.
Qed.

Lemma dlist_frame k k' p l : dlist k p l -> (forall j, j ∈ l -> k' j = k j) -> dlist k' p l.
Proof. intros [z H] F. exists z. by eapply dlseg_frame. Qed.

Lemma dlseg_app k l1 l2 : forall p q p' q', dlseg k p q (l1 ++ l2) p' q' <->
  exists m r, dlseg k p q l1 m r /\ dlseg k m r l2 p' q'.
Proof.
  induction l1 as [|i l1 IH]; intros p q p' q'; cbn.
  - split; [intros H; by exists p, q|]. intros (m & r & [-> ->] & H). done.
  - split.
    + intros (-> & n & E & H). apply IH in H as (m & r & H1 & H2). exists m, r. split; [|done].
      split; [done|]. by exists n.
    + intros (m & r & (-> & n & E & H1) & H2). split; [done|]. exists n. split; [done|].
      apply IH. by exists m, r.
Qed.

Lemma dlseg_head k p q l p' q' : dlseg k p q l p' q' -> p = match l with [] => p' | i :: _ => Some i end.
Proof. destruct l; [by intros [-> _]|by intros [-> _]]. Qed.

Lemma dlseg_last k l : forall p q p' q', dlseg k p q l p' q' -> q' = match last l with None => q | r => r end.
Proof.
  induction l as [|i l IH]; intros p q p' q'; cbn [dlseg]; [by intros [_ ->]|].
  intros (-> & n & _ & H). apply IH in H as ->. destruct l as [|j l]; [done|].
  change (last (i :: j :: l)) with (last (j :: l)).
  assert (is_Some (last (j :: l))) as [x ->]; [by apply last_is_Some|done].
Qed.

Lemma dlseg_det k l : forall l' p q z z', dlseg k p q l None z -> dlseg k p q l' None z' -> l = l'.
Proof.
  induction l as [|i l IH]; intros [|i' l'] p q z z'; cbn; try done.
  - by intros [-> _] [? _].
  - by intros [-> _] [? _].
  - intros (-> & n & E & H) ([= <-] & n' & E' & H'). rewrite E in E'. injection E' as <-.
    f_equal. by eapply IH.
Qed.

Lemma dlseg_NoDup k l : forall p q z, dlseg k p q l None z -> NoDup l.
Proof.
  induction l as [|i l IH]; intros p q z; cbn; [constructor|]. intros (-> & n & E & H).
  constructor; [|by eapply IH]. intros Hi. apply list_elem_of_split in Hi as (l1 & l2 & ->).
  assert (H' := H). apply dlseg_app in H' as (m & r & _ & H2). cbn in H2. destruct H2 as (-> & n' & E' & H2).
  rewrite E in E'. injection E' as <- ->.
  pose proof (dlseg_det _ _ _ _ _ _ _ H2 H) as D. apply (f_equal length) in D.
  rewrite length_app in D. cbn in D. lia.
Qed.

Lemma dlist_NoDup k p l : dlist k p l -> NoDup l.
Proof. intros [z H]. by eapply dlseg_NoDup. Qed.

(** A list is what its nodes say at every place. *)
Lemma dlist_iff k p l : dlist k p l <->
  p = head l /\ forall l1 i l2, l = l1 ++ i :: l2 -> k i = Some (head l2, last l1).
Proof.
  split.
  - intros [z H]. split; [apply dlseg_head in H; by destruct l|]. intros l1 i l2 ->.
    apply dlseg_app in H as (m & r & H1 & -> & n & E & H2). apply dlseg_last in H1. apply dlseg_head in H2.
    rewrite E. do 2 f_equal; [by destruct l2|]. destruct (last l1); congruence.
  - intros [-> H]. assert (G : forall l1 l2, l = l1 ++ l2 -> exists z, dlseg k (head l2) (last l1) l2 None z).
    { intros l1 l2. revert l1. induction l2 as [|i l2 IH]; intros l1 E; [by exists (last l1)|].
      destruct (IH (l1 ++ [i])) as [z Hz]; [by rewrite <- app_assoc|]. rewrite last_snoc in Hz.
      exists z. cbn. split; [done|]. exists (head l2). split; [by apply H|done]. }
    exact (G [] l eq_refl).
Qed.

Lemma dlist_at k p l1 i l2 : dlist k p (l1 ++ i :: l2) -> k i = Some (head l2, last l1).
Proof. intros H. apply dlist_iff in H as [_ H]. by apply H. Qed.

Lemma dlist_lookup k p l i : dlist k p l -> i ∈ l -> is_Some (k i).
Proof. intros H Hi. apply list_elem_of_split in Hi as (l1 & l2 & ->). apply dlist_at in H. by rewrite H. Qed.

Lemma dlist_head k p l : dlist k p l -> p = head l.
Proof. intros H. by apply dlist_iff in H as [-> _]. Qed.

Lemma dlist_nil k : dlist k None [].
Proof. by exists None. Qed.

(** How the neighbours of a place change their members, when the nodes [a]
    before and [b] behind it get the new neighbours [n] and [v]. *)
Definition relink (a b n v : link) (j : nat) (x : link * link) : link * link :=
  (if decide (a = Some j) then n else x.1, if decide (b = Some j) then v else x.2).

Lemma last_in l i : last l = Some i -> i ∈ l.
Proof. intros H. apply last_Some in H as [l' ->]. apply elem_of_app. right. by left. Qed.
Lemma head_in l i : head l = Some i -> i ∈ l.
Proof. destruct l as [|x l]; cbn; [done|]. intros [= ->]. by left. Qed.

Lemma split_cases {A} (l1 l2 a b : list A) x : l1 ++ l2 = a ++ x :: b ->
  (exists c, l1 = a ++ x :: c /\ b = c ++ l2) \/ (exists c, a = l1 ++ c /\ l2 = c ++ x :: b).
Proof.
  revert a. induction l1 as [|y l1 IH]; intros a; cbn [app].
  - intros ->. right. by exists a.
  - destruct a as [|z a]; cbn [app].
    + intros [= -> <-]. left. by exists l1.
    + intros [= -> E]. destruct (IH a E) as [(c & -> & ->)|(c & -> & ->)]; [left|right]; by exists c.
Qed.

(** [i] is taken out. *)
Lemma dlist_unlink k k' p l1 i l2 : dlist k p (l1 ++ i :: l2) ->
  (forall j, j ∈ l1 ++ l2 -> k' j = relink (last l1) (head l2) (head l2) (last l1) j <$> k j) ->
  dlist k' (head (l1 ++ l2)) (l1 ++ l2).
Proof.
  intros H F. pose proof (dlist_NoDup _ _ _ H) as ND. apply dlist_iff in H as [_ H].
  apply dlist_iff. split; [done|]. intros a j b E.
  rewrite F by (rewrite E; apply elem_of_app; right; left).
  apply NoDup_app in ND as (N1 & N12 & N2). apply NoDup_cons in N2 as [N2i N2].
  apply split_cases in E as [(c & -> & ->)|(c & -> & ->)].
  - assert (Ej : k j = Some (head (c ++ i :: l2), last a)) by (apply (H a j); by rewrite <- app_assoc).
    rewrite Ej. cbn. f_equal. unfold relink. cbn [fst snd]. f_equal.
    + apply NoDup_app in N1 as (_ & _ & N1). apply NoDup_cons in N1 as [N1 _].
      destruct c as [|x c]; [rewrite last_snoc, decide_True by done; done|].
      rewrite decide_False; [done|]. intros L. apply N1. rewrite last_app_cons in L.
      change (last (j :: x :: c)) with (last (x :: c)) in L. by apply last_in.
    + rewrite decide_False; [done|]. intros L%head_in. apply (N12 j); [apply elem_of_app; right; left|by right].
  - assert (Ej : k j = Some (head b, last (l1 ++ i :: c))) by (apply (H (l1 ++ i :: c) j); by rewrite <- app_assoc).
    rewrite Ej. cbn. f_equal. unfold relink. cbn [fst snd]. f_equal.
    + rewrite decide_False; [done|]. intros L%last_in. apply (N12 j L). right. apply elem_of_app. right. left.
    + destruct c as [|x c].
      * rewrite decide_True by done. by rewrite app_nil_r.
      * rewrite decide_False.
        -- by rewrite !last_app_cons.
        -- cbn. intros [= ->]. apply NoDup_cons in N2 as [N2 _]. apply N2. apply elem_of_app. right. left.
Qed.

(** [i] is put in. *)
Lemma dlist_insert k k' p l1 i l2 : dlist k p (l1 ++ l2) -> i ∉ l1 ++ l2 ->
  k' i = Some (head l2, last l1) ->
  (forall j, j ∈ l1 ++ l2 -> k' j = relink (last l1) (head l2) (Some i) (Some i) j <$> k j) ->
  dlist k' (head (l1 ++ i :: l2)) (l1 ++ i :: l2).
Proof.
  intros H Hi Ei F. pose proof (dlist_NoDup _ _ _ H) as ND. apply dlist_iff in H as [_ H].
  apply dlist_iff. split; [done|]. intros a j b E.
  apply NoDup_app in ND as (N1 & N12 & N2). apply split_cases in E as [(c & -> & ->)|(c & -> & E)].
  - rewrite F by (rewrite <- app_assoc; apply elem_of_app; right; left).
    rewrite (H a j (c ++ l2)) by (by rewrite <- app_assoc). cbn. f_equal. unfold relink. cbn [fst snd]. f_equal.
    + apply NoDup_app in N1 as (_ & _ & N1). apply NoDup_cons in N1 as [N1 _].
      destruct c as [|x c]; [rewrite last_snoc, decide_True by done; done|].
      rewrite decide_False; [done|]. intros L. apply N1. rewrite last_app_cons in L.
      change (last (j :: x :: c)) with (last (x :: c)) in L. by apply last_in.
    + rewrite decide_False; [done|]. intros L%head_in. apply (N12 j); [apply elem_of_app; right; left|done].
  - destruct c as [|x c]; cbn in E.
    + injection E as -> ->. by rewrite app_nil_r.
    + injection E as -> ->. rewrite F by (apply elem_of_app; right; apply elem_of_app; right; left).
      rewrite (H (l1 ++ c) j b) by (by rewrite <- app_assoc). cbn. f_equal. unfold relink. cbn [fst snd]. f_equal.
      * rewrite decide_False; [done|]. intros L%last_in. apply (N12 j L). apply elem_of_app. right. left.
      * destruct c as [|y c].
        -- rewrite decide_True by done. by rewrite last_snoc.
        -- rewrite decide_False.
           ++ by rewrite !last_app_cons.
           ++ cbn. intros [= ->]. apply NoDup_cons in N2 as [N2 _]. apply N2. apply elem_of_app. right. left.
Qed.

(** A list fits into the addresses given out. *)
Lemma dlist_length k p l n : dlist k p l -> (forall i, is_Some (k i) -> (i < n)%nat) -> (length l <= n)%nat.
Proof.
  intros H B. pose proof (dlist_NoDup _ _ _ H) as ND.
  assert (S : l ⊆+ seq 0 n).
  { apply NoDup_submseteq; [done|]. intros i Hi. apply elem_of_seq. apply (dlist_lookup _ _ _ _ H), B in Hi. lia. }
  apply submseteq_length in S. by rewrite length_seq in S.
Qed.

End Links.
