(* ===== verification/Pim.v ===== *)
(** * Pim: the memory of the routing daemon pim6sd (mrt.h, vif.h)

    The routing table of pim6sd is a web of structures that point to each
    other.  Every kind of structure has a heap of its own, a finite map from
    addresses; [NULL] and pointers to freed memory are recognised when they are
    followed, since an address is not given out twice.  Where the code calls
    the kernel it is recorded in [kcalls]. *)

From stdpp Require Import base list numbers gmap.
From S2P Require Import Prelude Inet6.
Open Scope Z_scope.

(** A pointer; [None] is [NULL]. *)
Definition ptr : Type := option nat.

(** ** The structures of mrt.h *)

(** [srcentry]: a source, or the address of an RP ([rpentry_t]). *)
Record srcentry := mkSrc {
  s_next : ptr;
  s_prev : ptr;
  s_address : sockaddr_in6;
  s_mrtlink : ptr;
  s_incoming : Z;
  s_upstream : ptr;
  s_metric : Z;
  s_preference : Z;
  s_timer : Z;
  s_cand_rp : ptr
}.

(** [cand_rp]: a candidate RP. *)
Record cand_rp := mkCandRp {
  c_next : ptr;
  c_prev : ptr;
  c_rp_grp_next : ptr;
  c_rpentry : ptr
}.

(** [grp_mask]: a group prefix. *)
Record grp_mask := mkGrpMask {
  gm_next : ptr;
  gm_prev : ptr;
  gm_grp_rp_next : ptr;
  gm_group_addr : sockaddr_in6;
  gm_group_mask : list Z;
  gm_hash_mask : list Z;
  gm_fragment_tag : Z;
  gm_group_rp_number : Z
}.

(** [rp_grp_entry]: an RP of a group prefix. *)
Record rp_grp_entry := mkRpGrp {
  rp_grp_next : ptr;
  rp_grp_prev : ptr;
  grp_rp_next : ptr;
  grp_rp_prev : ptr;
  rg_grplink : ptr;
  rg_advholdtime : Z;
  rg_holdtime : Z;
  rg_fragment_tag : Z;
  rg_priority : Z;
  rg_origin : Z;
  rg_group : ptr;
  rg_rp : ptr
}.

(** [grpentry]: a group. *)
Record grpentry := mkGrp {
  g_next : ptr;
  g_prev : ptr;
  g_rpnext : ptr;
  g_rpprev : ptr;
  g_group : sockaddr_in6;
  g_rpaddr : sockaddr_in6;
  g_mrtlink : ptr;
  g_active_rp_grp : ptr;
  g_grp_route : ptr
}.

(** [mrtentry]: a routing entry. *)
Record mrtentry := mkMrt {
  m_grpnext : ptr;
  m_grpprev : ptr;
  m_srcnext : ptr;
  m_srcprev : ptr;
  m_group : ptr;
  m_source : ptr;
  m_incoming : Z;
  m_oifs : Z;
  m_joined_oifs : Z;
  m_pruned_oifs : Z;
  m_asserted_oifs : Z;
  m_leaves : Z;
  m_upstream : ptr;
  m_metric : Z;
  m_preference : Z;
  m_pmbr_addr : sockaddr_in6;
  m_vif_timers : list Z;
  m_vif_deletion_delay : list Z;
  m_flags : Z;
  m_timer : Z;
  m_jp_timer : Z;
  m_rs_timer : Z;
  m_assert_timer : Z;
  m_assert_rate_timer : Z;
  m_kernel_cache : ptr
}.

(** [kernel_cache]: a cache entry of the kernel. *)
Record kernel_cache := mkCache {
  k_next : ptr;
  k_prev : ptr;
  k_source : sockaddr_in6;
  k_group : sockaddr_in6;
  k_bytecnt : Z
}.

(** What the daemon tells the kernel ([k_del_mfc], [k_chg_mfc]). *)
Inductive kcall :=
| k_del_mfc_call (source group : sockaddr_in6)
| k_chg_mfc_call (source group : sockaddr_in6) (iif oifs : Z).

(** A packet given to [send_pim6]: source, destination, type, and the message
    with the PIM header. *)
Record pim_packet := mkPacket { pk_src : sockaddr_in6; pk_dst : sockaddr_in6; pk_type : Z; pk_data : list Z }.

(** The variables of the protocol (rp.c, pim6_proto.c, timer.c), what was sent,
    and the coming answers of [RANDOM] and of [k_get_sg_cnt], the bytes the
    kernel forwarded for a source and group ([None]: no such entry). *)
Record Vars := mkVars {
  my_bsr_address : sockaddr_in6;
  my_bsr_priority : Z;
  my_bsr_hash_mask : list Z;
  cand_bsr_flag : bool;
  curr_bsr_address : sockaddr_in6;
  curr_bsr_priority : Z;
  curr_bsr_fragment_tag : Z;
  curr_bsr_hash_mask : list Z;
  pim_bootstrap_timer : Z;
  my_cand_rp_address : sockaddr_in6;
  my_cand_rp_priority : Z;
  my_cand_rp_holdtime : Z;
  my_cand_rp_adv_period : Z;
  my_bsr_period : Z;
  pim_cand_rp_adv_timer : Z;
  cand_rp_flag : bool;
  static_rp_flag : bool;
  cand_rp_adv_buffer : list Z;
  cand_rp_adv_insert : Z;
  cand_rp_adv_size : Z;
  segmented_cand_rp_list : ptr;
  segmented_grp_mask_list : ptr;
  pim_hello_period : Z;
  pim_hello_holdtime : Z;
  pim_join_prune_period : Z;
  pim_join_prune_holdtime : Z;
  pim_data_timeout : Z;
  pim6_send_buf : list Z;
  sent : list pim_packet;
  randoms : list Z;
  build_jp_message_pool : list build_jp_message;
  build_jp_message_pool_counter : Z;
  timer_interval : Z;
  pim_register_suppression_timeout : Z;
  pim_register_probe_time : Z;
  pim_assert_timeout : Z;
  unicast_routing_timer : Z;
  unicast_routing_check_interval : Z;
  pim_data_rate_timer : Z;
  pim_data_rate_check_interval : Z;
  pim_data_rate_bytes : Z;
  pim_reg_rate_timer : Z;
  pim_reg_rate_check_interval : Z;
  pim_reg_rate_bytes : Z;
  sg_counts : list (option Z)
}.

(** The heaps, the global variables the routing table code uses, whether the
    next calls of malloc succeed (when the list is exhausted they do), and
    [rpf], the answer of the kernel's unicast routing table to
    [k_req_incoming]: the next hop and the interface. *)
Record Pim := mkPim {
  srcs : gmap nat srcentry;
  crps : gmap nat cand_rp;
  gmasks : gmap nat grp_mask;
  rpgs : gmap nat rp_grp_entry;
  grps : gmap nat grpentry;
  mrts : gmap nat mrtentry;
  caches : gmap nat kernel_cache;
  brk : nat;
  mallocs : list bool;
  srclist : ptr;
  grplist : ptr;
  cand_rp_list : ptr;
  grp_mask_list : ptr;
  kcalls : list kcall;
  uvifs : list uvif;
  total_interfaces : Z;
  reg_vif_num : Z;
  ssmprefix : sockaddr_in6;
  ssmmask : list Z;
  rpf : sockaddr_in6 -> sockaddr_in6 * Z;
  vars : Vars
}.

(** ** Assignments to the members *)

Definition set_s_next (v : ptr) (s : srcentry) : srcentry :=
  mkSrc v (s_prev s) (s_address s) (s_mrtlink s) (s_incoming s) (s_upstream s) (s_metric s)
    (s_preference s) (s_timer s) (s_cand_rp s).
Definition set_s_prev (v : ptr) (s : srcentry) : srcentry :=
  mkSrc (s_next s) v (s_address s) (s_mrtlink s) (s_incoming s) (s_upstream s) (s_metric s)
    (s_preference s) (s_timer s) (s_cand_rp s).
Definition set_s_address (v : sockaddr_in6) (s : srcentry) : srcentry :=
  mkSrc (s_next s) (s_prev s) v (s_mrtlink s) (s_incoming s) (s_upstream s) (s_metric s)
    (s_preference s) (s_timer s) (s_cand_rp s).
Definition set_s_mrtlink (v : ptr) (s : srcentry) : srcentry :=
  mkSrc (s_next s) (s_prev s) (s_address s) v (s_incoming s) (s_upstream s) (s_metric s)
    (s_preference s) (s_timer s) (s_cand_rp s).
Definition set_s_incoming (v : Z) (s : srcentry) : srcentry :=
  mkSrc (s_next s) (s_prev s) (s_address s) (s_mrtlink s) v (s_upstream s) (s_metric s)
    (s_preference s) (s_timer s) (s_cand_rp s).
Definition set_s_upstream (v : ptr) (s : srcentry) : srcentry :=
  mkSrc (s_next s) (s_prev s) (s_address s) (s_mrtlink s) (s_incoming s) v (s_metric s)
    (s_preference s) (s_timer s) (s_cand_rp s).
Definition set_s_metric (v : Z) (s : srcentry) : srcentry :=
  mkSrc (s_next s) (s_prev s) (s_address s) (s_mrtlink s) (s_incoming s) (s_upstream s) v
    (s_preference s) (s_timer s) (s_cand_rp s).
Definition set_s_preference (v : Z) (s : srcentry) : srcentry :=
  mkSrc (s_next s) (s_prev s) (s_address s) (s_mrtlink s) (s_incoming s) (s_upstream s)
    (s_metric s) v (s_timer s) (s_cand_rp s).
Definition set_s_timer (v : Z) (s : srcentry) : srcentry :=
  mkSrc (s_next s) (s_prev s) (s_address s) (s_mrtlink s) (s_incoming s) (s_upstream s)
    (s_metric s) (s_preference s) v (s_cand_rp s).
Definition set_s_cand_rp (v : ptr) (s : srcentry) : srcentry :=
  mkSrc (s_next s) (s_prev s) (s_address s) (s_mrtlink s) (s_incoming s) (s_upstream s)
    (s_metric s) (s_preference s) (s_timer s) v.

Definition set_c_next (v : ptr) (c : cand_rp) : cand_rp :=
  mkCandRp v (c_prev c) (c_rp_grp_next c) (c_rpentry c).
Definition set_c_prev (v : ptr) (c : cand_rp) : cand_rp :=
  mkCandRp (c_next c) v (c_rp_grp_next c) (c_rpentry c).
Definition set_c_rp_grp_next (v : ptr) (c : cand_rp) : cand_rp :=
  mkCandRp (c_next c) (c_prev c) v (c_rpentry c).
Definition set_c_rpentry (v : ptr) (c : cand_rp) : cand_rp :=
  mkCandRp (c_next c) (c_prev c) (c_rp_grp_next c) v.

Definition set_gm_next (v : ptr) (gm : grp_mask) : grp_mask :=
  mkGrpMask v (gm_prev gm) (gm_grp_rp_next gm) (gm_group_addr gm) (gm_group_mask gm)
    (gm_hash_mask gm) (gm_fragment_tag gm) (gm_group_rp_number gm).
Definition set_gm_prev (v : ptr) (gm : grp_mask) : grp_mask :=
  mkGrpMask (gm_next gm) v (gm_grp_rp_next gm) (gm_group_addr gm) (gm_group_mask gm)
    (gm_hash_mask gm) (gm_fragment_tag gm) (gm_group_rp_number gm).
Definition set_gm_grp_rp_next (v : ptr) (gm : grp_mask) : grp_mask :=
  mkGrpMask (gm_next gm) (gm_prev gm) v (gm_group_addr gm) (gm_group_mask gm) (gm_hash_mask gm)
    (gm_fragment_tag gm) (gm_group_rp_number gm).
Definition set_gm_group_addr (v : sockaddr_in6) (gm : grp_mask) : grp_mask :=
  mkGrpMask (gm_next gm) (gm_prev gm) (gm_grp_rp_next gm) v (gm_group_mask gm) (gm_hash_mask gm)
    (gm_fragment_tag gm) (gm_group_rp_number gm).
Definition set_gm_group_mask (v : list Z) (gm : grp_mask) : grp_mask :=
  mkGrpMask (gm_next gm) (gm_prev gm) (gm_grp_rp_next gm) (gm_group_addr gm) v (gm_hash_mask gm)
    (gm_fragment_tag gm) (gm_group_rp_number gm).
Definition set_gm_hash_mask (v : list Z) (gm : grp_mask) : grp_mask :=
  mkGrpMask (gm_next gm) (gm_prev gm) (gm_grp_rp_next gm) (gm_group_addr gm) (gm_group_mask gm)
    v (gm_fragment_tag gm) (gm_group_rp_number gm).
Definition set_gm_fragment_tag (v : Z) (gm : grp_mask) : grp_mask :=
  mkGrpMask (gm_next gm) (gm_prev gm) (gm_grp_rp_next gm) (gm_group_addr gm) (gm_group_mask gm)
    (gm_hash_mask gm) v (gm_group_rp_number gm).
Definition set_gm_group_rp_number (v : Z) (gm : grp_mask) : grp_mask :=
  mkGrpMask (gm_next gm) (gm_prev gm) (gm_grp_rp_next gm) (gm_group_addr gm) (gm_group_mask gm)
    (gm_hash_mask gm) (gm_fragment_tag gm) v.

Definition set_rp_grp_next (v : ptr) (rg : rp_grp_entry) : rp_grp_entry :=
  mkRpGrp v (rp_grp_prev rg) (grp_rp_next rg) (grp_rp_prev rg) (rg_grplink rg) (rg_advholdtime
    rg) (rg_holdtime rg) (rg_fragment_tag rg) (rg_priority rg) (rg_origin rg) (rg_group rg)
    (rg_rp rg).
Definition set_rp_grp_prev (v : ptr) (rg : rp_grp_entry) : rp_grp_entry :=
  mkRpGrp (rp_grp_next rg) v (grp_rp_next rg) (grp_rp_prev rg) (rg_grplink rg) (rg_advholdtime
    rg) (rg_holdtime rg) (rg_fragment_tag rg) (rg_priority rg) (rg_origin rg) (rg_group rg)
    (rg_rp rg).
Definition set_grp_rp_next (v : ptr) (rg : rp_grp_entry) : rp_grp_entry :=
  mkRpGrp (rp_grp_next rg) (rp_grp_prev rg) v (grp_rp_prev rg) (rg_grplink rg) (rg_advholdtime
    rg) (rg_holdtime rg) (rg_fragment_tag rg) (rg_priority rg) (rg_origin rg) (rg_group rg)
    (rg_rp rg).
Definition set_grp_rp_prev (v : ptr) (rg : rp_grp_entry) : rp_grp_entry :=
  mkRpGrp (rp_grp_next rg) (rp_grp_prev rg) (grp_rp_next rg) v (rg_grplink rg) (rg_advholdtime
    rg) (rg_holdtime rg) (rg_fragment_tag rg) (rg_priority rg) (rg_origin rg) (rg_group rg)
    (rg_rp rg).
Definition set_rg_grplink (v : ptr) (rg : rp_grp_entry) : rp_grp_entry :=
  mkRpGrp (rp_grp_next rg) (rp_grp_prev rg) (grp_rp_next rg) (grp_rp_prev rg) v (rg_advholdtime
    rg) (rg_holdtime rg) (rg_fragment_tag rg) (rg_priority rg) (rg_origin rg) (rg_group rg)
    (rg_rp rg).
Definition set_rg_advholdtime (v : Z) (rg : rp_grp_entry) : rp_grp_entry :=
  mkRpGrp (rp_grp_next rg) (rp_grp_prev rg) (grp_rp_next rg) (grp_rp_prev rg) (rg_grplink rg) v
    (rg_holdtime rg) (rg_fragment_tag rg) (rg_priority rg) (rg_origin rg) (rg_group rg) (rg_rp
    rg).
Definition set_rg_holdtime (v : Z) (rg : rp_grp_entry) : rp_grp_entry :=
  mkRpGrp (rp_grp_next rg) (rp_grp_prev rg) (grp_rp_next rg) (grp_rp_prev rg) (rg_grplink rg)
    (rg_advholdtime rg) v (rg_fragment_tag rg) (rg_priority rg) (rg_origin rg) (rg_group rg)
    (rg_rp rg).
Definition set_rg_fragment_tag (v : Z) (rg : rp_grp_entry) : rp_grp_entry :=
  mkRpGrp (rp_grp_next rg) (rp_grp_prev rg) (grp_rp_next rg) (grp_rp_prev rg) (rg_grplink rg)
    (rg_advholdtime rg) (rg_holdtime rg) v (rg_priority rg) (rg_origin rg) (rg_group rg) (rg_rp
    rg).
Definition set_rg_priority (v : Z) (rg : rp_grp_entry) : rp_grp_entry :=
  mkRpGrp (rp_grp_next rg) (rp_grp_prev rg) (grp_rp_next rg) (grp_rp_prev rg) (rg_grplink rg)
    (rg_advholdtime rg) (rg_holdtime rg) (rg_fragment_tag rg) v (rg_origin rg) (rg_group rg)
    (rg_rp rg).
Definition set_rg_origin (v : Z) (rg : rp_grp_entry) : rp_grp_entry :=
  mkRpGrp (rp_grp_next rg) (rp_grp_prev rg) (grp_rp_next rg) (grp_rp_prev rg) (rg_grplink rg)
    (rg_advholdtime rg) (rg_holdtime rg) (rg_fragment_tag rg) (rg_priority rg) v (rg_group rg)
    (rg_rp rg).
Definition set_rg_group (v : ptr) (rg : rp_grp_entry) : rp_grp_entry :=
  mkRpGrp (rp_grp_next rg) (rp_grp_prev rg) (grp_rp_next rg) (grp_rp_prev rg) (rg_grplink rg)
    (rg_advholdtime rg) (rg_holdtime rg) (rg_fragment_tag rg) (rg_priority rg) (rg_origin rg) v
    (rg_rp rg).
Definition set_rg_rp (v : ptr) (rg : rp_grp_entry) : rp_grp_entry :=
  mkRpGrp (rp_grp_next rg) (rp_grp_prev rg) (grp_rp_next rg) (grp_rp_prev rg) (rg_grplink rg)
    (rg_advholdtime rg) (rg_holdtime rg) (rg_fragment_tag rg) (rg_priority rg) (rg_origin rg)
    (rg_group rg) v.

Definition set_g_next (v : ptr) (g : grpentry) : grpentry :=
  mkGrp v (g_prev g) (g_rpnext g) (g_rpprev g) (g_group g) (g_rpaddr g) (g_mrtlink g)
    (g_active_rp_grp g) (g_grp_route g).
Definition set_g_prev (v : ptr) (g : grpentry) : grpentry :=
  mkGrp (g_next g) v (g_rpnext g) (g_rpprev g) (g_group g) (g_rpaddr g) (g_mrtlink g)
    (g_active_rp_grp g) (g_grp_route g).
Definition set_g_rpnext (v : ptr) (g : grpentry) : grpentry :=
  mkGrp (g_next g) (g_prev g) v (g_rpprev g) (g_group g) (g_rpaddr g) (g_mrtlink g)
    (g_active_rp_grp g) (g_grp_route g).
Definition set_g_rpprev (v : ptr) (g : grpentry) : grpentry :=
  mkGrp (g_next g) (g_prev g) (g_rpnext g) v (g_group g) (g_rpaddr g) (g_mrtlink g)
    (g_active_rp_grp g) (g_grp_route g).
Definition set_g_group (v : sockaddr_in6) (g : grpentry) : grpentry :=
  mkGrp (g_next g) (g_prev g) (g_rpnext g) (g_rpprev g) v (g_rpaddr g) (g_mrtlink g)
    (g_active_rp_grp g) (g_grp_route g).
Definition set_g_rpaddr (v : sockaddr_in6) (g : grpentry) : grpentry :=
  mkGrp (g_next g) (g_prev g) (g_rpnext g) (g_rpprev g) (g_group g) v (g_mrtlink g)
    (g_active_rp_grp g) (g_grp_route g).
Definition set_g_mrtlink (v : ptr) (g : grpentry) : grpentry :=
  mkGrp (g_next g) (g_prev g) (g_rpnext g) (g_rpprev g) (g_group g) (g_rpaddr g) v
    (g_active_rp_grp g) (g_grp_route g).
Definition set_g_active_rp_grp (v : ptr) (g : grpentry) : grpentry :=
  mkGrp (g_next g) (g_prev g) (g_rpnext g) (g_rpprev g) (g_group g) (g_rpaddr g) (g_mrtlink g) v
    (g_grp_route g).
Definition set_g_grp_route (v : ptr) (g : grpentry) : grpentry :=
  mkGrp (g_next g) (g_prev g) (g_rpnext g) (g_rpprev g) (g_group g) (g_rpaddr g) (g_mrtlink g)
    (g_active_rp_grp g) v.

Definition set_m_grpnext (v : ptr) (m : mrtentry) : mrtentry :=
  mkMrt v (m_grpprev m) (m_srcnext m) (m_srcprev m) (m_group m) (m_source m) (m_incoming m)
    (m_oifs m) (m_joined_oifs m) (m_pruned_oifs m) (m_asserted_oifs m) (m_leaves m) (m_upstream
    m) (m_metric m) (m_preference m) (m_pmbr_addr m) (m_vif_timers m) (m_vif_deletion_delay m)
    (m_flags m) (m_timer m) (m_jp_timer m) (m_rs_timer m) (m_assert_timer m)
    (m_assert_rate_timer m) (m_kernel_cache m).
Definition set_m_grpprev (v : ptr) (m : mrtentry) : mrtentry :=
  mkMrt (m_grpnext m) v (m_srcnext m) (m_srcprev m) (m_group m) (m_source m) (m_incoming m)
    (m_oifs m) (m_joined_oifs m) (m_pruned_oifs m) (m_asserted_oifs m) (m_leaves m) (m_upstream
    m) (m_metric m) (m_preference m) (m_pmbr_addr m) (m_vif_timers m) (m_vif_deletion_delay m)
    (m_flags m) (m_timer m) (m_jp_timer m) (m_rs_timer m) (m_assert_timer m)
    (m_assert_rate_timer m) (m_kernel_cache m).
Definition set_m_srcnext (v : ptr) (m : mrtentry) : mrtentry :=
  mkMrt (m_grpnext m) (m_grpprev m) v (m_srcprev m) (m_group m) (m_source m) (m_incoming m)
    (m_oifs m) (m_joined_oifs m) (m_pruned_oifs m) (m_asserted_oifs m) (m_leaves m) (m_upstream
    m) (m_metric m) (m_preference m) (m_pmbr_addr m) (m_vif_timers m) (m_vif_deletion_delay m)
    (m_flags m) (m_timer m) (m_jp_timer m) (m_rs_timer m) (m_assert_timer m)
    (m_assert_rate_timer m) (m_kernel_cache m).
Definition set_m_srcprev (v : ptr) (m : mrtentry) : mrtentry :=
  mkMrt (m_grpnext m) (m_grpprev m) (m_srcnext m) v (m_group m) (m_source m) (m_incoming m)
    (m_oifs m) (m_joined_oifs m) (m_pruned_oifs m) (m_asserted_oifs m) (m_leaves m) (m_upstream
    m) (m_metric m) (m_preference m) (m_pmbr_addr m) (m_vif_timers m) (m_vif_deletion_delay m)
    (m_flags m) (m_timer m) (m_jp_timer m) (m_rs_timer m) (m_assert_timer m)
    (m_assert_rate_timer m) (m_kernel_cache m).
Definition set_m_group (v : ptr) (m : mrtentry) : mrtentry :=
  mkMrt (m_grpnext m) (m_grpprev m) (m_srcnext m) (m_srcprev m) v (m_source m) (m_incoming m)
    (m_oifs m) (m_joined_oifs m) (m_pruned_oifs m) (m_asserted_oifs m) (m_leaves m) (m_upstream
    m) (m_metric m) (m_preference m) (m_pmbr_addr m) (m_vif_timers m) (m_vif_deletion_delay m)
    (m_flags m) (m_timer m) (m_jp_timer m) (m_rs_timer m) (m_assert_timer m)
    (m_assert_rate_timer m) (m_kernel_cache m).
Definition set_m_source (v : ptr) (m : mrtentry) : mrtentry :=
  mkMrt (m_grpnext m) (m_grpprev m) (m_srcnext m) (m_srcprev m) (m_group m) v (m_incoming m)
    (m_oifs m) (m_joined_oifs m) (m_pruned_oifs m) (m_asserted_oifs m) (m_leaves m) (m_upstream
    m) (m_metric m) (m_preference m) (m_pmbr_addr m) (m_vif_timers m) (m_vif_deletion_delay m)
    (m_flags m) (m_timer m) (m_jp_timer m) (m_rs_timer m) (m_assert_timer m)
    (m_assert_rate_timer m) (m_kernel_cache m).
Definition set_m_incoming (v : Z) (m : mrtentry) : mrtentry :=
  mkMrt (m_grpnext m) (m_grpprev m) (m_srcnext m) (m_srcprev m) (m_group m) (m_source m) v
    (m_oifs m) (m_joined_oifs m) (m_pruned_oifs m) (m_asserted_oifs m) (m_leaves m) (m_upstream
    m) (m_metric m) (m_preference m) (m_pmbr_addr m) (m_vif_timers m) (m_vif_deletion_delay m)
    (m_flags m) (m_timer m) (m_jp_timer m) (m_rs_timer m) (m_assert_timer m)
    (m_assert_rate_timer m) (m_kernel_cache m).
Definition set_m_oifs (v : Z) (m : mrtentry) : mrtentry :=
  mkMrt (m_grpnext m) (m_grpprev m) (m_srcnext m) (m_srcprev m) (m_group m) (m_source m)
    (m_incoming m) v (m_joined_oifs m) (m_pruned_oifs m) (m_asserted_oifs m) (m_leaves m)
    (m_upstream m) (m_metric m) (m_preference m) (m_pmbr_addr m) (m_vif_timers m)
    (m_vif_deletion_delay m) (m_flags m) (m_timer m) (m_jp_timer m) (m_rs_timer m)
    (m_assert_timer m) (m_assert_rate_timer m) (m_kernel_cache m).
Definition set_m_joined_oifs (v : Z) (m : mrtentry) : mrtentry :=
  mkMrt (m_grpnext m) (m_grpprev m) (m_srcnext m) (m_srcprev m) (m_group m) (m_source m)
    (m_incoming m) (m_oifs m) v (m_pruned_oifs m) (m_asserted_oifs m) (m_leaves m) (m_upstream
    m) (m_metric m) (m_preference m) (m_pmbr_addr m) (m_vif_timers m) (m_vif_deletion_delay m)
    (m_flags m) (m_timer m) (m_jp_timer m) (m_rs_timer m) (m_assert_timer m)
    (m_assert_rate_timer m) (m_kernel_cache m).
Definition set_m_pruned_oifs (v : Z) (m : mrtentry) : mrtentry :=
  mkMrt (m_grpnext m) (m_grpprev m) (m_srcnext m) (m_srcprev m) (m_group m) (m_source m)
    (m_incoming m) (m_oifs m) (m_joined_oifs m) v (m_asserted_oifs m) (m_leaves m) (m_upstream
    m) (m_metric m) (m_preference m) (m_pmbr_addr m) (m_vif_timers m) (m_vif_deletion_delay m)
    (m_flags m) (m_timer m) (m_jp_timer m) (m_rs_timer m) (m_assert_timer m)
    (m_assert_rate_timer m) (m_kernel_cache m).
Definition set_m_asserted_oifs (v : Z) (m : mrtentry) : mrtentry :=
  mkMrt (m_grpnext m) (m_grpprev m) (m_srcnext m) (m_srcprev m) (m_group m) (m_source m)
    (m_incoming m) (m_oifs m) (m_joined_oifs m) (m_pruned_oifs m) v (m_leaves m) (m_upstream m)
    (m_metric m) (m_preference m) (m_pmbr_addr m) (m_vif_timers m) (m_vif_deletion_delay m)
    (m_flags m) (m_timer m) (m_jp_timer m) (m_rs_timer m) (m_assert_timer m)
    (m_assert_rate_timer m) (m_kernel_cache m).
Definition set_m_leaves (v : Z) (m : mrtentry) : mrtentry :=
  mkMrt (m_grpnext m) (m_grpprev m) (m_srcnext m) (m_srcprev m) (m_group m) (m_source m)
    (m_incoming m) (m_oifs m) (m_joined_oifs m) (m_pruned_oifs m) (m_asserted_oifs m) v
    (m_upstream m) (m_metric m) (m_preference m) (m_pmbr_addr m) (m_vif_timers m)
    (m_vif_deletion_delay m) (m_flags m) (m_timer m) (m_jp_timer m) (m_rs_timer m)
    (m_assert_timer m) (m_assert_rate_timer m) (m_kernel_cache m).
Definition set_m_upstream (v : ptr) (m : mrtentry) : mrtentry :=
  mkMrt (m_grpnext m) (m_grpprev m) (m_srcnext m) (m_srcprev m) (m_group m) (m_source m)
    (m_incoming m) (m_oifs m) (m_joined_oifs m) (m_pruned_oifs m) (m_asserted_oifs m) (m_leaves
    m) v (m_metric m) (m_preference m) (m_pmbr_addr m) (m_vif_timers m) (m_vif_deletion_delay m)
    (m_flags m) (m_timer m) (m_jp_timer m) (m_rs_timer m) (m_assert_timer m)
    (m_assert_rate_timer m) (m_kernel_cache m).
Definition set_m_metric (v : Z) (m : mrtentry) : mrtentry :=
  mkMrt (m_grpnext m) (m_grpprev m) (m_srcnext m) (m_srcprev m) (m_group m) (m_source m)
    (m_incoming m) (m_oifs m) (m_joined_oifs m) (m_pruned_oifs m) (m_asserted_oifs m) (m_leaves
    m) (m_upstream m) v (m_preference m) (m_pmbr_addr m) (m_vif_timers m) (m_vif_deletion_delay
    m) (m_flags m) (m_timer m) (m_jp_timer m) (m_rs_timer m) (m_assert_timer m)
    (m_assert_rate_timer m) (m_kernel_cache m).
Definition set_m_preference (v : Z) (m : mrtentry) : mrtentry :=
  mkMrt (m_grpnext m) (m_grpprev m) (m_srcnext m) (m_srcprev m) (m_group m) (m_source m)
    (m_incoming m) (m_oifs m) (m_joined_oifs m) (m_pruned_oifs m) (m_asserted_oifs m) (m_leaves
    m) (m_upstream m) (m_metric m) v (m_pmbr_addr m) (m_vif_timers m) (m_vif_deletion_delay m)
    (m_flags m) (m_timer m) (m_jp_timer m) (m_rs_timer m) (m_assert_timer m)
    (m_assert_rate_timer m) (m_kernel_cache m).
Definition set_m_pmbr_addr (v : sockaddr_in6) (m : mrtentry) : mrtentry :=
  mkMrt (m_grpnext m) (m_grpprev m) (m_srcnext m) (m_srcprev m) (m_group m) (m_source m)
    (m_incoming m) (m_oifs m) (m_joined_oifs m) (m_pruned_oifs m) (m_asserted_oifs m) (m_leaves
    m) (m_upstream m) (m_metric m) (m_preference m) v (m_vif_timers m) (m_vif_deletion_delay m)
    (m_flags m) (m_timer m) (m_jp_timer m) (m_rs_timer m) (m_assert_timer m)
    (m_assert_rate_timer m) (m_kernel_cache m).
Definition set_m_vif_timers (v : list Z) (m : mrtentry) : mrtentry :=
  mkMrt (m_grpnext m) (m_grpprev m) (m_srcnext m) (m_srcprev m) (m_group m) (m_source m)
    (m_incoming m) (m_oifs m) (m_joined_oifs m) (m_pruned_oifs m) (m_asserted_oifs m) (m_leaves
    m) (m_upstream m) (m_metric m) (m_preference m) (m_pmbr_addr m) v (m_vif_deletion_delay m)
    (m_flags m) (m_timer m) (m_jp_timer m) (m_rs_timer m) (m_assert_timer m)
    (m_assert_rate_timer m) (m_kernel_cache m).
Definition set_m_vif_deletion_delay (v : list Z) (m : mrtentry) : mrtentry :=
  mkMrt (m_grpnext m) (m_grpprev m) (m_srcnext m) (m_srcprev m) (m_group m) (m_source m)
    (m_incoming m) (m_oifs m) (m_joined_oifs m) (m_pruned_oifs m) (m_asserted_oifs m) (m_leaves
    m) (m_upstream m) (m_metric m) (m_preference m) (m_pmbr_addr m) (m_vif_timers m) v (m_flags
    m) (m_timer m) (m_jp_timer m) (m_rs_timer m) (m_assert_timer m) (m_assert_rate_timer m)
    (m_kernel_cache m).
Definition set_m_flags (v : Z) (m : mrtentry) : mrtentry :=
  mkMrt (m_grpnext m) (m_grpprev m) (m_srcnext m) (m_srcprev m) (m_group m) (m_source m)
    (m_incoming m) (m_oifs m) (m_joined_oifs m) (m_pruned_oifs m) (m_asserted_oifs m) (m_leaves
    m) (m_upstream m) (m_metric m) (m_preference m) (m_pmbr_addr m) (m_vif_timers m)
    (m_vif_deletion_delay m) v (m_timer m) (m_jp_timer m) (m_rs_timer m) (m_assert_timer m)
    (m_assert_rate_timer m) (m_kernel_cache m).
Definition set_m_timer (v : Z) (m : mrtentry) : mrtentry :=
  mkMrt (m_grpnext m) (m_grpprev m) (m_srcnext m) (m_srcprev m) (m_group m) (m_source m)
    (m_incoming m) (m_oifs m) (m_joined_oifs m) (m_pruned_oifs m) (m_asserted_oifs m) (m_leaves
    m) (m_upstream m) (m_metric m) (m_preference m) (m_pmbr_addr m) (m_vif_timers m)
    (m_vif_deletion_delay m) (m_flags m) v (m_jp_timer m) (m_rs_timer m) (m_assert_timer m)
    (m_assert_rate_timer m) (m_kernel_cache m).
Definition set_m_jp_timer (v : Z) (m : mrtentry) : mrtentry :=
  mkMrt (m_grpnext m) (m_grpprev m) (m_srcnext m) (m_srcprev m) (m_group m) (m_source m)
    (m_incoming m) (m_oifs m) (m_joined_oifs m) (m_pruned_oifs m) (m_asserted_oifs m) (m_leaves
    m) (m_upstream m) (m_metric m) (m_preference m) (m_pmbr_addr m) (m_vif_timers m)
    (m_vif_deletion_delay m) (m_flags m) (m_timer m) v (m_rs_timer m) (m_assert_timer m)
    (m_assert_rate_timer m) (m_kernel_cache m).
Definition set_m_rs_timer (v : Z) (m : mrtentry) : mrtentry :=
  mkMrt (m_grpnext m) (m_grpprev m) (m_srcnext m) (m_srcprev m) (m_group m) (m_source m)
    (m_incoming m) (m_oifs m) (m_joined_oifs m) (m_pruned_oifs m) (m_asserted_oifs m) (m_leaves
    m) (m_upstream m) (m_metric m) (m_preference m) (m_pmbr_addr m) (m_vif_timers m)
    (m_vif_deletion_delay m) (m_flags m) (m_timer m) (m_jp_timer m) v (m_assert_timer m)
    (m_assert_rate_timer m) (m_kernel_cache m).
Definition set_m_assert_timer (v : Z) (m : mrtentry) : mrtentry :=
  mkMrt (m_grpnext m) (m_grpprev m) (m_srcnext m) (m_srcprev m) (m_group m) (m_source m)
    (m_incoming m) (m_oifs m) (m_joined_oifs m) (m_pruned_oifs m) (m_asserted_oifs m) (m_leaves
    m) (m_upstream m) (m_metric m) (m_preference m) (m_pmbr_addr m) (m_vif_timers m)
    (m_vif_deletion_delay m) (m_flags m) (m_timer m) (m_jp_timer m) (m_rs_timer m) v
    (m_assert_rate_timer m) (m_kernel_cache m).
Definition set_m_assert_rate_timer (v : Z) (m : mrtentry) : mrtentry :=
  mkMrt (m_grpnext m) (m_grpprev m) (m_srcnext m) (m_srcprev m) (m_group m) (m_source m)
    (m_incoming m) (m_oifs m) (m_joined_oifs m) (m_pruned_oifs m) (m_asserted_oifs m) (m_leaves
    m) (m_upstream m) (m_metric m) (m_preference m) (m_pmbr_addr m) (m_vif_timers m)
    (m_vif_deletion_delay m) (m_flags m) (m_timer m) (m_jp_timer m) (m_rs_timer m)
    (m_assert_timer m) v (m_kernel_cache m).
Definition set_m_kernel_cache (v : ptr) (m : mrtentry) : mrtentry :=
  mkMrt (m_grpnext m) (m_grpprev m) (m_srcnext m) (m_srcprev m) (m_group m) (m_source m)
    (m_incoming m) (m_oifs m) (m_joined_oifs m) (m_pruned_oifs m) (m_asserted_oifs m) (m_leaves
    m) (m_upstream m) (m_metric m) (m_preference m) (m_pmbr_addr m) (m_vif_timers m)
    (m_vif_deletion_delay m) (m_flags m) (m_timer m) (m_jp_timer m) (m_rs_timer m)
    (m_assert_timer m) (m_assert_rate_timer m) v.

Definition set_k_next (v : ptr) (k : kernel_cache) : kernel_cache :=
  mkCache v (k_prev k) (k_source k) (k_group k) (k_bytecnt k).
Definition set_k_prev (v : ptr) (k : kernel_cache) : kernel_cache :=
  mkCache (k_next k) v (k_source k) (k_group k) (k_bytecnt k).
Definition set_k_source (v : sockaddr_in6) (k : kernel_cache) : kernel_cache :=
  mkCache (k_next k) (k_prev k) v (k_group k) (k_bytecnt k).
Definition set_k_group (v : sockaddr_in6) (k : kernel_cache) : kernel_cache :=
  mkCache (k_next k) (k_prev k) (k_source k) v (k_bytecnt k).
Definition set_k_bytecnt (v : Z) (k : kernel_cache) : kernel_cache :=
  mkCache (k_next k) (k_prev k) (k_source k) (k_group k) v.

Definition set_srcs (v : gmap nat srcentry) (s : Pim) : Pim :=
  mkPim v (crps s) (gmasks s) (rpgs s) (grps s) (mrts s) (caches s) (brk s) (mallocs s) (srclist
    s) (grplist s) (cand_rp_list s) (grp_mask_list s) (kcalls s) (uvifs s) (total_interfaces s)
    (reg_vif_num s) (ssmprefix s) (ssmmask s) (rpf s) (vars s).
Definition set_crps (v : gmap nat cand_rp) (s : Pim) : Pim :=
  mkPim (srcs s) v (gmasks s) (rpgs s) (grps s) (mrts s) (caches s) (brk s) (mallocs s) (srclist
    s) (grplist s) (cand_rp_list s) (grp_mask_list s) (kcalls s) (uvifs s) (total_interfaces s)
    (reg_vif_num s) (ssmprefix s) (ssmmask s) (rpf s) (vars s).
Definition set_gmasks (v : gmap nat grp_mask) (s : Pim) : Pim :=
  mkPim (srcs s) (crps s) v (rpgs s) (grps s) (mrts s) (caches s) (brk s) (mallocs s) (srclist
    s) (grplist s) (cand_rp_list s) (grp_mask_list s) (kcalls s) (uvifs s) (total_interfaces s)
    (reg_vif_num s) (ssmprefix s) (ssmmask s) (rpf s) (vars s).
Definition set_rpgs (v : gmap nat rp_grp_entry) (s : Pim) : Pim :=
  mkPim (srcs s) (crps s) (gmasks s) v (grps s) (mrts s) (caches s) (brk s) (mallocs s) (srclist
    s) (grplist s) (cand_rp_list s) (grp_mask_list s) (kcalls s) (uvifs s) (total_interfaces s)
    (reg_vif_num s) (ssmprefix s) (ssmmask s) (rpf s) (vars s).
Definition set_grps (v : gmap nat grpentry) (s : Pim) : Pim :=
  mkPim (srcs s) (crps s) (gmasks s) (rpgs s) v (mrts s) (caches s) (brk s) (mallocs s) (srclist
    s) (grplist s) (cand_rp_list s) (grp_mask_list s) (kcalls s) (uvifs s) (total_interfaces s)
    (reg_vif_num s) (ssmprefix s) (ssmmask s) (rpf s) (vars s).
Definition set_mrts (v : gmap nat mrtentry) (s : Pim) : Pim :=
  mkPim (srcs s) (crps s) (gmasks s) (rpgs s) (grps s) v (caches s) (brk s) (mallocs s) (srclist
    s) (grplist s) (cand_rp_list s) (grp_mask_list s) (kcalls s) (uvifs s) (total_interfaces s)
    (reg_vif_num s) (ssmprefix s) (ssmmask s) (rpf s) (vars s).
Definition set_caches (v : gmap nat kernel_cache) (s : Pim) : Pim :=
  mkPim (srcs s) (crps s) (gmasks s) (rpgs s) (grps s) (mrts s) v (brk s) (mallocs s) (srclist
    s) (grplist s) (cand_rp_list s) (grp_mask_list s) (kcalls s) (uvifs s) (total_interfaces s)
    (reg_vif_num s) (ssmprefix s) (ssmmask s) (rpf s) (vars s).
Definition set_brk (v : nat) (s : Pim) : Pim :=
  mkPim (srcs s) (crps s) (gmasks s) (rpgs s) (grps s) (mrts s) (caches s) v (mallocs s)
    (srclist s) (grplist s) (cand_rp_list s) (grp_mask_list s) (kcalls s) (uvifs s)
    (total_interfaces s) (reg_vif_num s) (ssmprefix s) (ssmmask s) (rpf s) (vars s).
Definition set_mallocs (v : list bool) (s : Pim) : Pim :=
  mkPim (srcs s) (crps s) (gmasks s) (rpgs s) (grps s) (mrts s) (caches s) (brk s) v (srclist s)
    (grplist s) (cand_rp_list s) (grp_mask_list s) (kcalls s) (uvifs s) (total_interfaces s)
    (reg_vif_num s) (ssmprefix s) (ssmmask s) (rpf s) (vars s).
Definition set_srclist (v : ptr) (s : Pim) : Pim :=
  mkPim (srcs s) (crps s) (gmasks s) (rpgs s) (grps s) (mrts s) (caches s) (brk s) (mallocs s) v
    (grplist s) (cand_rp_list s) (grp_mask_list s) (kcalls s) (uvifs s) (total_interfaces s)
    (reg_vif_num s) (ssmprefix s) (ssmmask s) (rpf s) (vars s).
Definition set_grplist (v : ptr) (s : Pim) : Pim :=
  mkPim (srcs s) (crps s) (gmasks s) (rpgs s) (grps s) (mrts s) (caches s) (brk s) (mallocs s)
    (srclist s) v (cand_rp_list s) (grp_mask_list s) (kcalls s) (uvifs s) (total_interfaces s)
    (reg_vif_num s) (ssmprefix s) (ssmmask s) (rpf s) (vars s).
Definition set_cand_rp_list (v : ptr) (s : Pim) : Pim :=
  mkPim (srcs s) (crps s) (gmasks s) (rpgs s) (grps s) (mrts s) (caches s) (brk s) (mallocs s)
    (srclist s) (grplist s) v (grp_mask_list s) (kcalls s) (uvifs s) (total_interfaces s)
    (reg_vif_num s) (ssmprefix s) (ssmmask s) (rpf s) (vars s).
Definition set_grp_mask_list (v : ptr) (s : Pim) : Pim :=
  mkPim (srcs s) (crps s) (gmasks s) (rpgs s) (grps s) (mrts s) (caches s) (brk s) (mallocs s)
    (srclist s) (grplist s) (cand_rp_list s) v (kcalls s) (uvifs s) (total_interfaces s)
    (reg_vif_num s) (ssmprefix s) (ssmmask s) (rpf s) (vars s).
Definition set_kcalls (v : list kcall) (s : Pim) : Pim :=
  mkPim (srcs s) (crps s) (gmasks s) (rpgs s) (grps s) (mrts s) (caches s) (brk s) (mallocs s)
    (srclist s) (grplist s) (cand_rp_list s) (grp_mask_list s) v (uvifs s) (total_interfaces s)
    (reg_vif_num s) (ssmprefix s) (ssmmask s) (rpf s) (vars s).

Definition set_uvifs (v : list uvif) (s : Pim) : Pim :=
mkPim (srcs s) (crps s) (gmasks s) (rpgs s) (grps s) (mrts s) (caches s) (brk s) (mallocs s)
    (srclist s) (grplist s) (cand_rp_list s) (grp_mask_list s) (kcalls s) v (total_interfaces s)
    (reg_vif_num s) (ssmprefix s) (ssmmask s) (rpf s) (vars s).
Definition set_vars (v : Vars) (s : Pim) : Pim :=
mkPim (srcs s) (crps s) (gmasks s) (rpgs s) (grps s) (mrts s) (caches s) (brk s) (mallocs s)
    (srclist s) (grplist s) (cand_rp_list s) (grp_mask_list s) (kcalls s) (uvifs s)
    (total_interfaces s) (reg_vif_num s) (ssmprefix s) (ssmmask s) (rpf s) v.

Definition set_my_bsr_address (v : sockaddr_in6) (w : Vars) : Vars :=
mkVars v (my_bsr_priority w) (my_bsr_hash_mask w) (cand_bsr_flag w) (curr_bsr_address w)
    (curr_bsr_priority w) (curr_bsr_fragment_tag w) (curr_bsr_hash_mask w) (pim_bootstrap_timer w)
    (my_cand_rp_address w) (my_cand_rp_priority w) (my_cand_rp_holdtime w) (my_cand_rp_adv_period w)
    (my_bsr_period w) (pim_cand_rp_adv_timer w) (cand_rp_flag w) (static_rp_flag w)
    (cand_rp_adv_buffer w) (cand_rp_adv_insert w) (cand_rp_adv_size w) (segmented_cand_rp_list w)
    (segmented_grp_mask_list w) (pim_hello_period w) (pim_hello_holdtime w) (pim_join_prune_period
    w) (pim_join_prune_holdtime w) (pim_data_timeout w) (pim6_send_buf w) (sent w) (randoms w)
    (build_jp_message_pool w) (build_jp_message_pool_counter w) (timer_interval w)
    (pim_register_suppression_timeout w) (pim_register_probe_time w) (pim_assert_timeout w)
    (unicast_routing_timer w) (unicast_routing_check_interval w) (pim_data_rate_timer w)
    (pim_data_rate_check_interval w) (pim_data_rate_bytes w) (pim_reg_rate_timer w)
    (pim_reg_rate_check_interval w) (pim_reg_rate_bytes w) (sg_counts w).
Definition set_my_bsr_priority (v : Z) (w : Vars) : Vars :=
mkVars (my_bsr_address w) v (my_bsr_hash_mask w) (cand_bsr_flag w) (curr_bsr_address w)
    (curr_bsr_priority w) (curr_bsr_fragment_tag w) (curr_bsr_hash_mask w) (pim_bootstrap_timer w)
    (my_cand_rp_address w) (my_cand_rp_priority w) (my_cand_rp_holdtime w) (my_cand_rp_adv_period w)
    (my_bsr_period w) (pim_cand_rp_adv_timer w) (cand_rp_flag w) (static_rp_flag w)
    (cand_rp_adv_buffer w) (cand_rp_adv_insert w) (cand_rp_adv_size w) (segmented_cand_rp_list w)
    (segmented_grp_mask_list w) (pim_hello_period w) (pim_hello_holdtime w) (pim_join_prune_period
    w) (pim_join_prune_holdtime w) (pim_data_timeout w) (pim6_send_buf w) (sent w) (randoms w)
    (build_jp_message_pool w) (build_jp_message_pool_counter w) (timer_interval w)
    (pim_register_suppression_timeout w) (pim_register_probe_time w) (pim_assert_timeout w)
    (unicast_routing_timer w) (unicast_routing_check_interval w) (pim_data_rate_timer w)
    (pim_data_rate_check_interval w) (pim_data_rate_bytes w) (pim_reg_rate_timer w)
    (pim_reg_rate_check_interval w) (pim_reg_rate_bytes w) (sg_counts w).
Definition set_my_bsr_hash_mask (v : list Z) (w : Vars) : Vars :=
mkVars (my_bsr_address w) (my_bsr_priority w) v (cand_bsr_flag w) (curr_bsr_address w)
    (curr_bsr_priority w) (curr_bsr_fragment_tag w) (curr_bsr_hash_mask w) (pim_bootstrap_timer w)
    (my_cand_rp_address w) (my_cand_rp_priority w) (my_cand_rp_holdtime w) (my_cand_rp_adv_period w)
    (my_bsr_period w) (pim_cand_rp_adv_timer w) (cand_rp_flag w) (static_rp_flag w)
    (cand_rp_adv_buffer w) (cand_rp_adv_insert w) (cand_rp_adv_size w) (segmented_cand_rp_list w)
    (segmented_grp_mask_list w) (pim_hello_period w) (pim_hello_holdtime w) (pim_join_prune_period
    w) (pim_join_prune_holdtime w) (pim_data_timeout w) (pim6_send_buf w) (sent w) (randoms w)
    (build_jp_message_pool w) (build_jp_message_pool_counter w) (timer_interval w)
    (pim_register_suppression_timeout w) (pim_register_probe_time w) (pim_assert_timeout w)
    (unicast_routing_timer w) (unicast_routing_check_interval w) (pim_data_rate_timer w)
    (pim_data_rate_check_interval w) (pim_data_rate_bytes w) (pim_reg_rate_timer w)
    (pim_reg_rate_check_interval w) (pim_reg_rate_bytes w) (sg_counts w).
Definition set_cand_bsr_flag (v : bool) (w : Vars) : Vars :=
mkVars (my_bsr_address w) (my_bsr_priority w) (my_bsr_hash_mask w) v (curr_bsr_address w)
    (curr_bsr_priority w) (curr_bsr_fragment_tag w) (curr_bsr_hash_mask w) (pim_bootstrap_timer w)
    (my_cand_rp_address w) (my_cand_rp_priority w) (my_cand_rp_holdtime w) (my_cand_rp_adv_period w)
    (my_bsr_period w) (pim_cand_rp_adv_timer w) (cand_rp_flag w) (static_rp_flag w)
    (cand_rp_adv_buffer w) (cand_rp_adv_insert w) (cand_rp_adv_size w) (segmented_cand_rp_list w)
    (segmented_grp_mask_list w) (pim_hello_period w) (pim_hello_holdtime w) (pim_join_prune_period
    w) (pim_join_prune_holdtime w) (pim_data_timeout w) (pim6_send_buf w) (sent w) (randoms w)
    (build_jp_message_pool w) (build_jp_message_pool_counter w) (timer_interval w)
    (pim_register_suppression_timeout w) (pim_register_probe_time w) (pim_assert_timeout w)
    (unicast_routing_timer w) (unicast_routing_check_interval w) (pim_data_rate_timer w)
    (pim_data_rate_check_interval w) (pim_data_rate_bytes w) (pim_reg_rate_timer w)
    (pim_reg_rate_check_interval w) (pim_reg_rate_bytes w) (sg_counts w).
Definition set_curr_bsr_address (v : sockaddr_in6) (w : Vars) : Vars :=
mkVars (my_bsr_address w) (my_bsr_priority w) (my_bsr_hash_mask w) (cand_bsr_flag w) v
    (curr_bsr_priority w) (curr_bsr_fragment_tag w) (curr_bsr_hash_mask w) (pim_bootstrap_timer w)
    (my_cand_rp_address w) (my_cand_rp_priority w) (my_cand_rp_holdtime w) (my_cand_rp_adv_period w)
    (my_bsr_period w) (pim_cand_rp_adv_timer w) (cand_rp_flag w) (static_rp_flag w)
    (cand_rp_adv_buffer w) (cand_rp_adv_insert w) (cand_rp_adv_size w) (segmented_cand_rp_list w)
    (segmented_grp_mask_list w) (pim_hello_period w) (pim_hello_holdtime w) (pim_join_prune_period
    w) (pim_join_prune_holdtime w) (pim_data_timeout w) (pim6_send_buf w) (sent w) (randoms w)
    (build_jp_message_pool w) (build_jp_message_pool_counter w) (timer_interval w)
    (pim_register_suppression_timeout w) (pim_register_probe_time w) (pim_assert_timeout w)
    (unicast_routing_timer w) (unicast_routing_check_interval w) (pim_data_rate_timer w)
    (pim_data_rate_check_interval w) (pim_data_rate_bytes w) (pim_reg_rate_timer w)
    (pim_reg_rate_check_interval w) (pim_reg_rate_bytes w) (sg_counts w).
Definition set_curr_bsr_priority (v : Z) (w : Vars) : Vars :=
mkVars (my_bsr_address w) (my_bsr_priority w) (my_bsr_hash_mask w) (cand_bsr_flag w)
    (curr_bsr_address w) v (curr_bsr_fragment_tag w) (curr_bsr_hash_mask w) (pim_bootstrap_timer w)
    (my_cand_rp_address w) (my_cand_rp_priority w) (my_cand_rp_holdtime w) (my_cand_rp_adv_period w)
    (my_bsr_period w) (pim_cand_rp_adv_timer w) (cand_rp_flag w) (static_rp_flag w)
    (cand_rp_adv_buffer w) (cand_rp_adv_insert w) (cand_rp_adv_size w) (segmented_cand_rp_list w)
    (segmented_grp_mask_list w) (pim_hello_period w) (pim_hello_holdtime w) (pim_join_prune_period
    w) (pim_join_prune_holdtime w) (pim_data_timeout w) (pim6_send_buf w) (sent w) (randoms w)
    (build_jp_message_pool w) (build_jp_message_pool_counter w) (timer_interval w)
    (pim_register_suppression_timeout w) (pim_register_probe_time w) (pim_assert_timeout w)
    (unicast_routing_timer w) (unicast_routing_check_interval w) (pim_data_rate_timer w)
    (pim_data_rate_check_interval w) (pim_data_rate_bytes w) (pim_reg_rate_timer w)
    (pim_reg_rate_check_interval w) (pim_reg_rate_bytes w) (sg_counts w).
Definition set_curr_bsr_fragment_tag (v : Z) (w : Vars) : Vars :=
mkVars (my_bsr_address w) (my_bsr_priority w) (my_bsr_hash_mask w) (cand_bsr_flag w)
    (curr_bsr_address w) (curr_bsr_priority w) v (curr_bsr_hash_mask w) (pim_bootstrap_timer w)
    (my_cand_rp_address w) (my_cand_rp_priority w) (my_cand_rp_holdtime w) (my_cand_rp_adv_period w)
    (my_bsr_period w) (pim_cand_rp_adv_timer w) (cand_rp_flag w) (static_rp_flag w)
    (cand_rp_adv_buffer w) (cand_rp_adv_insert w) (cand_rp_adv_size w) (segmented_cand_rp_list w)
    (segmented_grp_mask_list w) (pim_hello_period w) (pim_hello_holdtime w) (pim_join_prune_period
    w) (pim_join_prune_holdtime w) (pim_data_timeout w) (pim6_send_buf w) (sent w) (randoms w)
    (build_jp_message_pool w) (build_jp_message_pool_counter w) (timer_interval w)
    (pim_register_suppression_timeout w) (pim_register_probe_time w) (pim_assert_timeout w)
    (unicast_routing_timer w) (unicast_routing_check_interval w) (pim_data_rate_timer w)
    (pim_data_rate_check_interval w) (pim_data_rate_bytes w) (pim_reg_rate_timer w)
    (pim_reg_rate_check_interval w) (pim_reg_rate_bytes w) (sg_counts w).
Definition set_curr_bsr_hash_mask (v : list Z) (w : Vars) : Vars :=
mkVars (my_bsr_address w) (my_bsr_priority w) (my_bsr_hash_mask w) (cand_bsr_flag w)
    (curr_bsr_address w) (curr_bsr_priority w) (curr_bsr_fragment_tag w) v (pim_bootstrap_timer w)
    (my_cand_rp_address w) (my_cand_rp_priority w) (my_cand_rp_holdtime w) (my_cand_rp_adv_period w)
    (my_bsr_period w) (pim_cand_rp_adv_timer w) (cand_rp_flag w) (static_rp_flag w)
    (cand_rp_adv_buffer w) (cand_rp_adv_insert w) (cand_rp_adv_size w) (segmented_cand_rp_list w)
    (segmented_grp_mask_list w) (pim_hello_period w) (pim_hello_holdtime w) (pim_join_prune_period
    w) (pim_join_prune_holdtime w) (pim_data_timeout w) (pim6_send_buf w) (sent w) (randoms w)
    (build_jp_message_pool w) (build_jp_message_pool_counter w) (timer_interval w)
    (pim_register_suppression_timeout w) (pim_register_probe_time w) (pim_assert_timeout w)
    (unicast_routing_timer w) (unicast_routing_check_interval w) (pim_data_rate_timer w)
    (pim_data_rate_check_interval w) (pim_data_rate_bytes w) (pim_reg_rate_timer w)
    (pim_reg_rate_check_interval w) (pim_reg_rate_bytes w) (sg_counts w).
Definition set_pim_bootstrap_timer (v : Z) (w : Vars) : Vars :=
mkVars (my_bsr_address w) (my_bsr_priority w) (my_bsr_hash_mask w) (cand_bsr_flag w)
    (curr_bsr_address w) (curr_bsr_priority w) (curr_bsr_fragment_tag w) (curr_bsr_hash_mask w) v
    (my_cand_rp_address w) (my_cand_rp_priority w) (my_cand_rp_holdtime w) (my_cand_rp_adv_period w)
    (my_bsr_period w) (pim_cand_rp_adv_timer w) (cand_rp_flag w) (static_rp_flag w)
    (cand_rp_adv_buffer w) (cand_rp_adv_insert w) (cand_rp_adv_size w) (segmented_cand_rp_list w)
    (segmented_grp_mask_list w) (pim_hello_period w) (pim_hello_holdtime w) (pim_join_prune_period
    w) (pim_join_prune_holdtime w) (pim_data_timeout w) (pim6_send_buf w) (sent w) (randoms w)
    (build_jp_message_pool w) (build_jp_message_pool_counter w) (timer_interval w)
    (pim_register_suppression_timeout w) (pim_register_probe_time w) (pim_assert_timeout w)
    (unicast_routing_timer w) (unicast_routing_check_interval w) (pim_data_rate_timer w)
    (pim_data_rate_check_interval w) (pim_data_rate_bytes w) (pim_reg_rate_timer w)
    (pim_reg_rate_check_interval w) (pim_reg_rate_bytes w) (sg_counts w).
Definition set_my_cand_rp_address (v : sockaddr_in6) (w : Vars) : Vars :=
mkVars (my_bsr_address w) (my_bsr_priority w) (my_bsr_hash_mask w) (cand_bsr_flag w)
    (curr_bsr_address w) (curr_bsr_priority w) (curr_bsr_fragment_tag w) (curr_bsr_hash_mask w)
    (pim_bootstrap_timer w) v (my_cand_rp_priority w) (my_cand_rp_holdtime w) (my_cand_rp_adv_period
    w) (my_bsr_period w) (pim_cand_rp_adv_timer w) (cand_rp_flag w) (static_rp_flag w)
    (cand_rp_adv_buffer w) (cand_rp_adv_insert w) (cand_rp_adv_size w) (segmented_cand_rp_list w)
    (segmented_grp_mask_list w) (pim_hello_period w) (pim_hello_holdtime w) (pim_join_prune_period
    w) (pim_join_prune_holdtime w) (pim_data_timeout w) (pim6_send_buf w) (sent w) (randoms w)
    (build_jp_message_pool w) (build_jp_message_pool_counter w) (timer_interval w)
    (pim_register_suppression_timeout w) (pim_register_probe_time w) (pim_assert_timeout w)
    (unicast_routing_timer w) (unicast_routing_check_interval w) (pim_data_rate_timer w)
    (pim_data_rate_check_interval w) (pim_data_rate_bytes w) (pim_reg_rate_timer w)
    (pim_reg_rate_check_interval w) (pim_reg_rate_bytes w) (sg_counts w).
Definition set_my_cand_rp_priority (v : Z) (w : Vars) : Vars :=
mkVars (my_bsr_address w) (my_bsr_priority w) (my_bsr_hash_mask w) (cand_bsr_flag w)
    (curr_bsr_address w) (curr_bsr_priority w) (curr_bsr_fragment_tag w) (curr_bsr_hash_mask w)
    (pim_bootstrap_timer w) (my_cand_rp_address w) v (my_cand_rp_holdtime w) (my_cand_rp_adv_period
    w) (my_bsr_period w) (pim_cand_rp_adv_timer w) (cand_rp_flag w) (static_rp_flag w)
    (cand_rp_adv_buffer w) (cand_rp_adv_insert w) (cand_rp_adv_size w) (segmented_cand_rp_list w)
    (segmented_grp_mask_list w) (pim_hello_period w) (pim_hello_holdtime w) (pim_join_prune_period
    w) (pim_join_prune_holdtime w) (pim_data_timeout w) (pim6_send_buf w) (sent w) (randoms w)
    (build_jp_message_pool w) (build_jp_message_pool_counter w) (timer_interval w)
    (pim_register_suppression_timeout w) (pim_register_probe_time w) (pim_assert_timeout w)
    (unicast_routing_timer w) (unicast_routing_check_interval w) (pim_data_rate_timer w)
    (pim_data_rate_check_interval w) (pim_data_rate_bytes w) (pim_reg_rate_timer w)
    (pim_reg_rate_check_interval w) (pim_reg_rate_bytes w) (sg_counts w).
Definition set_my_cand_rp_holdtime (v : Z) (w : Vars) : Vars :=
mkVars (my_bsr_address w) (my_bsr_priority w) (my_bsr_hash_mask w) (cand_bsr_flag w)
    (curr_bsr_address w) (curr_bsr_priority w) (curr_bsr_fragment_tag w) (curr_bsr_hash_mask w)
    (pim_bootstrap_timer w) (my_cand_rp_address w) (my_cand_rp_priority w) v (my_cand_rp_adv_period
    w) (my_bsr_period w) (pim_cand_rp_adv_timer w) (cand_rp_flag w) (static_rp_flag w)
    (cand_rp_adv_buffer w) (cand_rp_adv_insert w) (cand_rp_adv_size w) (segmented_cand_rp_list w)
    (segmented_grp_mask_list w) (pim_hello_period w) (pim_hello_holdtime w) (pim_join_prune_period
    w) (pim_join_prune_holdtime w) (pim_data_timeout w) (pim6_send_buf w) (sent w) (randoms w)
    (build_jp_message_pool w) (build_jp_message_pool_counter w) (timer_interval w)
    (pim_register_suppression_timeout w) (pim_register_probe_time w) (pim_assert_timeout w)
    (unicast_routing_timer w) (unicast_routing_check_interval w) (pim_data_rate_timer w)
    (pim_data_rate_check_interval w) (pim_data_rate_bytes w) (pim_reg_rate_timer w)
    (pim_reg_rate_check_interval w) (pim_reg_rate_bytes w) (sg_counts w).
Definition set_my_cand_rp_adv_period (v : Z) (w : Vars) : Vars :=
mkVars (my_bsr_address w) (my_bsr_priority w) (my_bsr_hash_mask w) (cand_bsr_flag w)
    (curr_bsr_address w) (curr_bsr_priority w) (curr_bsr_fragment_tag w) (curr_bsr_hash_mask w)
    (pim_bootstrap_timer w) (my_cand_rp_address w) (my_cand_rp_priority w) (my_cand_rp_holdtime w) v
    (my_bsr_period w) (pim_cand_rp_adv_timer w) (cand_rp_flag w) (static_rp_flag w)
    (cand_rp_adv_buffer w) (cand_rp_adv_insert w) (cand_rp_adv_size w) (segmented_cand_rp_list w)
    (segmented_grp_mask_list w) (pim_hello_period w) (pim_hello_holdtime w) (pim_join_prune_period
    w) (pim_join_prune_holdtime w) (pim_data_timeout w) (pim6_send_buf w) (sent w) (randoms w)
    (build_jp_message_pool w) (build_jp_message_pool_counter w) (timer_interval w)
    (pim_register_suppression_timeout w) (pim_register_probe_time w) (pim_assert_timeout w)
    (unicast_routing_timer w) (unicast_routing_check_interval w) (pim_data_rate_timer w)
    (pim_data_rate_check_interval w) (pim_data_rate_bytes w) (pim_reg_rate_timer w)
    (pim_reg_rate_check_interval w) (pim_reg_rate_bytes w) (sg_counts w).
Definition set_my_bsr_period (v : Z) (w : Vars) : Vars :=
mkVars (my_bsr_address w) (my_bsr_priority w) (my_bsr_hash_mask w) (cand_bsr_flag w)
    (curr_bsr_address w) (curr_bsr_priority w) (curr_bsr_fragment_tag w) (curr_bsr_hash_mask w)
    (pim_bootstrap_timer w) (my_cand_rp_address w) (my_cand_rp_priority w) (my_cand_rp_holdtime w)
    (my_cand_rp_adv_period w) v (pim_cand_rp_adv_timer w) (cand_rp_flag w) (static_rp_flag w)
    (cand_rp_adv_buffer w) (cand_rp_adv_insert w) (cand_rp_adv_size w) (segmented_cand_rp_list w)
    (segmented_grp_mask_list w) (pim_hello_period w) (pim_hello_holdtime w) (pim_join_prune_period
    w) (pim_join_prune_holdtime w) (pim_data_timeout w) (pim6_send_buf w) (sent w) (randoms w)
    (build_jp_message_pool w) (build_jp_message_pool_counter w) (timer_interval w)
    (pim_register_suppression_timeout w) (pim_register_probe_time w) (pim_assert_timeout w)
    (unicast_routing_timer w) (unicast_routing_check_interval w) (pim_data_rate_timer w)
    (pim_data_rate_check_interval w) (pim_data_rate_bytes w) (pim_reg_rate_timer w)
    (pim_reg_rate_check_interval w) (pim_reg_rate_bytes w) (sg_counts w).
Definition set_pim_cand_rp_adv_timer (v : Z) (w : Vars) : Vars :=
mkVars (my_bsr_address w) (my_bsr_priority w) (my_bsr_hash_mask w) (cand_bsr_flag w)
    (curr_bsr_address w) (curr_bsr_priority w) (curr_bsr_fragment_tag w) (curr_bsr_hash_mask w)
    (pim_bootstrap_timer w) (my_cand_rp_address w) (my_cand_rp_priority w) (my_cand_rp_holdtime w)
    (my_cand_rp_adv_period w) (my_bsr_period w) v (cand_rp_flag w) (static_rp_flag w)
    (cand_rp_adv_buffer w) (cand_rp_adv_insert w) (cand_rp_adv_size w) (segmented_cand_rp_list w)
    (segmented_grp_mask_list w) (pim_hello_period w) (pim_hello_holdtime w) (pim_join_prune_period
    w) (pim_join_prune_holdtime w) (pim_data_timeout w) (pim6_send_buf w) (sent w) (randoms w)
    (build_jp_message_pool w) (build_jp_message_pool_counter w) (timer_interval w)
    (pim_register_suppression_timeout w) (pim_register_probe_time w) (pim_assert_timeout w)
    (unicast_routing_timer w) (unicast_routing_check_interval w) (pim_data_rate_timer w)
    (pim_data_rate_check_interval w) (pim_data_rate_bytes w) (pim_reg_rate_timer w)
    (pim_reg_rate_check_interval w) (pim_reg_rate_bytes w) (sg_counts w).
Definition set_cand_rp_flag (v : bool) (w : Vars) : Vars :=
mkVars (my_bsr_address w) (my_bsr_priority w) (my_bsr_hash_mask w) (cand_bsr_flag w)
    (curr_bsr_address w) (curr_bsr_priority w) (curr_bsr_fragment_tag w) (curr_bsr_hash_mask w)
    (pim_bootstrap_timer w) (my_cand_rp_address w) (my_cand_rp_priority w) (my_cand_rp_holdtime w)
    (my_cand_rp_adv_period w) (my_bsr_period w) (pim_cand_rp_adv_timer w) v (static_rp_flag w)
    (cand_rp_adv_buffer w) (cand_rp_adv_insert w) (cand_rp_adv_size w) (segmented_cand_rp_list w)
    (segmented_grp_mask_list w) (pim_hello_period w) (pim_hello_holdtime w) (pim_join_prune_period
    w) (pim_join_prune_holdtime w) (pim_data_timeout w) (pim6_send_buf w) (sent w) (randoms w)
    (build_jp_message_pool w) (build_jp_message_pool_counter w) (timer_interval w)
    (pim_register_suppression_timeout w) (pim_register_probe_time w) (pim_assert_timeout w)
    (unicast_routing_timer w) (unicast_routing_check_interval w) (pim_data_rate_timer w)
    (pim_data_rate_check_interval w) (pim_data_rate_bytes w) (pim_reg_rate_timer w)
    (pim_reg_rate_check_interval w) (pim_reg_rate_bytes w) (sg_counts w).
Definition set_static_rp_flag (v : bool) (w : Vars) : Vars :=
mkVars (my_bsr_address w) (my_bsr_priority w) (my_bsr_hash_mask w) (cand_bsr_flag w)
    (curr_bsr_address w) (curr_bsr_priority w) (curr_bsr_fragment_tag w) (curr_bsr_hash_mask w)
    (pim_bootstrap_timer w) (my_cand_rp_address w) (my_cand_rp_priority w) (my_cand_rp_holdtime w)
    (my_cand_rp_adv_period w) (my_bsr_period w) (pim_cand_rp_adv_timer w) (cand_rp_flag w) v
    (cand_rp_adv_buffer w) (cand_rp_adv_insert w) (cand_rp_adv_size w) (segmented_cand_rp_list w)
    (segmented_grp_mask_list w) (pim_hello_period w) (pim_hello_holdtime w) (pim_join_prune_period
    w) (pim_join_prune_holdtime w) (pim_data_timeout w) (pim6_send_buf w) (sent w) (randoms w)
    (build_jp_message_pool w) (build_jp_message_pool_counter w) (timer_interval w)
    (pim_register_suppression_timeout w) (pim_register_probe_time w) (pim_assert_timeout w)
    (unicast_routing_timer w) (unicast_routing_check_interval w) (pim_data_rate_timer w)
    (pim_data_rate_check_interval w) (pim_data_rate_bytes w) (pim_reg_rate_timer w)
    (pim_reg_rate_check_interval w) (pim_reg_rate_bytes w) (sg_counts w).
Definition set_cand_rp_adv_buffer (v : list Z) (w : Vars) : Vars :=
mkVars (my_bsr_address w) (my_bsr_priority w) (my_bsr_hash_mask w) (cand_bsr_flag w)
    (curr_bsr_address w) (curr_bsr_priority w) (curr_bsr_fragment_tag w) (curr_bsr_hash_mask w)
    (pim_bootstrap_timer w) (my_cand_rp_address w) (my_cand_rp_priority w) (my_cand_rp_holdtime w)
    (my_cand_rp_adv_period w) (my_bsr_period w) (pim_cand_rp_adv_timer w) (cand_rp_flag w)
    (static_rp_flag w) v (cand_rp_adv_insert w) (cand_rp_adv_size w) (segmented_cand_rp_list w)
    (segmented_grp_mask_list w) (pim_hello_period w) (pim_hello_holdtime w) (pim_join_prune_period
    w) (pim_join_prune_holdtime w) (pim_data_timeout w) (pim6_send_buf w) (sent w) (randoms w)
    (build_jp_message_pool w) (build_jp_message_pool_counter w) (timer_interval w)
    (pim_register_suppression_timeout w) (pim_register_probe_time w) (pim_assert_timeout w)
    (unicast_routing_timer w) (unicast_routing_check_interval w) (pim_data_rate_timer w)
    (pim_data_rate_check_interval w) (pim_data_rate_bytes w) (pim_reg_rate_timer w)
    (pim_reg_rate_check_interval w) (pim_reg_rate_bytes w) (sg_counts w).
Definition set_cand_rp_adv_insert (v : Z) (w : Vars) : Vars :=
mkVars (my_bsr_address w) (my_bsr_priority w) (my_bsr_hash_mask w) (cand_bsr_flag w)
    (curr_bsr_address w) (curr_bsr_priority w) (curr_bsr_fragment_tag w) (curr_bsr_hash_mask w)
    (pim_bootstrap_timer w) (my_cand_rp_address w) (my_cand_rp_priority w) (my_cand_rp_holdtime w)
    (my_cand_rp_adv_period w) (my_bsr_period w) (pim_cand_rp_adv_timer w) (cand_rp_flag w)
    (static_rp_flag w) (cand_rp_adv_buffer w) v (cand_rp_adv_size w) (segmented_cand_rp_list w)
    (segmented_grp_mask_list w) (pim_hello_period w) (pim_hello_holdtime w) (pim_join_prune_period
    w) (pim_join_prune_holdtime w) (pim_data_timeout w) (pim6_send_buf w) (sent w) (randoms w)
    (build_jp_message_pool w) (build_jp_message_pool_counter w) (timer_interval w)
    (pim_register_suppression_timeout w) (pim_register_probe_time w) (pim_assert_timeout w)
    (unicast_routing_timer w) (unicast_routing_check_interval w) (pim_data_rate_timer w)
    (pim_data_rate_check_interval w) (pim_data_rate_bytes w) (pim_reg_rate_timer w)
    (pim_reg_rate_check_interval w) (pim_reg_rate_bytes w) (sg_counts w).
Definition set_cand_rp_adv_size (v : Z) (w : Vars) : Vars :=
mkVars (my_bsr_address w) (my_bsr_priority w) (my_bsr_hash_mask w) (cand_bsr_flag w)
    (curr_bsr_address w) (curr_bsr_priority w) (curr_bsr_fragment_tag w) (curr_bsr_hash_mask w)
    (pim_bootstrap_timer w) (my_cand_rp_address w) (my_cand_rp_priority w) (my_cand_rp_holdtime w)
    (my_cand_rp_adv_period w) (my_bsr_period w) (pim_cand_rp_adv_timer w) (cand_rp_flag w)
    (static_rp_flag w) (cand_rp_adv_buffer w) (cand_rp_adv_insert w) v (segmented_cand_rp_list w)
    (segmented_grp_mask_list w) (pim_hello_period w) (pim_hello_holdtime w) (pim_join_prune_period
    w) (pim_join_prune_holdtime w) (pim_data_timeout w) (pim6_send_buf w) (sent w) (randoms w)
    (build_jp_message_pool w) (build_jp_message_pool_counter w) (timer_interval w)
    (pim_register_suppression_timeout w) (pim_register_probe_time w) (pim_assert_timeout w)
    (unicast_routing_timer w) (unicast_routing_check_interval w) (pim_data_rate_timer w)
    (pim_data_rate_check_interval w) (pim_data_rate_bytes w) (pim_reg_rate_timer w)
    (pim_reg_rate_check_interval w) (pim_reg_rate_bytes w) (sg_counts w).
Definition set_segmented_cand_rp_list (v : ptr) (w : Vars) : Vars :=
mkVars (my_bsr_address w) (my_bsr_priority w) (my_bsr_hash_mask w) (cand_bsr_flag w)
    (curr_bsr_address w) (curr_bsr_priority w) (curr_bsr_fragment_tag w) (curr_bsr_hash_mask w)
    (pim_bootstrap_timer w) (my_cand_rp_address w) (my_cand_rp_priority w) (my_cand_rp_holdtime w)
    (my_cand_rp_adv_period w) (my_bsr_period w) (pim_cand_rp_adv_timer w) (cand_rp_flag w)
    (static_rp_flag w) (cand_rp_adv_buffer w) (cand_rp_adv_insert w) (cand_rp_adv_size w) v
    (segmented_grp_mask_list w) (pim_hello_period w) (pim_hello_holdtime w) (pim_join_prune_period
    w) (pim_join_prune_holdtime w) (pim_data_timeout w) (pim6_send_buf w) (sent w) (randoms w)
    (build_jp_message_pool w) (build_jp_message_pool_counter w) (timer_interval w)
    (pim_register_suppression_timeout w) (pim_register_probe_time w) (pim_assert_timeout w)
    (unicast_routing_timer w) (unicast_routing_check_interval w) (pim_data_rate_timer w)
    (pim_data_rate_check_interval w) (pim_data_rate_bytes w) (pim_reg_rate_timer w)
    (pim_reg_rate_check_interval w) (pim_reg_rate_bytes w) (sg_counts w).
Definition set_segmented_grp_mask_list (v : ptr) (w : Vars) : Vars :=
mkVars (my_bsr_address w) (my_bsr_priority w) (my_bsr_hash_mask w) (cand_bsr_flag w)
    (curr_bsr_address w) (curr_bsr_priority w) (curr_bsr_fragment_tag w) (curr_bsr_hash_mask w)
    (pim_bootstrap_timer w) (my_cand_rp_address w) (my_cand_rp_priority w) (my_cand_rp_holdtime w)
    (my_cand_rp_adv_period w) (my_bsr_period w) (pim_cand_rp_adv_timer w) (cand_rp_flag w)
    (static_rp_flag w) (cand_rp_adv_buffer w) (cand_rp_adv_insert w) (cand_rp_adv_size w)
    (segmented_cand_rp_list w) v (pim_hello_period w) (pim_hello_holdtime w) (pim_join_prune_period
    w) (pim_join_prune_holdtime w) (pim_data_timeout w) (pim6_send_buf w) (sent w) (randoms w)
    (build_jp_message_pool w) (build_jp_message_pool_counter w) (timer_interval w)
    (pim_register_suppression_timeout w) (pim_register_probe_time w) (pim_assert_timeout w)
    (unicast_routing_timer w) (unicast_routing_check_interval w) (pim_data_rate_timer w)
    (pim_data_rate_check_interval w) (pim_data_rate_bytes w) (pim_reg_rate_timer w)
    (pim_reg_rate_check_interval w) (pim_reg_rate_bytes w) (sg_counts w).
Definition set_pim_hello_period (v : Z) (w : Vars) : Vars :=
mkVars (my_bsr_address w) (my_bsr_priority w) (my_bsr_hash_mask w) (cand_bsr_flag w)
    (curr_bsr_address w) (curr_bsr_priority w) (curr_bsr_fragment_tag w) (curr_bsr_hash_mask w)
    (pim_bootstrap_timer w) (my_cand_rp_address w) (my_cand_rp_priority w) (my_cand_rp_holdtime w)
    (my_cand_rp_adv_period w) (my_bsr_period w) (pim_cand_rp_adv_timer w) (cand_rp_flag w)
    (static_rp_flag w) (cand_rp_adv_buffer w) (cand_rp_adv_insert w) (cand_rp_adv_size w)
    (segmented_cand_rp_list w) (segmented_grp_mask_list w) v (pim_hello_holdtime w)
    (pim_join_prune_period w) (pim_join_prune_holdtime w) (pim_data_timeout w) (pim6_send_buf w)
    (sent w) (randoms w) (build_jp_message_pool w) (build_jp_message_pool_counter w) (timer_interval
    w) (pim_register_suppression_timeout w) (pim_register_probe_time w) (pim_assert_timeout w)
    (unicast_routing_timer w) (unicast_routing_check_interval w) (pim_data_rate_timer w)
    (pim_data_rate_check_interval w) (pim_data_rate_bytes w) (pim_reg_rate_timer w)
    (pim_reg_rate_check_interval w) (pim_reg_rate_bytes w) (sg_counts w).
Definition set_pim_hello_holdtime (v : Z) (w : Vars) : Vars :=
mkVars (my_bsr_address w) (my_bsr_priority w) (my_bsr_hash_mask w) (cand_bsr_flag w)
    (curr_bsr_address w) (curr_bsr_priority w) (curr_bsr_fragment_tag w) (curr_bsr_hash_mask w)
    (pim_bootstrap_timer w) (my_cand_rp_address w) (my_cand_rp_priority w) (my_cand_rp_holdtime w)
    (my_cand_rp_adv_period w) (my_bsr_period w) (pim_cand_rp_adv_timer w) (cand_rp_flag w)
    (static_rp_flag w) (cand_rp_adv_buffer w) (cand_rp_adv_insert w) (cand_rp_adv_size w)
    (segmented_cand_rp_list w) (segmented_grp_mask_list w) (pim_hello_period w) v
    (pim_join_prune_period w) (pim_join_prune_holdtime w) (pim_data_timeout w) (pim6_send_buf w)
    (sent w) (randoms w) (build_jp_message_pool w) (build_jp_message_pool_counter w) (timer_interval
    w) (pim_register_suppression_timeout w) (pim_register_probe_time w) (pim_assert_timeout w)
    (unicast_routing_timer w) (unicast_routing_check_interval w) (pim_data_rate_timer w)
    (pim_data_rate_check_interval w) (pim_data_rate_bytes w) (pim_reg_rate_timer w)
    (pim_reg_rate_check_interval w) (pim_reg_rate_bytes w) (sg_counts w).
Definition set_pim_join_prune_period (v : Z) (w : Vars) : Vars :=
mkVars (my_bsr_address w) (my_bsr_priority w) (my_bsr_hash_mask w) (cand_bsr_flag w)
    (curr_bsr_address w) (curr_bsr_priority w) (curr_bsr_fragment_tag w) (curr_bsr_hash_mask w)
    (pim_bootstrap_timer w) (my_cand_rp_address w) (my_cand_rp_priority w) (my_cand_rp_holdtime w)
    (my_cand_rp_adv_period w) (my_bsr_period w) (pim_cand_rp_adv_timer w) (cand_rp_flag w)
    (static_rp_flag w) (cand_rp_adv_buffer w) (cand_rp_adv_insert w) (cand_rp_adv_size w)
    (segmented_cand_rp_list w) (segmented_grp_mask_list w) (pim_hello_period w) (pim_hello_holdtime
    w) v (pim_join_prune_holdtime w) (pim_data_timeout w) (pim6_send_buf w) (sent w) (randoms w)
    (build_jp_message_pool w) (build_jp_message_pool_counter w) (timer_interval w)
    (pim_register_suppression_timeout w) (pim_register_probe_time w) (pim_assert_timeout w)
    (unicast_routing_timer w) (unicast_routing_check_interval w) (pim_data_rate_timer w)
    (pim_data_rate_check_interval w) (pim_data_rate_bytes w) (pim_reg_rate_timer w)
    (pim_reg_rate_check_interval w) (pim_reg_rate_bytes w) (sg_counts w).
Definition set_pim_join_prune_holdtime (v : Z) (w : Vars) : Vars :=
mkVars (my_bsr_address w) (my_bsr_priority w) (my_bsr_hash_mask w) (cand_bsr_flag w)
    (curr_bsr_address w) (curr_bsr_priority w) (curr_bsr_fragment_tag w) (curr_bsr_hash_mask w)
    (pim_bootstrap_timer w) (my_cand_rp_address w) (my_cand_rp_priority w) (my_cand_rp_holdtime w)
    (my_cand_rp_adv_period w) (my_bsr_period w) (pim_cand_rp_adv_timer w) (cand_rp_flag w)
    (static_rp_flag w) (cand_rp_adv_buffer w) (cand_rp_adv_insert w) (cand_rp_adv_size w)
    (segmented_cand_rp_list w) (segmented_grp_mask_list w) (pim_hello_period w) (pim_hello_holdtime
    w) (pim_join_prune_period w) v (pim_data_timeout w) (pim6_send_buf w) (sent w) (randoms w)
    (build_jp_message_pool w) (build_jp_message_pool_counter w) (timer_interval w)
    (pim_register_suppression_timeout w) (pim_register_probe_time w) (pim_assert_timeout w)
    (unicast_routing_timer w) (unicast_routing_check_interval w) (pim_data_rate_timer w)
    (pim_data_rate_check_interval w) (pim_data_rate_bytes w) (pim_reg_rate_timer w)
    (pim_reg_rate_check_interval w) (pim_reg_rate_bytes w) (sg_counts w).
Definition set_pim_data_timeout (v : Z) (w : Vars) : Vars :=
mkVars (my_bsr_address w) (my_bsr_priority w) (my_bsr_hash_mask w) (cand_bsr_flag w)
    (curr_bsr_address w) (curr_bsr_priority w) (curr_bsr_fragment_tag w) (curr_bsr_hash_mask w)
    (pim_bootstrap_timer w) (my_cand_rp_address w) (my_cand_rp_priority w) (my_cand_rp_holdtime w)
    (my_cand_rp_adv_period w) (my_bsr_period w) (pim_cand_rp_adv_timer w) (cand_rp_flag w)
    (static_rp_flag w) (cand_rp_adv_buffer w) (cand_rp_adv_insert w) (cand_rp_adv_size w)
    (segmented_cand_rp_list w) (segmented_grp_mask_list w) (pim_hello_period w) (pim_hello_holdtime
    w) (pim_join_prune_period w) (pim_join_prune_holdtime w) v (pim6_send_buf w) (sent w) (randoms
    w) (build_jp_message_pool w) (build_jp_message_pool_counter w) (timer_interval w)
    (pim_register_suppression_timeout w) (pim_register_probe_time w) (pim_assert_timeout w)
    (unicast_routing_timer w) (unicast_routing_check_interval w) (pim_data_rate_timer w)
    (pim_data_rate_check_interval w) (pim_data_rate_bytes w) (pim_reg_rate_timer w)
    (pim_reg_rate_check_interval w) (pim_reg_rate_bytes w) (sg_counts w).
Definition set_pim6_send_buf (v : list Z) (w : Vars) : Vars :=
mkVars (my_bsr_address w) (my_bsr_priority w) (my_bsr_hash_mask w) (cand_bsr_flag w)
    (curr_bsr_address w) (curr_bsr_priority w) (curr_bsr_fragment_tag w) (curr_bsr_hash_mask w)
    (pim_bootstrap_timer w) (my_cand_rp_address w) (my_cand_rp_priority w) (my_cand_rp_holdtime w)
    (my_cand_rp_adv_period w) (my_bsr_period w) (pim_cand_rp_adv_timer w) (cand_rp_flag w)
    (static_rp_flag w) (cand_rp_adv_buffer w) (cand_rp_adv_insert w) (cand_rp_adv_size w)
    (segmented_cand_rp_list w) (segmented_grp_mask_list w) (pim_hello_period w) (pim_hello_holdtime
    w) (pim_join_prune_period w) (pim_join_prune_holdtime w) (pim_data_timeout w) v (sent w)
    (randoms w) (build_jp_message_pool w) (build_jp_message_pool_counter w) (timer_interval w)
    (pim_register_suppression_timeout w) (pim_register_probe_time w) (pim_assert_timeout w)
    (unicast_routing_timer w) (unicast_routing_check_interval w) (pim_data_rate_timer w)
    (pim_data_rate_check_interval w) (pim_data_rate_bytes w) (pim_reg_rate_timer w)
    (pim_reg_rate_check_interval w) (pim_reg_rate_bytes w) (sg_counts w).
Definition set_sent (v : list pim_packet) (w : Vars) : Vars :=
mkVars (my_bsr_address w) (my_bsr_priority w) (my_bsr_hash_mask w) (cand_bsr_flag w)
    (curr_bsr_address w) (curr_bsr_priority w) (curr_bsr_fragment_tag w) (curr_bsr_hash_mask w)
    (pim_bootstrap_timer w) (my_cand_rp_address w) (my_cand_rp_priority w) (my_cand_rp_holdtime w)
    (my_cand_rp_adv_period w) (my_bsr_period w) (pim_cand_rp_adv_timer w) (cand_rp_flag w)
    (static_rp_flag w) (cand_rp_adv_buffer w) (cand_rp_adv_insert w) (cand_rp_adv_size w)
    (segmented_cand_rp_list w) (segmented_grp_mask_list w) (pim_hello_period w) (pim_hello_holdtime
    w) (pim_join_prune_period w) (pim_join_prune_holdtime w) (pim_data_timeout w) (pim6_send_buf w)
    v (randoms w) (build_jp_message_pool w) (build_jp_message_pool_counter w) (timer_interval w)
    (pim_register_suppression_timeout w) (pim_register_probe_time w) (pim_assert_timeout w)
    (unicast_routing_timer w) (unicast_routing_check_interval w) (pim_data_rate_timer w)
    (pim_data_rate_check_interval w) (pim_data_rate_bytes w) (pim_reg_rate_timer w)
    (pim_reg_rate_check_interval w) (pim_reg_rate_bytes w) (sg_counts w).
Definition set_randoms (v : list Z) (w : Vars) : Vars :=
mkVars (my_bsr_address w) (my_bsr_priority w) (my_bsr_hash_mask w) (cand_bsr_flag w)
    (curr_bsr_address w) (curr_bsr_priority w) (curr_bsr_fragment_tag w) (curr_bsr_hash_mask w)
    (pim_bootstrap_timer w) (my_cand_rp_address w) (my_cand_rp_priority w) (my_cand_rp_holdtime w)
    (my_cand_rp_adv_period w) (my_bsr_period w) (pim_cand_rp_adv_timer w) (cand_rp_flag w)
    (static_rp_flag w) (cand_rp_adv_buffer w) (cand_rp_adv_insert w) (cand_rp_adv_size w)
    (segmented_cand_rp_list w) (segmented_grp_mask_list w) (pim_hello_period w) (pim_hello_holdtime
    w) (pim_join_prune_period w) (pim_join_prune_holdtime w) (pim_data_timeout w) (pim6_send_buf w)
    (sent w) v (build_jp_message_pool w) (build_jp_message_pool_counter w) (timer_interval w)
    (pim_register_suppression_timeout w) (pim_register_probe_time w) (pim_assert_timeout w)
    (unicast_routing_timer w) (unicast_routing_check_interval w) (pim_data_rate_timer w)
    (pim_data_rate_check_interval w) (pim_data_rate_bytes w) (pim_reg_rate_timer w)
    (pim_reg_rate_check_interval w) (pim_reg_rate_bytes w) (sg_counts w).
Definition set_build_jp_message_pool (v : list build_jp_message) (w : Vars) : Vars :=
mkVars (my_bsr_address w) (my_bsr_priority w) (my_bsr_hash_mask w) (cand_bsr_flag w)
    (curr_bsr_address w) (curr_bsr_priority w) (curr_bsr_fragment_tag w) (curr_bsr_hash_mask w)
    (pim_bootstrap_timer w) (my_cand_rp_address w) (my_cand_rp_priority w) (my_cand_rp_holdtime w)
    (my_cand_rp_adv_period w) (my_bsr_period w) (pim_cand_rp_adv_timer w) (cand_rp_flag w)
    (static_rp_flag w) (cand_rp_adv_buffer w) (cand_rp_adv_insert w) (cand_rp_adv_size w)
    (segmented_cand_rp_list w) (segmented_grp_mask_list w) (pim_hello_period w) (pim_hello_holdtime
    w) (pim_join_prune_period w) (pim_join_prune_holdtime w) (pim_data_timeout w) (pim6_send_buf w)
    (sent w) (randoms w) v (build_jp_message_pool_counter w) (timer_interval w)
    (pim_register_suppression_timeout w) (pim_register_probe_time w) (pim_assert_timeout w)
    (unicast_routing_timer w) (unicast_routing_check_interval w) (pim_data_rate_timer w)
    (pim_data_rate_check_interval w) (pim_data_rate_bytes w) (pim_reg_rate_timer w)
    (pim_reg_rate_check_interval w) (pim_reg_rate_bytes w) (sg_counts w).
Definition set_build_jp_message_pool_counter (v : Z) (w : Vars) : Vars :=
mkVars (my_bsr_address w) (my_bsr_priority w) (my_bsr_hash_mask w) (cand_bsr_flag w)
    (curr_bsr_address w) (curr_bsr_priority w) (curr_bsr_fragment_tag w) (curr_bsr_hash_mask w)
    (pim_bootstrap_timer w) (my_cand_rp_address w) (my_cand_rp_priority w) (my_cand_rp_holdtime w)
    (my_cand_rp_adv_period w) (my_bsr_period w) (pim_cand_rp_adv_timer w) (cand_rp_flag w)
    (static_rp_flag w) (cand_rp_adv_buffer w) (cand_rp_adv_insert w) (cand_rp_adv_size w)
    (segmented_cand_rp_list w) (segmented_grp_mask_list w) (pim_hello_period w) (pim_hello_holdtime
    w) (pim_join_prune_period w) (pim_join_prune_holdtime w) (pim_data_timeout w) (pim6_send_buf w)
    (sent w) (randoms w) (build_jp_message_pool w) v (timer_interval w)
    (pim_register_suppression_timeout w) (pim_register_probe_time w) (pim_assert_timeout w)
    (unicast_routing_timer w) (unicast_routing_check_interval w) (pim_data_rate_timer w)
    (pim_data_rate_check_interval w) (pim_data_rate_bytes w) (pim_reg_rate_timer w)
    (pim_reg_rate_check_interval w) (pim_reg_rate_bytes w) (sg_counts w).
Definition set_timer_interval (v : Z) (w : Vars) : Vars :=
mkVars (my_bsr_address w) (my_bsr_priority w) (my_bsr_hash_mask w) (cand_bsr_flag w)
    (curr_bsr_address w) (curr_bsr_priority w) (curr_bsr_fragment_tag w) (curr_bsr_hash_mask w)
    (pim_bootstrap_timer w) (my_cand_rp_address w) (my_cand_rp_priority w) (my_cand_rp_holdtime w)
    (my_cand_rp_adv_period w) (my_bsr_period w) (pim_cand_rp_adv_timer w) (cand_rp_flag w)
    (static_rp_flag w) (cand_rp_adv_buffer w) (cand_rp_adv_insert w) (cand_rp_adv_size w)
    (segmented_cand_rp_list w) (segmented_grp_mask_list w) (pim_hello_period w) (pim_hello_holdtime
    w) (pim_join_prune_period w) (pim_join_prune_holdtime w) (pim_data_timeout w) (pim6_send_buf w)
    (sent w) (randoms w) (build_jp_message_pool w) (build_jp_message_pool_counter w) v
    (pim_register_suppression_timeout w) (pim_register_probe_time w) (pim_assert_timeout w)
    (unicast_routing_timer w) (unicast_routing_check_interval w) (pim_data_rate_timer w)
    (pim_data_rate_check_interval w) (pim_data_rate_bytes w) (pim_reg_rate_timer w)
    (pim_reg_rate_check_interval w) (pim_reg_rate_bytes w) (sg_counts w).
Definition set_pim_register_suppression_timeout (v : Z) (w : Vars) : Vars :=
mkVars (my_bsr_address w) (my_bsr_priority w) (my_bsr_hash_mask w) (cand_bsr_flag w)
    (curr_bsr_address w) (curr_bsr_priority w) (curr_bsr_fragment_tag w) (curr_bsr_hash_mask w)
    (pim_bootstrap_timer w) (my_cand_rp_address w) (my_cand_rp_priority w) (my_cand_rp_holdtime w)
    (my_cand_rp_adv_period w) (my_bsr_period w) (pim_cand_rp_adv_timer w) (cand_rp_flag w)
    (static_rp_flag w) (cand_rp_adv_buffer w) (cand_rp_adv_insert w) (cand_rp_adv_size w)
    (segmented_cand_rp_list w) (segmented_grp_mask_list w) (pim_hello_period w) (pim_hello_holdtime
    w) (pim_join_prune_period w) (pim_join_prune_holdtime w) (pim_data_timeout w) (pim6_send_buf w)
    (sent w) (randoms w) (build_jp_message_pool w) (build_jp_message_pool_counter w) (timer_interval
    w) v (pim_register_probe_time w) (pim_assert_timeout w) (unicast_routing_timer w)
    (unicast_routing_check_interval w) (pim_data_rate_timer w) (pim_data_rate_check_interval w)
    (pim_data_rate_bytes w) (pim_reg_rate_timer w) (pim_reg_rate_check_interval w)
    (pim_reg_rate_bytes w) (sg_counts w).
Definition set_pim_register_probe_time (v : Z) (w : Vars) : Vars :=
mkVars (my_bsr_address w) (my_bsr_priority w) (my_bsr_hash_mask w) (cand_bsr_flag w)
    (curr_bsr_address w) (curr_bsr_priority w) (curr_bsr_fragment_tag w) (curr_bsr_hash_mask w)
    (pim_bootstrap_timer w) (my_cand_rp_address w) (my_cand_rp_priority w) (my_cand_rp_holdtime w)
    (my_cand_rp_adv_period w) (my_bsr_period w) (pim_cand_rp_adv_timer w) (cand_rp_flag w)
    (static_rp_flag w) (cand_rp_adv_buffer w) (cand_rp_adv_insert w) (cand_rp_adv_size w)
    (segmented_cand_rp_list w) (segmented_grp_mask_list w) (pim_hello_period w) (pim_hello_holdtime
    w) (pim_join_prune_period w) (pim_join_prune_holdtime w) (pim_data_timeout w) (pim6_send_buf w)
    (sent w) (randoms w) (build_jp_message_pool w) (build_jp_message_pool_counter w) (timer_interval
    w) (pim_register_suppression_timeout w) v (pim_assert_timeout w) (unicast_routing_timer w)
    (unicast_routing_check_interval w) (pim_data_rate_timer w) (pim_data_rate_check_interval w)
    (pim_data_rate_bytes w) (pim_reg_rate_timer w) (pim_reg_rate_check_interval w)
    (pim_reg_rate_bytes w) (sg_counts w).
Definition set_pim_assert_timeout (v : Z) (w : Vars) : Vars :=
mkVars (my_bsr_address w) (my_bsr_priority w) (my_bsr_hash_mask w) (cand_bsr_flag w)
    (curr_bsr_address w) (curr_bsr_priority w) (curr_bsr_fragment_tag w) (curr_bsr_hash_mask w)
    (pim_bootstrap_timer w) (my_cand_rp_address w) (my_cand_rp_priority w) (my_cand_rp_holdtime w)
    (my_cand_rp_adv_period w) (my_bsr_period w) (pim_cand_rp_adv_timer w) (cand_rp_flag w)
    (static_rp_flag w) (cand_rp_adv_buffer w) (cand_rp_adv_insert w) (cand_rp_adv_size w)
    (segmented_cand_rp_list w) (segmented_grp_mask_list w) (pim_hello_period w) (pim_hello_holdtime
    w) (pim_join_prune_period w) (pim_join_prune_holdtime w) (pim_data_timeout w) (pim6_send_buf w)
    (sent w) (randoms w) (build_jp_message_pool w) (build_jp_message_pool_counter w) (timer_interval
    w) (pim_register_suppression_timeout w) (pim_register_probe_time w) v (unicast_routing_timer w)
    (unicast_routing_check_interval w) (pim_data_rate_timer w) (pim_data_rate_check_interval w)
    (pim_data_rate_bytes w) (pim_reg_rate_timer w) (pim_reg_rate_check_interval w)
    (pim_reg_rate_bytes w) (sg_counts w).
Definition set_unicast_routing_timer (v : Z) (w : Vars) : Vars :=
mkVars (my_bsr_address w) (my_bsr_priority w) (my_bsr_hash_mask w) (cand_bsr_flag w)
    (curr_bsr_address w) (curr_bsr_priority w) (curr_bsr_fragment_tag w) (curr_bsr_hash_mask w)
    (pim_bootstrap_timer w) (my_cand_rp_address w) (my_cand_rp_priority w) (my_cand_rp_holdtime w)
    (my_cand_rp_adv_period w) (my_bsr_period w) (pim_cand_rp_adv_timer w) (cand_rp_flag w)
    (static_rp_flag w) (cand_rp_adv_buffer w) (cand_rp_adv_insert w) (cand_rp_adv_size w)
    (segmented_cand_rp_list w) (segmented_grp_mask_list w) (pim_hello_period w) (pim_hello_holdtime
    w) (pim_join_prune_period w) (pim_join_prune_holdtime w) (pim_data_timeout w) (pim6_send_buf w)
    (sent w) (randoms w) (build_jp_message_pool w) (build_jp_message_pool_counter w) (timer_interval
    w) (pim_register_suppression_timeout w) (pim_register_probe_time w) (pim_assert_timeout w) v
    (unicast_routing_check_interval w) (pim_data_rate_timer w) (pim_data_rate_check_interval w)
    (pim_data_rate_bytes w) (pim_reg_rate_timer w) (pim_reg_rate_check_interval w)
    (pim_reg_rate_bytes w) (sg_counts w).
Definition set_unicast_routing_check_interval (v : Z) (w : Vars) : Vars :=
mkVars (my_bsr_address w) (my_bsr_priority w) (my_bsr_hash_mask w) (cand_bsr_flag w)
    (curr_bsr_address w) (curr_bsr_priority w) (curr_bsr_fragment_tag w) (curr_bsr_hash_mask w)
    (pim_bootstrap_timer w) (my_cand_rp_address w) (my_cand_rp_priority w) (my_cand_rp_holdtime w)
    (my_cand_rp_adv_period w) (my_bsr_period w) (pim_cand_rp_adv_timer w) (cand_rp_flag w)
    (static_rp_flag w) (cand_rp_adv_buffer w) (cand_rp_adv_insert w) (cand_rp_adv_size w)
    (segmented_cand_rp_list w) (segmented_grp_mask_list w) (pim_hello_period w) (pim_hello_holdtime
    w) (pim_join_prune_period w) (pim_join_prune_holdtime w) (pim_data_timeout w) (pim6_send_buf w)
    (sent w) (randoms w) (build_jp_message_pool w) (build_jp_message_pool_counter w) (timer_interval
    w) (pim_register_suppression_timeout w) (pim_register_probe_time w) (pim_assert_timeout w)
    (unicast_routing_timer w) v (pim_data_rate_timer w) (pim_data_rate_check_interval w)
    (pim_data_rate_bytes w) (pim_reg_rate_timer w) (pim_reg_rate_check_interval w)
    (pim_reg_rate_bytes w) (sg_counts w).
Definition set_pim_data_rate_timer (v : Z) (w : Vars) : Vars :=
mkVars (my_bsr_address w) (my_bsr_priority w) (my_bsr_hash_mask w) (cand_bsr_flag w)
    (curr_bsr_address w) (curr_bsr_priority w) (curr_bsr_fragment_tag w) (curr_bsr_hash_mask w)
    (pim_bootstrap_timer w) (my_cand_rp_address w) (my_cand_rp_priority w) (my_cand_rp_holdtime w)
    (my_cand_rp_adv_period w) (my_bsr_period w) (pim_cand_rp_adv_timer w) (cand_rp_flag w)
    (static_rp_flag w) (cand_rp_adv_buffer w) (cand_rp_adv_insert w) (cand_rp_adv_size w)
    (segmented_cand_rp_list w) (segmented_grp_mask_list w) (pim_hello_period w) (pim_hello_holdtime
    w) (pim_join_prune_period w) (pim_join_prune_holdtime w) (pim_data_timeout w) (pim6_send_buf w)
    (sent w) (randoms w) (build_jp_message_pool w) (build_jp_message_pool_counter w) (timer_interval
    w) (pim_register_suppression_timeout w) (pim_register_probe_time w) (pim_assert_timeout w)
    (unicast_routing_timer w) (unicast_routing_check_interval w) v (pim_data_rate_check_interval w)
    (pim_data_rate_bytes w) (pim_reg_rate_timer w) (pim_reg_rate_check_interval w)
    (pim_reg_rate_bytes w) (sg_counts w).
Definition set_pim_data_rate_check_interval (v : Z) (w : Vars) : Vars :=
mkVars (my_bsr_address w) (my_bsr_priority w) (my_bsr_hash_mask w) (cand_bsr_flag w)
    (curr_bsr_address w) (curr_bsr_priority w) (curr_bsr_fragment_tag w) (curr_bsr_hash_mask w)
    (pim_bootstrap_timer w) (my_cand_rp_address w) (my_cand_rp_priority w) (my_cand_rp_holdtime w)
    (my_cand_rp_adv_period w) (my_bsr_period w) (pim_cand_rp_adv_timer w) (cand_rp_flag w)
    (static_rp_flag w) (cand_rp_adv_buffer w) (cand_rp_adv_insert w) (cand_rp_adv_size w)
    (segmented_cand_rp_list w) (segmented_grp_mask_list w) (pim_hello_period w) (pim_hello_holdtime
    w) (pim_join_prune_period w) (pim_join_prune_holdtime w) (pim_data_timeout w) (pim6_send_buf w)
    (sent w) (randoms w) (build_jp_message_pool w) (build_jp_message_pool_counter w) (timer_interval
    w) (pim_register_suppression_timeout w) (pim_register_probe_time w) (pim_assert_timeout w)
    (unicast_routing_timer w) (unicast_routing_check_interval w) (pim_data_rate_timer w) v
    (pim_data_rate_bytes w) (pim_reg_rate_timer w) (pim_reg_rate_check_interval w)
    (pim_reg_rate_bytes w) (sg_counts w).
Definition set_pim_data_rate_bytes (v : Z) (w : Vars) : Vars :=
mkVars (my_bsr_address w) (my_bsr_priority w) (my_bsr_hash_mask w) (cand_bsr_flag w)
    (curr_bsr_address w) (curr_bsr_priority w) (curr_bsr_fragment_tag w) (curr_bsr_hash_mask w)
    (pim_bootstrap_timer w) (my_cand_rp_address w) (my_cand_rp_priority w) (my_cand_rp_holdtime w)
    (my_cand_rp_adv_period w) (my_bsr_period w) (pim_cand_rp_adv_timer w) (cand_rp_flag w)
    (static_rp_flag w) (cand_rp_adv_buffer w) (cand_rp_adv_insert w) (cand_rp_adv_size w)
    (segmented_cand_rp_list w) (segmented_grp_mask_list w) (pim_hello_period w) (pim_hello_holdtime
    w) (pim_join_prune_period w) (pim_join_prune_holdtime w) (pim_data_timeout w) (pim6_send_buf w)
    (sent w) (randoms w) (build_jp_message_pool w) (build_jp_message_pool_counter w) (timer_interval
    w) (pim_register_suppression_timeout w) (pim_register_probe_time w) (pim_assert_timeout w)
    (unicast_routing_timer w) (unicast_routing_check_interval w) (pim_data_rate_timer w)
    (pim_data_rate_check_interval w) v (pim_reg_rate_timer w) (pim_reg_rate_check_interval w)
    (pim_reg_rate_bytes w) (sg_counts w).
Definition set_pim_reg_rate_timer (v : Z) (w : Vars) : Vars :=
mkVars (my_bsr_address w) (my_bsr_priority w) (my_bsr_hash_mask w) (cand_bsr_flag w)
    (curr_bsr_address w) (curr_bsr_priority w) (curr_bsr_fragment_tag w) (curr_bsr_hash_mask w)
    (pim_bootstrap_timer w) (my_cand_rp_address w) (my_cand_rp_priority w) (my_cand_rp_holdtime w)
    (my_cand_rp_adv_period w) (my_bsr_period w) (pim_cand_rp_adv_timer w) (cand_rp_flag w)
    (static_rp_flag w) (cand_rp_adv_buffer w) (cand_rp_adv_insert w) (cand_rp_adv_size w)
    (segmented_cand_rp_list w) (segmented_grp_mask_list w) (pim_hello_period w) (pim_hello_holdtime
    w) (pim_join_prune_period w) (pim_join_prune_holdtime w) (pim_data_timeout w) (pim6_send_buf w)
    (sent w) (randoms w) (build_jp_message_pool w) (build_jp_message_pool_counter w) (timer_interval
    w) (pim_register_suppression_timeout w) (pim_register_probe_time w) (pim_assert_timeout w)
    (unicast_routing_timer w) (unicast_routing_check_interval w) (pim_data_rate_timer w)
    (pim_data_rate_check_interval w) (pim_data_rate_bytes w) v (pim_reg_rate_check_interval w)
    (pim_reg_rate_bytes w) (sg_counts w).
Definition set_pim_reg_rate_check_interval (v : Z) (w : Vars) : Vars :=
mkVars (my_bsr_address w) (my_bsr_priority w) (my_bsr_hash_mask w) (cand_bsr_flag w)
    (curr_bsr_address w) (curr_bsr_priority w) (curr_bsr_fragment_tag w) (curr_bsr_hash_mask w)
    (pim_bootstrap_timer w) (my_cand_rp_address w) (my_cand_rp_priority w) (my_cand_rp_holdtime w)
    (my_cand_rp_adv_period w) (my_bsr_period w) (pim_cand_rp_adv_timer w) (cand_rp_flag w)
    (static_rp_flag w) (cand_rp_adv_buffer w) (cand_rp_adv_insert w) (cand_rp_adv_size w)
    (segmented_cand_rp_list w) (segmented_grp_mask_list w) (pim_hello_period w) (pim_hello_holdtime
    w) (pim_join_prune_period w) (pim_join_prune_holdtime w) (pim_data_timeout w) (pim6_send_buf w)
    (sent w) (randoms w) (build_jp_message_pool w) (build_jp_message_pool_counter w) (timer_interval
    w) (pim_register_suppression_timeout w) (pim_register_probe_time w) (pim_assert_timeout w)
    (unicast_routing_timer w) (unicast_routing_check_interval w) (pim_data_rate_timer w)
    (pim_data_rate_check_interval w) (pim_data_rate_bytes w) (pim_reg_rate_timer w) v
    (pim_reg_rate_bytes w) (sg_counts w).
Definition set_pim_reg_rate_bytes (v : Z) (w : Vars) : Vars :=
mkVars (my_bsr_address w) (my_bsr_priority w) (my_bsr_hash_mask w) (cand_bsr_flag w)
    (curr_bsr_address w) (curr_bsr_priority w) (curr_bsr_fragment_tag w) (curr_bsr_hash_mask w)
    (pim_bootstrap_timer w) (my_cand_rp_address w) (my_cand_rp_priority w) (my_cand_rp_holdtime w)
    (my_cand_rp_adv_period w) (my_bsr_period w) (pim_cand_rp_adv_timer w) (cand_rp_flag w)
    (static_rp_flag w) (cand_rp_adv_buffer w) (cand_rp_adv_insert w) (cand_rp_adv_size w)
    (segmented_cand_rp_list w) (segmented_grp_mask_list w) (pim_hello_period w) (pim_hello_holdtime
    w) (pim_join_prune_period w) (pim_join_prune_holdtime w) (pim_data_timeout w) (pim6_send_buf w)
    (sent w) (randoms w) (build_jp_message_pool w) (build_jp_message_pool_counter w) (timer_interval
    w) (pim_register_suppression_timeout w) (pim_register_probe_time w) (pim_assert_timeout w)
    (unicast_routing_timer w) (unicast_routing_check_interval w) (pim_data_rate_timer w)
    (pim_data_rate_check_interval w) (pim_data_rate_bytes w) (pim_reg_rate_timer w)
    (pim_reg_rate_check_interval w) v (sg_counts w).
Definition set_sg_counts (v : list (option Z)) (w : Vars) : Vars :=
mkVars (my_bsr_address w) (my_bsr_priority w) (my_bsr_hash_mask w) (cand_bsr_flag w)
    (curr_bsr_address w) (curr_bsr_priority w) (curr_bsr_fragment_tag w) (curr_bsr_hash_mask w)
    (pim_bootstrap_timer w) (my_cand_rp_address w) (my_cand_rp_priority w) (my_cand_rp_holdtime w)
    (my_cand_rp_adv_period w) (my_bsr_period w) (pim_cand_rp_adv_timer w) (cand_rp_flag w)
    (static_rp_flag w) (cand_rp_adv_buffer w) (cand_rp_adv_insert w) (cand_rp_adv_size w)
    (segmented_cand_rp_list w) (segmented_grp_mask_list w) (pim_hello_period w) (pim_hello_holdtime
    w) (pim_join_prune_period w) (pim_join_prune_holdtime w) (pim_data_timeout w) (pim6_send_buf w)
    (sent w) (randoms w) (build_jp_message_pool w) (build_jp_message_pool_counter w) (timer_interval
    w) (pim_register_suppression_timeout w) (pim_register_probe_time w) (pim_assert_timeout w)
    (unicast_routing_timer w) (unicast_routing_check_interval w) (pim_data_rate_timer w)
    (pim_data_rate_check_interval w) (pim_data_rate_bytes w) (pim_reg_rate_timer w)
    (pim_reg_rate_check_interval w) (pim_reg_rate_bytes w) v.

(** ** Memory operations *)

Class Heap (N : Type) := { heap : Pim -> gmap nat N; set_heap : gmap nat N -> Pim -> Pim }.
#[export] Instance heap_srcs : Heap srcentry := { heap := srcs; set_heap := set_srcs }.
#[export] Instance heap_crps : Heap cand_rp := { heap := crps; set_heap := set_crps }.
#[export] Instance heap_gmasks : Heap grp_mask := { heap := gmasks; set_heap := set_gmasks }.
#[export] Instance heap_rpgs : Heap rp_grp_entry := { heap := rpgs; set_heap := set_rpgs }.
#[export] Instance heap_grps : Heap grpentry := { heap := grps; set_heap := set_grps }.
#[export] Instance heap_mrts : Heap mrtentry := { heap := mrts; set_heap := set_mrts }.
#[export] Instance heap_caches : Heap kernel_cache := { heap := caches; set_heap := set_caches }.

(** What [p] points to. *)
Definition load {N} `{Heap N} (p : ptr) : Cmd Pim N :=
  fun s => match p ≫= fun i => heap s !! i with Some n => Ok n s | None => Stop OutOfBounds s end.

(** An assignment to what [p] points to. *)
Definition upd {N} `{Heap N} (p : ptr) (f : N -> N) : Cmd Pim unit :=
  fun s => match p with
           | Some i => match heap s !! i with
                       | Some n => Ok tt (set_heap (<[i := f n]> (heap s)) s)
                       | None => Stop OutOfBounds s
                       end
           | None => Stop OutOfBounds s
           end.

(** The same if [p] is not null. *)
Definition upd_if {N} `{Heap N} (p : ptr) (f : N -> N) : Cmd Pim unit :=
  match p with Some _ => upd p f | None => ret tt end.

(** Does the next call of malloc succeed? *)
Definition next_malloc : Cmd Pim bool :=
  fun s => match mallocs s with b :: ms => Ok b (set_mallocs ms s) | [] => Ok true s end.

(** [malloc], with the contents [n] of the new memory. *)
Definition malloc {N} `{Heap N} (n : N) : Cmd Pim ptr :=
  let! ok := next_malloc in
  if negb ok then ret None else
  fun s => Ok (Some (brk s)) (set_brk (S (brk s)) (set_heap (<[brk s := n]> (heap s)) s)).

Definition free_node (N : Type) `{Heap N} (p : ptr) : Cmd Pim unit :=
  fun s => match p with
           | Some i => match heap s !! i with
                       | Some _ => Ok tt (set_heap (delete i (heap s)) s)
                       | None => Stop OutOfBounds s
                       end
           | None => Ok tt s
           end.

Definition src : ptr -> Cmd Pim srcentry := load.
Definition crp : ptr -> Cmd Pim cand_rp := load.
Definition gmask : ptr -> Cmd Pim grp_mask := load.
Definition rpg : ptr -> Cmd Pim rp_grp_entry := load.
Definition grp : ptr -> Cmd Pim grpentry := load.
Definition mrt : ptr -> Cmd Pim mrtentry := load.
Definition cache : ptr -> Cmd Pim kernel_cache := load.

(** Steps enough to run down any list: no list has more nodes than addresses
    were given out. *)
Definition fuel_of (s : Pim) : nat := S (brk s).
