(* ===== verification/RpMatch.v ===== *)
(** * RpMatch: the RP of a group (rp.c, crc.c)

    [rp_grp_match] walks the prefixes that cover a group and their candidate
    RPs and keeps the best one: the smallest priority, then the smallest origin,
    then the largest value of a hash of group and RP, then the largest address.
    The lists are the linked structures of the heap. *)

From stdpp Require Import base list numbers gmap sorting.
From S2P Require Import Prelude Inet6 Pim Links.
Open Scope Z_scope.

(** ** crc.c; [unsigned long] has 32 bits *)

Definition crc_step (c : Z) : Z :=
  if decide (Z.land c 1 <> 0) then Z.lxor 0xedb88320 (Z.shiftr c 1) else Z.shiftr c 1.

(** The loop over [k] of [make_crc_table]. *)
Definition crc_entry (n : Z) : Z := Nat.iter 8 crc_step n.

Definition crc_table : list Z := crc_entry <$> seqZ 0 256.

Definition update_crc (crc : Z) (buf : list Z) : Z :=
  foldl (fun c b => Z.lxor (nth (Z.to_nat (Z.land (Z.lxor c b) 0xff)) crc_table 0) (Z.shiftr c 8)) crc buf.

Definition crc (buf : list Z) : Z := Z.lxor (update_crc 0xffffffff buf) 0xffffffff.

(** ** rp.c *)

Definition SEED1 : Z := 1103515245.
Definition SEED2 : Z := 12345.

Definition RP_HASH_VALUE2 (P C : Z) : Z :=
  u32 (SEED1 * Z.lxor (u32 (SEED1 * P + SEED2)) C + SEED2) mod 0x80000000.

(** [masked_grp], and the [prefix_h] of [rp_grp_match]. *)
Definition mask_addr (a mask : list Z) : list Z := zip_with Z.land a mask.

(** The best entry so far; before there is one its address is not set. *)
Record best := mkBest {
  best_entry : ptr;
  best_priority : Z;
  best_origin : Z;
  best_hash_value : Z;
  best_address_h : option sockaddr_in6
}.

Definition no_best : best := mkBest None 0xff 0xff 0 None.

Definition hash_value (group rp : sockaddr_in6) (hash_mask : list Z) : Z :=
  RP_HASH_VALUE2 (crc (mask_addr (sin6_addr group) hash_mask)) (crc (sin6_addr rp)).

(** The tests for the preferred entry; [best_address_h] is read when the hash
    values are the same. *)
Definition less_hash (b : best) (curr_hash_value : Z) (curr_address_h : sockaddr_in6) : Cmd Pim bool :=
  if decide (curr_hash_value < best_hash_value b) then ret true
  else if decide (curr_hash_value = best_hash_value b) then
    chk! best_address_h := best_address_h b in ret (inet6_lessthan curr_address_h best_address_h)
  else ret false.

(** The loop over the RPs of a prefix. *)
Fixpoint grp_rp_loop (fuel : nat) (group : sockaddr_in6) (hash_mask : list Z) (grp_rp_entry_ptr : ptr)
    (b : best) : Cmd Pim best :=
  match fuel with
  | O => halt OutOfFuel
  | S fuel =>
    match grp_rp_entry_ptr with
    | None => ret b
    | Some _ =>
        let! e := rpg grp_rp_entry_ptr in
        if decide (best_priority b < rg_priority e) then ret b
        else if decide (best_priority b = rg_priority e /\ best_origin b < rg_origin e) then ret b
        else
          let! rp := crp (rg_rp e) in
          let! rpentry := src (c_rpentry rp) in
          let curr_address_h := s_address rpentry in
          let curr_hash_value := hash_value group curr_address_h hash_mask in
          let! worse := (if decide (best_priority b = rg_priority e /\ best_origin b = rg_origin e)
                         then less_hash b curr_hash_value curr_address_h else ret false) in
          grp_rp_loop fuel group hash_mask (grp_rp_next e)
            (if worse : bool then b
             else mkBest grp_rp_entry_ptr (rg_priority e) (rg_origin e) curr_hash_value (Some curr_address_h))
    end
  end.

(** The comparison of the prefixes, with the scopes set to 0. *)
Definition covers (group : sockaddr_in6) (m : grp_mask) : bool :=
  inet6_equal (mkSa 0 (mask_addr (sin6_addr group) (gm_group_mask m)))
              (mkSa 0 (mask_addr (sin6_addr (gm_group_addr m)) (gm_group_mask m))).

(** The loop over the prefixes. *)
Fixpoint grp_mask_loop (fuel : nat) (group : sockaddr_in6) (grp_mask_ptr : ptr) (b : best) : Cmd Pim best :=
  match fuel with
  | O => halt OutOfFuel
  | S fuel =>
    match grp_mask_ptr with
    | None => ret b
    | Some _ =>
        let! m := gmask grp_mask_ptr in
        let! s := get in
        let! b := (if covers group m
                   then grp_rp_loop (fuel_of s) group (gm_hash_mask m) (gm_grp_rp_next m) b
                   else ret b) in
        grp_mask_loop fuel group (gm_next m) b
    end
  end.

Definition rp_grp_match (group : sockaddr_in6) : Cmd Pim ptr :=
  let! s := get in
  let! b := grp_mask_loop (fuel_of s) group (grp_mask_list s) no_best in
  ret (best_entry b).

Definition rp_match (group : sockaddr_in6) : Cmd Pim ptr :=
  let! rp_grp_entry_ptr := rp_grp_match group in
  match rp_grp_entry_ptr with
  | Some _ =>
      let! e := rpg rp_grp_entry_ptr in
      let! c := crp (rg_rp e) in
      ret (c_rpentry c)
  | None => ret None
  end.

Fixpoint rp_find_loop (fuel : nat) (rp_address : sockaddr_in6) (cand_rp_ptr : ptr) : Cmd Pim ptr :=
  match fuel with
  | O => halt OutOfFuel
  | S fuel =>
    match cand_rp_ptr with
    | None => ret None
    | Some _ =>
        let! c := crp cand_rp_ptr in
        let! e := src (c_rpentry c) in
        if inet6_greaterthan (s_address e) rp_address then rp_find_loop fuel rp_address (c_next c)
        else if inet6_equal (s_address e) rp_address then ret (c_rpentry c)
        else ret None
    end
  end.

Definition rp_find (rp_address : sockaddr_in6) : Cmd Pim ptr :=
  let! s := get in rp_find_loop (fuel_of s) rp_address (cand_rp_list s).

(** ** The RP-set on the heap *)

Definition gm_link (s : Pim) (i : nat) : option (link * link) :=
  (fun m => (gm_next m, gm_prev m)) <$> gmasks s !! i.
Definition grp_rp_link (s : Pim) (i : nat) : option (link * link) :=
  (fun e => (grp_rp_next e, grp_rp_prev e)) <$> rpgs s !! i.

(** What an entry of the RP-set says, wherever it lies in memory. *)
Record offer := mkOffer {
  o_prefix : list Z; o_mask : list Z; o_hash_mask : list Z;
  o_rp : sockaddr_in6; o_priority : Z; o_origin : Z
}.

Definition offer_ok (o : offer) : Prop :=
  sa_ok (o_rp o) /\ is_byte (o_priority o) /\ 0 <= o_origin o < 255.

(** Entry [r] of prefix [m] makes offer [o]. *)
Definition makes (s : Pim) (m : grp_mask) (r : nat) (o : offer) : Prop :=
  exists e c n, rpgs s !! r = Some e /\ (rg_rp e ≫= fun i => crps s !! i) = Some c /\
    (c_rpentry c ≫= fun i => srcs s !! i) = Some n /\
    o = mkOffer (sin6_addr (gm_group_addr m)) (gm_group_mask m) (gm_hash_mask m)
          (s_address n) (rg_priority e) (rg_origin e).

(** The order of the entries of a prefix. *)
Definition rank_major (o : offer) : Z := o_priority o * 256 + o_origin o.

(** Every prefix with its entries and their offers. *)
Definition rp_set : Type := list (nat * list (nat * offer)).

Record rp_rep (s : Pim) (L : rp_set) : Prop := {
  rr_masks : dlist (gm_link s) (grp_mask_list s) (L.*1);
  rr_entries : Forall (fun x => exists m, gmasks s !! x.1 = Some m /\
    dlist (grp_rp_link s) (gm_grp_rp_next m) (x.2.*1) /\
    Forall (fun y => makes s m y.1 y.2 /\ offer_ok y.2) x.2 /\
    StronglySorted (fun y y' => rank_major y.2 <= rank_major y'.2) x.2) L;
  rr_brk : map_Forall (fun i _ => (i < brk s)%nat) (gmasks s) /\
           map_Forall (fun i _ => (i < brk s)%nat) (rpgs s)
}.

(** The offers for a group. *)
Definition o_covers (group : sockaddr_in6) (o : offer) : bool :=
  bool_decide (mask_addr (sin6_addr group) (o_mask o) = mask_addr (o_prefix o) (o_mask o)).

Definition offers (L : rp_set) : list offer := (concat (L.*2)).*2.

(** *** The best offer *)

Definition o_hash (group : sockaddr_in6) (o : offer) : Z := hash_value group (o_rp o) (o_hash_mask o).

(** Better offers have smaller ranks. *)
Definition rank (group : sockaddr_in6) (o : offer) : Z :=
  (rank_major o * 2 ^ 31 + (2 ^ 31 - 1 - o_hash group o)) * 2 ^ 160 + (2 ^ 160 - 1 - key (o_rp o)).

Lemma hash_range group rp hm : 0 <= hash_value group rp hm < 2 ^ 31.
Proof. unfold hash_value, RP_HASH_VALUE2. change 0x80000000 with (2 ^ 31). apply Z.mod_pos_bound. lia. Qed.

Lemma key_bounds sa : sa_ok sa -> 0 <= key sa < 2 ^ 160.
Proof. intros H. pose proof (key_range sa H). destruct H as [H _]. unfold key. nia. Qed.

Lemma rank_le group o o' : offer_ok o -> offer_ok o' -> rank group o <= rank group o' <->
  rank_major o < rank_major o' \/ (rank_major o = rank_major o' /\
    (o_hash group o > o_hash group o' \/ (o_hash group o = o_hash group o' /\ key (o_rp o) >= key (o_rp o')))).
Proof.
  intros (A & _) (A' & _). pose proof (key_bounds _ A). pose proof (key_bounds _ A').
  pose proof (hash_range group (o_rp o) (o_hash_mask o)). pose proof (hash_range group (o_rp o') (o_hash_mask o')).
  unfold rank, o_hash in *. nia.
Qed.

Lemma rank_major_eq o o' : offer_ok o -> offer_ok o' -> rank_major o = rank_major o' <->
  o_priority o = o_priority o' /\ o_origin o = o_origin o'.
Proof. intros (_ & P & O) (_ & P' & O'). unfold rank_major, is_byte in *. lia. Qed.

Lemma rank_major_lt o o' : offer_ok o -> offer_ok o' -> rank_major o < rank_major o' <->
  o_priority o < o_priority o' \/ (o_priority o = o_priority o' /\ o_origin o < o_origin o').
Proof. intros (_ & P & O) (_ & P' & O'). unfold rank_major, is_byte in *. lia. Qed.

Lemma rank_eq_rp group o o' : offer_ok o -> offer_ok o' -> rank group o = rank group o' -> o_rp o = o_rp o'.
Proof.
  intros Ho Ho' E. pose proof (proj1 (rank_le group o o' Ho Ho') ltac:(lia)).
  pose proof (proj1 (rank_le group o' o Ho' Ho) ltac:(lia)). apply key_inj; [apply Ho|apply Ho'|lia].
Qed.

(** ** The loops keep the best offer *)

Definition best_of (group : sockaddr_in6) (i : nat) (o : offer) : best :=
  mkBest (Some i) (o_priority o) (o_origin o) (o_hash group o) (Some (o_rp o)).

Definition is_best (group : sockaddr_in6) (seen : list (nat * offer)) (b : best) : Prop :=
  match best_entry b with
  | None => seen = [] /\ b = no_best
  | Some i => exists o, (i, o) ∈ seen /\ b = best_of group i o /\
      Forall (fun y => offer_ok y.2 /\ rank group o <= rank group y.2) seen
  end.

Lemma is_best_seen group seen b : is_best group seen b -> Forall (fun y => offer_ok y.2) seen.
Proof.
  unfold is_best. destruct (best_entry b); [|by intros [-> _]; constructor].
  intros (o & _ & _ & F). eapply Forall_impl; [exact F|]. by intros y [].
Qed.

(** A worse offer changes nothing. *)
Lemma is_best_keep group seen i o y : is_best group seen (best_of group i o) -> (i, o) ∈ seen ->
  offer_ok y.2 -> rank group o <= rank group y.2 -> is_best group (seen ++ [y]) (best_of group i o).
Proof.
  intros B Hi Hy R. assert (O := is_best_seen _ _ _ B). destruct B as (o' & Hi' & E & F).
  assert (offer_ok o) as Ho by (apply (proj1 (Forall_forall _ _) O (i, o) Hi)).
  assert (R' : rank group o' = rank group o).
  { injection E as E1 E2 E3 E4. unfold rank, rank_major, best_of in *. by rewrite E1, E2, E3, E4. }
  exists o. split; [apply elem_of_app; by left|]. split; [done|]. apply Forall_app. split.
  - eapply Forall_impl; [exact F|]. cbn. intros z [Z1 Z2]. split; [done|lia].
  - by apply Forall_singleton.
Qed.

Lemma is_best_new group seen i o b : is_best group seen b -> offer_ok o ->
  (forall j p, (j, p) ∈ seen -> b = best_of group j p -> rank group o <= rank group p) ->
  is_best group (seen ++ [(i, o)]) (best_of group i o).
Proof.
  intros B Ho R. exists o. split; [apply elem_of_app; right; by left|]. split; [done|].
  apply Forall_app. split; [|apply Forall_singleton; split; [done|apply Z.le_refl]].
  unfold is_best in B. destruct (best_entry b) as [j|]; [|destruct B as [-> _]; constructor].
  destruct B as (p & Hp & Eb & F). specialize (R j p Hp Eb).
  eapply Forall_impl; [exact F|]. cbn. intros y [Y1 Y2]. split; [done|lia].
Qed.

Section Walk.
Context (s : Pim) (group : sockaddr_in6).

Lemma grp_rp_loop_spec m xs : forall fuel p q z seen b,
  dlseg (grp_rp_link s) p q (xs.*1) None z -> (length xs < fuel)%nat ->
  Forall (fun y => makes s m y.1 y.2 /\ offer_ok y.2) xs ->
  StronglySorted (fun y y' => rank_major y.2 <= rank_major y'.2) xs ->
  is_best group seen b ->
  exists b', grp_rp_loop fuel group (gm_hash_mask m) p b s = Ok b' s /\ is_best group (seen ++ xs) b'.
Proof.
  induction xs as [|[i o0] xs IH]; intros fuel p q z seen b D L F S B; (destruct fuel as [|fuel]; [cbn in L; lia|]).
  { destruct D as [-> _]. exists b. split; [done|]. by rewrite app_nil_r. }
  cbn [fmap list_fmap fst] in D. destruct D as (-> & n & Ei & D).
  apply Forall_cons in F as [[(e & c & r & E1 & E2 & E3 & Eo) Ho] F]. apply StronglySorted_inv in S as [S1 S2].
  cbn [snd fst] in *. subst o0. unfold grp_rp_link in Ei. rewrite E1 in Ei. injection Ei as <- <-.
  set (o := mkOffer _ _ _ _ _ _) in *.
  assert (Rest : forall b', is_best group (seen ++ [(i, o)]) b' ->
    exists b'', grp_rp_loop fuel group (gm_hash_mask m) (grp_rp_next e) b' s = Ok b'' s /\
      is_best group (seen ++ (i, o) :: xs) b'').
  { intros b' B'. destruct (IH fuel (grp_rp_next e) (Some i) z (seen ++ [(i, o)]) b') as (b'' & E & B'');
      [done|cbn in L; lia|done|done|done|]. exists b''. split; [done|]. by rewrite <- app_assoc in B''. }
  assert (Later : forall j p, (j, p) ∈ seen -> b = best_of group j p -> rank_major p < rank_major o ->
    is_best group (seen ++ (i, o) :: xs) b).
  { intros j p Hj -> R. assert (O := is_best_seen _ _ _ B). pose proof (proj1 (Forall_forall _ _) O _ Hj) as Hp. cbn in Hp.
    assert (G : forall ys seen', (forall y, y ∈ ys -> offer_ok y.2 /\ rank group p <= rank group y.2) -> (j, p) ∈ seen' ->
      is_best group seen' (best_of group j p) -> is_best group (seen' ++ ys) (best_of group j p)).
    { induction ys as [|y ys IHy]; intros seen' Hy Hs Bs; [by rewrite app_nil_r|].
      replace (seen' ++ y :: ys) with ((seen' ++ [y]) ++ ys) by (by rewrite <- app_assoc). apply IHy.
      - intros w Hw. apply Hy. by right.
      - apply elem_of_app. by left.
      - apply is_best_keep; [done|done|apply Hy; left|apply Hy; left]. }
    apply G; [|done|done]. intros y [->|Hy]%elem_of_cons.
    - split; [done|]. apply rank_le; [done|done|]. by left.
    - apply (proj1 (Forall_forall _ _) F) in Hy as Hy1. apply (proj1 (Forall_forall _ _) S2) in Hy as Hy2. cbn beta in Hy2. cbn [snd] in Hy2.
      split; [apply Hy1|]. apply rank_le; [done|apply Hy1|]. left. lia. }
  cbn [grp_rp_loop]. unfold bind at 1. unfold rpg, load. cbn [heap heap_rpgs mbind option_bind]. rewrite E1.
  unfold is_best in B. destruct (best_entry b) as [j|] eqn:Eb.
  - destruct B as (p & Hp & -> & FB). cbn [best_priority best_origin best_of].
    assert (Hpo : offer_ok p) by (apply (proj1 (Forall_forall _ _) FB (j, p) Hp)).
    pose proof (rank_major_lt p o Hpo Ho) as Lt. pose proof (rank_major_eq p o Hpo Ho) as Eq. cbn [o_priority o_origin o] in Lt, Eq.
    case_decide as D1; [exists (best_of group j p); split; [done|]; apply (Later j p); [done|done|tauto]|].
    case_decide as D2; [exists (best_of group j p); split; [done|]; apply (Later j p); [done|done|tauto]|].
    unfold bind at 1. unfold crp, load. cbn [heap heap_crps]. rewrite E2.
    unfold bind at 1. unfold src, load. cbn [heap heap_srcs]. rewrite E3.
    assert (B : is_best group seen (best_of group j p)) by (exists p; done).
    assert (New : rank group o <= rank group p -> is_best group (seen ++ [(i, o)]) (best_of group i o)).
    { intros R. eapply is_best_new; [exact B|done|]. intros j' p' Hp' E. injection E as _ X1 X2 X3 X4.
      replace (rank group p') with (rank group p); [done|]. unfold rank, rank_major. by rewrite X1, X2, X3, X4. }
    pose proof (rank_le group o p Ho Hpo) as Ro. pose proof (rank_le group p o Hpo Ho) as Rp.
    case_decide as D3.
    + destruct D3 as [D3 D4]. assert (Em : rank_major p = rank_major o) by (apply Eq; done).
      unfold less_hash. cbn [best_hash_value best_address_h best_of].
      change (hash_value group (s_address r) (gm_hash_mask m)) with (o_hash group o).
      case_decide as D5; [|case_decide as D6].
      * unfold bind at 1, ret at 1. apply Rest, is_best_keep; [done|done|done|]. apply Rp. right. split; [done|]. left. lia.
      * unfold bind at 1, of_option, bind at 1, ret at 1. rewrite lessthan_key by (apply Ho || apply Hpo).
        change (s_address r) with (o_rp o). case_bool_decide as D7.
        -- apply Rest, is_best_keep; [done|done|done|]. apply Rp. right. split; [done|]. right. lia.
        -- apply Rest, New. apply Ro. right. split; [done|]. right. lia.
      * unfold bind at 1, ret at 1. apply Rest, New. apply Ro. right. split; [done|]. left. lia.
    + unfold bind at 1, ret at 1. apply Rest, New. apply Ro. left. unfold rank_major, is_byte in *.
      destruct Ho as (_ & P1 & P2), Hpo as (_ & P3 & P4). cbn [o_priority o_origin o] in *. unfold is_byte in *. lia.
  - destruct B as [-> ->]. cbn [best_priority best_origin no_best]. destruct Ho as (Ho1 & Ho2 & Ho3).
    cbn [o_priority o_origin o_rp o] in Ho1, Ho2, Ho3. unfold is_byte in Ho2.
    rewrite !decide_False by lia.
    unfold bind at 1. unfold crp, load. cbn [heap heap_crps]. rewrite E2.
    unfold bind at 1. unfold src, load. cbn [heap heap_srcs]. rewrite E3.
    rewrite decide_False by lia. unfold bind at 1, ret at 1. apply Rest.
    apply (is_best_new group [] i o no_best); [done|done|]. intros ? ? N. by apply not_elem_of_nil in N.
Qed.
End Walk.

(** The entries for a group. *)
Definition candidates (group : sockaddr_in6) (L : rp_set) : list (nat * offer) :=
  List.filter (fun y => o_covers group y.2) (concat (L.*2)).

Lemma makes_covers s group m r o : makes s m r o -> o_covers group o = covers group m.
Proof.
  intros (e & c & n & _ & _ & _ & ->). unfold o_covers, covers. cbn.
  unfold inet6_equal. cbn. unfold IN6_ARE_ADDR_EQUAL. done.
Qed.

Lemma filter_makes s group m xs : Forall (fun y => makes s m y.1 y.2 /\ offer_ok y.2) xs ->
  List.filter (fun y => o_covers group y.2) xs = if covers group m then xs else [].
Proof.
  induction 1 as [|y xs [Hy _] _ IH]; cbn [List.filter]; [by destruct (covers group m)|].
  rewrite (makes_covers _ _ _ _ _ Hy), IH. by destruct (covers group m).
Qed.

Lemma dlseg_length k l p q n z : dlseg k p q l None z -> (forall i, is_Some (k i) -> (i < n)%nat) -> (length l <= n)%nat.
Proof.
  intros H B. pose proof (dlseg_NoDup _ _ _ _ _ H) as ND.
  assert (S : l ⊆+ seq 0 n); [|apply submseteq_length in S; by rewrite length_seq in S].
  apply NoDup_submseteq; [done|]. intros i Hi. apply elem_of_seq.
  apply list_elem_of_split in Hi as (l1 & l2 & ->). apply dlseg_app in H as (m & r & _ & -> & v & E & _).
  specialize (B i). rewrite E in B. specialize (B ltac:(done)). lia.
Qed.

Lemma grp_mask_loop_spec s group L : forall fuel p q z seen b,
  dlseg (gm_link s) p q (L.*1) None z -> (length L < fuel)%nat ->
  Forall (fun x => exists m, gmasks s !! x.1 = Some m /\
    dlist (grp_rp_link s) (gm_grp_rp_next m) (x.2.*1) /\
    Forall (fun y => makes s m y.1 y.2 /\ offer_ok y.2) x.2 /\
    StronglySorted (fun y y' => rank_major y.2 <= rank_major y'.2) x.2) L ->
  (forall i, is_Some (grp_rp_link s i) -> (i < brk s)%nat) ->
  is_best group seen b ->
  exists b', grp_mask_loop fuel group p b s = Ok b' s /\ is_best group (seen ++ candidates group L) b'.
Proof.
  induction L as [|[i xs] L IH]; intros fuel p q z seen b D Lf F Br B; (destruct fuel as [|fuel]; [cbn in Lf; lia|]).
  { destruct D as [-> _]. exists b. split; [done|]. by rewrite app_nil_r. }
  cbn [fmap list_fmap fst] in D. destruct D as (-> & n & Ei & D).
  apply Forall_cons in F as [(m & Em & Dm & Fm & Sm) F]. cbn [fst snd] in *.
  unfold gm_link in Ei. rewrite Em in Ei. injection Ei as <- <-.
  cbn [grp_mask_loop]. unfold bind at 1. unfold gmask, load. cbn [heap heap_gmasks mbind option_bind]. rewrite Em.
  rewrite get_bind. unfold candidates. cbn [fmap list_fmap snd concat]. rewrite List.filter_app, (filter_makes _ _ _ _ Fm).
  assert (Step : exists b', (if covers group m then grp_rp_loop (fuel_of s) group (gm_hash_mask m) (gm_grp_rp_next m) b
    else ret b) s = Ok b' s /\ is_best group (seen ++ if covers group m then xs else []) b').
  { destruct (covers group m); [|exists b; by rewrite app_nil_r].
    destruct Dm as [z' Dm]. eapply grp_rp_loop_spec; [exact Dm| |done|done|done].
    apply dlseg_length with (n := brk s) in Dm; [|done]. rewrite length_fmap in Dm. unfold fuel_of. lia. }
  destruct Step as (b' & Es & Bs). rewrite (bind_Ok _ _ _ _ _ Es).
  destruct (IH fuel (gm_next m) (Some i) z (seen ++ if covers group m then xs else []) b') as (b'' & E & B'');
    [done|cbn in Lf; lia|done|done|done|]. exists b''. split; [done|]. by rewrite <- app_assoc in B''.
Qed.

Lemma rp_grp_match_spec s L group : rp_rep s L ->
  exists b, rp_grp_match group s = Ok (best_entry b) s /\ is_best group (candidates group L) b.
Proof.
  intros [[z D] F [M1 M2]].
  assert (B1 : forall i, is_Some (gm_link s i) -> (i < brk s)%nat).
  { intros i [x Hx]. unfold gm_link in Hx. apply fmap_Some in Hx as (m & Em & _). by apply (M1 i m). }
  assert (B2 : forall i, is_Some (grp_rp_link s i) -> (i < brk s)%nat).
  { intros i [x Hx]. unfold grp_rp_link in Hx. apply fmap_Some in Hx as (m & Em & _). by apply (M2 i m). }
  destruct (grp_mask_loop_spec s group L (fuel_of s) (grp_mask_list s) None z [] no_best)
    as (b & E & H); [done| |done|done|done|].
  - apply dlseg_length with (n := brk s) in D; [|done]. rewrite length_fmap in D. unfold fuel_of. lia.
  - exists b. split; [|done]. unfold rp_grp_match. rewrite get_bind. by rewrite (bind_Ok _ _ _ _ _ E).
Qed.

(** ** Theorem *)

Definition rp_address (s : Pim) (r : ptr) : option sockaddr_in6 :=
  r ≫= fun i => rpgs s !! i ≫= fun e => rg_rp e ≫= fun i => crps s !! i ≫= fun c =>
  c_rpentry c ≫= fun i => s_address <$> srcs s !! i.

Lemma makes_address s m i o : makes s m i o -> rp_address s (Some i) = Some (o_rp o).
Proof.
  intros (e & c & n & E1 & E2 & E3 & ->). unfold rp_address. cbn. rewrite E1. cbn.
  destruct (rg_rp e) as [j|]; [|done]. cbn in *. rewrite E2. cbn.
  destruct (c_rpentry c) as [j'|]; [|done]. cbn in *. by rewrite E3.
Qed.

Lemma rep_makes s L i o : rp_rep s L -> (i, o) ∈ concat (L.*2) -> rp_address s (Some i) = Some (o_rp o) /\ offer_ok o.
Proof.
  intros [_ F _] H. rewrite list_elem_of_In, in_concat in H. destruct H as (xs & Hx & H). apply list_elem_of_In in H. apply in_map_iff in Hx as (x & <- & Hx). apply list_elem_of_In in Hx.
  apply (proj1 (Forall_forall _ _) F) in Hx as (m & _ & _ & Fm & _).
  apply (proj1 (Forall_forall _ _) Fm) in H as [H1 H2]. split; [by eapply makes_address|done].
Qed.

(** [o] is as good as [o'] or better: smaller priority, then smaller origin,
    then larger hash value, then larger address. *)
Definition preferred (group : sockaddr_in6) (o o' : offer) : Prop :=
  o_priority o < o_priority o' \/ (o_priority o = o_priority o' /\
  (o_origin o < o_origin o' \/ (o_origin o = o_origin o' /\
  (o_hash group o > o_hash group o' \/ (o_hash group o = o_hash group o' /\
   key (o_rp o) >= key (o_rp o')))))).

Lemma preferred_rank group o o' : offer_ok o -> offer_ok o' -> preferred group o o' <-> rank group o <= rank group o'.
Proof.
  intros H H'. rewrite rank_le by done. pose proof (rank_major_eq o o' H H'). pose proof (rank_major_lt o o' H H').
  unfold preferred. tauto.
Qed.

Lemma elem_of_candidates group L i o : (i, o) ∈ candidates group L <-> (i, o) ∈ concat (L.*2) /\ o_covers group o = true.
Proof.
  unfold candidates. by rewrite !list_elem_of_In, List.filter_In.
Qed.

Lemma elem_of_offers L o : o ∈ offers L <-> exists i, (i, o) ∈ concat (L.*2).
Proof.
  unfold offers. rewrite list_elem_of_fmap. split; [intros ([i p] & -> & H); by exists i|].
  intros [i H]. by exists (i, o).
Qed.

(** C11. Group-to-RP mapping: whatever the two routers' memories and the order
    in which they learned their RP-sets, if the sets hold the same offers then
    [rp_grp_match] ends in both without a bad access and they choose the same
    RP for the group; it is one whose offer covers the group and is preferred to
    all that do, and no RP is chosen exactly when no offer covers the group. *)
Theorem rp_selection s L s' L' group : rp_rep s L -> rp_rep s' L' ->
  (forall o, o ∈ offers L <-> o ∈ offers L') ->
  exists r r', rp_grp_match group s = Ok r s /\ rp_grp_match group s' = Ok r' s' /\
    rp_address s r = rp_address s' r' /\
    match r with
    | None => r' = None /\ forall o, o ∈ offers L -> o_covers group o = false
    | Some i => exists o, (i, o) ∈ concat (L.*2) /\ o_covers group o = true /\
        rp_address s r = Some (o_rp o) /\
        forall o', o' ∈ offers L -> o_covers group o' = true -> preferred group o o'
    end.
Proof.
  intros R R' Same. destruct (rp_grp_match_spec s L group R) as (b & E & B).
  destruct (rp_grp_match_spec s' L' group R') as (b' & E' & B'). exists (best_entry b), (best_entry b').
  split; [done|]. split; [done|].
  assert (Ok' : forall i o, (i, o) ∈ candidates group L -> exists j, (j, o) ∈ candidates group L').
  { intros i o [H C]%elem_of_candidates. destruct (proj1 (elem_of_offers L' o)) as [j Hj].
    - apply Same, elem_of_offers. by exists i.
    - exists j. by apply elem_of_candidates. }
  assert (Ko' : forall i o, (i, o) ∈ candidates group L' -> exists j, (j, o) ∈ candidates group L).
  { intros i o [H C]%elem_of_candidates. destruct (proj1 (elem_of_offers L o)) as [j Hj].
    - apply Same, elem_of_offers. by exists i.
    - exists j. by apply elem_of_candidates. }
  unfold is_best in B, B'. destruct (best_entry b) as [i|], (best_entry b') as [i'|].
  - destruct B as (o & Ho & _ & F), B' as (o' & Ho' & _ & F').
    rewrite Forall_forall in F, F'. destruct (Ok' _ _ Ho) as [j Hj], (Ko' _ _ Ho') as [j' Hj'].
    destruct (F _ Ho) as [O _], (F' _ Ho') as [O' _]. cbn in O, O'.
    pose proof (proj2 (F _ Hj')) as R1. pose proof (proj2 (F' _ Hj)) as R2. cbn [snd] in R1, R2.
    assert (Eq : o_rp o = o_rp o') by (apply (rank_eq_rp group); [done|done|lia]).
    apply elem_of_candidates in Ho as [Ho C], Ho' as [Ho' C'].
    destruct (rep_makes s L i o R Ho) as [A _], (rep_makes s' L' i' o' R' Ho') as [A' _].
    split; [by rewrite A, A', Eq|]. exists o. split_and!; [done|done|done|]. intros p Hp Cp.
    apply elem_of_offers in Hp as [k Hk]. apply preferred_rank; [done|apply (rep_makes s L k p R Hk)|].
    apply (F (k, p)). by apply elem_of_candidates.
  - destruct B as (o & Ho & _), B' as [N _]. destruct (Ok' _ _ Ho) as [j Hj]. rewrite N in Hj. by apply not_elem_of_nil in Hj.
  - destruct B' as (o & Ho & _), B as [N _]. destruct (Ko' _ _ Ho) as [j Hj]. rewrite N in Hj. by apply not_elem_of_nil in Hj.
  - split; [done|]. split; [done|]. destruct B as [N _]. intros o [k Hk]%elem_of_offers.
    destruct (o_covers group o) eqn:C; [|done]. exfalso. apply (not_elem_of_nil (k, o)). rewrite <- N.
    by apply elem_of_candidates.
Qed.

(** Two routers that learned the same RP-set: in the second the structures lie
    elsewhere.  The prefix ff0e::/16 has two candidate RPs of the same priority
    and one that is worse. *)
Definition ip6 (a : list Z) (b : Z) : sockaddr_in6 := mkSa 0 (a ++ replicate (15 - length a) 0 ++ [b]).

(** The variables of a router that is no candidate for anything. *)
Definition idle_vars : Vars :=
  let any := mkSa 0 in6addr_any in
  mkVars any 0 (replicate 16 0) false any 0 0 (replicate 16 0) 130 any 0 0 0 0 0 false false [] 0 0 None None 30 105 60 210 210 [] [] []
    [] 0 5 60 5 180 20 20 30 20 100000 30 20 100000 [].

Definition rp_router (base : nat) : Pim :=
  let p i := Some (base + i)%nat in
  let rp a c := mkSrc None None (ip6 [0x20; 0x01] a) None 0 None 0 0 0 (p c) in
  let mask := replicate 2 0xff ++ replicate 14 0 in
  mkPim
    (list_to_map [((base + 0)%nat, rp 1 3%nat); ((base + 1)%nat, rp 2 4%nat); ((base + 2)%nat, rp 3 5%nat)])
    (list_to_map [((base + 3)%nat, mkCandRp (p 4%nat) None (p 6%nat) (p 0%nat));
                  ((base + 4)%nat, mkCandRp (p 5%nat) (p 3%nat) (p 7%nat) (p 1%nat));
                  ((base + 5)%nat, mkCandRp None (p 4%nat) (p 8%nat) (p 2%nat))])
    (list_to_map [((base + 9)%nat, mkGrpMask None None (p 6%nat) (ip6 [0xff; 0x0e] 0) mask mask 0 3)])
    (list_to_map [((base + 6)%nat, mkRpGrp None None (p 7%nat) None None 0 0 0 10 1 (p 9%nat) (p 3%nat));
                  ((base + 7)%nat, mkRpGrp None None (p 8%nat) (p 6%nat) None 0 0 0 10 1 (p 9%nat) (p 4%nat));
                  ((base + 8)%nat, mkRpGrp None None None (p 7%nat) None 0 0 0 20 1 (p 9%nat) (p 5%nat))])
    ∅ ∅ ∅ (base + 10)%nat [] None None (p 3%nat) (p 9%nat) [] [] 0 0 (ip6 [0xff; 0x30] 0) [] (fun a => (a, 0)) idle_vars.

Definition rp_offer (a prio : Z) : offer :=
  let mask := replicate 2 0xff ++ replicate 14 0 in
  mkOffer (sin6_addr (ip6 [0xff; 0x0e] 0)) mask mask (ip6 [0x20; 0x01] a) prio 1.

Definition rp_list (base : nat) : rp_set :=
  [((base + 9)%nat, [((base + 6)%nat, rp_offer 1 10); ((base + 7)%nat, rp_offer 2 10); ((base + 8)%nat, rp_offer 3 20)])].

Lemma rp_offer_ok a prio : is_byte a -> is_byte prio -> offer_ok (rp_offer a prio).
Proof.
  intros Ha Hp. split; [|split; [done|cbn; lia]]. split; [cbn; lia|]. split; [done|].
  cbn [sin6_addr o_rp rp_offer ip6 app length replicate Nat.sub].
  repeat (apply Forall_cons_2; [unfold is_byte in *; lia|]). apply Forall_nil_2.
Qed.

(** A concrete RP-set is what its list says. *)
Ltac prove_rp_rep :=
  split; [|apply Forall_singleton|];
  [eexists; cbn; split; [done|]; by eexists
  |eexists; split; [vm_compute; reflexivity|]; split; [eexists; cbn; repeat (split; [done|]; eexists; split; [done|]); done|];
   split; [|repeat (constructor; [|repeat (constructor; [vm_compute; discriminate|]); constructor]); constructor];
   repeat (apply Forall_cons_2; [split; [do 3 eexists; split_and!; vm_compute; reflexivity|apply rp_offer_ok; unfold is_byte; lia]|]);
   apply Forall_nil_2
  |split; apply (bool_decide_unpack _); vm_compute; exact I].

Lemma rp_router_rep base : base = 0%nat \/ base = 7%nat -> rp_rep (rp_router base) (rp_list base).
Proof. intros [-> | ->]; prove_rp_rep. Qed.

Lemma rp_selection_witness :
  let group := ip6 [0xff; 0x0e] 5 in
  (exists r r', rp_grp_match group (rp_router 0) = Ok r (rp_router 0) /\
    rp_grp_match group (rp_router 7) = Ok r' (rp_router 7) /\
    rp_address (rp_router 0) r = rp_address (rp_router 7) r' /\
    match r with
    | None => r' = None /\ forall o, o ∈ offers (rp_list 0) -> o_covers group o = false
    | Some i => exists o, (i, o) ∈ concat ((rp_list 0).*2) /\ o_covers group o = true /\
        rp_address (rp_router 0) r = Some (o_rp o) /\
        forall o', o' ∈ offers (rp_list 0) -> o_covers group o' = true -> preferred group o o'
    end) /\
  match rp_grp_match group (rp_router 0) with
  | Ok r _ => rp_address (rp_router 0) r = Some (ip6 [0x20; 0x01] 1)
  | _ => False
  end.
Proof.
  split; [|vm_compute; reflexivity].
  apply (rp_selection (rp_router 0) (rp_list 0) (rp_router 7) (rp_list 7)).
  - apply rp_router_rep. by left.
  - apply rp_router_rep. by right.
  - done.
Defined.
