(* ===== verification/Vif.v ===== *)
(** * Vif: interfaces and incoming routes of pim6sd (vif.c, route.c)

    The searches of the interface table, the sets of interfaces, and
    [set_incoming], which finds the interface and the neighbour toward a source
    or an RP.  [k_req_incoming], a question to the kernel, is the member [rpf]
    of the state. *)

From stdpp Require Import base list numbers gmap.
From S2P Require Import Prelude Inet6 Pim.
Open Scope Z_scope.

(** ** vif.h *)

Definition NO_VIF : Z := 64.
Definition MIFF_REGISTER : Z := 0x1.
Definition VIFF_DOWN : Z := 0x000100.
Definition VIFF_DISABLED : Z := 0x000200.
Definition VIFF_DR : Z := 0x040000.
Definition VIFF_POINT_TO_POINT : Z := 0x400000.

(** [flags & mask] as a condition. *)
Definition has (flags mask : Z) : bool := negb (Z.land flags mask =? 0).

(** A set of interfaces is a number whose bits are its members. *)
Definition IF_ISSET (i ifs : Z) : bool := Z.testbit ifs i.
Definition IF_SET (i ifs : Z) : Z := Z.setbit ifs i.
Definition IF_CLR (i ifs : Z) : Z := Z.clearbit ifs i.
Definition IF_ISEMPTY (ifs : Z) : bool := ifs =? 0.
Definition IF_SAME (a b : Z) : bool := a =? b.
Definition IF_MERGE (a b : Z) : Z := Z.lor a b.
Definition IF_CLR_MASK (ifs mask : Z) : Z := Z.ldiff ifs mask.

(** ** vif.c *)

Definition vif_forwarder (p1 p2 : Z) : bool := negb (Z.land p1 p2 =? 0).
Definition vif_and (p1 p2 : Z) : Z := Z.land p1 p2.
Definition vif_xor (p1 p2 : Z) : Z := Z.lxor p1 p2.

(** Interfaces the searches pass over. *)
Definition unusable (v : uvif) : bool := has (uv_flags v) (Z.lor VIFF_DISABLED (Z.lor VIFF_DOWN MIFF_REGISTER)).

(** The first answer of [f] to an address of a usable interface, from interface
    [vifi] on. *)
Fixpoint search_vifs (f : Z -> uvif -> phaddr -> option Z) (vifi : Z) (vs : list uvif) : Z :=
  match vs with
  | [] => NO_VIF
  | v :: vs =>
      if unusable v then search_vifs f (vifi + 1) vs
      else match list_find (fun p => is_Some (f vifi v p)) (uv_addrs v) with
           | Some (_, p) => default NO_VIF (f vifi v p)
           | None => search_vifs f (vifi + 1) vs
           end
  end.

Definition find_vif_direct (src : sockaddr_in6) (vs : list uvif) : Z :=
  search_vifs (fun vifi v p =>
    if inet6_equal src (pa_addr p) then Some NO_VIF
    else if has (uv_flags v) VIFF_POINT_TO_POINT && inet6_equal src (pa_rmt_addr p) then Some vifi
    else if inet6_match_prefix src (pa_prefix p) (pa_subnetmask p) then Some vifi
    else None) 0 vs.

Definition local_address (src : sockaddr_in6) (vs : list uvif) : Z :=
  search_vifs (fun vifi v p => if inet6_equal src (pa_addr p) then Some vifi else None) 0 vs.

Definition find_vif_direct_local (src : sockaddr_in6) (vs : list uvif) : Z :=
  search_vifs (fun vifi v p =>
    if inet6_equal src (pa_addr p) || inet6_match_prefix src (pa_prefix p) (pa_subnetmask p) then Some vifi
    else if has (uv_flags v) VIFF_POINT_TO_POINT && inet6_equal src (pa_rmt_addr p) then Some vifi
    else None) 0 vs.

Definition global_scope (p : phaddr) : bool :=
  negb (IN6_IS_ADDR_LINKLOCAL (sin6_addr (pa_addr p))) && negb (IN6_IS_ADDR_SITELOCAL (sin6_addr (pa_addr p))).

(** [pmax] along the addresses of an interface. *)
Definition max_step (pmax : option phaddr) (p : phaddr) : option phaddr :=
  match pmax with
  | None => if global_scope p then Some p else None
  | Some m => if inet6_lessthan (pa_addr m) (pa_addr p) && global_scope p then Some p else pmax
  end.

Definition max_global_address (vs : list uvif) : option sockaddr_in6 :=
  pa_addr <$> foldl (fun pmax v => if unusable v then pmax else foldl max_step pmax (uv_addrs v)) None vs.

Definition uv_global (v : uvif) : option sockaddr_in6 := pa_addr <$> List.find global_scope (uv_addrs v).

(** ** route.c *)

Definition get_iif (address : sockaddr_in6) (s : Pim) : Z :=
  let '(rpfneighbor, iif) := rpf s address in
  if IN6_IS_ADDR_UNSPECIFIED (sin6_addr rpfneighbor) then NO_VIF else iif.

Definition find_pim6_nbr (source : sockaddr_in6) : Cmd Pim ptr :=
  let! s := get in
  if decide (local_address source (uvifs s) <> NO_VIF) then ret None else
  let '(rpfneighbor, iif) := rpf s source in
  if IN6_IS_ADDR_UNSPECIFIED (sin6_addr rpfneighbor) || (iif =? NO_VIF) then ret None else
  chk! v := rd (uvifs s) iif in
  ret (nbr_id <$> List.find (fun n => inet6_equal (nbr_address n) rpfneighbor) (uv_pim_neighbors v)).

Definition PIM_IIF_SOURCE : Z := 1.
Definition PIM_IIF_RP : Z := 2.

(** Does the neighbour have the address, as its own or as a further one? *)
Definition nbr_has (addr : sockaddr_in6) (n : pim_nbr_entry) : bool :=
  inet6_equal addr (nbr_address n) || existsb (fun pa => inet6_equal addr (pa_addr pa)) (nbr_aux_addrs n).

(** The end of [set_incoming]: the neighbour at [neighbor_addr] on the incoming
    interface. *)
Definition set_upstream (srcentry_ptr : ptr) (neighbor_addr : sockaddr_in6) : Cmd Pim bool :=
  let! s := get in
  let! e := src srcentry_ptr in
  chk! v := rd (uvifs s) (s_incoming e) in
  match List.find (nbr_has neighbor_addr) (uv_pim_neighbors v) with
  | Some n => do! upd srcentry_ptr (set_s_upstream (Some (nbr_id n))) ;; ret true
  | None => do! upd srcentry_ptr (set_s_upstream None) ;; ret false
  end.

Definition set_incoming (srcentry_ptr : ptr) (srctype : Z) : Cmd Pim bool :=
  let! e := src srcentry_ptr in
  let source := s_address e in
  let! s := get in
  do! upd srcentry_ptr (set_s_metric 0) ;;
  do! upd srcentry_ptr (set_s_preference 0) ;;
  let incoming := local_address source (uvifs s) in
  do! upd srcentry_ptr (set_s_incoming incoming) ;;
  if decide (incoming <> NO_VIF) then
    do! upd srcentry_ptr (set_s_upstream None) ;; ret true
  else
  let incoming := find_vif_direct source (uvifs s) in
  do! upd srcentry_ptr (set_s_incoming incoming) ;;
  if decide (incoming <> NO_VIF) then
    if decide (srctype = PIM_IIF_SOURCE) then
      do! upd srcentry_ptr (set_s_upstream None) ;; ret true
    else set_upstream srcentry_ptr source
  else
    let '(rpfneighbor, iif) := rpf s source in
    if (iif =? NO_VIF) || IN6_IS_ADDR_UNSPECIFIED (sin6_addr rpfneighbor) then ret false
    else
      do! upd srcentry_ptr (set_s_incoming iif) ;;
      chk! v := rd (uvifs s) iif in
      do! upd srcentry_ptr (set_s_preference (uv_local_pref v)) ;;
      do! upd srcentry_ptr (set_s_metric (uv_local_metric v)) ;;
      set_upstream srcentry_ptr rpfneighbor.
