(* ===== verification/Mrt.v ===== *)
(** * Mrt: the multicast routing table of pim6sd (mrt.c)

    Sources and groups are on two lists ordered by address, each with an unused
    first entry.  A routing entry for a source and a group (S,G) is on the list
    of its group and on the list of its source; a group may have an entry for
    all sources (star,G), an RP one for all groups.  An entry has a list of the
    forwarding entries it put into the kernel.  The definitions follow mrt.c
    pointer by pointer; memory that is not set yet holds [junk]. *)

From stdpp Require Import base list numbers gmap.
From S2P Require Import Prelude Inet6 Pim RpMatch Vif.
Open Scope Z_scope.

(** ** mrt.h *)

Definition MRTF_SPT : Z := 0x0001.
Definition MRTF_WC : Z := 0x0002.
Definition MRTF_RP : Z := 0x0004.
Definition MRTF_NEW : Z := 0x0008.
Definition MRTF_1ST : Z := 0x0010.
Definition MRTF_KERNEL_CACHE : Z := 0x0200.
Definition MRTF_SG : Z := 0x2000.
Definition MRTF_PMBR : Z := 0x4000.
Definition MRTF_MFC_CLONE_SG : Z := 0x8000.

Definition MFC_MOVE_FORCE : Z := 0x1.
Definition MFC_UPDATE_FORCE : Z := 0x2.

(** [flags |= f] and [flags &= ~f]. *)
Definition flag_on (f : Z) (m : mrtentry) : mrtentry := set_m_flags (Z.lor (m_flags m) f) m.
Definition flag_off (f : Z) (m : mrtentry) : mrtentry := set_m_flags (Z.ldiff (m_flags m) f) m.

(** The oif sets and timers of [from] copied to [to]; the timers of the
    interfaces in use are copied. *)
Definition VOIF_COPY (from to : ptr) : Cmd Pim unit :=
  let! s := get in
  let! f := mrt from in
  let! t := mrt to in
  let n := length (uvifs s) in
  chk! ft := slice (m_vif_timers f) 0 (Z.of_nat n) in
  chk! fd := slice (m_vif_deletion_delay f) 0 (Z.of_nat n) in
  chk! tt' := store (m_vif_timers t) 0 ft in
  chk! td := store (m_vif_deletion_delay t) 0 fd in
  upd to (fun t =>
    set_m_joined_oifs (m_joined_oifs f) (set_m_oifs (m_oifs f) (set_m_leaves (m_leaves f)
    (set_m_pruned_oifs (m_pruned_oifs f) (set_m_asserted_oifs (m_asserted_oifs f)
    (set_m_vif_timers tt' (set_m_vif_deletion_delay td t))))))).

(** The incoming interface, upstream neighbour and metrics of an entry. *)
Definition set_toward (incoming : Z) (upstream : ptr) (metric preference : Z) (m : mrtentry) : mrtentry :=
  set_m_preference preference (set_m_metric metric (set_m_upstream upstream (set_m_incoming incoming m))).

(** The loop of [FREE_MRTENTRY]. *)
Fixpoint free_caches (fuel : nat) (next : ptr) : Cmd Pim unit :=
  match fuel with
  | O => halt OutOfFuel
  | S fuel =>
    match next with
    | None => ret tt
    | Some _ =>
        let! c := cache next in
        do! free_node kernel_cache next ;;
        free_caches fuel (k_next c)
    end
  end.

Definition FREE_MRTENTRY (mrtentry_ptr : ptr) : Cmd Pim unit :=
  let! s := get in
  let! m := mrt mrtentry_ptr in
  do! free_caches (fuel_of s) (m_kernel_cache m) ;;
  free_node mrtentry mrtentry_ptr.

Definition SSMGROUP (s : Pim) (g : sockaddr_in6) : bool := inet6_same_prefix g (ssmprefix s) (ssmmask s).

(** [group->active_rp_grp->rp->rpentry->mrtlink]. *)
Definition rp_route (group : ptr) : Cmd Pim ptr :=
  let! g := grp group in
  let! r := rpg (g_active_rp_grp g) in
  let! c := crp (rg_rp r) in
  let! e := src (c_rpentry c) in
  ret (s_mrtlink e).

Definition k_del_mfc (source group : sockaddr_in6) : Cmd Pim unit :=
  modify (fun s => set_kcalls (kcalls s ++ [k_del_mfc_call source group]) s).

(** ** The lists *)

Definition init_pim6_mrt : Cmd Pim unit :=
  let any := mkSa 0 in6addr_any in
  let! p := malloc (mkSrc None None any None NO_VIF None 0 0 0 None) in
  do! upd (N := srcentry) p (fun e => e) ;;
  do! modify (set_srclist p) ;;
  let! p := malloc (mkGrp None None None None any any None None None) in
  do! upd (N := grpentry) p (fun g => g) ;;
  modify (set_grplist p).

(** The for loops of the searches: the entry found, or the one before the place
    where it would be. *)
Fixpoint srclist_loop (fuel : nat) (source : sockaddr_in6) (s_prev s : ptr) : Cmd Pim (bool * ptr) :=
  match fuel with
  | O => halt OutOfFuel
  | S fuel =>
    match s with
    | None => ret (false, s_prev)
    | Some _ =>
        let! e := src s in
        if inet6_lessthan (s_address e) source then srclist_loop fuel source s (s_next e)
        else if inet6_equal (s_address e) source then ret (true, s)
        else ret (false, s_prev)
    end
  end.

Definition search_srclist (source : sockaddr_in6) : Cmd Pim (bool * ptr) :=
  let! st := get in
  let! e := src (srclist st) in
  srclist_loop (fuel_of st) source (srclist st) (s_next e).

Fixpoint grplist_loop (fuel : nat) (group : sockaddr_in6) (g_prev g : ptr) : Cmd Pim (bool * ptr) :=
  match fuel with
  | O => halt OutOfFuel
  | S fuel =>
    match g with
    | None => ret (false, g_prev)
    | Some _ =>
        let! e := grp g in
        if inet6_lessthan (g_group e) group then grplist_loop fuel group g (g_next e)
        else if inet6_equal (g_group e) group then ret (true, g)
        else ret (false, g_prev)
    end
  end.

Definition search_grplist (group : sockaddr_in6) : Cmd Pim (bool * ptr) :=
  let! st := get in
  let! e := grp (grplist st) in
  grplist_loop (fuel_of st) group (grplist st) (g_next e).

Definition find_group (group : sockaddr_in6) : Cmd Pim ptr :=
  if negb (IN6_IS_ADDR_MULTICAST (sin6_addr group)) then ret None else
  let! (found, p) := search_grplist group in
  ret (if found : bool then p else None).

Definition find_source (source : sockaddr_in6) : Cmd Pim ptr :=
  if negb (inet6_valid_host source) then ret None else
  let! (found, p) := search_srclist source in
  ret (if found : bool then p else None).

Section Code.

(** What memory holds that is not set. *)
Context (junk : ptr).

Definition create_srcentry (source : sockaddr_in6) : Cmd Pim ptr :=
  let! (found, srcentry_prev) := search_srclist source in
  if found : bool then ret srcentry_prev else
  let! p := malloc (mkSrc junk junk source junk 0 junk 0 0 0 junk) in
  match p with
  | None => ret None
  | Some _ =>
      let! ok := set_incoming p PIM_IIF_SOURCE in
      if negb ok then do! free_node srcentry p ;; ret None else
      do! upd p (set_s_mrtlink None) ;;
      do! upd p (set_s_timer 0) ;;
      do! upd p (set_s_cand_rp None) ;;
      let! prev := src srcentry_prev in
      do! upd p (set_s_next (s_next prev)) ;;
      do! upd srcentry_prev (set_s_next p) ;;
      do! upd p (set_s_prev srcentry_prev) ;;
      let! e := src p in
      do! upd_if (s_next e) (set_s_prev p) ;;
      ret p
  end.

Definition create_grpentry (group : sockaddr_in6) : Cmd Pim ptr :=
  let! (found, grpentry_prev) := search_grplist group in
  if found : bool then ret grpentry_prev else
  let! p := malloc (mkGrp junk junk None None group (mkSa 0 in6addr_any) None None None) in
  match p with
  | None => ret None
  | Some _ =>
      let! prev := grp grpentry_prev in
      do! upd p (set_g_next (g_next prev)) ;;
      do! upd grpentry_prev (set_g_next p) ;;
      do! upd p (set_g_prev grpentry_prev) ;;
      let! e := grp p in
      do! upd_if (g_next e) (set_g_prev p) ;;
      ret p
  end.

(** The for loops of [search_srcmrtlink] and [search_grpmrtlink]. *)
Fixpoint srcmrt_loop (fuel : nat) (group : sockaddr_in6) (m_prev mrtentry_ptr : ptr) : Cmd Pim (bool * ptr) :=
  match fuel with
  | O => halt OutOfFuel
  | S fuel =>
    match mrtentry_ptr with
    | None => ret (false, m_prev)
    | Some _ =>
        let! m := mrt mrtentry_ptr in
        let! g := grp (m_group m) in
        if inet6_lessthan (g_group g) group then srcmrt_loop fuel group mrtentry_ptr (m_srcnext m)
        else if inet6_equal (g_group g) group then ret (true, mrtentry_ptr)
        else ret (false, m_prev)
    end
  end.

Definition search_srcmrtlink (srcentry_ptr : ptr) (group : sockaddr_in6) : Cmd Pim (bool * ptr) :=
  let! s := get in
  let! e := src srcentry_ptr in
  srcmrt_loop (fuel_of s) group None (s_mrtlink e).

Fixpoint grpmrt_loop (fuel : nat) (source : sockaddr_in6) (m_prev mrtentry_ptr : ptr) : Cmd Pim (bool * ptr) :=
  match fuel with
  | O => halt OutOfFuel
  | S fuel =>
    match mrtentry_ptr with
    | None => ret (false, m_prev)
    | Some _ =>
        let! m := mrt mrtentry_ptr in
        let! e := src (m_source m) in
        if inet6_lessthan (s_address e) source then grpmrt_loop fuel source mrtentry_ptr (m_grpnext m)
        else if inet6_equal source (s_address e) then ret (true, mrtentry_ptr)
        else ret (false, m_prev)
    end
  end.

Definition search_grpmrtlink (grpentry_ptr : ptr) (source : sockaddr_in6) : Cmd Pim (bool * ptr) :=
  let! s := get in
  let! g := grp grpentry_ptr in
  grpmrt_loop (fuel_of s) source None (g_mrtlink g).

Definition insert_srcmrtlink (mrtentry_new mrtentry_prev srcentry_ptr : ptr) : Cmd Pim unit :=
  do! match mrtentry_prev with
      | None =>
          let! e := src srcentry_ptr in
          do! upd mrtentry_new (set_m_srcnext (s_mrtlink e)) ;;
          do! upd mrtentry_new (set_m_srcprev None) ;;
          upd srcentry_ptr (set_s_mrtlink mrtentry_new)
      | Some _ =>
          let! prev := mrt mrtentry_prev in
          do! upd mrtentry_new (set_m_srcnext (m_srcnext prev)) ;;
          do! upd mrtentry_new (set_m_srcprev mrtentry_prev) ;;
          upd mrtentry_prev (set_m_srcnext mrtentry_new)
      end ;;
  let! new := mrt mrtentry_new in
  upd_if (m_srcnext new) (set_m_srcprev mrtentry_new).

Definition insert_grpmrtlink (mrtentry_new mrtentry_prev grpentry_ptr : ptr) : Cmd Pim unit :=
  do! match mrtentry_prev with
      | None =>
          let! g := grp grpentry_ptr in
          do! upd mrtentry_new (set_m_grpnext (g_mrtlink g)) ;;
          do! upd mrtentry_new (set_m_grpprev None) ;;
          upd grpentry_ptr (set_g_mrtlink mrtentry_new)
      | Some _ =>
          let! prev := mrt mrtentry_prev in
          do! upd mrtentry_new (set_m_grpnext (m_grpnext prev)) ;;
          do! upd mrtentry_new (set_m_grpprev mrtentry_prev) ;;
          upd mrtentry_prev (set_m_grpnext mrtentry_new)
      end ;;
  let! new := mrt mrtentry_new in
  upd_if (m_grpnext new) (set_m_grpprev mrtentry_new).

(** The same bits as a number. *)
Definition junk_bits (junk : ptr) : Z := match junk with Some n => Z.of_nat n | None => 0 end.

(** The arrays for the interfaces are lists in the entry, as far as they are
    cleared; when there is no room for one of them the entry is freed before its
    list of cache entries is set. *)
Definition alloc_mrtentry (srcentry_ptr grpentry_ptr : ptr) : Cmd Pim ptr :=
  let! s := get in
  let! p := malloc (mkMrt junk junk junk junk grpentry_ptr srcentry_ptr NO_VIF 0 0 0 0 0 None 0 0
                      (mkSa (junk_bits junk) in6addr_any) [] [] 0 0 0 0 0 0 junk) in
  match p with
  | None => ret None
  | Some _ =>
      let! ok1 := next_malloc in
      let! ok2 := next_malloc in
      if negb (ok1 && ok2) then do! FREE_MRTENTRY p ;; ret None else
      let timers := replicate (Z.to_nat (u8 (total_interfaces s))) 0 in
      do! upd p (set_m_vif_timers timers) ;;
      do! upd p (set_m_vif_deletion_delay timers) ;;
      do! upd p (set_m_flags MRTF_NEW) ;;
      do! upd p (set_m_kernel_cache None) ;;
      ret p
  end.

(** [log_msg (LOG_ERR, ...)] does not return. *)
Definition create_mrtentry (srcentry_ptr grpentry_ptr : ptr) (flags : Z) : Cmd Pim ptr :=
  if has flags MRTF_SG then
    let! e := src srcentry_ptr in
    let! g := grp grpentry_ptr in
    let! (found, r_grp_insert) := search_grpmrtlink grpentry_ptr (s_address e) in
    if found : bool then ret r_grp_insert else
    let! (found, r_src_insert) := search_srcmrtlink srcentry_ptr (g_group g) in
    if found : bool then exit (-1) else
    let! r_new := alloc_mrtentry srcentry_ptr grpentry_ptr in
    match r_new with
    | None => ret None
    | Some _ =>
        do! insert_grpmrtlink r_new r_grp_insert grpentry_ptr ;;
        do! insert_srcmrtlink r_new r_src_insert srcentry_ptr ;;
        do! upd r_new (flag_on MRTF_SG) ;;
        ret r_new
    end
  else if has flags MRTF_WC then
    let! g := grp grpentry_ptr in
    match g_grp_route g with
    | Some _ => ret (g_grp_route g)
    | None =>
        let! r_new := alloc_mrtentry srcentry_ptr grpentry_ptr in
        match r_new with
        | None => ret None
        | Some _ =>
            do! upd grpentry_ptr (set_g_grp_route r_new) ;;
            do! upd r_new (flag_on (Z.lor MRTF_WC MRTF_RP)) ;;
            ret r_new
        end
    end
  else if has flags MRTF_PMBR then
    let! e := src srcentry_ptr in
    match s_mrtlink e with
    | Some _ => ret (s_mrtlink e)
    | None =>
        let! r_new := alloc_mrtentry srcentry_ptr grpentry_ptr in
        match r_new with
        | None => ret None
        | Some _ =>
            do! upd srcentry_ptr (set_s_mrtlink r_new) ;;
            do! upd r_new (flag_on (Z.lor MRTF_PMBR MRTF_RP)) ;;
            ret r_new
        end
    end
  else ret None.

End Code.

(** ** Deletion *)

Fixpoint all_caches_loop (fuel : nat) (kernel_cache_ptr : ptr) : Cmd Pim unit :=
  match fuel with
  | O => halt OutOfFuel
  | S fuel =>
    match kernel_cache_ptr with
    | None => ret tt
    | Some _ =>
        let! c := cache kernel_cache_ptr in
        do! k_del_mfc (k_source c) (k_group c) ;;
        do! free_node kernel_cache kernel_cache_ptr ;;
        all_caches_loop fuel (k_next c)
    end
  end.

Definition delete_mrtentry_all_kernel_cache (mrtentry_ptr : ptr) : Cmd Pim unit :=
  let! s := get in
  let! m := mrt mrtentry_ptr in
  if negb (has (m_flags m) MRTF_KERNEL_CACHE) then ret tt else
  do! all_caches_loop (fuel_of s) (m_kernel_cache m) ;;
  do! upd mrtentry_ptr (set_m_kernel_cache None) ;;
  upd mrtentry_ptr (flag_off (Z.lor MRTF_KERNEL_CACHE MRTF_MFC_CLONE_SG)).

(** [if (flags & MRTF_KERNEL_CACHE) delete_mrtentry_all_kernel_cache ()]. *)
Definition drop_kernel_cache (mrtentry_ptr : ptr) : Cmd Pim unit :=
  let! m := mrt mrtentry_ptr in
  if has (m_flags m) MRTF_KERNEL_CACHE then delete_mrtentry_all_kernel_cache mrtentry_ptr else ret tt.

(** An entry leaves the list of its group; [last] runs when the list is empty
    then. *)
Definition unlink_from_group (last : mrtentry -> Cmd Pim unit) (mrtentry_ptr : ptr) : Cmd Pim unit :=
  let! m := mrt mrtentry_ptr in
  do! match m_grpprev m with
      | Some _ => upd (m_grpprev m) (set_m_grpnext (m_grpnext m))
      | None =>
          do! upd (m_group m) (set_g_mrtlink (m_grpnext m)) ;;
          match m_grpnext m with Some _ => ret tt | None => last m end
      end ;;
  let! m := mrt mrtentry_ptr in
  upd_if (m_grpnext m) (set_m_grpprev (m_grpprev m)).

(** An entry leaves the list of its source. *)
Definition unlink_from_source (last : mrtentry -> Cmd Pim unit) (mrtentry_ptr : ptr) : Cmd Pim unit :=
  let! m := mrt mrtentry_ptr in
  do! match m_srcprev m with
      | Some _ => upd (m_srcprev m) (set_m_srcnext (m_srcnext m))
      | None =>
          do! upd (m_source m) (set_s_mrtlink (m_srcnext m)) ;;
          match m_srcnext m with Some _ => ret tt | None => last m end
      end ;;
  let! m := mrt mrtentry_ptr in
  upd_if (m_srcnext m) (set_m_srcprev (m_srcprev m)).

(** [delete_srcentry] and [delete_grpentry] call each other. *)
Section Delete.
Context (delete_grpentry delete_srcentry : ptr -> Cmd Pim unit).

(** The entries of a source. *)
Fixpoint src_entries_loop (fuel : nat) (mrtentry_ptr : ptr) : Cmd Pim unit :=
  match fuel with
  | O => halt OutOfFuel
  | S fuel =>
    match mrtentry_ptr with
    | None => ret tt
    | Some _ =>
        let! m := mrt mrtentry_ptr in
        do! drop_kernel_cache mrtentry_ptr ;;
        do! unlink_from_group (fun m =>
              let! g := grp (m_group m) in
              match g_grp_route g with None => delete_grpentry (m_group m) | Some _ => ret tt end) mrtentry_ptr ;;
        do! FREE_MRTENTRY mrtentry_ptr ;;
        src_entries_loop fuel (m_srcnext m)
    end
  end.

Definition delete_srcentry_with (srcentry_ptr : ptr) : Cmd Pim unit :=
  match srcentry_ptr with
  | None => ret tt
  | Some _ =>
      let! e := src srcentry_ptr in
      do! upd (s_prev e) (set_s_next (s_next e)) ;;
      do! upd_if (s_next e) (set_s_prev (s_prev e)) ;;
      let! s := get in
      do! src_entries_loop (fuel_of s) (s_mrtlink e) ;;
      free_node srcentry srcentry_ptr
  end.

(** The (S,G) entries of a group. *)
Fixpoint grp_entries_loop (fuel : nat) (mrtentry_ptr : ptr) : Cmd Pim unit :=
  match fuel with
  | O => halt OutOfFuel
  | S fuel =>
    match mrtentry_ptr with
    | None => ret tt
    | Some _ =>
        let! m := mrt mrtentry_ptr in
        do! drop_kernel_cache mrtentry_ptr ;;
        do! unlink_from_source (fun m => delete_srcentry (m_source m)) mrtentry_ptr ;;
        do! FREE_MRTENTRY mrtentry_ptr ;;
        grp_entries_loop fuel (m_grpnext m)
    end
  end.

Definition delete_grpentry_with (grpentry_ptr : ptr) : Cmd Pim unit :=
  match grpentry_ptr with
  | None => ret tt
  | Some _ =>
      let! g := grp grpentry_ptr in
      do! upd (g_prev g) (set_g_next (g_next g)) ;;
      do! upd_if (g_next g) (set_g_prev (g_prev g)) ;;
      do! match g_grp_route g with
          | Some _ => do! drop_kernel_cache (g_grp_route g) ;; FREE_MRTENTRY (g_grp_route g)
          | None => ret tt
          end ;;
      do! match g_active_rp_grp g with
          | Some _ =>
              do! upd_if (g_rpnext g) (set_g_rpprev (g_rpprev g)) ;;
              match g_rpprev g with
              | Some _ => upd (g_rpprev g) (set_g_rpnext (g_rpnext g))
              | None => upd (g_active_rp_grp g) (set_rg_grplink (g_rpnext g))
              end
          | None => ret tt
          end ;;
      let! s := get in
      do! grp_entries_loop (fuel_of s) (g_mrtlink g) ;;
      free_node grpentry grpentry_ptr
  end.

End Delete.

(** The calls nested [depth] deep. *)
Fixpoint delete_entries (depth : nat) : (ptr -> Cmd Pim unit) * (ptr -> Cmd Pim unit) :=
  match depth with
  | O => (fun _ => halt OutOfFuel, fun _ => halt OutOfFuel)
  | S depth => let d := delete_entries depth in (delete_srcentry_with d.2, delete_grpentry_with d.1)
  end.

(** Two levels are enough: the inner call finds the list empty. *)
Definition delete_srcentry : ptr -> Cmd Pim unit := (delete_entries 2).1.
Definition delete_grpentry : ptr -> Cmd Pim unit := (delete_entries 2).2.

(** The part of [delete_mrtentry] about an (S,G) entry: when it was the last of
    its group. *)
Definition last_of_group (m : mrtentry) : Cmd Pim unit :=
  let! s := get in
  let! g := grp (m_group m) in
  let! mrtentry_rp := (if negb (SSMGROUP s (g_group g)) then rp_route (m_group m) else ret None) in
  let mrtentry_wc := g_grp_route g in
  do! upd_if mrtentry_rp (flag_off MRTF_MFC_CLONE_SG) ;;
  match mrtentry_wc with
  | Some _ => upd mrtentry_wc (flag_off MRTF_MFC_CLONE_SG)
  | None => delete_grpentry (m_group m)
  end.

Definition delete_sg (mrtentry_ptr : ptr) : Cmd Pim unit :=
  do! unlink_from_group last_of_group mrtentry_ptr ;;
  unlink_from_source (fun m => delete_srcentry (m_source m)) mrtentry_ptr.

Definition delete_mrtentry (mrtentry_ptr : ptr) : Cmd Pim unit :=
  match mrtentry_ptr with
  | None => ret tt
  | Some _ =>
      do! drop_kernel_cache mrtentry_ptr ;;
      let! m := mrt mrtentry_ptr in
      do! (if has (m_flags m) MRTF_PMBR then upd (m_source m) (set_s_mrtlink None)
           else if has (m_flags m) MRTF_SG then delete_sg mrtentry_ptr
           else
             do! upd (m_group m) (set_g_grp_route None) ;;
             let! g := grp (m_group m) in
             match g_mrtlink g with
             | None => delete_grpentry (m_group m)
             | Some _ => ret tt
             end) ;;
      FREE_MRTENTRY mrtentry_ptr
  end.

(** ** The kernel's forwarding entries *)

Definition delete_single_kernel_cache (mrtentry_ptr kernel_cache_ptr : ptr) : Cmd Pim unit :=
  let! c := cache kernel_cache_ptr in
  do! match k_prev c with
      | None =>
          do! upd mrtentry_ptr (set_m_kernel_cache (k_next c)) ;;
          match k_next c with
          | None => upd mrtentry_ptr (flag_off (Z.lor MRTF_KERNEL_CACHE MRTF_MFC_CLONE_SG))
          | Some _ => ret tt
          end
      | Some _ => upd (k_prev c) (set_k_next (k_next c))
      end ;;
  do! upd_if (k_next c) (set_k_prev (k_prev c)) ;;
  do! k_del_mfc (k_source c) (k_group c) ;;
  free_node kernel_cache kernel_cache_ptr.

(** The order of a list of cache entries: by group, then by source.  [inl]: go
    on, [inr true]: this one, [inr false]: behind the place. *)
Definition cache_order (c : kernel_cache) (source group : sockaddr_in6) : unit + bool :=
  if inet6_lessthan (k_group c) group then inl tt
  else if inet6_greaterthan (k_group c) group then inr false
  else if inet6_lessthan (k_source c) source then inl tt
  else if inet6_greaterthan (k_source c) source then inr false
  else inr true.

(** The for loops over the cache entries: the entry before the place, the one
    at it, and whether it is the one asked for. *)
Fixpoint cache_loop (fuel : nat) (source group : sockaddr_in6) (prev next : ptr) : Cmd Pim (ptr * ptr * bool) :=
  match fuel with
  | O => halt OutOfFuel
  | S fuel =>
    match next with
    | None => ret (prev, next, false)
    | Some _ =>
        let! c := cache next in
        match cache_order c source group with
        | inl _ => cache_loop fuel source group next (k_next c)
        | inr found => ret (prev, next, found)
        end
    end
  end.

Definition delete_single_kernel_cache_addr (mrtentry_ptr : ptr) (source group : sockaddr_in6) : Cmd Pim unit :=
  match mrtentry_ptr with
  | None => ret tt
  | Some _ =>
      let! s := get in
      let! m := mrt mrtentry_ptr in
      let! (_, kernel_cache_ptr, found) := cache_loop (fuel_of s) source group None (m_kernel_cache m) in
      if found : bool then delete_single_kernel_cache mrtentry_ptr kernel_cache_ptr else ret tt
  end.

(** The entries of the list of (star,star,RP) for a group: the first and the last. *)
Fixpoint select_loop (fuel : nat) (group : sockaddr_in6) (first last kernel_cache_ptr : ptr) : Cmd Pim (ptr * ptr) :=
  match fuel with
  | O => halt OutOfFuel
  | S fuel =>
    match kernel_cache_ptr with
    | None => ret (first, last)
    | Some _ =>
        let! c := cache kernel_cache_ptr in
        if inet6_lessthan (k_group c) group then select_loop fuel group first last (k_next c)
        else if negb (inet6_equal (k_group c) group) then ret (first, last)
        else match first with
             | None => select_loop fuel group kernel_cache_ptr kernel_cache_ptr (k_next c)
             | Some _ => select_loop fuel group first kernel_cache_ptr (k_next c)
             end
    end
  end.

(** The loop that puts them into the list of (star,G): what is left of them, and the
    last entry passed. *)
Fixpoint merge_loop (fuel : nat) (mrtentry_ptr first prev kernel_cache_ptr : ptr) : Cmd Pim (ptr * ptr) :=
  match fuel with
  | O => halt OutOfFuel
  | S fuel =>
    match kernel_cache_ptr, first with
    | None, _ => ret (first, prev)
    | Some _, None => ret (first, prev)
    | Some _, Some _ =>
        let! c := cache kernel_cache_ptr in
        let! f := cache first in
        let! first' := (if inet6_greaterthan (k_source c) (k_source f) then
            do! match k_prev c with
                | Some _ => upd (k_prev c) (set_k_next first)
                | None => upd mrtentry_ptr (set_m_kernel_cache first)
                end ;;
            do! upd first (set_k_prev (k_prev c)) ;;
            do! upd first (set_k_next kernel_cache_ptr) ;;
            do! upd kernel_cache_ptr (set_k_prev first) ;;
            ret (k_next f)
          else ret first) in
        merge_loop fuel mrtentry_ptr first' kernel_cache_ptr (k_next c)
    end
  end.

Definition move_kernel_cache_wc (mrtentry_ptr : ptr) : Cmd Pim unit :=
  let! m := mrt mrtentry_ptr in
  let! mrtentry_pmbr := rp_route (m_group m) in
  match mrtentry_pmbr with
  | None => ret tt
  | Some _ =>
      let! g := grp (m_group m) in
      let! pmbr := mrt mrtentry_pmbr in
      let! s := get in
      let! (first, last) := select_loop (fuel_of s) (g_group g) None None (m_kernel_cache pmbr) in
      match first with
      | None => ret tt
      | Some _ =>
          let! f := cache first in
          let! l := cache last in
          do! match k_prev f with
              | Some _ => upd (k_prev f) (set_k_next (k_next l))
              | None => upd mrtentry_pmbr (set_m_kernel_cache (k_next l))
              end ;;
          do! upd_if (k_next l) (set_k_prev (k_prev f)) ;;
          let! pmbr := mrt mrtentry_pmbr in
          do! match m_kernel_cache pmbr with
              | None => upd mrtentry_pmbr (flag_off (Z.lor MRTF_KERNEL_CACHE MRTF_MFC_CLONE_SG))
              | Some _ => ret tt
              end ;;
          do! upd last (set_k_next None) ;;
          do! upd mrtentry_ptr (flag_on MRTF_KERNEL_CACHE) ;;
          let! m := mrt mrtentry_ptr in
          let! (first, prev) := merge_loop (fuel_of s) mrtentry_ptr first None (m_kernel_cache m) in
          match first with
          | None => ret tt
          | Some _ =>
              do! match prev with
                  | Some _ => upd prev (set_k_next first)
                  | None => upd mrtentry_ptr (set_m_kernel_cache first)
                  end ;;
              upd first (set_k_prev prev)
          end
      end
  end.

(** An (S,G) entry takes its cache entry out of the list of [mrtentry_rp]. *)
Definition take_cache (mrtentry_ptr mrtentry_rp : ptr) : Cmd Pim unit :=
  let! m := mrt mrtentry_ptr in
  let! g := grp (m_group m) in
  let! e := src (m_source m) in
  let! rp := mrt mrtentry_rp in
  let! s := get in
  let! (_, kernel_cache_ptr, found) := cache_loop (fuel_of s) (s_address e) (g_group g) None (m_kernel_cache rp) in
  if negb found then ret tt else
  let! c := cache kernel_cache_ptr in
  do! match k_prev c with
      | Some _ => upd (k_prev c) (set_k_next (k_next c))
      | None => upd mrtentry_rp (set_m_kernel_cache (k_next c))
      end ;;
  do! upd_if (k_next c) (set_k_prev (k_prev c)) ;;
  let! rp := mrt mrtentry_rp in
  do! match m_kernel_cache rp with
      | None => upd mrtentry_rp (flag_off (Z.lor MRTF_KERNEL_CACHE MRTF_MFC_CLONE_SG))
      | Some _ => ret tt
      end ;;
  do! match m_kernel_cache m with Some _ => free_node kernel_cache (m_kernel_cache m) | None => ret tt end ;;
  do! upd mrtentry_ptr (flag_on MRTF_KERNEL_CACHE) ;;
  do! upd mrtentry_ptr (set_m_kernel_cache kernel_cache_ptr) ;;
  do! upd kernel_cache_ptr (set_k_prev None) ;;
  upd kernel_cache_ptr (set_k_next None).

Definition move_kernel_cache (mrtentry_ptr : ptr) (flags : Z) : Cmd Pim unit :=
  match mrtentry_ptr with
  | None => ret tt
  | Some _ =>
      let! m := mrt mrtentry_ptr in
      if has (m_flags m) MRTF_PMBR then ret tt
      else if has (m_flags m) MRTF_WC then move_kernel_cache_wc mrtentry_ptr
      else if has (m_flags m) MRTF_SG then
        let! s := get in
        let! g := grp (m_group m) in
        if SSMGROUP s (g_group g) then ret tt else
        let! mrtentry_rp := match g_grp_route g with
                            | Some _ => ret (g_grp_route g)
                            | None => rp_route (m_group m)
                            end in
        match mrtentry_rp with
        | None => ret tt
        | Some _ =>
            let! rp := mrt mrtentry_rp in
            if decide (m_incoming rp <> m_incoming m) then
              if negb (has flags MFC_MOVE_FORCE) then ret tt else take_cache mrtentry_ptr mrtentry_rp
            else take_cache mrtentry_ptr mrtentry_rp
        end
      else ret tt
  end.

(** The entry of the kernel's cache that [add_kernel_cache] makes; there is no
    test for the result of malloc. *)
Definition new_cache (c : kernel_cache) : Cmd Pim ptr :=
  let! p := malloc c in
  do! upd (N := kernel_cache) p (fun c => c) ;;
  ret p.

Definition add_kernel_cache (mrtentry_ptr : ptr) (source group : sockaddr_in6) (flags : Z) : Cmd Pim unit :=
  match mrtentry_ptr with
  | None => ret tt
  | Some _ =>
      do! move_kernel_cache mrtentry_ptr flags ;;
      let! m := mrt mrtentry_ptr in
      if has (m_flags m) MRTF_SG then
        if has (m_flags m) MRTF_KERNEL_CACHE then ret tt else
        let! new := new_cache (mkCache None None source group 0) in
        do! upd mrtentry_ptr (set_m_kernel_cache new) ;;
        upd mrtentry_ptr (flag_on MRTF_KERNEL_CACHE)
      else
        let! s := get in
        let! (prev, next, found) := cache_loop (fuel_of s) source group None (m_kernel_cache m) in
        if found : bool then ret tt else
        let! new := new_cache (mkCache next prev source group 0) in
        do! match prev with
            | Some _ => upd prev (set_k_next new)
            | None => upd mrtentry_ptr (set_m_kernel_cache new)
            end ;;
        do! upd_if next (set_k_prev new) ;;
        upd mrtentry_ptr (flag_on MRTF_KERNEL_CACHE)
  end.

(** ** [find_route] *)

(** The search of [find_route] ([create == DONT_CREATE]). *)
Definition existing_route (source group : option sockaddr_in6) (flags : Z) : Cmd Pim ptr :=
  let pmbr_route :=
    if has flags MRTF_PMBR then
      let! rpentry_ptr := match group, source with
                          | Some group, _ => rp_match group
                          | None, Some source => rp_find source
                          | None, None => ret None
                          end in
      match rpentry_ptr with
      | Some _ => let! e := src rpentry_ptr in ret (s_mrtlink e)
      | None => ret None
      end
    else ret None in
  if has flags (Z.lor MRTF_SG MRTF_WC) then
    chk! group := group in
    let! (found, grpentry_ptr) := search_grplist group in
    if negb found then
      if has flags MRTF_PMBR then
        let! rpentry_ptr := rp_match group in
        match rpentry_ptr with
        | Some _ => let! e := src rpentry_ptr in ret (s_mrtlink e)
        | None => ret None
        end
      else ret None
    else
      let! sg := (if has flags MRTF_SG then
                    chk! source := source in
                    let! (found, m) := search_grpmrtlink grpentry_ptr source in
                    ret (if found : bool then m else None)
                  else ret None) in
      match sg with
      | Some _ => ret sg
      | None =>
          let! g := grp grpentry_ptr in
          if decide (has flags MRTF_WC = true /\ g_grp_route g <> None) then ret (g_grp_route g)
          else pmbr_route
      end
  else pmbr_route.

(** The group gets [rp_grp_entry_ptr] as its RP; the result is the RP. *)
Definition bind_rp (grpentry_ptr rp_grp_entry_ptr : ptr) : Cmd Pim ptr :=
  let! r := rpg rp_grp_entry_ptr in
  let! c := crp (rg_rp r) in
  let rpentry_ptr := c_rpentry c in
  do! upd grpentry_ptr (set_g_active_rp_grp rp_grp_entry_ptr) ;;
  let! e := src rpentry_ptr in
  do! upd grpentry_ptr (set_g_rpaddr (s_address e)) ;;
  do! upd grpentry_ptr (set_g_rpnext (rg_grplink r)) ;;
  do! upd rp_grp_entry_ptr (set_rg_grplink grpentry_ptr) ;;
  let! g := grp grpentry_ptr in
  do! upd_if (g_rpnext g) (set_g_rpprev grpentry_ptr) ;;
  ret rpentry_ptr.

(** The RP of the group, for the flags that need one; [None] ends
    [find_route]. *)
Definition route_rp (grpentry_ptr : ptr) (group : option sockaddr_in6) : Cmd Pim ptr :=
  let! g := grp grpentry_ptr in
  let! rpentry_ptr := match g_active_rp_grp g with
    | None =>
        chk! group := group in
        let! rp_grp_entry_ptr := rp_grp_match group in
        match rp_grp_entry_ptr with
        | None =>
            do! (if decide (g_mrtlink g = None /\ g_grp_route g = None) then delete_grpentry grpentry_ptr
                 else ret tt) ;;
            ret None
        | Some _ => bind_rp grpentry_ptr rp_grp_entry_ptr
        end
    | Some _ =>
        let! r := rpg (g_active_rp_grp g) in
        let! c := crp (rg_rp r) in
        ret (c_rpentry c)
    end in
  match rpentry_ptr with
  | None => ret None
  | Some _ =>
      let! e := src rpentry_ptr in
      let! s := get in
      if decide (s_upstream e = None /\ s_incoming e <> reg_vif_num s) then
        do! delete_grpentry grpentry_ptr ;; ret None
      else ret rpentry_ptr
  end.

Section Create.
Context (junk : ptr).

(** The (star,G) entry. *)
Definition wc_route (grpentry_ptr rpentry_ptr : ptr) : Cmd Pim ptr :=
  let! mrtentry_ptr_wc := create_mrtentry junk None grpentry_ptr MRTF_WC in
  match mrtentry_ptr_wc with
  | None =>
      let! g := grp grpentry_ptr in
      do! match g_mrtlink g with None => delete_grpentry grpentry_ptr | Some _ => ret tt end ;;
      ret None
  | Some _ =>
      let! wc := mrt mrtentry_ptr_wc in
      do! (if has (m_flags wc) MRTF_NEW then
             let! e := src rpentry_ptr in
             do! match s_mrtlink e with
                 | Some _ => VOIF_COPY (s_mrtlink e) mrtentry_ptr_wc
                 | None => ret tt
                 end ;;
             do! upd mrtentry_ptr_wc (set_toward (s_incoming e) (s_upstream e) (s_metric e) (s_preference e)) ;;
             move_kernel_cache mrtentry_ptr_wc 0
           else ret tt) ;;
      ret mrtentry_ptr_wc
  end.

(** When an (S,G) entry cannot be made: the group is deleted if it is new. *)
Definition undo_group (grpentry_ptr : ptr) : Cmd Pim unit :=
  let! g := grp grpentry_ptr in
  let! new := match g_grp_route g with
              | None => ret true
              | Some _ => let! wc := mrt (g_grp_route g) in ret (has (m_flags wc) MRTF_NEW)
              end in
  if decide (new = true /\ g_mrtlink g = None) then delete_grpentry grpentry_ptr else ret tt.

(** What a new (S,G) entry copies the oifs from: (star,G), else the RP's entry. *)
Definition oif_source (grpentry_ptr : ptr) (group : sockaddr_in6) : Cmd Pim ptr :=
  let! g := grp grpentry_ptr in
  match g_grp_route g with
  | Some _ => ret (g_grp_route g)
  | None =>
      match g_active_rp_grp g with
      | Some _ => rp_route grpentry_ptr
      | None =>
          let! rp_grp_entry_ptr := rp_grp_match group in
          match rp_grp_entry_ptr with
          | None => ret None
          | Some _ =>
              let! rpentry_ptr := bind_rp grpentry_ptr rp_grp_entry_ptr in
              let! e := src rpentry_ptr in
              ret (s_mrtlink e)
          end
      end
  end.

(** A new (S,G) entry is filled in. *)
Definition setup_sg (mrtentry_ptr grpentry_ptr srcentry_ptr : ptr) (source group : sockaddr_in6) (flags : Z) :
    Cmd Pim unit :=
  let! s := get in
  do! (if SSMGROUP s group then ret tt else
       let! mrtentry_ptr_2 := oif_source grpentry_ptr group in
       match mrtentry_ptr_2 with
       | None => ret tt
       | Some _ =>
           do! VOIF_COPY mrtentry_ptr_2 mrtentry_ptr ;;
           if has flags MRTF_RP then
             let! m2 := mrt mrtentry_ptr_2 in
             do! upd mrtentry_ptr (set_toward (m_incoming m2) (m_upstream m2) (m_metric m2) (m_preference m2)) ;;
             upd mrtentry_ptr (flag_on MRTF_RP)
           else ret tt
       end) ;;
  let! m := mrt mrtentry_ptr in
  do! (if negb (has (m_flags m) MRTF_RP) then
         let! e := src srcentry_ptr in
         upd mrtentry_ptr (set_toward (s_incoming e) (s_upstream e) (s_metric e) (s_preference e))
       else ret tt) ;;
  do! move_kernel_cache mrtentry_ptr 0 ;;
  let! m := mrt mrtentry_ptr in
  if negb (has (m_flags m) (Z.lor MRTF_RP MRTF_KERNEL_CACHE)) then add_kernel_cache mrtentry_ptr source group 0
  else ret tt.

(** The (S,G) entry. *)
Definition sg_route (grpentry_ptr : ptr) (source group : sockaddr_in6) (flags : Z) : Cmd Pim ptr :=
  let! srcentry_ptr := create_srcentry junk source in
  match srcentry_ptr with
  | None => do! undo_group grpentry_ptr ;; ret None
  | Some _ =>
      let! mrtentry_ptr := create_mrtentry junk srcentry_ptr grpentry_ptr MRTF_SG in
      match mrtentry_ptr with
      | None =>
          do! undo_group grpentry_ptr ;;
          let! e := src srcentry_ptr in
          do! match s_mrtlink e with None => delete_srcentry srcentry_ptr | Some _ => ret tt end ;;
          ret None
      | Some _ =>
          let! m := mrt mrtentry_ptr in
          do! (if has (m_flags m) MRTF_NEW then setup_sg mrtentry_ptr grpentry_ptr srcentry_ptr source group flags
               else ret tt) ;;
          ret mrtentry_ptr
      end
  end.

(** The (star,star,RP) entry. *)
Definition pmbr_route (source group : option sockaddr_in6) : Cmd Pim ptr :=
  let! rpentry_ptr := match group, source with
                      | Some group, _ => rp_match group
                      | None, Some source => rp_find source
                      | None, None => ret None
                      end in
  match rpentry_ptr with
  | None => ret None
  | Some _ =>
      let! e := src rpentry_ptr in
      match s_mrtlink e with
      | Some _ => ret (s_mrtlink e)
      | None =>
          let! mrtentry_ptr := create_mrtentry junk rpentry_ptr None MRTF_PMBR in
          match mrtentry_ptr with
          | None => ret None
          | Some _ =>
              do! upd mrtentry_ptr (set_toward (s_incoming e) (s_upstream e) (s_metric e) (s_preference e)) ;;
              ret mrtentry_ptr
          end
      end
  end.

Definition find_route (source group : option sockaddr_in6) (flags : Z) (create : bool) : Cmd Pim ptr :=
  let! badgroup := (if has flags (Z.lor MRTF_SG MRTF_WC) then
                      chk! g := group in ret (negb (IN6_IS_ADDR_MULTICAST (sin6_addr g)))
                    else ret false) in
  if badgroup : bool then ret None else
  let! badsource := (if has flags MRTF_SG then chk! s := source in ret (negb (inet6_valid_host s))
                     else ret false) in
  if badsource : bool then ret None else
  if negb create then existing_route source group flags else
  let! grpentry_ptr := (if has flags (Z.lor MRTF_RP (Z.lor MRTF_WC MRTF_SG)) then
                          chk! g := group in create_grpentry junk g
                        else ret junk) in
  if decide (has flags (Z.lor MRTF_RP (Z.lor MRTF_WC MRTF_SG)) = true /\ grpentry_ptr = None) then ret None else
  let needs_rp := has flags (Z.lor MRTF_RP (Z.lor MRTF_WC MRTF_1ST)) in
  let! rpentry_ptr := (if needs_rp then route_rp grpentry_ptr group else ret None) in
  if decide (needs_rp = true /\ rpentry_ptr = None) then ret None else
  let! mrtentry_ptr_wc := (if has flags MRTF_WC then wc_route grpentry_ptr rpentry_ptr else ret None) in
  if decide (has flags MRTF_WC = true /\ (mrtentry_ptr_wc = None \/ has flags MRTF_SG = false)) then
    ret mrtentry_ptr_wc
  else if has flags MRTF_SG then
    chk! source := source in
    chk! group := group in
    sg_route grpentry_ptr source group flags
  else if has flags MRTF_PMBR then pmbr_route source group
  else ret None.

End Create.
