(* ===== verification/PimMsg.v ===== *)
(** * PimMsg: the messages of PIM (pimd.h, pim6.c)

    The macros that put integers and addresses into a message and get them out,
    the checksum, and [send_pim6].  A message is built in the daemon's send
    buffer; [data_ptr] is a place in it.  Every access is checked against the
    size of the buffer. *)

From stdpp Require Import base list numbers gmap.
From S2P Require Import Prelude Inet6 Pim.
Open Scope Z_scope.

Definition ADDRF_IPv6 : Z := 2.
Definition ADDRT_IPv6 : Z := 0.

Definition PIM_HELLO : Z := 0.
Definition PIM_REGISTER : Z := 1.
Definition PIM_REGISTER_STOP : Z := 2.
Definition PIM_JOIN_PRUNE : Z := 3.
Definition PIM_BOOTSTRAP : Z := 4.
Definition PIM_ASSERT : Z := 5.
Definition PIM_CAND_RP_ADV : Z := 8.
Definition PIM_PROTOCOL_VERSION : Z := 2.
Definition IPPROTO_PIM : Z := 103.

(** [sizeof (struct pim)]. *)
Definition sizeof_pim : Z := 4.

(** ** Getting *)

Definition GET_BYTE (buf : list Z) (cp : Z) : option (Z * Z) := x ← rd buf cp; Some (x, cp + 1).

Definition GET_HOSTSHORT (buf : list Z) (cp : Z) : option (Z * Z) :=
  x ← rd buf cp; y ← rd buf (cp + 1); Some (u16 (Z.lor (Z.shiftl x 8) y), cp + 2).

Definition GET_HOSTLONG (buf : list Z) (cp : Z) : option (Z * Z) :=
  a ← rd buf cp; b ← rd buf (cp + 1); c ← rd buf (cp + 2); d ← rd buf (cp + 3);
  Some (u32 (Z.lor (Z.lor (Z.lor (Z.shiftl a 24) (Z.shiftl b 16)) (Z.shiftl c 8)) d), cp + 4).

(** The encoded addresses; the flags of a source are in the place of the
    reserved byte of a group. *)
Record encod_uni_addr := mkUni { eu_family : Z; eu_type : Z; unicast_addr : list Z }.
Record encod_addr := mkEnc { ea_family : Z; ea_type : Z; ea_flags : Z; masklen : Z; enc_addr : list Z }.

Definition GET_EUADDR6 (buf : list Z) (cp : Z) : option (encod_uni_addr * Z) :=
  f ← rd buf cp; t ← rd buf (cp + 1); a ← slice buf (cp + 2) 16; Some (mkUni f t a, cp + 18).

Definition GET_EGADDR6 (buf : list Z) (cp : Z) : option (encod_addr * Z) :=
  f ← rd buf cp; t ← rd buf (cp + 1); r ← rd buf (cp + 2); m ← rd buf (cp + 3); a ← slice buf (cp + 4) 16;
  Some (mkEnc f t r m a, cp + 20).
Definition GET_ESADDR6 (buf : list Z) (cp : Z) : option (encod_addr * Z) := GET_EGADDR6 buf cp.

(** ** Putting *)

(** A buffer and the place of the next byte. *)
Definition cursor : Type := list Z * Z.

Definition put (bs : list Z) (c : cursor) : option cursor :=
  b ← store c.1 c.2 bs; Some (b, c.2 + zlen bs).

Definition PUT_BYTE (v : Z) (c : cursor) : option cursor := put [u8 v] c.
Definition PUT_HOSTSHORT (v : Z) (c : cursor) : option cursor := put (be16 (u16 v)) c.
Definition be32 (x : Z) : list Z := [u8 (Z.shiftr x 24); u8 (Z.shiftr x 16); u8 (Z.shiftr x 8); u8 x].
Definition PUT_HOSTLONG (v : Z) (c : cursor) : option cursor := put (be32 (u32 v)) c.

Definition PUT_EUADDR6 (addr : list Z) (c : cursor) : option cursor :=
  c ← put [ADDRF_IPv6; ADDRT_IPv6] c; put addr c.

(** Group and source: the bytes behind the mask are put as zeros. *)
Definition PUT_EGADDR6 (addr : list Z) (mlen reserved : Z) (c : cursor) : option cursor :=
  mask ← MASKLEN_TO_MASK6 mlen;
  c ← put [ADDRF_IPv6; ADDRT_IPv6; u8 reserved; u8 mlen] c;
  put (zip_with Z.land mask addr) c.
Definition PUT_ESADDR6 (addr : list Z) (mlen flags : Z) (c : cursor) : option cursor := PUT_EGADDR6 addr mlen flags c.

(** ** The checksum *)

(** The 16-bit words of a buffer as the machine reads them, a last odd byte as
    a word of its own. *)
Fixpoint words (b : list Z) : list Z :=
  match b with
  | x :: y :: b => (x + Z.shiftl y 8) :: words b
  | [x] => [x]
  | [] => []
  end.

Definition IN6_IS_ADDR_MC_LINKLOCAL_or_unicast (a : list Z) : bool := IN6_IS_ADDR_LINKLOCAL a || IN6_IS_ADDR_MC_LINKLOCAL a.

(** The words of an address; a link-local one may hold the interface in its
    second word, which is left out. *)
Definition addr_words (a : list Z) : list Z :=
  match words a with
  | w0 :: w1 :: ws => if IN6_IS_ADDR_MC_LINKLOCAL_or_unicast a then w0 :: ws else w0 :: w1 :: ws
  | ws => ws
  end.

Definition sum_words (l : list Z) : Z := foldl Z.add 0 l.

Definition pim6_cksum (addr src dst : list Z) (len : Z) : option Z :=
  data ← slice addr 0 len;
  let sum := sum_words (addr_words src) + sum_words (addr_words dst) +
             sum_words (words (be32 (u32 len) ++ [0; 0; 0; IPPROTO_PIM])) + sum_words (words data) in
  let sum := s32 sum in
  let sum := Z.shiftr sum 16 + Z.land sum 0xffff in
  let sum := sum + Z.shiftr sum 16 in
  Some (u16 (Z.lnot sum)).

(** ** [send_pim6] *)

Definition upd_vars (f : Vars -> Vars) : Cmd Pim unit := modify (fun s => set_vars (f (vars s)) s).

(** The header is put before the [datalen] bytes of the message; only 8 bytes
    of a register message count for the checksum.  A multicast message needs a
    link-local source. *)
Definition send_pim6 (src dst : sockaddr_in6) (type datalen : Z) : Cmd Pim unit :=
  let! s := get in
  chk! buf := store (pim6_send_buf (vars s)) 0 [type + Z.shiftl PIM_PROTOCOL_VERSION 4; 0; 0; 0] in
  let sendlen := if type =? PIM_REGISTER then sizeof_pim + 4 else sizeof_pim + datalen in
  chk! ck := pim6_cksum buf (sin6_addr src) (sin6_addr dst) sendlen in
  chk! buf := store buf 2 (le16 ck) in
  do! upd_vars (set_pim6_send_buf buf) ;;
  if IN6_IS_ADDR_MULTICAST (sin6_addr dst) && negb (IN6_IS_ADDR_LINKLOCAL (sin6_addr src)) then ret tt
  else
    chk! data := slice buf 0 (sizeof_pim + datalen) in
    upd_vars (fun w => set_sent (sent w ++ [mkPacket src dst type data]) w).

(** ** Lemmas *)

(** The buffer holds [pre] up to the place of the next byte, and has [n]
    bytes. *)
Definition written (n : Z) (pre : list Z) (c : cursor) : Prop :=
  c.2 = zlen pre /\ zlen c.1 = n /\ take (length pre) c.1 = pre.

Lemma put_written n pre c bs : written n pre c -> zlen pre + zlen bs <= n -> exists c', put bs c = Some c' /\ written n (pre ++ bs) c'.
Proof.
  intros (E & L & P) H. pose proof (zlen_nonneg pre). destruct c as [b p]. cbn in *. subst p.
  unfold put. cbn. rewrite store_Some by lia. cbn. eexists. split; [done|]. unfold written. cbn.
  rewrite zlen_to_nat, P, zlen_app. split; [lia|]. split; [|by rewrite app_assoc, take_app_length].
  rewrite !zlen_app. unfold zlen in *. rewrite length_drop. lia.
Qed.

(** Reading what was written. *)
Lemma written_slice n pre c : written n pre c -> slice c.1 0 (zlen pre) = Some pre.
Proof.
  intros (_ & L & P). pose proof (zlen_nonneg pre). rewrite slice_Some; [|lia|lia|].
  - by rewrite zlen_to_nat, drop_0, P.
  - apply (f_equal length) in P. rewrite length_take in P. unfold zlen in *. lia.
Qed.

Lemma written_split n pre c : written n pre c -> c.1 = pre ++ drop (length pre) c.1.
Proof. intros (_ & _ & P). rewrite <- P at 1. by rewrite take_drop. Qed.

(** Writing over what was written, and reading it. *)
Lemma put_over n a x y b m p q : written n (a ++ x ++ b) (m, q) -> p = zlen a -> length x = length y ->
  exists m', put y (m, p) = Some (m', p + zlen y) /\ store m p y = Some m' /\ written n (a ++ y ++ b) (m', q).
Proof.
  intros W -> E. destruct (W) as (P & L & T). cbn [fst snd] in *. exists (a ++ y ++ b ++ drop (length (a ++ x ++ b)) m).
  assert (S : store m (zlen a) y = Some (a ++ y ++ b ++ drop (length (a ++ x ++ b)) m)).
  { rewrite (written_split _ _ _ W) at 1. cbn [fst]. rewrite <- !app_assoc. by apply store_app_mid. }
  split; [unfold put; cbn [fst snd]; by rewrite S|]. split; [done|]. split; [cbn [snd]; rewrite P, !zlen_app; unfold zlen; lia|].
  split; cbn [fst]; [by rewrite (store_zlen _ _ _ _ S)|]. 
  set (w := a ++ y ++ b). replace (a ++ y ++ b ++ _) with (w ++ drop (length (a ++ x ++ b)) m) by (unfold w; by rewrite <- !app_assoc).
  by rewrite take_app_length.
Qed.

Lemma rd_written n a x b c : written n (a ++ [x] ++ b) c -> rd c.1 (zlen a) = Some x.
Proof.
  intros W. rewrite (written_split _ _ _ W), <- app_assoc. rewrite rd_app_r, Z.sub_diag by lia. done.
Qed.

Lemma slice_written n a x b c : written n (a ++ x ++ b) c -> slice c.1 (zlen a) (zlen x) = Some x.
Proof. intros W. rewrite (written_split _ _ _ W), <- !app_assoc. apply slice_app_mid. Qed.

(** Passing over [k] bytes. *)
Lemma written_skip n pre c k : written n pre c -> zlen pre + Z.of_nat k <= n ->
  exists old, length old = k /\ written n (pre ++ old) (c.1, c.2 + Z.of_nat k).
Proof.
  intros W H. pose proof (written_split _ _ _ W) as S. destruct W as (P & L & T). unfold zlen in *.
  exists (take k (drop (length pre) c.1)). assert (Lk : length (take k (drop (length pre) c.1)) = k).
  { rewrite length_take, length_drop. lia. }
  split; [done|]. split; [cbn [snd]; rewrite P; unfold zlen; rewrite length_app, Lk; lia|]. split; [done|]. cbn [fst].
  rewrite length_app, Lk. rewrite S at 1. by rewrite take_app_add.
Qed.

(** The encoded addresses as bytes; full masks. *)
Definition enc_uni (a : list Z) : list Z := ADDRF_IPv6 :: ADDRT_IPv6 :: a.
Definition enc_full (flags : Z) (a : list Z) : list Z := [ADDRF_IPv6; ADDRT_IPv6; flags; 128] ++ a.

Lemma zlen_enc_uni a : length a = 16%nat -> zlen (enc_uni a) = 18.
Proof. intros E. unfold zlen, enc_uni. cbn [length]. lia. Qed.
Lemma zlen_enc_full f a : length a = 16%nat -> zlen (enc_full f a) = 20.
Proof. intros E. unfold zlen, enc_full. rewrite length_app. cbn [length]. lia. Qed.
Lemma zlen_lit2 {A} (a b : A) : zlen [a; b] = 2.
Proof. done. Qed.
Lemma zlen_lit4 {A} (a b c d : A) : zlen [a; b; c; d] = 4.
Proof. done. Qed.
Lemma zlen_16 {A} (a : list A) : length a = 16%nat -> zlen a = 16.
Proof. intros E. unfold zlen. lia. Qed.
Lemma zlen_be16 x : zlen (be16 x) = 2.
Proof. done. Qed.
Lemma zlen_be32 x : zlen (be32 x) = 4.
Proof. done. Qed.

Lemma full_mask a : addr_ok a -> zip_with Z.land (replicate 16 0xff) a = a.
Proof.
  intros [L B]. do 17 (destruct a as [|? a]; try discriminate L).
  repeat (apply Forall_cons in B as [? B]). unfold is_byte in *. cbn.
  repeat f_equal; rewrite Z.land_comm, land_ff; by apply Z.mod_small.
Qed.

Section Put.
Context (n : Z) (pre : list Z) (c : cursor) (W : written n pre c).

Lemma PUT_BYTE_written v : zlen pre + 1 <= n -> exists c', PUT_BYTE v c = Some c' /\ written n (pre ++ [u8 v]) c'.
Proof. intros H. by apply put_written. Qed.
Lemma PUT_HOSTSHORT_written v : zlen pre + 2 <= n -> exists c', PUT_HOSTSHORT v c = Some c' /\ written n (pre ++ be16 (u16 v)) c'.
Proof. intros H. by apply put_written. Qed.
Lemma PUT_HOSTLONG_written v : zlen pre + 4 <= n -> exists c', PUT_HOSTLONG v c = Some c' /\ written n (pre ++ be32 (u32 v)) c'.
Proof. intros H. by apply put_written. Qed.
End Put.

Lemma PUT_EUADDR6_written n pre c a : written n pre c -> length a = 16%nat -> zlen pre + 18 <= n ->
  exists c', PUT_EUADDR6 a c = Some c' /\ written n (pre ++ enc_uni a) c'.
Proof.
  intros W L H. unfold PUT_EUADDR6.
  destruct (put_written n pre c [ADDRF_IPv6; ADDRT_IPv6] W) as (c1 & -> & W1); [rewrite zlen_lit2; lia|]. cbn [mbind option_bind].
  destruct (put_written n _ c1 a W1) as (c2 & -> & W2); [rewrite zlen_app, zlen_lit2, (zlen_16 a) by done; lia|].
  exists c2. split; [done|]. by rewrite <- app_assoc in W2.
Qed.

Lemma PUT_EGADDR6_written n pre c a r : written n pre c -> addr_ok a -> zlen pre + 20 <= n ->
  exists c', PUT_EGADDR6 a 128 r c = Some c' /\ written n (pre ++ enc_full (u8 r) a) c'.
Proof.
  intros W OK H. unfold PUT_EGADDR6.
  replace (MASKLEN_TO_MASK6 128) with (Some (replicate 16 0xff)) by reflexivity. cbn [mbind option_bind].
  destruct (put_written n pre c [ADDRF_IPv6; ADDRT_IPv6; u8 r; u8 128] W) as (c1 & -> & W1); [rewrite zlen_lit4; lia|].
  cbn [mbind option_bind]. rewrite full_mask by done. destruct OK as [L _].
  destruct (put_written n _ c1 a W1) as (c2 & -> & W2); [rewrite zlen_app, zlen_lit4, (zlen_16 a) by done; lia|].
  exists c2. split; [done|]. by rewrite <- app_assoc in W2.
Qed.

(** Reading at the end of [pre]. *)
Lemma rd_at {A} (pre l : list A) k x : 0 <= k -> rd l k = Some x -> rd (pre ++ l) (zlen pre + k) = Some x.
Proof. intros H E. rewrite rd_app_r by lia. by replace (zlen pre + k - zlen pre) with k by lia. Qed.

Lemma slice_at (pre a post : list Z) k : k = zlen a -> slice (pre ++ a ++ post) (zlen pre) k = Some a.
Proof. intros ->. apply slice_app_mid. Qed.

Lemma GET_BYTE_at pre x post : GET_BYTE (pre ++ [x] ++ post) (zlen pre) = Some (x, zlen (pre ++ [x])).
Proof.
  unfold GET_BYTE. replace (zlen pre) with (zlen pre + 0) at 1 by lia. rewrite (rd_at _ _ 0 x) by done.
  cbn. by rewrite zlen_app.
Qed.

Lemma GET_HOSTSHORT_at pre x post : 0 <= x < 65536 ->
  GET_HOSTSHORT (pre ++ be16 x ++ post) (zlen pre) = Some (x, zlen (pre ++ be16 x)).
Proof.
  intros H. unfold GET_HOSTSHORT. replace (zlen pre) with (zlen pre + 0) at 1 by lia.
  rewrite (rd_at _ _ 0 (u8 (Z.shiftr x 8))), (rd_at _ _ 1 (u8 x)) by done.
  cbn [mbind option_bind]. rewrite zlen_app, zlen_be16. do 2 f_equal.
  pose proof (u8_range x). rewrite lor_shiftl_add by (change (2 ^ 8) with 256; lia).
  unfold u8, u16. rewrite shiftr_8. change (2 ^ 8) with 256. zlia.
Qed.

Lemma GET_HOSTLONG_at pre x post : 0 <= x < 2 ^ 32 ->
  GET_HOSTLONG (pre ++ be32 x ++ post) (zlen pre) = Some (x, zlen (pre ++ be32 x)).
Proof.
  intros H. unfold GET_HOSTLONG. replace (zlen pre) with (zlen pre + 0) at 1 by lia.
  rewrite (rd_at _ _ 0 (u8 (Z.shiftr x 24))), (rd_at _ _ 1 (u8 (Z.shiftr x 16))), (rd_at _ _ 2 (u8 (Z.shiftr x 8))),
    (rd_at _ _ 3 (u8 x)) by done.
  cbn [mbind option_bind]. rewrite zlen_app, zlen_be32. do 2 f_equal.
  rewrite <- !Z.lor_assoc. unfold u8. rewrite !Z.shiftr_div_pow2 by lia.
  pose proof (Z.mod_pos_bound x 256 eq_refl). pose proof (Z.mod_pos_bound (x / 2 ^ 8) 256 eq_refl).
  pose proof (Z.mod_pos_bound (x / 2 ^ 16) 256 eq_refl).
  change (2 ^ 32) with 4294967296 in *. change (2 ^ 24) with 16777216 in *. change (2 ^ 16) with 65536 in *. change (2 ^ 8) with 256 in *.
  rewrite (lor_shiftl_add 8), (lor_shiftl_add 16), (lor_shiftl_add 24) by (cbn; lia).
  unfold u32. cbn [Z.pow Z.pow_pos Pos.iter Z.mul Pos.mul]. zlia.
Qed.

Lemma GET_EUADDR6_at pre a post : length a = 16%nat ->
  GET_EUADDR6 (pre ++ enc_uni a ++ post) (zlen pre) = Some (mkUni ADDRF_IPv6 ADDRT_IPv6 a, zlen (pre ++ enc_uni a)).
Proof.
  intros L. unfold GET_EUADDR6. replace (zlen pre) with (zlen pre + 0) at 1 by lia.
  rewrite (rd_at _ _ 0 ADDRF_IPv6), (rd_at _ _ 1 ADDRT_IPv6) by done. cbn [mbind option_bind].
  replace (pre ++ enc_uni a ++ post) with ((pre ++ [ADDRF_IPv6; ADDRT_IPv6]) ++ a ++ post) by by rewrite <- app_assoc.
  replace (zlen pre + 2) with (zlen (pre ++ [ADDRF_IPv6; ADDRT_IPv6])) by by rewrite zlen_app.
  rewrite slice_at by (unfold zlen; lia). cbn. by rewrite !zlen_app, zlen_enc_uni.
Qed.

Lemma GET_EGADDR6_at pre f a post : length a = 16%nat ->
  GET_EGADDR6 (pre ++ enc_full f a ++ post) (zlen pre) = Some (mkEnc ADDRF_IPv6 ADDRT_IPv6 f 128 a, zlen (pre ++ enc_full f a)).
Proof.
  intros L. unfold GET_EGADDR6. replace (zlen pre) with (zlen pre + 0) at 1 by lia.
  rewrite (rd_at _ _ 0 ADDRF_IPv6), (rd_at _ _ 1 ADDRT_IPv6), (rd_at _ _ 2 f), (rd_at _ _ 3 128) by done. cbn [mbind option_bind].
  replace (pre ++ enc_full f a ++ post) with ((pre ++ [ADDRF_IPv6; ADDRT_IPv6; f; 128]) ++ a ++ post) by by rewrite <- app_assoc.
  replace (zlen pre + 4) with (zlen (pre ++ [ADDRF_IPv6; ADDRT_IPv6; f; 128])) by by rewrite zlen_app.
  rewrite slice_at by (unfold zlen; lia). cbn [mbind option_bind]. rewrite !zlen_app, zlen_enc_full by done. done.
Qed.
