(* ===== verification/PimSend.v ===== *)
(** * PimSend: the packets that are sent

    What [send_pim6] gives to the kernel: the header with the checksum, and the
    bytes behind it as they are in the send buffer.  Whoever sums up the packet
    with its pseudo-header, as [pim6_cksum] does, gets 0 for it. *)

From stdpp Require Import base list numbers gmap.
From S2P Require Import Prelude Inet6 Pim RpMatch PimMsg.
Open Scope Z_scope.

(** The bytes that count for the checksum. *)
Definition cksum_len (type datalen : Z) : Z := if type =? PIM_REGISTER then sizeof_pim + 4 else sizeof_pim + datalen.
Definition pim_header (type ck : Z) : list Z := [type + Z.shiftl PIM_PROTOCOL_VERSION 4; 0] ++ le16 ck.

Lemma store_0 (b src : list Z) : zlen src <= zlen b -> store b 0 src = Some (src ++ drop (length src) b).
Proof. intros H. rewrite store_Some by lia. done. Qed.

Lemma slice_pre {A} (a b : list A) n : 0 <= n -> zlen a + n <= zlen (a ++ b) -> slice (a ++ b) 0 (zlen a + n) = Some (a ++ take (Z.to_nat n) b).
Proof.
  intros H L. rewrite slice_Some by (unfold zlen in *; lia). cbn [Z.to_nat drop]. rewrite drop_0.
  replace (Z.to_nat (zlen a + n)) with (length a + Z.to_nat n)%nat by (unfold zlen; lia). by rewrite take_app_add.
Qed.

(** What [send_pim6] does when it is given a message that fits in the buffer. *)
Lemma send_pim6_Ok src dst type datalen body s :
  slice (pim6_send_buf (vars s)) sizeof_pim datalen = Some body ->
  (type = PIM_REGISTER -> 4 <= datalen) ->
  (IN6_IS_ADDR_MULTICAST (sin6_addr dst) = true -> IN6_IS_ADDR_LINKLOCAL (sin6_addr src) = true) ->
  exists ck buf, pim6_cksum (pim_header type 0 ++ body) (sin6_addr src) (sin6_addr dst) (cksum_len type datalen) = Some ck /\
    zlen buf = zlen (pim6_send_buf (vars s)) /\
    send_pim6 src dst type datalen s =
      Ok tt (set_vars (set_sent (sent (vars s) ++ [mkPacket src dst type (pim_header type ck ++ body)]) (set_pim6_send_buf buf (vars s))) s).
Proof.
  intros E R ML. destruct (slice_inv _ _ _ _ E) as (_ & D0 & L & Lb). unfold sizeof_pim in *.
  set (b := pim6_send_buf (vars s)) in *. pose proof (slice_Some b 4 datalen ltac:(lia) D0 L) as E'. rewrite E in E'. injection E' as Eb.
  assert (Hcut : forall h n, length h = 4%nat -> 0 <= n <= datalen ->
    slice (h ++ drop 4 b) 0 (4 + n) = slice (h ++ body) 0 (4 + n)).
  { intros h n Hh Hn. change 4 with (Z.of_nat 4). rewrite <- Hh at 2 3. change (Z.of_nat (length h)) with (zlen h).
    assert (zlen (drop 4 b) = zlen b - 4) by (unfold zlen in *; rewrite length_drop; lia).
    rewrite !slice_pre by (rewrite ?zlen_app; lia). rewrite Eb. change (Z.to_nat 4) with 4%nat. rewrite take_take.
    by rewrite Nat.min_l by lia. }
  assert (Hn : exists n, cksum_len type datalen = 4 + n /\ 0 <= n <= datalen).
  { unfold cksum_len, sizeof_pim. destruct (type =? PIM_REGISTER) eqn:T; [apply Z.eqb_eq in T; exists 4; auto with lia|by exists datalen]. }
  destruct Hn as (n & Hn & Hn').
  pose proof (Hcut (pim_header type 0) n eq_refl Hn') as C.
  assert (exists ck, pim6_cksum (pim_header type 0 ++ body) (sin6_addr src) (sin6_addr dst) (cksum_len type datalen) = Some ck) as [ck Eck].
  { unfold pim6_cksum. rewrite Hn, <- C. rewrite slice_Some; [by eexists| lia|lia|].
    assert (zlen (drop 4 b) = zlen b - 4) by (unfold zlen in *; rewrite length_drop; lia). rewrite zlen_app.
    change (zlen (pim_header type 0)) with 4. lia. }
  exists ck, (pim_header type ck ++ drop 4 b). split; [done|]. split.
  { rewrite zlen_app. change (zlen (pim_header type ck)) with 4. unfold zlen in *. rewrite length_drop. lia. }
  unfold send_pim6. rewrite get_bind. rewrite store_0 by (change (zlen [_; _; _; _]) with 4; unfold b in *; lia).
  rewrite bind_of_Some. fold b. change (drop (length [_; _; _; _]) b) with (drop 4 b).
  change ([type + Z.shiftl PIM_PROTOCOL_VERSION 4; 0; 0; 0]) with (pim_header type 0).
  fold (cksum_len type datalen).
  assert (pim6_cksum (pim_header type 0 ++ drop 4 b) (sin6_addr src) (sin6_addr dst) (cksum_len type datalen) = Some ck) as ->.
  { rewrite <- Eck. unfold pim6_cksum. by rewrite Hn, C. }
  rewrite bind_of_Some.
  replace (store _ 2 (le16 ck)) with (Some (pim_header type ck ++ drop 4 b)).
  2:{ symmetry. exact (store_app_mid [type + Z.shiftl PIM_PROTOCOL_VERSION 4; 0] [0; 0] (le16 ck) (drop 4 b) eq_refl). }
  rewrite bind_of_Some. unfold upd_vars at 1, modify, bind at 1.
  destruct (IN6_IS_ADDR_MULTICAST (sin6_addr dst) && negb (IN6_IS_ADDR_LINKLOCAL (sin6_addr src))) eqn:G.
  { apply andb_true_iff in G as [G1 G2]. rewrite ML in G2 by done. done. }
  cbn [sizeof_pim]. unfold sizeof_pim. rewrite (Hcut (pim_header type ck) datalen eq_refl) by lia.
  rewrite <- Lb. change 4 with (zlen (pim_header type ck)) at 1. rewrite slice_pre by (rewrite ?zlen_app; lia).
  rewrite zlen_to_nat, firstn_all. done.
Qed.

(** ** The checksum (RFC 1071, RFC 2460 section 8.1)

    The ones' complement sum of the 16-bit words, in network byte order, of the
    pseudo-header and the message is a multiple of 65535. *)

Fixpoint be_words (b : list Z) : list Z :=
  match b with
  | x :: y :: b => (256 * x + y) :: be_words b
  | [x] => [256 * x]
  | [] => []
  end.

(** A link-local address as it is sent: without the interface. *)
Definition wire_addr (a : list Z) : list Z :=
  match a with
  | x0 :: x1 :: _ :: _ :: r => if IN6_IS_ADDR_MC_LINKLOCAL_or_unicast a then x0 :: x1 :: 0 :: 0 :: r else a
  | _ => a
  end.
Definition pseudo_header (src dst : list Z) (len : Z) : list Z := wire_addr src ++ wire_addr dst ++ be32 len ++ [0; 0; 0; IPPROTO_PIM].
Definition cksum_valid (b : list Z) : Prop := (65535 | sum_words (be_words b)).

Lemma sum_words_cons x l : sum_words (x :: l) = x + sum_words l.
Proof.
  assert (H : forall a, foldl Z.add a l = a + foldl Z.add 0 l).
  { induction l as [|y l IH]; intros a; cbn [foldl]; [lia|]. rewrite IH, (IH (0 + y)). lia. }
  unfold sum_words. cbn [foldl]. rewrite H. lia.
Qed.

Lemma sum_words_app l k : sum_words (l ++ k) = sum_words l + sum_words k.
Proof. induction l as [|x l IH]; [done|]. cbn [app]. rewrite !sum_words_cons, IH. lia. Qed.

(** The words of the machine and those of the network. *)
Lemma words_be b : (65535 | 256 * sum_words (be_words b) - sum_words (words b)).
Proof.
  induction b as [|x|x y b [k IH]] using list_ind2; cbn [be_words words]; rewrite ?sum_words_cons.
  - by exists 0.
  - exists x. change (sum_words []) with 0. lia.
  - exists (x + k). rewrite shiftl_8. lia.
Qed.

Lemma words_app a b : Nat.Even (length a) -> words (a ++ b) = words a ++ words b.
Proof.
  induction a as [|x|x y a IH] using list_ind2; cbn [length]; intros [k E].
  - done.
  - lia.
  - cbn [app words]. rewrite IH; [done|]. exists (pred k). lia.
Qed.

Lemma words_range b : bytes b -> 0 <= sum_words (words b) <= 65535 * ((zlen b + 1) / 2).
Proof.
  induction b as [|x|x y b IH] using list_ind2; intros B; cbn [words]; rewrite ?sum_words_cons.
  - done.
  - apply Forall_cons in B as [Hx _]. unfold is_byte in *. change (sum_words []) with 0.
    change ((zlen [x] + 1) / 2) with 1. lia.
  - apply Forall_cons in B as [Hx B]. apply Forall_cons in B as [Hy B]. specialize (IH B). unfold is_byte in *.
    rewrite !zlen_cons, shiftl_8. replace (1 + (1 + zlen b) + 1) with (zlen b + 1 + 1 * 2) by lia. rewrite Z.div_add by lia. lia.
Qed.

Lemma addr_words_wire a : addr_ok a -> sum_words (addr_words a) = sum_words (words (wire_addr a)) /\ length (wire_addr a) = 16%nat /\
  bytes (wire_addr a).
Proof.
  intros [L B]. do 4 (destruct a as [|? a]; [discriminate L|]). unfold addr_words, wire_addr.
  set (LL := IN6_IS_ADDR_MC_LINKLOCAL_or_unicast _). cbn [words]. destruct LL; [|done].
  cbn [words]. rewrite !sum_words_cons. change (Z.shiftl 0 8) with 0. split; [lia|]. split; [done|].
  unfold bytes in *. rewrite !Forall_cons in *. unfold is_byte in *. naive_solver lia.
Qed.

(** Folding the sum to 16 bits, and its complement. *)
Definition cksum_of (sum : Z) : Z :=
  let sum := Z.shiftr sum 16 + Z.land sum 0xffff in
  let sum := sum + Z.shiftr sum 16 in
  u16 (Z.lnot sum).

Lemma cksum_of_divides x : 0 < x < 2 ^ 31 -> (65535 | x + cksum_of x) /\ 0 <= cksum_of x < 65536.
Proof.
  intros H. change (2 ^ 31) with 2147483648 in H. unfold cksum_of. rewrite !Z.shiftr_div_pow2, land_ffff by lia.
  change (2 ^ 16) with 65536. unfold u16, Z.lnot. change (2 ^ 16) with 65536. set (a := x / 65536). set (b := x mod 65536).
  assert (x = 65536 * a + b) by (apply Z.div_mod; lia). assert (0 <= b < 65536) by by apply Z.mod_pos_bound.
  clearbody a b. assert (0 <= a < 32768) by lia. split; [|by apply Z.mod_pos_bound].
  destruct (decide (a + b < 65536)).
  - rewrite (Z.div_small (a + b)) by lia. exists (a + 1). zlia.
  - replace ((a + b) / 65536) with 1 by zlia. exists (a + 2). zlia.
Qed.

Lemma pim6_cksum_of b src dst n d : slice b 0 n = Some d ->
  pim6_cksum b src dst n = Some (cksum_of (s32 (sum_words (addr_words src) + sum_words (addr_words dst) +
    sum_words (words (be32 (u32 n) ++ [0; 0; 0; IPPROTO_PIM])) + sum_words (words d)))).
Proof. intros E. unfold pim6_cksum. by rewrite E. Qed.

Lemma even_16 {A} (a : list A) : length a = 16%nat -> Nat.Even (length a).
Proof. intros ->. by exists 8%nat. Qed.

(** The words of the pseudo-header and a message. *)
Lemma pseudo_words src dst len d : addr_ok src -> addr_ok dst ->
  sum_words (words (pseudo_header src dst len ++ d)) =
  sum_words (addr_words src) + sum_words (addr_words dst) + sum_words (words (be32 len ++ [0; 0; 0; IPPROTO_PIM])) + sum_words (words d).
Proof.
  intros Hs Hd. destruct (addr_words_wire src Hs) as (-> & Ls & _). destruct (addr_words_wire dst Hd) as (-> & Ld & _).
  unfold pseudo_header. rewrite <- !app_assoc, (words_app (wire_addr src)), (words_app (wire_addr dst)) by by apply even_16.
  rewrite (app_assoc (be32 len)), words_app by by exists 4%nat. rewrite !sum_words_app. lia.
Qed.

Lemma words_header type ck d : words (pim_header type ck ++ d) = (type + Z.shiftl PIM_PROTOCOL_VERSION 4) :: (u8 ck + Z.shiftl (u8 (Z.shiftr ck 8)) 8) :: words d.
Proof. cbn [words app pim_header le16]. change (Z.shiftl 0 8) with 0. by rewrite Z.add_0_r. Qed.

Lemma le16_word ck : 0 <= ck < 65536 -> u8 ck + Z.shiftl (u8 (Z.shiftr ck 8)) 8 = ck.
Proof. intros H. rewrite shiftl_8, shiftr_8. unfold u8. change (2 ^ 8) with 256. zlia. Qed.

Lemma addr_words_range a : addr_ok a -> 0 <= sum_words (addr_words a) <= 65535 * 8.
Proof.
  intros H. destruct (addr_words_wire a H) as (-> & L & B). pose proof (words_range _ B) as R. unfold zlen in R. rewrite L in R.
  exact R.
Qed.

(** A daemon with a hello message in its buffer, for the witness. *)
Definition src1 : sockaddr_in6 := mkSa 1 ([0xfe; 0x80] ++ replicate 13 0 ++ [1]).
Definition dst1 : sockaddr_in6 := mkSa 0 ([0xff; 0x02] ++ replicate 13 0 ++ [0x0d]).

Definition daemon1 : Pim :=
  mkPim ∅ ∅ ∅ ∅ ∅ ∅ ∅ 0 [] None None None None [] [] 0 0 src1 [] (fun a => (a, 0))
    (set_pim6_send_buf ([0; 0; 0; 0] ++ [0; 1; 0; 2; 0; 105] ++ replicate 22 0) idle_vars).

(** ** Properties *)

(** C10. a packet that [send_pim6] gives to the kernel holds the message from the
    send buffer behind a header with its type, and its checksum is right: with
    the pseudo-header of IPv6 the ones' complement sum of its words, or of the
    first eight bytes of a register message, is zero. *)
Theorem send_pim6_cksum_valid src dst type datalen body s :
  slice (pim6_send_buf (vars s)) sizeof_pim datalen = Some body -> bytes body ->
  addr_ok (sin6_addr src) -> addr_ok (sin6_addr dst) -> 0 <= type < 16 -> datalen <= 65000 ->
  (type = PIM_REGISTER -> 4 <= datalen) ->
  (IN6_IS_ADDR_MULTICAST (sin6_addr dst) = true -> IN6_IS_ADDR_LINKLOCAL (sin6_addr src) = true) ->
  exists s' p ck, send_pim6 src dst type datalen s = Ok tt s' /\ sent (vars s') = sent (vars s) ++ [p] /\
    pk_data p = pim_header type ck ++ body /\
    cksum_valid (pseudo_header (sin6_addr src) (sin6_addr dst) (cksum_len type datalen) ++
                 take (Z.to_nat (cksum_len type datalen)) (pk_data p)).
Proof.
  intros E B Hs Hd Ht Hlen R ML. destruct (send_pim6_Ok src dst type datalen body s E R ML) as (ck & buf & Eck & _ & ->).
  eexists _, _, ck. split; [done|]. split; [done|]. split; [done|]. cbn [pk_data].
  destruct (slice_inv _ _ _ _ E) as (_ & D0 & _ & Lb).
  assert (exists n, cksum_len type datalen = 4 + n /\ 0 <= n <= datalen) as (n & Hn & Hn').
  { unfold cksum_len, sizeof_pim. destruct (type =? PIM_REGISTER) eqn:T; [apply Z.eqb_eq in T; exists 4; auto with lia|by exists datalen]. }
  rewrite Hn in *. assert (Hcut : forall ck, slice (pim_header type ck ++ body) 0 (4 + n) = Some (pim_header type ck ++ take (Z.to_nat n) body)).
  { intros k. change 4 with (zlen (pim_header type k)) at 1. apply slice_pre; [lia|]. rewrite zlen_app. change (zlen (pim_header type k)) with 4. lia. }
  assert (take (Z.to_nat (4 + n)) (pim_header type ck ++ body) = pim_header type ck ++ take (Z.to_nat n) body) as ->.
  { specialize (Hcut ck). unfold slice in Hcut. case_decide; [|done]. by injection Hcut. }
  rewrite (pim6_cksum_of _ _ _ _ _ (Hcut 0)) in Eck. apply (inj Some) in Eck. set (d := take (Z.to_nat n) body) in *.
  unfold cksum_valid. apply Z.gauss with 256; [|done].
  match goal with |- (_ | 256 * sum_words (be_words ?l)) => destruct (words_be l) as [k Hk]; set (X := 256 * _) in *; set (Y := sum_words (words l)) in * end.
  assert (HY : (65535 | Y)); [|destruct HY as [q Hq]; exists (k + q); lia]. subst Y.
  rewrite pseudo_words by done. rewrite words_header in *. rewrite u32_small in Eck by lia.
  assert (Rp : 0 <= sum_words (words (be32 (4 + n) ++ [0; 0; 0; IPPROTO_PIM])) <= 65535 * 4).
  { apply words_range. apply bytes_app; split; repeat constructor; try apply u8_range; unfold is_byte, IPPROTO_PIM; lia. }
  remember (sum_words (words (be32 (4 + n) ++ _))) as P.
 rewrite !sum_words_cons in *. change (Z.shiftl 0 8) with 0 in *. change (u8 0 + Z.shiftl (u8 (Z.shiftr 0 8)) 8) with 0 in Eck.
  assert (Bd : bytes d) by by apply bytes_take. pose proof (words_range d Bd) as Rd.
  assert (zlen d <= 65000) by (unfold d, zlen in *; rewrite length_take; lia).
  pose proof (addr_words_range _ Hs). pose proof (addr_words_range _ Hd).
  assert ((zlen d + 1) / 2 <= 32501) by zlia. change (Z.shiftl PIM_PROTOCOL_VERSION 4) with 32 in *.
  match type of Eck with cksum_of (s32 ?S) = _ => set (sum := S) in * end.
  assert (HS : 0 < sum < 2 ^ 31) . { change (2 ^ 31) with 2147483648; unfold sum. lia. }
  assert (s32 sum = sum) as Es by (unfold s32; rewrite u32_small by lia; rewrite decide_True; lia).
  rewrite Es in Eck. destruct (cksum_of_divides sum HS) as [[q Hq] Hr]. rewrite Eck in *.
  exists q. rewrite <- Hq. unfold sum. rewrite le16_word by lia. lia.
Qed.

(** A packet to the routers of a link. *)
Lemma send_pim6_cksum_valid_witness : exists s' p ck,
  send_pim6 src1 dst1 PIM_HELLO 6 daemon1 = Ok tt s' /\ sent (vars s') = sent (vars daemon1) ++ [p] /\
  pk_data p = pim_header PIM_HELLO ck ++ [0; 1; 0; 2; 0; 105] /\
  cksum_valid (pseudo_header (sin6_addr src1) (sin6_addr dst1) (cksum_len PIM_HELLO 6) ++
                 take (Z.to_nat (cksum_len PIM_HELLO 6)) (pk_data p)).
Proof.
  apply send_pim6_cksum_valid; try done; try (split; [done|]); repeat constructor; unfold is_byte; try lia.
Defined.
