(* ===== verification/Oifs.v ===== *)
(** * Oifs: the outgoing interfaces of routes (route.c)

    An entry has four sets of interfaces of its own: those where a join was
    received, a prune, local listeners, a lost assert.  [calc_oifs] makes the
    outgoing interfaces of them and of what the (star,star,RP) and the (star,G)
    entry have; [change_interfaces] changes the sets of an entry, keeps the
    interfaces of the entries that inherit from it and tells the kernel. *)

From stdpp Require Import base list numbers gmap.
From S2P Require Import Prelude Inet6 Pim RpMatch Vif Mrt.
Open Scope Z_scope.

(** ** kern.c *)

(** The kernel gets the outgoing interfaces there are, without the incoming
    one. *)
Definition k_chg_mfc (source group : sockaddr_in6) (iif oifs : Z) : Cmd Pim unit :=
  modify (fun s => set_kcalls (kcalls s ++
    [k_chg_mfc_call source group iif (IF_CLR iif (Z.land oifs (Z.ones (zlen (uvifs s)))))]) s).

(** ** calc_oifs *)

(** [oifs] changed by the sets of an entry: joined in, pruned out, leaves in,
    asserted out. *)
Definition merge_oifs (oifs : Z) (m : mrtentry) : Z :=
  let oifs := IF_MERGE oifs (m_joined_oifs m) in
  let oifs := IF_CLR_MASK oifs (m_pruned_oifs m) in
  let oifs := IF_MERGE oifs (m_leaves m) in
  IF_CLR_MASK oifs (m_asserted_oifs m).

(** The same for the entry at [p], if there is one. *)
Definition merge_route (oifs : Z) (p : ptr) : Cmd Pim Z :=
  match p with Some _ => let! m := mrt p in ret (merge_oifs oifs m) | None => ret oifs end.

(** What an entry inherits. *)
Definition inherited_oifs (m : mrtentry) : Cmd Pim Z :=
  match m_group m with
  | None => ret 0
  | Some _ =>
      let! g := grp (m_group m) in
      let! s := get in
      if SSMGROUP s (g_group g) then ret 0 else
      let! oifs := (if negb (has (m_flags m) MRTF_PMBR) then let! r := rp_route (m_group m) in merge_route 0 r
                    else ret 0) in
      if has (m_flags m) MRTF_SG then merge_route oifs (g_grp_route g) else ret oifs
  end.

Definition calc_oifs (mrtentry_ptr : ptr) : Cmd Pim Z :=
  match mrtentry_ptr with
  | None => ret 0
  | Some _ =>
      let! m := mrt mrtentry_ptr in
      let! oifs := inherited_oifs m in
      ret (merge_oifs oifs m)
  end.

(** ** change_interfaces *)

(** All cache entries of an entry get new interfaces. *)
Fixpoint chg_caches (fuel : nat) (kernel_cache_ptr : ptr) (iif oifs : Z) : Cmd Pim unit :=
  match fuel with
  | O => halt OutOfFuel
  | S fuel =>
    match kernel_cache_ptr with
    | None => ret tt
    | Some _ =>
        let! c := cache kernel_cache_ptr in
        do! k_chg_mfc (k_source c) (k_group c) iif oifs ;;
        let! c := cache kernel_cache_ptr in
        chg_caches fuel (k_next c) iif oifs
    end
  end.

(** The loop of the (star,star,RP) branch that deletes all cache entries once for
    every one of them. *)
Fixpoint del_caches (fuel : nat) (mrtentry_ptr kernel_cache_ptr : ptr) : Cmd Pim unit :=
  match fuel with
  | O => halt OutOfFuel
  | S fuel =>
    match kernel_cache_ptr with
    | None => ret tt
    | Some _ =>
        do! delete_mrtentry_all_kernel_cache mrtentry_ptr ;;
        let! c := cache kernel_cache_ptr in
        del_caches fuel mrtentry_ptr (k_next c)
    end
  end.

Section Change.
(** [change_interfaces] calls itself. *)
Context (change_interfaces : ptr -> Z -> Z -> Z -> Z -> Z -> Z -> Cmd Pim Z).

(** The call with the entry's own sets. *)
Definition refresh_with (mrtentry_ptr : ptr) (iif flags : Z) : Cmd Pim Z :=
  let! m := mrt mrtentry_ptr in
  change_interfaces mrtentry_ptr iif (m_joined_oifs m) (m_pruned_oifs m) (m_leaves m) (m_asserted_oifs m) flags.

(** The (S,G) entries of a group: has one of them changed? *)
Fixpoint srcs_loop (fuel : nat) (mrtentry_srcs : ptr) (new_iif flags : Z) (fire_timer_flag : bool) : Cmd Pim bool :=
  match fuel with
  | O => halt OutOfFuel
  | S fuel =>
    match mrtentry_srcs with
    | None => ret fire_timer_flag
    | Some _ =>
        let! m := mrt mrtentry_srcs in
        let iif := if has (m_flags m) MRTF_RP then new_iif else m_incoming m in
        let! r := refresh_with mrtentry_srcs iif flags in
        let! m := mrt mrtentry_srcs in
        srcs_loop fuel (m_grpnext m) new_iif flags (fire_timer_flag || negb (r =? 0))
    end
  end.

(** The groups of an RP-set entry. *)
Fixpoint groups_loop (fuel : nat) (grpentry_ptr : ptr) (new_iif flags : Z) (fire_timer_flag : bool) : Cmd Pim bool :=
  match fuel with
  | O => halt OutOfFuel
  | S fuel =>
    match grpentry_ptr with
    | None => ret fire_timer_flag
    | Some _ =>
        let! s := get in
        let! g := grp grpentry_ptr in
        let! fire_timer_flag :=
          match g_grp_route g with
          | Some _ => let! r := refresh_with (g_grp_route g) new_iif flags in ret (fire_timer_flag || negb (r =? 0))
          | None => srcs_loop (fuel_of s) (g_mrtlink g) new_iif flags fire_timer_flag
          end in
        let! g := grp grpentry_ptr in
        groups_loop fuel (g_rpnext g) new_iif flags fire_timer_flag
    end
  end.

(** The RP-set entries of an RP. *)
Fixpoint rp_grps_loop (fuel : nat) (rp_grp_entry_ptr : ptr) (new_iif flags : Z) (fire_timer_flag : bool) : Cmd Pim bool :=
  match fuel with
  | O => halt OutOfFuel
  | S fuel =>
    match rp_grp_entry_ptr with
    | None => ret fire_timer_flag
    | Some _ =>
        let! s := get in
        let! r := rpg rp_grp_entry_ptr in
        let! fire_timer_flag := groups_loop (fuel_of s) (rg_grplink r) new_iif flags fire_timer_flag in
        let! r := rpg rp_grp_entry_ptr in
        rp_grps_loop fuel (rp_grp_next r) new_iif flags fire_timer_flag
    end
  end.

Definition fire_jp (fire_timer_flag : bool) (mrtentry_ptr : ptr) : Cmd Pim unit :=
  if fire_timer_flag then upd mrtentry_ptr (set_m_jp_timer 0) else ret tt.

(** The (star,star,RP) branch. *)
Definition change_pmbr (mrtentry_ptr : ptr) (new_iif new_real_oifs flags return_value : Z) : Cmd Pim Z :=
  let! s := get in
  let! m := mrt mrtentry_ptr in
  match m_source m with
  | None => ret 0
  | Some _ =>
      do! upd (m_source m) (set_s_incoming new_iif) ;;
      let! e := src (m_source m) in
      do! (if has (m_flags m) MRTF_KERNEL_CACHE then
             if IF_ISEMPTY new_real_oifs then del_caches (fuel_of s) mrtentry_ptr (m_kernel_cache m)
             else chg_caches (fuel_of s) (m_kernel_cache m) new_iif new_real_oifs
           else ret tt) ;;
      let! c := crp (s_cand_rp e) in
      let! fire_timer_flag := rp_grps_loop (fuel_of s) (c_rp_grp_next c) new_iif flags false in
      do! fire_jp fire_timer_flag mrtentry_ptr ;;
      ret return_value
  end.

(** The (star,G) branch. *)
Definition change_wc (mrtentry_ptr : ptr) (new_iif new_real_oifs flags return_value : Z) : Cmd Pim Z :=
  let! s := get in
  let! m := mrt mrtentry_ptr in
  do! (if has (m_flags m) MRTF_KERNEL_CACHE then
         if IF_ISEMPTY new_real_oifs then delete_mrtentry_all_kernel_cache mrtentry_ptr
         else chg_caches (fuel_of s) (m_kernel_cache m) new_iif new_real_oifs
       else ret tt) ;;
  let! g := grp (m_group m) in
  let! fire_timer_flag := srcs_loop (fuel_of s) (g_mrtlink g) new_iif flags false in
  do! fire_jp fire_timer_flag mrtentry_ptr ;;
  ret return_value.

(** Is there an entry at [p], with the incoming interface [iif]? *)
Definition incoming_is (p : ptr) (iif : Z) : Cmd Pim bool :=
  match p with Some _ => let! m := mrt p in ret (m_incoming m =? iif) | None => ret false end.

(** The flags of an (S,G) entry whose incoming interface is a new one. *)
Definition switch_flags (mrtentry_ptr mrtentry_wc mrtentry_rp : ptr) (new_iif : Z) : Cmd Pim unit :=
  let! m := mrt mrtentry_ptr in
  let! e := src (m_source m) in
  do! (if new_iif =? s_incoming e then upd mrtentry_ptr (flag_off MRTF_RP) else ret tt) ;;
  let! wc := incoming_is mrtentry_wc new_iif in
  let! rp := (if wc : bool then ret true else incoming_is mrtentry_rp new_iif) in
  if rp : bool then upd mrtentry_ptr (fun m => flag_on MRTF_RP (flag_off MRTF_SPT m)) else ret tt.

(** The (S,G) branch. *)
Definition change_sg (mrtentry_ptr : ptr) (old_iif new_iif new_real_oifs return_value : Z) : Cmd Pim Z :=
  let! s := get in
  let! m := mrt mrtentry_ptr in
  let! g := grp (m_group m) in
  let! mrtentry_rp := (if SSMGROUP s (g_group g) then ret None else rp_route (m_group m)) in
  let mrtentry_wc := if SSMGROUP s (g_group g) then None else g_grp_route g in
  do! (if has (m_flags m) MRTF_KERNEL_CACHE then
         if IF_ISEMPTY new_real_oifs then delete_mrtentry_all_kernel_cache mrtentry_ptr
         else let! e := src (m_source m) in k_chg_mfc (s_address e) (g_group g) new_iif new_real_oifs
       else ret tt) ;;
  do! (if old_iif =? new_iif then ret tt else switch_flags mrtentry_ptr mrtentry_wc mrtentry_rp new_iif) ;;
  ret return_value.

(** 1: from no interface to some, -1: from some to none. *)
Definition oifs_change (old_real_oifs new_real_oifs : Z) : Z :=
  if IF_ISEMPTY old_real_oifs then if IF_ISEMPTY new_real_oifs then 0 else 1
  else if IF_ISEMPTY new_real_oifs then -1 else 0.

Definition change_interfaces_with (mrtentry_ptr : ptr)
    (new_iif new_joined_oifs new_pruned_oifs new_leaves new_asserted_oifs flags : Z) : Cmd Pim Z :=
  match mrtentry_ptr with
  | None => ret 0
  | Some _ =>
      let! old := mrt mrtentry_ptr in
      do! upd mrtentry_ptr (fun m =>
        set_m_asserted_oifs new_asserted_oifs (set_m_leaves new_leaves (set_m_pruned_oifs new_pruned_oifs
          (set_m_joined_oifs new_joined_oifs (set_m_incoming new_iif m))))) ;;
      let! new_real_oifs := calc_oifs mrtentry_ptr in
      let return_value := oifs_change (m_oifs old) new_real_oifs in
      let force := has flags MFC_UPDATE_FORCE in
      if IF_SAME new_real_oifs (m_oifs old) && (new_iif =? m_incoming old) && negb force then ret 0 else
      do! fire_jp (negb (return_value =? 0) || negb (new_iif =? m_incoming old) || force) mrtentry_ptr ;;
      do! upd mrtentry_ptr (set_m_oifs new_real_oifs) ;;
      if has (m_flags old) MRTF_PMBR then change_pmbr mrtentry_ptr new_iif new_real_oifs flags return_value
      else if has (m_flags old) MRTF_WC then change_wc mrtentry_ptr new_iif new_real_oifs flags return_value
      else if has (m_flags old) MRTF_SG then change_sg mrtentry_ptr (m_incoming old) new_iif new_real_oifs return_value
      else ret return_value
  end.
End Change.

(** The calls are three deep: (star,star,RP), (star,G), (S,G). *)
Fixpoint change_interfaces_at (depth : nat) : ptr -> Z -> Z -> Z -> Z -> Z -> Z -> Cmd Pim Z :=
  match depth with
  | O => fun _ _ _ _ _ _ _ => halt OutOfFuel
  | S depth => change_interfaces_with (change_interfaces_at depth)
  end.

Definition change_interfaces : ptr -> Z -> Z -> Z -> Z -> Z -> Z -> Cmd Pim Z := change_interfaces_at 3.
Definition refresh : ptr -> Z -> Z -> Cmd Pim Z := refresh_with change_interfaces.
