(* ===== verification/OifsWeb.v ===== *)
(** * OifsWeb: the entries of the routing table and what they inherit

    [web] says how the structures of the table hang together; an entry is
    settled when its outgoing interfaces are what its own sets make of those of
    the entry it inherits from.  [only D] is a step of the memory that changes the
    entries in [D] and what belongs to them; such steps keep the web. *)

From stdpp Require Import base list numbers gmap sorting.
From S2P Require Import Prelude Inet6 Pim RpMatch Vif Mrt Oifs.
Open Scope Z_scope.

#[local] Arguments SSMGROUP : simpl never.
#[local] Arguments has : simpl never.

(** ** Lists read forward *)

Fixpoint follow (nx : nat -> option ptr) (p : ptr) (l : list nat) : Prop :=
  match l with
  | [] => p = None
  | i :: l => p = Some i /\ exists n, nx i = Some n /\ follow nx n l
  end.

Section Follow.
Implicit Types (nx : nat -> option ptr) (p : ptr) (l : list nat).

Lemma follow_det nx l : forall l' p, follow nx p l -> follow nx p l' -> l = l'.
Proof.
  induction l as [|i l IH]; intros [|i' l'] p; cbn; try done.
  - by intros -> [? _].
  - by intros [-> _] ?.
  - intros (-> & n & E & H) ([= <-] & n' & E' & H'). rewrite E in E'. injection E' as <-. f_equal. by eapply IH.
Qed.

Lemma follow_app nx l1 l2 p : follow nx p (l1 ++ l2) -> exists q, follow nx q l2.
Proof.
  revert p. induction l1 as [|i l1 IH]; intros p H; [by exists p|]. destruct H as (_ & n & _ & H). by eapply IH.
Qed.

Lemma follow_NoDup nx l : forall p, follow nx p l -> NoDup l.
Proof.
  induction l as [|i l IH]; intros p H; [constructor|]. assert (H' := H). destruct H as (-> & n & E & H).
  constructor; [|by eapply IH]. intros Hi. apply list_elem_of_split in Hi as (l1 & l2 & ->).
  destruct (follow_app _ (l1) (i :: l2) _ H) as [q Hq]. assert (q = Some i) as -> by apply Hq.
  pose proof (follow_det _ _ _ _ Hq H') as D. apply (f_equal length) in D.
  cbn [length] in D. rewrite length_app in D. cbn in D. lia.
Qed.

Lemma follow_frame nx nx' l : forall p, follow nx p l -> (forall i, i ∈ l -> nx' i = nx i) -> follow nx' p l.
Proof.
  induction l as [|i l IH]; intros p; cbn; [done|]. intros (-> & n & E & H) F. split; [done|].
  exists n. rewrite F by left. split; [done|]. apply IH; [done|]. intros j Hj. apply F. by right.
Qed.

Lemma follow_in nx l i : forall p, follow nx p l -> i ∈ l -> is_Some (nx i).
Proof.
  induction l as [|j l IH]; intros p H Hi; [by apply not_elem_of_nil in Hi|]. destruct H as (-> & n & E & H).
  apply elem_of_cons in Hi as [->|Hi]; [by eexists|by eapply IH].
Qed.

(** A list is not longer than the addresses its nodes can have. *)
Lemma follow_length nx l p n : follow nx p l -> (forall i, is_Some (nx i) -> (i < n)%nat) -> (length l <= n)%nat.
Proof.
  intros H B. rewrite <- (length_seq n 0). apply submseteq_length, NoDup_submseteq; [by eapply follow_NoDup|].
  intros i Hi. apply elem_of_seq. split; [lia|]. apply B. by eapply follow_in.
Qed.
End Follow.

Definition sg_next (s : Pim) (i : nat) : option ptr := m_grpnext <$> mrts s !! i.
Definition gr_next (s : Pim) (i : nat) : option ptr := g_rpnext <$> grps s !! i.
Definition rg_next (s : Pim) (i : nat) : option ptr := rp_grp_next <$> rpgs s !! i.
Definition kc_next (s : Pim) (i : nat) : option ptr := k_next <$> caches s !! i.

(** The cache entries of an entry. *)
Definition klist (s : Pim) (m : mrtentry) (l : list nat) : Prop := follow (kc_next s) (m_kernel_cache m) l.

(** ** The web of entries *)

Definition is_rp (m : mrtentry) : Prop := has (m_flags m) MRTF_PMBR = true.
Definition is_wc (m : mrtentry) : Prop :=
  has (m_flags m) MRTF_PMBR = false /\ has (m_flags m) MRTF_WC = true /\ has (m_flags m) MRTF_SG = false.
Definition is_sg (m : mrtentry) : Prop :=
  has (m_flags m) MRTF_PMBR = false /\ has (m_flags m) MRTF_WC = false /\ has (m_flags m) MRTF_SG = true.

(** The (star,star,RP) entry of a group's RP. *)
Definition route_of (s : Pim) (g : grpentry) : option ptr :=
  r ← g_active_rp_grp g; r ← rpgs s !! r; c ← rg_rp r; c ← crps s !! c; e ← c_rpentry c; e ← srcs s !! e;
  Some (s_mrtlink e).

(** The groups of the RP that has entry [m]. *)
Definition serves (s : Pim) (m : mrtentry) (gs : list nat) : Prop :=
  exists e n c cr rs gss, m_source m = Some e /\ srcs s !! e = Some n /\ s_cand_rp n = Some c /\ crps s !! c = Some cr /\
    follow (rg_next s) (c_rp_grp_next cr) rs /\
    Forall2 (fun r l => exists x, rpgs s !! r = Some x /\ follow (gr_next s) (rg_grplink x) l) rs gss /\
    gs = concat gss.

Definition key_of (c : kernel_cache) : sockaddr_in6 * sockaddr_in6 := (k_source c, k_group c).

(** Entries of a group: its RP is known, or not needed. *)
Definition rp_known (s : Pim) (g : grpentry) : Prop :=
  SSMGROUP s (g_group g) = true \/
  exists p, route_of s g = Some p /\ forall i, p = Some i -> exists m, mrts s !! i = Some m /\ is_rp m.

Record web (s : Pim) : Prop := {
  wb_mrts : forall i, is_Some (mrts s !! i) -> (i < brk s)%nat;
  wb_caches : forall i, is_Some (caches s !! i) -> (i < brk s)%nat;
  wb_grps : forall i, is_Some (grps s !! i) -> (i < brk s)%nat;
  wb_rpgs : forall i, is_Some (rpgs s !! i) -> (i < brk s)%nat;
  wb_kind : forall i m, mrts s !! i = Some m -> is_rp m \/ is_wc m \/ is_sg m;
  wb_rp : forall i m, mrts s !! i = Some m -> is_rp m -> m_group m = None /\
    exists gs, serves s m gs /\ forall g, g ∈ gs <-> exists x, grps s !! g = Some x /\ route_of s x = Some (Some i);
  wb_wc : forall i m, mrts s !! i = Some m -> is_wc m ->
    exists g x, m_group m = Some g /\ grps s !! g = Some x /\ g_grp_route x = Some i /\ rp_known s x;
  wb_sg : forall i m, mrts s !! i = Some m -> is_sg m ->
    exists g x e n, m_group m = Some g /\ grps s !! g = Some x /\ rp_known s x /\ m_source m = Some e /\ srcs s !! e = Some n;
  wb_route : forall g x i, grps s !! g = Some x -> g_grp_route x = Some i ->
    exists m, mrts s !! i = Some m /\ is_wc m /\ m_group m = Some g;
  wb_list : forall g x, grps s !! g = Some x -> exists l, follow (sg_next s) (g_mrtlink x) l /\
    forall i, i ∈ l <-> exists m, mrts s !! i = Some m /\ is_sg m /\ m_group m = Some g;
  wb_cache : forall i m, mrts s !! i = Some m -> exists l, klist s m l /\ (has (m_flags m) MRTF_KERNEL_CACHE = true <-> l <> []) /\
    forall c x g y e n, is_sg m -> c ∈ l -> caches s !! c = Some x -> m_group m = Some g -> grps s !! g = Some y ->
      m_source m = Some e -> srcs s !! e = Some n -> key_of x = (s_address n, g_group y);
  wb_apart : forall i j m m' l l' c, mrts s !! i = Some m -> mrts s !! j = Some m' -> klist s m l -> klist s m' l' ->
    c ∈ l -> c ∈ l' -> i = j;
  wb_keys : forall c c' x x', caches s !! c = Some x -> caches s !! c' = Some x' -> key_of x = key_of x' -> c = c'
}.

(** ** What an entry inherits *)

(** The entry that [m] inherits from. *)
Definition parent (s : Pim) (m : mrtentry) : ptr :=
  g ← m_group m; x ← grps s !! g;
  if SSMGROUP s (g_group x) then None
  else if has (m_flags m) MRTF_SG then match g_grp_route x with Some w => Some w | None => default None (route_of s x) end
  else default None (route_of s x).

Definition oifs_at (s : Pim) (p : ptr) : Z := match p ≫= fun j => mrts s !! j with Some w => m_oifs w | None => 0 end.

(** The interfaces of the entry are those that its own sets make of what it
    inherits. *)
Definition settled (s : Pim) (i : nat) : Prop :=
  forall m, mrts s !! i = Some m -> m_oifs m = merge_oifs (oifs_at s (parent s m)) m.

Section Calc.
Context (s : Pim) (W : web s).

Lemma parent_rp i m : mrts s !! i = Some m -> is_rp m -> parent s m = None.
Proof. intros E R. destruct (wb_rp _ W _ _ E R) as [G _]. unfold parent. by rewrite G. Qed.

Lemma rp_route_route g x p : grps s !! g = Some x -> route_of s x = Some p -> rp_route (Some g) s = Ok p s.
Proof.
  intros Hg Hr. unfold route_of in Hr. apply bind_Some in Hr as (r & Er & Hr). apply bind_Some in Hr as (rr & Err & Hr).
  apply bind_Some in Hr as (c & Ec & Hr). apply bind_Some in Hr as (cc & Ecc & Hr). apply bind_Some in Hr as (e & Ee & Hr).
  apply bind_Some in Hr as (n & En & [= <-]).
  unfold rp_route, grp, rpg, crp, src, load, bind. cbn. by rewrite Hg, Er; cbn; rewrite Err, Ec; cbn; rewrite Ecc, Ee; cbn; rewrite En.
Qed.

Lemma grp_ok g x : grps s !! g = Some x -> grp (Some g) s = Ok x s.
Proof. intros E. unfold grp, load. cbn. by rewrite E. Qed.

Lemma mrt_ok i m : mrts s !! i = Some m -> mrt (Some i) s = Ok m s.
Proof. intros E. unfold mrt, load. cbn. by rewrite E. Qed.

Lemma merge_route_ok z p m : mrts s !! p = Some m -> merge_route z (Some p) s = Ok (merge_oifs z m) s.
Proof. intros E. unfold merge_route, mrt, load, bind. cbn. by rewrite E. Qed.

Lemma rp_base x p : route_of s x = Some p -> (forall i, p = Some i -> exists m, mrts s !! i = Some m /\ is_rp m) ->
  (forall j, p = Some j -> settled s j) -> merge_route 0 p s = Ok (oifs_at s p) s.
Proof.
  intros Hr Hp Hs. destruct p as [j|]; [|done]. destruct (Hp j eq_refl) as (m & E & R).
  rewrite (merge_route_ok 0 j m E). unfold oifs_at. cbn. rewrite E. by rewrite (Hs j eq_refl m E), (parent_rp j m E R).
Qed.

(** The ancestors of an entry are settled. *)
Definition above (m : mrtentry) : Prop := forall j, parent s m = Some j ->
  settled s j /\ forall w k, mrts s !! j = Some w -> parent s w = Some k -> settled s k.

Lemma rp_part g x p : grps s !! g = Some x -> route_of s x = Some p ->
  (forall i, p = Some i -> exists m, mrts s !! i = Some m /\ is_rp m) -> (forall j, p = Some j -> settled s j) ->
  (let! r := rp_route (Some g) in merge_route 0 r) s = Ok (oifs_at s p) s.
Proof. intros Ex Hr Hp Hs. rewrite (bind_Ok _ _ _ _ _ (rp_route_route g x p Ex Hr)). by eapply rp_base. Qed.

(** The parent of an entry, by what its group knows. *)
Lemma parent_eq m g x p : m_group m = Some g -> grps s !! g = Some x -> SSMGROUP s (g_group x) = false ->
  route_of s x = Some p ->
  parent s m = if has (m_flags m) MRTF_SG then match g_grp_route x with Some w => Some w | None => p end else p.
Proof. intros Eg Ex Ssm Hr. unfold parent. rewrite Eg. cbn. rewrite Ex. cbn. by rewrite Ssm, Hr. Qed.

Lemma parent_ssm m g x : m_group m = Some g -> grps s !! g = Some x -> SSMGROUP s (g_group x) = true -> parent s m = None.
Proof. intros Eg Ex Ssm. unfold parent. rewrite Eg. cbn. rewrite Ex. cbn. by rewrite Ssm. Qed.

Lemma inherited_ok i m : mrts s !! i = Some m -> above m -> inherited_oifs m s = Ok (oifs_at s (parent s m)) s.
Proof.
  intros E A. destruct (wb_kind _ W i m E) as [K|K].
  { rewrite (parent_rp i m E K). destruct (wb_rp _ W _ _ E K) as [G _]. unfold inherited_oifs. by rewrite G. }
  assert (exists g x, m_group m = Some g /\ grps s !! g = Some x /\ rp_known s x) as (g & x & Eg & Ex & RK).
  { destruct K as [K|K]; [destruct (wb_wc _ W _ _ E K) as (g & x & ? & ? & ? & ?)
                         |destruct (wb_sg _ W _ _ E K) as (g & x & e & n & ? & ? & ? & ?)]; by exists g, x. }
  assert (P : has (m_flags m) MRTF_PMBR = false) by (by destruct K as [[]|[]]).
  unfold inherited_oifs. rewrite Eg, (bind_Ok _ _ _ _ _ (grp_ok g x Ex)), get_bind, P. cbn beta iota delta [negb].
  destruct (SSMGROUP s (g_group x)) eqn:Ssm; [by rewrite (parent_ssm m g x)|].
  destruct RK as [Ssm'|(p & Hr & Hp)]; [congruence|]. unfold above in A. rewrite (parent_eq m g x p Eg Ex Ssm Hr) in *.
  destruct (has (m_flags m) MRTF_SG); [destruct (g_grp_route x) as [w|] eqn:Ew|].
  - destruct (A w eq_refl) as [Sw Aw]. destruct (wb_route _ W _ _ _ Ex Ew) as (mw & Emw & Kw & Gw).
    specialize (Aw mw). specialize (Sw mw Emw). rewrite (parent_eq mw g x p Gw Ex Ssm Hr) in *.
    destruct Kw as (_ & _ & Sgw). rewrite Sgw in *.
    rewrite (bind_Ok _ _ _ _ _ (rp_part g x p Ex Hr Hp (fun j Hj => Aw j Emw Hj))), (merge_route_ok _ w mw Emw).
    by rewrite <- Sw; unfold oifs_at; cbn; rewrite Emw.
  - by rewrite (bind_Ok _ _ _ _ _ (rp_part g x p Ex Hr Hp (fun j Hj => proj1 (A j Hj)))).
  - by rewrite (bind_Ok _ _ _ _ _ (rp_part g x p Ex Hr Hp (fun j Hj => proj1 (A j Hj)))).
Qed.

Lemma calc_ok i m : mrts s !! i = Some m -> above m ->
  calc_oifs (Some i) s = Ok (merge_oifs (oifs_at s (parent s m)) m) s.
Proof.
  intros E A. unfold calc_oifs, mrt, load, bind. cbn. rewrite E. by rewrite (inherited_ok i m E A).
Qed.
End Calc.

Lemma all_above s m : (forall i, settled s i) -> above s m.
Proof. intros A j _. split; [apply A|]. intros w k _ _. apply A. Qed.

(** The parent of an entry is there; it is of another kind. *)
Lemma parent_kind s i m j : web s -> mrts s !! i = Some m -> parent s m = Some j ->
  exists w, mrts s !! j = Some w /\ (is_rp w \/ is_wc w /\ is_sg m).
Proof.
  intros W E Hj. destruct (wb_kind _ W i m E) as [K|K]; [by rewrite (parent_rp s W i m E K) in Hj|].
  assert (exists g x, m_group m = Some g /\ grps s !! g = Some x /\ rp_known s x) as (g & x & Eg & Ex & RK).
  { destruct K as [K|K]; [destruct (wb_wc _ W _ _ E K) as (g & x & ? & ? & ? & ?)
                         |destruct (wb_sg _ W _ _ E K) as (g & x & e & n & ? & ? & ? & ?)]; by exists g, x. }
  destruct (SSMGROUP s (g_group x)) eqn:Ssm; [by rewrite (parent_ssm s m g x) in Hj|].
  destruct RK as [Ssm'|(p & Hr & Hp)]; [congruence|]. rewrite (parent_eq s m g x p Eg Ex Ssm Hr) in Hj.
  assert (p = Some j -> exists w, mrts s !! j = Some w /\ (is_rp w \/ is_wc w /\ is_sg m)).
  { intros ->. destruct (Hp j eq_refl) as (w & Ew & Kw). exists w. split; [done|by left]. }
  destruct K as [(_ & _ & Sg)|K]; [rewrite Sg in Hj; auto|]. assert (K' := K). destruct K as (_ & _ & Sg). rewrite Sg in Hj.
  destruct (g_grp_route x) as [v|] eqn:Ev; [|auto]. injection Hj as ->.
  destruct (wb_route _ W _ _ _ Ex Ev) as (w & Ew & Kw & _). exists w. split; [done|by right].
Qed.

(** Does an entry send out of interface [v]?  What it inherits and the joins
    count less than the prunes, these less than the leaves, and a lost assert
    most. *)
Definition passes (m : mrtentry) (v : Z) (inherited : bool) : bool :=
  negb (IF_ISSET v (m_asserted_oifs m)) &&
  (IF_ISSET v (m_leaves m) || negb (IF_ISSET v (m_pruned_oifs m)) && (IF_ISSET v (m_joined_oifs m) || inherited)).

(** The same down the entries it inherits from: (S,G), (star,G), (star,star,RP). *)
Fixpoint passes_at (d : nat) (s : Pim) (p : ptr) (v : Z) : bool :=
  match d with
  | O => false
  | S d => match p ≫= fun i => mrts s !! i with
           | Some m => passes m v (passes_at d s (parent s m) v)
           | None => false
           end
  end.

(** The interfaces of all entries are those. *)
Definition oifs_right (s : Pim) : Prop :=
  forall i m v, mrts s !! i = Some m -> 0 <= v -> IF_ISSET v (m_oifs m) = passes_at 3 s (Some i) v.

Lemma isset_0 v : IF_ISSET v 0 = false.
Proof. apply Z.bits_0. Qed.

Lemma merge_passes z m v : IF_ISSET v (merge_oifs z m) = passes m v (IF_ISSET v z).
Proof.
  unfold merge_oifs, passes, IF_ISSET, IF_MERGE, IF_CLR_MASK. rewrite Z.ldiff_spec, Z.lor_spec, Z.ldiff_spec, Z.lor_spec.
  by destruct (Z.testbit z v), (Z.testbit (m_joined_oifs m) v), (Z.testbit (m_pruned_oifs m) v), (Z.testbit (m_leaves m) v),
    (Z.testbit (m_asserted_oifs m) v).
Qed.

(** The entries an entry inherits from are not more than [d]. *)
Fixpoint ends (d : nat) (s : Pim) (p : ptr) : Prop :=
  match d with
  | O => (p ≫= fun i => mrts s !! i) = None
  | S d => forall m, (p ≫= fun i => mrts s !! i) = Some m -> ends d s (parent s m)
  end.

Lemma ends_passes d s p v : ends d s p -> passes_at (S d) s p v = passes_at d s p v.
Proof.
  revert p. induction d as [|d IH]; intros p H; [cbn in *; by rewrite H|].
  cbn [passes_at ends] in *. destruct (p ≫= _) as [m|]; [|done]. f_equal. apply (IH (parent s m)), H. done.
Qed.

Lemma web_ends s i m : web s -> mrts s !! i = Some m -> ends 2 s (parent s m).
Proof.
  intros W E. assert (Rp : forall j w d, mrts s !! j = Some w -> is_rp w -> ends (S d) s (Some j)).
  { intros j w d Ej K w' Ej'. cbn in Ej'. assert (w' = w) as -> by congruence. rewrite (parent_rp s W j w Ej K). by destruct d. }
  destruct (parent s m) as [j|] eqn:Hj; [|by intros w]. destruct (parent_kind s i m j W E Hj) as (w & Ew & [K|[K Km]]); [by apply (Rp j w)|].
  intros w' Ew'. cbn in Ew'. assert (w' = w) as -> by congruence. destruct (parent s w) as [k|] eqn:Hk; [|by intros ?].
  destruct (parent_kind s j w k W Ew Hk) as (u & Eu & [Ku|[Ku Kw]]); [by apply (Rp k u)|].
  destruct K as (_ & K & _), Kw as (_ & Kw & _). congruence.
Qed.

Lemma settled_passes s v : (forall i, settled s i) -> forall d p, ends d s p -> IF_ISSET v (oifs_at s p) = passes_at d s p v.
Proof.
  intros A. induction d as [|d IH]; intros p H; unfold oifs_at; [cbn in *; by rewrite H, isset_0|].
  cbn [passes_at ends] in *. destruct p as [i|]; [|by rewrite isset_0]. cbn in *. destruct (mrts s !! i) as [m|] eqn:E; [|by rewrite isset_0].
  rewrite (A i m E), merge_passes. f_equal. by apply IH, H.
Qed.

Lemma oifs_right_settled s : web s -> oifs_right s <-> forall i, settled s i.
Proof.
  intros W. split.
  - intros R i m E. apply Z.bits_inj'. intros v Hv. change (IF_ISSET v (m_oifs m) = IF_ISSET v (merge_oifs (oifs_at s (parent s m)) m)).
    pose proof (web_ends s i m W E) as H. rewrite (R i m v E Hv), merge_passes. change (passes_at 3 s (Some i) v) with
      (match mrts s !! i with Some m => passes m v (passes_at 2 s (parent s m) v) | None => false end).
    rewrite E. f_equal. rewrite <- (ends_passes 2 s _ v H). unfold oifs_at. destruct (parent s m) as [j|] eqn:Hj; [|by rewrite isset_0].
    cbn [mbind option_bind]. destruct (mrts s !! j) as [w|] eqn:Ew; [by rewrite (R j w v Ew Hv)|]. by cbn; rewrite Ew, isset_0.
  - intros A i m v E _. transitivity (IF_ISSET v (oifs_at s (Some i))); [by unfold oifs_at; cbn; rewrite E|].
    apply settled_passes; [done|]. intros m' E'. cbn in E'. assert (m' = m) as -> by congruence. by apply (web_ends s i).
Qed.

(** ** What the kernel forwards *)

(** The forwarding entry of the kernel for a source and a group. *)
Definition forward_step (k : sockaddr_in6 * sockaddr_in6) (f : option (Z * Z)) (c : kcall) : option (Z * Z) :=
  match c with
  | k_del_mfc_call a g => if decide (k = (a, g)) then None else f
  | k_chg_mfc_call a g iif oifs => if decide (k = (a, g)) then Some (iif, oifs) else f
  end.
Definition forwards (s : Pim) (k : sockaddr_in6 * sockaddr_in6) : option (Z * Z) := foldl (forward_step k) None (kcalls s).

(** The kernel agrees with an entry. *)
Definition shown (s : Pim) (m : mrtentry) : Z * Z :=
  (m_incoming m, IF_CLR (m_incoming m) (Z.land (m_oifs m) (Z.ones (zlen (uvifs s))))).
Definition agrees (s : Pim) (i : nat) : Prop := forall m l c x, mrts s !! i = Some m -> klist s m l -> c ∈ l ->
  caches s !! c = Some x -> forwards s (key_of x) = Some (shown s m).

(** ** Steps that change some entries only *)

Definition put (M : gmap nat mrtentry) (C : gmap nat kernel_cache) (S : gmap nat srcentry) (K : list kcall) (s : Pim) : Pim :=
  set_kcalls K (set_srcs S (set_caches C (set_mrts M s))).

(** The parts of an entry that [change_interfaces] leaves alone. *)
Definition moving_flags : Z := Z.lor MRTF_RP (Z.lor MRTF_SPT (Z.lor MRTF_KERNEL_CACHE MRTF_MFC_CLONE_SG)).
Definition blank (m : mrtentry) : mrtentry :=
  set_m_incoming 0 (set_m_oifs 0 (set_m_joined_oifs 0 (set_m_pruned_oifs 0 (set_m_leaves 0 (set_m_asserted_oifs 0
    (set_m_jp_timer 0 (set_m_kernel_cache None (set_m_flags (Z.ldiff (m_flags m) moving_flags) m)))))))).

(** The cache entries stay, or go. *)
Definition kept (m m' : mrtentry) : Prop :=
  m_kernel_cache m' = m_kernel_cache m /\ has (m_flags m') MRTF_KERNEL_CACHE = has (m_flags m) MRTF_KERNEL_CACHE.
Definition dropped (m' : mrtentry) : Prop := m_kernel_cache m' = None /\ has (m_flags m') MRTF_KERNEL_CACHE = false.
Definition freed (s s' : Pim) (c : nat) : Prop := exists i m m' l, mrts s !! i = Some m /\ mrts s' !! i = Some m' /\
  klist s m l /\ c ∈ l /\ m_kernel_cache m' = None.

Record only (D : nat -> Prop) (s s' : Pim) : Prop := {
  on_eq : s' = put (mrts s') (caches s') (srcs s') (kcalls s') s;
  on_srcs : forall e, set_s_incoming 0 <$> srcs s' !! e = set_s_incoming 0 <$> srcs s !! e;
  on_none : forall i, mrts s !! i = None -> mrts s' !! i = None;
  on_mrts : forall i m, mrts s !! i = Some m -> exists m', mrts s' !! i = Some m' /\ blank m' = blank m /\
    (D i \/ m' = m) /\ (kept m m' \/ dropped m');
  on_caches : forall c x, caches s' !! c = Some x <-> caches s !! c = Some x /\ ~ freed s s' c;
  on_kernel : forall k, (forall i m l c x, D i -> mrts s !! i = Some m -> klist s m l -> c ∈ l ->
    caches s !! c = Some x -> key_of x <> k) -> forwards s' k = forwards s k
}.

Lemma only_back D s s' i m' : only D s s' -> mrts s' !! i = Some m' -> exists m, mrts s !! i = Some m /\ blank m' = blank m /\
  (D i \/ m' = m) /\ (kept m m' \/ dropped m').
Proof.
  intros O E. destruct (mrts s !! i) as [m|] eqn:Em; [|by rewrite (on_none _ _ _ O i Em) in E].
  destruct (on_mrts _ _ _ O i m Em) as (m'' & E' & H). assert (m'' = m') as -> by congruence. by exists m.
Qed.

Lemma only_weaken (D D' : nat -> Prop) s s' : (forall i, D i -> D' i) -> only D s s' -> only D' s s'.
Proof.
  intros I O. split; try apply O.
  - intros i m E. destruct (on_mrts _ _ _ O i m E) as (m' & E' & B & H & K). exists m'. split_and!; try done.
    destruct H; auto.
  - intros k F. apply (on_kernel _ _ _ O). intros i m l c x Hi. by apply F, I.
Qed.

Lemma put_put M C S K M' C' S' K' s : put M C S K (put M' C' S' K' s) = put M C S K s.
Proof. done. Qed.
Lemma put_id s : s = put (mrts s) (caches s) (srcs s) (kcalls s) s.
Proof. by destruct s. Qed.

Section Only.
Context (D : nat -> Prop) (s s' : Pim) (W : web s) (O : only D s s').

Lemma only_src e n : srcs s !! e = Some n -> exists n', srcs s' !! e = Some n' /\ set_s_incoming 0 n' = set_s_incoming 0 n.
Proof.
  intros E. pose proof (on_srcs _ _ _ O e) as H. rewrite E in H. destruct (srcs s' !! e) as [n'|]; [|done].
  exists n'. split; [done|]. apply (inj Some). exact H.
Qed.

Lemma only_grps : grps s' = grps s.
Proof. by rewrite (on_eq _ _ _ O). Qed.
Lemma only_rpgs : rpgs s' = rpgs s.
Proof. by rewrite (on_eq _ _ _ O). Qed.
Lemma only_crps : crps s' = crps s.
Proof. by rewrite (on_eq _ _ _ O). Qed.
Lemma only_brk : brk s' = brk s.
Proof. by rewrite (on_eq _ _ _ O). Qed.
Lemma only_uvifs : uvifs s' = uvifs s.
Proof. by rewrite (on_eq _ _ _ O). Qed.
Lemma only_ssm g : SSMGROUP s' g = SSMGROUP s g.
Proof. by rewrite (on_eq _ _ _ O). Qed.
End Only.

Lemma has_blank f m m' : Z.land f moving_flags = 0 -> blank m' = blank m -> has (m_flags m') f = has (m_flags m) f.
Proof.
  intros F B. apply (f_equal m_flags) in B. cbn in B.
  assert (H : forall x, Z.land (Z.ldiff x moving_flags) f = Z.land x f).
  { intros x. apply Z.bits_inj'. intros n Hn. rewrite !Z.land_spec, Z.ldiff_spec.
    assert (E : Z.testbit (Z.land f moving_flags) n = false) by (by rewrite F, Z.bits_0). rewrite Z.land_spec in E.
    by destruct (Z.testbit x n), (Z.testbit f n), (Z.testbit moving_flags n). }
  unfold has. by rewrite <- (H (m_flags m')), <- (H (m_flags m)), B.
Qed.

Lemma blank_rp m m' : blank m' = blank m -> is_rp m' <-> is_rp m.
Proof. intros B. unfold is_rp. by rewrite (has_blank _ m m'). Qed.
Lemma blank_wc m m' : blank m' = blank m -> is_wc m' <-> is_wc m.
Proof. intros B. unfold is_wc. by rewrite !(has_blank _ m m'). Qed.
Lemma blank_sg m m' : blank m' = blank m -> is_sg m' <-> is_sg m.
Proof. intros B. unfold is_sg. by rewrite !(has_blank _ m m'). Qed.
Lemma blank_group m m' : blank m' = blank m -> m_group m' = m_group m.
Proof. by intros B%(f_equal m_group). Qed.
Lemma blank_source m m' : blank m' = blank m -> m_source m' = m_source m.
Proof. by intros B%(f_equal m_source). Qed.
Lemma blank_next m m' : blank m' = blank m -> m_grpnext m' = m_grpnext m.
Proof. by intros B%(f_equal m_grpnext). Qed.

(** ** The cache entries along a step *)

Section Caches.
Context (D : nat -> Prop) (s s' : Pim) (W : web s) (O : only D s s').

(** The list of an entry that keeps its cache entries. *)
Lemma kept_list i m m' l : mrts s !! i = Some m -> mrts s' !! i = Some m' -> kept m m' -> klist s m l -> klist s' m' l.
Proof.
  intros E E' [K _] H. unfold klist in *. rewrite K. eapply follow_frame; [exact H|]. intros c Hc.
  destruct (follow_in _ _ _ _ H Hc) as [n Hn]. unfold kc_next in *. apply fmap_Some in Hn as (x & Ex & _). rewrite Ex.
  f_equal. apply (on_caches _ _ _ O). split; [done|]. intros (j & w & w' & l' & Ew & Ew' & Hl' & Hc' & Hn').
  assert (i = j) as -> by (by eapply (wb_apart _ W)). assert (w = m) as -> by congruence. assert (w' = m') as -> by congruence.
  rewrite K in Hn'. rewrite Hn' in H. destruct l; [by apply not_elem_of_nil in Hc|]. by destruct H.
Qed.

(** Every list after the step was there before. *)
Lemma list_back i m' l c : mrts s' !! i = Some m' -> klist s' m' l -> c ∈ l ->
  exists m, mrts s !! i = Some m /\ blank m' = blank m /\ kept m m' /\ klist s m l.
Proof.
  intros E' H Hc. destruct (only_back _ _ _ _ _ O E') as (m & E & B & _ & [K|[K _]]).
  - exists m. split_and!; try done. destruct (wb_cache _ W i m E) as (l0 & H0 & _).
    pose proof (kept_list _ _ _ _ E E' K H0) as H0'. by rewrite (follow_det _ _ _ _ H H0').
  - unfold klist in H. rewrite K in H. destruct l; [by apply not_elem_of_nil in Hc|]. by destruct H.
Qed.

Lemma agrees_other i : ~ D i -> agrees s i -> agrees s' i.
Proof.
  intros Hi A m' l c x E' H Hc Ex. destruct (list_back i m' l c E' H Hc) as (m & E & B & K & Hl).
  destruct (on_mrts _ _ _ O i m E) as (m'' & E'' & _ & [?|Hm] & _); [done|]. assert (m' = m) as -> by congruence.
  assert (Ex' : caches s !! c = Some x) by (apply (on_caches _ _ _ O) in Ex; tauto).
  unfold shown. rewrite (only_uvifs _ _ _ O). rewrite (on_kernel _ _ _ O); [by eapply A|].
  intros j w l' c' x' Hj Ew Hl' Hc' Ec' Ek. assert (c' = c) as -> by (by eapply (wb_keys _ W)).
  assert (j = i) as -> by (by eapply (wb_apart _ W)). done.
Qed.

Lemma only_route x : route_of s' x = route_of s x.
Proof.
  unfold route_of. destruct (g_active_rp_grp x) as [r|]; [|done]. cbn. rewrite (only_rpgs _ _ _ O).
  destruct (rpgs s !! r) as [rr|]; [|done]. cbn. destruct (rg_rp rr) as [c|]; [|done]. cbn. rewrite (only_crps _ _ _ O).
  destruct (crps s !! c) as [cc|]; [|done]. cbn. destruct (c_rpentry cc) as [e|]; [|done]. cbn.
  pose proof (on_srcs _ _ _ O e) as H. destruct (srcs s !! e) as [n|], (srcs s' !! e) as [n'|]; try done. cbn.
  apply (inj Some), (f_equal s_mrtlink) in H. cbn in H. by rewrite H.
Qed.

Lemma only_serves m m' gs : blank m' = blank m -> serves s m gs -> serves s' m' gs.
Proof.
  intros B (e & n & c & cr & rs & gss & E1 & E2 & E3 & E4 & F & F2 & ->). destruct (only_src _ _ _ O e n E2) as (n' & E2' & Hn).
  exists e, n', c, cr, rs, gss. rewrite (blank_source _ _ B), (only_crps _ _ _ O).
  split_and!; try done.
  - apply (f_equal s_cand_rp) in Hn. cbn in Hn. congruence.
  - eapply follow_frame; [exact F|]. intros i _. unfold rg_next. by rewrite (only_rpgs _ _ _ O).
  - eapply Forall2_impl; [exact F2|]. intros r l (x & Ex & Hl). exists x. rewrite (only_rpgs _ _ _ O). split; [done|].
    eapply follow_frame; [exact Hl|]. intros i _. unfold gr_next. by rewrite (only_grps _ _ _ O).
Qed.

Lemma only_known x : rp_known s x -> rp_known s' x.
Proof.
  intros [H|(p & Hr & Hp)]; [left; by rewrite (only_ssm _ _ _ O)|]. right. exists p. rewrite only_route. split; [done|].
  intros i ->. destruct (Hp i eq_refl) as (m & E & R). destruct (on_mrts _ _ _ O i m E) as (m' & E' & B & _).
  exists m'. split; [done|]. by apply (blank_rp _ _ B).
Qed.

Lemma only_web : web s'.
Proof.
  split; rewrite ?(only_brk _ _ _ O), ?(only_grps _ _ _ O), ?(only_rpgs _ _ _ O).
  - intros i [m' E]. destruct (only_back _ _ _ _ _ O E) as (m & E0 & _). apply (wb_mrts _ W). by exists m.
  - intros c [x E]. apply (on_caches _ _ _ O) in E as [E _]. apply (wb_caches _ W). by exists x.
  - apply (wb_grps _ W).
  - apply (wb_rpgs _ W).
  - intros i m' E. destruct (only_back _ _ _ _ _ O E) as (m & E0 & B & _).
    rewrite (blank_rp _ _ B), (blank_wc _ _ B), (blank_sg _ _ B). by apply (wb_kind _ W i).
  - intros i m' E R. destruct (only_back _ _ _ _ _ O E) as (m & E0 & B & _). apply (blank_rp _ _ B) in R.
    destruct (wb_rp _ W i m E0 R) as (G & gs & S & Hg). rewrite (blank_group _ _ B). split; [done|]. exists gs.
    split; [by eapply only_serves|]. intros g. rewrite Hg. by setoid_rewrite only_route.
  - intros i m' E R. destruct (only_back _ _ _ _ _ O E) as (m & E0 & B & _). apply (blank_wc _ _ B) in R.
    destruct (wb_wc _ W i m E0 R) as (g & x & G & Ex & Ew & RK). exists g, x. rewrite (blank_group _ _ B). split_and!; try done. by apply only_known.
  - intros i m' E R. destruct (only_back _ _ _ _ _ O E) as (m & E0 & B & _). apply (blank_sg _ _ B) in R.
    destruct (wb_sg _ W i m E0 R) as (g & x & e & n & G & Ex & RK & Es & En). destruct (only_src _ _ _ O e n En) as (n' & En' & _).
    exists g, x, e, n'. rewrite (blank_group _ _ B), (blank_source _ _ B). split_and!; try done. by apply only_known.
  - intros g x i Ex Ei. destruct (wb_route _ W g x i Ex Ei) as (m & E & R & G). destruct (on_mrts _ _ _ O i m E) as (m' & E' & B & _).
    exists m'. split; [done|]. rewrite (blank_wc _ _ B), (blank_group _ _ B). done.
  - intros g x Ex. destruct (wb_list _ W g x Ex) as (l & F & Hl). exists l. split.
    + eapply follow_frame; [exact F|]. intros i Hi. apply Hl in Hi as (m & E & _). destruct (on_mrts _ _ _ O i m E) as (m' & E' & B & _).
      unfold sg_next. rewrite E, E'. cbn. by rewrite (blank_next _ _ B).
    + intros i. rewrite Hl. split.
      * intros (m & E & R & G). destruct (on_mrts _ _ _ O i m E) as (m' & E' & B & _). exists m'.
        rewrite (blank_sg _ _ B), (blank_group _ _ B). done.
      * intros (m' & E' & R & G). destruct (only_back _ _ _ _ _ O E') as (m & E & B & _). exists m.
        rewrite <- (blank_sg _ _ B), <- (blank_group _ _ B). done.
  - intros i m' E'. destruct (only_back _ _ _ _ _ O E') as (m & E & B & _ & [K|[K Kf]]).
    + destruct (wb_cache _ W i m E) as (l & Hl & Hf & Hk). exists l. split; [by eapply kept_list|]. destruct K as [_ ->]. split; [done|].
      intros c x g y e n' R Hc Ex G Ey Es En'. apply (blank_sg _ _ B) in R. rewrite (blank_group _ _ B) in G. rewrite (blank_source _ _ B) in Es.
      destruct (wb_sg _ W i m E R) as (g' & x' & e' & n & _ & _ & _ & Es' & En). assert (e' = e) as -> by congruence.
      destruct (only_src _ _ _ O e n En) as (n'' & En'' & Hn). assert (n'' = n') as -> by congruence.
      apply (f_equal s_address) in Hn. cbn in Hn. rewrite Hn. eapply Hk; try done. apply (on_caches _ _ _ O) in Ex. tauto.
    + exists []. unfold klist. rewrite K, Kf. split; [done|]. split; [done|]. intros c x g y e n _ Hc. by apply not_elem_of_nil in Hc.
  - intros i j m m' l l' c E E' H H' Hc Hc'. destruct (list_back i m l c E H Hc) as (w & Ew & _ & _ & Hw).
    destruct (list_back j m' l' c E' H' Hc') as (w' & Ew' & _ & _ & Hw'). by eapply (wb_apart _ W i j w w').
  - intros c c' x x' Ex Ex'. apply (on_caches _ _ _ O) in Ex as [Ex _]. apply (on_caches _ _ _ O) in Ex' as [Ex' _]. by apply (wb_keys _ W c c').
Qed.
End Caches.

Lemma only_refl D s : only D s s.
Proof.
  split; try done; [apply put_id|intros i m E; exists m; split_and!; try done; [by right|by left]|].
  intros c x. split; [|tauto]. intros E. split; [done|]. intros (i & m & m' & l & Em & Em' & Hl & Hc & Hn).
  assert (m' = m) as -> by congruence. unfold klist in Hl. rewrite Hn in Hl. destruct l; [by apply not_elem_of_nil in Hc|]. by destruct Hl.
Qed.

Lemma klist_nil s m l : m_kernel_cache m = None -> klist s m l -> l = [].
Proof. unfold klist. intros ->. destruct l; [done|]. by intros []. Qed.

Lemma only_trans D s s1 s2 : web s -> only D s s1 -> only D s1 s2 -> only D s s2.
Proof.
  intros W O1 O2.
  assert (Entry : forall i m, mrts s !! i = Some m -> exists m1 m2, mrts s1 !! i = Some m1 /\ mrts s2 !! i = Some m2 /\
    blank m2 = blank m /\ (D i \/ m2 = m) /\ (kept m m1 /\ kept m1 m2 /\ kept m m2 \/ dropped m2 /\ (dropped m1 \/ kept m m1))).
  { intros i m E. destruct (on_mrts _ _ _ O1 i m E) as (m1 & E1 & B1 & H1 & K1).
    destruct (on_mrts _ _ _ O2 i m1 E1) as (m2 & E2 & B2 & H2 & K2). exists m1, m2. split_and!; try done; [congruence| |].
    - destruct H1 as [?| ->]; [by left|]. exact H2.
    - unfold kept, dropped in *. destruct K1 as [[? ?]|[? ?]], K2 as [[? ?]|[? ?]]; split_and?; intuition congruence. }
  split.
  - rewrite (on_eq _ _ _ O2) at 1. rewrite (on_eq _ _ _ O1) at 1. apply put_put.
  - intros e. by rewrite (on_srcs _ _ _ O2), (on_srcs _ _ _ O1).
  - intros i E. by apply (on_none _ _ _ O2), (on_none _ _ _ O1).
  - intros i m E. destruct (Entry i m E) as (m1 & m2 & _ & E2 & B & H & K). exists m2. split_and!; try done. tauto.
  - intros c x. rewrite (on_caches _ _ _ O2), (on_caches _ _ _ O1).
    assert (F : freed s s2 c <-> freed s s1 c \/ freed s1 s2 c); [|tauto]. split.
    + intros (i & m & m2 & l & E & E2 & Hl & Hc & Hn). destruct (Entry i m E) as (m1 & m2' & E1 & E2' & _ & _ & K).
      assert (m2' = m2) as -> by congruence. assert (kept m m1 \/ m_kernel_cache m1 = None) as [K1|K1] by (unfold kept, dropped in *; tauto).
      * right. exists i, m1, m2, l. split_and!; try done. by eapply kept_list.
      * left. by exists i, m, m1, l.
    + intros [(i & m & m1 & l & E & E1 & Hl & Hc & Hn)|(i & m1 & m2 & l & E1 & E2 & Hl & Hc & Hn)].
      * destruct (Entry i m E) as (m1' & m2 & E1' & E2 & _ & _ & K). assert (m1' = m1) as -> by congruence.
        exists i, m, m2, l. split_and!; try done. unfold kept, dropped in K. intuition congruence.
      * destruct (list_back D s s1 W O1 i m1 l c E1 Hl Hc) as (m & E & _ & _ & Hl'). by exists i, m, m2, l.
  - intros k F. rewrite (on_kernel _ _ _ O2); [by apply (on_kernel _ _ _ O1)|]. intros i m1 l c x Hi E1 Hl Hc Ex.
    destruct (list_back D s s1 W O1 i m1 l c E1 Hl Hc) as (m & E & _ & _ & Hl'). eapply F; try done.
    apply (on_caches _ _ _ O1) in Ex. tauto.
Qed.

(** ** The single steps *)

Definition setm (i : nat) (m : mrtentry) (s : Pim) : Pim := set_mrts (<[i := m]> (mrts s)) s.

Lemma upd_mrt i m f s : mrts s !! i = Some m -> upd (Some i) f s = Ok tt (setm i (f m) s).
Proof. intros E. unfold upd. cbn. by rewrite E. Qed.

Lemma setm_lookup i m s : mrts (setm i m s) !! i = Some m.
Proof. cbn. by rewrite lookup_insert_eq. Qed.

Lemma only_setm i m m' s : mrts s !! i = Some m -> blank m' = blank m -> kept m m' -> only (eq i) s (setm i m' s).
Proof.
  intros E B K. split; try done.
  - intros j Ej. cbn. rewrite lookup_insert_ne; [done|]. congruence.
  - intros j w Ej. cbn. destruct (decide (i = j)) as [<-|Hj].
    + rewrite lookup_insert_eq. assert (w = m) as -> by congruence. exists m'. split_and!; try done; by left.
    + rewrite lookup_insert_ne by done. exists w. split_and!; try done; [by right|by left].
  - intros c x. cbn. split; [|tauto]. intros Ex. split; [done|]. intros (j & w & w' & l & Ew & Ew' & Hl & Hc & Hn).
    cbn in Ew'. assert (m_kernel_cache w = None) as Hw.
    { destruct (decide (i = j)) as [<-|Hj]; [|rewrite lookup_insert_ne in Ew' by done; congruence].
      rewrite lookup_insert_eq in Ew'. destruct K. congruence. }
    rewrite (klist_nil _ _ _ Hw Hl) in Hc. by apply not_elem_of_nil in Hc.
Qed.

Lemma only_src_step e n s iif : srcs s !! e = Some n ->
  only (fun _ => False) s (set_srcs (<[e := set_s_incoming iif n]> (srcs s)) s).
Proof.
  intros E. split; try done.
  - intros e'. cbn. destruct (decide (e = e')) as [<-|He]; [by rewrite lookup_insert_eq, E|by rewrite lookup_insert_ne].
  - intros i m Em. exists m. split_and!; try done; [by right|by left].
  - apply (on_caches _ _ _ (only_refl (fun _ => False) s)).
Qed.

(** The kernel is told about cache entries of [i] only. *)
Lemma only_tell i m l s K : mrts s !! i = Some m -> klist s m l ->
  (forall k, (forall c x, c ∈ l -> caches s !! c = Some x -> key_of x <> k) ->
    foldl (forward_step k) (forwards s k) K = forwards s k) ->
  only (eq i) s (set_kcalls (kcalls s ++ K) s).
Proof.
  intros E Hl HK. split; try done.
  - intros j w Ej. exists w. split_and!; try done; [by right|by left].
  - apply (on_caches _ _ _ (only_refl (fun _ => False) s)).
  - intros k F. unfold forwards at 1. cbn. rewrite foldl_app. apply HK. intros c x Hc Ex. by apply (F i m l c x).
Qed.

(** ** The loops over cache entries *)

Lemma modify_bind_eq {S A} (f : S -> S) (k : unit -> Cmd S A) s : bind (modify f) k s = k tt (f s).
Proof. done. Qed.

Definition told (s : Pim) (f : kernel_cache -> kcall) (l : list nat) : list kcall :=
  omap (fun c => f <$> caches s !! c) l.

(** Telling the kernel about other keys changes nothing for [k]. *)
Lemma told_other s f l k : (forall x, (forall a, forward_step k a (f x) = a) \/ key_of x = k) ->
  forall a, (forall c x, c ∈ l -> caches s !! c = Some x -> key_of x <> k) -> foldl (forward_step k) a (told s f l) = a.
Proof.
  intros Hf. induction l as [|c l IH]; intros a F; [done|]. unfold told in *. cbn [omap list_omap].
  destruct (caches s !! c) as [x|] eqn:Ex; cbn.
  - destruct (Hf x) as [H|H]; [rewrite H|by destruct (F c x); [left|..]]. apply IH. intros c' x' Hc. apply F. by right.
  - apply IH. intros c' x' Hc. apply F. by right.
Qed.

Definition chg_call (iif oifs : Z) (x : kernel_cache) : kcall := k_chg_mfc_call (k_source x) (k_group x) iif oifs.
Definition del_call (x : kernel_cache) : kcall := k_del_mfc_call (k_source x) (k_group x).

Lemma chg_other iif oifs k x : (forall a, forward_step k a (chg_call iif oifs x) = a) \/ key_of x = k.
Proof. unfold key_of. cbn. case_decide; [by right|by left]. Qed.
Lemma del_other k x : (forall a, forward_step k a (del_call x) = a) \/ key_of x = k.
Proof. unfold key_of. cbn. case_decide; [by right|by left]. Qed.

Lemma told_chg s iif oifs l c x a : c ∈ l -> caches s !! c = Some x ->
  foldl (forward_step (key_of x)) a (told s (chg_call iif oifs) l) = Some (iif, oifs).
Proof.
  intros Hc Ex. apply list_elem_of_split in Hc as (l1 & l2 & ->). unfold told. rewrite omap_app, foldl_app. cbn [omap list_omap].
  rewrite Ex. cbn. rewrite decide_True by done. clear. induction l2 as [|d l2 IH]; [done|]. cbn [omap list_omap].
  destruct (caches s !! d) as [y|]; cbn; [|done]. by case_decide.
Qed.

Lemma chg_caches_ok iif oifs l : forall fuel p s, (length l < fuel)%nat -> follow (kc_next s) p l ->
  chg_caches fuel p iif oifs s =
    Ok tt (set_kcalls (kcalls s ++ told s (chg_call iif (IF_CLR iif (Z.land oifs (Z.ones (zlen (uvifs s)))))) l) s).
Proof.
  induction l as [|c l IH]; intros [|fuel] p s Hf; cbn [length] in Hf; try lia.
  - cbn. intros ->. rewrite app_nil_r. by destruct s.
  - intros (-> & n & En & H). unfold kc_next in En. apply fmap_Some in En as (x & Ex & ->). cbn [chg_caches].
    assert (Cx : forall K, cache (Some c) (set_kcalls K s) = Ok x (set_kcalls K s)).
    { intros K. unfold cache, load. cbn. by rewrite Ex. }
    assert (Cx' : cache (Some c) s = Ok x s) by (unfold cache, load; cbn; by rewrite Ex).
    rewrite (bind_Ok _ _ _ _ _ Cx'). unfold k_chg_mfc. rewrite modify_bind_eq, (bind_Ok _ _ _ _ _ (Cx _)).
    rewrite IH; [|lia|done]. cbn. f_equal. unfold told. cbn [omap list_omap]. rewrite Ex. cbn. by rewrite <- app_assoc.
Qed.

Lemma all_caches_ok l : forall fuel p s, (length l < fuel)%nat -> follow (kc_next s) p l ->
  exists s', all_caches_loop fuel p s = Ok tt s' /\ s' = put (mrts s) (caches s') (srcs s) (kcalls s') s /\
    (forall c, caches s' !! c = if decide (c ∈ l) then None else caches s !! c) /\ kcalls s' = kcalls s ++ told s del_call l.
Proof.
  induction l as [|c l IH]; intros [|fuel] p s Hf H; cbn [length] in Hf; try lia.
  - exists s. cbn in H. subst p. split_and!; [done|by apply put_id|done|by rewrite app_nil_r].
  - assert (Hn := follow_NoDup _ _ _ H). apply NoDup_cons in Hn as [Hn _]. destruct H as (-> & n & En & H).
    unfold kc_next in En. apply fmap_Some in En as (x & Ex & ->).
    set (s1 := set_caches (delete c (caches s)) (set_kcalls (kcalls s ++ [del_call x]) s)).
    destruct (IH fuel (k_next x) s1) as (s' & E & Es & Hc & Hk); [lia| |].
    { eapply follow_frame; [exact H|]. intros d Hd. unfold kc_next. cbn. rewrite lookup_delete_ne; [done|]. by intros ->. }
    exists s'. split_and!.
    + cbn [all_caches_loop]. assert (Cx : cache (Some c) s = Ok x s) by (unfold cache, load; cbn; by rewrite Ex).
      rewrite (bind_Ok _ _ _ _ _ Cx). unfold k_del_mfc. rewrite modify_bind_eq.
      assert (F : free_node kernel_cache (Some c) (set_kcalls (kcalls s ++ [del_call x]) s) = Ok tt s1) by (unfold free_node; cbn; by rewrite Ex).
      by rewrite (bind_Ok _ _ _ _ _ F).
    + rewrite Es at 1. done.
    + intros d. rewrite Hc. cbn. destruct (decide (d = c)) as [->|Hd].
      * rewrite lookup_delete_eq. rewrite (decide_True (P := c ∈ c :: l)) by left. by case_decide.
      * rewrite lookup_delete_ne by done. destruct (decide (d ∈ l)); [rewrite decide_True by (by right)|rewrite decide_False]; try done.
        rewrite elem_of_cons. tauto.
    + rewrite Hk. cbn. unfold told. cbn [omap list_omap]. rewrite Ex. cbn. rewrite <- app_assoc. cbn. do 2 f_equal.
      apply list_omap_ext, Forall_Forall2_diag, Forall_forall. intros d Hd. cbn. rewrite lookup_delete_ne; [done|]. by intros ->.
Qed.

(** ** What happens to the cache entries of an entry *)

Lemma klist_fuel s m l : web s -> klist s m l -> (length l < fuel_of s)%nat.
Proof.
  intros W H. unfold fuel_of. apply Nat.lt_succ_r. eapply follow_length; [exact H|]. intros c Hc. apply (wb_caches _ W).
  unfold kc_next in Hc. by apply fmap_is_Some in Hc.
Qed.

(** The entry without its cache entries. *)
Definition uncached (m : mrtentry) : mrtentry :=
  flag_off (Z.lor MRTF_KERNEL_CACHE MRTF_MFC_CLONE_SG) (set_m_kernel_cache None m).

Lemma ldiff_blank x f : Z.ldiff f moving_flags = 0 -> Z.ldiff (Z.ldiff x f) moving_flags = Z.ldiff x moving_flags.
Proof.
  intros F. apply Z.bits_inj'. intros n Hn. rewrite !Z.ldiff_spec.
  assert (E : Z.testbit (Z.ldiff f moving_flags) n = false) by (by rewrite F, Z.bits_0). rewrite Z.ldiff_spec in E.
  by destruct (Z.testbit x n), (Z.testbit f n), (Z.testbit moving_flags n).
Qed.
Lemma lor_blank x f : Z.ldiff f moving_flags = 0 -> Z.ldiff (Z.lor x f) moving_flags = Z.ldiff x moving_flags.
Proof.
  intros F. apply Z.bits_inj'. intros n Hn. rewrite !Z.ldiff_spec, Z.lor_spec.
  assert (E : Z.testbit (Z.ldiff f moving_flags) n = false) by (by rewrite F, Z.bits_0). rewrite Z.ldiff_spec in E.
  by destruct (Z.testbit x n), (Z.testbit f n), (Z.testbit moving_flags n).
Qed.

Lemma blank_uncached m : blank (uncached m) = blank m.
Proof. unfold blank, uncached, flag_off. cbn -[Z.ldiff Z.lor moving_flags]. by rewrite ldiff_blank. Qed.

Lemma uncached_flag m : has (m_flags (uncached m)) MRTF_KERNEL_CACHE = false.
Proof.
  unfold has, uncached, flag_off. cbn -[Z.land Z.ldiff Z.lor MRTF_KERNEL_CACHE]. apply negb_false_iff, Z.eqb_eq, Z.bits_inj'.
  intros n Hn. rewrite Z.land_spec, Z.ldiff_spec, Z.lor_spec, Z.bits_0.
  by destruct (Z.testbit (m_flags m) n), (Z.testbit MRTF_KERNEL_CACHE n), (Z.testbit MRTF_MFC_CLONE_SG n).
Qed.

Lemma only_uncached i m l s C K : web s -> mrts s !! i = Some m -> klist s m l ->
  (forall c, C !! c = if decide (c ∈ l) then None else caches s !! c) -> K = kcalls s ++ told s del_call l ->
  only (eq i) s (put (<[i := uncached m]> (mrts s)) C (srcs s) K s).
Proof.
  intros W E Hl HC ->. split; cbn; try done.
  - intros j Ej. rewrite lookup_insert_ne; [done|]. congruence.
  - intros j w Ej. destruct (decide (i = j)) as [<-|Hj].
    + rewrite lookup_insert_eq. assert (w = m) as -> by congruence. exists (uncached m).
      split_and!; [done|by rewrite blank_uncached|by left|right; split; [done|apply uncached_flag]].
    + rewrite lookup_insert_ne by done. exists w. split_and!; try done; [by right|by left].
  - intros c x. rewrite HC. case_decide as Hc.
    + split; [done|]. intros [Ex F]. destruct F. exists i, m, (uncached m), l. cbn. rewrite lookup_insert_eq. done.
    + split; [|tauto]. intros Ex. split; [done|]. intros (j & w & w' & l' & Ew & Ew' & Hl' & Hc' & Hn). cbn in Ew'.
      destruct (decide (i = j)) as [<-|Hj].
      * assert (w = m) as -> by congruence. by rewrite (follow_det _ _ _ _ Hl Hl') in Hc.
      * rewrite lookup_insert_ne in Ew' by done. assert (w' = w) as -> by congruence.
        rewrite (klist_nil _ _ _ Hn Hl') in Hc'. by apply not_elem_of_nil in Hc'.
  - intros k F. unfold forwards at 1. cbn. rewrite foldl_app. apply told_other; [intros x; apply del_other|].
    intros c x Hc Ex. by apply (F i m l c x).
Qed.

Lemma agrees_nil s i m : mrts s !! i = Some m -> klist s m [] -> agrees s i.
Proof.
  intros E H m' l c x E' Hl Hc. assert (m' = m) as -> by congruence. rewrite (follow_det _ _ _ _ Hl H) in Hc.
  by apply not_elem_of_nil in Hc.
Qed.

(** An entry after a call that only concerns its cache entries. *)
Definition cached (m m' : mrtentry) : Prop := m' = m \/ m' = uncached m.

Lemma delete_all_ok i m s : web s -> mrts s !! i = Some m -> exists s' m',
  delete_mrtentry_all_kernel_cache (Some i) s = Ok tt s' /\ only (eq i) s s' /\ mrts s' !! i = Some m' /\ cached m m' /\ agrees s' i.
Proof.
  intros W E. destruct (wb_cache _ W i m E) as (l & Hl & Hf & _). unfold delete_mrtentry_all_kernel_cache.
  rewrite get_bind, (bind_Ok _ _ _ _ _ (mrt_ok s i m E)). destruct (has (m_flags m) MRTF_KERNEL_CACHE); cbn [negb].
  - destruct (all_caches_ok l (fuel_of s) (m_kernel_cache m) s) as (s1 & E1 & Es & HC & HK); [by eapply klist_fuel|done|].
    rewrite (bind_Ok _ _ _ _ _ E1). assert (Em : mrts s1 !! i = Some m) by (by rewrite Es).
    rewrite (bind_Ok _ _ _ _ _ (upd_mrt _ _ _ _ Em)). rewrite (upd_mrt _ _ _ _ (setm_lookup _ _ _)).
    exists (put (<[i := uncached m]> (mrts s)) (caches s1) (srcs s) (kcalls s1) s), (uncached m).
    split; [f_equal; rewrite Es at 1; unfold setm; cbn; by rewrite insert_insert_eq|].
    split; [by eapply only_uncached|]. cbn. rewrite lookup_insert_eq. split; [done|]. split; [by right|].
    eapply agrees_nil; [cbn; by rewrite lookup_insert_eq|done].
  - exists s, m. split_and!; [done|apply only_refl|done|by left|]. eapply agrees_nil; [done|]. destruct l; [done|].
    destruct Hf as [_ Hf]. by discriminate Hf.
Qed.

Lemma chg_all_ok i m iif oifs s : web s -> mrts s !! i = Some m -> m_incoming m = iif -> m_oifs m = oifs -> exists s',
  chg_caches (fuel_of s) (m_kernel_cache m) iif oifs s = Ok tt s' /\ only (eq i) s s' /\ mrts s' !! i = Some m /\ agrees s' i.
Proof.
  intros W E Hi Ho. destruct (wb_cache _ W i m E) as (l & Hl & Hf & _).
  rewrite (chg_caches_ok iif oifs l); [|by eapply klist_fuel|done]. eexists. split; [done|]. split; [|split; [done|]].
  - eapply only_tell; [done..|]. intros k F. apply told_other; [intros x; apply chg_other|done].
  - intros m' l' c x E' Hl' Hc Ex. cbn in E', Ex. assert (m' = m) as -> by congruence.
    assert (l' = l) as -> by (by eapply follow_det). unfold forwards. cbn. rewrite foldl_app, (told_chg s _ _ l c x) by done.
    unfold shown. cbn. by rewrite Hi, Ho.
Qed.

(** The cache entries of a (star,G) or (star,star,RP) entry follow it. *)
Lemma tell_ok i m iif oifs s : web s -> mrts s !! i = Some m -> m_incoming m = iif -> m_oifs m = oifs -> exists s' m',
  (if has (m_flags m) MRTF_KERNEL_CACHE then
     if IF_ISEMPTY oifs then delete_mrtentry_all_kernel_cache (Some i)
     else chg_caches (fuel_of s) (m_kernel_cache m) iif oifs
   else ret tt) s = Ok tt s' /\ only (eq i) s s' /\ mrts s' !! i = Some m' /\ cached m m' /\ agrees s' i.
Proof.
  intros W E Hi Ho. destruct (has (m_flags m) MRTF_KERNEL_CACHE) eqn:Ef.
  - destruct (IF_ISEMPTY oifs); [by apply delete_all_ok|]. destruct (chg_all_ok i m iif oifs s W E Hi Ho) as (s' & ? & ? & ? & ?).
    exists s', m. split_and!; try done. by left.
  - exists s, m. split_and!; [done|apply only_refl|done|by left|]. destruct (wb_cache _ W i m E) as (l & Hl & Hf & _).
    eapply agrees_nil; [done|]. destruct l; [done|]. destruct Hf as [_ Hf]. rewrite Hf in Ef; done.
Qed.
