(* ===== verification/OifsEntry.v ===== *)
(** * OifsEntry: change_interfaces on (S,G) and (star,G) entries

    A call settles its entry and those that inherit from it, and the kernel
    agrees with them afterwards. *)

From stdpp Require Import base list numbers gmap sorting.
From S2P Require Import Prelude Inet6 Pim RpMatch Vif Mrt Oifs OifsWeb.
Open Scope Z_scope.

#[local] Arguments SSMGROUP : simpl never.
#[local] Arguments has : simpl never.

(** ** The parts of the (S,G) branch *)

Lemma tell_sg_ok i m g x e n iif oifs s : web s -> mrts s !! i = Some m -> is_sg m -> m_incoming m = iif -> m_oifs m = oifs ->
  m_group m = Some g -> grps s !! g = Some x -> m_source m = Some e -> srcs s !! e = Some n -> exists s' m',
  (if has (m_flags m) MRTF_KERNEL_CACHE then
     if IF_ISEMPTY oifs then delete_mrtentry_all_kernel_cache (Some i)
     else let! e := src (m_source m) in k_chg_mfc (s_address e) (g_group x) iif oifs
   else ret tt) s = Ok tt s' /\ only (eq i) s s' /\ mrts s' !! i = Some m' /\ cached m m' /\ agrees s' i.
Proof.
  intros W E R Hi Ho G Ex Es En. destruct (wb_cache _ W i m E) as (l & Hl & Hf & Hk). destruct (has (m_flags m) MRTF_KERNEL_CACHE) eqn:Ef.
  - destruct (IF_ISEMPTY oifs); [by apply delete_all_ok|]. assert (Sn : src (m_source m) s = Ok n s) by (unfold src, load; rewrite Es; cbn; by rewrite En).
    rewrite (bind_Ok _ _ _ _ _ Sn). do 2 eexists. split; [done|]. split; [|split; [done|split; [by left|]]].
    + eapply only_tell; [done..|]. intros k F. cbn. rewrite decide_False; [done|]. intros ->.
      destruct l as [|c l]; [by apply (proj1 Hf)|]. destruct (follow_in _ _ c _ Hl) as [p Hp]; [by left|].
      unfold kc_next in Hp. apply fmap_Some in Hp as (y & Ey & _). destruct (F c y); [by left|done|].
      by apply (Hk c y g x e n R); [left|..].
    + intros m' l' c y E' Hl' Hc Ey. cbn in E', Ey. assert (m' = m) as -> by congruence.
      assert (l' = l) as -> by (by eapply follow_det). rewrite (Hk c y g x e n) by done.
      unfold forwards. cbn. rewrite foldl_app. cbn. rewrite decide_True by done. unfold shown. cbn. by rewrite Hi, Ho.
  - exists s, m. split_and!; [done|apply only_refl|done|by left|]. eapply agrees_nil; [done|]. destruct l; [done|].
    destruct Hf as [_ Hf]. by discriminate Hf.
Qed.

Lemma agrees_setm s i m m' : mrts s !! i = Some m -> m_kernel_cache m' = m_kernel_cache m -> shown s m' = shown s m ->
  agrees s i -> agrees (setm i m' s) i.
Proof.
  intros E K H A w l c x Ew Hl Hc Ex. rewrite setm_lookup in Ew. injection Ew as <-. unfold shown in *. cbn. rewrite H.
  apply (A m l c x); try done. unfold klist in *. by rewrite <- K.
Qed.

(** Only flags that may move. *)
Definition reflagged (m m' : mrtentry) : Prop := exists F, m' = set_m_flags F m /\ blank m' = blank m /\
  has F MRTF_KERNEL_CACHE = has (m_flags m) MRTF_KERNEL_CACHE.

Lemma reflagged_refl m : reflagged m m.
Proof. exists (m_flags m). split; [by destruct m|done]. Qed.

Lemma land_ldiff_0 x f g : Z.land f g = 0 -> Z.land (Z.ldiff x f) g = Z.land x g.
Proof.
  intros F. apply Z.bits_inj'. intros n Hn. rewrite !Z.land_spec, Z.ldiff_spec.
  assert (E : Z.testbit (Z.land f g) n = false) by (by rewrite F, Z.bits_0). rewrite Z.land_spec in E.
  by destruct (Z.testbit x n), (Z.testbit f n), (Z.testbit g n).
Qed.
Lemma land_lor_0 x f g : Z.land f g = 0 -> Z.land (Z.lor x f) g = Z.land x g.
Proof.
  intros F. apply Z.bits_inj'. intros n Hn. rewrite !Z.land_spec, Z.lor_spec.
  assert (E : Z.testbit (Z.land f g) n = false) by (by rewrite F, Z.bits_0). rewrite Z.land_spec in E.
  by destruct (Z.testbit x n), (Z.testbit f n), (Z.testbit g n).
Qed.

Lemma reflagged_off m m' f : Z.ldiff f moving_flags = 0 -> Z.land f MRTF_KERNEL_CACHE = 0 -> reflagged m m' -> reflagged m (flag_off f m').
Proof.
  intros F K (F' & -> & B & H). exists (Z.ldiff F' f). split_and!; [done| |].
  - rewrite <- B. unfold blank, flag_off. cbn -[Z.ldiff moving_flags]. by rewrite ldiff_blank.
  - rewrite <- H. unfold has. by rewrite land_ldiff_0.
Qed.
Lemma reflagged_on m m' f : Z.ldiff f moving_flags = 0 -> Z.land f MRTF_KERNEL_CACHE = 0 -> reflagged m m' -> reflagged m (flag_on f m').
Proof.
  intros F K (F' & -> & B & H). exists (Z.lor F' f). split_and!; [done| |].
  - rewrite <- B. unfold blank, flag_on. cbn -[Z.ldiff Z.lor moving_flags]. by rewrite lor_blank.
  - rewrite <- H. unfold has. by rewrite land_lor_0.
Qed.

Lemma incoming_is_ok s p iif : (forall j, p = Some j -> is_Some (mrts s !! j)) -> exists b, incoming_is p iif s = Ok b s.
Proof.
  intros H. destruct p as [j|]; [|by eexists]. destruct (H j eq_refl) as [m E]. unfold incoming_is.
  rewrite (bind_Ok _ _ _ _ _ (mrt_ok s j m E)). by eexists.
Qed.

Lemma off_step i m (b : bool) s : mrts s !! i = Some m ->
  exists m', (if b then upd (Some i) (flag_off MRTF_RP) else ret tt) s = Ok tt (setm i m' s) /\ reflagged m m'.
Proof.
  intros E. destruct b.
  - exists (flag_off MRTF_RP m). rewrite (upd_mrt _ _ _ _ E). split; [done|]. apply reflagged_off; [done..|apply reflagged_refl].
  - exists m. split; [|apply reflagged_refl]. unfold ret, setm. rewrite insert_id by done. by destruct s.
Qed.

Lemma switch_ok i m e n wc rp iif s : mrts s !! i = Some m -> m_source m = Some e -> srcs s !! e = Some n ->
  (forall j, wc = Some j -> is_Some (mrts s !! j)) -> (forall j, rp = Some j -> is_Some (mrts s !! j)) ->
  exists m', switch_flags (Some i) wc rp iif s = Ok tt (setm i m' s) /\ reflagged m m'.
Proof.
  intros E Es En Hw Hr. unfold switch_flags. rewrite (bind_Ok _ _ _ _ _ (mrt_ok s i m E)).
  assert (Sn : src (m_source m) s = Ok n s) by (unfold src, load; rewrite Es; cbn; by rewrite En).
  rewrite (bind_Ok _ _ _ _ _ Sn).
  destruct (off_step i m (iif =? s_incoming n) s E) as (m1 & E1 & R1). rewrite (bind_Ok _ _ _ _ _ E1).
  assert (L : forall p, (forall j, p = Some j -> is_Some (mrts s !! j)) -> exists b, incoming_is p iif (setm i m1 s) = Ok b (setm i m1 s)).
  { intros p Hp. apply incoming_is_ok. intros j Hj. cbn.
    destruct (decide (i = j)) as [<-|]; [rewrite lookup_insert_eq; by eexists|rewrite lookup_insert_ne; auto]. }
  destruct (L wc Hw) as [b Hb]. rewrite (bind_Ok _ _ _ _ _ Hb).
  assert (exists b', (if b then ret true else incoming_is rp iif) (setm i m1 s) = Ok b' (setm i m1 s)) as [b' Hb'].
  { destruct b; [by eexists|]. by apply L. }
  rewrite (bind_Ok _ _ _ _ _ Hb'). destruct b'.
  - rewrite (upd_mrt _ _ _ _ (setm_lookup _ _ _)). exists (flag_on MRTF_RP (flag_off MRTF_SPT m1)). unfold setm. cbn.
    rewrite insert_insert_eq. split; [done|]. by apply reflagged_on, reflagged_off.
  - by exists m1.
Qed.

(** ** Settled entries along a step *)

Lemma oifs_at_keep D s s' p : only D s s' -> (forall j, p = Some j -> ~ D j) -> oifs_at s' p = oifs_at s p.
Proof.
  intros O H. destruct p as [j|]; [|done]. unfold oifs_at. cbn. specialize (H j eq_refl). destruct (mrts s !! j) as [m|] eqn:E.
  - destruct (on_mrts _ _ _ O j m E) as (m' & -> & _ & [?| ->] & _); done.
  - by rewrite (on_none _ _ _ O j E).
Qed.

Lemma only_parent D s s' m m' : only D s s' -> blank m' = blank m -> parent s' m' = parent s m.
Proof.
  intros O B. unfold parent. rewrite (blank_group _ _ B), (has_blank MRTF_SG m m' eq_refl B), (only_grps _ _ _ O).
  destruct (m_group m) as [g|]; [|done]. cbn. destruct (grps s !! g) as [x|]; [|done]. cbn.
  by rewrite (only_ssm _ _ _ O), (only_route _ _ _ O).
Qed.

Lemma settled_same D s s' j : only D s s' -> ~ D j ->
  (forall m, mrts s !! j = Some m -> oifs_at s' (parent s m) = oifs_at s (parent s m)) -> settled s j -> settled s' j.
Proof.
  intros O Hj Hp S m' E'. destruct (only_back _ _ _ _ _ O E') as (m & E & B & [?| ->] & _); [done|].
  by rewrite (S m E), (only_parent D s s' m m O eq_refl), (Hp m E).
Qed.

Lemma settled_keep D s s' j : only D s s' -> ~ D j ->
  (forall m p, mrts s !! j = Some m -> parent s m = Some p -> ~ D p) -> settled s j -> settled s' j.
Proof.
  intros O Hj Hp. apply (settled_same D); [done..|]. intros m E. apply (oifs_at_keep D); [done|]. intros p. by apply Hp.
Qed.

(** Entry [j] is above [m]. *)
Definition ancestor (s : Pim) (m : mrtentry) (j : nat) : Prop :=
  parent s m = Some j \/ exists k w, parent s m = Some k /\ mrts s !! k = Some w /\ parent s w = Some j.

Lemma above_keep D s s' i m m' : web s -> only D s s' -> mrts s !! i = Some m -> blank m' = blank m ->
  (forall j, ancestor s m j -> ~ D j) -> above s m -> above s' m'.
Proof.
  intros W O E B H A j Hj. rewrite (only_parent D s s' m m' O B) in Hj. destruct (A j Hj) as [Sj Aj].
  destruct (parent_kind s i m j W E Hj) as (w & Ew & Kw).
  assert (K : forall k, parent s w = Some k -> exists v, mrts s !! k = Some v /\ is_rp v).
  { intros k Hk. destruct (parent_kind s j w k W Ew Hk) as (v & Ev & [Kv|[_ (Sw & Sw' & Sw'')]]); [by exists v|].
    destruct Kw as [Kw|[(? & Kw & _) _]]; [by rewrite (parent_rp s W j w Ew Kw) in Hk|congruence]. }
  split.
  - apply (settled_keep D s); [done|by apply H; left| |done]. intros w' p Ew' Hp. assert (w' = w) as -> by congruence.
    apply H. right. by exists j, w.
  - intros w' k Ew' Hk. destruct (only_back _ _ _ _ _ O Ew') as (w0 & Ew0 & Bw & _). assert (w0 = w) as -> by congruence.
    rewrite (only_parent D s s' w w' O Bw) in Hk. apply (settled_keep D s); [done| | |by apply (Aj w)].
    + apply H. right. by exists j, w.
    + intros v p Ev Hp. destruct (K k Hk) as (v' & Ev' & Kv). assert (v' = v) as -> by congruence.
      by rewrite (parent_rp s W k v Ev Kv) in Hp.
Qed.

Lemma parent_other s i m : web s -> mrts s !! i = Some m -> parent s m <> Some i.
Proof.
  intros W E Hp. destruct (parent_kind s i m i W E Hp) as (w & Ew & Kw). assert (w = m) as -> by congruence.
  destruct Kw as [Kw|[(? & Kw & _) (? & Kw' & _)]]; [by rewrite (parent_rp s W i m E Kw) in Hp|congruence].
Qed.

(** ** The start of a call *)

Definition with_sets (iif J P L A : Z) (m : mrtentry) : mrtentry :=
  set_m_asserted_oifs A (set_m_leaves L (set_m_pruned_oifs P (set_m_joined_oifs J (set_m_incoming iif m)))).

(** What a call makes of entry [i], and what it returns. *)
Record changed (i : nat) (m : mrtentry) (iif J P L A r : Z) (s' : Pim) : Prop := {
  ch_entry : exists m', mrts s' !! i = Some m' /\ m_incoming m' = iif /\ m_joined_oifs m' = J /\ m_pruned_oifs m' = P /\
    m_leaves m' = L /\ m_asserted_oifs m' = A /\ r = oifs_change (m_oifs m) (m_oifs m');
  ch_settled : settled s' i;
  ch_agrees : agrees s' i
}.

Lemma setm_settled i m m' s : web s -> mrts s !! i = Some m -> blank m' = blank m -> kept m m' ->
  m_oifs m' = merge_oifs (oifs_at s (parent s m)) m' -> settled (setm i m' s) i.
Proof.
  intros W E B K H w Ew. rewrite setm_lookup in Ew. injection Ew as <-. pose proof (only_setm i m m' s E B K) as O.
  rewrite (only_parent _ _ _ m m' O B), (oifs_at_keep _ _ _ _ O); [done|]. intros j Hj <-. by apply (parent_other s i m W E).
Qed.

(** The call ends early, or goes on with its branch for the kind of entry. *)
Lemma change_start d i m iif J P L A fl s : web s -> mrts s !! i = Some m -> above s m -> agrees s i ->
  let z := merge_oifs (oifs_at s (parent s m)) (with_sets iif J P L A m) in
  let rec := change_interfaces_at d in
  let rv := oifs_change (m_oifs m) z in
  (z = m_oifs m /\ iif = m_incoming m /\ has fl MFC_UPDATE_FORCE = false /\
   change_interfaces_at (S d) (Some i) iif J P L A fl s = Ok 0 (setm i (with_sets iif J P L A m) s)) \/
  (exists m2, change_interfaces_at (S d) (Some i) iif J P L A fl s =
     (if has (m_flags m) MRTF_PMBR then change_pmbr rec (Some i) iif z fl rv
      else if has (m_flags m) MRTF_WC then change_wc rec (Some i) iif z fl rv
      else if has (m_flags m) MRTF_SG then change_sg (Some i) (m_incoming m) iif z rv
      else ret rv) (setm i m2 s) /\
   (m2 = set_m_oifs z (with_sets iif J P L A m) \/ m2 = set_m_oifs z (set_m_jp_timer 0 (with_sets iif J P L A m)))).
Proof.
  intros W E Ab Ag z rec rv. set (m1 := with_sets iif J P L A m). change (change_interfaces_at (S d)) with (change_interfaces_with rec).
  unfold change_interfaces_with. rewrite (bind_Ok _ _ _ _ _ (mrt_ok s i m E)), (bind_Ok _ _ _ _ _ (upd_mrt i m _ s E)).
  fold (with_sets iif J P L A m). fold m1. assert (O : only (eq i) s (setm i m1 s)) by (by apply (only_setm i m)).
  assert (C : calc_oifs (Some i) (setm i m1 s) = Ok z (setm i m1 s)).
  { rewrite (calc_ok (setm i m1 s) (only_web _ _ _ W O) i m1 (setm_lookup _ _ _)).
    - rewrite (only_parent _ _ _ m m1 O eq_refl), (oifs_at_keep _ _ _ _ O); [done|]. intros j Hj <-. by apply (parent_other s i m W E).
    - apply (above_keep (eq i) s _ i m m1); try done. intros j [Hj|(k & w & Hk & Ew & Hj)] <-; [by apply (parent_other s i m W E)|].
      destruct (parent_kind s i m k W E Hk) as (w' & Ew' & Kw). assert (w' = w) as -> by congruence.
      destruct (parent_kind s k w i W Ew Hj) as (v & Ev & Kv). assert (v = m) as -> by congruence.
      destruct Kv as [Kv|[(_ & Kv & Kv') (_ & Kw' & _)]]; [by rewrite (parent_rp s W i m E Kv) in Hk|].
      destruct Kw as [Kw|[_ (? & ? & ?)]]; [by rewrite (parent_rp s W k w Ew Kw) in Hj|congruence]. }
  rewrite (bind_Ok _ _ _ _ _ C). destruct (IF_SAME z (m_oifs m) && (iif =? m_incoming m) && negb (has fl MFC_UPDATE_FORCE)) eqn:Same.
  - left. apply andb_true_iff in Same as [[Ez%Z.eqb_eq Ei%Z.eqb_eq]%andb_true_iff Ef%negb_true_iff]. done.
  - right. fold rv. set (b := negb (rv =? 0) || negb (iif =? m_incoming m) || has fl MFC_UPDATE_FORCE).
    assert (F : exists m1', fire_jp b (Some i) (setm i m1 s) = Ok tt (setm i m1' s) /\ (m1' = m1 \/ m1' = set_m_jp_timer 0 m1)).
    { destruct b; cbn [fire_jp].
      - exists (set_m_jp_timer 0 m1). rewrite (upd_mrt _ _ _ _ (setm_lookup _ _ _)). unfold setm. cbn. rewrite insert_insert_eq. split; [done|by right].
      - exists m1. split; [done|by left]. }
    destruct F as (m1' & F & Hm). rewrite (bind_Ok _ _ _ _ _ F), (bind_Ok _ _ _ _ _ (upd_mrt _ _ _ _ (setm_lookup _ _ _))).
    exists (set_m_oifs z m1'). split; [|destruct Hm as [-> | ->]; [by left|by right]]. unfold setm. cbn. by rewrite insert_insert_eq.
Qed.

(** ** The end of a call *)

(** The incoming interface and the sets of an entry, and its outgoing
    interfaces. *)
Definition now (iif J P L A z : Z) (m : mrtentry) : Prop :=
  m_incoming m = iif /\ m_joined_oifs m = J /\ m_pruned_oifs m = P /\ m_leaves m = L /\ m_asserted_oifs m = A /\ m_oifs m = z.

Lemma now_cached iif J P L A z m m' : now iif J P L A z m -> cached m m' -> now iif J P L A z m'.
Proof. intros N [-> | ->]; exact N. Qed.
Lemma now_reflagged iif J P L A z m m' : now iif J P L A z m -> reflagged m m' -> now iif J P L A z m'.
Proof. intros N (F & -> & _). exact N. Qed.
Lemma cached_blank m m' : cached m m' -> blank m' = blank m.
Proof. intros [-> | ->]; [done|apply blank_uncached]. Qed.
Lemma merge_now iif J P L A z m m' b : now iif J P L A z m' -> merge_oifs b m' = merge_oifs b (with_sets iif J P L A m).
Proof. intros (_ & <- & <- & <- & <- & _). done. Qed.

Lemma changed_end D i m m' iif J P L A s s' : web s -> mrts s !! i = Some m -> only D s s' ->
  (forall j, parent s m = Some j -> ~ D j) -> mrts s' !! i = Some m' ->
  now iif J P L A (merge_oifs (oifs_at s (parent s m)) (with_sets iif J P L A m)) m' -> agrees s' i ->
  changed i m iif J P L A (oifs_change (m_oifs m) (merge_oifs (oifs_at s (parent s m)) (with_sets iif J P L A m))) s'.
Proof.
  intros W E O H E' N Ag. split; [| |done].
  - exists m'. split; [done|]. unfold now in N. intuition congruence.
  - intros w Ew. assert (w = m') as -> by congruence. destruct (on_mrts _ _ _ O i m E) as (w & Ew' & B & _).
    assert (w = m') as -> by congruence. rewrite (only_parent _ _ _ m m' O B), (oifs_at_keep _ _ _ _ O H).
    rewrite (merge_now _ _ _ _ _ _ m m' _ N). apply N.
Qed.

Lemma oifs_change_same z : oifs_change z z = 0.
Proof. unfold oifs_change. by destruct (IF_ISEMPTY z). Qed.

Lemma changed_early i m iif J P L A s : web s -> mrts s !! i = Some m -> agrees s i -> iif = m_incoming m ->
  merge_oifs (oifs_at s (parent s m)) (with_sets iif J P L A m) = m_oifs m ->
  only (eq i) s (setm i (with_sets iif J P L A m) s) /\ changed i m iif J P L A 0 (setm i (with_sets iif J P L A m) s).
Proof.
  intros W E Ag Hi Hz. assert (O : only (eq i) s (setm i (with_sets iif J P L A m) s)) by (by apply (only_setm i m)).
  split; [done|]. rewrite <- (oifs_change_same (m_oifs m)). rewrite <- Hz at 2. apply (changed_end (eq i) i m (with_sets iif J P L A m) _ _ _ _ _ s); try done.
  - intros j Hj <-. by apply (parent_other s i m W E).
  - apply setm_lookup.
  - apply (agrees_setm s i m); try done. unfold shown. by cbn; rewrite Hi.
Qed.

(** The state in which the branches start. *)
Lemma started i m m2 iif J P L A z s : web s -> mrts s !! i = Some m ->
  m2 = set_m_oifs z (with_sets iif J P L A m) \/ m2 = set_m_oifs z (set_m_jp_timer 0 (with_sets iif J P L A m)) ->
  only (eq i) s (setm i m2 s) /\ web (setm i m2 s) /\ blank m2 = blank m /\ m_flags m2 = m_flags m /\
  now iif J P L A z m2 /\ m_group m2 = m_group m /\ m_source m2 = m_source m.
Proof.
  intros W E H. assert (O : only (eq i) s (setm i m2 s)) by (apply (only_setm i m); destruct H as [-> | ->]; done).
  split; [done|]. split; [by apply (only_web _ _ _ W O)|]. destruct H as [-> | ->]; done.
Qed.

(** ** (S,G) entries *)

Lemma rp_of_group s g x : web s -> grps s !! g = Some x -> rp_known s x -> exists p,
  (if SSMGROUP s (g_group x) then ret None else rp_route (Some g)) s = Ok p s /\ forall j, p = Some j -> is_Some (mrts s !! j).
Proof.
  intros W Ex RK. destruct (SSMGROUP s (g_group x)) eqn:Ssm; [by exists None|]. destruct RK as [?|(p & Hr & Hp)]; [congruence|].
  exists p. split; [by apply (rp_route_route s g x)|]. intros j ->. destruct (Hp j eq_refl) as (w & Ew & _). by exists w.
Qed.

Lemma change_sg_ok d i m iif J P L A fl s : web s -> mrts s !! i = Some m -> is_sg m -> above s m -> agrees s i ->
  exists r s', change_interfaces_at (S d) (Some i) iif J P L A fl s = Ok r s' /\ only (eq i) s s' /\ changed i m iif J P L A r s'.
Proof.
  intros W E R Ab Ag. destruct (change_start d i m iif J P L A fl s W E Ab Ag) as [(Hz & Hi & _ & C)|(m2 & C & H2)].
  { destruct (changed_early i m iif J P L A s W E Ag Hi Hz) as [O Ch]. by do 2 eexists. }
  destruct (started i m m2 _ _ _ _ _ _ s W E H2) as (O2 & W2 & B2 & F2 & N2 & G2 & S2). clear H2.
  set (z := merge_oifs _ _) in *. set (s2 := setm i m2 s) in *. destruct (wb_sg _ W i m E R) as (g & x & e & n & G & Ex & RK & Es & En).
  assert (R' := R). destruct R' as (Rp & Rw & Rs). rewrite C, Rp, Rw, Rs. clear C. unfold change_sg.
  rewrite get_bind, (bind_Ok _ _ _ _ _ (mrt_ok s2 i m2 (setm_lookup _ _ _))). rewrite G2, G.
  rewrite (bind_Ok _ _ _ _ _ (grp_ok s2 g x Ex)). destruct (rp_of_group s2 g x W2 Ex) as (p & Hp & Hpr).
  { by apply (only_known _ _ _ O2). }
  rewrite (bind_Ok _ _ _ _ _ Hp).
  destruct (tell_sg_ok i m2 g x e n iif z s2) as (s3 & m3 & T & O3 & E3 & C3 & A3); try done; try apply setm_lookup; try apply N2.
  { by apply (blank_sg _ _ B2). } { congruence. } { congruence. }
  rewrite (bind_Ok _ _ _ _ _ T). assert (W3 : web s3) by (by apply (only_web _ _ _ W2 O3)).
  assert (O3' : only (eq i) s s3) by (by apply (only_trans _ _ _ _ W O2)).
  assert (N3 := now_cached _ _ _ _ _ _ _ _ N2 C3).
  assert (End : forall m4, reflagged m3 m4 -> only (eq i) s (setm i m4 s3) /\ changed i m iif J P L A (oifs_change (m_oifs m) z) (setm i m4 s3)).
  { intros m4 R4. assert (O4 : only (eq i) s3 (setm i m4 s3)).
    { apply (only_setm i m3); [done|by destruct R4 as (F & _ & B & _)|]. destruct R4 as (F & -> & _ & HF). done. }
    assert (O4' : only (eq i) s (setm i m4 s3)) by (by apply (only_trans _ _ _ _ W O3')). split; [done|].
    apply (changed_end (eq i) i m m4 _ _ _ _ _ s); try done; [intros j Hj <-; by apply (parent_other s i m W E)|apply setm_lookup| |].
    - by apply (now_reflagged _ _ _ _ _ _ m3).
    - apply (agrees_setm s3 i m3); try done; by destruct R4 as (F & -> & _). }
  destruct (m_incoming m =? iif).
  - rewrite (bind_Ok _ _ _ _ _ (eq_refl : ret tt s3 = Ok tt s3)). destruct (End m3 (reflagged_refl m3)) as [O4 Ch].
    assert (setm i m3 s3 = s3) as Hs by (unfold setm; rewrite insert_id by done; by destruct s3). rewrite Hs in *. by do 2 eexists.
  - destruct (only_src _ _ _ O3' e n En) as (n' & En' & _). destruct (switch_ok i m3 e n' (if SSMGROUP s2 (g_group x) then None else g_grp_route x) p iif s3) as (m4 & Sw & R4); try done.
    + rewrite (blank_source _ _ (cached_blank _ _ C3)). congruence.
    + intros j Hj. destruct (SSMGROUP s2 (g_group x)); [done|]. destruct (wb_route _ W g x j Ex Hj) as (w & Ew & _).
      destruct (on_mrts _ _ _ O3' j w Ew) as (w' & ? & _). by exists w'.
    + intros j Hj. destruct (Hpr j Hj) as [w Ew]. destruct (on_mrts _ _ _ O3 j w Ew) as (w' & ? & _). by exists w'.
    + rewrite (bind_Ok _ _ _ _ _ Sw). destruct (End m4 R4) as [O4 Ch]. by do 2 eexists.
Qed.

(** ** The (S,G) entries of a group *)

Definition same_sets (m m' : mrtentry) : Prop :=
  m_joined_oifs m' = m_joined_oifs m /\ m_pruned_oifs m' = m_pruned_oifs m /\ m_leaves m' = m_leaves m /\
  m_asserted_oifs m' = m_asserted_oifs m.

(** The entries but those in [X] keep their sets. *)
Definition keeps (X : nat -> Prop) (s s' : Pim) : Prop := forall j m m', ~ X j ->
  mrts s !! j = Some m -> mrts s' !! j = Some m' -> same_sets m m'.

Lemma same_sets_refl m : same_sets m m.
Proof. done. Qed.

Lemma keeps_only (X D : nat -> Prop) s s' : only D s s' -> (forall j, D j -> X j) -> keeps X s s'.
Proof.
  intros O I j m m' Hj E E'. destruct (on_mrts _ _ _ O j m E) as (w & Ew & _ & [?| ->] & _); [naive_solver|].
  assert (m' = m) as -> by congruence. done.
Qed.

Lemma keeps_through X D s s1 s2 : only D s s1 -> keeps X s s1 -> keeps X s1 s2 -> keeps X s s2.
Proof.
  intros O K1 K2 j m m2 Hj E E2. destruct (on_mrts _ _ _ O j m E) as (m1 & E1 & _).
  specialize (K1 j m m1 Hj E E1). specialize (K2 j m1 m2 Hj E1 E2). unfold same_sets in *. intuition congruence.
Qed.

Lemma ancestor_kind s i m j : web s -> mrts s !! i = Some m -> ancestor s m j -> exists w, mrts s !! j = Some w /\ ~ is_sg w.
Proof.
  intros W E H. assert (K : forall a w, mrts s !! a = Some w -> (is_rp w \/ is_wc w) -> ~ is_sg w).
  { intros a w _ [Kw|(? & Kw & _)] (Sp & Sw & _); unfold is_rp in *; congruence. }
  destruct H as [Hj|(k & w & Hk & Ew & Hj)].
  - destruct (parent_kind s i m j W E Hj) as (w & Ew & Kw). exists w. split; [done|]. apply (K j w Ew). tauto.
  - destruct (parent_kind s k w j W Ew Hj) as (v & Ev & Kv). exists v. split; [done|]. apply (K j v Ev). tauto.
Qed.

(** The call with the entry's own sets. *)
Lemma refresh_sg d i m iif fl s : web s -> mrts s !! i = Some m -> is_sg m -> above s m -> agrees s i ->
  exists r s', refresh_with (change_interfaces_at (S d)) (Some i) iif fl s = Ok r s' /\ only (eq i) s s' /\
    keeps (fun _ => False) s s' /\ settled s' i /\ agrees s' i.
Proof.
  intros W E R Ab Ag. unfold refresh_with. rewrite (bind_Ok _ _ _ _ _ (mrt_ok s i m E)).
  destruct (change_sg_ok d i m iif (m_joined_oifs m) (m_pruned_oifs m) (m_leaves m) (m_asserted_oifs m) fl s W E R Ab Ag) as (r & s' & C & O & Ch).
  exists r, s'. split_and!; try done; try apply Ch. intros j w w' _ Ew Ew'. destruct (decide (i = j)) as [<-|Hj].
  - assert (w = m) as -> by congruence. destruct (ch_entry _ _ _ _ _ _ _ _ _ Ch) as (m' & Em' & _ & ? & ? & ? & ? & _).
    assert (w' = m') as -> by congruence. done.
  - by apply (keeps_only (eq i) (eq i) s s' O (fun _ H => H) j).
Qed.

Lemma srcs_loop_ok d iif fl l : forall fuel p s fire, web s -> (length l < fuel)%nat -> follow (sg_next s) p l -> NoDup l ->
  (forall i, i ∈ l -> exists m, mrts s !! i = Some m /\ is_sg m /\ above s m /\ agrees s i) ->
  exists b s', srcs_loop (change_interfaces_at (S d)) fuel p iif fl fire s = Ok b s' /\ only (fun j => j ∈ l) s s' /\
    keeps (fun _ => False) s s' /\ forall i, i ∈ l -> settled s' i /\ agrees s' i.
Proof.
  induction l as [|i l IH]; intros [|fuel] p s fire W Hf F ND H; cbn [length] in Hf; try lia.
  - cbn in F. subst p. exists fire, s. split; [done|]. split; [apply only_refl|]. split; [|intros i Hi; by apply not_elem_of_nil in Hi].
    by apply (keeps_only _ (fun _ => False) s s (only_refl _ s)).
  - destruct F as (-> & n & En & F). apply NoDup_cons in ND as [Hi ND]. destruct (H i) as (m & E & R & Ab & Ag); [by left|].
    unfold sg_next in En. rewrite E in En. injection En as <-. cbn [srcs_loop]. rewrite (bind_Ok _ _ _ _ _ (mrt_ok s i m E)).
    destruct (refresh_sg d i m (if has (m_flags m) MRTF_RP then iif else m_incoming m) fl s W E R Ab Ag) as (r & s1 & C & O1 & K1 & S1 & A1).
    rewrite (bind_Ok _ _ _ _ _ C). destruct (on_mrts _ _ _ O1 i m E) as (m1 & E1 & B1 & _). rewrite (bind_Ok _ _ _ _ _ (mrt_ok s1 i m1 E1)).
    rewrite (blank_next _ _ B1). assert (W1 := only_web _ _ _ W O1).
    destruct (IH fuel (m_grpnext m) s1 (fire || negb (r =? 0)) W1) as (b & s' & L & O2 & K2 & Done); [lia| |done| |].
    { eapply follow_frame; [exact F|]. intros j Hj. destruct (H j) as (w & Ew & _); [by right|]. destruct (on_mrts _ _ _ O1 j w Ew) as (w1 & Ew1 & Bw & _).
      unfold sg_next. rewrite Ew, Ew1. cbn. by rewrite (blank_next _ _ Bw). }
    { intros j Hj. destruct (H j) as (w & Ew & Rw & Aw & Agw); [by right|]. assert (Hij : i <> j) by (by intros ->).
      destruct (on_mrts _ _ _ O1 j w Ew) as (w1 & Ew1 & Bw & [?| ->] & _); [done|]. exists w. split_and!; try done.
      - apply (above_keep (eq i) s _ j w w); try done. intros k Hk <-. destruct (ancestor_kind s j w i W Ew Hk) as (v & Ev & Kv).
        assert (v = m) as -> by congruence. done.
      - by apply (agrees_other (eq i) s). }
    exists b, s'. split; [done|]. split.
    { apply (only_trans _ _ s1); [done|apply (only_weaken (eq i)); [|done]; intros j <-; by left|].
      apply (only_weaken (fun j => j ∈ l)); [|done]. intros j Hj. by right. }
    split; [by apply (keeps_through _ (eq i) _ s1)|]. intros j [-> |Hj]%elem_of_cons; [|by apply Done].
    split; [|by apply (agrees_other (fun j => j ∈ l) s1)]. apply (settled_keep (fun j => j ∈ l) s1); try done.
    intros w k Ew Hk Hkl. assert (w = m1) as -> by congruence. destruct (ancestor_kind s1 i m1 k W1 E1 (or_introl Hk)) as (v & Ev & Kv).
    destruct (H k) as (v0 & Ev0 & Rv0 & _); [by right|]. destruct (on_mrts _ _ _ O1 k v0 Ev0) as (v1 & Ev1 & Bv & _).
    apply Kv. assert (v1 = v) as -> by congruence. by apply (blank_sg _ _ Bv).
Qed.

(** ** (star,G) entries *)

Definition in_group (s : Pim) (g j : nat) : Prop := exists m, mrts s !! j = Some m /\ m_group m = Some g.

(** The entries of a group: its (star,G) entry and those on its list. *)
Lemma in_group_cases s g x l j : web s -> grps s !! g = Some x -> follow (sg_next s) (g_mrtlink x) l ->
  in_group s g j <-> (g_grp_route x = Some j \/ j ∈ l).
Proof.
  intros W Ex F. destruct (wb_list _ W g x Ex) as (l' & F' & Hl). rewrite <- (follow_det _ _ _ _ F F') in Hl. split.
  - intros (m & E & G). destruct (wb_kind _ W j m E) as [K|[K|K]].
    + destruct (wb_rp _ W j m E K) as [G' _]. congruence.
    + left. destruct (wb_wc _ W j m E K) as (g' & x' & G' & Ex' & Hr & _). assert (g' = g) as -> by congruence.
      assert (x' = x) as -> by congruence. done.
    + right. apply Hl. by exists m.
  - intros [Hr|Hj]; [destruct (wb_route _ W g x j Ex Hr) as (m & E & _ & G); by exists m|].
    apply Hl in Hj as (m & E & _ & G). by exists m.
Qed.

Lemma sg_parent s g x i j m : web s -> grps s !! g = Some x -> g_grp_route x = Some i -> mrts s !! j = Some m -> is_sg m ->
  m_group m = Some g -> parent s m = None \/ parent s m = Some i.
Proof.
  intros W Ex Hr E R G. destruct (SSMGROUP s (g_group x)) eqn:Ssm; [left; by apply (parent_ssm s m g x)|].
  destruct (wb_sg _ W j m E R) as (g' & x' & _ & _ & G' & Ex' & RK & _). assert (g' = g) as -> by congruence.
  assert (x' = x) as -> by congruence. destruct RK as [?|(p & Hp & _)]; [congruence|]. right.
  rewrite (parent_eq s m g x p G Ex Ssm Hp). destruct R as (_ & _ & ->). by rewrite Hr.
Qed.

Lemma fire_ok b i m s : mrts s !! i = Some m ->
  exists m', fire_jp b (Some i) s = Ok tt (setm i m' s) /\ (m' = m \/ m' = set_m_jp_timer 0 m).
Proof.
  intros E. destruct b; cbn [fire_jp].
  - exists (set_m_jp_timer 0 m). rewrite (upd_mrt _ _ _ _ E). split; [done|by right].
  - exists m. split; [|by left]. unfold ret, setm. rewrite insert_id by done. by destruct s.
Qed.

Section Wc.
Context (d i : nat) (m : mrtentry) (iif J P L A fl : Z) (s : Pim) (g : nat) (x : grpentry) (l : list nat).
Context (W : web s) (E : mrts s !! i = Some m) (R : is_wc m) (G : m_group m = Some g) (Ex : grps s !! g = Some x).
Context (Hr : g_grp_route x = Some i) (F : follow (sg_next s) (g_mrtlink x) l) (Ab : above s m) (Ag : agrees s i).

Lemma list_sg j : j ∈ l -> exists w, mrts s !! j = Some w /\ is_sg w /\ m_group w = Some g.
Proof.
  intros Hj. destruct (wb_list _ W g x Ex) as (l' & F' & Hl). rewrite <- (follow_det _ _ _ _ F F') in Hl. by apply Hl.
Qed.

Lemma wc_not_sg : i ∉ l.
Proof.
  intros Hi. destruct (list_sg i Hi) as (w & Ew & (_ & Hw & _) & _). assert (w = m) as -> by congruence.
  destruct R as (_ & Hw' & _). congruence.
Qed.

Lemma change_wc_ok : (forall j, j ∈ l -> settled s j /\ agrees s j) ->
  exists r s', change_interfaces_at (S (S d)) (Some i) iif J P L A fl s = Ok r s' /\ only (in_group s g) s s' /\
    keeps (eq i) s s' /\ changed i m iif J P L A r s' /\ forall j, j ∈ l -> settled s' j /\ agrees s' j.
Proof.
  intros Hl. assert (Hp : forall j, parent s m = Some j -> ~ in_group s g j).
  { intros j Hj (w & Ew & Gw). destruct (parent_kind s i m j W E Hj) as (v & Ev & [Kv|[_ (_ & Km & _)]]).
    - assert (v = w) as -> by congruence. destruct (wb_rp _ W j w Ew Kv) as [? _]. congruence.
    - destruct R as (_ & Km' & _). congruence. }
  assert (Ig : forall j, i = j -> in_group s g j) by (intros j <-; by exists m).
  destruct (change_start (S d) i m iif J P L A fl s W E Ab Ag) as [(Hz & Hi & _ & C)|(m2 & C & H2)].
  { destruct (changed_early i m iif J P L A s W E Ag Hi Hz) as [O Ch]. do 2 eexists. split; [exact C|].
    split; [by apply (only_weaken (eq i))|]. split; [by apply (keeps_only _ _ _ _ O)|]. split; [done|]. intros j Hj.
    assert (i <> j) by (intros <-; by apply wc_not_sg). destruct (Hl j Hj) as [Sj Aj]. split; [|by apply (agrees_other (eq i) s)].
    apply (settled_same (eq i) s); try done. intros w Ew. destruct (list_sg j Hj) as (w' & Ew' & Rw & Gw). assert (w' = w) as -> by congruence.
    destruct (sg_parent s g x i j w W Ex Hr Ew Rw Gw) as [-> | ->]; [done|]. unfold oifs_at. cbn. by rewrite lookup_insert_eq, E. }
  destruct (started i m m2 _ _ _ _ _ _ s W E H2) as (O2 & W2 & B2 & F2 & N2 & G2 & S2). clear H2.
  set (z := merge_oifs _ _) in *. set (s2 := setm i m2 s) in *. assert (R' := R). destruct R' as (Rp & Rw & _). rewrite C, Rp, Rw. clear C.
  unfold change_wc. rewrite get_bind, (bind_Ok _ _ _ _ _ (mrt_ok s2 i m2 (setm_lookup _ _ _))).
  destruct (tell_ok i m2 iif z s2) as (s3 & m3 & T & O3 & E3 & C3 & A3); try done; try apply setm_lookup; try apply N2.
  rewrite (bind_Ok _ _ _ _ _ T), G2, G. assert (W3 : web s3) by (by apply (only_web _ _ _ W2 O3)).
  assert (O3' : only (eq i) s s3) by (by apply (only_trans _ _ _ _ W O2)). assert (N3 := now_cached _ _ _ _ _ _ _ _ N2 C3).
  assert (Ex3 : grps s3 !! g = Some x) by (by rewrite (only_grps _ _ _ O3')). rewrite (bind_Ok _ _ _ _ _ (grp_ok s3 g x Ex3)).
  assert (B3 : blank m3 = blank m) by (by rewrite (cached_blank _ _ C3)).
  assert (Pi : forall j, parent s m = Some j -> i <> j) by (intros j Hj <-; by apply (parent_other s i m W E)).
  assert (Ch3 := changed_end (eq i) i m m3 iif J P L A s s3 W E O3' Pi E3 N3 A3).
  destruct (srcs_loop_ok d iif fl l (fuel_of s2) (g_mrtlink x) s3 false W3) as (b & s4 & Lo & O4 & K4 & Done).
  { unfold fuel_of. change (brk s2) with (brk s). apply Nat.lt_succ_r. eapply follow_length; [exact F|]. intros j Hj. apply (wb_mrts _ W).
    unfold sg_next in Hj. by apply fmap_is_Some in Hj. }
  { eapply follow_frame; [exact F|]. intros j Hj. destruct (list_sg j Hj) as (w & Ew & _). destruct (on_mrts _ _ _ O3' j w Ew) as (w1 & Ew1 & Bw & _).
    unfold sg_next. rewrite Ew, Ew1. cbn. by rewrite (blank_next _ _ Bw). }
  { by eapply follow_NoDup. }
  { intros j Hj. destruct (list_sg j Hj) as (w & Ew & Rw' & Gw). assert (Hij : i <> j) by (intros <-; by apply wc_not_sg).
    destruct (on_mrts _ _ _ O3' j w Ew) as (w1 & Ew1 & Bw & [?| ->] & _); [done|]. exists w. split_and!; [done|done| |apply (agrees_other (eq i) s); [done..|by apply Hl]].
    intros k Hk. rewrite (only_parent _ _ _ w w O3' eq_refl) in Hk. destruct (sg_parent s g x i j w W Ex Hr Ew Rw' Gw) as [Hn|Hn]; rewrite Hn in Hk; [done|].
    injection Hk as <-. split; [apply Ch3|]. intros v k Ev Hk. assert (v = m3) as -> by congruence.
    rewrite (only_parent _ _ _ m m3 O3' B3) in Hk. destruct (Ab k Hk) as [Sk _]. apply (settled_keep (eq i) s); try done; [by apply Pi|].
    intros v p Ev' Hp' <-. destruct (parent_kind s i m k W E Hk) as (v' & Ev'' & [Kv|[_ (_ & Km & _)]]); [|congruence].
    assert (v' = v) as -> by congruence. by rewrite (parent_rp s W k v Ev' Kv) in Hp'. }
  rewrite (bind_Ok _ _ _ _ _ Lo). destruct (on_mrts _ _ _ O4 i m3 E3) as (m4 & E4 & _ & [Hi| ->] & _); [by destruct (wc_not_sg)|].
  destruct (fire_ok b i m3 s4 E4) as (m5 & Fi & H5). rewrite (bind_Ok _ _ _ _ _ Fi).
  assert (W4 : web s4) by (by apply (only_web _ _ _ W3 O4)).
  assert (O5 : only (eq i) s4 (setm i m5 s4)) by (apply (only_setm i m3); [done|by destruct H5 as [-> | ->]..]).
  assert (O4' : only (in_group s g) s s4).
  { apply (only_trans _ _ s3 _ W); [by apply (only_weaken (eq i))|]. apply (only_weaken (fun j => j ∈ l)); [|done].
    intros j Hj. apply (in_group_cases s g x l j W Ex F). by right. }
  assert (O5' : only (in_group s g) s (setm i m5 s4)) by (apply (only_trans _ _ s4 _ W O4'); by apply (only_weaken (eq i))).
  exists (oifs_change (m_oifs m) z), (setm i m5 s4). split; [done|]. split; [done|]. split; [|split].
  - apply (keeps_through _ _ _ s4 _ O4'); [|by apply (keeps_only _ _ _ _ O5)].
    apply (keeps_through _ _ _ s3 _ O3'); [by apply (keeps_only _ _ _ _ O3')|]. intros j w w' _. exact (K4 j w w' (fun f => f)).
  - assert (N5 : now iif J P L A z m5) by (by destruct H5 as [-> | ->]).
    apply (changed_end (in_group s g) i m m5 iif J P L A s (setm i m5 s4) W E O5' Hp (setm_lookup _ _ _) N5).
    apply (agrees_setm s4 i m3); try done; [by destruct H5 as [-> | ->]..|]. apply (agrees_other (fun j => j ∈ l) s3); try done. by apply wc_not_sg.
  - intros j Hj. assert (Hij : i <> j) by (intros <-; by apply wc_not_sg). destruct (Done j Hj) as [Sj Aj].
    split; [|by apply (agrees_other (eq i) s4)]. apply (settled_same (eq i) s4); try done. intros w Ew.
    destruct (parent s4 w) as [k|]; [|done]. unfold oifs_at. cbn. destruct (decide (i = k)) as [<-|Hk].
    + rewrite lookup_insert_eq, E4. by destruct H5 as [-> | ->].
    + by rewrite lookup_insert_ne.
Qed.
End Wc.
