(* ===== verification/OifsOk.v ===== *)
(** * OifsOk: change_interfaces keeps the outgoing interfaces right

    The (star,star,RP) entries, and the theorem about every call: in a memory
    whose entries are all settled and agree with the kernel it leaves them so. *)

From stdpp Require Import base list numbers gmap sorting.
From S2P Require Import Prelude Inet6 Pim RpMatch Vif Mrt Oifs OifsWeb OifsEntry.
Open Scope Z_scope.

#[local] Arguments SSMGROUP : simpl never.
#[local] Arguments has : simpl never.

(** ** (star,star,RP) entries *)

(** Entry [m] waits for the loop over the groups [gs] of the RP with entry
    [i0]. *)
Definition pending (s : Pim) (i0 : nat) (gs : list nat) (m : mrtentry) : Prop := exists g x,
  m_group m = Some g /\ g ∈ gs /\ grps s !! g = Some x /\ (is_sg m -> g_grp_route x = None).

Record fine (s : Pim) (i0 : nat) (gs : list nat) : Prop := {
  fi_rp : exists m0, mrts s !! i0 = Some m0 /\ is_rp m0;
  fi_settled : settled s i0;
  fi_rest : forall j m, mrts s !! j = Some m -> agrees s j /\ (settled s j \/ pending s i0 gs m);
  fi_groups : forall g, g ∈ gs -> exists x, grps s !! g = Some x /\ route_of s x = Some (Some i0)
}.

Lemma parent_out s g j m k : web s -> mrts s !! j = Some m -> ~ in_group s g j -> parent s m = Some k -> ~ in_group s g k.
Proof.
  intros W E Hj Hk (v & Ev & Gv). destruct (parent_kind s j m k W E Hk) as (v' & Ev' & Kv). assert (v' = v) as -> by congruence.
  destruct Kv as [Kv|[Kv Km]]; [destruct (wb_rp _ W k v Ev Kv) as [? _]; congruence|].
  destruct (wb_sg _ W j m E Km) as (g' & x & _ & _ & G & Ex & RK & _). destruct (SSMGROUP s (g_group x)) eqn:Ssm.
  { by rewrite (parent_ssm s m g' x) in Hk. }
  destruct RK as [?|(p & Hr & Hp)]; [congruence|]. rewrite (parent_eq s m g' x p G Ex Ssm Hr) in Hk.
  destruct Km as (_ & _ & Sg). rewrite Sg in Hk. destruct (g_grp_route x) as [w|] eqn:Ew.
  - injection Hk as ->. destruct (wb_route _ W g' x k Ex Ew) as (w & Ew' & _ & Gw). assert (w = v) as -> by congruence.
    apply Hj. exists m. split; [done|]. congruence.
  - destruct (Hp k Hk) as (w & Ew' & Kw). assert (w = v) as -> by congruence. destruct (wb_rp _ W k v Ev Kw) as [? _]. congruence.
Qed.

Section Group.
Context (d i0 g : nat) (gs : list nat) (x : grpentry) (iif fl : Z) (s : Pim).
Context (W : web s) (Fi : fine s i0 (g :: gs)) (Ex : grps s !! g = Some x).

Lemma group_route : route_of s x = Some (Some i0).
Proof. destruct (fi_groups _ _ _ Fi g) as (x' & Ex' & H); [by left|]. congruence. Qed.

Lemma rp_out : ~ in_group s g i0.
Proof.
  intros (m & E & G). destruct (fi_rp _ _ _ Fi) as (m0 & E0 & R0). assert (m = m0) as -> by congruence.
  destruct (wb_rp _ W i0 m0 E0 R0) as [? _]. congruence.
Qed.

(** An entry of the group whose parent is the RP's entry can be refreshed. *)
Lemma above_rp m : m_group m = Some g -> (has (m_flags m) MRTF_SG = true -> g_grp_route x = None) -> above s m.
Proof.
  intros G H j Hj. assert (j = i0) as ->.
  { destruct (SSMGROUP s (g_group x)) eqn:Ssm; [by rewrite (parent_ssm s m g x) in Hj|].
    rewrite (parent_eq s m g x _ G Ex Ssm group_route) in Hj. destruct (has (m_flags m) MRTF_SG); [rewrite H in Hj by done|]; congruence. }
  split; [apply Fi|]. intros w k Ew Hk. destruct (fi_rp _ _ _ Fi) as (m0 & E0 & R0). assert (w = m0) as -> by congruence.
  by rewrite (parent_rp s W i0 m0 E0 R0) in Hk.
Qed.

Lemma fine_step s' : only (in_group s g) s s' -> (forall j, in_group s g j -> settled s' j /\ agrees s' j) -> fine s' i0 gs.
Proof.
  intros O H. destruct (fi_rp _ _ _ Fi) as (m0 & E0 & R0). split.
  - destruct (on_mrts _ _ _ O i0 m0 E0) as (m1 & E1 & B & _). exists m1. split; [done|]. by apply (blank_rp _ _ B).
  - apply (settled_keep (in_group s g) s); [done|apply rp_out| |apply Fi]. intros m p E Hp. assert (m = m0) as -> by congruence.
    by rewrite (parent_rp s W i0 m0 E0 R0) in Hp.
  - intros j m' E'. destruct (only_back _ _ _ _ _ O E') as (m & E & B & Hm & _).
    assert (in_group s g j \/ ~ in_group s g j) as [Hj|Hj].
    { destruct (decide (m_group m = Some g)); [left; by exists m|right]. intros (w & Ew & Gw). congruence. }
    + destruct (H j Hj). split; [done|by left].
    + destruct Hm as [?| ->]; [done|]. destruct (fi_rest _ _ _ Fi j m E) as [A S]. split; [by apply (agrees_other (in_group s g) s)|].
      destruct S as [S|(g' & x' & G & Hg & Ex' & Hs)]; [left; apply (settled_keep (in_group s g) s); try done|right].
      * intros w p Ew. assert (w = m) as -> by congruence. by apply parent_out with (j := j).
      * exists g', x'. rewrite (only_grps _ _ _ O). split_and!; try done. apply elem_of_cons in Hg as [-> |Hg]; [|done].
        destruct Hj. by exists m.
  - intros g' Hg. rewrite (only_grps _ _ _ O). setoid_rewrite (only_route _ _ _ O). apply Fi. by right.
Qed.

Lemma group_ok fire : exists b s',
  match g_grp_route x with
  | Some _ => let! r := refresh_with (change_interfaces_at (S (S d))) (g_grp_route x) iif fl in ret (fire || negb (r =? 0))
  | None => srcs_loop (change_interfaces_at (S (S d))) (fuel_of s) (g_mrtlink x) iif fl fire
  end s = Ok b s' /\ only (in_group s g) s s' /\ keeps (fun _ => False) s s' /\ fine s' i0 gs.
Proof.
  destruct (wb_list _ W g x Ex) as (l & F & Hl). destruct (g_grp_route x) as [i|] eqn:Hr.
  - destruct (wb_route _ W g x i Ex Hr) as (m & E & R & G). unfold refresh_with. rewrite bind_assoc, (bind_Ok _ _ _ _ _ (mrt_ok s i m E)).
    destruct (change_wc_ok d i m iif (m_joined_oifs m) (m_pruned_oifs m) (m_leaves m) (m_asserted_oifs m) fl s g x l) as (r & s' & C & O & K & Ch & Done); try done.
    + apply above_rp; [done|]. destruct R as (_ & _ & ->). done.
    + by destruct (fi_rest _ _ _ Fi i m E).
    + intros j Hj. apply Hl in Hj as (w & Ew & Rw & Gw). destruct (fi_rest _ _ _ Fi j w Ew) as [A [S|(g' & x' & G' & _ & Ex' & Hs)]]; [done|].
      assert (g' = g) as -> by congruence. assert (x' = x) as -> by congruence. rewrite Hs in Hr; done.
    + rewrite (bind_Ok _ _ _ _ _ C). do 2 eexists. split; [done|]. split; [done|]. split.
      * intros j w w' _ Ew Ew'. destruct (decide (i = j)) as [<-|Hj]; [|by apply (K j)]. assert (w = m) as -> by congruence.
        destruct (ch_entry _ _ _ _ _ _ _ _ _ Ch) as (m' & Em' & _ & ? & ? & ? & ? & _). assert (w' = m') as -> by congruence. done.
      * apply fine_step; [done|]. intros j Hj. apply (in_group_cases s g x l j W Ex F) in Hj as [Hj|Hj]; [|by apply Done].
        assert (j = i) as -> by congruence. split; apply Ch.
  - destruct (srcs_loop_ok (S d) iif fl l (fuel_of s) (g_mrtlink x) s fire W) as (b & s' & Lo & O & K & Done); [| |by eapply follow_NoDup| |].
    + unfold fuel_of. apply Nat.lt_succ_r. eapply follow_length; [exact F|]. intros j Hj. apply (wb_mrts _ W).
      unfold sg_next in Hj. by apply fmap_is_Some in Hj.
    + done.
    + intros j Hj. apply Hl in Hj as (w & Ew & Rw & Gw). exists w. split_and!; [done|done|by apply above_rp|by apply (fi_rest _ _ _ Fi j w Ew)].
    + assert (O' : only (in_group s g) s s').
      { apply (only_weaken (fun j => j ∈ l)); [|done]. intros j Hj. apply (in_group_cases s g x l j W Ex F). by right. }
      do 2 eexists. split; [done|]. split; [done|]. split; [done|]. apply fine_step; [done|].
      intros j Hj. apply (in_group_cases s g x l j W Ex F) in Hj as [Hj|Hj]; [congruence|by apply Done].
Qed.
End Group.

Lemma groups_loop_ok d i0 iif fl gl : forall fuel p rest s fire, web s -> (length gl < fuel)%nat -> follow (gr_next s) p gl ->
  fine s i0 (gl ++ rest) -> exists b s', groups_loop (change_interfaces_at (S (S d))) fuel p iif fl fire s = Ok b s' /\
    only (fun j => j <> i0) s s' /\ keeps (fun _ => False) s s' /\ fine s' i0 rest.
Proof.
  induction gl as [|g gl IH]; intros [|fuel] p rest s fire W Hf F Fi; cbn [length] in Hf; try lia.
  - cbn in F. subst p. exists fire, s. split; [done|]. split; [apply only_refl|]. split; [|done].
    by apply (keeps_only _ (fun _ => False) s s (only_refl _ s)).
  - destruct F as (-> & n & En & F). unfold gr_next in En. apply fmap_Some in En as (x & Ex & ->). cbn [app] in Fi. cbn [groups_loop].
    rewrite get_bind, (bind_Ok _ _ _ _ _ (grp_ok s g x Ex)).
    destruct (group_ok d i0 g (gl ++ rest) x iif fl s W Fi Ex fire) as (b & s1 & C & O1 & K1 & Fi1). rewrite (bind_Ok _ _ _ _ _ C).
    assert (Ex1 : grps s1 !! g = Some x) by (by rewrite (only_grps _ _ _ O1)). rewrite (bind_Ok _ _ _ _ _ (grp_ok s1 g x Ex1)).
    destruct (IH fuel (g_rpnext x) rest s1 b) as (b' & s' & L & O2 & K2 & Fi2); [by apply (only_web _ _ _ W O1)|lia| |done|].
    { eapply follow_frame; [exact F|]. intros j _. unfold gr_next. by rewrite (only_grps _ _ _ O1). }
    assert (O1' : only (fun j => j <> i0) s s1).
    { apply (only_weaken (in_group s g)); [|done]. intros j Hj ->. by apply (rp_out i0 g (gl ++ rest) s W Fi). }
    do 2 eexists. split; [exact L|]. split; [by apply (only_trans _ _ s1)|]. split; [|done]. by apply (keeps_through _ _ _ s1 _ O1').
Qed.

Lemma rp_grps_loop_ok d i0 iif fl rs : forall gss fuel p s fire, web s -> (length rs < fuel)%nat -> follow (rg_next s) p rs ->
  Forall2 (fun r l => exists x, rpgs s !! r = Some x /\ follow (gr_next s) (rg_grplink x) l) rs gss ->
  fine s i0 (concat gss) -> exists b s', rp_grps_loop (change_interfaces_at (S (S d))) fuel p iif fl fire s = Ok b s' /\
    only (fun j => j <> i0) s s' /\ keeps (fun _ => False) s s' /\ fine s' i0 [].
Proof.
  induction rs as [|r rs IH]; intros gss [|fuel] p s fire W Hf F F2 Fi; cbn [length] in Hf; try lia.
  - cbn in F. subst p. apply Forall2_nil_inv_l in F2 as ->. exists fire, s. split; [done|]. split; [apply only_refl|]. split; [|done].
    by apply (keeps_only _ (fun _ => False) s s (only_refl _ s)).
  - destruct F as (-> & n & En & F). unfold rg_next in En. apply fmap_Some in En as (x & Ex & ->).
    apply Forall2_cons_inv_l in F2 as (gl & gss' & (x' & Ex' & Hg) & F2 & ->). assert (x' = x) as -> by congruence. cbn [rp_grps_loop concat] in *.
    assert (Rx : forall t, rpgs t !! r = Some x -> rpg (Some r) t = Ok x t) by (intros t Et; unfold rpg, load; cbn; by rewrite Et).
    rewrite get_bind, (bind_Ok _ _ _ _ _ (Rx s Ex)).
    destruct (groups_loop_ok d i0 iif fl gl (fuel_of s) (rg_grplink x) (concat gss') s fire W) as (b & s1 & C & O1 & K1 & Fi1); try done.
    { unfold fuel_of. apply Nat.lt_succ_r. eapply follow_length; [exact Hg|]. intros j Hj. apply (wb_grps _ W).
      unfold gr_next in Hj. by apply fmap_is_Some in Hj. }
    rewrite (bind_Ok _ _ _ _ _ C), (bind_Ok _ _ _ _ _ (Rx s1 ltac:(by rewrite (only_rpgs _ _ _ O1)))).
    destruct (IH gss' fuel (rp_grp_next x) s1 b) as (b' & s' & L & O2 & K2 & Fi2); [by apply (only_web _ _ _ W O1)|lia| | |done|].
    { eapply follow_frame; [exact F|]. intros j _. unfold rg_next. by rewrite (only_rpgs _ _ _ O1). }
    { eapply Forall2_impl; [exact F2|]. intros q l (y & Ey & Hl). exists y. rewrite (only_rpgs _ _ _ O1). split; [done|].
      eapply follow_frame; [exact Hl|]. intros j _. unfold gr_next. by rewrite (only_grps _ _ _ O1). }
    do 2 eexists. split; [exact L|]. split; [by apply (only_trans _ _ s1)|]. split; [|done]. by apply (keeps_through _ _ _ s1 _ O1).
Qed.

(** All entries are settled, and the kernel agrees with all. *)
Definition all_right (s : Pim) : Prop := forall j, is_Some (mrts s !! j) -> settled s j /\ agrees s j.

Lemma all_right_settled s j : all_right s -> settled s j.
Proof. intros H m E. destruct (H j) as [S _]; [by exists m|]. by apply S. Qed.
Lemma all_right_agrees s j : all_right s -> agrees s j.
Proof. intros H m l c x E. destruct (H j) as [_ A]; [by exists m|]. by apply A. Qed.

(** What is left of the entries when only entry [i] changed its sets, or only
    entries below the group of [i] did. *)
Lemma others_right D s s' : web s -> all_right s -> only D s s' ->
  (forall j, D j -> is_Some (mrts s' !! j) -> settled s' j /\ agrees s' j) ->
  (forall j, {D j} + {~ D j}) ->
  (forall j m k, ~ D j -> mrts s !! j = Some m -> parent s m = Some k -> oifs_at s' (Some k) = oifs_at s (Some k)) -> all_right s'.
Proof.
  intros W H O HD Dec Hp j Hj. destruct (Dec j) as [Dj|Dj]; [by apply HD|]. split.
  - apply (settled_same D s); [done|done| |by apply all_right_settled]. intros m E. destruct (parent s m) as [k|] eqn:Hk; [|done]. by apply (Hp j m).
  - apply (agrees_other D s); [done|done|done|]. by apply all_right_agrees.
Qed.

Lemma early_right i m iif J P L A s : web s -> mrts s !! i = Some m -> all_right s -> iif = m_incoming m ->
  merge_oifs (oifs_at s (parent s m)) (with_sets iif J P L A m) = m_oifs m -> all_right (setm i (with_sets iif J P L A m) s).
Proof.
  intros W E H Hi Hz. destruct (changed_early i m iif J P L A s W E (all_right_agrees s i H) Hi Hz) as [O Ch].
  apply (others_right (eq i) s); [done|done|done| |intros j; apply Nat.eq_dec|].
  - intros j <- _. split; apply Ch.
  - intros j w k _ _ _. unfold oifs_at. cbn. destruct (decide (i = k)) as [<-|Hk]; [by rewrite lookup_insert_eq, E|by rewrite lookup_insert_ne].
Qed.

(** Firing the timer of entry [i] changes nothing else. *)
Lemma fired_right i m m' s : web s -> mrts s !! i = Some m -> m' = m \/ m' = set_m_jp_timer 0 m -> all_right s ->
  only (eq i) s (setm i m' s) /\ all_right (setm i m' s).
Proof.
  intros W E Hm H. assert (O : only (eq i) s (setm i m' s)) by (apply (only_setm i m); [done|by destruct Hm as [-> | ->]..]).
  split; [done|]. apply (others_right (eq i) s); [done|done|done| |intros j; apply Nat.eq_dec|].
  - intros j <- _. split.
    + apply (setm_settled i m); [done|done|by destruct Hm as [-> | ->]..|].
      pose proof (all_right_settled s i H m E) as S. by destruct Hm as [-> | ->].
    + apply (agrees_setm s i m); [done|by destruct Hm as [-> | ->]..|by apply all_right_agrees].
  - intros j w k _ _ _. unfold oifs_at. cbn. destruct (decide (i = k)) as [<-|Hk]; [|by rewrite lookup_insert_ne].
    rewrite lookup_insert_eq, E. by destruct Hm as [-> | ->].
Qed.

Section Pmbr.
Context (i : nat) (m m2 : mrtentry) (iif J P L A z : Z) (s : Pim) (e : nat) (n : srcentry) (gs : list nat).
Context (W : web s) (H : all_right s) (E : mrts s !! i = Some m) (R : is_rp m) (En : srcs s !! e = Some n) (Es : m_source m = Some e).
Context (Hg : forall g, g ∈ gs <-> exists x, grps s !! g = Some x /\ route_of s x = Some (Some i)).
Context (Hz : z = merge_oifs (oifs_at s (parent s m)) (with_sets iif J P L A m)).
Context (H2 : m2 = set_m_oifs z (with_sets iif J P L A m) \/ m2 = set_m_oifs z (set_m_jp_timer 0 (with_sets iif J P L A m))).

(** The RP's own part of the (star,star,RP) branch. *)
Definition toward (s : Pim) : Pim := set_srcs (<[e := set_s_incoming iif n]> (srcs s)) s.

Lemma pmbr_start : (has (m_flags m) MRTF_KERNEL_CACHE = true -> IF_ISEMPTY z = false) -> exists s4,
  (if has (m_flags m2) MRTF_KERNEL_CACHE then
     if IF_ISEMPTY z then del_caches (fuel_of (setm i m2 s)) (Some i) (m_kernel_cache m2)
     else chg_caches (fuel_of (setm i m2 s)) (m_kernel_cache m2) iif z
   else ret tt) (toward (setm i m2 s)) = Ok tt s4 /\
  only (eq i) s s4 /\ mrts s4 !! i = Some m2 /\ agrees s4 i.
Proof.
  intros Hne. destruct (started i m m2 iif J P L A z s W E H2) as (O2 & W2 & B2 & F2 & N2 & _). set (s2 := setm i m2 s) in *.
  assert (O3 : only (eq i) s2 (toward s2)) by (apply (only_weaken (fun _ => False)); [done|by apply only_src_step]).
  assert (W3 : web (toward s2)) by (by apply (only_web _ _ _ W2 O3)).
  assert (O3' : only (eq i) s (toward s2)) by (by apply (only_trans _ _ s2)). rewrite F2.
  destruct (has (m_flags m) MRTF_KERNEL_CACHE) eqn:Ef.
  - rewrite (Hne eq_refl). destruct (chg_all_ok i m2 iif z (toward s2) W3) as (s4 & C & O4 & E4 & A4); [apply setm_lookup|apply N2..|].
    exists s4. split; [exact C|]. split; [by apply (only_trans _ _ (toward s2))|]. done.
  - exists (toward s2). split; [done|]. split; [done|]. split; [apply setm_lookup|]. destruct (wb_cache _ W3 i m2 (setm_lookup i m2 s)) as (l & Hl & Hf & _).
    eapply agrees_nil; [apply setm_lookup|]. destruct l; [done|]. rewrite F2, Ef in Hf. destruct Hf as [_ Hf]. by discriminate Hf.
Qed.

Lemma pmbr_fine s4 : only (eq i) s s4 -> mrts s4 !! i = Some m2 -> agrees s4 i -> fine s4 i gs.
Proof.
  intros O E4 A4. destruct (started i m m2 iif J P L A z s W E H2) as (_ & _ & B2 & _ & N2 & _).
  assert (Pn : forall j, parent s m = Some j -> i <> j) by (intros j Hj; by rewrite (parent_rp s W i m E R) in Hj).
  rewrite Hz in N2. pose proof (changed_end (eq i) i m m2 iif J P L A s s4 W E O Pn E4 N2 A4) as Ch. split.
  - exists m2. split; [done|]. by apply (blank_rp _ _ B2).
  - apply Ch.
  - intros j w' Ew'. destruct (decide (i = j)) as [<-|Hij]; [split; [done|left; apply Ch]|].
    destruct (only_back _ _ _ _ _ O Ew') as (w & Ew & _ & [?| ->] & _); [done|]. split; [by apply (agrees_other (eq i) s), all_right_agrees|].
    destruct (decide (parent s w = Some i)) as [Hp|Hp].
    + right. destruct (parent_kind s j w i W Ew Hp) as (m' & Em' & [_|[Km _]]).
      2: { assert (m' = m) as -> by congruence. destruct Km as (Km & _). unfold is_rp in R. congruence. }
      destruct (wb_kind _ W j w Ew) as [K|K]; [by rewrite (parent_rp s W j w Ew K) in Hp|].
      assert (exists g x, m_group w = Some g /\ grps s !! g = Some x /\ rp_known s x) as (g & x & Eg & Ex & RK).
      { destruct K as [K|K]; [destruct (wb_wc _ W _ _ Ew K) as (g & x & ? & ? & ? & ?)
                             |destruct (wb_sg _ W _ _ Ew K) as (g & x & ? & ? & ? & ? & ? & ?)]; by exists g, x. }
      destruct (SSMGROUP s (g_group x)) eqn:Ssm; [by rewrite (parent_ssm s w g x) in Hp|].
      destruct RK as [?|(p & Hr & _)]; [congruence|]. rewrite (parent_eq s w g x p Eg Ex Ssm Hr) in Hp.
      assert (NoWc : forall v, g_grp_route x = Some v -> Some v <> Some i).
      { intros v Hv [= ->]. destruct (wb_route _ W g x i Ex Hv) as (v' & Ev' & (Kv & _) & _). unfold is_rp in R. congruence. }
      exists g, x. rewrite (only_grps _ _ _ O). split_and!; [done| |done|].
      * apply Hg. exists x. split; [done|]. rewrite Hr. f_equal. destruct (has (m_flags w) MRTF_SG); [|done].
        destruct (g_grp_route x) as [v|]; [|done]. by destruct (NoWc v).
      * intros (_ & _ & Sg). rewrite Sg in Hp. destruct (g_grp_route x) as [v|]; [|done]. by destruct (NoWc v).
    + left. apply (settled_keep (eq i) s); [done|done| |by apply all_right_settled]. intros w0 p Ew0 Hp0 <-.
      assert (w0 = w) as -> by congruence. done.
  - intros g Hin. apply Hg in Hin as (x & Ex & Hr). exists x. rewrite (only_grps _ _ _ O), (only_route _ _ _ O). done.
Qed.
End Pmbr.

Lemma change_rp_ok d i m iif J P L A fl s : web s -> all_right s -> mrts s !! i = Some m -> is_rp m ->
  (has (m_flags m) MRTF_KERNEL_CACHE = true -> IF_ISEMPTY (merge_oifs 0 (with_sets iif J P L A m)) = false) ->
  exists r s', change_interfaces_at (S (S (S d))) (Some i) iif J P L A fl s = Ok r s' /\ only (fun _ => True) s s' /\
    keeps (eq i) s s' /\ changed i m iif J P L A r s' /\ all_right s'.
Proof.
  intros W H E R Hne. assert (Ab : above s m) by (intros j Hj; by rewrite (parent_rp s W i m E R) in Hj).
  destruct (change_start (S (S d)) i m iif J P L A fl s W E Ab (all_right_agrees s i H)) as [(Hz & Hi & _ & C)|(m2 & C & H2)].
  { destruct (changed_early i m iif J P L A s W E (all_right_agrees s i H) Hi Hz) as [O Ch]. do 2 eexists. split; [exact C|].
    split; [by apply (only_weaken (eq i))|]. split; [by apply (keeps_only _ _ _ _ O)|]. split; [done|]. by apply early_right. }
  assert (Hp : parent s m = None) by (by apply (parent_rp s W i m)). set (z := merge_oifs (oifs_at s (parent s m)) (with_sets iif J P L A m)) in *.
  assert (Hz : z = merge_oifs 0 (with_sets iif J P L A m)) by (unfold z; by rewrite Hp). rewrite <- Hz in Hne.
  destruct (wb_rp _ W i m E R) as (_ & gs & (e & n & c & cr & rs & gss & Es & En & Ec & Ecr & Fr & F2 & Hgs) & Hg).
  destruct (pmbr_start i m m2 iif J P L A z s e n W E En H2 Hne) as (s4 & T & O4 & E4 & A4).
  assert (Fi := pmbr_fine i m m2 iif J P L A z s gs W H E R Hg eq_refl H2 s4 O4 E4 A4). subst gs.
  destruct (started i m m2 iif J P L A z s W E H2) as (_ & _ & B2 & _ & N2 & _ & S2). assert (R' := R). unfold is_rp in R'. rewrite C, R'. clear C.
  unfold change_pmbr. rewrite get_bind, (bind_Ok _ _ _ _ _ (mrt_ok (setm i m2 s) i m2 (setm_lookup _ _ _))), S2, Es.
  assert (U : upd (Some e) (set_s_incoming iif) (setm i m2 s) = Ok tt (toward iif e n (setm i m2 s))) by (unfold upd; cbn; by rewrite En).
  assert (Sn : src (Some e) (toward iif e n (setm i m2 s)) = Ok (set_s_incoming iif n) (toward iif e n (setm i m2 s))).
  { unfold src, load. cbn. by rewrite lookup_insert_eq. }
  rewrite (bind_Ok _ _ _ _ _ U), (bind_Ok _ _ _ _ _ Sn), (bind_Ok _ _ _ _ _ T). cbn [s_cand_rp set_s_incoming]. rewrite Ec.
  assert (Cc : crp (Some c) s4 = Ok cr s4) by (unfold crp, load; cbn; by rewrite (only_crps _ _ _ O4), Ecr).
  rewrite (bind_Ok _ _ _ _ _ Cc). assert (W4 : web s4) by (by apply (only_web _ _ _ W O4)).
  destruct (rp_grps_loop_ok d i iif fl rs gss (fuel_of (setm i m2 s)) (c_rp_grp_next cr) s4 false W4) as (b & s5 & Lo & O5 & K5 & Fi5); [| | |done|].
  { unfold fuel_of. apply Nat.lt_succ_r. eapply follow_length; [exact Fr|]. intros j Hj. apply (wb_rpgs _ W). unfold rg_next in Hj. by apply fmap_is_Some in Hj. }
  { eapply follow_frame; [exact Fr|]. intros j _. unfold rg_next. by rewrite (only_rpgs _ _ _ O4). }
  { eapply Forall2_impl; [exact F2|]. intros q l (y & Ey & Hl). exists y. rewrite (only_rpgs _ _ _ O4). split; [done|].
    eapply follow_frame; [exact Hl|]. intros j _. unfold gr_next. by rewrite (only_grps _ _ _ O4). }
  rewrite (bind_Ok _ _ _ _ _ Lo). destruct (on_mrts _ _ _ O5 i m2 E4) as (m5 & E5 & _ & [?| ->] & _); [done|].
  assert (W5 : web s5) by (by apply (only_web _ _ _ W4 O5)).
  assert (H5 : all_right s5).
  { intros j [w Ew]. destruct (fi_rest _ _ _ Fi5 j w Ew) as [Aj [Sj|(g & x & _ & Hin & _)]]; [done|]. by apply not_elem_of_nil in Hin. }
  destruct (fire_ok b i m2 s5 E5) as (m6 & Fire & H6). rewrite (bind_Ok _ _ _ _ _ Fire).
  destruct (fired_right i m2 m6 s5 W5 E5 H6 H5) as [O6 R6].
  assert (O4t : only (fun _ => True) s s4) by (by apply (only_weaken (eq i))).
  assert (O5t : only (fun _ => True) s s5) by (apply (only_trans _ _ s4 _ W O4t); by apply (only_weaken (fun j => j <> i))).
  assert (O6t : only (fun _ => True) s (setm i m6 s5)) by (apply (only_trans _ _ s5 _ W O5t); by apply (only_weaken (eq i))).
  exists (oifs_change (m_oifs m) z), (setm i m6 s5). split; [done|]. split; [done|]. split; [|split; [|done]].
  - apply (keeps_through _ _ _ s5 _ O5t); [|by apply (keeps_only _ _ _ _ O6)]. apply (keeps_through _ _ _ s4 _ O4t); [by apply (keeps_only _ _ _ _ O4)|].
    intros j w w' _. exact (K5 j w w' (fun f => f)).
  - assert (N6 : now iif J P L A z m6) by (by destruct H6 as [-> | ->]).
    apply (changed_end (fun _ => True) i m m6 iif J P L A s (setm i m6 s5) W E O6t); [|apply setm_lookup|done|by apply all_right_agrees].
    intros j Hj. congruence.
Qed.

(** ** Every call *)

(** The kernel forwards the packets of every cache entry from the incoming to
    the outgoing interfaces of its entry. *)
Definition kernel_right (s : Pim) : Prop := forall i, agrees s i.

Lemma all_right_iff s : web s -> all_right s <-> oifs_right s /\ kernel_right s.
Proof.
  intros W. rewrite (oifs_right_settled s W). split.
  - intros H. split; intros i; [by apply all_right_settled|by apply all_right_agrees].
  - intros [S A] j _. done.
Qed.

Lemma right_after_sg d i m iif J P L A fl s : web s -> all_right s -> mrts s !! i = Some m -> is_sg m ->
  exists r s', change_interfaces_at (S d) (Some i) iif J P L A fl s = Ok r s' /\ only (fun _ => True) s s' /\
    keeps (eq i) s s' /\ changed i m iif J P L A r s' /\ all_right s'.
Proof.
  intros W H E R. destruct (change_sg_ok d i m iif J P L A fl s W E R) as (r & s' & C & O & Ch).
  { apply all_above. intros j. by apply all_right_settled. } { by apply all_right_agrees. }
  exists r, s'. split; [done|]. split; [by apply (only_weaken (eq i))|]. split; [by apply (keeps_only _ _ _ _ O)|]. split; [done|].
  apply (others_right (eq i) s); [done|done|done|intros j <- _; split; apply Ch|intros j; apply Nat.eq_dec|].
  intros j w k Hj Ew Hk. apply (oifs_at_keep (eq i)); [done|]. intros k' [= <-] <-.
  destruct (ancestor_kind s j w i W Ew (or_introl Hk)) as (v & Ev & Kv). assert (v = m) as -> by congruence. done.
Qed.

Lemma right_after_wc d i m iif J P L A fl s : web s -> all_right s -> mrts s !! i = Some m -> is_wc m ->
  exists r s', change_interfaces_at (S (S d)) (Some i) iif J P L A fl s = Ok r s' /\ only (fun _ => True) s s' /\
    keeps (eq i) s s' /\ changed i m iif J P L A r s' /\ all_right s'.
Proof.
  intros W H E R. destruct (wb_wc _ W i m E R) as (g & x & G & Ex & Hr & _). destruct (wb_list _ W g x Ex) as (l & F & _).
  destruct (change_wc_ok d i m iif J P L A fl s g x l W E R G Ex Hr F) as (r & s' & C & O & K & Ch & Done).
  { apply all_above. intros j. by apply all_right_settled. } { by apply all_right_agrees. }
  { intros j _. split; [by apply all_right_settled|by apply all_right_agrees]. }
  exists r, s'. split; [done|]. split; [by apply (only_weaken (in_group s g))|]. split; [done|]. split; [done|].
  apply (others_right (in_group s g) s); [done|done|done| | |].
  - intros j Hj _. apply (in_group_cases s g x l j W Ex F) in Hj as [Hj|Hj]; [|by apply Done]. assert (j = i) as -> by congruence. split; apply Ch.
  - intros j. destruct (mrts s !! j) as [w|] eqn:Ew; [|right; intros (w & Ew' & _); congruence].
    destruct (decide (m_group w = Some g)); [left; by exists w|right]. intros (w' & Ew' & Gw). congruence.
  - intros j w k Hj Ew Hk. apply (oifs_at_keep (in_group s g)); [done|]. intros k' [= <-]. by apply (parent_out s g j w).
Qed.

(** C4. The outgoing interfaces stay right: when those of all entries are what
    [calc_oifs] gives and the kernel forwards as the entries say, then every call
    of [change_interfaces] ends, changes the sets of its entry and of no other,
    tells how the outgoing interfaces of the entry changed, and leaves the
    interfaces of all entries and the kernel right.  The cache entries of a
    (star,star,RP) entry must not lose all its interfaces: see
    [pmbr_caches_freed]. *)
Theorem change_interfaces_right s i m iif J P L A fl : web s -> oifs_right s -> kernel_right s -> mrts s !! i = Some m ->
  (is_rp m -> has (m_flags m) MRTF_KERNEL_CACHE = true -> IF_ISEMPTY (merge_oifs 0 (with_sets iif J P L A m)) = false) ->
  exists r s', change_interfaces (Some i) iif J P L A fl s = Ok r s' /\ web s' /\ oifs_right s' /\ kernel_right s' /\
    (exists m', mrts s' !! i = Some m' /\ m_incoming m' = iif /\ m_joined_oifs m' = J /\ m_pruned_oifs m' = P /\
      m_leaves m' = L /\ m_asserted_oifs m' = A /\ r = oifs_change (m_oifs m) (m_oifs m')) /\
    (forall j w, mrts s !! j = Some w -> exists w', mrts s' !! j = Some w' /\ blank w' = blank w /\ (j <> i -> same_sets w w')).
Proof.
  intros W Or Kr E Hne. assert (H : all_right s) by (by apply all_right_iff).
  assert (Fin : exists r s', change_interfaces (Some i) iif J P L A fl s = Ok r s' /\ only (fun _ => True) s s' /\
    keeps (eq i) s s' /\ changed i m iif J P L A r s' /\ all_right s').
  { destruct (wb_kind _ W i m E) as [K|[K|K]].
    - by apply (change_rp_ok 0); auto.
    - by apply (right_after_wc 1).
    - by apply (right_after_sg 2). }
  destruct Fin as (r & s' & C & O & K & Ch & R). assert (W' : web s') by (by apply (only_web _ _ _ W O)).
  apply (all_right_iff s' W') in R as [R1 R2]. exists r, s'. split_and!; try done; [apply Ch|]. intros j w Ew.
  destruct (on_mrts _ _ _ O j w Ew) as (w' & Ew' & B & _). exists w'. split_and!; try done. intros Hj. apply (K j); congruence.
Qed.

(** ** A router *)

(** One RP with a (star,star,RP) entry, a group with a (star,G) and an (S,G)
    entry, every entry with a cache entry. *)
Definition an_entry (flags : Z) (group source : ptr) (oifs joined pruned leaves : Z) (next kernel_cache : ptr) : mrtentry :=
  mkMrt next None None None group source 0 oifs joined pruned 0 leaves None 0 0 (mkSa 0 in6addr_any) [] [] (Z.lor flags MRTF_KERNEL_CACHE)
    0 60 0 0 0 kernel_cache.

Definition leaf_router : Pim :=
  let g := ip6 [0xff; 0x0e] 9 in
  let a b := ip6 [0x20; 0x01] b in
  mkPim
    (list_to_map [(0%nat, mkSrc None None (a 1) (Some 6%nat) 0 None 0 0 0 (Some 1%nat));
                  (5%nat, mkSrc None None (a 2) None 0 None 0 0 0 None)])
    (list_to_map [(1%nat, mkCandRp None None (Some 2%nat) (Some 0%nat))]) ∅
    (list_to_map [(2%nat, mkRpGrp None None None None (Some 4%nat) 0 0 0 10 1 None (Some 1%nat))])
    (list_to_map [(4%nat, mkGrp None None None None g (a 1) (Some 8%nat) (Some 2%nat) (Some 7%nat))])
    (list_to_map [(6%nat, an_entry MRTF_PMBR None (Some 0%nat) 2 2 0 0 None (Some 9%nat));
                  (7%nat, an_entry MRTF_WC (Some 4%nat) (Some 0%nat) 6 0 0 4 None (Some 10%nat));
                  (8%nat, an_entry MRTF_SG (Some 4%nat) (Some 5%nat) 4 0 2 0 None (Some 11%nat))])
    (list_to_map [(9%nat, mkCache None None (a 4) (ip6 [0xff; 0x0e] 8) 0); (10%nat, mkCache None None (a 3) g 0);
                  (11%nat, mkCache None None (a 2) g 0)])
    12 [] None None (Some 1%nat) None
    [k_chg_mfc_call (a 4) (ip6 [0xff; 0x0e] 8) 0 2; k_chg_mfc_call (a 3) g 0 6; k_chg_mfc_call (a 2) g 0 4]
    (replicate 4 (mkVif 0 2 0 [] 101 1024 [] None 0 0 0)) 4 3 (ip6 [0xff; 0x30] 0) (replicate 2 0xff ++ replicate 14 0)
    (fun a => (a, 0)) idle_vars.

(** Case analysis on a structure of a concrete heap. *)
Ltac one_of H :=
  apply elem_of_list_to_map_2 in H;
  repeat (apply elem_of_cons in H as [H|H]; [injection H as ? ?; subst|]); [..|by apply not_elem_of_nil in H].
Ltac in_heap := let H := fresh in intros [? H]; one_of H; cbn; lia.
(** Not an entry of this kind. *)
Ltac no_kind R := exfalso; vm_compute in R; intuition discriminate.
Ltac a_list := repeat (split; [reflexivity|]; eexists; split; [reflexivity|]); reflexivity.

Lemma leaf_router_web : web leaf_router.
Proof.
  split.
  1-4: intros i; in_heap.
  - intros i m E. one_of E; [by left|right; by left|right; by right].
  - intros i m E R. one_of E; [|no_kind R..]. split; [done|]. exists [4%nat]. split.
    + do 4 eexists. exists [2%nat], [[4%nat]]. split_and!; try reflexivity; [a_list|].
      constructor; [|constructor]. eexists. split; [reflexivity|]. a_list.
    + intros g. rewrite elem_of_cons, elem_of_nil. split; [intros [-> |[]]; by eexists|]. intros (x & Ex & _). one_of Ex. by left.
  - intros i m E R. one_of E; [no_kind R| |no_kind R]. exists 4%nat. eexists. do 3 (split; [reflexivity|]). right. eexists. split; [reflexivity|].
    intros j [= <-]. by eexists.
  - intros i m E R. one_of E; [no_kind R..|]. exists 4%nat. do 3 eexists. do 2 (split; [reflexivity|]). split; [|done].
    right. eexists. split; [reflexivity|]. intros j [= <-]. by eexists.
  - intros g x i Ex Ei. one_of Ex. injection Ei as <-. eexists. split; [reflexivity|]. done.
  - intros g x Ex. one_of Ex. exists [8%nat]. split; [a_list|]. intros i. rewrite elem_of_cons, elem_of_nil. split.
    + intros [-> |[]]. eexists. split; [reflexivity|]. done.
    + intros (m & E & R & G). one_of E; [no_kind R..|by left].
  - intros i m E. one_of E; [exists [9%nat]|exists [10%nat]|exists [11%nat]]; (split; [a_list|]; split; [split; done|]);
      intros c x g y e n R Hc Ex G Ey Es En; [no_kind R..|].
    apply elem_of_cons in Hc as [-> |Hc]; [|by apply not_elem_of_nil in Hc]. cbn in G, Es. injection G as <-. injection Es as <-.
    vm_compute in Ex, Ey, En. by simplify_eq.
  - intros i j m m' l l' c E E' H H' Hc Hc'. one_of E; one_of E'; try done; exfalso;
      (assert (L : exists a, l = [a]) by (destruct l as [|a [|b l]]; [done|by exists a|]; destruct H as [[= <-] (n & En & H)]; vm_compute in En; injection En as <-; destruct H as [? _]; done));
      (assert (L' : exists a, l' = [a]) by (destruct l' as [|a [|b l']]; [done|by exists a|]; destruct H' as [[= <-] (n & En & H')]; vm_compute in En; injection En as <-; destruct H' as [? _]; done));
      destruct L as [a ->], L' as [a' ->], H as [[= <-] _], H' as [[= <-] _];
      apply list_elem_of_singleton in Hc, Hc'; congruence.
  - intros c c' x x' Ex Ex' K. one_of Ex; one_of Ex'; try done; vm_compute in K; congruence.
Qed.

Lemma leaf_router_right : oifs_right leaf_router /\ kernel_right leaf_router.
Proof.
  split.
  - apply (oifs_right_settled _ leaf_router_web). intros i m E. one_of E; vm_compute; reflexivity.
  - intros i m l c x E H Hc Ex. one_of E; destruct l as [|a l]; try done; destruct H as [[= <-] (n & En & H)]; vm_compute in En; injection En as <-;
      (destruct l; [|by destruct H]); apply list_elem_of_singleton in Hc as ->; vm_compute in Ex; injection Ex as <-; vm_compute; reflexivity.
Qed.

(** A join arrives on interface 3 and one is pruned on interface 1: all three
    entries and their cache entries follow. *)
Lemma change_interfaces_right_witness :
  (exists r s', change_interfaces (Some 6%nat) 0 10 2 0 0 0 leaf_router = Ok r s' /\ web s' /\ oifs_right s' /\ kernel_right s' /\
    r = 0 /\ (m_oifs <$> mrts s' !! 6%nat) = Some 8 /\ (m_oifs <$> mrts s' !! 7%nat) = Some 12 /\ (m_oifs <$> mrts s' !! 8%nat) = Some 12 /\
    forwards s' (ip6 [0x20; 0x01] 2, ip6 [0xff; 0x0e] 9) = Some (0, 12)).
Proof.
  destruct (change_interfaces_right leaf_router 6 (an_entry MRTF_PMBR None (Some 0%nat) 2 2 0 0 None (Some 9%nat)) 0 10 2 0 0 0
    leaf_router_web (proj1 leaf_router_right) (proj2 leaf_router_right) eq_refl (fun _ _ => eq_refl)) as (r & s' & C & W & Or & Kr & _).
  exists r, s'. split; [exact C|]. split; [exact W|]. split; [exact Or|]. split; [exact Kr|].
  vm_compute in C. injection C as <- <-. vm_compute. done.
Defined.

(** When a (star,star,RP) entry with cache entries loses its last interface, the
    loop that deletes the cache entries reads the first one after it is gone. *)
Lemma pmbr_caches_freed : exists s', change_interfaces (Some 6%nat) 0 2 2 0 0 0 leaf_router = Stop OutOfBounds s'.
Proof. eexists. vm_compute. reflexivity. Qed.
