(* ===== verification/Rp.v ===== *)
(** * Rp: the RP-set (rp.c)

    The RP-set is a list of RPs and a list of group prefixes; an entry of the
    RP-set ([rp_grp_entry]) is an RP of a prefix and is on a list of both.  The
    daemon has two such sets, the one in use and the one of the bootstrap
    messages that have not arrived in full.  Adding an entry to a set, deleting
    it, and moving the groups to the RP that serves them afterwards. *)

From stdpp Require Import base list numbers gmap.
From S2P Require Import Prelude Inet6 Pim RpMatch Vif Mrt Oifs PimMsg.
Open Scope Z_scope.

Definition RP_ORIGIN_STATIC : Z := 0.
Definition RP_ORIGIN_BSR : Z := 1.
Definition RP_DEFAULT_IPV6_HASHMASKLEN : Z := 126.
(** [2.5 * PIM_DEFAULT_BOOTSTRAP_PERIOD + 10]. *)
Definition PIM_BOOTSTRAP_TIMEOUT : Z := 160.

(** The sets that [used_cand_rp_list] and [used_grp_mask_list] stand for: the
    one in use, or that of the segments. *)
Inductive rp_lists := Used | Segmented.

Definition crp_list (w : rp_lists) (s : Pim) : ptr :=
  match w with Used => cand_rp_list s | Segmented => segmented_cand_rp_list (vars s) end.
Definition gmask_list (w : rp_lists) (s : Pim) : ptr :=
  match w with Used => grp_mask_list s | Segmented => segmented_grp_mask_list (vars s) end.
Definition set_crp_list (w : rp_lists) (p : ptr) : Cmd Pim unit :=
  match w with Used => modify (set_cand_rp_list p) | Segmented => upd_vars (set_segmented_cand_rp_list p) end.
Definition set_gmask_list (w : rp_lists) (p : ptr) : Cmd Pim unit :=
  match w with Used => modify (set_grp_mask_list p) | Segmented => upd_vars (set_segmented_grp_mask_list p) end.

(** ** Adding *)

(** The loop of [add_cand_rp]: is the address there, the RP before and the RP
    at its place. *)
Fixpoint crp_place (fuel : nat) (address : sockaddr_in6) (prev p : ptr) : Cmd Pim (bool * ptr * ptr) :=
  match fuel with
  | O => halt OutOfFuel
  | S fuel =>
    match p with
    | None => ret (false, prev, p)
    | Some _ =>
        let! c := crp p in
        let! e := src (c_rpentry c) in
        if inet6_greaterthan (s_address e) address then crp_place fuel address p (c_next c)
        else ret (inet6_equal (s_address e) address, prev, p)
    end
  end.

(** Memory that is used without looking at the result of [malloc]. *)
Definition alloc {N} `{Heap N} (n : N) : Cmd Pim ptr :=
  let! p := malloc n in
  do! upd p (fun n : N => n) ;;
  ret p.

Definition add_cand_rp (w : rp_lists) (address : sockaddr_in6) : Cmd Pim ptr :=
  let! s := get in
  let! (found, prev, p) := crp_place (fuel_of s) address None (crp_list w s) in
  if found : bool then ret p else
  let! new := alloc (mkCandRp p prev None None) in
  do! upd_if p (set_c_prev new) ;;
  do! match prev with None => set_crp_list w new | Some _ => upd prev (set_c_next new) end ;;
  let! rpentry_ptr := alloc (mkSrc None None address None NO_VIF None 0xffffffff 0xffffffff 0 new) in
  do! upd new (set_c_rpentry rpentry_ptr) ;;
  let! s := get in
  do! (if local_address address (uvifs s) =? NO_VIF then let! _ := set_incoming rpentry_ptr PIM_IIF_RP in ret tt
       else upd rpentry_ptr (set_s_incoming (reg_vif_num s))) ;;
  ret new.

(** The prefix of a group, as an address without a scope. *)
Definition prefix_of (group_addr mask : list Z) : sockaddr_in6 := mkSa 0 (mask_addr group_addr mask).

Fixpoint gmask_place (fuel : nat) (prefix : sockaddr_in6) (prev p : ptr) : Cmd Pim (bool * ptr * ptr) :=
  match fuel with
  | O => halt OutOfFuel
  | S fuel =>
    match p with
    | None => ret (false, prev, p)
    | Some _ =>
        let! m := gmask p in
        let prefix2 := prefix_of (sin6_addr (gm_group_addr m)) (gm_group_mask m) in
        if inet6_greaterthan prefix2 prefix then gmask_place fuel prefix p (gm_next m)
        else ret (inet6_equal prefix2 prefix, prev, p)
    end
  end.

Definition add_grp_mask (w : rp_lists) (group_addr : sockaddr_in6) (group_mask hash_mask : list Z) : Cmd Pim ptr :=
  let! s := get in
  let! (found, prev, p) := gmask_place (fuel_of s) (prefix_of (sin6_addr group_addr) group_mask) None (gmask_list w s) in
  if found : bool then ret p else
  let! new := alloc (mkGrpMask p prev None group_addr group_mask hash_mask 0 0) in
  do! upd_if p (set_gm_prev new) ;;
  do! match prev with None => set_gmask_list w new | Some _ => upd prev (set_gm_next new) end ;;
  ret new.

(** ** Remapping *)

(** The (S,G) entries of a group that point toward the RP. *)
Fixpoint remap_srcs (fuel : nat) (mrtentry_ptr rpentry_ptr : ptr) : Cmd Pim unit :=
  match fuel with
  | O => halt OutOfFuel
  | S fuel =>
    match mrtentry_ptr with
    | None => ret tt
    | Some _ =>
        let! m := mrt mrtentry_ptr in
        do! (if has (m_flags m) MRTF_RP then
               let! e := src rpentry_ptr in
               do! upd mrtentry_ptr (set_toward (m_incoming m) (s_upstream e) (s_metric e) (s_preference e)) ;;
               let! _ := refresh mrtentry_ptr (s_incoming e) MFC_UPDATE_FORCE in ret tt
             else ret tt) ;;
        let! m := mrt mrtentry_ptr in
        remap_srcs fuel (m_grpnext m) rpentry_ptr
    end
  end.

Definition remap_grpentry (grpentry_ptr : ptr) : Cmd Pim bool :=
  match grpentry_ptr with
  | None => ret false
  | Some _ =>
      let! g := grp grpentry_ptr in
      do! match g_rpprev g with
          | Some _ => upd (g_rpprev g) (set_g_rpnext (g_rpnext g))
          | None => upd_if (g_active_rp_grp g) (set_rg_grplink (g_rpnext g))
          end ;;
      do! upd_if (g_rpnext g) (set_g_rpprev (g_rpprev g)) ;;
      let! r := rp_grp_match (g_group g) in
      match r with
      | None => do! delete_grpentry grpentry_ptr ;; ret false
      | Some _ =>
          let! rg := rpg r in
          let! c := crp (rg_rp rg) in
          let! e := src (c_rpentry c) in
          do! upd grpentry_ptr (fun g => set_g_rpnext (rg_grplink rg) (set_g_active_rp_grp r (set_g_rpaddr (s_address e) g))) ;;
          do! upd_if (rg_grplink rg) (set_g_rpprev grpentry_ptr) ;;
          do! upd grpentry_ptr (set_g_rpprev None) ;;
          do! upd r (set_rg_grplink grpentry_ptr) ;;
          let! g := grp grpentry_ptr in
          do! match g_grp_route g with
              | None => ret tt
              | Some _ =>
                  let! m := mrt (g_grp_route g) in
                  do! upd (g_grp_route g) (set_toward (m_incoming m) (s_upstream e) (s_metric e) (s_preference e)) ;;
                  let! _ := refresh (g_grp_route g) (s_incoming e) MFC_UPDATE_FORCE in ret tt
              end ;;
          let! s := get in
          let! g := grp grpentry_ptr in
          do! remap_srcs (fuel_of s) (g_mrtlink g) (c_rpentry c) ;;
          ret true
      end
  end.

(** All groups from one on along [rpnext]; the next one is read before. *)
Fixpoint remap_groups (fuel : nat) (grpentry_ptr : ptr) : Cmd Pim unit :=
  match fuel with
  | O => halt OutOfFuel
  | S fuel =>
    match grpentry_ptr with
    | None => ret tt
    | Some _ =>
        let! g := grp grpentry_ptr in
        let! _ := remap_grpentry grpentry_ptr in
        remap_groups fuel (g_rpnext g)
    end
  end.

(** ** Deleting *)

(** The (star,star,RP) entry of an RP goes with the RP. *)
Definition free_rp_route (rpentry_ptr : ptr) : Cmd Pim unit :=
  let! e := src rpentry_ptr in
  match s_mrtlink e with
  | None => ret tt
  | Some _ => do! drop_kernel_cache (s_mrtlink e) ;; FREE_MRTENTRY (s_mrtlink e)
  end.

(** An entry of the RP-set leaves the list of its RP, the list of its prefix. *)
Definition unlink_from_rp (rp_grp_entry_ptr : ptr) : Cmd Pim unit :=
  let! r := rpg rp_grp_entry_ptr in
  do! match rp_grp_prev r with
      | Some _ => upd (rp_grp_prev r) (set_rp_grp_next (rp_grp_next r))
      | None => upd (rg_rp r) (set_c_rp_grp_next (rp_grp_next r))
      end ;;
  upd_if (rp_grp_next r) (set_rp_grp_prev (rp_grp_prev r)).
Definition unlink_from_mask (rp_grp_entry_ptr : ptr) : Cmd Pim unit :=
  let! r := rpg rp_grp_entry_ptr in
  do! match grp_rp_prev r with
      | Some _ => upd (grp_rp_prev r) (set_grp_rp_next (grp_rp_next r))
      | None => upd (rg_group r) (set_gm_grp_rp_next (grp_rp_next r))
      end ;;
  upd_if (grp_rp_next r) (set_grp_rp_prev (grp_rp_prev r)).

Definition fewer_rps (m : grp_mask) : grp_mask := set_gm_group_rp_number (u8 (gm_group_rp_number m - 1)) m.

Section Delete.
(** [delete_grp_mask_entry] and [delete_rp_entry] call each other. *)
Context (w : rp_lists) (delete_grp_mask_entry delete_rp_entry : ptr -> Cmd Pim unit).

(** The RPs of a prefix that goes. *)
Fixpoint mask_entries_loop (fuel : nat) (grp_rp_entry_ptr : ptr) : Cmd Pim unit :=
  match fuel with
  | O => halt OutOfFuel
  | S fuel =>
    match grp_rp_entry_ptr with
    | None => ret tt
    | Some _ =>
        let! s := get in
        let! r := rpg grp_rp_entry_ptr in
        do! remap_groups (fuel_of s) (rg_grplink r) ;;
        do! unlink_from_rp grp_rp_entry_ptr ;;
        let! r' := rpg grp_rp_entry_ptr in
        let! c := crp (rg_rp r') in
        do! match c_rp_grp_next c with None => delete_rp_entry (rg_rp r') | Some _ => ret tt end ;;
        do! free_node rp_grp_entry grp_rp_entry_ptr ;;
        mask_entries_loop fuel (grp_rp_next r)
    end
  end.

Definition delete_grp_mask_entry_with (grp_mask_delete : ptr) : Cmd Pim unit :=
  match grp_mask_delete with
  | None => ret tt
  | Some _ =>
      let! m := gmask grp_mask_delete in
      do! match gm_prev m with Some _ => upd (gm_prev m) (set_gm_next (gm_next m)) | None => set_gmask_list w (gm_next m) end ;;
      do! upd_if (gm_next m) (set_gm_prev (gm_prev m)) ;;
      let! s := get in
      do! mask_entries_loop (fuel_of s) (gm_grp_rp_next m) ;;
      free_node grp_mask grp_mask_delete
  end.

(** The prefixes of an RP that goes. *)
Fixpoint rp_entries_loop (fuel : nat) (rp_grp_entry_ptr : ptr) : Cmd Pim unit :=
  match fuel with
  | O => halt OutOfFuel
  | S fuel =>
    match rp_grp_entry_ptr with
    | None => ret tt
    | Some _ =>
        let! r := rpg rp_grp_entry_ptr in
        do! upd (rg_group r) fewer_rps ;;
        do! unlink_from_mask rp_grp_entry_ptr ;;
        let! r' := rpg rp_grp_entry_ptr in
        do! match grp_rp_next r' with None => delete_grp_mask_entry (rg_group r') | Some _ => ret tt end ;;
        let! s := get in
        let! r' := rpg rp_grp_entry_ptr in
        do! remap_groups (fuel_of s) (rg_grplink r') ;;
        do! free_node rp_grp_entry rp_grp_entry_ptr ;;
        rp_entries_loop fuel (rp_grp_next r)
    end
  end.

Definition delete_rp_entry_with (cand_rp_delete : ptr) : Cmd Pim unit :=
  match cand_rp_delete with
  | None => ret tt
  | Some _ =>
      let! c := crp cand_rp_delete in
      do! match c_prev c with Some _ => upd (c_prev c) (set_c_next (c_next c)) | None => set_crp_list w (c_next c) end ;;
      do! upd_if (c_next c) (set_c_prev (c_prev c)) ;;
      do! free_rp_route (c_rpentry c) ;;
      do! free_node srcentry (c_rpentry c) ;;
      let! s := get in
      do! rp_entries_loop (fuel_of s) (c_rp_grp_next c) ;;
      free_node cand_rp cand_rp_delete
  end.
End Delete.

(** An RP goes with its prefixes, which go with their RPs, which have no prefix
    left by then. *)
Fixpoint delete_rps (w : rp_lists) (depth : nat) : (ptr -> Cmd Pim unit) * (ptr -> Cmd Pim unit) :=
  match depth with
  | O => (fun _ => halt OutOfFuel, fun _ => halt OutOfFuel)
  | S depth =>
      let '(gm, rp) := delete_rps w depth in
      (delete_grp_mask_entry_with w rp, delete_rp_entry_with w gm)
  end.
Definition delete_grp_mask_entry (w : rp_lists) : ptr -> Cmd Pim unit := (delete_rps w 3).1.
Definition delete_rp_entry (w : rp_lists) : ptr -> Cmd Pim unit := (delete_rps w 3).2.

(** The search of [delete_grp_mask]: the first prefix that is not greater. *)
Fixpoint gmask_find (fuel : nat) (junk : Z) (group_addr group_mask : list Z) (p : ptr) : Cmd Pim ptr :=
  match fuel with
  | O => halt OutOfFuel
  | S fuel =>
    match p with
    | None => ret None
    | Some _ =>
        let! m := gmask p in
        let prefix_h := mkSa junk (mask_addr group_addr group_mask) in
        let prefix_h2 := mkSa junk (mask_addr (sin6_addr (gm_group_addr m)) (gm_group_mask m)) in
        if inet6_greaterthan prefix_h2 prefix_h then gmask_find fuel junk group_addr group_mask (gm_next m)
        else if IN6_ARE_ADDR_EQUAL (sin6_addr (gm_group_addr m)) group_addr && IN6_ARE_ADDR_EQUAL (gm_group_mask m) group_mask
        then ret p else ret None
    end
  end.

(** [junk]: the scope of the two prefixes is not set. *)
Definition delete_grp_mask (junk : Z) (w : rp_lists) (group_addr : sockaddr_in6) (group_mask : list Z) : Cmd Pim unit :=
  let! s := get in
  let! p := gmask_find (fuel_of s) junk (sin6_addr group_addr) group_mask (gmask_list w s) in
  match p with None => ret tt | Some _ => delete_grp_mask_entry w p end.

Definition delete_rp (w : rp_lists) (rp_addr : sockaddr_in6) : Cmd Pim unit :=
  let! s := get in
  let! (found, _, p) := crp_place (fuel_of s) rp_addr None (crp_list w s) in
  if found : bool then delete_rp_entry w p else ret tt.

Definition delete_rp_grp_entry (w : rp_lists) (rp_grp_entry_delete : ptr) : Cmd Pim unit :=
  match rp_grp_entry_delete with
  | None => ret tt
  | Some _ =>
      let! r := rpg rp_grp_entry_delete in
      do! upd (rg_group r) fewer_rps ;;
      do! unlink_from_rp rp_grp_entry_delete ;;
      do! unlink_from_mask rp_grp_entry_delete ;;
      let! r := rpg rp_grp_entry_delete in
      let! m := gmask (rg_group r) in
      do! match gm_grp_rp_next m with None => delete_grp_mask_entry w (rg_group r) | Some _ => ret tt end ;;
      let! r := rpg rp_grp_entry_delete in
      let! c := crp (rg_rp r) in
      do! match c_rp_grp_next c with None => delete_rp_entry w (rg_rp r) | Some _ => ret tt end ;;
      let! s := get in
      let! r := rpg rp_grp_entry_delete in
      do! remap_groups (fuel_of s) (rg_grplink r) ;;
      free_node rp_grp_entry rp_grp_entry_delete
  end.

(** [delete_rp_list]: the groups of an entry forget their RP. *)
Fixpoint forget_groups (fuel : nat) (grpentry_ptr : ptr) : Cmd Pim unit :=
  match fuel with
  | O => halt OutOfFuel
  | S fuel =>
    match grpentry_ptr with
    | None => ret tt
    | Some _ =>
        let! g := grp grpentry_ptr in
        do! upd grpentry_ptr (fun g => set_g_rpaddr (mkSa 0 in6addr_any) (set_g_active_rp_grp None
              (set_g_rpprev None (set_g_rpnext None g)))) ;;
        forget_groups fuel (g_rpnext g)
    end
  end.

Fixpoint free_rp_grps (fuel : nat) (rp_grp_entry_ptr : ptr) : Cmd Pim unit :=
  match fuel with
  | O => halt OutOfFuel
  | S fuel =>
    match rp_grp_entry_ptr with
    | None => ret tt
    | Some _ =>
        let! s := get in
        let! r := rpg rp_grp_entry_ptr in
        do! forget_groups (fuel_of s) (rg_grplink r) ;;
        do! free_node rp_grp_entry rp_grp_entry_ptr ;;
        free_rp_grps fuel (rp_grp_next r)
    end
  end.

Fixpoint free_crps (fuel : nat) (cand_rp_ptr : ptr) : Cmd Pim unit :=
  match fuel with
  | O => halt OutOfFuel
  | S fuel =>
    match cand_rp_ptr with
    | None => ret tt
    | Some _ =>
        let! s := get in
        let! c := crp cand_rp_ptr in
        do! free_rp_route (c_rpentry c) ;;
        do! free_node srcentry (c_rpentry c) ;;
        do! free_rp_grps (fuel_of s) (c_rp_grp_next c) ;;
        do! free_node cand_rp cand_rp_ptr ;;
        free_crps fuel (c_next c)
    end
  end.

Fixpoint free_gmasks (fuel : nat) (grp_mask_ptr : ptr) : Cmd Pim unit :=
  match fuel with
  | O => halt OutOfFuel
  | S fuel =>
    match grp_mask_ptr with
    | None => ret tt
    | Some _ =>
        let! m := gmask grp_mask_ptr in
        do! free_node grp_mask grp_mask_ptr ;;
        free_gmasks fuel (gm_next m)
    end
  end.

Definition delete_rp_list (w : rp_lists) : Cmd Pim unit :=
  let! s := get in
  do! free_crps (fuel_of s) (crp_list w s) ;;
  do! set_crp_list w None ;;
  do! free_gmasks (fuel_of s) (gmask_list w s) ;;
  set_gmask_list w None.

(** ** [add_rp_grp_entry] *)

(** Does the new entry come before the one at its place ([Lt]), behind it, or
    is it there ([Eq])? *)
Definition rp_order (r : rp_grp_entry) (address rp_addr : sockaddr_in6) (rp_priority rp_origin : Z) : comparison :=
  if decide (rg_priority r < rp_priority) then Gt
  else if decide (rg_priority r > rp_priority) then Lt
  else if decide (rg_origin r < rp_origin) then Gt
  else if decide (rg_origin r > rp_origin) then Lt
  else if inet6_greaterthan address rp_addr then Gt
  else if inet6_lessthan address rp_addr then Lt
  else Eq.

Fixpoint rp_grp_place (fuel : nat) (rp_addr : sockaddr_in6) (rp_priority rp_origin : Z) (prev next : ptr) :
    Cmd Pim (bool * ptr * ptr) :=
  match fuel with
  | O => halt OutOfFuel
  | S fuel =>
    match next with
    | None => ret (false, prev, next)
    | Some _ =>
        let! r := rpg next in
        let! c := crp (rg_rp r) in
        let! e := src (c_rpentry c) in
        match rp_order r (s_address e) rp_addr rp_priority rp_origin with
        | Gt => rp_grp_place fuel rp_addr rp_priority rp_origin next (grp_rp_next r)
        | Lt => ret (false, prev, next)
        | Eq => ret (true, prev, next)
        end
    end
  end.

(** The entries whose groups may have a better RP now. *)
Fixpoint remap_best (fuel : nat) (grp_rp_entry : ptr) (old_highest_priority old_highest_origin : Z) : Cmd Pim unit :=
  match fuel with
  | O => halt OutOfFuel
  | S fuel =>
    match grp_rp_entry with
    | None => ret tt
    | Some _ =>
        let! s := get in
        let! r := rpg grp_rp_entry in
        if decide (rg_priority r > old_highest_priority) then ret tt
        else if decide (rg_origin r > old_highest_origin) then ret tt
        else
          do! remap_groups (fuel_of s) (rg_grplink r) ;;
          let! r := rpg grp_rp_entry in
          remap_best fuel (grp_rp_next r) old_highest_priority old_highest_origin
    end
  end.

(** The new entry between [prev] and [next] on the list of its prefix and at the
    head of the list of its RP. *)
Definition link_rp_grp (grp_mask_ptr cand_rp_ptr prev next : ptr) (rp_priority rp_origin rp_holdtime fragment_tag : Z) : Cmd Pim ptr :=
  let! c := crp cand_rp_ptr in
  let! new := alloc (mkRpGrp (c_rp_grp_next c) None next prev None rp_holdtime rp_holdtime fragment_tag rp_priority rp_origin
                       grp_mask_ptr cand_rp_ptr) in
  do! upd_if next (set_grp_rp_prev new) ;;
  do! match prev with None => upd grp_mask_ptr (set_gm_grp_rp_next new) | Some _ => upd prev (set_grp_rp_next new) end ;;
  do! upd_if (c_rp_grp_next c) (set_rp_grp_prev new) ;;
  do! upd cand_rp_ptr (set_c_rp_grp_next new) ;;
  do! upd grp_mask_ptr (fun m => set_gm_group_rp_number (u8 (gm_group_rp_number m + 1)) m) ;;
  ret new.

Definition add_rp_grp_entry (w : rp_lists) (rp_addr : sockaddr_in6) (rp_priority rp_origin rp_holdtime : Z)
    (group_addr : sockaddr_in6) (group_mask bsr_hash_mask : list Z) (fragment_tag : Z) : Cmd Pim ptr :=
  if negb (inet6_valid_host rp_addr) then ret None
  else if negb (IN6_IS_ADDR_MULTICAST (sin6_addr group_addr)) then ret None
  else
  let! grp_mask_ptr := add_grp_mask w group_addr group_mask bsr_hash_mask in
  let! cand_rp_ptr := add_cand_rp w rp_addr in
  let! c := crp cand_rp_ptr in
  do! upd (c_rpentry c) (set_s_timer rp_holdtime) ;;
  do! upd grp_mask_ptr (set_gm_fragment_tag fragment_tag) ;;
  let! m := gmask grp_mask_ptr in
  let! s := get in
  let! old := match gm_grp_rp_next m with
              | Some _ => let! r := rpg (gm_grp_rp_next m) in ret (rg_priority r, rg_origin r)
              | None => ret (0xff, 0xff)
              end in
  let! (found, prev, next) := rp_grp_place (fuel_of s) rp_addr rp_priority rp_origin None (gm_grp_rp_next m) in
  if found : bool then
    do! upd next (fun r => set_rg_fragment_tag fragment_tag (set_rg_advholdtime rp_holdtime (set_rg_holdtime rp_holdtime r))) ;;
    ret next
  else
  let! new := link_rp_grp grp_mask_ptr cand_rp_ptr prev next rp_priority rp_origin rp_holdtime fragment_tag in
  let! m := gmask grp_mask_ptr in
  let! first := rpg (gm_grp_rp_next m) in
  let! s := get in
  do! (if (rg_priority first =? rp_priority) || (rg_origin first =? rp_origin) then
         remap_best (fuel_of s) (gm_grp_rp_next m) old.1 old.2
       else ret tt) ;;
  ret new.

(** ** The rest of rp.c *)

Definition check_mrtentry_rp (mrtentry_ptr : ptr) (rp_addr : sockaddr_in6) : Cmd Pim bool :=
  match mrtentry_ptr with
  | None => ret false
  | Some _ =>
      if IN6_IS_ADDR_UNSPECIFIED (sin6_addr rp_addr) then ret false else
      let! m := mrt mrtentry_ptr in
      let! g := grp (m_group m) in
      match g_active_rp_grp g with
      | None => ret false
      | Some _ => ret (inet6_equal (g_rpaddr g) rp_addr)
      end
  end.

(** [update_rp_neighbor]: the (star,G) entries of an RP that has a neighbour
    now. *)
Fixpoint nbr_groups (fuel : nat) (rpentry_ptr grpentry_ptr : ptr) : Cmd Pim unit :=
  match fuel with
  | O => halt OutOfFuel
  | S fuel =>
    match grpentry_ptr with
    | None => ret tt
    | Some _ =>
        let! g := grp grpentry_ptr in
        do! match g_grp_route g with
            | None => ret tt
            | Some _ =>
                let! s := get in
                let! m := mrt (g_grp_route g) in
                match m_upstream m with
                | Some _ => ret tt
                | None => if m_incoming m =? reg_vif_num s then ret tt
                          else let! e := src rpentry_ptr in upd (g_grp_route g) (set_m_upstream (s_upstream e))
                end
            end ;;
        nbr_groups fuel rpentry_ptr (g_rpnext g)
    end
  end.

Fixpoint nbr_rp_grps (fuel : nat) (rpentry_ptr rp_grp_entry_ptr : ptr) : Cmd Pim unit :=
  match fuel with
  | O => halt OutOfFuel
  | S fuel =>
    match rp_grp_entry_ptr with
    | None => ret tt
    | Some _ =>
        let! s := get in
        let! r := rpg rp_grp_entry_ptr in
        do! nbr_groups (fuel_of s) rpentry_ptr (rg_grplink r) ;;
        nbr_rp_grps fuel rpentry_ptr (rp_grp_next r)
    end
  end.

(** An RP without a neighbour looks for one; [set_incoming] that succeeds ends
    its turn. *)
Fixpoint nbr_crps (fuel : nat) (p : ptr) : Cmd Pim unit :=
  match fuel with
  | O => halt OutOfFuel
  | S fuel =>
    match p with
    | None => ret tt
    | Some _ =>
        let! s := get in
        let! c := crp p in
        let! e := src (c_rpentry c) in
        do! match s_upstream e with
            | Some _ => ret tt
            | None =>
                if s_incoming e =? reg_vif_num s then ret tt else
                let! found := set_incoming (c_rpentry c) PIM_IIF_RP in
                if found : bool then ret tt else nbr_rp_grps (fuel_of s) (c_rpentry c) (c_rp_grp_next c)
            end ;;
        nbr_crps fuel (c_next c)
    end
  end.

Definition update_rp_neighbor : Cmd Pim unit :=
  let! s := get in nbr_crps (fuel_of s) (cand_rp_list s).
