(* ===== verification/PimJp.v ===== *)
(** * PimJp: building join/prune messages (pim6_proto.c)

    A neighbour has a working area in which the entries for the next
    join/prune message to it are gathered: the message so far, the joins and
    prunes of the current group, and those of (star,star,RP) entries.  Areas
    that are not in use wait in a pool.  An area belongs to one neighbour or is
    in the pool, so it is a value here; code that would go on in an area it
    gave back stops. *)

From stdpp Require Import base list numbers gmap.
From S2P Require Import Prelude Inet6 Pim Vif Mrt PimMsg.
Open Scope Z_scope.

Definition MAX_JP_MESSAGE_SIZE : Z := 8192.
Definition MAX_JP_MESSAGE_POOL_NUMBER : Z := 8.
Definition MAX_JOIN_LIST_SIZE : Z := 1500.
Definition MAX_PRUNE_LIST_SIZE : Z := 1500.
Definition STAR_STAR_RP_MSK6LEN : Z := 8.
Definition SINGLE_SRC_MSK6LEN : Z := 128.
Definition SINGLE_GRP_MSK6LEN : Z := 128.
Definition USADDR_RP_BIT : Z := 0x1.
Definition USADDR_WC_BIT : Z := 0x2.
Definition USADDR_S_BIT : Z := 0x4.
Definition PIM_ACTION_NOTHING : Z := 0.
Definition PIM_ACTION_JOIN : Z := 1.
Definition PIM_ACTION_PRUNE : Z := 2.
(** [sizeof (pim_jp_encod_grp_t)] and [sizeof (pim6_encod_src_addr_t)]. *)
Definition sizeof_jp_grp : Z := 24.
Definition sizeof_esaddr : Z := 20.

Definition sockaddr6_any : sockaddr_in6 := mkSa 0 in6addr_any.
(** ff00::, the group of (star,star,RP) entries, and ff02::d. *)
Definition sockaddr6_d : sockaddr_in6 := mkSa 0 (0xff :: replicate 15 0).
Definition allpim6routers_group : sockaddr_in6 := mkSa 0 ([0xff; 0x02] ++ replicate 13 0 ++ [0x0d]).

(** ** Neighbours and interfaces *)

(** The neighbour that [p] points to. *)
Definition nbr (p : ptr) : Cmd Pim pim_nbr_entry :=
  let! s := get in
  of_option (p ≫= fun i => List.find (fun n => bool_decide (nbr_id n = i)) (concat (uv_pim_neighbors <$> uvifs s))).

Definition map_nbr (i : nat) (f : pim_nbr_entry -> pim_nbr_entry) (v : uvif) : uvif :=
  set_uv_pim_neighbors ((fun n => if bool_decide (nbr_id n = i) then f n else n) <$> uv_pim_neighbors v) v.
Definition upd_nbr (p : ptr) (f : pim_nbr_entry -> pim_nbr_entry) : Cmd Pim unit :=
  do! nbr p ;;
  chk! i := p in
  modify (fun s => set_uvifs (map_nbr i f <$> uvifs s) s).

Definition vif (vifi : Z) : Cmd Pim uvif := let! s := get in of_option (rd (uvifs s) vifi).
Definition upd_vif (vifi : Z) (f : uvif -> uvif) : Cmd Pim unit :=
  let! s := get in
  chk! v := rd (uvifs s) vifi in
  chk! vs := store (uvifs s) vifi [f v] in
  modify (set_uvifs vs).

(** [&v->uv_linklocal->pa_addr]. *)
Definition linklocal (v : uvif) : Cmd Pim sockaddr_in6 := of_option (pa_addr <$> uv_linklocal v).

(** ** Working areas *)

(** Fresh memory; its contents are not read before they are written. *)
Definition new_working_buff : build_jp_message :=
  let buf n := replicate (Z.to_nat n) 0 in
  mkJp (buf (MAX_JP_MESSAGE_SIZE + sizeof_jp_grp + 2 * sizeof_esaddr)) 0 0 sockaddr6_any 0
    (buf (MAX_JOIN_LIST_SIZE + sizeof_esaddr)) 0 0 (buf (MAX_PRUNE_LIST_SIZE + sizeof_esaddr)) 0 0
    (buf (MAX_JOIN_LIST_SIZE + sizeof_esaddr)) 0 0 (buf (MAX_PRUNE_LIST_SIZE + sizeof_esaddr)) 0 0 0.

(** An area from the pool; the lists of (star,star,RP) entries are not reset. *)
Definition reused (j : build_jp_message) : build_jp_message :=
  set_jp_message_size 0 (set_join_list_size 0 (set_join_addr_number 0 (set_prune_list_size 0 (set_prune_addr_number 0
    (set_curr_group sockaddr6_any (set_curr_group_msklen 0 j)))))).

(** The results of the six calls of malloc are not looked at. *)
Definition get_jp6_working_buff : Cmd Pim build_jp_message :=
  let! s := get in
  if build_jp_message_pool_counter (vars s) =? 0 then
    let! ok1 := next_malloc in let! ok2 := next_malloc in let! ok3 := next_malloc in
    let! ok4 := next_malloc in let! ok5 := next_malloc in let! ok6 := next_malloc in
    if ok1 && ok2 && ok3 && ok4 && ok5 && ok6 then ret new_working_buff else halt OutOfBounds
  else
    match build_jp_message_pool (vars s) with
    | [] => halt OutOfBounds
    | j :: pool =>
        do! upd_vars (fun w => set_build_jp_message_pool_counter (build_jp_message_pool_counter w - 1) (set_build_jp_message_pool pool w)) ;;
        ret (reused j)
    end.

(** An area goes to the pool, or is freed when the pool is full. *)
Definition to_pool (j : build_jp_message) : Cmd Pim unit :=
  upd_vars (fun w =>
    if decide (build_jp_message_pool_counter w >= MAX_JP_MESSAGE_POOL_NUMBER) then w
    else set_build_jp_message_pool_counter (build_jp_message_pool_counter w + 1)
           (set_build_jp_message_pool (j :: build_jp_message_pool w) w)).

Definition return_jp6_working_buff (pim_nbr : ptr) : Cmd Pim unit :=
  let! n := nbr pim_nbr in
  match nbr_jp n with
  | None => ret tt
  | Some j => do! to_pool j ;; upd_nbr pim_nbr (set_nbr_jp None)
  end.

(** ** Putting the message together *)

(** The start of a message: the neighbour, no groups yet, the holdtime. *)
Definition jp_header (address : list Z) (holdtime : Z) (j : build_jp_message) : option build_jp_message :=
  c ← PUT_EUADDR6 address (jp_message j, 0);
  c ← PUT_BYTE 0 c;
  let num_groups_ptr := c.2 in
  c ← PUT_BYTE 0 c;
  c ← PUT_HOSTSHORT holdtime c;
  Some (set_num_groups_ptr num_groups_ptr (set_jp_message c.1 (set_jp_holdtime holdtime (set_jp_message_size c.2 j)))).

(** A group with its joins and prunes at the end of the message. *)
Definition jp_group (addr : list Z) (mlen joins prunes : Z) (join_part prune_part : option (list Z)) (j : build_jp_message) :
    option build_jp_message :=
  c ← PUT_EGADDR6 addr mlen 0 (jp_message j, jp_message_size j);
  c ← PUT_HOSTSHORT joins c;
  c ← PUT_HOSTSHORT prunes c;
  js ← join_part; c ← put js c;
  ps ← prune_part; c ← put ps c;
  n ← rd c.1 (num_groups_ptr j);
  b ← store c.1 (num_groups_ptr j) [u8 (n + 1)];
  Some (set_jp_message b (set_jp_message_size c.2 j)).

(** The current group. *)
Definition jp_current (j : build_jp_message) : option build_jp_message :=
  j ← jp_group (sin6_addr (curr_group j)) (curr_group_msklen j) (join_addr_number j) (prune_addr_number j)
        (slice (join_list j) 0 (join_list_size j)) (slice (prune_list j) 0 (prune_list_size j)) j;
  Some (set_join_list_size 0 (set_join_addr_number 0 (set_prune_list_size 0 (set_prune_addr_number 0
    (set_curr_group sockaddr6_any (set_curr_group_msklen 0 j)))))).

(** The (star,star,RP) entries. *)
Definition jp_star_star_rp (j : build_jp_message) : option build_jp_message :=
  j ← jp_group (sin6_addr sockaddr6_d) STAR_STAR_RP_MSK6LEN (rp_list_join_number j) (rp_list_prune_number j)
        (slice (rp_list_join j) 0 (rp_list_join_size j)) (slice (rp_list_prune j) 0 (rp_list_prune_size j)) j;
  Some (set_rp_list_join_size 0 (set_rp_list_join_number 0 (set_rp_list_prune_size 0 (set_rp_list_prune_number 0 j)))).

(** Are there such entries? *)
Definition has_star_star_rp (j : build_jp_message) : bool := negb (rp_list_join_number j + rp_list_prune_number j =? 0).

Definition send_jp6_message (pim_nbr : ptr) : Cmd Pim unit :=
  let! n := nbr pim_nbr in
  chk! j := nbr_jp n in
  let datalen := u16 (jp_message_size j) in
  let mifi := nbr_vifi n in
  let! s := get in
  chk! data := slice (jp_message j) 0 datalen in
  chk! buf := store (pim6_send_buf (vars s)) sizeof_pim data in
  do! upd_vars (set_pim6_send_buf buf) ;;
  let! v := vif mifi in
  let! src := linklocal v in
  do! send_pim6 src allpim6routers_group PIM_JOIN_PRUNE datalen ;;
  return_jp6_working_buff pim_nbr.

Definition pack_jp6_message (pim_nbr : ptr) : Cmd Pim unit :=
  let! n := nbr pim_nbr in
  match nbr_jp n with
  | None => ret tt
  | Some j =>
      if inet6_equal (curr_group j) sockaddr6_any then ret tt else
      chk! j := (if has_star_star_rp j then Some j else jp_current j) in
      do! upd_nbr pim_nbr (set_nbr_jp (Some j)) ;;
      chk! groups := rd (jp_message j) (num_groups_ptr j) in
      if groups =? 254 then
        do! (if has_star_star_rp j then
               chk! j := jp_star_star_rp j in upd_nbr pim_nbr (set_nbr_jp (Some j))
             else ret tt) ;;
        send_jp6_message pim_nbr
      else ret tt
  end.

Definition pack_and_send_jp6_message (pim_nbr : ptr) : Cmd Pim unit :=
  match pim_nbr with
  | None => ret tt
  | Some _ =>
      let! n := nbr pim_nbr in
      match nbr_jp n with
      | None => ret tt
      | Some _ =>
          do! pack_jp6_message pim_nbr ;;
          let! n := nbr pim_nbr in
          chk! j := nbr_jp n in
          do! (if has_star_star_rp j then
                 chk! j := jp_star_star_rp j in upd_nbr pim_nbr (set_nbr_jp (Some j))
               else ret tt) ;;
          send_jp6_message pim_nbr
      end
  end.

(** ** [add_jp_entry] *)

(** Has the area no room for another entry? *)
Definition jp_full (j : build_jp_message) : bool :=
  bool_decide (jp_message_size j + join_list_size j + prune_list_size j + rp_list_join_size j + rp_list_prune_size j >= MAX_JP_MESSAGE_SIZE)
  || bool_decide (join_list_size j >= MAX_JOIN_LIST_SIZE) || bool_decide (prune_list_size j >= MAX_PRUNE_LIST_SIZE)
  || bool_decide (rp_list_join_size j >= MAX_JOIN_LIST_SIZE) || bool_decide (rp_list_prune_size j >= MAX_PRUNE_LIST_SIZE).

Definition esaddr_flags (addr_flags : Z) : Z :=
  Z.lor USADDR_S_BIT (Z.lor (if has addr_flags MRTF_RP then USADDR_RP_BIT else 0) (if has addr_flags MRTF_WC then USADDR_WC_BIT else 0)).

(** The entry on the list it belongs to; [None] inside: neither join nor
    prune. *)
Definition jp_entry (source : list Z) (src_msklen flags join_prune : Z) (rp_flag : bool) (j : build_jp_message) : option build_jp_message :=
  if rp_flag then
    if join_prune =? PIM_ACTION_JOIN then
      c ← PUT_ESADDR6 source src_msklen flags (rp_list_join j, rp_list_join_size j);
      Some (set_rp_list_join c.1 (set_rp_list_join_size c.2 (set_rp_list_join_number (u16 (rp_list_join_number j + 1)) j)))
    else
      c ← PUT_ESADDR6 source src_msklen flags (rp_list_prune j, rp_list_prune_size j);
      Some (set_rp_list_prune c.1 (set_rp_list_prune_size c.2 (set_rp_list_prune_number (u16 (rp_list_prune_number j + 1)) j)))
  else
    if join_prune =? PIM_ACTION_JOIN then
      c ← PUT_ESADDR6 source src_msklen flags (join_list j, join_list_size j);
      Some (set_join_list c.1 (set_join_list_size c.2 (set_join_addr_number (u16 (join_addr_number j + 1)) j)))
    else
      c ← PUT_ESADDR6 source src_msklen flags (prune_list j, prune_list_size j);
      Some (set_prune_list c.1 (set_prune_list_size c.2 (set_prune_addr_number (u16 (prune_addr_number j + 1)) j))).

(** Is the entry of another group than those before it? *)
Definition other_group (j : build_jp_message) (group : sockaddr_in6) (grp_msklen holdtime : Z) : bool :=
  negb (inet6_equal (curr_group j) group) || negb (curr_group_msklen j =? grp_msklen) || negb (jp_holdtime j =? holdtime).

Definition add_jp_entry (pim_nbr : ptr) (holdtime : Z) (group : sockaddr_in6) (grp_msklen : Z) (source : sockaddr_in6)
    (src_msklen addr_flags join_prune : Z) : Cmd Pim bool :=
  let! n := nbr pim_nbr in
  do! match nbr_jp n with
      | Some j => if jp_full j then pack_and_send_jp6_message pim_nbr else ret tt
      | None => ret tt
      end ;;
  let! n := nbr pim_nbr in
  do! match nbr_jp n with
      | Some j => if other_group j group grp_msklen holdtime then pack_jp6_message pim_nbr else ret tt
      | None =>
          let! j := get_jp6_working_buff in
          chk! j := jp_header (sin6_addr (nbr_address n)) holdtime j in
          upd_nbr pim_nbr (set_nbr_jp (Some j))
      end ;;
  let! n := nbr pim_nbr in
  chk! j := nbr_jp n in
  let j := set_curr_group group (set_curr_group_msklen grp_msklen j) in
  do! upd_nbr pim_nbr (set_nbr_jp (Some j)) ;;
  let rp_flag := inet6_equal group sockaddr6_d && (grp_msklen =? STAR_STAR_RP_MSK6LEN) in
  if (join_prune =? PIM_ACTION_JOIN) || (join_prune =? PIM_ACTION_PRUNE) then
    chk! j := jp_entry (sin6_addr source) src_msklen (esaddr_flags addr_flags) join_prune rp_flag j in
    do! upd_nbr pim_nbr (set_nbr_jp (Some j)) ;;
    ret true
  else ret false.

(** ** Random delays *)

(** [RANDOM ()]: the next of the coming answers. *)
Definition RANDOM : Cmd Pim Z :=
  let! s := get in
  match randoms (vars s) with
  | [] => ret 0
  | r :: rs => do! upd_vars (set_randoms rs) ;; ret r
  end.

(** ** Lemmas *)

Lemma vif_Ok s k v : rd (uvifs s) k = Some v -> vif k s = Ok v s.
Proof. intros E. unfold vif. rewrite get_bind. by rewrite E. Qed.

Lemma upd_vif_Ok s k v f : rd (uvifs s) k = Some v -> exists vs, store (uvifs s) k [f v] = Some vs /\ upd_vif k f s = Ok tt (set_uvifs vs s).
Proof.
  intros E. pose proof (rd_inv _ _ _ E). destruct (store (uvifs s) k [f v]) as [vs|] eqn:S.
  - exists vs. split; [done|]. unfold upd_vif. rewrite get_bind, E, bind_of_Some, S. done.
  - rewrite store_Some in S by (change (zlen [f v]) with 1; lia). done.
Qed.
