(* ===== verification/PimBsr.v ===== *)
(** * PimBsr: bootstrap messages and candidate RPs (rp.c, pim6_proto.c)

    The bootstrap router gathers the candidate RPs from their advertisements and
    floods the RP-set.  [create_pim6_bootstrap_message] writes the RP-set into a
    message, [receive_pim6_bootstrap] reads it into the receiver's. *)

From stdpp Require Import base list numbers gmap.
From S2P Require Import Prelude Inet6 Pim RpMatch Vif Mrt PimMsg Oifs Rp PimJp.
Open Scope Z_scope.

Definition VIFF_NONBRS : Z := 0x080000.
Definition ALL_MCAST_GROUPS_LENGTH : Z := 8.
(** The lengths of [PIM_MINLEN] and of encoded addresses. *)
Definition PIM_MINLEN : Z := 8.
Definition PIM6_ENCODE_UNI_ADDR_LEN : Z := 18.
Definition PIM6_ENCODE_GRP_ADDR_LEN : Z := 20.
Definition PIM6_BOOTSTRAP_MINLEN : Z := PIM_MINLEN + PIM6_ENCODE_UNI_ADDR_LEN.
Definition PIM6_CAND_RP_ADV_MINLEN : Z := PIM_MINLEN + PIM6_ENCODE_UNI_ADDR_LEN.
(** The macro of <netinet/in.h>: groups of interface-local scope. *)
Definition IN6_IS_ADDR_MC_NODELOCAL (a : list Z) : bool := IN6_IS_ADDR_MULTICAST a && (Z.land (s6 a 1) 0x0f =? 1).

(** [sizeof (pim6_encod_uni_addr_t)] and [sizeof (pim6_encod_grp_addr_t)]. *)
Definition sizeof_euaddr : Z := 20.
Definition sizeof_egaddr : Z := 20.
Definition PIM_GROUP_PREFIX_DEFAULT_MASKLEN : Z := 8.

Definition s8 (x : Z) : Z := if decide (u8 x < 128) then u8 x else u8 x - 256.

(** Interfaces that take no messages. *)
Definition silent (v : uvif) : bool := has (uv_flags v) (Z.lor VIFF_DISABLED (Z.lor VIFF_DOWN MIFF_REGISTER)).

(** A list and the numbers of its elements. *)
Definition with_index {A} (l : list A) : list (Z * A) := zip (seqZ 0 (zlen l)) l.

Fixpoint each_of {A} (f : A -> Cmd Pim unit) (l : list A) : Cmd Pim unit :=
  match l with
  | [] => ret tt
  | x :: l => do! f x ;; each_of f l
  end.

(** ** Starting (rp.c) *)

Definition adjust_adv_size : Cmd Pim unit := upd_vars (fun w => set_cand_rp_adv_size (cand_rp_adv_insert w) w).

(** The prefixes of the configuration; 255 are too many, but the test for that
    never holds: [~] of an 8-bit value has bits above the eighth. *)
Fixpoint grp_prefix_config (grp_prefix : list (list Z * Z)) : Cmd Pim unit :=
  match grp_prefix with
  | [] => adjust_adv_size
  | (paddr, plen) :: pl =>
      if negb (IN6_IS_ADDR_MULTICAST paddr) then grp_prefix_config pl else
      let! s := get in
      chk! cnt := rd (cand_rp_adv_buffer (vars s)) 0 in
      if Z.lnot cnt =? 0 then adjust_adv_size else
      let plen := if decide (plen < PIM_GROUP_PREFIX_DEFAULT_MASKLEN) then PIM_GROUP_PREFIX_DEFAULT_MASKLEN else plen in
      chk! c := PUT_EGADDR6 paddr (u8 plen) 0 (cand_rp_adv_buffer (vars s), cand_rp_adv_insert (vars s)) in
      chk! cnt := rd c.1 0 in
      chk! b := store c.1 0 [u8 (cnt + 1)] in
      do! upd_vars (fun w => set_cand_rp_adv_buffer b (set_cand_rp_adv_insert c.2 w)) ;;
      grp_prefix_config pl
  end.

(** The address of the interface of the configuration if there is one, or the
    greatest. *)
Definition own_address (local_iface : option sockaddr_in6) : Cmd Pim sockaddr_in6 :=
  let! s := get in
  match local_iface with
  | Some sa => ret sa
  | None => of_option (max_global_address (uvifs s))
  end.

(** The start of the advertisement: no prefixes, the priority, the holdtime and
    the address. *)
Definition adv_header (w : Vars) (buffer : list Z) : option (list Z) :=
  c ← PUT_BYTE 0 (buffer, 0);
  c ← PUT_BYTE (my_cand_rp_priority w) c;
  c ← PUT_HOSTSHORT (my_cand_rp_holdtime w) c;
  c ← PUT_EUADDR6 (sin6_addr (my_cand_rp_address w)) c;
  Some c.1.

(** [local_iface]: what the function of this name answers for the interface of
    the configuration.  The memory of the message is not read before it is
    written. *)
Definition init_rp6 (local_iface : option sockaddr_in6) (grp_prefix : list (list Z * Z)) : Cmd Pim unit :=
  let! s := get in
  if static_rp_flag (vars s) then ret tt else
  let! sa6 := own_address local_iface in
  do! upd_vars (set_my_cand_rp_address sa6) ;;
  let! ok := next_malloc in
  if negb ok then exit (-1) else
  do! upd_vars (fun w => set_my_cand_rp_holdtime (u16 (5 * my_cand_rp_adv_period w / 2)) w) ;;
  let! s := get in
  chk! b := adv_header (vars s) (replicate (Z.to_nat (4 + sizeof_euaddr + 255 * sizeof_egaddr)) 0) in
  do! upd_vars (fun w => set_cand_rp_adv_buffer b (set_cand_rp_adv_insert (4 + 18) (set_cand_rp_adv_size (4 + 18) w))) ;;
  do! delete_rp_list Used ;;
  do! delete_rp_list Segmented ;;
  let! s := get in
  do! (if cand_rp_flag (vars s) then
         let! r := RANDOM in
         if my_cand_rp_adv_period (vars s) =? 0 then halt OutOfBounds else
         upd_vars (set_pim_cand_rp_adv_timer (u16 (r mod my_cand_rp_adv_period (vars s))))
       else ret tt) ;;
  match grp_prefix with
  | [] => ret tt
  | _ => if cand_rp_flag (vars s) then grp_prefix_config grp_prefix else ret tt
  end.

(** The loop over the bytes of the two addresses: 128 less 8 for every equal
    byte in front and less the clear bits of the first difference; an address
    that is greater ends the daemon ([LOG_ERR]).  The bytes are signed. *)
Fixpoint log_of_2 (curr my : list Z) (acc : Z) : option Z :=
  match curr, my with
  | c :: curr, m :: my =>
      let diff := s8 c - s8 m in
      if decide (diff < 0) then None
      else if diff =? 0 then log_of_2 curr my (acc - 8)
      else Some (acc - zlen (filter (fun j => Z.land (s8 (Z.shiftr 0x80 j)) diff = 0) (seqZ 0 8)))
  | _, _ => Some acc
  end.

(** The logarithm of [Delay] is computed and not used. *)
Definition bootstrap_initial_delay : Cmd Pim Z :=
  let! s := get in
  let w := vars s in
  let bestPriority := Z.max (curr_bsr_priority w) (my_bsr_priority w) in
  let! AddrDelay :=
    if bestPriority =? my_bsr_priority w then
      match log_of_2 (sin6_addr (curr_bsr_address w)) (sin6_addr (my_bsr_address w)) 128 with
      | Some l => ret (l `quot` 64)
      | None => exit (-1)
      end
    else ret (2 - Z.shiftr (s6 (sin6_addr (my_bsr_address w)) 0) 7) in
  let Delay := 1 + bestPriority - my_bsr_priority w in
  ret (u16 (5 + 2 * Delay + AddrDelay)).

Definition init_bsr6 (local_iface : option sockaddr_in6) : Cmd Pim unit :=
  let! sa6 := own_address local_iface in
  do! upd_vars (set_my_bsr_address sa6) ;;
  let! s := get in
  if negb (cand_bsr_flag (vars s)) then
    chk! m := MASKLEN_TO_MASK6 RP_DEFAULT_IPV6_HASHMASKLEN in
    upd_vars (fun w => set_pim_bootstrap_timer PIM_BOOTSTRAP_TIMEOUT (set_curr_bsr_hash_mask m
      (set_curr_bsr_address sockaddr6_any (set_curr_bsr_priority 0 (set_curr_bsr_fragment_tag 0 w)))))
  else
    let! r := RANDOM in
    do! upd_vars (fun w => set_curr_bsr_hash_mask (my_bsr_hash_mask w) (set_curr_bsr_address (my_bsr_address w)
          (set_curr_bsr_priority (my_bsr_priority w) (set_curr_bsr_fragment_tag (u16 r) w)))) ;;
    let! delay := bootstrap_initial_delay in
    upd_vars (set_pim_bootstrap_timer delay).

(** ** Writing the RP-set (rp.c) *)

(** Has the prefix an RP that the bootstrap router announced? *)
Fixpoint has_bsr_rp (fuel : nat) (p : ptr) (bsr_entry : bool) : Cmd Pim bool :=
  match fuel with
  | O => halt OutOfFuel
  | S fuel =>
    match p with
    | None => ret bsr_entry
    | Some _ => let! r := rpg p in has_bsr_rp fuel (grp_rp_next r) (bsr_entry || (rg_origin r =? RP_ORIGIN_BSR))
    end
  end.

(** One RP of a prefix. *)
Definition put_rp (addr : list Z) (advholdtime priority : Z) (c : cursor) : option cursor :=
  c ← PUT_EUADDR6 addr c; c ← PUT_HOSTSHORT advholdtime c; c ← PUT_BYTE priority c; PUT_BYTE 0 c.

Fixpoint put_rps (fuel : nat) (p : ptr) (c : cursor) : Cmd Pim cursor :=
  match fuel with
  | O => halt OutOfFuel
  | S fuel =>
    match p with
    | None => ret c
    | Some _ =>
        let! r := rpg p in
        if negb (rg_origin r =? RP_ORIGIN_BSR) then put_rps fuel (grp_rp_next r) c else
        let! cr := crp (rg_rp r) in
        let! e := src (c_rpentry cr) in
        chk! c := put_rp (sin6_addr (s_address e)) (rg_advholdtime r) (rg_priority r) c in
        put_rps fuel (grp_rp_next r) c
    end
  end.

(** The head of a prefix: its address, and twice the number of its RPs. *)
Definition put_mask (addr mask : list Z) (number : Z) (c : cursor) : option cursor :=
  c ← PUT_EGADDR6 addr (u8 (MASK_TO_MASKLEN6 mask)) 0 c; c ← PUT_BYTE number c; c ← PUT_BYTE number c; PUT_HOSTSHORT 0 c.

Fixpoint put_masks (fuel : nat) (p : ptr) (c : cursor) : Cmd Pim cursor :=
  match fuel with
  | O => halt OutOfFuel
  | S fuel =>
    match p with
    | None => ret c
    | Some _ =>
        let! s := get in
        let! m := gmask p in
        let! bsr_entry := has_bsr_rp (fuel_of s) (gm_grp_rp_next m) false in
        if negb bsr_entry then put_masks fuel (gm_next m) c else
        chk! c := put_mask (sin6_addr (gm_group_addr m)) (gm_group_mask m) (gm_group_rp_number m) c in
        let! c := put_rps (fuel_of s) (gm_grp_rp_next m) c in
        put_masks fuel (gm_next m) c
    end
  end.

Definition put_bsr (tag : Z) (hash_mask : list Z) (priority : Z) (addr : list Z) (c : cursor) : option cursor :=
  c ← PUT_HOSTSHORT tag c; c ← PUT_BYTE (u8 (MASK_TO_MASKLEN6 hash_mask)) c; c ← PUT_BYTE priority c; PUT_EUADDR6 addr c.

(** The message is written into [pim6_send_buf]. *)
Definition create_pim6_bootstrap_message : Cmd Pim Z :=
  let! s := get in
  if IN6_IS_ADDR_UNSPECIFIED (sin6_addr (curr_bsr_address (vars s))) then ret 0 else
  do! (if inet6_equal (curr_bsr_address (vars s)) (my_bsr_address (vars s)) then
         upd_vars (fun w => set_curr_bsr_fragment_tag (u16 (curr_bsr_fragment_tag w + 1)) w)
       else ret tt) ;;
  let! s := get in
  let w := vars s in
  chk! c := put_bsr (curr_bsr_fragment_tag w) (curr_bsr_hash_mask w) (curr_bsr_priority w) (sin6_addr (curr_bsr_address w))
              (pim6_send_buf w, sizeof_pim) in
  let! c := put_masks (fuel_of s) (grp_mask_list s) c in
  do! upd_vars (set_pim6_send_buf c.1) ;;
  ret (c.2 - sizeof_pim).

Definition send_pim6_bootstrap : Cmd Pim unit :=
  let! datalen := create_pim6_bootstrap_message in
  if datalen =? 0 then ret tt else
  let! s := get in
  each_of (fun v =>
    if silent v then ret tt else
    let! from := linklocal v in
    send_pim6 from allpim6routers_group PIM_BOOTSTRAP datalen) (uvifs s).

(** ** Reading it (pim6_proto.c)

    [msg] is the buffer a message was received in; [datalen] bytes of it are the
    message. *)

Record bsr_rp := mkBsrRp { br_addr : list Z; br_holdtime : Z; br_priority : Z }.

Definition get_rp (msg : list Z) (data_ptr : Z) : option (bsr_rp * Z) :=
  '(rp, p) ← GET_EUADDR6 msg data_ptr;
  '(holdtime, p) ← GET_HOSTSHORT msg p;
  '(priority, p) ← GET_BYTE msg p;
  '(_, p) ← GET_BYTE msg p;
  Some (mkBsrRp (unicast_addr rp) holdtime priority, p).

Definition add_bsr_rp (w : rp_lists) (rpp_ : sockaddr_in6) (priority holdtime : Z) (v : uvif) (mcast_addr group_mask : list Z) :
    Cmd Pim unit :=
  let! s := get in
  let group_ := mkSa (inet6_uvif2scopeid (mkSa 0 mcast_addr) v) mcast_addr in
  let! _ := add_rp_grp_entry w rpp_ priority RP_ORIGIN_BSR holdtime group_ group_mask
              (curr_bsr_hash_mask (vars s)) (curr_bsr_fragment_tag (vars s)) in
  ret tt.

(** All RPs of a prefix are in the message.  The answer is the place behind them
    and the scope that the variable of the RP is left with; [None]: the message
    is too short. *)
Fixpoint all_rps (count : nat) (msg : list Z) (max_data_ptr : Z) (v : uvif) (mcast_addr group_mask : list Z) (data_ptr scope : Z) :
    Cmd Pim (option (Z * Z)) :=
  match count with
  | O => ret (Some (data_ptr, scope))
  | S count =>
      if decide (data_ptr + PIM6_ENCODE_UNI_ADDR_LEN + 4 > max_data_ptr) then ret None else
      chk! (r, p) := get_rp msg data_ptr in
      if IN6_IS_ADDR_LINKLOCAL (br_addr r) || IN6_IS_ADDR_SITELOCAL (br_addr r)
      then all_rps count msg max_data_ptr v mcast_addr group_mask p scope
      else
        do! add_bsr_rp Used (mkSa 0 (br_addr r)) (br_priority r) (br_holdtime r) v mcast_addr group_mask ;;
        all_rps count msg max_data_ptr v mcast_addr group_mask p 0
  end.

(** The RPs of a part of a list.  [fresh]: is the scope of the RP set? *)
Fixpoint some_rps (count : nat) (w : rp_lists) (fresh : bool) (msg : list Z) (v : uvif) (mcast_addr group_mask : list Z)
    (data_ptr scope : Z) : Cmd Pim (Z * Z) :=
  match count with
  | O => ret (data_ptr, scope)
  | S count =>
      chk! (r, p) := get_rp msg data_ptr in
      let scope := if fresh then 0 else scope in
      do! add_bsr_rp w (mkSa scope (br_addr r)) (br_priority r) (br_holdtime r) v mcast_addr group_mask ;;
      some_rps count w fresh msg v mcast_addr group_mask p scope
  end.

(** The RPs saved before. *)
Fixpoint saved_rps (fuel : nat) (v : uvif) (mcast_addr group_mask : list Z) (p : ptr) : Cmd Pim unit :=
  match fuel with
  | O => halt OutOfFuel
  | S fuel =>
    match p with
    | None => ret tt
    | Some _ =>
        let! r := rpg p in
        let! c := crp (rg_rp r) in
        let! e := src (c_rpentry c) in
        do! add_bsr_rp Used (s_address e) (rg_priority r) (rg_holdtime r) v mcast_addr group_mask ;;
        let! r := rpg p in
        saved_rps fuel v mcast_addr group_mask (grp_rp_next r)
    end
  end.

(** The first prefix of the segments that is not greater. *)
Fixpoint segment_place (fuel : nat) (junk : Z) (mcast_addr group_mask : list Z) (p : ptr) : Cmd Pim ptr :=
  match fuel with
  | O => halt OutOfFuel
  | S fuel =>
    match p with
    | None => ret None
    | Some _ =>
        let! m := gmask p in
        let prefix_h := mkSa junk (mask_addr mcast_addr group_mask) in
        let prefix_h2 := mkSa junk (mask_addr (sin6_addr (gm_group_addr m)) (gm_group_mask m)) in
        if inet6_greaterthan prefix_h2 prefix_h then segment_place fuel junk mcast_addr group_mask (gm_next m) else ret p
    end
  end.

(** A part of the list of RPs of a prefix. *)
Definition part_of_list (junk : Z) (msg : list Z) (v : uvif) (mcast_addr group_mask : list Z) (rp_count frag_rp_count data_ptr scope : Z) :
    Cmd Pim (Z * Z) :=
  let! s := get in
  let! p := segment_place (fuel_of s) junk mcast_addr group_mask (segmented_grp_mask_list (vars s)) in
  let! complete :=
    match p with
    | None => ret false
    | Some _ =>
        let! m := gmask p in
        ret (IN6_ARE_ADDR_EQUAL (sin6_addr (gm_group_addr m)) mcast_addr && IN6_ARE_ADDR_EQUAL (gm_group_mask m) group_mask
             && (gm_group_rp_number m + frag_rp_count =? rp_count))
    end in
  if complete : bool then
    let! r := some_rps (Z.to_nat frag_rp_count) Used true msg v mcast_addr group_mask data_ptr scope in
    let! s := get in
    let! m := gmask p in
    do! saved_rps (fuel_of s) v mcast_addr group_mask (gm_grp_rp_next m) ;;
    do! delete_grp_mask junk Segmented (mkSa (inet6_uvif2scopeid (mkSa 0 mcast_addr) v) mcast_addr) group_mask ;;
    ret r
  else some_rps (Z.to_nat frag_rp_count) Segmented false msg v mcast_addr group_mask data_ptr scope.

(** The prefixes of the message.  A prefix that is not taken is left with its
    head only: its RPs are read as further prefixes. *)
Fixpoint bsr_prefixes (fuel : nat) (junk : Z) (msg : list Z) (max_data_ptr : Z) (v : uvif) (data_ptr scope : Z) : Cmd Pim unit :=
  match fuel with
  | O => halt OutOfFuel
  | S fuel =>
      if decide (data_ptr + 24 > max_data_ptr) then ret tt else
      chk! (g, p) := GET_EGADDR6 msg data_ptr in
      chk! (rp_count, p) := GET_BYTE msg p in
      chk! (frag_rp_count, p) := GET_BYTE msg p in
      chk! (_, p) := GET_HOSTSHORT msg p in
      chk! group_mask := MASKLEN_TO_MASK6 (masklen g) in
      let mcast_addr := enc_addr g in
      if IN6_IS_ADDR_MC_NODELOCAL mcast_addr || IN6_IS_ADDR_MC_LINKLOCAL mcast_addr
      then bsr_prefixes fuel junk msg max_data_ptr v p scope
      else if rp_count =? 0 then
        do! delete_grp_mask junk Used (mkSa junk mcast_addr) group_mask ;;
        bsr_prefixes fuel junk msg max_data_ptr v p scope
      else if rp_count =? frag_rp_count then
        let! r := all_rps (Z.to_nat frag_rp_count) msg max_data_ptr v mcast_addr group_mask p scope in
        match r with
        | None => ret tt
        | Some (p, scope) => bsr_prefixes fuel junk msg max_data_ptr v p scope
        end
      else
        let! r := part_of_list junk msg v mcast_addr group_mask rp_count frag_rp_count p scope in
        bsr_prefixes fuel junk msg max_data_ptr v r.1 r.2
  end.

(** RPs of the bootstrap router that the last message did not name are
    deleted, where the message named the prefix. *)
Fixpoint collect_rps (fuel : nat) (w : rp_lists) (tag : Z) (p : ptr) : Cmd Pim unit :=
  match fuel with
  | O => halt OutOfFuel
  | S fuel =>
    match p with
    | None => ret tt
    | Some _ =>
        let! r := rpg p in
        do! (if negb (rg_origin r =? RP_ORIGIN_BSR) || (rg_fragment_tag r =? tag) then ret tt else delete_rp_grp_entry w p) ;;
        collect_rps fuel w tag (grp_rp_next r)
    end
  end.

Fixpoint collect_masks (fuel : nat) (w : rp_lists) (tag : Z) (p : ptr) : Cmd Pim unit :=
  match fuel with
  | O => halt OutOfFuel
  | S fuel =>
    match p with
    | None => ret tt
    | Some _ =>
        let! s := get in
        let! m := gmask p in
        do! (if gm_fragment_tag m =? tag then collect_rps (fuel_of s) w tag (gm_grp_rp_next m) else ret tt) ;;
        collect_masks fuel w tag (gm_next m)
    end
  end.

Definition garbage_collect (w : rp_lists) : Cmd Pim unit :=
  let! s := get in
  collect_masks (fuel_of s) w (curr_bsr_fragment_tag (vars s)) (gmask_list w s).

(** Where a message for all routers has to come from, where one for this router
    only came from; [None]: the message is not taken. *)
Definition bootstrap_iif (src dst new_bsr_address : sockaddr_in6) : Cmd Pim (option Z) :=
  let! s := get in
  if IN6_ARE_ADDR_EQUAL (sin6_addr dst) (sin6_addr allpim6routers_group) then
    let '(rpfneighbor, iif) := rpf s new_bsr_address in
    if (iif =? NO_VIF) || IN6_IS_ADDR_UNSPECIFIED (sin6_addr rpfneighbor) then ret None else
    let! v := vif iif in
    if silent v then ret None else
    match List.find (fun n => negb (inet6_lessthan src (nbr_address n))) (uv_pim_neighbors v) with
    | Some n => ret (if inet6_equal src (nbr_address n) then Some iif else None)
    | None => ret None
    end
  else if local_address dst (uvifs s) =? NO_VIF then ret None
  else match cand_rp_list s with
  | Some _ => ret None
  | None => (fix find (l : list (Z * uvif)) : Cmd Pim (option Z) :=
               match l with
               | [] => ret None
               | (mifi, v) :: l =>
                   if silent v then find l else
                   let! here := linklocal v in
                   if inet6_equal here dst then ret (Some mifi) else find l
               end) (with_index (uvifs s))
  end.

(** The message goes on to the other interfaces before it is looked at. *)
Definition forward_bootstrap (msg : list Z) (datalen incoming : Z) : Cmd Pim unit :=
  let! s := get in
  each_of (fun '(mifi, v) =>
    if (mifi =? incoming) || has (uv_flags v) (Z.lor (Z.lor VIFF_DISABLED (Z.lor VIFF_DOWN MIFF_REGISTER)) VIFF_NONBRS) then ret tt else
    let! s := get in
    chk! data := slice msg 0 datalen in
    chk! b := store (pim6_send_buf (vars s)) 0 data in
    do! upd_vars (set_pim6_send_buf b) ;;
    let! from := linklocal v in
    send_pim6 from allpim6routers_group PIM_BOOTSTRAP (datalen - sizeof_pim)) (with_index (uvifs s)).

(** Is the bootstrap router of the message less preferred than the present
    one? *)
Definition less_preferred (w : Vars) (new_bsr_priority : Z) (new_bsr_address : sockaddr_in6) : bool :=
  bool_decide (curr_bsr_priority w > new_bsr_priority)
  || (curr_bsr_priority w =? new_bsr_priority) && inet6_greaterthan (curr_bsr_address w) new_bsr_address.

(** [junk]: what uninitialised memory holds, the scopes of addresses that are
    not set. *)
Definition receive_pim6_bootstrap (junk : Z) (src dst : sockaddr_in6) (msg : list Z) (datalen : Z) : Cmd Pim bool :=
  let! s := get in
  let mifi := find_vif_direct src (uvifs s) in
  if mifi =? NO_VIF then ret false
  else if decide (datalen < PIM6_BOOTSTRAP_MINLEN) then ret false else
  let! v := vif mifi in
  chk! (tag, p) := GET_HOSTSHORT msg sizeof_pim in
  chk! (hash_masklen, p) := GET_BYTE msg p in
  chk! (priority, p) := GET_BYTE msg p in
  chk! (uni, p) := GET_EUADDR6 msg p in
  let a := unicast_addr uni in
  if IN6_IS_ADDR_MULTICAST a || IN6_IS_ADDR_LINKLOCAL a || IN6_IS_ADDR_SITELOCAL a then ret false else
  let new_bsr_address := mkSa (inet6_uvif2scopeid (mkSa 0 a) v) a in
  if negb (local_address new_bsr_address (uvifs s) =? NO_VIF) then ret false
  else if less_preferred (vars s) priority new_bsr_address then ret false else
  let! iif := bootstrap_iif src dst new_bsr_address in
  match iif with
  | None => ret false
  | Some incoming =>
      do! (if cand_rp_flag (vars s) && negb (inet6_equal new_bsr_address (curr_bsr_address (vars s)))
           then upd_vars (set_pim_cand_rp_adv_timer 0) else ret tt) ;;
      do! forward_bootstrap msg datalen incoming ;;
      do! (if negb (tag =? curr_bsr_fragment_tag (vars s)) || inet6_equal new_bsr_address (curr_bsr_address (vars s))
           then delete_rp_list Segmented else ret tt) ;;
      do! upd_vars (fun w => set_curr_bsr_fragment_tag tag (set_curr_bsr_priority priority (set_curr_bsr_address new_bsr_address w))) ;;
      chk! hash_mask := MASKLEN_TO_MASK6 hash_masklen in
      do! upd_vars (fun w => set_pim_bootstrap_timer PIM_BOOTSTRAP_TIMEOUT (set_curr_bsr_hash_mask hash_mask w)) ;;
      do! bsr_prefixes (S (Z.to_nat datalen)) junk msg datalen v p junk ;;
      do! garbage_collect Used ;;
      do! garbage_collect Segmented ;;
      ret true
  end.

(** ** Advertisements of candidate RPs (pim6_proto.c) *)

(** An RP of the own RP-set. *)
Definition add_cand (rpp_ : sockaddr_in6) (priority holdtime : Z) (group_ : sockaddr_in6) (grp_mask : list Z) : Cmd Pim unit :=
  let! s := get in
  let! _ := add_rp_grp_entry Used rpp_ priority RP_ORIGIN_BSR holdtime group_ grp_mask
              (my_bsr_hash_mask (vars s)) (curr_bsr_fragment_tag (vars s)) in
  ret tt.

(** The prefixes of an advertisement; [datalen]: what is left of it. *)
Fixpoint adv_prefixes (prefix_cnt : nat) (rpp_ : sockaddr_in6) (priority holdtime : Z) (msg : list Z) (data_ptr datalen : Z) :
    Cmd Pim bool :=
  match prefix_cnt with
  | O => ret true
  | S prefix_cnt =>
      if decide (datalen < PIM6_ENCODE_GRP_ADDR_LEN) then ret false else
      chk! (g, p) := GET_EGADDR6 msg data_ptr in
      chk! grp_mask := MASKLEN_TO_MASK6 (masklen g) in
      do! add_cand rpp_ priority holdtime (mkSa 0 (enc_addr g)) grp_mask ;;
      adv_prefixes prefix_cnt rpp_ priority holdtime msg p (datalen - PIM6_ENCODE_GRP_ADDR_LEN)
  end.

Definition receive_pim6_cand_rp_adv (src dst : sockaddr_in6) (msg : list Z) (datalen : Z) : Cmd Pim bool :=
  let! s := get in
  if cand_bsr_flag (vars s) && negb (inet6_equal (curr_bsr_address (vars s)) (my_bsr_address (vars s))) then ret false
  else if decide (datalen < PIM6_CAND_RP_ADV_MINLEN) then ret false else
  chk! (prefix_cnt, p) := GET_BYTE msg sizeof_pim in
  chk! (priority, p) := GET_BYTE msg p in
  chk! (holdtime, p) := GET_HOSTSHORT msg p in
  chk! (rp, p) := GET_EUADDR6 msg p in
  if IN6_IS_ADDR_LINKLOCAL (unicast_addr rp) then ret false else
  let rpp_ := mkSa 0 (unicast_addr rp) in
  if prefix_cnt =? 0 then
    chk! grp_mask := MASKLEN_TO_MASK6 ALL_MCAST_GROUPS_LENGTH in
    do! add_cand rpp_ priority holdtime sockaddr6_d grp_mask ;;
    ret true
  else adv_prefixes (Z.to_nat prefix_cnt) rpp_ priority holdtime msg p (datalen - PIM6_CAND_RP_ADV_MINLEN).

(** The bootstrap router adds its own prefixes itself. *)
Fixpoint own_prefixes (prefix_cnt : nat) (msg : list Z) (data_ptr : Z) : Cmd Pim bool :=
  match prefix_cnt with
  | O => ret true
  | S prefix_cnt =>
      chk! (g, p) := GET_EGADDR6 msg data_ptr in
      chk! grp_mask := MASKLEN_TO_MASK6 (masklen g) in
      let! s := get in
      do! add_cand (my_cand_rp_address (vars s)) (my_cand_rp_priority (vars s)) (my_cand_rp_holdtime (vars s))
            (mkSa 0 (enc_addr g)) grp_mask ;;
      own_prefixes prefix_cnt msg p
  end.

Definition send_pim6_cand_rp_adv : Cmd Pim bool :=
  let! s := get in
  let w := vars s in
  if negb (inet6_valid_host (curr_bsr_address w)) then ret false
  else if inet6_equal (curr_bsr_address w) (my_bsr_address w) then
    chk! prefix_cnt := rd (cand_rp_adv_buffer w) 0 in
    if prefix_cnt =? 0 then
      chk! grp_mask := MASKLEN_TO_MASK6 ALL_MCAST_GROUPS_LENGTH in
      do! add_cand (my_cand_rp_address w) (my_cand_rp_priority w) (my_cand_rp_holdtime w) sockaddr6_d grp_mask ;;
      ret true
    else own_prefixes (Z.to_nat prefix_cnt) (cand_rp_adv_buffer w) (4 + 18)
  else
    chk! data := slice (cand_rp_adv_buffer w) 0 (cand_rp_adv_size w) in
    chk! b := store (pim6_send_buf w) sizeof_pim data in
    do! upd_vars (set_pim6_send_buf b) ;;
    do! send_pim6 (my_cand_rp_address w) (curr_bsr_address w) PIM_CAND_RP_ADV (cand_rp_adv_size w) ;;
    ret true.
