(* ===== verification/PimNbr.v ===== *)
(** * PimNbr: hello messages and neighbours (pim6_proto.c)

    The neighbours of an interface are a list in decreasing order of their
    addresses; the router with the greatest address is the designated router
    ([VIFF_DR]).  A hello message tells the holdtime of a neighbour and its
    further addresses. *)

From stdpp Require Import base list numbers gmap.
From S2P Require Import Prelude Inet6 Pim RpMatch Vif Mrt PimMsg Oifs Rp PimJp PimBsr.
Open Scope Z_scope.

Definition VIFF_PIM_NBR : Z := 0x200000.
Definition PIM_MESSAGE_HELLO_HOLDTIME : Z := 1.
Definition PIM_MESSAGE_HELLO_HOLDTIME_LENGTH : Z := 2.
Definition PIM_MESSAGE_HELLO_ADDR_LIST : Z := 24.
Definition PIM_MESSAGE_HELLO_ADDRESSES : Z := 65001.
(** [sizeof (pim_hello_t)]. *)
Definition sizeof_hello : Z := 4.

(** ** Reading a hello message *)

Record pim_hello_options := mkHello { ho_holdtime : Z; ho_addrs : list phaddr }.

(** An address without anything else. *)
Definition bare (a : list Z) : phaddr := mkPhaddr (mkSa 0 a) (mkSa 0 in6addr_any) (mkSa 0 in6addr_any) in6addr_any.

(** The further addresses up to [lim]; [None]: the option is malformed. *)
Fixpoint hello_addrs (fuel : nat) (msg : list Z) (src : sockaddr_in6) (lim data_ptr : Z) (opts : pim_hello_options) :
    Cmd Pim (option (pim_hello_options * Z)) :=
  match fuel with
  | O => halt OutOfFuel
  | S fuel =>
      if decide (data_ptr >= lim) then ret (Some (opts, data_ptr)) else
      chk! family := rd msg data_ptr in
      if negb (family =? ADDRF_IPv6) then ret None
      else if decide (data_ptr + 18 > lim) then ret None else
      chk! (u, p) := GET_EUADDR6 msg data_ptr in
      let a := unicast_addr u in
      if IN6_ARE_ADDR_EQUAL a (sin6_addr src)
         || existsb (fun pa => IN6_ARE_ADDR_EQUAL (sin6_addr (pa_addr pa)) a) (ho_addrs opts)
      then hello_addrs fuel msg src lim p opts
      else
        let! ok := next_malloc in
        if negb ok then exit (-1) else
        hello_addrs fuel msg src lim p (mkHello (ho_holdtime opts) (bare a :: ho_addrs opts))
  end.

(** The options.  Of an option that is not known only the head is passed
    over. *)
Fixpoint hello_options (fuel : nat) (msg : list Z) (src : sockaddr_in6) (end_of_message data_ptr : Z)
    (opts : pim_hello_options) (holdtime_received_ok : bool) : Cmd Pim (option pim_hello_options) :=
  match fuel with
  | O => halt OutOfFuel
  | S fuel =>
      if decide (data_ptr + sizeof_hello <= end_of_message) then
        chk! (option_type, p) := GET_HOSTSHORT msg data_ptr in
        chk! (option_length, p) := GET_HOSTSHORT msg p in
        if option_type =? PIM_MESSAGE_HELLO_HOLDTIME then
          if negb (PIM_MESSAGE_HELLO_HOLDTIME_LENGTH =? option_length) then ret None else
          chk! (holdtime, p) := GET_HOSTSHORT msg p in
          hello_options fuel msg src end_of_message p (mkHello holdtime (ho_addrs opts)) true
        else if (option_type =? PIM_MESSAGE_HELLO_ADDRESSES) || (option_type =? PIM_MESSAGE_HELLO_ADDR_LIST) then
          let! r := hello_addrs (S (Z.to_nat option_length)) msg src (p + option_length) p opts in
          match r with
          | None => ret None
          | Some (opts, p) => hello_options fuel msg src end_of_message p opts holdtime_received_ok
          end
        else hello_options fuel msg src end_of_message p opts holdtime_received_ok
      else ret (if (data_ptr =? end_of_message) && holdtime_received_ok then Some opts else None)
  end.

Definition parse_pim6_hello (msg : list Z) (datalen : Z) (src : sockaddr_in6) : Cmd Pim (option pim_hello_options) :=
  hello_options (S (Z.to_nat datalen)) msg src datalen sizeof_pim (mkHello 0 []) false.

(** ** Sending one *)

(** The addresses of an interface but the link-local one. *)
Fixpoint put_addrs (from : sockaddr_in6) (addrs : list phaddr) (c : cursor) : option cursor :=
  match addrs with
  | [] => Some c
  | pa :: addrs =>
      if inet6_equal from (pa_addr pa) then put_addrs from addrs c
      else c ← PUT_EUADDR6 (sin6_addr (pa_addr pa)) c; put_addrs from addrs c
  end.

(** The list of addresses is there twice, as an option of two types. *)
Definition hello_message (holdtime : Z) (from : sockaddr_in6) (addrs : list phaddr) (buf : list Z) : option cursor :=
  c ← PUT_HOSTSHORT PIM_MESSAGE_HELLO_HOLDTIME (buf, sizeof_pim);
  c ← PUT_HOSTSHORT PIM_MESSAGE_HELLO_HOLDTIME_LENGTH c;
  c ← PUT_HOSTSHORT holdtime c;
  let data_ptr0 := c.2 in
  c' ← put_addrs from addrs (c.1, data_ptr0 + 4);
  let datalen := c'.2 - data_ptr0 - 4 in
  if decide (datalen > 0) then
    copy ← slice c'.1 data_ptr0 (c'.2 - data_ptr0);
    b ← store c'.1 c'.2 copy;
    c2 ← PUT_HOSTSHORT PIM_MESSAGE_HELLO_ADDRESSES (b, c'.2);
    c2 ← PUT_HOSTSHORT datalen c2;
    c0 ← PUT_HOSTSHORT PIM_MESSAGE_HELLO_ADDR_LIST (c2.1, data_ptr0);
    c0 ← PUT_HOSTSHORT datalen c0;
    Some (c0.1, c2.2 + datalen)
  else Some (c'.1, data_ptr0).

Definition send_pim6_hello (vifi holdtime : Z) : Cmd Pim unit :=
  let! v := vif vifi in
  let! from := linklocal v in
  let! s := get in
  chk! c := hello_message holdtime from (uv_addrs v) (pim6_send_buf (vars s)) in
  do! upd_vars (set_pim6_send_buf c.1) ;;
  do! send_pim6 from allpim6routers_group PIM_HELLO (c.2 - sizeof_pim) ;;
  let! s := get in
  upd_vif vifi (set_uv_pim_hello_timer (pim_hello_period (vars s))).

(** ** A neighbour goes *)

(** The list of an interface without a neighbour. *)
Definition without_nbr (i : nat) (v : uvif) : uvif :=
  set_uv_pim_neighbors (filter (fun n => nbr_id n <> i) (uv_pim_neighbors v)) v.

(** The route goes toward the source, or RP, of [e] again. *)
Definition follow_src (mrtentry_ptr : ptr) (e : srcentry) (m : mrtentry) : mrtentry :=
  set_toward (m_incoming m) (s_upstream e) (s_metric e) (s_preference e) m.

(** The entries of a source that point toward it. *)
Fixpoint source_routes (fuel : nat) (srcentry_ptr mrtentry_ptr : ptr) : Cmd Pim unit :=
  match fuel with
  | O => halt OutOfFuel
  | S fuel =>
    match mrtentry_ptr with
    | None => ret tt
    | Some _ =>
        let! m := mrt mrtentry_ptr in
        do! (if has (m_flags m) MRTF_RP then ret tt else
             let! e := src srcentry_ptr in
             do! upd mrtentry_ptr (follow_src mrtentry_ptr e) ;;
             let! _ := refresh mrtentry_ptr (s_incoming e) 0 in ret tt) ;;
        let! m := mrt mrtentry_ptr in
        source_routes fuel srcentry_ptr (m_srcnext m)
    end
  end.

(** The sources behind the neighbour; a source that is not behind another one
    now is deleted. *)
Fixpoint nbr_sources (fuel : nat) (nbr_delete srcentry_ptr : ptr) : Cmd Pim unit :=
  match fuel with
  | O => halt OutOfFuel
  | S fuel =>
    match srcentry_ptr with
    | None => ret tt
    | Some _ =>
        let! s := get in
        let! e := src srcentry_ptr in
        do! (if negb (bool_decide (s_upstream e = nbr_delete)) then ret tt else
             let! found := set_incoming srcentry_ptr PIM_IIF_SOURCE in
             if negb found then delete_srcentry srcentry_ptr else
             let! e := src srcentry_ptr in
             match s_upstream e with
             | None => ret tt
             | Some _ => source_routes (fuel_of s) srcentry_ptr (s_mrtlink e)
             end) ;;
        nbr_sources fuel nbr_delete (s_next e)
    end
  end.

(** The (S,G)RPbit entries of a group.  The members are set in the (star,G) entry
    [mrtentry_ptr], not in the entry of the loop. *)
Fixpoint group_rp_routes (fuel : nat) (rpentry_ptr mrtentry_ptr mrtentry_srcs : ptr) : Cmd Pim unit :=
  match fuel with
  | O => halt OutOfFuel
  | S fuel =>
    match mrtentry_srcs with
    | None => ret tt
    | Some _ =>
        let! m := mrt mrtentry_srcs in
        do! (if has (m_flags m) MRTF_RP then
               let! e := src rpentry_ptr in
               do! upd mrtentry_ptr (follow_src mrtentry_ptr e) ;;
               let! _ := refresh mrtentry_srcs (s_incoming e) 0 in ret tt
             else ret tt) ;;
        let! m := mrt mrtentry_srcs in
        group_rp_routes fuel rpentry_ptr mrtentry_ptr (m_grpnext m)
    end
  end.

(** A route toward an RP, if it is there. *)
Definition rp_route_again (rpentry_ptr mrtentry_ptr : ptr) : Cmd Pim unit :=
  match mrtentry_ptr with
  | None => ret tt
  | Some _ =>
      let! e := src rpentry_ptr in
      do! upd mrtentry_ptr (follow_src mrtentry_ptr e) ;;
      let! _ := refresh mrtentry_ptr (s_incoming e) 0 in ret tt
  end.

Fixpoint rp_groups (fuel : nat) (rpentry_ptr grpentry_ptr : ptr) : Cmd Pim unit :=
  match fuel with
  | O => halt OutOfFuel
  | S fuel =>
    match grpentry_ptr with
    | None => ret tt
    | Some _ =>
        let! s := get in
        let! g := grp grpentry_ptr in
        do! rp_route_again rpentry_ptr (g_grp_route g) ;;
        let! g' := grp grpentry_ptr in
        do! group_rp_routes (fuel_of s) rpentry_ptr (g_grp_route g) (g_mrtlink g') ;;
        let! g := grp grpentry_ptr in
        rp_groups fuel rpentry_ptr (g_rpnext g)
    end
  end.

Fixpoint rp_prefixes (fuel : nat) (rpentry_ptr rp_grp_entry_ptr : ptr) : Cmd Pim unit :=
  match fuel with
  | O => halt OutOfFuel
  | S fuel =>
    match rp_grp_entry_ptr with
    | None => ret tt
    | Some _ =>
        let! s := get in
        let! r := rpg rp_grp_entry_ptr in
        do! rp_groups (fuel_of s) rpentry_ptr (rg_grplink r) ;;
        let! r := rpg rp_grp_entry_ptr in
        rp_prefixes fuel rpentry_ptr (rp_grp_next r)
    end
  end.

(** The RPs behind the neighbour.  Where no way to the RP is found its upstream
    neighbour may stay. *)
Fixpoint nbr_rps (fuel : nat) (nbr_delete cand_rp_ptr : ptr) : Cmd Pim unit :=
  match fuel with
  | O => halt OutOfFuel
  | S fuel =>
    match cand_rp_ptr with
    | None => ret tt
    | Some _ =>
        let! s := get in
        let! c := crp cand_rp_ptr in
        let rpentry_ptr := c_rpentry c in
        let! e := src rpentry_ptr in
        do! (if negb (bool_decide (s_upstream e = nbr_delete)) then ret tt else
             do! (if local_address (s_address e) (uvifs s) =? NO_VIF
                  then let! _ := set_incoming rpentry_ptr PIM_IIF_RP in ret tt
                  else upd rpentry_ptr (fun e => set_s_upstream None (set_s_incoming (reg_vif_num s) e))) ;;
             do! rp_route_again rpentry_ptr (s_mrtlink e) ;;
             let! c := crp cand_rp_ptr in
             rp_prefixes (fuel_of s) rpentry_ptr (c_rp_grp_next c)) ;;
        let! c := crp cand_rp_ptr in
        nbr_rps fuel nbr_delete (c_next c)
    end
  end.

(** The flags of an interface whose list of neighbours lost one. *)
Definition elect (v : uvif) : Cmd Pim Z :=
  match uv_pim_neighbors v with
  | [] => ret (Z.lor (Z.ldiff (uv_flags v) VIFF_PIM_NBR) (Z.lor VIFF_NONBRS VIFF_DR))
  | n :: _ =>
      let! here := linklocal v in
      ret (if inet6_greaterthan here (nbr_address n) then Z.lor (uv_flags v) VIFF_DR else uv_flags v)
  end.

Definition delete_pim6_nbr (nbr_delete : ptr) : Cmd Pim unit :=
  let! n := nbr nbr_delete in
  do! upd_vif (nbr_vifi n) (without_nbr (nbr_id n)) ;;
  do! match nbr_jp n with None => ret tt | Some j => to_pool j end ;;
  let! v := vif (nbr_vifi n) in
  let! flags := elect v in
  do! upd_vif (nbr_vifi n) (set_uv_flags flags) ;;
  let! s := get in
  do! nbr_sources (fuel_of s) nbr_delete (srclist s) ;;
  let! s := get in
  nbr_rps (fuel_of s) nbr_delete (cand_rp_list s).

(** ** A hello message arrives *)

Definition set_pim6_nbr_param (opts : pim_hello_options) (n : pim_nbr_entry) : pim_nbr_entry :=
  set_nbr_aux_addrs (ho_addrs opts) (set_nbr_timer (ho_holdtime opts) n).

(** The neighbour before the first one whose address is not greater. *)
Fixpoint insert_nbr (new : pim_nbr_entry) (l : list pim_nbr_entry) : list pim_nbr_entry :=
  match l with
  | [] => [new]
  | n :: l' => if inet6_lessthan (nbr_address new) (nbr_address n) then n :: insert_nbr new l' else new :: l
  end.

Definition find_nbr (src : sockaddr_in6) (l : list pim_nbr_entry) : option pim_nbr_entry :=
  match List.find (fun n => negb (inet6_lessthan src (nbr_address n))) l with
  | Some n => if inet6_equal src (nbr_address n) then Some n else None
  | None => None
  end.

(** This router is not the designated one any more: sources of the interface are
    not registered. *)
Fixpoint unregister_routes (fuel : nat) (mrtentry_ptr : ptr) : Cmd Pim unit :=
  match fuel with
  | O => halt OutOfFuel
  | S fuel =>
    match mrtentry_ptr with
    | None => ret tt
    | Some _ =>
        let! s := get in
        let! m := mrt mrtentry_ptr in
        do! (if negb (has (m_flags m) MRTF_SG) then ret tt else
             do! upd mrtentry_ptr (fun m => set_m_joined_oifs (IF_CLR (reg_vif_num s) (m_joined_oifs m)) m) ;;
             let! _ := refresh mrtentry_ptr (m_incoming m) 0 in ret tt) ;;
        let! m := mrt mrtentry_ptr in
        unregister_routes fuel (m_srcnext m)
    end
  end.

Fixpoint unregister_sources (fuel : nat) (mifi : Z) (srcentry_ptr : ptr) : Cmd Pim unit :=
  match fuel with
  | O => halt OutOfFuel
  | S fuel =>
    match srcentry_ptr with
    | None => ret tt
    | Some _ =>
        let! s := get in
        let! e := src srcentry_ptr in
        do! (if negb (s_incoming e =? mifi) || bool_decide (s_upstream e <> None) then ret tt
             else unregister_routes (fuel_of s) (s_mrtlink e)) ;;
        let! e := src srcentry_ptr in
        unregister_sources fuel mifi (s_next e)
    end
  end.

(** The designated router tells the new neighbour the RP-set; it may not be it
    any more. *)
Definition greet (mifi : Z) (src_ : sockaddr_in6) : Cmd Pim unit :=
  let! v := vif mifi in
  if negb (has (uv_flags v) VIFF_DR) then ret tt else
  let! bsr_length := create_pim6_bootstrap_message in
  let! here := linklocal v in
  do! (if bsr_length =? 0 then ret tt else send_pim6 here src_ PIM_BOOTSTRAP bsr_length) ;;
  match uv_pim_neighbors v with
  | [] => halt OutOfBounds
  | n :: _ =>
      if inet6_lessthan here (nbr_address n) then
        let! s := get in
        let! first := src (srclist s) in
        do! unregister_sources (fuel_of s) mifi (s_next first) ;;
        upd_vif mifi (fun v => set_uv_flags (Z.ldiff (uv_flags v) VIFF_DR) v)
      else ret tt
  end.

(** The result of [malloc] is not looked at. *)
Definition new_nbr (mifi : Z) (src : sockaddr_in6) (opts : pim_hello_options) : Cmd Pim unit :=
  let! ok := next_malloc in
  if negb ok then halt OutOfBounds else
  let! s := get in
  do! modify (set_brk (S (brk s))) ;;
  let new := set_pim6_nbr_param opts (mkNbr (brk s) src [] mifi 0 None) in
  do! upd_vif mifi (fun v => set_uv_pim_neighbors (insert_nbr new (uv_pim_neighbors v)) v) ;;
  upd_vif mifi (fun v => set_uv_flags (Z.lor (Z.ldiff (uv_flags v) VIFF_NONBRS) VIFF_PIM_NBR) v).

Definition receive_pim6_hello (src : sockaddr_in6) (msg : list Z) (datalen : Z) : Cmd Pim bool :=
  let! s := get in
  let mifi := find_vif_direct src (uvifs s) in
  if mifi =? NO_VIF then ret false else
  let! v := vif mifi in
  if silent v then ret false else
  let! o := parse_pim6_hello msg datalen src in
  match o with
  | None => ret false
  | Some opts =>
      match find_nbr src (uv_pim_neighbors v) with
      | Some n =>
          do! (if ho_holdtime opts =? 0 then delete_pim6_nbr (Some (nbr_id n))
               else upd_nbr (Some (nbr_id n)) (set_pim6_nbr_param opts)) ;;
          ret true
      | None =>
          do! new_nbr mifi src opts ;;
          let! s := get in
          do! send_pim6_hello mifi (u16 (pim_hello_holdtime (vars s))) ;;
          do! update_rp_neighbor ;;
          do! greet mifi src ;;
          ret true
      end
  end.
