(* ===== verification/PimReg.v ===== *)
(** * PimReg: register messages (pim6_proto.c)

    The designated router of a source sends its packets to the RP in register
    messages; the RP answers with a register-stop message when it does not want
    them.  [msg] is the buffer a message was received in. *)

From stdpp Require Import base list numbers gmap.
From S2P Require Import Prelude Inet6 Pim RpMatch Vif Mrt PimMsg Oifs Rp PimJp PimBsr.
Open Scope Z_scope.

Definition PIM_MESSAGE_REGISTER_BORDER_BIT : Z := 0x80000000.
Definition PIM_MESSAGE_REGISTER_NULL_REGISTER_BIT : Z := 0x40000000.
Definition MINHLIM : Z := 1.
(** Constants of <netinet/ip6.h>, and the sizes of [pim_register_t] and of
    [struct ip6_hdr]. *)
Definition IPV6_VERSION : Z := 0x60.
Definition IPV6_VERSION_MASK : Z := 0xf0.
Definition IPPROTO_NONE : Z := 59.
Definition sizeof_register : Z := 4.
Definition sizeof_ip6_hdr : Z := 40.

(** The members of the IPv6 header at [p] that are read. *)
Record ip6_hdr := mkIp6 { ip6_vfc : Z; ip6_plen : Z; ip6_src : list Z; ip6_dst : list Z }.
Definition get_ip6 (b : list Z) (p : Z) : option ip6_hdr :=
  vfc ← rd b p; '(plen, _) ← GET_HOSTSHORT b (p + 4); s ← slice b (p + 8) 16; d ← slice b (p + 24) 16;
  Some (mkIp6 vfc plen s d).

(** The data behind the PIM header of the send buffer. *)
Definition send_data (data : list Z) : Cmd Pim unit :=
  let! s := get in
  chk! b := store (pim6_send_buf (vars s)) sizeof_pim data in
  upd_vars (set_pim6_send_buf b).

(** An address of a message that came in by the interface [v]. *)
Definition scoped (v : uvif) (a : list Z) : sockaddr_in6 := mkSa (inet6_uvif2scopeid (mkSa 0 a) v) a.

Section Code.
(** [junk]: what new memory holds. *)
Context (junk : ptr).

(** ** Register-stop *)

Definition register_stop_message (group source : list Z) (buf : list Z) : option cursor :=
  c ← PUT_EGADDR6 group SINGLE_GRP_MSK6LEN 0 (buf, sizeof_pim); PUT_EUADDR6 source c.

Definition send_pim6_register_stop (reg_src reg_dst inner_grp inner_src : sockaddr_in6) : Cmd Pim unit :=
  let! s := get in
  chk! c := register_stop_message (sin6_addr inner_grp) (sin6_addr inner_src) (pim6_send_buf (vars s)) in
  do! upd_vars (set_pim6_send_buf c.1) ;;
  send_pim6 reg_src reg_dst PIM_REGISTER_STOP (c.2 - sizeof_pim).

(** Half the timeout and a random part. *)
Definition suppression_time (timeout random : Z) : Z := u16 (timeout / 2 + random mod (timeout + 1)).

Definition receive_pim6_register_stop (reg_src reg_dst : sockaddr_in6) (msg : list Z) (datalen : Z) : Cmd Pim bool :=
  chk! (encod_grp, p) := GET_EGADDR6 msg sizeof_pim in
  chk! (encod_unisrc, _) := GET_EUADDR6 msg p in
  let! s := get in
  let mifi := find_vif_direct_local (mkSa 0 (unicast_addr encod_unisrc)) (uvifs s) in
  if mifi =? NO_VIF then ret false else
  let! v := vif mifi in
  let! mrtentry_ptr := find_route junk (Some (scoped v (unicast_addr encod_unisrc))) (Some (scoped v (enc_addr encod_grp)))
                         MRTF_SG false in
  match mrtentry_ptr with
  | None => ret false
  | Some _ =>
      let! from_rp := check_mrtentry_rp mrtentry_ptr reg_src in
      if negb from_rp then ret false else
      let! r := RANDOM in
      do! upd mrtentry_ptr (set_m_rs_timer (suppression_time (pim_register_suppression_timeout (vars s)) r)) ;;
      let! m := mrt mrtentry_ptr in
      let! _ := change_interfaces mrtentry_ptr (m_incoming m) (m_joined_oifs m) (IF_SET (reg_vif_num s) (m_pruned_oifs m))
                  (m_leaves m) (m_asserted_oifs m) 0 in
      ret true
  end.

(** ** A register message arrives *)

(** An (S,G) entry for the source: stop when its packets come another way, or
    nobody wants them. *)
Definition register_sg (mrtentry_ptr : ptr) (border null_register : bool) (reg_src reg_dst inner_src inner_grp : sockaddr_in6) : Cmd Pim unit :=
  let! s := get in
  do! upd mrtentry_ptr (set_m_timer (pim_data_timeout (vars s))) ;;
  let! m := mrt mrtentry_ptr in
  if has (m_flags m) MRTF_SPT then send_pim6_register_stop reg_dst reg_src inner_grp inner_src
  else if null_register then ret tt else
  let! oifs := calc_oifs mrtentry_ptr in
  if IF_ISEMPTY oifs && (m_incoming m =? reg_vif_num s) then send_pim6_register_stop reg_dst reg_src inner_grp inner_src
  else if border && negb (inet6_equal (m_pmbr_addr m) reg_src) then send_pim6_register_stop reg_dst reg_src inner_grp inner_src
  else ret tt.

(** A border router sent it: an (S,G) entry is made. *)
Definition register_border (reg_src inner_src inner_grp : sockaddr_in6) : Cmd Pim unit :=
  let! p := find_route junk (Some inner_src) (Some inner_grp) MRTF_SG true in
  match p with
  | None => ret tt
  | Some _ =>
      let! s := get in
      upd p (fun m => set_m_jp_timer 0 (set_m_timer (pim_data_timeout (vars s))
        (flag_off (Z.lor MRTF_SPT MRTF_NEW) (set_m_pmbr_addr reg_src m))))
  end.

Definition register_wc (mrtentry_ptr : ptr) (null_register : bool) (reg_src reg_dst inner_src inner_grp : sockaddr_in6) : Cmd Pim bool :=
  let! oifs := calc_oifs mrtentry_ptr in
  if IF_ISEMPTY oifs then
    do! send_pim6_register_stop reg_dst reg_src inner_grp sockaddr6_any ;; ret false
  else if null_register then ret true else
  do! add_kernel_cache mrtentry_ptr inner_src inner_grp 0 ;;
  let! m := mrt mrtentry_ptr in
  do! k_chg_mfc inner_src inner_grp (m_incoming m) (m_oifs m) ;;
  ret true.

Definition register_pmbr (mrtentry_ptr : ptr) (inner_src inner_grp : sockaddr_in6) : Cmd Pim bool :=
  let! p := find_route junk None (Some inner_grp) MRTF_WC true in
  match p with
  | None => ret false
  | Some _ =>
      let! m2 := mrt p in
      do! (if has (m_flags m2) MRTF_NEW then
             let! m := mrt mrtentry_ptr in
             do! upd p (flag_off MRTF_NEW) ;; upd p (set_m_timer (m_timer m))
           else ret tt) ;;
      do! add_kernel_cache mrtentry_ptr inner_src inner_grp 0 ;;
      let! m := mrt mrtentry_ptr in
      do! k_chg_mfc inner_src inner_grp (m_incoming m) (m_oifs m) ;;
      ret true
  end.

Definition receive_pim6_register (reg_src reg_dst : sockaddr_in6) (msg : list Z) (datalen : Z) : Cmd Pim bool :=
  if decide (sizeof_pim + sizeof_register + sizeof_ip6_hdr > datalen) then ret false else
  chk! (reg_flags, p) := GET_HOSTLONG msg sizeof_pim in
  let border := has reg_flags PIM_MESSAGE_REGISTER_BORDER_BIT in
  let null_register := has reg_flags PIM_MESSAGE_REGISTER_NULL_REGISTER_BIT in
  chk! ip := get_ip6 msg p in
  if negb (Z.land (ip6_vfc ip) IPV6_VERSION_MASK =? IPV6_VERSION) then ret false
  else if IN6_IS_ADDR_MC_NODELOCAL (ip6_dst ip) || IN6_IS_ADDR_MC_LINKLOCAL (ip6_dst ip) then ret false else
  let inner_src := mkSa 0 (ip6_src ip) in
  let inner_grp := mkSa 0 (ip6_dst ip) in
  let! p := find_route junk (Some inner_src) (Some inner_grp) (Z.lor MRTF_SG (Z.lor MRTF_WC MRTF_PMBR)) false in
  match p with
  | None => do! send_pim6_register_stop reg_dst reg_src inner_grp inner_src ;; ret true
  | Some _ =>
      let! s := get in
      let! my_rp := (if negb (inet6_equal (my_cand_rp_address (vars s)) reg_dst) then ret false
                     else check_mrtentry_rp p (my_cand_rp_address (vars s))) in
      if negb my_rp then do! send_pim6_register_stop reg_dst reg_src inner_grp inner_src ;; ret true else
      let! m := mrt p in
      if has (m_flags m) MRTF_SG then
        do! register_sg p border null_register reg_src reg_dst inner_src inner_grp ;; ret true
      else
      do! (if has (m_flags m) (Z.lor MRTF_WC MRTF_PMBR) && border then register_border reg_src inner_src inner_grp else ret tt) ;;
      let! m := mrt p in
      if has (m_flags m) MRTF_WC then register_wc p null_register reg_src reg_dst inner_src inner_grp
      else if has (m_flags m) MRTF_PMBR && negb null_register then register_pmbr p inner_src inner_grp
      else do! send_pim6_register_stop reg_dst reg_src inner_grp inner_src ;; ret true
  end.

(** ** Sending *)

(** A new (S,G) entry: the join toward the RP is sent soon. *)
Definition new_source (mrtentry_ptr : ptr) : Cmd Pim unit :=
  do! upd mrtentry_ptr (fun m => set_m_rs_timer 0 (flag_off MRTF_NEW m)) ;;
  let! m := mrt mrtentry_ptr in
  let! g := grp (m_group m) in
  let! mrtentry_ptr2 := match g_grp_route g with Some _ => ret (g_grp_route g) | None => rp_route (m_group m) end in
  upd_if mrtentry_ptr2 (set_m_jp_timer 0).

(** The packet goes to the RP behind a header without flags. *)
Definition encapsulate (ip6 : list Z) (mrtentry_ptr : ptr) : Cmd Pim unit :=
  chk! (plen, _) := GET_HOSTSHORT ip6 4 in
  let pktlen := plen + sizeof_ip6_hdr in
  chk! packet := slice ip6 0 pktlen in
  do! send_data ([0; 0; 0; 0] ++ packet) ;;
  let! s := get in
  let! m := mrt mrtentry_ptr in
  let! g := grp (m_group m) in
  chk! reg_src := max_global_address (uvifs s) in
  send_pim6 reg_src (g_rpaddr g) PIM_REGISTER (pktlen + sizeof_register).

(** [pkt]: the buffer the packet of the source is in. *)
Definition send_pim6_register (pkt : list Z) : Cmd Pim bool :=
  chk! ip6 := get_ip6 pkt 0 in
  let source := mkSa 0 (ip6_src ip6) in
  let group := mkSa 0 (ip6_dst ip6) in
  let! s := get in
  let mifi := find_vif_direct_local source (uvifs s) in
  if mifi =? NO_VIF then ret false else
  let! v := vif mifi in
  if negb (has (uv_flags v) VIFF_DR) then ret false else
  let! rpentry_ptr := rp_match group in
  match rpentry_ptr with
  | None => ret false
  | Some _ =>
      let! e := src rpentry_ptr in
      if negb (local_address (s_address e) (uvifs s) =? NO_VIF) then ret false else
      let! p := find_route junk (Some source) (Some group) MRTF_SG true in
      match p with
      | None => ret false
      | Some _ =>
          let! m := mrt p in
          do! (if has (m_flags m) MRTF_NEW then new_source p else ret tt) ;;
          do! upd p (set_m_timer (pim_data_timeout (vars s))) ;;
          let! m := mrt p in
          do! (if decide (m_rs_timer m <= 0) then encapsulate pkt p else ret tt) ;;
          ret true
      end
  end.

(** The header of a packet without payload. *)
Definition null_register_data (source group : list Z) : list Z :=
  be32 PIM_MESSAGE_REGISTER_NULL_REGISTER_BIT ++ [0x60; 0; 0; 0; 0; 0; IPPROTO_NONE; MINHLIM] ++ source ++ group.

Definition send_pim6_null_register (mrtentry_ptr : ptr) : Cmd Pim bool :=
  let! m := mrt mrtentry_ptr in
  let! e := src (m_source m) in
  let! s := get in
  if find_vif_direct_local (s_address e) (uvifs s) =? NO_VIF then ret false else
  let! g := grp (m_group m) in
  do! send_data (null_register_data (sin6_addr (s_address e)) (sin6_addr (g_group g))) ;;
  chk! reg_source := max_global_address (uvifs s) in
  do! send_pim6 reg_source (g_rpaddr g) PIM_REGISTER (sizeof_register + sizeof_ip6_hdr) ;;
  ret true.
End Code.
