(* ===== verification/PimJoin.v ===== *)
(** * PimJoin: join/prune messages arrive (pim6_proto.c)

    A downstream neighbour asks for groups and sources with joins and takes them
    back with prunes.  The router the message is for changes its routes; another
    router of the network that hears it puts off its own message for the same
    upstream neighbour, or sends a join against a prune soon.  [msg] is the
    buffer the message was received in. *)

From stdpp Require Import base list numbers gmap.
From S2P Require Import Prelude Inet6 Pim RpMatch Vif Mrt PimMsg Oifs Rp PimJp PimBsr PimReg.
Open Scope Z_scope.

(** 4.5 seconds, in tenths. *)
Definition random_delay_tenths : Z := 45.
Definition PIM6_JOIN_PRUNE_MINLEN : Z := 4 + PIM6_ENCODE_UNI_ADDR_LEN + 4.

(** ** Loops over lists *)

Section Loops.
Context (f : ptr -> Cmd Pim unit).

(** The entries of a group. *)
Fixpoint for_srcs (fuel : nat) (p : ptr) : Cmd Pim unit :=
  match fuel with
  | O => halt OutOfFuel
  | S fuel => match p with None => ret tt | Some _ => do! f p ;; let! m := mrt p in for_srcs fuel (m_grpnext m) end
  end.

(** The groups of an entry of the RP-set. *)
Fixpoint for_grps (fuel : nat) (p : ptr) : Cmd Pim unit :=
  match fuel with
  | O => halt OutOfFuel
  | S fuel => match p with None => ret tt | Some _ => do! f p ;; let! g := grp p in for_grps fuel (g_rpnext g) end
  end.

(** The prefixes of an RP. *)
Fixpoint for_rp_grps (fuel : nat) (p : ptr) : Cmd Pim unit :=
  match fuel with
  | O => halt OutOfFuel
  | S fuel => match p with None => ret tt | Some _ => do! f p ;; let! r := rpg p in for_rp_grps fuel (rp_grp_next r) end
  end.
End Loops.

Definition all_srcs (f : ptr -> Cmd Pim unit) (p : ptr) : Cmd Pim unit := let! s := get in for_srcs f (fuel_of s) p.
Definition all_grps (f : ptr -> Cmd Pim unit) (p : ptr) : Cmd Pim unit := let! s := get in for_grps f (fuel_of s) p.
Definition all_rp_grps (f : ptr -> Cmd Pim unit) (p : ptr) : Cmd Pim unit := let! s := get in for_rp_grps f (fuel_of s) p.

(** [count] sources of a message. *)
Fixpoint each_src (count : nat) (f : encod_addr -> Cmd Pim unit) (msg : list Z) (data_ptr : Z) : Cmd Pim Z :=
  match count with
  | O => ret data_ptr
  | S count => chk! (e, p) := GET_ESADDR6 msg data_ptr in do! f e ;; each_src count f msg p
  end.

(** ** [join_or_prune]: what this router wants of a neighbour for an entry *)

(** The address of the RP of the entry's group. *)
Definition route_rp_address (mrtentry_ptr : ptr) : Cmd Pim sockaddr_in6 :=
  let! m := mrt mrtentry_ptr in
  let! g := grp (m_group m) in
  let! r := rpg (g_active_rp_grp g) in
  let! c := crp (rg_rp r) in
  let! e := src (c_rpentry c) in
  ret (s_address e).

(** A prune of an (S,G) entry toward the RP, where the way to the source is
    another. *)
Definition rp_prune (m : mrtentry) (upstream_router : ptr) : Cmd Pim Z :=
  let! g := grp (m_group m) in
  match g_active_rp_grp g with
  | None => ret PIM_ACTION_NOTHING
  | Some _ =>
      let! mrtentry_grp := match g_grp_route g with Some _ => ret (g_grp_route g) | None => rp_route (m_group m) end in
      match mrtentry_grp with
      | None => ret PIM_ACTION_NOTHING
      | Some _ =>
          let! mg := mrt mrtentry_grp in
          if negb (bool_decide (m_upstream mg = upstream_router)) then ret PIM_ACTION_NOTHING
          else if negb (has (m_flags m) MRTF_RP) && has (m_flags m) MRTF_SPT then ret PIM_ACTION_PRUNE
          else ret PIM_ACTION_NOTHING
      end
  end.

Definition join_or_prune (mrtentry_ptr upstream_router : ptr) : Cmd Pim Z :=
  match mrtentry_ptr, upstream_router with
  | None, _ | _, None => ret PIM_ACTION_NOTHING
  | Some _, Some _ =>
      let! entry_oifs := calc_oifs mrtentry_ptr in
      let! m := mrt mrtentry_ptr in
      if has (m_flags m) (Z.lor MRTF_PMBR MRTF_WC) then
        if negb (bool_decide (upstream_router = m_upstream m)) then ret PIM_ACTION_NOTHING
        else if IF_ISEMPTY entry_oifs then
          let! v := vif (m_incoming m) in
          if negb (has (uv_flags v) VIFF_DR) then ret PIM_ACTION_PRUNE
          else ret (if IF_ISSET (m_incoming m) (m_leaves m) then PIM_ACTION_JOIN else PIM_ACTION_PRUNE)
        else ret PIM_ACTION_JOIN
      else if has (m_flags m) MRTF_SG then
        if bool_decide (m_upstream m = upstream_router) && negb (has (m_flags m) MRTF_RP) then
          if IF_ISEMPTY entry_oifs then
            let! g := grp (m_group m) in
            let! s := get in
            ret (if bool_decide (g_active_rp_grp g <> None) && inet6_equal (g_rpaddr g) (my_cand_rp_address (vars s))
                 then PIM_ACTION_NOTHING else PIM_ACTION_PRUNE)
          else ret PIM_ACTION_JOIN
        else if bool_decide (m_upstream m = upstream_router) && IF_ISEMPTY entry_oifs then ret PIM_ACTION_PRUNE
        else rp_prune m upstream_router
      else ret PIM_ACTION_NOTHING
  end.

(** ** Hearing a message for another router *)

(** The timer of an entry is put off: one and up to one half period. *)
Definition put_off (p : ptr) : Cmd Pim unit :=
  let! s := get in
  let period := pim_join_prune_period (vars s) in
  let! r := RANDOM in
  if period =? 0 then halt OutOfBounds else
  let jp_value := u16 (period + (r mod period) / 2) in
  let! m := mrt p in
  if decide (m_jp_timer m < jp_value) then upd p (set_m_jp_timer jp_value) else ret tt.

(** A join is sent soon; the timer of [p] decides. *)
Definition soon (p : ptr) : Cmd Pim unit :=
  let! r := RANDOM in
  let jp_value := (r mod random_delay_tenths) / 10 in
  let! m := mrt p in
  if decide (m_jp_timer m > jp_value) then upd p (set_m_jp_timer jp_value) else ret tt.

(** Is the sender's address greater than this router's? *)
Definition sender_greater (src : sockaddr_in6) (v : uvif) : Cmd Pim bool :=
  let! here := linklocal v in ret (inet6_greaterthan src here).

(** A join was heard. *)
Definition suppress_join (p : ptr) (holdtime : Z) (src : sockaddr_in6) (v : uvif) : Cmd Pim unit :=
  let! m := mrt p in
  if decide (m_jp_timer m > holdtime) then ret tt
  else if m_jp_timer m =? holdtime then
    let! greater := sender_greater src v in if greater : bool then ret tt else put_off p
  else put_off p.

(** A prune was heard, [my_action] is what this router wants. *)
Definition answer_prune (p : ptr) (my_action holdtime : Z) (src : sockaddr_in6) (v : uvif) : Cmd Pim unit :=
  if my_action =? PIM_ACTION_PRUNE then
    let! m := mrt p in
    if decide (m_jp_timer m < holdtime) then put_off p
    else if m_jp_timer m =? holdtime then
      let! greater := sender_greater src v in if greater : bool then put_off p else ret tt
    else ret tt
  else if my_action =? PIM_ACTION_JOIN then soon p
  else ret tt.

(** A source of a message that may be looked at: its address, and whether both
    the RP and the WC flag are there.  The mask is computed and not used. *)
Definition is_wc_rp (e : encod_addr) : bool := has (ea_flags e) USADDR_RP_BIT && has (ea_flags e) USADDR_WC_BIT.
Definition plain (e : encod_addr) : bool := negb (has (ea_flags e) (Z.lor USADDR_WC_BIT USADDR_RP_BIT)).

Section Code.
(** [junk]: what new memory holds; [v], number [mifi], is the interface the
    message came in by, [src_] its sender. *)
Context (junk : ptr) (msg : list Z) (mifi : Z) (v : uvif) (src_ : sockaddr_in6).

Definition heard (f : sockaddr_in6 -> bool -> Cmd Pim unit) (e : encod_addr) : Cmd Pim unit :=
  let source := scoped v (enc_addr e) in
  if negb (inet6_valid_host source) || bool_decide (masklen e > 128) then ret tt else
  chk! s_mask := MASKLEN_TO_MASK6 (masklen e) in
  f source (is_wc_rp e).

(** (star,star,RP) joins. *)
Definition heard_rp_join (upstream_router : ptr) (holdtime : Z) (source : sockaddr_in6) (wc_rp : bool) : Cmd Pim unit :=
  if negb wc_rp then ret tt else
  let! rpentry_ptr := rp_find source in
  match rpentry_ptr with
  | None => ret tt
  | Some _ =>
      let! e := src rpentry_ptr in
      let! my_action := join_or_prune (s_mrtlink e) upstream_router in
      if negb (my_action =? PIM_ACTION_JOIN) then ret tt else suppress_join (s_mrtlink e) holdtime src_ v
  end.

(** Routes of a group this router wants: a join soon, by the timer of the
    route. *)
Definition wanted_soon (upstream_router p : ptr) : Cmd Pim unit :=
  let! my_action := join_or_prune p upstream_router in
  if my_action =? PIM_ACTION_JOIN then soon p else ret tt.

(** (star,star,RP) prunes, and the groups of the RP's first prefix. *)
Definition heard_rp_prune (upstream_router : ptr) (holdtime : Z) (source : sockaddr_in6) (wc_rp : bool) : Cmd Pim unit :=
  if negb wc_rp then ret tt else
  let! rpentry_ptr := rp_find source in
  match rpentry_ptr with
  | None => ret tt
  | Some _ =>
      let! e := src rpentry_ptr in
      let! my_action := join_or_prune (s_mrtlink e) upstream_router in
      do! answer_prune (s_mrtlink e) my_action holdtime src_ v ;;
      let! c := crp (s_cand_rp e) in
      let! r := rpg (c_rp_grp_next c) in
      all_grps (fun grpentry_ptr =>
        let! g := grp grpentry_ptr in
        do! wanted_soon upstream_router (g_grp_route g) ;;
        all_srcs (wanted_soon upstream_router) (g_mrtlink g)) (rg_grplink r)
  end.

(** (star,G) and (S,G) joins. *)
Definition heard_join (upstream_router : ptr) (holdtime : Z) (group source : sockaddr_in6) (wc_rp : bool) : Cmd Pim unit :=
  let! p := (if wc_rp then find_route junk (Some sockaddr6_any) (Some group) MRTF_WC false
             else find_route junk (Some source) (Some group) MRTF_SG false) in
  match p with
  | None => ret tt
  | Some _ =>
      let! my_action := join_or_prune p upstream_router in
      if negb (my_action =? PIM_ACTION_JOIN) then ret tt else
      let! same_rp := (if wc_rp then let! a := route_rp_address p in ret (inet6_equal source a) else ret true) in
      if negb same_rp then ret tt else suppress_join p holdtime src_ v
  end.

(** Prunes.  For the (S,G) entries of a pruned group it is the timer of the
    (star,G) entry that is set. *)
Definition heard_prune (upstream_router : ptr) (holdtime : Z) (group source : sockaddr_in6) (wc_rp : bool) : Cmd Pim unit :=
  if wc_rp then
    let! rpentry_ptr := rp_match group in
    let! same_rp := match rpentry_ptr with
                    | None => ret false
                    | Some _ => let! e := src rpentry_ptr in ret (inet6_equal (s_address e) source)
                    end in
    if negb same_rp then ret tt else
    let! p := find_route junk (Some sockaddr6_any) (Some group) MRTF_WC false in
    match p with
    | None => ret tt
    | Some _ =>
        let! my_action := join_or_prune p upstream_router in
        do! answer_prune p my_action holdtime src_ v ;;
        let! m := mrt p in
        let! g := grp (m_group m) in
        all_srcs (fun mrtentry_srcs =>
          let! my_action := join_or_prune mrtentry_srcs upstream_router in
          if my_action =? PIM_ACTION_JOIN then soon p else ret tt) (g_mrtlink g)
    end
  else
    let! p := find_route junk (Some source) (Some group) MRTF_SG false in
    match p with
    | None => ret tt
    | Some _ =>
        let! my_action := join_or_prune p upstream_router in
        answer_prune p my_action holdtime src_ v
    end.

(** Is the group that of the (star,star,RP) entries? *)
Definition star_star (group : sockaddr_in6) (mlen : Z) : bool := inet6_equal group sockaddr6_d && (mlen =? STAR_STAR_RP_MSK6LEN).

(** A group and its numbers of joins and prunes. *)
Definition get_group (data_ptr : Z) : option (encod_addr * Z * Z * Z) :=
  '(g, p) ← GET_EGADDR6 msg data_ptr;
  '(joins, p) ← GET_HOSTSHORT msg p;
  '(prunes, p) ← GET_HOSTSHORT msg p;
  Some (g, joins, prunes, p).

(** Behind a group with a mask that is too long its sources are read as
    groups. *)
Fixpoint heard_groups (num_groups : nat) (upstream_router : ptr) (holdtime data_ptr : Z) : Cmd Pim unit :=
  match num_groups with
  | O => ret tt
  | S num_groups =>
      chk! (g, joins, prunes, p) := get_group data_ptr in
      if decide (masklen g > 128) then heard_groups num_groups upstream_router holdtime p else
      chk! g_mask := MASKLEN_TO_MASK6 (masklen g) in
      let group := scoped v (enc_addr g) in
      if negb (IN6_IS_ADDR_MULTICAST (sin6_addr group))
      then heard_groups num_groups upstream_router holdtime (p + (joins + prunes) * sizeof_esaddr)
      else
        let all := star_star group (masklen g) in
        let! p := each_src (Z.to_nat joins) (heard
                    (if all then heard_rp_join upstream_router holdtime else heard_join upstream_router holdtime group)) msg p in
        let! p := each_src (Z.to_nat prunes) (heard
                    (if all then heard_rp_prune upstream_router holdtime else heard_prune upstream_router holdtime group)) msg p in
        heard_groups num_groups upstream_router holdtime p
  end.

(** ** Changing the routes *)

Definition refresh_same (p : ptr) : Cmd Pim unit :=
  let! m := mrt p in let! _ := refresh p (m_incoming m) 0 in ret tt.

Definition set_vif_timer (x : Z) (p : ptr) : Cmd Pim unit :=
  let! m := mrt p in
  chk! ts := store (m_vif_timers m) mifi [x] in
  upd p (set_m_vif_timers ts).
Definition set_vif_delay (x : Z) (p : ptr) : Cmd Pim unit :=
  let! m := mrt p in
  chk! ts := store (m_vif_deletion_delay m) mifi [x] in
  upd p (set_m_vif_deletion_delay ts).

(** The timer of the interface: zero, or lowered to its delay so that another
    router has time to join. *)
Definition lower_timer (p : ptr) : Cmd Pim unit :=
  if has (uv_flags v) VIFF_POINT_TO_POINT then set_vif_timer 0 p else
  let! m := mrt p in
  chk! t := rd (m_vif_timers m) mifi in
  chk! d := rd (m_vif_deletion_delay m) mifi in
  if decide (t > d) then set_vif_timer d p else ret tt.

(** The interface is pruned; [lost]: the bits that are set in the asserted
    ones. *)
Definition prune_oif (lost : Z -> Z) (p : ptr) : Cmd Pim unit :=
  do! upd p (fun m => set_m_asserted_oifs (lost (m_asserted_oifs m)) (set_m_pruned_oifs (IF_SET mifi (m_pruned_oifs m))
        (set_m_joined_oifs (IF_CLR mifi (m_joined_oifs m)) m))) ;;
  refresh_same p.

(** It is pruned when its time is over. *)
Definition prune_when_over (lost : Z -> Z) (p : ptr) : Cmd Pim unit :=
  do! lower_timer p ;;
  let! m := mrt p in
  chk! t := rd (m_vif_timers m) mifi in
  if decide (t <= 0) then prune_oif lost p else ret tt.

(** The interface is joined for [holdtime]. *)
Definition join_oif (holdtime : Z) (p : ptr) : Cmd Pim unit :=
  do! upd p (fun m => set_m_asserted_oifs (IF_CLR mifi (m_asserted_oifs m)) (set_m_pruned_oifs (IF_CLR mifi (m_pruned_oifs m))
        (set_m_joined_oifs (IF_SET mifi (m_joined_oifs m)) m))) ;;
  let! m := mrt p in
  chk! t := rd (m_vif_timers m) mifi in
  do! (if decide (t < holdtime) then do! set_vif_timer holdtime p ;; set_vif_delay (holdtime / 3) p else ret tt) ;;
  do! (if decide (m_timer m < holdtime) then upd p (set_m_timer holdtime) else ret tt) ;;
  upd p (flag_off MRTF_NEW).

Definition clear_pruned (p : ptr) : Cmd Pim unit :=
  upd p (fun m => set_m_pruned_oifs (IF_CLR mifi (m_pruned_oifs m)) m).

(** ** A message for this router *)

(** Do the groups and sources fit in the [datalen] bytes that are left? *)
Fixpoint groups_fit (num_groups : nat) (data_ptr datalen : Z) : option bool :=
  match num_groups with
  | O => Some true
  | S num_groups =>
      if decide (datalen < PIM6_ENCODE_GRP_ADDR_LEN + 4) then Some false else
      let datalen := datalen - (PIM6_ENCODE_GRP_ADDR_LEN + 4) in
      '(joins, p) ← GET_HOSTSHORT msg (data_ptr + PIM6_ENCODE_GRP_ADDR_LEN);
      '(prunes, p) ← GET_HOSTSHORT msg p;
      let srclen := (joins + prunes) * sizeof_esaddr in
      if decide (datalen < srclen) then Some false else groups_fit num_groups (p + srclen) (datalen - srclen)
  end.

(** A (star,star,RP) join: the prunes of the interface are taken back in the
    routes of all groups of the RP, without telling the kernel. *)
Definition clear_rp (rpentry_ptr : ptr) : Cmd Pim unit :=
  let! e := src rpentry_ptr in
  let! c := crp (s_cand_rp e) in
  all_rp_grps (fun rp_grp_entry_ptr =>
    let! r := rpg rp_grp_entry_ptr in
    all_grps (fun grpentry_ptr =>
      let! g := grp grpentry_ptr in
      do! match g_grp_route g with None => ret tt | Some _ => clear_pruned (g_grp_route g) end ;;
      all_srcs clear_pruned (g_mrtlink g)) (rg_grplink r)) (c_rp_grp_next c).

(** All of them; [rpentry_ptr] is left at what the last one named. *)
Fixpoint clear_rps (joins : nat) (rpentry_ptr : ptr) (data_ptr : Z) : Cmd Pim (ptr * Z) :=
  match joins with
  | O => ret (rpentry_ptr, data_ptr)
  | S joins =>
      chk! (e, p) := GET_ESADDR6 msg data_ptr in
      let! rpentry_ptr := rp_find (mkSa 0 (enc_addr e)) in
      do! match rpentry_ptr with None => ret tt | Some _ => clear_rp rpentry_ptr end ;;
      clear_rps joins rpentry_ptr p
  end.

(** The answer: was there such a group, and [rpentry_ptr]. *)
Fixpoint find_star_star (num_groups : nat) (data_ptr : Z) (star_star_rp_found : bool) (rpentry_ptr : ptr) : Cmd Pim (bool * ptr) :=
  match num_groups with
  | O => ret (star_star_rp_found, rpentry_ptr)
  | S num_groups =>
      chk! (g, joins, prunes, p) := get_group data_ptr in
      if negb (star_star (scoped v (enc_addr g)) (masklen g))
      then find_star_star num_groups (p + (joins + prunes) * sizeof_esaddr) star_star_rp_found rpentry_ptr
      else
        let! r := clear_rps (Z.to_nat joins) rpentry_ptr p in
        find_star_star num_groups (r.2 + prunes * sizeof_esaddr) true r.1
  end.

(** The (star,G) joins among the [joins] sources: with the group's own RP the prunes of
    its sources are taken back; with another RP the answer is how many sources
    are left, and the group is passed over. *)
Fixpoint scan_joins (joins : nat) (rpentry_ptr : ptr) (group : sockaddr_in6) (data_ptr : Z) : Cmd Pim (option (nat * Z)) :=
  match joins with
  | O => ret None
  | S joins =>
      chk! (e, p) := GET_ESADDR6 msg data_ptr in
      if negb (is_wc_rp e) then scan_joins joins rpentry_ptr group p else
      let! rp := src rpentry_ptr in
      if negb (inet6_equal (s_address rp) (scoped v (enc_addr e))) then ret (Some (joins, p)) else
      let! q := find_route junk (Some sockaddr6_any) (Some group) MRTF_WC false in
      match q with
      | None => ret None
      | Some _ =>
          let! m := mrt q in
          let! g := grp (m_group m) in
          do! all_srcs clear_pruned (g_mrtlink g) ;;
          ret None
      end
  end.

(** A prune of a source, toward the source or toward the RP. *)
Definition prune_sg (group source : sockaddr_in6) : Cmd Pim unit :=
  let! p := find_route junk (Some source) (Some group) MRTF_SG false in
  match p with None => ret tt | Some _ => prune_when_over id p end.

Definition prune_sg_rp (holdtime : Z) (group source : sockaddr_in6) : Cmd Pim unit :=
  let! p := find_route junk (Some source) (Some group) MRTF_SG false in
  match p with
  | Some _ => do! upd p (set_m_timer holdtime) ;; prune_when_over id p
  | None =>
      let! p := find_route junk None (Some group) (Z.lor MRTF_WC MRTF_PMBR) false in
      match p with
      | None => ret tt
      | Some _ =>
          let! p := find_route junk (Some source) (Some group) (Z.lor MRTF_SG MRTF_RP) true in
          match p with
          | None => ret tt
          | Some _ =>
              do! upd p (flag_off MRTF_NEW) ;;
              do! set_vif_timer 0 p ;;
              do! upd p (set_m_timer holdtime) ;;
              prune_oif id p
          end
      end
  end.

(** A prune of the whole group. *)
Definition prune_wc (group source : sockaddr_in6) : Cmd Pim unit :=
  let! p := find_route junk None (Some group) (Z.lor MRTF_WC MRTF_PMBR) false in
  match p with
  | None => ret tt
  | Some _ =>
      let! m := mrt p in
      if has (m_flags m) MRTF_WC then
        let! a := route_rp_address p in
        if negb (inet6_equal a source) then ret tt else prune_when_over id p
      else
        let! e := src (m_source m) in
        if negb (inet6_equal (s_address e) source) then ret tt else
        let! p := find_route junk None (Some group) MRTF_WC true in
        match p with
        | None => ret tt
        | Some _ =>
            do! upd p (flag_off MRTF_NEW) ;;
            do! set_vif_timer 0 p ;;
            prune_oif id p
        end
  end.

Definition process_prune (holdtime : Z) (group : sockaddr_in6) (e : encod_addr) : Cmd Pim unit :=
  let source := scoped v (enc_addr e) in
  if negb (inet6_valid_host source) then ret tt
  else if plain e then prune_sg group source
  else if has (ea_flags e) USADDR_RP_BIT then
    if has (ea_flags e) USADDR_WC_BIT then prune_wc group source else prune_sg_rp holdtime group source
  else ret tt.

Definition process_join (holdtime : Z) (group : sockaddr_in6) (e : encod_addr) : Cmd Pim unit :=
  let source := scoped v (enc_addr e) in
  if negb (inet6_valid_host source) then ret tt else
  chk! s_mask := MASKLEN_TO_MASK6 (masklen e) in
  if is_wc_rp e then
    let! p := find_route junk None (Some group) MRTF_WC true in
    match p with
    | None => ret tt
    | Some _ =>
        do! join_oif holdtime p ;;
        do! refresh_same p ;;
        let! m := mrt p in
        let! g := grp (m_group m) in
        all_srcs refresh_same (g_mrtlink g)
    end
  else if plain e then
    let! s := get in
    if mifi =? get_iif source s then ret tt else
    let! p := find_route junk (Some source) (Some group) MRTF_SG true in
    match p with
    | None => ret tt
    | Some _ =>
        do! join_oif holdtime p ;;
        let! m := mrt p in
        let! e := src (m_source m) in
        let! _ := refresh p (s_incoming e) 0 in ret tt
    end
  else ret tt.

(** The groups one after the other: the scan of the joins, the prunes, the
    joins.  For a group of the SSM range [rpentry_ptr] stays what it was. *)
Fixpoint process_groups (num_groups : nat) (rpentry_ptr : ptr) (holdtime data_ptr : Z) : Cmd Pim unit :=
  match num_groups with
  | O => ret tt
  | S num_groups =>
      chk! (g, joins, prunes, p) := get_group data_ptr in
      let group := scoped v (enc_addr g) in
      let next := p + (joins + prunes) * sizeof_esaddr in
      if negb (IN6_IS_ADDR_MULTICAST (sin6_addr group)) || star_star group (masklen g)
      then process_groups num_groups rpentry_ptr holdtime next else
      let! s := get in
      let! rpentry_ptr := (if SSMGROUP s group then ret rpentry_ptr else rp_match group) in
      if negb (SSMGROUP s group) && bool_decide (rpentry_ptr = None) then process_groups num_groups rpentry_ptr holdtime next else
      let! other := scan_joins (Z.to_nat joins) rpentry_ptr group p in
      match other with
      | Some (rest, q) => process_groups num_groups rpentry_ptr holdtime (q + (Z.of_nat rest + prunes) * sizeof_esaddr)
      | None =>
          let! _ := each_src (Z.to_nat prunes) (process_prune holdtime group) msg (p + joins * sizeof_esaddr) in
          let! q := each_src (Z.to_nat joins) (process_join holdtime group) msg p in
          process_groups num_groups rpentry_ptr holdtime (q + prunes * sizeof_esaddr)
      end
  end.

(** (star,star,RP) joins and prunes. *)
Definition join_rp (holdtime : Z) (e : encod_addr) : Cmd Pim unit :=
  let source := scoped v (enc_addr e) in
  if negb (inet6_valid_host source) then ret tt else
  chk! s_mask := MASKLEN_TO_MASK6 (masklen e) in
  let! p := find_route junk (Some source) None MRTF_PMBR true in
  match p with
  | None => ret tt
  | Some _ =>
      do! join_oif holdtime p ;;
      do! refresh_same p ;;
      let! m := mrt p in
      let! e := src (m_source m) in
      let! c := crp (s_cand_rp e) in
      all_rp_grps (fun rp_grp_entry_ptr =>
        let! r := rpg rp_grp_entry_ptr in
        all_grps (fun grpentry_ptr =>
          let! g := grp grpentry_ptr in
          match g_grp_route g with
          | None => ret tt
          | Some _ =>
              do! refresh_same (g_grp_route g) ;;
              let! g := grp grpentry_ptr in
              all_srcs refresh_same (g_mrtlink g)
          end) (rg_grplink r)) (c_rp_grp_next c)
  end.

Definition prune_rp (e : encod_addr) : Cmd Pim unit :=
  let source := scoped v (enc_addr e) in
  if negb (inet6_valid_host source) then ret tt else
  chk! s_mask := MASKLEN_TO_MASK6 (masklen e) in
  let! p := find_route junk (Some source) None MRTF_PMBR false in
  match p with
  | None => ret tt
  | Some _ => prune_when_over (IF_SET mifi) p
  end.

Fixpoint process_star_star (num_groups : nat) (holdtime data_ptr : Z) : Cmd Pim unit :=
  match num_groups with
  | O => ret tt
  | S num_groups =>
      chk! (g, joins, prunes, p) := get_group data_ptr in
      if negb (star_star (scoped v (enc_addr g)) (masklen g))
      then process_star_star num_groups holdtime (p + (joins + prunes) * sizeof_esaddr)
      else
        let! p := each_src (Z.to_nat joins) (join_rp holdtime) msg p in
        let! p := each_src (Z.to_nat prunes) prune_rp msg p in
        process_star_star num_groups holdtime p
  end.

(** What a message for this router does. *)
Definition process_join_prune (num_groups : nat) (holdtime data_ptr : Z) : Cmd Pim unit :=
  let! r := find_star_star num_groups data_ptr false None in
  do! process_groups num_groups r.2 holdtime data_ptr ;;
  if r.1 : bool then process_star_star num_groups holdtime data_ptr else ret tt.
End Code.

Definition receive_pim6_join_prune (junk : ptr) (src dst : sockaddr_in6) (msg : list Z) (datalen : Z) : Cmd Pim bool :=
  let! s := get in
  let mifi := find_vif_direct src (uvifs s) in
  if mifi =? NO_VIF then ret false else
  let! v := vif mifi in
  if has (uv_flags v) (Z.lor VIFF_DOWN (Z.lor VIFF_DISABLED (Z.lor VIFF_NONBRS MIFF_REGISTER))) then ret false
  else if decide (datalen < PIM6_JOIN_PRUNE_MINLEN) then ret false else
  chk! (uni_target_addr, p) := GET_EUADDR6 msg sizeof_pim in
  chk! (_, p) := GET_BYTE msg p in
  chk! (num_groups, p) := GET_BYTE msg p in
  if num_groups =? 0 then ret false else
  chk! (holdtime, p) := GET_HOSTSHORT msg p in
  let target := scoped v (unicast_addr uni_target_addr) in
  let num_groups := Z.to_nat num_groups in
  chk! fit := groups_fit msg num_groups p (datalen - PIM6_JOIN_PRUNE_MINLEN) in
  if negb fit then ret false
  else if negb (inet6_localif_address target v) && negb (IN6_IS_ADDR_UNSPECIFIED (unicast_addr uni_target_addr)) then
    let! upstream_router := find_pim6_nbr target in
    match upstream_router with
    | None => ret false
    | Some _ => do! heard_groups junk msg v src num_groups upstream_router holdtime p ;; ret true
    end
  else do! process_join_prune junk msg mifi v num_groups holdtime p ;; ret true.
