(* ===== verification/PimAssert.v ===== *)
(** * PimAssert: assert messages (pim6_proto.c)

    Two routers that forward the same packets to a network settle by assert
    messages which of them goes on: the one with the smaller preference, the
    smaller metric, or the greater address. *)

From stdpp Require Import base list numbers gmap.
From S2P Require Import Prelude Inet6 Pim RpMatch Vif Mrt PimMsg Oifs Rp PimJp PimBsr PimReg.
Open Scope Z_scope.

Definition PIM_ASSERT_RPT_BIT : Z := 0x80000000.
Definition MRTF_ASSERTED : Z := 0x1000.

(** Does the local router win? *)
Definition compare_metrics (local_preference local_metric : Z) (local_address : sockaddr_in6)
    (remote_preference remote_metric : Z) (remote_address : sockaddr_in6) : bool :=
  if decide (remote_preference > local_preference) then true
  else if decide (remote_preference < local_preference) then false
  else if decide (remote_metric > local_metric) then true
  else if decide (remote_metric < local_metric) then false
  else inet6_greaterthan local_address remote_address.

(** ** Sending *)

(** Preference and metric of an entry; toward the RP with the RPT bit. *)
Definition rpt_preference (m : mrtentry) : Z :=
  if has (m_flags m) MRTF_RP then Z.lor (m_preference m) PIM_ASSERT_RPT_BIT else m_preference m.

Definition assert_message (group source : list Z) (preference metric : Z) (buf : list Z) : option cursor :=
  c ← PUT_EGADDR6 group SINGLE_GRP_MSK6LEN 0 (buf, sizeof_pim);
  c ← PUT_EUADDR6 source c;
  c ← PUT_HOSTLONG preference c;
  PUT_HOSTLONG metric c.

(** The source entry that belongs to the route is looked up and not used. *)
Definition send_pim6_assert (source group : sockaddr_in6) (mifi : Z) (mrtentry_ptr : ptr) : Cmd Pim bool :=
  let! v := vif mifi in
  if has (uv_flags v) MIFF_REGISTER then ret false else
  let! m := mrt mrtentry_ptr in
  do! (if negb (has (m_flags m) MRTF_PMBR) && has (m_flags m) MRTF_RP then
         let! _ := rp_route (m_group m) in ret tt
       else ret tt) ;;
  let! s := get in
  chk! c := assert_message (sin6_addr group) (sin6_addr source) (rpt_preference m) (m_metric m) (pim6_send_buf (vars s)) in
  do! upd_vars (set_pim6_send_buf c.1) ;;
  let! from := linklocal v in
  do! send_pim6 from allpim6routers_group PIM_ASSERT (c.2 - sizeof_pim) ;;
  ret true.

(** ** Receiving *)

Record assert_msg := mkAssert { as_group : list Z; as_source : list Z; as_preference : Z; as_metric : Z }.

Definition get_assert (msg : list Z) : option assert_msg :=
  '(g, p) ← GET_EGADDR6 msg sizeof_pim;
  '(u, p) ← GET_EUADDR6 msg p;
  '(preference, p) ← GET_HOSTLONG msg p;
  '(metric, _) ← GET_HOSTLONG msg p;
  Some (mkAssert (enc_addr g) (unicast_addr u) preference metric).

Section Code.
(** [junk]: what new memory holds; [v], number [mifi], is the interface the
    message came in by, [src_] its sender. *)
Context (junk : ptr) (mifi : Z) (v : uvif) (src_ : sockaddr_in6).

(** The entry at [p], or the (star,star,RP) entry of its group's RP when the kernel
    has no cache entry for it. *)
Definition active_entry (source group : sockaddr_in6) (rptbit : bool) : Cmd Pim ptr :=
  let! p := (if rptbit then find_route junk None (Some group) (Z.lor MRTF_WC MRTF_PMBR) false
             else find_route junk (Some source) (Some group) (Z.lor MRTF_SG (Z.lor MRTF_WC MRTF_PMBR)) false) in
  match p with
  | None => ret None
  | Some _ =>
      let! m := mrt p in
      if has (m_flags m) MRTF_KERNEL_CACHE then ret p
      else if negb rptbit && has (m_flags m) MRTF_SG then
        let! g := grp (m_group m) in
        let! cached := match g_grp_route g with
                       | None => ret false
                       | Some _ => let! m2 := mrt (g_grp_route g) in ret (has (m_flags m2) MRTF_KERNEL_CACHE)
                       end in
        if cached : bool then ret (g_grp_route g) else rp_route (m_group m)
      else if has (m_flags m) MRTF_WC then rp_route (m_group m)
      else ret p
  end.

(** Does this router win with the metric of the entry [m]? *)
Definition local_wins (m : mrtentry) (preference : Z) (a : assert_msg) : Cmd Pim bool :=
  let! here := linklocal v in
  ret (compare_metrics preference (m_metric m) here (as_preference a) (as_metric a) src_).

(** The better entry that is made when the entry at [p] loses. *)
Definition better_entry (source group : sockaddr_in6) (rptbit : bool) (m : mrtentry) : Cmd Pim ptr :=
  if rptbit && has (m_flags m) MRTF_PMBR then find_route junk None (Some group) MRTF_WC true
  else if negb rptbit && has (m_flags m) (Z.lor MRTF_WC MRTF_PMBR) then find_route junk (Some source) (Some group) MRTF_SG true
  else ret None.

(** The interface is taken out of the route's. *)
Definition lose_oif (p : ptr) : Cmd Pim unit :=
  let! s := get in
  let timeout := pim_assert_timeout (vars s) in
  do! upd p (fun m => set_m_asserted_oifs (IF_SET mifi (m_asserted_oifs m)) m) ;;
  let! m := mrt p in
  do! (if decide (m_timer m < timeout) then upd p (set_m_timer timeout) else ret tt) ;;
  let! _ := refresh p (m_incoming m) 0 in ret tt.

(** On an outgoing interface of the entry at [p]. *)
Definition assert_on_oif (source group : sockaddr_in6) (a : assert_msg) (rptbit : bool) (p : ptr) : Cmd Pim bool :=
  let! m := mrt p in
  let! wins := local_wins m (rpt_preference m) a in
  if wins : bool then let! _ := send_pim6_assert source group mifi p in ret true else
  let! p2 := better_entry source group rptbit m in
  match p2 with
  | None => do! lose_oif p ;; ret false
  | Some _ =>
      let! s := get in
      do! upd p2 (fun m => set_m_timer (pim_data_timeout (vars s)) (flag_off MRTF_NEW m)) ;;
      let! m2 := mrt p2 in
      let! m := mrt p in
      let! wins := local_wins m (if has (m_flags m2) MRTF_RP then Z.lor (m_preference m) PIM_ASSERT_RPT_BIT else m_preference m) a in
      if wins : bool then let! _ := send_pim6_assert source group mifi p in ret true
      else do! lose_oif p2 ;; ret false
  end.

(** The upstream neighbour without asserts. *)
Definition original_upstream (m : mrtentry) : Cmd Pim ptr :=
  if has (m_flags m) MRTF_PMBR || negb (has (m_flags m) MRTF_RP) then let! e := src (m_source m) in ret (s_upstream e)
  else
    let! g := grp (m_group m) in
    let! r := rpg (g_active_rp_grp g) in
    let! c := crp (rg_rp r) in
    let! e := src (c_rpentry c) in
    ret (s_upstream e).

(** On the incoming interface: the upstream neighbour becomes the winner. *)
Definition assert_on_iif (a : assert_msg) (rptbit : bool) (p : ptr) : Cmd Pim unit :=
  let! m := mrt p in
  if rptbit && negb (has (m_flags m) MRTF_RP) then ret tt else
  let! n := nbr (m_upstream m) in
  if compare_metrics (rpt_preference m) (m_metric m) (nbr_address n) (as_preference a) (as_metric a) src_ then ret tt else
  do! upd p (fun m => set_m_metric (as_metric a) (set_m_preference (Z.ldiff (as_preference a) PIM_ASSERT_RPT_BIT) m)) ;;
  let! up := find_pim6_nbr src_ in
  do! upd p (set_m_upstream up) ;;
  let! original := original_upstream m in
  let! s := get in
  if bool_decide (up <> original) then
    upd p (fun m => set_m_assert_timer (pim_assert_timeout (vars s)) (flag_on MRTF_ASSERTED m))
  else upd p (flag_off MRTF_ASSERTED).
End Code.

Definition receive_pim6_assert (junk : ptr) (src dst : sockaddr_in6) (msg : list Z) (datalen : Z) : Cmd Pim bool :=
  let! s := get in
  let mifi := find_vif_direct src (uvifs s) in
  if mifi =? NO_VIF then ret false else
  let! v := vif mifi in
  if has (uv_flags v) (Z.lor VIFF_DOWN (Z.lor VIFF_DISABLED (Z.lor VIFF_NONBRS MIFF_REGISTER))) then ret false else
  chk! a := get_assert msg in
  let rptbit := has (as_preference a) PIM_ASSERT_RPT_BIT in
  let source := scoped v (as_source a) in
  let group := scoped v (as_group a) in
  let! p := active_entry junk source group rptbit in
  match p with
  | None => ret false
  | Some _ =>
      let! m := mrt p in
      if negb (has (m_flags m) MRTF_KERNEL_CACHE) then ret false
      else if IF_ISSET mifi (m_oifs m) then assert_on_oif junk mifi v src source group a rptbit p
      else
        do! (if m_incoming m =? mifi then assert_on_iif src a rptbit p else ret tt) ;;
        ret true
  end.
