(* ===== verification/PimRoute.v ===== *)
(** * PimRoute: leaves and calls of the kernel (route.c)

    Listeners on an interface come and go ([add_leaf], [delete_leaf]); the
    kernel asks for packets it has no cache entry for, tells of packets that
    came in by the wrong interface, and passes on packets for the RP
    ([process_kernel_call]). *)

From stdpp Require Import base list numbers gmap.
From S2P Require Import Prelude Inet6 Pim RpMatch Vif Mrt PimMsg Oifs Rp PimJp PimBsr PimReg PimJoin PimAssert.
Open Scope Z_scope.

(** The message of the kernel, of <netinet6/ip6_mroute.h>. *)
Record mrt6msg := mkMrt6 { im6_msgtype : Z; im6_mif : Z; im6_src : list Z; im6_dst : list Z }.
Definition MRT6MSG_NOCACHE : Z := 1.
Definition MRT6MSG_WRONGMIF : Z := 2.
Definition MRT6MSG_WHOLEPKT : Z := 3.

Section Code.
(** [junk]: what new memory holds. *)
Context (junk : ptr).

(** ** Leaves *)

(** The route of a group, in the SSM range of a source and a group. *)
Definition leaf_route (source : option sockaddr_in6) (group : sockaddr_in6) (create : bool) : Cmd Pim ptr :=
  let! s := get in
  if SSMGROUP s group then
    match source with
    | None => ret None
    | Some _ => find_route junk source (Some group) MRTF_SG create
    end
  else find_route junk (Some sockaddr6_any) (Some group) MRTF_WC create.

(** [change_interfaces] with other leaves; the outgoing interfaces before and
    after. *)
Definition change_leaves (p : ptr) (new_leaves : Z) : Cmd Pim (Z * Z) :=
  let! old_oifs := calc_oifs p in
  let! m := mrt p in
  let! _ := change_interfaces p (m_incoming m) (m_joined_oifs m) (m_pruned_oifs m) new_leaves (m_asserted_oifs m) 0 in
  let! new_oifs := calc_oifs p in
  ret (old_oifs, new_oifs).

Definition add_leaf (vifi : Z) (source : option sockaddr_in6) (group : sockaddr_in6) : Cmd Pim unit :=
  let! v := vif vifi in
  if negb (has (uv_flags v) VIFF_DR) then ret tt else
  let! p := leaf_route source group true in
  match p with
  | None => ret tt
  | Some _ =>
      let! m := mrt p in
      if IF_ISSET vifi (m_leaves m) then ret tt else
      let! oifs := change_leaves p (IF_SET vifi (m_leaves m)) in
      let! m := mrt p in
      if has (m_flags m) MRTF_NEW || IF_ISEMPTY oifs.1 && negb (IF_ISEMPTY oifs.2)
      then upd p (fun m => set_m_jp_timer 0 (flag_off MRTF_NEW m))
      else ret tt
  end.

(** An (S,G) entry of the group loses the leaf. *)
Definition unleaf (vifi : Z) (mrtentry_srcs : ptr) : Cmd Pim unit :=
  let! m := mrt mrtentry_srcs in
  let! g := grp (m_group m) in
  let! s := get in
  if SSMGROUP s (g_group g) then ret tt else
  let! _ := change_interfaces mrtentry_srcs (m_incoming m) (m_joined_oifs m) (m_pruned_oifs m) (IF_CLR vifi (m_leaves m))
              (m_asserted_oifs m) 0 in
  ret tt.

Definition delete_leaf (vifi : Z) (source : option sockaddr_in6) (group : sockaddr_in6) : Cmd Pim unit :=
  let! p := leaf_route source group false in
  match p with
  | None => ret tt
  | Some _ =>
      let! m := mrt p in
      if negb (IF_ISSET vifi (m_leaves m)) then ret tt else
      let! oifs := change_leaves p (IF_CLR vifi (m_leaves m)) in
      do! (if negb (IF_ISEMPTY oifs.1) && IF_ISEMPTY oifs.2 then upd p (set_m_jp_timer 0) else ret tt) ;;
      let! m := mrt p in
      let! g := grp (m_group m) in
      all_srcs (unleaf vifi) (g_mrtlink g)
  end.

(** ** Calls of the kernel *)

(** The (star,G) entry of the group, or the (star,star,RP) entry of its RP. *)
Definition shared_route (group : ptr) : Cmd Pim ptr :=
  let! g := grp group in
  match g_grp_route g with Some _ => ret (g_grp_route g) | None => rp_route group end.

(** Packets of an (S,G) entry come in: it may be on the shortest path. *)
Definition sg_in_use (p : ptr) : Cmd Pim unit :=
  let! s := get in
  let! m := mrt p in
  do! (if decide (m_timer m < pim_data_timeout (vars s)) then upd p (set_m_timer (pim_data_timeout (vars s))) else ret tt) ;;
  if has (m_flags m) MRTF_SPT then ret tt else
  let! mrtentry_rp := shared_route (m_group m) in
  match mrtentry_rp with
  | None => ret tt
  | Some _ =>
      let! mr := mrt mrtentry_rp in
      if negb (m_incoming m =? m_incoming mr) || bool_decide (m_upstream m <> m_upstream mr)
      then upd p (fun m => flag_off MRTF_RP (flag_on MRTF_SPT m))
      else ret tt
  end.

(** The route of a packet the kernel has no cache entry for; the designated
    router of the source makes one, with the register interface unless it is
    the RP. *)
Definition miss_route (iif : Z) (v : uvif) (source group : sockaddr_in6) : Cmd Pim ptr :=
  let! s := get in
  if has (uv_flags v) VIFF_DR && (find_vif_direct_local source (uvifs s) =? iif) then
    let! p := find_route junk (Some source) (Some group) (Z.lor MRTF_SG MRTF_1ST) true in
    match p with
    | None => ret None
    | Some _ =>
        do! upd p (flag_off MRTF_NEW) ;;
        let! m := mrt p in
        let! g := grp (m_group m) in
        let! s := get in
        do! (if inet6_equal (g_rpaddr g) (my_cand_rp_address (vars s)) then ret tt
             else upd p (fun m => set_m_joined_oifs (IF_SET (reg_vif_num s) (m_joined_oifs m)) m)) ;;
        do! refresh_same p ;;
        ret p
    end
  else find_route junk (Some source) (Some group) (Z.lor MRTF_SG (Z.lor MRTF_WC MRTF_PMBR)) false.

(** [mfc_scope]: the scope that an earlier call left in the variable
    [mfc_source]. *)
Definition process_cache_miss (mfc_scope : Z) (im : mrt6msg) : Cmd Pim unit :=
  let iif := im6_mif im in
  let! v := vif iif in
  let group := scoped v (im6_dst im) in
  let source := scoped v (im6_src im) in
  let! s := get in
  if SSMGROUP s group then ret tt
  else if IN6_IS_ADDR_MC_NODELOCAL (sin6_addr group) || IN6_IS_ADDR_MC_LINKLOCAL (sin6_addr group) then ret tt else
  let! p := miss_route iif v source group in
  match p with
  | None => ret tt
  | Some _ =>
      let! m := mrt p in
      if m_incoming m =? iif then
        if IF_ISEMPTY (m_oifs m) then ret tt else
        do! (if has (m_flags m) MRTF_SG then sg_in_use p else ret tt) ;;
        do! (if has (m_flags m) MRTF_PMBR then let! _ := src (m_source m) in ret tt else let! _ := grp (m_group m) in ret tt) ;;
        do! add_kernel_cache p source group MFC_MOVE_FORCE ;;
        let! m := mrt p in
        k_chg_mfc source group iif (m_oifs m)
      else if has (m_flags m) MRTF_SG && negb (has (m_flags m) MRTF_SPT) then
        let! mrtentry_rp := shared_route (m_group m) in
        match mrtentry_rp with
        | None => ret tt
        | Some _ =>
            let! mr := mrt mrtentry_rp in
            if negb (m_incoming mr =? iif) then ret tt else
            let mfc_source := mkSa mfc_scope (im6_src im) in
            do! add_kernel_cache mrtentry_rp mfc_source group 0 ;;
            let! mr := mrt mrtentry_rp in
            k_chg_mfc mfc_source group iif (m_oifs mr)
        end
      else ret tt
  end.

(** The packet came in by the interface toward the source: the switch to the
    shortest path is complete. *)
Definition spt_complete (iif : Z) (source group : sockaddr_in6) (p : ptr) : Cmd Pim unit :=
  do! upd p (fun m => flag_off MRTF_RP (flag_on MRTF_SPT m)) ;;
  do! add_kernel_cache p source group MFC_MOVE_FORCE ;;
  let! m := mrt p in
  do! k_chg_mfc source group iif (m_oifs m) ;;
  upd p (set_m_jp_timer 0).

Definition process_wrong_iif (im : mrt6msg) : Cmd Pim unit :=
  let group := mkSa 0 (im6_dst im) in
  let source := mkSa 0 (im6_src im) in
  let iif := im6_mif im in
  if IN6_IS_ADDR_MC_NODELOCAL (sin6_addr group) || IN6_IS_ADDR_MC_LINKLOCAL (sin6_addr group) then ret tt else
  let! v := vif iif in
  if has (uv_flags v) MIFF_REGISTER then ret tt else
  let! p := find_route junk (Some source) (Some group) (Z.lor MRTF_SG (Z.lor MRTF_WC MRTF_PMBR)) false in
  match p with
  | None => ret tt
  | Some _ =>
      let! m := mrt p in
      let! spt := (if has (m_flags m) MRTF_SG && negb (has (m_flags m) MRTF_SPT)
                   then let! e := src (m_source m) in ret (s_incoming e =? iif) else ret false) in
      if spt : bool then spt_complete iif source group p
      else if IF_ISSET iif (m_oifs m) then let! _ := send_pim6_assert source group iif p in ret tt
      else ret tt
  end.

(** [pkt]: the packet behind the message of the kernel. *)
Definition process_kernel_call (mfc_scope : Z) (im : mrt6msg) (pkt : list Z) : Cmd Pim unit :=
  if im6_msgtype im =? MRT6MSG_NOCACHE then process_cache_miss mfc_scope im
  else if im6_msgtype im =? MRT6MSG_WRONGMIF then process_wrong_iif im
  else if im6_msgtype im =? MRT6MSG_WHOLEPKT then let! _ := send_pim6_register junk pkt in ret tt
  else ret tt.

Definition switch_shortest_path (source group : option sockaddr_in6) : Cmd Pim ptr :=
  let! p := find_route junk source group MRTF_SG true in
  match p with
  | None => ret None
  | Some _ =>
      let! s := get in
      let! m := mrt p in
      do! (if has (m_flags m) MRTF_NEW then upd p (flag_off MRTF_NEW)
           else if has (m_flags m) MRTF_RP then
             let! e := src (m_source m) in
             do! upd p (fun m => set_m_upstream (s_upstream e) (set_m_incoming (s_incoming e) (flag_off MRTF_RP m))) ;;
             do! delete_mrtentry_all_kernel_cache p ;;
             refresh_same p
           else ret tt) ;;
      do! upd p (fun m => set_m_jp_timer 0 (set_m_timer (pim_data_timeout (vars s)) m)) ;;
      ret p
  end.
End Code.
