(* ===== verification/PimTimer.v ===== *)
(** * PimTimer: ageing (timer.c)

    Every few seconds the daemon counts down its timers: those of the routes and
    of their interfaces, of the RP-set, of the neighbours, and its own.  The
    joins and prunes that are due are gathered for the upstream neighbours and
    sent. *)

From stdpp Require Import base list numbers gmap.
From S2P Require Import Prelude Inet6 Pim RpMatch Vif Mrt PimMsg Oifs Rp PimJp PimBsr PimNbr PimReg PimJoin PimAssert PimRoute.
Open Scope Z_scope.

Definition TIMER_INFINITY : Z := 0xffff.
Definition UCAST_ROUTING_CHECK_INTERVAL : Z := 20.
Definition PIM_MESSAGE_HELLO_HOLDTIME_FOREVER : Z := 0xffff.

(** [TIMEOUT (timer)]: the timer after [interval], and is its time over? *)
Definition tick (interval timer : Z) : bool * Z :=
  if timer =? TIMER_INFINITY then (false, timer)
  else let t := timer - Z.min timer interval in (t =? 0, t).

(** The same for a timer in memory. *)
Definition timeout (timer : Z) (set : Z -> Cmd Pim unit) : Cmd Pim bool :=
  let! s := get in
  let '(over, t) := tick (timer_interval (vars s)) timer in
  do! set t ;;
  ret over.

Definition timeout_var (timer : Vars -> Z) (set : Z -> Vars -> Vars) : Cmd Pim bool :=
  let! s := get in timeout (timer (vars s)) (fun t => upd_vars (set t)).
Definition timeout_mrt (timer : mrtentry -> Z) (set : Z -> mrtentry -> mrtentry) (p : ptr) : Cmd Pim bool :=
  let! m := mrt p in timeout (timer m) (fun t => upd p (set t)).

(** ** [init_timers] *)

(** The two structures for old routes are values here. *)
Definition init_timers : Cmd Pim unit :=
  upd_vars (fun w =>
    let w := set_unicast_routing_timer UCAST_ROUTING_CHECK_INTERVAL (set_unicast_routing_check_interval UCAST_ROUTING_CHECK_INTERVAL w) in
    let w := if decide (pim_data_rate_check_interval w < pim_reg_rate_check_interval w)
             then set_pim_reg_rate_check_interval (pim_data_rate_check_interval w) w else w in
    set_pim_reg_rate_timer (u16 (u32 (3 * pim_reg_rate_check_interval w) / 2))
      (set_pim_data_rate_timer (u16 (u32 (3 * pim_data_rate_check_interval w) / 2)) w)).

(** ** Parts of [age_routes] *)

(** The joined interfaces of an entry whose time is over leave it; [skip]: an
    interface without a timer.  Was there one? *)
Fixpoint expire_oifs (vifis : list Z) (skip : option Z) (p : ptr) (change_flag : bool) : Cmd Pim bool :=
  match vifis with
  | [] => ret change_flag
  | vifi :: vifis =>
      let! m := mrt p in
      if negb (IF_ISSET vifi (m_joined_oifs m)) || bool_decide (skip = Some vifi) then expire_oifs vifis skip p change_flag else
      chk! t := rd (m_vif_timers m) vifi in
      let! over := timeout t (fun t => set_vif_timer vifi t p) in
      do! (if over : bool then upd p (fun m => set_m_joined_oifs (IF_CLR vifi (m_joined_oifs m)) m) else ret tt) ;;
      expire_oifs vifis skip p (change_flag || over)
  end.

(** The bytes the kernel forwarded; [None]: it has no entry. *)
Definition k_get_sg_cnt : Cmd Pim (option Z) :=
  let! s := get in
  match sg_counts (vars s) with
  | [] => ret None
  | c :: cs => do! upd_vars (set_sg_counts cs) ;; ret c
  end.

Section Code.
(** [junk]: what new memory holds. *)
Context (junk : ptr).

(** The counter has 64 bits, the variable it is kept in 32.
    A cache entry that forwarded much: a switch to the shortest path, as a
    router with leaves or as the RP. *)
Definition switch_if_busy (p : ptr) (c : kernel_cache) (bytecnt : Z) : Cmd Pim unit :=
  let! s := get in
  let! m := mrt p in
  let over limit := bool_decide (u32 (u32 (k_bytecnt c) + limit) < bytecnt) in
  if over (pim_data_rate_bytes (vars s)) && vif_forwarder (m_leaves m) (m_oifs m)
     || over (pim_reg_rate_bytes (vars s)) && (m_incoming m =? reg_vif_num s)
  then let! _ := switch_shortest_path junk (Some (k_source c)) (Some (k_group c)) in ret tt
  else ret tt.

(** The cache entries of a route: idle ones are deleted.  [rp_only]: an (S,G)
    entry switches only when it points toward the RP. *)
Fixpoint check_rates (fuel : nat) (rp_only : bool) (p kernel_cache_ptr : ptr) : Cmd Pim unit :=
  match fuel with
  | O => halt OutOfFuel
  | S fuel =>
    match kernel_cache_ptr with
    | None => ret tt
    | Some _ =>
        let! c := cache kernel_cache_ptr in
        let! count := k_get_sg_cnt in
        do! match count with
            | None => delete_single_kernel_cache p kernel_cache_ptr
            | Some bytecnt =>
                do! upd kernel_cache_ptr (set_k_bytecnt bytecnt) ;;
                if u32 (k_bytecnt c) =? bytecnt then delete_single_kernel_cache p kernel_cache_ptr else
                let! m := mrt p in
                if rp_only && negb (has (m_flags m) MRTF_RP) then ret tt else switch_if_busy p c bytecnt
            end ;;
        check_rates fuel rp_only p (k_next c)
    end
  end.

Definition check_caches (rate_flag rp_only : bool) (p : ptr) : Cmd Pim unit :=
  if negb rate_flag then ret tt else
  let! s := get in
  let! m := mrt p in
  check_rates (fuel_of s) rp_only p (m_kernel_cache m).

(** Joins and prunes for the upstream neighbour of an entry. *)
Definition add_entry (upstream : ptr) (group : sockaddr_in6) (grp_msklen : Z) (source : sockaddr_in6) (flags action : Z) : Cmd Pim unit :=
  let! s := get in
  let! _ := add_jp_entry upstream (pim_join_prune_holdtime (vars s)) group grp_msklen source SINGLE_SRC_MSK6LEN flags action in
  ret tt.

Definition restart_jp (p : ptr) : Cmd Pim unit :=
  let! s := get in upd p (set_m_jp_timer (pim_join_prune_period (vars s))).

Definition age_assert (p : ptr) : Cmd Pim unit :=
  let! m := mrt p in
  if negb (has (m_flags m) MRTF_ASSERTED) then ret tt else
  let! over := timeout_mrt m_assert_timer set_m_assert_timer p in
  if over : bool then upd p (flag_off MRTF_ASSERTED) else ret tt.

(** The end of a (star,star,RP) or (star,G) entry. *)
Definition age_entry (p : ptr) : Cmd Pim unit :=
  do! age_assert p ;;
  let! _ := timeout_mrt m_rs_timer set_m_rs_timer p in
  let! over := timeout_mrt m_timer set_m_timer p in
  let! m := mrt p in
  if over && IF_ISEMPTY (m_leaves m) then delete_mrtentry p else ret tt.

(** An entry toward the RP after its interfaces, or the RP's, have changed. *)
Definition flush_rp (changed : bool) (rpentry_ptr p : ptr) : Cmd Pim unit :=
  if negb changed then ret tt else
  let! e := src rpentry_ptr in
  let! _ := refresh p (s_incoming e) 0 in
  let! e := src rpentry_ptr in
  upd p (set_m_upstream (s_upstream e)).

Definition all_vifs : Cmd Pim (list Z) := let! s := get in ret (seqZ 0 (zlen (uvifs s))).

(** The (star,star,RP) entry; the answer is [rp_action]. *)
Definition age_rp_route (rate_flag update_rp_iif : bool) (rpentry_ptr p : ptr) : Cmd Pim Z :=
  match p with
  | None => ret PIM_ACTION_NOTHING
  | Some _ =>
      let! vifis := all_vifs in
      let! change_flag := expire_oifs vifis None p false in
      do! flush_rp (change_flag || update_rp_iif) rpentry_ptr p ;;
      do! check_caches rate_flag false p ;;
      let! over := timeout_mrt m_jp_timer set_m_jp_timer p in
      let! rp_action :=
        (if over : bool then
           let! m := mrt p in
           let! action := join_or_prune p (m_upstream m) in
           do! (if action =? PIM_ACTION_NOTHING then ret tt else
                let! e := src (m_source m) in
                add_entry (m_upstream m) sockaddr6_d STAR_STAR_RP_MSK6LEN (s_address e) (Z.lor MRTF_RP MRTF_WC) action) ;;
           do! restart_jp p ;;
           ret action
         else ret PIM_ACTION_NOTHING) in
      do! age_entry p ;;
      ret rp_action
  end.

(** Do the two actions go against each other? *)
Definition opposite (a b : Z) : bool :=
  (a =? PIM_ACTION_JOIN) && (b =? PIM_ACTION_PRUNE) || (a =? PIM_ACTION_PRUNE) && (b =? PIM_ACTION_JOIN).

(** The (star,G) entry; the answer is [grp_action]. *)
Definition age_grp_route (rate_flag update_rp_iif : bool) (rpentry_ptr : ptr) (rp_action : Z) (p : ptr) : Cmd Pim Z :=
  match p with
  | None => ret PIM_ACTION_NOTHING
  | Some _ =>
      let! vifis := all_vifs in
      let! change_flag := expire_oifs vifis None p false in
      do! flush_rp (change_flag || update_rp_iif) rpentry_ptr p ;;
      do! check_caches rate_flag false p ;;
      let! m := mrt p in
      let known := negb (rp_action =? PIM_ACTION_NOTHING) in
      let! grp_action := (if known then join_or_prune p (m_upstream m) else ret PIM_ACTION_NOTHING) in
      do! (if opposite rp_action grp_action then upd p (set_m_jp_timer 0) else ret tt) ;;
      let! over := timeout_mrt m_jp_timer set_m_jp_timer p in
      let! grp_action :=
        (if over : bool then
           let! action := (if known then ret grp_action else join_or_prune p (m_upstream m)) in
           do! (if action =? PIM_ACTION_NOTHING then ret tt else
                let! g := grp (m_group m) in
                let! e := src rpentry_ptr in
                add_entry (m_upstream m) (g_group g) SINGLE_GRP_MSK6LEN (s_address e) (Z.lor MRTF_RP MRTF_WC) action) ;;
           do! restart_jp p ;;
           ret action
         else ret grp_action) in
      do! age_entry p ;;
      ret grp_action
  end.

(** The way to the source is looked up again.  The old way of the source is
    compared with that of the entry.  [None]: there is none, and the entry is
    deleted; else, does the entry change? *)
Definition source_iif (p : ptr) : Cmd Pim (option bool) :=
  let! m := mrt p in
  let! old := src (m_source m) in
  let! found := set_incoming (m_source m) PIM_IIF_SOURCE in
  if negb found then do! delete_mrtentry p ;; ret None
  else if negb (s_incoming old =? m_incoming m) || bool_decide (s_upstream old <> m_upstream m) then
    let! e := src (m_source m) in
    do! upd p (fun m => set_m_upstream (s_upstream e) (set_m_incoming (s_incoming e) m)) ;;
    ret (Some true)
  else ret (Some false).

(** The same for an (S,G)RPbit entry and the old way [saved] of the RP. *)
Definition rp_iif (saved : Z * ptr) (rpentry_ptr p : ptr) : Cmd Pim bool :=
  let! m := mrt p in
  if bool_decide (saved.2 <> m_upstream m) || negb (saved.1 =? m_incoming m) then
    let! e := src rpentry_ptr in
    do! upd p (fun m => set_m_upstream (s_upstream e) (set_m_incoming (s_incoming e) m)) ;;
    ret true
  else ret false.

(** A join or prune of the (S,G) entry at [p]. *)
Definition add_sg (upstream p : ptr) (flags action : Z) : Cmd Pim unit :=
  let! m := mrt p in
  let! g := grp (m_group m) in
  let! e := src (m_source m) in
  add_entry upstream (g_group g) SINGLE_GRP_MSK6LEN (s_address e) flags action.

(** What of an (S,G) entry is due; [known]: the action toward the RP is
    [src_action_rp]. *)
Definition sg_joins (rpentry_ptr mrtentry_wide p : ptr) (known : bool) (src_action_rp : Z) : Cmd Pim unit :=
  let! m := mrt p in
  let! rp := src rpentry_ptr in
  let! src_action := (if negb known || bool_decide (s_upstream rp <> m_upstream m) then join_or_prune p (m_upstream m)
                      else ret src_action_rp) in
  do! (if src_action =? PIM_ACTION_NOTHING then ret tt else add_sg (m_upstream m) p (Z.land (m_flags m) MRTF_RP) src_action) ;;
  do! match mrtentry_wide with
      | None => ret tt
      | Some _ =>
          let! w := mrt mrtentry_wide in
          if bool_decide (m_upstream m = m_upstream w) then ret tt else
          let! action := (if known then ret src_action_rp else join_or_prune p (m_upstream w)) in
          if action =? PIM_ACTION_PRUNE then add_sg (m_upstream w) p MRTF_RP action else ret tt
      end ;;
  restart_jp p.

(** The register suppression of an (S,G) entry. *)
Definition age_suppression (p : ptr) : Cmd Pim unit :=
  let! m := mrt p in
  if decide (m_rs_timer m > 0) then
    let! over := timeout_mrt m_rs_timer set_m_rs_timer p in
    let! s := get in
    if over : bool then
      let! _ := change_interfaces p (m_incoming m) (m_joined_oifs m) (IF_CLR (reg_vif_num s) (m_pruned_oifs m)) (m_leaves m)
                  (m_asserted_oifs m) 0 in
      ret tt
    else
      let! m := mrt p in
      if decide (m_rs_timer m <= pim_register_probe_time (vars s)) then let! _ := send_pim6_null_register p in ret tt
      else ret tt
  else ret tt.

(** Is an (S,G) entry deleted when its time is over?  Its leaves are none, or
    those of the (star,G) entry. *)
Definition age_sg_timer (p : ptr) : Cmd Pim unit :=
  let! over := timeout_mrt m_timer set_m_timer p in
  if negb over then ret tt else
  let! m := mrt p in
  if IF_ISEMPTY (m_leaves m) then delete_mrtentry p else
  let! g := grp (m_group m) in
  match g_grp_route g with
  | None => ret tt
  | Some _ =>
      let! mg := mrt (g_grp_route g) in
      if IF_ISEMPTY (vif_xor (vif_and (m_leaves mg) (m_leaves m)) (m_leaves m)) then delete_mrtentry p else ret tt
  end.

(** An (S,G) entry of a group with an RP. *)
Definition age_sg (ucast_flag rate_flag : bool) (saved : Z * ptr) (rpentry_ptr mrtentry_rp : ptr) (rp_action grp_action : Z) (p : ptr) :
    Cmd Pim unit :=
  let! s := get in
  let! vifis := all_vifs in
  let! change_flag := expire_oifs vifis (Some (reg_vif_num s)) p false in
  let! m := mrt p in
  let! update_src_iif :=
    (if negb ucast_flag then ret (Some false)
     else if negb (has (m_flags m) MRTF_RP) then source_iif p
     else let! u := rp_iif saved rpentry_ptr p in ret (Some u)) in
  match update_src_iif with
  | None => ret tt
  | Some u =>
      do! (if change_flag || u then refresh_same p else ret tt) ;;
      do! check_caches rate_flag true p ;;
      let! m := mrt p in
      let! g := grp (m_group m) in
      let mrtentry_wide := match g_grp_route g with Some _ => g_grp_route g | None => mrtentry_rp end in
      let known := negb (rp_action =? PIM_ACTION_NOTHING) || negb (grp_action =? PIM_ACTION_NOTHING) in
      let! rp := src rpentry_ptr in
      let! src_action_rp := (if known then join_or_prune p (s_upstream rp) else ret PIM_ACTION_NOTHING) in
      do! (if known && (opposite src_action_rp grp_action || opposite src_action_rp rp_action)
           then upd p (set_m_jp_timer 0) else ret tt) ;;
      let! over := timeout_mrt m_jp_timer set_m_jp_timer p in
      do! (if over : bool then sg_joins rpentry_ptr mrtentry_wide p known src_action_rp else ret tt) ;;
      do! age_assert p ;;
      do! age_suppression p ;;
      age_sg_timer p
  end.

(** The entries of a group; the next one is read before. *)
Fixpoint age_srcs (fuel : nat) (f : ptr -> Cmd Pim unit) (p : ptr) : Cmd Pim unit :=
  match fuel with
  | O => halt OutOfFuel
  | S fuel => match p with None => ret tt | Some _ => let! m := mrt p in do! f p ;; age_srcs fuel f (m_grpnext m) end
  end.

(** The groups of an entry of the RP-set. *)
Fixpoint age_groups (fuel : nat) (ucast_flag rate_flag update_rp_iif : bool) (saved : Z * ptr) (rpentry_ptr mrtentry_rp : ptr)
    (rp_action : Z) (grpentry_ptr : ptr) : Cmd Pim unit :=
  match fuel with
  | O => halt OutOfFuel
  | S fuel =>
    match grpentry_ptr with
    | None => ret tt
    | Some _ =>
        let! s := get in
        let! g := grp grpentry_ptr in
        let! grp_action := age_grp_route rate_flag update_rp_iif rpentry_ptr rp_action (g_grp_route g) in
        do! age_srcs (fuel_of s) (age_sg ucast_flag rate_flag saved rpentry_ptr mrtentry_rp rp_action grp_action) (g_mrtlink g) ;;
        age_groups fuel ucast_flag rate_flag update_rp_iif saved rpentry_ptr mrtentry_rp rp_action (g_rpnext g)
    end
  end.

(** The RP's way is looked up again: has it changed? *)
Definition rp_moved (ucast_flag : bool) (rpentry_ptr : ptr) : Cmd Pim bool :=
  let! s := get in
  let! old := src rpentry_ptr in
  if negb ucast_flag || inet6_equal (s_address old) (my_cand_rp_address (vars s)) then ret false else
  let! found := set_incoming rpentry_ptr PIM_IIF_RP in
  if negb found then ret false else
  let! e := src rpentry_ptr in
  ret (bool_decide (s_upstream old <> s_upstream e) || negb (s_incoming old =? s_incoming e)).

Fixpoint age_rps (fuel : nat) (ucast_flag rate_flag : bool) (cand_rp_ptr : ptr) : Cmd Pim unit :=
  match fuel with
  | O => halt OutOfFuel
  | S fuel =>
    match cand_rp_ptr with
    | None => ret tt
    | Some _ =>
        let! c := crp cand_rp_ptr in
        let rpentry_ptr := c_rpentry c in
        let! e := src rpentry_ptr in
        let saved := (s_incoming e, s_upstream e) in
        let! update_rp_iif := rp_moved ucast_flag rpentry_ptr in
        let! e := src rpentry_ptr in
        let! rp_action := age_rp_route rate_flag update_rp_iif rpentry_ptr (s_mrtlink e) in
        let! e := src rpentry_ptr in
        do! all_rp_grps (fun rp_grp_entry_ptr =>
              let! s := get in
              let! r := rpg rp_grp_entry_ptr in
              age_groups (fuel_of s) ucast_flag rate_flag update_rp_iif saved rpentry_ptr (s_mrtlink e) rp_action (rg_grplink r))
              (c_rp_grp_next c) ;;
        let! c := crp cand_rp_ptr in
        age_rps fuel ucast_flag rate_flag (c_next c)
    end
  end.

(** An (S,G) entry of a group of the SSM range.  What the change of its
    interfaces means is told to the kernel only together with the check of the
    unicast routes. *)
Definition age_ssm (ucast_flag : bool) (p : ptr) : Cmd Pim unit :=
  let! s := get in
  let! vifis := all_vifs in
  let! change_flag := expire_oifs vifis (Some (reg_vif_num s)) p false in
  let! alive :=
    (if negb ucast_flag then ret true else
     let! u := source_iif p in
     match u with
     | None => ret false
     | Some u => do! (if change_flag || u then refresh_same p else ret tt) ;; ret true
     end) in
  if negb alive then ret tt else
  let! over := timeout_mrt m_jp_timer set_m_jp_timer p in
  do! (if over : bool then
         let! m := mrt p in
         let! src_action := join_or_prune p (m_upstream m) in
         do! (if src_action =? PIM_ACTION_NOTHING then ret tt else add_sg (m_upstream m) p (m_flags m) src_action) ;;
         restart_jp p
       else ret tt) ;;
  do! age_assert p ;;
  let! over := timeout_mrt m_timer set_m_timer p in
  let! m := mrt p in
  if over && IF_ISEMPTY (m_leaves m) then delete_mrtentry p else ret tt.

Fixpoint age_ssm_groups (fuel : nat) (ucast_flag : bool) (g : ptr) : Cmd Pim unit :=
  match fuel with
  | O => halt OutOfFuel
  | S fuel =>
    match g with
    | None => ret tt
    | Some _ =>
        let! s := get in
        let! ge := grp g in
        do! (if SSMGROUP s (g_group ge) then age_srcs (fuel_of s) (age_ssm ucast_flag) (g_mrtlink ge) else ret tt) ;;
        age_ssm_groups fuel ucast_flag (g_next ge)
    end
  end.

(** What is pending for the neighbours is sent. *)
Definition send_pending : Cmd Pim unit :=
  let! s := get in
  each_of (fun n => pack_and_send_jp6_message (Some (nbr_id n))) (concat (uv_pim_neighbors <$> uvifs s)).

(** A timer of the daemon that starts again when its time is over. *)
Definition periodic (timer interval : Vars -> Z) (set : Z -> Vars -> Vars) : Cmd Pim bool :=
  let! over := timeout_var timer set in
  do! (if over : bool then upd_vars (fun w => set (u16 (interval w)) w) else ret tt) ;;
  ret over.

Definition age_routes : Cmd Pim unit :=
  let! ucast_flag := periodic unicast_routing_timer unicast_routing_check_interval set_unicast_routing_timer in
  let! data_flag := periodic pim_data_rate_timer pim_data_rate_check_interval set_pim_data_rate_timer in
  let! reg_flag := periodic pim_reg_rate_timer pim_reg_rate_check_interval set_pim_reg_rate_timer in
  let! s := get in
  do! age_rps (fuel_of s) ucast_flag (data_flag || reg_flag) (cand_rp_list s) ;;
  let! s := get in
  let! first := grp (grplist s) in
  do! age_ssm_groups (fuel_of s) ucast_flag (g_next first) ;;
  send_pending.
End Code.

(** ** [age_misc] *)

(** The RPs of a prefix; those whose time is over are deleted. *)
Fixpoint age_mask_rps (fuel : nat) (rp_grp_entry_ptr : ptr) : Cmd Pim unit :=
  match fuel with
  | O => halt OutOfFuel
  | S fuel =>
    match rp_grp_entry_ptr with
    | None => ret tt
    | Some _ =>
        let! r := rpg rp_grp_entry_ptr in
        let! over := timeout (rg_holdtime r) (fun t => upd rp_grp_entry_ptr (set_rg_holdtime t)) in
        do! (if over : bool then delete_rp_grp_entry Used rp_grp_entry_ptr else ret tt) ;;
        age_mask_rps fuel (grp_rp_next r)
    end
  end.

Fixpoint age_masks (fuel : nat) (grp_mask_ptr : ptr) : Cmd Pim unit :=
  match fuel with
  | O => halt OutOfFuel
  | S fuel =>
    match grp_mask_ptr with
    | None => ret tt
    | Some _ =>
        let! s := get in
        let! m := gmask grp_mask_ptr in
        do! age_mask_rps (fuel_of s) (gm_grp_rp_next m) ;;
        age_masks fuel (gm_next m)
    end
  end.

(** The bootstrap timer is over: no bootstrap router is known, or this router
    sends the RP-set, or it becomes the bootstrap router. *)
Definition bootstrap_timeout : Cmd Pim unit :=
  let! s := get in
  let w := vars s in
  if negb (cand_bsr_flag w) then
    chk! m := MASKLEN_TO_MASK6 RP_DEFAULT_IPV6_HASHMASKLEN in
    upd_vars (fun w => set_pim_bootstrap_timer PIM_BOOTSTRAP_TIMEOUT (set_curr_bsr_hash_mask m
      (set_curr_bsr_address sockaddr6_any (set_curr_bsr_priority 0 (set_curr_bsr_fragment_tag 0 w)))))
  else if inet6_equal (curr_bsr_address w) (my_bsr_address w) then
    do! upd_vars (set_pim_bootstrap_timer (my_bsr_period w)) ;; send_pim6_bootstrap
  else
    let! delay := bootstrap_initial_delay in
    do! upd_vars (set_pim_bootstrap_timer delay) ;;
    let! r := RANDOM in
    upd_vars (fun w => set_curr_bsr_hash_mask (my_bsr_hash_mask w) (set_curr_bsr_address (my_bsr_address w)
      (set_curr_bsr_priority (my_bsr_priority w) (set_curr_bsr_fragment_tag (u16 r) w)))).

Definition age_misc : Cmd Pim unit :=
  let! s := get in
  do! age_masks (fuel_of s) (grp_mask_list s) ;;
  do! (if cand_rp_flag (vars s) then
         let! over := timeout_var pim_cand_rp_adv_timer set_pim_cand_rp_adv_timer in
         if over : bool then
           let! _ := send_pim6_cand_rp_adv in
           upd_vars (fun w => set_pim_cand_rp_adv_timer (my_cand_rp_adv_period w) w)
         else ret tt
       else ret tt) ;;
  let! over := timeout_var pim_bootstrap_timer set_pim_bootstrap_timer in
  if over : bool then bootstrap_timeout else ret tt.

(** ** Neighbours, of [age_vifs] *)

(** The neighbours of an interface; the next one is read before. *)
Fixpoint age_nbrs (nbrs : list pim_nbr_entry) : Cmd Pim unit :=
  match nbrs with
  | [] => ret tt
  | n :: nbrs =>
      let p := Some (nbr_id n) in
      let! n := nbr p in
      do! (if PIM_MESSAGE_HELLO_HOLDTIME_FOREVER =? nbr_timer n then ret tt else
           let! over := timeout (nbr_timer n) (fun t => upd_nbr p (set_nbr_timer t)) in
           if over : bool then delete_pim6_nbr p else ret tt) ;;
      age_nbrs nbrs
  end.

(** The neighbours and the hello messages of the interfaces. *)
Definition age_vif (vifi : Z) : Cmd Pim unit :=
  let! v := vif vifi in
  if silent v then ret tt else
  do! age_nbrs (uv_pim_neighbors v) ;;
  let! v := vif vifi in
  let! over := timeout (uv_pim_hello_timer v) (fun t => upd_vif vifi (set_uv_pim_hello_timer t)) in
  let! s := get in
  if over : bool then send_pim6_hello vifi (u16 (pim_hello_holdtime (vars s))) else ret tt.
