(* ===== verification/PimDaemon.v ===== *)
(** * PimDaemon: the messages put together (pim6.c, main.c)

    [accept_pim6] gives a message to the function for its type.  The kernel has
    looked at version and checksum before. *)

From stdpp Require Import base list numbers gmap.
From S2P Require Import Prelude Inet6 Pim Vif Mrt PimMsg Oifs Rp PimJp PimBsr PimNbr PimReg PimJoin PimAssert PimRoute PimTimer.
Open Scope Z_scope.

(** [junkp], [junk]: what new and uninitialised memory holds.  [pktinfo]: the
    destination and the interface, as the kernel told them with the message in
    the buffer [msg]. *)
Definition accept_pim6 (junkp : ptr) (junk : Z) (src : sockaddr_in6) (pktinfo : option (list Z * Z)) (msg : list Z) (pimlen : Z) :
    Cmd Pim unit :=
  if decide (pimlen < sizeof_pim) then ret tt else
  match pktinfo with
  | None => exit (-1)
  | Some (ipi6_addr, ifindex) =>
      let dst := mkSa (if IN6_IS_ADDR_LINKLOCAL ipi6_addr then ifindex else 0) ipi6_addr in
      if ifindex =? 0 then exit (-1) else
      chk! b := rd msg 0 in
      let pim_type := Z.land b 0xf in
      let result (m : Cmd Pim bool) : Cmd Pim unit := let! _ := m in ret tt in
      if pim_type =? PIM_HELLO then result (receive_pim6_hello src msg pimlen)
      else if pim_type =? PIM_REGISTER then result (receive_pim6_register junkp src dst msg pimlen)
      else if pim_type =? PIM_REGISTER_STOP then result (receive_pim6_register_stop junkp src dst msg pimlen)
      else if pim_type =? PIM_JOIN_PRUNE then result (receive_pim6_join_prune junkp src dst msg pimlen)
      else if pim_type =? PIM_BOOTSTRAP then result (receive_pim6_bootstrap junk src dst msg pimlen)
      else if pim_type =? PIM_ASSERT then result (receive_pim6_assert junkp src dst msg pimlen)
      else if pim_type =? PIM_CAND_RP_ADV then result (receive_pim6_cand_rp_adv src dst msg pimlen)
      else ret tt
  end.

(** Before it ends the daemon tells its neighbours, by a holdtime of zero. *)
Definition cleanup : Cmd Pim unit :=
  let! s := get in
  each_of (fun '(vifi, v) => if silent v then ret tt else send_pim6_hello vifi 0) (with_index (uvifs s)).
