(* ===== verification/PimJpWire.v ===== *)
(** * PimJpWire: what a join/prune message says

    [decode_jp] reads a whole join/prune message with the macros and functions
    that [receive_pim6_join_prune] reads it with; [enc_jp] is the message as
    bytes.  Reading gives back what was encoded, the receiver's test that the
    groups fit in the message holds, and its loops over the sources of a
    message are loops over the decoded lists. *)

From stdpp Require Import base list numbers gmap.
From S2P Require Import Prelude Inet6 Pim Vif Mrt PimMsg Oifs Rp PimJp PimBsr PimNbr PimReg PimJoin.
Open Scope Z_scope.

(** [get] reads [x] where the buffer holds [e]. *)
Definition reads {A} (get : list Z -> Z -> option (A * Z)) (e : list Z) (x : A) : Prop :=
  forall pre post, get (pre ++ e ++ post) (zlen pre) = Some (x, zlen (pre ++ e)).

(** [n] things one behind the other. *)
Fixpoint get_list {A} (get : list Z -> Z -> option (A * Z)) (n : nat) (buf : list Z) (cp : Z) : option (list A * Z) :=
  match n with
  | O => Some ([], cp)
  | S n => '(x, cp) ← get buf cp; '(l, cp) ← get_list get n buf cp; Some (x :: l, cp)
  end.

Lemma get_list_reads {A B} (get : list Z -> Z -> option (A * Z)) (enc : B -> list Z) (f : B -> A) l :
  Forall (fun x => reads get (enc x) (f x)) l -> reads (get_list get (length l)) (concat (enc <$> l)) (f <$> l).
Proof.
  unfold reads. induction 1 as [|x l Hx _ IH]; intros pre post; cbn.
  - by rewrite app_nil_r.
  - rewrite <- app_assoc, Hx. cbn. rewrite app_assoc, IH. cbn. by rewrite <- app_assoc.
Qed.

(** ** Groups and messages *)

(** A source: its flags and address.  All prefixes are whole addresses. *)
Definition jp_source : Type := Z * list Z.
Record jp_group_of := mkJpg { jg_group : list Z; jg_joins : list jp_source; jg_prunes : list jp_source }.
Record jp_msg := mkJpMsg { jm_neighbour : list Z; jm_holdtime : Z; jm_groups : list jp_group_of }.

Definition enc_src (x : jp_source) : list Z := enc_full x.1 x.2.
Definition enc_jp_group (g : jp_group_of) : list Z :=
  enc_full 0 (jg_group g) ++ be16 (zlen (jg_joins g)) ++ be16 (zlen (jg_prunes g)) ++
  concat (enc_src <$> jg_joins g) ++ concat (enc_src <$> jg_prunes g).
Definition enc_jp (m : jp_msg) : list Z :=
  enc_uni (jm_neighbour m) ++ [0] ++ [zlen (jm_groups m)] ++ be16 (jm_holdtime m) ++ concat (enc_jp_group <$> jm_groups m).

(** What the receiver reads. *)
Definition src_of (e : encod_addr) : jp_source := (ea_flags e, enc_addr e).
Definition read_group (buf : list Z) (cp : Z) : option (jp_group_of * Z) :=
  '(g, joins, prunes, cp) ← get_group buf cp;
  '(js, cp) ← get_list GET_ESADDR6 (Z.to_nat joins) buf cp;
  '(ps, cp) ← get_list GET_ESADDR6 (Z.to_nat prunes) buf cp;
  Some (mkJpg (enc_addr g) (src_of <$> js) (src_of <$> ps), cp).
Definition decode_jp (buf : list Z) : option jp_msg :=
  '(u, cp) ← GET_EUADDR6 buf sizeof_pim;
  '(_, cp) ← GET_BYTE buf cp;
  '(num_groups, cp) ← GET_BYTE buf cp;
  '(holdtime, cp) ← GET_HOSTSHORT buf cp;
  '(gs, _) ← get_list read_group (Z.to_nat num_groups) buf cp;
  Some (mkJpMsg (unicast_addr u) holdtime gs).

Definition src_ok (x : jp_source) : Prop := length x.2 = 16%nat.
Record group_ok (g : jp_group_of) : Prop := {
  go_group : length (jg_group g) = 16%nat;
  go_joins : Forall src_ok (jg_joins g) /\ zlen (jg_joins g) < 65536;
  go_prunes : Forall src_ok (jg_prunes g) /\ zlen (jg_prunes g) < 65536
}.
Record msg_ok (m : jp_msg) : Prop := {
  mo_neighbour : length (jm_neighbour m) = 16%nat;
  mo_holdtime : 0 <= jm_holdtime m < 65536;
  mo_groups : Forall group_ok (jm_groups m) /\ zlen (jm_groups m) < 256
}.

(** ** Reading gives back what was encoded *)

Lemma zlen_srcs l : Forall src_ok l -> zlen (concat (enc_src <$> l)) = sizeof_esaddr * zlen l.
Proof.
  induction 1 as [|x l H _ IH]; [done|]. rewrite fmap_cons. cbn [concat]. rewrite zlen_app, zlen_cons, IH. unfold enc_src. rewrite zlen_enc_full by done.
  unfold sizeof_esaddr. lia.
Qed.

Lemma zlen_jp_group g : group_ok g -> zlen (enc_jp_group g) = sizeof_jp_grp + sizeof_esaddr * (zlen (jg_joins g) + zlen (jg_prunes g)).
Proof.
  intros [Hg [Hj _] [Hp _]]. unfold enc_jp_group. rewrite !zlen_app, !zlen_srcs, zlen_enc_full, !zlen_be16 by done.
  unfold sizeof_jp_grp. lia.
Qed.

Lemma srcs_read l : Forall src_ok l ->
  reads (get_list GET_ESADDR6 (length l)) (concat (enc_src <$> l)) ((fun x => mkEnc ADDRF_IPv6 ADDRT_IPv6 x.1 128 x.2) <$> l).
Proof.
  intros H. apply get_list_reads. eapply Forall_impl; [exact H|]. intros x E pre post. by apply GET_EGADDR6_at.
Qed.

Lemma src_of_list (l : list jp_source) : src_of <$> ((fun x : jp_source => mkEnc ADDRF_IPv6 ADDRT_IPv6 x.1 128 x.2) <$> l) = l.
Proof. induction l as [|[? ?] l IH]; cbn; by f_equal. Qed.

Lemma zlen_nat {A} (l : list A) : Z.to_nat (zlen l) = length l.
Proof. unfold zlen. lia. Qed.

Lemma get_group_at g pre post : group_ok g ->
  get_group (pre ++ enc_jp_group g ++ post) (zlen pre) =
  Some (mkEnc ADDRF_IPv6 ADDRT_IPv6 0 128 (jg_group g), zlen (jg_joins g), zlen (jg_prunes g), zlen pre + 24).
Proof.
  intros [Hg [Hj Lj] [Hp Lp]]. unfold get_group, enc_jp_group. rewrite <- !app_assoc.
  pose proof (zlen_nonneg (jg_joins g)). pose proof (zlen_nonneg (jg_prunes g)).
  rewrite GET_EGADDR6_at by done. cbn [mbind option_bind].
  rewrite (app_assoc pre), GET_HOSTSHORT_at by lia. cbn [mbind option_bind].
  rewrite (app_assoc _ (be16 (zlen (jg_joins g)))), GET_HOSTSHORT_at by lia. cbn [mbind option_bind].
  rewrite !zlen_app, zlen_enc_full, !zlen_be16 by done. do 2 f_equal. lia.
Qed.

Lemma group_reads g : group_ok g -> reads read_group (enc_jp_group g) g.
Proof.
  intros OK pre post. unfold read_group. rewrite get_group_at by done. cbn [mbind option_bind].
  pose proof (zlen_jp_group g OK) as Z. destruct OK as [Hg [Hj Lj] [Hp Lp]].
  set (h := enc_full 0 (jg_group g) ++ be16 (zlen (jg_joins g)) ++ be16 (zlen (jg_prunes g))).
  assert (Zh : zlen h = 24) by (unfold h; rewrite !zlen_app, zlen_enc_full, !zlen_be16 by done; lia).
  replace (enc_jp_group g) with (h ++ concat (enc_src <$> jg_joins g) ++ concat (enc_src <$> jg_prunes g))
    by (unfold h, enc_jp_group; by rewrite <- !app_assoc).
  replace (zlen pre + 24) with (zlen (pre ++ h)) by (rewrite zlen_app; lia).
  rewrite !zlen_nat, <- !app_assoc, (app_assoc pre h), srcs_read by done. cbn [mbind option_bind].
  rewrite (app_assoc _ (concat (enc_src <$> jg_joins g))), srcs_read by done. cbn [mbind option_bind].
  rewrite !src_of_list, <- !app_assoc. by destruct g.
Qed.

(** A decoded message is the one that was encoded, wherever it came from. *)
Lemma decode_enc_jp m hdr post : msg_ok m -> zlen hdr = sizeof_pim -> decode_jp (hdr ++ enc_jp m ++ post) = Some m.
Proof.
  intros [Hn Hh [Hg Lg]] Z. unfold decode_jp, enc_jp. rewrite <- Z, <- !app_assoc, GET_EUADDR6_at by done. cbn [mbind option_bind].
  rewrite (app_assoc hdr), GET_BYTE_at. cbn [mbind option_bind]. rewrite (app_assoc _ [0]), GET_BYTE_at. cbn [mbind option_bind].
  rewrite (app_assoc _ [zlen _]), GET_HOSTSHORT_at by done. cbn [mbind option_bind].
  rewrite (app_assoc _ (be16 _)), zlen_nat, (get_list_reads read_group enc_jp_group id).
  - cbn. rewrite list_fmap_id. by destruct m.
  - eapply Forall_impl; [exact Hg|]. intros g OK. by apply group_reads.
Qed.

(** ** The receiver *)

Lemma groups_fit_enc gs : forall pre post datalen, Forall group_ok gs -> zlen (concat (enc_jp_group <$> gs)) <= datalen ->
  groups_fit (pre ++ concat (enc_jp_group <$> gs) ++ post) (length gs) (zlen pre) datalen = Some true.
Proof.
  induction gs as [|g gs IH]; intros pre post datalen F L; [done|]. apply Forall_cons in F as [OK F]. cbn [length groups_fit].
  cbn [fmap list_fmap concat] in *. change (list_fmap _ _ enc_jp_group gs) with (enc_jp_group <$> gs) in *.
  rewrite zlen_app, zlen_jp_group in L by done. pose proof (zlen_nonneg (concat (enc_jp_group <$> gs))).
  pose proof (zlen_nonneg (jg_joins g)). pose proof (zlen_nonneg (jg_prunes g)).
  unfold sizeof_jp_grp, sizeof_esaddr in *.
  pose proof (get_group_at g pre (concat (enc_jp_group <$> gs) ++ post) OK) as E. unfold get_group in E.
  rewrite decide_False by (unfold PIM6_ENCODE_GRP_ADDR_LEN; lia).
  rewrite <- app_assoc. destruct (GET_EGADDR6 _ (zlen pre)) as [[ge p]|] eqn:G; [|done]. cbn [mbind option_bind] in E.
  assert (p = zlen pre + PIM6_ENCODE_GRP_ADDR_LEN) as ->.
  { unfold GET_EGADDR6 in G. repeat (apply bind_Some in G as (? & _ & G)). by injection G. }
  destruct (GET_HOSTSHORT _ _) as [[j p]|]; [|done]. cbn [mbind option_bind] in *.
  destruct (GET_HOSTSHORT _ _) as [[k p']|]; [|done]. cbn [mbind option_bind] in *. injection E as -> -> -> ->.
  rewrite decide_False by (unfold PIM6_ENCODE_GRP_ADDR_LEN; lia).
  pose proof (IH (pre ++ enc_jp_group g) post) as IH'. rewrite <- !app_assoc, zlen_app, zlen_jp_group in IH' by done.
  unfold sizeof_jp_grp, sizeof_esaddr in IH'.
  replace (zlen pre + 24 + _) with (zlen pre + (24 + 20 * (zlen (jg_joins g) + zlen (jg_prunes g)))) by lia.
  apply IH'; [done|]. unfold PIM6_ENCODE_GRP_ADDR_LEN. lia.
Qed.

(** The loop over the sources of a message runs over the decoded ones. *)
Lemma each_src_list f msg n : forall es cp cp' s, get_list GET_ESADDR6 n msg cp = Some (es, cp') ->
  each_src n f msg cp s = bind (each_of f es) (fun _ => ret cp') s.
Proof.
  induction n as [|n IH]; intros es cp cp' s E; cbn in E; [by injection E as <- ->|].
  apply bind_Some in E as ([e p] & E & E'). apply bind_Some in E' as ([l p'] & E2 & [= <- <-]).
  cbn [each_src each_of]. rewrite E, bind_assoc. cbn [of_option]. rewrite bind_of_Some. apply bind_ext. intros [] s'. by apply IH.
Qed.
