(* ===== verification/PimJpOk.v ===== *)
(** * PimJpOk: join/prune messages say what was asked for

    Entries are added for a neighbour and the message is packed and sent: every
    entry is in one of the messages, once, and nothing else is.  The working
    area holds groups that are packed and a current group, [area]; every
    operation is proved on this view of it. *)

From stdpp Require Import base list numbers gmap.
From S2P Require Import Prelude Inet6 Pim Vif Mrt PimMsg RpMatch PimSend PimBsr PimJp PimJoin PimJpWire.
Open Scope Z_scope.

(** ** What is asked for *)

Record jp_item := mkItem { ji_group : list Z; ji_source : list Z; ji_flags : Z; ji_action : Z }.

(** The entries of a group. *)
Definition group_items (g : jp_group_of) : list jp_item :=
  ((fun x => mkItem (jg_group g) x.2 x.1 PIM_ACTION_JOIN) <$> jg_joins g) ++
  ((fun x => mkItem (jg_group g) x.2 x.1 PIM_ACTION_PRUNE) <$> jg_prunes g).
Definition msg_items (m : jp_msg) : list jp_item := concat (group_items <$> jm_groups m).

(** An entry as the callers of [add_jp_entry] give it: the addresses with their
    interfaces, the flags of the route. *)
Record jp_ask := mkAsk { ja_group : sockaddr_in6; ja_source : sockaddr_in6; ja_flags : Z; ja_action : Z }.
Definition ask_item (a : jp_ask) : jp_item :=
  mkItem (sin6_addr (ja_group a)) (sin6_addr (ja_source a)) (esaddr_flags (ja_flags a)) (ja_action a).
Record ask_ok (a : jp_ask) : Prop := {
  ak_group : addr_ok (sin6_addr (ja_group a)) /\ IN6_IS_ADDR_MULTICAST (sin6_addr (ja_group a)) = true;
  ak_source : addr_ok (sin6_addr (ja_source a));
  ak_action : ja_action a = PIM_ACTION_JOIN \/ ja_action a = PIM_ACTION_PRUNE
}.

Definition add_jp_entries (pim_nbr : ptr) (holdtime : Z) : list jp_ask -> Cmd Pim unit :=
  foldr (fun a k =>
    do! add_jp_entry pim_nbr holdtime (ja_group a) SINGLE_GRP_MSK6LEN (ja_source a) SINGLE_SRC_MSK6LEN (ja_flags a) (ja_action a) ;; k)
    (ret tt).

(** ** Commands that return *)

Definition does {S A} (m : Cmd S A) (Q : A -> S -> Prop) (s : S) : Prop :=
  match m s with Ok a s' => Q a s' | _ => False end.

Lemma does_bind {S A B} (m : Cmd S A) (k : A -> Cmd S B) Q s : does m (fun a => does (k a) Q) s -> does (bind m k) Q s.
Proof. unfold does, bind. by destruct (m s). Qed.
Lemma does_mono {S A} (m : Cmd S A) (Q Q' : A -> S -> Prop) s : does m Q s -> (forall a s', Q a s' -> Q' a s') -> does m Q' s.
Proof. unfold does. destruct (m s); auto. Qed.
Lemma does_ret {S A} (a : A) (Q : A -> S -> Prop) s : Q a s -> does (ret a) Q s.
Proof. done. Qed.
Lemma does_opt {S A B} (o : option A) a (k : A -> Cmd S B) Q s : o = Some a -> does (k a) Q s -> does (bind (of_option o) k) Q s.
Proof. by intros ->. Qed.
Lemma does_get {S B} (k : S -> Cmd S B) Q s : does (k s) Q s -> does (bind get k) Q s.
Proof. done. Qed.
Lemma does_Ok {S A B} (m : Cmd S A) (k : A -> Cmd S B) Q s a s' : m s = Ok a s' -> does (k a) Q s' -> does (bind m k) Q s.
Proof. intros E H. apply does_bind. unfold does at 1. by rewrite E. Qed.
Lemma does_ext {S A} (m m' : Cmd S A) Q s : m s = m' s -> does m' Q s -> does m Q s.
Proof. unfold does. by intros ->. Qed.
Lemma does_then {S A B} (m : Cmd S A) (k : A -> Cmd S B) R Q s :
  does m R s -> (forall a s', R a s' -> does (k a) Q s') -> does (bind m k) Q s.
Proof. intros H K. apply does_bind. by eapply does_mono. Qed.

(** ** The view of the daemon *)

Definition JP_SIZE : Z := MAX_JP_MESSAGE_SIZE + sizeof_jp_grp + 2 * sizeof_esaddr.
Definition LIST_SIZE : Z := MAX_JOIN_LIST_SIZE + sizeof_esaddr.

(** No (star,star,RP) entries, and the buffers have their sizes. *)
Record area_sized (j : build_jp_message) : Prop := {
  as_message : zlen (jp_message j) = JP_SIZE;
  as_join : zlen (join_list j) = LIST_SIZE;
  as_prune : zlen (prune_list j) = LIST_SIZE;
  as_rp : rp_list_join_size j = 0 /\ rp_list_join_number j = 0 /\ rp_list_prune_size j = 0 /\ rp_list_prune_number j = 0
}.

Definition pool_ok (w : Vars) : Prop :=
  build_jp_message_pool_counter w = zlen (build_jp_message_pool w) /\ Forall area_sized (build_jp_message_pool w).

Definition nbr_by_id (i : nat) (vs : list uvif) : option pim_nbr_entry :=
  List.find (fun n => bool_decide (nbr_id n = i)) (concat (uv_pim_neighbors <$> vs)).

(** An area from the pool. *)
Lemma reused_sized j : area_sized j -> area_sized (reused j).
Proof. by intros [? ? ? ?]. Qed.

Section Sending.
Context (i : nat) (address : list Z) (src : sockaddr_in6) (hold : Z).
Context (Haddr : length address = 16%nat) (Hhold : 0 <= hold < 65536).
Context (Hsrc : IN6_IS_ADDR_LINKLOCAL (sin6_addr src) = true).

(** Neighbour [i] has the area [jp], [out] was sent. *)
Record view (jp : option build_jp_message) (out : list pim_packet) (s : Pim) : Prop := {
  vw_nbr : exists n v, nbr_by_id i (uvifs s) = Some n /\ sin6_addr (nbr_address n) = address /\ nbr_jp n = jp /\
             rd (uvifs s) (nbr_vifi n) = Some v /\ pa_addr <$> uv_linklocal v = Some src;
  vw_pool : pool_ok (vars s);
  vw_mallocs : mallocs s = [];
  vw_buf : sizeof_pim + JP_SIZE <= zlen (pim6_send_buf (vars s));
  vw_sent : sent (vars s) = out
}.

Lemma find_map_nbr f vs n : nbr_by_id i vs = Some n -> nbr_id (f n) = nbr_id n -> nbr_by_id i (map_nbr i f <$> vs) = Some (f n).
Proof.
  intros E F. unfold nbr_by_id in *.
  assert (concat (uv_pim_neighbors <$> (map_nbr i f <$> vs)) =
          (fun n => if bool_decide (nbr_id n = i) then f n else n) <$> concat (uv_pim_neighbors <$> vs)) as ->.
  { clear. induction vs as [|v vs IH]; [done|]. rewrite !fmap_cons. cbn [concat]. by rewrite fmap_app, <- IH. }
  induction (concat _) as [|m l IH]; [done|]. cbn in *. destruct (bool_decide (nbr_id m = i)) eqn:D.
  - injection E as ->. by rewrite F, D.
  - rewrite D. by apply IH.
Qed.

Lemma nbr_by_id_id vs n : nbr_by_id i vs = Some n -> nbr_id n = i.
Proof. intros E. unfold nbr_by_id in E. apply List.find_some in E as [_ E]. by apply bool_decide_eq_true in E. Qed.

Lemma nbr_Ok s n : nbr_by_id i (uvifs s) = Some n -> nbr (Some i) s = Ok n s.
Proof. intros E. unfold nbr. rewrite get_bind. cbn. change (List.find _ _) with (nbr_by_id i (uvifs s)). by rewrite E. Qed.
Lemma nbr_view jp out s Q : view jp out s ->
  (forall n, sin6_addr (nbr_address n) = address -> nbr_jp n = jp -> Q n s) -> does (nbr (Some i)) Q s.
Proof.
  intros [(n & v & E & A & J & _) _ _ _ _] K. unfold does, nbr. rewrite get_bind. cbn.
  change (List.find _ _) with (nbr_by_id i (uvifs s)). rewrite E. by apply K.
Qed.

Lemma upd_nbr_view jp jp' out s : view jp out s -> does (upd_nbr (Some i) (set_nbr_jp jp')) (fun _ => view jp' out) s.
Proof.
  intros V. destruct V as [(n & v & E & A & J & R & L) P M B O]. unfold does, upd_nbr, nbr.
  rewrite bind_assoc, get_bind. cbn. change (List.find _ _) with (nbr_by_id i (uvifs s)). rewrite E. cbn. split; cbn; try done.
  exists (set_nbr_jp jp' n), (map_nbr i (set_nbr_jp jp') v). split; [by apply find_map_nbr|]. do 2 (split; [done|]).
  split; [|done]. change (nbr_vifi (set_nbr_jp jp' n)) with (nbr_vifi n). unfold rd in *.
  case_decide; [|done]. rewrite list_lookup_fmap, R. done.
Qed.

Lemma upd_vars_view jp out out' f s : view jp out s -> pool_ok (f (vars s)) ->
  zlen (pim6_send_buf (vars s)) <= zlen (pim6_send_buf (f (vars s))) ->
  sent (f (vars s)) = out' -> does (upd_vars f) (fun _ => view jp out') s.
Proof. intros [N P M B O] ? ? ?. unfold does, upd_vars, modify. split; cbn; try done. lia. Qed.

(** ** The area *)

Definition good_src (x : jp_source) : Prop := addr_ok x.2 /\ 0 <= x.1 < 256.
Record good_group (g : jp_group_of) : Prop := {
  gg_group : addr_ok (jg_group g);
  gg_joins : Forall good_src (jg_joins g) /\ zlen (jg_joins g) < 65536;
  gg_prunes : Forall good_src (jg_prunes g) /\ zlen (jg_prunes g) < 65536
}.
Lemma good_group_ok g : good_group g -> group_ok g.
Proof.
  intros [[? _] [J ?] [P ?]]. split; [done| |]; (split; [|done]).
  - eapply Forall_impl; [exact J|]. by intros x [[? _] _].
  - eapply Forall_impl; [exact P|]. by intros x [[? _] _].
Qed.

(** The groups [gs] are packed, [cur] is the current one; none is empty. *)
Record area (gs : list jp_group_of) (cur : jp_group_of) (j : build_jp_message) : Prop := {
  ar_sized : area_sized j;
  ar_message : written JP_SIZE (enc_jp (mkJpMsg address hold gs)) (jp_message j, jp_message_size j);
  ar_join : written LIST_SIZE (concat (enc_src <$> jg_joins cur)) (join_list j, join_list_size j);
  ar_prune : written LIST_SIZE (concat (enc_src <$> jg_prunes cur)) (prune_list j, prune_list_size j);
  ar_numbers : join_addr_number j = zlen (jg_joins cur) /\ prune_addr_number j = zlen (jg_prunes cur);
  ar_fields : jp_holdtime j = hold /\ num_groups_ptr j = 19;
  ar_groups : Forall (fun g => good_group g /\ group_items g <> []) gs
}.

(** Before the first entry of a group. *)
Definition no_group : jp_group_of := mkJpg in6addr_any [] [].
Definition idle (j : build_jp_message) : Prop := curr_group j = sockaddr6_any.
(** With entries in the current group. *)
Record active (cur : jp_group_of) (j : build_jp_message) : Prop := {
  ac_good : good_group cur;
  ac_group : sin6_addr (curr_group j) = jg_group cur /\ curr_group_msklen j = SINGLE_GRP_MSK6LEN;
  ac_mc : IN6_IS_ADDR_MULTICAST (jg_group cur) = true;
  ac_items : group_items cur <> []
}.

Lemma items_length g : zlen (group_items g) = zlen (jg_joins g) + zlen (jg_prunes g).
Proof. unfold group_items, zlen. rewrite length_app, !length_fmap. by rewrite Nat2Z.inj_add. Qed.

Lemma zlen_enc_groups gs : Forall (fun g => good_group g /\ group_items g <> []) gs ->
  zlen (concat (enc_jp_group <$> gs)) = sizeof_jp_grp * zlen gs + sizeof_esaddr * zlen (concat (group_items <$> gs)) /\
  zlen gs <= zlen (concat (group_items <$> gs)).
Proof.
  induction 1 as [|g gs [G N] _ [IH1 IH2]]; [done|]. rewrite !fmap_cons. cbn [concat].
  rewrite !zlen_app, zlen_cons, items_length, (zlen_jp_group g (good_group_ok g G)), IH1.
  assert (1 <= zlen (jg_joins g) + zlen (jg_prunes g)).
  { rewrite <- items_length. destruct (group_items g) as [|x l]; [done|]. rewrite zlen_cons. pose proof (zlen_nonneg l). lia. }
  unfold sizeof_jp_grp, sizeof_esaddr in *. lia.
Qed.

Lemma zlen_enc_jp gs : Forall (fun g => good_group g /\ group_items g <> []) gs ->
  zlen (enc_jp (mkJpMsg address hold gs)) =
    22 + sizeof_jp_grp * zlen gs + sizeof_esaddr * zlen (msg_items (mkJpMsg address hold gs)) /\
  zlen gs <= zlen (msg_items (mkJpMsg address hold gs)).
Proof.
  intros F. destruct (zlen_enc_groups gs F) as [E L]. split; [|done]. unfold enc_jp, msg_items. cbn [jm_neighbour jm_groups jm_holdtime].
  rewrite !zlen_app, (zlen_enc_uni _ Haddr), E. change (zlen [0]) with 1. change (zlen [zlen gs]) with 1. change (zlen (be16 hold)) with 2. lia.
Qed.

(** The bytes of a message around the number of its groups. *)
Definition jp_before : list Z := enc_uni address ++ [0].
Definition jp_behind (gs : list jp_group_of) : list Z := be16 hold ++ concat (enc_jp_group <$> gs).
Lemma enc_jp_around gs : enc_jp (mkJpMsg address hold gs) = jp_before ++ [zlen gs] ++ jp_behind gs.
Proof. unfold enc_jp, jp_before, jp_behind. cbn [jm_neighbour jm_groups jm_holdtime]. by rewrite <- !app_assoc. Qed.
Lemma zlen_jp_before : zlen jp_before = 19.
Proof. unfold jp_before. by rewrite zlen_app, zlen_enc_uni. Qed.
Lemma jp_behind_snoc gs g : jp_behind (gs ++ [g]) = jp_behind gs ++ enc_jp_group g.
Proof. unfold jp_behind. rewrite fmap_app, concat_app. change (concat (enc_jp_group <$> [g])) with (enc_jp_group g ++ []). by rewrite app_nil_r, app_assoc. Qed.

Lemma zlen_srcs_good l : Forall good_src l -> zlen (concat (enc_src <$> l)) = sizeof_esaddr * zlen l.
Proof. intros F. apply zlen_srcs. eapply Forall_impl; [exact F|]. by intros x [[? _] _]. Qed.

(** The current group is packed. *)
Lemma jp_current_area gs cur j : area gs cur j -> active cur j -> zlen gs < 255 ->
  zlen (enc_jp (mkJpMsg address hold gs)) + zlen (enc_jp_group cur) <= JP_SIZE ->
  exists j', jp_current j = Some j' /\ area (gs ++ [cur]) no_group j' /\ idle j'.
Proof.
  intros [Sz M J P [NJ NP] [Fh Fn] G] [[Gg [Gj Lj] [Gp Lp]] [Eg El] MC Ne] Hn Hfit.
  assert (OK : group_ok cur) by by apply good_group_ok.
  pose proof (zlen_jp_group cur OK) as ZG. unfold sizeof_jp_grp, sizeof_esaddr in ZG.
  pose proof (zlen_nonneg (jg_joins cur)). pose proof (zlen_nonneg (jg_prunes cur)). pose proof (zlen_nonneg gs).
  pose proof (zlen_srcs_good _ Gj) as Zj. pose proof (zlen_srcs_good _ Gp) as Zp. unfold sizeof_esaddr in Zj, Zp.
  unfold jp_current, jp_group. rewrite Eg, El, NJ, NP. unfold SINGLE_GRP_MSK6LEN.
  destruct (PUT_EGADDR6_written _ _ _ (jg_group cur) 0 M Gg) as (c1 & -> & W1); [lia|]. cbn [mbind option_bind]. change (u8 0) with 0 in W1.
  set (e0 := enc_jp _) in *. assert (L1 : zlen (e0 ++ enc_full 0 (jg_group cur)) = zlen e0 + 20) by (rewrite zlen_app, zlen_enc_full by apply Gg; done).
  destruct (PUT_HOSTSHORT_written _ _ c1 W1 (zlen (jg_joins cur))) as (c2 & -> & W2); [lia|]. cbn [mbind option_bind].
  destruct (PUT_HOSTSHORT_written _ _ c2 W2 (zlen (jg_prunes cur))) as (c3 & -> & W3); [rewrite zlen_app, zlen_be16; lia|]. cbn [mbind option_bind].
  rewrite !u16_small in W3 by lia.
  pose proof (written_slice _ _ _ J) as SJ. pose proof (written_slice _ _ _ P) as SP. destruct J as (EJ & J), P as (EP & P). cbn [fst snd] in *.
  rewrite EJ, EP, SJ, SP. cbn [mbind option_bind].
  destruct (put_written _ _ c3 (concat (enc_src <$> jg_joins cur)) W3) as (c4 & -> & W4); [rewrite !zlen_app, !zlen_be16 in *; lia|]. cbn [mbind option_bind].
  destruct (put_written _ _ c4 (concat (enc_src <$> jg_prunes cur)) W4) as (c5 & -> & W5); [rewrite !zlen_app, !zlen_be16 in *; lia|]. cbn [mbind option_bind].
  assert (W : written JP_SIZE (jp_before ++ [zlen gs] ++ jp_behind (gs ++ [cur])) c5).
  { rewrite jp_behind_snoc. unfold e0 in W5. rewrite enc_jp_around in W5. unfold enc_jp_group. by rewrite <- !app_assoc in W5. }
  cbn [num_groups_ptr]. rewrite Fn, <- zlen_jp_before, (rd_written _ _ _ _ _ W). cbn [mbind option_bind].
  destruct c5 as [m5 p5]. destruct (put_over _ _ _ [u8 (zlen gs + 1)] _ _ _ _ W eq_refl eq_refl) as (m & _ & S5 & Wm). cbn [fst snd].
  rewrite S5. cbn [mbind option_bind]. rewrite u8_small in Wm by lia.
  eexists. split; [reflexivity|]. split; [|done]. split; try done.
  - destruct Sz as [S1 S2 S3 S4]. split; try done. apply Wm.
  - rewrite enc_jp_around, zlen_app. exact Wm.
  - split_and!; [done|apply J|done].
  - split_and!; [done|apply P|done].
  - apply Forall_app. split; [done|]. apply Forall_singleton. split; [|done]. by split.
Qed.

(** An area nobody uses. *)
Record clean (j : build_jp_message) : Prop := {
  cl_sized : area_sized j;
  cl_sizes : join_list_size j = 0 /\ prune_list_size j = 0;
  cl_numbers : join_addr_number j = 0 /\ prune_addr_number j = 0;
  cl_idle : idle j
}.

Lemma new_clean : clean new_working_buff.
Proof.
  split; [|done..]. assert (R : forall n, 0 <= n -> zlen (replicate (Z.to_nat n) 0) = n).
  { intros n H. unfold zlen. rewrite length_replicate. lia. }
  split; [apply R; done..|done].
Qed.
Lemma reused_clean j : area_sized j -> clean (reused j).
Proof. intros H. split; [by apply reused_sized|done..]. Qed.

(** A message is begun. *)
Lemma jp_header_area j : clean j -> exists j', jp_header address hold j = Some j' /\ area [] no_group j' /\ idle j'.
Proof.
  intros [[S1 S2 S3 S4] [E1 E2] [N1 N2] I]. unfold jp_header.
  assert (W : written JP_SIZE [] (jp_message j, 0)) by (split_and!; [done|exact S1|done]).
  destruct (PUT_EUADDR6_written _ _ _ address W Haddr) as (c1 & -> & W1); [done|]. cbn [mbind option_bind app] in *.
  pose proof (zlen_enc_uni address Haddr) as ZU.
  destruct (PUT_BYTE_written _ _ _ W1 0) as (c2 & -> & W2); [rewrite ZU; done|]. cbn [mbind option_bind]. change (u8 0) with 0 in W2.
  assert (c2.2 = 19) as E by (destruct W2 as [-> _]; rewrite zlen_app, ZU; done).
  destruct (PUT_BYTE_written _ _ _ W2 0) as (c3 & -> & W3); [rewrite zlen_app, ZU; done|]. cbn [mbind option_bind]. change (u8 0) with 0 in W3.
  destruct (PUT_HOSTSHORT_written _ _ _ W3 hold) as (c4 & -> & W4); [rewrite !zlen_app, ZU; done|]. cbn [mbind option_bind].
  rewrite u16_small in W4 by lia. eexists. split; [reflexivity|]. split; [|exact I].
  split; try done; try (by split_and!).
  - split; try done. apply W4.
  - rewrite enc_jp_around. rewrite <- !app_assoc in W4. unfold jp_behind, jp_before. cbn [fmap list_fmap concat]. 
    rewrite app_nil_r, <- app_assoc. by destruct c4.
Qed.

Lemma get_jp6_working_buff_view jp out s : view jp out s ->
  does get_jp6_working_buff (fun j s' => view jp out s' /\ clean j) s.
Proof.
  intros V. unfold get_jp6_working_buff. apply does_get. destruct (vw_pool _ _ _ V) as [C F].
  destruct (build_jp_message_pool_counter (vars s) =? 0) eqn:D.
  - assert (M : next_malloc s = Ok true s) by (unfold next_malloc; by rewrite (vw_mallocs _ _ _ V)).
    do 6 (eapply does_Ok; [exact M|]). split; [done|apply new_clean].
  - destruct (build_jp_message_pool (vars s)) as [|j pool]; [by rewrite C in D|]. apply Forall_cons in F as [Hj F].
    rewrite zlen_cons in C. eapply does_then.
    + eapply (upd_vars_view jp out out _ s V); [|done|apply (vw_sent _ _ _ V)].
      split; cbn [build_jp_message_pool_counter build_jp_message_pool set_build_jp_message_pool set_build_jp_message_pool_counter]; [lia|done].
    + intros [] s' V'. split; [done|by apply reused_clean].
Qed.

(** ** Sending *)

(** A packet that says [m]. *)
Record packet_says (p : pim_packet) (m : jp_msg) : Prop := {
  ps_head : pk_src p = src /\ pk_dst p = allpim6routers_group /\ pk_type p = PIM_JOIN_PRUNE;
  ps_decoded : decode_jp (pk_data p) = Some m;
  ps_for : jm_neighbour m = address /\ jm_holdtime m = hold;
  ps_fits : groups_fit (pk_data p) (length (jm_groups m)) (sizeof_pim + 22) (zlen (pk_data p) - sizeof_pim - 22) = Some true
}.

Lemma groups_good_ok gs : Forall (fun g => good_group g /\ group_items g <> []) gs -> Forall group_ok gs.
Proof. intros F. eapply Forall_impl; [exact F|]. intros g [G _]. by apply good_group_ok. Qed.

(** How much memory the entries need at most. *)
Definition MAX_ITEMS : Z := 187.

Lemma area_fits gs cur j : area gs cur j -> active cur j -> zlen (concat (group_items <$> gs)) + zlen (group_items cur) <= MAX_ITEMS ->
  zlen (enc_jp (mkJpMsg address hold gs)) + zlen (enc_jp_group cur) <= JP_SIZE /\ zlen gs < MAX_ITEMS.
Proof.
  intros A C L. destruct (zlen_enc_jp gs (ar_groups _ _ _ A)) as [-> Lg]. unfold msg_items in *. cbn [jm_groups] in *.
  destruct C as [G _ _ N]. rewrite (zlen_jp_group cur (good_group_ok cur G)), <- items_length.
  assert (1 <= zlen (group_items cur)) by (destruct (group_items cur); [done|rewrite zlen_cons; pose proof (zlen_nonneg l); lia]).
  unfold MAX_ITEMS, JP_SIZE, MAX_JP_MESSAGE_SIZE, sizeof_jp_grp, sizeof_esaddr in *. lia.
Qed.

Lemma return_jp6_view j out s : view (Some j) out s -> area_sized j ->
  does (return_jp6_working_buff (Some i)) (fun _ => view None out) s.
Proof.
  intros V Sz. destruct (vw_nbr _ _ _ V) as (n & v & En & _ & Ej & _). unfold return_jp6_working_buff.
  eapply does_Ok; [by apply nbr_Ok|]. rewrite Ej. eapply does_then.
  - unfold to_pool. eapply (upd_vars_view (Some j) out out _ s V).
    + destruct (vw_pool _ _ _ V) as [C F]. case_decide; [done|]. split; cbn [build_jp_message_pool_counter build_jp_message_pool
        set_build_jp_message_pool set_build_jp_message_pool_counter]; [rewrite zlen_cons; lia|by constructor].
    + case_decide; done.
    + rewrite <- (vw_sent _ _ _ V). by case_decide.
  - intros [] s' V'. by eapply upd_nbr_view.
Qed.

Lemma send_jp6_message_view gs cur j out s : view (Some j) out s -> area gs cur j -> zlen gs < 256 ->
  does (send_jp6_message (Some i)) (fun _ s' => exists p, view None (out ++ [p]) s' /\ packet_says p (mkJpMsg address hold gs)) s.
Proof.
  intros V A Hn. pose proof (written_slice _ _ _ (ar_message _ _ _ A)) as SM. destruct (ar_message _ _ _ A) as (EM & LM & TM).
  cbn [fst snd] in *. set (m := mkJpMsg address hold gs) in *. set (body := enc_jp m) in *.
  assert (Lb : zlen body <= JP_SIZE).
  { rewrite <- LM. rewrite <- TM. unfold zlen. rewrite length_take. lia. }
  assert (OK : msg_ok m).
  { split; [done|done|]. split; [|exact Hn]. apply groups_good_ok, (ar_groups _ _ _ A). }
  pose proof (zlen_nonneg body) as Pb. pose proof V as [(n & v & En & Ea & Ej & Er & El) P M B O].
  unfold send_jp6_message. eapply does_Ok; [by apply nbr_Ok|]. eapply does_opt; [exact Ej|]. cbv zeta. apply does_get.
  rewrite EM, u16_small by (unfold JP_SIZE, MAX_JP_MESSAGE_SIZE, sizeof_jp_grp, sizeof_esaddr in Lb; lia).
  eapply does_opt; [exact SM|]. unfold sizeof_pim in *.
  destruct (store (pim6_send_buf (vars s)) 4 body) as [buf|] eqn:St; [|rewrite store_Some in St by lia; done].
  eapply does_opt; [reflexivity|]. pose proof (store_zlen _ _ _ _ St) as Zb.
  eapply does_Ok; [reflexivity|]. eapply does_Ok; [apply vif_Ok; exact Er|].
  eapply does_opt; [exact El|].
  set (s2 := set_vars (set_pim6_send_buf buf (vars s)) s).
  assert (E2 : slice (pim6_send_buf (vars s2)) sizeof_pim (zlen body) = Some body).
  { destruct (store_decompose _ _ _ _ St) as (pre & old & post & Zp & _ & _ & Eb). change (pim6_send_buf (vars s2)) with buf.
    rewrite Eb. unfold sizeof_pim. rewrite <- Zp. apply slice_app_mid. }
  destruct (send_pim6_Ok src allpim6routers_group PIM_JOIN_PRUNE (zlen body) body s2 E2 ltac:(done) ltac:(done)) as (ck & buf' & _ & Zb' & Es).
  eapply does_Ok; [exact Es|]. set (p := mkPacket _ _ _ _) in *. set (s3 := set_vars _ s2) in *.
  assert (V3 : view (Some j) (out ++ [p]) s3).
  { split; [by exists n, v|exact P|exact M| |].
    - change (pim6_send_buf (vars s3)) with buf'. change (pim6_send_buf (vars s2)) with buf in Zb'. unfold sizeof_pim. lia.
    - by rewrite <- O. }
  eapply does_mono; [apply (return_jp6_view j _ s3 V3), (ar_sized _ _ _ A)|]. intros [] s' V'. exists p. split; [done|].
  assert (Ed : pk_data p = pim_header PIM_JOIN_PRUNE ck ++ body) by done.
  split; [done| |done|]; rewrite Ed.
  - rewrite <- (app_nil_r body). by apply decode_enc_jp.
  - assert (Eh : pim_header PIM_JOIN_PRUNE ck ++ body =
      ((pim_header PIM_JOIN_PRUNE ck ++ jp_before ++ [zlen gs] ++ be16 hold) ++ concat (enc_jp_group <$> gs) ++ [])).
    { unfold body, m. rewrite enc_jp_around, app_nil_r. unfold jp_behind. by rewrite <- !app_assoc. }
    rewrite Eh. assert (Zh : zlen (pim_header PIM_JOIN_PRUNE ck ++ jp_before ++ [zlen gs] ++ be16 hold) = 26).
    { rewrite !zlen_app, zlen_jp_before. done. }
    unfold sizeof_pim. change (4 + 22) with 26. rewrite <- Zh at 1. apply groups_fit_enc; [apply OK|].
    change (jm_groups m) with gs. rewrite zlen_app, Zh, zlen_app, zlen_nil. lia.
Qed.

(** ** Packing *)

Lemma not_any sa : IN6_IS_ADDR_MULTICAST (sin6_addr sa) = true -> inet6_equal sa sockaddr6_any = false.
Proof.
  intros H. destruct (inet6_equal sa sockaddr6_any) eqn:E; [|done]. apply inet6_equal_eq in E. by rewrite E in H.
Qed.

Lemma no_star_star j : area_sized j -> has_star_star_rp j = false.
Proof. intros [_ _ _ (_ & E1 & _ & E2)]. unfold has_star_star_rp. by rewrite E1, E2. Qed.

Lemma groups_rd gs cur j : area gs cur j -> rd (jp_message j) (num_groups_ptr j) = Some (zlen gs).
Proof.
  intros A. destruct (ar_fields _ _ _ A) as [_ ->]. pose proof (ar_message _ _ _ A) as W. rewrite enc_jp_around in W.
  rewrite <- zlen_jp_before. exact (rd_written _ _ _ _ _ W).
Qed.

Definition few (gs : list jp_group_of) (cur : jp_group_of) : Prop :=
  zlen (concat (group_items <$> gs)) + zlen (group_items cur) <= MAX_ITEMS.

Lemma pack_jp6_message_view gs cur j out s : view (Some j) out s -> area gs cur j -> active cur j -> few gs cur ->
  does (pack_jp6_message (Some i))
    (fun _ s' => exists j', view (Some j') out s' /\ area (gs ++ [cur]) no_group j' /\ idle j') s.
Proof.
  intros V A C F. destruct (area_fits _ _ _ A C F) as [L Lg]. unfold MAX_ITEMS in Lg.
  destruct (vw_nbr _ _ _ V) as (n & v & En & _ & Ej & _). unfold pack_jp6_message.
  eapply does_Ok; [by apply nbr_Ok|]. rewrite Ej. destruct C as [G [Eg El] MC N] eqn:EC.
  rewrite not_any by by rewrite Eg. rewrite no_star_star by apply (ar_sized _ _ _ A).
  destruct (jp_current_area gs cur j A C ltac:(lia) L) as (j' & E' & A' & I').
  eapply does_opt; [exact E'|]. eapply does_then; [by eapply upd_nbr_view|]. intros [] s' V'.
  eapply does_opt; [by eapply groups_rd|]. rewrite zlen_app. change (zlen [cur]) with 1.
  destruct (zlen gs + 1 =? 254) eqn:D; [lia|]. by exists j'.
Qed.

Lemma pack_and_send_view gs cur j out s : view (Some j) out s -> area gs cur j -> active cur j -> few gs cur ->
  does (pack_and_send_jp6_message (Some i))
    (fun _ s' => exists p, view None (out ++ [p]) s' /\ packet_says p (mkJpMsg address hold (gs ++ [cur]))) s.
Proof.
  intros V A C F. destruct (area_fits _ _ _ A C F) as [_ Lg]. unfold MAX_ITEMS in Lg.
  destruct (vw_nbr _ _ _ V) as (n & v & En & _ & Ej & _). unfold pack_and_send_jp6_message.
  eapply does_Ok; [by apply nbr_Ok|]. rewrite Ej. eapply does_then; [by eapply pack_jp6_message_view|].
  intros [] s' (j' & V' & A' & I'). destruct (vw_nbr _ _ _ V') as (n' & v' & En' & _ & Ej' & _).
  eapply does_Ok; [by apply nbr_Ok|]. eapply does_opt; [exact Ej'|]. rewrite no_star_star by apply (ar_sized _ _ _ A').
  eapply does_Ok; [done|]. eapply send_jp6_message_view; [done|exact A'|]. rewrite zlen_app. change (zlen [cur]) with 1. lia.
Qed.

(** ** Adding an entry *)

Definition add_src (x : jp_source) (action : Z) (g : jp_group_of) : jp_group_of :=
  if action =? PIM_ACTION_JOIN then mkJpg (jg_group g) (jg_joins g ++ [x]) (jg_prunes g)
  else mkJpg (jg_group g) (jg_joins g) (jg_prunes g ++ [x]).

Lemma add_src_items x action g : action = PIM_ACTION_JOIN \/ action = PIM_ACTION_PRUNE ->
  group_items (add_src x action g) ≡ₚ group_items g ++ [mkItem (jg_group g) x.2 x.1 action].
Proof.
  unfold group_items, add_src. intros [-> | ->]; cbn [Z.eqb Pos.eqb PIM_ACTION_JOIN PIM_ACTION_PRUNE jg_group jg_joins jg_prunes];
    rewrite fmap_app; cbn [fmap list_fmap]; solve_Permutation.
Qed.

Lemma put_src l x b n : written LIST_SIZE (concat (enc_src <$> l)) (b, n) -> Forall good_src l -> good_src x -> n < MAX_JOIN_LIST_SIZE ->
  exists c, PUT_ESADDR6 x.2 SINGLE_SRC_MSK6LEN x.1 (b, n) = Some c /\
    written LIST_SIZE (concat (enc_src <$> l ++ [x])) (c.1, c.2) /\ Forall good_src (l ++ [x]) /\
    zlen (l ++ [x]) < 65536 /\ u16 (zlen l + 1) = zlen (l ++ [x]).
Proof.
  intros W F [Ox Bx] H. pose proof (zlen_srcs_good _ F) as Z. unfold sizeof_esaddr in Z. destruct (W) as (E & _). cbn [snd] in E.
  unfold MAX_JOIN_LIST_SIZE in H. pose proof (zlen_nonneg l).
  destruct (PUT_EGADDR6_written LIST_SIZE _ (b, n) x.2 x.1 W Ox) as (c & Ec & W'); [change LIST_SIZE with 1520; lia|].
  exists c. split; [exact Ec|]. rewrite u8_small in W' by lia. rewrite zlen_app. change (zlen [x]) with 1. split_and!; [|..|lia|apply u16_small; lia].
  - rewrite fmap_app, concat_app. change (concat (enc_src <$> [x])) with (enc_src x ++ []). rewrite app_nil_r. by destruct c.
  - apply Forall_app. split; [done|]. apply Forall_singleton. exact (conj Ox Bx).
Qed.

Lemma jp_entry_area gs cur j x action : area gs cur j -> good_group cur -> good_src x ->
  join_list_size j < MAX_JOIN_LIST_SIZE -> prune_list_size j < MAX_PRUNE_LIST_SIZE ->
  exists j', jp_entry x.2 SINGLE_SRC_MSK6LEN x.1 action false j = Some j' /\ area gs (add_src x action cur) j' /\
    good_group (add_src x action cur) /\ curr_group j' = curr_group j /\ curr_group_msklen j' = curr_group_msklen j.
Proof.
  intros [Sz M J P [NJ NP] Fs G] [Gg [Gj Lj] [Gp Lp]] Gx HJ HP. unfold jp_entry, add_src. destruct Sz as [S1 S2 S3 S4].
  destruct (action =? PIM_ACTION_JOIN).
  - destruct (put_src _ x _ _ J Gj Gx HJ) as (c & -> & W & F & L & N). cbn [mbind option_bind]. eexists. split; [reflexivity|].
    split; [|done]. split; try done; [split; try done; apply W|]. split; [|done]. cbn [jg_joins]. by rewrite <- N, <- NJ.
  - destruct (put_src _ x _ _ P Gp Gx HP) as (c & -> & W & F & L & N). cbn [mbind option_bind]. eexists. split; [reflexivity|].
    split; [|done]. split; try done; [split; try done; apply W|]. split; [done|]. cbn [jg_prunes]. by rewrite <- N, <- NP.
Qed.

(** What the messages sent and the area hold together. *)
Definition holds (ms : list jp_msg) (gs : list jp_group_of) (cur : jp_group_of) : list jp_item :=
  concat (msg_items <$> ms) ++ concat (group_items <$> gs) ++ group_items cur.

(** [asked] so far, after [out] was sent. *)
Definition progress (out : list pim_packet) (asked : list jp_item) (s : Pim) : Prop :=
  exists ps ms, Forall2 packet_says ps ms /\
    ((view None (out ++ ps) s /\ concat (msg_items <$> ms) ≡ₚ asked) \/
     (exists gs cur j, view (Some j) (out ++ ps) s /\ area gs cur j /\ active cur j /\ holds ms gs cur ≡ₚ asked)).

Lemma holds_few ms gs cur asked : holds ms gs cur ≡ₚ asked -> zlen asked <= MAX_ITEMS -> few gs cur.
Proof.
  intros H L. unfold few. pose proof (zlen_nonneg (concat (msg_items <$> ms))). apply Permutation_length in H. unfold holds, zlen in *.
  rewrite !length_app in H. lia.
Qed.

(** The messages are sent. *)
Lemma flush out asked s : progress out asked s -> zlen asked <= MAX_ITEMS ->
  does (pack_and_send_jp6_message (Some i)) (fun _ s' => exists ps ms, Forall2 packet_says ps ms /\ view None (out ++ ps) s' /\
    concat (msg_items <$> ms) ≡ₚ asked) s.
Proof.
  intros (ps & ms & F & [[V H]|(gs & cur & j & V & A & C & H)]) L.
  - destruct (vw_nbr _ _ _ V) as (n & v & En & _ & Ej & _). unfold pack_and_send_jp6_message.
    eapply does_Ok; [by apply nbr_Ok|]. rewrite Ej. by exists ps, ms.
  - eapply does_mono; [by eapply pack_and_send_view, holds_few|]. intros [] s' (p & V' & Pm).
    exists (ps ++ [p]), (ms ++ [mkJpMsg address hold (gs ++ [cur])]). split; [by apply Forall2_app, Forall2_cons|].
    rewrite app_assoc. split; [done|]. rewrite <- H. unfold holds, msg_items. rewrite fmap_app, concat_app. apply Permutation_app_head.
    cbn. rewrite fmap_app, concat_app. cbn. by rewrite !app_nil_r.
Qed.

(** Room for an entry in the area, whose current group, perhaps an empty one,
    is [group]. *)
Definition room (group : list Z) (out : list pim_packet) (asked : list jp_item) (s : Pim) : Prop :=
  exists ps ms gs cur j, Forall2 packet_says ps ms /\ view (Some j) (out ++ ps) s /\ area gs cur j /\
    good_group cur /\ jg_group cur = group /\ join_list_size j < MAX_JOIN_LIST_SIZE /\ prune_list_size j < MAX_PRUNE_LIST_SIZE /\
    holds ms gs cur ≡ₚ asked.

(** An area without a current group gets one. *)
Lemma room_idle group out asked ps ms gs j s : Forall2 packet_says ps ms -> view (Some j) (out ++ ps) s ->
  area gs no_group j -> addr_ok group -> holds ms gs no_group ≡ₚ asked -> room group out asked s.
Proof.
  intros F V A G H. exists ps, ms, gs, (mkJpg group [] []), j. destruct (ar_join _ _ _ A) as [E1 _], (ar_prune _ _ _ A) as [E2 _].
  cbn [snd] in E1, E2. split_and!; try done.
  - by destruct A.
  - by rewrite E1.
  - by rewrite E2.
Qed.

Lemma not_full j : jp_full j = false -> join_list_size j < MAX_JOIN_LIST_SIZE /\ prune_list_size j < MAX_PRUNE_LIST_SIZE.
Proof. unfold jp_full. rewrite !orb_false_iff, !bool_decide_eq_false. lia. Qed.

(** The first half of [add_jp_entry]: a full area is sent, a new one taken,
    another group is packed. *)
Definition jp_make_room (group : sockaddr_in6) : Cmd Pim unit :=
  let! n := nbr (Some i) in
  do! match nbr_jp n with
      | Some j => if jp_full j then pack_and_send_jp6_message (Some i) else ret tt
      | None => ret tt
      end ;;
  let! n := nbr (Some i) in
  match nbr_jp n with
  | Some j => if other_group j group SINGLE_GRP_MSK6LEN hold then pack_jp6_message (Some i) else ret tt
  | None =>
      let! j := get_jp6_working_buff in
      chk! j := jp_header (sin6_addr (nbr_address n)) hold j in
      upd_nbr (Some i) (set_nbr_jp (Some j))
  end.

Lemma make_room group out asked s : IN6_IS_ADDR_MULTICAST (sin6_addr group) = true -> addr_ok (sin6_addr group) ->
  progress out asked s -> zlen asked <= MAX_ITEMS ->
  does (jp_make_room group) (fun _ s' => room (sin6_addr group) out asked s') s.
Proof.
  intros MC OK Pr L. unfold jp_make_room.
  assert (New : forall ps ms s, Forall2 packet_says ps ms -> view None (out ++ ps) s -> concat (msg_items <$> ms) ≡ₚ asked ->
    forall n, sin6_addr (nbr_address n) = address ->
    does (let! j := get_jp6_working_buff in
          chk! j := jp_header (sin6_addr (nbr_address n)) hold j in
          upd_nbr (Some i) (set_nbr_jp (Some j))) (fun _ s' => room (sin6_addr group) out asked s') s).
  { intros ps ms s0 F V H n ->. eapply does_then; [by eapply get_jp6_working_buff_view|]. intros j s1 [V1 C].
    destruct (jp_header_area j C) as (j' & E & A & I). eapply does_opt; [exact E|].
    eapply does_mono; [by eapply upd_nbr_view|]. intros [] s2 V2. eapply room_idle; [done..|].
    unfold holds. by rewrite app_nil_r. }
  destruct Pr as (ps & ms & F & [[V H]|(gs & cur & j & V & A & C & H)]).
  - destruct (vw_nbr _ _ _ V) as (n & v & En & Ea & Ej & _). eapply does_Ok; [by apply nbr_Ok|]. rewrite Ej.
    eapply does_Ok; [done|]. eapply does_Ok; [by apply nbr_Ok|]. rewrite Ej. by eapply New.
  - destruct (vw_nbr _ _ _ V) as (n & v & En & Ea & Ej & _). eapply does_Ok; [by apply nbr_Ok|]. rewrite Ej.
    pose proof (holds_few _ _ _ _ H L) as Few. destruct (jp_full j) eqn:Full.
    + eapply does_then; [eapply (flush out asked); [|done]|].
      { exists ps, ms. split; [done|]. right. by exists gs, cur, j. }
      intros [] s1 (ps1 & ms1 & F1 & V1 & H1). destruct (vw_nbr _ _ _ V1) as (n1 & v1 & En1 & Ea1 & Ej1 & _).
      eapply does_Ok; [by apply nbr_Ok|]. rewrite Ej1. by eapply New.
    + eapply does_Ok; [done|]. eapply does_Ok; [by apply nbr_Ok|]. rewrite Ej.
      destruct (other_group j group SINGLE_GRP_MSK6LEN hold) eqn:Og.
      * eapply does_mono; [by eapply pack_jp6_message_view|]. intros [] s1 (j' & V1 & A1 & I1).
        eapply room_idle; [done..|]. rewrite <- H. unfold holds. rewrite fmap_app, concat_app. cbn. by rewrite !app_nil_r.
      * unfold other_group in Og. rewrite !orb_false_iff, !negb_false_iff in Og. destruct Og as [[Eg _] _].
        apply inet6_equal_eq in Eg. destruct (not_full j Full) as [N1 N2]. destruct C as [G [Ecg _] _ _].
        exists ps, ms, gs, cur, j. split_and!; try done. by rewrite <- Ecg, Eg.
Qed.

Lemma esaddr_flags_byte f : 0 <= esaddr_flags f < 256.
Proof. unfold esaddr_flags. destruct (has f MRTF_RP), (has f MRTF_WC); done. Qed.

Lemma add_jp_entry_progress a out asked s : ask_ok a -> progress out asked s -> zlen asked <= MAX_ITEMS ->
  does (add_jp_entry (Some i) hold (ja_group a) SINGLE_GRP_MSK6LEN (ja_source a) SINGLE_SRC_MSK6LEN (ja_flags a) (ja_action a))
    (fun r s' => r = true /\ progress out (asked ++ [ask_item a]) s') s.
Proof.
  intros [[OKg MC] OKs Act] Pr L. set (g := ja_group a) in *.
  assert (E : add_jp_entry (Some i) hold g SINGLE_GRP_MSK6LEN (ja_source a) SINGLE_SRC_MSK6LEN (ja_flags a) (ja_action a) s =
    bind (jp_make_room g) (fun _ =>
      let! n := nbr (Some i) in
      chk! j := nbr_jp n in
      let j := set_curr_group g (set_curr_group_msklen SINGLE_GRP_MSK6LEN j) in
      do! upd_nbr (Some i) (set_nbr_jp (Some j)) ;;
      chk! j := jp_entry (sin6_addr (ja_source a)) SINGLE_SRC_MSK6LEN (esaddr_flags (ja_flags a)) (ja_action a) false j in
      do! upd_nbr (Some i) (set_nbr_jp (Some j)) ;;
      ret true) s).
  { unfold add_jp_entry, jp_make_room. do 3 (rewrite bind_assoc; apply bind_ext; intros).
    change (SINGLE_GRP_MSK6LEN =? STAR_STAR_RP_MSK6LEN) with false. rewrite andb_false_r. by destruct Act as [-> | ->]. }
  eapply does_ext; [exact E|]. clear E. eapply does_then; [by eapply make_room|].
  intros [] s1 (ps & ms & gs & cur & j & F & V & A & G & Eg & N1 & N2 & H).
  destruct (vw_nbr _ _ _ V) as (n & v & En & _ & Ej & _). eapply does_Ok; [by apply nbr_Ok|]. eapply does_opt; [exact Ej|]. cbv zeta.
  set (j0 := set_curr_group g (set_curr_group_msklen SINGLE_GRP_MSK6LEN j)).
  eapply does_then; [by eapply upd_nbr_view|]. intros [] s2 V2.
  assert (A0 : area gs cur j0) by (destruct A as [[] ? ? ? ? ? ?]; by split).
  set (x := (esaddr_flags (ja_flags a), sin6_addr (ja_source a)) : jp_source).
  assert (Gx : good_src x) by (split; [done|apply esaddr_flags_byte]).
  destruct (jp_entry_area gs cur j0 x (ja_action a) A0 G Gx N1 N2) as (j1 & E1 & A1 & G1 & Ec & El).
  eapply does_opt; [exact E1|]. eapply does_then; [by eapply upd_nbr_view|]. intros [] s3 V3. split; [done|].
  exists ps, ms. split; [done|]. right. exists gs, (add_src x (ja_action a) cur), j1.
  pose proof (add_src_items x (ja_action a) cur Act) as Hi.
  assert (Eg1 : jg_group (add_src x (ja_action a) cur) = sin6_addr g) by (unfold add_src; by destruct (_ =? _)).
  split_and!; try done.
  - split; [done| |by rewrite Eg1|]; [by rewrite Ec, El, Eg1|].
    intros Nil. rewrite Nil in Hi. apply Permutation_nil_l in Hi. by destruct (group_items cur).
  - unfold holds. rewrite Hi, Eg, !app_assoc. apply Permutation_app_tail. rewrite <- H. unfold holds. by rewrite app_assoc.
Qed.

Lemma add_jp_entries_progress l : forall out asked s, Forall ask_ok l -> progress out asked s -> zlen asked + zlen l <= MAX_ITEMS ->
  does (add_jp_entries (Some i) hold l) (fun _ => progress out (asked ++ (ask_item <$> l))) s.
Proof.
  induction l as [|a l IH]; intros out asked s F Pr L; cbn [add_jp_entries foldr].
  - by rewrite app_nil_r.
  - apply Forall_cons in F as [Fa F]. rewrite zlen_cons in L. pose proof (zlen_nonneg l).
    eapply does_then; [eapply add_jp_entry_progress; [done|exact Pr|lia]|]. intros r s1 [_ Pr1].
    rewrite fmap_cons. replace (asked ++ ask_item a :: (ask_item <$> l)) with ((asked ++ [ask_item a]) ++ (ask_item <$> l))
      by by rewrite <- app_assoc.
    apply IH; [done|done|]. rewrite zlen_app. change (zlen [ask_item a]) with 1. lia.
Qed.
End Sending.

(** ** A router *)

(** One interface with a neighbour that no entries wait for. *)
Definition jp_me : phaddr := mkPhaddr (ip6 [0xfe; 0x80] 1) (ip6 [] 0) (ip6 [0xfe; 0x80] 0) (replicate 8 0xff ++ replicate 8 0).
Definition jp_router : Pim :=
  mkPim ∅ ∅ ∅ ∅ ∅ ∅ ∅ 100 [] None None None None []
    [mkVif 0 2 0 [jp_me] 101 1024 [mkNbr 77 (ip6 [0xfe; 0x80] 2) [] 0 105 None] (Some jp_me) 0 0 0] 1 1
    (ip6 [0xff; 0x30] 0) (replicate 2 0xff ++ replicate 14 0) (fun a => (a, 0))
    (set_pim6_send_buf (replicate (Z.to_nat 9000) 0) idle_vars).

(** A join for each of a group's first sources. *)
Definition joins (group : Z) (sources : nat) : list jp_ask :=
  (fun k => mkAsk (ip6 [0xff; 0x0e] group) (ip6 [0x20; 0x01] k) MRTF_SG PIM_ACTION_JOIN) <$> seqZ 1 (Z.of_nat sources).

Lemma joins_ok group n : 0 <= group < 256 -> (n < 256)%nat -> Forall ask_ok (joins group n).
Proof.
  intros Hg Hn. apply Forall_fmap, Forall_forall. intros k Hk. apply elem_of_seqZ in Hk.
  assert (B : forall a b c, is_byte a -> is_byte b -> is_byte c -> addr_ok (sin6_addr (ip6 [a; b] c))).
  { intros a b c Ha Hb Hc. split; [done|]. cbn. repeat (apply Forall_cons; split; [unfold is_byte in *; lia|]). constructor. }
  split; [split; [apply B; unfold is_byte; lia|done]|apply B; unfold is_byte; lia|by left].
Qed.

(** ** Properties *)

(** C7. a router asks a neighbour for up to 187 joins and prunes with one
    holdtime.  When it has added them and sends what it gathered, no buffer is
    left, every packet goes to all PIM routers of the link from the router's
    link-local address, every packet is one that the neighbour's checks let
    pass, and read with the receiver's macros the packets name the neighbour
    and the holdtime and hold exactly the entries asked for, each once. *)
Theorem jp_entries_sent i n v ll hold asks s :
  nbr_by_id i (uvifs s) = Some n -> nbr_jp n = None -> length (sin6_addr (nbr_address n)) = 16%nat ->
  rd (uvifs s) (nbr_vifi n) = Some v -> uv_linklocal v = Some ll -> IN6_IS_ADDR_LINKLOCAL (sin6_addr (pa_addr ll)) = true ->
  pool_ok (vars s) -> mallocs s = [] -> sizeof_pim + JP_SIZE <= zlen (pim6_send_buf (vars s)) ->
  0 <= hold < 65536 -> Forall ask_ok asks -> zlen asks <= MAX_ITEMS ->
  exists s' ps ms,
    bind (add_jp_entries (Some i) hold asks) (fun _ => pack_and_send_jp6_message (Some i)) s = Ok tt s' /\
    sent (vars s') = sent (vars s) ++ ps /\
    Forall2 (packet_says (sin6_addr (nbr_address n)) (pa_addr ll) hold) ps ms /\
    concat (msg_items <$> ms) ≡ₚ (ask_item <$> asks).
Proof.
  intros En Ej La Er El Ll P M B Hh F L.
  assert (V : view i (sin6_addr (nbr_address n)) (pa_addr ll) None (sent (vars s)) s).
  { split; try done. exists n, v. rewrite El. done. }
  assert (Pr : progress i (sin6_addr (nbr_address n)) (pa_addr ll) hold (sent (vars s)) [] s).
  { exists [], []. split; [constructor|]. left. by rewrite app_nil_r. }
  pose proof (add_jp_entries_progress i _ _ hold La Hh Ll asks _ _ _ F Pr L) as H.
  assert (D : does (bind (add_jp_entries (Some i) hold asks) (fun _ => pack_and_send_jp6_message (Some i)))
    (fun _ s' => exists ps ms, Forall2 (packet_says (sin6_addr (nbr_address n)) (pa_addr ll) hold) ps ms /\
       view i (sin6_addr (nbr_address n)) (pa_addr ll) None (sent (vars s) ++ ps) s' /\
       concat (msg_items <$> ms) ≡ₚ [] ++ (ask_item <$> asks)) s).
  { eapply does_then; [exact H|]. intros [] s1 Pr1. eapply flush; try done. cbn. unfold zlen in *. by rewrite length_fmap. }
  unfold does in D. destruct (bind _ _ s) as [[] s'| |]; [|done..]. destruct D as (ps & ms & F2 & V' & Hp).
  exists s', ps, ms. split_and!; [done|apply (vw_sent _ _ _ _ _ _ V')|done|done].
Qed.

Lemma jp_entries_sent_witness : exists s' ps ms,
  bind (add_jp_entries (Some 77%nat) 210 (joins 7 2 ++ joins 8 1)) (fun _ => pack_and_send_jp6_message (Some 77%nat)) jp_router = Ok tt s' /\
  sent (vars s') = sent (vars jp_router) ++ ps /\
  Forall2 (packet_says (sin6_addr (ip6 [0xfe; 0x80] 2)) (ip6 [0xfe; 0x80] 1) 210) ps ms /\
  concat (msg_items <$> ms) ≡ₚ (ask_item <$> joins 7 2 ++ joins 8 1).
Proof.
  apply (jp_entries_sent 77 (mkNbr 77 (ip6 [0xfe; 0x80] 2) [] 0 105 None)
    (mkVif 0 2 0 [jp_me] 101 1024 [mkNbr 77 (ip6 [0xfe; 0x80] 2) [] 0 105 None] (Some jp_me) 0 0 0) jp_me);
    [reflexivity..| |done| |lia|apply Forall_app; split; apply joins_ok; lia|vm_compute; discriminate].
  - by split.
  - vm_compute. discriminate.
Defined.

(** 190 entries in 183 groups, and one of another group. *)
Definition asks_190 : list jp_ask := concat ((fun g => joins g 1) <$> seqZ 1 181) ++ joins 182 8 ++ joins 183 1.
Definition returns {S A} (o : outcome S A) : Prop := match o with Ok _ _ => True | _ => False end.
Definition ask_them (asks : list jp_ask) : outcome Pim unit :=
  bind (add_jp_entries (Some 77%nat) 210 asks) (fun _ => pack_and_send_jp6_message (Some 77%nat)) jp_router.

(** The test for room does not count the head of the current group: the area
    is two bytes short of its limit, the entry of another group is added, and
    the message does not fit in its buffer. *)
Lemma jp_message_overrun :
  returns (ask_them asks_190) /\ stops OutOfBounds (ask_them (asks_190 ++ joins 184 1)).
Proof. split; vm_compute; [exact I|reflexivity]. Qed.
