(* ===== verification/PimAssertOk.v ===== *)
(** * PimAssertOk: one router goes on forwarding

    Routers that forward the same packets to a network tell each other their
    metrics.  What a router puts into an assert message is what the others
    read, and the decisions they come to by themselves agree: there is one
    router that wins against all others, and all others lose against it. *)

From stdpp Require Import base list numbers gmap.
From S2P Require Import Prelude Inet6 Pim RpMatch Vif Mrt PimMsg PimSend PimJp PimReg PimAssert.
Open Scope Z_scope.

(** ** The message *)

Definition enc_assert (group source : list Z) (preference metric : Z) : list Z :=
  enc_full 0 group ++ enc_uni source ++ be32 preference ++ be32 metric.

Lemma assert_message_written group source preference metric buf : addr_ok group -> length source = 16%nat ->
  50 <= zlen buf -> exists c, assert_message group source preference metric buf = Some c /\
    c.2 = 50 /\ take 50 c.1 = take 4 buf ++ enc_assert group source (u32 preference) (u32 metric).
Proof.
  intros Hg Hs L. assert (L4 : zlen (take 4 buf) = 4) by (unfold zlen in *; rewrite length_take; lia).
  assert (W : written (zlen buf) (take 4 buf) (buf, sizeof_pim)).
  { split; [by rewrite L4|]. split; [done|]. cbn [fst]. f_equal. unfold zlen in L4. lia. }
  unfold assert_message, SINGLE_GRP_MSK6LEN.
  destruct (PUT_EGADDR6_written _ _ _ group 0 W Hg) as (c1 & -> & W1); [lia|]. cbn [mbind option_bind]. change (u8 0) with 0 in W1.
  assert (L1 : zlen (take 4 buf ++ enc_full 0 group) = 24) by (rewrite zlen_app, zlen_enc_full by apply Hg; lia).
  destruct (PUT_EUADDR6_written _ _ _ source W1 Hs) as (c2 & -> & W2); [lia|]. cbn [mbind option_bind].
  assert (L2 : zlen ((take 4 buf ++ enc_full 0 group) ++ enc_uni source) = 42) by (rewrite zlen_app, L1, zlen_enc_uni; done).
  destruct (PUT_HOSTLONG_written _ _ _ W2 preference) as (c3 & -> & W3); [lia|]. cbn [mbind option_bind].
  destruct (PUT_HOSTLONG_written _ _ _ W3 metric) as (c4 & -> & W4); [rewrite zlen_app, L2, zlen_be32; lia|].
  exists c4. split; [done|]. destruct W4 as (E & _ & T).
  assert (L4' : zlen ((((take 4 buf ++ enc_full 0 group) ++ enc_uni source) ++ be32 (u32 preference)) ++ be32 (u32 metric)) = 50).
  { rewrite zlen_app, zlen_app, L2. done. }
  rewrite L4' in E. split; [done|]. unfold zlen in L4'. replace 50%nat with (length ((((take 4 buf ++ enc_full 0 group) ++
    enc_uni source) ++ be32 (u32 preference)) ++ be32 (u32 metric))) by lia. rewrite T. unfold enc_assert. by rewrite <- !app_assoc.
Qed.

Lemma get_assert_enc hdr group source preference metric rest : zlen hdr = sizeof_pim -> length group = 16%nat -> length source = 16%nat ->
  0 <= preference < 2 ^ 32 -> 0 <= metric < 2 ^ 32 ->
  get_assert (hdr ++ enc_assert group source preference metric ++ rest) = Some (mkAssert group source preference metric).
Proof.
  intros Zh Hg Hs Hp Hm. unfold get_assert, enc_assert. rewrite <- Zh, <- !app_assoc, GET_EGADDR6_at by done. cbn [mbind option_bind].
  rewrite (app_assoc hdr), GET_EUADDR6_at by done. cbn [mbind option_bind].
  rewrite (app_assoc _ (enc_uni source)), GET_HOSTLONG_at by done. cbn [mbind option_bind].
  rewrite (app_assoc _ (be32 preference)), GET_HOSTLONG_at by done. done.
Qed.

(** ** The routers *)

(** A router that forwards: its route, and its interface to the network. *)
Record forwarder := mkFwd { fw_entry : mrtentry; fw_vif : uvif; fw_linklocal : sockaddr_in6 }.
Record fw_ok (f : forwarder) : Prop := {
  fo_vif : pa_addr <$> uv_linklocal (fw_vif f) = Some (fw_linklocal f);
  fo_addr : sa_ok (fw_linklocal f);
  fo_preference : 0 <= m_preference (fw_entry f) < 2 ^ 31;
  fo_metric : 0 <= m_metric (fw_entry f) < 2 ^ 32
}.

(** The sender [g] of a message as [f] knows it: the link is [f]'s own. *)
Definition heard_from (f g : forwarder) : sockaddr_in6 := mkSa (sin6_scope_id (fw_linklocal f)) (sin6_addr (fw_linklocal g)).

(** [f] hears the assert message of [g], put together in the buffer [buf] and
    received behind the header [hdr], and finds that it wins, or not. *)
Definition decides (group source buf hdr rest : list Z) (f g : forwarder) (wins : bool) : Prop :=
  exists c a, assert_message group source (rpt_preference (fw_entry g)) (m_metric (fw_entry g)) buf = Some c /\
    get_assert (hdr ++ drop 4 (take (Z.to_nat c.2) c.1) ++ rest) = Some a /\
    as_group a = group /\ as_source a = source /\
    forall s, local_wins (fw_vif f) (heard_from f g) (fw_entry f) (rpt_preference (fw_entry f)) a s = Ok wins s.

(** Some state; the decisions do not depend on it. *)
Definition nobody : Pim := mkPim ∅ ∅ ∅ ∅ ∅ ∅ ∅ 0 [] None None None None [] [] 0 0 sockaddr6_any [] (fun a => (a, 0)) idle_vars.

(** The order of the routers. *)
Definition better (f g : forwarder) : bool :=
  compare_metrics (rpt_preference (fw_entry f)) (m_metric (fw_entry f)) (fw_linklocal f)
    (rpt_preference (fw_entry g)) (m_metric (fw_entry g)) (heard_from f g).

Definition address_key (f : forwarder) : Z := be (sin6_addr (fw_linklocal f)).

Lemma rpt_preference_range m : 0 <= m_preference m < 2 ^ 31 -> 0 <= rpt_preference m < 2 ^ 32.
Proof.
  intros H. unfold rpt_preference, PIM_ASSERT_RPT_BIT. destruct (has _ _); [|change (2 ^ 31) with 2147483648 in H; lia].
  change 0x80000000 with (Z.shiftl 1 31). rewrite Z.lor_comm, lor_shiftl_add by lia. change (2 ^ 31) with 2147483648 in *. lia.
Qed.

(** Smaller preference, smaller metric, greater address. *)
Lemma better_spec f g : fw_ok f -> fw_ok g ->
  better f g = true <-> rpt_preference (fw_entry f) < rpt_preference (fw_entry g) \/
    rpt_preference (fw_entry f) = rpt_preference (fw_entry g) /\ (m_metric (fw_entry f) < m_metric (fw_entry g) \/
      m_metric (fw_entry f) = m_metric (fw_entry g) /\ address_key g < address_key f).
Proof.
  intros [_ [Sf Af] _ _] [_ [_ Ag] _ _]. unfold better, compare_metrics.
  repeat case_decide; try (split; [try done; lia|try done; lia]).
  rewrite greaterthan_less, lessthan_key, bool_decide_eq_true by by split. unfold key, heard_from, address_key. cbn [sin6_scope_id sin6_addr]. lia.
Qed.

Lemma better_trans f g h : fw_ok f -> fw_ok g -> fw_ok h -> better f g = true -> better g h = true -> better f h = true.
Proof. intros Hf Hg Hh. rewrite !better_spec by done. lia. Qed.

Lemma better_total f g : fw_ok f -> fw_ok g -> sin6_addr (fw_linklocal f) <> sin6_addr (fw_linklocal g) -> better g f = negb (better f g).
Proof.
  intros Hf Hg N. pose proof (better_spec f g Hf Hg) as B1. pose proof (better_spec g f Hg Hf) as B2.
  destruct Hf as [_ [_ [Lf Bf]] _ _], Hg as [_ [_ [Lg Bg]] _ _].
  assert (address_key f <> address_key g) by (intros E; apply N; apply be_inj; [done|done|congruence|done]).
  destruct (better f g), (better g f); try done; exfalso; [pose proof (proj1 B1 eq_refl); pose proof (proj1 B2 eq_refl); lia|].
  assert (X : forall P, (false = true <-> P) -> ~ P) by (intros P [_ H'] HP; by specialize (H' HP)).
  apply X in B1, B2. lia.
Qed.

Definition address (f : forwarder) : list Z := sin6_addr (fw_linklocal f).

Lemma same_address fs f g : NoDup (address <$> fs) -> f ∈ fs -> g ∈ fs -> address f = address g -> f = g.
Proof.
  induction fs as [|h fs IH]; [by intros _ ?%elem_of_nil|]. rewrite fmap_cons, NoDup_cons, !elem_of_cons. intros [N ND] [-> |Hf] [-> |Hg] E; auto.
  - destruct N. rewrite E. by apply list_elem_of_fmap_2.
  - destruct N. rewrite <- E. by apply list_elem_of_fmap_2.
Qed.

Lemma decides_better group source buf hdr rest f g : fw_ok f -> fw_ok g -> addr_ok group -> addr_ok source -> 50 <= zlen buf ->
  zlen hdr = sizeof_pim -> decides group source buf hdr rest f g (better f g).
Proof.
  intros Hf Hg Gr So L Zh. pose proof (rpt_preference_range _ (fo_preference _ Hg)) as Rp. pose proof (fo_metric _ Hg) as Rm.
  destruct (assert_message_written group source (rpt_preference (fw_entry g)) (m_metric (fw_entry g)) buf Gr (proj1 So) L) as (c & Ec & E2 & T).
  rewrite !u32_small in T by done. exists c, (mkAssert group source (rpt_preference (fw_entry g)) (m_metric (fw_entry g))).
  split; [done|]. rewrite E2. change (Z.to_nat 50) with 50%nat. rewrite T, drop_app_length'; [|rewrite length_take; unfold zlen in L; lia].
  split; [by apply get_assert_enc; try apply Gr; try apply So|]. do 2 (split; [done|]).
  intros s. unfold local_wins, linklocal. rewrite (fo_vif _ Hf). done.
Qed.

Lemma decides_once group source buf hdr rest f g b b' :
  decides group source buf hdr rest f g b -> decides group source buf hdr rest f g b' -> b = b'.
Proof.
  intros (c & a & E1 & E2 & _ & _ & W) (c' & a' & E1' & E2' & _ & _ & W'). rewrite E1 in E1'. injection E1' as <-.
  rewrite E2 in E2'. injection E2' as <-. specialize (W nobody). rewrite W' in W. by injection W.
Qed.

Lemma best_exists fs : fs <> [] -> Forall fw_ok fs -> NoDup (address <$> fs) ->
  exists w, w ∈ fs /\ forall f, f ∈ fs -> address f <> address w -> better w f = true.
Proof.
  induction fs as [|g fs IH]; [done|]. intros _ F ND. apply Forall_cons in F as [Hg F]. rewrite fmap_cons in ND.
  apply NoDup_cons in ND as [Ng ND]. destruct fs as [|g' fs].
  { exists g. split; [by left|]. intros f Hf N. by apply list_elem_of_singleton in Hf as ->. }
  destruct (IH ltac:(done) F ND) as (w & Hw & B). pose proof (proj1 (Forall_forall _ _) F) as F'.
  assert (Nw : address g <> address w) by (intros E; apply Ng; rewrite E; by apply list_elem_of_fmap_2).
  destruct (better g w) eqn:Bg.
  - exists g. split; [by left|]. intros f Hf N. apply elem_of_cons in Hf as [->|Hf]; [done|].
    destruct (decide (address f = address w)) as [E|E].
    + by rewrite (same_address (g' :: fs) f w).
    + by eapply (better_trans g w f); auto.
  - exists w. split; [by right|]. intros f Hf N. apply elem_of_cons in Hf as [->|Hf]; [|by apply B].
    rewrite (better_total g w) by auto. by rewrite Bg.
Qed.

(** ** Properties *)

(** C8. routers that forward to the same network, with different link-local
    addresses, hear each other's assert messages. Every message is read as it
    was meant, and exactly one router finds that it wins against every other;
    every other router finds that it loses against that one. *)
Theorem assert_one_winner group source buf hdr rest fs :
  fs <> [] -> Forall fw_ok fs -> NoDup (address <$> fs) ->
  addr_ok group -> addr_ok source -> 50 <= zlen buf -> zlen hdr = sizeof_pim ->
  exists w, w ∈ fs /\
    (forall f, f ∈ fs -> f <> w -> decides group source buf hdr rest w f true /\ decides group source buf hdr rest f w false) /\
    (forall w', w' ∈ fs -> (forall f, f ∈ fs -> f <> w' -> decides group source buf hdr rest w' f true) -> w' = w).
Proof.
  intros Ne F ND Hg Hs L Zh. destruct (best_exists fs Ne F ND) as (w & Hw & B). pose proof (proj1 (Forall_forall _ _) F) as F'.
  assert (Ad : forall f, f ∈ fs -> f <> w -> address f <> address w) by (intros f Hf N E; apply N; by eapply same_address).
  assert (D : forall f g, f ∈ fs -> g ∈ fs -> decides group source buf hdr rest f g (better f g)).
  { intros f g Hf Hg'. apply decides_better; auto. }
  assert (Lose : forall f, f ∈ fs -> f <> w -> decides group source buf hdr rest f w false).
  { intros f Hf N. specialize (D f w Hf Hw). rewrite (better_total w f), B in D; auto. by apply not_eq_sym, Ad. }
  exists w. split_and!; [done| |].
  - intros f Hf N. split; [|by apply Lose]. specialize (D w f Hw Hf). rewrite B in D; auto.
  - intros w' Hw' All. destruct (decide (address w' = address w)) as [E|E]; [by eapply same_address|].
    assert (w <> w') as N by (intros ->; done). specialize (All w Hw N). specialize (Lose w' Hw' (not_eq_sym N)).
    by pose proof (decides_once _ _ _ _ _ _ _ _ _ All Lose).
Qed.

(** Two routers that know the source, with different metrics, and one with a
    (star,G) route; the first two have the same preference. *)
Definition a_route (flags preference metric : Z) : mrtentry :=
  mkMrt None None None None None None 0 0 0 0 0 0 None metric preference sockaddr6_any [] [] flags 0 0 0 0 0 None.
Definition a_forwarder (b index flags preference metric : Z) : forwarder :=
  let here := mkSa index ([0xfe; 0x80] ++ replicate 13 0 ++ [b]) in
  mkFwd (a_route flags preference metric) (mkVif 0 index 0 [] 101 1024 [] (Some (mkPhaddr here here here [])) 0 0 0) here.

Lemma a_forwarder_ok b index flags preference metric : 0 <= b < 256 -> 0 <= index < 2 ^ 32 -> 0 <= preference < 2 ^ 31 -> 0 <= metric < 2 ^ 32 ->
  fw_ok (a_forwarder b index flags preference metric).
Proof. intros. split; [done|split; [done|]|done|done]. split; [done|]. cbn. repeat (apply Forall_cons; split; [unfold is_byte; lia|]). constructor. Qed.

Lemma assert_one_winner_witness :
  let fs := [a_forwarder 1 2 MRTF_SG 101 20; a_forwarder 2 5 MRTF_SG 101 10; a_forwarder 3 2 (Z.lor MRTF_WC MRTF_RP) 50 1] in
  let group := 0xff :: 0x0e :: replicate 13 0 ++ [9] in
  let source := 0x20 :: 0x01 :: replicate 13 0 ++ [7] in
  exists w, w ∈ fs /\
    (forall f, f ∈ fs -> f <> w -> decides group source (replicate 50 0) [0x25; 0; 0; 0] [] w f true /\
                                  decides group source (replicate 50 0) [0x25; 0; 0; 0] [] f w false) /\
    (forall w', w' ∈ fs -> (forall f, f ∈ fs -> f <> w' -> decides group source (replicate 50 0) [0x25; 0; 0; 0] [] w' f true) -> w' = w).
Proof.
  intros fs group source. apply (assert_one_winner group source (replicate 50 0) [0x25; 0; 0; 0] [] fs); try done.
  - unfold fs. repeat (apply Forall_cons; split; [by apply a_forwarder_ok|]). constructor.
  - apply (bool_decide_unpack _). by vm_compute.
  - split; [done|]. repeat (apply Forall_cons; split; [unfold is_byte; lia|]). constructor.
  - split; [done|]. repeat (apply Forall_cons; split; [unfold is_byte; lia|]). constructor.
Defined.
