(* ===== verification/PimNbrOk.v ===== *)
(** * PimNbrOk: hello messages and the neighbours

    A hello message that one router puts together is read by another with its
    holdtime and addresses. *)

From stdpp Require Import base list numbers gmap.
From S2P Require Import Prelude Inet6 Pim RpMatch Vif Mrt PimMsg PimSend PimBsr PimJp PimNbr.
Open Scope Z_scope.

(** ** What a message says *)

(** An option of the type [type] with the addresses [l]. *)
Definition enc_addrs (type : Z) (l : list (list Z)) : list Z := be16 type ++ be16 (18 * zlen l) ++ concat (enc_uni <$> l).
Definition enc_hello (holdtime : Z) (l : list (list Z)) : list Z :=
  be16 PIM_MESSAGE_HELLO_HOLDTIME ++ be16 PIM_MESSAGE_HELLO_HOLDTIME_LENGTH ++ be16 holdtime ++
  match l with [] => [] | _ => enc_addrs PIM_MESSAGE_HELLO_ADDR_LIST l ++ enc_addrs PIM_MESSAGE_HELLO_ADDRESSES l end.

(** The addresses that go into a message. *)
Definition told (from : sockaddr_in6) (addrs : list phaddr) : list (list Z) :=
  (fun pa => sin6_addr (pa_addr pa)) <$> filter (fun pa => inet6_equal from (pa_addr pa) = false) addrs.

Lemma zlen_enc_unis l : Forall (fun a => length a = 16%nat) l -> zlen (concat (enc_uni <$> l)) = 18 * zlen l.
Proof.
  induction 1 as [|a l H _ IH]; [done|]. rewrite fmap_cons, zlen_cons. cbn [concat]. rewrite zlen_app, zlen_enc_uni, IH by done. lia.
Qed.

Definition hello_head (holdtime : Z) : list Z :=
  be16 PIM_MESSAGE_HELLO_HOLDTIME ++ be16 PIM_MESSAGE_HELLO_HOLDTIME_LENGTH ++ be16 holdtime.
Lemma enc_hello_some holdtime l : l <> [] ->
  enc_hello holdtime l = hello_head holdtime ++ enc_addrs PIM_MESSAGE_HELLO_ADDR_LIST l ++ enc_addrs PIM_MESSAGE_HELLO_ADDRESSES l.
Proof. unfold enc_hello, hello_head. rewrite <- !app_assoc. by destruct l. Qed.
Lemma enc_hello_none holdtime : enc_hello holdtime [] = hello_head holdtime.
Proof. done. Qed.

(** ** Writing *)

Lemma put_addrs_written from addrs : forall n pre c, written n pre c -> Forall (fun a => length a = 16%nat) (told from addrs) ->
  zlen pre + 18 * zlen (told from addrs) <= n ->
  exists c', put_addrs from addrs c = Some c' /\ written n (pre ++ concat (enc_uni <$> told from addrs)) c'.
Proof.
  induction addrs as [|pa addrs IH]; intros n pre c W F H; cbn [put_addrs].
  - exists c. split; [done|]. by rewrite app_nil_r.
  - unfold told in *. rewrite filter_cons in *. destruct (inet6_equal from (pa_addr pa)).
    + rewrite decide_False in * by done. by apply IH.
    + rewrite decide_True in * by done. rewrite fmap_cons in *. apply Forall_cons in F as [Ha F]. rewrite zlen_cons in H.
      pose proof (zlen_nonneg ((fun pa => sin6_addr (pa_addr pa)) <$> filter (fun pa => inet6_equal from (pa_addr pa) = false) addrs)).
      destruct (PUT_EUADDR6_written n pre c _ W Ha) as (c1 & -> & W1); [lia|]. cbn [mbind option_bind].
      destruct (IH n _ c1 W1 F) as (c' & -> & W'); [rewrite zlen_app, zlen_enc_uni by done; lia|].
      exists c'. split; [done|]. rewrite fmap_cons. cbn [concat]. by rewrite app_assoc.
Qed.

Lemma take_written n pre c k : written n pre c -> k = zlen pre -> take (Z.to_nat k) c.1 = pre.
Proof. intros (_ & _ & T) ->. by rewrite zlen_to_nat. Qed.

(** The message is put together in the send buffer, behind the place of the
    header. *)
Lemma hello_message_written holdtime from addrs buf : 0 <= holdtime < 65536 ->
  Forall (fun a => length a = 16%nat) (told from addrs) -> zlen (told from addrs) < 3600 ->
  18 + 36 * zlen (told from addrs) <= zlen buf ->
  exists c, hello_message holdtime from addrs buf = Some c /\ c.2 = sizeof_pim + zlen (enc_hello holdtime (told from addrs)) /\
    take (Z.to_nat c.2) c.1 = take 4 buf ++ enc_hello holdtime (told from addrs).
Proof.
  intros Hh F Hn L. set (l := told from addrs) in *. pose proof (zlen_nonneg l) as Pl. pose proof (zlen_enc_unis l F) as ZA.
  assert (L4 : zlen (take 4 buf) = 4) by (unfold zlen in *; rewrite length_take; lia).
  assert (W : written (zlen buf) (take 4 buf) (buf, sizeof_pim)).
  { split; [by rewrite L4|]. split; [done|]. cbn [fst]. f_equal. unfold zlen in L4. lia. }
  unfold hello_message.
  destruct (PUT_HOSTSHORT_written _ _ _ W PIM_MESSAGE_HELLO_HOLDTIME) as (c1 & -> & W1); [lia|]. cbn [mbind option_bind].
  destruct (PUT_HOSTSHORT_written _ _ _ W1 PIM_MESSAGE_HELLO_HOLDTIME_LENGTH) as (c2 & -> & W2); [rewrite zlen_app, zlen_be16; lia|]. cbn [mbind option_bind].
  destruct (PUT_HOSTSHORT_written _ _ _ W2 holdtime) as (c3 & -> & W3); [rewrite !zlen_app, !zlen_be16; lia|]. cbn [mbind option_bind].
  rewrite (u16_small holdtime) in W3 by done. set (pre := (((take 4 buf ++ _) ++ _) ++ _)) in W3.
  assert (Zp : zlen pre = 10) by (unfold pre; rewrite !zlen_app, L4; done).
  destruct (written_skip _ _ _ 4 W3) as (old & Lo & Wo); [lia|]. change (Z.of_nat 4) with 4 in Wo.
  assert (Zo : zlen old = 4) by (unfold zlen; by rewrite Lo).
  destruct (put_addrs_written from addrs _ _ _ Wo F) as (c' & -> & W'); [rewrite zlen_app, Zp, Zo; fold l; lia|].
  fold l in W'. cbn [mbind option_bind]. set (A := concat (enc_uni <$> l)) in *.
  assert (E3 : c3.2 = 10) by (destruct W3 as [-> _]; done).
  assert (E' : c'.2 = 14 + 18 * zlen l) by (destruct W' as [-> _]; rewrite !zlen_app, Zp, Zo, ZA; lia).
  rewrite E3, E'. replace (14 + 18 * zlen l - 10 - 4) with (18 * zlen l) by lia.
  assert (Epre : pre = take 4 buf ++ hello_head holdtime) by (unfold pre, hello_head; by rewrite <- !app_assoc).
  case_decide as D.
  - assert (Ec : slice c'.1 10 (14 + 18 * zlen l - 10) = Some (old ++ A)).
    { rewrite <- (app_nil_r ((pre ++ old) ++ A)), <- !app_assoc, (app_assoc old) in W'.
      replace (14 + 18 * zlen l - 10) with (zlen (old ++ A)) by (rewrite zlen_app, Zo, ZA; lia).
      rewrite <- Zp. exact (slice_written _ _ _ _ _ W'). }
    rewrite Ec. cbn [mbind option_bind].
    destruct (put_written _ _ c' (old ++ A) W') as (c4 & P4 & W4); [rewrite !zlen_app, Zp, Zo, ZA; lia|].
    unfold put in P4. destruct (store c'.1 c'.2 (old ++ A)) as [b|] eqn:Sb; [|done]. cbn in P4. injection P4 as <-.
    rewrite E' in Sb. rewrite Sb. cbn [mbind option_bind].
    do 4 (destruct old as [|? old]; [discriminate Lo|]). destruct old; [|discriminate Lo]. clear Lo.
    set (q := c'.2 + _) in W4. unfold PUT_HOSTSHORT.
    assert (W5 : written (zlen buf) ((pre ++ [z; z0; z1; z2] ++ A) ++ [z; z0] ++ [z1; z2] ++ A) (b, q)).
    { revert W4. by rewrite <- ?app_assoc. }
    destruct (put_over _ _ _ (be16 (u16 PIM_MESSAGE_HELLO_ADDRESSES)) _ _ (14 + 18 * zlen l) _ W5) as (m1 & -> & _ & W6);
      [rewrite !zlen_app, Zp, ZA; change (zlen [z; z0; z1; z2]) with 4; lia|done|]. cbn [mbind option_bind].
    change (zlen (be16 _)) with 2.
    assert (W7 : written (zlen buf) ((pre ++ [z; z0; z1; z2] ++ A ++ be16 (u16 PIM_MESSAGE_HELLO_ADDRESSES)) ++ [z1; z2] ++ A) (m1, q)).
    { revert W6. by rewrite <- ?app_assoc. }
    destruct (put_over _ _ _ (be16 (u16 (18 * zlen l))) _ _ (14 + 18 * zlen l + 2) _ W7) as (m2 & -> & _ & W8);
      [rewrite !zlen_app, Zp, ZA; change (zlen [z; z0; z1; z2]) with 4; rewrite zlen_be16; lia|done|]. cbn [mbind option_bind fst snd].
    change (zlen (be16 _)) with 2.
    assert (W9 : written (zlen buf) (pre ++ [z; z0] ++ [z1; z2] ++ A ++ be16 (u16 PIM_MESSAGE_HELLO_ADDRESSES) ++ be16 (u16 (18 * zlen l)) ++ A) (m2, q)).
    { revert W8. by rewrite <- ?app_assoc. }
    destruct (put_over _ _ _ (be16 (u16 PIM_MESSAGE_HELLO_ADDR_LIST)) _ _ 10 _ W9) as (m3 & -> & _ & W10); [done..|]. cbn [mbind option_bind].
    change (zlen (be16 _)) with 2. rewrite app_assoc in W10.
    destruct (put_over _ _ _ (be16 (u16 (18 * zlen l))) _ _ (10 + 2) _ W10) as (m4 & -> & _ & W11);
      [rewrite !zlen_app, Zp; done|done|]. cbn [mbind option_bind fst snd].
    rewrite (u16_small (18 * zlen l)) in W11 by lia.
    assert (Eq : 14 + 18 * zlen l + 2 + 2 + 18 * zlen l = q) by (unfold q; rewrite E', zlen_app, ZA; change (zlen [z; z0; z1; z2]) with 4; lia).
    change (zlen (be16 (u16 (18 * zlen l)))) with 2. rewrite Eq.
    eexists. split; [reflexivity|]. cbn [fst snd].
    pose proof (take_written _ _ _ q W11 (proj1 W11)) as T11. cbn [fst] in T11. rewrite T11. destruct W11 as (E11 & _). cbn [snd] in E11.
    rewrite enc_hello_some by (intros N; rewrite N in D; by cbn in D). unfold enc_addrs. fold A.
    split; [rewrite E11|]; rewrite Epre; [|by rewrite <- !app_assoc].
    rewrite !zlen_app, !zlen_be16, L4. unfold sizeof_pim. lia.
  - assert (l = []) as El by (destruct l as [|a l']; [done|rewrite zlen_cons in D; pose proof (zlen_nonneg l'); lia]).
    exists (c'.1, 10). split; [done|]. rewrite El, enc_hello_none. cbn [fst snd]. split; [done|].
    rewrite <- Epre, (written_split _ _ _ W'), <- Zp, zlen_to_nat, <- !app_assoc. by rewrite take_app_length.
Qed.

(** ** Reading *)

(** The addresses the receiver remembers: each once, the sender's own not; the
    last one first. *)
Definition learn (from : list Z) (known : list phaddr) (a : list Z) : list phaddr :=
  if IN6_ARE_ADDR_EQUAL a from || existsb (fun pa => IN6_ARE_ADDR_EQUAL (sin6_addr (pa_addr pa)) a) known then known else bare a :: known.
Definition learned (from : list Z) (l : list (list Z)) (known : list phaddr) : list phaddr := foldl (learn from) known l.

Section Reading.
Context (msg : list Z) (src : sockaddr_in6) (s : Pim) (Hm : mallocs s = []).

Lemma hello_addrs_read l : forall fuel pre post known h, Forall (fun a => length a = 16%nat) l ->
  msg = pre ++ concat (enc_uni <$> l) ++ post -> (length l < fuel)%nat ->
  hello_addrs fuel msg src (zlen pre + 18 * zlen l) (zlen pre) (mkHello h known) s =
  Ok (Some (mkHello h (learned (sin6_addr src) l known), zlen pre + 18 * zlen l)) s.
Proof.
  induction l as [|a l IH]; intros [|fuel] pre post known h F Em Hf; cbn [length] in Hf; try lia; cbn [hello_addrs].
  - change (zlen []) with 0. rewrite Z.mul_0_r, Z.add_0_r, decide_True by lia. done.
  - apply Forall_cons in F as [Ha F]. rewrite zlen_cons. pose proof (zlen_nonneg l). rewrite decide_False by lia.
    rewrite fmap_cons in Em. cbn [concat] in Em. rewrite <- app_assoc in Em.
    assert (Er : rd msg (zlen pre) = Some ADDRF_IPv6).
    { rewrite Em. rewrite rd_app_r, Z.sub_diag by lia. done. }
    rewrite Er. rewrite bind_of_Some. cbn [Z.eqb negb ADDRF_IPv6 Pos.eqb]. rewrite decide_False by lia.
    rewrite Em at 1. rewrite GET_EUADDR6_at by done. rewrite bind_of_Some. cbn [unicast_addr ho_addrs ho_holdtime].
    assert (Z' : zlen (pre ++ enc_uni a) = zlen pre + 18) by (by rewrite zlen_app, zlen_enc_uni).
    replace (zlen pre + 18 * (1 + zlen l)) with (zlen (pre ++ enc_uni a) + 18 * zlen l) by lia.
    unfold learned. cbn [foldl]. fold (learned (sin6_addr src) l (learn (sin6_addr src) known a)).
    assert (Em' : msg = (pre ++ enc_uni a) ++ concat (enc_uni <$> l) ++ post) by (by rewrite <- app_assoc).
    unfold learn at 1. destruct (_ || _).
    + by apply (IH fuel _ post); [|exact Em'|lia].
    + assert (M : next_malloc s = Ok true s) by (unfold next_malloc; by rewrite Hm). rewrite (bind_Ok _ _ _ _ _ M). cbn [negb].
      by apply (IH fuel _ post); [|exact Em'|lia].
Qed.

(** An option with addresses. *)
Lemma hello_option_addrs type l fuel pre post known h end_of_message :
  type = PIM_MESSAGE_HELLO_ADDRESSES \/ type = PIM_MESSAGE_HELLO_ADDR_LIST ->
  Forall (fun a => length a = 16%nat) l -> zlen l < 3600 -> msg = pre ++ enc_addrs type l ++ post ->
  zlen pre + 4 <= end_of_message ->
  hello_options (S fuel) msg src end_of_message (zlen pre) (mkHello h known) true s =
  hello_options fuel msg src end_of_message (zlen pre + (4 + 18 * zlen l)) (mkHello h (learned (sin6_addr src) l known)) true s.
Proof.
  intros Ht F Hl Em He. pose proof (zlen_nonneg l). cbn [hello_options]. unfold sizeof_hello. rewrite decide_True by lia.
  unfold enc_addrs in Em. rewrite <- !app_assoc in Em. rewrite Em at 1.
  rewrite GET_HOSTSHORT_at by (destruct Ht as [-> | ->]; done). rewrite bind_of_Some.
  rewrite Em at 1. rewrite (app_assoc pre), GET_HOSTSHORT_at by lia. rewrite bind_of_Some.
  assert ((type =? PIM_MESSAGE_HELLO_HOLDTIME) = false) as -> by (destruct Ht as [-> | ->]; done).
  assert ((type =? PIM_MESSAGE_HELLO_ADDRESSES) || (type =? PIM_MESSAGE_HELLO_ADDR_LIST) = true) as -> by (destruct Ht as [-> | ->]; done).
  set (q := (pre ++ be16 type) ++ be16 (18 * zlen l)). assert (Zq : zlen q = zlen pre + 4) by (unfold q; by rewrite !zlen_app, !zlen_be16; lia).
  rewrite (bind_Ok _ _ _ _ _ (hello_addrs_read l (S (Z.to_nat (18 * zlen l))) q post known h F ltac:(unfold q; by rewrite <- !app_assoc) ltac:(unfold zlen in *; lia))).
  cbn beta iota. f_equal. lia.
Qed.

(** The holdtime. *)
Lemma hello_head_read h fuel hdr post eom : 0 <= h < 65536 -> zlen hdr = sizeof_pim -> 10 <= eom -> msg = hdr ++ hello_head h ++ post ->
  hello_options (S fuel) msg src eom sizeof_pim (mkHello 0 []) false s =
  hello_options fuel msg src eom (zlen (hdr ++ hello_head h)) (mkHello h []) true s.
Proof.
  intros Hh Zh Le Em. cbn [hello_options]. unfold sizeof_hello. rewrite decide_True by (unfold sizeof_pim; lia).
  unfold hello_head in *. rewrite <- !app_assoc in Em. rewrite Em at 1. rewrite <- Zh, GET_HOSTSHORT_at by done. rewrite bind_of_Some.
  rewrite Em at 1. rewrite (app_assoc hdr), GET_HOSTSHORT_at by done. rewrite bind_of_Some. cbn [Z.eqb Pos.eqb negb PIM_MESSAGE_HELLO_HOLDTIME PIM_MESSAGE_HELLO_HOLDTIME_LENGTH].
  rewrite Em at 1. rewrite (app_assoc hdr), (app_assoc _ (be16 PIM_MESSAGE_HELLO_HOLDTIME_LENGTH)), GET_HOSTSHORT_at by done.
  rewrite bind_of_Some. cbn [ho_addrs]. f_equal. by rewrite <- !app_assoc.
Qed.

(** The whole message. *)
Lemma parse_hello_read l h hdr rest : Forall (fun a => length a = 16%nat) l -> zlen l < 3600 -> 0 <= h < 65536 -> zlen hdr = sizeof_pim ->
  msg = hdr ++ enc_hello h l ++ rest ->
  parse_pim6_hello msg (sizeof_pim + zlen (enc_hello h l)) src s =
  Ok (Some (mkHello h (learned (sin6_addr src) l (learned (sin6_addr src) l [])))) s.
Proof.
  intros F Hl Hh Zh Em. unfold parse_pim6_hello. pose proof (zlen_nonneg l) as Pl. pose proof (zlen_enc_unis l F) as ZA.
  set (eom := sizeof_pim + zlen (enc_hello h l)).
  assert (Zt : forall t, zlen (enc_addrs t l) = 4 + 18 * zlen l) by (intros t; unfold enc_addrs; rewrite !zlen_app, !zlen_be16, ZA; lia).
  assert (Zhd : zlen (hello_head h) = 6) by done.
  assert (Le : 10 <= eom).
  { unfold eom, sizeof_pim. destruct l as [|a l']; [rewrite enc_hello_none; lia|rewrite enc_hello_some by done; rewrite !zlen_app, !Zt; lia]. }
  assert (exists k, S (Z.to_nat eom) = S (S (S (S k)))) as [k ->] by (exists (Z.to_nat eom - 3)%nat; lia).
  assert (Zq : zlen (hdr ++ hello_head h) = 10) by (rewrite zlen_app, Zh, Zhd; done).
  destruct (decide (l = [])) as [-> |Nl].
  - rewrite enc_hello_none in *. rewrite (hello_head_read h (S (S (S k))) hdr rest eom) by done. rewrite Zq.
    cbn [hello_options]. unfold sizeof_hello. assert (eom = 10) as -> by (unfold eom; done). done.
  - rewrite enc_hello_some in * by done. rewrite <- !app_assoc in Em.
    rewrite (hello_head_read h (S (S (S k))) hdr _ eom) by (try exact Em; done).
    assert (Eeom : eom = 10 + (4 + 18 * zlen l) + (4 + 18 * zlen l)) by (unfold eom; rewrite enc_hello_some, !zlen_app, !Zt, Zhd by done; unfold sizeof_pim; lia).
    rewrite (hello_option_addrs PIM_MESSAGE_HELLO_ADDR_LIST l _ (hdr ++ hello_head h) (enc_addrs PIM_MESSAGE_HELLO_ADDRESSES l ++ rest));
      [|by right|done|done|by rewrite <- app_assoc|lia].
    replace (zlen (hdr ++ hello_head h) + (4 + 18 * zlen l)) with (zlen (hdr ++ hello_head h ++ enc_addrs PIM_MESSAGE_HELLO_ADDR_LIST l))
      by (rewrite !zlen_app, Zt in *; lia).
    rewrite (hello_option_addrs PIM_MESSAGE_HELLO_ADDRESSES l _ _ rest);
      [|by left|done|done|by rewrite <- !app_assoc|rewrite !zlen_app, Zt in *; lia].
    replace (zlen _ + (4 + 18 * zlen l)) with eom by (rewrite !zlen_app, Zt in *; lia).
    cbn [hello_options]. unfold sizeof_hello. rewrite decide_False by lia. by rewrite Z.eqb_refl.
Qed.
End Reading.

Definition addr_of (pa : phaddr) : list Z := sin6_addr (pa_addr pa).

Lemma known_iff a known : existsb (fun pa => IN6_ARE_ADDR_EQUAL (sin6_addr (pa_addr pa)) a) known = true <-> a ∈ addr_of <$> known.
Proof.
  rewrite existsb_exists, list_elem_of_fmap. unfold IN6_ARE_ADDR_EQUAL. split.
  - intros (pa & Hi & E). apply bool_decide_eq_true in E. exists pa. by rewrite list_elem_of_In.
  - intros (pa & -> & Hi). exists pa. rewrite <- list_elem_of_In, bool_decide_eq_true. done.
Qed.

Lemma learned_spec from l : forall known, NoDup (addr_of <$> known) ->
  NoDup (addr_of <$> learned from l known) /\
  forall a, a ∈ addr_of <$> learned from l known <-> a ∈ addr_of <$> known \/ a ∈ l /\ a <> from.
Proof.
  induction l as [|b l IH]; intros known ND; cbn.
  - split; [done|]. intros a. rewrite elem_of_nil. tauto.
  - fold (learned from l (learn from known b)).
    assert (NoDup (addr_of <$> learn from known b) /\ forall a, a ∈ addr_of <$> learn from known b <-> a ∈ addr_of <$> known \/ a = b /\ a <> from) as [ND' E].
    { unfold learn. destruct (IN6_ARE_ADDR_EQUAL b from || _) eqn:D.
      - split; [done|]. intros a. apply orb_true_iff in D as [D|D].
        + unfold IN6_ARE_ADDR_EQUAL in D. apply bool_decide_eq_true in D as ->. naive_solver.
        + apply known_iff in D. naive_solver.
      - apply orb_false_iff in D as [D1 D2]. unfold IN6_ARE_ADDR_EQUAL in D1. apply bool_decide_eq_false in D1.
        assert (b ∉ addr_of <$> known) by (intros Hb; apply known_iff in Hb; congruence).
        rewrite fmap_cons. change (addr_of (bare b)) with b. split; [by constructor|]. intros a. rewrite elem_of_cons. naive_solver. }
    destruct (IH _ ND') as [N Hi]. split; [done|]. intros a. rewrite Hi, E, elem_of_cons. naive_solver.
Qed.

(** ** Properties *)

(** C9. a hello message that a router sends on an interface is taken by every
    receiver, whatever else is in its buffer: it learns the holdtime, and
    of the addresses of the sender's interface all but the one it already
    knows, each once. *)
Theorem hello_roundtrip vifi v from holdtime s :
  rd (uvifs s) vifi = Some v -> pa_addr <$> uv_linklocal v = Some from -> IN6_IS_ADDR_LINKLOCAL (sin6_addr from) = true ->
  Forall (fun pa => length (addr_of pa) = 16%nat) (uv_addrs v) -> zlen (uv_addrs v) < 3600 ->
  18 + 36 * zlen (uv_addrs v) <= zlen (pim6_send_buf (vars s)) -> 0 <= holdtime < 65536 ->
  exists s' p, send_pim6_hello vifi holdtime s = Ok tt s' /\ sent (vars s') = sent (vars s) ++ [p] /\
    pk_src p = from /\ pk_dst p = allpim6routers_group /\ pk_type p = PIM_HELLO /\
    forall src rest s1, sin6_addr src = sin6_addr from -> mallocs s1 = [] ->
      exists opts, parse_pim6_hello (pk_data p ++ rest) (zlen (pk_data p)) src s1 = Ok (Some opts) s1 /\
        ho_holdtime opts = holdtime /\ NoDup (addr_of <$> ho_addrs opts) /\
        forall a, a ∈ addr_of <$> ho_addrs opts <-> a ∈ addr_of <$> uv_addrs v /\ a <> sin6_addr from.
Proof.
  intros Ev El LL F Hn L Hh. set (l := told from (uv_addrs v)).
  assert (Ll : zlen l <= zlen (uv_addrs v)).
  { unfold l, told, zlen. rewrite length_fmap. pose proof (length_filter (fun pa => inet6_equal from (pa_addr pa) = false) (uv_addrs v)). lia. }
  assert (Fl : Forall (fun a => length a = 16%nat) l).
  { unfold l, told. apply Forall_fmap, Forall_forall. intros pa Hp. apply list_elem_of_filter in Hp as [_ Hp]. by apply (proj1 (Forall_forall _ _) F). }
  destruct (hello_message_written holdtime from (uv_addrs v) (pim6_send_buf (vars s)) Hh Fl) as ([m q] & Em & Eq & T); [fold l; lia..|].
  cbn [fst snd] in *. fold l in Eq, T. set (body := enc_hello holdtime l) in *.
  assert (L4 : zlen (take 4 (pim6_send_buf (vars s))) = 4) by (pose proof (zlen_nonneg l); unfold zlen in *; rewrite length_take; lia).
  assert (Lm : q <= zlen m).
  { apply (f_equal zlen) in T. rewrite zlen_app, L4 in T. unfold zlen at 1 in T. rewrite length_take in T. unfold sizeof_pim, zlen in *. lia. }
  unfold send_pim6_hello. rewrite (bind_Ok _ _ _ _ _ (vif_Ok s vifi v Ev)). unfold linklocal. rewrite El, bind_of_Some, get_bind, Em, bind_of_Some.
  set (s2 := set_vars (set_pim6_send_buf m (vars s)) s).
  assert (E2 : slice (pim6_send_buf (vars s2)) sizeof_pim (q - sizeof_pim) = Some body).
  { change (pim6_send_buf (vars s2)) with m. rewrite <- (take_drop (Z.to_nat q) m), T, <- app_assoc.
    replace (q - sizeof_pim) with (zlen body) by lia. unfold sizeof_pim. rewrite <- L4. apply slice_app_mid. }
  destruct (send_pim6_Ok from allpim6routers_group PIM_HELLO (q - sizeof_pim) body s2 E2 ltac:(done) ltac:(done)) as (ck & buf' & _ & _ & Es).
  rewrite (bind_Ok _ _ _ _ _ (eq_refl : upd_vars (set_pim6_send_buf m) s = Ok tt s2)). rewrite (bind_Ok _ _ _ _ _ Es), get_bind.
  set (p := mkPacket _ _ _ _). set (s3 := set_vars _ s2).
  destruct (upd_vif_Ok s3 vifi v (set_uv_pim_hello_timer (pim_hello_period (vars s3))) Ev) as (vs & _ & ->).
  exists (set_uvifs vs s3), p. do 5 (split; [done|]). intros src rest s1 Hs Hm.
  assert (Ep : pk_data p = pim_header PIM_HELLO ck ++ body) by done. rewrite Ep, zlen_app. change (zlen (pim_header PIM_HELLO ck)) with sizeof_pim.
  eexists. split; [eapply (parse_hello_read _ src s1 Hm l holdtime (pim_header PIM_HELLO ck) rest Fl); [lia|done|done|by rewrite <- app_assoc]|].
  split; [done|]. cbn [ho_addrs]. rewrite Hs.
  destruct (learned_spec (sin6_addr from) l [] ltac:(constructor)) as [N1 I1].
  destruct (learned_spec (sin6_addr from) l _ N1) as [N2 I2]. split; [done|]. intros a. rewrite I2, I1. cbn [fmap list_fmap].
  rewrite elem_of_nil. assert (Hl : a <> sin6_addr from -> a ∈ l <-> a ∈ addr_of <$> uv_addrs v); [|tauto].
  intros Na. unfold l, told. rewrite !list_elem_of_fmap. split.
  - intros (pa & -> & Hp). apply list_elem_of_filter in Hp as [_ Hp]. by exists pa.
  - intros (pa & -> & Hp). exists pa. split; [done|]. apply list_elem_of_filter. split; [|done].
    destruct (inet6_equal from (pa_addr pa)) eqn:Q; [|done]. apply inet6_equal_eq in Q. by rewrite Q in Na.
Qed.

(** An interface with a link-local and two other addresses. *)
Definition hello_vif : uvif :=
  let pa a := mkPhaddr a (mkSa 0 in6addr_any) (mkSa 0 in6addr_any) in6addr_any in
  mkVif 0 2 0 [pa (ip6 [0x20; 0x01] 1); pa (ip6 [0xfe; 0x80] 1); pa (ip6 [0x20; 0x02] 1)] 101 1024 [] (Some (pa (ip6 [0xfe; 0x80] 1))) 0 0 0.
Definition hello_router : Pim :=
  mkPim ∅ ∅ ∅ ∅ ∅ ∅ ∅ 0 [] None None None None [] [hello_vif] 1 1 (ip6 [0xff; 0x30] 0) [] (fun a => (a, 0))
    (set_pim6_send_buf (replicate 200 0) idle_vars).

Lemma hello_roundtrip_witness :
  exists s' p, send_pim6_hello 0 105 hello_router = Ok tt s' /\ sent (vars s') = sent (vars hello_router) ++ [p] /\
    pk_src p = ip6 [0xfe; 0x80] 1 /\ pk_dst p = allpim6routers_group /\ pk_type p = PIM_HELLO /\
    forall src rest s1, sin6_addr src = sin6_addr (ip6 [0xfe; 0x80] 1) -> mallocs s1 = [] ->
      exists opts, parse_pim6_hello (pk_data p ++ rest) (zlen (pk_data p)) src s1 = Ok (Some opts) s1 /\
        ho_holdtime opts = 105 /\ NoDup (addr_of <$> ho_addrs opts) /\
        forall a, a ∈ addr_of <$> ho_addrs opts <-> a ∈ addr_of <$> uv_addrs hello_vif /\ a <> sin6_addr (ip6 [0xfe; 0x80] 1).
Proof.
  apply (hello_roundtrip 0 hello_vif (ip6 [0xfe; 0x80] 1) 105 hello_router); [done..| | | |lia].
  - repeat (apply Forall_cons; split; [done|]). constructor.
  - vm_compute. done.
  - vm_compute. discriminate.
Defined.
