(* ===== verification/PimLogic.v ===== *)
(** * PimLogic: separation logic for the memory of the routing daemon

    A structure of mrt.h is on several lists by different members: a routing
    entry is on the list of its group and on the list of its source.  The logic
    therefore owns members, not structures: a cell is a facet (some members of
    one kind of structure) at an address, and the assertion [i ↦[f] c] says that
    facet [f] of the structure at [i] is [c].  [SI] ties the cells to the memory;
    [wps c Φ] says that [c] ends with a result [r] such that [Φ r] holds, from
    what is owned here, without a bad access and without [exit]. *)

From iris.proofmode Require Import proofmode.
From iris.base_logic.lib Require Import iprop own ghost_map.
From S2P Require Import Prelude Inet6 Links Pim RpMatch Vif Mrt.
Open Scope Z_scope.

(** ** Facets and cells *)

Inductive facet :=
| Fsl (* next, prev of a source *) | Fsi (* address, incoming, upstream *) | Fsm (* mrtlink *)
| Fgl (* next, prev of a group *) | Fgr (* rpnext, rpprev *) | Fga (* group *) | Fgm (* mrtlink *)
| Fgx (* active_rp_grp *) | Fgw (* grp_route *)
| Fml (* grpnext, grpprev of an entry *) | Fms (* srcnext, srcprev *) | Fmo (* what it is *)
| Fmk (* kernel_cache *)
| Fk (* next, prev of a cache entry *) | Frg (* grplink of an RP-set entry *).

#[export] Instance facet_eq_dec : EqDecision facet.
Proof. solve_decision. Defined.
#[export] Instance facet_countable : Countable facet.
Proof.
  apply (inj_countable
    (fun f => match f with Fsl => 0 | Fsi => 1 | Fsm => 2 | Fgl => 3 | Fgr => 4 | Fga => 5 | Fgm => 6
       | Fgx => 7 | Fgw => 8 | Fml => 9 | Fms => 10 | Fmo => 11 | Fmk => 12 | Fk => 13 | Frg => 14 end)
    (fun n => nth_error [Fsl; Fsi; Fsm; Fgl; Fgr; Fga; Fgm; Fgx; Fgw; Fml; Fms; Fmo; Fmk; Fk; Frg] (Z.to_nat n))).
  by intros [].
Qed.

(** What an entry is: its group and source, the kind bits of its flags,
    [MRTF_NEW], and the lengths of the timer arrays. *)
Record what := mkWhat {
  w_group : ptr; w_source : ptr;
  w_sg : bool; w_wc : bool; w_pm : bool; w_new : bool;
  w_timers : nat; w_delays : nat
}.

Inductive cell :=
| Link (next prev : ptr)
| Ptr (p : ptr)
| Addr (a : sockaddr_in6)
| Info (a : sockaddr_in6) (incoming : Z) (upstream : ptr)
| What (w : what).

Definition what_of (m : mrtentry) : what :=
  mkWhat (m_group m) (m_source m) (has (m_flags m) MRTF_SG) (has (m_flags m) MRTF_WC)
    (has (m_flags m) MRTF_PMBR) (has (m_flags m) MRTF_NEW)
    (length (m_vif_timers m)) (length (m_vif_deletion_delay m)).

(** The cells of a structure, [None] for the facets of others. *)
Class Node (N : Type) `{Heap N} := cells : N -> facet -> option cell.

#[export] Instance src_cells : Node srcentry := fun e f =>
  match f with
  | Fsl => Some (Link (s_next e) (s_prev e))
  | Fsi => Some (Info (s_address e) (s_incoming e) (s_upstream e))
  | Fsm => Some (Ptr (s_mrtlink e))
  | _ => None
  end.
#[export] Instance grp_cells : Node grpentry := fun g f =>
  match f with
  | Fgl => Some (Link (g_next g) (g_prev g))
  | Fgr => Some (Link (g_rpnext g) (g_rpprev g))
  | Fga => Some (Addr (g_group g))
  | Fgm => Some (Ptr (g_mrtlink g))
  | Fgx => Some (Ptr (g_active_rp_grp g))
  | Fgw => Some (Ptr (g_grp_route g))
  | _ => None
  end.
#[export] Instance mrt_cells : Node mrtentry := fun m f =>
  match f with
  | Fml => Some (Link (m_grpnext m) (m_grpprev m))
  | Fms => Some (Link (m_srcnext m) (m_srcprev m))
  | Fmo => Some (What (what_of m))
  | Fmk => Some (Ptr (m_kernel_cache m))
  | _ => None
  end.
#[export] Instance cache_cells : Node kernel_cache := fun c f =>
  match f with Fk => Some (Link (k_next c) (k_prev c)) | _ => None end.
#[export] Instance rpg_cells : Node rp_grp_entry := fun r f =>
  match f with Frg => Some (Ptr (rg_grplink r)) | _ => None end.

(** A kind of structure: which facets are its own, and what an assignment to one
    of its structures changes. *)
Class NodeOk (N : Type) `{Node N} := {
  owns : facet -> bool;
  cells_owns e f : owns f = true <-> is_Some (cells (N := N) e f)
}.
#[export] Instance src_ok : NodeOk srcentry.
Proof.
  refine {| owns f := match f with Fsl | Fsi | Fsm => true | _ => false end |}.
  intros e []; split; try done; by intros [].
Defined.
#[export] Instance grp_ok : NodeOk grpentry.
Proof.
  refine {| owns f := match f with Fgl | Fgr | Fga | Fgm | Fgx | Fgw => true | _ => false end |}.
  intros e []; split; try done; by intros [].
Defined.
#[export] Instance mrt_ok : NodeOk mrtentry.
Proof.
  refine {| owns f := match f with Fml | Fms | Fmo | Fmk => true | _ => false end |}.
  intros e []; split; try done; by intros [].
Defined.
#[export] Instance cache_ok : NodeOk kernel_cache.
Proof.
  refine {| owns f := match f with Fk => true | _ => false end |}.
  intros e []; split; try done; by intros [].
Defined.
#[export] Instance rpg_ok : NodeOk rp_grp_entry.
Proof.
  refine {| owns f := match f with Frg => true | _ => false end |}.
  intros e []; split; try done; by intros [].
Defined.

Definition cell_at (s : Pim) (f : facet) (i : nat) : option cell :=
  match f with
  | Fsl | Fsi | Fsm => srcs s !! i ≫= fun e => cells e f
  | Fgl | Fgr | Fga | Fgm | Fgx | Fgw => grps s !! i ≫= fun e => cells e f
  | Fml | Fms | Fmo | Fmk => mrts s !! i ≫= fun e => cells e f
  | Fk => caches s !! i ≫= fun e => cells e f
  | Frg => rpgs s !! i ≫= fun e => cells e f
  end.

(** What the routing table code leaves alone. *)
Definition static_r (r : rp_grp_entry) : rp_grp_entry := set_rg_grplink None r.

Record same_env (s0 : Pim) (sl gl : nat) (s : Pim) : Prop := {
  e_gmasks : gmasks s = gmasks s0;
  e_crps : crps s = crps s0;
  e_rpgs : static_r <$> rpgs s = static_r <$> rpgs s0;
  e_cand : cand_rp_list s = cand_rp_list s0;
  e_masks : grp_mask_list s = grp_mask_list s0;
  e_mallocs : mallocs s = [];
  e_uvifs : uvifs s = uvifs s0;
  e_total : total_interfaces s = total_interfaces s0;
  e_reg : reg_vif_num s = reg_vif_num s0;
  e_ssmp : ssmprefix s = ssmprefix s0;
  e_ssmm : ssmmask s = ssmmask s0;
  e_rpf : rpf s = rpf s0;
  e_srclist : srclist s = Some sl;
  e_grplist : grplist s = Some gl;
  e_brk : (brk s0 <= brk s)%nat
}.

(** The kinds whose structures the routing table code makes and frees. *)
Class Own (N : Type) `{NodeOk N} := {
  own_cell s f i : owns (N := N) f = true -> cell_at s f i = heap (N := N) s !! i ≫= fun e => cells e f;
  own_set h s f i : cell_at (set_heap (N := N) h s) f i =
    if owns (N := N) f then h !! i ≫= fun e => cells e f else cell_at s f i;
  own_facet : exists f, owns (N := N) f = true;
  own_brk (h : gmap nat N) s : brk (set_heap h s) = brk s;
  own_env (h : gmap nat N) s0 sl gl s : same_env s0 sl gl s -> same_env s0 sl gl (set_heap h s)
}.
#[export] Instance own_src : Own srcentry.
Proof. split; [by intros s []|by intros h s []|by eexists Fsl|done|by intros h s0 sl gl s []]. Qed.
#[export] Instance own_grp : Own grpentry.
Proof. split; [by intros s []|by intros h s []|by eexists Fgl|done|by intros h s0 sl gl s []]. Qed.
#[export] Instance own_mrt : Own mrtentry.
Proof. split; [by intros s []|by intros h s []|by eexists Fml|done|by intros h s0 sl gl s []]. Qed.
#[export] Instance own_cache : Own kernel_cache.
Proof. split; [by intros s []|by intros h s []|by eexists Fk|done|by intros h s0 sl gl s []]. Qed.

(** ** The logic *)

Class pimG (Σ : gFunctors) := {
  #[global] pim_inG :: ghost_mapG Σ (facet * nat) cell;
  pim_name : gname;
  pim_start : Pim; (* the memory before the table is set up *)
  pim_sl : nat; pim_gl : nat (* the first entries of the lists *)
}.
Definition pimΣ : gFunctors := #[ghost_mapΣ (facet * nat) cell].

Notation "i ↦[ f ] c" := (ghost_map_elem pim_name (f, i) (DfracOwn 1) c)
  (at level 20, f at level 50, format "i  ↦[ f ]  c") : bi_scope.
Notation "i ↦[ f ]□ c" := (ghost_map_elem pim_name (f, i) DfracDiscarded c)
  (at level 20, f at level 50, format "i  ↦[ f ]□  c") : bi_scope.

Section Logic.
Context `{!pimG Σ}.
Implicit Types (s : Pim) (i : nat) (f : facet) (c : cell).

Definition SI s : iProp Σ :=
  ∃ M, ghost_map_auth pim_name 1 M ∗
    ⌜(forall f i, M !! (f, i) = cell_at s f i) /\ (forall f i, is_Some (cell_at s f i) -> (i < brk s)%nat) /\
     same_env pim_start pim_sl pim_gl s⌝.

Definition wps {A} (c : Cmd Pim A) (Φ : A -> iProp Σ) : iProp Σ :=
  ∀ s, SI s ==∗ ∃ r s', ⌜c s = Ok r s'⌝ ∗ SI s' ∗ Φ r.

Lemma SI_env s : SI s -∗ ⌜same_env pim_start pim_sl pim_gl s⌝.
Proof. iIntros "(%M & _ & %H)". iPureIntro. apply H. Qed.

Lemma SI_cell s f i dq c : SI s -∗ ghost_map_elem pim_name (f, i) dq c -∗ ⌜cell_at s f i = Some c⌝.
Proof.
  iIntros "(%M & HM & %H & _) Hc". iDestruct (ghost_map_lookup with "HM Hc") as %E. iPureIntro. by rw -H.
Qed.

Lemma SI_brk s f i dq c : SI s -∗ ghost_map_elem pim_name (f, i) dq c -∗ ⌜(i < brk s)%nat⌝.
Proof.
  iIntros "HS Hc". iDestruct (SI_cell with "HS Hc") as %E. iDestruct "HS" as "(%M & _ & _ & %H & _)".
  iPureIntro. apply (H f). by rw E.
Qed.

(** ** Structural rules *)

Section Rules.
Context {A B : Type}.

Lemma wps_ret (a : A) Φ : Φ a -∗ wps (ret a) Φ.
Proof. iIntros "H" (s) "S !>". iExists a, s. by iFrame. Qed.

Lemma wps_bind (c : Cmd Pim A) (k : A -> Cmd Pim B) Φ : wps c (fun a => wps (k a) Φ) -∗ wps (bind c k) Φ.
Proof.
  iIntros "H" (s) "S". iMod ("H" with "S") as (r s' E) "[S H]". iMod ("H" with "S") as (r' s'' E') "[S H]".
  iModIntro. iExists r', s''. iFrame. iPureIntro. unfold bind. by rw E.
Qed.

Lemma wps_mono (c : Cmd Pim A) Φ Ψ : wps c Φ -∗ (∀ r, Φ r -∗ Ψ r) -∗ wps c Ψ.
Proof.
  iIntros "H W" (s) "S". iMod ("H" with "S") as (r s' E) "[S H]". iModIntro. iExists r, s'. iFrame "S".
  iSplit; [done|]. by iApply "W".
Qed.

Lemma wps_bupd (c : Cmd Pim A) Φ : (|==> wps c Φ) -∗ wps c Φ.
Proof. iIntros "H" (s) "S". iMod "H". by iApply "H". Qed.

Lemma wps_bind_mono (c : Cmd Pim A) (k : A -> Cmd Pim B) Φ Ψ :
  wps c Ψ -∗ (∀ a, Ψ a -∗ wps (k a) Φ) -∗ wps (bind c k) Φ.
Proof. iIntros "H W". iApply wps_bind. by iApply (wps_mono with "H"). Qed.

(** A command that changes nothing. *)
Lemma wps_pure (c : Cmd Pim A) (P : A -> Prop) R Φ :
  (∀ s, SI s -∗ R -∗ ⌜exists a, c s = Ok a s /\ P a⌝) -∗ R -∗ (∀ a, ⌜P a⌝ -∗ R -∗ Φ a) -∗ wps c Φ.
Proof.
  iIntros "H R W" (s) "S". iAssert (⌜exists a, c s = Ok a s /\ P a⌝)%I as %(a & E & Pa).
  { iApply ("H" with "S R"). }
  iModIntro. iExists a, s. iFrame "S". iSplit; [done|]. by iApply "W".
Qed.

Lemma wps_get (k : Pim -> Cmd Pim B) Φ :
  (∀ s, ⌜same_env pim_start pim_sl pim_gl s⌝ -∗ wps (k s) Φ) -∗ wps (bind get k) Φ.
Proof.
  iIntros "H" (s) "S". iDestruct (SI_env with "S") as %E. iApply ("H" with "[//] S").
Qed.

(** [get] where the fuel of a loop is taken: what holds of the memory at that
    point and only speaks of [brk]. *)
Lemma wps_get_brk (P : nat -> Prop) R (k : Pim -> Cmd Pim B) Φ :
  (∀ s, SI s -∗ R -∗ ⌜P (brk s)⌝) -∗ R -∗
  (∀ s, ⌜same_env pim_start pim_sl pim_gl s⌝ -∗ ⌜P (brk s)⌝ -∗ R -∗ wps (k s) Φ) -∗ wps (bind get k) Φ.
Proof.
  iIntros "HP R H" (s) "S". iDestruct (SI_env with "S") as %E.
  iAssert (⌜P (brk s)⌝)%I as %HP. { iApply ("HP" with "S R"). }
  iApply ("H" with "[//] [//] R S").
Qed.

Lemma wps_some (o : option A) a (k : A -> Cmd Pim B) Φ : o = Some a -> wps (k a) Φ -∗ wps (bind (of_option o) k) Φ.
Proof. intros ->. iIntros "H" (s) "S". by iApply ("H" with "S"). Qed.
End Rules.

(** ** Loads, assignments, allocation, release *)

Section Memory.
Context {Nd : Type} `{Own Nd}.

Lemma SI_node s f i dq c : owns (N := Nd) f = true -> SI s -∗ ghost_map_elem pim_name (f, i) dq c -∗
  ⌜exists e, heap (N := Nd) s !! i = Some e /\ cells e f = Some c⌝.
Proof.
  iIntros (Ho) "S C". iDestruct (SI_cell with "S C") as %E. iPureIntro. rw own_cell in E; [|done].
  destruct (heap s !! i) as [e|]; [|done]. by exists e.
Qed.

Lemma wps_load (P : Nd -> Prop) R i Φ :
  (∀ s, SI s -∗ R -∗ ⌜exists e, heap s !! i = Some e /\ P e⌝) -∗ R -∗ (∀ e, ⌜P e⌝ -∗ R -∗ Φ e) -∗
  wps (load (Some i)) Φ.
Proof.
  iIntros "L R W". iApply (wps_pure (load (Some i)) P R with "[L] R W").
  iIntros (s) "S R". iDestruct ("L" with "S R") as %(e & E & HP). iPureIntro. exists e. split; [|done].
  unfold load. cbn. by rw E.
Qed.

Lemma wps_load1 f i dq c Φ : owns (N := Nd) f = true -> ghost_map_elem pim_name (f, i) dq c -∗
  (∀ e, ⌜cells (N := Nd) e f = Some c⌝ -∗ ghost_map_elem pim_name (f, i) dq c -∗ Φ e) -∗ wps (load (Some i)) Φ.
Proof.
  iIntros (Ho) "C W". iApply (wps_load (fun e => cells e f = Some c) with "[] C W").
  iIntros (s) "S C". by iApply (SI_node with "S C").
Qed.

(** The same with two cells. *)
Lemma wps_load2 f f' i dq dq' c c' Φ : owns (N := Nd) f = true -> owns (N := Nd) f' = true ->
  ghost_map_elem pim_name (f, i) dq c -∗ ghost_map_elem pim_name (f', i) dq' c' -∗
  (∀ e, ⌜cells (N := Nd) e f = Some c⌝ -∗ ⌜cells (N := Nd) e f' = Some c'⌝ -∗
    ghost_map_elem pim_name (f, i) dq c -∗ ghost_map_elem pim_name (f', i) dq' c' -∗ Φ e) -∗ wps (load (Some i)) Φ.
Proof.
  iIntros (Ho Ho') "C C' W".
  iApply (wps_load (fun e => cells e f = Some c /\ cells e f' = Some c')
    (ghost_map_elem pim_name (f, i) dq c ∗ ghost_map_elem pim_name (f', i) dq' c') with "[] [$C $C']").
  - iIntros (s) "S [C C']". iDestruct (SI_node with "S C") as %(e & Ee & Ec); [done|].
    iDestruct (SI_node with "S C'") as %(e' & Ee' & Ec'); [done|]. iPureIntro. exists e.
    split; [done|]. split; [done|congruence].
  - iIntros (e [E1 E2]) "[C C']". iApply ("W" with "[//] [//] C C'").
Qed.

(** Assignments change one facet of one structure. *)
Definition assigns (g : Nd -> Nd) f c c' : Prop :=
  forall e, cells e f = Some c -> cells (g e) f = Some c' /\ forall f', f' <> f -> cells (g e) f' = cells e f'.

Lemma wps_upd f i c c' (g : Nd -> Nd) Φ : owns (N := Nd) f = true -> assigns g f c c' ->
  i ↦[f] c -∗ (i ↦[f] c' -∗ Φ tt) -∗ wps (upd (Some i) g) Φ.
Proof.
  iIntros (Ho Hg) "C W". iIntros (s) "S". iDestruct (SI_node with "S C") as %(e & Ei & Ec); [done|].
  destruct (Hg e Ec) as [Ec' Eo]. iDestruct "S" as "(%M & HM & %Hc & %Hb & %He)".
  iMod (ghost_map_update c' with "HM C") as "[HM C]". iModIntro. iExists tt, (set_heap (<[i := g e]> (heap s)) s).
  iSplit; [iPureIntro; unfold upd; by rw Ei|]. iSplitL "HM"; [|by iApply "W"].
  assert (K : forall f' i', cell_at (set_heap (<[i := g e]> (heap s)) s) f' i' = <[(f, i) := c']> M !! (f', i')).
  { intros f' i'. rw own_set. destruct (decide ((f', i') = (f, i))) as [[= -> ->]|Hne].
    - rw Ho !lookup_insert_eq. by cbn.
    - rw (lookup_insert_ne M); [|done]. destruct (owns f') eqn:Ho'; [|by rw Hc].
      rw Hc (own_cell s f' i'); [|done]. destruct (decide (i' = i)) as [->|Hi]; [|by rw lookup_insert_ne].
      rw lookup_insert_eq Ei. cbn. apply Eo. congruence. }
  iExists _. iFrame "HM". iPureIntro. split; [done|]. split; [|by apply own_env].
  intros f' i' Hs. rw own_brk. rw K in Hs. destruct (decide ((f', i') = (f, i))) as [[= -> ->]|Hne].
  - apply (Hb f). rw own_cell; [|done]. rw Ei. cbn. by rw Ec.
  - rw lookup_insert_ne in Hs; [|done]. rw Hc in Hs. by apply (Hb f').
Qed.

(** Assignments that no facet shows. *)
Lemma wps_upd_same f i c (g : Nd -> Nd) Φ : owns (N := Nd) f = true -> (forall e f', cells (g e) f' = cells e f') ->
  i ↦[f] c -∗ (i ↦[f] c -∗ Φ tt) -∗ wps (upd (Some i) g) Φ.
Proof.
  iIntros (Ho Hg) "C W". iApply (wps_upd f i c c with "C W"); [done|]. intros e Ec.
  split; [by rw Hg|intros f' _; by rw Hg].
Qed.

Definition owned : list facet :=
  List.filter (owns (N := Nd)) [Fsl; Fsi; Fsm; Fgl; Fgr; Fga; Fgm; Fgx; Fgw; Fml; Fms; Fmo; Fmk; Fk; Frg].

Lemma elem_of_owned f : f ∈ owned <-> owns (N := Nd) f = true.
Proof.
  unfold owned. rw list_elem_of_In List.filter_In. split; [tauto|]. intros Hf. split; [|done].
  destruct f; cbn; tauto.
Qed.

Lemma owned_nodup : NoDup owned.
Proof. apply NoDup_ListNoDup, List.NoDup_filter, NoDup_ListNoDup. by repeat (constructor; [set_solver|]); constructor. Qed.

(** All cells of a structure. *)
Definition whole (i : nat) (n : Nd) : iProp Σ := [∗ list] f ∈ owned, ∃ c, ⌜cells n f = Some c⌝ ∗ i ↦[f] c.
Definition some_node (i : nat) : iProp Σ := [∗ list] f ∈ owned, ∃ c, i ↦[f] c.

Lemma cells_alloc b (n : Nd) l M : NoDup l -> (forall f, f ∈ l -> is_Some (cells n f)) ->
  (forall f, M !! (f, b) = None) ->
  ghost_map_auth pim_name 1 M ==∗ ∃ M', ghost_map_auth pim_name 1 M' ∗
    ([∗ list] f ∈ l, ∃ c, ⌜cells n f = Some c⌝ ∗ b ↦[f] c) ∗
    ⌜forall f i, M' !! (f, i) = if bool_decide (i = b /\ f ∈ l) then cells n f else M !! (f, i)⌝.
Proof.
  intros ND I F. induction l as [|f l IH].
  - iIntros "HM !>". iExists M. iFrame. iSplit; [done|]. iPureIntro. intros f i. rw bool_decide_false; [done|]. set_solver.
  - apply NoDup_cons in ND as [Hf ND]. iIntros "HM". iMod (IH with "HM") as (M') "(HM & Hl & %E)"; [done|set_solver|].
    destruct (I f) as [c Ec]; [set_solver|].
    iMod (ghost_map_insert (f, b) c with "HM") as "[HM C]".
    { rw E. rw bool_decide_false; [apply F|]. set_solver. }
    iModIntro. iExists _. iFrame "HM". rw big_sepL_cons. iFrame "Hl". iSplitL "C"; [iExists c; by iFrame|].
    iPureIntro. intros f' i. destruct (decide ((f', i) = (f, b))) as [[= -> ->]|Hne].
    + rw lookup_insert_eq bool_decide_true; [done|set_solver].
    + rw lookup_insert_ne; [|done]. rw E. destruct (decide (i = b)) as [->|Hi].
      * assert (f' <> f) by congruence. by rw (bool_decide_ext (b = b /\ f' ∈ l) (b = b /\ f' ∈ f :: l)); [|set_solver].
      * rw !bool_decide_false; tauto.
Qed.

Lemma wps_malloc (n : Nd) Φ : (∀ i, whole i n -∗ Φ (Some i)) -∗ wps (malloc n) Φ.
Proof.
  iIntros "W" (s) "(%M & HM & %Hc & %Hb & %He)".
  set (s' := set_brk (S (brk s)) (set_heap (<[brk s := n]> (heap s)) s)).
  assert (F : forall f, M !! (f, brk s) = None).
  { intros f. rw Hc. destruct (cell_at s f (brk s)) eqn:E; [|done]. specialize (Hb f (brk s)). rw E in Hb.
    specialize (Hb ltac:(done)). lia. }
  iMod (cells_alloc (brk s) n owned M owned_nodup with "HM") as (M') "(HM & Hw & %E)"; [|done|].
  { intros f Hf%elem_of_owned. by apply (cells_owns n f). }
  iModIntro. iExists (Some (brk s)), s'.
  iSplit. { iPureIntro. unfold malloc, bind, next_malloc. by rw (e_mallocs _ _ _ _ He). }
  iSplitL "HM"; [|by iApply "W"]. iExists M'. iFrame "HM". iPureIntro.
  assert (K : forall f i, cell_at s' f i = M' !! (f, i)).
  { intros f i. rw E. change (cell_at s' f i) with (cell_at (set_heap (<[brk s := n]> (heap s)) s) f i).
    rw own_set. destruct (owns f) eqn:Ho.
    - destruct (decide (i = brk s)) as [->|Hi].
      + rw lookup_insert_eq bool_decide_true; [done|]. split; [done|]. by apply elem_of_owned.
      + rw lookup_insert_ne; [|done]. rw bool_decide_false; [|tauto]. by rw Hc own_cell.
    - rw bool_decide_false; [by rw Hc|]. intros [_ Hf%elem_of_owned]. congruence. }
  split; [done|]. split.
  - intros f i Hs. rw K E in Hs. unfold s'. cbn. destruct (decide (i = brk s)) as [->|Hi]; [lia|].
    rw bool_decide_false in Hs; [|tauto]. rw Hc in Hs. apply Hb in Hs. lia.
  - assert (He' : same_env pim_start pim_sl pim_gl (set_heap (<[brk s := n]> (heap s)) s)) by exact (own_env _ _ _ _ _ He).
    destruct He'. split; try done. cbn. rw own_brk in e_brk0. lia.
Qed.

Lemma cells_free b l : forall M, NoDup l -> ghost_map_auth pim_name 1 M -∗ ([∗ list] f ∈ l, ∃ c, b ↦[f] c) ==∗
  ∃ M', ghost_map_auth pim_name 1 M' ∗
    ⌜forall f i, M' !! (f, i) = if bool_decide (i = b /\ f ∈ l) then None else M !! (f, i)⌝.
Proof.
  induction l as [|f l IH]; intros M ND.
  - iIntros "HM _ !>". iExists M. iFrame. iPureIntro. intros f i. rw bool_decide_false; [done|]. set_solver.
  - apply NoDup_cons in ND as [Hf ND]. iIntros "HM [(%c & C) Hl]". iMod (ghost_map_delete with "HM C") as "HM".
    iMod (IH with "HM Hl") as (M') "(HM & %E)"; [done|]. iModIntro. iExists M'. iFrame. iPureIntro. intros f' i.
    rw E. destruct (decide ((f', i) = (f, b))) as [[= -> ->]|Hne].
    + rw lookup_delete_eq (bool_decide_true (b = b /\ f ∈ f :: l)); [by case_bool_decide|set_solver].
    + rw lookup_delete_ne; [|done]. destruct (decide (i = b)) as [->|Hi]; [|by rw !bool_decide_false; tauto].
      assert (f' <> f) by congruence. by rw (bool_decide_ext (b = b /\ f' ∈ l) (b = b /\ f' ∈ f :: l)); [|set_solver].
Qed.

Lemma wps_free i Φ : some_node i -∗ Φ tt -∗ wps (free_node Nd (Some i)) Φ.
Proof.
  iIntros "C W" (s) "S".
  iAssert (⌜is_Some (heap (N := Nd) s !! i)⌝)%I as %[e Ei].
  { unfold some_node. destruct owned as [|f l] eqn:El.
    - destruct own_facet as [f Hf]. exfalso. apply elem_of_owned in Hf. rw El in Hf. by apply not_elem_of_nil in Hf.
    - rw big_sepL_cons. iDestruct "C" as "[(%c & C) _]". iDestruct (SI_node with "S C") as %(e & Ei & _).
      + apply elem_of_owned. rw El. left.
      + iPureIntro. by exists e. }
  iDestruct "S" as "(%M & HM & %Hc & %Hb & %He)".
  iMod (cells_free i owned M owned_nodup with "HM C") as (M') "(HM & %E)".
  iModIntro. iExists tt, (set_heap (delete i (heap s)) s). iSplit; [iPureIntro; unfold free_node; by rw Ei|].
  iFrame "W". iExists M'. iFrame "HM". iPureIntro.
  assert (K : forall f j, cell_at (set_heap (delete i (heap s)) s) f j = M' !! (f, j)).
  { intros f j. rw E own_set. destruct (owns f) eqn:Ho.
    - destruct (decide (j = i)) as [->|Hj].
      + rw lookup_delete_eq bool_decide_true; [done|]. split; [done|]. by apply elem_of_owned.
      + rw lookup_delete_ne; [|done]. rw bool_decide_false; [|tauto]. by rw Hc own_cell.
    - rw bool_decide_false; [by rw Hc|]. intros [_ Hf%elem_of_owned]. congruence. }
  split; [done|]. split; [|by apply own_env].
  intros f j Hs. rw own_brk. rw K E in Hs. case_bool_decide; [by destruct Hs|]. rw Hc in Hs. by apply (Hb f).
Qed.
End Memory.
End Logic.

Section Chains.
Context `{!pimG Σ}.

(** [grplink] of an entry of the RP-set; the entry is not allocated here. *)
Lemma wps_upd_grplink i c p Φ : i ↦[Frg] c -∗ (i ↦[Frg] Ptr p -∗ Φ tt) -∗
  wps (upd (Some i) (set_rg_grplink p)) Φ.
Proof.
  iIntros "C W" (s) "S". iDestruct (SI_cell with "S C") as %Ec. iDestruct "S" as "(%M & HM & %Hc & %Hb & %He)".
  cbn in Ec. destruct (rpgs s !! i) as [r|] eqn:Er; [|done].
  iMod (ghost_map_update (Ptr p) with "HM C") as "[HM C]". iModIntro.
  iExists tt, (set_rpgs (<[i := set_rg_grplink p r]> (rpgs s)) s).
  iSplit; [iPureIntro; unfold upd; cbn; by rw Er|]. iSplitL "HM"; [|by iApply "W"].
  iExists _. iFrame "HM". iPureIntro.
  assert (K : forall f j, <[(Frg, i) := Ptr p]> M !! (f, j) = cell_at (set_rpgs (<[i := set_rg_grplink p r]> (rpgs s)) s) f j).
  { intros f j. destruct (decide ((f, j) = (Frg, i))) as [[= -> ->]|Hne].
    - rw lookup_insert_eq. cbn. by rw lookup_insert_eq.
    - rw lookup_insert_ne; [|done]. rw Hc. destruct f; try done. cbn.
      rw lookup_insert_ne; [done|congruence]. }
  split; [done|]. split.
  - intros f j Hs. rewrite <- K in Hs. destruct (decide ((f, j) = (Frg, i))) as [[= -> ->]|Hne].
    + apply (Hb Frg). cbn. by rw Er.
    + rw lookup_insert_ne in Hs; [|done]. rw Hc in Hs. by apply (Hb f).
  - destruct He. split; try done. cbn. rw fmap_insert. etrans; [|exact e_rpgs0]. apply insert_id.
    rw lookup_fmap Er. done.
Qed.

(** ** Doubly linked lists *)

(** The nodes [l] with their links of facet [f], from pointer [p], reached from
    [q], to pointer [p'], reached from [q']. *)
Fixpoint seg (f : facet) (p q : ptr) (l : list nat) (p' q' : ptr) : iProp Σ :=
  match l with
  | [] => ⌜p = p' /\ q = q'⌝
  | i :: l => ⌜p = Some i⌝ ∗ ∃ n, i ↦[f] Link n q ∗ seg f n (Some i) l p' q'
  end.

(** A whole list. *)
Definition lst (f : facet) (p : ptr) (l : list nat) : iProp Σ := ∃ z, seg f p None l None z.

Lemma seg_app f l1 l2 p q p' q' : seg f p q (l1 ++ l2) p' q' ⊣⊢ ∃ m r, seg f p q l1 m r ∗ seg f m r l2 p' q'.
Proof.
  revert p q. induction l1 as [|i l1 IH]; intros p q; cbn.
  - iSplit; [iIntros "H"; iExists p, q; by iFrame|]. iIntros "(%m & %r & [-> ->] & $)".
  - iSplit.
    + iIntros "(-> & %n & C & H)". rw IH. iDestruct "H" as (m r) "[H1 H2]". iExists m, r. iFrame. done.
    + iIntros "(%m & %r & (-> & %n & C & H1) & H2)". iSplit; [done|]. iExists n. iFrame. rw IH. iExists m, r. iFrame.
Qed.

Lemma seg_head f p q l p' q' : seg f p q l p' q' -∗ ⌜p = match l with [] => p' | i :: _ => Some i end⌝.
Proof. destruct l; [by iIntros "[-> _]"|by iIntros "[-> _]"]. Qed.

(** The links of facet [f]. *)
Definition lk (s : Pim) (f : facet) (i : nat) : option (ptr * ptr) :=
  match cell_at s f i with Some (Link n p) => Some (n, p) | _ => None end.

Lemma SI_seg s f p q l p' q' : SI s -∗ seg f p q l p' q' -∗ ⌜Links.dlseg (lk s f) p q l p' q'⌝.
Proof.
  iIntros "S H". iInduction l as [|i l] "IH" forall (p q); cbn; [done|].
  iDestruct "H" as "(-> & %n & C & H)". iDestruct (SI_cell with "S C") as %E.
  iDestruct ("IH" with "S H") as %D. iPureIntro. split; [done|]. exists n. split; [|done]. unfold lk. by rw E.
Qed.

Lemma SI_seg_length s f p q l z : SI s -∗ seg f p q l None z -∗ ⌜(length l <= brk s)%nat⌝.
Proof.
  iIntros "S H". iDestruct (SI_seg with "S H") as %D. iDestruct "S" as "(%M & _ & _ & %Hb & _)". iPureIntro.
  apply (RpMatch.dlseg_length _ _ _ _ _ _ D). intros i Hi. apply (Hb f). unfold lk in Hi.
  destruct (cell_at s f i); [done|by destruct Hi].
Qed.

Lemma seg_snoc f p q l i p' q' : seg f p q (l ++ [i]) p' q' ⊣⊢ ∃ r, seg f p q l (Some i) r ∗ i ↦[f] Link p' r ∗ ⌜q' = Some i⌝.
Proof.
  rw seg_app. iSplit.
  - iIntros "(%m & %r & H & -> & %n & C & -> & <-)". iExists r. by iFrame.
  - iIntros "(%r & H & C & ->)". iExists (Some i), r. iFrame. by iSplit.
Qed.

(** What a segment begins and ends with. *)
Lemma seg_cases f p q l p' q' : seg f p q l p' q' -∗
  ⌜l = [] /\ p = p' /\ q' = q⌝ ∨ (∃ l0 i r, ⌜l = l0 ++ [i] /\ q' = Some i⌝ ∗ seg f p q l0 (Some i) r ∗ i ↦[f] Link p' r).
Proof.
  iIntros "H". destruct l as [|i l0 _] using rev_ind.
  - iDestruct "H" as "[-> ->]". by iLeft.
  - iRight. rw seg_snoc. iDestruct "H" as (r) "(H & C & ->)". iExists l0, i, r. by iFrame.
Qed.
End Chains.

(** ** Tactics *)

(** Turns what a load says of a cell into equations, and rewrites with them. *)
Ltac cell_eqs E :=
  cbn in E; injection E; clear E; intros;
  repeat match goal with
  | H : ?x = ?y |- _ => is_var y; subst y
  | H : ?f ?e = _ |- context [?f ?e] => is_var e; rw H
  end.

(** One facet of one structure changes. *)
Ltac assigns_tac :=
  let e := fresh "e" in let E := fresh "E" in
  intros e E; cbn in E; injection E; clear E; intros;
  split; [cbn; unfold what_of; cbn; repeat match goal with H : ?f ?e = _ |- context [?f ?e] => rw H end; reflexivity
         |let g := fresh "g" in let Hg := fresh "Hg" in intros g Hg; destruct g; done].

(** [let! e := src p in ...] with the cell [H] of [p]. *)
Tactic Notation "wload" constr(H) "as" ident(e) ident(E) :=
  iApply wps_bind; iApply (wps_load1 with H); [reflexivity|]; iIntros (e E) H.

(** The same with two cells of the structure. *)
Tactic Notation "wload2" constr(H) "as" ident(e) ident(E) ident(E') :=
  iApply wps_bind; iApply (wps_load2 with H); [reflexivity|reflexivity|]; iIntros (e E E') H.

(** [do! upd p f ;; ...] with the cell [H] that changes. *)
Tactic Notation "wupd" constr(H) :=
  iApply wps_bind; iApply (wps_upd with H); [reflexivity|assigns_tac|]; iIntros H.
Tactic Notation "wupd_last" constr(H) :=
  iApply (wps_upd with H); [reflexivity|assigns_tac|]; iIntros H.
(** The same for members that no facet shows; [H] is any cell of the structure. *)
Tactic Notation "wupd0" constr(H) :=
  iApply wps_bind; iApply (wps_upd_same with H); [reflexivity|by intros ? []|]; iIntros H.
Tactic Notation "wret" := iApply wps_bind; iApply wps_ret.

(** ** Taking nodes out of lists *)

(** The assignments to the links of facet [f]. *)
Class LinkOps (N : Type) `{Own N} (f : facet) := {
  lo_next : ptr -> N -> N;
  lo_prev : ptr -> N -> N;
  lo_owns : owns (N := N) f = true;
  lo_next_ok v n p : assigns (Nd := N) (lo_next v) f (Link n p) (Link v p);
  lo_prev_ok v n p : assigns (Nd := N) (lo_prev v) f (Link n p) (Link n v)
}.
#[export] Instance links_src : LinkOps srcentry Fsl.
Proof. refine {| lo_next := set_s_next; lo_prev := set_s_prev |}; try done; intros; assigns_tac. Defined.
#[export] Instance links_grp : LinkOps grpentry Fgl.
Proof. refine {| lo_next := set_g_next; lo_prev := set_g_prev |}; try done; intros; assigns_tac. Defined.
#[export] Instance links_rp : LinkOps grpentry Fgr.
Proof. refine {| lo_next := set_g_rpnext; lo_prev := set_g_rpprev |}; try done; intros; assigns_tac. Defined.
#[export] Instance links_gm : LinkOps mrtentry Fml.
Proof. refine {| lo_next := set_m_grpnext; lo_prev := set_m_grpprev |}; try done; intros; assigns_tac. Defined.
#[export] Instance links_sm : LinkOps mrtentry Fms.
Proof. refine {| lo_next := set_m_srcnext; lo_prev := set_m_srcprev |}; try done; intros; assigns_tac. Defined.
#[export] Instance links_kc : LinkOps kernel_cache Fk.
Proof. refine {| lo_next := set_k_next; lo_prev := set_k_prev |}; try done; intros; assigns_tac. Defined.

Section Unlink.
Context `{!pimG Σ} {Nd : Type} {f : facet} `{LinkOps Nd f}.

(** [next] of the last node of a segment. *)
Lemma wps_set_next p q l0 j m r n Φ : seg f p q (l0 ++ [j]) m r -∗
  (seg f p q (l0 ++ [j]) n r -∗ Φ tt) -∗ wps (upd (Some j) (lo_next (N := Nd) n)) Φ.
Proof.
  rw !seg_snoc. iIntros "(%r' & H & C & ->) W". iApply (wps_upd with "C"); [apply lo_owns|apply lo_next_ok|].
  iIntros "C". iApply "W". iExists r'. by iFrame.
Qed.

(** [prev] of the first node of a segment, if there is one. *)
Lemma wps_set_prev n q l z v Φ : seg f n q l None z -∗ (∀ z', seg f n v l None z' -∗ Φ tt) -∗
  wps (upd_if n (lo_prev (N := Nd) v)) Φ.
Proof.
  iIntros "H W". destruct l as [|j l]; cbn.
  - iDestruct "H" as "[-> _]". cbn. iApply wps_ret. iApply ("W" $! v). done.
  - iDestruct "H" as "(-> & %m & C & H)". iApply (wps_upd with "C"); [apply lo_owns|apply lo_prev_ok|].
    iIntros "C". iApply "W". iSplit; [done|]. iExists m. iFrame.
Qed.

(** The node before a place gets a new [next], or the owner of the list a new
    head. *)
Lemma wps_relink (Hd : ptr -> iProp Σ) head_to p l1 m v n Φ : seg f p None l1 m v -∗ Hd p -∗
  (∀ p Ψ, Hd p -∗ (Hd n -∗ Ψ tt) -∗ wps head_to Ψ) -∗
  (∀ p', Hd p' -∗ seg f p' None l1 n v -∗ Φ tt) -∗
  wps (match v with Some _ => upd v (lo_next (N := Nd) n) | None => head_to end) Φ.
Proof.
  iIntros "H D Hto W". destruct l1 as [|j l0 _] using rev_ind.
  - iDestruct "H" as "[-> <-]". iApply ("Hto" with "D"). iIntros "D". by iApply ("W" with "D").
  - iAssert (⌜v = Some j⌝)%I as %->. { rw seg_snoc. by iDestruct "H" as (r) "(_ & _ & $)". }
    iApply (wps_set_next with "H"). iIntros "H". by iApply ("W" with "D").
Qed.
End Unlink.
