(* ===== verification/MrtSpec.v ===== *)
(** * MrtSpec: what the multicast routing table promises

    The table as its users see it is a finite map: the routes (S,G), (star,G)
    and (star,star,RP) there are, and whether each is still marked as new.
    [spec_find] says what [find_route] answers and how it changes the map;
    [client] is what the rest of the daemon asks of the table, one request after
    the other.  Which RP serves a group and which sources can be reached does
    not change while the requests run: the RP-set, the interfaces and the
    unicast routes are those of the memory [s0] at the start. *)

From stdpp Require Import base list numbers gmap sorting.
From S2P Require Import Prelude Inet6 Links Pim RpMatch Vif Mrt.
Open Scope Z_scope.

(** ** Routes *)

Inductive route :=
| SG (source group : sockaddr_in6)
| WC (group : sockaddr_in6)
| RP (rp : sockaddr_in6).

#[export] Instance sockaddr_eq_dec : EqDecision sockaddr_in6.
Proof. solve_decision. Defined.
#[export] Instance sockaddr_countable : Countable sockaddr_in6.
Proof.
  apply (inj_countable' (fun a => (sin6_scope_id a, sin6_addr a)) (fun p => mkSa p.1 p.2)). by intros [].
Defined.
#[export] Instance route_eq_dec : EqDecision route.
Proof. solve_decision. Defined.
#[export] Instance route_countable : Countable route.
Proof.
  apply (inj_countable'
    (fun r => match r with SG s g => inl (s, g) | WC g => inr (inl g) | RP a => inr (inr a) end)
    (fun x => match x with inl (s, g) => SG s g | inr (inl g) => WC g | inr (inr a) => RP a end)).
  by intros [].
Defined.

(** The routes, and which of them are marked [MRTF_NEW]. *)
Definition table : Type := gmap route bool.

Definition of_group (g : sockaddr_in6) (r : route) : bool :=
  match r with SG _ g' => bool_decide (g' = g) | WC g' => bool_decide (g' = g) | RP _ => false end.
Definition of_source (s : sockaddr_in6) (r : route) : bool :=
  match r with SG s' _ => bool_decide (s' = s) | _ => false end.

(** [T] without the routes that [p] selects. *)
Definition without (p : route -> bool) (T : table) : table := filter (fun x => p x.1 = false) T.

(** Is there an (S,G) route for the group? *)
Definition has_sg (g : sockaddr_in6) (T : table) : Prop :=
  map_Exists (fun r _ => match r with SG _ g' => g' = g | _ => False end) T.
#[export] Instance has_sg_dec g T : Decision (has_sg g T).
Proof. apply map_Exists_dec. intros [] ?; apply _. Defined.

(** A route is added, as a new one. *)
Definition add_route (r : route) (T : table) : table :=
  match T !! r with Some _ => T | None => <[r := true]> T end.

(** ** The surroundings *)

Section Spec.
Context (s0 : Pim).

(** The address of the RP for a group, of the RP with an address. *)
Definition rp_answer (r : outcome Pim ptr) : option sockaddr_in6 :=
  match r with Ok p _ => p ≫= fun i => s_address <$> srcs s0 !! i | _ => None end.
Definition group_rp (group : sockaddr_in6) : option sockaddr_in6 := rp_answer (rp_match group s0).
Definition the_rp (a : sockaddr_in6) : option sockaddr_in6 := rp_answer (rp_find a s0).

(** The RP a request is about. *)
Definition request_rp (source group : option sockaddr_in6) : option sockaddr_in6 :=
  match group, source with
  | Some group, _ => group_rp group
  | None, Some source => the_rp source
  | None, None => None
  end.

(** RPs that can be used: with a neighbour toward them, or the router itself. *)
Definition usable_rp (a : sockaddr_in6) : bool :=
  bool_decide (map_Exists (fun _ e => s_address e = a /\ (s_upstream e <> None \/ s_incoming e = reg_vif_num s0)) (srcs s0)).

(** Sources that [set_incoming] finds a way to. *)
Definition on_a_link (a : sockaddr_in6) : bool :=
  bool_decide (local_address a (uvifs s0) <> NO_VIF) || bool_decide (find_vif_direct a (uvifs s0) <> NO_VIF).
Definition source_ok (a : sockaddr_in6) : bool :=
  on_a_link a ||
  (let '(rpfneighbor, iif) := rpf s0 a in
   negb (iif =? NO_VIF) && negb (IN6_IS_ADDR_UNSPECIFIED (sin6_addr rpfneighbor)) &&
   match uvifs s0 !! Z.to_nat iif with
   | Some v => existsb (nbr_has rpfneighbor) (uv_pim_neighbors v)
   | None => false
   end).

(** ** [find_route] *)

(** The first of the routes asked for that there is: (S,G), (star,G),
    (star,star,RP). *)
Definition spec_lookup (T : table) (source group : option sockaddr_in6) (flags : Z) : option route :=
  let found r := match T !! r with Some _ => Some r | None => None end in
  let sg := if has flags MRTF_SG then match source, group with Some s, Some g => found (SG s g) | _, _ => None end else None in
  let wc := if has flags MRTF_WC then match group with Some g => found (WC g) | None => None end else None in
  let rp := if has flags MRTF_PMBR then request_rp source group ≫= fun a => found (RP a) else None in
  match sg, wc with
  | Some r, _ => Some r
  | None, Some r => Some r
  | None, None => rp
  end.

(** Creation.  A group whose RP cannot be used loses its routes; a source that
    cannot be reached takes a (star,G) route that is still new with it, if the group
    has no (S,G) route. *)
Definition spec_create_sg (T : table) (s g : sockaddr_in6) : option route * table :=
  if source_ok s then (Some (SG s g), add_route (SG s g) T)
  else (None, if decide (T !! WC g <> Some false /\ ~ has_sg g T) then delete (WC g) T else T).

Definition spec_create (T : table) (source group : option sockaddr_in6) (flags : Z) : option route * table :=
  let g := default (mkSa 0 in6addr_any) group in
  let s := default (mkSa 0 in6addr_any) source in
  let needs_rp := has flags (Z.lor MRTF_RP (Z.lor MRTF_WC MRTF_1ST)) in
  if needs_rp && negb (bool_decide (is_Some (group_rp g))) then (None, T)
  else if needs_rp && negb (from_option usable_rp false (group_rp g)) then (None, without (of_group g) T)
  else
  let T := if has flags MRTF_WC then add_route (WC g) T else T in
  if has flags MRTF_SG then spec_create_sg T s g
  else if has flags MRTF_WC then (Some (WC g), T)
  else if has flags MRTF_PMBR then
    match request_rp source group with
    | Some a => (Some (RP a), add_route (RP a) T)
    | None => (None, T)
    end
  else (None, T).

Definition spec_find (T : table) (source group : option sockaddr_in6) (flags : Z) (create : bool) :
    option route * table :=
  if has flags (Z.lor MRTF_SG MRTF_WC) && negb (from_option (fun g => IN6_IS_ADDR_MULTICAST (sin6_addr g)) false group)
  then (None, T)
  else if has flags MRTF_SG && negb (from_option inet6_valid_host false source) then (None, T)
  else if create then spec_create T source group flags
  else (spec_lookup T source group flags, T).

(** ** Requests *)

Inductive request :=
| Find (source group : option sockaddr_in6) (flags : Z) (create : bool)
| Settle (source group : option sockaddr_in6) (flags : Z)
| Drop (source group : option sockaddr_in6) (flags : Z)
| DropGroup (group : sockaddr_in6)
| DropSource (source : sockaddr_in6)
| Cache (source group : option sockaddr_in6) (flags : Z) (from to : sockaddr_in6) (how : Z)
| Uncache (source group : option sockaddr_in6) (flags : Z) (from to : sockaddr_in6).

(** What a client sees of an entry: which route it is and whether it is new. *)
Definition answer : Type := option (route * bool).
Definition seen (T : table) (r : option route) : answer := r ≫= fun r => (fun b => (r, b)) <$> T !! r.

(** [Settle] is what the users of [find_route] do with a new entry when they
    have filled it in: they reset [MRTF_NEW]. *)
Definition spec_step (T : table) (q : request) : answer * table :=
  match q with
  | Find source group flags create =>
      let '(r, T') := spec_find T source group flags create in (seen T' r, T')
  | Settle source group flags =>
      let r := (spec_find T source group flags false).1 in
      (seen T r, match r with Some r => <[r := false]> T | None => T end)
  | Drop source group flags =>
      let r := (spec_find T source group flags false).1 in
      (seen T r, match r with Some r => delete r T | None => T end)
  | DropGroup group =>
      (None, if IN6_IS_ADDR_MULTICAST (sin6_addr group) then without (of_group group) T else T)
  | DropSource source => (None, if inet6_valid_host source then without (of_source source) T else T)
  | Cache source group flags _ _ _ => (seen T (spec_find T source group flags false).1, T)
  | Uncache source group flags _ _ => (seen T (spec_find T source group flags false).1, T)
  end.

Fixpoint spec_run (T : table) (qs : list request) : list answer :=
  match qs with
  | [] => []
  | q :: qs => let '(a, T') := spec_step T q in a :: spec_run T' qs
  end.

(** ** The requests served by mrt.c *)

Definition observe (p : ptr) : Cmd Pim answer :=
  match p with
  | None => ret None
  | Some _ =>
      let! m := mrt p in
      let new := has (m_flags m) MRTF_NEW in
      if has (m_flags m) MRTF_SG then
        let! e := src (m_source m) in
        let! g := grp (m_group m) in
        ret (Some (SG (s_address e) (g_group g), new))
      else if has (m_flags m) MRTF_WC then
        let! g := grp (m_group m) in
        ret (Some (WC (g_group g), new))
      else
        let! e := src (m_source m) in
        ret (Some (RP (s_address e), new))
  end.

Section Client.
Context (junk : ptr).

Definition serve_request (q : request) : Cmd Pim answer :=
  let found source group flags k :=
    let! p := find_route junk source group flags false in
    let! a := observe p in
    do! k p ;; ret a in
  match q with
  | Find source group flags create =>
      let! p := find_route junk source group flags create in observe p
  | Settle source group flags => found source group flags (fun p => upd_if p (flag_off MRTF_NEW))
  | Drop source group flags => found source group flags delete_mrtentry
  | DropGroup group => let! p := find_group group in do! delete_grpentry p ;; ret None
  | DropSource source => let! p := find_source source in do! delete_srcentry p ;; ret None
  | Cache source group flags from to how =>
      found source group flags (fun p => add_kernel_cache p from to how)
  | Uncache source group flags from to =>
      found source group flags (fun p => delete_single_kernel_cache_addr p from to)
  end.

Fixpoint serve_all (qs : list request) : Cmd Pim (list answer) :=
  match qs with
  | [] => ret []
  | q :: qs =>
      let! a := serve_request q in
      let! l := serve_all qs in
      ret (a :: l)
  end.

(** The table from its start on. *)
Definition client (qs : list request) : Cmd Pim (list answer) := do! init_pim6_mrt ;; serve_all qs.
End Client.

(** *** What the code expects of its users *)

Definition opt_ok (a : option sockaddr_in6) : Prop := from_option sa_ok True a.

(** The addresses a kind of route needs are there; no (S,G) route is made for a
    group that has neither an RP nor a source-specific address. *)
Definition find_ok (source group : option sockaddr_in6) (flags : Z) (create : bool) : Prop :=
  opt_ok source /\ opt_ok group /\
  (has flags (Z.lor MRTF_SG MRTF_WC) = true -> is_Some group) /\
  (has flags MRTF_SG = true -> is_Some source) /\
  (create = true ->
    (has flags (Z.lor MRTF_RP MRTF_1ST) = true -> is_Some group) /\
    (has flags MRTF_1ST = true -> has flags (Z.lor MRTF_RP (Z.lor MRTF_WC MRTF_SG)) = true) /\
    (has flags MRTF_SG = true -> from_option (fun g => SSMGROUP s0 g = true \/ is_Some (group_rp g)) True group)).

Definition request_ok (q : request) : Prop :=
  match q with
  | Find source group flags create => find_ok source group flags create
  | Settle source group flags => find_ok source group flags false
  | Drop source group flags => find_ok source group flags false
  | DropGroup group => sa_ok group
  | DropSource source => sa_ok source
  | Cache source group flags _ _ _ => find_ok source group flags false
  | Uncache source group flags _ _ => find_ok source group flags false
  end.
End Spec.
