(* ===== verification/MrtTable.v ===== *)
(** * MrtTable: the routing table in memory

    [table_rep T] says that the memory holds table [T]: the sources and groups
    on their sorted lists, each (S,G) entry on the list of its source and on the
    list of its group, the groups of every RP on the list of its RP-set entry,
    and every entry with its own list of cache entries. *)

From stdpp Require Import sorting.
From iris.proofmode Require Import proofmode.
From iris.base_logic.lib Require Import iprop own ghost_map.
From S2P Require Import Prelude Inet6 Links Pim RpMatch Vif Mrt PimLogic MrtSpec.
Open Scope Z_scope.

(** ** Sorted lists of addresses *)

Definition sorted (l : list sockaddr_in6) : Prop := StronglySorted (fun a b => key a < key b) l.

Lemma sorted_app l1 l2 : sorted (l1 ++ l2) <->
  sorted l1 /\ sorted l2 /\ forall a b, a ∈ l1 -> b ∈ l2 -> key a < key b.
Proof.
  unfold sorted. induction l1 as [|x l1 IH]; cbn.
  - split; [|tauto]. intros H. split_and!; [constructor|done|]. intros a b Ha. by apply not_elem_of_nil in Ha.
  - split.
    + intros [H1 H2]%StronglySorted_inv. apply Forall_app in H2 as [H2 H3]. apply IH in H1 as (A & B & C).
      split_and!; [by constructor|done|]. intros a b [->|Ha]%elem_of_cons Hb; [by apply (proj1 (Forall_forall _ _) H3)|by apply C].
    + intros ([A B]%StronglySorted_inv & C & D). constructor; [apply IH; split_and!; [done|done|]|].
      * intros a b Ha Hb. apply D; [by right|done].
      * apply Forall_app. split; [done|]. apply Forall_forall. intros b Hb. apply D; [by left|done].
Qed.

Lemma sorted_cons a l : sorted (a :: l) <-> (forall b, b ∈ l -> key a < key b) /\ sorted l.
Proof.
  split.
  - intros [H1 H2]%StronglySorted_inv. split; [|done]. by apply Forall_forall.
  - intros [H1 H2]. constructor; [done|]. by apply Forall_forall.
Qed.

Lemma sorted_delete l1 a l2 : sorted (l1 ++ a :: l2) -> sorted (l1 ++ l2) /\ a ∉ l1 ++ l2.
Proof.
  intros (A & B & C)%sorted_app. apply sorted_cons in B as [B D]. split.
  - apply sorted_app. split_and!; [done|done|]. intros x y Hx Hy. apply C; [done|by right].
  - intros [H|H]%elem_of_app; [specialize (C a a H ltac:(left))|specialize (B a H)]; lia.
Qed.

Lemma inet6_equal_sym a b : inet6_equal a b = inet6_equal b a.
Proof. apply eq_true_iff_eq. rw !inet6_equal_eq. split; congruence. Qed.

(** Where a search ends: at the address, or behind the node after which it
    belongs. *)
Definition search_res (node : sockaddr_in6 -> nat) (head : ptr) (l : list sockaddr_in6) x (r : bool * ptr) : Prop :=
  (x ∈ l /\ r = (true, Some (node x))) \/
  (exists l1 l2, l = l1 ++ l2 /\ (x ∉ l) /\ sorted (l1 ++ x :: l2) /\
    r = (false, match last l1 with Some b => Some (node b) | None => head end)).

(** The four search loops, by what one turn does. *)
Lemma search_loop_spec (F : nat -> ptr -> ptr -> Cmd Pim (bool * ptr)) s x k node : sa_ok x ->
  (forall n prev, F (S n) prev None s = Ok (false, prev) s) ->
  forall l, sorted l -> Forall sa_ok l ->
  (forall n prev a nx pv, a ∈ l -> k (node a) = Some (nx, pv) -> F (S n) prev (Some (node a)) s =
    if inet6_lessthan a x then F n (Some (node a)) nx s
    else if inet6_equal a x then Ok (true, Some (node a)) s else Ok (false, prev) s) ->
  forall fuel p q z head, dlseg k p q (node <$> l) None z -> (length l < fuel)%nat ->
  exists r, F fuel head p s = Ok r s /\ search_res node head l x r.
Proof.
  intros Hx F0 l. induction l as [|a l IH]; intros So Ok' F1 fuel p q z head D Lf;
    (destruct fuel as [|fuel]; [cbn in Lf; lia|]).
  { destruct D as [-> _]. exists (false, head). split; [apply F0|]. right. exists [], []. split_and!; try done.
    - apply not_elem_of_nil.
    - by repeat constructor. }
  cbn [fmap list_fmap] in D. destruct D as (-> & n & En & D). apply sorted_cons in So as [So1 So].
  apply Forall_cons in Ok' as [Oa Ok'].
  rw (F1 fuel head a n q); [|by left|done].
  rw lessthan_key; [|done|done]. case_bool_decide as Hlt.
  - destruct (IH So Ok' (fun n prev a nx pv Ha => F1 n prev a nx pv (list_elem_of_further _ _ _ Ha)) fuel n (Some (node a)) z
      (Some (node a))) as (r & Er & Hr); [done|cbn in Lf; lia|]. exists r. split; [done|].
    destruct Hr as [[Hi ->]|(l1 & l2 & -> & Hn & Hs & ->)]; [left; split; [by right|done]|].
    right. exists (a :: l1), l2. split_and!; [done| | |].
    + intros [->|H]%elem_of_cons; [lia|done].
    + cbn. apply sorted_cons. split; [|done]. intros b [Hb|[->|Hb]%elem_of_cons]%elem_of_app; [|done|].
      * apply So1. apply elem_of_app. by left.
      * apply So1. apply elem_of_app. by right.
    + destruct l1 as [|b l1]; [done|]. change (last (a :: b :: l1)) with (last (b :: l1)).
      assert (is_Some (last (b :: l1))) as [c ->]; [by apply last_is_Some|done].
  - destruct (inet6_equal a x) eqn:He.
    + apply inet6_equal_eq in He as ->. exists (true, Some (node x)). split; [done|]. left. split; [by left|done].
    + exists (false, head). split; [done|]. right. exists [], (a :: l).
      assert (Hk : key a > key x).
      { destruct (decide (key a = key x)) as [E|]; [|lia]. apply key_inj in E; [|done|done]. subst.
        by rw (proj2 (inet6_equal_eq x x) eq_refl) in He. }
      split_and!; [done| | |done].
      * intros [->|H]%elem_of_cons; [lia|]. apply So1 in H. lia.
      * cbn. apply sorted_cons. split; [|by apply sorted_cons]. intros b [->|Hb]%elem_of_cons; [lia|]. apply So1 in Hb. lia.
Qed.

(** ** The representation *)

(** Where the structures for sources, groups and routes lie. *)
Record nodes := mkNodes { sn : sockaddr_in6 -> nat; gn : sockaddr_in6 -> nat; nd : route -> nat }.

(** The groups that have their RP, with the entry of the RP-set. *)
Definition bound : Type := gmap sockaddr_in6 nat.

Section Rep.
Context `{!pimG Σ}.
Implicit Types (N : nodes) (T : table) (B : bound) (X Y : gset sockaddr_in6).

Definition n_timers : nat := Z.to_nat (u8 (total_interfaces pim_start)).

(** The structure of the RP with an address. *)
Definition rp_at (a : sockaddr_in6) (i : nat) : Prop := exists e, srcs pim_start !! i = Some e /\ s_address e = a.
(** The RP an entry of the RP-set leads to. *)
Definition leads_to (r : nat) (a : sockaddr_in6) (i : nat) : Prop :=
  exists e c, rpgs pim_start !! r = Some e /\ (rg_rp e ≫= fun j => crps pim_start !! j) = Some c /\
    c_rpentry c = Some i /\ rp_at a i.

Definition route_ptr N T (r : route) : ptr := match T !! r with Some _ => Some (nd N r) | None => None end.

(** The members of an entry that say which route it is. *)
Definition route_is N (r : route) (new : bool) (w : what) : Prop :=
  w_new w = new /\ w_timers w = n_timers /\ w_delays w = n_timers /\
  match r with
  | SG a g => w_group w = Some (gn N g) /\ w_source w = Some (sn N a) /\ w_sg w = true /\ w_wc w = false /\ w_pm w = false
  | WC g => w_group w = Some (gn N g) /\ w_sg w = false /\ w_wc w = true /\ w_pm w = false
  | RP a => (exists i, w_source w = Some i /\ rp_at a i) /\ w_sg w = false /\ w_wc w = false /\ w_pm w = true
  end.

(** The links an entry is not on a list by. *)
Definition free_links (i : nat) : iProp Σ := (∃ n p, i ↦[Fml] Link n p) ∗ (∃ n p, i ↦[Fms] Link n p).

(** An entry with its cache entries. *)
Definition ent N (r : route) (new : bool) : iProp Σ :=
  ∃ w p l, nd N r ↦[Fmo] What w ∗ ⌜route_is N r new w⌝ ∗ nd N r ↦[Fmk] Ptr p ∗ lst Fk p l ∗
    match r with SG _ _ => emp | _ => free_links (nd N r) end.
Definition ents N T : iProp Σ := [∗ map] r ↦ new ∈ T, ent N r new.

(** A list of addresses that is what a set of keys says. *)
Definition listed (l : list sockaddr_in6) (P : sockaddr_in6 -> Prop) : Prop :=
  sorted l /\ Forall sa_ok l /\ forall a, a ∈ l <-> P a.

Definition src_ent N T (a : sockaddr_in6) : iProp Σ :=
  ∃ inc up p l, sn N a ↦[Fsi] Info a inc up ∗ sn N a ↦[Fsm] Ptr p ∗
    lst Fms p ((fun g => nd N (SG a g)) <$> l) ∗ ⌜listed l (fun g => is_Some (T !! SG a g))⌝.
Definition grp_ent N T B (g : sockaddr_in6) : iProp Σ :=
  ∃ p l, gn N g ↦[Fga] Addr g ∗ gn N g ↦[Fgm] Ptr p ∗
    lst Fml p ((fun a => nd N (SG a g)) <$> l) ∗ ⌜listed l (fun a => is_Some (T !! SG a g))⌝ ∗
    gn N g ↦[Fgw] Ptr (route_ptr N T (WC g)) ∗ gn N g ↦[Fgx] Ptr (B !! g) ∗
    match B !! g with Some _ => emp | None => gn N g ↦[Fgr] Link None None end.

Definition srcs_rep N T X : iProp Σ :=
  (∃ l, lst Fsl (Some pim_sl) (pim_sl :: (sn N <$> l)) ∗ ⌜listed l (fun a => a ∈ X)⌝) ∗ [∗ set] a ∈ X, src_ent N T a.
Definition grps_rep N T B Y : iProp Σ :=
  (∃ l, lst Fgl (Some pim_gl) (pim_gl :: (gn N <$> l)) ∗ ⌜listed l (fun g => g ∈ Y)⌝) ∗ [∗ set] g ∈ Y, grp_ent N T B g.
(** The groups of the RP-set entries. *)
Definition chain N B (r : nat) : iProp Σ :=
  ∃ p l, r ↦[Frg] Ptr p ∗ lst Fgr p (gn N <$> l) ∗ ⌜NoDup l /\ forall g, g ∈ l <-> B !! g = Some r⌝.
Definition chains N B : iProp Σ := [∗ map] r ↦ _ ∈ rpgs pim_start, chain N B r.
(** The RPs: their addresses and interfaces do not change, they may have a
    (star,star,RP) entry. *)
Definition rp_infos : iProp Σ :=
  [∗ map] i ↦ e ∈ srcs pim_start, i ↦[Fsi]□ Info (s_address e) (s_incoming e) (s_upstream e).
Definition rp_ents N T : iProp Σ :=
  [∗ map] i ↦ e ∈ srcs pim_start, i ↦[Fsm] Ptr (route_ptr N T (RP (s_address e))).

(** Groups that have their RP are on the list, and it is the RP of the group. *)
Definition bound_ok B Y : Prop := forall g r, B !! g = Some r ->
  g ∈ Y /\ exists a i, leads_to r a i /\ group_rp pim_start g = Some a.

Definition consistent T B X Y : Prop :=
  (forall a g, is_Some (T !! SG a g) -> a ∈ X /\ g ∈ Y /\ (SSMGROUP pim_start g = true \/ is_Some (B !! g))) /\
  (forall g, is_Some (T !! WC g) -> g ∈ Y /\ is_Some (B !! g)) /\
  (forall a, is_Some (T !! RP a) -> exists i, rp_at a i) /\
  bound_ok B Y /\
  (forall a, a ∈ X -> source_ok pim_start a = true).

Definition rep N T B X Y : iProp Σ :=
  srcs_rep N T X ∗ grps_rep N T B Y ∗ chains N B ∗ ents N T ∗ rp_ents N T.
Definition table_rep T : iProp Σ := ∃ N B X Y, ⌜consistent T B X Y⌝ ∗ rep N T B X Y.

(** ** What the representation says of the memory *)

Lemma SI_sources s N T X : SI s -∗ ([∗ set] a ∈ X, src_ent N T a) -∗
  ⌜forall a, a ∈ X -> exists e, srcs s !! sn N a = Some e /\ s_address e = a⌝.
Proof.
  iIntros "S H" (a Ha). rw (big_sepS_elem_of _ _ _ Ha). iDestruct "H" as (inc up p l) "(C & _)".
  iDestruct (SI_node (Nd := srcentry) with "S C") as %(e & Ee & Ec); [done|]. iPureIntro. exists e. split; [done|].
  cbn in Ec. congruence.
Qed.

Lemma SI_groups s N T B Y : SI s -∗ ([∗ set] g ∈ Y, grp_ent N T B g) -∗
  ⌜forall g, g ∈ Y -> exists e, grps s !! gn N g = Some e /\ g_group e = g⌝.
Proof.
  iIntros "S H" (g Hg). rw (big_sepS_elem_of _ _ _ Hg). iDestruct "H" as (p l) "(C & _)".
  iDestruct (SI_node (Nd := grpentry) with "S C") as %(e & Ee & Ec); [done|]. iPureIntro. exists e. split; [done|].
  cbn in Ec. congruence.
Qed.

Lemma SI_ents s N T : SI s -∗ ents N T -∗
  ⌜forall r new, T !! r = Some new -> exists m, mrts s !! nd N r = Some m /\ route_is N r new (what_of m)⌝.
Proof.
  iIntros "S H" (r new Hr). unfold ents. rw (big_sepM_lookup _ _ _ _ Hr). iDestruct "H" as (w p l) "(C & %Hw & _)".
  iDestruct (SI_node (Nd := mrtentry) with "S C") as %(m & Em & Ec); [done|]. iPureIntro. exists m. split; [done|].
  cbn in Ec. congruence.
Qed.

Lemma SI_lst s f p l : SI s -∗ lst f p l -∗ ⌜(exists z, dlseg (lk s f) p None l None z) /\ (length l <= brk s)%nat⌝.
Proof.
  iIntros "S [%z H]". iDestruct (SI_seg with "S H") as %D. iDestruct (SI_seg_length with "S H") as %L. iPureIntro.
  split; [by exists z|done].
Qed.

Lemma lk_src s i n p : lk s Fsl i = Some (n, p) <-> exists e, srcs s !! i = Some e /\ s_next e = n /\ s_prev e = p.
Proof.
  unfold lk. cbn. destruct (srcs s !! i) as [e|]; cbn; [|by split; [|intros (? & ? & _)]].
  split; [intros [= <- <-]; by exists e|]. by intros (? & [= ->] & -> & ->).
Qed.
Lemma lk_grp s i n p : lk s Fgl i = Some (n, p) <-> exists e, grps s !! i = Some e /\ g_next e = n /\ g_prev e = p.
Proof.
  unfold lk. cbn. destruct (grps s !! i) as [e|]; cbn; [|by split; [|intros (? & ? & _)]].
  split; [intros [= <- <-]; by exists e|]. by intros (? & [= ->] & -> & ->).
Qed.
Lemma lk_ml s i n p : lk s Fml i = Some (n, p) <-> exists e, mrts s !! i = Some e /\ m_grpnext e = n /\ m_grpprev e = p.
Proof.
  unfold lk. cbn. destruct (mrts s !! i) as [e|]; cbn; [|by split; [|intros (? & ? & _)]].
  split; [intros [= <- <-]; by exists e|]. by intros (? & [= ->] & -> & ->).
Qed.
Lemma lk_ms s i n p : lk s Fms i = Some (n, p) <-> exists e, mrts s !! i = Some e /\ m_srcnext e = n /\ m_srcprev e = p.
Proof.
  unfold lk. cbn. destruct (mrts s !! i) as [e|]; cbn; [|by split; [|intros (? & ? & _)]].
  split; [intros [= <- <-]; by exists e|]. by intros (? & [= ->] & -> & ->).
Qed.

(** ** The searches *)

(** One turn of a loop whose nodes hold their address. *)
Ltac turn Hk Ha :=
  cbn; unfold bind, src, grp, mrt, load; cbn;
  rw Hk; cbn; rw ?Ha; by repeat case_match.

Lemma wps_search_srclist N T X l x Φ : sa_ok x -> listed l (fun a => a ∈ X) ->
  lst Fsl (Some pim_sl) (pim_sl :: (sn N <$> l)) -∗ ([∗ set] a ∈ X, src_ent N T a) -∗
  (∀ r, ⌜search_res (sn N) (Some pim_sl) l x r⌝ -∗ lst Fsl (Some pim_sl) (pim_sl :: (sn N <$> l)) -∗
    ([∗ set] a ∈ X, src_ent N T a) -∗ Φ r) -∗
  wps (search_srclist x) Φ.
Proof.
  iIntros (Hx (So & Oa & El)) "L E W".
  iApply (wps_pure _ (search_res (sn N) (Some pim_sl) l x) (lst Fsl _ _ ∗ [∗ set] a ∈ X, src_ent N T a) with "[] [$L $E]").
  2: { iIntros (r Hr) "[L E]". by iApply ("W" with "[//] L E"). }
  iIntros (s) "S [L E]". iDestruct (SI_lst with "S L") as %[[z D] Lf]. iDestruct (SI_sources with "S E") as %Hs.
  iDestruct (SI_env with "S") as %En. iPureIntro. destruct D as (_ & n & En0 & D).
  apply lk_src in En0 as (e0 & Ee0 & <- & _). unfold search_srclist. rw get_bind. rw (e_srclist _ _ _ _ En).
  unfold bind, src, load. cbn [heap heap_srcs mbind option_bind]. rw Ee0.
  apply (search_loop_spec (fun n pr p => srclist_loop n x pr p) s x (lk s Fsl) (sn N) Hx (fun _ _ => eq_refl) l So Oa)
    with (q := Some pim_sl) (z := z); [|done|].
  - intros m prev a nx pv Ha (e & Ee & <- & _)%lk_src. destruct (Hs a) as (e' & Ee' & Ea); [by apply El|].
    assert (e' = e) as -> by congruence. turn Ee Ea.
  - unfold fuel_of. cbn in Lf. rw length_fmap in Lf. lia.
Qed.

Lemma wps_search_grplist N T B Y l x Φ : sa_ok x -> listed l (fun a => a ∈ Y) ->
  lst Fgl (Some pim_gl) (pim_gl :: (gn N <$> l)) -∗ ([∗ set] a ∈ Y, grp_ent N T B a) -∗
  (∀ r, ⌜search_res (gn N) (Some pim_gl) l x r⌝ -∗ lst Fgl (Some pim_gl) (pim_gl :: (gn N <$> l)) -∗
    ([∗ set] a ∈ Y, grp_ent N T B a) -∗ Φ r) -∗
  wps (search_grplist x) Φ.
Proof.
  iIntros (Hx (So & Oa & El)) "L E W".
  iApply (wps_pure _ (search_res (gn N) (Some pim_gl) l x) (lst Fgl _ _ ∗ [∗ set] a ∈ Y, grp_ent N T B a) with "[] [$L $E]").
  2: { iIntros (r Hr) "[L E]". by iApply ("W" with "[//] L E"). }
  iIntros (s) "S [L E]". iDestruct (SI_lst with "S L") as %[[z D] Lf]. iDestruct (SI_groups with "S E") as %Hs.
  iDestruct (SI_env with "S") as %En. iPureIntro. destruct D as (_ & n & En0 & D).
  apply lk_grp in En0 as (e0 & Ee0 & <- & _). unfold search_grplist. rw get_bind. rw (e_grplist _ _ _ _ En).
  unfold bind, grp, load. cbn [heap heap_grps mbind option_bind]. rw Ee0.
  apply (search_loop_spec (fun n pr p => grplist_loop n x pr p) s x (lk s Fgl) (gn N) Hx (fun _ _ => eq_refl) l So Oa)
    with (q := Some pim_gl) (z := z); [|done|].
  - intros m prev a nx pv Ha (e & Ee & <- & _)%lk_grp. destruct (Hs a) as (e' & Ee' & Ea); [by apply El|].
    assert (e' = e) as -> by congruence. turn Ee Ea.
  - unfold fuel_of. cbn in Lf. rw length_fmap in Lf. lia.
Qed.

(** The entries of group [g] by source, of source [a] by group. *)
Lemma wps_search_grpmrtlink N T g p l x R Φ : sa_ok x -> listed l (fun a => is_Some (T !! SG a g)) ->
  (forall s, SI s -∗ R -∗ ⌜forall a, a ∈ l -> exists e, srcs s !! sn N a = Some e /\ s_address e = a⌝) ->
  gn N g ↦[Fgm] Ptr p -∗ lst Fml p ((fun a => nd N (SG a g)) <$> l) -∗ ents N T -∗ R -∗
  (∀ r, ⌜search_res (fun a => nd N (SG a g)) None l x r⌝ -∗ gn N g ↦[Fgm] Ptr p -∗
    lst Fml p ((fun a => nd N (SG a g)) <$> l) -∗ ents N T -∗ R -∗ Φ r) -∗
  wps (search_grpmrtlink (Some (gn N g)) x) Φ.
Proof.
  iIntros (Hx (So & Oa & El) HR) "C L M E W".
  iApply (wps_pure _ (search_res (fun a => nd N (SG a g)) None l x)
    (gn N g ↦[Fgm] Ptr p ∗ lst Fml p _ ∗ ents N T ∗ R) with "[] [$C $L $M $E]").
  2: { iIntros (r Hr) "(C & L & M & E)". by iApply ("W" with "[//] C L M E"). }
  iIntros (s) "S (C & L & M & E)". iDestruct (SI_lst with "S L") as %[[z D] Lf]. iDestruct (HR with "S E") as %Hs.
  iDestruct (SI_ents with "S M") as %Hm. iDestruct (SI_node (Nd := grpentry) with "S C") as %(ge & Ege & Ep); [done|].
  cbn in Ep. injection Ep as Ep. iPureIntro. unfold search_grpmrtlink. rw get_bind.
  unfold bind, grp, load. cbn [heap heap_grps mbind option_bind]. rw Ege Ep.
  apply (search_loop_spec (fun n pr p => grpmrt_loop n x pr p) s x (lk s Fml) _ Hx (fun _ _ => eq_refl) l So Oa)
    with (q := None) (z := z); [|done|].
  - intros m prev a nx pv Ha (e & Ee & <- & _)%lk_ml. destruct (Hs a) as (e' & Ee' & Ea); [done|].
    destruct (proj1 (El a) Ha) as [new Hnew]. apply Hm in Hnew as (e1 & Ee1 & _ & _ & _ & _ & Hsrc & _).
    assert (e1 = e) as -> by congruence. cbn in Hsrc. cbn. unfold bind, mrt, src, load. cbn. rw Ee Hsrc. cbn.
    rw Ee' Ea (inet6_equal_sym x). by repeat case_match.
  - unfold fuel_of. rw length_fmap in Lf. lia.
Qed.

Lemma wps_search_srcmrtlink N T a p l x R Φ : sa_ok x -> listed l (fun g => is_Some (T !! SG a g)) ->
  (forall s, SI s -∗ R -∗ ⌜forall g, g ∈ l -> exists e, grps s !! gn N g = Some e /\ g_group e = g⌝) ->
  sn N a ↦[Fsm] Ptr p -∗ lst Fms p ((fun g => nd N (SG a g)) <$> l) -∗ ents N T -∗ R -∗
  (∀ r, ⌜search_res (fun g => nd N (SG a g)) None l x r⌝ -∗ sn N a ↦[Fsm] Ptr p -∗
    lst Fms p ((fun g => nd N (SG a g)) <$> l) -∗ ents N T -∗ R -∗ Φ r) -∗
  wps (search_srcmrtlink (Some (sn N a)) x) Φ.
Proof.
  iIntros (Hx (So & Oa & El) HR) "C L M E W".
  iApply (wps_pure _ (search_res (fun g => nd N (SG a g)) None l x)
    (sn N a ↦[Fsm] Ptr p ∗ lst Fms p _ ∗ ents N T ∗ R) with "[] [$C $L $M $E]").
  2: { iIntros (r Hr) "(C & L & M & E)". by iApply ("W" with "[//] C L M E"). }
  iIntros (s) "S (C & L & M & E)". iDestruct (SI_lst with "S L") as %[[z D] Lf]. iDestruct (HR with "S E") as %Hs.
  iDestruct (SI_ents with "S M") as %Hm. iDestruct (SI_node (Nd := srcentry) with "S C") as %(ge & Ege & Ep); [done|].
  cbn in Ep. injection Ep as Ep. iPureIntro. unfold search_srcmrtlink. rw get_bind.
  unfold bind, src, load. cbn [heap heap_srcs mbind option_bind]. rw Ege Ep.
  apply (search_loop_spec (fun n pr p => srcmrt_loop n x pr p) s x (lk s Fms) _ Hx (fun _ _ => eq_refl) l So Oa)
    with (q := None) (z := z); [|done|].
  - intros m prev g nx pv Ha (e & Ee & <- & _)%lk_ms. destruct (Hs g) as (e' & Ee' & Ea); [done|].
    destruct (proj1 (El g) Ha) as [new Hnew]. apply Hm in Hnew as (e1 & Ee1 & _ & _ & _ & Hgrp & _).
    assert (e1 = e) as -> by congruence. cbn in Hgrp. cbn. unfold bind, mrt, grp, load. cbn. rw Ee Hgrp. cbn.
    rw Ee' Ea. by repeat case_match.
  - unfold fuel_of. rw length_fmap in Lf. lia.
Qed.

(** ** What the parts of the representation depend on *)

Lemma listed_ext l P Q : (forall a, P a <-> Q a) -> listed l P -> listed l Q.
Proof. intros E (A & B & C). split_and!; [done|done|]. intros a. by rw C E. Qed.

Lemma route_is_ext N N' r new w : match r with
    | SG a g => sn N' a = sn N a /\ gn N' g = gn N g | WC g => gn N' g = gn N g | RP a => True end ->
  route_is N r new w -> route_is N' r new w.
Proof. unfold route_is. destruct r; [intros [-> ->]|intros ->|]; tauto. Qed.

Lemma ents_ext N N' T : (forall r, is_Some (T !! r) -> nd N' r = nd N r /\ match r with
    | SG a g => sn N' a = sn N a /\ gn N' g = gn N g | WC g => gn N' g = gn N g | RP a => True end) ->
  ents N T ⊢ ents N' T.
Proof.
  intros H. apply big_sepM_mono. intros r new Hr. destruct (H r) as [E1 E2]; [by rw Hr|].
  unfold ent. rw E1. iIntros "(%w & %p & %l & $ & %Hw & $ & $)". iPureIntro. by eapply route_is_ext.
Qed.

Lemma src_ent_ext N N' T T' a : sn N' a = sn N a ->
  (forall g, is_Some (T' !! SG a g) <-> is_Some (T !! SG a g)) ->
  (forall g, is_Some (T !! SG a g) -> nd N' (SG a g) = nd N (SG a g)) -> src_ent N T a ⊢ src_ent N' T' a.
Proof.
  intros E1 E2 E3. unfold src_ent. rw E1. iIntros "(%inc & %up & %p & %l & $ & C & L & %Hl)". iExists p, l. iFrame "C".
  rw (list_fmap_ext _ (fun g => nd N (SG a g)) l).
  - iFrame. iPureIntro. eapply listed_ext; [|done]. intros g. by rw E2.
  - intros i g Hi. apply E3. apply (proj2 (proj2 Hl)). by eapply list_elem_of_lookup_2.
Qed.

Lemma srcs_ext N N' T T' X : (forall a, a ∈ X -> sn N' a = sn N a) ->
  (forall a g, a ∈ X -> is_Some (T' !! SG a g) <-> is_Some (T !! SG a g)) ->
  (forall a g, a ∈ X -> is_Some (T !! SG a g) -> nd N' (SG a g) = nd N (SG a g)) -> srcs_rep N T X ⊢ srcs_rep N' T' X.
Proof.
  intros E1 E2 E3. unfold srcs_rep. iIntros "[(%l & L & %Hl) H]". iSplitL "L".
  - iExists l. iSplit; [|done]. rw (list_fmap_ext _ (sn N) l); [done|]. intros i a Hi. apply E1, (proj2 (proj2 Hl)).
    by eapply list_elem_of_lookup_2.
  - iApply (big_sepS_mono with "H"). intros a Ha. apply src_ent_ext; [by apply E1|intros g; by apply E2|intros g; by apply E3].
Qed.

Lemma grp_ent_ext N N' T T' B B' g : gn N' g = gn N g -> B' !! g = B !! g ->
  route_ptr N' T' (WC g) = route_ptr N T (WC g) ->
  (forall a, is_Some (T' !! SG a g) <-> is_Some (T !! SG a g)) ->
  (forall a, is_Some (T !! SG a g) -> nd N' (SG a g) = nd N (SG a g)) -> grp_ent N T B g ⊢ grp_ent N' T' B' g.
Proof.
  intros E1 E2 E3 E4 E5. unfold grp_ent. rw E1 E2 E3. iIntros "(%p & %l & $ & C & L & %Hl & $)". iExists p, l. iFrame "C".
  rw (list_fmap_ext _ (fun a => nd N (SG a g)) l).
  - iFrame. iPureIntro. eapply listed_ext; [|done]. intros a. by rw E4.
  - intros i a Hi. apply E5. apply (proj2 (proj2 Hl)). by eapply list_elem_of_lookup_2.
Qed.

Lemma grps_ext N N' T T' B B' Y : (forall g, g ∈ Y -> gn N' g = gn N g /\ B' !! g = B !! g /\
    route_ptr N' T' (WC g) = route_ptr N T (WC g)) ->
  (forall a g, g ∈ Y -> is_Some (T' !! SG a g) <-> is_Some (T !! SG a g)) ->
  (forall a g, g ∈ Y -> is_Some (T !! SG a g) -> nd N' (SG a g) = nd N (SG a g)) ->
  grps_rep N T B Y ⊢ grps_rep N' T' B' Y.
Proof.
  intros E1 E2 E3. unfold grps_rep. iIntros "[(%l & L & %Hl) H]". iSplitL "L".
  - iExists l. iSplit; [|done]. rw (list_fmap_ext _ (gn N) l); [done|]. intros i a Hi. apply E1, (proj2 (proj2 Hl)).
    by eapply list_elem_of_lookup_2.
  - iApply (big_sepS_mono with "H"). intros g Hg. destruct (E1 g Hg) as (A & B1 & C).
    apply grp_ent_ext; [done|done|done|intros a; by apply E2|intros a; by apply E3].
Qed.

Lemma chains_ext N N' B : (forall g, is_Some (B !! g) -> gn N' g = gn N g) -> chains N B ⊢ chains N' B.
Proof.
  intros E. apply big_sepM_mono. intros r e _. iIntros "(%p & %l & C & L & %Hl)". iExists p, l. iFrame "C".
  iSplit; [|done]. rw (list_fmap_ext _ (gn N) l); [done|]. intros i g Hi. apply E. exists r. apply Hl.
  by eapply list_elem_of_lookup_2.
Qed.

Lemma rp_ents_ext N N' T T' : (forall a, route_ptr N' T' (RP a) = route_ptr N T (RP a)) ->
  rp_ents N T ⊢ rp_ents N' T'.
Proof. intros E. apply big_sepM_mono. intros i e _. by rw E. Qed.

Lemma route_ptr_ext N N' T T' r : (is_Some (T' !! r) <-> is_Some (T !! r)) -> (is_Some (T !! r) -> nd N' r = nd N r) ->
  route_ptr N' T' r = route_ptr N T r.
Proof.
  intros E1 E2. unfold route_ptr. destruct (T' !! r) eqn:A, (T !! r) eqn:C; [by rw E2| | |done].
  - by destruct (proj1 E1 ltac:(done)).
  - by destruct (proj2 E1 ltac:(done)).
Qed.
End Rep.
