(* ===== verification/MrtCreate.v ===== *)
(** * MrtCreate: making sources, groups and entries

    The functions of mrt.c that look for a structure and make it when it is not
    there keep the representation of the table, with the new structure on its
    lists at its place. *)

From stdpp Require Import sorting functions.
From iris.proofmode Require Import proofmode.
From iris.base_logic.lib Require Import iprop own ghost_map.
From S2P Require Import Prelude Inet6 Links Pim RpMatch Vif Mrt PimLogic MrtSpec MrtTable.
Open Scope Z_scope.

Section Create.
Context `{!pimG Σ}.
Implicit Types (N : nodes) (T : table) (B : bound) (X Y : gset sockaddr_in6).

(** ** The cells of new structures *)

Lemma whole_src i (e : srcentry) : whole i e ⊢ i ↦[Fsl] Link (s_next e) (s_prev e) ∗
  i ↦[Fsi] Info (s_address e) (s_incoming e) (s_upstream e) ∗ i ↦[Fsm] Ptr (s_mrtlink e).
Proof.
  unfold whole. cbn. iIntros "((%a & %Ha & A) & (%b & %Hb & B) & (%c & %Hc & C) & _)". simplify_eq. iFrame.
Qed.
Lemma whole_grp i (g : grpentry) : whole i g ⊢ i ↦[Fgl] Link (g_next g) (g_prev g) ∗
  i ↦[Fgr] Link (g_rpnext g) (g_rpprev g) ∗ i ↦[Fga] Addr (g_group g) ∗ i ↦[Fgm] Ptr (g_mrtlink g) ∗
  i ↦[Fgx] Ptr (g_active_rp_grp g) ∗ i ↦[Fgw] Ptr (g_grp_route g).
Proof.
  unfold whole. cbn. iIntros "((%a & %Ha & A) & (%b & %Hb & B) & (%c & %Hc & C) & (%d & %Hd & D) &
    (%e & %He & E) & (%f & %Hf & F) & _)". simplify_eq. iFrame.
Qed.
Lemma whole_mrt i (m : mrtentry) : whole i m ⊢ i ↦[Fml] Link (m_grpnext m) (m_grpprev m) ∗
  i ↦[Fms] Link (m_srcnext m) (m_srcprev m) ∗ i ↦[Fmo] What (what_of m) ∗ i ↦[Fmk] Ptr (m_kernel_cache m).
Proof.
  unfold whole. cbn. iIntros "((%a & %Ha & A) & (%b & %Hb & B) & (%c & %Hc & C) & (%d & %Hd & D) & _)".
  simplify_eq. iFrame.
Qed.

Lemma some_src i c1 c2 c3 : i ↦[Fsl] c1 -∗ i ↦[Fsi] c2 -∗ i ↦[Fsm] c3 -∗ some_node (Nd := srcentry) i.
Proof. iIntros "A B C". unfold some_node. cbn. iFrame. Qed.
Lemma some_grp i c1 c2 c3 c4 c5 c6 : i ↦[Fgl] c1 -∗ i ↦[Fgr] c2 -∗ i ↦[Fga] c3 -∗ i ↦[Fgm] c4 -∗ i ↦[Fgx] c5 -∗
  i ↦[Fgw] c6 -∗ some_node (Nd := grpentry) i.
Proof. iIntros "A B C D E F". unfold some_node. cbn. iFrame. Qed.
Lemma some_mrt i c1 c2 c3 c4 : i ↦[Fml] c1 -∗ i ↦[Fms] c2 -∗ i ↦[Fmo] c3 -∗ i ↦[Fmk] c4 -∗ some_node (Nd := mrtentry) i.
Proof. iIntros "A B C D". unfold some_node. cbn. iFrame. Qed.

(** ** Flags *)

Lemma has_bit x k : 0 <= k -> has x (2 ^ k) = Z.testbit x k.
Proof.
  intros Hk. unfold has. apply eq_true_iff_eq. rw negb_true_iff. split.
  - intros H. apply Z.eqb_neq in H. destruct (Z.testbit x k) eqn:E; [done|]. exfalso. apply H. apply Z.bits_inj'.
    intros n Hn. rw Z.land_spec Z.bits_0. destruct (decide (n = k)) as [->|Hne]; [by rw E|].
    rw Z.pow2_bits_false; [|congruence]. apply andb_false_r.
  - intros E. apply Z.eqb_neq. intros H. assert (Z.testbit (Z.land x (2 ^ k)) k = false) by by rw H Z.bits_0.
    rw Z.land_spec E Z.pow2_bits_true in H0; [|done]. done.
Qed.

Definition w_on (f : Z) (w : what) : what :=
  mkWhat (w_group w) (w_source w) (w_sg w || has f MRTF_SG) (w_wc w || has f MRTF_WC) (w_pm w || has f MRTF_PMBR)
    (w_new w || has f MRTF_NEW) (w_timers w) (w_delays w).
Definition w_off (f : Z) (w : what) : what :=
  mkWhat (w_group w) (w_source w) (w_sg w && negb (has f MRTF_SG)) (w_wc w && negb (has f MRTF_WC))
    (w_pm w && negb (has f MRTF_PMBR)) (w_new w && negb (has f MRTF_NEW)) (w_timers w) (w_delays w).

Lemma what_on f m : what_of (flag_on f m) = w_on f (what_of m).
Proof.
  unfold what_of, w_on. cbn. change MRTF_SG with (2 ^ 13). change MRTF_WC with (2 ^ 1). change MRTF_PMBR with (2 ^ 14).
  change MRTF_NEW with (2 ^ 3). rw !has_bit; try lia. rw !Z.lor_spec. done.
Qed.
Lemma what_off f m : what_of (flag_off f m) = w_off f (what_of m).
Proof.
  unfold what_of, w_off. cbn. change MRTF_SG with (2 ^ 13). change MRTF_WC with (2 ^ 1). change MRTF_PMBR with (2 ^ 14).
  change MRTF_NEW with (2 ^ 3). rw !has_bit; try lia. rw !Z.ldiff_spec. done.
Qed.

Lemma wps_what (g : mrtentry -> mrtentry) (h : what -> what) i w Φ :
  (forall m, what_of (g m) = h (what_of m)) -> (forall m f, f <> Fmo -> cells (g m) f = cells m f) ->
  i ↦[Fmo] What w -∗ (i ↦[Fmo] What (h w) -∗ Φ tt) -∗ wps (upd (Some i) g) Φ.
Proof.
  iIntros (H1 H2) "C W". iApply (wps_upd with "C W"); [done|]. intros m E. split; [|by intros f Hf; apply H2].
  cbn in E |- *. injection E as <-. by rw H1.
Qed.
Lemma wps_flag_on f i w Φ : i ↦[Fmo] What w -∗ (i ↦[Fmo] What (w_on f w) -∗ Φ tt) -∗ wps (upd (Some i) (flag_on f)) Φ.
Proof. apply wps_what; [apply what_on|by intros m []]. Qed.
Lemma wps_flag_off f i w Φ : i ↦[Fmo] What w -∗ (i ↦[Fmo] What (w_off f w) -∗ Φ tt) -∗ wps (upd (Some i) (flag_off f)) Φ.
Proof. apply wps_what; [apply what_off|by intros m []]. Qed.

(** ** Lists with a first entry that is not used *)

(** The node [i] put behind [j]: [next] of [i], [next] of [j], [prev] of [i],
    [prev] of the node behind, as [create_srcentry] and [create_grpentry] do. *)
Lemma sorted_insert (nf : sockaddr_in6 -> nat) h l1 : exists L0 j,
  h :: (nf <$> l1) = L0 ++ [j] /\ match last l1 with Some b => Some (nf b) | None => Some h end = Some j.
Proof.
  destruct l1 as [|b l0 _] using rev_ind; [by exists [], h|]. exists (h :: (nf <$> l0)), (nf b).
  rw fmap_app last_snoc. done.
Qed.

Lemma listed_insert l1 l2 x P : listed (l1 ++ l2) P -> sa_ok x -> sorted (l1 ++ x :: l2) ->
  listed (l1 ++ x :: l2) (fun a => a = x \/ P a).
Proof.
  intros (_ & O & E) Hx S. split_and!; [done| |].
  - apply Forall_app in O as [O1 O2]. apply Forall_app. split; [done|]. by constructor.
  - intros a. rewrite <- E. rw !elem_of_app elem_of_cons. tauto.
Qed.

(** ** Groups *)

Definition set_gn N g i := mkNodes (sn N) (<[g := i]> (gn N)) (nd N).

(** A group that is not there has no routes and no RP. *)
Definition unknown_group T B g := (forall a, T !! SG a g = None) /\ T !! WC g = None /\ B !! g = None.

Lemma wps_create_grpentry junk N T B Y g Φ : sa_ok g -> (g ∉ Y -> unknown_group T B g) ->
  grps_rep N T B Y -∗
  (∀ gn', ⌜forall g', g' ∈ Y -> gn' g' = gn N g'⌝ -∗
    grps_rep (mkNodes (sn N) gn' (nd N)) T B ({[g]} ∪ Y) -∗ Φ (Some (gn' g))) -∗
  wps (create_grpentry junk g) Φ.
Proof.
  iIntros (Hg Hu) "[(%l & L & %Hl) E] W". unfold create_grpentry.
  iApply wps_bind. iApply (wps_search_grplist with "L E"); [done|done|].
  iIntros (r [[Hi ->]|(l1 & l2 & -> & Hn & Hs & ->)]) "L E".
  - iApply wps_ret. iApply ("W" $! (gn N)); [done|]. destruct N as [s0 g0 n0]. cbn.
    assert (g ∈ Y) by by apply Hl. rw (subseteq_union_1_L {[g]} Y); [|set_solver]. iFrame. done.
  - assert (Hy : g ∉ Y) by (intros H; by apply Hn, Hl). destruct (Hu Hy) as (U1 & U2 & U3).
    iApply wps_bind. iApply wps_malloc. iIntros (i) "Hw". rw whole_grp. cbn.
    iDestruct "Hw" as "(Cl & Cr & Ca & Cm & Cx & Cw)".
    destruct (sorted_insert (gn N) pim_gl l1) as (L0 & j & EL & ->).
    rw fmap_app app_comm_cons EL. iDestruct "L" as "(%z & L)". rw seg_app. iDestruct "L" as (m r) "[L1 L2]".
    rw seg_snoc. iDestruct "L1" as (r0) "(L1 & Cj & ->)".
    wload "Cj" as e Ee. cell_eqs Ee. wupd "Cl". wupd "Cj". wupd "Cl". wload "Cl" as e' Ee'. cell_eqs Ee'.
    iApply wps_bind. iApply (wps_set_prev (Nd := grpentry) (f := Fgl) with "L2"). iIntros (z') "L2".
    iApply wps_ret.
    set (gn' := <[g := i]> (gn N)).
    assert (G : forall g', g' ∈ Y -> gn' g' = gn N g').
    { intros g' Hg'. unfold gn'. rw fn_lookup_insert_ne; [done|]. intros ->. done. }
    assert (Gg : gn' g = i) by apply fn_lookup_insert. rewrite <- Gg.
    iApply ("W" $! gn'); [done|]. unfold grps_rep. iSplitL "L1 Cj Cl L2".
    + iExists (l1 ++ g :: l2). iSplit.
      * iExists z'. rw fmap_app fmap_cons. cbn [gn]. rw Gg app_comm_cons.
        assert (Ext : forall l' : list sockaddr_in6, (forall b, b ∈ l' -> b ∈ Y) -> gn' <$> l' = gn N <$> l').
        { intros l' H'. apply list_fmap_ext. intros k b Hb. apply G, H'. by eapply list_elem_of_lookup_2. }
        rw (Ext l1); [|intros b Hb; apply (proj2 (proj2 Hl)), elem_of_app; by left].
        rw (Ext l2); [|intros b Hb; apply (proj2 (proj2 Hl)), elem_of_app; by right].
        rw EL seg_app. iExists (Some i), (Some j). iSplitL "L1 Cj"; [rw seg_snoc; iExists _; by iFrame|].
        cbn. iSplit; [done|]. iExists _. iFrame.
      * iPureIntro. eapply listed_ext; [|apply listed_insert; [exact Hl|done|done]]. intros a. cbn. set_solver.
    + iApply big_sepS_insert; [done|]. iSplitR "E".
      * iExists None, []. cbn [gn nd]. rw Gg. unfold route_ptr. rw U2 U3. iFrame "Ca Cm Cw Cx Cr". iSplit; [by iExists None|]. iPureIntro.
        split_and!; [constructor|constructor|]. intros a. rw U1. split; [|by intros []].
        intros Hx. by apply not_elem_of_nil in Hx.
      * iApply (big_sepS_mono with "E"). intros g' Hg'. by apply grp_ent_ext; [apply G| | | |].
Qed.

(** ** Sources *)

Lemma existsb_find {A} (f : A -> bool) l : existsb f l = match List.find f l with Some _ => true | None => false end.
Proof. induction l as [|x l IH]; cbn; [done|]. by destruct (f x). Qed.

(** The kernel's routes lead to interfaces there are. *)
Definition routes_ok : Prop := forall a, (rpf pim_start a).2 = NO_VIF \/
  0 <= (rpf pim_start a).2 < Z.of_nat (length (uvifs pim_start)).

Lemma wps_set_upstream i a iif up nb Φ : is_Some (uvifs pim_start !! Z.to_nat iif) -> 0 <= iif ->
  i ↦[Fsi] Info a iif up -∗
  (∀ up', i ↦[Fsi] Info a iif up' -∗
    Φ (match uvifs pim_start !! Z.to_nat iif with Some v => existsb (nbr_has nb) (uv_pim_neighbors v) | None => false end)) -∗
  wps (set_upstream (Some i) nb) Φ.
Proof.
  iIntros ([v Ev] Hi) "C W". rw Ev existsb_find. unfold set_upstream. iApply wps_get. iIntros (s He).
  wload "C" as e Ee. cell_eqs Ee. iApply wps_some.
  { unfold rd. rw decide_True; [|lia]. by rw (e_uvifs _ _ _ _ He) Ev. }
  destruct (List.find (nbr_has nb) (uv_pim_neighbors v)) as [n|]; wupd "C"; iApply wps_ret; by iApply "W".
Qed.

Lemma wps_set_incoming i a inc up Φ : routes_ok -> i ↦[Fsi] Info a inc up -∗
  (∀ inc' up', i ↦[Fsi] Info a inc' up' -∗ Φ (source_ok pim_start a)) -∗
  wps (set_incoming (Some i) PIM_IIF_SOURCE) Φ.
Proof.
  iIntros (Hr) "C W". unfold set_incoming. wload "C" as e Ee. cell_eqs Ee. iApply wps_get. iIntros (s He).
  rw (e_uvifs _ _ _ _ He) (e_rpf _ _ _ _ He). wupd0 "C". wupd0 "C". wupd "C". unfold source_ok, on_a_link.
  destruct (decide (local_address (s_address e) (uvifs pim_start) <> NO_VIF)) as [D1|D1].
  { wupd "C". iApply wps_ret. iSpecialize ("W" with "C"). by rw bool_decide_true. }
  rw (bool_decide_false _ D1). wupd "C".
  destruct (decide (find_vif_direct (s_address e) (uvifs pim_start) <> NO_VIF)) as [D2|D2].
  { destruct (decide (PIM_IIF_SOURCE = PIM_IIF_SOURCE)); [|done]. wupd "C". iApply wps_ret. iSpecialize ("W" with "C"). by rw bool_decide_true. }
  rw (bool_decide_false _ D2). cbn [orb]. specialize (Hr (s_address e)).
  destruct (rpf pim_start (s_address e)) as [nb iif]. cbn in Hr.
  destruct (iif =? NO_VIF) eqn:E1; cbn. { iApply wps_ret. by iApply "W". }
  destruct (IN6_IS_ADDR_UNSPECIFIED (sin6_addr nb)) eqn:E2; cbn. { iApply wps_ret. by iApply "W". }
  apply Z.eqb_neq in E1. destruct Hr as [Hr|Hr]; [done|]. wupd "C".
  destruct (lookup_lt_is_Some_2 (uvifs pim_start) (Z.to_nat iif)) as [v Ev]; [lia|].
  iApply wps_some. { unfold rd. rw decide_True; [|lia]. exact Ev. }
  wupd0 "C". wupd0 "C". iApply (wps_set_upstream with "C"); [by rw Ev|lia|]. iIntros (up') "C". by iApply "W".
Qed.

Lemma wps_create_srcentry junk N T X a Φ : routes_ok -> sa_ok a -> (forall x, x ∈ X -> source_ok pim_start x = true) ->
  (a ∉ X -> forall g, T !! SG a g = None) -> srcs_rep N T X -∗
  (∀ sn', ⌜forall x, x ∈ X -> sn' x = sn N x⌝ -∗
    (if source_ok pim_start a then srcs_rep (mkNodes sn' (gn N) (nd N)) T ({[a]} ∪ X) else srcs_rep N T X) -∗
    Φ (if source_ok pim_start a then Some (sn' a) else None)) -∗
  wps (create_srcentry junk a) Φ.
Proof.
  iIntros (Hr Ha Hok Hu) "[(%l & L & %Hl) E] W". unfold create_srcentry.
  iApply wps_bind. iApply (wps_search_srclist with "L E"); [done|done|].
  iIntros (r [[Hi ->]|(l1 & l2 & -> & Hn & Hs & ->)]) "L E".
  - iApply wps_ret. assert (a ∈ X) by by apply Hl. rw (Hok a); [|done].
    iApply ("W" $! (sn N)); [done|]. destruct N as [s0 g0 n0]. cbn.
    rw (subseteq_union_1_L {[a]} X); [|set_solver]. iFrame. done.
  - assert (Hy : a ∉ X) by (intros H; by apply Hn, Hl).
    iApply wps_bind. iApply wps_malloc. iIntros (i) "Hw". rw whole_src. cbn [s_next s_prev s_address s_incoming s_upstream s_mrtlink].
    iDestruct "Hw" as "(Cl & Ci & Cm)".
    iApply wps_bind. iApply (wps_set_incoming with "Ci"); [done|]. iIntros (inc up) "Ci".
    destruct (source_ok pim_start a) eqn:Hso; cbn [negb].
    2: { iApply wps_bind. iApply (wps_free with "[Cl Ci Cm]"); [iApply (some_src with "Cl Ci Cm")|].
      iApply wps_ret. iApply ("W" $! (sn N)); [done|]. iFrame. done. }
    wupd "Cm". wupd0 "Cm". wupd0 "Cm".
    destruct (sorted_insert (sn N) pim_sl l1) as (L0 & j & EL & ->).
    rw fmap_app app_comm_cons EL. iDestruct "L" as "(%z & L)". rw seg_app. iDestruct "L" as (m r) "[L1 L2]".
    rw seg_snoc. iDestruct "L1" as (r0) "(L1 & Cj & ->)".
    wload "Cj" as e Ee. cell_eqs Ee. wupd "Cl". wupd "Cj". wupd "Cl". wload "Cl" as e' Ee'. cell_eqs Ee'.
    iApply wps_bind. iApply (wps_set_prev (Nd := srcentry) (f := Fsl) with "L2"). iIntros (z') "L2".
    iApply wps_ret.
    set (sn' := <[a := i]> (sn N)).
    assert (G : forall x, x ∈ X -> sn' x = sn N x).
    { intros x Hx. unfold sn'. rw fn_lookup_insert_ne; [done|]. intros ->. done. }
    assert (Gg : sn' a = i) by apply fn_lookup_insert. rewrite <- Gg.
    iApply ("W" $! sn'); [done|]. unfold srcs_rep. iSplitL "L1 Cj Cl L2".
    + iExists (l1 ++ a :: l2). iSplit.
      * iExists z'. rw fmap_app fmap_cons. cbn [sn]. rw Gg app_comm_cons.
        assert (Ext : forall l' : list sockaddr_in6, (forall b, b ∈ l' -> b ∈ X) -> sn' <$> l' = sn N <$> l').
        { intros l' H'. apply list_fmap_ext. intros k b Hb. apply G, H'. by eapply list_elem_of_lookup_2. }
        rw (Ext l1); [|intros b Hb; apply (proj2 (proj2 Hl)), elem_of_app; by left].
        rw (Ext l2); [|intros b Hb; apply (proj2 (proj2 Hl)), elem_of_app; by right].
        rw EL seg_app. iExists (Some i), (Some j). iSplitL "L1 Cj"; [rw seg_snoc; iExists _; by iFrame|].
        cbn. iSplit; [done|]. iExists _. iFrame.
      * iPureIntro. eapply listed_ext; [|apply listed_insert; [exact Hl|done|done]]. intros x. cbn. set_solver.
    + iApply big_sepS_insert; [done|]. iSplitR "E".
      * iExists inc, up, None, []. cbn [sn nd]. rw Gg. iFrame "Ci Cm". iSplit; [by iExists None|]. iPureIntro.
        split_and!; [constructor|constructor|]. intros g. rw (Hu Hy). split; [|by intros []].
        intros Hx. by apply not_elem_of_nil in Hx.
      * iApply (big_sepS_mono with "E"). intros x Hx. by apply src_ent_ext; [apply G| |].
Qed.

(** ** Entries *)

Lemma wps_next_malloc Φ : Φ true -∗ wps next_malloc Φ.
Proof.
  iIntros "W" (s) "S". iDestruct (SI_env with "S") as %He. iModIntro. iExists true, s. iFrame. iPureIntro.
  unfold next_malloc. by rw (e_mallocs _ _ _ _ He).
Qed.

Lemma wps_alloc_mrtentry junk sp gp Φ :
  (∀ i, free_links i -∗ i ↦[Fmo] What (mkWhat gp sp false false false true n_timers n_timers) -∗
    i ↦[Fmk] Ptr None -∗ Φ (Some i)) -∗
  wps (alloc_mrtentry junk sp gp) Φ.
Proof.
  iIntros "W". unfold alloc_mrtentry. iApply wps_get. iIntros (s He). rw (e_total _ _ _ _ He).
  iApply wps_bind. iApply wps_malloc. iIntros (i) "Hw". rw whole_mrt. iDestruct "Hw" as "(L & S & O & K)".
  iApply wps_bind. iApply wps_next_malloc. iApply wps_bind. iApply wps_next_malloc. cbn [negb andb].
  fold n_timers. wupd "O". wupd "O". wupd "O". wupd "K". iApply wps_ret. rw !length_replicate.
  iApply ("W" with "[L S] [O] K").
  - iSplitL "L"; by iExists _, _.
  - iApply (bi.equiv_entails_1_1 with "O"). done.
Qed.

(** An entry goes behind the one that the search gave, or to the head. *)
Lemma wps_insert_grpmrtlink i x y gi p L1 L2 Φ : gi ↦[Fgm] Ptr p -∗ lst Fml p (L1 ++ L2) -∗ i ↦[Fml] Link x y -∗
  (∀ p', gi ↦[Fgm] Ptr p' -∗ lst Fml p' (L1 ++ i :: L2) -∗ Φ tt) -∗
  wps (insert_grpmrtlink (Some i) (last L1) (Some gi)) Φ.
Proof.
  iIntros "C (%z & L) I W". unfold insert_grpmrtlink. rw seg_app. iDestruct "L" as (m r) "[L1 L2]".
  iApply (wps_bind_mono _ _ _ (fun _ => ∃ p', gi ↦[Fgm] Ptr p' ∗ seg Fml p' None L1 (Some i) r ∗ i ↦[Fml] Link m r)%I
    with "[C L1 I]").
  - destruct L1 as [|j L0 _] using rev_ind.
    + iDestruct "L1" as "[-> ->]". cbn [last]. wload "C" as e Ee. cell_eqs Ee. wupd "I". wupd "I". wupd_last "C".
      iExists (Some i). iFrame. by iSplit.
    + rw last_snoc seg_snoc. iDestruct "L1" as (r0) "(L1 & Cj & ->)". wload "Cj" as e Ee. cell_eqs Ee.
      wupd "I". wupd "I". wupd_last "Cj". iExists p. iFrame. rw seg_snoc. iExists _. by iFrame.
  - iIntros (_) "(%p' & C & L1 & I)". wload "I" as e Ee. cell_eqs Ee.
    iApply (wps_set_prev (Nd := mrtentry) (f := Fml) with "L2"). iIntros (z') "L2". iApply ("W" with "C").
    iExists z'. rw seg_app. iExists _, _. iFrame "L1". cbn. iSplit; [done|]. iExists _. iFrame.
Qed.

Lemma wps_insert_srcmrtlink i x y si p L1 L2 Φ : si ↦[Fsm] Ptr p -∗ lst Fms p (L1 ++ L2) -∗ i ↦[Fms] Link x y -∗
  (∀ p', si ↦[Fsm] Ptr p' -∗ lst Fms p' (L1 ++ i :: L2) -∗ Φ tt) -∗
  wps (insert_srcmrtlink (Some i) (last L1) (Some si)) Φ.
Proof.
  iIntros "C (%z & L) I W". unfold insert_srcmrtlink. rw seg_app. iDestruct "L" as (m r) "[L1 L2]".
  iApply (wps_bind_mono _ _ _ (fun _ => ∃ p', si ↦[Fsm] Ptr p' ∗ seg Fms p' None L1 (Some i) r ∗ i ↦[Fms] Link m r)%I
    with "[C L1 I]").
  - destruct L1 as [|j L0 _] using rev_ind.
    + iDestruct "L1" as "[-> ->]". cbn [last]. wload "C" as e Ee. cell_eqs Ee. wupd "I". wupd "I". wupd_last "C".
      iExists (Some i). iFrame. by iSplit.
    + rw last_snoc seg_snoc. iDestruct "L1" as (r0) "(L1 & Cj & ->)". wload "Cj" as e Ee. cell_eqs Ee.
      wupd "I". wupd "I". wupd_last "Cj". iExists p. iFrame. rw seg_snoc. iExists _. by iFrame.
  - iIntros (_) "(%p' & C & L1 & I)". wload "I" as e Ee. cell_eqs Ee.
    iApply (wps_set_prev (Nd := mrtentry) (f := Fms) with "L2"). iIntros (z') "L2". iApply ("W" with "C").
    iExists z'. rw seg_app. iExists _, _. iFrame "L1". cbn. iSplit; [done|]. iExists _. iFrame.
Qed.

Definition set_nd N r i := mkNodes (sn N) (gn N) (<[r := i]> (nd N)).

Lemma set_nd_eq N r i : nd (set_nd N r i) r = i.
Proof. apply fn_lookup_insert. Qed.
Lemma set_nd_ne N r r' i : r' <> r -> nd (set_nd N r i) r' = nd N r'.
Proof. intros H. cbn. rw fn_lookup_insert_ne; congruence. Qed.

Lemma ents_insert N T r i new : T !! r = None -> ents N T -∗ ent (set_nd N r i) r new -∗ ents (set_nd N r i) (<[r := new]> T).
Proof.
  iIntros (Hr) "E H". unfold ents. rw big_sepM_insert; [|done]. iFrame. fold (ents (set_nd N r i) T).
  iApply (ents_ext with "E"). intros r' [x Hx]. split; [rw set_nd_ne; [done|congruence]|]. by destruct r'.
Qed.

Lemma search_miss (nf : sockaddr_in6 -> nat) l1 :
  match last l1 with Some b => Some (nf b) | None => None end = last (nf <$> l1).
Proof. rw fmap_last. by destruct (last l1). Qed.

Lemma lookup_add r T : T !! r = None -> add_route r T = <[r := true]> T.
Proof. unfold add_route. by intros ->. Qed.

(** An (S,G) entry. *)
Lemma wps_create_sg junk N T B X Y a g Φ : a ∈ X -> g ∈ Y -> sa_ok a -> sa_ok g ->
  (forall x, is_Some (T !! SG x g) -> x ∈ X) -> (forall x, is_Some (T !! SG a x) -> x ∈ Y) ->
  srcs_rep N T X -∗ grps_rep N T B Y -∗ ents N T -∗
  (∀ nd', ⌜forall r, is_Some (T !! r) -> nd' r = nd N r⌝ -∗
    srcs_rep (mkNodes (sn N) (gn N) nd') (add_route (SG a g) T) X -∗
    grps_rep (mkNodes (sn N) (gn N) nd') (add_route (SG a g) T) B Y -∗
    ents (mkNodes (sn N) (gn N) nd') (add_route (SG a g) T) -∗ Φ (Some (nd' (SG a g)))) -∗
  wps (create_mrtentry junk (Some (sn N a)) (Some (gn N g)) MRTF_SG) Φ.
Proof.
  iIntros (Ha Hg Oa Og HX HY) "[LS S] [LG G] M W". unfold create_mrtentry.
  change (has MRTF_SG MRTF_SG) with true. cbv iota.
  iDestruct (big_sepS_delete _ _ _ Hg with "G") as "[Gg G]".
  iDestruct "Gg" as (p l) "(Ga & Gm & Gl & %Hl & Gw & Gx & Gr)".
  iDestruct (big_sepS_delete _ _ _ Ha with "S") as "[Sa S]".
  iDestruct "Sa" as (inc up q k) "(Si & Sm & Sl & %Hk)".
  wload "Si" as e Ee. cell_eqs Ee. wload "Ga" as ge Ege. cell_eqs Ege.
  iApply wps_bind. iApply (wps_search_grpmrtlink N T (g_group ge) p l (s_address e)
    (sn N (s_address e) ↦[Fsi] Info (s_address e) (s_incoming e) (s_upstream e) ∗ ([∗ set] x ∈ (X ∖ {[s_address e]}), src_ent N T x))
    with "Gm Gl M [$Si $S]"); [done|done| |].
  { iIntros (s) "SI [C S]". iDestruct (SI_sources with "SI S") as %Hs.
    iDestruct (SI_node (Nd := srcentry) with "SI C") as %(e' & Ee' & Ec); [done|]. iPureIntro. intros x Hx.
    destruct (decide (x = s_address e)) as [->|Hne]; [exists e'; split; [done|cbn in Ec; congruence]|].
    apply Hs. apply elem_of_difference. split; [apply HX, Hl, Hx|set_solver]. }
  iIntros (r [[Hi ->]|(l1 & l2 & -> & Hn & Hs & ->)]) "Gm Gl M [Si S]".
  { iApply wps_ret. destruct (proj1 (proj2 (proj2 Hl) _) Hi) as [new Hnew].
    assert (Et : add_route (SG (s_address e) (g_group ge)) T = T) by (unfold add_route; by rw Hnew). rw Et.
    destruct N as [s0 g0 n0]. cbn. iApply ("W" $! n0 with "[//] [LS Si Sm Sl S] [LG Ga Gm Gl Gw Gx Gr G] M").
    - iFrame "LS". iApply big_sepS_delete; [exact Ha|]. iFrame "S". iExists _, _, q, k. by iFrame.
    - iFrame "LG". iApply big_sepS_delete; [exact Hg|]. iFrame "G". iExists p, l. by iFrame. }
  iApply wps_bind. iApply (wps_search_srcmrtlink N T (s_address e) q k (g_group ge)
    (gn N (g_group ge) ↦[Fga] Addr (g_group ge) ∗ ([∗ set] x ∈ (Y ∖ {[g_group ge]}), grp_ent N T B x))
    with "Sm Sl M [$Ga $G]"); [done|done| |].
  { iIntros (s) "SI [C S]". iDestruct (SI_groups with "SI S") as %Hs'.
    iDestruct (SI_node (Nd := grpentry) with "SI C") as %(e' & Ee' & Ec); [done|]. iPureIntro. intros x Hx.
    destruct (decide (x = g_group ge)) as [->|Hne]; [exists e'; split; [done|cbn in Ec; congruence]|].
    apply Hs'. apply elem_of_difference. split; [apply HY, Hk, Hx|set_solver]. }
  iIntros (r [[Hi ->]|(k1 & k2 & -> & Hn' & Hs' & ->)]) "Sm Sl M [Ga G]".
  { exfalso. apply Hn, Hl. by apply (proj2 (proj2 Hk)). }
  set (a := s_address e). set (g := g_group ge). assert (Hnone : T !! SG a g = None).
  { destruct (T !! SG a g) eqn:E; [|done]. exfalso. apply Hn, Hl. by rw E. }
  rw !search_miss. iApply wps_bind. iApply wps_alloc_mrtentry. iIntros (i) "[(%x1 & %y1 & I1) (%x2 & %y2 & I2)] O K".
  rw !fmap_app. iApply wps_bind. iApply (wps_insert_grpmrtlink with "Gm Gl I1"). iIntros (p') "Gm Gl".
  iApply wps_bind. iApply (wps_insert_srcmrtlink with "Sm Sl I2"). iIntros (q') "Sm Sl".
  iApply wps_bind. iApply (wps_flag_on with "O"). iIntros "O". iApply wps_ret.
  rw (lookup_add (SG a g) T); [|done]. set (N' := set_nd N (SG a g) i).
  assert (EN : nd N' (SG a g) = i) by apply set_nd_eq. rewrite <- EN.
  assert (EO : forall x, is_Some (T !! x) -> nd N' x = nd N x).
  { intros x [y Hx]. unfold N'. rw set_nd_ne; [done|congruence]. }
  iApply ("W" $! (nd N') with "[//] [LS Si Sm Sl S] [LG Ga Gm Gl Gw Gx Gr G] [M O K]").
  - iFrame "LS". iApply big_sepS_delete; [exact Ha|]. iSplitR "S".
    + iExists _, _, q', (k1 ++ g :: k2). iFrame "Si Sm". rw fmap_app fmap_cons. cbn [nd]. rw EN.
      assert (Ext : forall l' : list sockaddr_in6, (forall b, b ∈ l' -> b ∈ (k1 ++ k2)) ->
        ((fun x => nd N' (SG a x)) <$> l') = ((fun x => nd N (SG a x)) <$> l')).
      { intros l' H'. apply list_fmap_ext. intros j b Hb. apply EO, Hk, H'. by eapply list_elem_of_lookup_2. }
      rw (Ext k1) ?(Ext k2); [|intros b Hb; apply elem_of_app; by right|intros b Hb; apply elem_of_app; by left].
      iFrame. iPureIntro. eapply listed_ext; [|apply listed_insert; [exact Hk|done|done]]. intros x. cbn.
      destruct (decide (x = g)) as [->|Hne]; [rw lookup_insert_eq; naive_solver|].
      rw lookup_insert_ne; [naive_solver|congruence].
    + iApply (big_sepS_mono with "S"). intros x Hx. apply src_ent_ext; [done| |].
      * intros y. rw lookup_insert_ne; [done|set_solver].
      * intros y Hy. by apply EO.
  - iFrame "LG". iApply big_sepS_delete; [exact Hg|]. iSplitR "G".
    + iExists p', (l1 ++ a :: l2). cbn [gn]. iFrame "Ga Gm Gx Gr". rw fmap_app fmap_cons. cbn [nd]. rw EN.
      assert (Ext : forall l' : list sockaddr_in6, (forall b, b ∈ l' -> b ∈ (l1 ++ l2)) ->
        ((fun x => nd N' (SG x g)) <$> l') = ((fun x => nd N (SG x g)) <$> l')).
      { intros l' H'. apply list_fmap_ext. intros j b Hb. apply EO, Hl, H'. by eapply list_elem_of_lookup_2. }
      rw (Ext l1) ?(Ext l2); [|intros b Hb; apply elem_of_app; by right|intros b Hb; apply elem_of_app; by left].
      iFrame "Gl". iSplit.
      * iPureIntro. eapply listed_ext; [|apply listed_insert; [exact Hl|done|done]]. intros x. cbn.
        destruct (decide (x = a)) as [->|Hne]; [rw lookup_insert_eq; naive_solver|].
        rw lookup_insert_ne; [naive_solver|congruence].
      * rw (route_ptr_ext N _ T (<[SG a g := true]> T)); [done|by rw lookup_insert_ne|by intros H; apply EO].
    + iApply (big_sepS_mono with "G"). intros x Hx. apply grp_ent_ext; [done|done| | |].
      * apply route_ptr_ext; [by rw lookup_insert_ne|by intros H; apply EO].
      * intros y. rw lookup_insert_ne; [done|set_solver].
      * intros y Hy. by apply EO.
  - iApply (ents_insert N T (SG a g) i true with "M"); [done|]. iExists _, None, []. rw EN. iFrame "O K".
    iSplit; [|iSplit; [by iExists None|done]]. iPureIntro. by repeat split.
Qed.

Lemma old_nd N T r i : T !! r = None -> forall x, is_Some (T !! x) -> nd (set_nd N r i) x = nd N x.
Proof. intros H x [y Hx]. rw set_nd_ne; [done|congruence]. Qed.

(** A (star,G) entry. *)
Lemma wps_create_wc junk N T B Y g Φ : g ∈ Y -> grps_rep N T B Y -∗ ents N T -∗
  (∀ nd', ⌜forall r, is_Some (T !! r) -> nd' r = nd N r⌝ -∗
    grps_rep (mkNodes (sn N) (gn N) nd') (add_route (WC g) T) B Y -∗
    ents (mkNodes (sn N) (gn N) nd') (add_route (WC g) T) -∗ Φ (Some (nd' (WC g)))) -∗
  wps (create_mrtentry junk None (Some (gn N g)) MRTF_WC) Φ.
Proof.
  iIntros (Hg) "[LG G] M W". unfold create_mrtentry.
  change (has MRTF_WC MRTF_SG) with false. change (has MRTF_WC MRTF_WC) with true. cbv iota.
  iDestruct (big_sepS_delete _ _ _ Hg with "G") as "[Gg G]".
  iDestruct "Gg" as (p l) "(Ga & Gm & Gl & %Hl & Gw & Gx & Gr)". wload "Gw" as e Ee.
  cbn in Ee. injection Ee as Ee. rw Ee. unfold route_ptr. destruct (T !! WC g) as [new|] eqn:Hnew.
  - iApply wps_ret. assert (Et : add_route (WC g) T = T) by (unfold add_route; by rw Hnew). rw Et.
    destruct N as [s0 g0 n0]. cbn. iApply ("W" $! n0 with "[//] [LG Ga Gm Gl Gw Gx Gr G] M").
    iFrame "LG". iApply big_sepS_delete; [exact Hg|]. iFrame "G". iExists p, l. unfold route_ptr. rw Hnew. by iFrame.
  - iApply wps_bind. iApply wps_alloc_mrtentry. iIntros (i) "I O K". wupd "Gw".
    iApply wps_bind. iApply (wps_flag_on with "O"). iIntros "O". iApply wps_ret.
    rw (lookup_add (WC g) T); [|done]. set (N' := set_nd N (WC g) i).
    assert (EN : nd N' (WC g) = i) by apply set_nd_eq. rewrite <- EN.
    pose proof (old_nd N T (WC g) i Hnew) as EO. fold N' in EO.
    iApply ("W" $! (nd N') with "[//] [LG Ga Gm Gl Gw Gx Gr G] [M O K I]").
    + iFrame "LG". iApply big_sepS_delete; [exact Hg|]. iSplitR "G".
      * iExists p, l. cbn [gn]. iFrame "Ga Gm Gx Gr". unfold route_ptr. rw lookup_insert_eq. iFrame "Gw".
        rw (list_fmap_ext _ (fun a => nd N (SG a g)) l).
        { iFrame. iPureIntro. eapply listed_ext; [|exact Hl]. intros a. cbn. by rw lookup_insert_ne. }
        intros j a Ha. apply EO, Hl. by eapply list_elem_of_lookup_2.
      * iApply (big_sepS_mono with "G"). intros x Hx. apply grp_ent_ext; [done|done| | |].
        { apply route_ptr_ext; [rw lookup_insert_ne; [done|set_solver]|by intros H; apply EO]. }
        { intros y. by rw lookup_insert_ne. }
        { intros y Hy. by apply EO. }
    + iApply (ents_insert N T (WC g) i true with "M"); [done|]. iExists _, None, []. rw EN. iFrame "O K I".
      iSplit; [|by iExists None]. iPureIntro. by repeat split.
Qed.

(** A (star,star,RP) entry. *)
Lemma wps_create_rp junk N T a n Φ :
  (forall i j, rp_at a i -> rp_at a j -> i = j) -> rp_at a n ->
  rp_ents N T -∗ ents N T -∗
  (∀ nd', ⌜forall r, is_Some (T !! r) -> nd' r = nd N r⌝ -∗
    rp_ents (mkNodes (sn N) (gn N) nd') (add_route (RP a) T) -∗
    ents (mkNodes (sn N) (gn N) nd') (add_route (RP a) T) -∗ Φ (Some (nd' (RP a)))) -∗
  wps (create_mrtentry junk (Some n) None MRTF_PMBR) Φ.
Proof.
  iIntros (Hu Hn) "G M W". unfold create_mrtentry. assert (Hn' := Hn). destruct Hn as (en & En & Ea).
  change (has MRTF_PMBR MRTF_SG) with false. change (has MRTF_PMBR MRTF_WC) with false.
  change (has MRTF_PMBR MRTF_PMBR) with true. cbv iota.
  iDestruct (big_sepM_delete _ _ _ _ En with "G") as "[Gw G]". rw Ea.
  wload "Gw" as e Ee. cbn in Ee. injection Ee as Ee. rw Ee.
  assert (Er : route_ptr N T (RP a) = match T !! RP a with Some _ => Some (nd N (RP a)) | None => None end) by done.
  destruct (T !! RP a) as [new|] eqn:Hnew; rw Er.
  - iApply wps_ret. assert (Et : add_route (RP a) T = T) by (unfold add_route; by rw Hnew). rw Et.
    destruct N as [s0 g0 n0]. cbn. iApply ("W" $! n0 with "[//] [Gw G] M").
    iApply big_sepM_delete; [exact En|]. iFrame "G". rw Ea Er. done.
  - iApply wps_bind. iApply wps_alloc_mrtentry. iIntros (i) "I O K". wupd "Gw".
    iApply wps_bind. iApply (wps_flag_on with "O"). iIntros "O". iApply wps_ret.
    rw (lookup_add (RP a) T); [|done]. set (N' := set_nd N (RP a) i).
    assert (EN : nd N' (RP a) = i) by apply set_nd_eq. rewrite <- EN.
    pose proof (old_nd N T (RP a) i Hnew) as EO. fold N' in EO.
    iApply ("W" $! (nd N') with "[//] [Gw G] [M O K I]").
    + iApply big_sepM_delete; [exact En|]. iSplitL "Gw".
      * unfold route_ptr. by rw Ea lookup_insert_eq.
      * iApply (big_sepM_mono with "G"). intros j ej Hj. apply lookup_delete_Some in Hj as [Hne Hj].
        rw (route_ptr_ext N _ T); [done| |by intros H; apply EO]. rw lookup_insert_ne; [done|].
        intros [= Eq]. apply Hne. apply Hu; [done|]. by exists ej.
    + iApply (ents_insert N T (RP a) i true with "M"); [done|]. iExists _, None, []. rw EN. iFrame "O K I".
      iSplit; [|by iExists None]. iPureIntro. repeat split. by exists n.
Qed.
End Create.
