(* ===== verification/MrtRp.v ===== *)
(** * MrtRp: the RPs of the groups while the table changes

    The RP-set is not the table's: only [rg_grplink] of its entries and
    [mrtlink] of the RPs change.  So the searches of rp.c answer in every state
    of the table what they answer at the start. *)

From stdpp Require Import sorting.
From iris.proofmode Require Import proofmode.
From iris.base_logic.lib Require Import iprop own ghost_map.
From S2P Require Import Prelude Inet6 Links Pim RpMatch Vif Mrt PimLogic MrtSpec MrtTable MrtCreate.
Open Scope Z_scope.

Definition cand_link (s : Pim) (i : nat) : option (link * link) := (fun c => (c_next c, c_prev c)) <$> crps s !! i.

(** What is expected of the RP-set at the start. *)
Record rps_ok (s : Pim) : Prop := {
  ro_set : exists L, rp_rep s L;
  ro_cands : exists l, dlist (cand_link s) (cand_rp_list s) l /\
    Forall (fun j => exists c i, crps s !! j = Some c /\ c_rpentry c = Some i /\ is_Some (srcs s !! i)) l;
  ro_brk : map_Forall (fun i _ => (i < brk s)%nat) (crps s);
  ro_distinct i j e e' : srcs s !! i = Some e -> srcs s !! j = Some e' -> s_address e = s_address e' -> i = j
}.

(** The RPs of two memories are the same. *)
Definition same_rps (s0 s : Pim) : Prop := forall i e, srcs s0 !! i = Some e ->
  exists e', srcs s !! i = Some e' /\ s_address e' = s_address e /\ s_incoming e' = s_incoming e /\ s_upstream e' = s_upstream e.

(** Two best offers are offers of the same RP. *)
Lemma same_best group L b b' : is_best group (candidates group L) b -> is_best group (candidates group L) b' ->
  match best_entry b, best_entry b' with
  | None, None => True
  | Some i, Some i' => exists o o', (i, o) ∈ candidates group L /\ (i', o') ∈ candidates group L /\ o_rp o = o_rp o'
  | _, _ => False
  end.
Proof.
  unfold is_best. destruct (best_entry b) as [i|], (best_entry b') as [i'|].
  - intros (o & Ho & _ & F) (o' & Ho' & _ & F'). exists o, o'. split_and!; [done|done|].
    rewrite -> Forall_forall in F, F'. destruct (F _ Ho) as [O _], (F' _ Ho') as [O' _].
    pose proof (proj2 (F _ Ho')) as R1. pose proof (proj2 (F' _ Ho)) as R2. cbn in *.
    apply (rank_eq_rp group); [done|done|lia].
  - intros (o & Ho & _) [E _]. rw E in Ho. by apply not_elem_of_nil in Ho.
  - intros [E _] (o & Ho & _). rw E in Ho. by apply not_elem_of_nil in Ho.
  - done.
Qed.

Section Same.
Context (s0 s : Pim) (sl gl : nat) (He : same_env s0 sl gl s) (Hs : same_rps s0 s).

Lemma static_rpg r e : rpgs s0 !! r = Some e -> exists e', rpgs s !! r = Some e' /\ static_r e' = static_r e.
Proof using He.
  intros H. pose proof (e_rpgs _ _ _ _ He) as E. apply (f_equal (fun m => m !! r)) in E. rw !lookup_fmap H in E.
  apply fmap_Some in E as (e' & E1 & E2). by exists e'.
Qed.

Lemma rpg_static r : grp_rp_link s r = grp_rp_link s0 r.
Proof using He.
  unfold grp_rp_link. pose proof (e_rpgs _ _ _ _ He) as E. apply (f_equal (fun m => m !! r)) in E. rw !lookup_fmap in E.
  destruct (rpgs s !! r) as [x|], (rpgs s0 !! r) as [y|]; try done. cbn in *. injection E as E.
  unfold static_r in E. destruct x, y. cbn in *. congruence.
Qed.

Lemma makes_same m r o : makes s0 m r o -> makes s m r o.
Proof using He Hs.
  intros (e & c & n & E1 & E2 & E3 & ->). apply static_rpg in E1 as (e' & E1 & Es).
  destruct (c_rpentry c) as [i|] eqn:Ec; [|done]. apply Hs in E3 as (n' & E3 & Ea & _).
  assert (rg_rp e' = rg_rp e /\ rg_priority e' = rg_priority e /\ rg_origin e' = rg_origin e) as (A & B & C).
  { unfold static_r, set_rg_grplink in Es. injection Es. intros. by split_and!. }
  exists e', c, n'. rw A B C Ea Ec. split_and!; [done| |done|done]. rw (e_crps _ _ _ _ He). exact E2.
Qed.

Lemma rp_rep_same L : rp_rep s0 L -> rp_rep s L.
Proof using He Hs.
  intros [R1 R2 [R3 R4]]. split.
  - rw (e_masks _ _ _ _ He). eapply dlist_frame; [done|]. intros j _. unfold gm_link. by rw (e_gmasks _ _ _ _ He).
  - eapply Forall_impl; [exact R2|]. intros x (m & E & D & F & S). exists m. rw (e_gmasks _ _ _ _ He).
    split_and!; [done| | |done].
    + eapply dlist_frame; [done|]. intros j _. apply rpg_static.
    + eapply Forall_impl; [exact F|]. intros y [Hy1 Hy2]. split; [by apply makes_same|done].
  - pose proof (e_brk _ _ _ _ He) as Eb. split.
    + rw (e_gmasks _ _ _ _ He). intros i m Hi. specialize (R3 i m Hi). cbn in R3. lia.
    + intros i e Hi. pose proof (e_rpgs _ _ _ _ He) as E. apply (f_equal (fun m => m !! i)) in E. rw !lookup_fmap Hi in E.
      symmetry in E. apply fmap_Some in E as (e' & E1 & _). specialize (R4 i e' E1). cbn in R4. lia.
Qed.
End Same.

Section Rp.
Context `{!pimG Σ}.
Implicit Types (N : nodes) (T : table) (B : bound) (X Y : gset sockaddr_in6).

Lemma SI_same_rps s : SI s -∗ rp_infos -∗ ⌜same_rps pim_start s⌝.
Proof.
  iIntros "S R" (i e Hi). unfold rp_infos. rw (big_sepM_lookup _ _ _ _ Hi).
  iDestruct (SI_node (Nd := srcentry) with "S R") as %(e' & Ee & Ec); [done|]. iPureIntro. exists e'.
  cbn in Ec. injection Ec as E1 E2 E3. by split_and!.
Qed.

(** An offer tells where the RP is. *)
Lemma makes_leads m r o : makes pim_start m r o -> exists i, leads_to r (o_rp o) i.
Proof.
  intros (e & c & n & E1 & E2 & E3 & ->). destruct (c_rpentry c) as [i|] eqn:Ec; [|done]. cbn in E3.
  exists i, e, c. split_and!; [done|done|done|]. by exists n.
Qed.

Lemma candidate_leads L group r o : rp_rep pim_start L -> (r, o) ∈ candidates group L -> exists i, leads_to r (o_rp o) i.
Proof.
  intros [_ F _] [H _]%elem_of_candidates. rw list_elem_of_In in_concat in H. destruct H as (xs & Hx & H).
  apply list_elem_of_In in H. apply in_map_iff in Hx as (x & <- & Hx). apply list_elem_of_In in Hx.
  apply (proj1 (Forall_forall _ _) F) in Hx as (m & _ & _ & Fm & _).
  apply (proj1 (Forall_forall _ _) Fm) in H as [H _]. by eapply makes_leads.
Qed.

(** ** [rp_grp_match], [rp_match] and [rp_find] *)

Definition rp_entry_for (group : sockaddr_in6) (r : ptr) : Prop :=
  match group_rp pim_start group with
  | Some a => exists j i, r = Some j /\ leads_to j a i
  | None => r = None
  end.
Definition rp_is (a : option sockaddr_in6) (p : ptr) : Prop :=
  match a with Some a => exists i, p = Some i /\ rp_at a i | None => p = None end.

Lemma group_rp_spec L group b : rp_rep pim_start L -> rp_grp_match group pim_start = Ok (best_entry b) pim_start ->
  match best_entry b with
  | Some r => forall o, (r, o) ∈ candidates group L -> group_rp pim_start group = Some (o_rp o)
  | None => group_rp pim_start group = None
  end.
Proof.
  intros R E. unfold group_rp, rp_match. rw (bind_Ok _ _ _ _ _ E).
  destruct (best_entry b) as [r|]; [|done]. intros o Ho.
  destruct (candidate_leads L group r o R Ho) as (i & e & c & E1 & E2 & E3 & n & E4 & E5).
  unfold bind, rpg, crp, load. cbn. rw E1 E2. cbn. rw E3. cbn. by rw E4 /= E5.
Qed.

Lemma wps_rp_grp_match group Φ : rps_ok pim_start -> rp_infos -∗ (∀ r, ⌜rp_entry_for group r⌝ -∗ rp_infos -∗ Φ r) -∗
  wps (rp_grp_match group) Φ.
Proof.
  iIntros (Hok) "R W". iApply (wps_pure _ (rp_entry_for group) rp_infos with "[] R W").
  iIntros (s) "S R". iDestruct (SI_same_rps with "S R") as %Hs. iDestruct (SI_env with "S") as %He. iPureIntro.
  destruct (ro_set _ Hok) as [L HL]. destruct (rp_grp_match_spec pim_start L group HL) as (b & E & B).
  destruct (rp_grp_match_spec s L group) as (b' & E' & B'); [by eapply rp_rep_same|].
  exists (best_entry b'). split; [done|]. pose proof (group_rp_spec L group b HL E) as G.
  pose proof (same_best group L b b' B B') as Sb. unfold rp_entry_for.
  destruct (best_entry b) as [r|], (best_entry b') as [r'|]; try done; [|by rw G].
  destruct Sb as (o & o' & Ho & Ho' & Eo). rw (G o Ho) Eo.
  destruct (candidate_leads L group r' o' HL Ho') as [i Hi]. by exists r', i.
Qed.

Lemma load_leads s r a i : same_env pim_start pim_sl pim_gl s -> leads_to r a i ->
  exists e c, rpgs s !! r = Some e /\ (rg_rp e ≫= fun j => crps s !! j) = Some c /\ c_rpentry c = Some i.
Proof.
  intros He (e & c & E1 & E2 & E3 & _). destruct (static_rpg _ _ _ _ He r e E1) as (e' & E1' & Es).
  unfold static_r, set_rg_grplink in Es. injection Es. intros. exists e', c. split_and!; [done| |done].
  rw (e_crps _ _ _ _ He). congruence.
Qed.

(** The RP that an entry of the RP-set leads to. *)
Lemma wps_entry_rp r a i {A} (k : ptr -> Cmd Pim A) Φ : leads_to r a i -> wps (k (Some i)) Φ -∗
  wps (let! e := rpg (Some r) in let! c := crp (rg_rp e) in k (c_rpentry c)) Φ.
Proof.
  iIntros (Hl) "W". iIntros (s) "S". iDestruct (SI_env with "S") as %He.
  destruct (load_leads s r a i He Hl) as (e & c & E1 & E2 & E3).
  assert (E : (let! e := rpg (Some r) in let! c := crp (rg_rp e) in k (c_rpentry c)) s = k (Some i) s).
  { unfold bind at 1, rpg, load. cbn. rw E1. unfold bind, crp, load. cbn. by rw E2 E3. }
  rw E. by iApply "W".
Qed.

Lemma wps_rp_match group Φ : rps_ok pim_start -> rp_infos -∗
  (∀ p, ⌜rp_is (group_rp pim_start group) p⌝ -∗ rp_infos -∗ Φ p) -∗ wps (rp_match group) Φ.
Proof.
  iIntros (Hok) "R W". unfold rp_match. iApply wps_bind. iApply (wps_rp_grp_match with "R"); [done|].
  iIntros (r Hr) "R". unfold rp_entry_for in Hr. unfold rp_is. destruct (group_rp pim_start group) as [a|].
  - destruct Hr as (j & i & -> & Hl). iApply (wps_entry_rp j a i ret); [done|]. iApply wps_ret.
    iApply ("W" with "[] R"). iPureIntro. exists i. split; [done|]. by destruct Hl as (? & ? & _ & _ & _ & ?).
  - rw Hr. iApply wps_ret. by iApply ("W" with "[] R").
Qed.

Lemma rp_find_loop_same s0 s x l : crps s = crps s0 -> same_rps s0 s ->
  Forall (fun j => exists c i, crps s0 !! j = Some c /\ c_rpentry c = Some i /\ is_Some (srcs s0 !! i)) l ->
  forall n m p q z, dlseg (cand_link s0) p q l None z -> (length l < n)%nat -> (length l < m)%nat ->
  exists r, rp_find_loop n x p s0 = Ok r s0 /\ rp_find_loop m x p s = Ok r s /\
    match r with Some i => is_Some (srcs s0 !! i) | None => True end.
Proof.
  intros Ec Hs. induction 1 as [|j l (c & i & E1 & E2 & e & E3) F IH]; intros n m p q z D Hn Hm;
    (destruct n as [|n]; [cbn in Hn; lia|]); (destruct m as [|m]; [cbn in Hm; lia|]).
  { destruct D as [-> _]. by exists None. }
  destruct D as (-> & v & Ej & D). unfold cand_link in Ej. rw E1 in Ej. injection Ej as <- _.
  destruct (Hs i e E3) as (e' & E3' & Ea & _). cbn [length] in *.
  destruct (IH n m (c_next c) (Some j) z D) as (r & R1 & R2 & R3); [lia|lia|].
  cbn [rp_find_loop]. unfold bind, crp, src, load. cbn. rw Ec E1. cbn. rw E2. cbn. rw E3 E3' Ea.
  destruct (inet6_greaterthan (s_address e) x); [by exists r|].
  destruct (inet6_equal (s_address e) x); [exists (Some i); split_and!; [done|done|by rw E3]|by exists None].
Qed.

Lemma wps_rp_find a Φ : rps_ok pim_start -> rp_infos -∗
  (∀ p, ⌜rp_is (the_rp pim_start a) p⌝ -∗ rp_infos -∗ Φ p) -∗ wps (rp_find a) Φ.
Proof.
  iIntros (Hok) "R W". iApply (wps_pure _ (rp_is (the_rp pim_start a)) rp_infos with "[] R W").
  iIntros (s) "S R". iDestruct (SI_same_rps with "S R") as %Hs. iDestruct (SI_env with "S") as %He. iPureIntro.
  destruct (ro_cands _ Hok) as (l & [z D] & F). assert (Hl : (length l <= brk pim_start)%nat).
  { apply (RpMatch.dlseg_length _ _ _ _ _ _ D). intros i [x Hi]. unfold cand_link in Hi.
    apply fmap_Some in Hi as (c & Hc & _). exact (ro_brk _ Hok i c Hc). }
  pose proof (e_brk _ _ _ _ He). unfold the_rp, rp_find. rw !get_bind (e_cand _ _ _ _ He).
  destruct (rp_find_loop_same pim_start s a l (e_crps _ _ _ _ He) Hs F (fuel_of pim_start) (fuel_of s) _ _ _ D)
    as (r & R1 & R2 & R3); [unfold fuel_of; lia|unfold fuel_of; lia|].
  exists r. split; [done|]. rw R1. unfold rp_answer, rp_is. destruct r as [i|]; [|done]. cbn.
  destruct R3 as [e E]. rw E. cbn. exists i. split; [done|]. by exists e.
Qed.

(** The RP that a request is about. *)
Lemma wps_request_rp source group Φ : rps_ok pim_start -> rp_infos -∗
  (∀ p, ⌜rp_is (request_rp pim_start source group) p⌝ -∗ rp_infos -∗ Φ p) -∗
  wps (match group, source with
       | Some group, _ => rp_match group
       | None, Some source => rp_find source
       | None, None => ret None
       end) Φ.
Proof.
  iIntros (Hok) "R W". unfold request_rp. destruct group as [g|]; [by iApply (wps_rp_match with "R")|].
  destruct source as [a|]; [by iApply (wps_rp_find with "R")|]. iApply wps_ret. by iApply ("W" with "[] R").
Qed.
End Rp.
