(* ===== verification/MrtDelete.v ===== *)
(** * MrtDelete: taking sources, groups and entries out of the table *)

From stdpp Require Import sorting functions.
From iris.proofmode Require Import proofmode.
From iris.base_logic.lib Require Import iprop own ghost_map.
From S2P Require Import Prelude Inet6 Links Pim RpMatch Vif Mrt PimLogic MrtSpec MrtTable MrtCreate.
Open Scope Z_scope.

Section Delete.
Context `{!pimG Σ}.
Implicit Types (N : nodes) (T : table) (B : bound) (X Y : gset sockaddr_in6).

(** ** Cache entries *)

Lemma some_cache i c : i ↦[Fk] c -∗ some_node (Nd := kernel_cache) i.
Proof. iIntros "A". unfold some_node. cbn. iFrame. Qed.

Lemma wps_fuel {A} f p l (k : Pim -> Cmd Pim A) Φ : lst f p l -∗
  (∀ s, ⌜same_env pim_start pim_sl pim_gl s⌝ -∗ ⌜(length l < fuel_of s)%nat⌝ -∗ lst f p l -∗ wps (k s) Φ) -∗
  wps (bind get k) Φ.
Proof.
  iIntros "L W". iApply (wps_get_brk (fun b => (length l <= b)%nat) (lst f p l) with "[] L").
  - iIntros (s) "S L". by iDestruct (SI_lst with "S L") as %[_ ?].
  - iIntros (s He Hl) "L". iApply ("W" with "[//] [] L"). iPureIntro. unfold fuel_of. lia.
Qed.

Lemma wps_free_caches l : forall fuel p q z Φ, (length l < fuel)%nat -> seg Fk p q l None z -∗ Φ tt -∗
  wps (free_caches fuel p) Φ.
Proof.
  induction l as [|i l IH]; intros fuel p q z Φ Hf; (destruct fuel as [|fuel]; [cbn in Hf; lia|]); cbn [seg free_caches].
  - iIntros "[-> _] W". by iApply wps_ret.
  - iIntros "(-> & %n & C & L) W". wload "C" as c Ec. cell_eqs Ec. iApply wps_bind.
    iApply (wps_free with "[C]"); [by iApply some_cache|]. iApply (IH with "L W"). cbn in Hf. lia.
Qed.

Lemma wps_FREE_MRTENTRY i c1 c2 c3 p l Φ : i ↦[Fml] c1 -∗ i ↦[Fms] c2 -∗ i ↦[Fmo] c3 -∗ i ↦[Fmk] Ptr p -∗ lst Fk p l -∗
  Φ tt -∗ wps (FREE_MRTENTRY (Some i)) Φ.
Proof.
  iIntros "A B C D L W". unfold FREE_MRTENTRY. iApply (wps_fuel with "L"). iIntros (s He Hf) "[%z L]".
  wload "D" as m Em. cell_eqs Em. iApply wps_bind. iApply (wps_free_caches with "L"); [done|].
  iApply (wps_free with "[A B C D]"); [|done]. iApply (some_mrt with "A B C D").
Qed.

Lemma wps_k_del_mfc a g Φ : Φ tt -∗ wps (k_del_mfc a g) Φ.
Proof.
  iIntros "W" (s) "(%M & HM & %Hc & %Hb & %He)". iModIntro. iExists tt, _. iSplit; [done|]. iFrame "W".
  iExists M. iFrame. iPureIntro. split_and!.
  - intros f i. rw Hc. by destruct f.
  - intros f i Hs. apply (Hb f). by destruct f.
  - by destruct He.
Qed.

Lemma wps_all_caches l : forall fuel p q z Φ, (length l < fuel)%nat -> seg Fk p q l None z -∗ Φ tt -∗
  wps (all_caches_loop fuel p) Φ.
Proof.
  induction l as [|i l IH]; intros fuel p q z Φ Hf; (destruct fuel as [|fuel]; [cbn in Hf; lia|]); cbn [seg all_caches_loop].
  - iIntros "[-> _] W". by iApply wps_ret.
  - iIntros "(-> & %n & C & L) W". wload "C" as c Ec. cell_eqs Ec. iApply wps_bind. iApply wps_k_del_mfc.
    iApply wps_bind. iApply (wps_free with "[C]"); [by iApply some_cache|]. iApply (IH with "L W"). cbn in Hf. lia.
Qed.

(** The kernel flags are no part of what an entry is. *)
Lemma w_off_kernel w : w_off (Z.lor MRTF_KERNEL_CACHE MRTF_MFC_CLONE_SG) w = w.
Proof. destruct w. unfold w_off. cbn. by rw !andb_true_r. Qed.
Lemma w_off_clone w : w_off MRTF_MFC_CLONE_SG w = w.
Proof. destruct w. unfold w_off. cbn. by rw !andb_true_r. Qed.
Lemma w_on_kernel w : w_on MRTF_KERNEL_CACHE w = w.
Proof. destruct w. unfold w_on. cbn. by rw !orb_false_r. Qed.
Lemma w_on_rp w : w_on MRTF_RP w = w.
Proof. destruct w. unfold w_on. cbn. by rw !orb_false_r. Qed.

Lemma wps_drop_kernel_cache i w p l Φ : i ↦[Fmo] What w -∗ i ↦[Fmk] Ptr p -∗ lst Fk p l -∗
  (∀ p l, i ↦[Fmo] What w -∗ i ↦[Fmk] Ptr p -∗ lst Fk p l -∗ Φ tt) -∗ wps (drop_kernel_cache (Some i)) Φ.
Proof.
  iIntros "O K L W". unfold drop_kernel_cache. wload "K" as m Em. cell_eqs Em.
  destruct (has (m_flags m) MRTF_KERNEL_CACHE); [|iApply wps_ret; iApply ("W" with "O K L")].
  unfold delete_mrtentry_all_kernel_cache. iApply (wps_fuel with "L"). iIntros (s He Hf) "L".
  wload "K" as m' Em'. cbn in Em'. injection Em' as Em'.
  destruct (has (m_flags m') MRTF_KERNEL_CACHE); cbn [negb]; [|iApply wps_ret; iApply ("W" with "O K L")].
  rw Em'. iDestruct "L" as "[%z L]". iApply wps_bind. iApply (wps_all_caches with "L"); [done|].
  wupd "K". iApply (wps_flag_off with "O"). iIntros "O". rw w_off_kernel. iApply ("W" $! None [] with "O K"). by iExists None.
Qed.

(** ** Entries leave the lists *)

Lemma listed_delete l1 x l2 P : listed (l1 ++ x :: l2) P -> listed (l1 ++ l2) (fun a => a <> x /\ P a).
Proof.
  intros (S & O & E). apply sorted_delete in S as [S N]. split_and!; [done| |].
  - apply Forall_app in O as [O1 O2]. apply Forall_cons in O2 as [_ O2]. apply Forall_app. by split.
  - intros a. rewrite <- E. split.
    + intros Ha. split; [intros ->; done|]. apply elem_of_app in Ha. apply elem_of_app. rw elem_of_cons. tauto.
    + intros [Hne Ha]. apply elem_of_app in Ha. apply elem_of_app. rw elem_of_cons in Ha. tauto.
Qed.

Lemma in_list {A} (x : A) l : x ∈ l -> exists l1 l2, l = l1 ++ x :: l2.
Proof. apply list_elem_of_split. Qed.

(** A list opened at one of its nodes. *)
Lemma lst_open f p L1 i L2 : lst f p (L1 ++ i :: L2) -∗
  ∃ n v z, seg f p None L1 (Some i) v ∗ i ↦[f] Link n v ∗ seg f n (Some i) L2 None z.
Proof.
  iIntros "(%z & L)". rw seg_app. iDestruct "L" as (m r) "[L1 L2]". cbn. iDestruct "L2" as "(-> & %n & C & L2)".
  iExists n, r, z. iFrame.
Qed.

Lemma seg_lst f p L1 n v L2 z : seg f p None L1 n v -∗ seg f n v L2 None z -∗ lst f p (L1 ++ L2).
Proof. iIntros "A B". iExists z. rw seg_app. iExists n, v. iFrame. Qed.

(** [L1] and [L2] without the node between them. *)
Lemma seg_nil f p q m v : seg f p q [] m v -∗ ⌜p = m /\ q = v⌝.
Proof. iIntros "H". iExact "H". Qed.

Lemma wps_unlink_src N T X a g w last Φ : is_Some (T !! SG a g) -> a ∈ X -> w_source w = Some (sn N a) ->
  srcs_rep N T X -∗ nd N (SG a g) ↦[Fmo] What w -∗
  ((∀ n p, nd N (SG a g) ↦[Fmo] What w -∗ nd N (SG a g) ↦[Fms] Link n p -∗ srcs_rep N (delete (SG a g) T) X -∗ Φ tt) ∧
   (∀ m, ⌜m_source m = Some (sn N a)⌝ -∗ ⌜forall g', delete (SG a g) T !! SG a g' = None⌝ -∗
     nd N (SG a g) ↦[Fmo] What w -∗ nd N (SG a g) ↦[Fms] Link None None -∗ srcs_rep N (delete (SG a g) T) X -∗
     wps (last m) (fun _ => nd N (SG a g) ↦[Fms] Link None None ∗ (nd N (SG a g) ↦[Fms] Link None None -∗ Φ tt)))) -∗
  wps (unlink_from_source last (Some (nd N (SG a g)))) Φ.
Proof.
  iIntros (Ht Ha Hw) "[LS S] O W". set (i := nd N (SG a g)). set (T' := delete (SG a g) T).
  iDestruct (big_sepS_delete _ _ _ Ha with "S") as "[(%inc & %up & %p & %k & Si & Sm & Sl & %Hk) S]".
  destruct (in_list g k) as (k1 & k2 & ->); [by apply Hk|]. rw fmap_app fmap_cons.
  iDestruct (lst_open with "Sl") as (n v z) "(L1 & I & L2)". fold i.
  assert (Hk' : listed (k1 ++ k2) (fun g' => is_Some (T' !! SG a g'))).
  { eapply listed_ext; [|by apply listed_delete]. intros g'. cbn. unfold T'.
    destruct (decide (g' = g)) as [->|Hne]; [rw lookup_delete_eq; split; [tauto|by intros []]|].
    rw lookup_delete_ne; [|congruence]. tauto. }
  iAssert (∀ p', sn N a ↦[Fsm] Ptr p' -∗ lst Fms p' ((fun g' => nd N (SG a g')) <$> (k1 ++ k2)) -∗ srcs_rep N T' X)%I
    with "[LS Si S]" as "Cl".
  { iIntros (p') "Sm Sl". iFrame "LS". iApply big_sepS_delete; [exact Ha|]. iSplitR "S".
    - iExists inc, up, p', (k1 ++ k2). by iFrame.
    - iApply (big_sepS_mono with "S"). intros x Hx. apply src_ent_ext; [done| |done]. intros g'. unfold T'.
      rw lookup_delete_ne; [done|set_solver]. }
  unfold unlink_from_source. wload2 "I O" as m Em Eo. cbn in Em, Eo. injection Em as En Ev. injection Eo as Eo.
  assert (Es : m_source m = Some (sn N a)) by by rewrite <- Hw, <- Eo. rw En Ev Es.
  destruct k1 as [|b k0 _] using rev_ind.
  - iDestruct (seg_nil with "L1") as %[-> <-]. iApply wps_bind. wupd "Sm".
    destruct k2 as [|b k2].
    + iDestruct "L2" as "[-> _]". iDestruct ("Cl" with "Sm []") as "R"; [by iExists None|].
      iDestruct "W" as "[_ W]". iApply (wps_mono with "[W O I R]").
      * iApply ("W" with "[//] [] O I R"). iPureIntro. intros g'. destruct (T' !! SG a g') eqn:E; [|done].
        exfalso. apply (not_elem_of_nil g'). apply (proj2 (proj2 Hk')). by rw E.
      * iIntros ([]) "[I W]". wload "I" as m' Em'. cell_eqs Em'. iApply wps_ret. by iApply "W".
    + cbn [fmap list_fmap seg]. iDestruct "L2" as "(-> & %n' & C & L2)". iApply wps_ret.
      wload "I" as m' Em'. cell_eqs Em'. iDestruct "W" as "[W _]".
      iApply (wps_upd with "C"); [done|assigns_tac|]. iIntros "C". iApply ("W" with "O I"). iApply ("Cl" with "Sm").
      iExists z. cbn. iSplit; [done|]. iExists _. iFrame.
  - rw fmap_app. cbn [fmap list_fmap]. iAssert (⌜v = Some (nd N (SG a b))⌝)%I as %->.
    { rw seg_snoc. by iDestruct "L1" as (r) "(_ & _ & $)". }
    iApply wps_bind. iApply (wps_set_next (Nd := mrtentry) (f := Fms) with "L1"). iIntros "L1".
    wload "I" as m' Em'. cell_eqs Em'. iDestruct "W" as "[W _]".
    iApply (wps_set_prev (Nd := mrtentry) (f := Fms) with "L2"). iIntros (z') "L2". iApply ("W" with "O I").
    iApply ("Cl" with "Sm"). rw !fmap_app. iApply (seg_lst with "L1 L2").
Qed.

Lemma wps_unlink_grp N T B Y a g w last Φ : is_Some (T !! SG a g) -> g ∈ Y -> w_group w = Some (gn N g) ->
  grps_rep N T B Y -∗ nd N (SG a g) ↦[Fmo] What w -∗
  ((∀ n p, nd N (SG a g) ↦[Fmo] What w -∗ nd N (SG a g) ↦[Fml] Link n p -∗ grps_rep N (delete (SG a g) T) B Y -∗ Φ tt) ∧
   (∀ m, ⌜m_group m = Some (gn N g)⌝ -∗ ⌜forall a', delete (SG a g) T !! SG a' g = None⌝ -∗
     nd N (SG a g) ↦[Fmo] What w -∗ nd N (SG a g) ↦[Fml] Link None None -∗ grps_rep N (delete (SG a g) T) B Y -∗
     wps (last m) (fun _ => nd N (SG a g) ↦[Fml] Link None None ∗ (nd N (SG a g) ↦[Fml] Link None None -∗ Φ tt)))) -∗
  wps (unlink_from_group last (Some (nd N (SG a g)))) Φ.
Proof.
  iIntros (Ht Hg Hw) "[LG G] O W". set (i := nd N (SG a g)). set (T' := delete (SG a g) T).
  iDestruct (big_sepS_delete _ _ _ Hg with "G") as "[(%p & %k & Ga & Gm & Gl & %Hk & Gw & Gr) G]".
  destruct (in_list a k) as (k1 & k2 & ->); [by apply Hk|]. rw fmap_app fmap_cons.
  iDestruct (lst_open with "Gl") as (n v z) "(L1 & I & L2)". fold i.
  assert (Hk' : listed (k1 ++ k2) (fun a' => is_Some (T' !! SG a' g))).
  { eapply listed_ext; [|by apply listed_delete]. intros a'. cbn. unfold T'.
    destruct (decide (a' = a)) as [->|Hne]; [rw lookup_delete_eq; split; [tauto|by intros []]|].
    rw lookup_delete_ne; [|congruence]. tauto. }
  assert (Er : forall x, route_ptr N T' (WC x) = route_ptr N T (WC x)).
  { intros x. apply route_ptr_ext; [|done]. unfold T'. by rw lookup_delete_ne. }
  iAssert (∀ p', gn N g ↦[Fgm] Ptr p' -∗ lst Fml p' ((fun a' => nd N (SG a' g)) <$> (k1 ++ k2)) -∗ grps_rep N T' B Y)%I
    with "[LG Ga Gw Gr G]" as "Cl".
  { iIntros (p') "Gm Gl". iFrame "LG". iApply big_sepS_delete; [exact Hg|]. iSplitR "G".
    - iExists p', (k1 ++ k2). rw Er. by iFrame.
    - iApply (big_sepS_mono with "G"). intros x Hx. apply grp_ent_ext; [done|done|apply Er| |done]. intros a'. unfold T'.
      rw lookup_delete_ne; [done|set_solver]. }
  unfold unlink_from_group. wload2 "I O" as m Em Eo. cbn in Em, Eo. injection Em as En Ev. injection Eo as Eo.
  assert (Es : m_group m = Some (gn N g)) by by rewrite <- Hw, <- Eo. rw En Ev Es.
  destruct k1 as [|b k0 _] using rev_ind.
  - iDestruct (seg_nil with "L1") as %[-> <-]. iApply wps_bind. wupd "Gm".
    destruct k2 as [|b k2].
    + iDestruct "L2" as "[-> _]". iDestruct ("Cl" with "Gm []") as "R"; [by iExists None|].
      iDestruct "W" as "[_ W]". iApply (wps_mono with "[W O I R]").
      * iApply ("W" with "[//] [] O I R"). iPureIntro. intros a'. destruct (T' !! SG a' g) eqn:E; [|done].
        exfalso. apply (not_elem_of_nil a'). apply (proj2 (proj2 Hk')). by rw E.
      * iIntros ([]) "[I W]". wload "I" as m' Em'. cell_eqs Em'. iApply wps_ret. by iApply "W".
    + cbn [fmap list_fmap seg]. iDestruct "L2" as "(-> & %n' & C & L2)". iApply wps_ret.
      wload "I" as m' Em'. cell_eqs Em'. iDestruct "W" as "[W _]".
      iApply (wps_upd with "C"); [done|assigns_tac|]. iIntros "C". iApply ("W" with "O I"). iApply ("Cl" with "Gm").
      iExists z. cbn. iSplit; [done|]. iExists _. iFrame.
  - rw fmap_app. cbn [fmap list_fmap]. iAssert (⌜v = Some (nd N (SG b g))⌝)%I as %->.
    { rw seg_snoc. by iDestruct "L1" as (r) "(_ & _ & $)". }
    iApply wps_bind. iApply (wps_set_next (Nd := mrtentry) (f := Fml) with "L1"). iIntros "L1".
    wload "I" as m' Em'. cell_eqs Em'. iDestruct "W" as "[W _]".
    iApply (wps_set_prev (Nd := mrtentry) (f := Fml) with "L2"). iIntros (z') "L2". iApply ("W" with "O I").
    iApply ("Cl" with "Gm"). rw !fmap_app. iApply (seg_lst with "L1 L2").
Qed.

(** ** Sources and groups leave the table *)

(** A source without entries. *)
Definition deletes_source (ds : ptr -> Cmd Pim unit) : Prop :=
  forall N T X a Φ, a ∈ X -> (forall g, T !! SG a g = None) -> srcs_rep N T X -∗
    (srcs_rep N T (X ∖ {[a]}) -∗ Φ tt) -∗ wps (ds (Some (sn N a))) Φ.
(** A group without routes. *)
Definition deletes_group (dg : ptr -> Cmd Pim unit) : Prop :=
  forall N T B Y g Φ, g ∈ Y -> (forall a, T !! SG a g = None) -> T !! WC g = None ->
    bound_ok B Y -> grps_rep N T B Y -∗ chains N B -∗
    (grps_rep N T (delete g B) (Y ∖ {[g]}) -∗ chains N (delete g B) -∗ Φ tt) -∗ wps (dg (Some (gn N g))) Φ.

(** A node of a list with an unused first entry. *)
Lemma wps_unhook `{LinkOps Nd f} h L1 i L2 n v z (k : unit -> Cmd Pim unit) Φ :
  seg f (Some h) None (h :: L1) (Some i) v -∗ i ↦[f] Link n v -∗ seg f n (Some i) L2 None z -∗
  (i ↦[f] Link n v -∗ lst f (Some h) (h :: (L1 ++ L2)) -∗ wps (k tt) Φ) -∗
  wps (do! upd v (lo_next (N := Nd) n) ;; bind (upd_if n (lo_prev (N := Nd) v)) k) Φ.
Proof.
  iIntros "L1 I L2 W".
  assert (exists L0 j, h :: L1 = L0 ++ [j]) as (L0 & j & E).
  { destruct L1 as [|b L0 _] using rev_ind; [by exists [], h|]. by exists (h :: L0), b. }
  rw app_comm_cons E. iAssert (⌜v = Some j⌝)%I as %->. { rw seg_snoc. by iDestruct "L1" as (r) "(_ & _ & $)". }
  iApply wps_bind. iApply (wps_set_next (Nd := Nd) (f := f) with "L1"). iIntros "L1".
  iApply wps_bind. iApply (wps_set_prev (Nd := Nd) (f := f) with "L2"). iIntros (z') "L2".
  iApply ("W" with "I"). iApply (seg_lst with "L1 L2").
Qed.

(** A source leaves the list of sources; its other members stay. *)
Definition src_left N T a p l : iProp Σ :=
  (∃ c, sn N a ↦[Fsl] c) ∗ (∃ c, sn N a ↦[Fsi] c) ∗ sn N a ↦[Fsm] Ptr p ∗
  lst Fms p ((fun g => nd N (SG a g)) <$> l) ∗ ⌜listed l (fun g => is_Some (T !! SG a g))⌝.

Lemma wps_leave_srclist N T X a (k : srcentry -> Cmd Pim unit) Φ : a ∈ X -> srcs_rep N T X -∗
  (∀ e l, srcs_rep N T (X ∖ {[a]}) -∗ src_left N T a (s_mrtlink e) l -∗ wps (k e) Φ) -∗
  wps (let! e := src (Some (sn N a)) in
       do! upd (s_prev e) (set_s_next (s_next e)) ;; do! upd_if (s_next e) (set_s_prev (s_prev e)) ;; k e) Φ.
Proof.
  iIntros (Ha) "[(%l & L & %Hl) S] W".
  iDestruct (big_sepS_delete _ _ _ Ha with "S") as "[(%inc & %up & %p & %ks & Si & Sm & Sl & %Hk) S]".
  destruct (in_list a l) as (l1 & l2 & ->); [by apply Hl|]. rw fmap_app fmap_cons app_comm_cons.
  iDestruct (lst_open with "L") as (n v z) "(L1 & I & L2)".
  wload2 "I Sm" as e Ee Em. cell_eqs Ee. cbn in Em. injection Em as Em. rewrite <- Em.
  iApply (wps_unhook (Nd := srcentry) (f := Fsl) with "L1 I L2"). iIntros "I L". rewrite <- fmap_app.
  iApply ("W" with "[L S]").
  - iFrame "S". iExists (l1 ++ l2). iFrame. iPureIntro. eapply listed_ext; [|by apply listed_delete].
    intros x. cbn. set_solver.
  - iFrame. done.
Qed.

Lemma wps_free_src N T a p l Φ : src_left N T a p l -∗ Φ tt -∗ wps (free_node srcentry (Some (sn N a))) Φ.
Proof.
  iIntros "([%c1 A] & [%c2 B] & C & _) W". iApply (wps_free with "[A B C]"); [|done]. iApply (some_src with "A B C").
Qed.

Lemma nothing_listed l P : listed l P -> (forall a, ~ P a) -> l = [].
Proof. intros (_ & _ & E) H. destruct l as [|a l]; [done|]. exfalso. apply (H a), E. left. Qed.

Lemma delete_srcentry_deletes dg : deletes_source (delete_srcentry_with dg).
Proof.
  intros N T X a Φ Ha Hn. iIntros "S W". unfold delete_srcentry_with. iApply (wps_leave_srclist with "S"); [done|].
  iIntros (e l) "S L". iApply wps_get. iIntros (s He).
  iAssert (⌜s_mrtlink e = None⌝)%I as %->.
  { iDestruct "L" as "(_ & _ & _ & [%z L] & %Hl)". apply nothing_listed in Hl as ->; [|intros g; rw Hn; by intros []].
    by iDestruct "L" as "[-> _]". }
  wret. iApply (wps_free_src with "L"). by iApply "W".
Qed.


(** A group on the list of its RP-set entry, with the rest of that list. *)
Definition chain_rest N B g n v : iProp Σ :=
  match B !! g with
  | None => ⌜n = None /\ v = None⌝ ∗ chains N B
  | Some r => ∃ p l1 l2 z, r ↦[Frg] Ptr p ∗ seg Fgr p None (gn N <$> l1) (Some (gn N g)) v ∗
      seg Fgr n (Some (gn N g)) (gn N <$> l2) None z ∗
      ⌜NoDup (l1 ++ g :: l2) /\ forall x, x ∈ l1 ++ g :: l2 <-> B !! x = Some r⌝ ∗
      ∃ e, ⌜rpgs pim_start !! r = Some e⌝ ∗ [∗ map] r' ↦ _ ∈ delete r (rpgs pim_start), chain N B r'
  end.

Lemma bound_entry B Y g r : bound_ok B Y -> B !! g = Some r -> exists e, rpgs pim_start !! r = Some e.
Proof. intros H E. apply H in E as (_ & a & i & (e & _ & E & _) & _). by exists e. Qed.

Lemma chains_open N B Y g : bound_ok B Y -> chains N B -∗
  match B !! g with Some _ => emp | None => gn N g ↦[Fgr] Link None None end -∗
  ∃ n v, gn N g ↦[Fgr] Link n v ∗ chain_rest N B g n v.
Proof.
  iIntros (Hb) "C G". unfold chain_rest. destruct (B !! g) as [r|] eqn:E.
  - destruct (bound_entry _ _ _ _ Hb E) as [e He].
    iDestruct (big_sepM_delete _ _ _ _ He with "C") as "[(%p & %l & P & L & %Hn & %Hl) C]".
    destruct (in_list g l) as (l1 & l2 & ->); [by apply Hl|]. rw fmap_app fmap_cons.
    iDestruct (lst_open with "L") as (n v z) "(L1 & I & L2)". iExists n, v. iFrame "I".
    iExists p, l1, l2, z. iFrame. iSplit; [done|]. by iExists e.
  - iExists None, None. by iFrame.
Qed.

Lemma chain_delete N B g r : B !! g <> Some r -> chain N B r ⊢ chain N (delete g B) r.
Proof.
  intros H. iIntros "(%p & %l & P & L & %Hn & %Hl)". iExists p, l. iFrame. iSplit; [done|]. iPureIntro. intros x.
  rw Hl. destruct (decide (x = g)) as [->|Hne]; [rw lookup_delete_eq; split; [done|by intros]|by rw lookup_delete_ne].
Qed.

(** A group leaves the list of its RP-set entry. *)
Lemma wps_leave_chain N B g n v Φ : chain_rest N B g n v -∗ (chains N (delete g B) -∗ Φ tt) -∗
  wps (match B !! g with
       | Some _ =>
           do! upd_if n (set_g_rpprev v) ;;
           match v with Some _ => upd v (set_g_rpnext n) | None => upd (B !! g) (set_rg_grplink n) end
       | None => ret tt
       end) Φ.
Proof.
  iIntros "C W". unfold chain_rest. destruct (B !! g) as [r|] eqn:E.
  2: { iDestruct "C" as "[_ C]". iApply wps_ret. iApply "W". by rw delete_id. }
  iDestruct "C" as (p l1 l2 z) "(P & L1 & L2 & [%Hn %Hl] & %e & %He & C)".
  iApply wps_bind. iApply (wps_set_prev (Nd := grpentry) (f := Fgr) with "L2"). iIntros (z') "L2".
  iApply (wps_relink (Nd := grpentry) (f := Fgr) (fun p => r ↦[Frg] Ptr p)%I (upd (Some r) (set_rg_grplink n)) with "L1 P").
  { iIntros (p' Ψ) "P H". by iApply (wps_upd_grplink with "P"). }
  iIntros (p') "P L1". iApply "W". iApply big_sepM_delete; [exact He|]. iSplitR "C".
  - iExists p', (l1 ++ l2). rw fmap_app. iFrame "P". iSplit; [iApply (seg_lst with "L1 L2")|]. iPureIntro.
    apply NoDup_app in Hn as (N1 & N12 & N2). apply NoDup_cons in N2 as [Ng N2]. split.
    + apply NoDup_app. split_and!; [done| |done]. intros x Hx Hx'. apply (N12 x Hx). by right.
    + intros x. destruct (decide (x = g)) as [->|Hne].
      * rw lookup_delete_eq. split; [|done]. intros [H|H]%elem_of_app; [|done]. exfalso. apply (N12 g H). left.
      * rw lookup_delete_ne; [|done]. rewrite <- Hl. rw !elem_of_app elem_of_cons. tauto.
  - iApply (big_sepM_mono with "C"). intros r' e' [Hne _]%lookup_delete_Some. apply chain_delete. congruence.
Qed.


(** A group leaves the list of groups and the list of its RP, and its (star,G)
    entry is freed; its other members stay. *)
Definition grp_left N T g p l : iProp Σ :=
  (∃ c, gn N g ↦[Fgl] c) ∗ (∃ c, gn N g ↦[Fgr] c) ∗ (∃ c, gn N g ↦[Fga] c) ∗ (∃ c, gn N g ↦[Fgw] c) ∗
  (∃ c, gn N g ↦[Fgx] c) ∗ gn N g ↦[Fgm] Ptr p ∗
  lst Fml p ((fun a => nd N (SG a g)) <$> l) ∗ ⌜listed l (fun a => is_Some (T !! SG a g))⌝.

Definition opt_ent N T r : iProp Σ := match T !! r with Some new => ent N r new | None => emp end.

Lemma ents_take N T r : ents N T ⊣⊢ opt_ent N T r ∗ ents N (delete r T).
Proof.
  unfold opt_ent, ents. destruct (T !! r) as [new|] eqn:E.
  - by rw (big_sepM_delete _ T r new).
  - rw delete_id; [|done]. iSplit; [iIntros "$"|iIntros "[_ $]"].
Qed.

(** An entry that is on no list is freed, with its cache entries. *)
Lemma wps_free_ent N r new Φ : match r with SG _ _ => free_links (nd N r) | _ => emp end -∗ ent N r new -∗ Φ tt -∗
  wps (FREE_MRTENTRY (Some (nd N r))) Φ.
Proof.
  iIntros "F (%w & %p & %l & O & _ & K & L & I) W".
  iAssert (free_links (nd N r)) with "[F I]" as "[(%n1 & %p1 & A) (%n2 & %p2 & B)]". { destruct r; iFrame. }
  iApply (wps_FREE_MRTENTRY with "A B O K L W").
Qed.

Lemma wps_drop_ent N r new Φ : ent N r new -∗ (ent N r new -∗ Φ tt) -∗ wps (drop_kernel_cache (Some (nd N r))) Φ.
Proof.
  iIntros "(%w & %p & %l & O & %Hw & K & L & I) W". iApply (wps_drop_kernel_cache with "O K L").
  iIntros (p' l') "O K L". iApply "W". iExists w, p', l'. by iFrame.
Qed.

Lemma wps_free_wc N T g Φ : opt_ent N T (WC g) -∗ Φ tt -∗
  wps (match route_ptr N T (WC g) with
       | Some _ => do! drop_kernel_cache (route_ptr N T (WC g)) ;; FREE_MRTENTRY (route_ptr N T (WC g))
       | None => ret tt
       end) Φ.
Proof.
  iIntros "E W". unfold opt_ent, route_ptr. destruct (T !! WC g) as [new|]; [|by iApply wps_ret].
  iApply wps_bind. iApply (wps_drop_ent with "E"). iIntros "E". by iApply (wps_free_ent with "[] E").
Qed.

Lemma wps_leave_grplist N T B Y g (k : grpentry -> Cmd Pim unit) Φ : g ∈ Y -> bound_ok B Y ->
  grps_rep N T B Y -∗ chains N B -∗ opt_ent N T (WC g) -∗
  (∀ e l, grps_rep N (delete (WC g) T) (delete g B) (Y ∖ {[g]}) -∗ chains N (delete g B) -∗
    grp_left N T g (g_mrtlink e) l -∗ wps (k e) Φ) -∗
  wps (let! g := grp (Some (gn N g)) in
       do! upd (g_prev g) (set_g_next (g_next g)) ;;
       do! upd_if (g_next g) (set_g_prev (g_prev g)) ;;
       do! match g_grp_route g with
           | Some _ => do! drop_kernel_cache (g_grp_route g) ;; FREE_MRTENTRY (g_grp_route g)
           | None => ret tt
           end ;;
       do! match g_active_rp_grp g with
           | Some _ =>
               do! upd_if (g_rpnext g) (set_g_rpprev (g_rpprev g)) ;;
               match g_rpprev g with
               | Some _ => upd (g_rpprev g) (set_g_rpnext (g_rpnext g))
               | None => upd (g_active_rp_grp g) (set_rg_grplink (g_rpnext g))
               end
           | None => ret tt
           end ;;
       k g) Φ.
Proof.
  iIntros (Hg Hb) "[(%l & L & %Hl) G] C E W".
  iDestruct (big_sepS_delete _ _ _ Hg with "G") as "[(%p & %ks & Ga & Gm & Gl & %Hk & Gw & Gx & Gr) G]".
  iDestruct (chains_open with "C Gr") as (rn rv) "[Gr C]"; [done|].
  destruct (in_list g l) as (l1 & l2 & ->); [by apply Hl|]. rw fmap_app fmap_cons app_comm_cons.
  iDestruct (lst_open with "L") as (n v z) "(L1 & I & L2)".
  iApply wps_bind. iApply (wps_load (fun e => g_next e = n /\ g_prev e = v /\ g_rpnext e = rn /\ g_rpprev e = rv /\
      g_grp_route e = route_ptr N T (WC g) /\ g_active_rp_grp e = B !! g /\ g_mrtlink e = p)
    (gn N g ↦[Fgl] Link n v ∗ gn N g ↦[Fgr] Link rn rv ∗ gn N g ↦[Fgw] _ ∗ gn N g ↦[Fgx] _ ∗ gn N g ↦[Fgm] _)
    with "[] [$I $Gr $Gw $Gx $Gm]").
  { iIntros (s) "S (I & R & W & X & M)".
    iDestruct (SI_node (Nd := grpentry) with "S I") as %(e & Ee & E1); [done|].
    iDestruct (SI_cell with "S R") as %E2. iDestruct (SI_cell with "S W") as %E3.
    iDestruct (SI_cell with "S X") as %E4. iDestruct (SI_cell with "S M") as %E5. iPureIntro.
    exists e. split; [done|]. cbn in *. rw Ee in E2 E3 E4 E5. cbn in *. split_and!; congruence. }
  iIntros (e (-> & -> & -> & -> & -> & -> & <-)) "(I & Gr & Gw & Gx & Gm)".
  iApply (wps_unhook (Nd := grpentry) (f := Fgl) with "L1 I L2"). iIntros "I L". rewrite <- fmap_app.
  iApply wps_bind. iApply (wps_free_wc with "E"). iApply wps_bind. iApply (wps_leave_chain with "C"). iIntros "C".
  iApply ("W" with "[L G] C").
  - iSplitL "L".
    + iExists (l1 ++ l2). iFrame. iPureIntro. eapply listed_ext; [|by apply listed_delete]. intros x. cbn. set_solver.
    + iApply (big_sepS_mono with "G"). intros x Hx. assert (x <> g) by set_solver.
      apply grp_ent_ext; [done|by rw lookup_delete_ne| | |done].
      * apply route_ptr_ext; [|done]. rw lookup_delete_ne; [done|congruence].
      * intros a. by rw lookup_delete_ne.
  - iFrame. done.
Qed.

Lemma wps_free_grp N T g p l Φ : grp_left N T g p l -∗ Φ tt -∗ wps (free_node grpentry (Some (gn N g))) Φ.
Proof.
  iIntros "([%c1 A] & [%c2 B] & [%c3 C] & [%c4 D] & [%c5 E] & F & _) W". iApply (wps_free with "[A B C D E F]"); [|done].
  iApply (some_grp with "A B C F E D").
Qed.

Lemma delete_grpentry_deletes ds : deletes_group (delete_grpentry_with ds).
Proof.
  intros N T B Y g Φ Hg Hn Hw Hb. iIntros "G C W". unfold delete_grpentry_with.
  iApply (wps_leave_grplist with "G C []"); [done|done|unfold opt_ent; by rw Hw|].
  iIntros (e l) "G C L". iApply wps_get. iIntros (s He).
  iAssert (⌜g_mrtlink e = None⌝)%I as %->.
  { iDestruct "L" as "(_ & _ & _ & _ & _ & _ & [%z L] & %Hl)". apply nothing_listed in Hl as ->; [|intros a; rw Hn; by intros []].
    by iDestruct "L" as "[-> _]". }
  wret. iApply (wps_free_grp with "L"). rw (delete_id T (WC g)); [|done]. by iApply ("W" with "G C").
Qed.


(** ** What is consistent stays so *)

Lemma consistent_sub T T' B X Y : (forall r, is_Some (T' !! r) -> is_Some (T !! r)) ->
  consistent T B X Y -> consistent T' B X Y.
Proof. intros H (C1 & C2 & C3 & C4 & C5). split_and!; [|by intros g ?%H; apply C2|by intros a ?%H; apply C3|done|done].
  by intros a g ?%H; apply C1. Qed.

Lemma consistent_drop_source T B X Y a : (forall g, T !! SG a g = None) -> consistent T B X Y ->
  consistent T B (X ∖ {[a]}) Y.
Proof.
  intros H (C1 & C2 & C3 & C4 & C5). split_and!; [|done|done|done|].
  - intros b g Hs. destruct (decide (b = a)) as [->|Hne]; [rw H in Hs; by destruct Hs|].
    apply C1 in Hs. set_solver.
  - intros b Hb. apply C5. set_solver.
Qed.

Lemma bound_ok_delete B Y g : bound_ok B Y -> bound_ok (delete g B) (Y ∖ {[g]}).
Proof. intros H x r [Hne E]%lookup_delete_Some. apply H in E as [Hx E]. split; [set_solver|done]. Qed.

Lemma consistent_drop_group T B X Y g : (forall a, T !! SG a g = None) -> T !! WC g = None -> consistent T B X Y ->
  consistent T (delete g B) X (Y ∖ {[g]}).
Proof.
  intros H1 H2 (C1 & C2 & C3 & C4 & C5). split_and!; [| |done|by apply bound_ok_delete|done].
  - intros a x Hs. destruct (decide (x = g)) as [->|Hne]; [rw H1 in Hs; by destruct Hs|].
    rw lookup_delete_ne; [|done]. apply C1 in Hs. set_solver.
  - intros x Hs. destruct (decide (x = g)) as [->|Hne]; [rw H2 in Hs; by destruct Hs|].
    rw lookup_delete_ne; [|done]. apply C2 in Hs. set_solver.
Qed.

Lemma lookup_without p T r : without p T !! r = if p r then None else T !! r.
Proof.
  unfold without. destruct (p r) eqn:E.
  - apply map_lookup_filter_None. right. intros x _ H. cbn in H. congruence.
  - destruct (T !! r) as [x|] eqn:Er.
    + by apply map_lookup_filter_Some.
    + apply map_lookup_filter_None. by left.
Qed.

Lemma sub_without p T r : is_Some (without p T !! r) -> is_Some (T !! r).
Proof. rw lookup_without. destruct (p r); [by intros []|done]. Qed.

Lemma without_delete p T r : p r = true -> without p (delete r T) = without p T.
Proof.
  intros H. apply map_eq. intros x. rw !lookup_without. destruct (p x) eqn:E; [done|].
  rw lookup_delete_ne; [done|congruence].
Qed.

Lemma without_none p T : (forall r, p r = true -> T !! r = None) -> without p T = T.
Proof. intros H. apply map_eq. intros x. rw lookup_without. destruct (p x) eqn:E; [by rw H|done]. Qed.

(** ** The loops over the entries of a group and of a source *)

(** An entry leaves its source, which is deleted when it was the last. *)
Lemma wps_drop_from_source ds N T X a g w Φ : deletes_source ds -> is_Some (T !! SG a g) -> a ∈ X ->
  w_source w = Some (sn N a) -> srcs_rep N T X -∗ nd N (SG a g) ↦[Fmo] What w -∗
  (∀ X' n p, ⌜X' = X \/ X' = X ∖ {[a]} /\ forall g', delete (SG a g) T !! SG a g' = None⌝ -∗ nd N (SG a g) ↦[Fmo] What w -∗
     nd N (SG a g) ↦[Fms] Link n p -∗ srcs_rep N (delete (SG a g) T) X' -∗ Φ tt) -∗
  wps (unlink_from_source (fun m => ds (m_source m)) (Some (nd N (SG a g)))) Φ.
Proof.
  iIntros (Hds Ht Ha Hw) "S O W". iApply (wps_unlink_src with "S O"); [done|done|done|]. iSplit.
  - iIntros (n p) "O I S". iApply ("W" with "[] O I S"). by iLeft.
  - iIntros (m -> Hn) "O I S". iApply (Hds with "S"); [done|done|]. iIntros "S". iFrame "I". iIntros "I".
    iApply ("W" with "[] O I S"). iRight. by iSplit.
Qed.

(** Sources that lost all their entries are not on the list any more. *)
Definition fewer_sources T X X' : Prop := X' ⊆ X /\ forall B Y, consistent T B X Y -> consistent T B X' Y.
Definition fewer_groups T B Y B' Y' : Prop := Y' ⊆ Y /\ forall X, consistent T B X Y -> consistent T B' X Y'.

Lemma fewer_sources_trans T X X' X'' : fewer_sources T X X' -> fewer_sources T X' X'' -> fewer_sources T X X''.
Proof. intros [A1 A2] [B1 B2]. split; [by etrans|]. intros B Y H. by apply B2, A2. Qed.

Lemma wps_grp_entries ds g N : deletes_source ds -> forall l fuel T X p q z Φ, (length l < fuel)%nat ->
  listed l (fun a => is_Some (T !! SG a g)) -> (forall a, a ∈ l -> a ∈ X) -> T !! WC g = None ->
  srcs_rep N T X -∗ ents N T -∗ seg Fml p q ((fun a => nd N (SG a g)) <$> l) None z -∗
  (∀ X', ⌜fewer_sources (without (of_group g) T) X X'⌝ -∗ srcs_rep N (without (of_group g) T) X' -∗
     ents N (without (of_group g) T) -∗ Φ tt) -∗
  wps (grp_entries_loop ds fuel p) Φ.
Proof.
  intros Hds l. induction l as [|a l IH]; intros fuel T X p q z Φ Hf Hl HX Hw;
    (destruct fuel as [|fuel]; [cbn in Hf; lia|]); cbn [fmap list_fmap seg grp_entries_loop].
  - iIntros "S E [-> _] W". iApply wps_ret.
    assert (Et : without (of_group g) T = T).
    { apply without_none. intros [a x|x|x]; cbn; [|intros ->%bool_decide_eq_true; done|done].
      intros ->%bool_decide_eq_true. destruct (T !! SG a g) eqn:E; [|done]. exfalso.
      apply (not_elem_of_nil a), Hl. by rw E. }
    rw Et. by iApply ("W" $! X with "[] S E").
  - iIntros "S E (-> & %n & I & L) W". wload "I" as m Em. cbn in Em. injection Em as En _. rw En.
    assert (Ht : is_Some (T !! SG a g)) by (apply Hl; left). destruct Ht as [new Ht].
    rw (ents_take N T (SG a g)). iDestruct "E" as "[A E]". unfold opt_ent. rw Ht.
    iApply wps_bind. iApply (wps_drop_ent with "A"). iIntros "(%w & %k & %c & O & %Hw' & K & L' & _)".
    iApply wps_bind. iApply (wps_drop_from_source with "S O"); [done|by rw Ht|apply HX; left|apply Hw'|].
    iIntros (X' n' p') "%HX' O I' S". iApply wps_bind. iApply (wps_FREE_MRTENTRY with "I I' O K L'").
    assert (Hl' := Hl). apply (listed_delete []) in Hl'. cbn [app] in Hl'.
    assert (Hwo : without (of_group g) (delete (SG a g) T) = without (of_group g) T).
    { apply without_delete. cbn. by rw bool_decide_true. }
    iApply (IH with "S E L"); [cbn in Hf; lia| | |by rw lookup_delete_ne|].
    + eapply listed_ext; [|exact Hl']. intros x. cbn. destruct (decide (x = a)) as [->|Hne].
      * rw lookup_delete_eq. split; [tauto|by intros []].
      * rw lookup_delete_ne; [tauto|congruence].
    + intros x Hx. assert (x <> a) by (by apply Hl' in Hx as [? _]). specialize (HX x ltac:(by right)).
      destruct HX' as [->|[-> _]]; [done|set_solver].
    + rw Hwo. iIntros (X'') "%HX'' S E". iApply ("W" with "[] S E"). iPureIntro.
      eapply fewer_sources_trans; [|done]. destruct HX' as [->|[-> Hn]]; [by split|].
      split; [set_solver|]. intros B Y. apply consistent_drop_source. intros g'. rewrite <- Hwo.
      rw lookup_without Hn. by case_match.
Qed.


Lemma fewer_groups_trans T B Y B' Y' B'' Y'' : fewer_groups T B Y B' Y' -> fewer_groups T B' Y' B'' Y'' ->
  fewer_groups T B Y B'' Y''.
Proof. intros [A1 A2] [B1 B2]. split; [by etrans|]. intros X H. by apply B2, A2. Qed.

(** [grp_route] of a group. *)
Lemma wps_load_route N T B Y g Φ : g ∈ Y -> grps_rep N T B Y -∗
  (∀ e, ⌜g_grp_route e = route_ptr N T (WC g) /\ g_active_rp_grp e = B !! g /\ g_group e = g⌝ -∗ grps_rep N T B Y -∗ Φ e) -∗
  wps (grp (Some (gn N g))) Φ.
Proof.
  iIntros (Hg) "G W".
  iApply (wps_load (fun e => g_grp_route e = route_ptr N T (WC g) /\ g_active_rp_grp e = B !! g /\ g_group e = g) with "[] G W").
  iIntros (s) "S [L G]". iDestruct (big_sepS_elem_of _ _ _ Hg with "G") as "(%p & %k & Ga & Gm & Gl & %Hk & Gw & Gx & Gr)".
  iDestruct (SI_node (Nd := grpentry) with "S Gw") as %(e & Ee & E1); [done|].
  iDestruct (SI_cell with "S Gx") as %E2. iDestruct (SI_cell with "S Ga") as %E3. iPureIntro.
  exists e. split; [done|]. cbn in *. rw Ee in E2 E3. cbn in *. split_and!; congruence.
Qed.

(** An entry leaves its group, which is deleted when it has no routes left. *)
Lemma wps_drop_from_group dg N T B Y a g w Φ : deletes_group dg -> is_Some (T !! SG a g) -> g ∈ Y -> bound_ok B Y ->
  w_group w = Some (gn N g) -> grps_rep N T B Y -∗ chains N B -∗ nd N (SG a g) ↦[Fmo] What w -∗
  (∀ B' Y' c, ⌜B' = B /\ Y' = Y \/ (B' = delete g B /\ Y' = Y ∖ {[g]}) /\
       (forall a', delete (SG a g) T !! SG a' g = None) /\ T !! WC g = None⌝ -∗
     nd N (SG a g) ↦[Fmo] What w -∗ nd N (SG a g) ↦[Fml] c -∗ grps_rep N (delete (SG a g) T) B' Y' -∗
     chains N B' -∗ Φ tt) -∗
  wps (unlink_from_group (fun m =>
         let! g := grp (m_group m) in
         match g_grp_route g with None => dg (m_group m) | Some _ => ret tt end) (Some (nd N (SG a g)))) Φ.
Proof.
  iIntros (Hdg Ht Hg Hb Hw) "G C O W". iApply (wps_unlink_grp with "G O"); [done|done|done|]. iSplit.
  - iIntros (n p) "O I G". iApply ("W" with "[] O I G C"). by iLeft.
  - iIntros (m -> Hn) "O I G". iApply wps_bind. iApply (wps_load_route with "G"); [done|].
    iIntros (e (-> & _ & _)) "G". rw (route_ptr_ext N N T (delete (SG a g) T)); [|by rw lookup_delete_ne|done].
    unfold route_ptr. destruct (T !! WC g) as [new|] eqn:Hwc.
    + iApply wps_ret. iFrame "I". iIntros "I". iApply ("W" with "[] O I G C"). by iLeft.
    + iApply (Hdg with "G C"); [done|done|by rw lookup_delete_ne|done|]. iIntros "G C". iFrame "I". iIntros "I".
      iApply ("W" with "[] O I G C"). iRight. by iSplit.
Qed.

Lemma wps_src_entries dg a N : deletes_group dg -> forall l fuel T B Y p q z Φ, (length l < fuel)%nat ->
  listed l (fun g => is_Some (T !! SG a g)) -> (forall g, g ∈ l -> g ∈ Y) -> bound_ok B Y ->
  grps_rep N T B Y -∗ chains N B -∗ ents N T -∗ seg Fms p q ((fun g => nd N (SG a g)) <$> l) None z -∗
  (∀ B' Y', ⌜fewer_groups (without (of_source a) T) B Y B' Y'⌝ -∗ grps_rep N (without (of_source a) T) B' Y' -∗
     chains N B' -∗ ents N (without (of_source a) T) -∗ Φ tt) -∗
  wps (src_entries_loop dg fuel p) Φ.
Proof.
  intros Hdg l. induction l as [|g l IH]; intros fuel T B Y p q z Φ Hf Hl HY Hb;
    (destruct fuel as [|fuel]; [cbn in Hf; lia|]); cbn [fmap list_fmap seg src_entries_loop].
  - iIntros "G C E [-> _] W". iApply wps_ret.
    assert (Et : without (of_source a) T = T).
    { apply without_none. intros [x g|x|x]; cbn; [|done|done].
      intros ->%bool_decide_eq_true. destruct (T !! SG a g) eqn:E; [|done]. exfalso.
      apply (not_elem_of_nil g), Hl. by rw E. }
    rw Et. by iApply ("W" $! B Y with "[] G C E").
  - iIntros "G C E (-> & %n & I & L) W". wload "I" as m Em. cbn in Em. injection Em as En _. rw En.
    assert (Ht : is_Some (T !! SG a g)) by (apply Hl; left). destruct Ht as [new Ht].
    rw (ents_take N T (SG a g)). iDestruct "E" as "[A E]". unfold opt_ent. rw Ht.
    iApply wps_bind. iApply (wps_drop_ent with "A"). iIntros "(%w & %k & %c & O & %Hw' & K & L' & _)".
    iApply wps_bind. iApply (wps_drop_from_group with "G C O"); [done|by rw Ht|apply HY; left|done|apply Hw'|].
    iIntros (B' Y' c') "%HX' O I' G C". iApply wps_bind. iApply (wps_FREE_MRTENTRY with "I' I O K L'").
    assert (Hl' := Hl). apply (listed_delete []) in Hl'. cbn [app] in Hl'.
    assert (Hwo : without (of_source a) (delete (SG a g) T) = without (of_source a) T).
    { apply without_delete. cbn. by rw bool_decide_true. }
    iApply (IH with "G C E L"); [cbn in Hf; lia| | | |].
    + eapply listed_ext; [|exact Hl']. intros x. cbn. destruct (decide (x = g)) as [->|Hne].
      * rw lookup_delete_eq. split; [tauto|by intros []].
      * rw lookup_delete_ne; [tauto|congruence].
    + intros x Hx. assert (x <> g) by (by apply Hl' in Hx as [? _]). specialize (HY x ltac:(by right)).
      destruct HX' as [[_ ->]|[[_ ->] _]]; [done|set_solver].
    + destruct HX' as [[-> ->]|[[-> ->] _]]; [done|by apply bound_ok_delete].
    + rw Hwo. iIntros (B'' Y'') "%HX'' G C E". iApply ("W" with "[] G C E"). iPureIntro.
      eapply fewer_groups_trans; [|done]. destruct HX' as [[-> ->]|[[-> ->] [Hn Hwc]]]; [by split|].
      split; [set_solver|]. intros X. apply consistent_drop_group.
      * intros a'. rewrite <- Hwo. rw lookup_without Hn. by case_match.
      * rw lookup_without Hwc. by case_match.
Qed.

(** ** [delete_srcentry] and [delete_grpentry] *)

Lemma route_ptr_without N p T r : p r = false -> route_ptr N (without p T) r = route_ptr N T r.
Proof. intros H. unfold route_ptr. by rw lookup_without H. Qed.

(** The (star,star,RP) entries are not touched. *)
Lemma rp_ents_without N p T : (forall a, p (RP a) = false) -> rp_ents N T ⊢ rp_ents N (without p T).
Proof. intros H. apply rp_ents_ext. intros a. by apply route_ptr_without. Qed.

Lemma wps_delete_srcentry_with dg N T B X Y a Φ : deletes_group dg -> consistent T B X Y -> a ∈ X ->
  srcs_rep N T X -∗ grps_rep N T B Y -∗ chains N B -∗ ents N T -∗
  (∀ B' Y', ⌜consistent (without (of_source a) T) B' (X ∖ {[a]}) Y'⌝ -∗ srcs_rep N (without (of_source a) T) (X ∖ {[a]}) -∗
     grps_rep N (without (of_source a) T) B' Y' -∗ chains N B' -∗ ents N (without (of_source a) T) -∗ Φ tt) -∗
  wps (delete_srcentry_with dg (Some (sn N a))) Φ.
Proof.
  iIntros (Hdg Hc Ha) "S G C E W". unfold delete_srcentry_with. iApply (wps_leave_srclist with "S"); [done|].
  iIntros (e l) "S (A1 & A2 & A3 & L & %Hl)". iApply (wps_fuel with "L"). iIntros (s He Hf) "[%z L]".
  rw length_fmap in Hf. iApply wps_bind.
  iApply (wps_src_entries with "G C E L"); [done|done|done| |apply Hc|].
  { intros g Hg. apply Hl in Hg. by apply (proj1 Hc) in Hg as (_ & ? & _). }
  iIntros (B' Y') "%HB G C E". iApply (wps_free with "[A1 A2 A3]").
  { iDestruct "A1" as (c1) "A1". iDestruct "A2" as (c2) "A2". iApply (some_src with "A1 A2 A3"). }
  iApply ("W" with "[] [S] G C E").
  - iPureIntro. apply consistent_drop_source.
    + intros g. rw lookup_without. cbn. by rw bool_decide_true.
    + apply HB. eapply consistent_sub; [|done]. apply sub_without.
  - iApply (srcs_ext with "S"); [done| |done]. intros b g Hb. rw lookup_without. cbn.
    rw bool_decide_false; [done|]. set_solver.
Qed.

Lemma wps_delete_grpentry_with ds N T B X Y g Φ : deletes_source ds -> consistent T B X Y -> g ∈ Y ->
  srcs_rep N T X -∗ grps_rep N T B Y -∗ chains N B -∗ ents N T -∗
  (∀ X', ⌜consistent (without (of_group g) T) (delete g B) X' (Y ∖ {[g]})⌝ -∗ srcs_rep N (without (of_group g) T) X' -∗
     grps_rep N (without (of_group g) T) (delete g B) (Y ∖ {[g]}) -∗ chains N (delete g B) -∗
     ents N (without (of_group g) T) -∗ Φ tt) -∗
  wps (delete_grpentry_with ds (Some (gn N g))) Φ.
Proof.
  iIntros (Hds Hc Hg) "S G C E W". unfold delete_grpentry_with. rw (ents_take N T (WC g)). iDestruct "E" as "[Ew E]".
  iApply (wps_leave_grplist with "G C Ew"); [done|apply Hc|].
  iIntros (e l) "G C (A1 & A2 & A3 & A4 & A5 & A6 & L & %Hl)". iApply (wps_fuel with "L"). iIntros (s He Hf) "[%z L]".
  rw length_fmap in Hf. iApply wps_bind.
  assert (Hwo : without (of_group g) (delete (WC g) T) = without (of_group g) T).
  { apply without_delete. cbn. by rw bool_decide_true. }
  iApply (wps_grp_entries with "[S] E L"); [done|done| | |by rw lookup_delete_eq| |].
  { eapply listed_ext; [|done]. intros a. cbn. by rw lookup_delete_ne. }
  { intros a Ha. apply Hl in Ha. by apply (proj1 Hc) in Ha as (? & _). }
  { iApply (srcs_ext with "S"); [done| |done]. intros b x Hb. by rw lookup_delete_ne. }
  rw Hwo. iIntros (X') "%HX S E". iApply (wps_free with "[A1 A2 A3 A4 A5 A6]").
  { iDestruct "A1" as (c1) "A1". iDestruct "A2" as (c2) "A2". iDestruct "A3" as (c3) "A3".
    iDestruct "A4" as (c4) "A4". iDestruct "A5" as (c5) "A5". iApply (some_grp with "A1 A2 A3 A6 A5 A4"). }
  iApply ("W" with "[] S [G] C E").
  - iPureIntro. apply consistent_drop_group.
    + intros a. rw lookup_without. cbn. by rw bool_decide_true.
    + rw lookup_without. cbn. by rw bool_decide_true.
    + apply HX. eapply consistent_sub; [|done]. apply sub_without.
  - iApply (grps_ext with "G"); [| |done].
    + intros x Hx. assert (x <> g) by set_solver. split_and!; [done|done|]. apply route_ptr_ext; [|done].
      rw lookup_without lookup_delete_ne; [|congruence]. cbn. by rw bool_decide_false.
    + intros b x Hx. rw lookup_without lookup_delete_ne; [|done]. cbn. rw bool_decide_false; [done|set_solver].
Qed.

Lemma wps_delete_srcentry N T B X Y a Φ : consistent T B X Y -> a ∈ X ->
  srcs_rep N T X -∗ grps_rep N T B Y -∗ chains N B -∗ ents N T -∗
  (∀ B' Y', ⌜consistent (without (of_source a) T) B' (X ∖ {[a]}) Y'⌝ -∗ srcs_rep N (without (of_source a) T) (X ∖ {[a]}) -∗
     grps_rep N (without (of_source a) T) B' Y' -∗ chains N B' -∗ ents N (without (of_source a) T) -∗ Φ tt) -∗
  wps (delete_srcentry (Some (sn N a))) Φ.
Proof. apply wps_delete_srcentry_with, delete_grpentry_deletes. Qed.

Lemma wps_delete_grpentry N T B X Y g Φ : consistent T B X Y -> g ∈ Y ->
  srcs_rep N T X -∗ grps_rep N T B Y -∗ chains N B -∗ ents N T -∗
  (∀ X', ⌜consistent (without (of_group g) T) (delete g B) X' (Y ∖ {[g]})⌝ -∗ srcs_rep N (without (of_group g) T) X' -∗
     grps_rep N (without (of_group g) T) (delete g B) (Y ∖ {[g]}) -∗ chains N (delete g B) -∗
     ents N (without (of_group g) T) -∗ Φ tt) -∗
  wps (delete_grpentry (Some (gn N g))) Φ.
Proof. apply wps_delete_grpentry_with, delete_srcentry_deletes. Qed.

End Delete.
