(* ===== verification/MrtDrop.v ===== *)
(** * MrtDrop: [delete_mrtentry]

    A route leaves the table: its entry leaves its lists, and its group and its
    source are deleted with the last of their routes. *)

From stdpp Require Import sorting.
From iris.proofmode Require Import proofmode.
From iris.base_logic.lib Require Import iprop own ghost_map.
From S2P Require Import Prelude Inet6 Links Pim RpMatch Vif Mrt PimLogic MrtSpec MrtTable MrtCreate MrtRp MrtDelete.
Open Scope Z_scope.

Section Drop.
Context `{!pimG Σ}.
Implicit Types (N : nodes) (T : table) (B : bound) (X Y : gset sockaddr_in6).

(** ** The entry of an RP *)

Lemma rp_ents_open N T a i : rps_ok pim_start -> rp_at a i -> rp_ents N T ⊢ i ↦[Fsm] Ptr (route_ptr N T (RP a)) ∗
  (∀ N' T', ⌜forall a', a' <> a -> route_ptr N' T' (RP a') = route_ptr N T (RP a')⌝ -∗
     i ↦[Fsm] Ptr (route_ptr N' T' (RP a)) -∗ rp_ents N' T').
Proof.
  iIntros (Hok (e & Ei & Ea)) "R". iDestruct (big_sepM_delete _ _ _ _ Ei with "R") as "[C R]". rw Ea. iFrame "C".
  iIntros (N' T' H) "C". iApply big_sepM_delete; [exact Ei|]. rw Ea. iFrame "C".
  iApply (big_sepM_mono with "R"). intros j e' [Hne Ej]%lookup_delete_Some. rw H; [done|]. intros E.
  apply Hne. eapply (ro_distinct _ Hok i j); [done|done|congruence].
Qed.

Lemma wps_load_mrtlink {A} N T a i (k : ptr -> Cmd Pim A) Φ : rps_ok pim_start -> rp_at a i -> rp_ents N T -∗
  (rp_ents N T -∗ wps (k (route_ptr N T (RP a))) Φ) -∗ wps (let! e := src (Some i) in k (s_mrtlink e)) Φ.
Proof.
  iIntros (Hok Hi) "R W". iDestruct (rp_ents_open with "R") as "[C R]"; [done|done|].
  wload "C" as e Ee. cbn in Ee. injection Ee as ->. iApply "W". by iApply "R".
Qed.

Lemma wps_rp_route N T B Y g r a i Φ : rps_ok pim_start -> g ∈ Y -> B !! g = Some r -> leads_to r a i ->
  grps_rep N T B Y -∗ rp_ents N T -∗ (grps_rep N T B Y -∗ rp_ents N T -∗ Φ (route_ptr N T (RP a))) -∗
  wps (rp_route (Some (gn N g))) Φ.
Proof.
  iIntros (Hok Hg HB Hl) "G R W". unfold rp_route. iApply wps_bind. iApply (wps_load_route with "G"); [done|].
  iIntros (e (_ & -> & _)) "G". rw HB.
  iApply (wps_entry_rp r a i (fun p => let! e := src p in ret (s_mrtlink e)) with "[G R W]"); [done|].
  assert (rp_at a i) by (by destruct Hl as (? & ? & _ & _ & _ & ?)).
  iApply (wps_load_mrtlink with "R"); [done|done|]. iIntros "R". iApply wps_ret. iApply ("W" with "G R").
Qed.

(** ** Flags that are not part of what an entry is *)

Lemma wps_flag_ent f N T r Φ : (forall w, w_off f w = w) -> ents N T -∗ (ents N T -∗ Φ tt) -∗
  wps (upd_if (route_ptr N T r) (flag_off f)) Φ.
Proof.
  iIntros (Hf) "E W". unfold route_ptr. destruct (T !! r) as [new|] eqn:Hr; [|iApply wps_ret; by iApply "W"].
  iDestruct (big_sepM_lookup_acc _ _ _ _ Hr with "E") as "[(%w & %p & %l & O & %Hw & R) E]".
  iApply (wps_flag_off with "O"). iIntros "O". rw Hf. iApply "W". iApply "E". iExists w, p, l. by iFrame.
Qed.

(** ** An (S,G) entry leaves its group *)

Lemma wps_last_of_group N T B Y g m Φ : rps_ok pim_start -> g ∈ Y -> bound_ok B Y -> m_group m = Some (gn N g) ->
  (SSMGROUP pim_start g = true \/ is_Some (B !! g)) -> (forall a, T !! SG a g = None) ->
  grps_rep N T B Y -∗ chains N B -∗ ents N T -∗ rp_ents N T -∗
  (∀ B' Y', ⌜fewer_groups T B Y B' Y'⌝ -∗ grps_rep N T B' Y' -∗ chains N B' -∗ ents N T -∗ rp_ents N T -∗ Φ tt) -∗
  wps (last_of_group m) Φ.
Proof.
  iIntros (Hok Hg Hb Em Hrp Hn) "G C E R W". unfold last_of_group. iApply wps_get. iIntros (s He). rw Em.
  iApply wps_bind. iApply (wps_load_route with "G"); [done|]. iIntros (e (Ew & Ex & Eg)) "G".
  assert (Es : SSMGROUP s (g_group e) = SSMGROUP pim_start g).
  { unfold SSMGROUP. by rw Eg (e_ssmp _ _ _ _ He) (e_ssmm _ _ _ _ He). }
  rw Es Ew. iApply (wps_bind_mono _ _ _ (fun p => ⌜exists a, p = route_ptr N T (RP a) \/ p = None⌝ ∗
    grps_rep N T B Y ∗ rp_ents N T)%I with "[G R]").
  { destruct (SSMGROUP pim_start g) eqn:Hssm; cbn [negb]; [iApply wps_ret; iFrame; iExists g; by iRight|].
    destruct Hrp as [?|[r Hr]]; [done|]. destruct (Hb g r Hr) as (_ & a & i & Hl & _).
    iApply (wps_rp_route with "G R"); [done|done|done|done|]. iIntros "G R". iFrame. iExists a. by iLeft. }
  iIntros (p) "([%a %Hp] & G & R)".
  iApply (wps_bind_mono _ _ _ (fun _ => ents N T) with "[E]").
  { destruct Hp as [->| ->]; [|by iApply wps_ret]. iApply (wps_flag_ent with "E"); [apply w_off_clone|]. by iIntros. }
  iIntros (_) "E". destruct (T !! WC g) as [new|] eqn:Hwc.
  - iPoseProof (wps_flag_ent MRTF_MFC_CLONE_SG N T (WC g) Φ with "E") as "F"; [apply w_off_clone|].
    unfold route_ptr. rw Hwc. iApply "F". iIntros "E". iApply ("W" with "[] G C E R"). iPureIntro. by split.
  - unfold route_ptr. rw Hwc. iApply (delete_grpentry_deletes with "G C"); [done|done|done|done|]. iIntros "G C".
    iApply ("W" with "[] G C E R"). iPureIntro. split; [set_solver|]. intros X. by apply consistent_drop_group.
Qed.

Lemma rp_ents_delete N T r : match r with RP _ => False | _ => True end -> rp_ents N T ⊢ rp_ents N (delete r T).
Proof.
  intros H. apply rp_ents_ext. intros a. apply route_ptr_ext; [|done]. rw lookup_delete_ne; [done|by destruct r].
Qed.

(** ** [delete_mrtentry] *)

Lemma wps_delete_sg N T B X Y a g w Φ : rps_ok pim_start -> consistent T B X Y -> is_Some (T !! SG a g) ->
  w_group w = Some (gn N g) -> w_source w = Some (sn N a) ->
  srcs_rep N T X -∗ grps_rep N T B Y -∗ chains N B -∗ ents N (delete (SG a g) T) -∗ rp_ents N T -∗
  nd N (SG a g) ↦[Fmo] What w -∗
  (table_rep (delete (SG a g) T) -∗ nd N (SG a g) ↦[Fmo] What w -∗ free_links (nd N (SG a g)) -∗ Φ tt) -∗
  wps (delete_sg (Some (nd N (SG a g)))) Φ.
Proof.
  iIntros (Hok Hc Ht Hwg Hws) "S G C E R O W". destruct (proj1 Hc a g Ht) as (Ha & Hg & Hrp).
  assert (Hb : bound_ok B Y) by apply Hc. set (T' := delete (SG a g) T).
  assert (Hc' : consistent T' B X Y).
  { eapply consistent_sub; [|done]. intros r. unfold T'. destruct (decide (r = SG a g)) as [->|Hne].
    - rw lookup_delete_eq. by intros [].
    - by rw lookup_delete_ne. }
  iDestruct (rp_ents_delete N T (SG a g) with "R") as "R"; [done|]. fold T'. unfold delete_sg.
  iApply (wps_bind_mono _ _ _ (fun _ => ∃ B' Y' c, ⌜consistent T' B' X Y'⌝ ∗ nd N (SG a g) ↦[Fmo] What w ∗
    nd N (SG a g) ↦[Fml] Link c.1 c.2 ∗ grps_rep N T' B' Y' ∗ chains N B' ∗ ents N T' ∗ rp_ents N T')%I with "[G C E R O]").
  - iApply (wps_unlink_grp with "G O"); [done|done|done|]. fold T'. iSplit.
    + iIntros (n p) "O I G". iExists B, Y, (n, p). by iFrame.
    + iIntros (m Em Hn) "O I G". iApply (wps_last_of_group with "G C E R"); [done|done|done|done|done|done|].
      iIntros (B' Y' [_ HB]) "G C E R". iFrame "I". iIntros "I". iExists B', Y', (None, None). iFrame. iPureIntro. by apply HB.
  - iIntros (_) "(%B' & %Y' & %c & %Hc2 & O & I & G & C & E & R)".
    iApply (wps_drop_from_source with "S O"); [apply delete_srcentry_deletes|done|done|done|].
    iIntros (X' n p) "%HX O I' S". fold T'.
    iApply ("W" with "[S G C E R] O [I I']").
    + iExists N, B', X', Y'. iFrame. iPureIntro. destruct HX as [->|[-> Hn]]; [done|by apply consistent_drop_source].
    + iSplitL "I"; [by iExists c.1, c.2|by iExists n, p].
Qed.

(** A group loses its (star,G) entry, and is deleted when it has no (S,G) entry. *)
Lemma wps_drop_wc N T B X Y g Φ : consistent (delete (WC g) T) B X Y -> g ∈ Y ->
  srcs_rep N T X -∗ grps_rep N T B Y -∗ chains N B -∗ ents N (delete (WC g) T) -∗ rp_ents N (delete (WC g) T) -∗
  (table_rep (delete (WC g) T) -∗ Φ tt) -∗
  wps (do! upd (Some (gn N g)) (set_g_grp_route None) ;;
       let! e := grp (Some (gn N g)) in
       match g_mrtlink e with None => delete_grpentry (Some (gn N g)) | Some _ => ret tt end) Φ.
Proof.
  iIntros (Hc Hg) "S [LG G] C E R W". set (T' := delete (WC g) T).
  assert (Hsg : forall a x, T' !! SG a x = T !! SG a x) by (intros; unfold T'; by rw lookup_delete_ne).
  iDestruct (big_sepS_delete _ _ _ Hg with "G") as "[(%p & %l & Ga & Gm & Gl & %Hl & Gw & Gr) G]".
  wupd "Gw". wload "Gm" as e Ee. cbn in Ee. injection Ee as Ep. rw Ep.
  iAssert (⌜p = None -> l = []⌝)%I as %Hp.
  { destruct l; [by iPureIntro|]. iDestruct "Gl" as (z) "[-> _]". by iPureIntro. }
  iAssert (grps_rep N T' B Y) with "[LG G Ga Gm Gl Gw Gr]" as "G".
  { iFrame "LG". iApply big_sepS_delete; [exact Hg|]. iSplitR "G".
    - iExists p, l. iFrame. unfold route_ptr, T'. rw lookup_delete_eq. iFrame. iPureIntro.
      eapply listed_ext; [|done]. intros a. by rw Hsg.
    - iApply (big_sepS_mono with "G"). intros x Hx. apply grp_ent_ext; [done|done| |intros a; by rw Hsg|done].
      apply route_ptr_ext; [unfold T'; rw lookup_delete_ne; [done|set_solver]|done]. }
  iDestruct (srcs_ext N N T T' X with "S") as "S"; [done|intros; by rw Hsg|done|].
  destruct p as [p|].
  - iApply wps_ret. iApply "W". iExists N, B, X, Y. by iFrame.
  - iApply (wps_delete_grpentry with "S G C E"); [done|done|]. assert (Et : without (of_group g) T' = T').
    { apply without_none. intros [a x|x|x]; cbn; intros H; [|unfold T'|done]; apply bool_decide_eq_true in H as ->.
      - rw Hsg. destruct (T !! SG a g) eqn:E; [|done]. exfalso. apply (not_elem_of_nil a). rewrite <- Hp by done.
        apply Hl. by rw E.
      - by rw lookup_delete_eq. }
    rw Et. iIntros (X') "%HX S G C E". iApply "W". iExists N, _, X', _. by iFrame.
Qed.

Lemma wps_delete_mrtentry N T B X Y r new Φ : rps_ok pim_start -> T !! r = Some new -> consistent T B X Y ->
  rep N T B X Y -∗ (table_rep (delete r T) -∗ Φ tt) -∗ wps (delete_mrtentry (Some (nd N r))) Φ.
Proof.
  iIntros (Hok Hr Hc) "(S & G & C & E & R) W". unfold delete_mrtentry.
  assert (Hc' : consistent (delete r T) B X Y).
  { eapply consistent_sub; [|done]. intros x. destruct (decide (x = r)) as [->|Hne].
    - rw lookup_delete_eq. by intros [].
    - by rw lookup_delete_ne. }
  rw (ents_take N T r). iDestruct "E" as "[A E]". unfold opt_ent. rw Hr. iApply wps_bind.
  iApply (wps_drop_ent with "A"). iIntros "(%w & %k & %l & O & %Hw & K & L & F)".
  wload "O" as m Em. cbn in Em. injection Em as Em.
  assert (Ep : has (m_flags m) MRTF_PMBR = w_pm w) by by rewrite <- Em.
  assert (Es : has (m_flags m) MRTF_SG = w_sg w) by by rewrite <- Em.
  assert (Eg : m_group m = w_group w) by by rewrite <- Em.
  assert (Ec : m_source m = w_source w) by by rewrite <- Em.
  rw Ep Es Eg Ec. destruct Hw as (_ & _ & _ & Hw).
  iApply (wps_bind_mono _ _ _ (fun _ => table_rep (delete r T) ∗ nd N r ↦[Fmo] What w ∗ free_links (nd N r))%I with "[S G C E R O F]").
  - destruct r as [a g|g|a]; cbn in Hw.
    + destruct Hw as (Hwg & Hws & -> & _ & ->). iApply (wps_delete_sg with "S G C E R O"); [done|done|by rw Hr|done|done|].
      iIntros "T O F'". iFrame.
    + destruct Hw as (-> & -> & _ & ->). destruct (proj1 (proj2 Hc) g) as [Hg _]; [by rw Hr|].
      iDestruct (rp_ents_delete N T (WC g) with "R") as "R"; [done|].
      iApply (wps_drop_wc with "S G C E R"); [done|done|]. iIntros "T". iFrame.
    + destruct Hw as ((i & -> & Hi) & _ & _ & ->). iDestruct (rp_ents_open with "R") as "[Cm R]"; [done|done|].
      iApply (wps_upd with "Cm"); [done|assigns_tac|]. iIntros "Cm". iFrame "O F".
      iExists N, B, X, Y. iSplit; [done|]. unfold rep. iFrame "C E". iSplitL "S"; [|iSplitL "G"].
      * iApply (srcs_ext with "S"); [done| |done]. intros. by rw lookup_delete_ne.
      * iApply (grps_ext with "G"); [| |done]; [|intros; by rw lookup_delete_ne]. intros. split_and!; [done|done|].
        apply route_ptr_ext; [by rw lookup_delete_ne|done].
      * iApply ("R" with "[] [Cm]"); [|unfold route_ptr; by rw lookup_delete_eq]. iPureIntro. intros a' Ha'.
        apply route_ptr_ext; [rw lookup_delete_ne; [done|congruence]|done].
  - iIntros (_) "(T & O & (%n1 & %p1 & A) & (%n2 & %p2 & B))". iApply (wps_FREE_MRTENTRY with "A B O K L"). by iApply "W".
Qed.
End Drop.
