(* ===== verification/MrtCache.v ===== *)
(** * MrtCache: the kernel's forwarding entries move between routes

    The functions that add, remove and move cache entries change only the lists
    of cache entries: every entry still owns a list, and the table is the same. *)

From stdpp Require Import sorting.
From iris.proofmode Require Import proofmode.
From iris.base_logic.lib Require Import iprop own ghost_map.
From S2P Require Import Prelude Inet6 Links Pim RpMatch Vif Mrt PimLogic MrtSpec MrtTable MrtCreate MrtRp MrtDelete MrtDrop.
Open Scope Z_scope.

Section Cache.
Context `{!pimG Σ}.
Implicit Types (N : nodes) (T : table) (B : bound) (X Y : gset sockaddr_in6) (w : what).

(** The cache entries of an entry. *)
Definition cached (i : nat) : iProp Σ := ∃ p l, i ↦[Fmk] Ptr p ∗ lst Fk p l.

Lemma wps_cache_loop src grp l : forall fuel p q z Φ, (length l < fuel)%nat -> seg Fk p q l None z -∗
  (∀ l1 l2 m v found, ⌜l = l1 ++ l2 /\ (found = true -> l2 <> [])⌝ -∗ seg Fk p q l1 m v -∗ seg Fk m v l2 None z -∗
     Φ (v, m, found)) -∗
  wps (cache_loop fuel src grp q p) Φ.
Proof.
  induction l as [|i l IH]; intros fuel p q z Φ Hf; (destruct fuel as [|fuel]; [cbn in Hf; lia|]); cbn [seg cache_loop].
  - iIntros "[-> ->] W". iApply wps_ret. iApply ("W" $! [] [] None z false); by iPureIntro.
  - iIntros "(-> & %n & C & L) W". wload "C" as c Ec. cell_eqs Ec. destruct (cache_order c src grp) as [[]|found].
    + iApply (IH with "L"); [cbn in Hf; lia|]. iIntros (l1 l2 m v f [-> Hl]) "L1 L2".
      iApply ("W" $! (i :: l1) l2 with "[] [C L1] L2"); [by iPureIntro|]. cbn. iSplit; [done|]. iExists _. iFrame.
    + iApply wps_ret. iApply ("W" $! [] (i :: l) (Some i) (k_prev c) found with "[] [] [C L]"); [by iPureIntro|by iPureIntro|].
      cbn. iSplit; [done|]. iExists _. iFrame.
Qed.

(** [mrtentry_ptr->kernel_cache] as the head of a list. *)
Lemma wps_set_head i p n Φ : i ↦[Fmk] Ptr p -∗ (i ↦[Fmk] Ptr n -∗ Φ tt) -∗ wps (upd (Some i) (set_m_kernel_cache n)) Φ.
Proof. iIntros "K W". wupd_last "K". by iApply "W". Qed.

(** Two neighbours around a place on the list of an entry are linked. *)
Lemma wps_join {A} i p l1 m v n q l2 z (k : unit -> Cmd Pim A) Φ : i ↦[Fmk] Ptr p -∗ seg Fk p None l1 m v -∗ seg Fk n q l2 None z -∗
  (∀ p', i ↦[Fmk] Ptr p' -∗ lst Fk p' (l1 ++ l2) -∗ wps (k tt) Φ) -∗
  wps (do! match v with Some _ => upd v (set_k_next n) | None => upd (Some i) (set_m_kernel_cache n) end ;;
       bind (upd_if n (set_k_prev v)) k) Φ.
Proof.
  iIntros "K L1 L2 W". iApply wps_bind.
  iApply (wps_relink (Nd := kernel_cache) (f := Fk) (fun p => i ↦[Fmk] Ptr p)%I
    (upd (Some i) (set_m_kernel_cache n)) with "L1 K").
  { iIntros (p' Ψ) "K H". by iApply (wps_set_head with "K"). }
  iIntros (p') "K L1". iApply wps_bind. iApply (wps_set_prev (Nd := kernel_cache) (f := Fk) with "L2"). iIntros (z') "L2".
  iApply ("W" with "K"). iApply (seg_lst with "L1 L2").
Qed.

(** The kernel flags go with the last entry. *)
Lemma wps_flag_empty {A} i w (k : unit -> Cmd Pim A) Φ : cached i -∗ i ↦[Fmo] What w -∗
  (cached i -∗ i ↦[Fmo] What w -∗ wps (k tt) Φ) -∗
  wps (let! m := mrt (Some i) in
       bind (match m_kernel_cache m with
             | None => upd (Some i) (flag_off (Z.lor MRTF_KERNEL_CACHE MRTF_MFC_CLONE_SG))
             | Some _ => ret tt
             end) k) Φ.
Proof.
  iIntros "(%p & %l & K & L) O W". wload "K" as m Em. iApply wps_bind. destruct (m_kernel_cache m).
  - iApply wps_ret. iApply ("W" with "[K L] O"). iExists p, l. iFrame.
  - iApply (wps_flag_off with "O"). iIntros "O". rw w_off_kernel. iApply ("W" with "[K L] O"). iExists p, l. iFrame.
Qed.

(** The two members [g] and [e] that [take_cache] reads. *)
Lemma wps_load_source N T X a Φ : a ∈ X -> srcs_rep N T X -∗ (∀ e, ⌜s_address e = a⌝ -∗ srcs_rep N T X -∗ Φ e) -∗
  wps (src (Some (sn N a))) Φ.
Proof.
  iIntros (Ha) "S W". iApply (wps_load (fun e => s_address e = a) with "[] S W").
  iIntros (s) "S [L R]". iDestruct (SI_sources with "S R") as %H. iPureIntro. by apply H.
Qed.

(** A structure can be read with what is owned in [R]. *)
Definition reads {Nd} `{Heap Nd} (R : iProp Σ) (p : ptr) : Prop :=
  forall Ψ, ⊢ R -∗ (∀ x, R -∗ Ψ x) -∗ wps (load p : Cmd Pim Nd) Ψ.

Lemma wps_take_cache i j w w' R Φ : reads (Nd := grpentry) R (w_group w) -> reads (Nd := srcentry) R (w_source w) -> R -∗
  i ↦[Fmo] What w -∗ cached i -∗ j ↦[Fmo] What w' -∗ cached j -∗
  (R -∗ i ↦[Fmo] What w -∗ cached i -∗ j ↦[Fmo] What w' -∗ cached j -∗ Φ tt) -∗
  wps (take_cache (Some i) (Some j)) Φ.
Proof.
  iIntros (Hg Hs) "R O (%p & %l & K & L) O' (%p' & %l' & K' & L') W". unfold take_cache.
  wload2 "O K" as m Em Ek. cbn in Em, Ek. injection Em as Em. injection Ek as Ek.
  assert (Eg : m_group m = w_group w) by by rewrite <- Em. assert (Es : m_source m = w_source w) by by rewrite <- Em.
  rw Eg Es Ek. iApply wps_bind. iApply (Hg with "R"). iIntros (g) "R". iApply wps_bind. iApply (Hs with "R").
  iIntros (e) "R". wload "K'" as rp Erp. cell_eqs Erp. iApply (wps_fuel with "L'"). iIntros (s He Hf) "[%z L']".
  iApply wps_bind. iApply (wps_cache_loop with "L'"); [done|]. iIntros (l1 l2 mm v found [-> Hfd]) "L1 L2".
  destruct found; cbn [negb].
  2: { iApply wps_ret. iApply ("W" with "R O [K L] O' [K' L1 L2]"); [iExists _, _; iFrame|].
    iExists _, _. iFrame "K'". iApply (seg_lst with "L1 L2"). }
  destruct l2 as [|c l2]; [by destruct (Hfd eq_refl)|]. cbn [seg]. iDestruct "L2" as "(-> & %n & C & L2)".
  wload "C" as ce Ec. cell_eqs Ec. iApply (wps_join with "K' L1 L2"). iIntros (p') "K' L'".
  iApply (wps_flag_empty with "[K' L'] O'"); [iExists _, _; iFrame|]. iIntros "C' O'".
  iApply (wps_bind_mono _ _ _ (fun _ => emp)%I with "[L]").
  { iDestruct "L" as "[%z2 L]". destruct l as [|i0 l].
    - iDestruct "L" as "[-> _]". by iApply wps_ret.
    - iDestruct "L" as "(-> & %n0 & C0 & L)". iApply (wps_free with "[C0]"); [by iApply some_cache|done]. }
  iIntros (_) "_". iApply wps_bind. iApply (wps_flag_on with "O"). iIntros "O". rw w_on_kernel. wupd "K". wupd "C".
  wupd_last "C". iApply ("W" with "R O [K C] O' C'"). iExists (Some c), [c]. iFrame "K". iExists (Some c). cbn.
  iSplit; [done|]. iExists None. by iFrame.
Qed.

(** ** The entries of a group on the list of (star,star,RP) *)

Lemma wps_select_more group first l : forall fuel p q z last Φ, (length l < fuel)%nat -> seg Fk p q l None z -∗
  (∀ last', ⌜last' = last \/ exists i, last' = Some i /\ i ∈ l⌝ -∗ seg Fk p q l None z -∗ Φ (Some first, last')) -∗
  wps (select_loop fuel group (Some first) last p) Φ.
Proof.
  induction l as [|i l IH]; intros fuel p q z last Φ Hf; (destruct fuel as [|fuel]; [cbn in Hf; lia|]); cbn [seg select_loop].
  - iIntros "[-> ->] W". iApply wps_ret. iApply "W"; [by iLeft|done].
  - iIntros "(-> & %n & C & L) W". wload "C" as c Ec. cell_eqs Ec.
    assert (Hl : (length l < fuel)%nat) by (cbn in Hf; lia).
    destruct (inet6_lessthan (k_group c) group); [|destruct (inet6_equal (k_group c) group); cbn [negb]].
    + iApply (IH with "L"); [done|]. iIntros (last' Hlast) "L". iApply ("W" with "[] [C L]").
      * iPureIntro. destruct Hlast as [->|(j & -> & Hj)]; [by left|right; exists j; split; [done|by right]].
      * iSplit; [done|]. iExists _. iFrame.
    + iApply (IH with "L"); [done|]. iIntros (last' Hlast) "L". iApply ("W" with "[] [C L]").
      * iPureIntro. right. destruct Hlast as [->|(j & -> & Hj)]; [exists i; split; [done|left]|exists j; split; [done|by right]].
      * iSplit; [done|]. iExists _. iFrame.
    + iApply wps_ret. iApply ("W" with "[] [C L]"); [by iLeft|]. iSplit; [done|]. iExists _. iFrame.
Qed.

Lemma wps_select_loop group l : forall fuel p q z Φ, (length l < fuel)%nat -> seg Fk p q l None z -∗
  (∀ first last, ⌜first = None \/ exists a f b c, l = a ++ (f :: b) ++ c /\ first = Some f /\ last = list.last (f :: b)⌝ -∗
     seg Fk p q l None z -∗ Φ (first, last)) -∗
  wps (select_loop fuel group None None p) Φ.
Proof.
  induction l as [|i l IH]; intros fuel p q z Φ Hf; (destruct fuel as [|fuel]; [cbn in Hf; lia|]); cbn [seg select_loop].
  - iIntros "[-> ->] W". iApply wps_ret. iApply "W"; [by iLeft|done].
  - iIntros "(-> & %n & C & L) W". wload "C" as c Ec. cell_eqs Ec.
    assert (Hl : (length l < fuel)%nat) by (cbn in Hf; lia).
    destruct (inet6_lessthan (k_group c) group); [|destruct (inet6_equal (k_group c) group); cbn [negb]].
    + iApply (IH with "L"); [done|]. iIntros (first last Hr) "L". iApply ("W" with "[] [C L]").
      * iPureIntro. destruct Hr as [->|(a & f & b & d & -> & -> & ->)]; [by left|right]. by exists (i :: a), f, b, d.
      * iSplit; [done|]. iExists _. iFrame.
    + iApply (wps_select_more with "L"); [done|]. iIntros (last Hr) "L". iApply ("W" with "[] [C L]").
      * iPureIntro. right. destruct Hr as [->|(j & -> & (b & d & ->)%list_elem_of_split)].
        { by exists [], i, [], l. }
        exists [], i, (b ++ [j]), d. split_and!; [cbn; by rw -app_assoc|done|]. by rw app_comm_cons last_snoc.
      * iSplit; [done|]. iExists _. iFrame.
    + iApply wps_ret. iApply ("W" with "[] [C L]"); [by iLeft|]. iSplit; [done|]. iExists _. iFrame.
Qed.

(** They are put into the list of (star,G). *)
Lemma wps_merge_loop i b : forall fuel p a kp v z first y lf z' Φ, (length b < fuel)%nat ->
  i ↦[Fmk] Ptr p -∗ seg Fk p None a kp v -∗ seg Fk kp v b None z -∗ seg Fk first y lf None z' -∗
  (∀ p' a' first' v', i ↦[Fmk] Ptr p' -∗
     match first' with
     | None => lst Fk p' a'
     | Some _ => seg Fk p' None a' None v' ∗ ∃ y lf z, seg Fk first' y lf None z
     end -∗ Φ (first', v')) -∗
  wps (merge_loop fuel (Some i) first v kp) Φ.
Proof.
  induction b as [|c b IH]; intros fuel p a kp v z first y lf z' Φ Hf; (destruct fuel as [|fuel]; [cbn in Hf; lia|]);
    cbn [seg merge_loop].
  - iIntros "K A [-> ->] F W". iApply wps_ret. iApply ("W" $! p a first z with "K"). destruct first; [|by iExists z].
    iFrame "A". by iExists y, lf, z'.
  - iIntros "K A (-> & %n & C & B) F W". destruct lf as [|f lf]; cbn [seg].
    + iDestruct "F" as "[-> _]". iApply wps_ret. iApply ("W" $! p (a ++ c :: b) None v with "K").
      iExists z. rw seg_app. iExists (Some c), v. iFrame "A".
      cbn. iSplit; [done|]. iExists n. iFrame.
    + iDestruct "F" as "(-> & %nf & F & LF)". wload "C" as ce Ec. cell_eqs Ec. wload "F" as fe Ef. cell_eqs Ef.
      assert (Hb : (length b < fuel)%nat) by (cbn in Hf; lia).
      destruct (inet6_greaterthan (k_source ce) (k_source fe)).
      * iApply wps_bind. iApply wps_bind.
        iApply (wps_relink (Nd := kernel_cache) (f := Fk) (fun p => i ↦[Fmk] Ptr p)%I
          (upd (Some i) (set_m_kernel_cache (Some f))) with "A K").
        { iIntros (p' Ψ) "K H". by iApply (wps_set_head with "K"). }
        iIntros (p') "K A". wupd "F". wupd "F". wupd "C". iApply wps_ret.
        iApply (IH _ p' (a ++ [f; c]) with "K [A F C] B LF W"); [done|].
        rw seg_app. iExists (Some f), (k_prev ce). iFrame "A". cbn. iSplit; [done|]. iExists (Some c). iFrame "F".
        iSplit; [done|]. iExists _. by iFrame.
      * iApply wps_bind. iApply wps_ret. iApply (IH _ p (a ++ [c]) _ _ z (Some f) (k_prev fe) (f :: lf) z' with "K [A C] B [F LF] W"); [done| |].
        { rw seg_snoc. iExists _. by iFrame. }
        cbn. iSplit; [done|]. iExists _. iFrame.
Qed.

(** The members that are read of the first and of the last node of a segment. *)
Lemma wps_load_first p q i l m v Φ : seg Fk p q (i :: l) m v -∗
  (∀ c, ⌜k_prev c = q⌝ -∗ seg Fk p q (i :: l) m v -∗ Φ c) -∗ wps (cache (Some i)) Φ.
Proof.
  cbn [seg]. iIntros "(-> & %n & C & L) W". iApply (wps_load1 with "C"); [done|]. iIntros (c Ec) "C". cbn in Ec.
  injection Ec as En Ep. iApply ("W" with "[//] [C L]"). iSplit; [done|]. iExists n. iFrame.
Qed.
Lemma wps_load_last p q l i m v Φ : seg Fk p q (l ++ [i]) m v -∗
  (∀ c, ⌜k_next c = m⌝ -∗ seg Fk p q (l ++ [i]) m v -∗ Φ c) -∗ wps (cache (Some i)) Φ.
Proof.
  iIntros "L W". iDestruct (seg_snoc with "L") as (r) "(L & C & ->)". iApply (wps_load1 with "C"); [done|].
  iIntros (c Ec) "C". cbn in Ec. injection Ec as En Ep. iApply ("W" with "[//] [C L]"). iApply seg_snoc.
  iExists r. by iFrame.
Qed.

(** What [merge_loop] left is put behind the list. *)
Lemma wps_append_rest i p a first v Φ : i ↦[Fmk] Ptr p -∗
  match first with None => lst Fk p a | Some _ => seg Fk p None a None v ∗ ∃ y lf z, seg Fk first y lf None z end -∗
  (cached i -∗ Φ tt) -∗
  wps (match first with
       | None => ret tt
       | Some _ =>
           do! match v with Some _ => upd v (set_k_next first) | None => upd (Some i) (set_m_kernel_cache first) end ;;
           upd first (set_k_prev v)
       end) Φ.
Proof.
  iIntros "K L W". destruct first as [f|].
  2: { iApply wps_ret. iApply "W". iExists p, a. iFrame. }
  iDestruct "L" as "(A & %y & %lf & %z & F)". iApply wps_bind.
  iApply (wps_relink (Nd := kernel_cache) (f := Fk) (fun p => i ↦[Fmk] Ptr p)%I (upd (Some i) (set_m_kernel_cache (Some f))) with "A K").
  { iIntros (p' Ψ) "K H". by iApply (wps_set_head with "K"). }
  iIntros (p') "K A". iApply (wps_set_prev (Nd := kernel_cache) (f := Fk) (Some f) with "F"). iIntros (z') "F".
  iApply "W". iExists p', _. iFrame "K". iApply (seg_lst with "A F").
Qed.

Lemma wps_move_kernel_cache_wc i j w w' R Φ :
  (forall Ψ, ⊢ R -∗ (R -∗ Ψ (Some j)) -∗ wps (rp_route (w_group w)) Ψ) -> reads (Nd := grpentry) R (w_group w) -> R -∗
  i ↦[Fmo] What w -∗ cached i -∗ j ↦[Fmo] What w' -∗ cached j -∗
  (R -∗ i ↦[Fmo] What w -∗ cached i -∗ j ↦[Fmo] What w' -∗ cached j -∗ Φ tt) -∗
  wps (move_kernel_cache_wc (Some i)) Φ.
Proof.
  iIntros (Hr Hg) "R O (%p & %l & K & L) O' (%p' & %l' & K' & L') W". unfold move_kernel_cache_wc.
  wload "O" as m Em. cbn in Em. injection Em as Em. assert (Eg : m_group m = w_group w) by by rewrite <- Em. rw Eg.
  iApply wps_bind. iApply (Hr with "R"). iIntros "R". iApply wps_bind. iApply (Hg with "R"). iIntros (g) "R".
  wload "K'" as pm Epm. cell_eqs Epm.
  iApply (wps_get_brk (fun b => (length l <= b)%nat /\ (length l' <= b)%nat) (lst Fk p l ∗ lst Fk (m_kernel_cache pm) l')%I with "[] [$L $L']").
  { iIntros (s) "S [L L']". iDestruct (SI_lst with "S L") as %[_ ?]. by iDestruct (SI_lst with "S L'") as %[_ ?]. }
  iIntros (s He [Hl Hl']) "[[%z L] [%z' L']]". iApply wps_bind.
  iApply (wps_select_loop with "L'"); [unfold fuel_of; lia|].
  iIntros (first last [->|(a & f & b & c & -> & -> & Hlast)]) "L'".
  { iApply wps_ret. iApply ("W" with "R O [K L] O' [K' L']"); [iExists _, l; iFrame "K"; by iExists z|iExists _, l'; iFrame "K'"; by iExists z']. }
  assert (exists b0 la, f :: b = b0 ++ [la]) as (b0 & la & Eb).
  { destruct b as [|x b _] using rev_ind; [by exists [], f|by exists (f :: b), x]. }
  rw Eb last_snoc in Hlast. subst last. iDestruct (seg_app with "L'") as (m1 v1) "[A L']".
  iDestruct (seg_app with "L'") as (m2 v2) "[F C]".
  iAssert (⌜m1 = Some f⌝)%I as %->. { iDestruct "F" as "[-> _]". done. }
  iApply wps_bind. iApply (wps_load_first with "F"). iIntros (fe ->) "F". rw Eb.
  iApply wps_bind. iApply (wps_load_last with "F"). iIntros (le ->) "F".
  iApply (wps_join with "K' A C"). iIntros (p') "K' L'".
  iApply (wps_flag_empty with "[K' L'] O'"); [iExists _, _; iFrame|]. iIntros "C' O'". iApply wps_bind.
  iApply (wps_set_next (Nd := kernel_cache) (f := Fk) with "F"). iIntros "F".
  iApply wps_bind. iApply (wps_flag_on with "O"). iIntros "O". rw w_on_kernel.
  wload "K" as m' Em'. cell_eqs Em'. iApply wps_bind.
  iApply (wps_merge_loop i l (fuel_of s) _ [] _ None with "K [] L F"); [unfold fuel_of; lia|by iPureIntro|].
  iIntros (p2 a2 first v) "K L". iApply (wps_append_rest with "K L"). iIntros "K". iApply ("W" with "R O K O' C'").
Qed.

(** ** The functions on the table *)

Lemma ent_open N r new : ent N r new -∗ ∃ w, ⌜route_is N r new w⌝ ∗ nd N r ↦[Fmo] What w ∗ cached (nd N r) ∗
  (nd N r ↦[Fmo] What w -∗ cached (nd N r) -∗ ent N r new).
Proof.
  iIntros "(%w & %p & %l & O & %Hw & K & L & F)". iExists w. iFrame "O". iSplit; [done|]. iSplitL "K L".
  - iExists p, l. iFrame.
  - iIntros "O (%p' & %l' & K & L)". iExists w, p', l'. by iFrame.
Qed.

Lemma ents_two N T r r' new new' : r <> r' -> T !! r = Some new -> T !! r' = Some new' -> ents N T -∗
  ent N r new ∗ ent N r' new' ∗ (ent N r new -∗ ent N r' new' -∗ ents N T).
Proof.
  iIntros (Hne Hr Hr') "E". unfold ents.
  iDestruct (big_sepM_delete _ _ _ _ Hr with "E") as "[A E]".
  assert (H2 : delete r T !! r' = Some new') by by rw lookup_delete_ne.
  iDestruct (big_sepM_delete _ _ _ _ H2 with "E") as "[A' E]". iFrame "A A'". iIntros "A A'".
  iApply big_sepM_delete; [exact Hr|]. iFrame "A". iApply big_sepM_delete; [exact H2|]. iFrame.
Qed.

(** What the code reads while it moves cache entries. *)
Definition read_part N T B X Y : iProp Σ := srcs_rep N T X ∗ grps_rep N T B Y ∗ rp_ents N T.

Lemma reads_group N T B X Y g : g ∈ Y -> reads (Nd := grpentry) (read_part N T B X Y) (Some (gn N g)).
Proof.
  intros Hg Ψ. iIntros "(S & G & R) W". iApply (wps_load_route with "G"); [done|]. iIntros (e _) "G". iApply "W". iFrame.
Qed.
Lemma reads_source N T B X Y a : a ∈ X -> reads (Nd := srcentry) (read_part N T B X Y) (Some (sn N a)).
Proof.
  intros Ha Ψ. iIntros "(S & G & R) W". iApply (wps_load_source with "S"); [done|]. iIntros (e _) "S". iApply "W". iFrame.
Qed.

Lemma wps_read_rp_route N T B X Y g Φ : rps_ok pim_start -> bound_ok B Y -> is_Some (B !! g) -> read_part N T B X Y -∗
  (∀ a, read_part N T B X Y -∗ Φ (route_ptr N T (RP a))) -∗ wps (rp_route (Some (gn N g))) Φ.
Proof.
  iIntros (Hok Hb [r Hr]) "(S & G & R) W". destruct (Hb g r Hr) as (Hg & a & i & Hl & _).
  iApply (wps_rp_route with "G R"); [done|done|done|done|]. iIntros "G R". iApply "W". iFrame.
Qed.

(** An (S,G) entry takes its cache entry from the entry of another route. *)
Lemma wps_take_from N T B X Y a g r' new new' Φ : consistent T B X Y -> T !! SG a g = Some new -> T !! r' = Some new' ->
  match r' with SG _ _ => False | _ => True end ->
  read_part N T B X Y -∗ ents N T -∗ (read_part N T B X Y -∗ ents N T -∗ Φ tt) -∗
  wps (take_cache (Some (nd N (SG a g))) (Some (nd N r'))) Φ.
Proof.
  iIntros (Hc Ht Ht' Hr') "R E W". destruct (proj1 Hc a g ltac:(by rw Ht)) as (Ha & Hg & _).
  iDestruct (ents_two N T (SG a g) r' with "E") as "(A & A' & E)"; [by destruct r'|done|done|].
  iDestruct (ent_open with "A") as (w) "(%Hw & O & K & A)". iDestruct (ent_open with "A'") as (w') "(%Hw' & O' & K' & A')".
  destruct Hw as (_ & _ & _ & Hwg & Hws & _).
  iApply (wps_take_cache with "R O K O' K'").
  - rw Hwg. by apply reads_group.
  - rw Hws. by apply reads_source.
  - iIntros "R O K O' K'". iApply ("W" with "R"). iApply ("E" with "(A O K) (A' O' K')").
Qed.

(** A (star,G) entry takes the cache entries of its group from the entry of its RP. *)
Lemma wps_move_wc N T B X Y g Φ : rps_ok pim_start -> bound_ok B Y -> g ∈ Y -> is_Some (B !! g) -> is_Some (T !! WC g) ->
  read_part N T B X Y -∗ ents N T -∗ (read_part N T B X Y -∗ ents N T -∗ Φ tt) -∗
  wps (move_kernel_cache_wc (Some (nd N (WC g)))) Φ.
Proof.
  iIntros (Hok Hb Hg [r HB] [new Ht]) "R E W". destruct (Hb g r HB) as (_ & a & i & Hl & _).
  assert (Hrt : forall Ψ, ⊢ read_part N T B X Y -∗ (read_part N T B X Y -∗ Ψ (route_ptr N T (RP a))) -∗
    wps (rp_route (Some (gn N g))) Ψ).
  { intros Ψ. iIntros "(S & G & R) W". iApply (wps_rp_route with "G R"); [done|done|done|done|].
    iIntros "G R". iApply "W". iFrame. }
  destruct (T !! RP a) as [new'|] eqn:Ht'.
  - iDestruct (ents_two N T (WC g) (RP a) with "E") as "(A & A' & E)"; [done|done|done|].
    iDestruct (ent_open with "A") as (w) "(%Hw & O & K & A)". iDestruct (ent_open with "A'") as (w') "(%Hw' & O' & K' & A')".
    destruct Hw as (_ & _ & _ & Hwg & _).
    iApply (wps_move_kernel_cache_wc _ (nd N (RP a)) with "R O K O' K'").
    + rw Hwg. unfold route_ptr in Hrt. by rw Ht' in Hrt.
    + rw Hwg. by apply reads_group.
    + iIntros "R O K O' K'". iApply ("W" with "R"). iApply ("E" with "(A O K) (A' O' K')").
  - iDestruct (big_sepM_lookup_acc _ _ _ _ Ht with "E") as "[A E]".
    iDestruct (ent_open with "A") as (w) "(%Hw & O & K & A)". destruct Hw as (_ & _ & _ & Hwg & _).
    unfold move_kernel_cache_wc. wload "O" as m Em. cbn in Em. injection Em as Em.
    assert (Eg : m_group m = w_group w) by by rewrite <- Em. rw Eg Hwg. iDestruct ("E" with "(A O K)") as "E".
    iApply wps_bind. iApply (Hrt with "R"). iIntros "R". unfold route_ptr. rw Ht'. iApply wps_ret. iApply ("W" with "R E").
Qed.

Lemma wps_move_kernel_cache N T B X Y r new flags Φ : rps_ok pim_start -> consistent T B X Y -> T !! r = Some new ->
  read_part N T B X Y -∗ ents N T -∗ (read_part N T B X Y -∗ ents N T -∗ Φ tt) -∗
  wps (move_kernel_cache (Some (nd N r)) flags) Φ.
Proof.
  iIntros (Hok Hc Hr) "R E W". assert (Hb : bound_ok B Y) by apply Hc.
  iDestruct (big_sepM_lookup_acc _ _ _ _ Hr with "E") as "[A E]". iDestruct (ent_open with "A") as (w) "(%Hw & O & K & A)".
  unfold move_kernel_cache. wload "O" as m Em. cbn in Em. injection Em as Em.
  assert (Ep : has (m_flags m) MRTF_PMBR = w_pm w) by by rewrite <- Em.
  assert (Es : has (m_flags m) MRTF_SG = w_sg w) by by rewrite <- Em.
  assert (Ec : has (m_flags m) MRTF_WC = w_wc w) by by rewrite <- Em.
  assert (Eg : m_group m = w_group w) by by rewrite <- Em.
  rw Ep Es Ec Eg. destruct Hw as (_ & _ & _ & Hw). destruct r as [a g|g|a].
  - destruct Hw as (-> & _ & -> & -> & ->). destruct (proj1 Hc a g ltac:(by rw Hr)) as (Ha & Hg & Hrp).
    iDestruct ("E" with "(A O K)") as "E". iApply wps_get. iIntros (s He). iApply wps_bind.
    iDestruct "R" as "(S & G & R)". iApply (wps_load_route with "G"); [done|]. iIntros (e (Ew & _ & Ea)) "G".
    iAssert (read_part N T B X Y) with "[$S $G $R]" as "R".
    assert (Ess : SSMGROUP s (g_group e) = SSMGROUP pim_start g).
    { unfold SSMGROUP. by rw Ea (e_ssmp _ _ _ _ He) (e_ssmm _ _ _ _ He). }
    rw Ess Ew. destruct (SSMGROUP pim_start g) eqn:Hssm; [iApply wps_ret; iApply ("W" with "R E")|].
    destruct Hrp as [?|Hrp]; [done|].
    iApply (wps_bind_mono _ _ _ (fun p => ∃ r', ⌜p = route_ptr N T r' /\ match r' with SG _ _ => False | _ => True end⌝ ∗
      read_part N T B X Y)%I with "[R]").
    { destruct (route_ptr N T (WC g)) as [j|] eqn:Ej.
      - iApply wps_ret. iExists (WC g). iFrame. by rw Ej.
      - iApply (wps_read_rp_route with "R"); [done|done|done|]. iIntros (x) "R". iExists (RP x). by iFrame. }
    iIntros (p) "(%r' & [-> %Hr'] & R)". unfold route_ptr. destruct (T !! r') as [new'|] eqn:Ht'.
    2: { iApply wps_ret. iApply ("W" with "R E"). }
    iDestruct (big_sepM_lookup_acc _ _ _ _ Ht' with "E") as "[A E]". iDestruct (ent_open with "A") as (w') "(%Hw' & O & K & A)".
    wload "O" as rp Erp. iDestruct ("E" with "(A O K)") as "E".
    destruct (decide (m_incoming rp <> m_incoming m)); [destruct (has flags MFC_MOVE_FORCE); cbn [negb]|].
    + iApply (wps_take_from with "R E"); [done|done|done|done|done].
    + iApply wps_ret. iApply ("W" with "R E").
    + iApply (wps_take_from with "R E"); [done|done|done|done|done].
  - destruct Hw as (Hwg & -> & -> & ->). destruct (proj1 (proj2 Hc) g ltac:(by rw Hr)) as [Hg Hrp].
    iDestruct ("E" with "(A O K)") as "E". iApply (wps_move_wc with "R E W"); [done|done|done|done|by rw Hr].
  - destruct Hw as (_ & -> & -> & ->). iApply wps_ret. iApply ("W" with "R"). iApply ("E" with "(A O K)").
Qed.

Lemma whole_cache i (c : kernel_cache) : whole i c ⊢ i ↦[Fk] Link (k_next c) (k_prev c).
Proof. unfold whole. cbn. iIntros "((%a & %Ha & A) & _)". by simplify_eq. Qed.

Lemma wps_new_cache c Φ : (∀ i, i ↦[Fk] Link (k_next c) (k_prev c) -∗ Φ (Some i)) -∗ wps (new_cache c) Φ.
Proof.
  iIntros "W". unfold new_cache. iApply wps_bind. iApply wps_malloc. iIntros (i) "C". rw whole_cache.
  iApply wps_bind. iApply (wps_upd_same with "C"); [done|done|]. iIntros "C". iApply wps_ret. by iApply "W".
Qed.

(** A new cache entry goes to its place on the list. *)
Lemma wps_cache_insert i w src grp Φ : i ↦[Fmo] What w -∗ cached i -∗ (i ↦[Fmo] What w -∗ cached i -∗ Φ tt) -∗
  wps (let! m := mrt (Some i) in
       if has (m_flags m) MRTF_SG then
         if has (m_flags m) MRTF_KERNEL_CACHE then ret tt else
         let! new := new_cache (mkCache None None src grp 0) in
         do! upd (Some i) (set_m_kernel_cache new) ;;
         upd (Some i) (flag_on MRTF_KERNEL_CACHE)
       else
         let! s := get in
         let! (prev, next, found) := cache_loop (fuel_of s) src grp None (m_kernel_cache m) in
         if found : bool then ret tt else
         let! new := new_cache (mkCache next prev src grp 0) in
         do! match prev with
             | Some _ => upd prev (set_k_next new)
             | None => upd (Some i) (set_m_kernel_cache new)
             end ;;
         do! upd_if next (set_k_prev new) ;;
         upd (Some i) (flag_on MRTF_KERNEL_CACHE)) Φ.
Proof.
  iIntros "O (%p & %l & K & L) W". wload "K" as m Em. cell_eqs Em.
  destruct (has (m_flags m) MRTF_SG).
  - destruct (has (m_flags m) MRTF_KERNEL_CACHE).
    + iApply wps_ret. iApply ("W" with "O"). iExists _, l. iFrame.
    + iApply wps_bind. iApply wps_new_cache. iIntros (c) "C". wupd "K". iApply (wps_flag_on with "O"). iIntros "O".
      rw w_on_kernel. iApply ("W" with "O"). iExists (Some c), [c]. iFrame "K". iExists (Some c). cbn.
      iSplit; [done|]. iExists None. by iFrame.
  - iApply (wps_fuel with "L"). iIntros (s He Hf) "[%z L]". iApply wps_bind. iApply (wps_cache_loop with "L"); [done|].
    iIntros (l1 l2 n v found [-> _]) "A B". destruct found.
    + iApply wps_ret. iApply ("W" with "O"). iExists _, _. iFrame "K". iApply (seg_lst with "A B").
    + iApply wps_bind. iApply wps_new_cache. iIntros (c) "C". cbn [k_next k_prev]. iApply wps_bind.
      iApply (wps_relink (Nd := kernel_cache) (f := Fk) (fun p => i ↦[Fmk] Ptr p)%I (upd (Some i) (set_m_kernel_cache (Some c))) with "A K").
      { iIntros (p' Ψ) "K H". by iApply (wps_set_head with "K"). }
      iIntros (p') "K A". iApply wps_bind. iApply (wps_set_prev (Nd := kernel_cache) (f := Fk) with "B"). iIntros (z') "B".
      iApply (wps_flag_on with "O"). iIntros "O". rw w_on_kernel. iApply ("W" with "O"). iExists p', (l1 ++ c :: l2).
      iFrame "K". iExists z'. iApply seg_app. iExists (Some c), v. iFrame "A". cbn. iSplit; [done|]. iExists n. iFrame.
Qed.

Lemma wps_add_kernel_cache N T B X Y r new src grp flags Φ : rps_ok pim_start -> consistent T B X Y -> T !! r = Some new ->
  read_part N T B X Y -∗ ents N T -∗ (read_part N T B X Y -∗ ents N T -∗ Φ tt) -∗
  wps (add_kernel_cache (Some (nd N r)) src grp flags) Φ.
Proof.
  iIntros (Hok Hc Hr) "R E W". unfold add_kernel_cache. iApply wps_bind.
  iApply (wps_move_kernel_cache with "R E"); [done|done|done|]. iIntros "R E".
  iDestruct (big_sepM_lookup_acc _ _ _ _ Hr with "E") as "[A E]". iDestruct (ent_open with "A") as (w) "(%Hw & O & K & A)".
  iApply (wps_cache_insert with "O K"). iIntros "O K". iApply ("W" with "R"). iApply ("E" with "(A O K)").
Qed.

Lemma wps_delete_single_addr N T r new src grp Φ : T !! r = Some new -> ents N T -∗ (ents N T -∗ Φ tt) -∗
  wps (delete_single_kernel_cache_addr (Some (nd N r)) src grp) Φ.
Proof.
  iIntros (Hr) "E W".
  iDestruct (big_sepM_lookup_acc _ _ _ _ Hr with "E") as "[A E]". iDestruct (ent_open with "A") as (w) "(%Hw & O & K & A)".
  iAssert (nd N r ↦[Fmo] What w -∗ cached (nd N r) -∗ Φ tt)%I with "[W A E]" as "W".
  { iIntros "O K". iApply "W". iApply ("E" with "(A O K)"). }
  iDestruct "K" as (p l) "[K L]". unfold delete_single_kernel_cache_addr. iApply (wps_fuel with "L"). iIntros (s He Hf) "[%z L]".
  wload "K" as m Em. cell_eqs Em. iApply wps_bind. iApply (wps_cache_loop with "L"); [done|].
  iIntros (l1 l2 n v found [-> Hfd]) "L1 L2". destruct found.
  2: { iApply wps_ret. iApply ("W" with "O"). iExists _, _. iFrame "K". iApply (seg_lst with "L1 L2"). }
  destruct l2 as [|c l2]; [by destruct (Hfd eq_refl)|]. cbn [seg]. iDestruct "L2" as "(-> & %n & C & L2)".
  unfold delete_single_kernel_cache. wload "C" as ce Ec. cell_eqs Ec.
  iApply (wps_bind_mono _ _ _ (fun _ => ∃ p', nd N r ↦[Fmo] What w ∗ nd N r ↦[Fmk] Ptr p' ∗
    seg Fk p' None l1 (k_next ce) (k_prev ce))%I with "[O K L1]").
  { destruct l1 as [|b l0 _] using rev_ind.
    - iDestruct (seg_nil with "L1") as %[Ep <-]. rewrite <- Ep. wupd "K". destruct (k_next ce) as [x|] eqn:En.
      + iApply wps_ret. iExists (Some x). iFrame. by iPureIntro.
      + iApply (wps_flag_off with "O"). iIntros "O". rw w_off_kernel. iExists None. iFrame. by iPureIntro.
    - iAssert (⌜k_prev ce = Some b⌝)%I as %Eb. { iDestruct (seg_snoc with "L1") as (r0) "(_ & _ & $)". }
      rw Eb. iApply (wps_set_next (Nd := kernel_cache) (f := Fk) with "L1"). iIntros "L1". iExists _. iFrame. }
  iIntros (_) "(%p' & O & K & L1)". iApply wps_bind. iApply (wps_set_prev (Nd := kernel_cache) (f := Fk) with "L2").
  iIntros (z') "L2". iApply wps_bind. iApply wps_k_del_mfc. iApply (wps_free with "[C]"); [by iApply some_cache|].
  iApply ("W" with "O"). iExists p', _. iFrame "K". iApply (seg_lst with "L1 L2").
Qed.
End Cache.
