(* ===== verification/MrtFind.v ===== *)
(** * MrtFind: [find_route]

    The answers of [find_route] and what it makes are those of [spec_find]. *)

From stdpp Require Import sorting functions.
From iris.proofmode Require Import proofmode.
From iris.base_logic.lib Require Import iprop own ghost_map.
From S2P Require Import Prelude Inet6 Links Pim RpMatch Vif Mrt PimLogic MrtSpec MrtTable MrtCreate MrtRp MrtDelete MrtDrop MrtCache.
Open Scope Z_scope.

Section Find.
Context `{!pimG Σ}.
Implicit Types (N : nodes) (T : table) (B : bound) (X Y : gset sockaddr_in6) (w : what).

#[local] Instance rp_infos_persistent : Persistent rp_infos.
Proof. apply big_sepM_persistent. intros i e. apply _. Qed.

(** ** The RP of a group *)

Lemma wps_load_rpg r a i p Φ : leads_to r a i -> r ↦[Frg] Ptr p -∗
  (∀ e, ⌜rg_grplink e = p /\ exists c, (rg_rp e ≫= fun j => crps pim_start !! j) = Some c /\ c_rpentry c = Some i⌝ -∗
     r ↦[Frg] Ptr p -∗ Φ e) -∗
  wps (rpg (Some r)) Φ.
Proof.
  iIntros (Hl) "C W". iApply (wps_pure _ (fun e => rg_grplink e = p /\
    exists c, (rg_rp e ≫= fun j => crps pim_start !! j) = Some c /\ c_rpentry c = Some i) with "[] C W").
  iIntros (s) "S C". iDestruct (SI_cell with "S C") as %E. iDestruct (SI_env with "S") as %He. iPureIntro.
  destruct (load_leads s r a i He Hl) as (e & c & E1 & E2 & E3). exists e. unfold rpg, load. cbn in *. rw E1 in E |- *.
  split; [done|]. cbn in E. injection E as E. split; [done|]. exists c. split; [|done].
  by rw -(e_crps _ _ _ _ He).
Qed.

Lemma wps_load_crp q c Φ : (q ≫= fun j => crps pim_start !! j) = Some c -> Φ c -∗ wps (crp q) Φ.
Proof.
  iIntros (Hq) "W". iIntros (s) "S". iDestruct (SI_env with "S") as %He. iModIntro. iExists c, s. iFrame. iPureIntro.
  unfold crp, load. cbn. by rw (e_crps _ _ _ _ He) Hq.
Qed.

Lemma wps_load_rp a i Φ : rp_at a i -> rp_infos -∗
  (∀ e e0, ⌜srcs pim_start !! i = Some e0 /\ s_address e = a /\ s_incoming e = s_incoming e0 /\ s_upstream e = s_upstream e0⌝ -∗
     Φ e) -∗ wps (src (Some i)) Φ.
Proof.
  iIntros ((e0 & Ei & Ea)) "#I W". iDestruct (big_sepM_lookup _ _ _ _ Ei with "I") as "C".
  iApply (wps_load1 with "C"); [done|]. iIntros (e Ee) "_". cbn in Ee. injection Ee as E1 E2 E3.
  iApply ("W" $! e e0). iPureIntro. split_and!; [done|congruence|done|done].
Qed.

Lemma chain_insert N B g r r' : r' <> r -> B !! g = None -> chain N B r' ⊢ chain N (<[g := r]> B) r'.
Proof.
  intros Hne Hg. iIntros "(%p & %l & P & L & %Hn & %Hl)". iExists p, l. iFrame. iSplit; [done|]. iPureIntro. intros x.
  rw Hl. destruct (decide (x = g)) as [->|Hx]; [rw lookup_insert_eq Hg; split; [done|congruence]|by rw lookup_insert_ne].
Qed.

Lemma consistent_bind T B X Y g r a i : consistent T B X Y -> g ∈ Y -> leads_to r a i -> group_rp pim_start g = Some a ->
  consistent T (<[g := r]> B) X Y.
Proof.
  intros (C1 & C2 & C3 & C4 & C5) Hg Hl Ha.
  assert (Hs : forall y, is_Some (B !! y) -> is_Some (<[g := r]> B !! y)).
  { intros y H. destruct (decide (y = g)) as [->|Hne]; [by rw lookup_insert_eq|by rw lookup_insert_ne]. }
  split_and!; [| |done| |done].
  - intros x y H%C1. naive_solver.
  - intros y H%C2. naive_solver.
  - intros y r' E. destruct (decide (y = g)) as [->|Hne].
    + rw lookup_insert_eq in E. injection E as <-. split; [done|]. by exists a, i.
    + rw lookup_insert_ne in E; [|done]. by apply C4.
Qed.

(** A group without an RP gets one. *)
Lemma wps_bind_rp N T B Y g r a i Φ : g ∈ Y -> B !! g = None -> leads_to r a i ->
  rp_infos -∗ grps_rep N T B Y -∗ chains N B -∗
  (grps_rep N T (<[g := r]> B) Y -∗ chains N (<[g := r]> B) -∗ Φ (Some i)) -∗
  wps (bind_rp (Some (gn N g)) (Some r)) Φ.
Proof.
  iIntros (Hg HB Hl) "#I [LG G] C W".
  assert (rp_at a i) as Hi by (by destruct Hl as (? & ? & _ & _ & _ & ?)).
  assert (exists e, rpgs pim_start !! r = Some e) as [e0 He0] by (destruct Hl as (e & _ & E & _); by exists e).
  iDestruct (big_sepS_delete _ _ _ Hg with "G") as "[(%p & %ks & Ga & Gm & Gl & %Hk & Gw & Gx & Gr) G]". rw HB.
  iDestruct (big_sepM_delete _ _ _ _ He0 with "C") as "[(%q & %l & P & [%z L] & %Hn & %Hl') C]".
  unfold bind_rp. iApply wps_bind. iApply (wps_load_rpg with "P"); [done|]. iIntros (e (Eg & c & Ec & Ei)) "P". rw Eg.
  iApply wps_bind. iApply (wps_load_crp with "[-]"); [done|]. rw Ei. wupd "Gx". iApply wps_bind.
  iApply (wps_load_rp with "I"); [done|]. iIntros (en en0 _). wupd0 "Gr". wupd "Gr". iApply wps_bind.
  iApply (wps_upd_grplink with "P"). iIntros "P". wload "Gr" as ge Ege. cell_eqs Ege. iApply wps_bind.
  iApply (wps_set_prev (Nd := grpentry) (f := Fgr) with "L"). iIntros (z') "L". iApply wps_ret.
  iApply ("W" with "[LG Ga Gm Gl Gw Gx G] [P L Gr C]").
  - iFrame "LG". iApply big_sepS_delete; [exact Hg|]. iSplitR "G".
    + iExists p, ks. rw lookup_insert_eq. by iFrame.
    + iApply (big_sepS_mono with "G"). intros x Hx. assert (x <> g) by set_solver.
      by apply grp_ent_ext; [|rw lookup_insert_ne| | |].
  - iApply big_sepM_delete; [exact He0|]. iSplitR "C".
    + iExists (Some (gn N g)), (g :: l). iFrame "P". iSplit.
      * iExists z'. cbn. iSplit; [done|]. iExists _. iFrame.
      * iPureIntro. split.
        -- constructor; [|done]. intros Hin%Hl'. congruence.
        -- intros x. rw elem_of_cons Hl'. destruct (decide (x = g)) as [->|Hne]; [rw lookup_insert_eq; tauto|].
           rw lookup_insert_ne; [tauto|done].
    + iApply (big_sepM_mono with "C"). intros r' e' [Hne _]%lookup_delete_Some. by apply chain_insert.
Qed.

Lemma wps_delete_group N T B X Y g Φ : consistent T B X Y -> g ∈ Y -> rep N T B X Y -∗
  (table_rep (without (of_group g) T) -∗ Φ tt) -∗ wps (delete_grpentry (Some (gn N g))) Φ.
Proof.
  iIntros (Hc Hg) "(S & G & C & E & R) W". iApply (wps_delete_grpentry with "S G C E"); [done|done|].
  iIntros (X') "%Hc' S G C E". iApply "W". iExists N, _, X', _. iSplit; [done|]. iFrame.
  by iApply (rp_ents_without with "R").
Qed.

Lemma wps_delete_source N T B X Y a Φ : consistent T B X Y -> a ∈ X -> rep N T B X Y -∗
  (table_rep (without (of_source a) T) -∗ Φ tt) -∗ wps (delete_srcentry (Some (sn N a))) Φ.
Proof.
  iIntros (Hc Hg) "(S & G & C & E & R) W". iApply (wps_delete_srcentry with "S G C E"); [done|done|].
  iIntros (B' Y') "%Hc' S G C E". iApply "W". iExists N, B', _, Y'. iSplit; [done|]. iFrame.
  by iApply (rp_ents_without with "R").
Qed.

(** The members of a group. *)
Lemma wps_load_group N T B Y g Φ : g ∈ Y -> grps_rep N T B Y -∗
  (∀ e, ⌜g_grp_route e = route_ptr N T (WC g) /\ g_active_rp_grp e = B !! g /\
       (g_mrtlink e = None <-> forall a, T !! SG a g = None)⌝ -∗ grps_rep N T B Y -∗ Φ e) -∗
  wps (grp (Some (gn N g))) Φ.
Proof.
  iIntros (Hg) "G W".
  iApply (wps_load (fun e => g_grp_route e = route_ptr N T (WC g) /\ g_active_rp_grp e = B !! g /\
    (g_mrtlink e = None <-> forall a, T !! SG a g = None)) with "[] G W").
  iIntros (s) "S [L G]". iDestruct (big_sepS_elem_of _ _ _ Hg with "G") as "(%p & %k & Ga & Gm & Gl & %Hk & Gw & Gx & Gr)".
  iDestruct (SI_node (Nd := grpentry) with "S Gw") as %(e & Ee & E1); [done|].
  iDestruct (SI_cell with "S Gx") as %E2. iDestruct (SI_cell with "S Gm") as %E3.
  iAssert (⌜p = None <-> k = []⌝)%I as %Hp.
  { iDestruct "Gl" as (z) "GL". destruct k; [by iDestruct "GL" as "[-> _]"|]. iDestruct "GL" as "[-> _]". by iPureIntro. }
  iPureIntro. exists e. split; [done|]. cbn in *. rw Ee in E2 E3. cbn in *. injection E1 as E1. injection E2 as E2.
  injection E3 as E3. split_and!; [done|done|]. rw E3 Hp. split.
  - intros -> a. destruct (T !! SG a g) eqn:E; [|done]. exfalso. apply (not_elem_of_nil a), Hk. by rw E.
  - intros H. apply (nothing_listed _ _ Hk). intros a. rw H. by intros [].
Qed.

Lemma usable_rp_at a i e : rps_ok pim_start -> srcs pim_start !! i = Some e -> s_address e = a ->
  usable_rp pim_start a = negb (bool_decide (s_upstream e = None /\ s_incoming e <> reg_vif_num pim_start)).
Proof.
  intros Hok Ei Ea. unfold usable_rp. apply eq_true_iff_eq. rw negb_true_iff bool_decide_eq_true bool_decide_eq_false. split.
  - intros (j & e' & Ej & Ea' & Hu) [H1 H2]. assert (i = j) as <- by (eapply (ro_distinct _ Hok); [done|done|congruence]).
    simplify_eq. tauto.
  - intros H. exists i, e. split_and!; [done|done|]. destruct (decide (s_incoming e = reg_vif_num pim_start)); [by right|].
    left. intros Hu. by apply H.
Qed.

Lemma no_group_routes T g : (forall a, T !! SG a g = None) -> T !! WC g = None -> without (of_group g) T = T.
Proof.
  intros H1 H2. apply without_none. intros [a x|x|x]; cbn; intros H; [| |done]; by apply bool_decide_eq_true in H as ->.
Qed.

Lemma bound_group_rp B Y g r : bound_ok B Y -> B !! g = Some r -> exists a i, leads_to r a i /\ group_rp pim_start g = Some a.
Proof. intros H E. by apply H in E as [_ ?]. Qed.

Lemma route_none N T r : route_ptr N T r = None <-> T !! r = None.
Proof. unfold route_ptr. by destruct (T !! r). Qed.

(** The end of [route_rp]: an RP that cannot be used takes the group with it. *)
Lemma wps_use_rp N T B X Y g a i Φ : rps_ok pim_start -> consistent T B X Y -> g ∈ Y -> rp_at a i ->
  rp_infos -∗ rep N T B X Y -∗
  (if usable_rp pim_start a then rep N T B X Y -∗ Φ (Some i) else table_rep (without (of_group g) T) -∗ Φ None) -∗
  wps (let! e := src (Some i) in
       let! s := get in
       if decide (s_upstream e = None /\ s_incoming e <> reg_vif_num s) then do! delete_grpentry (Some (gn N g)) ;; ret None
       else ret (Some i)) Φ.
Proof.
  iIntros (Hok Hc Hg Hi) "#I R W". iApply wps_bind. iApply (wps_load_rp with "I"); [done|].
  iIntros (e e0 (Ei & Ea & E1 & E2)). iApply wps_get. iIntros (s He). rw (e_reg _ _ _ _ He) E1 E2.
  rw (usable_rp_at a i e0 Hok Ei); [|by destruct Hi as (? & ? & ?); simplify_eq].
  destruct (decide (s_upstream e0 = None /\ s_incoming e0 <> reg_vif_num pim_start)) as [D|D].
  - rw bool_decide_true; [|done]. cbn. iApply wps_bind. iApply (wps_delete_group with "R"); [done|done|]. iIntros "R".
    iApply wps_ret. by iApply "W".
  - rw bool_decide_false; [|done]. cbn. iApply wps_ret. by iApply "W".
Qed.

Lemma wps_route_rp N T B X Y g Φ : rps_ok pim_start -> consistent T B X Y -> g ∈ Y -> rp_infos -∗ rep N T B X Y -∗
  match group_rp pim_start g with
  | None => table_rep T -∗ Φ None
  | Some a =>
      if usable_rp pim_start a
      then ∀ B' i, ⌜consistent T B' X Y /\ is_Some (B' !! g) /\ rp_at a i⌝ -∗ rep N T B' X Y -∗ Φ (Some i)
      else table_rep (without (of_group g) T) -∗ Φ None
  end -∗
  wps (route_rp (Some (gn N g)) (Some g)) Φ.
Proof.
  iIntros (Hok Hc Hg) "#I (S & G & C & E & R) W". unfold route_rp. iApply wps_bind.
  iApply (wps_load_group with "G"); [done|]. iIntros (e (Ew & Ex & Em)) "G". rw Ex.
  assert (Hb : bound_ok B Y) by apply Hc. iApply wps_bind. destruct (B !! g) as [r|] eqn:HB.
  - destruct (bound_group_rp _ _ _ _ Hb HB) as (a & i & Hl & Ha). rw Ha.
    assert (rp_at a i) as Hi by (by destruct Hl as (? & ? & _ & _ & _ & ?)).
    iApply (wps_entry_rp r a i ret); [done|]. iApply wps_ret.
    iApply (wps_use_rp with "I [$S $G $C $E $R]"); [done|done|done|done|].
    destruct (usable_rp pim_start a); [|done]. iApply "W". iPureIntro. split_and!; [done|by rw HB|done].
  - iApply wps_some; [done|]. iApply wps_bind. iApply (wps_rp_grp_match with "I"); [done|]. iIntros (rg Hrg) "_".
    unfold rp_entry_for in Hrg. destruct (group_rp pim_start g) as [a|] eqn:Ha.
    + destruct Hrg as (r & i & -> & Hl). assert (rp_at a i) as Hi by (by destruct Hl as (? & ? & _ & _ & _ & ?)).
      pose proof (consistent_bind T B X Y g r a i Hc Hg Hl Ha) as Hc'.
      iApply (wps_bind_rp with "I G C"); [done|done|done|]. iIntros "G C".
      iApply (wps_use_rp with "I [$S $G $C $E $R]"); [done|done|done|done|].
      destruct (usable_rp pim_start a); [|done]. iApply "W". iPureIntro. split_and!; [done|by rw lookup_insert_eq|done].
    + rw Hrg. rw Ew. iApply (wps_bind_mono _ _ _ (fun _ => table_rep T) with "[S G C E R]").
      * destruct (decide (g_mrtlink e = None /\ route_ptr N T (WC g) = None)) as [[D1 D2]|D].
        -- iApply (wps_delete_group with "[$S $G $C $E $R]"); [done|done|]. rw no_group_routes; [by iIntros|by apply Em|by apply route_none in D2].
        -- iApply wps_ret. iExists N, B, X, Y. iSplit; [done|]. iFrame.
      * iIntros (_) "T". iApply wps_ret. iApply wps_ret. by iApply "W".
Qed.

(** ** Entries as a whole *)

Record world : Prop := {
  wd_rps : rps_ok pim_start;
  wd_routes : routes_ok;
  wd_vifs : (length (uvifs pim_start) <= n_timers)%nat
}.

Lemma wps_load_ent N T r new Φ : T !! r = Some new -> ents N T -∗
  (∀ m, ⌜route_is N r new (what_of m)⌝ -∗ ents N T -∗ Φ m) -∗ wps (mrt (Some (nd N r))) Φ.
Proof.
  iIntros (Hr) "E W". iDestruct (big_sepM_lookup_acc _ _ _ _ Hr with "E") as "[A E]".
  iDestruct (ent_open with "A") as (w) "(%Hw & O & K & A)". iApply (wps_load1 with "O"); [done|].
  iIntros (m Em) "O". cbn in Em. injection Em as Em. iApply ("W" with "[]"); [by rw Em|]. iApply ("E" with "(A O K)").
Qed.

(** Assignments to members that say nothing of the route. *)
Lemma wps_touch_ent (g : mrtentry -> mrtentry) N T r Φ : (forall e f, cells (g e) f = cells e f) -> is_Some (T !! r) ->
  ents N T -∗ (ents N T -∗ Φ tt) -∗ wps (upd (Some (nd N r)) g) Φ.
Proof.
  iIntros (Hg [new Hr]) "E W". iDestruct (big_sepM_lookup_acc _ _ _ _ Hr with "E") as "[A E]".
  iDestruct (ent_open with "A") as (w) "(%Hw & O & K & A)". iApply (wps_upd_same with "O"); [done|done|].
  iIntros "O". iApply "W". iApply ("E" with "(A O K)").
Qed.

Lemma wps_set_toward a b c d N T r Φ : is_Some (T !! r) -> ents N T -∗ (ents N T -∗ Φ tt) -∗
  wps (upd (Some (nd N r)) (set_toward a b c d)) Φ.
Proof. apply wps_touch_ent. by intros ? []. Qed.

Lemma wps_set_rp_flag N T r Φ : is_Some (T !! r) -> ents N T -∗ (ents N T -∗ Φ tt) -∗
  wps (upd (Some (nd N r)) (flag_on MRTF_RP)) Φ.
Proof.
  intros H. apply wps_touch_ent; [|done]. intros e []; try done. cbn. by rw what_on w_on_rp.
Qed.

(** ** [VOIF_COPY] *)

Lemma copy_prefix n (a b : list Z) : (n <= length a)%nat -> (n <= length b)%nat ->
  exists c d, slice a 0 (Z.of_nat n) = Some c /\ store b 0 c = Some d /\ length d = length b.
Proof.
  intros Ha Hb. unfold slice. rw decide_True; [|unfold zlen; lia]. eexists _.
  set (c := take _ _). assert (Lc : length c = n) by (unfold c; rw length_take length_drop; lia).
  assert (store b 0 c = Some (take 0 b ++ c ++ drop (0 + length c) b)) as E.
  { apply store_Some; [done|]. unfold zlen. lia. }
  exists (take 0 b ++ c ++ drop (0 + length c) b). split_and!; [done|exact E|]. rw !length_app length_take length_drop Lc. lia.
Qed.

Lemma wps_VOIF_COPY i j w w' Φ : (length (uvifs pim_start) <= n_timers)%nat ->
  w_timers w = n_timers -> w_delays w = n_timers -> w_timers w' = n_timers -> w_delays w' = n_timers ->
  i ↦[Fmo] What w -∗ j ↦[Fmo] What w' -∗ (i ↦[Fmo] What w -∗ j ↦[Fmo] What w' -∗ Φ tt) -∗
  wps (VOIF_COPY (Some i) (Some j)) Φ.
Proof.
  iIntros (Hv E1 E2 E3 E4) "O O' W". unfold VOIF_COPY. iApply wps_get. iIntros (s He). rw (e_uvifs _ _ _ _ He).
  wload "O" as f Ef. wload "O'" as t Et. cbn in Ef, Et. injection Ef as Ef. injection Et as Et.
  assert (L1 : length (m_vif_timers f) = n_timers) by by rewrite <- E1, <- Ef.
  assert (L2 : length (m_vif_deletion_delay f) = n_timers) by by rewrite <- E2, <- Ef.
  assert (L3 : length (m_vif_timers t) = n_timers) by by rewrite <- E3, <- Et.
  assert (L4 : length (m_vif_deletion_delay t) = n_timers) by by rewrite <- E4, <- Et.
  destruct (copy_prefix (length (uvifs pim_start)) (m_vif_timers f) (m_vif_timers t)) as (ft & tt' & A1 & A2 & A3); [lia|lia|].
  destruct (copy_prefix (length (uvifs pim_start)) (m_vif_deletion_delay f) (m_vif_deletion_delay t)) as (fd & td & B1 & B2 & B3); [lia|lia|].
  iApply wps_some; [exact A1|]. iApply wps_some; [exact B1|]. iApply wps_some; [exact A2|]. iApply wps_some; [exact B2|].
  iApply (wps_upd Fmo j (What w') (What w') with "O'"); [done| |].
  { intros e Ee. cbn in Ee. injection Ee as Ee. split; [|by intros []]. cbn. f_equal. f_equal. rewrite <- Ee.
    unfold what_of. cbn. f_equal.
    - rw A3 L3. by rewrite <- E3, <- Ee.
    - rw B3 L4. by rewrite <- E4, <- Ee. }
  iIntros "O'". iApply ("W" with "O O'").
Qed.

Lemma wps_copy_oifs N T r r' Φ : (length (uvifs pim_start) <= n_timers)%nat -> r <> r' -> is_Some (T !! r) -> is_Some (T !! r') ->
  ents N T -∗ (ents N T -∗ Φ tt) -∗ wps (VOIF_COPY (Some (nd N r)) (Some (nd N r'))) Φ.
Proof.
  iIntros (Hv Hne [new Hr] [new' Hr']) "E W". iDestruct (ents_two N T r r' with "E") as "(A & A' & E)"; [done|done|done|].
  iDestruct (ent_open with "A") as (w) "(%Hw & O & K & A)". iDestruct (ent_open with "A'") as (w') "(%Hw' & O' & K' & A')".
  iApply (wps_VOIF_COPY with "O O'"); [done|apply Hw|apply Hw|apply Hw'|apply Hw'|]. iIntros "O O'". iApply "W".
  iApply ("E" with "(A O K) (A' O' K')").
Qed.

(** ** The (star,G) entry *)

Lemma lookup_add_route T r r' : is_Some (add_route r T !! r') <-> r' = r \/ is_Some (T !! r').
Proof.
  unfold add_route. destruct (T !! r) as [b|] eqn:E.
  - split; [by right|]. intros [->|?]; [by rw E|done].
  - destruct (decide (r' = r)) as [->|Hne]; [rw lookup_insert_eq; split; [by left|done]|].
    rw lookup_insert_ne; [|done]. split; [by right|by intros [?|?]].
Qed.

Lemma lookup_add_other T r r' : r' <> r -> add_route r T !! r' = T !! r'.
Proof. intros H. unfold add_route. destruct (T !! r); [done|]. by rw lookup_insert_ne. Qed.

Lemma consistent_add_wc T B X Y g : consistent T B X Y -> g ∈ Y -> is_Some (B !! g) -> consistent (add_route (WC g) T) B X Y.
Proof.
  intros (C1 & C2 & C3 & C4 & C5) Hg HB. split_and!; [| | |done|done].
  - intros a x [?|H]%lookup_add_route; [done|by apply C1].
  - intros x [[= ->]|H]%lookup_add_route; [done|by apply C2].
  - intros a [?|H]%lookup_add_route; [done|by apply C3].
Qed.
Lemma consistent_add_sg T B X Y a g : consistent T B X Y -> a ∈ X -> g ∈ Y ->
  SSMGROUP pim_start g = true \/ is_Some (B !! g) -> consistent (add_route (SG a g) T) B X Y.
Proof.
  intros (C1 & C2 & C3 & C4 & C5) Ha Hg HB. split_and!; [| | |done|done].
  - intros x y [[= -> ->]|H]%lookup_add_route; [done|by apply C1].
  - intros x [?|H]%lookup_add_route; [done|by apply C2].
  - intros x [?|H]%lookup_add_route; [done|by apply C3].
Qed.
Lemma consistent_add_rp T B X Y a i : consistent T B X Y -> rp_at a i -> consistent (add_route (RP a) T) B X Y.
Proof.
  intros (C1 & C2 & C3 & C4 & C5) Ha. split_and!; [| | |done|done].
  - intros x y [?|H]%lookup_add_route; [done|by apply C1].
  - intros x [?|H]%lookup_add_route; [done|by apply C2].
  - intros x [[= ->]|H]%lookup_add_route; [by exists i|by apply C3].
Qed.

Definition with_nd N nd' := mkNodes (sn N) (gn N) nd'.

Lemma srcs_with_nd N T T' X nd' : (forall r, is_Some (T !! r) -> nd' r = nd N r) ->
  (forall a g, is_Some (T' !! SG a g) <-> is_Some (T !! SG a g)) -> srcs_rep N T X ⊢ srcs_rep (with_nd N nd') T' X.
Proof. intros H1 H2. apply srcs_ext; [done|intros a g _; apply H2|intros a g _; apply H1]. Qed.

Lemma rp_ents_with_nd N T T' nd' : (forall r, is_Some (T !! r) -> nd' r = nd N r) ->
  (forall a, is_Some (T' !! RP a) <-> is_Some (T !! RP a)) -> rp_ents N T ⊢ rp_ents (with_nd N nd') T'.
Proof. intros H1 H2. apply rp_ents_ext. intros a. by apply route_ptr_ext; [|apply H1]. Qed.

Lemma grps_with_nd N T T' B Y nd' : (forall r, is_Some (T !! r) -> nd' r = nd N r) ->
  (forall a g, is_Some (T' !! SG a g) <-> is_Some (T !! SG a g)) ->
  (forall g, is_Some (T' !! WC g) <-> is_Some (T !! WC g)) -> grps_rep N T B Y ⊢ grps_rep (with_nd N nd') T' B Y.
Proof.
  intros H1 H2 H3. apply grps_ext; [|intros a g _; apply H2|intros a g _; apply H1].
  intros g _. split_and!; [done|done|]. by apply route_ptr_ext; [|apply H1].
Qed.

(** The new (star,G) entry is filled in. *)
Lemma wps_setup_wc N T B X Y g a i Φ : world -> consistent T B X Y -> is_Some (T !! WC g) -> rp_at a i -> rep N T B X Y -∗
  (rep N T B X Y -∗ Φ tt) -∗
  wps (let! e := src (Some i) in
       do! match s_mrtlink e with
           | Some _ => VOIF_COPY (s_mrtlink e) (Some (nd N (WC g)))
           | None => ret tt
           end ;;
       do! upd (Some (nd N (WC g))) (set_toward (s_incoming e) (s_upstream e) (s_metric e) (s_preference e)) ;;
       move_kernel_cache (Some (nd N (WC g))) 0) Φ.
Proof.
  iIntros (Hw Hc Ht Hi) "(S & G & C & E & R) W". destruct Hw as [Hok _ Hv].
  iDestruct (rp_ents_open with "R") as "[Cm R]"; [done|done|]. wload "Cm" as e Ee. cbn in Ee. injection Ee as ->.
  iDestruct ("R" $! N T with "[] Cm") as "R"; [done|].
  iApply (wps_bind_mono _ _ _ (fun _ => ents N T) with "[E]").
  { unfold route_ptr. destruct (T !! RP a) as [new|] eqn:Hr; [|by iApply wps_ret].
    iApply (wps_copy_oifs with "E"); [done|done|by rw Hr|done|by iIntros]. }
  iIntros (_) "E". iApply wps_bind. iApply (wps_set_toward with "E"); [done|]. iIntros "E". destruct Ht as [new Ht].
  iApply (wps_move_kernel_cache with "[$S $G $R] E"); [done|done|done|]. iIntros "(S & G & R) E". iApply "W". iFrame.
Qed.

Lemma wps_wc_route junk N T B X Y g a i Φ : world -> consistent T B X Y -> g ∈ Y -> is_Some (B !! g) -> rp_at a i ->
  rep N T B X Y -∗
  (∀ nd', ⌜consistent (add_route (WC g) T) B X Y⌝ -∗ rep (with_nd N nd') (add_route (WC g) T) B X Y -∗ Φ (Some (nd' (WC g)))) -∗
  wps (wc_route junk (Some (gn N g)) (Some i)) Φ.
Proof.
  iIntros (Hw Hc Hg HB Hi) "(S & G & C & E & R) W". unfold wc_route. iApply wps_bind.
  iApply (wps_create_wc with "G E"); [done|]. iIntros (nd' Hnd) "G E". fold (with_nd N nd').
  iDestruct (srcs_with_nd N T (add_route (WC g) T) X nd' with "S") as "S"; [done|intros; by rw lookup_add_other|].
  iDestruct (rp_ents_with_nd N T (add_route (WC g) T) nd' with "R") as "R"; [done|intros; by rw lookup_add_other|].
  iDestruct (chains_ext N (with_nd N nd') with "C") as "C"; [done|].
  pose proof (consistent_add_wc T B X Y g Hc Hg HB) as Hc'. set (T' := add_route (WC g) T) in *.
  assert (Ht : is_Some (T' !! WC g)) by (apply lookup_add_route; by left). destruct Ht as [new Ht].
  iApply wps_bind. iApply (wps_load_ent (with_nd N nd') with "E"); [done|]. iIntros (m Hm) "E".
  iApply (wps_bind_mono _ _ _ (fun _ => rep (with_nd N nd') T' B X Y) with "[S G C E R]").
  - destruct (has (m_flags m) MRTF_NEW); [|iApply wps_ret; iFrame].
    iApply (wps_setup_wc (with_nd N nd') T' B X Y g a i with "[$S $G $C $E $R]"); [done|done|by rw Ht|done|by iIntros].
  - iIntros (_) "R". iApply wps_ret. by iApply "W".
Qed.
End Find.
