(* ===== verification/MrtRoute.v ===== *)
(** * MrtRoute: [find_route] makes the routes that [spec_find] says *)

From stdpp Require Import sorting functions.
From iris.proofmode Require Import proofmode.
From iris.base_logic.lib Require Import iprop own ghost_map.
From S2P Require Import Prelude Inet6 Links Pim RpMatch Vif Mrt PimLogic MrtSpec MrtTable MrtCreate MrtRp MrtDelete MrtDrop MrtCache MrtFind.
Open Scope Z_scope.

Section Route.
Context `{!pimG Σ}.
Implicit Types (N : nodes) (T : table) (B : bound) (X Y : gset sockaddr_in6) (w : what).

(** What a call of [find_route] leaves and answers. *)
Definition gives (rT : option route * table) (Φ : ptr -> iProp Σ) : iProp Σ :=
  ∀ N B X Y, ⌜consistent rT.2 B X Y /\ match rT.1 with Some r => is_Some (rT.2 !! r) | None => True end⌝ -∗
    rep N rT.2 B X Y -∗ Φ (nd N <$> rT.1).

Lemma gives_none T Φ : gives (None, T) Φ -∗ table_rep T -∗ Φ None.
Proof. iIntros "W (%N & %B & %X & %Y & %Hc & R)". by iApply ("W" $! N with "[] R"). Qed.

Lemma has_sg_iff g T : ~ has_sg g T <-> forall a, T !! SG a g = None.
Proof.
  split.
  - intros H a. destruct (T !! SG a g) as [b|] eqn:E; [|done]. exfalso. apply H. by exists (SG a g), b.
  - intros H ([a x|x|x] & b & E & Hx); [|done|done]. subst x. by rw H in E.
Qed.

(** ** A source that cannot be reached *)

Definition undone g T : table := if decide (T !! WC g <> Some false /\ ~ has_sg g T) then delete (WC g) T else T.

Lemma wps_undo_group N T B X Y g Φ : consistent T B X Y -> g ∈ Y -> rep N T B X Y -∗
  (table_rep (undone g T) -∗ Φ tt) -∗ wps (undo_group (Some (gn N g))) Φ.
Proof.
  iIntros (Hc Hg) "(S & G & C & E & R) W". unfold undo_group. iApply wps_bind. iApply (wps_load_group with "G"); [done|].
  iIntros (e (Ew & _ & Em)) "G". rw Ew.
  iApply (wps_bind_mono _ _ _ (fun new => ⌜new = true <-> T !! WC g <> Some false⌝ ∗ ents N T)%I with "[E]").
  { unfold route_ptr. destruct (T !! WC g) as [b|] eqn:Ht.
    - iApply wps_bind. iApply (wps_load_ent with "E"); [done|]. iIntros (m Hm) "E". iApply wps_ret. iFrame. iPureIntro.
      destruct Hm as (Hn & _). cbn in Hn. rw Hn. by destruct b.
    - iApply wps_ret. iFrame. by iPureIntro. }
  iIntros (new) "[%Hn E]". unfold undone.
  destruct (decide (new = true /\ g_mrtlink e = None)) as [[D1 D2]|D].
  - rw Hn in D1. rw Em in D2. rw decide_True; [|split; [done|by apply has_sg_iff]].
    assert (Et : without (of_group g) T = delete (WC g) T).
    { rewrite <- (without_delete (of_group g) T (WC g)) by (cbn; by rw bool_decide_true). apply no_group_routes.
      - intros a. by rw lookup_delete_ne.
      - by rw lookup_delete_eq. }
    iApply (wps_delete_group with "[$S $G $C $E $R]"); [done|done|]. by rw Et.
  - rw decide_False; [|rw -Hn has_sg_iff -Em; tauto]. iApply wps_ret. iApply "W". iExists N, B, X, Y. iSplit; [done|]. iFrame.
Qed.

(** ** What a new (S,G) entry copies *)

Lemma wps_oif_source N T0 T B X Y g Φ : world -> consistent T0 B X Y -> g ∈ Y -> is_Some (group_rp pim_start g) ->
  (T !! WC g = None <-> T0 !! WC g = None) -> rp_infos -∗ rep N T B X Y -∗
  (∀ B' r, ⌜consistent T0 B' X Y /\ is_Some (B' !! g) /\ match r with SG _ _ => False | _ => True end⌝ -∗
     rep N T B' X Y -∗ Φ (route_ptr N T r)) -∗
  wps (oif_source (Some (gn N g)) g) Φ.
Proof.
  iIntros (Hw Hc Hg [a0 Ha0] Hwc) "#I (S & G & C & E & R) W". destruct Hw as [Hok _ _]. unfold oif_source.
  iApply wps_bind. iApply (wps_load_group with "G"); [done|]. iIntros (e (Ew & Ex & _)) "G". rw Ew.
  destruct (route_ptr N T (WC g)) as [j|] eqn:Ej.
  - iApply wps_ret. rewrite <- Ej. iApply ("W" $! B (WC g) with "[] [$S $G $C $E $R]"). iPureIntro. split_and!; [done| |done].
    destruct (T0 !! WC g) as [b|] eqn:E0; [apply (proj1 (proj2 Hc) g); by rw E0|].
    exfalso. pose proof (proj2 Hwc eq_refl) as Hn. apply (route_none N) in Hn. congruence.
  - rw Ex. destruct (B !! g) as [r|] eqn:HB.
    + destruct (bound_group_rp B Y g r) as (a & i & Hl & _); [apply Hc|done|].
      iApply (wps_rp_route with "G R"); [done|done|done|done|]. iIntros "G R".
      iApply ("W" $! B (RP a) with "[] [$S $G $C $E $R]"). iPureIntro. split_and!; [done|by rw HB|done].
    + iApply wps_bind. iApply (wps_rp_grp_match with "I"); [done|]. iIntros (rg Hrg) "_". unfold rp_entry_for in Hrg.
      rw Ha0 in Hrg. destruct Hrg as (r & i & -> & Hl). iApply wps_bind.
      iApply (wps_bind_rp with "I G C"); [done|done|done|]. iIntros "G C".
      assert (rp_at a0 i) as Hi by (by destruct Hl as (? & ? & _ & _ & _ & ?)).
      iApply (wps_load_mrtlink with "R"); [done|done|]. iIntros "R". iApply wps_ret.
      iApply ("W" $! _ (RP a0) with "[] [$S $G $C $E $R]"). iPureIntro.
      split_and!; [by eapply consistent_bind|by rw lookup_insert_eq|done].
Qed.

Lemma wps_setup_sg N T0 B X Y a g flags Φ : world -> consistent T0 B X Y -> a ∈ X -> g ∈ Y ->
  (SSMGROUP pim_start g = true \/ is_Some (group_rp pim_start g)) -> rp_infos -∗ rep N (add_route (SG a g) T0) B X Y -∗
  (∀ B', ⌜consistent (add_route (SG a g) T0) B' X Y⌝ -∗ rep N (add_route (SG a g) T0) B' X Y -∗ Φ tt) -∗
  wps (setup_sg (Some (nd N (SG a g))) (Some (gn N g)) (Some (sn N a)) a g flags) Φ.
Proof.
  iIntros (Hw Hc Ha Hg Hrp) "#I R W". set (T := add_route (SG a g) T0).
  assert (Hs : is_Some (T !! SG a g)) by (apply lookup_add_route; by left). destruct Hs as [new Hs].
  unfold setup_sg. iApply wps_get. iIntros (s He).
  assert (Ess : SSMGROUP s g = SSMGROUP pim_start g) by (unfold SSMGROUP; by rw (e_ssmp _ _ _ _ He) (e_ssmm _ _ _ _ He)).
  rw Ess. iApply (wps_bind_mono _ _ _ (fun _ => ∃ B', ⌜consistent T B' X Y⌝ ∗ rep N T B' X Y)%I with "[R]").
  - destruct (SSMGROUP pim_start g) eqn:Hssm.
    { iApply wps_ret. iExists B. iFrame. iPureIntro. apply consistent_add_sg; [done|done|done|]. by left. }
    destruct Hrp as [?|Hrp]; [done|]. iApply wps_bind.
    iApply (wps_oif_source N T0 with "I R"); [done|done|done|done|unfold T; by rw lookup_add_other|].
    iIntros (B' r (Hc' & HB & Hr)) "R".
    assert (Hc2 : consistent T B' X Y) by (apply consistent_add_sg; [done|done|done|by right]).
    unfold route_ptr. destruct (T !! r) as [new'|] eqn:Ht; [|iApply wps_ret; iExists B'; by iFrame].
    iDestruct "R" as "(S & G & C & E & R)". iApply wps_bind.
    iApply (wps_copy_oifs with "E"); [apply Hw|by destruct r|by rw Ht|by rw Hs|]. iIntros "E".
    destruct (has flags MRTF_RP); [|iApply wps_ret; iExists B'; by iFrame].
    iApply wps_bind. iApply (wps_load_ent with "E"); [done|]. iIntros (m2 _) "E".
    iApply wps_bind. iApply (wps_set_toward with "E"); [by rw Hs|]. iIntros "E".
    iApply (wps_set_rp_flag with "E"); [by rw Hs|]. iIntros "E". iExists B'. by iFrame.
  - iIntros (_) "(%B' & %Hc' & S & G & C & E & R)". iApply wps_bind. iApply (wps_load_ent with "E"); [done|]. iIntros (m _) "E".
    iApply (wps_bind_mono _ _ _ (fun _ => srcs_rep N T X ∗ ents N T)%I with "[S E]").
    { destruct (negb (has (m_flags m) MRTF_RP)); [|iApply wps_ret; iFrame].
      iApply wps_bind. iApply (wps_load_source with "S"); [done|]. iIntros (e _) "S".
      iApply (wps_set_toward with "E"); [by rw Hs|]. iIntros "E". iFrame. }
    iIntros (_) "[S E]". iApply wps_bind. iApply (wps_move_kernel_cache with "[$S $G $R] E"); [apply Hw|done|done|].
    iIntros "R E". iApply wps_bind. iApply (wps_load_ent with "E"); [done|]. iIntros (m' _) "E".
    destruct (negb (has (m_flags m') (Z.lor MRTF_RP MRTF_KERNEL_CACHE))).
    + iApply (wps_add_kernel_cache with "R E"); [apply Hw|done|done|]. iIntros "(S & G & R) E". iApply ("W" $! B'); [done|]. iFrame.
    + iApply wps_ret. iDestruct "R" as "(S & G & R)". iApply ("W" $! B'); [done|]. iFrame.
Qed.

(** ** The (S,G) entry *)

Lemma consistent_add_source T B X Y a : consistent T B X Y -> source_ok pim_start a = true -> consistent T B ({[a]} ∪ X) Y.
Proof.
  intros (C1 & C2 & C3 & C4 & C5) Ha. split_and!; [|done|done|done|].
  - intros x g H%C1. set_solver.
  - intros x [->%elem_of_singleton|Hx]%elem_of_union; [done|by apply C5].
Qed.

Definition with_sn N sn' := mkNodes sn' (gn N) (nd N).

Lemma ents_with_sn N T B X Y sn' : consistent T B X Y -> (forall x, x ∈ X -> sn' x = sn N x) -> ents N T ⊢ ents (with_sn N sn') T.
Proof.
  intros Hc H. apply ents_ext. intros [a g|g|a] Hr; split; try done. split; [|done]. apply H. by apply (proj1 Hc) in Hr as (? & _).
Qed.

Lemma wps_sg_route junk N T B X Y a g flags Φ : world -> consistent T B X Y -> g ∈ Y -> sa_ok a -> sa_ok g ->
  (SSMGROUP pim_start g = true \/ is_Some (group_rp pim_start g)) -> rp_infos -∗ rep N T B X Y -∗
  gives (spec_create_sg pim_start T a g) Φ -∗
  wps (sg_route junk (Some (gn N g)) a g flags) Φ.
Proof.
  iIntros (Hw Hc Hg Oa Og Hrp) "#I (S & G & C & E & R) W". unfold sg_route. iApply wps_bind.
  iApply (wps_create_srcentry with "S"); [apply Hw|done|apply Hc| |].
  { intros Hx g'. destruct (T !! SG a g') eqn:Et; [|done]. exfalso. apply Hx. apply (proj1 Hc a g'). by rw Et. }
  iIntros (sn' Hsn) "S". unfold spec_create_sg. destruct (source_ok pim_start a) eqn:Hso.
  2: { iApply wps_bind. iApply (wps_undo_group with "[$S $G $C $E $R]"); [done|done|]. iIntros "T". iApply wps_ret.
       by iApply (gives_none with "W"). }
  set (N1 := with_sn N sn'). set (X1 := {[a]} ∪ X).
  assert (Hc1 : consistent T B X1 Y) by by apply consistent_add_source.
  iDestruct (ents_with_sn N T B X Y sn' with "E") as "E"; [done|done|]. fold N1.
  iDestruct (grps_ext N N1 T T B B with "G") as "G"; [done|done|done|].
  iDestruct (chains_ext N N1 with "C") as "C"; [done|]. iDestruct (rp_ents_ext N N1 T T with "R") as "R"; [done|].
  iApply wps_bind.
  iApply (wps_create_sg junk N1 T B X1 Y a g with "S G E"); [set_solver|done|done|done| | |].
  { intros x Hx. by apply (proj1 Hc1) in Hx as (? & _). }
  { intros x Hx. by apply (proj1 Hc1) in Hx as (_ & ? & _). }
  iIntros (nd' Hnd) "S G E". fold (with_nd N1 nd'). set (N2 := with_nd N1 nd'). set (T' := add_route (SG a g) T).
  iDestruct (chains_ext N1 N2 with "C") as "C"; [done|].
  iDestruct (rp_ents_with_nd N1 T T' nd' with "R") as "R"; [done|intros; unfold T'; by rw lookup_add_other|]. fold N2.
  assert (Hs : is_Some (T' !! SG a g)) by (apply lookup_add_route; by left). assert (Hs' := Hs). destruct Hs' as [new Hs'].
  iApply wps_bind. iApply (wps_load_ent N2 with "E"); [done|]. iIntros (m Hm) "E".
  iApply (wps_bind_mono _ _ _ (fun _ => ∃ B', ⌜consistent T' B' X1 Y⌝ ∗ rep N2 T' B' X1 Y)%I with "[S G C E R]").
  - destruct (has (m_flags m) MRTF_NEW) eqn:Hnew.
    + iApply (wps_setup_sg N2 T B X1 Y a g with "I [$S $G $C $E $R]"); [done|done|set_solver|done|done|].
      iIntros (B') "%Hc' R". iExists B'. by iFrame.
    + iApply wps_ret. iExists B. iFrame. iPureIntro.
      assert (is_Some (T !! SG a g)) as Hold.
      { destruct (T !! SG a g) eqn:Et; [done|]. exfalso. unfold T' in Hs'. rw lookup_add in Hs'; [|done].
        rw lookup_insert_eq in Hs'. injection Hs' as <-. destruct Hm as (Hn & _). cbn in Hn. congruence. }
      apply consistent_add_sg; [done|set_solver|done|by apply (proj1 Hc) in Hold as (_ & _ & ?)].
  - iIntros (_) "(%B' & %Hc' & R)". iApply wps_ret. iApply ("W" $! N2 B' X1 Y with "[] R"). by iPureIntro.
Qed.

(** ** The (star,star,RP) entry *)

Lemma rp_at_unique a i j : rps_ok pim_start -> rp_at a i -> rp_at a j -> i = j.
Proof. intros Hok (e & Ei & Ea) (e' & Ej & Ea'). eapply (ro_distinct _ Hok); [done|done|congruence]. Qed.

Lemma wps_pmbr_route junk N T B X Y source group Φ : world -> consistent T B X Y -> rp_infos -∗ rep N T B X Y -∗
  gives (match request_rp pim_start source group with Some a => (Some (RP a), add_route (RP a) T) | None => (None, T) end) Φ -∗
  wps (pmbr_route junk source group) Φ.
Proof.
  iIntros (Hw Hc) "#I (S & G & C & E & R) W". unfold pmbr_route. assert (Hok : rps_ok pim_start) by apply Hw.
  iApply wps_bind. iApply (wps_request_rp with "I"); [done|]. iIntros (p Hp) "_". unfold rp_is in Hp.
  destruct (request_rp pim_start source group) as [a|].
  2: { rw Hp. iApply wps_ret. iApply ("W" $! N with "[] [$S $G $C $E $R]"). by iPureIntro. }
  destruct Hp as (i & -> & Hi). pose proof (consistent_add_rp T B X Y a i Hc Hi) as Hc'.
  iDestruct (rp_ents_open with "R") as "[Cm R]"; [done|done|]. wload "Cm" as e Ee. cbn in Ee. injection Ee as Em.
  iDestruct ("R" $! N T with "[] Cm") as "R"; [done|]. rw Em. unfold route_ptr. destruct (T !! RP a) as [new|] eqn:Ht.
  - iApply wps_ret. assert (Et : add_route (RP a) T = T) by (unfold add_route; by rw Ht). rw Et.
    iApply ("W" $! N with "[] [$S $G $C $E $R]"). iPureIntro. split; [done|]. cbn. by rw Ht.
  - iApply wps_bind. iApply (wps_create_rp with "R E"); [intros; by eapply rp_at_unique|done|].
    iIntros (nd' Hnd) "R E". fold (with_nd N nd'). set (T' := add_route (RP a) T).
    iDestruct (srcs_with_nd N T T' X nd' with "S") as "S"; [done|intros; unfold T'; by rw lookup_add_other|].
    iDestruct (grps_with_nd N T T' B Y nd' with "G") as "G"; [done|intros; unfold T'; by rw lookup_add_other|intros; unfold T'; by rw lookup_add_other|].
    iDestruct (chains_ext N (with_nd N nd') with "C") as "C"; [done|].
    assert (Hs : is_Some (T' !! RP a)) by (apply lookup_add_route; by left).
    iApply wps_bind. iApply (wps_set_toward _ _ _ _ (with_nd N nd') with "E"); [done|]. iIntros "E". iApply wps_ret.
    iApply ("W" $! (with_nd N nd') with "[] [$S $G $C $E $R]"). by iPureIntro.
Qed.
End Route.
