(* ===== verification/MrtServe.v ===== *)
(** * MrtServe: the requests of the daemon

    [find_route] does what [spec_find] says, and every request what [spec_step]
    says. *)

From stdpp Require Import sorting functions.
From iris.proofmode Require Import proofmode.
From iris.base_logic.lib Require Import iprop own ghost_map.
From S2P Require Import Prelude Inet6 Links Pim RpMatch Vif Mrt PimLogic MrtSpec MrtTable MrtCreate MrtRp MrtDelete MrtDrop MrtCache MrtFind MrtRoute.
Open Scope Z_scope.

Lemma has_lor x a b : has x (Z.lor a b) = has x a || has x b.
Proof.
  unfold has. rw Z.land_lor_distr_r. apply eq_true_iff_eq. rw orb_true_iff !negb_true_iff !Z.eqb_neq Z.lor_eq_0_iff.
  destruct (decide (Z.land x a = 0)); tauto.
Qed.

Section Serve.
Context `{!pimG Σ}.
Implicit Types (N : nodes) (T : table) (B : bound) (X Y : gset sockaddr_in6) (w : what).

(** ** The search *)

Definition found_route T (r : route) : option route := match T !! r with Some _ => Some r | None => None end.

Lemma route_ptr_found N T r : route_ptr N T r = nd N <$> found_route T r.
Proof. unfold route_ptr, found_route. by destruct (T !! r). Qed.

Definition spec_rp T source group flags : option route :=
  if has flags MRTF_PMBR then request_rp pim_start source group ≫= fun a => found_route T (RP a) else None.

Lemma wps_rp_route_of N T B X Y source group Φ : world -> rp_infos -∗ rep N T B X Y -∗
  (rep N T B X Y -∗ Φ (nd N <$> (request_rp pim_start source group ≫= fun a => found_route T (RP a)))) -∗
  wps (let! rpentry_ptr := match group, source with
                           | Some group, _ => rp_match group
                           | None, Some source => rp_find source
                           | None, None => ret None
                           end in
       match rpentry_ptr with
       | Some _ => let! e := src rpentry_ptr in ret (s_mrtlink e)
       | None => ret None
       end) Φ.
Proof.
  iIntros (Hw) "#I (S & G & C & E & R) W". assert (Hok : rps_ok pim_start) by apply Hw. iApply wps_bind.
  iApply (wps_request_rp with "I"); [done|]. iIntros (p Hp) "_". unfold rp_is in Hp.
  destruct (request_rp pim_start source group) as [a|].
  - destruct Hp as (i & -> & Hi). iApply (wps_load_mrtlink with "R"); [done|done|]. iIntros "R". iApply wps_ret.
    cbn. rw route_ptr_found. iApply ("W" with "[$S $G $C $E $R]").
  - rw Hp. iApply wps_ret. iApply ("W" with "[$S $G $C $E $R]").
Qed.

Lemma wps_spec_rp N T B X Y source group flags Φ : world -> rp_infos -∗ rep N T B X Y -∗
  (rep N T B X Y -∗ Φ (nd N <$> spec_rp T source group flags)) -∗
  wps (if has flags MRTF_PMBR then
         let! rpentry_ptr := match group, source with
                             | Some group, _ => rp_match group
                             | None, Some source => rp_find source
                             | None, None => ret None
                             end in
         match rpentry_ptr with
         | Some _ => let! e := src rpentry_ptr in ret (s_mrtlink e)
         | None => ret None
         end
       else ret None) Φ.
Proof.
  iIntros (Hw) "#I R W". unfold spec_rp. destruct (has flags MRTF_PMBR); [|iApply wps_ret; by iApply "W"].
  by iApply (wps_rp_route_of with "I R").
Qed.

(** [search_grplist] and [search_grpmrtlink] on the table. *)
Lemma wps_search_group N T B Y g Φ : sa_ok g -> grps_rep N T B Y -∗
  (∀ r, ⌜(g ∈ Y /\ r = (true, Some (gn N g))) \/ ((g ∉ Y) /\ r.1 = false)⌝ -∗ grps_rep N T B Y -∗ Φ r) -∗
  wps (search_grplist g) Φ.
Proof.
  iIntros (Hg) "[(%l & L & %Hl) G] W". iApply (wps_search_grplist with "L G"); [done|done|]. iIntros (r Hr) "L G".
  iApply ("W" with "[] [L G]").
  - iPureIntro. destruct Hr as [[Hi ->]|(l1 & l2 & -> & Hn & _ & ->)]; [left|right].
    + split; [by apply Hl|done].
    + split; [|done]. intros H. by apply Hn, Hl.
  - iFrame. done.
Qed.

Lemma wps_search_source N T X a Φ : sa_ok a -> srcs_rep N T X -∗
  (∀ r, ⌜(a ∈ X /\ r = (true, Some (sn N a))) \/ ((a ∉ X) /\ r.1 = false)⌝ -∗ srcs_rep N T X -∗ Φ r) -∗
  wps (search_srclist a) Φ.
Proof.
  iIntros (Hg) "[(%l & L & %Hl) G] W". iApply (wps_search_srclist with "L G"); [done|done|]. iIntros (r Hr) "L G".
  iApply ("W" with "[] [L G]").
  - iPureIntro. destruct Hr as [[Hi ->]|(l1 & l2 & -> & Hn & _ & ->)]; [left|right].
    + split; [by apply Hl|done].
    + split; [|done]. intros H. by apply Hn, Hl.
  - iFrame. done.
Qed.

Lemma wps_search_sg N T B X Y a g Φ : consistent T B X Y -> sa_ok a -> g ∈ Y -> rep N T B X Y -∗
  (∀ r, ⌜(is_Some (T !! SG a g) /\ r = (true, Some (nd N (SG a g)))) \/ (T !! SG a g = None /\ r.1 = false)⌝ -∗
     rep N T B X Y -∗ Φ r) -∗
  wps (search_grpmrtlink (Some (gn N g)) a) Φ.
Proof.
  iIntros (Hc Ha Hg) "(S & [LG G] & C & E & R) W".
  iDestruct (big_sepS_delete _ _ _ Hg with "G") as "[(%p & %l & Ga & Gm & Gl & %Hl & Gw & Gr) G]".
  iApply (wps_search_grpmrtlink N T g p l a (srcs_rep N T X) with "Gm Gl E S"); [done|done| |].
  { iIntros (s) "SI [_ S]". iDestruct (SI_sources with "SI S") as %Hs. iPureIntro. intros x Hx. apply Hs.
    apply Hl in Hx. by apply (proj1 Hc) in Hx as (? & _). }
  iIntros (r Hr) "Gm Gl E S". iApply ("W" with "[]").
  - iPureIntro. destruct Hr as [[Hi ->]|(l1 & l2 & -> & Hn & _ & ->)]; [left|right].
    + split; [by apply Hl|done].
    + split; [|done]. destruct (T !! SG a g) eqn:Et; [|done]. exfalso. apply Hn, Hl. by rw Et.
  - iFrame "S C E R LG". iApply big_sepS_delete; [exact Hg|]. iFrame "G". iExists p, l. by iFrame.
Qed.

Definition spec_sg T (source group : option sockaddr_in6) flags : option route :=
  if has flags MRTF_SG then match source, group with Some s, Some g => found_route T (SG s g) | _, _ => None end else None.
Definition spec_wc T (group : option sockaddr_in6) flags : option route :=
  if has flags MRTF_WC then match group with Some g => found_route T (WC g) | None => None end else None.

Lemma spec_lookup_eq T source group flags : spec_lookup pim_start T source group flags =
  match spec_sg T source group flags, spec_wc T group flags with
  | Some r, _ => Some r
  | None, Some r => Some r
  | None, None => spec_rp T source group flags
  end.
Proof. done. Qed.

Lemma found_in T r x : found_route T r = Some x -> is_Some (T !! x).
Proof. unfold found_route. destruct (T !! r) eqn:E; [|done]. intros [= <-]. by rw E. Qed.

Lemma spec_lookup_in T source group flags :
  match spec_lookup pim_start T source group flags with Some r => is_Some (T !! r) | None => True end.
Proof.
  destruct (spec_lookup pim_start T source group flags) as [r|] eqn:E; [|done]. rw spec_lookup_eq in E.
  destruct (spec_sg T source group flags) as [x|] eqn:E1; [injection E as ->|].
  { unfold spec_sg in E1. destruct (has flags MRTF_SG), source, group; try done. by apply found_in in E1. }
  destruct (spec_wc T group flags) as [x|] eqn:E2; [injection E as ->|].
  { unfold spec_wc in E2. destruct (has flags MRTF_WC), group; try done. by apply found_in in E2. }
  unfold spec_rp in E. destruct (has flags MRTF_PMBR); [|done]. apply bind_Some in E as (a & _ & E). by apply found_in in E.
Qed.

Lemma wps_existing_route N T B X Y source group flags Φ : world -> consistent T B X Y -> opt_ok source -> opt_ok group ->
  (has flags MRTF_SG || has flags MRTF_WC = true -> is_Some group) -> (has flags MRTF_SG = true -> is_Some source) ->
  rp_infos -∗ rep N T B X Y -∗
  (rep N T B X Y -∗ Φ (nd N <$> spec_lookup pim_start T source group flags)) -∗
  wps (existing_route source group flags) Φ.
Proof.
  iIntros (Hw Hc Hs Hg Hng Hns) "#I R W". unfold existing_route. rw spec_lookup_eq.
  rw has_lor. destruct (has flags MRTF_SG || has flags MRTF_WC) eqn:Hf.
  2: { apply orb_false_iff in Hf as [E1 E2]. unfold spec_sg, spec_wc. rw E1 E2. by iApply (wps_spec_rp with "I R"). }
  destruct (Hng eq_refl) as [g ->]. iApply wps_some; [done|]. iApply wps_bind. iDestruct "R" as "(S & G & R)".
  iApply (wps_search_group with "G"); [done|]. iIntros (r [[Hy ->]|[Hy Hr]]) "G".
  - cbn [negb].
    iApply (wps_bind_mono _ _ _ (fun p => ⌜p = nd N <$> spec_sg T source (Some g) flags⌝ ∗ rep N T B X Y)%I with "[S G R]").
    { unfold spec_sg. destruct (has flags MRTF_SG); [|iApply wps_ret; iFrame; done]. destruct (Hns eq_refl) as [a ->].
      iApply wps_some; [done|]. iApply wps_bind. iApply (wps_search_sg with "[$S $G $R]"); [done|done|done|].
      iIntros ([b p] Hr) "R". iApply wps_ret. iFrame. iPureIntro. unfold found_route.
      destruct Hr as [[[b' ->] [= -> ->]]|[-> Hr]]; [done|]. cbn in Hr. by subst b. }
    iIntros (p) "[-> R]". destruct (spec_sg T source (Some g) flags) as [r|]; [iApply wps_ret; by iApply "W"|].
    cbn [fmap option_fmap option_map]. iDestruct "R" as "(S & G & R)". iApply wps_bind.
    iApply (wps_load_route with "G"); [done|]. iIntros (e (Ew & _ & _)) "G". rw Ew. unfold spec_wc.
    destruct (has flags MRTF_WC).
    2: { destruct (decide _) as [[? _]|_]; [done|]. by iApply (wps_spec_rp N T B X Y source (Some g) with "I [$S $G $R]"). }
    unfold route_ptr, found_route. destruct (T !! WC g) as [b|]; (destruct (decide _) as [[_ D]|D]).
    + iApply wps_ret. iApply "W". iFrame.
    + exfalso. by apply D.
    + done.
    + by iApply (wps_spec_rp N T B X Y source (Some g) with "I [$S $G $R]").
  - destruct r as [b p]. cbn in Hr. subst b. cbn [negb].
    assert (Esg : spec_sg T source (Some g) flags = None).
    { unfold spec_sg, found_route. destruct (has flags MRTF_SG), source as [a|]; try done.
      destruct (T !! SG a g) eqn:Et; [|done]. exfalso. apply Hy. apply (proj1 Hc a g). by rw Et. }
    assert (Ewc : spec_wc T (Some g) flags = None).
    { unfold spec_wc, found_route. destruct (has flags MRTF_WC); [|done].
      destruct (T !! WC g) eqn:Et; [|done]. exfalso. apply Hy. apply (proj1 (proj2 Hc) g). by rw Et. }
    rw Esg Ewc. by iApply (wps_spec_rp N T B X Y source (Some g) flags with "I [$S $G $R]").
Qed.

(** ** Creation *)

(** The part of [find_route] behind the RP. *)
Definition spec_make T source group flags : option route * table :=
  let g := default (mkSa 0 in6addr_any) group in
  let s := default (mkSa 0 in6addr_any) source in
  let T := if has flags MRTF_WC then add_route (WC g) T else T in
  if has flags MRTF_SG then spec_create_sg pim_start T s g
  else if has flags MRTF_WC then (Some (WC g), T)
  else if has flags MRTF_PMBR then
    match request_rp pim_start source group with
    | Some a => (Some (RP a), add_route (RP a) T)
    | None => (None, T)
    end
  else (None, T).

Definition make_route junk (grpentry_ptr rpentry_ptr : ptr) source group flags : Cmd Pim ptr :=
  let! mrtentry_ptr_wc := (if has flags MRTF_WC then wc_route junk grpentry_ptr rpentry_ptr else ret None) in
  if decide (has flags MRTF_WC = true /\ (mrtentry_ptr_wc = None \/ has flags MRTF_SG = false)) then
    ret mrtentry_ptr_wc
  else if has flags MRTF_SG then
    chk! source := source in
    chk! group := group in
    sg_route junk grpentry_ptr source group flags
  else if has flags MRTF_PMBR then pmbr_route junk source group
  else ret None.

Lemma wps_make_route junk N T B X Y gp rp source group flags Φ : world -> consistent T B X Y ->
  opt_ok source -> opt_ok group ->
  (has flags MRTF_SG || has flags MRTF_WC = true -> exists g, group = Some g /\ g ∈ Y /\ gp = Some (gn N g)) ->
  (has flags MRTF_SG = true -> is_Some source /\
    from_option (fun g => SSMGROUP pim_start g = true \/ is_Some (group_rp pim_start g)) True group) ->
  (has flags MRTF_WC = true -> exists a i, rp = Some i /\ rp_at a i /\ from_option (fun g => is_Some (B !! g)) True group) ->
  rp_infos -∗ rep N T B X Y -∗ gives (spec_make T source group flags) Φ -∗
  wps (make_route junk gp rp source group flags) Φ.
Proof.
  iIntros (Hw Hc Os Og Hg Hsg Hwc) "#I R W". unfold make_route, spec_make.
  destruct (has flags MRTF_WC) eqn:Ewc.
  - destruct (Hg (orb_true_r _)) as (g & -> & Hy & ->). destruct (Hwc eq_refl) as (a & i & -> & Hi & HB).
    iApply wps_bind. iApply (wps_wc_route with "R"); [done|done|done|done|done|]. iIntros (nd' Hc') "R".
    destruct (has flags MRTF_SG) eqn:Esg; (destruct (decide _) as [[_ D]|D]).
    + by destruct D.
    + destruct (Hsg eq_refl) as [[s ->] Hrp]. iApply wps_some; [done|]. iApply wps_some; [done|].
      by iApply (wps_sg_route junk (with_nd N nd') with "I R").
    + iApply wps_ret. iApply ("W" $! (with_nd N nd') with "[] R"). iPureIntro. split; [done|].
      apply lookup_add_route. by left.
    + exfalso. apply D. split; [done|by right].
  - wret. destruct (decide _) as [[? _]|_]; [done|]. destruct (has flags MRTF_SG) eqn:Esg.
    + destruct (Hg eq_refl) as (g & -> & Hy & ->). destruct (Hsg eq_refl) as [[s ->] Hrp].
      iApply wps_some; [done|]. iApply wps_some; [done|]. by iApply (wps_sg_route with "I R").
    + destruct (has flags MRTF_PMBR).
      * by iApply (wps_pmbr_route with "I R").
      * iApply wps_ret. iApply ("W" $! N with "[] R"). by iPureIntro.
Qed.

Lemma consistent_add_group T B X Y g : consistent T B X Y -> consistent T B X ({[g]} ∪ Y).
Proof.
  intros (C1 & C2 & C3 & C4 & C5). split_and!; [| |done| |done].
  - intros x y (A1 & A2 & A3)%C1. split_and!; [done|set_solver|done].
  - intros y (A1 & A2)%C2. split; [set_solver|done].
  - intros y r (A1 & A2)%C4. split; [set_solver|done].
Qed.

(** The group is made first. *)
Lemma wps_make_group junk N T B X Y g Φ : consistent T B X Y -> sa_ok g -> rep N T B X Y -∗
  (∀ N', ⌜consistent T B X ({[g]} ∪ Y)⌝ -∗ rep N' T B X ({[g]} ∪ Y) -∗ Φ (Some (gn N' g))) -∗
  wps (create_grpentry junk g) Φ.
Proof.
  iIntros (Hc Hg) "(S & G & C & E & R) W". iApply (wps_create_grpentry with "G"); [done| |].
  { intros Hy. split_and!.
    - intros a. destruct (T !! SG a g) eqn:Et; [|done]. exfalso. apply Hy. apply (proj1 Hc a g). by rw Et.
    - destruct (T !! WC g) eqn:Et; [|done]. exfalso. apply Hy. apply (proj1 (proj2 Hc) g). by rw Et.
    - destruct (B !! g) as [r|] eqn:Et; [|done]. exfalso. apply Hy. destruct Hc as (_ & _ & _ & C4 & _). by apply C4 in Et as [? _]. }
  iIntros (gn' Hgn) "G". set (N' := mkNodes (sn N) gn' (nd N)).
  iApply ("W" $! N'); [iPureIntro; by apply consistent_add_group|].
  iSplitL "S"; [by iApply (srcs_ext with "S")|]. iFrame "G". iSplitL "C"; [|iSplitL "E"].
  - iApply (chains_ext with "C"). intros x [r Hr]. apply Hgn. destruct Hc as (_ & _ & _ & C4 & _). by apply C4 in Hr as [? _].
  - iApply (ents_ext with "E"). intros [a x|x|x] Hr; split; try done; [split; [done|]|]; apply Hgn.
    + by apply (proj1 Hc) in Hr as (_ & ? & _).
    + by apply (proj1 (proj2 Hc)) in Hr as (? & _).
  - by iApply (rp_ents_ext with "R").
Qed.

Definition needs_rp flags : bool := has flags (Z.lor MRTF_RP (Z.lor MRTF_WC MRTF_1ST)).

Lemma spec_create_eq T source group flags : spec_create pim_start T source group flags =
  let g := default (mkSa 0 in6addr_any) group in
  if needs_rp flags && negb (bool_decide (is_Some (group_rp pim_start g))) then (None, T)
  else if needs_rp flags && negb (from_option (usable_rp pim_start) false (group_rp pim_start g)) then (None, without (of_group g) T)
  else spec_make T source group flags.
Proof. done. Qed.

(** The routes of a group, with or without a look at its RP. *)
Lemma wps_make_in_group junk N T B X Y g source flags Φ : world -> find_ok pim_start source (Some g) flags true ->
  consistent T B X Y -> g ∈ Y -> rp_infos -∗ rep N T B X Y -∗ gives (spec_create pim_start T source (Some g) flags) Φ -∗
  wps (let! rpentry_ptr := (if needs_rp flags then route_rp (Some (gn N g)) (Some g) else ret None) in
       if decide (needs_rp flags = true /\ rpentry_ptr = None) then ret None else
       make_route junk (Some (gn N g)) rpentry_ptr source (Some g) flags) Φ.
Proof.
  iIntros (Hw (Os & Og & Hg & Hs & Hcr) Hc Hy) "#I R W". destruct (Hcr eq_refl) as (_ & _ & H3). rw spec_create_eq. cbn zeta.
  cbn [default from_option id]. assert (Hok : rps_ok pim_start) by apply Hw. destruct (needs_rp flags) eqn:Hn; cbn [andb].
  - iApply wps_bind. iApply (wps_route_rp with "I R"); [done|done|done|].
    destruct (group_rp pim_start g) as [a|] eqn:Ha.
    + rw bool_decide_true; [|done]. cbn [negb]. cbn [from_option]. destruct (usable_rp pim_start a); cbn [negb].
      * iIntros (B' i (Hc' & HB & Hi)) "R". destruct (decide _) as [[_ ?]|_]; [done|].
        iApply (wps_make_route with "I R W"); [done|done|done|done| | |].
        { intros _. by exists g. }
        { intros H. split; [by apply Hs|by apply H3]. }
        { intros _. by exists a, i. }
      * iIntros "T". destruct (decide _) as [_|D]; [|exfalso; by apply D]. iApply wps_ret. by iApply (gives_none with "W").
    + rw bool_decide_false; [|by intros []]. cbn [negb]. iIntros "T".
      destruct (decide _) as [_|D]; [|exfalso; by apply D]. iApply wps_ret. by iApply (gives_none with "W").
  - wret. destruct (decide _) as [[? _]|_]; [done|]. unfold needs_rp in Hn. rw (has_lor flags MRTF_RP) (has_lor flags MRTF_WC) in Hn.
    apply orb_false_iff in Hn as [_ [Hwc _]%orb_false_iff].
    iApply (wps_make_route with "I R W"); [done|done|done|done| | |].
    + intros _. by exists g.
    + intros H. split; [by apply Hs|by apply H3].
    + rw Hwc. done.
Qed.

Lemma wps_find_create junk T source group flags Φ : world ->
  find_ok pim_start source group flags true -> rp_infos -∗ table_rep T -∗ gives (spec_create pim_start T source group flags) Φ -∗
  wps (let! grpentry_ptr := (if has flags (Z.lor MRTF_RP (Z.lor MRTF_WC MRTF_SG)) then
                          chk! g := group in create_grpentry junk g
                        else ret junk) in
       if decide (has flags (Z.lor MRTF_RP (Z.lor MRTF_WC MRTF_SG)) = true /\ grpentry_ptr = None) then ret None else
       let! rpentry_ptr := (if needs_rp flags then route_rp grpentry_ptr group else ret None) in
       if decide (needs_rp flags = true /\ rpentry_ptr = None) then ret None else
       make_route junk grpentry_ptr rpentry_ptr source group flags) Φ.
Proof.
  iIntros (Hw Hf) "#I (%N & %B & %X & %Y & %Hc & R) W". assert (Hf' := Hf). destruct Hf' as (Os & Og & Hg & Hs & Hcr).
  destruct (Hcr eq_refl) as (H1 & H2 & H3). destruct (has flags (Z.lor MRTF_RP (Z.lor MRTF_WC MRTF_SG))) eqn:Hgrp.
  - assert (is_Some group) as [g ->].
    { rw (has_lor flags MRTF_RP) (has_lor flags MRTF_WC) in Hgrp. rw (has_lor flags MRTF_SG) in Hg. rw (has_lor flags MRTF_RP) in H1.
      destruct (has flags MRTF_RP); [by apply H1|]. cbn [orb] in Hgrp. rw orb_comm in Hgrp. by apply Hg. }
    iApply wps_bind. iApply wps_some; [done|]. iApply (wps_make_group with "R"); [done|done|]. iIntros (N' Hc') "R".
    destruct (decide _) as [[_ ?]|_]; [done|]. iApply (wps_make_in_group with "I R W"); [done|done|done|set_solver].
  - wret. destruct (decide _) as [[? _]|_]; [done|]. rw spec_create_eq.
    assert (Hfst : has flags MRTF_1ST = false).
    { destruct (has flags MRTF_1ST); [|done]. by specialize (H2 eq_refl). }
    rw (has_lor flags MRTF_RP) (has_lor flags MRTF_WC) in Hgrp. apply orb_false_iff in Hgrp as [Hrp [Hwc Hsg]%orb_false_iff].
    assert (Hn : needs_rp flags = false).
    { unfold needs_rp. by rw (has_lor flags MRTF_RP) (has_lor flags MRTF_WC) Hrp Hwc Hfst. }
    rw Hn. cbn [andb]. wret. destruct (decide _) as [[? _]|_]; [done|].
    iApply (wps_make_route with "I R W"); [done|done|done|done| | |].
    + rw Hsg Hwc. done.
    + rw Hsg. done.
    + rw Hwc. done.
Qed.

(** ** [find_route] *)

Lemma wps_find_route junk T source group flags create Φ : world -> find_ok pim_start source group flags create ->
  rp_infos -∗ table_rep T -∗ gives (spec_find pim_start T source group flags create) Φ -∗
  wps (find_route junk source group flags create) Φ.
Proof.
  iIntros (Hw Hf) "#I T W". assert (Hf' := Hf). destruct Hf' as (Os & Og & Hg & Hs & Hcr). unfold find_route, spec_find.
  iApply (wps_bind_mono _ _ _ (fun b => ⌜b = has flags (Z.lor MRTF_SG MRTF_WC) &&
    negb (from_option (fun g => IN6_IS_ADDR_MULTICAST (sin6_addr g)) false group)⌝)%I with "[]").
  { destruct (has flags (Z.lor MRTF_SG MRTF_WC)); [|by iApply wps_ret]. destruct (Hg eq_refl) as [g ->].
    iApply wps_some; [done|]. by iApply wps_ret. }
  iIntros (b ->). destruct (has flags (Z.lor MRTF_SG MRTF_WC) && _) eqn:E1.
  { iApply wps_ret. by iApply (gives_none with "W"). }
  iApply (wps_bind_mono _ _ _ (fun b => ⌜b = has flags MRTF_SG && negb (from_option inet6_valid_host false source)⌝)%I with "[]").
  { destruct (has flags MRTF_SG); [|by iApply wps_ret]. destruct (Hs eq_refl) as [a ->].
    iApply wps_some; [done|]. by iApply wps_ret. }
  iIntros (b ->). destruct (has flags MRTF_SG && _) eqn:E2.
  { iApply wps_ret. by iApply (gives_none with "W"). }
  destruct create; cbn [negb].
  - iApply (wps_find_create with "I T W"); [done|done].
  - iDestruct "T" as (N B X Y) "[%Hc R]". rw (has_lor flags MRTF_SG) in Hg.
    iApply (wps_existing_route with "I R"); [done|done|done|done|done|done|]. iIntros "R".
    iApply ("W" $! N with "[] R"). iPureIntro. split; [done|]. apply spec_lookup_in.
Qed.

(** ** The requests *)

Lemma wps_observe N T B X Y r Φ : consistent T B X Y -> match r with Some r => is_Some (T !! r) | None => True end ->
  rp_infos -∗ rep N T B X Y -∗ (rep N T B X Y -∗ Φ (seen T r)) -∗ wps (observe (nd N <$> r)) Φ.
Proof.
  iIntros (Hc Hr) "#I R W". destruct r as [r|]; [|iApply wps_ret; by iApply "W"]. destruct Hr as [new Ht].
  iDestruct "R" as "(S & G & C & E & R)". cbn [fmap option_fmap option_map]. unfold observe.
  iApply wps_bind. iApply (wps_load_ent with "E"); [done|]. iIntros (m (Hn & _ & _ & Hm)) "E".
  assert (Es : seen T (Some r) = Some (r, new)) by (unfold seen; cbn; by rw Ht). rw Es.
  cbn [what_of w_new] in Hn. rw Hn. destruct r as [a g|g|a]; cbn [what_of w_group w_source w_sg w_wc w_pm] in Hm.
  - destruct Hm as (-> & -> & -> & _). destruct (proj1 Hc a g) as (Ha & Hg & _); [by rw Ht|].
    iApply wps_bind. iApply (wps_load_source with "S"); [done|]. iIntros (e ->) "S".
    iApply wps_bind. iApply (wps_load_route with "G"); [done|]. iIntros (ge (_ & _ & ->)) "G".
    iApply wps_ret. iApply ("W" with "[$S $G $C $E $R]").
  - destruct Hm as (-> & -> & -> & _). destruct (proj1 (proj2 Hc) g) as (Hg & _); [by rw Ht|].
    iApply wps_bind. iApply (wps_load_route with "G"); [done|]. iIntros (ge (_ & _ & ->)) "G".
    iApply wps_ret. iApply ("W" with "[$S $G $C $E $R]").
  - destruct Hm as ((i & -> & Hi) & -> & -> & _). iApply wps_bind. iApply (wps_load_rp with "I"); [done|].
    iIntros (e e0 (_ & -> & _)). iApply wps_ret. iApply ("W" with "[$S $G $C $E $R]").
Qed.

(** A route is not new any more. *)
Lemma lookup_settle T r b r' : is_Some (T !! r) -> is_Some (<[r := b]> T !! r') <-> is_Some (T !! r').
Proof.
  intros H. destruct (decide (r' = r)) as [->|Hne]; [rw lookup_insert_eq; by split|by rw lookup_insert_ne].
Qed.

Lemma route_is_off N r new w : route_is N r new w -> route_is N r false (w_off MRTF_NEW w).
Proof.
  intros (_ & H2 & H3 & H4). unfold route_is. cbn. rw !andb_true_r andb_false_r. by split_and!.
Qed.

Lemma wps_settle N T B X Y r Φ : consistent T B X Y -> is_Some (T !! r) -> rep N T B X Y -∗
  (table_rep (<[r := false]> T) -∗ Φ tt) -∗ wps (upd (Some (nd N r)) (flag_off MRTF_NEW)) Φ.
Proof.
  iIntros (Hc Ht) "(S & G & C & E & R) W". assert (Ht' := Ht). destruct Ht' as [new Hr].
  iDestruct (big_sepM_insert_acc _ _ _ _ Hr with "E") as "[A E]". iDestruct "A" as (w p l) "(O & %Hw & K)".
  iApply (wps_flag_off with "O"). iIntros "O". iApply "W". iExists N, B, X, Y. iSplit.
  - iPureIntro. eapply consistent_sub; [|done]. intros x. by apply lookup_settle.
  - iDestruct ("E" $! false with "[O K]") as "E".
    { iExists _, p, l. iFrame. iPureIntro. by eapply route_is_off. }
    iFrame "E C". iSplitL "S"; [|iSplitL "G"].
    + iApply (srcs_ext with "S"); [done|intros; by apply lookup_settle|done].
    + iApply (grps_ext with "G"); [|intros; by apply lookup_settle|done]. intros g _. split_and!; [done|done|].
      by apply route_ptr_ext; [apply lookup_settle|].
    + iApply (rp_ents_ext with "R"). intros a. by apply route_ptr_ext; [apply lookup_settle|].
Qed.

Definition serves T (q : request) (a : answer) : iProp Σ :=
  ⌜a = (spec_step pim_start T q).1⌝ ∗ table_rep (spec_step pim_start T q).2.

(** The requests that look for a route and do something with it. *)
Lemma wps_found junk T source group flags (k : ptr -> Cmd Pim unit) (f : route -> table) Φ : world ->
  find_ok pim_start source group flags false ->
  (forall N B X Y r Ψ, consistent T B X Y -> is_Some (T !! r) -> ⊢ rep N T B X Y -∗ (table_rep (f r) -∗ Ψ tt) -∗ wps (k (Some (nd N r))) Ψ) ->
  k None = ret tt -> rp_infos -∗ table_rep T -∗
  (table_rep (match (spec_find pim_start T source group flags false).1 with Some r => f r | None => T end) -∗
     Φ (seen T (spec_find pim_start T source group flags false).1)) -∗
  wps (let! p := find_route junk source group flags false in let! a := observe p in do! k p ;; ret a) Φ.
Proof.
  iIntros (Hw Hf Hk Hk0) "#I T W". iApply wps_bind. iApply (wps_find_route with "I T"); [done|done|].
  assert (E2 : (spec_find pim_start T source group flags false).2 = T).
  { unfold spec_find. by repeat case_match. }
  unfold gives. rw E2. iIntros (N B X Y [Hc Hr]) "R". iApply wps_bind.
  iApply (wps_observe with "I R"); [done|done|]. iIntros "R".
  destruct (spec_find pim_start T source group flags false).1 as [r|]; cbn [fmap option_fmap option_map].
  - iApply wps_bind. iApply (Hk with "R"); [done|done|]. iIntros "T". iApply wps_ret. by iApply "W".
  - rw Hk0. wret. iApply wps_ret. iApply "W". iExists N, B, X, Y. by iFrame.
Qed.

Lemma wps_serve_request junk T q : world -> request_ok pim_start q -> rp_infos -∗ table_rep T -∗
  wps (serve_request junk q) (serves T q).
Proof.
  iIntros (Hw Hq) "#I T". assert (Hok : rps_ok pim_start) by apply Hw. unfold serves. destruct q; cbn [request_ok serve_request spec_step] in *.
  - iApply wps_bind. iApply (wps_find_route with "I T"); [done|done|].
    destruct (spec_find pim_start T source group flags create) as [r T']. iIntros (N B X Y [Hc Hr]) "R". cbn in Hc, Hr |- *.
    iApply (wps_observe with "I R"); [done|done|]. iIntros "R". iSplit; [done|]. iExists N, B, X, Y. by iFrame.
  - iApply (wps_found junk T source group flags _ (fun r => <[r := false]> T) with "I T"); [done|done| |done|].
    + intros N B X Y r Ψ Hc Hr. iIntros "R W". by iApply (wps_settle with "R").
    + iIntros "T". by iFrame.
  - iApply (wps_found junk T source group flags _ (fun r => delete r T) with "I T"); [done|done| |done|].
    + intros N B X Y r Ψ Hc [b Hr]. iIntros "R W". by iApply (wps_delete_mrtentry with "R").
    + iIntros "T". by iFrame.
  - iDestruct "T" as (N B X Y) "[%Hc R]". unfold find_group. destruct (IN6_IS_ADDR_MULTICAST (sin6_addr group)); cbn [negb].
    2: { wret. wret. iApply wps_ret. iSplit; [done|]. iExists N, B, X, Y. by iFrame. }
    iDestruct "R" as "(S & G & R)". iApply wps_bind. iApply wps_bind. iApply (wps_search_group with "G"); [done|].
    iIntros (r [[Hy ->]|[Hy Hr]]) "G".
    + iApply wps_ret. iApply wps_bind. iApply (wps_delete_group with "[$S $G $R]"); [done|done|]. iIntros "T".
      iApply wps_ret. by iFrame.
    + destruct r as [b p]. cbn in Hr. subst b. iApply wps_ret. wret. iApply wps_ret. iSplit; [done|].
      rw no_group_routes; [iExists N, B, X, Y; by iFrame| |].
      * intros a. destruct (T !! SG a group) eqn:Et; [|done]. exfalso. apply Hy. apply (proj1 Hc a group). by rw Et.
      * destruct (T !! WC group) eqn:Et; [|done]. exfalso. apply Hy. apply (proj1 (proj2 Hc) group). by rw Et.
  - iDestruct "T" as (N B X Y) "[%Hc R]". unfold find_source. destruct (inet6_valid_host source); cbn [negb].
    2: { wret. wret. iApply wps_ret. iSplit; [done|]. iExists N, B, X, Y. by iFrame. }
    iDestruct "R" as "(S & R)". iApply wps_bind. iApply wps_bind. iApply (wps_search_source with "S"); [done|].
    iIntros (r [[Hy ->]|[Hy Hr]]) "S".
    + iApply wps_ret. iApply wps_bind. iApply (wps_delete_source with "[$S $R]"); [done|done|]. iIntros "T".
      iApply wps_ret. by iFrame.
    + destruct r as [b p]. cbn in Hr. subst b. iApply wps_ret. wret. iApply wps_ret. iSplit; [done|].
      rw without_none; [iExists N, B, X, Y; by iFrame|]. intros [a g|g|a]; cbn; [|done|done].
      intros ->%bool_decide_eq_true. destruct (T !! SG source g) eqn:Et; [|done]. exfalso. apply Hy.
      apply (proj1 Hc source g). by rw Et.
  - iApply (wps_found junk T source group flags _ (fun r => T) with "I T"); [done|done| |done|].
    + intros N B X Y r Ψ Hc [b Hr]. iIntros "(S & G & C & E & R) W".
      iApply (wps_add_kernel_cache with "[$S $G $R] E"); [done|done|done|]. iIntros "(S & G & R) E". iApply "W".
      iExists N, B, X, Y. iSplit; [done|]. iFrame.
    + iIntros "T". iSplit; [done|]. by case_match.
  - iApply (wps_found junk T source group flags _ (fun r => T) with "I T"); [done|done| |done|].
    + intros N B X Y r Ψ Hc [b Hr]. iIntros "(S & G & C & E & R) W".
      iApply (wps_delete_single_addr with "E"); [done|]. iIntros "E". iApply "W".
      iExists N, B, X, Y. iSplit; [done|]. iFrame.
    + iIntros "T". iSplit; [done|]. by case_match.
Qed.

Lemma wps_serve_all junk qs : forall T, world -> Forall (request_ok pim_start) qs -> rp_infos -∗ table_rep T -∗
  wps (serve_all junk qs) (fun l => ⌜l = spec_run pim_start T qs⌝).
Proof.
  induction qs as [|q qs IH]; intros T Hw Hq; iIntros "#I T"; cbn [serve_all spec_run].
  - by iApply wps_ret.
  - apply Forall_cons in Hq as [Hq Hqs]. iApply (wps_bind_mono with "[T]"); [by iApply (wps_serve_request with "I T")|].
    iIntros (a) "[-> T]". iApply (wps_bind_mono with "[T]"); [by iApply (IH with "I T")|].
    iIntros (l) "->". iApply wps_ret. iPureIntro. by destruct (spec_step pim_start T q).
Qed.
End Serve.
