(* ===== verification/MrtClient.v ===== *)
(** * MrtClient: the routing table is a table

    What the daemon sees of mrt.c from its start on, whatever it asks: the
    answers of the finite map of MrtSpec. *)

From stdpp Require Import sorting functions.
From iris.proofmode Require Import proofmode.
From iris.base_logic.lib Require Import iprop own ghost_map.
From S2P Require Import Prelude Inet6 Links Pim RpMatch Vif Mrt PimLogic MrtSpec MrtTable MrtCreate MrtRp MrtDelete MrtDrop MrtCache MrtFind MrtRoute MrtServe.
Open Scope Z_scope.

(** The memory when the table is set up: the RP-set and the interfaces are
    there, no group, no route and no cache entry; memory does not run out, and
    the kernel's routes lead to interfaces there are. *)
Record start (s : Pim) : Prop := {
  st_grps : grps s = ∅;
  st_mrts : mrts s = ∅;
  st_caches : caches s = ∅;
  st_mallocs : mallocs s = [];
  st_rps : rps_ok s;
  st_srcs : map_Forall (fun i e => (i < brk s)%nat /\ s_mrtlink e = None) (srcs s);
  st_rpgs : map_Forall (fun i e => (i < brk s)%nat /\ rg_grplink e = None) (rpgs s);
  st_routes : forall a, (rpf s a).2 = NO_VIF \/ 0 <= (rpf s a).2 < Z.of_nat (length (uvifs s));
  st_vifs : (length (uvifs s) <= Z.to_nat (u8 (total_interfaces s)))%nat
}.

(** After [init_pim6_mrt]. *)
Definition first_source : srcentry := mkSrc None None (mkSa 0 in6addr_any) None NO_VIF None 0 0 0 None.
Definition first_group : grpentry :=
  mkGrp None None None None (mkSa 0 in6addr_any) (mkSa 0 in6addr_any) None None None.

Record set_up (s s1 : Pim) : Prop := {
  su_srcs : srcs s1 = <[brk s := first_source]> (srcs s);
  su_grps : grps s1 = {[S (brk s) := first_group]};
  su_mrts : mrts s1 = ∅;
  su_caches : caches s1 = ∅;
  su_rpgs : rpgs s1 = rpgs s;
  su_brk : brk s1 = S (S (brk s));
  su_env : same_env s (brk s) (S (brk s)) s1
}.

Lemma init_sets_up s : start s -> exists s1, init_pim6_mrt s = Ok tt s1 /\ set_up s s1.
Proof.
  intros H. unfold init_pim6_mrt, malloc, next_malloc, bind, modify, upd. rw (st_mallocs _ H). cbn.
  rw lookup_insert_eq. cbn. rw (st_mallocs _ H). cbn. rw lookup_insert_eq (st_grps _ H). cbn.
  eexists. split; [reflexivity|]. split; cbn.
  - by rw insert_insert_eq.
  - by rw insert_insert_eq.
  - apply (st_mrts _ H).
  - apply (st_caches _ H).
  - done.
  - done.
  - split; try done; cbn; [apply (st_mallocs _ H)|lia].
Qed.

Lemma set_up_brk s s1 f i : start s -> set_up s s1 -> is_Some (cell_at s1 f i) -> (i < brk s1)%nat.
Proof.
  intros St Su. rw (su_brk _ _ Su).
  assert (A : is_Some (srcs s1 !! i) -> (i < S (S (brk s)))%nat).
  { rw (su_srcs _ _ Su). intros [e [[<- _]|[_ He]]%lookup_insert_Some]; [lia|]. destruct (st_srcs _ St i e He). lia. }
  assert (B : is_Some (grps s1 !! i) -> (i < S (S (brk s)))%nat).
  { rw (su_grps _ _ Su). intros [e [<- _]%lookup_singleton_Some]. lia. }
  assert (C : is_Some (rpgs s1 !! i) -> (i < S (S (brk s)))%nat).
  { rw (su_rpgs _ _ Su). intros [e He]. destruct (st_rpgs _ St i e He). lia. }
  destruct f; cbn; intros [c (e & He & _)%bind_Some]; try (by apply A; rw He); try (by apply B; rw He);
    try (by apply C; rw He); exfalso; move: He; rw ?(su_mrts _ _ Su) ?(su_caches _ _ Su) lookup_empty; done.
Qed.

(** ** The cells of a memory *)

Definition facet_cells (s : Pim) (f : facet) : gmap nat cell :=
  match f with
  | Fsl | Fsi | Fsm => omap (fun e => cells (N := srcentry) e f) (srcs s)
  | Fgl | Fgr | Fga | Fgm | Fgx | Fgw => omap (fun e => cells (N := grpentry) e f) (grps s)
  | Fml | Fms | Fmo | Fmk => omap (fun e => cells (N := mrtentry) e f) (mrts s)
  | Fk => omap (fun e => cells (N := kernel_cache) e f) (caches s)
  | Frg => omap (fun e => cells (N := rp_grp_entry) e f) (rpgs s)
  end.

Lemma lookup_facet_cells s f i : facet_cells s f !! i = cell_at s f i.
Proof. by destruct f; cbn [facet_cells cell_at]; rw lookup_omap. Qed.

Definition facets : list facet := [Fsl; Fsi; Fsm; Fgl; Fgr; Fga; Fgm; Fgx; Fgw; Fml; Fms; Fmo; Fmk; Fk; Frg].

Lemma alloc_cells Σ `{!ghost_mapG Σ (facet * nat) cell} s l : NoDup l -> ⊢ |==> ∃ (γ : gname) M, ghost_map_auth γ 1 M ∗
  ⌜forall f i, M !! (f, i) = if bool_decide (f ∈ l) then cell_at s f i else None⌝ ∗
  [∗ list] f ∈ l, [∗ map] i ↦ c ∈ facet_cells s f, ghost_map_elem γ (f, i) (DfracOwn 1) c.
Proof.
  induction l as [|f l IH]; intros ND.
  - iMod (ghost_map_alloc_empty (K := facet * nat) (V := cell)) as (γ) "A". iModIntro. iExists γ, ∅. iFrame. cbn.
    iSplit; [|done]. iPureIntro. intros f i. rw bool_decide_false; [by rw lookup_empty|set_solver].
  - apply NoDup_cons in ND as [Hf ND]. iMod (IH ND) as (γ M) "(A & %HM & L)".
    assert (HK : forall f' i, kmap (M2 := gmap (facet * nat)) (pair f) (facet_cells s f) !! (f', i) =
      if decide (f' = f) then cell_at s f i else None).
    { intros f' i. destruct (decide (f' = f)) as [->|Hne].
      - by rw lookup_kmap lookup_facet_cells.
      - apply lookup_kmap_None; [apply _|]. intros i' [= ->]. done. }
    iMod (ghost_map_insert_big (kmap (pair f) (facet_cells s f)) with "A") as "[A K]".
    { apply map_disjoint_spec. intros [f' i] x y. rw HK HM. destruct (decide (f' = f)) as [->|]; [|done].
      rw bool_decide_false; [done|done]. }
    iModIntro. iExists γ, _. iFrame "A". rw big_sepL_cons big_sepM_kmap. iFrame. iPureIntro. intros f' i.
    destruct (decide (f' = f)) as [->|Hne].
    + rw (bool_decide_true (f ∈ f :: l)); [|left]. destruct (cell_at s f i) as [c|] eqn:E.
      * apply lookup_union_Some_l. rw HK. by rw decide_True.
      * rw lookup_union_None HK HM. rw decide_True; [|done]. by rw bool_decide_false.
    + rw lookup_union_r; [|rw HK; by rw decide_False]. rw HM.
      by rw (bool_decide_ext (f' ∈ l) (f' ∈ f :: l)); [|set_solver].
Qed.

(** ** The empty table *)

Section Empty.
Context `{!pimG Σ}.

(** The cells of facet [f] for the structures of a heap. *)
Lemma cells_of_heap {Nd} s f (h : gmap nat Nd) (c : Nd -> cell) : (forall i e, h !! i = Some e -> cell_at s f i = Some (c e)) ->
  ([∗ map] i ↦ c ∈ facet_cells s f, i ↦[f] c) -∗ [∗ map] i ↦ e ∈ h, i ↦[f] c e.
Proof.
  intros H. iIntros "L". rw -(big_sepM_fmap c (fun i x => i ↦[f] x)%I h). iApply (big_sepM_subseteq with "L").
  apply map_subseteq_spec. intros i x. rw lookup_fmap fmap_Some. intros (e & He & ->). rw lookup_facet_cells. by apply H.
Qed.

Lemma one_cell s f i c : cell_at s f i = Some c -> ([∗ map] i ↦ c ∈ facet_cells s f, i ↦[f] c) -∗ i ↦[f] c.
Proof. intros H. iIntros "L". iApply (big_sepM_lookup with "L"). by rw lookup_facet_cells. Qed.

Lemma persist_cells f (h : gmap nat srcentry) (c : srcentry -> cell) :
  ([∗ map] i ↦ e ∈ h, i ↦[f] c e) ==∗ [∗ map] i ↦ e ∈ h, i ↦[f]□ c e.
Proof.
  iIntros "L". iApply big_sepM_bupd. iApply (big_sepM_mono with "L"). intros i e _. iIntros "C".
  by iMod (ghost_map_elem_persist with "C").
Qed.

Lemma nothing_consistent : consistent ∅ ∅ ∅ ∅.
Proof.
  split_and!; [by intros a g []|by intros g []|by intros a []|by intros g r|intros a; set_solver].
Qed.
Lemma no_addresses (P : sockaddr_in6 -> Prop) : (forall a, ~ P a) -> listed [] P.
Proof. intros H. split_and!; [constructor|constructor|]. intros a. split; [by intros ?%not_elem_of_nil|by intros ?%H]. Qed.

Lemma empty_table s1 : start pim_start -> set_up pim_start s1 -> pim_sl = brk pim_start -> pim_gl = S (brk pim_start) ->
  ([∗ list] f ∈ facets, [∗ map] i ↦ c ∈ facet_cells s1 f, i ↦[f] c) ==∗ rp_infos ∗ table_rep ∅.
Proof.
  intros St Su Esl Egl. iIntros "(Lsl & Lsi & Lsm & Lgl & _ & _ & _ & _ & _ & _ & _ & _ & _ & _ & Lrg & _)".
  assert (Hsrc : forall i e, srcs pim_start !! i = Some e -> srcs s1 !! i = Some e /\ s_mrtlink e = None).
  { intros i e He. destruct (st_srcs _ St i e He) as [Hi Hm]. rw (su_srcs _ _ Su). split; [|done]. rw lookup_insert_ne; [done|lia]. }
  iDestruct (cells_of_heap s1 Fsi (srcs pim_start) (fun e => Info (s_address e) (s_incoming e) (s_upstream e)) with "Lsi") as "Lsi".
  { intros i e He. apply Hsrc in He as [He _]. cbn. by rw He. }
  iMod (persist_cells with "Lsi") as "$". iModIntro.
  iExists (mkNodes (fun _ => 0%nat) (fun _ => 0%nat) (fun _ => 0%nat)), ∅, ∅, ∅. iSplit; [iPureIntro; apply nothing_consistent|].
  iSplitL "Lsl"; [|iSplitL "Lgl"; [|iSplitL "Lrg"; [|iSplitR]]].
  - iSplitL; [|done]. iExists []. iSplitL; [|iPureIntro; apply no_addresses; set_solver].
    iExists (Some pim_sl). cbn. iSplit; [done|]. iExists None. iSplitL; [|done].
    iApply (one_cell s1 with "Lsl"). cbn. by rw Esl (su_srcs _ _ Su) lookup_insert_eq.
  - iSplitL; [|done]. iExists []. iSplitL; [|iPureIntro; apply no_addresses; set_solver].
    iExists (Some pim_gl). cbn. iSplit; [done|]. iExists None. iSplitL; [|done].
    iApply (one_cell s1 with "Lgl"). cbn. by rw Egl (su_grps _ _ Su) lookup_singleton_eq.
  - iDestruct (cells_of_heap s1 Frg (rpgs pim_start) (fun e => Ptr None) with "Lrg") as "Lrg".
    { intros i e He. destruct (st_rpgs _ St i e He) as [_ Hn]. cbn. rw (su_rpgs _ _ Su) He. cbn. by rw Hn. }
    iApply (big_sepM_mono with "Lrg"). intros r e _. iIntros "C". iExists None, []. iFrame. iSplit; [by iExists None|].
    iPureIntro. split; [constructor|]. intros g. rw lookup_empty. split; [by intros ?%not_elem_of_nil|done].
  - unfold ents. by rw big_sepM_empty.
  - iDestruct (cells_of_heap s1 Fsm (srcs pim_start) (fun e => Ptr None) with "Lsm") as "Lsm"; [|done].
    intros i e He. apply Hsrc in He as [He Hm]. cbn. rw He. cbn. by rw Hm.
Qed.

Lemma empty_world : start pim_start -> world.
Proof. intros H. split; [apply (st_rps _ H)|intros a; apply (st_routes _ H)|apply (st_vifs _ H)]. Qed.
End Empty.

(** C3. The routing table is a table: in whatever order the daemon looks up,
    makes, settles and deletes routes, groups and sources and adds and removes
    cache entries, from [init_pim6_mrt] on, the code of mrt.c makes no bad access,
    ends every request, and answers as the finite map of MrtSpec does. *)
Theorem routing_table_correct s junk qs : start s -> Forall (request_ok s) qs ->
  exists s', client junk qs s = Ok (spec_run s ∅ qs) s'.
Proof.
  intros St Hq. destruct (init_sets_up s St) as (s1 & E & Su).
  assert (Run : exists r s', serve_all junk qs s1 = Ok r s' /\ r = spec_run s ∅ qs).
  { apply (pure_soundness (PROP := iPropI pimΣ)). apply (uPred.bupd_soundness _). 
    iMod (alloc_cells pimΣ s1 facets) as (γ M) "(A & %HM & L)"; [by repeat (constructor; [set_solver|]); constructor|].
    set (G := Build_pimG pimΣ _ γ s (brk s) (S (brk s))).
    iMod (@empty_table pimΣ G s1 St Su eq_refl eq_refl with "L") as "[#I T]".
    iMod (@wps_serve_all pimΣ G junk qs ∅ (@empty_world pimΣ G St) Hq with "I T [A]") as (r s') "(%Er & _ & %Hr)".
    - iExists M. iFrame "A". iPureIntro. split_and!.
      + intros f i. rw HM bool_decide_true; [done|]. destruct f; set_solver.
      + intros f i. by apply (set_up_brk s s1 f i).
      + apply (su_env _ _ Su).
    - iModIntro. iPureIntro. by exists r, s'. }
  destruct Run as (r & s' & Er & ->). exists s'. unfold client. by rw (bind_Ok _ _ _ _ _ E).
Qed.

(** ** A router *)

(** The RP-set of [rp_router], one interface with a neighbour; there is no
    neighbour toward the third RP and no way to the sources in 3001:9::/32. *)
Definition table_router : Pim :=
  let r := rp_router 0 in
  let me := mkPhaddr (ip6 [0x20; 0x01] 0xfe) (ip6 [] 0) (ip6 [0x20; 0x01] 0) (replicate 8 0xff ++ replicate 8 0) in
  let nbr := mkNbr 77 (ip6 [0x20; 0x01] 1) [] 0 105 None in
  let rp e := if decide (sin6_addr (s_address e) = sin6_addr (ip6 [0x20; 0x01] 3)) then e else set_s_upstream (Some 77%nat) e in
  mkPim (rp <$> srcs r) (crps r) (gmasks r) (rpgs r) ∅ ∅ ∅ (brk r) [] None None (cand_rp_list r) (grp_mask_list r) []
    [mkVif 0 2 0 [me] 101 1024 [nbr] (Some me) 0 0 0] 2 1 (ip6 [0xff; 0x30] 0) (replicate 2 0xff ++ replicate 14 0)
    (fun a => if decide (nth 3 (sin6_addr a) 0 = 9) then (ip6 [] 0, 64) else (ip6 [0x20; 0x01] 1, 0)) idle_vars.

Lemma ip6_ok a b : forallb (fun x => (0 <=? x) && (x <? 256)) (b :: a) = true -> (length a <= 15)%nat -> sa_ok (ip6 a b).
Proof.
  intros H Hl. split; [done|]. cbn [sin6_addr ip6].
  assert (F : Forall is_byte (b :: a)).
  { apply Forall_forall. intros x Hx. apply list_elem_of_In in Hx. apply (proj1 (forallb_forall _ _) H) in Hx.
    unfold is_byte. lia. }
  apply Forall_cons in F as [Fb Fa]. split.
  - rw !length_app length_replicate. cbn. lia.
  - apply Forall_app. split; [done|]. apply Forall_app. split; [|by constructor]. by apply Forall_replicate.
Qed.

Definition table_requests : list request :=
  let s1 := ip6 [0x20; 0x01] 0x55 in
  let s2 := ip6 [0x20; 0x01] 0x56 in
  let far := ip6 [0x30; 0x01; 0; 9] 0x56 in
  let g := ip6 [0xff; 0x0e] 0x09 in
  [Find (Some s1) (Some g) MRTF_SG true; Find (Some s2) (Some g) (Z.lor MRTF_SG MRTF_WC) true;
   Find (Some far) (Some g) MRTF_SG true; Find (Some far) (Some g) (Z.lor MRTF_SG MRTF_WC) false;
   Settle None (Some g) MRTF_WC; Cache (Some s1) (Some g) MRTF_SG s1 g 0; Find None (Some g) MRTF_PMBR true;
   Drop (Some s1) (Some g) MRTF_SG; DropSource s2; Find (Some s2) (Some g) MRTF_SG false;
   Find None (Some g) MRTF_WC false; DropGroup g; Find None (Some g) (Z.lor MRTF_WC MRTF_PMBR) false].

Lemma table_router_starts : start table_router.
Proof.
  split; try done.
  - split.
    + exists (rp_list 0). prove_rp_rep.
    + exists [3; 4; 5]%nat. split.
      * eexists. cbn. repeat (split; [done|]; eexists; split; [vm_compute; reflexivity|]). done.
      * repeat (apply Forall_cons_2; [do 2 eexists; split_and!; [vm_compute; reflexivity|done|vm_compute; by eexists]|]).
        apply Forall_nil_2.
    + apply (bool_decide_unpack _). vm_compute. exact I.
    + assert (D : map_Forall (fun i e => map_Forall (fun j e' => s_address e = s_address e' -> i = j) (srcs table_router))
        (srcs table_router)) by (apply (bool_decide_unpack _); vm_compute; exact I).
      intros i j e e' Ei Ej. apply (D i e Ei j e' Ej).
  - apply (bool_decide_unpack _). vm_compute. exact I.
  - apply (bool_decide_unpack _). vm_compute. exact I.
  - intros a. cbn [rpf table_router]. case_decide; [by left|by right].
  - vm_compute. lia.
Qed.

Ltac address_ok := first [exact I | apply ip6_ok; [done|cbn; lia]].
Ltac there_is := intros H; first [done | by eexists | by vm_compute in H].
Ltac find_request_ok :=
  split; [address_ok|split; [address_ok|split; [there_is|split; [there_is|]]]];
  first [done | intros _; split; [there_is|split; [there_is|intros H; first [by vm_compute in H | right; vm_compute; by eexists]]]].

Lemma table_requests_ok : Forall (request_ok table_router) table_requests.
Proof.
  repeat apply Forall_cons_2; try apply Forall_nil_2; cbn [request_ok]; first [find_request_ok | address_ok].
Qed.

Lemma routing_table_correct_witness :
  (exists s', client None table_requests table_router = Ok (spec_run table_router ∅ table_requests) s') /\
  map (option_map snd) (spec_run table_router ∅ table_requests) =
    [Some true; Some true; None; Some true; Some true; Some true; Some true; Some true; None; None; Some false; None; Some true].
Proof.
  split; [|vm_compute; reflexivity].
  apply (routing_table_correct table_router None table_requests table_router_starts table_requests_ok).
Defined.
