(* ===== verification/Mld.v ===== *)
(** * Mld: listeners of pim6sd, the data and the sending (vif.h, mld6_proto.h, mld6.c, mld6v2.c)

    Each interface has a list of the multicast groups with listeners, each
    group a list of the sources they want.  A timer is set with a piece of
    memory ([cbk_t]) that tells its function the interface, the group and the
    source; the queue frees it with the timer it clears.  The code runs on any
    timer service (Callout) and the routing table's memory (Pim).  Statistics,
    creation times and log messages are left out; a message is recorded in
    [mld_sent] when it is given to the kernel, which computes the checksum and
    adds the router alert option. *)

From stdpp Require Import base list numbers gmap.
From S2P Require Import Prelude Callout Inet6 Pim Vif PimMsg PimJp PimReg PimRoute.
Open Scope Z_scope.

(** ** The structures *)

(** [listaddr]: a group or a source; [cbk_t]; the querier of an interface; the
    members of [struct uvif] that the protocol uses alone; a message sent. *)
Record listaddr := mkLa {
  al_next : ptr;
  al_addr : sockaddr_in6;
  al_sources : ptr;
  al_timer : Z;
  comp_mode : Z;
  al_reporter : sockaddr_in6;
  al_timerid : Z;
  al_query : Z;
  al_checklist : Z;
  al_rob : Z
}.

Record cbk_t := mkCbk {
  cbk_mifi : Z;
  cbk_g : ptr;
  cbk_s : ptr;
  q_time : Z
}.

Record querier := mkQuerier {
  qr_addr : sockaddr_in6;
  qr_timer : Z
}.

Record mld_vif := mkMvif {
  uv_groups : ptr;
  uv_querier : option querier;
  uv_stquery_cnt : Z;
  uv_mld_version : Z;
  uv_mld_robustness : Z;
  uv_mld_query_interval : Z;
  uv_mld_query_rsp_interval : Z;
  uv_mld_llqi : Z
}.

Record mld_packet := mkMldPacket {
  mp_src : sockaddr_in6;
  mp_dst : sockaddr_in6;
  mp_ifindex : Z;
  mp_data : list Z
}.

Record Mld := mkMld {
  pim : Pim;
  las : gmap nat listaddr;
  cbks : gmap nat cbk_t;
  mvifs : list mld_vif;
  mld_brk : nat;
  mld_mallocs : list bool;
  mld6_send_buf : list Z;
  mld_sent : list mld_packet
}.

Definition set_al_next (v : ptr) (l : listaddr) : listaddr :=
  mkLa v (al_addr l) (al_sources l) (al_timer l) (comp_mode l) (al_reporter l) (al_timerid l)
    (al_query l) (al_checklist l) (al_rob l).
Definition set_al_addr (v : sockaddr_in6) (l : listaddr) : listaddr :=
  mkLa (al_next l) v (al_sources l) (al_timer l) (comp_mode l) (al_reporter l) (al_timerid l)
    (al_query l) (al_checklist l) (al_rob l).
Definition set_al_sources (v : ptr) (l : listaddr) : listaddr :=
  mkLa (al_next l) (al_addr l) v (al_timer l) (comp_mode l) (al_reporter l) (al_timerid l) (al_query
    l) (al_checklist l) (al_rob l).
Definition set_al_timer (v : Z) (l : listaddr) : listaddr :=
  mkLa (al_next l) (al_addr l) (al_sources l) v (comp_mode l) (al_reporter l) (al_timerid l) (al_query
    l) (al_checklist l) (al_rob l).
Definition set_comp_mode (v : Z) (l : listaddr) : listaddr :=
  mkLa (al_next l) (al_addr l) (al_sources l) (al_timer l) v (al_reporter l) (al_timerid l) (al_query
    l) (al_checklist l) (al_rob l).
Definition set_al_reporter (v : sockaddr_in6) (l : listaddr) : listaddr :=
  mkLa (al_next l) (al_addr l) (al_sources l) (al_timer l) (comp_mode l) v (al_timerid l) (al_query l)
    (al_checklist l) (al_rob l).
Definition set_al_timerid (v : Z) (l : listaddr) : listaddr :=
  mkLa (al_next l) (al_addr l) (al_sources l) (al_timer l) (comp_mode l) (al_reporter l) v (al_query
    l) (al_checklist l) (al_rob l).
Definition set_al_query (v : Z) (l : listaddr) : listaddr :=
  mkLa (al_next l) (al_addr l) (al_sources l) (al_timer l) (comp_mode l) (al_reporter l) (al_timerid
    l) v (al_checklist l) (al_rob l).
Definition set_al_checklist (v : Z) (l : listaddr) : listaddr :=
  mkLa (al_next l) (al_addr l) (al_sources l) (al_timer l) (comp_mode l) (al_reporter l) (al_timerid
    l) (al_query l) v (al_rob l).
Definition set_al_rob (v : Z) (l : listaddr) : listaddr :=
  mkLa (al_next l) (al_addr l) (al_sources l) (al_timer l) (comp_mode l) (al_reporter l) (al_timerid
    l) (al_query l) (al_checklist l) v.

Definition set_qr_addr (v : sockaddr_in6) (q : querier) : querier :=
  mkQuerier v (qr_timer q).
Definition set_qr_timer (v : Z) (q : querier) : querier :=
  mkQuerier (qr_addr q) v.

Definition set_uv_groups (v : ptr) (v0 : mld_vif) : mld_vif :=
  mkMvif v (uv_querier v0) (uv_stquery_cnt v0) (uv_mld_version v0) (uv_mld_robustness v0)
    (uv_mld_query_interval v0) (uv_mld_query_rsp_interval v0) (uv_mld_llqi v0).
Definition set_uv_querier (v : option querier) (v0 : mld_vif) : mld_vif :=
  mkMvif (uv_groups v0) v (uv_stquery_cnt v0) (uv_mld_version v0) (uv_mld_robustness v0)
    (uv_mld_query_interval v0) (uv_mld_query_rsp_interval v0) (uv_mld_llqi v0).
Definition set_uv_stquery_cnt (v : Z) (v0 : mld_vif) : mld_vif :=
  mkMvif (uv_groups v0) (uv_querier v0) v (uv_mld_version v0) (uv_mld_robustness v0)
    (uv_mld_query_interval v0) (uv_mld_query_rsp_interval v0) (uv_mld_llqi v0).
Definition set_uv_mld_version (v : Z) (v0 : mld_vif) : mld_vif :=
  mkMvif (uv_groups v0) (uv_querier v0) (uv_stquery_cnt v0) v (uv_mld_robustness v0)
    (uv_mld_query_interval v0) (uv_mld_query_rsp_interval v0) (uv_mld_llqi v0).
Definition set_uv_mld_robustness (v : Z) (v0 : mld_vif) : mld_vif :=
  mkMvif (uv_groups v0) (uv_querier v0) (uv_stquery_cnt v0) (uv_mld_version v0) v
    (uv_mld_query_interval v0) (uv_mld_query_rsp_interval v0) (uv_mld_llqi v0).
Definition set_uv_mld_query_interval (v : Z) (v0 : mld_vif) : mld_vif :=
  mkMvif (uv_groups v0) (uv_querier v0) (uv_stquery_cnt v0) (uv_mld_version v0) (uv_mld_robustness v0)
    v (uv_mld_query_rsp_interval v0) (uv_mld_llqi v0).
Definition set_uv_mld_query_rsp_interval (v : Z) (v0 : mld_vif) : mld_vif :=
  mkMvif (uv_groups v0) (uv_querier v0) (uv_stquery_cnt v0) (uv_mld_version v0) (uv_mld_robustness v0)
    (uv_mld_query_interval v0) v (uv_mld_llqi v0).
Definition set_uv_mld_llqi (v : Z) (v0 : mld_vif) : mld_vif :=
  mkMvif (uv_groups v0) (uv_querier v0) (uv_stquery_cnt v0) (uv_mld_version v0) (uv_mld_robustness v0)
    (uv_mld_query_interval v0) (uv_mld_query_rsp_interval v0) v.

Definition set_pim (v : Pim) (m : Mld) : Mld :=
  mkMld v (las m) (cbks m) (mvifs m) (mld_brk m) (mld_mallocs m) (mld6_send_buf m) (mld_sent m).
Definition set_las (v : gmap nat listaddr) (m : Mld) : Mld :=
  mkMld (pim m) v (cbks m) (mvifs m) (mld_brk m) (mld_mallocs m) (mld6_send_buf m) (mld_sent m).
Definition set_cbks (v : gmap nat cbk_t) (m : Mld) : Mld :=
  mkMld (pim m) (las m) v (mvifs m) (mld_brk m) (mld_mallocs m) (mld6_send_buf m) (mld_sent m).
Definition set_mvifs (v : list mld_vif) (m : Mld) : Mld :=
  mkMld (pim m) (las m) (cbks m) v (mld_brk m) (mld_mallocs m) (mld6_send_buf m) (mld_sent m).
Definition set_mld_brk (v : nat) (m : Mld) : Mld :=
  mkMld (pim m) (las m) (cbks m) (mvifs m) v (mld_mallocs m) (mld6_send_buf m) (mld_sent m).
Definition set_mld_mallocs (v : list bool) (m : Mld) : Mld :=
  mkMld (pim m) (las m) (cbks m) (mvifs m) (mld_brk m) v (mld6_send_buf m) (mld_sent m).
Definition set_mld6_send_buf (v : list Z) (m : Mld) : Mld :=
  mkMld (pim m) (las m) (cbks m) (mvifs m) (mld_brk m) (mld_mallocs m) v (mld_sent m).
Definition set_mld_sent (v : list mld_packet) (m : Mld) : Mld :=
  mkMld (pim m) (las m) (cbks m) (mvifs m) (mld_brk m) (mld_mallocs m) (mld6_send_buf m) v.

(** The functions of timers. *)
Inductive mld_timer := DelVif_ | SendQuery_ | SendQueryV2spec_ | DelVifV2_ | mld_shift_to_v2mode_.

(** ** Constants *)

Definition MLDv1 : Z := 1.
Definition MLDv2 : Z := 2.
Definition MLD_LISTENER_QUERY : Z := 130.
Definition MLD_LISTENER_REPORT : Z := 131.
Definition MLD_LISTENER_DONE : Z := 132.
Definition VIFF_QUERIER : Z := 0x000400.
Definition VIFF_NOLISTENER : Z := 0x800000.
Definition LESSTHANLLQI : Z := 1.
Definition MORETHANLLQI : Z := 2.
Definition SFLAGYES : Z := 0x08.
Definition SFLAGNO : Z := 0x0.
Definition RECV_BUF_SIZE : Z := 64 * 1024.
Definition sizeof_mld_hdr : Z := 24.

Definition MLD6_TIMER_SCALE : Z := 1000.
Definition MLD6_STARTUP_QUERY_INTERVAL : Z := 30.
(** The intervals are computed with 32 bits, without a sign. *)
Definition MLD6_LISTENER_INTERVAL (v : mld_vif) : Z :=
  u32 (uv_mld_robustness v * uv_mld_query_interval v + uv_mld_query_rsp_interval v / MLD6_TIMER_SCALE).
Definition MLD6_OTHER_QUERIER_PRESENT_INTERVAL (v : mld_vif) : Z :=
  u32 (uv_mld_robustness v * uv_mld_query_interval v + uv_mld_query_rsp_interval v / (2 * MLD6_TIMER_SCALE)).

Definition allnodes_group : list Z := [0xff; 0x02] ++ replicate 13 0 ++ [0x01].

(** ** Memory *)

Section Memory.
Context {S : Type} `{TS : TimerService mld_timer S}.

Definition mld : Cmd (S * Mld) Mld := fun s => Ok s.2 s.
Definition upd_mld (f : Mld -> Mld) : Cmd (S * Mld) unit := fun s => Ok tt (s.1, f s.2).

(** A function of the routing table. *)
Definition routing {A} (m : Cmd Pim A) : Cmd (S * Mld) A := fun s =>
  match m (pim s.2) with
  | Ok a p => Ok a (s.1, set_pim p s.2)
  | Exit c p => Exit c (s.1, set_pim p s.2)
  | Stop w p => Stop w (s.1, set_pim p s.2)
  end.

Definition la (p : ptr) : Cmd (S * Mld) listaddr := let! m := mld in of_option (p ≫= fun i => las m !! i).
Definition upd_la (p : ptr) (f : listaddr -> listaddr) : Cmd (S * Mld) unit :=
  let! l := la p in
  chk! i := p in
  upd_mld (fun m => set_las (<[i := f l]> (las m)) m).

(** [free]. *)
Definition free_la (p : ptr) : Cmd (S * Mld) unit :=
  match p with
  | None => ret tt
  | Some i => do! la p ;; upd_mld (fun m => set_las (delete i (las m)) m)
  end.

Definition next_malloc_ok : Cmd (S * Mld) bool :=
  let! m := mld in
  match mld_mallocs m with [] => ret true | b :: bs => do! upd_mld (set_mld_mallocs bs) ;; ret b end.

(** [malloc]; [l] is what the new memory holds. *)
Definition new_la (l : listaddr) : Cmd (S * Mld) ptr :=
  let! ok := next_malloc_ok in
  if negb ok then ret None else
  let! m := mld in
  do! upd_mld (fun m => set_mld_brk (mld_brk m + 1)%nat (set_las (<[mld_brk m := l]> (las m)) m)) ;;
  ret (Some (mld_brk m)).

(** A [cbk_t] is known to the queue by its address; memory that the queue has
    freed is not used again. *)
Definition cbk (d : Z) : Cmd (S * Mld) cbk_t := fun s =>
  match (if bool_decide (d ∈ t_freed s.1) then None else cbks s.2 !! Z.to_nat d) with
  | Some c => Ok c s
  | None => Stop OutOfBounds s
  end.
Definition free_cbk (d : Z) : Cmd (S * Mld) unit :=
  do! cbk d ;; upd_mld (fun m => set_cbks (delete (Z.to_nat d) (cbks m)) m).

Definition new_cbk (c : cbk_t) : Cmd (S * Mld) (option Z) :=
  let! ok := next_malloc_ok in
  if negb ok then ret None else
  let! m := mld in
  do! upd_mld (fun m => set_mld_brk (mld_brk m + 1)%nat (set_cbks (<[mld_brk m := c]> (cbks m)) m)) ;;
  ret (Some (Z.of_nat (mld_brk m))).

Definition mvif (mifi : Z) : Cmd (S * Mld) mld_vif := let! m := mld in of_option (rd (mvifs m) mifi).
Definition upd_mvif (mifi : Z) (f : mld_vif -> mld_vif) : Cmd (S * Mld) unit :=
  let! m := mld in
  chk! v := rd (mvifs m) mifi in
  chk! vs := store (mvifs m) mifi [f v] in
  upd_mld (set_mvifs vs).

(** Steps enough to run down any list. *)
Definition la_fuel (m : Mld) : nat := mld_brk m + 1.

(** The first node of a list of which [f] holds. *)
Fixpoint find_la (fuel : nat) (f : listaddr -> bool) (p : ptr) : Cmd (S * Mld) ptr :=
  match fuel with
  | O => halt OutOfFuel
  | Datatypes.S fuel =>
      match p with
      | None => ret None
      | Some _ => let! l := la p in if f l then ret p else find_la fuel f (al_next l)
      end
  end.

(** The group with the address on an interface. *)
Definition find_group (mifi : Z) (group : sockaddr_in6) : Cmd (S * Mld) ptr :=
  let! m := mld in
  let! v := mvif mifi in
  find_la (la_fuel m) (fun l => inet6_equal group (al_addr l)) (uv_groups v).

(** ** Timers *)

(** [SetTimer], [SetTimerV2] and [SetTimerV1compat]: the memory is not
    checked; the last one is [al_timer] as an [int]. *)
Definition set_timer (f : mld_timer) (mifi : Z) (g s : ptr) (q_time_ : Z) (delay : Z) : Cmd (S * Mld) Z :=
  let! c := new_cbk (mkCbk mifi g s q_time_) in
  chk! c := c in
  t_set (s32 delay) (Some f) c.

(** [junk]: the [q_time] that is not set. *)
Context (junk : Z).
Definition SetTimer (mifi : Z) (g : ptr) : Cmd (S * Mld) Z :=
  let! l := la g in set_timer DelVif_ mifi g None junk (al_timer l).
Definition SetTimerV1compat (mifi : Z) (g : ptr) : Cmd (S * Mld) Z :=
  let! l := la g in set_timer mld_shift_to_v2mode_ mifi g None junk (al_timer l).
Definition SetTimerV2 (mifi : Z) (g s : ptr) : Cmd (S * Mld) Z :=
  let! l := la s in set_timer DelVifV2_ mifi g s junk (al_timer l).
Definition SetQueryTimer (g : ptr) (mifi to_expire q_time_ : Z) : Cmd (S * Mld) Z :=
  set_timer SendQuery_ mifi g None q_time_ to_expire.
Definition DeleteTimer (i : Z) : Cmd (S * Mld) Z := do! t_clear (F := mld_timer) i ;; ret 0.
End Memory.

(** ** mld6v2.c: numbers as floating point codes *)

(** The position [tmax] of the first bit of [nbr], from [tmax] down. *)
Fixpoint top_bit (fuel : nat) (nbr tmax : Z) : Z :=
  match fuel with
  | O => tmax
  | S fuel => if Z.testbit nbr (tmax - 1) then tmax else top_bit fuel nbr (tmax - 1)
  end.

(** The loops over the sizes: the greatest exponent, the mask of the mantissa
    from [m] on, and the greatest number. *)
Definition max_exp (sizeexp : Z) : Z := foldl (fun exp _ => Z.lor (Z.shiftl exp 1) 1) 1 (seqZ 1 (sizeexp - 1)).
Definition mant_mask (m sizemant : Z) : Z := foldl (fun mantmask i => Z.lor mantmask (Z.shiftl 1 i)) m (seqZ 0 sizemant).
Definition float_tmax (sizeexp sizemant : Z) : Z := max_exp sizeexp + 3 + sizemant + 1.
Definition float_max (sizeexp sizemant : Z) : Z :=
  let mask := Z.shiftl 1 (float_tmax sizeexp sizemant - 1) in
  foldl (fun max i => Z.lor max (Z.shiftr mask i)) 0 (seqZ 0 (sizemant + 1)).

(** The code of a number that has one, and [*realnbr]. *)
Definition coda (nbr sizeexp sizemant : Z) : Z * Z :=
  let code := u16 (Z.shiftl 1 (sizeexp + sizemant)) in
  if decide (code <= nbr) then
    let tmax := float_tmax sizeexp sizemant in
    let tmax := top_bit (Z.to_nat tmax) nbr tmax in
    let exp := u32 (tmax - (sizemant + 1)) in
    let mant := Z.land (Z.shiftr nbr exp) (mant_mask 1 sizemant) in
    let exp := u32 (exp - 3) in
    (u16 (Z.lor (Z.lor code mant) (Z.shiftl exp sizemant)), u32 (Z.shiftl (Z.lor mant (Z.shiftl 1 sizemant)) (exp + 3)))
  else (nbr, nbr).

Definition codafloat (nbr sizeexp sizemant : Z) : Z * Z :=
  let code := u16 (Z.shiftl 1 (sizeexp + sizemant)) in
  let max := float_max sizeexp sizemant in
  if decide (code <= nbr /\ max < nbr) then coda max sizeexp sizemant else coda nbr sizeexp sizemant.

Definition decodeafloat (nbr sizeexp sizemant : Z) : Z :=
  let mant := Z.land nbr (mant_mask 0 sizemant) in
  let exp := Z.shiftr (Z.clearbit nbr (sizemant + sizeexp)) sizemant in
  u32 (Z.shiftl (Z.lor mant (Z.shiftl 1 sizemant)) (exp + 3)).

Section Sending.
Context {S : Type} `{TS : TimerService mld_timer S} (junk : Z).

(** ** mld6.c *)

(** The scope of the destination of a message. *)
Definition mld_dst (a : list Z) (ifindex : Z) : sockaddr_in6 :=
  mkSa (if IN6_IS_ADDR_LINKLOCAL a || IN6_IS_ADDR_MC_LINKLOCAL a then ifindex else 0) a.

(** [sendmsg] of the first bytes of the buffer. *)
Definition mld_sendmsg (src : sockaddr_in6) (dst : list Z) (ifindex datalen : Z) : Cmd (S * Mld) unit :=
  let! m := mld in
  chk! data := slice (mld6_send_buf m) 0 datalen in
  upd_mld (fun m => set_mld_sent (mld_sent m ++ [mkMldPacket src (mld_dst dst ifindex) ifindex data]) m).

Definition put_send_buf (off : Z) (b : list Z) : Cmd (S * Mld) unit :=
  let! m := mld in
  chk! buf := store (mld6_send_buf m) off b in
  upd_mld (set_mld6_send_buf buf).

(** [make_mld6_msg], for queries: [delay] in the place of the maximum response
    delay. *)
Definition mld_message (type code delay : Z) (group : list Z) : list Z :=
  [type; code; 0; 0] ++ be16 (u16 delay) ++ [0; 0] ++ group.

Definition send_mld6 (type code : Z) (src : sockaddr_in6) (group : list Z) (index delay : Z) : Cmd (S * Mld) unit :=
  do! put_send_buf 0 (mld_message type code delay group) ;;
  mld_sendmsg src (if IN6_IS_ADDR_UNSPECIFIED group then allnodes_group else group) index sizeof_mld_hdr.

(** ** mld6_proto.c, mld6v2_proto.c: the lists *)

(** The group, and the source if it is one of the group's. *)
Definition check_multicastV2_listener (mifi : Z) (group : sockaddr_in6) (source : option sockaddr_in6) : Cmd (S * Mld) (ptr * ptr) :=
  let! g := find_group mifi group in
  match g with
  | None => ret (None, None)
  | Some _ =>
      let! m := mld in
      let! l := la g in
      let! s := find_la (la_fuel m) (fun l => match source with Some a => inet6_equal a (al_addr l) | None => false end) (al_sources l) in
      ret (g, s)
  end.

Definition check_multicast_listener (mifi : Z) (group : sockaddr_in6) : Cmd (S * Mld) bool :=
  let! g := find_group mifi group in ret (bool_decide (is_Some g)).

(** ** mld6v2.c *)

(** Where the sources of an MLDv2 message are. *)
Definition mld_src_at (i : Z) : Z := 28 + 16 * i.

(** The timer of a source is lowered to the last listener query interval when
    more is left; the comparison is one without a sign. *)
Definition lower_source (vifi : Z) (g s : ptr) : Cmd (S * Mld) unit :=
  let! v := mvif vifi in
  let! l := la s in
  let! secs := t_left (F := mld_timer) (al_timerid l) in
  if decide (uv_mld_llqi v / MLD6_TIMER_SCALE < u32 secs) then
    do! t_clear (F := mld_timer) (al_timerid l) ;;
    do! upd_la s (set_al_timer (uv_mld_llqi v / MLD6_TIMER_SCALE)) ;;
    let! i := SetTimerV2 junk vifi g s in
    upd_la s (set_al_timerid i)
  else ret tt.

Definition put_source (nbsrc : Z) (l : listaddr) : Cmd (S * Mld) unit :=
  put_send_buf (mld_src_at nbsrc) (sin6_addr (al_addr l)).

(** The sources for a query without the S flag, and for one with it; the answer
    is their number. *)
Fixpoint sources_to_ask (fuel : nat) (vifi : Z) (g lstsrc : ptr) (nbsrc : Z) : Cmd (S * Mld) Z :=
  match fuel with
  | O => halt OutOfFuel
  | Datatypes.S fuel =>
      match lstsrc with
      | None => ret nbsrc
      | Some _ =>
          let! l := la lstsrc in
          if negb (al_checklist l =? LESSTHANLLQI) || bool_decide (al_rob l <= 0)
          then sources_to_ask fuel vifi g (al_next l) nbsrc
          else
            do! put_source nbsrc l ;;
            do! upd_la lstsrc (set_al_rob (al_rob l - 1)) ;;
            do! lower_source vifi g lstsrc ;;
            sources_to_ask fuel vifi g (al_next l) (nbsrc + 1)
      end
  end.

Fixpoint sources_heard (fuel : nat) (lstsrc : ptr) (nbsrc : Z) : Cmd (S * Mld) Z :=
  match fuel with
  | O => halt OutOfFuel
  | Datatypes.S fuel =>
      match lstsrc with
      | None => ret nbsrc
      | Some _ =>
          let! l := la lstsrc in
          if negb (al_checklist l =? MORETHANLLQI) then sources_heard fuel (al_next l) nbsrc
          else if decide (al_rob l <= 0) then
            do! upd_la lstsrc (set_al_checklist 0) ;;
            sources_heard fuel (al_next l) nbsrc
          else
            do! put_source nbsrc l ;;
            do! upd_la lstsrc (set_al_rob (al_rob l - 1)) ;;
            sources_heard fuel (al_next l) (nbsrc + 1)
      end
  end.

(** The sources of a specific query; [None]: there is nothing to send. *)
Definition specific_sources (vifi : Z) (group : sockaddr_in6) (sflag : Z) : Cmd (S * Mld) (option Z) :=
  let! gs := check_multicastV2_listener vifi group None in
  match gs.1 with
  | None => ret None
  | Some _ =>
      let! m := mld in
      let! l := la gs.1 in
      let! nbsrc := (if sflag =? SFLAGNO then sources_to_ask (la_fuel m) vifi gs.1 (al_sources l) 0
                     else sources_heard (la_fuel m) (al_sources l) 0) in
      ret (if nbsrc =? 0 then None else Some nbsrc)
  end.

(** The answer: the destination and the length. *)
Definition make_mld6v2_msg (type code : Z) (src : sockaddr_in6) (group : option sockaddr_in6) (delay sflag qrv qqic : Z) :
    Cmd (S * Mld) (option (list Z * Z)) :=
  let! m := mld in
  let vifi := local_address src (uvifs (pim m)) in
  if vifi =? NO_VIF then ret None else
  let! nbsrc := match group with Some group => specific_sources vifi group sflag | None => ret (Some 0) end in
  match nbsrc with
  | None => ret None
  | Some nbsrc =>
      let misc := if decide (qrv <= 7) then Z.lor sflag qrv else sflag in
      do! put_send_buf 0 [type; code] ;;
      do! put_send_buf 4 (be16 (u16 (codafloat delay 3 12).1)) ;;
      do! put_send_buf 8 (default in6addr_any (sin6_addr <$> group)) ;;
      do! put_send_buf 24 ([u8 misc; u8 (codafloat qqic 3 4).1] ++ be16 (u16 nbsrc)) ;;
      ret (Some (default allnodes_group (sin6_addr <$> group), mld_src_at nbsrc))
  end.

Definition send_mld6v2 (type code : Z) (src : sockaddr_in6) (group : option sockaddr_in6) (index delay sflag qrv qqic : Z) :
    Cmd (S * Mld) unit :=
  let! r := make_mld6v2_msg type code src group delay sflag qrv qqic in
  match r with
  | None => ret tt
  | Some (dst, datalen) => mld_sendmsg src dst index datalen
  end.

(** ** Queries *)

(** A general query of the version 1, if this router is the querier. *)
Definition query_groups (mifi : Z) : Cmd (S * Mld) unit :=
  let! mv := mvif mifi in
  let! v := routing (vif mifi) in
  do! routing (upd_vif mifi (set_uv_gq_timer (u16 (uv_mld_query_interval mv)))) ;;
  if has (uv_flags v) VIFF_QUERIER && negb (has (uv_flags v) VIFF_NOLISTENER) then
    let cnt := if uv_stquery_cnt mv =? 0 then 0 else uv_stquery_cnt mv - 1 in
    do! upd_mvif mifi (set_uv_stquery_cnt cnt) ;;
    do! routing (upd_vif mifi (set_uv_gq_timer (if cnt =? 0 then u16 (uv_mld_query_interval mv) else MLD6_STARTUP_QUERY_INTERVAL))) ;;
    let! src := routing (linklocal v) in
    send_mld6 MLD_LISTENER_QUERY 0 src in6addr_any (uv_ifindex v) (uv_mld_query_rsp_interval mv)
  else ret tt.

Definition query_groupsV2 (mifi : Z) : Cmd (S * Mld) unit :=
  let! mv := mvif mifi in
  let! v := routing (vif mifi) in
  do! (if negb (has (uv_flags v) VIFF_NOLISTENER) then
         let! src := routing (linklocal v) in
         send_mld6v2 MLD_LISTENER_QUERY 0 src None (uv_ifindex v) (uv_mld_query_rsp_interval mv) SFLAGNO
           (uv_mld_robustness mv) (uv_mld_query_interval mv)
       else ret tt) ;;
  routing (upd_vif mifi (set_uv_gq_timer (u16 (uv_mld_query_interval mv)))).
End Sending.
