(* ===== verification/MldProto.v ===== *)
(** * MldProto: listeners of pim6sd, the protocol (mld6_proto.c, mld6v2_proto.c, mld6.c, timer.c)

    Reports make groups and sources known and keep them, a timer for each
    removes them; a done message, and a record that blocks sources, lets the
    querier ask who still listens.  Of several routers the one with the lowest
    address is the querier.  What is learnt goes to the routing table as leaves
    ([Leaves]). *)

From stdpp Require Import base list numbers gmap.
From S2P Require Import Prelude Callout Inet6 Pim RpMatch Vif Mrt PimMsg Oifs Rp PimJp PimBsr PimReg PimJoin PimAssert PimRoute PimTimer Mld.
Open Scope Z_scope.

(** What the routing table offers (route.c): listeners for a group, or for a
    source of it, on an interface. *)
Class Leaves := {
  leaf_added : Z -> option sockaddr_in6 -> sockaddr_in6 -> Cmd Pim unit;
  leaf_deleted : Z -> option sockaddr_in6 -> sockaddr_in6 -> Cmd Pim unit
}.
Definition route_leaves (junk : ptr) : Leaves := {| leaf_added := add_leaf junk; leaf_deleted := delete_leaf junk |}.

(** The record types of MLDv2. *)
Definition MODE_IS_INCLUDE : Z := 1.
Definition MODE_IS_EXCLUDE : Z := 2.
Definition CHANGE_TO_INCLUDE_MODE : Z := 3.
Definition CHANGE_TO_EXCLUDE_MODE : Z := 4.
Definition ALLOW_NEW_SOURCES : Z := 5.
Definition BLOCK_OLD_SOURCES : Z := 6.

Section Code.
Context {S : Type} `{TS : TimerService mld_timer S} `{LV : Leaves}.
(** Is the program compiled with MLDv2; what new memory holds. *)
Context (MLDV2_LISTENER_REPORT : bool) (junk : listaddr).

Definition tmo_junk : Z := al_timer junk.

(** ** MLDv1 *)

(** [SetTimer] and the assignment of its answer. *)
Definition start_timer (mifi : Z) (g : ptr) : Cmd (S * Mld) unit :=
  let! i := SetTimer tmo_junk mifi g in upd_la g (set_al_timerid i).

Definition stop_timer (g : ptr) : Cmd (S * Mld) unit :=
  let! l := la g in
  if al_timerid l =? 0 then ret tt else let! z := DeleteTimer (al_timerid l) in upd_la g (set_al_timerid z).
Definition stop_query (g : ptr) : Cmd (S * Mld) unit :=
  let! l := la g in
  if al_query l =? 0 then ret tt else let! z := DeleteTimer (al_query l) in upd_la g (set_al_query z).

Definition link_group (mifi : Z) (g : ptr) : Cmd (S * Mld) unit :=
  let! v := mvif mifi in
  do! upd_la g (set_al_next (uv_groups v)) ;;
  upd_mvif mifi (set_uv_groups g).

Definition recv_listener_report (mifi : Z) (src grp : sockaddr_in6) : Cmd (S * Mld) unit :=
  let! v := mvif mifi in
  let! g := find_group mifi grp in
  match g with
  | Some _ =>
      do! upd_la g (fun l => set_al_timer (MLD6_LISTENER_INTERVAL v) (set_al_reporter src l)) ;;
      do! stop_query g ;;
      do! stop_timer g ;;
      do! start_timer mifi g ;;
      routing (leaf_added mifi None grp)
  | None =>
      let! g := new_la junk in
      match g with
      | None => exit (-1)
      | Some _ =>
          do! upd_la g (fun l => set_al_reporter src (set_al_timer (MLD6_LISTENER_INTERVAL v)
                                  (set_al_query 0 (set_al_sources None (set_al_addr grp l))))) ;;
          do! start_timer mifi g ;;
          do! link_group mifi g ;;
          do! upd_la g (set_comp_mode MLDv1) ;;
          routing (leaf_added mifi None grp)
      end
  end.

(** The query of a group, in the version asked for. *)
Definition group_query (mifi query_type : Z) (grp : sockaddr_in6) : Cmd (S * Mld) unit :=
  let! mv := mvif mifi in
  let! v := routing (vif mifi) in
  let! src := routing (linklocal v) in
  if negb MLDV2_LISTENER_REPORT || (query_type =? MLDv1)
  then send_mld6 MLD_LISTENER_QUERY 0 src (sin6_addr grp) (uv_ifindex v) (uv_mld_llqi mv)
  else send_mld6v2 tmo_junk MLD_LISTENER_QUERY 0 src (Some grp) (uv_ifindex v) (uv_mld_query_rsp_interval mv) SFLAGNO
         (uv_mld_robustness mv) (uv_mld_query_interval mv).

Definition asks (v : uvif) : bool := has (uv_flags v) VIFF_QUERIER && negb (has (uv_flags v) VIFF_NOLISTENER).

Definition recv_listener_done (mifi : Z) (grp : sockaddr_in6) (query_type : Z) : Cmd (S * Mld) unit :=
  let! mv := mvif mifi in
  let! v := routing (vif mifi) in
  if negb (has (uv_flags v) (Z.lor VIFF_QUERIER VIFF_DR)) then ret tt else
  let! g := find_group mifi grp in
  match g with
  | None => ret tt
  | Some _ =>
      let! l := la g in
      if negb (al_query l =? 0) then ret tt else
      do! stop_timer g ;;
      do! upd_la g (set_al_timer (u32 (uv_mld_llqi mv / MLD6_TIMER_SCALE * (uv_mld_robustness mv + 1)))) ;;
      do! (if asks v then group_query mifi query_type (al_addr l) else ret tt) ;;
      let! i := SetQueryTimer g mifi (uv_mld_llqi mv / MLD6_TIMER_SCALE) (uv_mld_llqi mv) in
      do! upd_la g (set_al_query i) ;;
      start_timer mifi g
  end.

(** [*anp = v], where [anp] is the head of the list or a member of the node
    before. *)
Definition set_anp (mifi : Z) (anp v : ptr) : Cmd (S * Mld) unit :=
  match anp with
  | None => upd_mvif mifi (set_uv_groups v)
  | Some _ => upd_la anp (set_al_next v)
  end.

(** The loop of [DelVif]. *)
Fixpoint remove_group (fuel : nat) (mifi : Z) (g anp a : ptr) : Cmd (S * Mld) unit :=
  match fuel with
  | O => halt OutOfFuel
  | Datatypes.S fuel =>
      match a with
      | None => ret tt
      | Some _ =>
          let! l := la a in
          if bool_decide (a = g) then
            do! set_anp mifi anp (al_next l) ;;
            do! free_la a ;;
            remove_group fuel mifi g anp (al_next l)
          else remove_group fuel mifi g a (al_next l)
      end
  end.

Definition DelVif (d : Z) : Cmd (S * Mld) unit :=
  let! c := cbk d in
  let mifi := cbk_mifi c in
  let! l := la (cbk_g c) in
  do! (if al_query l =? 0 then ret tt else let! _ := DeleteTimer (al_query l) in ret tt) ;;
  do! routing (leaf_deleted mifi None (al_addr l)) ;;
  let! m := mld in
  let! v := mvif mifi in
  do! remove_group (la_fuel m) mifi (cbk_g c) None (uv_groups v) ;;
  free_cbk d.

Definition SendQuery (d : Z) : Cmd (S * Mld) unit :=
  let! c := cbk d in
  let! v := routing (vif (cbk_mifi c)) in
  do! (if asks v then
         let! src := routing (linklocal v) in
         let! l := la (cbk_g c) in
         send_mld6 MLD_LISTENER_QUERY 0 src (sin6_addr (al_addr l)) (uv_ifindex v) (q_time c)
       else ret tt) ;;
  do! upd_la (cbk_g c) (set_al_query 0) ;;
  free_cbk d.

(** ** The querier of an interface *)

Definition upd_querier (mifi : Z) (f : querier -> querier) : Cmd (S * Mld) unit :=
  let! v := mvif mifi in
  chk! q := uv_querier v in
  upd_mvif mifi (set_uv_querier (Some (f q))).
Definition upd_flags (mifi : Z) (f : Z -> Z) : Cmd (S * Mld) unit := routing (upd_vif mifi (fun v => set_uv_flags (f (uv_flags v)) v)).

(** A group that another router asks for: the last chance to report. *)
Definition last_chance (mifi : Z) (group : sockaddr_in6) (tmo : Z) : Cmd (S * Mld) unit :=
  let! m := mld in
  let! v := mvif mifi in
  let! g := find_la (la_fuel m) (fun l => inet6_equal group (al_addr l) && (al_query l =? 0)) (uv_groups v) in
  match g with
  | None => ret tt
  | Some _ =>
      do! stop_timer g ;;
      do! upd_la g (fun l => set_al_query (-1) (set_al_timer (u32 (Z.quot (s32 (uv_mld_robustness v * tmo)) MLD6_TIMER_SCALE)) l)) ;;
      start_timer mifi g
  end.

Definition accept_listener_query (src : sockaddr_in6) (group : list Z) (tmo : Z) : Cmd (S * Mld) unit :=
  let! m := mld in
  let vs := uvifs (pim m) in
  if negb (local_address src vs =? NO_VIF) then ret tt else
  let mifi := find_vif_direct src vs in
  if mifi =? NO_VIF then ret tt else
  let! mv := mvif mifi in
  if Z.land (uv_mld_version mv) MLDv1 =? 0 then ret tt else
  chk! q := uv_querier mv in
  do! (if negb (inet6_equal (qr_addr q) src) && inet6_lessthan src (qr_addr q) then
         do! upd_flags mifi (fun f => Z.ldiff f VIFF_QUERIER) ;;
         upd_querier mifi (set_qr_addr src)
       else ret tt) ;;
  let! v := routing (vif mifi) in
  if has (uv_flags v) VIFF_QUERIER then ret tt else
  let! mv := mvif mifi in
  chk! q := uv_querier mv in
  do! (if inet6_equal src (qr_addr q) then upd_querier mifi (set_qr_timer (MLD6_OTHER_QUERIER_PRESENT_INTERVAL mv)) else ret tt) ;;
  if IN6_IS_ADDR_UNSPECIFIED group then ret tt else last_chance mifi (scoped v group) tmo.

(** ** MLDv2 *)

(** The sources of a group are forgotten. *)
Fixpoint dispose_sources (fuel : nat) (mifi : Z) (g s : ptr) : Cmd (S * Mld) unit :=
  match fuel with
  | O => halt OutOfFuel
  | Datatypes.S fuel =>
      match s with
      | None => ret tt
      | Some _ =>
          let! l := la s in
          do! (if al_timerid l =? 0 then ret tt else t_clear (F := mld_timer) (al_timerid l)) ;;
          let! lg := la g in
          do! routing (leaf_deleted mifi (Some (al_addr l)) (al_addr lg)) ;;
          do! free_la s ;;
          dispose_sources fuel mifi g (al_next l)
      end
  end.

(** The group in the mode for the version 1, a new one if there is none. *)
Definition v1_group (mifi : Z) (src grp : sockaddr_in6) : Cmd (S * Mld) ptr :=
  let! g := find_group mifi grp in
  match g with
  | Some _ => ret g
  | None =>
      let! g := new_la (mkLa None grp None 0 MLDv1 src 0 0 0 0) in
      match g with
      | None => exit (-1)
      | Some _ =>
          do! link_group mifi g ;;
          do! routing (leaf_added mifi None grp) ;;
          ret g
      end
  end.

Definition mld_shift_to_v1mode (mifi : Z) (src grp : sockaddr_in6) : Cmd (S * Mld) unit :=
  let! g := v1_group mifi src grp in
  let! l := la g in
  do! (if comp_mode l =? MLDv1 then ret tt else
       let! m := mld in
       do! dispose_sources (la_fuel m) mifi g (al_sources l) ;;
       do! upd_la g (fun l => set_comp_mode MLDv1 (set_al_sources None l)) ;;
       query_groups mifi) ;;
  do! stop_timer g ;;
  let! v := mvif mifi in
  do! upd_la g (set_al_timer (MLD6_LISTENER_INTERVAL v)) ;;
  let! i := SetTimerV1compat tmo_junk mifi g in
  upd_la g (set_al_timerid i).

Definition mld_shift_to_v2mode (d : Z) : Cmd (S * Mld) unit :=
  let! c := cbk d in
  let! lg := la (cbk_g c) in
  let! g := find_group (cbk_mifi c) (al_addr lg) in
  match g with
  | None => exit (-1)
  | Some _ =>
      do! DelVif d ;;
      upd_la g (set_comp_mode MLDv2)
  end.

(** Two queries for the sources of a group: for those that may be left, and for
    those that were heard again; and once more later. *)
Definition SendQueryV2spec (d : Z) : Cmd (S * Mld) unit :=
  let! c := cbk d in
  let mifi := cbk_mifi c in
  let! mv := mvif mifi in
  let! v := routing (vif mifi) in
  let! src := routing (linklocal v) in
  let ask sflag :=
    let! l := la (cbk_g c) in
    send_mld6v2 tmo_junk MLD_LISTENER_QUERY 0 src (Some (al_addr l)) (uv_ifindex v) (uv_mld_query_rsp_interval mv) sflag
      (uv_mld_robustness mv) (uv_mld_query_interval mv) in
  do! ask SFLAGNO ;;
  do! ask SFLAGYES ;;
  do! upd_la (cbk_g c) (fun l => set_al_rob (al_rob l - 1) l) ;;
  let! l := la (cbk_g c) in
  if decide (al_rob l > 0) then
    if uv_mld_robustness mv =? 0 then halt OutOfBounds else
    let! _ := t_set (s32 (uv_mld_llqi mv / MLD6_TIMER_SCALE / uv_mld_robustness mv)) (Some SendQueryV2spec_) d in ret tt
  else free_cbk d.

(** A query of another router lowers the timer of a source. *)
Definition lower_by_query (vifi : Z) (g s : ptr) : Cmd (S * Mld) unit :=
  let! v := mvif vifi in
  let! l := la s in
  let! secs := t_left (F := mld_timer) (al_timerid l) in
  if decide (uv_mld_llqi v / MLD6_TIMER_SCALE < secs) then
    do! t_clear (F := mld_timer) (al_timerid l) ;;
    do! upd_la s (set_al_timer (uv_mld_llqi v / MLD6_TIMER_SCALE)) ;;
    let! i := SetTimerV2 tmo_junk vifi g s in
    upd_la s (set_al_timerid i)
  else ret tt.

Fixpoint query_sources (n : nat) (i vifi : Z) (v : uvif) (group : sockaddr_in6) (msg : list Z) : Cmd (S * Mld) unit :=
  match n with
  | O => ret tt
  | Datatypes.S n =>
      chk! a := slice msg (mld_src_at i) 16 in
      let! gs := check_multicastV2_listener vifi group (Some (scoped v a)) in
      do! match gs.2 with Some _ => lower_by_query vifi gs.1 gs.2 | None => ret tt end ;;
      query_sources n (i + 1) vifi v group msg
  end.

(** A code of 128 and more is a number of the floating point form; it is kept
    in a byte. *)
Definition query_interval (mld_qqi : Z) : Z := if decide (mld_qqi >= 128) then u8 (decodeafloat mld_qqi 3 4) else mld_qqi.

(** [query_message]: the receive buffer. *)
Definition accept_listenerV2_query (src : sockaddr_in6) (query_message : list Z) : Cmd (S * Mld) unit :=
  let! m := mld in
  let vs := uvifs (pim m) in
  if negb (local_address src vs =? NO_VIF) then ret tt else
  let vifi := find_vif_direct src vs in
  if vifi =? NO_VIF then ret tt else
  let! mv := mvif vifi in
  if Z.land (uv_mld_version mv) MLDv2 =? 0 then ret tt else
  chk! group := slice query_message 8 16 in
  chk! rtval := rd query_message 24 in
  chk! mld_qqi := rd query_message 25 in
  chk! (numsrc, _) := GET_HOSTSHORT query_message 26 in
  let qqi := query_interval mld_qqi in
  let qrv := Z.land rtval 0x07 in
  let sflag := Z.land rtval 0x08 in
  let! v := routing (vif vifi) in
  let! mine := routing (linklocal v) in
  do! (if inet6_lessthan src mine then
         do! upd_flags vifi (fun f => Z.ldiff f VIFF_QUERIER) ;;
         upd_querier vifi (fun q => set_qr_timer (MLD6_OTHER_QUERIER_PRESENT_INTERVAL mv) (set_qr_addr src q))
       else ret tt) ;;
  let! v := routing (vif vifi) in
  if has (uv_flags v) VIFF_QUERIER then ret tt else
  do! (if qrv =? 0 then ret tt else upd_mvif vifi (set_uv_mld_robustness qrv)) ;;
  do! (if qqi =? 0 then ret tt else upd_mvif vifi (set_uv_mld_query_interval qqi)) ;;
  if negb (sflag =? 0) || IN6_IS_ADDR_UNSPECIFIED group then ret tt
  else query_sources (Z.to_nat numsrc) 0 vifi v (scoped v group) query_message.

(** *** Records *)

(** A source that a record wants; [g]: its group, if it is known. *)
Definition refresh_source (vifi : Z) (g s : ptr) : Cmd (S * Mld) unit :=
  let! v := mvif vifi in
  let! l := la s in
  do! t_clear (F := mld_timer) (al_timerid l) ;;
  do! upd_la s (set_al_timer (MLD6_LISTENER_INTERVAL v)) ;;
  let! i := SetTimerV2 tmo_junk vifi g s in
  upd_la s (fun l => set_al_checklist (if decide (al_rob l > 0) then MORETHANLLQI else 0) (set_al_timerid i l)).

Definition new_group (vifi : Z) (grp : sockaddr_in6) : Cmd (S * Mld) ptr :=
  let! g := new_la junk in
  match g with
  | None => exit (-1)
  | Some _ =>
      do! upd_la g (fun l => set_al_sources None (set_al_addr grp l)) ;;
      do! link_group vifi g ;;
      ret g
  end.

Definition add_source (vifi : Z) (grp source_sa : sockaddr_in6) (g : ptr) : Cmd (S * Mld) unit :=
  let! v := mvif vifi in
  let! s := new_la junk in
  match s with
  | None => exit (-1)
  | Some _ =>
      do! upd_la s (fun l => set_al_sources None (set_al_addr source_sa l)) ;;
      let! g := match g with Some _ => ret g | None => new_group vifi grp end in
      do! upd_la s (fun l => set_al_timer (MLD6_LISTENER_INTERVAL v) (set_al_checklist 0 l)) ;;
      let! i := SetTimerV2 tmo_junk vifi g s in
      do! upd_la s (set_al_timerid i) ;;
      let! l := la g in
      do! upd_la s (set_al_next (al_sources l)) ;;
      upd_la g (set_al_sources s)
  end.

(** The source [j] of a record that starts at [mard] in the buffer. *)
Definition record_source (msg : list Z) (mard j : Z) : option (list Z) := slice msg (mard + 20 + 16 * j) 16.

Fixpoint include_sources (n : nat) (j vifi : Z) (v : uvif) (msg : list Z) (mard : Z) (grp : sockaddr_in6) : Cmd (S * Mld) unit :=
  match n with
  | O => ret tt
  | Datatypes.S n =>
      chk! a := record_source msg mard j in
      let source_sa := scoped v a in
      let! gs := check_multicastV2_listener vifi grp (Some source_sa) in
      do! match gs.2 with Some _ => refresh_source vifi gs.1 gs.2 | None => add_source vifi grp source_sa gs.1 end ;;
      do! routing (leaf_added vifi (Some source_sa) grp) ;;
      include_sources n (j + 1) vifi v msg mard grp
  end.

(** The loop over blocked sources ends at one that is not known; [gs]: what the
    variables [g] and [s] hold. *)
Fixpoint block_sources (n : nat) (j vifi : Z) (v : uvif) (msg : list Z) (mard : Z) (grp : sockaddr_in6) (gs : ptr * ptr) :
    Cmd (S * Mld) (ptr * ptr) :=
  match n with
  | O => ret gs
  | Datatypes.S n =>
      chk! a := record_source msg mard j in
      let! gs := check_multicastV2_listener vifi grp (Some (scoped v a)) in
      match gs.2 with
      | None => ret gs
      | Some _ =>
          let! mv := mvif vifi in
          let! l := la gs.2 in
          if al_checklist l =? LESSTHANLLQI then block_sources n (j + 1) vifi v msg mard grp (gs.1, None)
          else
            do! upd_la gs.2 (fun l => set_al_rob (uv_mld_robustness mv) (set_al_checklist LESSTHANLLQI l)) ;;
            block_sources n (j + 1) vifi v msg mard grp gs
      end
  end.

Definition block_record (numsrc vifi : Z) (v : uvif) (msg : list Z) (mard : Z) (grp : sockaddr_in6) : Cmd (S * Mld) unit :=
  let! gs := block_sources (Z.to_nat numsrc) 0 vifi v msg mard grp (None, None) in
  match gs.2 with
  | None => ret tt
  | Some _ =>
      let! mv := mvif vifi in
      let! c := new_cbk (mkCbk vifi gs.1 None (uv_mld_llqi mv)) in
      match c with
      | None => exit (-1)
      | Some c =>
          do! upd_la gs.1 (set_al_rob (uv_mld_robustness mv)) ;;
          SendQueryV2spec c
      end
  end.

Definition accept_multicast_record (vifi : Z) (msg : list Z) (mard : Z) (src grp : sockaddr_in6) : Cmd (S * Mld) unit :=
  let! v := routing (vif vifi) in
  chk! record_type := rd msg mard in
  chk! (numsrc, _) := GET_HOSTSHORT msg (mard + 2) in
  if (record_type =? MODE_IS_INCLUDE) || (record_type =? ALLOW_NEW_SOURCES) then
    include_sources (Z.to_nat numsrc) 0 vifi v msg mard grp
  else if record_type =? BLOCK_OLD_SOURCES then
    if asks v then block_record numsrc vifi v msg mard grp else ret tt
  else if record_type =? MODE_IS_EXCLUDE then recv_listener_report vifi src grp
  else if record_type =? CHANGE_TO_INCLUDE_MODE then
    if numsrc =? 0 then recv_listener_done vifi grp MLDv2 else recv_listener_report vifi src grp
  else if record_type =? CHANGE_TO_EXCLUDE_MODE then recv_listener_report vifi src grp
  else ret tt.

(** A record for a group in the mode for the version 1: the sources do not
    count. *)
Definition strip_source_in_multicast_record (vifi : Z) (msg : list Z) (mard : Z) (src grp : sockaddr_in6) : Cmd (S * Mld) unit :=
  chk! record_type := rd msg mard in
  chk! (numsrc, _) := GET_HOSTSHORT msg (mard + 2) in
  let regard_as_done := recv_listener_done vifi grp MLDv2 in
  let regard_as_report := recv_listener_report vifi src grp in
  if record_type =? MODE_IS_INCLUDE then if numsrc =? 0 then regard_as_done else regard_as_report
  else if record_type =? ALLOW_NEW_SOURCES then regard_as_report
  else if record_type =? BLOCK_OLD_SOURCES then ret tt
  else if record_type =? MODE_IS_EXCLUDE then regard_as_report
  else if record_type =? CHANGE_TO_INCLUDE_MODE then if numsrc =? 0 then regard_as_done else regard_as_report
  else if record_type =? CHANGE_TO_EXCLUDE_MODE then if numsrc =? 0 then regard_as_done else regard_as_report
  else ret tt.

(** The records of a report; [mard]: where the next one starts, after [i]
    records with [totsrc] sources. *)
Fixpoint report_records (n : nat) (i totsrc vifi : Z) (v : uvif) (src : sockaddr_in6) (msg : list Z) : Cmd (S * Mld) unit :=
  match n with
  | O => ret tt
  | Datatypes.S n =>
      let mard := 8 + 36 * i - 16 * i + totsrc * 16 in
      chk! (numsrc, _) := GET_HOSTSHORT msg (mard + 2) in
      chk! group := slice msg (mard + 4) 16 in
      let group_sa := scoped v group in
      do! (if IN6_IS_ADDR_MC_LINKLOCAL group then ret tt else
           let! g := find_group vifi group_sa in
           match g with
           | None => accept_multicast_record vifi msg mard src group_sa
           | Some _ =>
               let! l := la g in
               if comp_mode l =? MLDv1 then strip_source_in_multicast_record vifi msg mard src group_sa
               else accept_multicast_record vifi msg mard src group_sa
           end) ;;
      report_records n (i + 1) (totsrc + numsrc) vifi v src msg
  end.

Definition accept_listenerV2_report (src : sockaddr_in6) (report_message : list Z) : Cmd (S * Mld) unit :=
  let! m := mld in
  let vifi := find_vif_direct_local src (uvifs (pim m)) in
  if vifi =? NO_VIF then ret tt else
  let! mv := mvif vifi in
  if Z.land (uv_mld_version mv) MLDv2 =? 0 then ret tt else
  let! v := routing (vif vifi) in
  chk! (nummard, _) := GET_HOSTSHORT report_message 6 in
  report_records (Z.to_nat nummard) 0 0 vifi v src report_message.

(** The loops of [DelVifV2]: a source leaves the list of its group, and the
    group its interface when it was the last one. *)
Fixpoint remove_source (fuel : nat) (g s anq b : ptr) : Cmd (S * Mld) unit :=
  match fuel with
  | O => halt OutOfFuel
  | Datatypes.S fuel =>
      match b with
      | None => ret tt
      | Some _ =>
          let! l := la b in
          if bool_decide (b = s) then
            do! match anq with None => upd_la g (set_al_sources (al_next l)) | Some _ => upd_la anq (set_al_next (al_next l)) end ;;
            free_la b
          else remove_source fuel g s b (al_next l)
      end
  end.

Fixpoint remove_source_of (fuel : nat) (mifi : Z) (g s anp a : ptr) : Cmd (S * Mld) unit :=
  match fuel with
  | O => halt OutOfFuel
  | Datatypes.S fuel =>
      match a with
      | None => ret tt
      | Some _ =>
          let! l := la a in
          if bool_decide (a = g) then
            let! m := mld in
            do! remove_source (la_fuel m) a s None (al_sources l) ;;
            let! l := la a in
            match al_sources l with
            | None => do! set_anp mifi anp (al_next l) ;; free_la a
            | Some _ => ret tt
            end
          else remove_source_of fuel mifi g s a (al_next l)
      end
  end.

Definition DelVifV2 (d : Z) : Cmd (S * Mld) unit :=
  let! c := cbk d in
  let! ls := la (cbk_s c) in
  let! lg := la (cbk_g c) in
  do! routing (leaf_deleted (cbk_mifi c) (Some (al_addr ls)) (al_addr lg)) ;;
  let! m := mld in
  let! v := mvif (cbk_mifi c) in
  do! remove_source_of (la_fuel m) (cbk_mifi c) (cbk_g c) (cbk_s c) None (uv_groups v) ;;
  free_cbk d.

(** ** The daemon *)

(** The function of a timer. *)
Definition invoke_mld (f : mld_timer) (d : Z) : Cmd (S * Mld) unit :=
  match f with
  | DelVif_ => DelVif d
  | SendQuery_ => SendQuery d
  | SendQueryV2spec_ => SendQueryV2spec d
  | DelVifV2_ => DelVifV2 d
  | mld_shift_to_v2mode_ => mld_shift_to_v2mode d
  end.

Definition accept_listener_report (src : sockaddr_in6) (group : list Z) : Cmd (S * Mld) unit :=
  if IN6_IS_ADDR_MC_LINKLOCAL group then ret tt else
  let! m := mld in
  let mifi := find_vif_direct_local src (uvifs (pim m)) in
  if mifi =? NO_VIF then ret tt else
  let! v := routing (vif mifi) in
  let! mv := mvif mifi in
  if Z.land (uv_mld_version mv) MLDv1 =? 0 then ret tt else
  if MLDV2_LISTENER_REPORT && negb (Z.land (uv_mld_version mv) MLDv2 =? 0)
  then mld_shift_to_v1mode mifi src (scoped v group)
  else recv_listener_report mifi src (scoped v group).

Definition accept_listener_done (src : sockaddr_in6) (group : list Z) : Cmd (S * Mld) unit :=
  if IN6_IS_ADDR_MC_NODELOCAL group || IN6_IS_ADDR_MC_LINKLOCAL group then ret tt else
  let! m := mld in
  let mifi := find_vif_direct_local src (uvifs (pim m)) in
  if mifi =? NO_VIF then ret tt else
  let! v := routing (vif mifi) in
  let! mv := mvif mifi in
  if Z.land (uv_mld_version mv) MLDv1 =? 0 then ret tt else
  recv_listener_done mifi (scoped v group) MLDv1.

(** The general query of an interface, in its version. *)
Definition general_query (mifi : Z) : Cmd (S * Mld) unit :=
  let! mv := mvif mifi in
  if MLDV2_LISTENER_REPORT && negb (Z.land (uv_mld_version mv) MLDv2 =? 0) then query_groupsV2 tmo_junk mifi
  else if negb (Z.land (uv_mld_version mv) MLDv1 =? 0) then query_groups mifi
  else ret tt.

(** Of [age_vifs]: when the other querier has been silent too long this router
    is the querier; the querier asks from time to time. *)
Definition age_querier (mifi : Z) : Cmd (S * Mld) unit :=
  let! v := routing (vif mifi) in
  if silent v then ret tt else
  let! m := mld in
  let! mv := mvif mifi in
  let interval := timer_interval (vars (pim m)) in
  match (if has (uv_flags v) VIFF_QUERIER then None else uv_querier mv) with
  | Some q =>
      let r := tick interval (qr_timer q) in
      do! upd_querier mifi (set_qr_timer r.2) ;;
      if r.1 : bool then
        do! general_query mifi ;;
        do! upd_flags mifi (fun f => Z.lor f VIFF_QUERIER) ;;
        let! src := routing (linklocal v) in
        let! mv := mvif mifi in
        upd_querier mifi (fun q => set_qr_timer (MLD6_OTHER_QUERIER_PRESENT_INTERVAL mv) (set_qr_addr src q))
      else ret tt
  | None =>
      let r := tick interval (uv_gq_timer v) in
      do! routing (upd_vif mifi (set_uv_gq_timer r.2)) ;;
      if r.1 : bool then general_query mifi else ret tt
  end.

(** [accept_mld6] gives a message to the function for its type.  [pktinfo] and
    [hoplimit]: what the kernel told with the message; [MLD6V2_LISTENER_REPORT]:
    the type of reports of the version 2, if the system's headers have the name;
    [accept_mtrace], [kernel_call]: trace requests, and calls of the kernel. *)
Definition accept_mld6 (MLD6V2_LISTENER_REPORT : option Z) (MLD_MTRACE : option Z) (accept_mtrace kernel_call : Cmd Pim unit)
    (src : sockaddr_in6) (pktinfo : option (list Z * Z)) (hoplimit : option Z) (msg : list Z) (recvlen : Z) : Cmd (S * Mld) unit :=
  if decide (recvlen < sizeof_mld_hdr) then ret tt else
  chk! mld_type := rd msg 0 in
  if mld_type =? 0 then routing kernel_call else
  match hoplimit with
  | None => ret tt
  | Some _ =>
      if bool_decide (MLD_MTRACE = Some mld_type) then routing accept_mtrace else
      let ifindex := match pktinfo with Some (_, i) => i | None => 0 end in
      if ifindex =? 0 then ret tt else
      chk! group := slice msg 8 16 in
      if IN6_IS_ADDR_MC_NODELOCAL group then ret tt else
      if negb (IN6_IS_ADDR_LINKLOCAL (sin6_addr src)) && negb (IN6_IS_ADDR_UNSPECIFIED (sin6_addr src)) then ret tt else
      if mld_type =? MLD_LISTENER_QUERY then
        chk! (maxdelay, _) := GET_HOSTSHORT msg 4 in
        do! (if recvlen =? 24 then accept_listener_query src group maxdelay else ret tt) ;;
        match MLD6V2_LISTENER_REPORT with
        | Some _ => if decide (recvlen >= 28) then accept_listenerV2_query src msg else ret tt
        | None => ret tt
        end
      else if mld_type =? MLD_LISTENER_REPORT then accept_listener_report src group
      else if mld_type =? MLD_LISTENER_DONE then accept_listener_done src group
      else if bool_decide (MLD6V2_LISTENER_REPORT = Some mld_type) then accept_listenerV2_report src msg
      else ret tt
  end.

(** The timers of the listeners when [elapsed_time] seconds have passed. *)
Definition age_mld (elapsed_time : Z) : Cmd (S * Mld) unit := t_age invoke_mld elapsed_time.
End Code.
