(* ===== verification/MldMem.v ===== *)
(** * MldMem: lemmas on the lists of listeners

    The groups of the interfaces are disjoint chains of nodes; finding a group
    and unlinking it are the operations of lists of nodes. *)

From stdpp Require Import base list numbers gmap.
From S2P Require Import Prelude Callout Inet6 Pim Vif PimMsg PimJp Mld MldProto.
Open Scope Z_scope.
#[local] Coercion Z.of_nat : nat >-> Z.

(** ** Lists with an index of [Z] *)

Lemma rd_nat {A} (l : list A) i v : rd l i = Some v <-> exists n, i = Z.of_nat n /\ l !! n = Some v.
Proof.
  unfold rd. case_decide; split.
  - intros E. exists (Z.to_nat i). split; [lia|done].
  - intros (n & -> & E). by rewrite Nat2Z.id.
  - done.
  - intros (n & -> & E). lia.
Qed.
Lemma rd_of_nat {A} (l : list A) (n : nat) : rd l n = l !! n.
Proof. unfold rd. rewrite decide_True by lia. by rewrite Nat2Z.id. Qed.
Lemma store_nat {A} (l : list A) (n : nat) x : (n < length l)%nat -> store l n [x] = Some (<[n := x]> l).
Proof.
  intros H. unfold store, zlen. cbn [length]. rewrite decide_True by lia. rewrite Nat2Z.id, insert_take_drop by done.
  do 2 f_equal. cbn. f_equal. f_equal. lia.
Qed.

(** ** Chains *)

(** The nodes [ks] are linked from [p] on. *)
Fixpoint chain (h : gmap nat listaddr) (p : ptr) (ks : list nat) : Prop :=
  match ks with
  | [] => p = None
  | k :: ks => p = Some k /\ exists l, h !! k = Some l /\ chain h (al_next l) ks
  end.

Lemma chain_nodes h p ks k : chain h p ks -> k ∈ ks -> is_Some (h !! k).
Proof.
  revert p. induction ks as [|k' ks IH]; intros p C E; [by apply not_elem_of_nil in E|].
  destruct C as (-> & l & El & C). apply elem_of_cons in E as [->|E]; [by rewrite El|eauto].
Qed.

(** A chain is not touched by what happens elsewhere, nor by assignments to
    other members. *)
Lemma chain_same h h' p ks : (forall k l, k ∈ ks -> h !! k = Some l -> exists l', h' !! k = Some l' /\ al_next l' = al_next l) ->
  chain h p ks -> chain h' p ks.
Proof.
  revert p. induction ks as [|k ks IH]; intros p H C; [done|].
  destruct C as (-> & l & El & C). split; [done|].
  destruct (H k l) as (l' & El' & En); [by left|done|]. exists l'. rewrite En. split; [done|].
  apply IH; [|done]. intros k' l0 Hk. apply H. by right.
Qed.

Lemma chain_link h p ks k l : k ∉ ks -> chain h p ks -> chain (<[k := l]> h) p ks.
Proof. intros N. apply chain_same. intros k' l' Hk E. exists l'. rewrite lookup_insert_ne by congruence. done. Qed.
Lemma chain_free h p ks k : k ∉ ks -> chain h p ks -> chain (delete k h) p ks.
Proof. intros N. apply chain_same. intros k' l' Hk E. exists l'. rewrite lookup_delete_ne by congruence. done. Qed.
Lemma chain_upd h p ks k l l' : h !! k = Some l -> al_next l' = al_next l -> chain h p ks -> chain (<[k := l']> h) p ks.
Proof.
  intros E En. apply chain_same. intros k' l0 Hk E0. destruct (decide (k' = k)) as [->|].
  - exists l'. rewrite lookup_insert_eq. split; [done|]. congruence.
  - exists l0. by rewrite lookup_insert_ne by done.
Qed.

(** The pointer before the rest of a list: the last of the nodes passed. *)
Definition before (anp : ptr) (ks : list nat) : ptr := match last ks with Some k => Some k | None => anp end.

Lemma chain_app h p ks k rest : chain h p (ks ++ k :: rest) -> exists l, h !! k = Some l /\ chain h (al_next l) rest.
Proof.
  revert p. induction ks as [|k' ks IH]; intros p C.
  - destruct C as (_ & l & El & C). eauto.
  - destruct C as (_ & l & El & C). eauto.
Qed.

(** Unlinking a node. *)
Lemma chain_unlink h p ks k rest l : NoDup (ks ++ k :: rest) -> chain h p (ks ++ k :: rest) -> h !! k = Some l ->
  match last ks with
  | None => chain (delete k h) (al_next l) (ks ++ rest)
  | Some b => exists lb, h !! b = Some lb /\ chain (delete k (<[b := set_al_next (al_next l) lb]> h)) p (ks ++ rest)
  end.
Proof.
  revert p. induction ks as [|a ks IH]; intros p N C E.
  - destruct C as (-> & l' & El' & C). assert (l' = l) as -> by congruence. cbn. apply chain_free; [|done].
    apply NoDup_cons in N. tauto.
  - destruct C as (-> & la_ & Ela & C). cbn [app] in N. apply NoDup_cons in N as [Na N].
    destruct ks as [|a' ks].
    + cbn [last]. exists la_. split; [done|]. cbn [app]. destruct C as (Hn & l' & El' & C). assert (l' = l) as -> by congruence.
      assert (a <> k) by (intros ->; apply Na; left). apply NoDup_cons in N as [Nk N]. split; [done|].
      exists (set_al_next (al_next l) la_). rewrite lookup_delete_ne, lookup_insert_eq by done. split; [done|]. cbn.
      apply chain_free; [done|]. apply chain_link; [|done]. intros Hin. apply Na. by right.
    + assert (la_' : last (a :: a' :: ks) = last (a' :: ks)) by done. rewrite la_'. clear la_'.
      specialize (IH (al_next la_) N C E). destruct (last (a' :: ks)) as [b|] eqn:L; [|by rewrite last_None in L].
      destruct IH as (lb & Eb & IH). exists lb. split; [done|]. split; [done|].
      assert (Hb : b ∈ (a' :: ks)) by (apply last_Some_elem_of; done).
      assert (a <> b) by (intros ->; apply Na; apply elem_of_app; by left).
      assert (a <> k) by (intros ->; apply Na; apply elem_of_app; right; left).
      exists la_. rewrite lookup_delete_ne, lookup_insert_ne by done. done.
Qed.

(** ** Commands that return *)

(** Run in [s], the command returns with [Q]. *)
Definition runs {S A} (m : Cmd S A) (s : S) (Q : A -> S -> Prop) : Prop := exists r s', m s = Ok r s' /\ Q r s'.

Lemma runs_bind {S A B} (m : Cmd S A) (k : A -> Cmd S B) s Q : runs m s (fun r s' => runs (k r) s' Q) -> runs (bind m k) s Q.
Proof. intros (r & s' & E & r' & s'' & E' & H). exists r', s''. by rewrite (bind_Ok _ _ _ _ _ E). Qed.
Lemma runs_mono {S A} (m : Cmd S A) s (Q Q' : A -> S -> Prop) : runs m s Q -> (forall r s', Q r s' -> Q' r s') -> runs m s Q'.
Proof. intros (r & s' & E & H) I. exists r, s'. auto. Qed.
Lemma runs_ret {S A} (r : A) (s : S) (Q : A -> S -> Prop) : Q r s -> runs (ret r) s Q.
Proof. intros H. by exists r, s. Qed.
Lemma runs_Ok {S A B} (m : Cmd S A) (k : A -> Cmd S B) s r s' Q : m s = Ok r s' -> runs (k r) s' Q -> runs (bind m k) s Q.
Proof. intros E H. apply runs_bind. by exists r, s'. Qed.
Lemma runs_eq {S A} (m : Cmd S A) s r s' Q : m s = Ok r s' -> Q r s' -> runs m s Q.
Proof. intros E H. by exists r, s'. Qed.

Section Ops.
Context {S : Type} `{TS : !TimerService mld_timer S}.
Implicit Types (s : S) (m : Mld).

Lemma mld_Ok s m : mld (s, m) = Ok m (s, m).
Proof. done. Qed.
Lemma upd_mld_Ok f s m : upd_mld f (s, m) = Ok tt (s, f m).
Proof. done. Qed.
Lemma routing_Ok {A} (c : Cmd Pim A) s m r p : c (pim m) = Ok r p -> routing c (s, m) = Ok r (s, set_pim p m).
Proof. intros E. unfold routing. cbn. by rewrite E. Qed.
Lemma set_pim_same m : set_pim (pim m) m = m.
Proof. by destruct m. Qed.
Lemma routing_same {A} (c : Cmd Pim A) s m r : c (pim m) = Ok r (pim m) -> routing c (s, m) = Ok r (s, m).
Proof. intros E. rewrite (routing_Ok _ _ _ _ _ E). by rewrite set_pim_same. Qed.

Lemma la_Ok k l s m : las m !! k = Some l -> la (Some k) (s, m) = Ok l (s, m).
Proof. intros E. unfold la. rewrite (bind_Ok _ _ _ _ _ (mld_Ok s m)). cbn. by rewrite E. Qed.
Lemma upd_la_Ok k l f s m : las m !! k = Some l -> upd_la (Some k) f (s, m) = Ok tt (s, set_las (<[k := f l]> (las m)) m).
Proof. intros E. unfold upd_la. by rewrite (bind_Ok _ _ _ _ _ (la_Ok _ _ _ _ E)). Qed.
Lemma free_la_Ok k s m : is_Some (las m !! k) -> free_la (Some k) (s, m) = Ok tt (s, set_las (delete k (las m)) m).
Proof. intros [l E]. unfold free_la. by rewrite (bind_Ok _ _ _ _ _ (la_Ok _ _ _ _ E)). Qed.
Lemma new_la_Ok l s m : mld_mallocs m = [] ->
  new_la l (s, m) = Ok (Some (mld_brk m)) (s, set_mld_brk (mld_brk m + 1)%nat (set_las (<[mld_brk m := l]> (las m)) m)).
Proof. intros E. unfold new_la, next_malloc_ok. unfold bind, mld, upd_mld, ret. cbn. rewrite E. cbn. by destruct m. Qed.
Lemma new_cbk_Ok c s m : mld_mallocs m = [] ->
  new_cbk c (s, m) = Ok (Some (Z.of_nat (mld_brk m))) (s, set_mld_brk (mld_brk m + 1)%nat (set_cbks (<[mld_brk m := c]> (cbks m)) m)).
Proof. intros E. unfold new_cbk, next_malloc_ok. unfold bind, mld, upd_mld, ret. cbn. rewrite E. cbn. by destruct m. Qed.
Lemma cbk_Ok (c : nat) cb s m : Z.of_nat c ∉ t_freed s -> cbks m !! c = Some cb -> cbk c (s, m) = Ok cb (s, m).
Proof. intros N E. unfold cbk. cbn. rewrite bool_decide_false by done. rewrite Nat2Z.id. by rewrite E. Qed.
Lemma free_cbk_Ok (c : nat) cb s m : Z.of_nat c ∉ t_freed s -> cbks m !! c = Some cb ->
  free_cbk c (s, m) = Ok tt (s, set_cbks (delete c (cbks m)) m).
Proof. intros N E. unfold free_cbk. rewrite (bind_Ok _ _ _ _ _ (cbk_Ok _ _ _ _ N E)). unfold upd_mld. cbn. by rewrite Nat2Z.id. Qed.
Lemma mvif_Ok (n : nat) v s m : mvifs m !! n = Some v -> mvif n (s, m) = Ok v (s, m).
Proof. intros E. unfold mvif. rewrite (bind_Ok _ _ _ _ _ (mld_Ok s m)). cbn. by rewrite rd_of_nat, E. Qed.
Lemma upd_mvif_Ok (n : nat) v f s m : mvifs m !! n = Some v -> upd_mvif n f (s, m) = Ok tt (s, set_mvifs (<[n := f v]> (mvifs m)) m).
Proof.
  intros E. unfold upd_mvif. rewrite (bind_Ok _ _ _ _ _ (mld_Ok s m)). rewrite rd_of_nat, E, bind_of_Some.
  rewrite store_nat by by eapply lookup_lt_Some. done.
Qed.

(** The search of a list; the fuel is enough. *)
Lemma find_la_Ok fuel f p ks s m : chain (las m) p ks -> (length ks < fuel)%nat ->
  runs (find_la fuel f p) (s, m) (fun r st => st = (s, m) /\
    match r with
    | Some k => k ∈ ks /\ exists l, las m !! k = Some l /\ f l = true
    | None => forall k l, k ∈ ks -> las m !! k = Some l -> f l = false
    end).
Proof.
  revert p fuel. induction ks as [|k ks IH]; intros p fuel C L; (destruct fuel as [|fuel]; [cbn in L; lia|]); cbn [find_la].
  - cbn in C. rewrite C. apply runs_ret. split; [done|]. intros k l E. by apply not_elem_of_nil in E.
  - destruct C as (-> & l & El & C). eapply runs_Ok; [by apply la_Ok|]. destruct (f l) eqn:Ef.
    + apply runs_ret. split; [done|]. split; [by left|eauto].
    + eapply runs_mono; [apply IH; [done|cbn in L; lia]|]. cbn. intros [k'|] st [-> H]; (split; [done|]).
      * destruct H as [H H']. split; [by right|done].
      * intros k' l' Hin E. apply elem_of_cons in Hin as [->|Hin]; [congruence|eauto].
Qed.

(** The loop of [DelVif] takes the node out of the list. *)
Lemma remove_group_none fuel i g anp p ks s m : chain (las m) p ks -> g ∉ ks -> (length ks < fuel)%nat ->
  remove_group fuel i (Some g) anp p (s, m) = Ok tt (s, m).
Proof.
  revert fuel anp p. induction ks as [|k ks IH]; intros fuel anp p C N L; (destruct fuel as [|fuel]; [cbn in L; lia|]); cbn [remove_group].
  - cbn in C. by rewrite C.
  - destruct C as (-> & l & El & C). rewrite (bind_Ok _ _ _ _ _ (la_Ok _ _ _ _ El)).
    apply not_elem_of_cons in N as [N1 N2]. rewrite bool_decide_false by congruence. apply IH; [done|done|cbn in L; lia].
Qed.

Lemma remove_group_Ok fuel i g anp p ks rest l s m : chain (las m) p (ks ++ g :: rest) -> NoDup (ks ++ g :: rest) ->
  las m !! g = Some l -> (length (ks ++ g :: rest) < fuel)%nat ->
  forall Q, runs (do! set_anp i (before anp ks) (al_next l) ;; free_la (Some g)) (s, m) (fun _ st => Q tt st /\
    st.1 = s /\ chain (las st.2) (al_next l) rest) ->
  runs (remove_group fuel i (Some g) anp p) (s, m) Q.
Proof.
  revert fuel anp p. induction ks as [|k ks IH]; intros fuel anp p C N E L Q R; (destruct fuel as [|fuel]; [cbn in L; lia|]); cbn [remove_group].
  - destruct C as (-> & l' & El & C). assert (l' = l) as -> by congruence. cbn [before last] in R.
    eapply runs_Ok; [by apply la_Ok|]. rewrite bool_decide_true by done.
    destruct R as ([] & [s' m'] & E' & HQ & Hs & C'). cbn in Hs, C'. subst s'.
    apply bind_inv_Ok in E' as (u & st1 & E1 & E2). eapply runs_Ok; [exact E1|]. eapply runs_Ok; [exact E2|].
    exists tt, (s, m'). split; [|done]. eapply remove_group_none; [done|by apply NoDup_cons in N as [? _]|cbn in L; lia].
  - destruct C as (-> & l' & El & C). cbn [app] in N. apply NoDup_cons in N as [Nk N].
    eapply runs_Ok; [by apply la_Ok|]. rewrite bool_decide_false.
    2: { intros [= ->]. apply Nk, elem_of_app. right. left. }
    apply IH; [done|done|done|cbn in L; lia|].
    replace (before (Some k) ks) with (before anp (k :: ks)); [done|]. unfold before.
    destruct ks as [|k' ks]; [done|]. change (last (k :: k' :: ks)) with (last (k' :: ks)).
    destruct (last (k' :: ks)) eqn:L'; [done|]. by rewrite last_None in L'.
Qed.
End Ops.
