(* ===== verification/MldSpec.v ===== *)
(** * MldSpec: what the protocol for listeners promises

    The soft state of the version 1 of the protocol: for every group with
    listeners on an interface an alarm, at which the group is forgotten unless
    a report came before; after a done message a second alarm, at which its
    listeners are asked once more.  There are no lists, pointers or timer
    numbers. *)

From stdpp Require Import base list numbers gmap.
From S2P Require Import Prelude Callout Inet6 Pim RpMatch Vif Mrt PimMsg Oifs Rp PimJp PimBsr PimReg PimJoin PimRoute PimTimer Mld MldProto.
Open Scope Z_scope.

(** What an alarm is for: the group is forgotten (has its querier been heard to
    ask for it?), or the listeners are asked. *)
Inductive alarm_kind := Expire (heard : bool) | Ask.
#[export] Instance alarm_kind_eq_dec : EqDecision alarm_kind.
Proof. solve_decision. Defined.

Record alarm := mkAlarm { due : Z; a_vif : Z; a_grp : sockaddr_in6; a_kind : alarm_kind }.

(** The time, the alarms in the order in which they go off, the routing table,
    the messages sent, and the configuration of the interfaces. *)
Record Soft := mkSoft { clock : Z; alarms : list alarm; table : Pim; asked : list mld_packet; config : list mld_vif }.

Definition set_alarms (l : list alarm) (s : Soft) : Soft := mkSoft (clock s) l (table s) (asked s) (config s).
Definition set_table (p : Pim) (s : Soft) : Soft := mkSoft (clock s) (alarms s) p (asked s) (config s).
Definition ask (l : list mld_packet) (s : Soft) : Soft := mkSoft (clock s) (alarms s) (table s) (asked s ++ l) (config s).

Definition is_for (i : Z) (g : sockaddr_in6) (a : alarm) : bool := bool_decide (a_vif a = i /\ a_grp a = g).
Definition expires (a : alarm) : bool := match a_kind a with Expire _ => true | Ask => false end.

(** The group has listeners on the interface; a query for it is under way. *)
Definition member (i : Z) (g : sockaddr_in6) (s : Soft) : bool := existsb (fun a => is_for i g a && expires a) (alarms s).
Definition asking (i : Z) (g : sockaddr_in6) (s : Soft) : bool :=
  existsb (fun a => is_for i g a && bool_decide (a_kind a <> Expire false)) (alarms s).

(** The alarms without those of a group; an alarm put in its place. *)
Definition calm (i : Z) (g : sockaddr_in6) (l : list alarm) : list alarm := List.filter (fun a => negb (is_for i g a)) l.
#[global] Arguments calm : simpl never.
Fixpoint arrange (a : alarm) (l : list alarm) : list alarm :=
  match l with
  | [] => [a]
  | b :: l' => if decide (due a < due b) then a :: l else b :: arrange a l'
  end.

(** How long a done message leaves the listeners to answer. *)
Definition last_listener_time (v : mld_vif) : Z := u32 (uv_mld_llqi v / MLD6_TIMER_SCALE * (uv_mld_robustness v + 1)).
Definition heard_time (v : mld_vif) (tmo : Z) : Z := u32 (Z.quot (s32 (uv_mld_robustness v * tmo)) MLD6_TIMER_SCALE).

(** The query for a group. *)
Definition query_for (v : uvif) (mv : mld_vif) (g : sockaddr_in6) : list mld_packet :=
  match uv_linklocal v with
  | Some p => [mkMldPacket (pa_addr p) (mld_dst (if IN6_IS_ADDR_UNSPECIFIED (sin6_addr g) then allnodes_group else sin6_addr g) (uv_ifindex v))
                (uv_ifindex v) (mld_message MLD_LISTENER_QUERY 0 (uv_mld_llqi mv) (sin6_addr g))]
  | None => []
  end.
Definition querier_asks (v : uvif) (mv : mld_vif) (g : sockaddr_in6) (s : Soft) : Soft :=
  if asks v then ask (query_for v mv g) s else s.

Section Spec.
Context `{LV : Leaves}.

(** The routing table with a leaf more, or less. *)
Definition with_leaf (i : Z) (g : sockaddr_in6) (s : Soft) : Soft := set_table (final (leaf_added i None g (table s))) s.
Definition without_leaf (i : Z) (g : sockaddr_in6) (s : Soft) : Soft := set_table (final (leaf_deleted i None g (table s))) s.

(** A report: the group is remembered for the listener interval from now. *)
Definition report (i : Z) (mv : mld_vif) (g : sockaddr_in6) (s : Soft) : Soft :=
  with_leaf i g
    (set_alarms (arrange (mkAlarm (clock s + MLD6_LISTENER_INTERVAL mv) i g (Expire false)) (calm i g (alarms s))) s).

(** A listener is done: those left are asked now and once more, and have the
    last listener time to report. *)
Definition done_ (i : Z) (v : uvif) (mv : mld_vif) (g : sockaddr_in6) (s : Soft) : Soft :=
  if negb (has (uv_flags v) (Z.lor VIFF_QUERIER VIFF_DR)) || negb (member i g s) || asking i g s then s else
  querier_asks v mv g
    (set_alarms
       (arrange (mkAlarm (clock s + last_listener_time mv) i g (Expire false))
          (arrange (mkAlarm (clock s + uv_mld_llqi mv / MLD6_TIMER_SCALE) i g Ask) (calm i g (alarms s)))) s).

(** The querier asks for a group. *)
Definition other_asks (i : Z) (mv : mld_vif) (g : sockaddr_in6) (tmo : Z) (s : Soft) : Soft :=
  if negb (member i g s) || asking i g s then s else
  set_alarms (arrange (mkAlarm (clock s + heard_time mv tmo) i g (Expire true)) (calm i g (alarms s))) s.

(** A query of another router: it is the querier if its address is lower, and
    what it asks for has to be reported again. *)
Definition set_vif (i : Z) (v : uvif) (s : Soft) : Soft := set_table (set_uvifs (<[Z.to_nat i := v]> (uvifs (table s))) (table s)) s.
Definition set_config (i : Z) (mv : mld_vif) (s : Soft) : Soft :=
  mkSoft (clock s) (alarms s) (table s) (asked s) (<[Z.to_nat i := mv]> (config s)).

Definition elected (i : Z) (v : uvif) (mv : mld_vif) (src : sockaddr_in6) (q : querier) (s : Soft) : Soft :=
  if inet6_lessthan src (qr_addr q)
  then set_config i (set_uv_querier (Some (set_qr_addr src q)) mv) (set_vif i (set_uv_flags (Z.ldiff (uv_flags v) VIFF_QUERIER) v) s)
  else s.
Definition querier_present (i : Z) (mv : mld_vif) (src : sockaddr_in6) (s : Soft) : Soft :=
  match uv_querier mv with
  | Some q => if inet6_equal src (qr_addr q)
              then set_config i (set_uv_querier (Some (set_qr_timer (MLD6_OTHER_QUERIER_PRESENT_INTERVAL mv) q)) mv) s else s
  | None => s
  end.

(** An alarm goes off. *)
Definition fire (a : alarm) (s : Soft) : Soft :=
  match a_kind a with
  | Expire _ => without_leaf (a_vif a) (a_grp a) s
  | Ask =>
      match rd (uvifs (table s)) (a_vif a), rd (config s) (a_vif a) with
      | Some v, Some mv => querier_asks v mv (a_grp a) s
      | _, _ => s
      end
  end.

(** Time passes. *)
Definition elapse (e : Z) (s : Soft) : Soft :=
  let now := clock s + e in
  foldl (fun s a => fire a s)
    (mkSoft now (List.filter (fun a => now <? due a) (alarms s)) (table s) (asked s) (config s))
    (List.filter (fun a => due a <=? now) (alarms s)).

(** ** Events *)

(** Messages of hosts, and of the querier for a group; seconds that pass. *)
Inductive mld_event :=
| Report (src : sockaddr_in6) (group : list Z)
| Done (src : sockaddr_in6) (group : list Z)
| Query (src : sockaddr_in6) (group : list Z) (tmo : Z)
| Elapse (e : Z).

(** The interface of a message, if there is one. *)
Definition on_vif (mifi : Z) (f : uvif -> mld_vif -> Soft -> Soft) (s : Soft) : Soft :=
  if mifi =? NO_VIF then s else
  match rd (uvifs (table s)) mifi, rd (config s) mifi with
  | Some v, Some mv => f v mv s
  | _, _ => s
  end.

Definition soft_step (ev : mld_event) (s : Soft) : Soft :=
  let vs := uvifs (table s) in
  match ev with
  | Report src group =>
      if IN6_IS_ADDR_MC_LINKLOCAL group then s else
      let i := find_vif_direct_local src vs in on_vif i (fun v mv => report i mv (scoped v group)) s
  | Done src group =>
      if IN6_IS_ADDR_MC_NODELOCAL group || IN6_IS_ADDR_MC_LINKLOCAL group then s else
      let i := find_vif_direct_local src vs in on_vif i (fun v mv => done_ i v mv (scoped v group)) s
  | Query src group tmo =>
      if negb (local_address src vs =? NO_VIF) then s else
      let i := find_vif_direct src vs in
      on_vif i (fun v mv s =>
        match uv_querier mv with
        | None => s
        | Some q =>
            on_vif i (fun v mv s =>
              if has (uv_flags v) VIFF_QUERIER then s else
              let s := querier_present i mv src s in
              if IN6_IS_ADDR_UNSPECIFIED group then s else other_asks i mv (scoped v group) tmo s) (elected i v mv src q s)
        end) s
  | Elapse e => elapse e s
  end.
Definition soft_run (evs : list mld_event) (s : Soft) : Soft := foldl (fun s ev => soft_step ev s) s evs.
End Spec.

(** The events, as the daemon serves them. *)
Section Run.
Context {S : Type} `{TS : TimerService mld_timer S} `{LV : Leaves} (MLDV2_LISTENER_REPORT : bool) (junk : listaddr).

Definition mld_step (ev : mld_event) : Cmd (S * Mld) unit :=
  match ev with
  | Report src group => accept_listener_report MLDV2_LISTENER_REPORT junk src group
  | Done src group => accept_listener_done MLDV2_LISTENER_REPORT junk src group
  | Query src group tmo => accept_listener_query junk src group tmo
  | Elapse e => age_mld junk e
  end.
Fixpoint mld_run (evs : list mld_event) : Cmd (S * Mld) unit :=
  match evs with
  | [] => ret tt
  | ev :: evs => do! mld_step ev ;; mld_run evs
  end.
End Run.
