(* ===== verification/MldInv.v ===== *)
(** * MldInv: the lists and timers of the listeners

    The invariant between the lists and timers of Mld and the soft state of
    MldSpec: every alarm is a timer whose memory leads to the group it is for,
    and every group has its alarm.  A timer that fires never finds its group
    gone, since the query for a group comes before the end of the group. *)

From stdpp Require Import base list numbers gmap sorting.
From S2P Require Import Prelude Callout Inet6 Pim RpMatch Vif Mrt PimMsg Oifs Rp PimJp PimBsr PimReg PimJoin PimRoute PimTimer Mld MldProto MldMem MldSpec.
Open Scope Z_scope.
#[local] Coercion Z.of_nat : nat >-> Z.

(** ** Lists of alarms *)

Definition key (a : alarm) : Z * sockaddr_in6 * bool := (a_vif a, a_grp a, expires a).
Definition earlier (a b : alarm) : Prop := due a <= due b.

(** What is in transit may have a query without an end. *)
Definition hole : Type := option (Z * sockaddr_in6).
Definition in_hole (h : hole) (a : alarm) : Prop := h = Some (a_vif a, a_grp a).

(** Every query for a group has the end of the group behind it. *)
Fixpoint asks_end (h : hole) (l : list alarm) : Prop :=
  match l with
  | [] => True
  | a :: l =>
      (a_kind a = Ask -> in_hole h a \/ exists b, b ∈ l /\ a_vif b = a_vif a /\ a_grp b = a_grp a /\ a_kind b = Expire false) /\
      asks_end h l
  end.

Lemma arrange_split a l : exists l1 l2, l = l1 ++ l2 /\ arrange a l = l1 ++ a :: l2 /\ (StronglySorted earlier l -> Forall (fun b => due a < due b) l2) /\
  Forall (fun b => earlier b a) l1.
Proof.
  induction l as [|b l IH]; [exists [], []; repeat split; constructor|]. cbn [arrange]. case_decide as D.
  - exists [], (b :: l). repeat split; [|constructor]. intros S. inversion_clear S. constructor; [lia|].
    eapply Forall_impl; [done|]. unfold earlier. lia.
  - destruct IH as (l1 & l2 & -> & E & S & F). exists (b :: l1), l2. rewrite E. repeat split.
    + intros S'. inversion_clear S'. auto.
    + constructor; [unfold earlier; lia|done].
Qed.

Lemma arrange_perm a l : arrange a l ≡ₚ a :: l.
Proof. destruct (arrange_split a l) as (l1 & l2 & -> & -> & _). by rewrite Permutation_middle. Qed.

Lemma arrange_sorted a l : StronglySorted earlier l -> StronglySorted earlier (arrange a l).
Proof.
  intros S. induction S as [|b l S IH F]; cbn [arrange]; [repeat constructor|]. case_decide.
  - constructor; [by constructor|]. constructor; [unfold earlier; lia|]. eapply Forall_impl; [done|]. unfold earlier. lia.
  - constructor; [done|]. rewrite arrange_perm. constructor; [unfold earlier; lia|done].
Qed.

Lemma asks_end_app h l1 l2 : asks_end h l2 -> (forall a, a ∈ l1 -> a_kind a = Ask -> in_hole h a \/
    exists b, b ∈ l2 /\ a_vif b = a_vif a /\ a_grp b = a_grp a /\ a_kind b = Expire false) -> asks_end h (l1 ++ l2).
Proof.
  intros H A. induction l1 as [|a l1 IH]; [done|]. split.
  - intros E. destruct (A a) as [?|(b & Hb & Eb)]; [by left|done|by left|]. right. exists b. split; [apply elem_of_app; by right|done].
  - apply IH. intros b Hb. apply A. by right.
Qed.

Lemma asks_end_hole h l : asks_end None l -> asks_end h l.
Proof. induction l as [|a l IH]; [done|]. intros [H H']. split; [|auto]. intros E. destruct (H E) as [?|?]; [done|auto]. Qed.

(** An alarm that is removed or put in. *)
Lemma asks_end_remove h l1 a l2 : in_hole h a -> asks_end h (l1 ++ a :: l2) -> asks_end h (l1 ++ l2).
Proof.
  intros I. induction l1 as [|b l1 IH]; [by intros [_ ?]|]. cbn. intros [H H']. split; [|auto].
  intros E. destruct (H E) as [?|(c & Hc & E1 & E2 & E3)]; [by left|]. apply elem_of_app in Hc as [Hc|Hc].
  - right. exists c. rewrite elem_of_app. auto.
  - apply elem_of_cons in Hc as [->|Hc]; [left; unfold in_hole in *; congruence|]. right. exists c. rewrite elem_of_app. auto.
Qed.
Lemma asks_end_insert h l1 a l2 : in_hole h a -> asks_end h (l1 ++ l2) -> asks_end h (l1 ++ a :: l2).
Proof.
  intros I. induction l1 as [|b l1 IH]; [intros H; split; [by left|done]|]. cbn. intros [H H']. split; [|auto].
  intros E. destruct (H E) as [?|(c & Hc & E')]; [by left|]. right. exists c. split; [|done].
  rewrite elem_of_app in *. rewrite elem_of_cons. tauto.
Qed.

(** The end of the group in transit has been put in behind its query. *)
Lemma asks_end_close i g l1 a l2 : a_vif a = i -> a_grp a = g -> a_kind a = Expire false ->
  asks_end (Some (i, g)) (l1 ++ a :: l2) -> Forall (fun b => is_for i g b = false) l2 -> asks_end None (l1 ++ a :: l2).
Proof.
  intros E1 E2 E3 H F. induction l1 as [|b l1 IH].
  - split; [congruence|]. destruct H as [_ H]. clear E1 E2 E3. induction F as [|b l2 Fb F IH]; [done|].
    destruct H as [H H']. split; [|auto]. intros E. destruct (H E) as [I|?]; [|auto].
    unfold in_hole, is_for in *. apply bool_decide_eq_false in Fb. naive_solver.
  - destruct H as [H H']. split; [|auto]. intros E. destruct (H E) as [I|?]; [|auto]. right. exists a.
    injection I as <- <-. rewrite elem_of_app, elem_of_cons. auto.
Qed.

Lemma is_for_true i g a : is_for i g a = true <-> a_vif a = i /\ a_grp a = g.
Proof. unfold is_for. by rewrite bool_decide_eq_true. Qed.

Lemma calm_app i g l k : calm i g (l ++ k) = calm i g l ++ calm i g k.
Proof. apply List.filter_app. Qed.
Lemma calm_id i g l : Forall (fun a => is_for i g a = false) l -> calm i g l = l.
Proof. induction 1 as [|a l E _ IH]; [done|]. unfold calm. cbn. rewrite E. cbn. by f_equal. Qed.
Lemma calm_none i g l : Forall (fun a => is_for i g a = false) (calm i g l).
Proof.
  induction l as [|a l IH]; [constructor|]. unfold calm. cbn. destruct (is_for i g a) eqn:E; [done|]. cbn. by constructor.
Qed.
Lemma calm_drop i g l1 a l2 : is_for i g a = true -> calm i g (l1 ++ a :: l2) = calm i g (l1 ++ l2).
Proof. intros E. rewrite !calm_app. unfold calm at 2. cbn. by rewrite E. Qed.

Lemma NoDup_key_drop (l1 : list alarm) a l2 : NoDup (key <$> l1 ++ a :: l2) -> NoDup (key <$> l1 ++ l2) /\ key a ∉ (key <$> l1 ++ l2).
Proof. rewrite !fmap_app, fmap_cons. intros N. rewrite <- Permutation_middle in N. by apply NoDup_cons in N as [? ?]. Qed.

(** ** The invariant *)

Definition node (gss : list (list nat)) (n k : nat) : Prop := exists ks, gss !! n = Some ks /\ k ∈ ks.

(** The groups of the interfaces: disjoint chains, each address once. *)
Record Groups (m : Mld) (gss : list (list nat)) : Prop := {
  gr_chain : Forall2 (fun v ks => chain (las m) (uv_groups v) ks) (mvifs m) gss;
  gr_nodup : NoDup (concat gss);
  gr_addr n k k' l l' : node gss n k -> node gss n k' -> las m !! k = Some l -> las m !! k' = Some l' ->
    al_addr l = al_addr l' -> k = k';
  gr_brk k : is_Some (las m !! k) -> (k < mld_brk m)%nat
}.

(** The function of the timer, and where its number is kept. *)
Definition ring_kind (h : hole) (m : Mld) (t : timeout_q mld_timer) (a : alarm) (n : nat) (cb : cbk_t) (l : listaddr) : Prop :=
  match a_kind a with
  | Expire hd => func t = Some DelVif_ /\ al_timerid l = id t /\ (in_hole h a \/ (hd = true <-> al_query l = -1))
  | Ask => func t = Some SendQuery_ /\ al_query l = id t /\ exists v, mvifs m !! n = Some v /\ q_time cb = uv_mld_llqi v
  end.

(** A timer is an alarm: its memory is alive and leads to the group. *)
Record rings (h : hole) (m : Mld) (gss : list (list nat)) (freed : list Z) (t : timeout_q mld_timer) (a : alarm)
    (n c k : nat) (cb : cbk_t) (l : listaddr) : Prop := {
  rg_vif : a_vif a = n;
  rg_data : data t = c;
  rg_pos : (0 < c < mld_brk m)%nat;
  rg_live : Z.of_nat c ∉ freed;
  rg_cbk : cbks m !! c = Some cb;
  rg_mifi : cbk_mifi cb = n;
  rg_g : cbk_g cb = Some k;
  rg_node : node gss n k;
  rg_la : las m !! k = Some l;
  rg_addr : al_addr l = a_grp a;
  rg_kind : ring_kind h m t a n cb l
}.
Definition ring (h : hole) (m : Mld) gss freed t a : Prop := exists n c k cb l, rings h m gss freed t a n c k cb l.

(** A group has its alarm, and its query one if there is one. *)
Definition listed (n : nat) (l : listaddr) (al : list alarm) : Prop :=
  (exists a, a ∈ al /\ a_vif a = n /\ a_grp a = al_addr l /\ expires a = true) /\
  (al_query l = 0 \/ al_query l = -1 \/ exists a, a ∈ al /\ a_vif a = n /\ a_grp a = al_addr l /\ a_kind a = Ask).

(** The numbers of the configuration fit an [int]; the interface speaks the
    version 1 and has an address. *)
Record vif_fine (v : uvif) (mv : mld_vif) : Prop := {
  vf_linklocal : is_Some (uv_linklocal v);
  vf_querier : is_Some (uv_querier mv);
  vf_version : uv_mld_version mv = MLDv1;
  vf_robustness : 0 <= uv_mld_robustness mv < 2 ^ 15;
  vf_llqi : 0 <= uv_mld_llqi mv;
  vf_interval : MLD6_LISTENER_INTERVAL mv < 2 ^ 31;
  vf_llt : uv_mld_llqi mv / MLD6_TIMER_SCALE * (uv_mld_robustness mv + 1) < 2 ^ 31
}.

(** The leaves of the routing table can be changed as long as [table_ok]; the
    interfaces stay as they are. *)
Class LeavesOk `{LV : Leaves} := {
  table_ok : Pim -> Prop;
  leaf_added_ok n v g p : table_ok p -> uvifs p !! n = Some v -> exists p', leaf_added (Z.of_nat n) None g p = Ok tt p' /\ table_ok p' /\ uvifs p' = uvifs p;
  leaf_deleted_ok n v g p : table_ok p -> uvifs p !! n = Some v -> exists p', leaf_deleted (Z.of_nat n) None g p = Ok tt p' /\ table_ok p' /\ uvifs p' = uvifs p;
  table_querier n v p : table_ok p -> uvifs p !! n = Some v ->
    table_ok (set_uvifs (<[n := set_uv_flags (Z.ldiff (uv_flags v) VIFF_QUERIER) v]> (uvifs p)) p)
}.

Section Inv.
Context {S : Type} `{TL : TimerLaws mld_timer S} `{LO : LeavesOk}.
Implicit Types (s : S) (m : Mld) (a : Agenda mld_timer) (sp : Soft) (n k : nat).

(** [tf], [af]: timers that are about to fire, and their alarms. *)
Record Inv (h : hole) s m (a : Agenda mld_timer) (tf : list (timeout_q mld_timer)) (af : list alarm) sp (gss : list (list nat)) : Prop := {
  i_view : t_view s a;
  i_clock : now a = clock sp;
  i_table : pim m = table sp;
  i_ok : table_ok (table sp);
  i_sent : mld_sent m = asked sp;
  i_config : set_uv_groups None <$> mvifs m = config sp;
  i_vifs : Forall2 vif_fine (uvifs (table sp)) (mvifs m);
  i_buf : zlen (mld6_send_buf m) = RECV_BUF_SIZE;
  i_mallocs : mld_mallocs m = [] /\ a_mallocs a = [];
  i_brk : (0 < mld_brk m)%nat;
  i_groups : Groups m gss;
  i_freed : Forall (fun d => d < mld_brk m) (a_freed a);
  i_ring : Forall2 (ring h m gss (a_freed a)) (tf ++ timers a) (af ++ alarms sp);
  i_due : (time <$> timers a) = (due <$> alarms sp);
  i_ids : NoDup (id <$> tf ++ timers a) /\ Forall (fun t => 0 < id t <= a_last a) (tf ++ timers a);
  i_last : 0 <= a_last a;
  i_datas : NoDup (data <$> tf ++ timers a);
  i_keys : NoDup (key <$> af ++ alarms sp);
  i_order : asks_end h (af ++ alarms sp);
  i_addr : Forall (fun b => length (sin6_addr (a_grp b)) = 16%nat) (af ++ alarms sp);
  i_sorted : StronglySorted earlier (alarms sp);
  i_listed n k l : node gss n k -> las m !! k = Some l -> h <> Some (Z.of_nat n, al_addr l) -> listed n l (af ++ alarms sp)
}.

(** *** Nodes *)

Lemma node_unique gss n n' k : NoDup (concat gss) -> node gss n k -> node gss n' k -> n = n'.
Proof.
  revert n n'. induction gss as [|ks gss IH]; intros n n' N (k1 & E1 & H1) (k2 & E2 & H2); [done|].
  cbn in N. apply NoDup_app in N as (_ & D & N).
  assert (In : forall n ks', gss !! n = Some ks' -> k ∈ ks' -> k ∈ concat gss).
  { intros n0 ks' E H. apply list_elem_of_In, in_concat. exists ks'. split; apply list_elem_of_In; [by eapply list_elem_of_lookup_2|done]. }
  destruct n as [|n], n' as [|n']; cbn in E1, E2; simplify_eq; [done| | |f_equal; apply IH; [done|by eexists|by eexists]].
  - exfalso. apply (D k); [done|eauto].
  - exfalso. apply (D k); [done|eauto].
Qed.

Lemma node_la m gss n k : Groups m gss -> node gss n k -> is_Some (las m !! k).
Proof.
  intros G (ks & E & H). destruct (Forall2_lookup_r _ _ _ _ _ (gr_chain _ _ G) E) as (v & _ & C). by eapply chain_nodes.
Qed.

(** Two alarms for the same group lead to the same node. *)
Lemma ring_node h m gss fr t (al : alarm) n k l i g n' c' k' cb' l' : Groups m gss -> node gss n k -> las m !! k = Some l ->
  Z.of_nat n = i -> al_addr l = g -> rings h m gss fr t al n' c' k' cb' l' -> (k' = k <-> is_for i g al = true).
Proof.
  intros G Hn El Ei Eg R. destruct R. rewrite is_for_true. subst i g. split.
  - intros ->. assert (n' = n) as -> by (eapply node_unique; [apply G|exact rg_node0|done]). split; [done|congruence].
  - intros [E1 E2]. assert (n' = n) as -> by lia. symmetry. eapply gr_addr; try done. congruence.
Qed.

Lemma node_length m gss n ks v : Groups m gss -> gss !! n = Some ks -> mvifs m !! n = Some v ->
  chain (las m) (uv_groups v) ks /\ NoDup ks /\ (length ks < la_fuel m)%nat.
Proof.
  intros G E Ev. assert (C : chain (las m) (uv_groups v) ks).
  { destruct (Forall2_lookup_r _ _ _ _ _ (gr_chain _ _ G) E) as (v' & Ev' & C). congruence. }
  assert (N : NoDup ks).
  { pose proof (gr_nodup _ _ G) as N. apply take_drop_middle in E. revert N. rewrite <- E, concat_app. cbn.
    rewrite !NoDup_app. tauto. }
  split; [done|]. split; [done|]. unfold la_fuel.
  assert (length ks <= length (seq 0 (mld_brk m)))%nat as Hl.
  { apply submseteq_length, NoDup_submseteq; [done|]. intros k Hk. apply elem_of_seq. split; [lia|]. eapply gr_brk; [done|]. by eapply chain_nodes. }
  rewrite length_seq in Hl. lia.
Qed.

Lemma node_vif m gss n k : Groups m gss -> node gss n k -> exists v, mvifs m !! n = Some v.
Proof. intros G (ks & E & _). destruct (Forall2_lookup_r _ _ _ _ _ (gr_chain _ _ G) E) as (v & ? & _). eauto. Qed.

Lemma find_group_Ok h s m a tf af sp gss n v g : Inv h s m a tf af sp gss -> mvifs m !! n = Some v ->
  runs (find_group n g) (s, m) (fun r st => st = (s, m) /\
    match r with
    | Some k => node gss n k /\ exists l, las m !! k = Some l /\ al_addr l = g
    | None => forall k l, node gss n k -> las m !! k = Some l -> al_addr l <> g
    end).
Proof.
  intros I Ev. pose proof (i_groups _ _ _ _ _ _ _ _ I) as G.
  destruct (Forall2_lookup_l _ _ _ _ _ (gr_chain _ _ G) Ev) as (ks & Ek & C).
  destruct (node_length m gss n ks v G Ek Ev) as (_ & N & L).
  unfold find_group. eapply runs_Ok; [apply mld_Ok|]. eapply runs_Ok; [by apply mvif_Ok|].
  eapply runs_mono; [by apply find_la_Ok|]. cbn. intros [k|] st [-> H]; (split; [done|]).
  - destruct H as (Hk & l & El & E). split; [by exists ks|]. exists l. split; [done|]. symmetry. by apply inet6_equal_eq.
  - intros k l (ks' & Ek' & Hk) El <-. assert (ks' = ks) as -> by congruence. specialize (H k l Hk El).
    assert (inet6_equal (al_addr l) (al_addr l) = true) by by apply inet6_equal_eq. congruence.
Qed.

(** *** Changes of the memory *)

Lemma Groups_move m m' gss k l l' : Groups m gss -> las m !! k = Some l -> al_next l' = al_next l -> al_addr l' = al_addr l ->
  mvifs m' = mvifs m -> las m' = <[k := l']> (las m) -> (mld_brk m <= mld_brk m')%nat -> Groups m' gss.
Proof.
  intros [G1 G2 G3 G4] El En Ea Ev Eh Eb.
  assert (L : forall k0 l0, las m' !! k0 = Some l0 -> exists l1, las m !! k0 = Some l1 /\ al_addr l1 = al_addr l0).
  { intros k0 l0. rewrite Eh. destruct (decide (k0 = k)) as [->|]; [rewrite lookup_insert_eq; intros [= <-]; eauto|].
    rewrite lookup_insert_ne by done. eauto. }
  split.
  - rewrite Ev, Eh. eapply Forall2_impl; [done|]. intros v ks C. by eapply chain_upd.
  - done.
  - intros n k1 k2 l1 l2 N1 N2 E1 E2 E. destruct (L _ _ E1) as (l1' & E1' & A1), (L _ _ E2) as (l2' & E2' & A2). eapply G3; [exact N1|done..|congruence].
  - intros k0 [l0 E0]. destruct (L _ _ E0) as (l1 & E1 & _). enough (k0 < mld_brk m)%nat by lia. apply G4. eauto.
Qed.

Lemma rings_move h h' m m' gss gss' fr fr' t al n c k cb l l' : rings h m gss fr t al n c k cb l ->
  (mld_brk m <= mld_brk m')%nat -> Z.of_nat c ∉ fr' -> cbks m' !! c = Some cb -> node gss' n k -> las m' !! k = Some l' ->
  al_addr l' = al_addr l -> (ring_kind h m t al n cb l -> ring_kind h' m' t al n cb l') -> rings h' m' gss' fr' t al n c k cb l'.
Proof. intros [] B F Cb N El Ea K. split; try done; [lia|congruence|auto]. Qed.

Lemma sorted_drop {A} (R : A -> A -> Prop) l1 x l2 : StronglySorted R (l1 ++ x :: l2) -> StronglySorted R (l1 ++ l2).
Proof.
  induction l1 as [|y l1 IH]; cbn; intros HS; inversion_clear HS; [done|]. constructor; [auto|].
  rewrite Forall_app, Forall_cons in *. tauto.
Qed.

Lemma listed_drop n l l1 (b : alarm) l2 : (a_vif b, a_grp b) <> (Z.of_nat n, al_addr l) -> listed n l (l1 ++ b :: l2) -> listed n l (l1 ++ l2).
Proof.
  intros D. assert (H : forall x, x ∈ l1 ++ b :: l2 -> a_vif x = n -> a_grp x = al_addr l -> x ∈ l1 ++ l2).
  { intros x. rewrite !elem_of_app, elem_of_cons. intros [|[->|]] ? ?; [auto|congruence|auto]. }
  intros [(x & Hx & E1 & E2 & E3) Q]. split; [exists x; auto|]. destruct Q as [|[|(y & Hy & F1 & F2 & F3)]]; [auto|auto|]. right; right. exists y. auto.
Qed.

(** A timer is cleared, and its alarm is off. *)
Lemma clear_alarm h s m a sp gss n k l b : Inv h s m a [] [] sp gss -> node gss n k -> las m !! k = Some l ->
  h = Some (Z.of_nat n, al_addr l) -> b ∈ alarms sp -> a_vif b = n -> a_grp b = al_addr l ->
  exists s' a' l1 l2, t_clear (if expires b then al_timerid l else al_query l) (s, m) = Ok tt (s', m) /\
    alarms sp = l1 ++ b :: l2 /\ Inv h s' m a' [] [] (set_alarms (l1 ++ l2) sp) gss /\ a_last a' = a_last a.
Proof.
  intros I Hn El Eh Hb Ev Eg. destruct I. cbn [app] in *. apply list_elem_of_split in Hb as (l1 & l2 & El12).
  rewrite El12 in i_ring0. apply Forall2_app_inv_r in i_ring0 as (T1 & T2' & R1 & R2 & ET).
  apply Forall2_cons_inv_r in R2 as (t0 & T2 & R0 & R2 & ->).
  destruct R0 as (n0 & c0 & k0 & cb0 & l0 & R0).
  assert (k0 = k) as -> by (eapply (ring_node _ _ _ _ _ _ n k l n (al_addr l)); [done..|exact R0|by apply is_for_true]).
  assert (l0 = l) as -> by (destruct R0; congruence).
  assert (Eid : (if expires b then al_timerid l else al_query l) = id t0).
  { destruct R0. unfold ring_kind, expires in *. destruct (a_kind b); naive_solver. }
  rewrite Eid. destruct (view_clear s a m (id t0) i_view0) as (s' & a' & E1 & E2 & V').
  rewrite ET in *. destruct i_ids0 as [Nid Rid].
  assert (Hid : 0 < id t0 <= a_last a) by (rewrite Forall_app, Forall_cons in Rid; tauto).
  assert (Ea : a' = mkAgenda (now a) (T1 ++ T2) (a_last a) (a_freed a ++ [data t0]) (a_mallocs a)).
  { revert E2. unfold spec_clear, agenda, put, bind, ret. rewrite decide_False by lia. cbn. rewrite ET.
    assert (Hn1 : forall t, t ∈ T1 -> id t <> id t0).
    { intros t Ht E. rewrite fmap_app, fmap_cons in Nid. apply NoDup_app in Nid as (_ & D & _). apply (D (id t)); [by apply list_elem_of_fmap_2|].
      rewrite E. left. }
    assert (L : lookup_timer (id t0) (T1 ++ t0 :: T2) = Some t0).
    { clear -Hn1. induction T1 as [|t T1 IH]; cbn; [by rewrite Z.eqb_refl|]. rewrite (proj2 (Z.eqb_neq _ _)) by (apply Hn1; left).
      apply IH. intros t' Ht'. apply Hn1. by right. }
    assert (Cn : cancel (id t0) (T1 ++ t0 :: T2) = T1 ++ T2).
    { clear -Hn1. induction T1 as [|t T1 IH]; cbn; [by rewrite decide_True|]. rewrite decide_False by (apply Hn1; left). f_equal.
      apply IH. intros t' Ht'. apply Hn1. by right. }
    rewrite L, Cn. rewrite decide_False; [by intros [= <-]|]. destruct R0. rewrite rg_data0. lia. }
  subst a'. exists s', (mkAgenda (now a) (T1 ++ T2) (a_last a) (a_freed a ++ [data t0]) (a_mallocs a)), l1, l2.
  split; [done|]. split; [done|]. split; [|done]. rewrite El12 in *.
  rewrite !fmap_app, !fmap_cons in i_due0.
  assert (Hd : (time <$> T1) = (due <$> l1) /\ (time <$> T2) = (due <$> l2)).
  { apply app_inj_1 in i_due0; [|rewrite !length_fmap; by eapply Forall2_length]. destruct i_due0 as [? D]. by injection D. }
  assert (Hh : in_hole h b) by (unfold in_hole; congruence).
  assert (Hdt : forall t, t ∈ T1 ++ T2 -> data t <> data t0).
  { intros t Ht E. rewrite !fmap_app, fmap_cons, <- Permutation_middle in i_datas0. apply NoDup_cons in i_datas0 as [D _]. apply D.
    rewrite <- E, <- fmap_app. by apply list_elem_of_fmap_2. }
  split; try done; cbn [timers a_freed a_mallocs now a_last alarms clock table asked config set_alarms app].
  - rewrite Forall_app. split; [done|]. constructor; [|constructor]. destruct R0. rewrite rg_data0. lia.
  - assert (Forall2 (ring h m gss (a_freed a)) (T1 ++ T2) (l1 ++ l2)) as R by by apply Forall2_app.
    eapply Forall2_impl_in; [exact R|]. intros t x Ht Hx (n' & c' & k' & cb' & l' & R'). exists n', c', k', cb', l'.
    eapply rings_move; [exact R'|lia| |by destruct R'..|done]. rewrite elem_of_app, list_elem_of_singleton. destruct R'. intros [?|E]; [done|].
    apply (Hdt t Ht). congruence.
  - rewrite !fmap_app. by destruct Hd as [-> ->].
  - rewrite fmap_app, fmap_cons, <- Permutation_middle in Nid. apply NoDup_cons in Nid as [_ Nid]. rewrite fmap_app. split; [done|].
    rewrite Forall_app, Forall_cons in *. tauto.
  - rewrite fmap_app, fmap_cons, <- Permutation_middle in i_datas0. apply NoDup_cons in i_datas0 as [_ ?]. by rewrite fmap_app.
  - by apply NoDup_key_drop in i_keys0 as [? _].
  - by eapply asks_end_remove.
  - rewrite Forall_app, Forall_cons in *. tauto.
  - by eapply sorted_drop.
  - intros n1 k1 l1' N1 E1' D1. eapply listed_drop; [|by eapply i_listed0]. congruence.
Qed.

Lemma next_id_small i : 0 <= i < 2 ^ 31 - 1 -> next_id i = i + 1.
Proof. intros H. unfold next_id. rewrite s32_small by lia. by rewrite decide_False by lia. Qed.

Lemma schedule_arrange (t : timeout_q mld_timer) (b : alarm) T A : time t = due b -> (time <$> T) = (due <$> A) ->
  exists T1 T2 A1 A2, T = T1 ++ T2 /\ schedule t T = T1 ++ t :: T2 /\ A = A1 ++ A2 /\ arrange b A = A1 ++ b :: A2 /\
    length T1 = length A1 /\ (time <$> schedule t T) = (due <$> arrange b A).
Proof.
  intros E. revert A. induction T as [|u T IH]; intros [|x A] EA; try done.
  - exists [], [], [], []. cbn. by rewrite E.
  - cbn in EA. injection EA as E1 E2. cbn [schedule arrange]. rewrite E, E1. case_decide.
    + exists [], (u :: T), [], (x :: A). cbn. by rewrite E, E1, E2.
    + destruct (IH A E2) as (T1 & T2 & A1 & A2 & -> & F1 & -> & F2 & L & F3). rewrite F1, F2 in *.
      exists (u :: T1), T2, (x :: A1), A2. cbn in *. rewrite E1, F3, L. done.
Qed.

(** An assignment to the group in transit. *)
Lemma upd_hole h s m a sp gss n k l f : Inv h s m a [] [] sp gss -> node gss n k -> las m !! k = Some l ->
  h = Some (Z.of_nat n, al_addr l) -> al_addr (f l) = al_addr l -> al_next (f l) = al_next l ->
  (forall b, b ∈ alarms sp -> a_vif b = n -> a_grp b = al_addr l ->
     if expires b then al_timerid (f l) = al_timerid l else al_query (f l) = al_query l) ->
  upd_la (Some k) f (s, m) = Ok tt (s, set_las (<[k := f l]> (las m)) m) /\
  Inv h s (set_las (<[k := f l]> (las m)) m) a [] [] sp gss.
Proof.
  intros I Hn El Eh Ea En Hb. split; [by apply upd_la_Ok|]. destruct I. split; try done.
  - by eapply (Groups_move m _ gss k l (f l)).
  - eapply Forall2_impl_in; [done|]. cbn [app]. intros t b _ Hin (n0 & c0 & k0 & cb0 & l0 & R0).
    destruct (decide (k0 = k)) as [->|Hk].
    + assert (l0 = l) as -> by (destruct R0; congruence). exists n0, c0, k, cb0, (f l).
      assert (F : is_for n (al_addr l) b = true) by (eapply (ring_node _ _ _ _ _ _ n k l n (al_addr l)); done).
      apply is_for_true in F as [F1 F2]. specialize (Hb b Hin F1 F2).
      eapply rings_move; [exact R0|cbn; lia|by destruct R0..| |done|].
      * cbn. by rewrite lookup_insert_eq.
      * unfold ring_kind. cbn [mvifs set_las]. unfold expires in Hb. destruct (a_kind b).
        -- intros (K1 & K2 & K3). split; [done|]. split; [congruence|]. left. unfold in_hole. congruence.
        -- intros (K1 & K2 & K3). split; [done|]. split; [congruence|done].
    + exists n0, c0, k0, cb0, l0. eapply rings_move; [exact R0|cbn; lia|by destruct R0..| |done|done].
      cbn. rewrite lookup_insert_ne by done. by destruct R0.
  - intros n1 k1 l1 N1 E1 D1. cbn in E1. destruct (decide (k1 = k)) as [->|Hk].
    + rewrite lookup_insert_eq in E1. injection E1 as <-. assert (n1 = n) as -> by (eapply node_unique; [apply i_groups0|done|done]).
      congruence.
    + rewrite lookup_insert_ne in E1 by done. by eapply i_listed0.
Qed.

(** A timer is set for the group in transit, and its number kept with [u]. *)
Lemma set_alarm h s m a sp gss n k l fn q d kd (u : Z -> listaddr -> listaddr) : Inv h s m a [] [] sp gss ->
  node gss n k -> las m !! k = Some l -> h = Some (Z.of_nat n, al_addr l) -> length (sin6_addr (al_addr l)) = 16%nat -> 0 <= d < 2 ^ 31 -> a_last a < 2 ^ 31 - 1 ->
  let b := mkAlarm (clock sp + d) n (al_addr l) kd in
  key b ∉ (key <$> alarms sp) ->
  match kd with
  | Expire _ => fn = DelVif_ /\ u = set_al_timerid
  | Ask => fn = SendQuery_ /\ u = set_al_query /\ exists v, mvifs m !! n = Some v /\ q = uv_mld_llqi v
  end ->
  exists i s' a' m', (let! i := set_timer fn n (Some k) None q d in upd_la (Some k) (u i)) (s, m) = Ok tt (s', m') /\
    Inv h s' m' a' [] [] (set_alarms (arrange b (alarms sp)) sp) gss /\ a_last a' = a_last a + 1 /\ las m' !! k = Some (u i l) /\
    mvifs m' = mvifs m /\ pim m' = pim m /\ 0 < i.
Proof.
  intros I Hn El Eh H16 Hd Hid b Hkey Hfn. destruct I. destruct i_mallocs0 as [M1 M2]. cbn [app] in *.
  set (c := mld_brk m). set (i := a_last a + 1). set (m1 := set_mld_brk (mld_brk m + 1)%nat (set_cbks (<[c := mkCbk n (Some k) None q]> (cbks m)) m)).
  destruct (view_set s a d (Some fn) (Z.of_nat c) i_view0 Hd) as (i' & s' & a' & V' & E12).
  destruct (E12 _ m1) as [E1 E2].
  assert (Ei : i' = i /\ a' = mkAgenda (now a) (schedule (mkTimer i (Some fn) c (now a + d)) (timers a)) i (a_freed a) []).
  { revert E2. unfold spec_set, agenda, put, bind, ret. cbn. rewrite M2, next_id_small by lia. by intros [= <- <-]. }
  destruct Ei as [-> ->]. set (t0 := mkTimer i (Some fn) c (now a + d)) in *.
  assert (Hu : al_addr (u i l) = al_addr l /\ al_next (u i l) = al_next l) by (destruct kd; destruct_and!; subst; done).
  exists i, s', (mkAgenda (now a) (schedule t0 (timers a)) i (a_freed a) []), (set_las (<[k := u i l]> (las m)) m1).
  split.
  { assert (Est : set_timer fn n (Some k) None q d (s, m) = Ok i (s', m1)).
    { unfold set_timer. rewrite (bind_Ok _ _ _ _ _ (new_cbk_Ok _ _ _ M1)), bind_of_Some.
      rewrite s32_small by lia. exact E1. }
    rewrite (bind_Ok _ _ _ _ _ Est). by rewrite (upd_la_Ok k l). }
  split; [|split; [done|split; [cbn; by rewrite lookup_insert_eq|split; [done|split; [done|lia]]]]].
  destruct (schedule_arrange t0 b (timers a) (alarms sp)) as (T1 & T2 & A1 & A2 & ET & ET' & EA & EA' & LTA & Edue); [cbn; by rewrite i_clock0|done|].
  assert (Eti : Permutation (schedule t0 (timers a)) (t0 :: timers a)) by (rewrite ET', ET; by rewrite Permutation_middle).
  destruct i_ids0 as [Nid Rid].
  assert (Gr' : Groups (set_las (<[k:=u i l]> (las m)) m1) gss) by (eapply (Groups_move m _ gss k l (u i l)); [done|done|tauto|tauto|done|done|cbn; lia]).
  assert (Ring : forall t x, x ∈ alarms sp -> ring h m gss (a_freed a) t x -> ring h (set_las (<[k:=u i l]> (las m)) m1) gss (a_freed a) t x).
  { intros t x Hx (n0 & c0 & k0 & cb0 & l0 & R0).
    assert (Hc : (<[c:=mkCbk n (Some k) None q]> (cbks m)) !! c0 = Some cb0) by (rewrite lookup_insert_ne; destruct R0; [done|lia]).
    destruct (decide (k0 = k)) as [->|Hk].
    - assert (l0 = l) as -> by (destruct R0; congruence). exists n0, c0, k, cb0, (u i l).
      assert (F : is_for n (al_addr l) x = true) by (eapply (ring_node _ _ _ _ _ _ n k l n (al_addr l)); [exact i_groups0|done..]).
      apply is_for_true in F as [F1 F2].
      assert (Hke : expires x <> expires b).
      { intros E. apply Hkey. apply list_elem_of_fmap. exists x. split; [|done]. unfold key. cbn. unfold expires in *. cbn in *. congruence. }
      eapply rings_move; [exact R0|cbn; lia|by destruct R0|done|by destruct R0|cbn; by rewrite lookup_insert_eq|tauto|].
      unfold ring_kind, expires in *. cbn [a_kind b mvifs set_las m1 set_mld_brk set_cbks] in *.
      destruct (a_kind x), kd; try done; destruct Hfn as (-> & -> & Hfn) || destruct Hfn as [-> ->]; cbn; [|done].
      intros (K1 & K2 & K3). split; [done|]. split; [done|]. left. unfold in_hole. congruence.
    - exists n0, c0, k0, cb0, l0. eapply rings_move; [exact R0|cbn; lia|by destruct R0|done|by destruct R0| |done|done].
      cbn. rewrite lookup_insert_ne by done. by destruct R0. }
  split; try done; cbn [timers a_freed a_mallocs now a_last alarms clock table asked config set_alarms app mld_mallocs mld_brk set_las m1 set_mld_brk set_cbks].
  - lia.
  - eapply Forall_impl; [done|]. cbn. lia.
  - rewrite ET', EA'. rewrite ET, EA in i_ring0. apply Forall2_app_inv in i_ring0 as [R1 R2]; [|done].
    apply Forall2_app.
    + eapply Forall2_impl_in; [exact R1|]. intros t x _ Hx. apply Ring. rewrite EA. apply elem_of_app. by left.
    + constructor; [|eapply Forall2_impl_in; [exact R2|]; intros t x _ Hx; apply Ring; rewrite EA; apply elem_of_app; by right].
      exists n, c, k, (mkCbk n (Some k) None q), (u i l). split; try done; try tauto; [cbn; lia| | | |].
      * intros Hin. rewrite Forall_forall in i_freed0. specialize (i_freed0 _ Hin). subst c. lia.
      * cbn. by rewrite lookup_insert_eq.
      * cbn. by rewrite lookup_insert_eq.
      * unfold ring_kind. cbn [a_kind b mvifs set_las m1 set_mld_brk set_cbks]. destruct kd; destruct_and!; subst; cbn; [|done].
        split; [done|]. split; [done|]. left. done.
  - split.
    + rewrite Eti. cbn. apply NoDup_cons. split; [|done]. intros Hin. apply list_elem_of_fmap in Hin as (t & Et & Ht).
      rewrite Forall_forall in Rid. specialize (Rid t Ht). cbn in Et. lia.
    + rewrite Eti. constructor; [cbn; lia|]. eapply Forall_impl; [exact Rid|]. cbn. lia.
  - lia.
  - rewrite Eti. cbn. apply NoDup_cons. split; [|done]. intros Hin. apply list_elem_of_fmap in Hin as (t & Et & Ht). cbn in Et.
    apply list_elem_of_lookup in Ht as [j Hj]. destruct (Forall2_lookup_l _ _ _ _ _ i_ring0 Hj) as (x & _ & (? & ? & ? & ? & ? & [])).
    subst c. lia.
  - rewrite (arrange_perm b). cbn. by apply NoDup_cons.
  - rewrite EA'. apply asks_end_insert; [done|]. by rewrite <- EA.
  - rewrite (arrange_perm b). by constructor.
  - by apply arrange_sorted.
  - intros n1 k1 l1 N1 E1' D1. cbn in E1'. destruct (decide (k1 = k)) as [->|Hk].
    + rewrite lookup_insert_eq in E1'. injection E1' as <-. assert (n1 = n) as -> by (eapply node_unique; [apply i_groups0|done|done]).
      destruct Hu as [Hu _]. congruence.
    + rewrite lookup_insert_ne in E1' by done. destruct (i_listed0 n1 k1 l1 N1 E1' D1) as [(x & Hx & Px) Q].
      split; [exists x; rewrite arrange_perm; split; [by right|done]|].
      destruct Q as [|[|(y & Hy & Py)]]; [auto|auto|]. right; right. exists y. rewrite arrange_perm. split; [by right|done].
Qed.

(** *** In and out of transit *)

Lemma Inv_enter h s m a sp gss : Inv None s m a [] [] sp gss -> Inv h s m a [] [] sp gss.
Proof.
  intros []. split; try done.
  - eapply Forall2_impl; [done|]. intros t x (n & c & k & cb & l & []). exists n, c, k, cb, l. split; try done.
    unfold ring_kind in *. destruct (a_kind x); [|done]. destruct rg_kind0 as (? & ? & [?|?]); [done|auto].
  - by apply asks_end_hole.
  - intros n k l N E _. by eapply i_listed0.
Qed.

Lemma Inv_leave s m a sp gss n k l : Inv (Some (Z.of_nat n, al_addr l)) s m a [] [] sp gss -> node gss n k -> las m !! k = Some l ->
  asks_end None (alarms sp) -> listed n l (alarms sp) ->
  (forall b hd, b ∈ alarms sp -> a_vif b = n -> a_grp b = al_addr l -> a_kind b = Expire hd -> (hd = true <-> al_query l = -1)) ->
  Inv None s m a [] [] sp gss.
Proof.
  intros I Hn El Ho Hl Hk. destruct I. split; try done.
  - eapply Forall2_impl_in; [done|]. intros t x _ Hx (n0 & c & k0 & cb & l0 & R). exists n0, c, k0, cb, l0.
    assert (Hc : k0 = k <-> is_for n (al_addr l) x = true) by (eapply (ring_node _ _ _ _ _ _ n k l n (al_addr l)); done).
    destruct R. split; try done. unfold ring_kind in *. destruct (a_kind x) eqn:Ek; [|done]. destruct rg_kind0 as (? & ? & [Hh|?]); [|auto].
    split; [done|]. split; [done|]. right. unfold in_hole in Hh. injection Hh as E1 E2.
    assert (k0 = k) as -> by (apply Hc, is_for_true; done). assert (l0 = l) as -> by congruence. by eapply Hk.
  - intros n1 k1 l1 N1 E1 _. destruct (decide ((Z.of_nat n1, al_addr l1) = (Z.of_nat n, al_addr l))) as [E|D].
    + injection E as E2 E3. assert (n1 = n) as -> by lia. assert (k1 = k) as -> by (by eapply i_groups0). assert (l1 = l) as -> by congruence. exact Hl.
    + eapply i_listed0; [done|done|]. intros E. injection E as E2 E3. apply D. by rewrite E2, E3.
Qed.

Lemma clear_none h s m a tf af sp gss i : Inv h s m a tf af sp gss -> i <= 0 ->
  exists s', t_clear i (s, m) = Ok tt (s', m) /\ Inv h s' m a tf af sp gss.
Proof.
  intros I Hi. destruct I. destruct (view_clear s a m i i_view0) as (s' & a' & E1 & E2 & V). exists s'. split; [done|].
  assert (a' = a) as ->.
  { revert E2. unfold spec_clear, agenda, put, bind, ret. case_decide; [by intros [= <-]|]. cbn.
    assert (lookup_timer i (timers a) = None) as ->; [|by intros [= <-]].
    destruct i_ids0 as [_ R]. rewrite Forall_app in R. destruct R as [_ R]. clear -R Hi.
    induction R as [|t l Ht _ IH]; [done|]. cbn. rewrite (proj2 (Z.eqb_neq _ _)) by lia. exact IH. }
  by split.
Qed.

(** The alarms of a group are two at most. *)
Lemma alarm_unique h s m a sp gss b b' : Inv h s m a [] [] sp gss -> b ∈ alarms sp -> b' ∈ alarms sp ->
  a_vif b = a_vif b' -> a_grp b = a_grp b' -> expires b = expires b' -> b = b'.
Proof.
  intros I H H' E1 E2 E3. pose proof (i_keys _ _ _ _ _ _ _ _ I) as N. cbn [app] in N.
  apply list_elem_of_lookup in H as [i Hi]. apply list_elem_of_lookup in H' as [j Hj].
  assert (i = j) as ->; [|congruence]. eapply (NoDup_lookup _ i j (key b)); [exact N| |].
  - by rewrite list_lookup_fmap, Hi.
  - rewrite list_lookup_fmap, Hj. cbn. unfold key. congruence.
Qed.

Lemma no_ask h s m a sp gss n k l b : Inv h s m a [] [] sp gss -> node gss n k -> las m !! k = Some l -> al_query l <= 0 ->
  b ∈ alarms sp -> a_vif b = n -> a_grp b = al_addr l -> expires b = true.
Proof.
  intros I Hn El Hq Hb E1 E2. unfold expires. destruct (a_kind b) eqn:Ek; [done|]. exfalso. destruct I. cbn [app] in *.
  apply list_elem_of_lookup in Hb as [j Hj]. destruct (Forall2_lookup_r _ _ _ _ _ i_ring0 Hj) as (t & Ht & (n0 & c0 & k0 & cb0 & l0 & R)).
  assert (k0 = k) as -> by (eapply (ring_node _ _ _ _ _ _ n k l n (al_addr l)); [done..|exact R|by apply is_for_true]).
  destruct R. assert (l0 = l) as -> by congruence. unfold ring_kind in *. rewrite Ek in *. destruct rg_kind0 as (_ & K & _).
  destruct i_ids0 as [_ Rid]. rewrite Forall_forall in Rid. specialize (Rid t (list_elem_of_lookup_2 _ _ _ Ht)). lia.
Qed.

Lemma timer_set h s m a sp gss n k l b : Inv h s m a [] [] sp gss -> node gss n k -> las m !! k = Some l ->
  b ∈ alarms sp -> a_vif b = n -> a_grp b = al_addr l -> expires b = true -> 0 < al_timerid l.
Proof.
  intros I Hn El Hb E1 E2 E3. destruct I. cbn [app] in *.
  apply list_elem_of_lookup in Hb as [j Hj]. destruct (Forall2_lookup_r _ _ _ _ _ i_ring0 Hj) as (t & Ht & (n0 & c0 & k0 & cb0 & l0 & R)).
  assert (k0 = k) as -> by (eapply (ring_node _ _ _ _ _ _ n k l n (al_addr l)); [done..|exact R|by apply is_for_true]).
  destruct R. assert (l0 = l) as -> by congruence. unfold ring_kind, expires in *. destruct (a_kind b); [|done].
  destruct rg_kind0 as (_ & K & _). destruct i_ids0 as [_ Rid]. rewrite Forall_forall in Rid.
  specialize (Rid t (list_elem_of_lookup_2 _ _ _ Ht)). lia.
Qed.

(** What stopping and starting timers leaves alone. *)
Definition same_rest m m' : Prop := mvifs m' = mvifs m /\ pim m' = pim m.

Definition for_group n l (b : alarm) : Prop := a_vif b = n /\ a_grp b = al_addr l.

Lemma stop_timer_ok h s m a sp gss n k l b : Inv h s m a [] [] sp gss -> node gss n k -> las m !! k = Some l ->
  h = Some (Z.of_nat n, al_addr l) -> (forall x, x ∈ alarms sp -> for_group n l x -> expires x = true) ->
  b ∈ alarms sp -> for_group n l b ->
  runs (stop_timer (Some k)) (s, m) (fun _ st => exists a', las st.2 !! k = Some (set_al_timerid 0 l) /\ same_rest m st.2 /\
    Inv h st.1 st.2 a' [] [] (set_alarms (calm n (al_addr l) (alarms sp)) sp) gss /\ a_last a' = a_last a).
Proof.
  intros I Hn El Eh Hx Hb Fb. destruct Fb as [F1 F2]. pose proof (Hx b Hb (conj F1 F2)) as Eb.
  unfold stop_timer. eapply runs_Ok; [by apply la_Ok|].
  pose proof (timer_set h s m a sp gss n k l b I Hn El Hb F1 F2 Eb) as Hid. rewrite (proj2 (Z.eqb_neq _ _)) by lia.
  destruct (clear_alarm h s m a sp gss n k l b I Hn El Eh Hb F1 F2) as (s' & a' & l1 & l2 & E1 & EA & I' & La).
  rewrite Eb in E1. unfold DeleteTimer. eapply runs_Ok; [rewrite (bind_Ok _ _ _ _ _ E1); reflexivity|].
  assert (Nf : Forall (fun x => is_for n (al_addr l) x = false) (l1 ++ l2)).
  { pose proof (i_keys _ _ _ _ _ _ _ _ I) as N. cbn [app] in N. rewrite EA in N. apply NoDup_key_drop in N as [_ N].
    apply Forall_forall. intros x Hin. destruct (is_for n (al_addr l) x) eqn:F; [|done]. exfalso. apply is_for_true in F. apply N.
    apply list_elem_of_fmap. exists x. split; [|done]. unfold key. rewrite (Hx x); [|rewrite EA, elem_of_app, elem_of_cons; rewrite elem_of_app in Hin; tauto|done].
    destruct F. unfold key. congruence. }
  assert (Ec : l1 ++ l2 = calm n (al_addr l) (alarms sp)).
  { rewrite EA, calm_drop by by apply is_for_true. symmetry. by apply calm_id. }
  rewrite Ec in I'. destruct (upd_hole h s' m a' _ gss n k l (set_al_timerid 0) I' Hn El Eh) as [E2 I2]; [done|done| |].
  { cbn [alarms set_alarms]. rewrite <- Ec. intros x Hin G1 G2. rewrite Forall_forall in Nf. specialize (Nf x Hin).
    assert (is_for n (al_addr l) x = true) by by apply is_for_true. congruence. }
  eapply runs_eq; [exact E2|]. exists a'. split; [cbn; by rewrite lookup_insert_eq|]. done.
Qed.

Lemma set_al_query_same l : al_query l = 0 -> set_al_query 0 l = l.
Proof. destruct l. cbn. by intros ->. Qed.

Lemma stop_query_ok h s m a sp gss n k l : Inv h s m a [] [] sp gss -> node gss n k -> las m !! k = Some l ->
  h = Some (Z.of_nat n, al_addr l) -> listed n l (alarms sp) ->
  runs (stop_query (Some k)) (s, m) (fun _ st => exists a' l', las st.2 !! k = Some (set_al_query 0 l) /\ same_rest m st.2 /\
    Inv h st.1 st.2 a' [] [] (set_alarms l' sp) gss /\ a_last a' = a_last a /\ calm n (al_addr l) l' = calm n (al_addr l) (alarms sp) /\
    (forall x, x ∈ l' -> for_group n l x -> expires x = true) /\ exists b, b ∈ l' /\ for_group n l b).
Proof.
  intros I Hn El Eh [(b & Hb & Eb1 & Eb2 & Eb3) Hq]. unfold stop_query. eapply runs_Ok; [by apply la_Ok|].
  assert (Same : set_alarms (alarms sp) sp = sp) by by destruct sp.
  assert (Quiet : al_query l <= 0 -> forall x, x ∈ alarms sp -> for_group n l x -> expires x = true).
  { intros Q x Hx [F1 F2]. by eapply no_ask. }
  destruct (Z.eqb_spec (al_query l) 0) as [Q|Q].
  - apply runs_ret. exists a, (alarms sp). rewrite Same, (set_al_query_same l Q). split_and!; try done; [apply Quiet; lia|]. by exists b.
  - destruct Hq as [?|[Q1|(y & Hy & Ey1 & Ey2 & Ey3)]]; [done| |].
    + destruct (clear_none h s m a [] [] sp gss (al_query l) I) as (s' & E1 & I'); [lia|].
      unfold DeleteTimer. eapply runs_Ok; [rewrite (bind_Ok _ _ _ _ _ E1); reflexivity|].
      destruct (upd_hole h s' m a sp gss n k l (set_al_query 0) I' Hn El Eh) as [E2 I2]; [done|done| |].
      { intros x Hx F1 F2. by rewrite (Quiet ltac:(lia) x Hx (conj F1 F2)). }
      eapply runs_eq; [exact E2|]. exists a, (alarms sp). rewrite Same. split_and!; try done; [cbn; by rewrite lookup_insert_eq|apply Quiet; lia|by exists b].
    + destruct (clear_alarm h s m a sp gss n k l y I Hn El Eh Hy Ey1 Ey2) as (s' & a' & l1 & l2 & E1 & EA & I' & La).
      assert (expires y = false) as Ey by (unfold expires; by rewrite Ey3). rewrite Ey in E1.
      unfold DeleteTimer. eapply runs_Ok; [rewrite (bind_Ok _ _ _ _ _ E1); reflexivity|].
      assert (Ex : forall x, x ∈ l1 ++ l2 -> for_group n l x -> expires x = true).
      { intros x Hx [F1 F2]. destruct (expires x) eqn:E; [done|]. exfalso.
        pose proof (i_keys _ _ _ _ _ _ _ _ I) as N. cbn [app] in N. rewrite EA in N. apply NoDup_key_drop in N as [_ N]. apply N.
        apply list_elem_of_fmap. exists x. split; [|done]. unfold key. congruence. }
      destruct (upd_hole h s' m a' _ gss n k l (set_al_query 0) I' Hn El Eh) as [E2 I2]; [done|done| |].
      { intros x Hx F1 F2. by rewrite (Ex x Hx (conj F1 F2)). }
      eapply runs_eq; [exact E2|]. exists a', (l1 ++ l2). split_and!; try done; [cbn; by rewrite lookup_insert_eq| |].
      * rewrite EA, calm_drop; [done|]. by apply is_for_true.
      * exists b. split; [|done]. rewrite EA in Hb. rewrite elem_of_app, elem_of_cons in *. destruct Hb as [|[->|]]; [auto|congruence|auto].
Qed.

(** *** The soft state of a group *)

Lemma ring_of h s m a sp gss b : Inv h s m a [] [] sp gss -> b ∈ alarms sp -> exists t n c k cb l, t ∈ timers a /\ rings h m gss (a_freed a) t b n c k cb l.
Proof.
  intros I Hb. pose proof (i_ring _ _ _ _ _ _ _ _ I) as R. cbn [app] in R. apply list_elem_of_lookup in Hb as [j Hj].
  destruct (Forall2_lookup_r _ _ _ _ _ R Hj) as (t & Ht & (n & c & k & cb & l & Rt)).
  exists t, n, c, k, cb, l. split; [by eapply list_elem_of_lookup_2|done].
Qed.

Lemma existsb_true {A} (f : A -> bool) l : existsb f l = true <-> exists x, x ∈ l /\ f x = true.
Proof. rewrite existsb_exists. by setoid_rewrite list_elem_of_In. Qed.

Lemma member_known s m a sp gss n k l : Inv None s m a [] [] sp gss -> node gss n k -> las m !! k = Some l ->
  member n (al_addr l) sp = true /\ asking n (al_addr l) sp = negb (al_query l =? 0).
Proof.
  intros I Hn El. destruct (i_listed _ _ _ _ _ _ _ _ I n k l Hn El) as [(b & Hb & E1 & E2 & E3) Q]; [done|]. cbn [app] in *. split.
  - apply existsb_true. exists b. split; [done|]. rewrite E3, andb_true_r. by apply is_for_true.
  - apply eq_true_iff_eq. unfold asking. rewrite existsb_true, negb_true_iff, Z.eqb_neq. split.
    + intros (x & Hx & F). apply andb_true_iff in F as [F K]. apply is_for_true in F as [F1 F2]. apply bool_decide_eq_true in K. intros Z.
      pose proof (no_ask None s m a sp gss n k l x I Hn El ltac:(lia) Hx F1 F2) as Ex.
      destruct (ring_of None s m a sp gss x I Hx) as (t & n0 & c0 & k0 & cb0 & l0 & _ & R).
      assert (k0 = k) as -> by (eapply (ring_node _ _ _ _ _ _ n k l n (al_addr l)); [apply I|done..|exact R|by apply is_for_true]).
      destruct R. assert (l0 = l) as -> by congruence. unfold ring_kind, expires in *. destruct (a_kind x) as [hd|]; [|done].
      destruct rg_kind0 as (_ & _ & [?|Hk]); [done|]. destruct hd; [|done]. rewrite (proj1 Hk) in Z by done. done.
    + intros Z. destruct Q as [?|[Q|(y & Hy & F1 & F2 & F3)]]; [done| |].
      * exists b. split; [done|]. apply andb_true_iff. split; [by apply is_for_true|]. apply bool_decide_eq_true.
        destruct (ring_of None s m a sp gss b I Hb) as (t & n0 & c0 & k0 & cb0 & l0 & _ & R).
        assert (k0 = k) as -> by (eapply (ring_node _ _ _ _ _ _ n k l n (al_addr l)); [apply I|done..|exact R|by apply is_for_true]).
        destruct R. assert (l0 = l) as -> by congruence. unfold ring_kind, expires in *. destruct (a_kind b) as [hd|]; [|done].
        destruct rg_kind0 as (_ & _ & [?|Hk]); [done|]. intros [= ->]. by apply Hk in Q.
      * exists y. split; [done|]. apply andb_true_iff. split; [by apply is_for_true|]. apply bool_decide_eq_true. by rewrite F3.
Qed.

Lemma member_unknown s m a sp gss n g : Inv None s m a [] [] sp gss ->
  (forall k l, node gss n k -> las m !! k = Some l -> al_addr l <> g) -> member n g sp = false.
Proof.
  intros I H. apply not_true_iff_false. unfold member. rewrite existsb_true. intros (b & Hb & F). apply andb_true_iff in F as [F _].
  apply is_for_true in F as [F1 F2]. destruct (ring_of None s m a sp gss b I Hb) as (t & n0 & c0 & k0 & cb0 & l0 & _ & []).
  assert (n0 = n) as -> by lia. eapply H; [done|done|congruence].
Qed.

(** *** Timers started *)

Lemma start_timer_ok h s m a sp gss n k l junk kd : Inv h s m a [] [] sp gss -> node gss n k -> las m !! k = Some l ->
  h = Some (Z.of_nat n, al_addr l) -> length (sin6_addr (al_addr l)) = 16%nat -> 0 <= al_timer l < 2 ^ 31 -> a_last a < 2 ^ 31 - 1 -> expires (mkAlarm 0 0 (al_addr l) kd) = true ->
  (forall x, x ∈ alarms sp -> for_group n l x -> expires x = false) ->
  runs (start_timer junk n (Some k)) (s, m) (fun _ st => exists i a', las st.2 !! k = Some (set_al_timerid i l) /\ same_rest m st.2 /\
    Inv h st.1 st.2 a' [] [] (set_alarms (arrange (mkAlarm (clock sp + al_timer l) n (al_addr l) kd) (alarms sp)) sp) gss /\
    a_last a' = a_last a + 1).
Proof.
  intros I Hn El Eh H16 Hd Hl Ek Hx. destruct kd as [hd|]; [|done].
  destruct (set_alarm h s m a sp gss n k l DelVif_ (tmo_junk junk) (al_timer l) (Expire hd) set_al_timerid I Hn El Eh H16 Hd Hl) as (i & s' & a' & m' & E & I' & La & L' & Ev & Ep & _); [|done|].
  - intros Hin. apply list_elem_of_fmap in Hin as (x & Ex & Hin). unfold key in Ex. injection Ex as E1 E2 E3.
    unfold expires in E3 at 1. cbn in E3. rewrite (Hx x Hin) in E3; [done|]. by split.
  - unfold start_timer, SetTimer. eapply runs_eq; [rewrite bind_assoc, (bind_Ok _ _ _ _ _ (la_Ok _ _ _ _ El)); exact E|].
    exists i, a'. done.
Qed.

Lemma calm_quiet n l x al : x ∈ calm n (al_addr l) al -> ~ for_group n l x.
Proof.
  intros Hx [F1 F2]. pose proof (calm_none n (al_addr l) al) as N. rewrite Forall_forall in N. specialize (N x Hx).
  assert (is_for n (al_addr l) x = true) by by apply is_for_true. congruence.
Qed.

(** The group leaves transit with its end put in last. *)
Lemma leave_with_end s m a sp gss n k l al hd d : Inv (Some (Z.of_nat n, al_addr l)) s m a [] [] sp gss -> node gss n k -> las m !! k = Some l ->
  alarms sp = arrange (mkAlarm d n (al_addr l) (Expire hd)) al -> StronglySorted earlier al ->
  (forall x, x ∈ al -> for_group n l x -> a_kind x = Ask /\ due x <= d /\ hd = false) -> (hd = true <-> al_query l = -1) ->
  (al_query l <= 0 -> al_query l = 0 \/ al_query l = -1) -> (0 < al_query l -> exists x, x ∈ al /\ for_group n l x) ->
  Inv None s m a [] [] sp gss.
Proof.
  intros I Hn El Ea Hs Ho Hq Hz Hp. eapply Inv_leave; [done..| | |].
  - pose proof (i_order _ _ _ _ _ _ _ _ I) as O. cbn [app] in O. rewrite Ea in *.
    destruct (arrange_split (mkAlarm d n (al_addr l) (Expire hd)) al) as (l1 & l2 & E1 & E2 & E3 & _). rewrite E2 in *.
    specialize (E3 Hs).
    assert (Nf : Forall (fun x => is_for n (al_addr l) x = false) l2).
    { apply Forall_forall. intros x Hx. destruct (is_for n (al_addr l) x) eqn:F; [|done]. apply is_for_true in F.
      destruct (Ho x) as (_ & Hd & _); [rewrite E1; apply elem_of_app; by right|done|]. rewrite Forall_forall in E3. specialize (E3 x Hx). cbn in E3. lia. }
    destruct hd.
    + assert (Na : Forall (fun x => is_for n (al_addr l) x = false) (l1 ++ l2)).
      { apply Forall_forall. intros x Hx. destruct (is_for n (al_addr l) x) eqn:F; [|done]. apply is_for_true in F.
        destruct (Ho x) as (_ & _ & ?); [by rewrite E1|done|done]. }
      clear -O Na. apply Forall_app in Na as [N1 N2]. induction l1 as [|x l1 IH].
      * split; [done|]. destruct O as [_ O]. cbn in *. induction N2 as [|y l2 F N2 IH]; [done|]. destruct O as [O O']. split; [|auto].
        intros E. destruct (O E) as [Hh|?]; [|auto]. unfold in_hole in Hh. injection Hh as F1 F2.
        assert (is_for n (al_addr l) y = true) by by apply is_for_true. congruence.
      * apply Forall_cons in N1 as [F N1]. destruct O as [O O']. split; [|auto]. intros E. destruct (O E) as [Hh|?]; [|auto].
        unfold in_hole in Hh. injection Hh as F1 F2. assert (is_for n (al_addr l) x = true) by by apply is_for_true. congruence.
    + by eapply (asks_end_close n (al_addr l)).
  - rewrite Ea. split.
    + eexists. rewrite arrange_perm. split; [left|done].
    + destruct (Z_lt_le_dec 0 (al_query l)) as [Q|Q]; [|destruct (Hz Q); auto].
      destruct (Hp Q) as (x & Hx & F). right; right. exists x. rewrite arrange_perm. split; [by right|]. destruct (Ho x Hx F) as (? & _). by destruct F.
  - rewrite Ea. intros b hd' Hb F1 F2 K. rewrite arrange_perm in Hb. apply elem_of_cons in Hb as [->|Hb].
    + cbn in K. congruence.
    + destruct (Ho b Hb (conj F1 F2)) as (? & _). congruence.
Qed.
End Inv.
