(* ===== verification/MldOk.v ===== *)
(** * MldOk: the protocol for listeners keeps its promise

    Every message and every second that passes keeps the invariant of MldInv,
    and does to the soft state what MldSpec says.  The proofs run the code on
    any timer service that keeps the laws of Callout, and on any routing table
    whose leaves can be changed. *)

From stdpp Require Import base list numbers gmap sorting.
From S2P Require Import Prelude Callout Inet6 Pim RpMatch Vif Mrt PimMsg PimSend Oifs Rp PimJp PimBsr PimReg PimJoin PimRoute PimTimer Mld MldProto MldMem MldSpec MldInv.
Open Scope Z_scope.
#[local] Coercion Z.of_nat : nat >-> Z.

Section Events.
Context {S : Type} `{TL : TimerLaws mld_timer S} `{LO : LeavesOk}.
Implicit Types (s : S) (m : Mld) (a : Agenda mld_timer) (sp : Soft) (n k : nat).

(** ** The routing table and the messages *)

Lemma added_ok h s m a tf af sp gss n v g : Inv h s m a tf af sp gss -> uvifs (table sp) !! n = Some v ->
  runs (routing (leaf_added n None g)) (s, m) (fun _ st => Inv h st.1 st.2 a tf af (with_leaf n g sp) gss).
Proof.
  intros [] Ev. destruct (leaf_added_ok n v g (table sp) i_ok Ev) as (p' & E & Ok' & U).
  eapply runs_eq; [apply routing_Ok; by rewrite i_table|]. unfold with_leaf. rewrite E. cbn [final].
  split; try done; cbn; try (by rewrite U); [by destruct i_groups|].
  eapply Forall2_impl; [done|]. intros t x (n1 & c & k & cb & l & []). by exists n1, c, k, cb, l.
Qed.

Lemma deleted_ok h s m a tf af sp gss n v g : Inv h s m a tf af sp gss -> uvifs (table sp) !! n = Some v ->
  runs (routing (leaf_deleted n None g)) (s, m) (fun _ st => exists p, st = (s, set_pim p m) /\ Inv h s (set_pim p m) a tf af (without_leaf n g sp) gss).
Proof.
  intros [] Ev. destruct (leaf_deleted_ok n v g (table sp) i_ok Ev) as (p' & E & Ok' & U).
  eapply runs_eq; [apply routing_Ok; by rewrite i_table|]. exists p'. split; [done|]. unfold without_leaf. rewrite E. cbn [final].
  split; try done; cbn; try (by rewrite U); [by destruct i_groups|].
  eapply Forall2_impl; [done|]. intros t x (n1 & c & k & cb & l & []). by exists n1, c, k, cb, l.
Qed.

Lemma zlen_message type code delay g : length g = 16%nat -> zlen (mld_message type code delay g) = sizeof_mld_hdr.
Proof. intros E. unfold mld_message. rewrite !zlen_app, zlen_be16. unfold zlen at 3. rewrite E. done. Qed.

Lemma send_mld6_ok h s m a tf af sp gss type code src g idx delay : Inv h s m a tf af sp gss -> length g = 16%nat ->
  runs (send_mld6 type code src g idx delay) (s, m) (fun _ st => exists b pk,
    st = (s, set_mld_sent (mld_sent m ++ pk) (set_mld6_send_buf b m)) /\
    pk = [mkMldPacket src (mld_dst (if IN6_IS_ADDR_UNSPECIFIED g then allnodes_group else g) idx) idx (mld_message type code delay g)] /\
    Inv h s st.2 a tf af (ask pk sp) gss).
Proof.
  intros I Eg. pose proof (zlen_message type code delay g Eg) as Em. unfold send_mld6, put_send_buf, mld_sendmsg.
  pose proof (i_buf _ _ _ _ _ _ _ _ I) as Eb.
  assert (Es : store (mld6_send_buf m) 0 (mld_message type code delay g) =
    Some (mld_message type code delay g ++ drop (length (mld_message type code delay g)) (mld6_send_buf m))).
  { apply store_0. rewrite Em, Eb. unfold sizeof_mld_hdr, RECV_BUF_SIZE. lia. }
  set (buf := _ ++ _) in Es. eapply runs_Ok.
  { rewrite (bind_Ok _ _ _ _ _ (mld_Ok s m)), Es, bind_of_Some. reflexivity. }
  cbn [upd_mld fst snd]. eexists tt, _. split.
  { unfold mld, upd_mld, bind, of_option. cbn [fst snd mld6_send_buf set_mld6_send_buf]. subst buf.
    rewrite <- Em, (slice_app_l _ _ 0 _) by lia. unfold slice. rewrite decide_True by (pose proof (zlen_nonneg (mld_message type code delay g)); lia).
    rewrite drop_0, zlen_to_nat, firstn_all. reflexivity. }
  exists buf. eexists. split; [reflexivity|]. split; [done|]. destruct I. split; try done; cbn.
  - by rewrite i_sent.
  - transitivity (zlen (mld6_send_buf m)); [exact (store_zlen _ _ _ _ Es)|done].
  - by destruct i_groups.
  - eapply Forall2_impl; [done|]. intros t x (n & c & k & cb & l & []). by exists n, c, k, cb, l.
Qed.

(** A vif and what is known of it. *)
Lemma vif_of h s m a tf af sp gss n v : Inv h s m a tf af sp gss -> uvifs (table sp) !! n = Some v ->
  exists mv, mvifs m !! n = Some mv /\ vif_fine v mv /\ rd (config sp) n = Some (set_uv_groups None mv) /\
    routing (vif n) (s, m) = Ok v (s, m).
Proof.
  intros [] E. destruct (Forall2_lookup_l _ _ _ _ _ i_vifs E) as (mv & Em & F). exists mv. split; [done|]. split; [done|]. split.
  - rewrite rd_of_nat, <- i_config, list_lookup_fmap, Em. done.
  - apply routing_same. unfold vif. rewrite get_bind, i_table, rd_of_nat, E. done.
Qed.

(** ** Reports *)

(** The group gets its end again. *)
Lemma restart_ok s m a sp gss n k l junk g al hd : Inv (Some (Z.of_nat n, g)) s m a [] [] sp gss -> node gss n k -> las m !! k = Some l ->
  al_addr l = g -> length (sin6_addr g) = 16%nat -> 0 <= al_timer l < 2 ^ 31 -> a_last a < 2 ^ 31 - 1 ->
  alarms sp = calm n g al -> al_query l = (if hd : bool then -1 else 0) ->
  runs (start_timer junk n (Some k)) (s, m) (fun _ st => exists a', same_rest m st.2 /\ a_last a' = a_last a + 1 /\
    Inv None st.1 st.2 a' [] [] (set_alarms (arrange (mkAlarm (clock sp + al_timer l) n g (Expire hd)) (calm n g al)) sp) gss /\
    exists l', las st.2 !! k = Some l').
Proof.
  intros I Hn El <- H16 Hd Hl Ea Hq. eapply runs_mono; [eapply (start_timer_ok _ s m a sp gss n k l junk (Expire hd)); try done|].
  { rewrite Ea. intros x Hx F. by destruct (calm_quiet _ _ _ _ Hx F). }
  cbn. intros _ [s' m'] (i & a' & L' & Sm & I' & La). exists a'. split; [done|]. split; [done|]. split; [|by eexists]. rewrite Ea in I'.
  pose proof (i_sorted _ _ _ _ _ _ _ _ I) as So. rewrite Ea in So.
  eapply (leave_with_end s' m' a' _ gss n k (set_al_timerid i l) (calm n (al_addr l) al) hd); [exact I'|done|done|done|done|..]; cbn.
  - intros x Hx F. by destruct (calm_quiet _ _ _ _ Hx F).
  - rewrite Hq. by destruct hd.
  - rewrite Hq. destruct hd; auto.
  - rewrite Hq. by destruct hd.
Qed.

Lemma interval_range v mv : vif_fine v mv -> 0 <= MLD6_LISTENER_INTERVAL mv < 2 ^ 31.
Proof. intros F. split; [apply u32_range|apply F]. Qed.

(** A group that is known. *)
Lemma report_known s m a sp gss n k l src g junk v mv : Inv None s m a [] [] sp gss -> node gss n k -> las m !! k = Some l -> al_addr l = g ->
  length (sin6_addr g) = 16%nat -> uvifs (table sp) !! n = Some v -> mvifs m !! n = Some mv -> vif_fine v mv -> a_last a < 2 ^ 31 - 1 ->
  runs (do! upd_la (Some k) (fun l => set_al_timer (MLD6_LISTENER_INTERVAL mv) (set_al_reporter src l)) ;;
        do! stop_query (Some k) ;; do! stop_timer (Some k) ;; do! start_timer junk n (Some k) ;; routing (leaf_added n None g))
    (s, m) (fun _ st => exists a', Inv None st.1 st.2 a' [] [] (report n mv g sp) gss /\ a_last a' = a_last a + 1).
Proof.
  intros I Hn El Eg H16 Ev Em F Hl. subst g. set (h := Some (Z.of_nat n, al_addr l)).
  pose proof (i_listed _ _ _ _ _ _ _ _ I n k l Hn El) as Li. cbn [app] in Li. apply (Inv_enter h) in I.
  set (l1 := set_al_timer (MLD6_LISTENER_INTERVAL mv) (set_al_reporter src l)).
  destruct (upd_hole h s m a sp gss n k l (fun l => set_al_timer (MLD6_LISTENER_INTERVAL mv) (set_al_reporter src l)) I Hn El eq_refl eq_refl eq_refl)
    as [E1 I1]; [intros b _ _ _; by destruct (expires b)|]. fold l1 in I1. eapply runs_Ok; [exact E1|]. fold l1. set (m1 := set_las _ m) in *.
  assert (El1 : las m1 !! k = Some l1) by (subst m1; cbn; by rewrite lookup_insert_eq).
  eapply runs_bind, runs_mono; [apply (stop_query_ok h s m1 a sp gss n k l1 I1 Hn El1 eq_refl); apply Li; done|].
  cbn. intros _ [s2 m2] (a2 & A2 & L2 & S2 & I2 & La2 & C2 & Q2 & b & Hb & Fb).
  eapply runs_bind, runs_mono; [apply (stop_timer_ok h s2 m2 a2 _ gss n k _ b I2 Hn L2 eq_refl); [exact Q2|exact Hb|exact Fb]|].
  cbn. intros _ [s3 m3] (a3 & L3 & S3 & I3 & La3). cbn in L3, I3. rewrite C2 in I3.
  assert (R : runs (start_timer junk n (Some k)) (s3, m3) (fun _ st => exists a', same_rest m3 st.2 /\ a_last a' = a_last a3 + 1 /\
    Inv None st.1 st.2 a' [] [] (set_alarms (arrange (mkAlarm (clock sp + MLD6_LISTENER_INTERVAL mv) n (al_addr l) (Expire false)) (calm n (al_addr l) (alarms sp))) sp) gss /\
    exists l', las st.2 !! k = Some l')).
  { apply (restart_ok s3 m3 a3 _ gss n k _ junk (al_addr l) (alarms sp) false I3 Hn L3); [done|done|by apply (interval_range v)|lia|done|done]. }
  eapply runs_bind, runs_mono; [exact R|]. cbn. intros _ [s4 m4] (a4 & S4 & La4 & I4 & _).
  eapply runs_mono; [apply (added_ok _ _ _ _ _ _ _ _ n v (al_addr l) I4 Ev)|]. cbn. intros _ st I5. exists a4. split; [exact I5|lia].
Qed.

(** A new node at the head of an interface's list. *)
Lemma Groups_link m m' gss n k l mv ks : Groups m gss -> k = mld_brk m -> mvifs m !! n = Some mv -> gss !! n = Some ks ->
  las m' = <[k := l]> (las m) -> al_next l = uv_groups mv -> mvifs m' = <[n := set_uv_groups (Some k) mv]> (mvifs m) ->
  mld_brk m' = (mld_brk m + 1)%nat ->
  (forall k' l', node gss n k' -> las m !! k' = Some l' -> al_addr l' <> al_addr l) ->
  Groups m' (<[n := k :: ks]> gss) /\ (forall n' k', node (<[n := k :: ks]> gss) n' k' <-> node gss n' k' \/ (n' = n /\ k' = k)) /\
  (forall n' k', node gss n' k' -> k' <> k).
Proof.
  intros G Ek Em Eks Eh En Ev Eb Ha.
  assert (D : forall n' k', node gss n' k' -> k' <> k).
  { intros n' k' Nk ->. pose proof (node_la m gss n' k G Nk) as Hs. apply (gr_brk _ _ G) in Hs. lia. }
  destruct G as [G1 G2 G3 G4].
  assert (Hks : k ∉ ks) by (intros Hi; by apply (D n k); [exists ks|]).
  assert (Hn : (n < length gss)%nat) by by eapply lookup_lt_Some.
  assert (Nd : forall n' k', node (<[n := k :: ks]> gss) n' k' <-> node gss n' k' \/ (n' = n /\ k' = k)).
  { intros n' k'. unfold node. split.
    - intros (ks' & E & Hi). apply list_lookup_insert_Some in E as [(<- & <- & _)|[_ E]]; [|left; eauto].
      apply elem_of_cons in Hi as [->|Hi]; [by right|left; eauto].
    - intros [(ks' & E & Hi)|[-> ->]].
      + destruct (decide (n' = n)) as [->|Dn]; [|exists ks'; by rewrite list_lookup_insert_ne].
        exists (k :: ks). rewrite list_lookup_insert_eq by done. split; [done|]. right. congruence.
      + exists (k :: ks). rewrite list_lookup_insert_eq by done. split; [done|left]. }
  split; [|done]. split.
  - rewrite Ev, Eh. apply Forall2_insert; [eapply Forall2_impl_in; [exact G1|]|].
    + intros v ks' _ Hin C. apply chain_link; [|done]. intros Hi. apply list_elem_of_lookup in Hin as [j Hj]. apply (D j k); [by exists ks'|done].
    + split; [done|]. eexists. rewrite lookup_insert_eq. split; [done|]. rewrite En. apply chain_link; [done|].
      destruct (Forall2_lookup_l _ _ _ _ _ G1 Em) as (ks' & E & C). congruence.
  - assert (P : concat (<[n := k :: ks]> gss) ≡ₚ k :: concat gss).
    { rewrite <- (take_drop_middle _ _ _ Eks) at 2. rewrite insert_take_drop by done. rewrite !concat_app. cbn. symmetry. apply Permutation_middle. }
    rewrite P. apply NoDup_cons. split; [|done]. intros Hi. apply list_elem_of_In, in_concat in Hi as (ks' & H1 & H2).
    apply list_elem_of_In in H1, H2. apply list_elem_of_lookup in H1 as [j Hj]. by apply (D j k); [exists ks'|].
  - intros n' k1 k2 l1 l2 N1 N2 E1 E2 E. rewrite Eh in E1, E2. apply Nd in N1, N2. destruct N1 as [N1|[N1 ->]], N2 as [N2|[N2 ->]]; try subst n'; try done.
    + pose proof (D _ _ N1). pose proof (D _ _ N2). rewrite lookup_insert_ne in E1, E2 by done. by eapply G3.
    + pose proof (D _ _ N1). rewrite lookup_insert_ne in E1 by done. rewrite lookup_insert_eq in E2. injection E2 as <-. by destruct (Ha k1 l1 N1 E1).
    + pose proof (D _ _ N2). rewrite lookup_insert_ne in E2 by done. rewrite lookup_insert_eq in E1. injection E1 as <-. by destruct (Ha k2 l2 N2 E2).
  - intros k' [l' E]. rewrite Eb. rewrite Eh in E. destruct (decide (k' = k)) as [->|]; [lia|]. rewrite lookup_insert_ne in E by done.
    enough (k' < mld_brk m)%nat by lia. eauto.
Qed.

Lemma Inv_link s m m' a sp gss n k l mv : Inv None s m a [] [] sp gss -> k = mld_brk m -> mvifs m !! n = Some mv ->
  m' = mkMld (pim m) (<[k := l]> (las m)) (cbks m) (<[n := set_uv_groups (Some k) mv]> (mvifs m)) (mld_brk m + 1) (mld_mallocs m) (mld6_send_buf m) (mld_sent m) ->
  al_next l = uv_groups mv -> (forall k' l', node gss n k' -> las m !! k' = Some l' -> al_addr l' <> al_addr l) ->
  exists gss', Inv (Some (Z.of_nat n, al_addr l)) s m' a [] [] sp gss' /\ node gss' n k.
Proof.
  intros I Ek Em Em' En Ha. apply (Inv_enter (Some (Z.of_nat n, al_addr l))) in I. destruct I.
  destruct (Forall2_lookup_l _ _ _ _ _ (gr_chain _ _ i_groups) Em) as (ks & Eks & _).
  destruct (Groups_link m m' gss n k l mv ks i_groups Ek Em Eks) as (G & Nd & D); [by subst m'..|done|].
  exists (<[n := k :: ks]> gss). split; [|apply Nd; by right].
  subst m'. split; try done; cbn.
  - rewrite list_fmap_insert, <- i_config. apply list_insert_id. by rewrite list_lookup_fmap, Em.
  - destruct (Forall2_lookup_r _ _ _ _ _ i_vifs Em) as (v & Ev & F).
    rewrite <- (list_insert_id _ _ _ Ev). apply Forall2_insert; [done|]. by destruct F.
  - lia.
  - eapply Forall_impl; [done|]. cbn. lia.
  - eapply Forall2_impl; [done|]. intros t x (n0 & c0 & k0 & cb0 & l0 & R). exists n0, c0, k0, cb0, l0.
    assert (k0 <> k) by (destruct R; by eapply D).
    eapply rings_move; [exact R|cbn; lia|by destruct R|by destruct R| | |done|].
    + apply Nd. left. by destruct R.
    + cbn. rewrite lookup_insert_ne by done. by destruct R.
    + unfold ring_kind. cbn [mvifs]. destruct (a_kind x); [done|]. intros (K1 & K2 & v & E & Eq). split; [done|]. split; [done|].
      destruct (decide (n0 = n)) as [->|]; [|exists v; by rewrite list_lookup_insert_ne].
      rewrite list_lookup_insert_eq by by eapply lookup_lt_Some. eexists. split; [done|]. cbn. congruence.
  - intros n1 k1 l1 N1 E1 D1. apply Nd in N1 as [N1|[-> ->]].
    + pose proof (D _ _ N1). rewrite lookup_insert_ne in E1 by done. by eapply i_listed.
    + rewrite lookup_insert_eq in E1. congruence.
Qed.

(** Setting the timer of a group and linking it can be swapped. *)
Lemma start_link_comm s m a n k l mv junk : t_view s a -> las m !! k = Some l -> mld_mallocs m = [] -> mvifs m !! n = Some mv ->
  0 <= al_timer l < 2 ^ 31 ->
  (do! start_timer junk n (Some k) ;; link_group n (Some k)) (s, m) = (do! link_group n (Some k) ;; start_timer junk n (Some k)) (s, m).
Proof.
  intros V El M Em Hd. destruct (view_set s a (al_timer l) (Some DelVif_) (Z.of_nat (mld_brk m)) V Hd) as (i & s' & a' & _ & E).
  assert (St : forall m0 l0, las m0 !! k = Some l0 -> al_timer l0 = al_timer l -> mld_mallocs m0 = [] -> mld_brk m0 = mld_brk m ->
    start_timer junk n (Some k) (s, m0) = Ok tt (s', set_las (<[k := set_al_timerid i l0]> (las m0))
      (set_mld_brk (mld_brk m + 1)%nat (set_cbks (<[mld_brk m := mkCbk n (Some k) None (tmo_junk junk)]> (cbks m0)) m0)))).
  { intros m0 l0 E0 Et M0 B0. unfold start_timer, SetTimer. rewrite bind_assoc, (bind_Ok _ _ _ _ _ (la_Ok _ _ _ _ E0)).
    unfold set_timer at 1. rewrite bind_assoc, (bind_Ok _ _ _ _ _ (new_cbk_Ok _ _ _ M0)). rewrite B0, Et, s32_small by lia.
    rewrite bind_assoc, bind_of_Some. rewrite (bind_Ok _ _ _ _ _ (proj1 (E _ _))). by rewrite (upd_la_Ok k l0). }
  assert (Li : forall s0 m0 l0, las m0 !! k = Some l0 -> mvifs m0 !! n = Some mv -> link_group n (Some k) (s0, m0) =
    Ok tt (s0, set_mvifs (<[n := set_uv_groups (Some k) mv]> (mvifs m0)) (set_las (<[k := set_al_next (uv_groups mv) l0]> (las m0)) m0))).
  { intros s0 m0 l0 E0 E1. unfold link_group. rewrite (bind_Ok _ _ _ _ _ (mvif_Ok n mv s0 m0 E1)).
    rewrite (bind_Ok _ _ _ _ _ (upd_la_Ok k l0 _ s0 m0 E0)). by rewrite (upd_mvif_Ok n mv). }
  rewrite (bind_Ok _ _ _ _ _ (St m l El eq_refl M eq_refl)). rewrite (Li s' _ (set_al_timerid i l)); [|cbn; by rewrite lookup_insert_eq|done].
  rewrite (bind_Ok _ _ _ _ _ (Li s m l El Em)). rewrite (St _ (set_al_next (uv_groups mv) l)); [|cbn; by rewrite lookup_insert_eq|done..].
  cbn. rewrite !insert_insert_eq. done.
Qed.

(** An assignment that the timers do not see. *)
Lemma upd_keep h s m a tf af sp gss k l f : Inv h s m a tf af sp gss -> las m !! k = Some l ->
  al_addr (f l) = al_addr l -> al_next (f l) = al_next l -> al_timerid (f l) = al_timerid l -> al_query (f l) = al_query l ->
  upd_la (Some k) f (s, m) = Ok tt (s, set_las (<[k := f l]> (las m)) m) /\ Inv h s (set_las (<[k := f l]> (las m)) m) a tf af sp gss.
Proof.
  intros I El Ea En Et Eq. split; [by apply upd_la_Ok|]. destruct I. split; try done.
  - by eapply (Groups_move m _ gss k l (f l)).
  - eapply Forall2_impl; [done|]. intros t b (n0 & c0 & k0 & cb0 & l0 & R). destruct (decide (k0 = k)) as [->|Hk].
    + assert (l0 = l) as -> by (destruct R; congruence). exists n0, c0, k, cb0, (f l).
      eapply rings_move; [exact R|cbn; lia|by destruct R..| |done|].
      * cbn. by rewrite lookup_insert_eq.
      * unfold ring_kind. cbn. destruct (a_kind b); rewrite ?Et, ?Eq; done.
    + exists n0, c0, k0, cb0, l0. eapply rings_move; [exact R|cbn; lia|by destruct R..| |done|done].
      cbn. rewrite lookup_insert_ne by done. by destruct R.
  - intros n1 k1 l1 N1 E1 D1. cbn in E1. destruct (decide (k1 = k)) as [->|Hk].
    + rewrite lookup_insert_eq in E1. injection E1 as <-. rewrite Ea in D1. specialize (i_listed n1 k l N1 El D1).
      unfold listed in *. by rewrite Ea, Eq.
    + rewrite lookup_insert_ne in E1 by done. by eapply i_listed.
Qed.

(** A group that is not known yet. *)
Lemma report_new s m a sp gss n src g junk v mv : Inv None s m a [] [] sp gss ->
  (forall k l, node gss n k -> las m !! k = Some l -> al_addr l <> g) ->
  length (sin6_addr g) = 16%nat -> uvifs (table sp) !! n = Some v -> mvifs m !! n = Some mv -> vif_fine v mv -> a_last a < 2 ^ 31 - 1 ->
  let k := mld_brk m in
  runs (do! upd_la (Some k) (fun l => set_al_reporter src (set_al_timer (MLD6_LISTENER_INTERVAL mv)
                                  (set_al_query 0 (set_al_sources None (set_al_addr g l))))) ;;
        do! start_timer junk n (Some k) ;; do! link_group n (Some k) ;; do! upd_la (Some k) (set_comp_mode MLDv1) ;;
        routing (leaf_added n None g))
    (s, set_mld_brk (mld_brk m + 1)%nat (set_las (<[k := junk]> (las m)) m))
    (fun _ st => exists a' gss', Inv None st.1 st.2 a' [] [] (report n mv g sp) gss' /\ a_last a' = a_last a + 1).
Proof.
  intros I Hg H16 Ev Em F Hl k. eapply runs_Ok.
  { apply upd_la_Ok. cbn. by rewrite lookup_insert_eq. }
  cbn. rewrite insert_insert_eq. set (l := set_al_reporter src _). set (m1 := set_las _ _).
  assert (El : las m1 !! k = Some l) by (subst m1; cbn; by rewrite lookup_insert_eq).
  assert (Hd : 0 <= al_timer l < 2 ^ 31) by (by apply (interval_range v)).
  assert (Swap : (do! start_timer junk n (Some k) ;; link_group n (Some k)) (s, m1) = (do! link_group n (Some k) ;; start_timer junk n (Some k)) (s, m1)).
  { apply (start_link_comm s m1 a n k l mv); [apply I|done|apply I|done|done]. }
  set (m2 := mkMld (pim m) (<[k := set_al_next (uv_groups mv) l]> (las m)) (cbks m) (<[n := set_uv_groups (Some k) mv]> (mvifs m)) (mld_brk m + 1)
               (mld_mallocs m) (mld6_send_buf m) (mld_sent m)).
  assert (Lk : link_group n (Some k) (s, m1) = Ok tt (s, m2)).
  { unfold link_group. rewrite (bind_Ok _ _ _ _ _ (mvif_Ok n mv s m1 Em)), (bind_Ok _ _ _ _ _ (upd_la_Ok k l _ s m1 El)).
    rewrite (upd_mvif_Ok n mv) by done. cbn. by rewrite insert_insert_eq. }
  destruct (Inv_link s m m2 a sp gss n k (set_al_next (uv_groups mv) l) mv I eq_refl Em eq_refl eq_refl Hg) as (gss' & I2 & Hn).
  change (al_addr (set_al_next (uv_groups mv) l)) with g in I2.
  assert (Ec : alarms sp = calm n g (alarms sp)).
  { symmetry. apply calm_id, Forall_forall. intros x Hx. destruct (is_for n g x) eqn:E; [|done].
    pose proof (member_unknown s m a sp gss n g I Hg) as Mu. apply is_for_true in E as [F1 F2].
    destruct (ring_of None s m a sp gss x I Hx) as (t & n0 & c0 & k0 & cb0 & l0 & _ & []).
    assert (n0 = n) as -> by lia. exfalso. eapply Hg; [done|done|congruence]. }
  assert (R : runs (start_timer junk n (Some k)) (s, m2) (fun _ st => exists a', same_rest m2 st.2 /\ a_last a' = a_last a + 1 /\
    Inv None st.1 st.2 a' [] [] (set_alarms (arrange (mkAlarm (clock sp + MLD6_LISTENER_INTERVAL mv) n g (Expire false)) (calm n g (alarms sp))) sp) gss' /\
    exists l', las st.2 !! k = Some l')).
  { apply (restart_ok s m2 a sp gss' n k (set_al_next (uv_groups mv) l) junk g (alarms sp) false I2 Hn); try done. cbn. by rewrite lookup_insert_eq. }
  destruct R as ([] & [s3 m3] & E3 & a' & _ & La & I3 & l' & El'). rewrite (bind_Ok _ _ _ _ _ Lk), E3 in Swap.
  apply bind_inv_Ok in Swap as ([] & st & E4 & E5). eapply runs_Ok; [exact E4|]. eapply runs_Ok; [exact E5|].
  destruct (upd_keep None s3 m3 a' [] [] _ gss' k l' (set_comp_mode MLDv1) I3 El' eq_refl eq_refl eq_refl eq_refl) as [E6 I6].
  eapply runs_Ok; [exact E6|]. eapply runs_mono; [apply (added_ok _ _ _ _ _ _ _ _ n v g I6 Ev)|]. cbn. intros _ st' I7. exists a', gss'. split; [exact I7|lia].
Qed.

Definition budget a : Prop := a_last a < 2 ^ 31 - 3.

Lemma recv_report_ok s m a sp gss n src g junk v : Inv None s m a [] [] sp gss -> uvifs (table sp) !! n = Some v ->
  length (sin6_addr g) = 16%nat -> budget a ->
  runs (recv_listener_report junk n src g) (s, m) (fun _ st => exists a' gss' mv,
    rd (config sp) n = Some mv /\ Inv None st.1 st.2 a' [] [] (report n mv g sp) gss' /\ a_last a' <= a_last a + 2).
Proof.
  intros I Ev H16 B. destruct (vif_of _ _ _ _ _ _ _ _ _ _ I Ev) as (mv & Em & F & Ec & _). unfold budget in B.
  unfold recv_listener_report. eapply runs_Ok; [by apply mvif_Ok|]. eapply runs_bind, runs_mono; [by eapply find_group_Ok|].
  cbn. intros [k|] st [-> Hg].
  - destruct Hg as (Hn & l & El & Ea). eapply runs_mono; [eapply (report_known s m a sp gss n k l src g junk v mv); try done; lia|].
    cbn. intros _ st (a' & I' & La). exists a', gss, (set_uv_groups None mv). split; [done|]. split; [exact I'|lia].
  - eapply runs_Ok; [apply new_la_Ok, I|]. eapply runs_mono; [eapply (report_new s m a sp gss n src g junk v mv); try done; lia|].
    cbn. intros _ st (a' & gss' & I' & La). exists a', gss', (set_uv_groups None mv). split; [done|]. split; [exact I'|lia].
Qed.

(** ** Done *)

Lemma known_addr s m a sp gss n k l : Inv None s m a [] [] sp gss -> node gss n k -> las m !! k = Some l -> length (sin6_addr (al_addr l)) = 16%nat.
Proof.
  intros I Hn El. destruct (i_listed _ _ _ _ _ _ _ _ I n k l Hn El) as [(b & Hb & _ & E & _) _]; [done|]. rewrite <- E.
  pose proof (i_addr _ _ _ _ _ _ _ _ I) as A. rewrite Forall_forall in A. by apply A.
Qed.

(** The querier asks for a group, or does not. *)
Lemma query_ok h s m a sp gss n k l v mv b junk : Inv h s m a [] [] sp gss -> las m !! k = Some l -> uvifs (table sp) !! n = Some v ->
  mvifs m !! n = Some mv -> length (sin6_addr (al_addr l)) = 16%nat ->
  runs (if asks v then group_query b junk n MLDv1 (al_addr l) else ret tt) (s, m)
    (fun _ st => st.1 = s /\ las st.2 !! k = Some l /\ mvifs st.2 = mvifs m /\ Inv h s st.2 a [] [] (querier_asks v mv (al_addr l) sp) gss).
Proof.
  intros I El Ev Em H16. unfold querier_asks. destruct (asks v); [|by apply runs_ret].
  destruct (vif_of _ _ _ _ _ _ _ _ _ _ I Ev) as (mv' & Em' & F & _ & Er). assert (mv' = mv) as -> by congruence.
  destruct (vf_linklocal _ _ F) as [p Ep].
  unfold group_query. eapply runs_Ok; [by apply mvif_Ok|]. eapply runs_Ok; [exact Er|].
  eapply runs_Ok; [apply routing_same; unfold linklocal; by rewrite Ep|]. rewrite orb_true_r.
  eapply runs_mono; [by eapply send_mld6_ok|]. cbn. intros _ st (buf & pk & -> & Epk & I'). cbn in I'.
  assert (pk = query_for v mv (al_addr l)) as -> by (unfold query_for; by rewrite Ep). done.
Qed.

Lemma last_listener_range v mv : vif_fine v mv -> 0 <= uv_mld_llqi mv / MLD6_TIMER_SCALE <= last_listener_time mv /\ last_listener_time mv < 2 ^ 31.
Proof.
  intros []. unfold last_listener_time. assert (0 <= uv_mld_llqi mv / MLD6_TIMER_SCALE) by (apply Z.div_pos; unfold MLD6_TIMER_SCALE; lia).
  rewrite u32_small by nia. nia.
Qed.

Lemma recv_done_ok s m a sp gss n g b junk v : Inv None s m a [] [] sp gss -> uvifs (table sp) !! n = Some v -> budget a ->
  runs (recv_listener_done b junk n g MLDv1) (s, m) (fun _ st => exists a' gss' mv,
    rd (config sp) n = Some mv /\ Inv None st.1 st.2 a' [] [] (done_ n v mv g sp) gss' /\ a_last a' <= a_last a + 2).
Proof.
  intros I Ev B. destruct (vif_of _ _ _ _ _ _ _ _ _ _ I Ev) as (mv & Em & F & Ec & Er). unfold budget in B.
  unfold recv_listener_done. eapply runs_Ok; [by apply mvif_Ok|]. eapply runs_Ok; [exact Er|].
  assert (Done : forall sp', done_ n v (set_uv_groups None mv) g sp = sp' -> forall s' m' a' gss', Inv None s' m' a' [] [] sp' gss' -> a_last a' <= a_last a + 2 ->
    exists a'' gss'' mv0, rd (config sp) n = Some mv0 /\ Inv None s' m' a'' [] [] (done_ n v mv0 g sp) gss'' /\ a_last a'' <= a_last a + 2).
  { intros sp' <- s' m' a' gss' ? ?. exists a', gss', (set_uv_groups None mv). done. }
  assert (Hd := eq_refl (done_ n v (set_uv_groups None mv) g sp)). unfold done_ in Hd at 2.
  destruct (has (uv_flags v) _); cbn [negb orb] in *; [|apply runs_ret; eapply Done; [exact Hd|exact I|lia]].
  eapply runs_bind, runs_mono; [by eapply find_group_Ok|]. cbn. intros [k|] st [-> Hg].
  2: { apply runs_ret. rewrite (member_unknown s m a sp gss n g I Hg) in Hd. eapply Done; [exact Hd|exact I|lia]. }
  destruct Hg as (Hn & l & El & <-). destruct (member_known s m a sp gss n k l I Hn El) as [Mk Ak]. rewrite Mk, Ak in Hd. cbn [negb orb] in Hd.
  eapply runs_Ok; [by apply la_Ok|]. destruct (Z.eqb_spec (al_query l) 0) as [Q|Q]; cbn [negb] in *; [|apply runs_ret; eapply Done; [exact Hd|exact I|lia]].
  pose proof (known_addr s m a sp gss n k l I Hn El) as H16. pose proof (last_listener_range v mv F) as Hr.
  destruct (i_listed _ _ _ _ _ _ _ _ I n k l Hn El) as [(e & He & Fe1 & Fe2 & Fe3) _]; [done|]. cbn [app] in He.
  set (h := Some (Z.of_nat n, al_addr l)). apply (Inv_enter h) in I.
  eapply runs_bind, runs_mono; [apply (stop_timer_ok h s m a sp gss n k l e I Hn El eq_refl); [|done|done]|].
  { intros x Hx [F1 F2]. apply (no_ask h s m a sp gss n k l x I Hn El); [lia|done..]. }
  cbn. intros _ [s1 m1] (a1 & L1 & [S1 _] & I1 & La1). cbn in L1, S1, I1.
  destruct (upd_hole h s1 m1 a1 _ gss n k _ (set_al_timer (last_listener_time mv)) I1 Hn L1 eq_refl eq_refl eq_refl) as [E2 I2].
  { cbn. intros x Hx F1 F2. by destruct (calm_quiet n l x (alarms sp) Hx (conj F1 F2)). }
  eapply runs_Ok; [exact E2|]. set (m2 := set_las _ m1) in *.
  assert (L2 : las m2 !! k = Some (set_al_timer (last_listener_time mv) (set_al_timerid 0 l))) by (subst m2; cbn; by rewrite lookup_insert_eq).
  eapply runs_bind, runs_mono; [apply (query_ok h s1 m2 a1 _ gss n k _ v mv b junk I2 L2 Ev); [cbn; by rewrite S1|done]|].
  cbn. intros _ [s3 m3] (E3 & L3 & S3 & I3). cbn in E3, L3, S3, I3. subst s3. rewrite S1 in S3.
  set (sp3 := querier_asks v mv (al_addr l) _) in *.
  assert (Al : alarms sp3 = calm n (al_addr l) (alarms sp) /\ clock sp3 = clock sp) by (subst sp3; unfold querier_asks; by destruct (asks v)).
  destruct Al as [Al Cl].
  destruct (set_alarm h s1 m3 a1 sp3 gss n k _ SendQuery_ (uv_mld_llqi mv) (uv_mld_llqi mv / MLD6_TIMER_SCALE) Ask set_al_query I3 Hn L3 eq_refl H16)
    as (i & s4 & a4 & m4 & E4 & I4 & La4 & L4 & S4 & _ & Hi); [lia|lia| |split; [done|split; [done|exists mv; by rewrite S3]]|].
  { rewrite Al. intros Hin. apply list_elem_of_fmap in Hin as (x & Ex & Hx). injection Ex as E5 E6 _. by destruct (calm_quiet n l x (alarms sp) Hx (conj (eq_sym E5) (eq_sym E6))). }
  assert (E4' : SetQueryTimer (Some k) n (uv_mld_llqi mv / MLD6_TIMER_SCALE) (uv_mld_llqi mv) (s1, m3) =
    set_timer SendQuery_ n (Some k) None (uv_mld_llqi mv) (uv_mld_llqi mv / MLD6_TIMER_SCALE) (s1, m3)) by done.
  apply bind_inv_Ok in E4 as (i' & st4 & E41 & E42). eapply runs_Ok; [exact E41|]. eapply runs_Ok; [exact E42|].
  cbn [al_addr set_al_timer set_al_timerid] in I4, L4. rewrite Al, Cl in I4.
  eapply runs_mono; [apply (start_timer_ok h s4 m4 a4 _ gss n k _ junk (Expire false) I4 Hn L4 eq_refl H16); [cbn; lia|lia|done|]|].
  { cbn. intros x Hx [F1 F2]. rewrite arrange_perm in Hx. apply elem_of_cons in Hx as [->|Hx]; [done|].
    by destruct (calm_quiet n l x (alarms sp) Hx (conj F1 F2)). }
  cbn. intros _ [s5 m5] (i5 & a5 & L5 & _ & I5 & La5). cbn in L5, I5. rewrite Cl in I5. refine (Done _ Hd s5 m5 a5 gss _ _); [|lia].
  { pose proof (i_sorted _ _ _ _ _ _ _ _ I4) as So. cbn in So.
    assert (Esp : querier_asks v (set_uv_groups None mv) (al_addr l)
      (set_alarms (arrange (mkAlarm (clock sp + last_listener_time (set_uv_groups None mv)) n (al_addr l) (Expire false))
        (arrange (mkAlarm (clock sp + uv_mld_llqi (set_uv_groups None mv) / MLD6_TIMER_SCALE) n (al_addr l) Ask) (calm n (al_addr l) (alarms sp)))) sp) =
      set_alarms (arrange (mkAlarm (clock sp + last_listener_time mv) n (al_addr l) (Expire false))
        (arrange (mkAlarm (clock sp + uv_mld_llqi mv / MLD6_TIMER_SCALE) n (al_addr l) Ask) (calm n (al_addr l) (alarms sp)))) sp3).
    { subst sp3. unfold querier_asks. by destruct (asks v). }
    rewrite Esp. eapply (leave_with_end s5 m5 a5 _ gss n k (set_al_timerid i5 (set_al_query i (set_al_timer (last_listener_time mv) (set_al_timerid 0 l)))) (arrange (mkAlarm (clock sp + uv_mld_llqi mv / MLD6_TIMER_SCALE) n (al_addr l) Ask) (calm n (al_addr l) (alarms sp))) false);
      [exact I5|done|exact L5|done|done|..]; cbn.
    + intros x Hx [F1 F2]. rewrite arrange_perm in Hx. apply elem_of_cons in Hx as [->|Hx]; [cbn; split; [done|split; [lia|done]]|].
      by destruct (calm_quiet n l x (alarms sp) Hx (conj F1 F2)).
    + split; [done|lia].
    + lia.
    + intros _. eexists. rewrite arrange_perm. split; [left|done]. }
Qed.
End Events.
