(* ===== verification/MldFloat.v ===== *)
(** * MldFloat: delays and intervals as floating point codes

    The codes of mld6v2.c stand for the numbers below their first bit as they
    are, and for greater ones as closely from below as a code can. *)

From stdpp Require Import base list numbers.
From S2P Require Import Prelude Inet6 Pim Mld.
Open Scope Z_scope.

(** ** Bits *)

Lemma clearbit_low b k : 0 <= k -> 0 <= b < 2 ^ k -> Z.clearbit (2 ^ k + b) k = b.
Proof.
  intros Hk Hb. apply Z.bits_inj'. intros i Hi. rewrite Z.clearbit_eqb. replace (2 ^ k + b) with (Z.lor (1 * 2 ^ k) b) by (rewrite lor_low by done; lia).
  rewrite Z.lor_spec, Z.mul_1_l, Z.pow2_bits_eqb by done. destruct (Z.eqb_spec k i) as [<-|D]; cbn [negb]; [|by rewrite andb_true_r].
  rewrite andb_false_r. symmetry. rewrite <- (Z.mod_small b (2 ^ k)) by done. by rewrite Z.mod_pow2_bits_high.
Qed.

Lemma top_bit_log2 fuel n t : 0 < n < 2 ^ t -> (Z.to_nat t <= fuel)%nat -> top_bit fuel n t = Z.log2 n + 1.
Proof.
  revert t. induction fuel as [|fuel IH]; intros t Hn Hf; cbn [top_bit].
  - assert (t <= 0) by lia. assert (2 ^ t <= 2 ^ 0) by (apply Z.pow_le_mono_r; lia). lia.
  - assert (0 < t). { destruct (Z.lt_ge_cases 0 t); [done|]. assert (2 ^ t <= 2 ^ 0) by (apply Z.pow_le_mono_r; lia). lia. }
    destruct (Z.testbit n (t - 1)) eqn:E.
    + assert (Z.log2 n < t) by (apply Z.log2_lt_pow2; lia). destruct (Z.lt_ge_cases (Z.log2 n) (t - 1)); [|lia].
      rewrite Z.bits_above_log2 in E by lia. done.
    + apply IH; [|lia]. split; [lia|]. apply Z.log2_lt_pow2; [lia|]. assert (Z.log2 n < t) by (apply Z.log2_lt_pow2; lia).
      destruct (Z.eq_dec (Z.log2 n) (t - 1)) as [E'|]; [|lia]. pose proof (Z.bit_log2 n). rewrite E' in *. rewrite E in *. lia.
Qed.

(** ** Codes *)

(** The two forms the messages use: three bits of exponent, and twelve or four
    of mantissa. *)
Definition form (m : Z) : Prop := m = 12 \/ m = 4.

Lemma form_facts m : form m -> 4 <= m <= 12 /\ float_tmax 3 m = m + 11 /\ mant_mask 1 m = Z.ones m /\ mant_mask 0 m = Z.ones m /\
  float_max 3 m = 2 ^ (m + 11) - 2 ^ 10 /\ u16 (Z.shiftl 1 (3 + m)) = 2 ^ (m + 3).
Proof. intros [-> | ->]; vm_compute; intuition done. Qed.

(** The bits of a number that its code keeps. *)
Definition kept (n m : Z) : Z := let e := Z.log2 n - m in n / 2 ^ e * 2 ^ e.

Lemma mantissa n m : form m -> 2 ^ (m + 3) <= n < 2 ^ (m + 11) -> let e := Z.log2 n - m in
  3 <= e <= 10 /\ 2 ^ m <= n / 2 ^ e < 2 ^ (m + 1).
Proof.
  intros F Hn e. destruct (form_facts m F) as (Hm & _). assert (0 < 2 ^ (m + 3)) by (apply Z.pow_pos_nonneg; lia).
  assert (m + 3 <= Z.log2 n) by (apply Z.log2_le_pow2; lia). assert (Z.log2 n < m + 11) by (apply Z.log2_lt_pow2; lia).
  pose proof (Z.log2_spec n) as L. assert (He : Z.log2 n = m + e) by lia. rewrite He, <- Z.add_1_r in L.
  assert (0 < 2 ^ e) by (apply Z.pow_pos_nonneg; lia).
  replace (m + e + 1) with ((m + 1) + e) in L by lia. rewrite !Z.pow_add_r in L by lia. rewrite <- !(Z.pow_add_r 2 m) in * by lia.
  split; [lia|]. split; [apply Z.div_le_lower_bound; [done|]|apply Z.div_lt_upper_bound; [done|]]; rewrite ?Z.pow_add_r in * by lia; lia.
Qed.

Lemma coda_code n m : form m -> 2 ^ (m + 3) <= n < 2 ^ (m + 11) -> let e := Z.log2 n - m in
  coda n 3 m = (2 ^ (m + 3) + (e - 3) * 2 ^ m + (n / 2 ^ e - 2 ^ m), kept n m).
Proof.
  intros F Hn e. destruct (form_facts m F) as (Hm & E1 & E2 & _ & _ & E3). destruct (mantissa n m F Hn) as [He Hq]. fold e in He, Hq.
  assert (0 < 2 ^ (m + 3)) by (apply Z.pow_pos_nonneg; lia). assert (P1 : 2 ^ (m + 1) = 2 * 2 ^ m) by (rewrite Z.pow_add_r; lia).
  assert (P3 : 2 ^ (m + 3) = 8 * 2 ^ m) by (rewrite Z.pow_add_r; lia). assert (P4 : 2 ^ m <= 2 ^ 12) by (apply Z.pow_le_mono_r; lia).
  assert (Hp : 2 ^ (m + 11) <= 2 ^ 23) by (apply Z.pow_le_mono_r; lia).
  unfold coda. rewrite E1, E2, E3, decide_True by lia. rewrite (top_bit_log2 _ n (m + 11)) by lia.
  replace (u32 (Z.log2 n + 1 - (m + 1))) with e by (rewrite u32_small; lia). rewrite (u32_small (e - 3)) by lia.
  rewrite Z.shiftr_div_pow2 by lia. set (q := n / 2 ^ e) in *.
  assert (Hmant : Z.land q (Z.ones m) = q - 2 ^ m).
  { rewrite Z.land_ones by lia. symmetry. apply Z.mod_unique with 1; lia. }
  rewrite Hmant. f_equal.
  - rewrite Z.shiftl_mul_pow2 by lia. rewrite <- Z.lor_assoc, (Z.lor_comm (q - 2 ^ m)), lor_low by lia.
    replace (2 ^ (m + 3)) with (1 * 2 ^ (m + 3)) at 1 by lia. rewrite lor_low by (rewrite ?P3; nia). rewrite u16_small by (rewrite P3; nia). lia.
  - rewrite (Z.shiftl_mul_pow2 1), Z.lor_comm, lor_low by lia. rewrite Z.shiftl_mul_pow2 by lia. replace (e - 3 + 3) with e by lia.
    replace (1 * 2 ^ m + (q - 2 ^ m)) with q by lia. change (kept n m) with (q * 2 ^ e). apply u32_small. assert (0 < 2 ^ e) by (apply Z.pow_pos_nonneg; lia).
    pose proof (Z.mul_div_le n (2 ^ e) ltac:(done)) as X. fold q in X. assert (0 < 2 ^ m) by (apply Z.pow_pos_nonneg; lia).
    split; [apply Z.mul_nonneg_nonneg; lia|lia].
Qed.

Lemma decode_code c e m : form m -> 0 <= e <= 7 -> 0 <= c < 2 ^ m -> decodeafloat (2 ^ (m + 3) + e * 2 ^ m + c) 3 m = (2 ^ m + c) * 2 ^ (e + 3).
Proof.
  intros F He Hc. destruct (form_facts m F) as (Hm & _ & _ & E & _).
  assert (P3 : 2 ^ (m + 3) = 8 * 2 ^ m) by (rewrite Z.pow_add_r; lia). assert (P4 : 2 ^ m <= 2 ^ 12) by (apply Z.pow_le_mono_r; lia).
  unfold decodeafloat. rewrite E, Z.land_ones by lia. replace (_ mod 2 ^ m) with c.
  2: { apply Z.mod_unique with (8 + e); [lia|]. rewrite P3. lia. }
  rewrite <- Z.add_assoc, (clearbit_low _ (m + 3)) by (rewrite ?P3; nia). rewrite Z.shiftr_div_pow2 by lia.
  replace ((e * 2 ^ m + c) / 2 ^ m) with e by (apply Z.div_unique with c; lia).
  rewrite (Z.shiftl_mul_pow2 1), Z.lor_comm, lor_low, Z.shiftl_mul_pow2 by lia. rewrite Z.mul_1_l. apply u32_small.
  assert (0 < 2 ^ (e + 3) <= 2 ^ 10) by (split; [apply Z.pow_pos_nonneg; lia|apply Z.pow_le_mono_r; lia]). nia.
Qed.

Example codafloat_125 : codafloat 125 3 4 = (125, 125). Proof. vm_compute. reflexivity. Qed.
Example codafloat_1000 : codafloat 1000 3 4 = (0xaf, 992) /\ decodeafloat 0xaf 3 4 = 992. Proof. vm_compute. done. Qed.

(** The codes of the floating point form, and the number of a code. *)
Definition is_code (m c : Z) : Prop := 2 ^ (m + 3) <= c < 2 ^ (m + 4).

Lemma code_parts m c : form m -> is_code m c -> exists e d, 0 <= e <= 7 /\ 0 <= d < 2 ^ m /\ c = 2 ^ (m + 3) + e * 2 ^ m + d.
Proof.
  intros F C. destruct (form_facts m F) as (Hm & _). unfold is_code in C. assert (0 < 2 ^ m) by (apply Z.pow_pos_nonneg; lia).
  assert (2 ^ (m + 3) = 8 * 2 ^ m) by (rewrite Z.pow_add_r; lia). assert (2 ^ (m + 4) = 16 * 2 ^ m) by (rewrite Z.pow_add_r; lia).
  exists ((c - 2 ^ (m + 3)) / 2 ^ m), ((c - 2 ^ (m + 3)) mod 2 ^ m). split; [|split; [by apply Z.mod_pos_bound|]].
  - split; [apply Z.div_pos; lia|]. apply Z.lt_succ_r, Z.div_lt_upper_bound; lia.
  - pose proof (Z.div_mod (c - 2 ^ (m + 3)) (2 ^ m)). lia.
Qed.

(** No code is for a number between [kept n m] and [n]. *)
Lemma kept_best n m c : form m -> 2 ^ (m + 3) <= n < 2 ^ (m + 11) -> is_code m c -> decodeafloat c 3 m <= n -> decodeafloat c 3 m <= kept n m.
Proof.
  intros F Hn C. destruct (code_parts m c F C) as (e & d & He & Hd & ->). rewrite decode_code by done. destruct (mantissa n m F Hn) as [Hk Hq].
  unfold kept. set (k := Z.log2 n - m) in *. set (q := n / 2 ^ k) in *. intros L. destruct (form_facts m F) as (Hm & _).
  assert (0 < 2 ^ m) by (apply Z.pow_pos_nonneg; lia). assert (0 < 2 ^ k) by (apply Z.pow_pos_nonneg; lia).
  assert (0 < 2 ^ (e + 3)) by (apply Z.pow_pos_nonneg; lia). destruct (Z.le_gt_cases k (e + 3)) as [D|D].
  - assert (E : 2 ^ (e + 3) = 2 ^ (e + 3 - k) * 2 ^ k) by (rewrite <- Z.pow_add_r by lia; f_equal; lia). rewrite E, Z.mul_assoc in *.
    apply Z.mul_le_mono_nonneg_r; [lia|]. apply Z.div_le_lower_bound; lia.
  - assert (2 ^ (e + 4) <= 2 ^ k) by (apply Z.pow_le_mono_r; lia). rewrite (Z.pow_add_r 2 e 4), (Z.pow_add_r 2 e 3) in * by lia. nia.
Qed.

(** The greatest number with a code. *)
Lemma code_max c m : form m -> is_code m c -> decodeafloat c 3 m <= float_max 3 m.
Proof.
  intros F C. destruct (code_parts m c F C) as (e & d & He & Hd & ->). rewrite decode_code by done.
  destruct (form_facts m F) as (Hm & _ & _ & _ & -> & _). assert (E : 2 ^ (m + 11) = 2 ^ (m + 1) * 2 ^ 10) by (rewrite <- Z.pow_add_r by lia; f_equal; lia).
  assert (E' : 2 ^ (m + 1) = 2 * 2 ^ m) by (rewrite Z.pow_add_r; lia).
  assert (0 < 2 ^ (e + 3) <= 2 ^ 10) by (split; [apply Z.pow_pos_nonneg; lia|apply Z.pow_le_mono_r; lia]). nia.
Qed.

(** What [codafloat] keeps of a number. *)
Lemma codafloat_coda n m : form m -> 2 ^ (m + 3) <= n -> exists n', 2 ^ (m + 3) <= n' < 2 ^ (m + 11) /\ codafloat n 3 m = coda n' 3 m /\ kept n' m <= n /\
  (n < 2 ^ (m + 11) -> kept n' m = kept n m) /\ (2 ^ (m + 11) <= n -> kept n' m = float_max 3 m).
Proof.
  intros F Hn. destruct (form_facts m F) as (Hm & _ & _ & _ & E5 & E3). unfold codafloat. rewrite E3, E5.
  assert (P : 2 ^ (m + 11) = 256 * 2 ^ (m + 3)) by (replace (m + 11) with (8 + (m + 3)) by lia; rewrite Z.pow_add_r; lia).
  assert (P' : 2 ^ (m + 11) = 2 * 2 ^ (m + 10)) by (replace (m + 11) with (1 + (m + 10)) by lia; rewrite Z.pow_add_r; lia).
  assert (P2 : 2 ^ (m + 11) = 2 ^ (m + 1) * 2 ^ 10) by (rewrite <- Z.pow_add_r by lia; f_equal; lia).
  assert (Q : 2 ^ 7 <= 2 ^ (m + 3)) by (apply Z.pow_le_mono_r; lia).
  assert (Km : forall x, 2 ^ (m + 11) - 2 ^ 10 <= x < 2 ^ (m + 11) -> kept x m = 2 ^ (m + 11) - 2 ^ 10).
  { intros x Hx. unfold kept. assert (Z.log2 x = m + 10) as ->.
    { apply Z.log2_unique; [lia|]. replace (Z.succ (m + 10)) with (m + 11) by lia. assert (2 ^ 10 <= 2 ^ (m + 10)) by (apply Z.pow_le_mono_r; lia). lia. }
    replace (m + 10 - m) with 10 by lia. replace (x / 2 ^ 10) with (2 ^ (m + 1) - 1); [lia|]. apply Z.div_unique with (x - (2 ^ (m + 1) - 1) * 2 ^ 10); lia. }
  assert (Kl : kept n m <= n).
  { unfold kept. rewrite Z.mul_comm. apply Z.mul_div_le, Z.pow_pos_nonneg; [lia|]. assert (m + 3 <= Z.log2 n) by (apply Z.log2_le_pow2; lia). lia. }
  case_decide as D.
  - exists (2 ^ (m + 11) - 2 ^ 10). rewrite (Km (2 ^ (m + 11) - 2 ^ 10)) by lia. split_and!; [lia|lia|done|lia| |done]. intros L. symmetry. apply Km. lia.
  - exists n. split_and!; [lia|lia|done|done|done|lia].
Qed.

(** C40. The codes of delays and intervals, in both forms the messages use: a
    number below the first code of the floating point form is its own code;
    a greater one gets a code of that form, which decodes to the greatest
    number with a code that is not above it - to the greatest of all when it is
    too great - and off by less than one part in 2^m of it. *)
Theorem codafloat_roundtrip m n : form m -> 0 <= n ->
  let c := (codafloat n 3 m).1 in let r := (codafloat n 3 m).2 in
  (n < 2 ^ (m + 3) -> c = n /\ r = n) /\
  (2 ^ (m + 3) <= n -> is_code m c /\ decodeafloat c 3 m = r /\ r <= n /\
     (forall c', is_code m c' -> decodeafloat c' 3 m <= n -> decodeafloat c' 3 m <= r) /\
     (n < 2 ^ (m + 11) -> (n - r) * 2 ^ m < n)).
Proof.
  intros F H0 c r. subst c r. destruct (form_facts m F) as (Hm & _ & _ & _ & E5 & E3). split.
  - intros L. unfold codafloat. rewrite E3, decide_False by lia. unfold coda. by rewrite E3, decide_False by lia.
  - intros L. destruct (codafloat_coda n m F L) as (n' & Hn' & -> & Kl & K1 & K2). rewrite (coda_code n' m F Hn'). cbn [fst snd].
    destruct (mantissa n' m F Hn') as [He Hq]. set (e := Z.log2 n' - m) in *. set (q := n' / 2 ^ e) in *.
    assert (P4 : 2 ^ (m + 4) = 16 * 2 ^ m) by (rewrite Z.pow_add_r; lia). assert (P3 : 2 ^ (m + 3) = 8 * 2 ^ m) by (rewrite Z.pow_add_r; lia).
    assert (P1 : 2 ^ (m + 1) = 2 * 2 ^ m) by (rewrite Z.pow_add_r; lia). assert (0 < 2 ^ m) by (apply Z.pow_pos_nonneg; lia).
    split_and!.
    + unfold is_code. nia.
    + rewrite decode_code by (done || lia). replace (2 ^ m + (q - 2 ^ m)) with q by lia. by replace (e - 3 + 3) with e by lia.
    + done.
    + intros c' C L'. destruct (Z.lt_ge_cases n (2 ^ (m + 11))) as [D|D]; [rewrite K1 by done; by apply kept_best|]. rewrite K2 by done. by apply code_max.
    + intros D. rewrite K1 by done. destruct (mantissa n m F (conj L D)) as [Hk _]. unfold kept. set (k := Z.log2 n - m) in *.
      assert (0 < 2 ^ k) by (apply Z.pow_pos_nonneg; lia). pose proof (Z.div_mod n (2 ^ k)). pose proof (Z.mod_pos_bound n (2 ^ k)).
      pose proof (Z.log2_spec n). assert (Z.log2 n = k + m) as Ek by lia. rewrite Ek, Z.pow_add_r in * by lia. nia.
Qed.

Lemma codafloat_roundtrip_witness :
  ((codafloat 1000 3 4).1 = 0xaf /\ decodeafloat 0xaf 3 4 = 992) /\ (2 ^ (4 + 3) <= 1000 -> is_code 4 (codafloat 1000 3 4).1 /\
     decodeafloat (codafloat 1000 3 4).1 3 4 = (codafloat 1000 3 4).2 /\ (codafloat 1000 3 4).2 <= 1000 /\
     (forall c', is_code 4 c' -> decodeafloat c' 3 4 <= 1000 -> decodeafloat c' 3 4 <= (codafloat 1000 3 4).2) /\
     (1000 < 2 ^ (4 + 11) -> (1000 - (codafloat 1000 3 4).2) * 2 ^ 4 < 1000)).
Proof. split; [vm_compute; done|]. apply (codafloat_roundtrip 4 1000); [by right|done]. Defined.
