(* ===== verification/MldFire.v ===== *)
(** * MldFire: the timers of the listeners go off

    The end of a group takes it out of its list and frees it, a query for a
    group is sent again; the timers that are due are run in their order. *)

From stdpp Require Import base list numbers gmap sorting.
From S2P Require Import Prelude Callout Inet6 Pim RpMatch Vif Mrt PimMsg PimSend Oifs Rp PimJp PimBsr PimReg PimJoin PimRoute PimTimer Mld MldProto MldMem MldSpec MldInv MldOk.
Open Scope Z_scope.
#[local] Coercion Z.of_nat : nat >-> Z.

(** ** A group leaves its list *)

(** The memory without the node [k]: the pointer to it is moved on. *)
Record unlinked (m m' : Mld) (n k : nat) (mv : mld_vif) (ks1 ks2 : list nat) : Prop := {
  ul_node k0 l0' : las m' !! k0 = Some l0' -> k0 <> k /\ exists l0, las m !! k0 = Some l0 /\ l0' = set_al_next (al_next l0') l0;
  ul_alive k0 : k0 <> k -> is_Some (las m !! k0) -> is_Some (las m' !! k0);
  ul_other k0 : k0 ∉ ks1 ++ k :: ks2 -> las m' !! k0 = las m !! k0;
  ul_vif : exists p, chain (las m') p (ks1 ++ ks2) /\
    m' = set_mvifs (<[n := set_uv_groups p mv]> (mvifs m)) (set_las (las m') m)
}.

Lemma node_without gss n ks1 k ks2 n' k' : gss !! n = Some (ks1 ++ k :: ks2) -> NoDup (concat gss) ->
  node (<[n := ks1 ++ ks2]> gss) n' k' <-> node gss n' k' /\ k' <> k.
Proof.
  intros E N. assert (Hn : node gss n k) by (exists (ks1 ++ k :: ks2); split; [done|apply elem_of_app; right; left]).
  assert (Nd : NoDup (ks1 ++ k :: ks2)).
  { apply take_drop_middle in E. revert N. rewrite <- E, concat_app. cbn. rewrite !NoDup_app. tauto. }
  assert (Nk : k ∉ ks1 ++ ks2) by (rewrite <- Permutation_middle in Nd; by apply NoDup_cons in Nd as [? _]).
  split.
  - intros (ks & E' & Hk). apply list_lookup_insert_Some in E' as [(<- & <- & _)|[D E']].
    + split; [|congruence]. exists (ks1 ++ k :: ks2). split; [done|]. rewrite elem_of_app, elem_of_cons in *. tauto.
    + split; [by exists ks|]. intros ->. apply D. eapply node_unique; [done|done|by exists ks].
  - intros [(ks & E' & Hk) D]. destruct (decide (n' = n)) as [->|Dn].
    + exists (ks1 ++ ks2). rewrite list_lookup_insert_eq by by eapply lookup_lt_Some. split; [done|].
      assert (ks = ks1 ++ k :: ks2) as -> by congruence. rewrite elem_of_app, elem_of_cons in *. tauto.
    + exists ks. by rewrite list_lookup_insert_ne.
Qed.

Lemma Groups_unlink m m' gss n k mv ks1 ks2 : Groups m gss -> gss !! n = Some (ks1 ++ k :: ks2) -> unlinked m m' n k mv ks1 ks2 ->
  mvifs m !! n = Some mv -> Groups m' (<[n := ks1 ++ ks2]> gss).
Proof.
  intros G E [U1 U2 U3 (p & C & Em)] Ev. pose proof (gr_nodup _ _ G) as N. pose proof (lookup_lt_Some _ _ _ Ev) as Hv.
  assert (Sub : forall n' k', node (<[n := ks1 ++ ks2]> gss) n' k' -> node gss n' k') by (intros n' k'; rewrite (node_without _ _ _ k) by done; tauto).
  split.
  - rewrite Em. cbn. apply Forall2_same_length_lookup_2; [rewrite !length_insert; by eapply Forall2_length, G|]. intros j v ks E1 E2.
    apply list_lookup_insert_Some in E1 as [(-> & <- & _)|[D E1]].
    + rewrite list_lookup_insert_eq in E2 by by eapply lookup_lt_Some. by injection E2 as <-.
    + rewrite list_lookup_insert_ne in E2 by done. pose proof (Forall2_lookup_lr _ _ _ _ _ _ (gr_chain _ _ G) E1 E2) as Cj. cbn in Cj.
      eapply chain_same; [|exact Cj]. intros k0 l0 Hk El0. exists l0. split; [|done]. rewrite U3; [done|]. intros Hin. apply D.
      eapply (node_unique gss n j k0); [done|by eexists|by eexists].
  - apply take_drop_middle in E as E'. assert (P : concat gss ≡ₚ k :: concat (<[n := ks1 ++ ks2]> gss)).
    { rewrite insert_take_drop by by eapply lookup_lt_Some. rewrite <- E' at 1. rewrite !concat_app. cbn. rewrite <- !app_assoc. cbn.
      rewrite <- (Permutation_middle ks1). symmetry. apply Permutation_middle. }
    rewrite P in N. by apply NoDup_cons in N as [_ N].
  - intros n' k1 k2 l1 l2 N1 N2 E1 E2 Ea. destruct (U1 _ _ E1) as (_ & l1' & L1 & F1), (U1 _ _ E2) as (_ & l2' & L2 & F2).
    eapply (gr_addr _ _ G n'); eauto. by rewrite F1, F2 in Ea.
  - intros k0 [l0 E0]. destruct (U1 _ _ E0) as (_ & l0' & L0 & _). rewrite Em. apply (gr_brk _ _ G). by eexists.
Qed.

Section Fire.
Context {S : Type} `{TL : TimerLaws mld_timer S} `{LO : LeavesOk}.
Implicit Types (s : S) (m : Mld) (a : Agenda mld_timer) (sp : Soft) (n k : nat).

(** The loop of [DelVif] does it. *)
Lemma unlink_ok s m gss n k l mv ks1 ks2 : Groups m gss -> gss !! n = Some (ks1 ++ k :: ks2) -> mvifs m !! n = Some mv ->
  las m !! k = Some l ->
  runs (remove_group (la_fuel m) n (Some k) None (uv_groups mv)) (s, m) (fun _ st => st.1 = s /\ unlinked m st.2 n k mv ks1 ks2).
Proof.
  intros G E Em El. destruct (node_length m gss n _ mv G E Em) as (C & N & L).
  pose proof (chain_unlink (las m) (uv_groups mv) ks1 k ks2 l N C El) as U. pose proof (chain_app _ _ _ _ _ C) as (l' & El' & Cr).
  assert (l' = l) as -> by congruence. assert (N' := N). rewrite <- Permutation_middle in N'. apply NoDup_cons in N' as [Nk _].
  assert (Nr : k ∉ ks2) by (rewrite elem_of_app in Nk; tauto).
  eapply remove_group_Ok; [done|done|done|done|]. unfold before. destruct (last ks1) as [p|] eqn:La; cbn [set_anp].
  - destruct U as (lp & Ep & U). apply last_Some_elem_of in La as Hp.
    assert (Dp : p <> k) by (intros ->; apply Nk, elem_of_app; by left).
    assert (Np : p ∉ ks2) by (intros Hi; apply NoDup_app in N as (_ & D & _); apply (D p Hp); by right).
    eapply runs_Ok; [by apply upd_la_Ok|]. eapply runs_eq.
    { apply free_la_Ok. cbn. rewrite lookup_insert_ne by done. by eexists. }
    cbn. split; [split; [done|]|split; [done|]].
    2: { apply chain_free; [done|]. by apply chain_link. }
    split; cbn.
    + intros k0 l0' E0. apply lookup_delete_Some in E0 as [D E0]. split; [done|].
      apply lookup_insert_Some in E0 as [[<- <-]|[_ E0]]; [by exists lp|]. exists l0'. split; [done|]. by destruct l0'.
    + intros k0 D [l0 E0]. rewrite lookup_delete_ne by done. destruct (decide (k0 = p)) as [->|]; [rewrite lookup_insert_eq; by eexists|].
      rewrite lookup_insert_ne by done. by eexists.
    + intros k0 D. rewrite elem_of_app, elem_of_cons in D. rewrite lookup_delete_ne, lookup_insert_ne; [done|naive_solver..].
    + exists (uv_groups mv). split; [done|]. replace (set_uv_groups (uv_groups mv) mv) with mv by by destruct mv.
      rewrite list_insert_id by done. by destruct m.
  - apply last_None in La as ->. eapply runs_Ok; [by apply (upd_mvif_Ok n mv)|]. eapply runs_eq; [apply free_la_Ok; by eexists|].
    cbn. split; [split; [done|]|split; [done|]]. 2: by apply chain_free.
    split; cbn.
    + intros k0 l0' E0. apply lookup_delete_Some in E0 as [D E0]. split; [done|]. exists l0'. split; [done|]. by destruct l0'.
    + intros k0 D H. by rewrite lookup_delete_ne.
    + intros k0 D. rewrite elem_of_cons in D. rewrite lookup_delete_ne; [done|naive_solver].
    + exists (al_next l). split; [done|]. by destruct m.
Qed.

(** ** The end of a group *)

(** No query for the group is left when its end has come. *)
Lemma end_no_query s m a t tf b af sp gss n c k cb l : Inv None s m a (t :: tf) (b :: af) sp gss -> expires b = true ->
  rings None m gss (a_freed a) t b n c k cb l -> al_query l <= 0.
Proof.
  intros I Ex R. destruct (Z.le_gt_cases (al_query l) 0) as [|Q]; [done|exfalso].
  destruct (i_listed _ _ _ _ _ _ _ _ I n k l) as [_ [?|[?|(y & Hy & F1 & F2 & F3)]]]; [by destruct R..|done|lia|lia|].
  pose proof (i_order _ _ _ _ _ _ _ _ I) as O. pose proof (i_keys _ _ _ _ _ _ _ _ I) as N. cbn [app] in *. rewrite fmap_cons in N.
  apply NoDup_cons in N as [N _]. apply elem_of_cons in Hy as [->|Hy]; [unfold expires in Ex; by rewrite F3 in Ex|].
  destruct O as [_ O]. apply N. clear N I. revert O Hy. generalize (af ++ alarms sp) as al. intros al O Hy.
  enough (exists x, x ∈ al /\ a_vif x = a_vif y /\ a_grp x = a_grp y /\ a_kind x = Expire false) as (x & Hx & G1 & G2 & G3).
  { apply list_elem_of_fmap. exists x. split; [|done]. unfold key. rewrite Ex. unfold expires. rewrite G3. destruct R. congruence. }
  induction al as [|z al IH]; [by apply not_elem_of_nil in Hy|]. destruct O as [O O']. apply elem_of_cons in Hy as [->|Hy].
  - destruct (O F3) as [?|(x & Hx & P)]; [done|]. exists x. split; [by right|done].
  - destruct (IH O' Hy) as (x & Hx & P). exists x. split; [by right|done].
Qed.

(** Another alarm is for another group then. *)
Lemma end_others s m a t tf b af sp gss n c k cb l t' x n' c' k' cb' l' : Inv None s m a (t :: tf) (b :: af) sp gss -> expires b = true ->
  rings None m gss (a_freed a) t b n c k cb l -> rings None m gss (a_freed a) t' x n' c' k' cb' l' -> t' ∈ tf ++ timers a -> x ∈ af ++ alarms sp ->
  k' <> k /\ c' <> c.
Proof.
  intros I Ex R R' Ht Hx. split.
  - intros ->. pose proof (i_groups _ _ _ _ _ _ _ _ I) as G.
    assert (n' = n) as -> by (destruct R, R'; eapply node_unique; [apply G|done|done]). assert (l' = l) as -> by (destruct R, R'; congruence).
    pose proof (end_no_query _ _ _ _ _ _ _ _ _ _ _ _ _ _ I Ex R) as Q.
    pose proof (i_keys _ _ _ _ _ _ _ _ I) as N. cbn [app] in N. rewrite fmap_cons in N. apply NoDup_cons in N as [N _]. apply N.
    apply list_elem_of_fmap. exists x. split; [|done]. assert (Exx : expires x = true).
    { unfold expires. destruct (a_kind x) eqn:K; [done|]. exfalso. destruct R' as [? ? ? ? ? ? ? ? ? ? K']. unfold ring_kind in K'. rewrite K in K'.
      destruct K' as (_ & K' & _). pose proof (i_ids _ _ _ _ _ _ _ _ I) as [_ F]. rewrite Forall_forall in F. specialize (F t').
      cbn [app] in F. rewrite elem_of_cons in F. specialize (F (or_intror Ht)). lia. }
    unfold key. rewrite Ex, Exx. destruct R, R'. congruence.
  - intros ->. pose proof (i_datas _ _ _ _ _ _ _ _ I) as N. cbn [app] in N. rewrite fmap_cons in N. apply NoDup_cons in N as [N _]. apply N.
    apply list_elem_of_fmap. exists t'. split; [|done]. destruct R, R'. congruence.
Qed.

(** The alarm is over: the memory of its timer is freed, and its group too if it
    was the end of it. *)
Lemma Inv_ended s m m' a t tf b af sp gss n c k cb l mv ks1 ks2 : Inv None s m a (t :: tf) (b :: af) sp gss -> expires b = true ->
  rings None m gss (a_freed a) t b n c k cb l -> gss !! n = Some (ks1 ++ k :: ks2) -> mvifs m !! n = Some mv -> unlinked m m' n k mv ks1 ks2 ->
  Inv None s (set_cbks (delete c (cbks m')) m') a tf af sp (<[n := ks1 ++ ks2]> gss).
Proof.
  intros I Ex R Ek Em U. pose proof (fun t' x n' c' k' cb' l' => end_others s m a t tf b af sp gss n c k cb l t' x n' c' k' cb' l' I Ex R) as Oth.
  pose proof (Groups_unlink m m' gss n k mv ks1 ks2 (i_groups _ _ _ _ _ _ _ _ I) Ek U Em) as G'.
  pose proof (node_without gss n ks1 k ks2) as Nd. destruct U as [U1 U2 _ (p & _ & Em')].
  assert (Ec : cbks m' = cbks m /\ mvifs m' = <[n := set_uv_groups p mv]> (mvifs m) /\ mld_brk m' = mld_brk m) by by rewrite Em'.
  destruct Ec as (Ec & Evs & Eb). destruct I. pose proof (lookup_lt_Some _ _ _ Em) as Hn. specialize (fun n' k' => Nd n' k' Ek (gr_nodup _ _ i_groups)).
  assert (Same : pim m' = pim m /\ mld_sent m' = mld_sent m /\ mld6_send_buf m' = mld6_send_buf m /\ mld_mallocs m' = mld_mallocs m) by by rewrite Em'.
  destruct Same as (S1 & S2 & S3 & S4). cbn [app] in *.
  split; try done; cbn [pim mld_sent mld6_send_buf mld_mallocs mvifs cbks mld_brk las set_cbks].
  - by rewrite S1.
  - by rewrite S2.
  - rewrite Evs, list_fmap_insert, <- i_config. apply list_insert_id. by rewrite list_lookup_fmap, Em.
  - rewrite Evs. destruct (Forall2_lookup_r _ _ _ _ _ i_vifs Em) as (v & Ev & F). rewrite <- (list_insert_id _ _ _ Ev).
    apply Forall2_insert; [done|]. by destruct F.
  - by rewrite S3.
  - by rewrite S4.
  - by rewrite Eb.
  - by destruct G'.
  - by rewrite Eb.
  - apply Forall2_cons in i_ring as [_ Rs]. eapply Forall2_impl_in; [exact Rs|]. intros t' x Ht Hx (n' & c' & k' & cb' & l' & R').
    destruct (Oth _ _ _ _ _ _ _ R' Ht Hx) as [Dk Dc].
    destruct (U2 k' Dk) as [l0' E0]; [destruct R'; by eexists|]. destruct (U1 _ _ E0) as (_ & l0 & E1 & E2). assert (l0 = l') as -> by (destruct R'; congruence).
    exists n', c', k', cb', l0'. eapply rings_move; [exact R'|cbn; lia|by destruct R'| | |done|by rewrite E2|].
    + cbn. rewrite Ec, lookup_delete_ne by done. by destruct R'.
    + apply Nd. split; [by destruct R'|done].
    + unfold ring_kind. cbn [mvifs set_cbks]. destruct (a_kind x); [by rewrite E2|]. intros (K1 & K2 & w & E3 & K3). rewrite E2. split; [done|]. split; [done|].
      rewrite Evs. destruct (decide (n' = n)) as [->|]; [|exists w; by rewrite list_lookup_insert_ne].
      rewrite list_lookup_insert_eq by done. eexists. split; [done|]. cbn. congruence.
  - destruct i_ids as [N F]. rewrite fmap_cons in N. apply NoDup_cons in N as [_ N]. by apply Forall_cons in F as [_ F].
  - rewrite fmap_cons in i_datas. by apply NoDup_cons in i_datas as [_ ?].
  - rewrite fmap_cons in i_keys. by apply NoDup_cons in i_keys as [_ ?].
  - by destruct i_order.
  - by apply Forall_cons in i_addr as [_ ?].
  - intros n1 k1 l1' N1 E1 _. apply Nd in N1 as [N1 D1]. destruct (U1 _ _ E1) as (_ & l1 & L1 & F1).
    assert (Ha : al_addr l1' = al_addr l1 /\ al_query l1' = al_query l1) by by rewrite F1. unfold listed. destruct Ha as [-> ->].
    eapply (listed_drop n1 l1 [] b); [|by eapply i_listed]. intros E. injection E as F2 F3. destruct R.
    assert (n1 = n) as -> by lia. apply D1. eapply (gr_addr _ _ i_groups n); try done. congruence.
Qed.

Lemma end_fires s m a t tf b af sp gss : Inv None s m a (t :: tf) (b :: af) sp gss -> expires b = true ->
  runs (DelVif (data t)) (s, m) (fun _ st => exists gss', Inv None st.1 st.2 a tf af (without_leaf (a_vif b) (a_grp b) sp) gss').
Proof.
  intros I Ex. pose proof (i_ring _ _ _ _ _ _ _ _ I) as Rs. cbn [app] in Rs. apply Forall2_cons in Rs as [(n & c & k & cb & l & R) _].
  pose proof (end_no_query _ _ _ _ _ _ _ _ _ _ _ _ _ _ I Ex R) as Q. pose proof (i_view _ _ _ _ _ _ _ _ I) as V.
  assert (Live : forall s', t_view s' a -> Z.of_nat c ∉ t_freed s') by (intros s' V'; rewrite (view_freed _ _ V'); by destruct R).
  assert (R0 := R). destruct R0. rewrite rg_data, rg_vif. unfold DelVif. eapply runs_Ok; [by apply (cbk_Ok c cb); [apply Live|]|].
  rewrite rg_g, rg_mifi. eapply runs_Ok; [by apply la_Ok|].
  assert (Clear : runs (if al_query l =? 0 then ret tt else let! _ := DeleteTimer (al_query l) in ret tt) (s, m)
    (fun _ st => st.2 = m /\ Inv None st.1 m a (t :: tf) (b :: af) sp gss)).
  { destruct (al_query l =? 0); [by apply runs_ret|]. destruct (clear_none _ _ _ _ _ _ _ _ (al_query l) I Q) as (s' & E1 & I').
    eapply runs_eq; [unfold DeleteTimer; rewrite bind_assoc, (bind_Ok _ _ _ _ _ E1); reflexivity|]. done. }
  eapply runs_bind, runs_mono; [exact Clear|]. cbn. intros _ [s1 m1] [E1 I1]. cbn in E1, I1. subst m1.
  rewrite rg_addr. destruct (node_vif _ _ _ _ (i_groups _ _ _ _ _ _ _ _ I) rg_node) as [mv Em].
  destruct (Forall2_lookup_r _ _ _ _ _ (i_vifs _ _ _ _ _ _ _ _ I) Em) as (v & Ev & _). eapply runs_bind, runs_mono; [by eapply deleted_ok|]. cbn. intros _ st (p & -> & I2).
  eapply runs_Ok; [apply mld_Ok|]. eapply runs_Ok; [by apply mvif_Ok|].
  destruct rg_node as (ks & Ek & Hk). apply list_elem_of_split in Hk as (ks1 & ks2 & ->).
  eapply runs_bind, runs_mono; [by eapply (unlink_ok s1 _ gss n k l); [apply I2|..]|]. cbn. intros _ [s2 m2] [E2 U]. cbn in E2, U. subst s2.
  assert (R2 : rings None (set_pim p m) gss (a_freed a) t b n c k cb l) by (split; try done; by eexists; split; [exact Ek|apply elem_of_app; right; left]).
  pose proof (Inv_ended _ _ m2 _ _ _ _ _ _ _ _ _ _ _ _ _ _ _ I2 Ex R2 Ek Em U) as I3.
  eapply runs_eq; [apply (free_cbk_Ok c cb)|].
  - apply Live, I2.
  - destruct U as [_ _ _ (q & _ & ->)]. done.
  - by eexists.
Qed.

(** ** The query for a group *)

Lemma Inv_asked s m a t tf b af sp gss n c k cb l : Inv None s m a (t :: tf) (b :: af) sp gss -> a_kind b = Ask ->
  rings None m gss (a_freed a) t b n c k cb l ->
  Inv None s (set_cbks (delete c (cbks m)) (set_las (<[k := set_al_query 0 l]> (las m)) m)) a tf af sp gss.
Proof.
  intros I Kb R. assert (Oth : forall t' x, t' ∈ tf ++ timers a -> x ∈ af ++ alarms sp -> data t' <> data t /\
    ((a_vif x, a_grp x) = (a_vif b, a_grp b) -> expires x = true)).
  { intros t' x Ht Hx. split.
    - intros E. pose proof (i_datas _ _ _ _ _ _ _ _ I) as N. cbn [app] in N. rewrite fmap_cons in N. apply NoDup_cons in N as [N _]. apply N.
      rewrite <- E. by apply list_elem_of_fmap_2.
    - intros [= E1 E2]. destruct (expires x) eqn:Ex; [done|]. exfalso. pose proof (i_keys _ _ _ _ _ _ _ _ I) as N. cbn [app] in N.
      rewrite fmap_cons in N. apply NoDup_cons in N as [N _]. apply N. apply list_elem_of_fmap. exists x. split; [|done].
      unfold key. rewrite Ex, E1, E2. unfold expires. by rewrite Kb. }
  assert (Qid : al_query l = id t /\ 0 < id t).
  { destruct R. unfold ring_kind in rg_kind. rewrite Kb in rg_kind. split; [tauto|]. pose proof (i_ids _ _ _ _ _ _ _ _ I) as [_ F]. by apply Forall_cons in F as [[? _] _]. }
  destruct I. cbn [app] in *. split; try done; cbn.
  - eapply (Groups_move m _ gss k l (set_al_query 0 l)); try done. by destruct R.
  - apply Forall2_cons in i_ring as [_ Rs]. eapply Forall2_impl_in; [exact Rs|]. intros t' x Ht Hx (n' & c' & k' & cb' & l' & R').
    destruct (Oth t' x Ht Hx) as [Dd Ox]. assert (Dc : c' <> c) by (destruct R, R'; congruence).
    assert (Cb : delete c (cbks m) !! c' = Some cb') by (rewrite lookup_delete_ne by done; by destruct R').
    destruct (decide (k' = k)) as [->|Dk].
    + assert (l' = l) as -> by (destruct R, R'; congruence). exists n', c', k, cb', (set_al_query 0 l).
      eapply rings_move; [exact R'|cbn; lia|by destruct R'|exact Cb|by destruct R'|cbn; by rewrite lookup_insert_eq|done|].
      assert (En : n' = n) by (destruct R, R'; eapply node_unique; [apply i_groups|done|done]).
      assert (Ex : expires x = true) by (apply Ox; destruct R, R'; congruence).
      unfold ring_kind, expires in *. destruct (a_kind x) as [hd|]; [|done]. intros (K1 & K2 & [?|K3]); [done|]. split; [done|]. split; [done|].
      right. cbn. destruct hd; [|done]. destruct K3 as [K3 _]. specialize (K3 eq_refl). lia.
    + exists n', c', k', cb', l'. eapply rings_move; [exact R'|cbn; lia|by destruct R'|exact Cb|by destruct R'| |done|done].
      cbn. rewrite lookup_insert_ne by done. by destruct R'.
  - destruct i_ids as [N F]. rewrite fmap_cons in N. apply NoDup_cons in N as [_ N]. by apply Forall_cons in F as [_ F].
  - rewrite fmap_cons in i_datas. by apply NoDup_cons in i_datas as [_ ?].
  - rewrite fmap_cons in i_keys. by apply NoDup_cons in i_keys as [_ ?].
  - by destruct i_order.
  - by apply Forall_cons in i_addr as [_ ?].
  - intros n1 k1 l1 N1 E1 _. destruct (decide (k1 = k)) as [->|Dk].
    + rewrite lookup_insert_eq in E1. injection E1 as <-. split; [|by left].
      destruct (i_listed n1 k l N1) as [(x & Hx & P1 & P2 & P3) _]; [by destruct R|done|]. exists x. split; [|done].
      apply elem_of_cons in Hx as [->|Hx]; [|done]. unfold expires in P3. by rewrite Kb in P3.
    + rewrite lookup_insert_ne in E1 by done. eapply (listed_drop n1 l1 [] b); [|by eapply i_listed]. intros E. injection E as F2 F3. destruct R.
      assert (n1 = n) as -> by lia. apply Dk. eapply (gr_addr _ _ i_groups n); try done. congruence.
Qed.

Lemma query_fires s m a t tf b af sp gss : Inv None s m a (t :: tf) (b :: af) sp gss -> a_kind b = Ask ->
  runs (SendQuery (data t)) (s, m) (fun _ st => Inv None st.1 st.2 a tf af (fire b sp) gss).
Proof.
  intros I Kb. pose proof (i_ring _ _ _ _ _ _ _ _ I) as Rs. cbn [app] in Rs. apply Forall2_cons in Rs as [(n & c & k & cb & l & R) _].
  assert (Live : Z.of_nat c ∉ t_freed s) by (rewrite (view_freed _ _ (i_view _ _ _ _ _ _ _ _ I)); by destruct R).
  assert (R0 := R). destruct R0. unfold ring_kind in rg_kind. rewrite Kb in rg_kind. destruct rg_kind as (Kf & Kq & mv & Em & Eq).
  destruct (Forall2_lookup_r _ _ _ _ _ (i_vifs _ _ _ _ _ _ _ _ I) Em) as (v & Ev & _).
  destruct (vif_of _ _ _ _ _ _ _ _ _ _ I Ev) as (mv' & Em' & F & Ec & Er). assert (mv' = mv) as -> by congruence.
  assert (H16 : length (sin6_addr (a_grp b)) = 16%nat) by (pose proof (i_addr _ _ _ _ _ _ _ _ I) as A; cbn [app] in A; by apply Forall_cons in A as [? _]).
  unfold fire. rewrite Kb, rg_vif, rg_data, rd_of_nat, Ev, Ec. unfold SendQuery. eapply runs_Ok; [by apply (cbk_Ok c cb)|].
  rewrite rg_mifi, rg_g, Eq. eapply runs_Ok; [exact Er|].
  assert (Ask : runs (if asks v then let! src := routing (linklocal v) in let! l := la (Some k) in
      send_mld6 MLD_LISTENER_QUERY 0 src (sin6_addr (al_addr l)) (uv_ifindex v) (uv_mld_llqi mv) else ret tt) (s, m)
    (fun _ st => st.1 = s /\ las st.2 = las m /\ cbks st.2 = cbks m /\
       Inv None s st.2 a (t :: tf) (b :: af) (querier_asks v (set_uv_groups None mv) (a_grp b) sp) gss /\ rings None st.2 gss (a_freed a) t b n c k cb l)).
  { unfold querier_asks. destruct (asks v); [|by apply runs_ret]. destruct (vf_linklocal _ _ F) as [p Ep].
    eapply runs_Ok; [apply routing_same; unfold linklocal; by rewrite Ep|]. eapply runs_Ok; [by apply la_Ok|]. rewrite rg_addr.
    eapply runs_mono; [by eapply send_mld6_ok|]. cbn. intros _ st (buf & pk & -> & Epk & I'). cbn in I'.
    assert (pk = query_for v (set_uv_groups None mv) (a_grp b)) as <- by (unfold query_for; by rewrite Ep).
    split_and!; try done. split; try done. unfold ring_kind. rewrite Kb. split; [done|]. split; [done|]. by exists mv. }
  eapply runs_bind, runs_mono; [exact Ask|]. intros _ [s1 m1] (Es & E1 & E2 & I1 & R1). cbn in Es, E1, E2, I1, R1. subst s1.
  eapply runs_Ok; [apply upd_la_Ok; by rewrite E1|]. eapply runs_eq; [apply (free_cbk_Ok c cb); [done|cbn; by rewrite E2]|].
  exact (Inv_asked s m1 a t tf b af _ gss n c k cb l I1 Kb R1).
Qed.

(** ** All that are due *)

Lemma ring_func h m gss fr t b : ring h m gss fr t b -> func t = Some (if expires b then DelVif_ else SendQuery_).
Proof.
  intros (n & c & k & cb & l & R). destruct R. unfold ring_kind, expires in *. destruct (a_kind b); tauto.
Qed.

Lemma due_fire junk fired s m a tf af sp gss : Forall2 same_timer fired tf -> Inv None s m a tf af sp gss ->
  runs (run_expired (invoke_mld junk) fired) (s, m) (fun _ st => exists gss', Inv None st.1 st.2 a [] [] (foldl (fun sp b => fire b sp) sp af) gss').
Proof.
  intros Sm. revert s m af sp gss. induction Sm as [|u t fired tf (Eid & Ef & Ed) Sm IH]; intros s m af sp gss I.
  - pose proof (Forall2_length _ _ _ (i_ring _ _ _ _ _ _ _ _ I)) as L1. pose proof (i_due _ _ _ _ _ _ _ _ I) as L2.
    apply (f_equal length) in L2. rewrite !length_fmap in L2. rewrite !length_app in L1.
    destruct af; [|cbn in L1; lia]. apply runs_ret. by exists gss.
  - pose proof (i_ring _ _ _ _ _ _ _ _ I) as Rs. destruct af as [|b af].
    { pose proof (Forall2_length _ _ _ Rs) as L1. pose proof (f_equal length (i_due _ _ _ _ _ _ _ _ I)) as L2.
      rewrite !length_fmap in L2. rewrite !length_app in L1. cbn in L1. lia. }
    cbn [app] in Rs. apply Forall2_cons in Rs as [Rt _]. cbn [run_expired foldl]. rewrite Ef, Ed, (ring_func _ _ _ _ _ _ Rt).
    destruct (expires b) eqn:Ex; cbn [invoke_mld].
    + eapply runs_bind, runs_mono; [by eapply end_fires|]. cbn. intros _ [s1 m1] (gss' & I1). unfold fire at 2. unfold expires in Ex.
      destruct (a_kind b); [|done]. by eapply IH.
    + eapply runs_bind, runs_mono; [eapply query_fires; [exact I|]|]. { unfold expires in Ex. by destruct (a_kind b). }
      cbn. intros _ [s1 m1] I1. by eapply IH.
Qed.

(** The timers and alarms that are due come first. *)
Lemma split_due (T : list (timeout_q mld_timer)) A d : (time <$> T) = (due <$> A) -> StronglySorted earlier A ->
  T = List.filter (fun t => time t <=? d) T ++ List.filter (fun t => d <? time t) T /\
  A = List.filter (fun x => due x <=? d) A ++ List.filter (fun x => d <? due x) A /\
  (time <$> List.filter (fun t => d <? time t) T) = (due <$> List.filter (fun x => d <? due x) A).
Proof.
  revert T. induction A as [|x A IH]; intros [|t T] E So; try done. cbn in E. injection E as E1 E2. inversion_clear So as [|? ? So' F].
  destruct (IH T E2 So') as (P1 & P2 & P3). cbn [List.filter]. rewrite E1. destruct (Z.leb_spec (due x) d).
  - rewrite (proj2 (Z.ltb_ge _ _)) by done. cbn. split_and!; [by f_equal|by f_equal|done].
  - rewrite (proj2 (Z.ltb_lt _ _)) by done.
    assert (N : List.filter (fun x => due x <=? d) A = []).
    { clear -F H. induction F as [|y A Fy F IH]; [done|]. cbn. rewrite (proj2 (Z.leb_gt _ _)) by (unfold earlier in Fy; lia). done. }
    assert (N' : List.filter (fun t => time t <=? d) T = []).
    { apply (f_equal length) in P1, P2, P3. rewrite length_app in P1, P2. rewrite !length_fmap in P3. rewrite N in P2. cbn in P2.
      apply (f_equal length) in E2. rewrite !length_fmap in E2. apply nil_length_inv. lia. }
    rewrite N in P2. rewrite N' in P1. rewrite N, N'. cbn in *. rewrite <- P1, <- P2. split_and!; [done|done|]. by rewrite E1, E2.
Qed.

Lemma elapse_step junk s m a sp gss e : Inv None s m a [] [] sp gss -> 0 <= e < 2 ^ 31 ->
  runs (age_mld junk e) (s, m) (fun _ st => exists a' gss', Inv None st.1 st.2 a' [] [] (elapse e sp) gss' /\ a_last a' = a_last a).
Proof.
  intros I He. unfold age_mld. destruct (view_age s a m (invoke_mld junk) e (i_view _ _ _ _ _ _ _ _ I) He) as (s' & fired & E & V & Sm).
  unfold runs. rewrite E. set (d := clock sp + e).
  destruct (split_due (timers a) (alarms sp) d (i_due _ _ _ _ _ _ _ _ I) (i_sorted _ _ _ _ _ _ _ _ I)) as (P1 & P2 & P3).
  pose proof (i_clock _ _ _ _ _ _ _ _ I) as Cl.
  assert (I' : Inv None s' m (aged e a) (expired e a) (List.filter (fun x => due x <=? d) (alarms sp))
    (mkSoft d (List.filter (fun x => d <? due x) (alarms sp)) (table sp) (asked sp) (config sp)) gss).
  { destruct I. unfold expired, aged in *. rewrite Cl in *. fold d in V, Sm |- *. cbn [app] in *. rewrite P1 in i_ring, i_ids, i_datas. rewrite P2 in i_ring, i_keys, i_order, i_addr, i_listed.
    split; try done. cbn. rewrite P2 in i_sorted. clear -i_sorted. revert i_sorted.
    generalize (List.filter (fun x => due x <=? d) (alarms sp)) as l. intros l. induction l as [|y l IH]; [done|].
    intros So. inversion_clear So. auto. }
  destruct (due_fire junk fired s' m _ _ _ _ gss Sm I') as (r & st & E' & gss' & I2). exists r, st. split; [done|]. exists (aged e a), gss'. split; [|done].
  exact I2.
Qed.
End Fire.
