(* ===== verification/MldRun.v ===== *)
(** * MldRun: the daemon and its listeners

    Queries of other routers, the functions of the timers, and runs of any
    length: the lists and timers of the daemon implement the soft state of
    MldSpec. *)

From stdpp Require Import base list numbers gmap sorting.
From S2P Require Import Prelude Callout Inet6 Pim RpMatch Vif Mrt PimMsg PimSend Oifs Rp PimJp PimBsr PimReg PimJoin PimRoute PimTimer Mld MldProto MldMem MldSpec MldInv MldOk MldFire.
Open Scope Z_scope.
#[local] Coercion Z.of_nat : nat >-> Z.

(** ** The interface of a message *)

Lemma search_vifs_lookup f (b : Z) vs : (forall i v p j, f i v p = Some j -> j = i \/ j = NO_VIF) ->
  search_vifs f b vs = NO_VIF \/ exists (n : nat) v, search_vifs f b vs = b + n /\ vs !! n = Some v.
Proof.
  intros Hf. revert b. induction vs as [|v vs IH]; intros b; [by left|]. cbn [search_vifs].
  assert (Next : search_vifs f (b + 1) vs = NO_VIF \/ exists (n : nat) v', search_vifs f (b + 1) vs = b + n /\ (v :: vs) !! n = Some v').
  { destruct (IH (b + 1)) as [|(n & v' & E & L)]; [by left|right]. exists (Datatypes.S n), v'. split; [lia|done]. }
  destruct (unusable v); [done|]. destruct (list_find _ _) as [[j p]|] eqn:Ef; [|done].
  apply list_find_Some in Ef as (_ & [i Ei] & _). rewrite Ei. cbn. destruct (Hf _ _ _ _ Ei) as [->|]; [right|by left].
  exists 0%nat, v. split; [lia|done].
Qed.

(** A function that gives the index of the interface it is asked about, or none. *)
Ltac finds := intros ? ? ? ?; repeat (case_match || done || (intros ?; simplify_eq; auto)).

Lemma find_vif_direct_lookup src vs : find_vif_direct src vs = NO_VIF \/ exists (n : nat) v, find_vif_direct src vs = n /\ vs !! n = Some v.
Proof. apply (search_vifs_lookup _ 0). finds. Qed.
Lemma find_vif_direct_local_lookup src vs :
  find_vif_direct_local src vs = NO_VIF \/ exists (n : nat) v, find_vif_direct_local src vs = n /\ vs !! n = Some v.
Proof. apply (search_vifs_lookup _ 0). finds. Qed.

Lemma less_words_irrefl n i l : less_words n i l l = false.
Proof. revert i. induction n as [|n IH]; intros i; cbn [less_words]; [done|]. rewrite !decide_False by lia. apply IH. Qed.
Lemma lessthan_differs x y : inet6_lessthan x y = true -> inet6_equal y x = false.
Proof.
  intros E. apply not_true_iff_false. intros ->%inet6_equal_eq. revert E. unfold inet6_lessthan.
  rewrite decide_False by lia. rewrite decide_True by done. by rewrite less_words_irrefl.
Qed.

Section Queries.
Context {S : Type} `{TL : TimerLaws mld_timer S} `{LO : LeavesOk}.
Implicit Types (s : S) (m : Mld) (a : Agenda mld_timer) (sp : Soft) (n k : nat).

Lemma heard_time_eq v mv tmo : vif_fine v mv -> 0 <= tmo < 65536 -> heard_time mv tmo = uv_mld_robustness mv * tmo / MLD6_TIMER_SCALE.
Proof.
  intros [] T. unfold heard_time. assert (0 <= uv_mld_robustness mv * tmo < 2 ^ 31) by nia. rewrite s32_small by lia.
  rewrite Z.quot_div_nonneg by (unfold MLD6_TIMER_SCALE; lia). unfold MLD6_TIMER_SCALE.
  assert (0 <= uv_mld_robustness mv * tmo / 1000 <= uv_mld_robustness mv * tmo) by (split; [apply Z.div_pos; lia|apply Z.div_le_upper_bound; lia]).
  rewrite u32_small; lia.
Qed.
Lemma heard_time_range v mv tmo : vif_fine v mv -> 0 <= tmo < 65536 -> 0 <= heard_time mv tmo < 2 ^ 31.
Proof.
  intros F T. rewrite (heard_time_eq v) by done. destruct F. assert (0 <= uv_mld_robustness mv * tmo < 2 ^ 31) by nia. unfold MLD6_TIMER_SCALE.
  split; [apply Z.div_pos; lia|apply Z.div_lt_upper_bound; lia].
Qed.

Lemma last_chance_ok s m a sp gss n g tmo junk v mv : Inv None s m a [] [] sp gss -> uvifs (table sp) !! n = Some v -> mvifs m !! n = Some mv ->
  0 <= tmo < 65536 -> budget a ->
  runs (last_chance junk n g tmo) (s, m) (fun _ st => exists a',
    Inv None st.1 st.2 a' [] [] (other_asks n (set_uv_groups None mv) g tmo sp) gss /\ a_last a' <= a_last a + 2).
Proof.
  intros I Ev Em T B. destruct (vif_of _ _ _ _ _ _ _ _ _ _ I Ev) as (mv' & Em' & F & _ & _). assert (mv' = mv) as -> by congruence.
  unfold budget in B. pose proof (i_groups _ _ _ _ _ _ _ _ I) as G. destruct (Forall2_lookup_l _ _ _ _ _ (gr_chain _ _ G) Em) as (ks & Ek & C).
  destruct (node_length m gss n ks mv G Ek Em) as (_ & N & L).
  unfold last_chance. eapply runs_Ok; [apply mld_Ok|]. eapply runs_Ok; [by apply mvif_Ok|].
  eapply runs_bind, runs_mono; [by apply find_la_Ok|]. cbn. unfold other_asks. intros [k|] st [-> Hk].
  - destruct Hk as (Hin & l & El & Ef). apply andb_true_iff in Ef as [Eg Eq]. apply inet6_equal_eq in Eg as ->. apply Z.eqb_eq in Eq.
    assert (Hn : node gss n k) by by exists ks. destruct (member_known s m a sp gss n k l I Hn El) as [-> ->]. rewrite Eq. cbn [negb orb Z.eqb].
    pose proof (known_addr s m a sp gss n k l I Hn El) as H16.
    destruct (i_listed _ _ _ _ _ _ _ _ I n k l Hn El) as [(e & He & Fe1 & Fe2 & Fe3) _]; [done|]. cbn [app] in He.
    set (h := Some (Z.of_nat n, al_addr l)). apply (Inv_enter h) in I.
    eapply runs_bind, runs_mono; [apply (stop_timer_ok h s m a sp gss n k l e I Hn El eq_refl); [|done|done]|].
    { intros x Hx [F1 F2]. apply (no_ask h s m a sp gss n k l x I Hn El); [lia|done..]. }
    cbn. intros _ [s1 m1] (a1 & L1 & _ & I1 & La1). cbn in L1, I1.
    destruct (upd_hole h s1 m1 a1 _ gss n k _ (fun l => set_al_query (-1) (set_al_timer (heard_time mv tmo) l)) I1 Hn L1 eq_refl eq_refl eq_refl) as [E2 I2].
    { cbn. intros x Hx F1 F2. by destruct (calm_quiet n l x (alarms sp) Hx (conj F1 F2)). }
    eapply runs_Ok; [exact E2|]. set (m2 := set_las _ m1) in *. set (l2 := set_al_query (-1) _) in *.
    assert (L2 : las m2 !! k = Some l2) by (subst m2; cbn; by rewrite lookup_insert_eq).
    pose proof (heard_time_range v mv tmo F T).
    eapply runs_mono; [apply (restart_ok s1 m2 a1 _ gss n k l2 junk (al_addr l) (alarms sp) true I2 Hn L2); try done; cbn; lia|].
    cbn. intros _ st (a' & _ & La & I' & _). exists a'. split; [exact I'|lia].
  - apply runs_ret. exists a. split; [|lia]. destruct (member n g sp) eqn:M; cbn [negb orb]; [|done].
    destruct (asking n g sp) eqn:A; [done|]. exfalso.
    unfold member in M. apply existsb_true in M as (b & Hb & Fb). apply andb_true_iff in Fb as [Fb _]. apply is_for_true in Fb as [F1 F2].
    destruct (ring_of None s m a sp gss b I Hb) as (t & n0 & c0 & k0 & cb0 & l0 & _ & R). destruct R. assert (n0 = n) as -> by lia. subst g.
    destruct (member_known s m a sp gss n k0 l0 I rg_node rg_la) as [_ K]. rewrite rg_addr, A in K.
    destruct rg_node as (ks' & Ek' & Hk0). assert (ks' = ks) as -> by congruence.
    specialize (Hk k0 l0 Hk0 rg_la). rewrite <- rg_addr in Hk.
    apply andb_false_iff in Hk as [Hk|Hk]; [|destruct (al_query l0 =? 0); done].
    assert (inet6_equal (al_addr l0) (al_addr l0) = true) by by apply inet6_equal_eq. congruence.
Qed.

(** ** Queries of other routers *)

(** The interface is no longer this router's to query. *)
Lemma flags_ok s m a sp gss n v : Inv None s m a [] [] sp gss -> uvifs (table sp) !! n = Some v ->
  runs (upd_flags n (fun f => Z.ldiff f VIFF_QUERIER)) (s, m) (fun _ st => mvifs st.2 = mvifs m /\
    Inv None st.1 st.2 a [] [] (set_vif n (set_uv_flags (Z.ldiff (uv_flags v) VIFF_QUERIER) v) sp) gss).
Proof.
  intros [] Ev. set (v' := set_uv_flags _ v). unfold upd_flags. eapply runs_eq.
  { apply routing_Ok. unfold upd_vif. rewrite get_bind, i_table, rd_of_nat, Ev, bind_of_Some, (store_nat _ n) by by eapply lookup_lt_Some.
    rewrite bind_of_Some. reflexivity. }
  split; [done|]. unfold set_vif. rewrite Nat2Z.id. split; try done; cbn.
  - by apply table_querier.
  - apply Forall2_same_length_lookup_2; [rewrite length_insert; by eapply Forall2_length|]. intros j w mv E1 E2.
    apply list_lookup_insert_Some in E1 as [(-> & <- & _)|[_ E1]]; [|by eapply Forall2_lookup_lr].
    pose proof (Forall2_lookup_lr _ _ _ _ _ _ i_vifs Ev E2) as []. by split.
  - by destruct i_groups.
  - eapply Forall2_impl; [done|]. intros t x (n0 & c & k & cb & l & []). by exists n0, c, k, cb, l.
Qed.

(** The querier of an interface. *)
Lemma upd_querier_ok s m a sp gss n mv q f : Inv None s m a [] [] sp gss -> mvifs m !! n = Some mv -> uv_querier mv = Some q ->
  runs (upd_querier n f) (s, m) (fun _ st => mvifs st.2 = <[n := set_uv_querier (Some (f q)) mv]> (mvifs m) /\
    Inv None st.1 st.2 a [] [] (set_config n (set_uv_querier (Some (f q)) (set_uv_groups None mv)) sp) gss).
Proof.
  intros [] Em Eq. unfold upd_querier. eapply runs_Ok; [by apply mvif_Ok|]. rewrite Eq. eapply runs_Ok; [reflexivity|].
  eapply runs_eq; [by apply (upd_mvif_Ok n mv)|]. split; [done|]. unfold set_config. rewrite Nat2Z.id.
  pose proof (lookup_lt_Some _ _ _ Em) as Hn. split; try done; cbn.
  - rewrite list_fmap_insert. by rewrite <- i_config.
  - apply Forall2_same_length_lookup_2; [rewrite length_insert; by eapply Forall2_length|]. intros j w mv' E1 E2.
    apply list_lookup_insert_Some in E2 as [(-> & <- & _)|[_ E2]]; [|by eapply Forall2_lookup_lr].
    pose proof (Forall2_lookup_lr _ _ _ _ _ _ i_vifs E1 Em) as []. split; cbn; try eauto; done.
  - destruct i_groups. split; try done. cbn. apply Forall2_same_length_lookup_2; [rewrite length_insert; by eapply Forall2_length|].
    intros j w ks E1 E2. apply list_lookup_insert_Some in E1 as [(-> & <- & _)|[_ E1]]; [|exact (Forall2_lookup_lr _ _ _ _ _ _ gr_chain E1 E2)].
    exact (Forall2_lookup_lr _ _ _ _ _ _ gr_chain Em E2).
  - eapply Forall2_impl; [done|]. intros t x (n0 & c & k & cb & l & []). exists n0, c, k, cb, l. split; try done.
    unfold ring_kind in *. cbn. destruct (a_kind x); [done|]. destruct rg_kind as (K1 & K2 & w & E & K3). split; [done|]. split; [done|].
    destruct (decide (n0 = n)) as [->|]; [|exists w; by rewrite list_lookup_insert_ne]. eexists. rewrite list_lookup_insert_eq by done.
    split; [done|]. cbn. congruence.
Qed.

(** On an interface that there is. *)
Lemma on_vif_at n v mv f sp : (n : Z) <> NO_VIF -> uvifs (table sp) !! n = Some v -> rd (config sp) n = Some mv -> on_vif n f sp = f v mv sp.
Proof. intros Hn Ev Em. unfold on_vif. rewrite (proj2 (Z.eqb_neq _ _)) by done. by rewrite rd_of_nat, Ev, Em. Qed.

Lemma querier_wins s m a sp gss n v mv q src : Inv None s m a [] [] sp gss -> uvifs (table sp) !! n = Some v -> mvifs m !! n = Some mv ->
  uv_querier mv = Some q ->
  runs (if negb (inet6_equal (qr_addr q) src) && inet6_lessthan src (qr_addr q)
        then do! upd_flags n (fun f => Z.ldiff f VIFF_QUERIER) ;; upd_querier n (set_qr_addr src) else ret tt) (s, m)
    (fun _ st => exists v' mv' q', let sp' := elected n v (set_uv_groups None mv) src q sp in
      Inv None st.1 st.2 a [] [] sp' gss /\ uvifs (table sp') !! n = Some v' /\ mvifs st.2 !! n = Some mv' /\ uv_querier mv' = Some q').
Proof.
  intros I Ev Em Eq. unfold elected. destruct (inet6_lessthan src (qr_addr q)) eqn:L; [|rewrite andb_false_r; apply runs_ret; eauto 8].
  rewrite (lessthan_differs _ _ L). cbn [negb andb]. eapply runs_bind, runs_mono; [by apply flags_ok|]. cbn. intros _ [s1 m1] [E1 I1].
  cbn in E1, I1. rewrite <- E1 in Em. eapply runs_mono; [apply (upd_querier_ok s1 m1 a _ gss n mv q _ I1 Em Eq)|]. cbn. intros _ st [E2 I2].
  do 3 eexists. split; [exact I2|]. rewrite Nat2Z.id. split; [|split].
  - rewrite list_lookup_insert_eq by (by eapply lookup_lt_Some). done.
  - rewrite E2, list_lookup_insert_eq by (by eapply lookup_lt_Some). done.
  - done.
Qed.

Lemma query_step s m a sp gss src group tmo junk : Inv None s m a [] [] sp gss -> 0 <= tmo < 65536 -> budget a ->
  runs (accept_listener_query junk src group tmo) (s, m) (fun _ st => exists a',
    Inv None st.1 st.2 a' [] [] (soft_step (Query src group tmo) sp) gss /\ a_last a' <= a_last a + 2).
Proof.
  intros I T B. unfold accept_listener_query. eapply runs_Ok; [apply mld_Ok|]. cbn [soft_step]. rewrite (i_table _ _ _ _ _ _ _ _ I).
  destruct (negb (_ =? NO_VIF)); [apply runs_ret; exists a; split; [done|lia]|].
  destruct (find_vif_direct_lookup src (uvifs (table sp))) as [->|(n & v & -> & Ev)].
  { apply runs_ret. exists a. split; [done|lia]. }
  destruct (Z.eqb_spec n NO_VIF) as [En|En].
  { unfold on_vif. rewrite (proj2 (Z.eqb_eq _ _) En). apply runs_ret. exists a. split; [done|lia]. }
  destruct (vif_of _ _ _ _ _ _ _ _ _ _ I Ev) as (mv & Em & F & Ec & Er).
  eapply runs_Ok; [by apply mvif_Ok|]. rewrite (vf_version _ _ F). cbn [Z.land MLDv1 Z.eqb].
  destruct (vf_querier _ _ F) as [q Eq]. rewrite Eq. eapply runs_Ok; [reflexivity|]. rewrite (on_vif_at n v _ _ sp En Ev Ec). cbn [uv_querier set_uv_groups]. rewrite Eq.
  eapply runs_bind, runs_mono; [by apply querier_wins|]. cbn. intros _ [s1 m1] (v1 & mv1 & q1 & I1 & Ev1 & Em1 & Eq1).
  set (sp1 := elected _ _ _ _ _ _) in *. cbn in I1, Em1.
  destruct (vif_of _ _ _ _ _ _ _ _ _ _ I1 Ev1) as (mv' & Em' & F1 & Ec1 & Er1). assert (mv' = mv1) as -> by congruence.
  rewrite (on_vif_at n v1 _ _ sp1 En Ev1 Ec1). eapply runs_Ok; [exact Er1|].
  destruct (has (uv_flags v1) VIFF_QUERIER); [apply runs_ret; exists a; split; [done|lia]|].
  eapply runs_Ok; [by apply mvif_Ok|]. rewrite Eq1. eapply runs_Ok; [reflexivity|].
  assert (P : runs (if inet6_equal src (qr_addr q1) then upd_querier n (set_qr_timer (MLD6_OTHER_QUERIER_PRESENT_INTERVAL mv1)) else ret tt)
    (s1, m1) (fun _ st => exists mv2, let sp2 := querier_present n (set_uv_groups None mv1) src sp1 in
      Inv None st.1 st.2 a [] [] sp2 gss /\ uvifs (table sp2) !! n = Some v1 /\ mvifs st.2 !! n = Some mv2 /\
      forall sp3, other_asks n (set_uv_groups None mv2) (scoped v1 group) tmo sp3 = other_asks n (set_uv_groups None mv1) (scoped v1 group) tmo sp3)).
  { unfold querier_present. cbn [uv_querier set_uv_groups]. rewrite Eq1. destruct (inet6_equal src (qr_addr q1)); [|apply runs_ret; eauto 8].
    eapply runs_mono; [apply (upd_querier_ok s1 m1 a sp1 gss n mv1 q1 _ I1 Em1 Eq1)|]. cbn. intros _ st [E2 I2]. eexists. split; [exact I2|].
    rewrite E2, list_lookup_insert_eq by (by eapply lookup_lt_Some). done. }
  eapply runs_bind, runs_mono; [exact P|]. cbn. intros _ [s2 m2] (mv2 & I2 & Ev2 & Em2 & Eo). cbn in I2, Em2.
  destruct (IN6_IS_ADDR_UNSPECIFIED group); [apply runs_ret; exists a; split; [done|lia]|]. rewrite <- Eo.
  exact (last_chance_ok s2 m2 a _ gss n _ tmo junk v1 mv2 I2 Ev2 Em2 T B).
Qed.

(** ** Messages of hosts *)

Lemma report_step s m a sp gss src group b junk : Inv None s m a [] [] sp gss -> length group = 16%nat -> budget a ->
  runs (accept_listener_report b junk src group) (s, m) (fun _ st => exists a' gss',
    Inv None st.1 st.2 a' [] [] (soft_step (Report src group) sp) gss' /\ a_last a' <= a_last a + 2).
Proof.
  intros I Hg B. unfold accept_listener_report. cbn [soft_step].
  assert (Idle : runs (ret tt) (s, m) (fun _ st => exists a' gss', Inv None st.1 st.2 a' [] [] sp gss' /\ a_last a' <= a_last a + 2)).
  { apply runs_ret. exists a, gss. split; [done|lia]. }
  destruct (IN6_IS_ADDR_MC_LINKLOCAL group); [done|]. eapply runs_Ok; [apply mld_Ok|]. rewrite (i_table _ _ _ _ _ _ _ _ I).
  destruct (find_vif_direct_local_lookup src (uvifs (table sp))) as [->|(n & v & -> & Ev)]; [done|].
  destruct (Z.eqb_spec n NO_VIF) as [En|En]; [unfold on_vif; rewrite (proj2 (Z.eqb_eq _ _) En); done|].
  destruct (vif_of _ _ _ _ _ _ _ _ _ _ I Ev) as (mv & Em & F & Ec & Er).
  eapply runs_Ok; [exact Er|]. eapply runs_Ok; [by apply mvif_Ok|]. rewrite (vf_version _ _ F), andb_false_r. cbn [Z.land MLDv1 Z.eqb].
  rewrite (on_vif_at n v _ _ sp En Ev Ec).
  eapply runs_mono; [by apply (recv_report_ok s m a sp gss n src (scoped v group) junk v)|].
  intros _ st (a' & gss' & mv' & Ec' & I' & La). assert (mv' = set_uv_groups None mv) as -> by congruence. by exists a', gss'.
Qed.

Lemma done_step s m a sp gss src group b junk : Inv None s m a [] [] sp gss -> budget a ->
  runs (accept_listener_done b junk src group) (s, m) (fun _ st => exists a' gss',
    Inv None st.1 st.2 a' [] [] (soft_step (Done src group) sp) gss' /\ a_last a' <= a_last a + 2).
Proof.
  intros I B. unfold accept_listener_done. cbn [soft_step].
  assert (Idle : runs (ret tt) (s, m) (fun _ st => exists a' gss', Inv None st.1 st.2 a' [] [] sp gss' /\ a_last a' <= a_last a + 2)).
  { apply runs_ret. exists a, gss. split; [done|lia]. }
  destruct (_ || _); [done|]. eapply runs_Ok; [apply mld_Ok|]. rewrite (i_table _ _ _ _ _ _ _ _ I).
  destruct (find_vif_direct_local_lookup src (uvifs (table sp))) as [->|(n & v & -> & Ev)]; [done|].
  destruct (Z.eqb_spec n NO_VIF) as [En|En]; [unfold on_vif; rewrite (proj2 (Z.eqb_eq _ _) En); done|].
  destruct (vif_of _ _ _ _ _ _ _ _ _ _ I Ev) as (mv & Em & F & Ec & Er).
  eapply runs_Ok; [exact Er|]. eapply runs_Ok; [by apply mvif_Ok|]. rewrite (vf_version _ _ F). cbn [Z.land MLDv1 Z.eqb].
  rewrite (on_vif_at n v _ _ sp En Ev Ec).
  eapply runs_mono; [by apply (recv_done_ok s m a sp gss n (scoped v group) b junk v)|].
  intros _ st (a' & gss' & mv' & Ec' & I' & La). assert (mv' = set_uv_groups None mv) as -> by congruence. by exists a', gss'.
Qed.
End Queries.

(** ** Runs *)

(** Groups have sixteen bytes, delays sixteen bits; an [int] holds the seconds. *)
Definition event_ok (ev : mld_event) : Prop :=
  match ev with
  | Report _ group => length group = 16%nat
  | Done _ _ => True
  | Query _ _ tmo => 0 <= tmo < 65536
  | Elapse e => 0 <= e < 2 ^ 31
  end.

(** The daemon before it has heard of any group. *)
Record start_ok `{LO : LeavesOk} (m : Mld) : Prop := {
  st_table : table_ok (pim m);
  st_vifs : Forall2 vif_fine (uvifs (pim m)) (mvifs m);
  st_groups : Forall (fun v => uv_groups v = None) (mvifs m) /\ las m = ∅;
  st_memory : mld_mallocs m = [] /\ (0 < mld_brk m)%nat /\ zlen (mld6_send_buf m) = RECV_BUF_SIZE
}.
Definition soft_start (m : Mld) : Soft := mkSoft 0 [] (pim m) (mld_sent m) (mvifs m).

Section Runs.
Context {S : Type} `{TL : TimerLaws mld_timer S} `{LO : LeavesOk}.
Implicit Types (s : S) (m : Mld) (a : Agenda mld_timer) (sp : Soft) (n k : nat).

Lemma mld_step_ok b junk ev s m a sp gss : Inv None s m a [] [] sp gss -> event_ok ev -> budget a ->
  runs (mld_step b junk ev) (s, m) (fun _ st => exists a' gss', Inv None st.1 st.2 a' [] [] (soft_step ev sp) gss' /\ a_last a' <= a_last a + 2).
Proof.
  intros I E B. destruct ev as [src g|src g|src g tmo|e]; cbn [mld_step event_ok] in *.
  - by eapply report_step.
  - by eapply done_step.
  - eapply runs_mono; [by eapply query_step|]. cbn. intros _ st (a' & I' & La). by exists a', gss.
  - eapply runs_mono; [by eapply elapse_step|]. cbn. intros _ st (a' & gss' & I' & La). exists a', gss'. split; [done|lia].
Qed.

Lemma mld_run_ok b junk evs s m a sp gss : Inv None s m a [] [] sp gss -> Forall event_ok evs ->
  a_last a + 2 * zlen evs < 2 ^ 31 - 1 ->
  runs (mld_run b junk evs) (s, m) (fun _ st => exists a' gss', Inv None st.1 st.2 a' [] [] (soft_run evs sp) gss').
Proof.
  intros I F. revert s m a sp gss I. induction F as [|ev evs E F IH]; intros s m a sp gss I B.
  - apply runs_ret. by exists a, gss.
  - rewrite zlen_cons in B. pose proof (zlen_nonneg evs). cbn [mld_run soft_run foldl].
    eapply runs_bind, runs_mono; [eapply mld_step_ok; [done|done|unfold budget; lia]|]. cbn. intros _ [s1 m1] (a1 & gss1 & I1 & La).
    eapply IH; [exact I1|lia].
Qed.

(** A listener is asked for. *)
Lemma listener_known s m a sp gss n v g : Inv None s m a [] [] sp gss -> uvifs (pim m) !! n = Some v ->
  check_multicast_listener n g (s, m) = Ok (member n g sp) (s, m).
Proof.
  intros I Ev. rewrite (i_table _ _ _ _ _ _ _ _ I) in Ev. destruct (vif_of _ _ _ _ _ _ _ _ _ _ I Ev) as (mv & Em & _).
  destruct (find_group_Ok None s m a [] [] sp gss n mv g I Em) as (r & st & E & -> & Hr).
  unfold check_multicast_listener. rewrite (bind_Ok _ _ _ _ _ E). unfold ret. f_equal. destruct r as [k|].
  - destruct Hr as (Hn & l & El & <-). by destruct (member_known s m a sp gss n k l I Hn El) as [-> _].
  - symmetry. by apply (member_unknown s m a sp gss).
Qed.
End Runs.

Lemma Inv_start `{LO : LeavesOk} m : start_ok m ->
  Inv (S := Callouts mld_timer) None (mkCallouts [] 0 [] []) m (mkAgenda 0 [] 0 [] []) [] [] (soft_start m) (replicate (length (mvifs m)) []).
Proof.
  intros [T V [G L] (M1 & M2 & M3)].
  assert (No : forall n k, ~ node (replicate (length (mvifs m)) []) n k).
  { intros n k (ks & E & Hk). apply lookup_replicate in E as [-> _]. by apply not_elem_of_nil in Hk. }
  split; try done; cbn; try constructor; try done; try lia.
  - clear -G. induction G as [|v l E G IH]; [done|]. cbn. rewrite IH. f_equal. destruct v. cbn in *. by subst.
  - clear -G. induction G as [|v l E G IH]; constructor; [exact E|done].
  - clear. induction (mvifs m); [constructor|done].
  - intros n k k' l l' N. by apply No in N.
  - intros k. rewrite L. intros [l E]. by rewrite lookup_empty in E.
  - constructor.
  - by destruct (No n k).
  - by destruct (No n k).
Qed.

(** ** Routing tables *)

(** The leaves of route.c on a router that is designated on no interface and has
    no routes: listeners are remembered, and nothing is told to the table. *)
Definition no_routes (p : Pim) : Prop :=
  (forall n v, uvifs p !! n = Some v -> has (uv_flags v) VIFF_DR = false) /\
  exists g e, grplist p = Some g /\ grps p !! g = Some e /\ g_next e = None.

Lemma no_route_found (junk : ptr) p group : no_routes p -> find_route junk (Some sockaddr6_any) (Some group) MRTF_WC false p = Ok None p.
Proof.
  intros [_ (g & e & E1 & E2 & E3)]. unfold find_route. cbn [has].
  assert (L : search_grplist group p = Ok (false, Some g) p).
  { unfold search_grplist. rewrite get_bind, E1. assert (G : grp (Some g) p = Ok e p) by (unfold grp, load; cbn; by rewrite E2).
    rewrite (bind_Ok _ _ _ _ _ G), E3. done. }
  change (has MRTF_WC (Z.lor MRTF_SG MRTF_WC)) with true. change (has MRTF_WC MRTF_SG) with false. cbn [negb].
  destruct (negb (IN6_IS_ADDR_MULTICAST (sin6_addr group))) eqn:M; unfold bind, of_option, ret; rewrite M; [done|].
  unfold existing_route. change (has MRTF_WC (Z.lor MRTF_SG MRTF_WC)) with true. change (has MRTF_WC MRTF_PMBR) with false.
  unfold bind at 1, of_option at 1, ret at 1. by rewrite (bind_Ok _ _ _ _ _ L).
Qed.

#[export] Program Instance idle_routes junk : LeavesOk (LV := route_leaves junk) := { table_ok := no_routes }.
Next Obligation.
  intros junk n v g p [D G] Ev. exists p. split; [|done]. cbn. unfold add_leaf, vif. rewrite bind_assoc, get_bind, rd_of_nat, Ev, bind_of_Some.
  by rewrite (D n v Ev).
Qed.
Next Obligation.
  intros junk n v g p N Ev. exists p. split; [|done]. cbn. unfold delete_leaf, leaf_route. rewrite bind_assoc, get_bind.
  destruct (SSMGROUP p g); [done|]. by rewrite (bind_Ok _ _ _ _ _ (no_route_found junk p g N)).
Qed.
Next Obligation.
  intros junk n v p [D G] Ev. split; [|done]. intros j w E. cbn in E. apply list_lookup_insert_Some in E as [(<- & <- & _)|[_ E]]; [|eauto].
  specialize (D n v Ev). unfold has in *. apply negb_false_iff, Z.eqb_eq in D. apply negb_false_iff, Z.eqb_eq. change (uv_flags (set_uv_flags ?f v)) with f.
  apply Z.bits_inj'. intros i _. apply (f_equal (fun z => Z.testbit z i)) in D. rewrite Z.land_spec, Z.bits_0 in *. rewrite Z.ldiff_spec.
  destruct (Z.testbit (uv_flags v) i); [|done]. cbn [andb] in *. rewrite D. apply andb_false_r.
Qed.

(** *** A router *)

(** A table that writes down which leaves it is told of. *)
Definition noting_leaves : Leaves := {|
  leaf_added i s g := modify (fun p => set_kcalls (kcalls p ++ [k_chg_mfc_call g g i 1]) p);
  leaf_deleted i s g := modify (fun p => set_kcalls (kcalls p ++ [k_del_mfc_call g g]) p)
|}.
#[export] Program Instance noting_ok : LeavesOk (LV := noting_leaves) := { table_ok := fun _ => True }.
Next Obligation. intros n v g p _ _. by eexists. Qed.
Next Obligation. intros n v g p _ _. by eexists. Qed.
Next Obligation. done. Qed.

Definition ll_addr (b : Z) : sockaddr_in6 := mkSa 3 ([0xfe; 0x80] ++ replicate 13 0 ++ [b]).
Definition ll_phaddr : phaddr := mkPhaddr (ll_addr 1) (mkSa 0 in6addr_any) (ll_addr 0) (replicate 8 255 ++ replicate 8 0).

(** One interface, on which this router is the querier; it is queried every 125
    seconds and twice before a group is forgotten. *)
Definition listener_router (flags : Z) : Mld :=
  let v := mkVif flags 3 0 [ll_phaddr] 0 0 [] (Some ll_phaddr) 0 0 0 in
  let any := mkSa 0 in6addr_any in
  let p := set_grplist (Some 0%nat) (set_grps {[0%nat := mkGrp None None None None any any None None None]} (set_uvifs [v] daemon1)) in
  mkMld p ∅ ∅ [mkMvif None (Some (mkQuerier (ll_addr 1) 255)) 2 1 2 125 10000 1000] 1 [] (replicate (Z.to_nat RECV_BUF_SIZE) 0) [].
Definition some_group : list Z := [0xff; 0x05] ++ replicate 13 0 ++ [9].
Definition old_listener : listaddr := mkLa None (ll_addr 9) None 7 7 (ll_addr 9) 7 7 7 7.

(** A listener comes and goes, another stays. *)
Definition one_stays : list mld_event :=
  [Report (ll_addr 9) some_group; Elapse 100; Done (ll_addr 9) some_group; Elapse 1; Report (ll_addr 8) some_group; Elapse 200].
Definition all_leave : list mld_event := one_stays ++ [Done (ll_addr 8) some_group; Elapse 1; Elapse 2].

Lemma router_vif_fine flags : let m := listener_router flags in Forall2 vif_fine (uvifs (pim m)) (mvifs m).
Proof. constructor; [|constructor]. split; cbn; try done; try lia; by eexists. Qed.
Lemma router_buf flags : zlen (mld6_send_buf (listener_router flags)) = RECV_BUF_SIZE.
Proof. unfold zlen. cbn [mld6_send_buf listener_router]. rewrite length_replicate, Z2Nat.id; done. Qed.

(** C5. From its start on, whatever reports, done messages and queries of
    other routers arrive and however the seconds pass, the daemon implements the
    soft state of the protocol: it does not fail, it knows a group on an
    interface exactly as long as the soft state does, it has sent the same
    queries, told the routing table the same leaves, and has the same querier on
    every interface. *)
Theorem listeners_refine `{LO : LeavesOk} b junk evs (m : Mld) : start_ok m -> Forall event_ok evs -> 2 * zlen evs < 2 ^ 31 - 1 ->
  let sp := soft_run evs (soft_start m) in
  exists q' m', mld_run b junk evs (mkCallouts [] 0 [] [], m) = Ok tt (q', m') /\
    pim m' = table sp /\ mld_sent m' = asked sp /\ set_uv_groups None <$> mvifs m' = config sp /\
    forall (n : nat) v g, uvifs (pim m') !! n = Some v -> check_multicast_listener n g (q', m') = Ok (member n g sp) (q', m').
Proof.
  intros St F L sp. destruct (mld_run_ok b junk evs _ _ _ _ _ (Inv_start m St) F) as ([] & [q' m'] & E & a' & gss' & I); [cbn; lia|].
  exists q', m'. cbn in I. split; [exact E|]. split_and!; [apply I|apply I|apply I|]. intros n v g Ev. by eapply listener_known.
Qed.

Lemma listeners_refine_witness :
  let run (LV : Leaves) m evs := mld_run (LV := LV) false old_listener evs (mkCallouts [] 0 [] [], m) in
  let ends (LV : Leaves) m evs (sp : Soft) := exists q' m', run LV m evs = Ok tt (q', m') /\
    pim m' = table sp /\ mld_sent m' = asked sp /\ set_uv_groups None <$> mvifs m' = config sp /\
    forall (n : nat) v g, uvifs (pim m') !! n = Some v -> check_multicast_listener n g (q', m') = Ok (member n g sp) (q', m') in
  let m1 := listener_router (Z.lor VIFF_QUERIER VIFF_DR) in
  let m2 := listener_router VIFF_QUERIER in
  let soft (LV : Leaves) m evs := soft_run (LV := LV) evs (soft_start m) in
  let g := mkSa 0 some_group in
  ends noting_leaves m1 all_leave (soft noting_leaves m1 all_leave) /\
  ends (route_leaves None) m2 one_stays (soft (route_leaves None) m2 one_stays) /\
  member 0 g (soft noting_leaves m1 one_stays) = true /\ member 0 g (soft noting_leaves m1 all_leave) = false /\
  length (asked (soft noting_leaves m1 all_leave)) = 4%nat /\ length (kcalls (table (soft noting_leaves m1 all_leave))) = 3%nat.
Proof.
  cbv zeta. split; [|split].
  - apply (listeners_refine (LO := noting_ok)); [|repeat constructor; done|done].
    split; [done|apply router_vif_fine|split; [by repeat constructor|done]|split; [done|split; [cbn; lia|apply router_buf]]].
  - apply (listeners_refine (LO := idle_routes None)); [|repeat constructor; done|done].
    split; [|apply router_vif_fine|split; [by repeat constructor|done]|split; [done|split; [cbn; lia|apply router_buf]]].
    split; [|by eexists 0%nat, _]. intros n v E. destruct n; [by injection E as <-|done].
  - split_and!; vm_compute; reflexivity.
Defined.
