(* ===== verification/MldLife.v ===== *)
(** * MldLife: listeners that are not heard again

    How long the soft state of MldSpec lasts: every alarm is due within the
    longest of the delays, so in silence every group is forgotten. *)

From stdpp Require Import base list numbers gmap sorting.
From S2P Require Import Prelude Callout Inet6 Pim RpMatch Vif Mrt PimMsg PimSend Oifs Rp PimJp PimBsr PimReg PimJoin PimRoute PimTimer Mld MldProto MldMem MldSpec MldInv MldOk MldFire MldRun.
Open Scope Z_scope.
#[local] Coercion Z.of_nat : nat >-> Z.

(** The delays of an interface are [B] seconds at most. *)
Record delays_within (B : Z) (mv : mld_vif) : Prop := {
  dl_interval : MLD6_LISTENER_INTERVAL mv <= B;
  dl_last : last_listener_time mv <= B;
  dl_ask : uv_mld_llqi mv / MLD6_TIMER_SCALE <= B;
  dl_heard tmo : 0 <= tmo < 65536 -> heard_time mv tmo <= B
}.

Section Life.
Context `{LV : Leaves}.
Implicit Types (sp : Soft).

Record within (B : Z) sp : Prop := {
  wi_config : Forall (delays_within B) (config sp);
  wi_alarms : Forall (fun b => due b <= clock sp + B) (alarms sp)
}.

Lemma within_same B sp sp' : clock sp' = clock sp -> alarms sp' = alarms sp -> config sp' = config sp -> within B sp -> within B sp'.
Proof. intros E1 E2 E3 []. split; [by rewrite E3|by rewrite E1, E2]. Qed.

Lemma within_arrange B sp l b : within B sp -> due b <= clock sp + B -> Forall (fun x => due x <= clock sp + B) l ->
  within B (set_alarms (arrange b l) sp).
Proof. intros [C _] Hb F. split; [done|]. cbn. rewrite arrange_perm. by constructor. Qed.

Lemma calm_within i g l B : Forall (fun x => due x <= B) l -> Forall (fun x => due x <= B) (calm i g l).
Proof. induction 1 as [|x l Hx _ IH]; [constructor|]. unfold calm. cbn. destruct (negb _); [by constructor|done]. Qed.

Lemma ask_within B v mv g sp : within B sp -> within B (querier_asks v mv g sp).
Proof. intros W. unfold querier_asks. destruct (asks v); [|done]. by apply (within_same B sp). Qed.

Lemma leaf_within B i g sp : within B sp -> within B (with_leaf i g sp).
Proof. by apply within_same. Qed.

Lemma config_within B sp i mv : within B sp -> rd (config sp) i = Some mv -> delays_within B mv.
Proof. intros [C _] E. apply rd_nat in E as (n & -> & E). by eapply Forall_lookup_1. Qed.

Lemma on_vif_within B i f sp : within B sp -> (forall v mv, delays_within B mv -> within B (f v mv sp)) -> within B (on_vif i f sp).
Proof.
  intros W F. unfold on_vif. destruct (i =? NO_VIF); [done|]. destruct (rd (uvifs _) i) as [v|]; [|done].
  destruct (rd (config sp) i) as [mv|] eqn:E; [|done]. by eapply F, config_within.
Qed.

Lemma set_config_within B i mv q sp : within B sp -> delays_within B mv -> within B (set_config i (set_uv_querier q mv) sp).
Proof.
  intros [C A] []. split; [|done]. cbn. apply Forall_insert; [done|]. by split.
Qed.

Lemma elected_within B i v mv src q sp : within B sp -> delays_within B mv -> within B (elected i v mv src q sp).
Proof. intros W D. unfold elected. destruct (inet6_lessthan _ _); [|done]. apply set_config_within; [by apply (within_same B sp)|done]. Qed.

Lemma fires_same l sp : let sp' := foldl (fun sp b => fire b sp) sp l in clock sp' = clock sp /\ alarms sp' = alarms sp /\ config sp' = config sp.
Proof.
  revert sp. induction l as [|b l IH]; intros sp; [done|]. cbn [foldl]. destruct (IH (fire b sp)) as (-> & -> & ->).
  unfold fire. destruct (a_kind b); [done|]. destruct (rd _ _); [|done]. destruct (rd _ _); [|done]. unfold querier_asks. by destruct (asks _).
Qed.

Lemma elapse_alarms e sp : let sp' := elapse e sp in clock sp' = clock sp + e /\ config sp' = config sp /\
  alarms sp' = List.filter (fun b => clock sp + e <? due b) (alarms sp).
Proof. cbv zeta. unfold elapse. match goal with |- context [foldl _ ?s ?l] => by destruct (fires_same l s) as (-> & -> & ->) end. Qed.

Lemma filter_Forall {A} (P : A -> Prop) f l : Forall P l -> Forall P (List.filter f l).
Proof. induction 1 as [|x l Hx _ IH]; [constructor|]. cbn. destruct (f x); [by constructor|done]. Qed.

Lemma soft_step_within B ev sp : event_ok ev -> within B sp -> within B (soft_step ev sp).
Proof.
  intros E W. destruct ev as [src g|src g|src g tmo|e]; cbn [soft_step event_ok] in *.
  - destruct (IN6_IS_ADDR_MC_LINKLOCAL g); [done|]. apply on_vif_within; [done|]. intros v mv []. unfold report.
    apply leaf_within, within_arrange; [done|cbn; lia|apply calm_within, W].
  - destruct (_ || _); [done|]. apply on_vif_within; [done|]. intros v mv []. unfold done_.
    destruct (_ || _); [done|]. apply ask_within, within_arrange; [done|cbn; lia|]. rewrite arrange_perm. constructor; [cbn; lia|apply calm_within, W].
  - destruct (negb _); [done|]. apply on_vif_within; [done|]. intros v mv D. destruct (uv_querier mv) as [q|]; [|done].
    apply on_vif_within; [by apply elected_within|]. intros v' mv' D'. destruct (has _ _); [by apply elected_within|].
    assert (W' : within B (querier_present (find_vif_direct src (uvifs (table sp))) mv' src (elected (find_vif_direct src (uvifs (table sp))) v mv src q sp))).
    { unfold querier_present. destruct (uv_querier mv'); [|by apply elected_within]. destruct (inet6_equal _ _); [|by apply elected_within].
      apply set_config_within; [by apply elected_within|done]. }
    destruct (IN6_IS_ADDR_UNSPECIFIED g); [done|]. unfold other_asks. destruct (_ || _); [done|].
    pose proof (dl_heard _ _ D' tmo E). apply within_arrange; [done|cbn; lia|apply calm_within, W'].
  - destruct (elapse_alarms e sp) as (E1 & E2 & E3). destruct W as [C A]. split; [by rewrite E2|]. rewrite E1, E3.
    apply filter_Forall. eapply Forall_impl; [exact A|]. cbn. lia.
Qed.

Lemma soft_run_within B evs sp : Forall event_ok evs -> within B sp -> within B (soft_run evs sp).
Proof. intros F. revert sp. induction F as [|ev evs E F IH]; intros sp W; [done|]. by apply IH, soft_step_within. Qed.

(** The seconds of several waits. *)
Definition seconds (es : list Z) : Z := foldr Z.add 0 es.

(** Nothing is left when the longest delay has passed. *)
Lemma silence_ends es sp B : Forall (fun e => 0 <= e) es -> Forall (fun b => due b <= clock sp + B) (alarms sp) ->
  alarms sp = [] \/ 0 < B <= seconds es -> alarms (soft_run (Elapse <$> es) sp) = [].
Proof.
  intros F. revert sp B. induction F as [|e es He F IH]; intros sp B A HB; [cbn in *; destruct HB; [done|lia]|].
  cbn [fmap list_fmap soft_run foldl soft_step seconds foldr] in *. destruct (elapse_alarms e sp) as (E1 & _ & E3).
  apply (IH (elapse e sp) (B - e)).
  - rewrite E1, E3. apply filter_Forall. eapply Forall_impl; [exact A|]. cbn. lia.
  - rewrite E3. destruct HB as [->|HB]; [by left|]. destruct (Z.le_gt_cases B e) as [H|H]; [left|right; fold (seconds es) in HB; lia].
    clear -A H. induction A as [|b l Hb A IHl]; [done|]. cbn. rewrite (proj2 (Z.ltb_ge _ _)) by lia. done.
Qed.
End Life.

Lemma soft_run_app `{LV : Leaves} evs evs' sp : soft_run (evs ++ evs') sp = soft_run evs' (soft_run evs sp).
Proof. apply foldl_app. Qed.

(** C6. Whatever was heard, in silence every group is forgotten and no timer is
    left when the longest of the delays of the interfaces has passed: listeners
    that are gone without a word do not keep a group. *)
Theorem listeners_forgotten `{LO : LeavesOk} b junk evs es B (m : Mld) : start_ok m -> Forall event_ok evs -> Forall (fun e => 0 <= e < 2 ^ 31) es ->
  2 * (zlen evs + zlen es) < 2 ^ 31 - 1 -> Forall (delays_within B) (mvifs m) -> 0 < B <= seconds es ->
  exists q' m', mld_run b junk (evs ++ (Elapse <$> es)) (mkCallouts [] 0 [] [], m) = Ok tt (q', m') /\ Q q' = [] /\
    forall (n : nat) v g, uvifs (pim m') !! n = Some v -> check_multicast_listener n g (q', m') = Ok false (q', m').
Proof.
  intros St F1 F2 L D HB. assert (F : Forall event_ok (evs ++ (Elapse <$> es))).
  { rewrite Forall_app, Forall_fmap. split; [done|]. eapply Forall_impl; [exact F2|]. done. }
  destruct (mld_run_ok b junk _ _ _ _ _ _ (Inv_start m St) F) as ([] & [q' m'] & E & a' & gss' & I).
  { cbn [a_last]. rewrite zlen_app. unfold zlen at 2. rewrite length_fmap. unfold zlen in *. lia. }
  exists q', m'. cbn in I. rewrite soft_run_app in I. set (sp := soft_run evs (soft_start m)) in *.
  assert (W : within B sp) by (apply soft_run_within; [done|]; split; [done|constructor]).
  assert (N : alarms (soft_run (Elapse <$> es) sp) = []).
  { apply (silence_ends es sp B); [|apply W|by right]. eapply Forall_impl; [exact F2|]. cbn. lia. }
  split; [exact E|]. split.
  - pose proof (i_due _ _ _ _ _ _ _ _ I) as Du. rewrite N in Du. apply fmap_nil_inv in Du. pose proof (i_view _ _ _ _ _ _ _ _ I) as V.
    cbn in V. destruct V. rewrite rf_timers in Du. by destruct (Q q').
  - intros n v g Ev. rewrite (listener_known _ _ _ _ _ n v g I Ev). unfold member. by rewrite N.
Qed.

Lemma listeners_forgotten_witness :
  let m := listener_router (Z.lor VIFF_QUERIER VIFF_DR) in
  exists q' m', mld_run (LV := noting_leaves) false old_listener (one_stays ++ (Elapse <$> [200; 61])) (mkCallouts [] 0 [] [], m) = Ok tt (q', m') /\ Q q' = [] /\
    forall (n : nat) v g, uvifs (pim m') !! n = Some v -> check_multicast_listener n g (q', m') = Ok false (q', m').
Proof.
  cbv zeta. apply (listeners_forgotten (LO := noting_ok) false old_listener one_stays [200; 61] 260).
  - split; [done|apply router_vif_fine|split; [by repeat constructor|done]|split; [done|split; [cbn; lia|apply router_buf]]].
  - repeat constructor; done.
  - repeat constructor; lia.
  - done.
  - constructor; [|constructor]. split; [done|done|done|]. intros tmo T. pose proof (router_vif_fine 0) as F. apply Forall2_cons in F as [F _].
    rewrite (heard_time_eq _ _ _ F T). unfold MLD6_TIMER_SCALE. apply Z.div_le_upper_bound; [done|].
    change (uv_mld_robustness _) with 2. lia.
  - done.
Defined.
