(* ===== verification/MainLoop.v ===== *)
(** * MainLoop: the main loop of pim6sd (main.c)

    The loop sleeps until the next timer is due, a message arrives or a signal
    does, and ages the timer queue by the seconds that have passed; what is less
    than a second is kept for the next turn. *)

From stdpp Require Import base list numbers.
From S2P Require Import Prelude Callout.
Open Scope Z_scope.

(** ** The program *)

Record timeval := mkTv { tv_sec : Z; tv_usec : Z }.

(** [readings]: what the coming calls of [gettimeofday] tell; when they are used
    up the clock stands still. *)
Record loop_vars := mkLoop { lasttime : timeval; difftime : timeval; readings : list timeval; sighandled : Z }.

Definition GOT_SIGINT : Z := 0x01.
Definition GOT_SIGHUP : Z := 0x02.
Definition GOT_SIGUSR1 : Z := 0x04.
Definition GOT_SIGUSR2 : Z := 0x08.
Definition GOT_SIGALRM : Z := 0x10.
Definition GOT_SIGINFO : Z := 0x20.
Definition got_bit (h bit : Z) : bool := negb (Z.land h bit =? 0).
Inductive signo := SIGALRM | SIGINT | SIGTERM | SIGHUP | SIGUSR1 | SIGUSR2 | SIGINFO.

(** The case of [SIGALRM] falls through to the next. *)
Definition handler (sighandled : Z) (sig : signo) : Z :=
  match sig with
  | SIGALRM => Z.lor (Z.lor sighandled GOT_SIGALRM) GOT_SIGINT
  | SIGINT | SIGTERM => Z.lor sighandled GOT_SIGINT
  | SIGHUP => Z.lor sighandled GOT_SIGHUP
  | SIGUSR1 => Z.lor sighandled GOT_SIGUSR1
  | SIGUSR2 => Z.lor sighandled GOT_SIGUSR2
  | SIGINFO => Z.lor sighandled GOT_SIGINFO
  end.

(** What [select] gives: an error or a signal, a timeout, or the descriptors
    with messages. *)
Inductive selected := Failed | TimedOut | Readable (fds : list Z).

(** What happens in one turn: the signals, what [select] gives, and the clock. *)
Record turn := mkTurn { t_signals : list signo; t_select : selected; t_clock : list timeval }.

(** The loops that carry microseconds over. *)
Fixpoint carry (fuel : nat) (d : timeval) : timeval :=
  match fuel with
  | O => d
  | S fuel => if decide (tv_usec d >= 1000000) then carry fuel (mkTv (tv_sec d + 1) (tv_usec d - 1000000)) else d
  end.
Definition normalised (d : timeval) : timeval :=
  let d := carry (Z.to_nat (tv_usec d / 1000000 + 1)) d in
  if decide (tv_usec d < 0) then mkTv (tv_sec d - 1) (tv_usec d + 1000000) else d.

Section Code.
Context {F S W : Type} `{TS : TimerService F S}.
(** The functions of the timers, of the signals and of the descriptors. *)
Context (invoke : F -> Z -> Cmd (S * W) unit) (restart dump_stat fdump reset_debug timer cleanup : Cmd (S * W) unit)
        (ihandlers : list (Z * Cmd (S * W) unit)).

(** The do-while loop; [n] and [secs] as in the source.  Differences of times
    are [long]s, the clock itself is taken not to wrap. *)
Fixpoint age_loop (fuel : nat) (n secs : Z) (lv : loop_vars) : Cmd (S * W) (Z * loop_vars) :=
  match fuel with
  | O => halt OutOfFuel
  | Datatypes.S fuel =>
      let last := lasttime lv in
      let '(curtime, rest, n) :=
        if n =? 0 then (mkTv (tv_sec last + secs) (tv_usec last), readings lv, -1)
        else match readings lv with [] => (last, [], n) | t :: ts => (t, ts, n) end in
      let d := normalised (mkTv (s32 (tv_sec curtime - tv_sec last)) (s32 (tv_usec (difftime lv) + (tv_usec curtime - tv_usec last)))) in
      let lv := mkLoop curtime d rest (sighandled lv) in
      do! (if (secs =? 0) || (0 <? tv_sec d) then t_age invoke (tv_sec d) else ret tt) ;;
      if 0 <? tv_sec d then age_loop fuel n (-1) lv else ret (n, lv)
  end.

(** The functions of the signals that came; the daemon ends on some. *)
Definition signalled (lv : loop_vars) : Cmd (S * W) loop_vars :=
  let h := sighandled lv in
  if got_bit h GOT_SIGINT then do! cleanup ;; exit 0 else
  let serve (bit : Z) (f : Cmd (S * W) unit) (h : Z) : Cmd (S * W) Z :=
    if got_bit h bit then do! f ;; ret (Z.ldiff h bit) else ret h in
  let! h := serve GOT_SIGHUP restart h in
  let! h := serve GOT_SIGINFO dump_stat h in
  let! h := serve GOT_SIGUSR1 fdump h in
  let! h := serve GOT_SIGUSR2 reset_debug h in
  let! h := serve GOT_SIGALRM timer h in
  ret (mkLoop (lasttime lv) (difftime lv) (readings lv) h).

Fixpoint serve_fds (fds : list Z) (hs : list (Z * Cmd (S * W) unit)) : Cmd (S * W) unit :=
  match hs with
  | [] => ret tt
  | (fd, func) :: hs => do! (if bool_decide (fd ∈ fds) then func else ret tt) ;; serve_fds fds hs
  end.

Definition main_turn (t : turn) (lv : loop_vars) : Cmd (S * W) loop_vars :=
  let! secs := t_next in
  let! lv := signalled (mkLoop (lasttime lv) (difftime lv) (t_clock t) (foldl handler (sighandled lv) (t_signals t))) in
  match t_select t with
  | Failed => ret lv
  | TimedOut =>
      let! r := age_loop (length (t_clock t) + 3) 0 secs lv in ret r.2
  | Readable fds =>
      let! r := age_loop (length (t_clock t) + 3) (zlen fds) secs lv in
      do! (if 0 <? r.1 then serve_fds fds ihandlers else ret tt) ;;
      ret r.2
  end.

End Code.

(** ** Time *)

Definition us (t : timeval) : Z := tv_sec t * 1000000 + tv_usec t.
Definition tv_ok (t : timeval) : Prop := 0 <= tv_usec t < 1000000.

Lemma carry_ok fuel d : 0 <= tv_usec d < Z.of_nat fuel * 1000000 -> us (carry fuel d) = us d /\ tv_ok (carry fuel d).
Proof.
  revert d. induction fuel as [|fuel IH]; intros d H; [lia|]. cbn [carry]. case_decide as D; [|split; [done|unfold tv_ok; lia]].
  destruct (IH (mkTv (tv_sec d + 1) (tv_usec d - 1000000))) as [E O]; [cbn; lia|]. split; [|done]. rewrite E. unfold us. cbn. lia.
Qed.

Lemma normalised_ok d : -1000000 <= tv_usec d -> us (normalised d) = us d /\ tv_ok (normalised d).
Proof.
  intros H. unfold normalised. destruct (Z.lt_ge_cases (tv_usec d) 0) as [L|L].
  - assert (E : carry (Z.to_nat (tv_usec d / 1000000 + 1)) d = d).
    { destruct (Z.to_nat _); [done|]. cbn. by rewrite decide_False by lia. }
    rewrite E, decide_True by done. unfold us, tv_ok. cbn. lia.
  - destruct (carry_ok (Z.to_nat (tv_usec d / 1000000 + 1)) d) as [E O].
    { rewrite Z2Nat.id; [|pose proof (Z.div_pos (tv_usec d) 1000000); lia]. pose proof (Z.mod_pos_bound (tv_usec d) 1000000).
      pose proof (Z.div_mod (tv_usec d) 1000000). lia. }
    cbv zeta. unfold tv_ok in O. rewrite decide_False by lia. done.
Qed.

(** The clock goes forward from [t] on, and not beyond [limit]. *)
Fixpoint rising (limit : Z) (t : timeval) (ts : list timeval) : Prop :=
  match ts with
  | [] => True
  | t' :: ts => tv_ok t' /\ us t <= us t' < limit /\ rising limit t' ts
  end.

(** ** Timers fire on time *)

Section Proofs.
Context {F S W : Type} `{TL : TimerLaws F S}.
Context (invoke : F -> Z -> Cmd (S * W) unit) (restart dump_stat fdump reset_debug timer cleanup : Cmd (S * W) unit)
        (ihandlers : list (Z * Cmd (S * W) unit)).
Implicit Types (s : S) (w : W) (a : Agenda F) (lv : loop_vars).

(** No timer is overdue. *)
Definition fresh a : Prop := Forall (fun t => now a <= time t) (timers a).

(** A function that sets and clears timers: it does not fail, it takes no time
    of the queue, and no timer it sets is overdue. *)
Definition tame (c : Cmd (S * W) unit) : Prop :=
  forall s a w, t_view s a -> fresh a ->
    wp c (fun _ st => exists a', t_view st.1 a' /\ now a' = now a /\ fresh a') (fun _ _ => True) (s, w).

Hypothesis tame_invoke : forall f d, tame (invoke f d).
Hypothesis tame_signals : Forall tame [restart; dump_stat; fdump; reset_debug; timer; cleanup].
Hypothesis tame_handlers : Forall (fun h => tame h.2) ihandlers.

(** The queue is at the whole seconds since [start], the rest is kept in
    [difftime]. *)
Definition on_time (start : Z) s lv : Prop := exists a, t_view s a /\ fresh a /\ 0 <= now a /\
  us (lasttime lv) = start + now a * 1000000 + tv_usec (difftime lv) /\ tv_ok (difftime lv) /\ tv_ok (lasttime lv).

Lemma tame_run l : tame (run_expired invoke l).
Proof using tame_invoke.
  induction l as [|t l IH]; intros s a w V Fr; cbn [run_expired]; [apply wp_ret; eauto|].
  apply wp_bind. eapply (wp_mono _ _ _ (fun _ _ => True)).
  - instantiate (1 := fun _ st => exists a', t_view st.1 a' /\ now a' = now a /\ fresh a').
    destruct (func t); [by apply tame_invoke|apply wp_ret; eauto].
  - cbn. intros _ [s' w'] (a' & V' & E & Fr'). eapply wp_mono; [by apply IH| |done]. cbn. intros _ st (a'' & V'' & E' & Fr'').
    exists a''. split; [done|]. split; [congruence|done].
  - done.
Qed.

(** The queue is aged by what has passed. *)
Lemma age_ok s a w e : t_view s a -> 0 <= e < 2 ^ 31 ->
  wp (t_age invoke e) (fun _ st => exists a', t_view st.1 a' /\ now a' = now a + e /\ fresh a') (fun _ _ => True) (s, w).
Proof using tame_invoke.
  intros V He. destruct (view_age s a w invoke e V He) as (s' & l & E & V' & _). unfold wp. rewrite E.
  assert (Fr : fresh (aged e a)).
  { unfold fresh, aged. cbn. induction (timers a) as [|t ts IH]; [constructor|]. cbn. destruct (Z.ltb_spec (now a + e) (time t)); [|done].
    constructor; [lia|done]. }
  exact (tame_run l s' (aged e a) w V' Fr).
Qed.

(** The limit of the clock: an [int] holds the seconds since [start]. *)
Definition limit (start : Z) : Z := start + (2 ^ 31 - 1) * 1000000.

Lemma age_loop_ok (fuel : nat) (n secs start : Z) s w lv : on_time start s lv -> us (lasttime lv) < limit start ->
  (n = 0 -> 0 <= secs /\ us (lasttime lv) + secs * 1000000 < limit start /\
     rising (limit start) (mkTv (tv_sec (lasttime lv) + secs) (tv_usec (lasttime lv))) (readings lv)) ->
  (n <> 0 -> rising (limit start) (lasttime lv) (readings lv)) ->
  (length (readings lv) + (if (n =? 0)%Z then 3 else 2) <= fuel)%nat ->
  wp (age_loop invoke fuel n secs lv) (fun r st => on_time start st.1 r.2 /\ us (lasttime r.2) < limit start /\ sighandled r.2 = sighandled lv /\
    us (lasttime lv) <= us (lasttime r.2)) (fun _ _ => True) (s, w).
Proof using tame_invoke.
  revert n secs s w lv. induction fuel as [|fuel IH]; intros n secs s w lv (a & V & Fr & H0 & Et & [D0 D1] & [L0 L1]) Hl Hz Hn Hf; [destruct (n =? 0); lia|].
  cbn [age_loop]. unfold limit in *.
  (* one step of the loop: the clock, and what is left of it *)
  assert (Step : exists cur rest n', (if n =? 0 then (mkTv (tv_sec (lasttime lv) + secs) (tv_usec (lasttime lv)), readings lv, -1)
      else match readings lv with [] => (lasttime lv, [], n) | t :: ts => (t, ts, n) end) = (cur, rest, n') /\ n' <> 0 /\ tv_ok cur /\
      us (lasttime lv) <= us cur < start + (2 ^ 31 - 1) * 1000000 /\ rising (limit start) cur rest /\
      ((length rest + 2 <= fuel)%nat \/ cur = lasttime lv)).
  { destruct (Z.eqb_spec n 0) as [->|N].
    - destruct (Hz eq_refl) as (S0 & S1 & R). do 3 eexists. split; [reflexivity|]. split; [done|]. split; [done|]. unfold us in *. cbn. split; [lia|].
      split; [exact R|]. left. lia.
    - specialize (Hn N). destruct (readings lv) as [|t ts].
      + do 3 eexists. split; [reflexivity|]. split; [done|]. split; [done|]. split; [lia|]. split; [done|by right].
      + destruct Hn as (T & U & R). do 3 eexists. split; [reflexivity|]. split; [done|]. split; [done|]. split; [done|]. split; [done|].
        left. cbn in Hf. lia. }
  destruct Step as (cur & rest & n' & -> & Hn' & [C0 C1] & [C2 C3] & R & Hrest).
  assert (P32 : 2 ^ 31 = 2147483648) by done.
  assert (Ed : s32 (tv_sec cur - tv_sec (lasttime lv)) = tv_sec cur - tv_sec (lasttime lv)).
  { apply s32_small. unfold us in *. lia. }
  assert (Eu : s32 (tv_usec (difftime lv) + (tv_usec cur - tv_usec (lasttime lv))) = tv_usec (difftime lv) + (tv_usec cur - tv_usec (lasttime lv))).
  { apply s32_small. lia. }
  rewrite Ed, Eu. set (d0 := mkTv (tv_sec cur - tv_sec (lasttime lv)) (tv_usec (difftime lv) + (tv_usec cur - tv_usec (lasttime lv)))).
  destruct (normalised_ok d0) as [Ud Td]; [cbn; lia|]. set (d := normalised d0) in *.
  assert (Ud' : us d = us cur - us (lasttime lv) + tv_usec (difftime lv)) by (rewrite Ud; unfold us; cbn; lia).
  destruct Td as [Td0 Td1]. clearbody d. rewrite P32 in *.
  assert (Hd : 0 <= tv_sec d < 2147483648) by (unfold us in Ud', C2, C3, Hl, Et; lia).
  (* the queue is aged by it *)
  apply wp_bind. eapply (wp_mono _ (fun _ st => exists a', t_view st.1 a' /\ now a' = now a + tv_sec d /\ fresh a')).
  { destruct ((secs =? 0) || (0 <? tv_sec d)) eqn:B; [by apply age_ok; rewrite ?P32|]. apply wp_ret. exists a. split; [done|]. split; [|done].
    apply orb_false_iff in B as [_ B]. apply Z.ltb_ge in B. lia. }
  2: done.
  cbn. intros _ [s1 w1] (a1 & V1 & N1 & F1). cbn in V1.
  assert (O : on_time start s1 (mkLoop cur d rest (sighandled lv))).
  { exists a1. split; [done|]. split; [done|]. split; [lia|]. cbn. split; [|split; done]. rewrite N1. unfold us in *. lia. }
  destruct (Z.ltb_spec 0 (tv_sec d)) as [B|B].
  - eapply wp_mono; [apply IH; [exact O|cbn; unfold limit; lia|done|intros _; exact R|cbn [readings]] | |done].
    + rewrite (proj2 (Z.eqb_neq _ _) Hn'). destruct Hrest as [?|E]; [done|]. subst cur. unfold us in *. lia.
    + cbn. intros r st (O' & L' & Sg & Le). split; [done|]. split; [done|]. split; [done|]. lia.
  - apply wp_ret. cbn. split; [exact O|]. split; [lia|]. split; [done|lia].
Qed.

(** What a tame function leaves: the same time, and no timer overdue. *)
Definition kept a (st : S * W) : Prop := exists a', t_view st.1 a' /\ now a' = now a /\ fresh a'.

Lemma tame_if (b : bool) (c : Cmd (S * W) unit) : tame c -> tame (if b then c else ret tt).
Proof. intros T s a w V Fr. destruct b; [by apply T|apply wp_ret; by exists a]. Qed.

Lemma tame_bind {A} (c : Cmd (S * W) unit) (k : Cmd (S * W) A) Q s a w : tame c -> t_view s a -> fresh a ->
  (forall s' a' w', t_view s' a' -> now a' = now a -> fresh a' -> wp k Q (fun _ _ => True) (s', w')) ->
  wp (do! c ;; k) Q (fun _ _ => True) (s, w).
Proof.
  intros T V Fr K. apply wp_bind. eapply wp_mono; [by apply T| |done]. cbn. intros _ [s' w'] (a' & V' & N' & F'). by eapply K.
Qed.

Lemma serve_fds_ok fds hs s a w : Forall (fun h => tame h.2) hs -> t_view s a -> fresh a ->
  wp (serve_fds fds hs) (fun _ => kept a) (fun _ _ => True) (s, w).
Proof.
  intros H. revert s a w. induction H as [|[fd f] hs T _ IH]; intros s a w V Fr; cbn [serve_fds]; [apply wp_ret; by exists a|].
  eapply tame_bind; [by apply tame_if|done|done|]. intros s' a' w' V' N' F'. eapply wp_mono; [by apply IH| |done].
  cbn. intros _ st (a2 & V2 & N2 & F2). exists a2. split; [done|]. split; [congruence|done].
Qed.

Lemma signalled_ok lv s a w : t_view s a -> fresh a ->
  wp (signalled restart dump_stat fdump reset_debug timer cleanup lv)
     (fun lv' st => kept a st /\ lasttime lv' = lasttime lv /\ difftime lv' = difftime lv /\ readings lv' = readings lv)
     (fun _ _ => True) (s, w).
Proof using tame_signals.
  intros V Fr. unfold signalled. pose proof tame_signals as T. clear tame_signals. repeat match goal with T : Forall tame (_ :: _) |- _ => apply Forall_cons_1 in T as [? T] end.
  destruct (got_bit _ GOT_SIGINT); [by eapply tame_bind|].
  assert (Serve : forall (bit h : Z) (f : Cmd (S * W) unit) B (k : Z -> Cmd (S * W) B) Q s a w, tame f -> t_view s a -> fresh a ->
    (forall h' s' a' w', t_view s' a' -> now a' = now a -> fresh a' -> wp (k h') Q (fun _ _ => True) (s', w')) ->
    wp (bind (if got_bit h bit then do! f ;; ret (Z.ldiff h bit) else ret h) k) Q (fun _ _ => True) (s, w)).
  { intros bit h f B k R s' a' w' Tf V' F' K. destruct (got_bit h bit).
    - apply wp_bind. eapply tame_bind; [done..|]. intros s2 a2 w2 V2 N2 F2. apply wp_ret. by eapply K.
    - apply wp_bind, wp_ret. by apply (K h s' a' w'). }
  do 5 (eapply Serve; [done..|]; intros ? ? ? ? ? ? ?).
  apply wp_ret. split; [|done]. eexists. split; [eassumption|]. split; [congruence|done].
Qed.

(** Setting a timer is tame. *)
Lemma schedule_fresh b (t : timeout_q F) l : Forall (fun t => b <= time t) l -> b <= time t -> Forall (fun t => b <= time t) (schedule t l).
Proof.
  intros H Ht. induction H as [|u l Hu Hl IH]; cbn; [by apply Forall_singleton|].
  case_decide; [constructor; [done|by constructor]|by constructor].
Qed.

Lemma tame_set d f x : 0 <= d < 2 ^ 31 -> tame (let! _ := t_set d f x in ret tt).
Proof using TL.
  intros Hd s a w V Fr. destruct (view_set s a d f x V Hd) as (i & s' & a' & V' & E). destruct (E W w) as [E1 E2].
  apply wp_bind. unfold wp at 1. rewrite E1. cbn. exists a'. split; [done|]. unfold spec_set, agenda, put, bind, ret in E2. cbn in E2.
  destruct (a_mallocs a) as [|[]]; injection E2 as <- <-; (split; [done|]); cbn; try done; apply schedule_fresh; (done || cbn; lia).
Qed.

(** What the kernel tells in a turn that sleeps at most [secs] seconds:
    [select] does not time out when there is no timer, and the clock goes
    forward from the last reading, or from where the timeout has brought it. *)
Definition turn_ok (start secs : Z) lv (t : turn) : Prop :=
  match t_select t with
  | Failed => True
  | TimedOut => 0 <= secs /\ us (lasttime lv) + secs * 1000000 < limit start /\
      rising (limit start) (mkTv (tv_sec (lasttime lv) + secs) (tv_usec (lasttime lv))) (t_clock t)
  | Readable fds => fds <> [] /\ rising (limit start) (lasttime lv) (t_clock t)
  end.

Abbreviation main_turn := (main_turn invoke restart dump_stat fdump reset_debug timer cleanup ihandlers).

Lemma main_turn_ok start secs t s w lv : on_time start s lv -> us (lasttime lv) < limit start -> t_next (s, w) = Ok secs (s, w) ->
  turn_ok start secs lv t ->
  wp (main_turn t lv) (fun lv' st => on_time start st.1 lv' /\ us (lasttime lv') < limit start /\ us (lasttime lv) <= us (lasttime lv'))
     (fun _ _ => True) (s, w).
Proof using tame_invoke tame_signals tame_handlers.
  intros (a & V & Fr & H0 & Et & D & L) Hl Nx T. unfold MainLoop.main_turn. apply wp_bind. unfold wp at 1. rewrite Nx. cbn beta iota.
  apply wp_bind. eapply wp_mono; [by apply signalled_ok| |done]. cbn. intros lv1 [s1 w1] ((a1 & V1 & N1 & F1) & E1 & E2 & E3).
  assert (O : on_time start s1 lv1) by (exists a1; rewrite E1, E2, N1; done). unfold turn_ok in T.
  rewrite <- E1 in *. rewrite <- E3 in T.
  destruct (t_select t) as [| |fds].
  - apply wp_ret. done.
  - apply wp_bind. eapply wp_mono; [eapply age_loop_ok; [exact O|done|intros _; exact T|done|cbn; rewrite E3; lia]| |done].
    cbn. intros r st (O' & L' & _ & Le). by apply wp_ret.
  - destruct T as [Ne T]. assert (Z0 : zlen fds <> 0) by (destruct fds; [done|unfold zlen; cbn; lia]).
    apply wp_bind. eapply wp_mono; [eapply age_loop_ok; [exact O|done|done|intros _; exact T|]| |done].
    { rewrite (proj2 (Z.eqb_neq _ _) Z0), E3. lia. }
    cbn. intros [n' lv2] [s2 w2] ((a2 & V2 & F2 & R2) & L' & _ & Le). apply wp_bind. cbn [fst snd] in *.
    eapply (wp_mono _ (fun _ => kept a2) _ (fun _ _ => True)); [| |done].
    { destruct (0 <? n'); [by apply serve_fds_ok|]. apply wp_ret. by exists a2. }
    cbn. intros _ [s3 w3] (a3 & V3 & N3 & F3). split; [|done]. exists a3. rewrite N3. done.
Qed.

(** The turns of the main loop, one after the other. *)
Inductive turns (start : Z) : S * W -> loop_vars -> S * W -> loop_vars -> Prop :=
| turns_none c lv : turns start c lv c lv
| turns_one c lv c1 lv1 c2 lv2 secs t :
    turns start c lv c1 lv1 -> t_next c1 = Ok secs c1 -> turn_ok start secs lv1 t -> main_turn t lv1 c1 = Ok lv2 c2 ->
    turns start c lv c2 lv2.

End Proofs.

(** A timer of five seconds, a message after two and a half, the timeout, and a
    message whose handler takes more than a second: the timer fires again. *)
Definition set_again : nat -> Z -> Cmd (Callouts nat * unit) unit := fun f x => let! _ := t_set 5 (Some f) x in ret tt.

Local Ltac told := unfold turn_ok, limit, us, tv_ok; cbn -[Z.pow]; split_and!; (done || lia).

