(* ===== verification/PimVif.v ===== *)
(** * PimVif: the interfaces of pim6sd come and go (vif.c, config.c, timer.c)

    The interfaces are those the configuration names and those the kernel has
    addresses for, and one more, the register interface, that carries the
    packets for the RPs.  An interface that goes down is stopped, one that comes
    up again is started. *)

From stdpp Require Import base list numbers gmap.
From S2P Require Import Prelude Callout Inet6 Pim Vif PimMsg PimJp PimBsr PimNbr PimTimer Mld MldProto.
Open Scope Z_scope.

Definition VIFF_REXMIT_PRUNES : Z := 0x004000.
Definition VIFF_ENABLED : Z := 0x1000000.
Definition MAXMIFS : Z := NO_VIF.
Definition IFF_UP : Z := 0x1.
Definition IFF_LOOPBACK : Z := 0x8.
Definition IFF_POINTOPOINT : Z := 0x10.
Definition IFF_MULTICAST : Z := 0x8000.
Definition allrouters_group : list Z := [0xff; 0x02] ++ replicate 13 0 ++ [0x02].
Definition allmldv2routers_group : list Z := [0xff; 0x02] ++ replicate 13 0 ++ [0x16].

(** ** The state *)

(** What the daemon asks of the kernel about an interface. *)
Inductive mif_call :=
| MRT6_INIT_call
| MRT6_PIM_call
| MRT6_ADD_MIF_call (mifi flags pifi : Z)
| MRT6_DEL_MIF_call (mifi : Z)
| IPV6_JOIN_GROUP_call (group : list Z) (ifindex : Z)
| IPV6_LEAVE_GROUP_call (group : list Z) (ifindex : Z).

(** The rest of the daemon with its timers, the two variables of vif.c, and
    what the kernel was asked. *)
Record Ifs {S : Type} := mkIfs { daemon : S * Mld; vifs_down : bool; phys_vif : Z; mif_calls : list mif_call }.
Arguments Ifs : clear implicits.
Arguments mkIfs {S}.

(** An address that [getifaddrs] tells: is it one of IPv6, the number of the
    interface with its name (0: there is none), and the answer to
    SIOCGIFAFLAG_IN6: is it an anycast address? *)
Record ifaddr := mkIfa {
  ifa_inet6 : bool;
  ifa_ifindex : Z;
  ifa_addr : sockaddr_in6;
  ifa_netmask : list Z;
  ifa_dstaddr : option sockaddr_in6;
  ifa_flags : Z;
  ifa_anycast : option bool
}.

Definition set_uv_addrs (v : list phaddr) (v0 : uvif) : uvif :=
  mkVif (uv_flags v0) (uv_ifindex v0) (uv_siteid v0) v (uv_local_pref v0) (uv_local_metric v0) (uv_pim_neighbors v0)
    (uv_linklocal v0) (uv_pim_hello_timer v0) (uv_gq_timer v0) (uv_jp_timer v0).
Definition set_uv_linklocal (v : option phaddr) (v0 : uvif) : uvif :=
  mkVif (uv_flags v0) (uv_ifindex v0) (uv_siteid v0) (uv_addrs v0) (uv_local_pref v0) (uv_local_metric v0)
    (uv_pim_neighbors v0) v (uv_pim_hello_timer v0) (uv_gq_timer v0) (uv_jp_timer v0).
Definition set_uv_ifindex (v : Z) (v0 : uvif) : uvif :=
  mkVif (uv_flags v0) v (uv_siteid v0) (uv_addrs v0) (uv_local_pref v0) (uv_local_metric v0)
    (uv_pim_neighbors v0) (uv_linklocal v0) (uv_pim_hello_timer v0) (uv_gq_timer v0) (uv_jp_timer v0).
Definition set_total_interfaces (v : Z) (s : Pim) : Pim :=
  mkPim (srcs s) (crps s) (gmasks s) (rpgs s) (grps s) (mrts s) (caches s) (brk s) (mallocs s) (srclist s) (grplist s)
    (cand_rp_list s) (grp_mask_list s) (kcalls s) (uvifs s) v (reg_vif_num s) (ssmprefix s) (ssmmask s) (rpf s) (vars s).
Definition set_reg_vif_num (v : Z) (s : Pim) : Pim :=
  mkPim (srcs s) (crps s) (gmasks s) (rpgs s) (grps s) (mrts s) (caches s) (brk s) (mallocs s) (srclist s) (grplist s)
    (cand_rp_list s) (grp_mask_list s) (kcalls s) (uvifs s) (total_interfaces s) v (ssmprefix s) (ssmmask s) (rpf s) (vars s).

(** Flags of a list of flags, and the flags off. *)
Definition flags_on (l : Z) (v : uvif) : uvif := set_uv_flags (Z.lor (uv_flags v) l) v.
Definition flags_off (l : Z) (v : uvif) : uvif := set_uv_flags (Z.ldiff (uv_flags v) l) v.

Section Code.
Context {S : Type} `{TS : TimerService mld_timer S}.
(** How the program is compiled (the two names of the report of the version 2);
    what new memory holds; whether the kernel does what it is asked; and the
    configuration: what the kernel prefers of the routes, and whether
    interfaces it does not name are used. *)
Context (MLDV2_LISTENER_REPORT MLD6V2_LISTENER_REPORT : bool) (junk : listaddr) (kernel : mif_call -> bool)
        (default_source_preference default_source_metric default_vif_status : Z).
Abbreviation IO := (Cmd (Ifs S)).

(** ** The parts of the state *)

Definition ifs : IO (Ifs S) := fun s => Ok s s.
Definition on_daemon {A} (m : Cmd (S * Mld) A) : IO A := fun s =>
  match m (daemon s) with
  | Ok a d => Ok a (mkIfs d (vifs_down s) (phys_vif s) (mif_calls s))
  | Exit c d => Exit c (mkIfs d (vifs_down s) (phys_vif s) (mif_calls s))
  | Stop w d => Stop w (mkIfs d (vifs_down s) (phys_vif s) (mif_calls s))
  end.
Definition router {A} (m : Cmd Pim A) : IO A := on_daemon (routing m).
Definition set_vifs_down (b : bool) : IO unit := fun s => Ok tt (mkIfs (daemon s) b (phys_vif s) (mif_calls s)).
Definition set_phys_vif (i : Z) : IO unit := fun s => Ok tt (mkIfs (daemon s) (vifs_down s) i (mif_calls s)).

(** [setsockopt]; the daemon ends when the kernel refuses what is [needed]. *)
Definition setsockopt (needed : bool) (c : mif_call) : IO unit := fun s =>
  let s := mkIfs (daemon s) (vifs_down s) (phys_vif s) (mif_calls s ++ [c]) in
  if kernel c || negb needed then Ok tt s else Exit (-1) s.

Definition vif_table : IO (list uvif) := let! s := ifs in ret (uvifs (pim (daemon s).2)).
Definition numvifs : IO Z := let! t := vif_table in ret (zlen t).

Fixpoint each {A} (f : A -> IO unit) (l : list A) : IO unit :=
  match l with
  | [] => ret tt
  | x :: l => do! f x ;; each f l
  end.
Definition each_vif (f : Z -> uvif -> IO unit) : IO unit :=
  let! n := numvifs in
  each (fun vifi => let! v := router (vif vifi) in f vifi v) (seqZ 0 n).

(** ** Kernel calls (kern.c) *)

Definition k_init_pim : IO unit := do! setsockopt true MRT6_INIT_call ;; setsockopt true MRT6_PIM_call.
Definition k_add_vif (vifi : Z) (v : uvif) : IO unit := setsockopt true (MRT6_ADD_MIF_call vifi (uv_flags v) (uv_ifindex v)).
Definition k_del_vif (vifi : Z) : IO unit := setsockopt true (MRT6_DEL_MIF_call vifi).
Definition k_join (grp : list Z) (ifindex : Z) : IO unit := setsockopt false (IPV6_JOIN_GROUP_call grp ifindex).
Definition k_leave (grp : list Z) (ifindex : Z) : IO unit := setsockopt false (IPV6_LEAVE_GROUP_call grp ifindex).

(** ** Addresses (config.c) *)

Definition masked (a mask : list Z) : list Z := zip_with Z.land a mask.

Definition new_phaddr (addr : sockaddr_in6) (mask : list Z) (rmt : option sockaddr_in6) : phaddr :=
  mkPhaddr addr (default (mkSa 0 in6addr_any) rmt) (mkSa (sin6_scope_id addr) (masked (sin6_addr addr) mask)) mask.

Definition with_phaddr (pa : phaddr) (v : uvif) : uvif :=
  let v := if IN6_IS_ADDR_LINKLOCAL (sin6_addr (pa_addr pa)) then set_uv_linklocal (Some pa) v else v in
  set_uv_addrs (pa :: uv_addrs v) v.

Definition add_phaddr (vifi : Z) (addr : sockaddr_in6) (mask : list Z) (rmt : option sockaddr_in6) : IO unit :=
  let! ok := on_daemon next_malloc_ok in
  if negb ok then exit (-1) else
  router (upd_vif vifi (with_phaddr (new_phaddr addr mask rmt))).

(** ** Starting *)

Definition start_querier (vifi : Z) : IO unit :=
  let! v := router (vif vifi) in
  let! mv := on_daemon (mvif vifi) in
  do! (match uv_querier mv with
       | Some _ => ret tt
       | None => let! ok := on_daemon next_malloc_ok in
                 if negb ok then halt OutOfBounds else on_daemon (upd_mvif vifi (set_uv_querier (Some (mkQuerier (mkSa 0 in6addr_any) 0))))
       end) ;;
  let! src := router (linklocal v) in
  do! on_daemon (upd_querier vifi (fun q => set_qr_timer (MLD6_OTHER_QUERIER_PRESENT_INTERVAL mv) (set_qr_addr src q))) ;;
  on_daemon (upd_mvif vifi (set_uv_stquery_cnt (u16 (uv_mld_robustness mv)))).

Definition start_vif (vifi : Z) : IO unit :=
  let! v := router (vif vifi) in
  let reg := has (uv_flags v) MIFF_REGISTER in
  do! (if reg then router (upd_vif vifi (flags_off VIFF_DOWN)) else
       do! router (upd_vif vifi (fun v => flags_off VIFF_DOWN (flags_on (Z.lor VIFF_DR VIFF_NONBRS) v))) ;;
       let! s := ifs in
       let w := vars (pim (daemon s).2) in
       if (pim_hello_period w =? 0) || (pim_join_prune_period w =? 0) then halt OutOfBounds else
       let! r := router RANDOM in
       do! router (upd_vif vifi (set_uv_pim_hello_timer (u16 (1 + r mod pim_hello_period w)))) ;;
       let! r := router RANDOM in
       router (upd_vif vifi (set_uv_jp_timer (u16 (1 + r mod pim_join_prune_period w))))) ;;
  let! v := router (vif vifi) in
  do! k_add_vif vifi v ;;
  if reg then ret tt else
  let! mv := on_daemon (mvif vifi) in
  let v2 := negb (Z.land (uv_mld_version mv) MLDv2 =? 0) in
  do! k_join (sin6_addr allpim6routers_group) (uv_ifindex v) ;;
  do! k_join allrouters_group (uv_ifindex v) ;;
  do! (if v2 then k_join allmldv2routers_group (uv_ifindex v) else ret tt) ;;
  do! router (upd_vif vifi (flags_on VIFF_QUERIER)) ;;
  do! start_querier vifi ;;
  do! on_daemon (if MLD6V2_LISTENER_REPORT && v2 then query_groupsV2 (tmo_junk junk) vifi
            else if negb (Z.land (uv_mld_version mv) MLDv1 =? 0) then query_groups vifi else ret tt) ;;
  let! s := ifs in
  router (send_pim6_hello vifi (u16 (pim_hello_holdtime (vars (pim (daemon s).2))))).

(** First those that are no register interfaces, then those that are. *)
Definition start_all_vifs : IO unit :=
  each (fun action : bool =>
    each_vif (fun vifi v =>
      if xorb (has (uv_flags v) MIFF_REGISTER) action || has (uv_flags v) (Z.lor VIFF_DISABLED VIFF_DOWN) then ret tt
      else start_vif vifi)) [false; true].

(** ** Stopping *)

(** The sources of a group are freed with their timers running. *)
Fixpoint free_sources (fuel : nat) (s : ptr) : Cmd (S * Mld) unit :=
  match fuel with
  | O => halt OutOfFuel
  | Datatypes.S fuel =>
      match s with
      | None => ret tt
      | Some _ => let! l := la s in do! free_la s ;; free_sources fuel (al_next l)
      end
  end.

Fixpoint free_groups (fuel : nat) (a : ptr) : Cmd (S * Mld) unit :=
  match fuel with
  | O => halt OutOfFuel
  | Datatypes.S fuel =>
      match a with
      | None => ret tt
      | Some _ =>
          let! l := la a in
          do! (if al_query l =? 0 then ret tt else t_clear (F := mld_timer) (al_query l)) ;;
          do! (if al_timerid l =? 0 then ret tt else t_clear (F := mld_timer) (al_timerid l)) ;;
          let! m := mld in
          do! free_sources (la_fuel m) (al_sources l) ;;
          do! free_la a ;;
          free_groups fuel (al_next l)
      end
  end.

Definition discard_groups (vifi : Z) : Cmd (S * Mld) unit :=
  let! m := mld in
  let! mv := mvif vifi in
  do! free_groups (la_fuel m) (uv_groups mv) ;;
  upd_mvif vifi (set_uv_groups None).

Definition stop_vif (vifi : Z) : IO unit :=
  let! v := router (vif vifi) in
  let! mv := on_daemon (mvif vifi) in
  let reg := has (uv_flags v) MIFF_REGISTER in
  do! (if reg then ret tt else
       do! k_leave (sin6_addr allpim6routers_group) (uv_ifindex v) ;;
       do! k_leave allrouters_group (uv_ifindex v) ;;
       do! (if Z.land (uv_mld_version mv) MLDv2 =? 0 then ret tt else k_leave allmldv2routers_group (uv_ifindex v)) ;;
       on_daemon (discard_groups vifi)) ;;
  do! k_del_vif vifi ;;
  do! router (upd_vif vifi (fun v => flags_on VIFF_DOWN (flags_off (Z.lor VIFF_DR (Z.lor VIFF_QUERIER VIFF_NONBRS)) v))) ;;
  do! (if reg then ret tt else
       do! router (upd_vif vifi (fun v => set_uv_pim_hello_timer 0 (set_uv_jp_timer 0 (set_uv_gq_timer 0 v)))) ;;
       do! each (fun n => router (delete_pim6_nbr (Some (nbr_id n)))) (uv_pim_neighbors v) ;;
       router (upd_vif vifi (set_uv_pim_neighbors []))) ;;
  do! on_daemon (upd_mvif vifi (set_uv_querier None)) ;;
  do! router (upd_vif vifi (fun v => set_uv_linklocal None (set_uv_addrs [] v))) ;;
  set_vifs_down true.

Definition stop_all_vifs : IO unit :=
  each_vif (fun vifi v => if has (uv_flags v) (Z.lor VIFF_DOWN VIFF_DISABLED) then ret tt else stop_vif vifi).

(** ** The register interface *)

(** The first interface in use. *)
Definition first_usable (t : list uvif) : option (Z * uvif) :=
  List.find (fun '(_, v) => negb (silent v)) (with_index t).

(** An interface added to the table. *)
Definition install (v : uvif) (mv : mld_vif) : IO unit :=
  on_daemon (upd_mld (fun m => set_mvifs (mvifs m ++ [mv]) (set_pim (set_uvifs (uvifs (pim m) ++ [v]) (pim m)) m))).

(** What [init_vifs] puts into the table. *)
Definition blank_vif : uvif := mkVif 0 0 0 [] default_source_preference default_source_metric [] None 0 0 0.
Definition blank_mvif : mld_vif := mkMvif None None 0 MLDv1 2 125 10000 1000.

(** An interface that is not in the table yet is not changed when the daemon
    does not install it. *)
Definition init_reg_vif : IO unit :=
  let! t := vif_table in
  if zlen t + 1 =? MAXMIFS then exit (-1) else
  do! router (modify (set_reg_vif_num (zlen t))) ;;
  match first_usable t with
  | None => exit (-1)
  | Some (i, u) =>
      let! l := router (of_option (uv_linklocal u)) in
      do! install (set_uv_ifindex (uv_ifindex u) (set_uv_flags MIFF_REGISTER blank_vif)) blank_mvif ;;
      do! add_phaddr (zlen t) (pa_addr l) (pa_subnetmask l) (Some (pa_prefix l)) ;;
      router (modify (fun p => set_total_interfaces (s32 (total_interfaces p + 1)) p))
  end.

(** The address is added to the interface it comes from. *)
Definition update_reg_vif (register_vifi : Z) : IO unit :=
  let! t := vif_table in
  match first_usable t with
  | None => set_vifs_down true
  | Some (vifi, _) =>
      do! stop_vif register_vifi ;;
      let! v := router (vif vifi) in
      let! l := router (of_option (uv_linklocal v)) in
      do! add_phaddr vifi (pa_addr l) (pa_subnetmask l) (Some (pa_prefix l)) ;;
      start_vif register_vifi
  end.

(** ** The interfaces of the kernel (vif.c, config.c) *)

Inductive find_mode := DONT_CREATE | CREATE.

(** The table has [MAXMIFS] places; the number is not compared with it. *)
Definition find_vif (ifindex : Z) (create : find_mode) (default_policy : Z) : IO (option Z) :=
  if ifindex =? 0 then ret None else
  let! t := vif_table in
  match List.find (fun '(_, v) => ifindex =? uv_ifindex v) (with_index t) with
  | Some (vifi, _) => ret (Some vifi)
  | None =>
      match create with
      | DONT_CREATE => ret None
      | CREATE =>
          if negb (default_policy =? VIFF_ENABLED) then ret None else
          if decide (zlen t >= MAXMIFS) then halt OutOfBounds else
          do! install (set_uv_ifindex ifindex (set_uv_flags VIFF_DOWN blank_vif)) blank_mvif ;;
          ret (Some (zlen t))
      end
  end.

(** A link-local address without the index that KAME kernels keep in it. *)
Definition kame_addr (ifindex : Z) (a : sockaddr_in6) : sockaddr_in6 :=
  if IN6_IS_ADDR_LINKLOCAL (sin6_addr a) then mkSa ifindex (take 2 (sin6_addr a) ++ [0; 0] ++ drop 4 (sin6_addr a)) else a.

(** The flags that the kernel's flags of an interface mean. *)
Definition kernel_flags (flags : Z) (v : uvif) : uvif :=
  let v := if has flags IFF_POINTOPOINT then flags_on (Z.lor VIFF_REXMIT_PRUNES VIFF_POINT_TO_POINT) v else v in
  let v := if has flags IFF_LOOPBACK || negb (has flags IFF_MULTICAST) then flags_on VIFF_DISABLED v else v in
  if has flags IFF_UP then flags_off VIFF_DOWN v else flags_on VIFF_DOWN v.

Definition count_interface : IO unit := router (modify (fun p => set_total_interfaces (s32 (total_interfaces p + 1)) p)).

Definition config_ifaddr (ifa : ifaddr) : IO unit :=
  if negb (ifa_inet6 ifa) then count_interface else
  match ifa_anycast ifa with
  | None => exit (-1)
  | Some true => ret tt
  | Some false =>
      let addr := kame_addr (ifa_ifindex ifa) (ifa_addr ifa) in
      let rmt := kame_addr (ifa_ifindex ifa) <$> (if has (ifa_flags ifa) IFF_POINTOPOINT then ifa_dstaddr ifa else None) in
      let! found := find_vif (ifa_ifindex ifa) DONT_CREATE default_vif_status in
      let! vifi := match found with
                   | Some vifi => ret (Some vifi)
                   | None => do! count_interface ;; find_vif (ifa_ifindex ifa) CREATE default_vif_status
                   end in
      match vifi with
      | None => ret tt
      | Some vifi =>
          do! add_phaddr vifi addr (ifa_netmask ifa) rmt ;;
          do! router (upd_vif vifi (kernel_flags (ifa_flags ifa))) ;;
          if has (ifa_flags ifa) IFF_UP then ret tt else set_vifs_down true
      end
  end.

(** [ifap]: what [getifaddrs] tells, if it succeeds. *)
Definition config_vifs_from_kernel (ifap : option (list ifaddr)) : IO unit :=
  do! router (modify (set_total_interfaces 0)) ;;
  match ifap with
  | None => exit (-1)
  | Some l => each config_ifaddr l
  end.

(** ** Starting the daemon *)

(** The look at the interfaces after they are configured: how many are enabled;
    the first with a global address is [phys_vif]. *)
Fixpoint look_over (vs : list (Z * uvif)) (enabled_vifs : Z) : IO Z :=
  match vs with
  | [] => ret enabled_vifs
  | (vifi, v) :: vs =>
      if has (uv_flags v) (Z.lor VIFF_DISABLED MIFF_REGISTER) then look_over vs enabled_vifs else
      if has (uv_flags v) VIFF_DOWN then look_over vs (enabled_vifs + 1) else
      match uv_linklocal v with
      | None => exit (-1)
      | Some _ =>
          let! s := ifs in
          do! (if (phys_vif s =? -1) && existsb global_scope (uv_addrs v) then set_phys_vif vifi else ret tt) ;;
          look_over vs (enabled_vifs + 1)
      end
  end.

(** [cfparse]: what the configuration file says, and whether it is well-formed. *)
Definition init_vifs (cfparse : IO bool) (ifap : option (list ifaddr)) : IO unit :=
  do! router (modify (fun p => set_reg_vif_num NO_VIF (set_uvifs [] p))) ;;
  do! on_daemon (upd_mld (set_mvifs [])) ;;
  let! ok := cfparse in
  if negb ok then exit (-1) else
  do! set_phys_vif (-1) ;;
  do! config_vifs_from_kernel ifap ;;
  let! t := vif_table in
  match max_global_address t with
  | None => exit (-1)
  | Some _ =>
      let! enabled_vifs := look_over (with_index t) 0 in
      if decide (enabled_vifs < 2) then exit (-1) else
      do! k_init_pim ;;
      do! init_reg_vif ;;
      start_all_vifs
  end.

(** ** Watching the interfaces *)

(** [link]: the answers of the kernel to SIOCGIFFLAGS, by interface. *)
Definition check_vif (link : Z -> option Z) (vifi : Z) (v : uvif) : IO unit :=
  if has (uv_flags v) (Z.lor VIFF_DISABLED MIFF_REGISTER) then ret tt else
  match link (uv_ifindex v) with
  | None => exit (-1)
  | Some flags =>
      if has (uv_flags v) VIFF_DOWN then
        if has flags IFF_UP then start_vif vifi else set_vifs_down true
      else if has flags IFF_UP then ret tt
      else do! stop_vif vifi ;; set_vifs_down true
  end.

(** Is there an interface in use with the address of the register interface? *)
Fixpoint backed (v : uvif) (vs : list uvif) : option bool :=
  match vs with
  | [] => Some false
  | v2 :: vs =>
      if silent v2 then backed v vs else
      l ← uv_linklocal v; l2 ← uv_linklocal v2;
      if IN6_ARE_ADDR_EQUAL (sin6_addr (pa_addr l)) (sin6_addr (pa_addr l2)) then Some true else backed v vs
  end.

Definition check_reg_vif (vifi : Z) (v : uvif) : IO unit :=
  if negb (has (uv_flags v) MIFF_REGISTER) then ret tt else
  let! t := vif_table in
  chk! found := backed v t in
  if found : bool then ret tt else update_reg_vif vifi.

(** The code does not call it while it runs, so there is no [checking_vifs]. *)
Definition check_vif_state (link : Z -> option Z) : IO unit :=
  do! set_vifs_down false ;;
  do! each_vif (check_vif link) ;;
  each_vif check_reg_vif.

(** ** Ageing (timer.c) *)

Definition age_vifs (link : Z -> option Z) : IO unit :=
  do! check_vif_state link ;;
  each_vif (fun vifi _ =>
    do! on_daemon (age_querier MLDV2_LISTENER_REPORT junk vifi) ;;
    router (age_vif vifi)).

(** ** Questions *)

(** The greatest global address of an interface in use; [ifindex] stands for
    the name. *)
Definition local_iface (ifindex : Z) (t : list uvif) : option sockaddr_in6 :=
  List.nth_error (omap (fun v =>
    if silent v || negb (uv_ifindex v =? ifindex) then None else pa_addr <$> foldl max_step None (uv_addrs v)) t) 0.
End Code.
