(* ===== verification/PimVifOk.v ===== *)
(** * PimVifOk: the table of interfaces

    [config_vifs_from_kernel] gathers the addresses of each interface, in
    whatever order the kernel tells them.  An interface that was stopped cannot
    be started again. *)

From stdpp Require Import base list numbers gmap.
From S2P Require Import Prelude Callout Inet6 Pim Vif RpMatch PimMsg PimSend PimJp PimBsr PimNbr PimTimer Mld MldProto MldMem MldRun PimVif.
Open Scope Z_scope.

(** ** What the table should be *)

(** The numbers of a list in the order of their first occurrence. *)
Definition add_new (ds : list Z) (i : Z) : list Z := if decide (i ∈ ds) then ds else ds ++ [i].
Definition distinct (l : list Z) : list Z := foldl add_new [] l.

(** The addresses an interface can have. *)
Definition counted (a : ifaddr) : Prop := ifa_inet6 a = true /\ ifa_anycast a = Some false /\ ifa_ifindex a <> 0.
#[export] Instance counted_dec a : Decision (counted a) := _.

Definition phaddr_of (a : ifaddr) : phaddr :=
  new_phaddr (kame_addr (ifa_ifindex a) (ifa_addr a)) (ifa_netmask a)
    (kame_addr (ifa_ifindex a) <$> (if has (ifa_flags a) IFF_POINTOPOINT then ifa_dstaddr a else None)).
Definition is_linklocal (pa : phaddr) : Prop := IN6_IS_ADDR_LINKLOCAL (sin6_addr (pa_addr pa)) = true.
#[export] Instance is_linklocal_dec pa : Decision (is_linklocal pa) := _.

(** The addresses of interface [i]. *)
Definition of_vif (i : Z) (l : list ifaddr) : list ifaddr := filter (fun a => ifa_ifindex a = i) l.
Definition indexes (l : list ifaddr) : list Z := distinct (ifa_ifindex <$> filter counted l).

(** An interface with the addresses [l]: all of them, the last one in front,
    the last link-local one is the link-local address, and it is down if the
    kernel said so with the last. *)
Record gathers (l : list ifaddr) (v : uvif) : Prop := {
  ga_addrs : uv_addrs v = reverse (phaddr_of <$> l);
  ga_linklocal : uv_linklocal v = last (filter is_linklocal (phaddr_of <$> l));
  ga_down : has (uv_flags v) VIFF_DOWN = match last l with Some a => negb (has (ifa_flags a) IFF_UP) | None => true end
}.

(** The table for the addresses [l]. *)
Definition table_for (l : list ifaddr) (t : list uvif) : Prop :=
  uv_ifindex <$> t = indexes l /\ Forall (fun v => gathers (of_vif (uv_ifindex v) (filter counted l)) v) t.

(** The interfaces that are counted: those of other addresses, those without a
    number, and each other once. *)
Definition uncounted (l : list ifaddr) : list ifaddr :=
  filter (fun a => ifa_inet6 a = false \/ (ifa_anycast a = Some false /\ ifa_ifindex a = 0)) l.
Definition total_for (l : list ifaddr) : Z := zlen (uncounted l) + zlen (indexes l).

Lemma distinct_snoc l i : distinct (l ++ [i]) = add_new (distinct l) i.
Proof. unfold distinct. by rewrite foldl_app. Qed.

Lemma NoDup_distinct l : NoDup (distinct l).
Proof.
  induction l as [|i l IH] using rev_ind; [constructor|]. rewrite distinct_snoc. unfold add_new. case_decide as D; [done|].
  apply NoDup_app. split; [done|]. split; [set_solver|apply NoDup_singleton].
Qed.

(** One address more. *)
Lemma indexes_snoc l a : indexes (l ++ [a]) = if decide (counted a) then add_new (indexes l) (ifa_ifindex a) else indexes l.
Proof.
  unfold indexes. rewrite filter_app. case_decide as D.
  - rewrite filter_cons_True, filter_nil, fmap_app by done. apply distinct_snoc.
  - by rewrite filter_cons_False, filter_nil, app_nil_r by done.
Qed.

Definition configured (a : ifaddr) (v : uvif) : uvif := kernel_flags (ifa_flags a) (with_phaddr (phaddr_of a) v).

Lemma has_down f : has f VIFF_DOWN = Z.testbit f 8.
Proof.
  unfold has. destruct (Z.testbit f 8) eqn:E.
  - apply negb_true_iff, Z.eqb_neq. intros H. apply (f_equal (fun z => Z.testbit z 8)) in H. by rewrite Z.land_spec, E in H.
  - apply negb_false_iff, Z.eqb_eq, Z.bits_inj'. intros n Hn. rewrite Z.land_spec, Z.bits_0. change VIFF_DOWN with (2 ^ 8).
    rewrite Z.pow2_bits_eqb by lia. destruct (Z.eqb_spec 8 n) as [<-|]; [by rewrite E|apply andb_false_r].
Qed.

Lemma kernel_flags_rest flags v : exists f, kernel_flags flags v = set_uv_flags f v /\ has f VIFF_DOWN = negb (has flags IFF_UP).
Proof.
  exists (uv_flags (kernel_flags flags v)). rewrite has_down. unfold kernel_flags.
  destruct (has flags IFF_POINTOPOINT), (has flags IFF_LOOPBACK || negb (has flags IFF_MULTICAST)), (has flags IFF_UP);
    (split; [reflexivity|]); cbn [uv_flags set_uv_flags flags_on flags_off negb]; rewrite ?Z.ldiff_spec, ?Z.lor_spec; change (Z.testbit VIFF_DOWN 8) with true;
    by rewrite ?andb_false_r, ?orb_true_r.
Qed.

Lemma configured_index a v : uv_ifindex (configured a v) = uv_ifindex v.
Proof.
  unfold configured. destruct (kernel_flags_rest (ifa_flags a) (with_phaddr (phaddr_of a) v)) as (f & -> & _).
  unfold with_phaddr. by destruct (IN6_IS_ADDR_LINKLOCAL _).
Qed.

Lemma gathers_snoc l a v : gathers l v -> gathers (l ++ [a]) (configured a v).
Proof.
  intros [A L D]. unfold configured. destruct (kernel_flags_rest (ifa_flags a) (with_phaddr (phaddr_of a) v)) as (f & -> & F).
  split.
  - rewrite fmap_app. cbn. rewrite reverse_snoc, <- A. unfold with_phaddr. by destruct (IN6_IS_ADDR_LINKLOCAL _).
  - rewrite fmap_app, filter_app. change (phaddr_of <$> [a]) with [phaddr_of a]. rewrite filter_cons, filter_nil. unfold with_phaddr.
    destruct (IN6_IS_ADDR_LINKLOCAL (sin6_addr (pa_addr (phaddr_of a)))) eqn:E.
    + rewrite decide_True by exact E. by rewrite last_snoc.
    + rewrite decide_False by (unfold is_linklocal; congruence). by rewrite app_nil_r, <- L.
  - by rewrite last_snoc.
Qed.

(** A table for [l] is one for [l] and an address more, when the interface of
    the address, that is found or a new one, has it. *)
Lemma of_vif_snoc i l a : of_vif i (filter counted (l ++ [a])) =
  of_vif i (filter counted l) ++ (if decide (counted a /\ ifa_ifindex a = i) then [a] else []).
Proof.
  rewrite filter_app. unfold of_vif. rewrite filter_app. f_equal. case_decide as D.
  - destruct D. by rewrite !filter_cons_True, filter_nil by done.
  - destruct (decide (counted a)) as [C|C]; [|by rewrite (filter_cons_False counted)].
    by rewrite (filter_cons_True counted), filter_cons_False by tauto.
Qed.

Lemma indexes_elem l i : i ∈ indexes l <-> exists a, a ∈ filter counted l /\ ifa_ifindex a = i.
Proof.
  unfold indexes. enough (H : forall ls, i ∈ distinct ls <-> i ∈ ls) by (rewrite H, list_elem_of_fmap; naive_solver).
  intros ls. induction ls as [|j ls IH] using rev_ind; [done|]. rewrite distinct_snoc. unfold add_new. case_decide; set_solver.
Qed.

Lemma table_index l t n v : table_for l t -> t !! n = Some v -> indexes l !! n = Some (uv_ifindex v).
Proof. intros [E _] Et. by rewrite <- E, list_lookup_fmap, Et. Qed.

Lemma table_skip l t a : table_for l t -> ~ counted a -> table_for (l ++ [a]) t.
Proof.
  intros [E F] N. split; [by rewrite indexes_snoc, decide_False|]. eapply Forall_impl; [exact F|]. cbn. intros v G.
  rewrite of_vif_snoc, decide_False, app_nil_r by tauto. done.
Qed.

Lemma table_more l t a n v : table_for l t -> counted a -> t !! n = Some v -> uv_ifindex v = ifa_ifindex a ->
  table_for (l ++ [a]) (<[n := configured a v]> t).
Proof.
  intros T C Ev Ei. destruct T as [E F]. split.
  - rewrite list_fmap_insert, configured_index, indexes_snoc, decide_True by done. unfold add_new.
    rewrite decide_True, E. { apply list_insert_id. rewrite <- E, list_lookup_fmap, Ev. done. }
    rewrite <- E. apply list_elem_of_fmap. exists v. split; [done|by eapply list_elem_of_lookup_2].
  - apply Forall_lookup. intros m w Ew. apply list_lookup_insert_Some in Ew as [(-> & <- & _)|[Ne Ew]].
    + rewrite configured_index, of_vif_snoc, decide_True by done. apply gathers_snoc. by eapply Forall_lookup_1 in F.
    + rewrite of_vif_snoc, decide_False, app_nil_r; [by eapply Forall_lookup_1 in F|]. intros [_ H]. apply Ne.
      eapply (NoDup_lookup (indexes l)); [apply NoDup_distinct| |by apply (table_index l t m w (conj E F))].
      rewrite <- H, <- Ei. by apply (table_index l t n v (conj E F)).
Qed.

Lemma table_new l t a v : table_for l t -> counted a -> ifa_ifindex a ∉ indexes l -> gathers [] v -> uv_ifindex v = ifa_ifindex a ->
  table_for (l ++ [a]) (t ++ [configured a v]).
Proof.
  intros [E F] C N G Ei. split.
  - rewrite fmap_app, E, indexes_snoc, decide_True by done. cbn. unfold add_new. by rewrite decide_False, configured_index, Ei by done.
  - apply Forall_app. split; [|apply Forall_singleton].
    + apply Forall_lookup. intros m w Ew. rewrite of_vif_snoc, decide_False, app_nil_r; [by eapply Forall_lookup_1 in F|].
      intros [_ H]. apply N. rewrite H. eapply list_elem_of_lookup_2. by apply (table_index l t m w (conj E F)).
    + rewrite configured_index, of_vif_snoc, decide_True by done. apply gathers_snoc.
      assert (Z0 : of_vif (uv_ifindex v) (filter counted l) = []).
      { unfold of_vif. destruct (filter (fun a => ifa_ifindex a = uv_ifindex v) (filter counted l)) as [|b k] eqn:K; [done|]. exfalso. apply N.
        apply indexes_elem. exists b. assert (B : b ∈ b :: k) by set_solver. rewrite <- K in B. apply list_elem_of_filter in B as [B1 B2].
        by rewrite B1, Ei. }
      by rewrite Z0.
Qed.

(** ** The code *)

Lemma with_index_lookup {A} (t : list A) n : with_index t !! n = (fun v => (Z.of_nat n, v)) <$> t !! n.
Proof.
  unfold with_index. rewrite lookup_zip_with. destruct (t !! n) as [v|] eqn:E; cbn.
  - rewrite lookup_seqZ_lt by (apply lookup_lt_Some in E; unfold zlen; lia). done.
  - destruct (seqZ 0 (zlen t) !! n); done.
Qed.

(** The search of the table by the number of the interface. *)
Lemma find_by_index i t :
  match List.find (fun '(_, v) => i =? uv_ifindex v) (with_index t) with
  | Some (vifi, v) => exists n, vifi = Z.of_nat n /\ t !! n = Some v /\ uv_ifindex v = i
  | None => i ∉ uv_ifindex <$> t
  end.
Proof.
  destruct (List.find _ _) as [[vifi v]|] eqn:E.
  - apply List.find_some in E as [I E]. apply list_elem_of_In, list_elem_of_lookup in I as [n I]. rewrite with_index_lookup in I.
    destruct (t !! n) as [w|] eqn:W; [|done]. injection I as <- ->. exists n. apply Z.eqb_eq in E. done.
  - intros I. apply list_elem_of_fmap in I as (v & -> & I). apply list_elem_of_lookup in I as [n I].
    assert (K : (Z.of_nat n, v) ∈ with_index t) by (apply list_elem_of_lookup; exists n; by rewrite with_index_lookup, I).
    apply list_elem_of_In in K. pose proof (List.find_none _ _ E _ K) as H. cbn in H. by rewrite Z.eqb_refl in H.
Qed.

Section Config.
Context {S : Type} (pref metric : Z).
Implicit Types (st : Ifs S) (t : list uvif) (a : ifaddr) (l : list ifaddr).

(** The state while the table is filled: [st] with the table [t], and [total]
    interfaces counted. *)
Definition conf st t (total : Z) (down : bool) : Ifs S :=
  let '(q, m) := daemon st in
  mkIfs (q, set_mvifs ((fun _ => blank_mvif) <$> t) (set_pim (set_total_interfaces total (set_uvifs t (pim m))) m)) down
    (phys_vif st) (mif_calls st).

Abbreviation find_vif := (find_vif (S := S) pref metric).
Abbreviation config_ifaddr := (config_ifaddr (S := S) pref metric VIFF_ENABLED).

Lemma vif_table_conf st t n d : vif_table (conf st t n d) = Ok t (conf st t n d).
Proof. by destruct st as [[q []]]. Qed.

Lemma count_conf st t n d : count_interface (conf st t n d) = Ok tt (conf st t (s32 (n + 1)) d).
Proof. by destruct st as [[q []]]. Qed.

Lemma install_conf st t n d v : install v blank_mvif (conf st t n d) = Ok tt (conf st (t ++ [v]) n d).
Proof. destruct st as [[q []]]. unfold conf. cbn. by rewrite fmap_app. Qed.

Lemma down_conf st t n d b : set_vifs_down b (conf st t n d) = Ok tt (conf st t n b).
Proof. by destruct st as [[q []]]. Qed.

Lemma upd_conf st t n d (k : nat) v f : t !! k = Some v ->
  router (upd_vif (Z.of_nat k) f) (conf st t n d) = Ok tt (conf st (<[k := f v]> t) n d).
Proof.
  intros E. destruct st as [[q [p]]]. unfold conf, router, on_daemon, routing, upd_vif. cbn. unfold bind at 1, get. cbn.
  rewrite rd_of_nat, E. unfold bind, of_option, ret. rewrite store_nat by (by eapply lookup_lt_Some). cbn.
  rewrite list_fmap_insert, (list_insert_id (_ <$> t) k); [done|]. by rewrite list_lookup_fmap, E.
Qed.

Lemma add_conf st t n d (k : nat) v addr mask rmt : mld_mallocs (daemon st).2 = [] -> t !! k = Some v ->
  add_phaddr (Z.of_nat k) addr mask rmt (conf st t n d) = Ok tt (conf st (<[k := with_phaddr (new_phaddr addr mask rmt) v]> t) n d).
Proof.
  intros M E. unfold add_phaddr. assert (N : on_daemon next_malloc_ok (conf st t n d) = Ok true (conf st t n d)).
  { destruct st as [[q m]]. unfold conf, on_daemon, next_malloc_ok, bind, mld. cbn in M |- *. by rewrite M. }
  rewrite (bind_Ok _ _ _ _ _ N). by apply upd_conf.
Qed.

(** The new interface for a number. *)
Definition new_vif (i : Z) : uvif := set_uv_ifindex i (set_uv_flags VIFF_DOWN (blank_vif pref metric)).

Lemma gathers_new i : gathers [] (new_vif i).
Proof. done. Qed.

(** The search in the table, with and without a new interface. *)
Lemma find_found st t n d i c (k : nat) v : i <> 0 -> t !! k = Some v -> uv_ifindex v = i -> NoDup (uv_ifindex <$> t) ->
  find_vif i c VIFF_ENABLED (conf st t n d) = Ok (Some (Z.of_nat k)) (conf st t n d).
Proof.
  intros I Ek Ei Nd. unfold PimVif.find_vif. rewrite (proj2 (Z.eqb_neq _ _) I), (bind_Ok _ _ _ _ _ (vif_table_conf st t n d)).
  pose proof (find_by_index i t) as F. destruct (List.find _ _) as [[vifi w]|].
  - destruct F as (m & -> & Em & Ew). replace m with k; [done|]. eapply NoDup_lookup; [exact Nd|rewrite list_lookup_fmap, Ek; done|].
    rewrite list_lookup_fmap, Em. cbn. congruence.
  - exfalso. apply F. apply list_elem_of_fmap. exists v. split; [done|by eapply list_elem_of_lookup_2].
Qed.

Lemma find_missing st t n d i : i <> 0 -> i ∉ uv_ifindex <$> t ->
  find_vif i DONT_CREATE VIFF_ENABLED (conf st t n d) = Ok None (conf st t n d) /\
  find_vif i CREATE VIFF_ENABLED (conf st t n d) =
    if decide (zlen t >= MAXMIFS) then Stop OutOfBounds (conf st t n d) else Ok (Some (Z.of_nat (length t))) (conf st (t ++ [new_vif i]) n d).
Proof.
  intros I N. unfold PimVif.find_vif. rewrite (proj2 (Z.eqb_neq _ _) I), !(bind_Ok _ _ _ _ _ (vif_table_conf st t n d)).
  pose proof (find_by_index i t) as F. destruct (List.find _ _) as [[vifi w]|].
  - destruct F as (m & -> & Em & Ew). destruct N. apply list_elem_of_fmap. exists w. split; [done|by eapply list_elem_of_lookup_2].
  - split; [done|]. change (negb (VIFF_ENABLED =? VIFF_ENABLED)) with false. cbn iota. case_decide; [done|].
    by rewrite (bind_Ok _ _ _ _ _ (install_conf st t n d (new_vif i))).
Qed.

(** The address [a] is added to the interface at [k]. *)
Definition add_to (k : nat) a : Cmd (Ifs S) unit :=
  do! add_phaddr (Z.of_nat k) (kame_addr (ifa_ifindex a) (ifa_addr a)) (ifa_netmask a)
    (kame_addr (ifa_ifindex a) <$> (if has (ifa_flags a) IFF_POINTOPOINT then ifa_dstaddr a else None)) ;;
  do! router (upd_vif (Z.of_nat k) (kernel_flags (ifa_flags a))) ;;
  if has (ifa_flags a) IFF_UP then ret tt else set_vifs_down true.

Lemma add_to_conf st t n d (k : nat) v a : mld_mallocs (daemon st).2 = [] -> t !! k = Some v ->
  exists d', add_to k a (conf st t n d) = Ok tt (conf st (<[k := configured a v]> t) n d').
Proof.
  intros M E. unfold add_to. rewrite (bind_Ok _ _ _ _ _ (add_conf st t n d k v _ _ _ M E)).
  assert (Lk : (k < length t)%nat) by by eapply lookup_lt_Some.
  assert (E' : <[k:=with_phaddr (phaddr_of a) v]> t !! k = Some (with_phaddr (phaddr_of a) v)) by by rewrite list_lookup_insert_eq.
  rewrite (bind_Ok _ _ _ _ _ (upd_conf st _ n d k _ _ E')), list_insert_insert_eq. fold (configured a v).
  destruct (has (ifa_flags a) IFF_UP); [by exists d|]. exists true. apply down_conf.
Qed.

Lemma total_snoc l a : total_for (l ++ [a]) =
  total_for l + (if decide (ifa_inet6 a = false \/ (ifa_anycast a = Some false /\ ifa_ifindex a = 0)) then 1 else 0)
  + (if decide (counted a /\ ifa_ifindex a ∉ indexes l) then 1 else 0).
Proof.
  unfold total_for, uncounted. rewrite filter_app, zlen_app, filter_cons, filter_nil, indexes_snoc.
  case_decide as U; destruct (decide (counted a)) as [C|C]; unfold add_new; destruct (decide (ifa_ifindex a ∈ indexes l)) as [N|N];
    destruct (decide (counted a /\ ifa_ifindex a ∉ indexes l)) as [D|D]; try (exfalso; tauto);
    rewrite ?zlen_app, ?zlen_cons, ?(zlen_nil (A := Z)), ?(zlen_nil (A := ifaddr)); lia.
Qed.

Lemma total_le l : 0 <= total_for l <= zlen l.
Proof.
  induction l as [|a l IH] using rev_ind; [done|]. rewrite total_snoc, zlen_app. change (zlen [a]) with 1.
  case_decide as U; case_decide as C; try lia. destruct C as [(C1 & C2 & C3) _]. destruct U as [U|[_ U]]; congruence.
Qed.

Lemma counted_is a : ifa_anycast a <> None -> ifa_inet6 a = true -> ifa_anycast a <> Some true -> ifa_anycast a = Some false.
Proof. by destruct (ifa_anycast a) as [[]|]. Qed.

(** One address more in the table; with too many interfaces the code writes
    behind it. *)
Lemma config_step st l t d a : mld_mallocs (daemon st).2 = [] -> table_for l t -> ifa_anycast a <> None -> zlen l < 2 ^ 31 - 1 ->
  zlen (indexes l) <= MAXMIFS ->
  if decide (zlen (indexes (l ++ [a])) <= MAXMIFS)
  then exists t' d', config_ifaddr a (conf st t (total_for l) d) = Ok tt (conf st t' (total_for (l ++ [a])) d') /\ table_for (l ++ [a]) t'
  else exists st', config_ifaddr a (conf st t (total_for l) d) = Stop OutOfBounds st'.
Proof.
  intros M T Ac Ll Lm. pose proof (total_le l) as Tl. rewrite total_snoc, indexes_snoc. unfold PimVif.config_ifaddr.
  assert (P31 : 2 ^ 31 = 2147483648) by done.
  assert (C1 : forall t d, count_interface (conf st t (total_for l) d) = Ok tt (conf st t (total_for l + 1) d)).
  { intros t' d'. rewrite count_conf, s32_small; [done|lia]. }
  destruct (ifa_inet6 a) eqn:I6; cbn [negb].
  2:{ assert (N : ~ counted a) by (intros [? _]; congruence). rewrite (decide_False (P := counted a)), decide_True by done.
      exists t, d. rewrite C1, decide_True, decide_False, Z.add_0_r by tauto. split; [done|by apply table_skip]. }
  destruct (ifa_anycast a) as [[]|] eqn:A; [| |done].
  { assert (N : ~ counted a) by (intros (_ & ? & _); congruence). rewrite (decide_False (P := counted a)), decide_True by done.
    exists t, d. rewrite !decide_False, !Z.add_0_r by (tauto || intros [?|[? _]]; congruence). split; [done|by apply table_skip]. }
  destruct (decide (ifa_ifindex a = 0)) as [Z0|Z0].
  { assert (N : ~ counted a) by (intros (_ & _ & ?); congruence). rewrite (decide_False (P := counted a)), decide_True by done.
    exists t, d. rewrite (decide_True (P := _ \/ _)), decide_False, Z.add_0_r by tauto.
    assert (F : forall c s, find_vif (ifa_ifindex a) c VIFF_ENABLED s = Ok None s) by (intros c s; unfold PimVif.find_vif; by rewrite Z0).
    rewrite (bind_Ok _ _ _ _ _ (F _ _)), bind_assoc, (bind_Ok _ _ _ _ _ (C1 t d)), (bind_Ok _ _ _ _ _ (F _ _)).
    split; [done|by apply table_skip]. }
  assert (C : counted a) by done. rewrite (decide_True (P := counted a)) by done. rewrite (decide_False (P := _ \/ _)), Z.add_0_r.
  2:{ intros [?|[_ ?]]; congruence. }
  change (if decide (has (ifa_flags a) IFF_POINTOPOINT) then ifa_dstaddr a else None) with
         (if has (ifa_flags a) IFF_POINTOPOINT then ifa_dstaddr a else None). unfold add_new.
  destruct T as [E F]. destruct (decide (ifa_ifindex a ∈ indexes l)) as [In|In].
  - rewrite (decide_True (P := zlen _ <= _)) by exact Lm. rewrite (decide_False (P := _ /\ _)), Z.add_0_r by tauto.
    assert (In' := In). rewrite <- E in In'. apply list_elem_of_fmap in In' as (v & Ei & Iv). apply list_elem_of_lookup in Iv as [k Ek].
    assert (Nd : NoDup (uv_ifindex <$> t)) by (rewrite E; apply NoDup_distinct).
    rewrite (bind_Ok _ _ _ _ _ (find_found st t (total_for l) d (ifa_ifindex a) DONT_CREATE k v Z0 Ek (eq_sym Ei) Nd)).
    destruct (add_to_conf st t (total_for l) d k v a M Ek) as [d' Ad]. exists (<[k := configured a v]> t), d'. split; [exact Ad|].
    by apply table_more.
  - assert (In' : ifa_ifindex a ∉ uv_ifindex <$> t) by by rewrite E.
    destruct (find_missing st t (total_for l) d _ Z0 In') as [F1 _]. destruct (find_missing st t (total_for l + 1) d _ Z0 In') as [_ F2].
    rewrite (bind_Ok _ _ _ _ _ F1), bind_assoc, (bind_Ok _ _ _ _ _ (C1 t d)).
    assert (Zt : zlen t = zlen (indexes l)) by (rewrite <- E; unfold zlen; by rewrite length_fmap). rewrite Zt in F2. rewrite zlen_app. change (zlen [ifa_ifindex a]) with 1.
    destruct (decide (zlen (indexes l) + 1 <= MAXMIFS)) as [D|D].
    + unfold bind at 1. rewrite F2, (decide_False (P := zlen _ >= _)), (decide_True (P := _ /\ _)) by (tauto || lia).
      assert (Ek : (t ++ [new_vif (ifa_ifindex a)]) !! length t = Some (new_vif (ifa_ifindex a))) by by rewrite lookup_app_r, Nat.sub_diag by lia.
      destruct (add_to_conf st _ (total_for l + 1) d _ _ a M Ek) as [d' Ad].
      exists (<[length t := configured a (new_vif (ifa_ifindex a))]> (t ++ [new_vif (ifa_ifindex a)])), d'. split; [exact Ad|].
      rewrite insert_app_r_alt, Nat.sub_diag by lia. by apply table_new.
    + unfold bind at 1. rewrite F2, decide_True by lia. by eexists.
Qed.

Lemma indexes_mono l k : zlen (indexes l) <= zlen (indexes (l ++ k)).
Proof.
  induction k as [|a k IH] using rev_ind; [by rewrite app_nil_r|]. rewrite app_assoc, indexes_snoc. case_decide; [|done].
  unfold add_new. case_decide; [done|]. rewrite zlen_app. change (zlen [ifa_ifindex a]) with 1. lia.
Qed.

Lemma config_each st k : mld_mallocs (daemon st).2 = [] -> Forall (fun a => ifa_anycast a <> None) k -> forall l t d,
  table_for l t -> zlen (l ++ k) < 2 ^ 31 - 1 -> zlen (indexes l) <= MAXMIFS ->
  if decide (zlen (indexes (l ++ k)) <= MAXMIFS)
  then exists t' d', each config_ifaddr k (conf st t (total_for l) d) = Ok tt (conf st t' (total_for (l ++ k)) d') /\ table_for (l ++ k) t'
  else exists st', each config_ifaddr k (conf st t (total_for l) d) = Stop OutOfBounds st'.
Proof.
  intros M F. induction F as [|a k A _ IH]; intros l t d T Ll Lm.
  { rewrite app_nil_r in *. rewrite decide_True by exact Lm. exists t, d. done. }
  rewrite zlen_app, zlen_cons in Ll. pose proof (zlen_nonneg k) as Zk. pose proof (zlen_nonneg l) as Zl.
  pose proof (config_step st l t d a M T A ltac:(lia) Lm) as Step. cbn [each].
  assert (Ea : l ++ a :: k = (l ++ [a]) ++ k) by by rewrite <- app_assoc. rewrite Ea.
  destruct (decide (zlen (indexes (l ++ [a])) <= MAXMIFS)) as [D|D].
  - destruct Step as (t1 & d1 & E1 & T1). rewrite !(bind_Ok _ _ _ _ _ E1).
    apply IH; [exact T1| |exact D]. rewrite !zlen_app. change (zlen [a]) with 1. lia.
  - destruct Step as [st' E1]. rewrite decide_False by (pose proof (indexes_mono (l ++ [a]) k); lia). exists st'. unfold bind. by rewrite E1.
Qed.
End Config.

(** C19. the table of interfaces is what the kernel says, in whatever order it
    tells the addresses: it has each interface with an IPv6 address once, in the
    order they are first heard of, each with all its addresses, the last
    link-local one as link-local address, and down if the kernel said so last;
    and as many interfaces are counted as the table has, or more, as the
    timers of the routing table need.  With more than [MAXMIFS] interfaces the
    code writes behind the table. *)
Theorem interfaces_gathered {S} pref metric l (st : Ifs S) :
  uvifs (pim (daemon st).2) = [] -> mvifs (daemon st).2 = [] -> mld_mallocs (daemon st).2 = [] ->
  Forall (fun a => ifa_anycast a <> None) l -> zlen l < 2 ^ 31 - 1 ->
  let r := config_vifs_from_kernel pref metric VIFF_ENABLED (Some l) st in
  if decide (zlen (indexes l) <= MAXMIFS)
  then exists st', r = Ok tt st' /\ let p := pim (daemon st').2 in
    table_for l (uvifs p) /\ length (mvifs (daemon st').2) = length (uvifs p) /\
    total_interfaces p = total_for l /\ zlen (uvifs p) <= total_interfaces p
  else exists st', r = Stop OutOfBounds st'.
Proof.
  intros U Mv M F Ll r.
  assert (Cf : router (modify (set_total_interfaces 0)) st = Ok tt (conf st [] (total_for []) (vifs_down st))).
  { destruct st as [[q [p]] ?]. cbn in U, Mv |- *. subst. unfold conf, router, on_daemon, routing, modify, set_pim, set_mvifs. cbn.
    destruct p. cbn in U. subst. done. }
  assert (R : r = each (config_ifaddr pref metric VIFF_ENABLED) l (conf st [] (total_for []) (vifs_down st))).
  { unfold r, config_vifs_from_kernel. by rewrite (bind_Ok _ _ _ _ _ Cf). }
  rewrite R. pose proof (config_each pref metric st l M F [] [] (vifs_down st)) as G. cbn [app] in G.
  specialize (G ltac:(done) Ll ltac:(done)). case_decide as D; [|exact G]. destruct G as (t' & d' & -> & T). eexists. split; [reflexivity|].
  destruct st as [[q m] ?]. cbn. rewrite length_fmap. split_and!; [exact T|done|done|]. destruct T as [E _].
  unfold total_for, zlen. rewrite <- E, length_fmap. lia.
Qed.

(** Two interfaces whose addresses are told in turn, one of them twice, an
    anycast address, and an address that is not of IPv6. *)
Definition v6_addr (net i b : Z) : sockaddr_in6 := mkSa 0 ([0xfe; net; 0; i] ++ replicate 11 0 ++ [b]).
Definition told (i : Z) (a : sockaddr_in6) (flags : Z) : ifaddr := mkIfa true i a (replicate 8 255 ++ replicate 8 0) None flags (Some false).
Definition link_up : Z := Z.lor IFF_UP IFF_MULTICAST.
Definition two_links : list ifaddr :=
  [told 1 (v6_addr 0x80 1 1) link_up; mkIfa false 7 (v6_addr 0 0 0) [] None link_up (Some false); told 2 (v6_addr 0x80 2 2) link_up;
   told 1 (v6_addr 0 1 1) link_up; mkIfa true 2 (v6_addr 0 2 9) [] None link_up (Some true); told 2 (v6_addr 0 2 2) link_up].

(** A daemon before it knows its interfaces. *)
Definition bare_daemon : Mld :=
  mkMld (set_vars (set_pim6_send_buf (replicate 300 0) (set_pim_join_prune_period 60 (set_pim_hello_period 30 (set_pim_hello_holdtime 105 idle_vars))))
    daemon1) ∅ ∅ [] 1 [] (replicate 100 0) [].
Definition many_links : list ifaddr := (fun i => told i (v6_addr 0x80 1 1) link_up) <$> seqZ 1 65.

Lemma interfaces_gathered_witness :
  let st := mkIfs (tt, bare_daemon) false 0 [] in
  let r := config_vifs_from_kernel 7 8 VIFF_ENABLED (Some two_links) st in
  (exists st', r = Ok tt st' /\ let p := pim (daemon st').2 in
     table_for two_links (uvifs p) /\ length (mvifs (daemon st').2) = length (uvifs p) /\
     total_interfaces p = 3 /\ zlen (uvifs p) <= total_interfaces p) /\
  indexes two_links = [1; 2] /\
  exists st', config_vifs_from_kernel 7 8 VIFF_ENABLED (Some many_links) st = Stop OutOfBounds st'.
Proof.
  intros st r. split; [|split; [reflexivity|]].
  - exact (interfaces_gathered 7 8 two_links st eq_refl eq_refl eq_refl ltac:(by repeat constructor) ltac:(done)).
  - assert (F : Forall (fun a => ifa_anycast a <> None) many_links) by by repeat constructor.
    exact (interfaces_gathered 7 8 many_links st eq_refl eq_refl eq_refl F ltac:(done)).
Defined.

(** ** Interfaces that come back *)

(** The daemon is started with the two interfaces; then it looks at them when
    the links are as told. *)
Definition watched (links : list (Z -> Z)) : Cmd (Ifs (Callouts mld_timer)) unit :=
  do! init_vifs false old_listener (fun _ => true) 0 0 VIFF_ENABLED (ret true) (Some two_links) ;;
  each (fun link => check_vif_state false old_listener (fun _ => true) (fun i => Some (link i))) links.

Definition fails {T A} (o : outcome T A) : bool := match o with Stop _ _ => true | _ => false end.

(** The daemon starts, and stands the loss of an interface; it does not stand
    that the interface comes back, nor that it looks again after the interface
    with the address of the register interface is lost. *)
Example interface_back :
  let st := mkIfs (mkCallouts [] 0 [] [], bare_daemon) false 0 [] in
  let all := fun _ => link_up in
  let without := fun i j => if j =? i then 0 else link_up in
  fails (watched [all; without 2] st) = false /\ fails (watched [without 2; without 2] st) = false /\
  fails (watched [without 1] st) = false /\
  fails (watched [without 2; all] st) = true /\ fails (watched [without 1; without 1] st) = true.
Proof. vm_compute. split_and!; reflexivity. Qed.
